(* ===== verification/_CoqProject ===== *)
-Q . S2P
Prelude.v
BlockIface.v
BootFat32.v
BootFat32Proofs.v
BootFat32Spec.v
BootMmu.v
BootConsole.v
BootMain.v
BootMainSpec.v
BootExample.v
VirtioBlk.v
VirtioBlkProofs.v
VirtioBlkSpec.v
PhysMem.v
PhysMemProofs.v
PhysMemSpec.v
PhysMemClaims.v
SharedHeap.v
SharedHeapProofs.v
SharedHeapSpec.v
KernelText.v
DList.v
KernelIface.v
KernelToy.v
KernelEvent.v
KernelEventRing.v
KernelEventProofs.v
KernelEventPublish.v
KernelEventWake.v
KernelEventCalls.v
KernelEventSpec.v
KernelEventClaims.v
ResourceManager.v
ResourceSpec.v
ResourceClaims.v
SchedState.v
Scheduler.v
SchedQueues.v
SchedOps.v
SchedInv.v
SchedLogic.v
SchedProofs.v
SchedSwitch.v
SchedCalls.v
SchedTimer.v
SchedRequests.v
SchedSystem.v
ThreadRegistry.v
SchedExample.v
SchedSpec.v
HeapList.v
LifeState.v
Lifecycle.v
LifeInv.v
LifeChanges.v
LifeDestroy.v
LifeEnd.v
LifeMake.v
LifeCalls.v
LifeTree.v
LifeSystem.v
LifeProps.v
PngBits.v
PngHuffman.v
PngHuffmanProofs.v
PngCanonical.v
PngNodes.v
PngBuild.v
PngInflate.v
PngInflateProofs.v
PngDeflate.v
PngDeflateProofs.v
PngDeflateSpec.v
PngFilter.v
PngFilterSpec.v
PngFile.v
PngFileProofs.v
PngRenderSpec.v
PngEntrySpec.v
PngExample.v
