(* ===== verification/Prelude.v ===== *)
(** * A verification of parts of raspi3-os

    raspi3-os is an operating system for AArch64 (the Raspberry Pi 3 and the
    QEMU virt board): a second-stage bootloader in C, a kernel in C++ and C, and
    user programs and libraries in C and C++.  This library models ten of its
    parts as executable functions and proves what makes each of them correct.
    File names below are relative to src/.

    ** Conventions

    A w-bit unsigned value is a [Z] in [0 .. 2^w - 1]; every operation that can
    overflow applies [u8], [u16], [u32] or [u64].  Arrays are lists; [aget] and
    [aset] are [Undef] outside them.  A pointer into a table is an index, a pointer
    to a heap object is its address in a finite map, NULL is [None].  A computation
    is an [Exec]: [Ok] is completion, [Fail] an early return of a status, [Undef]
    an access outside the object, and [NoFuel] a loop that was not given enough
    turns.  "Completes" therefore always means terminates and stays in bounds.  A
    loop with a known number of turns is [for_range]; other loops are [iterate],
    with the fuel at the definition.  The fuel is proved to be enough in every
    theorem that says an operation completes: it is derived from the size of the
    structure the loop walks (clusters of a volume, bits of a stream, nodes of a
    list, free blocks) or, for the two loops of the bootloader that a hostile medium
    keeps from ending, the theorem is that no fuel is enough.

    ** The bootloader

    The loader reads the kernel image from a FAT32 volume on a virtio disk, copies
    it to its place, builds page tables and jumps to it.
    - BlockIface: the interface between the file system and the disk driver, a
      class [BlockDevice] with the laws [BlockDeviceLaws].
    - BootFat32, BootFat32Proofs, BootFat32Spec: kernel/bootloader/fs/fat32.c,
      proved against the interface.  Mounting finds the partition and its geometry,
      opening finds the entry of the root directory, reading returns the bytes of
      the file through its cluster chain; on any medium reading stays in bounds; a
      cyclic directory chain is never left.
    - VirtioBlk, VirtioBlkProofs, VirtioBlkSpec: kernel/bootloader/block_device.c.
      Device registers, counter and cache maintenance are an environment with the
      behaviour the virtio specification documents; the device finds the request and
      the buffer by the descriptors the driver publishes.  The driver discharges
      [BlockDeviceLaws], so the file system theorems hold of the two together.
    - BootMmu: kernel/bootloader/arch/aarch64/mmu.c and the descriptors of
      kernel/include/internal/mm/arch/aarch64/mmu_defs.h, with a table walk that
      says which addresses are mapped and how.
    - BootConsole: kernel/bootloader/console.c, the PL011 console.
    - BootMain, BootMainSpec: kernel/bootloader/main.c.  Header
      validation is exact, the copy puts the payload and the zeroed tail where the
      header says and nowhere else, and [boot_main] on a bootable volume ends at the
      kernel's entry point with the image in memory and mapped.

    ** The kernel

    - PhysMem, PhysMemProofs, PhysMemSpec, PhysMemClaims: kernel/mm/physical.cpp,
      the page manager.  Its linked free list refines an abstract pool of
      reference-counted pages under every sequence of calls that keeps the contract.
    - KernelText: terminated texts in fixed arrays.  DList: the intrusive doubly
      linked list the kernel's registries share, for any record type that is an
      instance of [Linked].
    - KernelIface: what the registries ask of the kernel heap and the scheduler, a
      class [Kernel] with the laws [KernelLaws].  Making a thread ready calls the
      event broker back before it returns, so the scheduler's part is a resumption.
      The laws cover the states with no ended thread left to reap ([calm]).
    - KernelEvent (kernel/kernel_event.cpp) with KernelEventRing, KernelEventProofs,
      KernelEventPublish, KernelEventWake, KernelEventCalls, KernelEventSpec and
      KernelEventClaims: the event broker.  Its calls refine a list of subscriptions
      with queues; publications nest through the scheduler, at most as deep as there
      are waiting threads, and still show every record to every subscription exactly
      once, with every loss counted; nothing leaks.  All this is of the histories in
      which no ended thread waits to be reaped when a thread is woken; what a reaping
      inside a publication does is shown on an example.  A thread blocked in [wait]
      resumes on freed memory when its subscription is removed meanwhile.
    - ResourceManager (kernel/resource_manager.cpp) with ResourceSpec and
      ResourceClaims: the resource registry.  Its calls refine a
      list of entries; the statistics are the counts and sums over it, the
      high-water marks their maxima, and every heap block is accounted for.
    - The scheduler, kernel/scheduler/scheduler.cpp with the context switch of
      kernel/arch/aarch64/context_switch.S.  SchedState has its data and the programs
      it is written in: a call may report to the event broker, have a thread
      destroyed or read devices, and these callees may come back with other threads
      ready or gone, so a program is a resumption.  Scheduler has the operations.
      What runs after a switch is a value in the context of the thread that gave way.
      SchedQueues, SchedOps and SchedInv relate the linked queues to lists and prove
      the invariant kept by every change; SchedLogic has the program logic and the
      contract [kernel] of the callees, and ThreadRegistry shows that releasing an
      ended thread (kernel/thread.cpp) is within it; SchedProofs, SchedSwitch,
      SchedCalls, SchedTimer and SchedRequests treat each call, SchedSystem any
      sequence of them and progress over time, and SchedSpec has the theorems:
      every call completes and keeps the queues, contexts and address space in order;
      the highest level is served first and round robin; sleepers wake on their tick
      and a slice ends on time; but a timed wait never reports its timeout, and a
      wake-up during a switch is lost.
    - Objects, processes and threads, kernel/object.cpp, kernel/process.cpp,
      kernel/thread.cpp, and [Scheduler::bootstrap], over the scheduler's state.
      HeapList has the growable arrays of kernel/include/heap_list.h, LifeState the
      state [Kern] and the programs (resumptions again, with more callees: the heap,
      the memory manager, what other parts hold for a process), Lifecycle every
      function of the three files.  LifeInv has the invariant [kinv]: the list of
      processes, the members of each, the registry of objects and the exit records
      are intact, identifiers are unique, every block taken from the heap has exactly
      one owner and every registered object is alive; [kgrows], what a call may change; the program logic;
      and the contract [outside] of the callees, which may come back with threads
      woken and ended ones destroyed.  LifeChanges treats the changes, LifeDestroy
      and LifeEnd destruction, LifeMake creation, LifeCalls the calls by identifier
      and the walk that reaps, LifeTree the trees of launched processes, LifeSystem
      any sequence of requests, and LifeProps, after an example of a kernel that has
      just started, has the theorems: every request is served and keeps the
      invariant; creation yields what was asked for or leaves nothing; destruction
      removes the process and all its threads and nothing else; the launcher reads
      the exit code exactly once; destroying an ended thread is within the contract
      [kernel] the scheduler is proved against, so that the two compose; terminating
      a tree destroys the children of the root and leaves the grandchildren, marked
      but running; and an ended thread that is destroyed before it is reaped stays on
      the scheduler's list.  A thread's last act may be to destroy its process and a
      process destroys its threads; the calls nest at most three deep, which
      [destroy_process] unrolls, and the theorems show that this is enough.

    ** User space

    - SharedHeap, SharedHeapProofs, SharedHeapSpec: the heap of
      applications/include/user_runtime.h, one call at a time.  The blocks tile the
      heap window; malloc, free and realloc keep live blocks disjoint and their
      contents, call by call and over any session of a program, and a request close to
      2^64 bytes wraps to a block of no bytes.
    - The PNG library, applications/libs/png/png.c: PngBits (bytes, checksums, bit
      reader), PngHuffman (trees), PngInflate (DEFLATE), PngFilter (scanlines and
      drawing), PngFile (chunks, growable buffers, files, rendering).  PngCanonical,
      PngNodes and PngBuild prove that the construction yields the canonical code
      of RFC 1951 within its node array; PngInflateProofs that the decoder is safe on
      every input; PngDeflate, PngDeflateProofs and PngDeflateSpec that it inverts an
      encoder for stored, fixed and dynamic blocks, written from the RFC with tables of
      its own; it refuses dynamic blocks without distance codes, which are valid;
      PngFilterSpec that rows are
      restored and drawn exactly; PngFileProofs, PngRenderSpec and PngEntrySpec
      that the parser computes a parse written from the PNG specification, that rendering any
      file is safe and gives back every block it allocated, and that rendering an
      encoded image draws its pixels.  The allocator and the file service are the
      interface [PngPlatform].

    Each part evaluates its definitions on concrete data and applies every theorem
    that has hypotheses to a case where they hold: in BootExample, SchedExample,
    PngExample and LifeProps, with the concrete kernel of KernelToy in
    KernelEventClaims and ResourceClaims, and at the end of VirtioBlkSpec,
    PhysMemClaims and SharedHeapSpec.

    ** Not modelled

    Of the scheduler, the loop of the idle thread (a poll and a yield, for ever) and
    the retail traces with their counters are left out.  The kernel heap
    (kernel/heap/heap.cpp), the virtual memory manager, the file systems of the kernel
    and the user heap service are interfaces or absent.  The system call layer,
    loaders, GUI service and user interface libraries build on these.  Assembly,
    linker scripts, the vendored font renderer, applications, host tools and the
    archived system under .old are left out.  Interrupts are a flag that operations save and restore, and the timer
    interrupts are calls between those of the threads: preemption between two
    statements of one operation is not modelled. *)
From stdpp Require Import base list numbers strings.
From Stdlib Require Import ZArith Lia.

Local Open Scope Z_scope.

(** ** Fixed-width integers

    Unsigned types are the residues [0 .. 2^w - 1]; signed types are the
    two's-complement residues.  Every definition that adds, multiplies or
    shifts at a C type applies the conversion of that type. *)
Definition u8 (z : Z) : Z := z mod 2 ^ 8.
Definition u16 (z : Z) : Z := z mod 2 ^ 16.
Definition u32 (z : Z) : Z := z mod 2 ^ 32.
Definition u64 (z : Z) : Z := z mod 2 ^ 64.
Definition i32 (z : Z) : Z := (z + 2 ^ 31) mod 2 ^ 32 - 2 ^ 31.
Definition i64 (z : Z) : Z := (z + 2 ^ 63) mod 2 ^ 64 - 2 ^ 63.

(** [is_byte b]: [b] is a value of type [U8]. *)
Definition is_byte (b : Z) : Prop := 0 <= b < 256.
Definition byteb (b : Z) : bool := (0 <=? b) && (b <? 256).
Definition bytes (l : list Z) : Prop := Forall is_byte l.

(** Length of an array, as the [Size] the code computes with. *)
Abbreviation len l := (Z.of_nat (length l)).

(** The characters of a C string literal. *)
Definition cstr (s : string) : list Z :=
  map (fun a => Z.of_nat (Ascii.nat_of_ascii a)) (String.list_ascii_of_string s).
Arguments cstr s%_string.

(** ** The [Status] enumeration of types.h *)
Inductive Status : Type :=
| StatusOK
| StatusInvalidArgument
| StatusNotFound
| StatusAlreadyExists
| StatusNotSupported
| StatusNoMemory
| StatusNoSpace
| StatusIoError
| StatusBusy
| StatusFault
| StatusFileNotFound.

#[global] Instance status_eq_dec : EqDecision Status.
Proof. solve_decision. Defined.

(** The enumerator's value, as a function returning [long] hands it out. *)
Definition status_code (s : Status) : Z :=
  match s with
  | StatusOK => 0
  | StatusInvalidArgument => -1
  | StatusNotFound => -2
  | StatusAlreadyExists => -3
  | StatusNotSupported => -4
  | StatusNoMemory => -5
  | StatusNoSpace => -6
  | StatusIoError => -7
  | StatusBusy => -8
  | StatusFault => -9
  | StatusFileNotFound => -10
  end.

Coercion status_code : Status >-> Z.

(** ** Executions

    [Ok] is normal completion, [Fail c] is the early [return c] of a status
    code, [Undef] is an access outside an array (undefined behaviour in C) and
    [NoFuel] says that the bound given to a [while] loop of the model ran out.
    A theorem that an operation is [Ok] therefore says that it terminates and
    stays inside its buffers. *)
Inductive Exec (A : Type) : Type :=
| Ok (a : A)
| Fail (code : Z)
| Undef
| NoFuel.
Arguments Ok {A} a.
Arguments Fail {A} code.
Arguments Undef {A}.
Arguments NoFuel {A}.

Declare Scope exec_scope.
Delimit Scope exec_scope with exec.

Definition bind {A B : Type} (m : Exec A) (k : A -> Exec B) : Exec B :=
  match m with
  | Ok a => k a
  | Fail c => Fail c
  | Undef => Undef
  | NoFuel => NoFuel
  end.

Notation "x <- m ;; k" := (bind m (fun x => k))
  (at level 20, m at level 99, k at level 200) : exec_scope.
Notation "' pat <- m ;; k" := (bind m (fun x => match x with pat => k end))
  (at level 20, pat pattern, m at level 99, k at level 200) : exec_scope.

Open Scope exec_scope.

(** The status a caller sees: the value of [return]. *)
Definition code_of {A : Type} (m : Exec A) : option Z :=
  match m with Ok _ => Some 0 | Fail c => Some c | _ => None end.

(** ** Arrays *)

(** [a[i]], undefined outside the array. *)
Definition aget {A : Type} (l : list A) (i : Z) : Exec A :=
  if i <? 0 then Undef
  else match l !! Z.to_nat i with Some x => Ok x | None => Undef end.

(** [a[i] = x], undefined outside the array. *)
Definition aset {A : Type} (l : list A) (i : Z) (x : A) : Exec (list A) :=
  if (0 <=? i) && (i <? len l) then Ok (<[Z.to_nat i := x]> l) else Undef.

(** ** Loops *)

(** [for (i = start; n times; ++i) body]. *)
Fixpoint for_range {S : Type} (n : nat) (i : Z) (body : Z -> S -> Exec S) (s : S) : Exec S :=
  match n with
  | O => Ok s
  | Datatypes.S n' => s' <- body i s ;; for_range n' (i + 1) body s'
  end.

(** [while] with [break]/[return]: the body answers [inl] to go round again and
    [inr] to leave the loop. *)
Fixpoint iterate {S R : Type} (fuel : nat) (step : S -> Exec (S + R)) (s : S) : Exec R :=
  match fuel with
  | O => NoFuel
  | Datatypes.S fuel' =>
      r <- step s ;;
      match r with
      | inl s' => iterate fuel' step s'
      | inr x => Ok x
      end
  end.

(** [for (k = 0; k < n; ++k) dst[doff + k] = src[soff + k]], between two
    distinct arrays. *)
Definition copy_loop (n : nat) (dst : list Z) (doff : Z) (src : list Z) (soff : Z)
  : Exec (list Z) :=
  for_range n 0
    (fun k d => x <- aget src (soff + k) ;; aset d (doff + k) x) dst.

(** [l] with the block [src] written at offset [off]. *)
Definition splice {A : Type} (l : list A) (off : nat) (src : list A) : list A :=
  take off l ++ src ++ drop (off + length src) l.

(** [n] elements of [l] from offset [off]. *)
Definition slice {A : Type} (l : list A) (off n : nat) : list A := take n (drop off l).

(** ** Weakest preconditions

    [wp m Q E]: [m] neither goes out of bounds nor runs out of fuel; a normal
    result satisfies [Q] and a returned status satisfies [E]. *)
Definition wp {A : Type} (m : Exec A) (Q : A -> Prop) (E : Z -> Prop) : Prop :=
  match m with
  | Ok a => Q a
  | Fail c => E c
  | Undef => False
  | NoFuel => False
  end.

(** Any error status: non-zero. *)
Definition is_error (c : Z) : Prop := c <> 0.

(** ** Generic lemmas *)

(** Sequencing after a normal result; rewriting with it keeps proof terms cheap
    to check where [cbn] would leave a conversion of two binds. *)
Lemma bind_ok {A B} (a : A) (k : A -> Exec B) : bind (Ok a) k = k a.
Proof. reflexivity. Qed.

Lemma bind_assoc {A B C} (m : Exec A) (f : A -> Exec B) (g : B -> Exec C) :
  bind (bind m f) g = bind m (fun x => bind (f x) g).
Proof. by destruct m. Qed.

Lemma bind_ok_inv {A B} (m : Exec A) (k : A -> Exec B) b :
  bind m k = Ok b -> exists a, m = Ok a /\ k a = Ok b.
Proof. destruct m; simpl; naive_solver. Qed.

Lemma wp_ok {A} (a : A) (Q : A -> Prop) E : Q a -> wp (Ok a) Q E.
Proof. done. Qed.

Lemma wp_fail {A} (c : Z) (Q : A -> Prop) (E : Z -> Prop) : E c -> wp (Fail c) Q E.
Proof. done. Qed.

Lemma wp_bind {A B} (m : Exec A) (k : A -> Exec B) Q E :
  wp m (fun a => wp (k a) Q E) E -> wp (bind m k) Q E.
Proof. by destruct m. Qed.

Lemma wp_mono {A} (m : Exec A) (Q Q' : A -> Prop) (E E' : Z -> Prop) :
  wp m Q E -> (forall a, Q a -> Q' a) -> (forall c, E c -> E' c) -> wp m Q' E'.
Proof. destruct m; simpl; eauto. Qed.

Lemma wp_post {A} (m : Exec A) (Q Q' : A -> Prop) (E : Z -> Prop) :
  wp m Q E -> (forall a, Q a -> Q' a) -> wp m Q' E.
Proof. destruct m; simpl; eauto. Qed.

Lemma wp_ok_inv {A} (m : Exec A) (Q : A -> Prop) E a : wp m Q E -> m = Ok a -> Q a.
Proof. by intros H ->. Qed.

Lemma wp_total {A} (m : Exec A) (Q : A -> Prop) :
  wp m Q (fun _ => False) -> exists a, m = Ok a /\ Q a.
Proof. destruct m as [a| | |]; simpl; [by exists a|done..]. Qed.

Lemma status_error (s : Status) : s <> StatusOK -> is_error s.
Proof. unfold is_error. by destruct s. Qed.

Lemma aget_ok {A} (l : list A) (i : Z) x :
  0 <= i -> l !! Z.to_nat i = Some x -> aget l i = Ok x.
Proof.
  intros Hi Hx. unfold aget. destruct (Z.ltb_spec i 0); [lia|]. by rewrite Hx.
Qed.

Lemma aget_lt {A} (l : list A) (i : Z) :
  0 <= i < len l -> exists x, aget l i = Ok x /\ l !! Z.to_nat i = Some x.
Proof.
  intros Hi.
  destruct (lookup_lt_is_Some_2 l (Z.to_nat i)) as [x Hx]; [lia|].
  exists x. split; [by apply aget_ok; [lia|] | done].
Qed.

Lemma aget_inv {A} (l : list A) (i : Z) x :
  aget l i = Ok x -> 0 <= i < len l /\ l !! Z.to_nat i = Some x.
Proof.
  unfold aget. destruct (Z.ltb_spec i 0); [done|].
  destruct (l !! Z.to_nat i) as [y|] eqn:Hy; [|done]. intros [= <-].
  apply lookup_lt_Some in Hy as Hlt. split; [lia|done].
Qed.

Lemma wp_aget {A} (l : list A) (i : Z) (Q : A -> Prop) E :
  0 <= i < len l -> (forall x, l !! Z.to_nat i = Some x -> Q x) -> wp (aget l i) Q E.
Proof. intros Hi HQ. destruct (aget_lt l i Hi) as (x & -> & Hx). by apply HQ. Qed.

Lemma aset_ok {A} (l : list A) (i : Z) x :
  0 <= i < len l -> aset l i x = Ok (<[Z.to_nat i := x]> l).
Proof.
  intros Hi. unfold aset.
  destruct (Z.leb_spec 0 i); destruct (Z.ltb_spec i (len l)); simpl; done || lia.
Qed.

Lemma wp_aset {A} (l : list A) (i : Z) x (Q : list A -> Prop) E :
  0 <= i < len l -> Q (<[Z.to_nat i := x]> l) -> wp (aset l i x) Q E.
Proof. intros Hi HQ. by rewrite aset_ok. Qed.

(** Loop rule: an invariant indexed by the counter. *)
Lemma wp_for_range {S} (n : nat) (start : Z) (body : Z -> S -> Exec S) (s : S)
    (I : Z -> S -> Prop) (Q : S -> Prop) E :
  I start s ->
  (forall i t, start <= i < start + Z.of_nat n -> I i t ->
     wp (body i t) (I (i + 1)) E) ->
  (forall t, I (start + Z.of_nat n) t -> Q t) ->
  wp (for_range n start body s) Q E.
Proof.
  revert start s. induction n as [|n IH]; intros start s Hs Hb Hq; simpl.
  - apply Hq. by replace (start + Z.of_nat 0) with start by lia.
  - apply wp_bind. eapply wp_post; [apply Hb; [lia|done]|].
    intros t Ht. apply IH; [done| |].
    + intros i u Hi Hu. apply Hb; [lia|done].
    + intros u Hu. apply Hq.
      by replace (start + Z.of_nat (Datatypes.S n)) with (start + 1 + Z.of_nat n) by lia.
Qed.

(** Loop rule: an invariant and a decreasing measure; the fuel exceeds it. *)
Lemma wp_iterate {S R} (fuel : nat) (step : S -> Exec (S + R)) (s : S)
    (I : S -> Prop) (m : S -> nat) (Q : R -> Prop) E :
  (forall t, I t ->
     wp (step t) (fun r => match r with
                           | inl t' => I t' /\ (m t' < m t)%nat
                           | inr x => Q x
                           end) E) ->
  I s -> (m s < fuel)%nat ->
  wp (iterate fuel step s) Q E.
Proof.
  intros Hstep. revert s. induction fuel as [|fuel IH]; intros s Hs Hm; [lia|].
  simpl. apply wp_bind. eapply wp_post; [by apply Hstep|].
  intros [t|x]; [|done]. intros [Ht Hlt]. apply IH; [done|lia].
Qed.

(** More fuel does not change an answer. *)
Lemma iterate_fuel_mono {S R} (step : S -> Exec (S + R)) (n m : nat) (s : S) :
  (n <= m)%nat -> iterate n step s <> NoFuel -> iterate m step s = iterate n step s.
Proof.
  revert m s. induction n as [|n IH]; intros m s Hle Hne; [done|].
  destruct m as [|m]; [lia|]. simpl in *.
  destruct (step s) as [[t|x]| | |]; simpl in *; try done. apply IH; [lia|done].
Qed.

Lemma for_range_ext {S} (n : nat) (i : Z) (f g : Z -> S -> Exec S) s :
  (forall j t, i <= j < i + Z.of_nat n -> f j t = g j t) ->
  for_range n i f s = for_range n i g s.
Proof.
  revert i s. induction n as [|n IH]; intros i s Hfg; simpl; [done|].
  rewrite Hfg by lia. destruct (g i s); simpl; try done.
  apply IH. intros j t Hj. apply Hfg. lia.
Qed.

Lemma length_splice {A} (l : list A) off (src : list A) :
  (off + length src <= length l)%nat -> length (splice l off src) = length l.
Proof.
  intros H. unfold splice. rewrite !length_app, length_take, length_drop. lia.
Qed.

Lemma lookup_splice_in {A} (l : list A) off (src : list A) i :
  (off <= length l)%nat -> (off <= i < off + length src)%nat ->
  splice l off src !! i = src !! (i - off)%nat.
Proof.
  intros Ho Hi. unfold splice.
  rewrite lookup_app_r by (rewrite length_take; lia).
  rewrite length_take, Nat.min_l by lia.
  by rewrite lookup_app_l by lia.
Qed.

Lemma lookup_splice_lt {A} (l : list A) off (src : list A) i :
  (off <= length l)%nat -> (i < off)%nat -> splice l off src !! i = l !! i.
Proof.
  intros Ho Hi. unfold splice.
  rewrite lookup_app_l by (rewrite length_take; lia).
  by apply lookup_take_lt.
Qed.

Lemma lookup_splice_ge {A} (l : list A) off (src : list A) i :
  (off + length src <= length l)%nat -> (off + length src <= i)%nat ->
  splice l off src !! i = l !! i.
Proof.
  intros Ho Hi. unfold splice.
  rewrite lookup_app_r by (rewrite length_take; lia).
  rewrite lookup_app_r by (rewrite length_take; lia).
  rewrite lookup_drop, length_take. f_equal. lia.
Qed.

Lemma splice_snoc {A} (l : list A) off (src : list A) x :
  (off + length src < length l)%nat ->
  <[(off + length src)%nat := x]> (splice l off src) = splice l off (src ++ [x]).
Proof.
  intros Hlt. unfold splice.
  rewrite insert_app_r_alt by (rewrite length_take; lia).
  rewrite length_take, Nat.min_l by lia.
  rewrite insert_app_r_alt by lia.
  replace (off + length src - off - length src)%nat with 0%nat by lia.
  destruct (drop (off + length src) l) as [|y r] eqn:Hd.
  { apply (f_equal length) in Hd. rewrite length_drop in Hd. simpl in Hd. lia. }
  rewrite length_app. simpl. rewrite <- app_assoc. simpl. do 3 f_equal.
  replace (off + (length src + 1))%nat with (off + length src + 1)%nat by lia.
  by rewrite <- drop_drop, Hd.
Qed.

Lemma splice_nil {A} (l : list A) off : splice l off [] = l.
Proof. unfold splice. simpl. by rewrite Nat.add_0_r, take_drop. Qed.

Lemma length_slice {A} (l : list A) off n :
  (off + n <= length l)%nat -> length (slice l off n) = n.
Proof. intros H. unfold slice. rewrite length_take, length_drop. lia. Qed.

Lemma slice_0 {A} (l : list A) off : slice l off 0 = [].
Proof. done. Qed.

Lemma lookup_slice {A} (l : list A) off n i :
  (i < n)%nat -> slice l off n !! i = l !! (off + i)%nat.
Proof. intros H. unfold slice. by rewrite lookup_take_lt, lookup_drop. Qed.

Lemma slice_slice {A} (l : list A) off n o m :
  (o + m <= n)%nat -> slice (slice l off n) o m = slice l (off + o) m.
Proof.
  intros H. unfold slice. rewrite skipn_firstn_comm, take_take, drop_drop.
  by rewrite Nat.min_l by lia.
Qed.

Lemma slice_S {A} (l : list A) off n x :
  l !! (off + n)%nat = Some x -> slice l off (Datatypes.S n) = slice l off n ++ [x].
Proof.
  intros Hx. unfold slice.
  by rewrite (take_S_r _ _ x) by (by rewrite lookup_drop).
Qed.

(** The byte-copy loop stays in bounds and writes the source block. *)
Lemma copy_loop_gen (n m : nat) (dst src : list Z) doff soff :
  (n + m <= length src - soff)%nat -> (soff <= length src)%nat ->
  (doff + (n + m) <= length dst)%nat ->
  for_range n (Z.of_nat m)
    (fun k d => x <- aget src (Z.of_nat soff + k) ;; aset d (Z.of_nat doff + k) x)
    (splice dst doff (slice src soff m))
  = Ok (splice dst doff (slice src soff (n + m))).
Proof.
  revert m. induction n as [|n IH]; intros m H1 H2 H3; simpl; [done|].
  destruct (lookup_lt_is_Some_2 src (soff + m)) as [x Hx]; [lia|].
  rewrite (aget_ok _ _ x); [|lia|].
  2: { rewrite <- Hx. f_equal. lia. }
  simpl. rewrite aset_ok.
  2: { rewrite length_splice; [lia|]. rewrite length_slice; lia. }
  simpl.
  replace (Z.to_nat (Z.of_nat doff + Z.of_nat m)) with (doff + length (slice src soff m))%nat
    by (rewrite length_slice; lia).
  rewrite splice_snoc by (rewrite length_slice; lia).
  rewrite <- slice_S by done.
  replace (Z.of_nat m + 1) with (Z.of_nat (Datatypes.S m)) by lia.
  rewrite IH by lia. by replace (n + Datatypes.S m)%nat with (Datatypes.S (n + m)) by lia.
Qed.

Lemma copy_loop_ok (n : nat) (dst src : list Z) doff soff :
  0 <= doff -> 0 <= soff ->
  soff + Z.of_nat n <= len src -> doff + Z.of_nat n <= len dst ->
  copy_loop n dst doff src soff
  = Ok (splice dst (Z.to_nat doff) (slice src (Z.to_nat soff) n)).
Proof.
  intros Hd Hs H1 H2. unfold copy_loop.
  pose proof (copy_loop_gen n 0 dst src (Z.to_nat doff) (Z.to_nat soff)) as Hg.
  unfold slice in Hg at 1. rewrite take_0, splice_nil, Nat.add_0_r, !Z2Nat.id in Hg by lia.
  apply Hg; lia.
Qed.

(** A loop that stores [f k] at [off + k] fills the block. *)
Lemma for_range_fill_gen {A} (n m : nat) (dst : list A) (off : nat) (f : Z -> A) :
  (off + (m + n) <= length dst)%nat ->
  for_range n (Z.of_nat m) (fun k d => aset d (Z.of_nat off + k) (f k))
    (splice dst off (map (fun k => f (Z.of_nat k)) (seq 0 m)))
  = Ok (splice dst off (map (fun k => f (Z.of_nat k)) (seq 0 (m + n)))).
Proof.
  revert m. induction n as [|n IH]; intros m Hl; simpl; [by rewrite Nat.add_0_r|].
  rewrite aset_ok by (rewrite length_splice; rewrite ?length_map, ?length_seq; lia).
  simpl. replace (Z.to_nat (Z.of_nat off + Z.of_nat m))
    with (off + length (map (fun k => f (Z.of_nat k)) (seq 0 m)))%nat
    by (rewrite length_map, length_seq; lia).
  rewrite splice_snoc by (rewrite length_map, length_seq; lia).
  replace (map _ (seq 0 m) ++ [f (Z.of_nat m)])
    with (map (fun k => f (Z.of_nat k)) (seq 0 (S m))) by (rewrite seq_S, map_app; done).
  replace (Z.of_nat m + 1) with (Z.of_nat (S m)) by lia.
  rewrite IH by lia. by replace (S m + n)%nat with (m + S n)%nat by lia.
Qed.

Lemma for_range_fill {A} (n : nat) (dst : list A) (off : nat) (f : Z -> A) :
  (off + n <= length dst)%nat ->
  for_range n 0 (fun k d => aset d (Z.of_nat off + k) (f k)) dst
  = Ok (splice dst off (map (fun k => f (Z.of_nat k)) (seq 0 n))).
Proof.
  intros Hl. pose proof (for_range_fill_gen n 0 dst off f Hl) as Hg.
  simpl in Hg. by rewrite splice_nil in Hg.
Qed.

(** *** Integer conversions *)
Lemma u8_range z : 0 <= u8 z < 256.
Proof. unfold u8. apply (Z.mod_pos_bound z 256). lia. Qed.

Lemma u16_range z : 0 <= u16 z < 2 ^ 16.
Proof. unfold u16. apply Z.mod_pos_bound. lia. Qed.

Lemma u32_range z : 0 <= u32 z < 2 ^ 32.
Proof. unfold u32. apply Z.mod_pos_bound. lia. Qed.

Lemma u64_range z : 0 <= u64 z < 2 ^ 64.
Proof. unfold u64. apply Z.mod_pos_bound. lia. Qed.

Lemma u8_small z : 0 <= z < 256 -> u8 z = z.
Proof. intros. unfold u8. apply Z.mod_small. lia. Qed.

Lemma u16_small z : 0 <= z < 2 ^ 16 -> u16 z = z.
Proof. intros. unfold u16. by apply Z.mod_small. Qed.

Lemma u32_small z : 0 <= z < 2 ^ 32 -> u32 z = z.
Proof. intros. unfold u32. by apply Z.mod_small. Qed.

Lemma u64_small z : 0 <= z < 2 ^ 64 -> u64 z = z.
Proof. intros. unfold u64. by apply Z.mod_small. Qed.

Lemma byteb_spec b : byteb b = true <-> is_byte b.
Proof. unfold byteb, is_byte. rewrite andb_true_iff, Z.leb_le, Z.ltb_lt. done. Qed.

Lemma bytes_lookup l i b : bytes l -> l !! i = Some b -> is_byte b.
Proof. unfold bytes. rewrite Forall_lookup. eauto. Qed.

(** *** Bits and byte order *)
Lemma testbit_high a n i : 0 <= a < 2 ^ n -> 0 <= n <= i -> Z.testbit a i = false.
Proof.
  intros Ha Hi. rewrite <- (Z.mod_small a (2 ^ n)) by lia.
  by apply Z.mod_pow2_bits_high.
Qed.

(** Or-ing a shifted value above [n] bits is addition. *)
Lemma lor_shiftl_add a b n :
  0 <= n -> 0 <= a < 2 ^ n -> Z.lor a (Z.shiftl b n) = a + b * 2 ^ n.
Proof.
  intros Hn Ha. rewrite <- Z.shiftl_mul_pow2 by lia.
  assert (Z.land a (Z.shiftl b n) = 0) as Hl.
  { apply Z.bits_inj'. intros i Hi. rewrite Z.land_spec, Z.bits_0.
    destruct (Z.lt_ge_cases i n).
    - rewrite Z.shiftl_spec, (Z.testbit_neg_r _ (i - n)) by lia. apply andb_false_r.
    - by rewrite (testbit_high a n) by lia. }
  rewrite <- Z.lxor_lor by done. by rewrite Z.add_nocarry_lxor.
Qed.

(** Value of a little-endian byte sequence. *)
Fixpoint le_value (l : list Z) : Z :=
  match l with [] => 0 | b :: r => b + 256 * le_value r end.

Lemma le_value_range l : bytes l -> 0 <= le_value l < 256 ^ len l.
Proof.
  unfold bytes. induction 1 as [|b l Hb _ IH]; cbn [le_value length]; [lia|].
  unfold is_byte in Hb. rewrite Nat2Z.inj_succ, Z.pow_succ_r by lia. lia.
Qed.

(** Clearing the low [k] bits of a 64-bit word. *)
Lemma land_mask_down x k :
  0 <= x < 2 ^ 64 -> 0 <= k < 64 -> Z.land x (u64 (Z.lnot (u64 (2 ^ k - 1)))) = x - x mod 2 ^ k.
Proof.
  intros Hx Hk. assert (0 < 2 ^ k <= 2 ^ 63) as Hp by (split; [lia|apply Z.pow_le_mono_r; lia]).
  rewrite (u64_small (2 ^ k - 1)) by lia.
  replace (x - x mod 2 ^ k) with (Z.ldiff x (Z.ones k)).
  2: { rewrite Z.ldiff_ones_r, Z.shiftr_div_pow2, Z.shiftl_mul_pow2 by lia.
       pose proof (Z.div_mod x (2 ^ k)). lia. }
  replace (2 ^ k - 1) with (Z.ones k) by (rewrite Z.ones_equiv; lia).
  apply Z.bits_inj'. intros i Hi. rewrite Z.land_spec, Z.ldiff_spec. unfold u64.
  rewrite <- Z.land_ones, Z.land_spec, Z.lnot_spec by lia.
  destruct (Z.ltb_spec i 64).
  - by rewrite (Z.ones_spec_low 64), andb_true_r by lia.
  - by rewrite (testbit_high x 64) by lia.
Qed.

(** *** Concatenations of blocks of one length *)
Lemma slice_concat_uniform {A} (L : nat) (ls : list (list A)) i x o n :
  Forall (fun l => length l = L) ls -> ls !! i = Some x -> (o + n <= L)%nat ->
  slice (concat ls) (i * L + o) n = slice x o n.
Proof.
  intros Hall. revert i. induction Hall as [|y ls Hy _ IH]; intros [|i] Hi Hon; simplify_eq/=.
  - unfold slice. rewrite drop_app_le by lia.
    by rewrite take_app_le by (rewrite length_drop; lia).
  - unfold slice in *. rewrite <- (IH i) by done. f_equal.
    replace (length y + i * length y + o)%nat with (length y + (i * length y + o))%nat by lia.
    apply drop_app_add.
Qed.

Lemma length_concat_uniform {A} (L : nat) (ls : list (list A)) :
  Forall (fun l => length l = L) ls -> length (concat ls) = (length ls * L)%nat.
Proof. induction 1 as [|y ls Hy _ IH]; simpl; [done|]. rewrite length_app. lia. Qed.

Lemma slice_app {A} (l : list A) o n m :
  slice l o n ++ slice l (o + n) m = slice l o (n + m).
Proof. unfold slice. rewrite <- drop_drop. apply take_take_drop. Qed.

Lemma splice_app {A} (l : list A) off (a b : list A) :
  (off + length a + length b <= length l)%nat ->
  splice (splice l off a) (off + length a) b = splice l off (a ++ b).
Proof.
  intros Hle. unfold splice. rewrite (app_assoc (take off l)).
  assert (length (take off l ++ a) = off + length a)%nat as Hl
    by (rewrite length_app, length_take; lia).
  rewrite take_app_length' by done.
  rewrite (drop_app_add' _ _ (off + length a)) by done.
  rewrite drop_drop, length_app, <- !app_assoc. by rewrite Nat.add_assoc.
Qed.

Lemma bytes_slice l off n : bytes l -> bytes (slice l off n).
Proof. intros Hl. unfold bytes, slice. by apply Forall_take, Forall_drop. Qed.

Lemma bytes_splice l off src : bytes l -> bytes src -> bytes (splice l off src).
Proof.
  unfold bytes, splice. intros Hl Hs. apply Forall_app_2; [by apply Forall_take|].
  apply Forall_app_2; [done|by apply Forall_drop].
Qed.

(** *** Automation *)
Create HintDb exec.
#[export] Hint Resolve wp_ok wp_fail u8_range u32_range u64_range : exec.
#[export] Hint Extern 1 (is_error _) => (unfold is_error; simpl; lia) : exec.

(** Case analysis on the conditions of the code, in the goal. *)
Ltac inv_foralls :=
  repeat match goal with
  | H : Forall _ (_ :: _) |- _ => apply Forall_cons_iff in H; cbv beta in H; destruct H
  | H : Forall _ [] |- _ => clear H
  end.

Ltac case_if :=
  match goal with
  | |- context [if ?b then _ else _] =>
      match b with
      | context [if _ then _ else _] => fail 1
      | _ => let H := fresh "Hc" in destruct b eqn:H
      end
  end.

(** Boolean tests to propositions. *)
Ltac zbool :=
  repeat match goal with
  | H : (_ && _)%bool = true |- _ => apply andb_true_iff in H; destruct H
  | H : (_ || _)%bool = false |- _ => apply orb_false_iff in H; destruct H
  | H : negb _ = true |- _ => apply negb_true_iff in H
  | H : negb _ = false |- _ => apply negb_false_iff in H
  | H : (_ <? _) = true |- _ => apply Z.ltb_lt in H
  | H : (_ <? _) = false |- _ => apply Z.ltb_ge in H
  | H : (_ <=? _) = true |- _ => apply Z.leb_le in H
  | H : (_ <=? _) = false |- _ => apply Z.leb_gt in H
  | H : (_ =? _) = true |- _ => apply Z.eqb_eq in H
  | H : (_ =? _) = false |- _ => apply Z.eqb_neq in H
  end.

(** One step of a [wp] proof: a bind, a test, a returned status. *)
Ltac wp_step :=
  match goal with
  | |- wp (bind _ _) _ _ => apply wp_bind
  | |- wp (Ok _) _ _ => apply wp_ok
  | |- wp (Fail _) _ _ => apply wp_fail; try solve [auto with exec]
  | |- wp (if ?b then _ else _) _ _ => let H := fresh "Hc" in destruct b eqn:H; zbool
  | |- wp (let _ := _ in _) _ _ => cbv zeta
  end.
