(* ===== verification/BlockIface.v ===== *)
(** The interface between the FAT32 reader and the block device: the operation
    [boot_block_read] of kernel/bootloader/include/block_device.h and what a
    client may rely on.  [VirtioBlk] implements it; [BootFat32] and [BootMain]
    are written and proved against it. *)
From stdpp Require Import base list numbers.
From Stdlib Require Import ZArith Lia.
From S2P Require Import Prelude.

Local Open Scope Z_scope.

(** A device driver with state [D]: reading [sector_count] sectors from [lba]
    fills the caller's buffer and answers a status.  [None] is a NULL buffer. *)
Class BlockDevice (D : Type) : Type := {
  boot_block_read : D -> Z -> Z -> option (list Z) -> Exec (Status * option (list Z) * D)
}.

(** What the driver promises: [dev_sector] is the medium, [dev_wf] the driver's
    own invariant, and [dev_good] the states in which the hardware answers. *)
Class BlockDeviceLaws (D : Type) `{BlockDevice D} : Type := {
  dev_wf : D -> Prop;
  dev_good : D -> Prop;
  dev_sector : D -> Z -> list Z;
  dev_good_wf : forall d, dev_good d -> dev_wf d;
  dev_sector_len : forall d lba, dev_wf d -> length (dev_sector d lba) = 512%nat;
  dev_sector_bytes : forall d lba, dev_wf d -> bytes (dev_sector d lba);
  dev_read : forall d lba buf,
    dev_wf d -> 0 <= lba < 2 ^ 32 -> length buf = 512%nat -> bytes buf ->
    exists st buf' d',
      boot_block_read d lba 1 (Some buf) = Ok (st, Some buf', d') /\
      dev_wf d' /\ length buf' = 512%nat /\ bytes buf' /\
      (forall l, dev_sector d' l = dev_sector d l) /\
      (st = StatusOK -> buf' = dev_sector d lba) /\
      (dev_good d -> st = StatusOK /\ dev_good d')
}.

(** A plain in-memory medium: the simplest instance of the interface, used to
    evaluate the readers on concrete volumes. *)
Record RamDisk : Type := mkRamDisk { ram_sectors : list (list Z) }.

Definition zero_sector : list Z := replicate 512 0.

Definition ram_sector (d : RamDisk) (lba : Z) : list Z :=
  match ram_sectors d !! Z.to_nat lba with Some s => s | None => zero_sector end.

Definition ram_read (d : RamDisk) (lba count : Z) (buf : option (list Z))
  : Exec (Status * option (list Z) * RamDisk) :=
  match buf with
  | None => Ok (StatusInvalidArgument, None, d)
  | Some b =>
      if count =? 1 then Ok (StatusOK, Some (ram_sector d lba), d)
      else Ok (StatusInvalidArgument, Some b, d)
  end.

#[global] Instance ram_device : BlockDevice RamDisk := {| boot_block_read := ram_read |}.

Definition ram_wf (d : RamDisk) : Prop :=
  Forall (fun s => length s = 512%nat /\ bytes s) (ram_sectors d).

Lemma ram_sector_ok d lba :
  ram_wf d -> length (ram_sector d lba) = 512%nat /\ bytes (ram_sector d lba).
Proof.
  intros Hwf. unfold ram_sector. destruct (ram_sectors d !! Z.to_nat lba) eqn:He.
  - unfold ram_wf in Hwf. rewrite Forall_lookup in Hwf. eauto.
  - split; [done|]. unfold bytes, zero_sector. apply Forall_replicate. unfold is_byte; lia.
Qed.

#[global] Program Instance ram_device_laws : BlockDeviceLaws RamDisk := {|
  dev_wf := ram_wf; dev_good := ram_wf; dev_sector := ram_sector
|}.
Next Obligation. done. Qed.
Next Obligation. intros d lba Hwf. by apply ram_sector_ok. Qed.
Next Obligation. intros d lba Hwf. by apply ram_sector_ok. Qed.
Next Obligation.
  intros d lba buf Hwf Hlba Hlen Hb. simpl.
  destruct (ram_sector_ok d lba Hwf).
  exists StatusOK, (ram_sector d lba), d. by repeat split.
Qed.
