(* ===== verification/BootFat32.v ===== *)
(** The FAT32 reader of the second-stage bootloader
    (kernel/bootloader/fs/fat32.c, kernel/bootloader/include/fat32.h).

    The data of the volume comes from any block device ([BlockIface]); the
    static [g_sector_buffer] is threaded through every operation, so that the
    order in which sectors overwrite it is the code's.  Static helpers take
    objects where the code passes addresses of objects; the public operations
    take [option] where their callers may pass NULL.  C strings are byte lists
    whose terminator is the element after the last.  [while] loops over FAT
    chains take fuel ([cluster_fuel] for one cluster), and the theorems say how much is
    enough. *)
From stdpp Require Import base list numbers.
From Stdlib Require Import ZArith Lia.
From S2P Require Import Prelude BlockIface.

Local Open Scope Z_scope.

(** ** Data *)
Record BootFsFat32BootSector : Type := mkBootSector {
  bytes_per_sector : Z;
  sectors_per_cluster : Z;
  reserved_sectors : Z;
  fat_count : Z;
  fat_size_32 : Z;
  root_cluster : Z;
  fs_type : list Z
}.

Record BootFsFat32DirEntry : Type := mkDirEntry {
  de_name : list Z;
  de_attributes : Z;
  de_cluster_hi : Z;
  de_cluster_lo : Z;
  de_size : Z
}.

Record BootFs : Type := mkBootFs {
  partition_lba : Z;
  boot_sector : BootFsFat32BootSector;
  fat_lba : Z;
  data_lba : Z;
  cluster_size : Z
}.

Record BootFsFile : Type := mkBootFsFile {
  first_cluster : Z;
  current_cluster : Z;
  current_cluster_index : Z;
  f_size : Z;
  f_offset : Z
}.

Definition FAT32_CLUSTER_END : Z := 0x0FFFFFF8.
Definition FAT32_ATTRIBUTE_LONG_NAME : Z := 0x0F.
Definition FAT32_ATTRIBUTE_VOLUME_ID : Z := 0x08.
Definition FAT32_DIR_ENTRY_SIZE : Z := 32.

(** ** Byte decoding *)
Definition boot_read_le16 (b : list Z) (o : Z) : Exec Z :=
  b0 <- aget b o ;;
  b1 <- aget b (o + 1) ;;
  Ok (u16 (Z.lor b0 (Z.shiftl b1 8))).

Definition boot_read_le32 (b : list Z) (o : Z) : Exec Z :=
  b0 <- aget b o ;;
  b1 <- aget b (o + 1) ;;
  b2 <- aget b (o + 2) ;;
  b3 <- aget b (o + 3) ;;
  Ok (u32 (Z.lor (Z.lor (Z.lor b0 (Z.shiftl b1 8)) (Z.shiftl b2 16)) (Z.shiftl b3 24))).

(** [for (i = 0; i < n; ++i) out[i] = b[o + i]] into a fresh array. *)
Fixpoint read_array (n : nat) (b : list Z) (o : Z) : Exec (list Z) :=
  match n with
  | O => Ok []
  | S n' => x <- aget b o ;; r <- read_array n' b (o + 1) ;; Ok (x :: r)
  end.

Definition bootfs_parse_boot_sector (sector : list Z) : Exec BootFsFat32BootSector :=
  bps <- boot_read_le16 sector 11 ;;
  spc <- aget sector 13 ;;
  rsv <- boot_read_le16 sector 14 ;;
  fc <- aget sector 16 ;;
  fsz <- boot_read_le32 sector 36 ;;
  rc <- boot_read_le32 sector 44 ;;
  ty <- read_array 8 sector 82 ;;
  Ok (mkBootSector bps spc rsv fc fsz rc ty).

Definition bootfs_parse_dir_entry (b : list Z) (o : Z) : Exec BootFsFat32DirEntry :=
  nm <- read_array 11 b o ;;
  att <- aget b (o + 11) ;;
  hi <- boot_read_le16 b (o + 20) ;;
  lo <- boot_read_le16 b (o + 26) ;;
  sz <- boot_read_le32 b (o + 28) ;;
  Ok (mkDirEntry nm att hi lo sz).

Definition boot_char_upper (ch : Z) : Z :=
  if (97 <=? ch) && (ch <=? 122) then ch - (97 - 65) else ch.

Fixpoint boot_memcmp (lhs : list Z) (lo : Z) (rhs : list Z) (ro : Z) (size : nat) : Exec Z :=
  match size with
  | O => Ok 0
  | S n =>
      l <- aget lhs lo ;;
      r <- aget rhs ro ;;
      if l =? r then boot_memcmp lhs (lo + 1) rhs (ro + 1) n else Ok (l - r)
  end.

(** "FAT32" *)
Definition fat32_tag : list Z := [70; 65; 84; 51; 50].

Definition bootfs_is_fat32_boot_sector (sector : list Z) : Exec bool :=
  s510 <- aget sector 510 ;;
  if negb (s510 =? 0x55) then Ok false else
  s511 <- aget sector 511 ;;
  if negb (s511 =? 0xAA) then Ok false else
  bps <- boot_read_le16 sector 11 ;;
  if negb (bps =? 512) then Ok false else
  spc <- aget sector 13 ;;
  if spc =? 0 then Ok false else
  fc <- aget sector 16 ;;
  if fc =? 0 then Ok false else
  fsz <- boot_read_le32 sector 36 ;;
  if fsz =? 0 then Ok false else
  rc <- boot_read_le32 sector 44 ;;
  if negb (2 <=? rc) then Ok false else
  c <- boot_memcmp sector 82 fat32_tag 0 5 ;;
  Ok (c =? 0).

Definition bootfs_cluster_to_lba (fs : BootFs) (cluster : Z) : Z :=
  u32 (data_lba fs + u32 (u32 (cluster - 2) * sectors_per_cluster (boot_sector fs))).

(** ** Short names *)

(** The character at [i] of a C string, its terminator included. *)
Definition cstr_get (s : list Z) (i : Z) : Exec Z :=
  if i =? len s then Ok 0 else aget s i.

(** The scan for '/' and '.'; [pos] is the cursor, the answer the dot. *)
Fixpoint short_name_scan (rest : list Z) (pos : Z) (dot : option Z) : Status + option Z :=
  match rest with
  | [] => inr dot
  | ch :: rest' =>
      if ch =? 47 then inl StatusNotSupported
      else if ch =? 46 then
        match dot with
        | Some _ => inl StatusInvalidArgument
        | None => short_name_scan rest' (pos + 1) (Some pos)
        end
      else short_name_scan rest' (pos + 1) dot
  end.

(** [for (i = 0; i < n; ++i) dst[doff + i] = upper(src[soff + i])]. *)
Definition upper_loop (n : nat) (dst : list Z) (doff : Z) (src : list Z) (soff : Z)
  : Exec (list Z) :=
  for_range n 0
    (fun k d => x <- cstr_get src (soff + k) ;; aset d (doff + k) (boot_char_upper x)) dst.

Definition bootfs_make_short_name (path : list Z) : Exec (Status + list Z) :=
  c0 <- cstr_get path 0 ;;
  if negb (c0 =? 47) then Ok (inl StatusInvalidArgument) else
  c1 <- cstr_get path 1 ;;
  if c1 =? 0 then Ok (inl StatusInvalidArgument) else
  match short_name_scan (drop 1 path) 1 None with
  | inl st => Ok (inl st)
  | inr dot =>
      let short_name := replicate 11 32 in
      let cursor := len path in
      let name_len := match dot with Some d => d - 1 | None => cursor - 1 end in
      let ext_len := match dot with Some d => cursor - d - 1 | None => 0 end in
      if (name_len <=? 0) || (8 <? name_len) || (3 <? ext_len)
      then Ok (inl StatusInvalidArgument)
      else
        sn <- upper_loop (Z.to_nat name_len) short_name 0 path 1 ;;
        match dot with
        | None => Ok (inr sn)
        | Some d =>
            sn' <- upper_loop (Z.to_nat ext_len) sn 8 path (d + 1) ;;
            Ok (inr sn')
        end
  end.

Section Volume.
Context {D : Type} `{BlockDevice D}.

(** The device and the static sector buffer. *)
Record BootIo : Type := mkBootIo { io_dev : D; g_sector_buffer : list Z }.

Definition bootfs_read_sector (lba : Z) (d : D) (buffer : list Z)
  : Exec (Status * option (list Z) * D) :=
  boot_block_read d lba 1 (Some buffer).

(** [bootfs_read_sector(lba, g_sector_buffer)]. *)
Definition read_sector_buffer (lba : Z) (io : BootIo) : Exec (Status * BootIo) :=
  '(st, buf, d) <- bootfs_read_sector lba (io_dev io) (g_sector_buffer io) ;;
  match buf with
  | Some b => Ok (st, mkBootIo d b)
  | None => Undef
  end.

(** The four primary entries of the partition table. *)
Fixpoint scan_mbr (n : nat) (index : Z) (b : list Z) : Exec (option Z) :=
  match n with
  | O => Ok None
  | S n' =>
      let entry := 0x1BE + index * 16 in
      type <- aget b (entry + 4) ;;
      if (type =? 0x0B) || (type =? 0x0C) then
        l <- boot_read_le32 b (entry + 8) ;; Ok (Some l)
      else scan_mbr n' (index + 1) b
  end.

Definition bootfs_find_partition_lba (io : BootIo) : Exec (BootIo * (Status + Z)) :=
  '(st, io) <- read_sector_buffer 0 io ;;
  if negb (bool_decide (st = StatusOK)) then Ok (io, inl StatusIoError) else
  is_fat <- bootfs_is_fat32_boot_sector (g_sector_buffer io) ;;
  if is_fat : bool then Ok (io, inr 0) else
  r <- scan_mbr 4 0 (g_sector_buffer io) ;;
  match r with
  | Some l => Ok (io, inr l)
  | None => Ok (io, inl StatusNotFound)
  end.

Definition bootfs_read_fat_entry (fs : BootFs) (cluster : Z) (io : BootIo)
  : Exec (BootIo * (Status + Z)) :=
  let fat_offset := u32 (cluster * 4) in
  let sector := u32 (fat_lba fs + fat_offset / 512) in
  let offset := fat_offset mod 512 in
  '(st, io) <- read_sector_buffer sector io ;;
  if negb (bool_decide (st = StatusOK)) then Ok (io, inl StatusIoError) else
  value <- boot_read_le32 (g_sector_buffer io) offset ;;
  Ok (io, inr (Z.land value 0x0FFFFFFF)).

(** One iteration of the inner loop of [bootfs_find_root_entry]: the entry at
    [offset] of [cluster]; [inr None] leaves the inner loop at the end of the
    cluster. *)
Definition find_entry_step (fs : BootFs) (short_name : list Z) (cluster : Z)
    (s : Z * BootIo)
  : Exec ((Z * BootIo) + (BootIo * option (Status + BootFsFat32DirEntry))) :=
  let '(offset, io) := s in
  if negb (offset <? cluster_size fs) then Ok (inr (io, None)) else
  let sector_lba := u32 (bootfs_cluster_to_lba fs cluster + offset / 512) in
  let sector_offset := offset mod 512 in
  '(st, io) <- read_sector_buffer sector_lba io ;;
  if negb (bool_decide (st = StatusOK)) then Ok (inr (io, Some (inl StatusIoError))) else
  e0 <- aget (g_sector_buffer io) sector_offset ;;
  if e0 =? 0 then Ok (inr (io, Some (inl StatusNotFound))) else
  attr <- aget (g_sector_buffer io) (sector_offset + 11) ;;
  same <- (if negb (e0 =? 0xE5) && negb (attr =? FAT32_ATTRIBUTE_LONG_NAME) &&
              (Z.land attr FAT32_ATTRIBUTE_VOLUME_ID =? 0)
           then c <- boot_memcmp (g_sector_buffer io) sector_offset short_name 0 11 ;;
                Ok (c =? 0)
           else Ok false) ;;
  if same : bool then
    e <- bootfs_parse_dir_entry (g_sector_buffer io) sector_offset ;;
    Ok (inr (io, Some (inr e)))
  else Ok (inl (u32 (offset + FAT32_DIR_ENTRY_SIZE), io)).

(** Enough iterations for one cluster. *)
Definition cluster_fuel (fs : BootFs) : nat := S (Z.to_nat (cluster_size fs)).

Definition find_cluster_step (fs : BootFs) (short_name : list Z) (s : Z * BootIo)
  : Exec ((Z * BootIo) + (BootIo * (Status + BootFsFat32DirEntry))) :=
  let '(cluster, io) := s in
  if negb ((2 <=? cluster) && (cluster <? FAT32_CLUSTER_END))
  then Ok (inr (io, inl StatusNotFound)) else
  '(io, r) <- iterate (cluster_fuel fs) (find_entry_step fs short_name cluster) (0, io) ;;
  match r with
  | Some res => Ok (inr (io, res))
  | None =>
      '(io, nx) <- bootfs_read_fat_entry fs cluster io ;;
      match nx with
      | inl _ => Ok (inr (io, inl StatusIoError))
      | inr c => Ok (inl (c, io))
      end
  end.

Definition bootfs_find_root_entry (fuel : nat) (fs : BootFs) (short_name : list Z)
    (io : BootIo) : Exec (BootIo * (Status + BootFsFat32DirEntry)) :=
  iterate fuel (find_cluster_step fs short_name) (root_cluster (boot_sector fs), io).

(** [while (cluster_index < target_index)] of [bootfs_locate_cluster]. *)
Fixpoint locate_loop (n : nat) (fs : BootFs) (cluster cluster_index : Z) (io : BootIo)
  : Exec (BootIo * (Status + (Z * Z))) :=
  match n with
  | O => Ok (io, inr (cluster, cluster_index))
  | S n' =>
      '(io, r) <- bootfs_read_fat_entry fs cluster io ;;
      match r with
      | inl _ => Ok (io, inl StatusIoError)
      | inr c =>
          if (c <? 2) || (FAT32_CLUSTER_END <=? c) then Ok (io, inl StatusNotFound)
          else locate_loop n' fs c (u32 (cluster_index + 1)) io
      end
  end.

Definition bootfs_locate_cluster (fs : BootFs) (file : BootFsFile) (offset : Z)
    (io : BootIo) : Exec (BootIo * (Status + (BootFsFile * Z))) :=
  let target_index := offset / cluster_size fs in
  let '(cluster, cluster_index) :=
    if (current_cluster file =? 0) || (target_index <? current_cluster_index file)
    then (first_cluster file, 0)
    else (current_cluster file, current_cluster_index file) in
  '(io, r) <- locate_loop (Z.to_nat (target_index - cluster_index)) fs
                cluster cluster_index io ;;
  match r with
  | inl st => Ok (io, inl st)
  | inr (c, ci) =>
      Ok (io, inr (mkBootFsFile (first_cluster file) c ci (f_size file) (f_offset file), c))
  end.

(** ** Public operations *)
Definition bootfs_init (filesystem : option BootFs) (io : BootIo)
  : Exec (BootIo * (Status + BootFs)) :=
  match filesystem with
  | None => Ok (io, inl StatusInvalidArgument)
  | Some _ =>
      '(io, r) <- bootfs_find_partition_lba io ;;
      match r with
      | inl _ => Ok (io, inl StatusNotFound)
      | inr plba =>
          '(st, io) <- read_sector_buffer plba io ;;
          if negb (bool_decide (st = StatusOK)) then Ok (io, inl StatusIoError) else
          is_fat <- bootfs_is_fat32_boot_sector (g_sector_buffer io) ;;
          if negb is_fat then Ok (io, inl StatusNotSupported) else
          bs <- bootfs_parse_boot_sector (g_sector_buffer io) ;;
          let fat := u32 (plba + reserved_sectors bs) in
          Ok (io, inr (mkBootFs plba bs fat
                         (u32 (fat + u32 (fat_count bs * fat_size_32 bs)))
                         (u32 (sectors_per_cluster bs * 512))))
      end
  end.

Definition bootfs_open (fuel : nat) (filesystem : option BootFs) (path : option (list Z))
    (file : option BootFsFile) (io : BootIo) : Exec (BootIo * (Status + BootFsFile)) :=
  match filesystem, path, file with
  | Some fs, Some p, Some _ =>
      sn <- bootfs_make_short_name p ;;
      match sn with
      | inl _ => Ok (io, inl StatusInvalidArgument)
      | inr short_name =>
          '(io, r) <- bootfs_find_root_entry fuel fs short_name io ;;
          match r with
          | inl _ => Ok (io, inl StatusNotFound)
          | inr e =>
              let fc := u32 (Z.lor (Z.shiftl (de_cluster_hi e) 16) (de_cluster_lo e)) in
              Ok (io, inr (mkBootFsFile fc fc 0 (de_size e) 0))
          end
      end
  | _, _, _ => Ok (io, inl StatusInvalidArgument)
  end.

Definition bootfs_seek (file : option BootFsFile) (offset : Z) : Status * option BootFsFile :=
  match file with
  | None => (StatusInvalidArgument, None)
  | Some f =>
      if f_size f <? offset then (StatusInvalidArgument, Some f)
      else if offset =? 0
      then (StatusOK, Some (mkBootFsFile (first_cluster f) (first_cluster f) 0 (f_size f) 0))
      else (StatusOK, Some (mkBootFsFile (first_cluster f) (current_cluster f)
                              (current_cluster_index f) (f_size f) offset))
  end.

(** The state of the copy loop of [bootfs_read]: file, buffer, bytes written,
    bytes still wanted. *)
Record ReadState : Type := mkReadState {
  rs_file : BootFsFile;
  rs_buffer : list Z;
  rs_output : Z;
  rs_size : Z;
  rs_io : BootIo
}.

Definition read_step (fs : BootFs) (s : ReadState) : Exec (ReadState + ReadState * Z) :=
  if negb (0 <? rs_size s) then Ok (inr (s, rs_output s)) else
  '(io, r) <- bootfs_locate_cluster fs (rs_file s) (f_offset (rs_file s)) (rs_io s) ;;
  match r with
  | inl _ =>
      Ok (inr (mkReadState (rs_file s) (rs_buffer s) (rs_output s) (rs_size s) io,
               status_code StatusIoError))
  | inr (file, cluster) =>
      let cluster_offset := f_offset file mod cluster_size fs in
      let sector_in_cluster := cluster_offset / 512 in
      let sector_offset := cluster_offset mod 512 in
      let sector_lba := u32 (bootfs_cluster_to_lba fs cluster + sector_in_cluster) in
      '(st, io) <- read_sector_buffer sector_lba io ;;
      if negb (bool_decide (st = StatusOK)) then
        Ok (inr (mkReadState file (rs_buffer s) (rs_output s) (rs_size s) io,
                 status_code StatusIoError))
      else
        let chunk := if rs_size s <? 512 - sector_offset then rs_size s
                     else 512 - sector_offset in
        buf <- copy_loop (Z.to_nat chunk) (rs_buffer s) (rs_output s)
                 (g_sector_buffer io) sector_offset ;;
        Ok (inl (mkReadState
                   (mkBootFsFile (first_cluster file) (current_cluster file)
                      (current_cluster_index file) (f_size file)
                      (u32 (f_offset file + chunk)))
                   buf (rs_output s + chunk) (rs_size s - chunk) io))
  end.

Definition bootfs_read (filesystem : option BootFs) (file : option BootFsFile)
    (buffer : option (list Z)) (size : Z) (io : BootIo)
  : Exec (BootIo * option BootFsFile * option (list Z) * Z) :=
  match filesystem, file, buffer with
  | Some fs, Some f, Some b =>
      if f_size f <=? f_offset f then Ok (io, file, buffer, 0) else
      let remaining := u32 (f_size f - f_offset f) in
      let size := if remaining <? size then remaining else size in
      '(s, ret) <- iterate (S (Z.to_nat size)) (read_step fs) (mkReadState f b 0 size io) ;;
      Ok (rs_io s, Some (rs_file s), Some (rs_buffer s), ret)
  | _, _, _ => Ok (io, file, buffer, status_code StatusInvalidArgument)
  end.
End Volume.
Arguments BootIo D : clear implicits.
Arguments ReadState D : clear implicits.
