(* ===== verification/BootFat32Proofs.v ===== *)
(** Correctness of the FAT32 reader ([BootFat32]).

    The medium seen through the block-device interface determines the FAT
    ([fat_value]), the data of a cluster ([cluster_bytes]) and the contents of
    a cluster chain ([chain_bytes]).  The theorems relate the operations to
    these: reading a file returns the requested slice of its chain whatever the
    cluster cache holds, and every operation stays inside its buffers on any
    medium. *)
From stdpp Require Import base list numbers.
From Stdlib Require Import ZArith Lia.
From S2P Require Import Prelude BlockIface BootFat32.

Local Open Scope Z_scope.

(** ** Decoding *)
Lemma boot_read_le16_ok b o :
  bytes b -> 0 <= o -> o + 2 <= len b ->
  boot_read_le16 b o = Ok (le_value (slice b (Z.to_nat o) 2)).
Proof.
  intros Hb Ho Hl. unfold boot_read_le16.
  destruct (aget_lt b o) as (b0 & -> & H0); [lia|].
  destruct (aget_lt b (o + 1)) as (b1 & -> & H1); [lia|]. simpl.
  replace (Z.to_nat (o + 1)) with (Z.to_nat o + 1)%nat in H1 by lia.
  rewrite (slice_S _ _ 1 b1), (slice_S _ _ 0 b0) by (rewrite ?Nat.add_0_r; done).
  pose proof (bytes_lookup _ _ _ Hb H0). pose proof (bytes_lookup _ _ _ Hb H1).
  unfold is_byte in *. rewrite lor_shiftl_add by lia.
  unfold slice. simpl. f_equal. rewrite u16_small; lia.
Qed.

Lemma boot_read_le32_ok b o :
  bytes b -> 0 <= o -> o + 4 <= len b ->
  boot_read_le32 b o = Ok (le_value (slice b (Z.to_nat o) 4)).
Proof.
  intros Hb Ho Hl. unfold boot_read_le32.
  destruct (aget_lt b o) as (b0 & -> & H0); [lia|].
  destruct (aget_lt b (o + 1)) as (b1 & -> & H1); [lia|].
  destruct (aget_lt b (o + 2)) as (b2 & -> & H2); [lia|].
  destruct (aget_lt b (o + 3)) as (b3 & -> & H3); [lia|]. simpl.
  replace (Z.to_nat (o + 1)) with (Z.to_nat o + 1)%nat in H1 by lia.
  replace (Z.to_nat (o + 2)) with (Z.to_nat o + 2)%nat in H2 by lia.
  replace (Z.to_nat (o + 3)) with (Z.to_nat o + 3)%nat in H3 by lia.
  rewrite (slice_S _ _ 3 b3), (slice_S _ _ 2 b2), (slice_S _ _ 1 b1), (slice_S _ _ 0 b0)
    by (rewrite ?Nat.add_0_r; done).
  pose proof (bytes_lookup _ _ _ Hb H0). pose proof (bytes_lookup _ _ _ Hb H1).
  pose proof (bytes_lookup _ _ _ Hb H2). pose proof (bytes_lookup _ _ _ Hb H3).
  unfold is_byte in *.
  rewrite (lor_shiftl_add b0), (lor_shiftl_add (b0 + _)), (lor_shiftl_add (b0 + _ + _)) by lia.
  unfold slice. simpl. f_equal. rewrite u32_small; lia.
Qed.

Lemma le_value_slice_range l o n :
  bytes l -> (o + n <= length l)%nat -> 0 <= le_value (slice l o n) < 256 ^ Z.of_nat n.
Proof.
  intros Hb Hl. pose proof (le_value_range (slice l o n) (bytes_slice _ _ _ Hb)) as H.
  by rewrite length_slice in H by done.
Qed.

Lemma read_array_ok n b o :
  0 <= o -> o + Z.of_nat n <= len b ->
  read_array n b o = Ok (slice b (Z.to_nat o) n).
Proof.
  revert o. induction n as [|n IH]; intros o Ho Hl; simpl; [done|].
  destruct (aget_lt b o) as (x & -> & Hx); [lia|]. simpl.
  rewrite IH by lia. simpl. f_equal. unfold slice.
  rewrite (drop_S b x (Z.to_nat o)) by done. simpl.
  by replace (Z.to_nat (o + 1)) with (S (Z.to_nat o)) by lia.
Qed.

(** [boot_memcmp] answers zero exactly on equal blocks. *)
Lemma boot_memcmp_spec l lo r ro n :
  0 <= lo -> 0 <= ro -> lo + Z.of_nat n <= len l -> ro + Z.of_nat n <= len r ->
  exists c, boot_memcmp l lo r ro n = Ok c /\
    (c = 0 <-> slice l (Z.to_nat lo) n = slice r (Z.to_nat ro) n).
Proof.
  revert lo ro. induction n as [|n IH]; intros lo ro H1 H2 H3 H4; simpl; [by exists 0|].
  destruct (aget_lt l lo) as (x & -> & Hx); [lia|].
  destruct (aget_lt r ro) as (y & -> & Hy); [lia|]. simpl.
  unfold slice in *.
  rewrite (drop_S l x (Z.to_nat lo)), (drop_S r y (Z.to_nat ro)) by done. simpl.
  destruct (Z.eqb_spec x y) as [->|Hne].
  - destruct (IH (lo + 1) (ro + 1)) as (c & -> & Hc); [lia..|]. exists c. split; [done|].
    rewrite Hc. replace (Z.to_nat (lo + 1)) with (S (Z.to_nat lo)) by lia.
    replace (Z.to_nat (ro + 1)) with (S (Z.to_nat ro)) by lia.
    split; [by intros ->|]. by intros [= ].
  - exists (x - y). split; [done|]. split; [lia|]. by intros [= ].
Qed.

#[local] Arguments boot_memcmp : simpl never.
#[local] Arguments read_array : simpl never.
#[local] Arguments boot_read_le16 : simpl never.
#[local] Arguments boot_read_le32 : simpl never.

Section Volume.
Context {D : Type} `{HD : BlockDevice D} `{!BlockDeviceLaws D}.

(** The static buffer has its declared size and holds bytes. *)
Definition io_wf (io : BootIo D) : Prop :=
  dev_wf (io_dev io) /\ length (g_sector_buffer io) = 512%nat /\ bytes (g_sector_buffer io).
Definition io_good (io : BootIo D) : Prop := io_wf io /\ dev_good (io_dev io).
Definition same_medium (io io' : BootIo D) : Prop :=
  forall l, dev_sector (io_dev io') l = dev_sector (io_dev io) l.

Lemma same_medium_refl io : same_medium io io.
Proof. done. Qed.

Lemma same_medium_trans io1 io2 io3 :
  same_medium io1 io2 -> same_medium io2 io3 -> same_medium io1 io3.
Proof. intros H1 H2 l. by rewrite H2, H1. Qed.

(** One sector read: never out of bounds, and on success the buffer is the
    sector. *)
Lemma wp_read_sector_buffer lba io (Q : Status * BootIo D -> Prop) E :
  io_wf io -> 0 <= lba < 2 ^ 32 ->
  (forall st io', io_wf io' -> same_medium io io' ->
     (st = StatusOK -> g_sector_buffer io' = dev_sector (io_dev io) lba) ->
     (io_good io -> st = StatusOK /\ io_good io') -> Q (st, io')) ->
  wp (read_sector_buffer lba io) Q E.
Proof.
  intros (Hw & Hl & Hb) Hlba HQ. unfold read_sector_buffer, bootfs_read_sector.
  destruct (dev_read (io_dev io) lba (g_sector_buffer io)) as
    (st & buf & d & -> & Hw' & Hl' & Hb' & Hs & Hd & Hg); [done..|].
  simpl. apply HQ; simpl; [done|done|done|].
  intros [_ Hgd]. destruct (Hg Hgd). by repeat split.
Qed.

(** ** What the volume holds *)

(** The 28-bit FAT entry of a cluster. *)
Definition fat_value (fs : BootFs) (io : BootIo D) (c : Z) : Z :=
  let fo := u32 (c * 4) in
  le_value (slice (dev_sector (io_dev io) (u32 (fat_lba fs + fo / 512)))
              (Z.to_nat (fo mod 512)) 4) mod 2 ^ 28.

Definition spc (fs : BootFs) : nat := Z.to_nat (sectors_per_cluster (boot_sector fs)).

Definition cluster_bytes (fs : BootFs) (io : BootIo D) (c : Z) : list Z :=
  concat (map (fun k => dev_sector (io_dev io) (u32 (bootfs_cluster_to_lba fs c + Z.of_nat k)))
            (seq 0 (spc fs))).

Definition chain_bytes (fs : BootFs) (io : BootIo D) (cs : list Z) : list Z :=
  concat (map (cluster_bytes fs io) cs).

(** [cs] is a path of data clusters along the FAT. *)
Definition data_cluster (c : Z) : Prop := 2 <= c < FAT32_CLUSTER_END.

Definition fat_path (fs : BootFs) (io : BootIo D) (cs : list Z) : Prop :=
  Forall data_cluster cs /\
  forall k c c', cs !! k = Some c -> cs !! S k = Some c' -> fat_value fs io c = c'.

(** The geometry [bootfs_init] establishes. *)
Definition fs_wf (fs : BootFs) : Prop :=
  0 < sectors_per_cluster (boot_sector fs) < 256 /\
  cluster_size fs = sectors_per_cluster (boot_sector fs) * 512.

Lemma fat_value_medium fs io io' c : same_medium io io' -> fat_value fs io' c = fat_value fs io c.
Proof. intros Hs. unfold fat_value. by rewrite Hs. Qed.

Lemma cluster_bytes_medium fs io io' c :
  same_medium io io' -> cluster_bytes fs io' c = cluster_bytes fs io c.
Proof. intros Hs. unfold cluster_bytes. f_equal. apply map_ext. intros k. apply Hs. Qed.

Lemma chain_bytes_medium fs io io' cs :
  same_medium io io' -> chain_bytes fs io' cs = chain_bytes fs io cs.
Proof.
  intros Hs. unfold chain_bytes. f_equal. apply map_ext. intros c.
  by apply cluster_bytes_medium.
Qed.

Lemma fat_path_medium fs io io' cs :
  same_medium io io' -> fat_path fs io cs -> fat_path fs io' cs.
Proof.
  intros Hs [Hd Hp]. split; [done|]. intros k c c' Hc Hc'.
  rewrite (fat_value_medium _ _ _ _ Hs). eauto.
Qed.

Lemma wp_read_fat_entry fs c io (Q : BootIo D * (Status + Z) -> Prop) E :
  io_wf io ->
  (forall io' r, io_wf io' -> same_medium io io' ->
     (io_good io -> r = inr (fat_value fs io c) /\ io_good io') -> Q (io', r)) ->
  wp (bootfs_read_fat_entry fs c io) Q E.
Proof.
  intros Hw HQ. unfold bootfs_read_fat_entry. cbv zeta. apply wp_bind.
  pose proof (u32_range (c * 4)) as Hr.
  apply wp_read_sector_buffer; [done|apply u32_range|].
  intros st io' Hw' Hm Hd Hg.
  pose proof (Z.mod_pos_bound (u32 (c * 4)) 512 ltac:(lia)) as Hmod.
  assert (u32 (c * 4) mod 512 <= 508) as Hoff.
  { unfold u32. change (2 ^ 32) with 4294967296.
    Z.div_mod_to_equations. lia. }
  case_bool_decide as Hst; simpl.
  - destruct Hw' as (? & Hl & Hb). subst st.
    rewrite boot_read_le32_ok by (try done; lia). simpl. apply HQ; [done|done|].
    intros Hgood. split; [|by apply Hg]. f_equal. rewrite Hd by done.
    change 268435455 with (Z.ones 28). rewrite Z.land_ones by lia. done.
  - apply HQ; [done|done|]. intros Hgood. by destruct (Hg Hgood).
Qed.

(** ** Walking the chain *)
Lemma wp_locate_loop n fs c ci io (Q : BootIo D * (Status + (Z * Z)) -> Prop) E :
  io_wf io ->
  (forall io' r, io_wf io' -> same_medium io io' ->
     (forall cs k, io_good io -> fat_path fs io cs -> cs !! k = Some c ->
        (k + n < length cs)%nat -> ci = Z.of_nat k -> ci + Z.of_nat n < 2 ^ 32 ->
        io_good io' /\ exists c', cs !! (k + n)%nat = Some c' /\ r = inr (c', ci + Z.of_nat n)) ->
     Q (io', r)) ->
  wp (locate_loop n fs c ci io) Q E.
Proof.
  revert c ci io Q. induction n as [|n IH]; intros c ci io Q Hw HQ; simpl.
  - apply HQ; [done|done|]. intros cs k Hg _ Hk _ -> _. split; [done|].
    exists c. rewrite Nat.add_0_r. split; [done|]. do 2 f_equal. lia.
  - apply wp_bind, wp_read_fat_entry; [done|]. intros io1 r Hw1 Hm1 Hg1.
    destruct r as [st|c1].
    { apply wp_ok, HQ; [done|done|]. intros cs k Hg. by destruct (Hg1 Hg). }
    destruct ((c1 <? 2) || (FAT32_CLUSTER_END <=? c1)) eqn:Hc.
    + apply wp_ok, HQ; [done|done|]. intros cs k Hg [Hd Hp] Hk Hlen -> _. exfalso.
      destruct (Hg1 Hg) as [[= ->] _].
      destruct (lookup_lt_is_Some_2 cs (S k)) as [c' Hc']; [lia|].
      rewrite (Hp _ _ _ Hk Hc') in Hc. rewrite Forall_lookup in Hd.
      pose proof (Hd _ _ Hc') as [? ?].
      apply orb_true_iff in Hc as [Hc|Hc]; zbool; lia.
    + apply IH; [done|]. intros io2 r Hw2 Hm2 HP. apply HQ; [done|by eapply same_medium_trans|].
      intros cs k Hg Hp Hk Hlen -> Hb. destruct (Hg1 Hg) as [[= ->] Hg1'].
      destruct (lookup_lt_is_Some_2 cs (S k)) as [c' Hc']; [lia|].
      destruct (HP cs (S k)) as (Hg2 & c2 & Hc2 & ->).
      * done.
      * by eapply fat_path_medium.
      * destruct Hp as [_ Hp]. by rewrite (Hp _ _ _ Hk Hc').
      * lia.
      * rewrite u32_small; lia.
      * rewrite u32_small; lia.
      * split; [done|]. exists c2.
        replace (k + S n)%nat with (S k + n)%nat by lia. split; [done|].
        do 2 f_equal. rewrite u32_small; lia.
Qed.

(** The cluster cache of an open file agrees with its chain. *)
Definition cache_ok (f : BootFsFile) (cs : list Z) : Prop :=
  cs !! 0%nat = Some (first_cluster f) /\
  0 <= current_cluster_index f /\
  (current_cluster f <> 0 -> cs !! Z.to_nat (current_cluster_index f) = Some (current_cluster f)).

Lemma wp_locate_cluster fs f off io (Q : BootIo D * (Status + (BootFsFile * Z)) -> Prop) E :
  io_wf io -> fs_wf fs -> 0 <= off < 2 ^ 32 ->
  (forall io' r, io_wf io' -> same_medium io io' ->
     (forall f' c, r = inr (f', c) -> f_size f' = f_size f /\ f_offset f' = f_offset f) ->
     (forall cs, io_good io -> fat_path fs io cs -> cache_ok f cs ->
        off < len cs * cluster_size fs ->
        io_good io' /\
        exists f' c, r = inr (f', c) /\ cache_ok f' cs /\
          cs !! Z.to_nat (off / cluster_size fs) = Some c) ->
     Q (io', r)) ->
  wp (bootfs_locate_cluster fs f off io) Q E.
Proof.
  intros Hw [Hspc Hcs] Hoff HQ. unfold bootfs_locate_cluster. cbv zeta.
  set (t := off / cluster_size fs).
  assert (0 <= t < 2 ^ 32) as Ht.
  { unfold t. split; [apply Z.div_pos; lia|]. apply Z.div_lt_upper_bound; nia. }
  set (start := if (current_cluster f =? 0) || (t <? current_cluster_index f)
                then (first_cluster f, 0) else (current_cluster f, current_cluster_index f)).
  assert (forall cs, cache_ok f cs ->
    cs !! Z.to_nat (snd start) = Some (fst start) /\ 0 <= snd start <= t) as Hstart.
  { intros cs (Hfirst & Hnn & Hcur). unfold start.
    destruct (_ || _) eqn:Hr; simpl; [split; [done|lia]|]. zbool.
    split; [by apply Hcur|lia]. }
  destruct start as [c0 ci0]. simpl in Hstart.
  apply wp_bind, wp_locate_loop; [done|]. intros io' r Hw' Hm HP.
  assert (forall cs, io_good io -> fat_path fs io cs -> cache_ok f cs ->
    off < len cs * cluster_size fs ->
    io_good io' /\ exists c, cs !! Z.to_nat t = Some c /\ r = inr (c, t)) as Hall.
  { intros cs Hg Hp Hc Hlt. destruct (Hstart cs Hc) as [Hk Hci].
    assert (t < len cs) by (apply Z.div_lt_upper_bound; lia).
    destruct (HP cs (Z.to_nat ci0)) as (Hg' & c' & Hc' & ->); try done; [lia..|].
    split; [done|]. exists c'.
    replace (Z.to_nat t) with (Z.to_nat ci0 + Z.to_nat (t - ci0))%nat by lia.
    split; [done|]. do 2 f_equal. lia. }
  destruct r as [st|[c ci]]; apply wp_ok, HQ; try done.
  - intros cs Hg Hp Hc Hlt. by destruct (Hall cs Hg Hp Hc Hlt) as (_ & ? & _ & ?).
  - by intros f' c' [= <- <-].
  - intros cs Hg Hp Hc Hlt. destruct (Hall cs Hg Hp Hc Hlt) as (Hg' & c' & Hc' & [= -> ->]).
    split; [done|]. eexists _, c'. split; [done|]. split; [|done].
    destruct Hc as (Hfirst & _ & _). split; [done|]. simpl. by split; [lia|].
Qed.

(** ** Contents of a chain *)
Lemma cluster_bytes_length fs io c :
  dev_wf (io_dev io) -> length (cluster_bytes fs io c) = (spc fs * 512)%nat.
Proof.
  intros Hw. unfold cluster_bytes. rewrite (length_concat_uniform 512).
  - by rewrite length_map, length_seq.
  - apply List.Forall_map, Forall_true. intros ?. by apply dev_sector_len.
Qed.

Lemma chain_bytes_length fs io cs :
  dev_wf (io_dev io) -> length (chain_bytes fs io cs) = (length cs * (spc fs * 512))%nat.
Proof.
  intros Hw. unfold chain_bytes. rewrite (length_concat_uniform (spc fs * 512)).
  - by rewrite length_map.
  - apply List.Forall_map, Forall_true. intros ?. by apply cluster_bytes_length.
Qed.

(** A piece of the chain that lies in one sector. *)
Lemma chain_bytes_slice fs io cs q c k o n :
  dev_wf (io_dev io) -> cs !! q = Some c -> (k < spc fs)%nat -> (o + n <= 512)%nat ->
  slice (chain_bytes fs io cs) (q * (spc fs * 512) + (k * 512 + o)) n
  = slice (dev_sector (io_dev io) (u32 (bootfs_cluster_to_lba fs c + Z.of_nat k))) o n.
Proof.
  intros Hw Hq Hk Ho. unfold chain_bytes.
  rewrite (slice_concat_uniform (spc fs * 512) _ q (cluster_bytes fs io c)).
  - unfold cluster_bytes.
    rewrite (slice_concat_uniform 512 _ k
               (dev_sector (io_dev io) (u32 (bootfs_cluster_to_lba fs c + Z.of_nat k)))); try done.
    + apply List.Forall_map, Forall_true. intros ?. by apply dev_sector_len.
    + rewrite list_lookup_fmap, lookup_seq_lt by done. done.
  - apply List.Forall_map, Forall_true. intros ?. by apply cluster_bytes_length.
  - by rewrite list_lookup_fmap, Hq.
  - nia.
Qed.

(** The geometry of one position of a file. *)
Lemma offset_split fs off :
  fs_wf fs -> 0 <= off ->
  let co := off mod cluster_size fs in
  (Z.to_nat (co / 512) < spc fs)%nat /\ 0 <= co mod 512 < 512 /\
  Z.to_nat off = (Z.to_nat (off / cluster_size fs) * (spc fs * 512)
                  + (Z.to_nat (co / 512) * 512 + Z.to_nat (co mod 512)))%nat.
Proof.
  intros [Hs Hc] Ho co. unfold spc.
  pose proof (Z.mod_pos_bound off (cluster_size fs) ltac:(lia)) as Hco. fold co in Hco.
  pose proof (Z.div_mod off (cluster_size fs) ltac:(lia)) as Hdm. fold co in Hdm.
  pose proof (Z.div_mod co 512 ltac:(lia)) as Hdm2.
  pose proof (Z.mod_pos_bound co 512 ltac:(lia)) as Hm2.
  assert (0 <= co / 512 < sectors_per_cluster (boot_sector fs)) as Hd2
    by (split; [apply Z.div_pos|apply Z.div_lt_upper_bound]; lia).
  assert (0 <= off / cluster_size fs) by (apply Z.div_pos; lia).
  split; [lia|]. split; [done|].
  apply Nat2Z.inj. rewrite !Nat2Z.inj_add, !Nat2Z.inj_mul, !Z2Nat.id by lia. lia.
Qed.

(** ** Reading *)
Section ReadLoop.
Variables (fs : BootFs) (io0 : BootIo D) (f0 : BootFsFile) (b0 : list Z) (n : Z).
Hypothesis (Hfs : fs_wf fs) (Hoff : 0 <= f_offset f0) (Hn : 0 <= n <= len b0).
Hypothesis (Hend : f_offset f0 + n <= f_size f0) (Hsz : f_size f0 < 2 ^ 32).

(** The chain [cs] holds the file. *)
Definition holds_file (io : BootIo D) (f : BootFsFile) (cs : list Z) : Prop :=
  io_good io /\ fat_path fs io cs /\ cache_ok f cs /\
  f_size f <= len cs * cluster_size fs.

Lemma drop_splice {A} (l m : list A) off (src : list A) (k : nat) :
  (off + length src <= length l)%nat -> drop off l = drop off m ->
  k = (off + length src)%nat -> drop k (splice l off src) = drop k m.
Proof.
  intros Hl Hd ->. apply list_eq. intros i. rewrite !lookup_drop.
  rewrite lookup_splice_ge by lia.
  apply (f_equal (fun x => x !! (length src + i)%nat)) in Hd. rewrite !lookup_drop in Hd.
  by rewrite !Nat.add_assoc in Hd.
Qed.

(** How far a read got: [k] bytes were stored at the front of the buffer and the
    offset advanced by them; either all [n], which are reported, or fewer, and
    an input error is. *)
Definition read_outcome (n : Z) (f0 : BootFsFile) (b0 : list Z) (f1 : BootFsFile)
    (b1 : list Z) (ret : Z) : Prop :=
  exists k, 0 <= k <= n /\ f_offset f1 = f_offset f0 + k /\
    drop (Z.to_nat k) b1 = drop (Z.to_nat k) b0 /\
    (ret = n /\ k = n \/ ret = StatusIoError /\ k < n).

Definition read_inv (s : ReadState D) : Prop :=
  io_wf (rs_io s) /\ same_medium io0 (rs_io s) /\
  0 <= rs_output s /\ 0 <= rs_size s /\ rs_output s + rs_size s = n /\
  f_offset (rs_file s) = f_offset f0 + rs_output s /\
  f_size (rs_file s) = f_size f0 /\ length (rs_buffer s) = length b0 /\
  drop (Z.to_nat (rs_output s)) (rs_buffer s) = drop (Z.to_nat (rs_output s)) b0 /\
  forall cs, holds_file io0 f0 cs ->
    holds_file (rs_io s) (rs_file s) cs /\
    rs_buffer s = splice b0 0 (slice (chain_bytes fs io0 cs)
                                 (Z.to_nat (f_offset f0)) (Z.to_nat (rs_output s))).

Definition read_post (r : ReadState D * Z) : Prop :=
  let '(s, ret) := r in
  io_wf (rs_io s) /\ same_medium io0 (rs_io s) /\
  length (rs_buffer s) = length b0 /\ f_size (rs_file s) = f_size f0 /\
  read_outcome n f0 b0 (rs_file s) (rs_buffer s) ret /\
  forall cs, holds_file io0 f0 cs ->
    ret = n /\ f_offset (rs_file s) = f_offset f0 + n /\
    holds_file (rs_io s) (rs_file s) cs /\
    rs_buffer s = splice b0 0 (slice (chain_bytes fs io0 cs)
                                 (Z.to_nat (f_offset f0)) (Z.to_nat n)).

Lemma read_step_ok s :
  read_inv s ->
  wp (read_step fs s)
    (fun r => match r with
              | inl s' => read_inv s' /\ (Z.to_nat (rs_size s') < Z.to_nat (rs_size s))%nat
              | inr x => read_post x
              end) (fun _ => False).
Proof.
  intros (Hw & Hm & Ho & Hs & Hsum & Hfo & Hfs' & Hlb & Hdr & Hfun). unfold read_step.
  destruct (Z.ltb_spec 0 (rs_size s)) as [Hpos|Hz]; simpl.
  2:{ assert (rs_output s = n) as Heq by lia. split_and!; try done.
      { exists (rs_output s). split_and!; [lia..|done|]. by left. }
      intros cs Hh. destruct (Hfun cs Hh) as [Hh' Hb].
      split_and!; [done|lia|done|by rewrite Hb, Heq]. }
  apply wp_bind, wp_locate_cluster; [done|done|lia|]. intros io1 r Hw1 Hm1 Hkeep Hloc.
  assert (forall cs, holds_file io0 f0 cs ->
    io_good io1 /\ exists f' c, r = inr (f', c) /\ cache_ok f' cs /\
      cs !! Z.to_nat (f_offset (rs_file s) / cluster_size fs) = Some c) as Hloc'.
  { intros cs Hh. destruct (Hfun cs Hh) as [(Hg & Hp & Hc & Hle) _].
    apply Hloc; [done..|]. lia. }
  destruct r as [st|[f1 c]].
  { split_and!; try done; [by eapply same_medium_trans| |].
    { exists (rs_output s). split_and!; [lia|lia|cbn; lia|done|]. right. split; [done|lia]. }
    intros cs Hh. by destruct (Hloc' cs Hh) as (_ & ? & ? & ? & _). }
  destruct (Hkeep f1 c eq_refl) as [Hk1 Hk2].
  destruct (offset_split fs (f_offset f1)) as (Hsic & Hso & Hpos'); [done|lia|].
  cbv zeta in Hsic, Hso, Hpos'. cbv zeta.
  set (co := f_offset f1 mod cluster_size fs) in *.
  apply wp_bind, wp_read_sector_buffer; [done|apply u32_range|].
  intros st io2 Hw2 Hm2 Hd2 Hg2.
  case_bool_decide as Hst; simpl.
  2:{ split_and!; try done;
        [eauto using same_medium_trans|by rewrite Hk1| |].
      { exists (rs_output s). split_and!; [lia|lia|cbn; lia|done|]. right. split; [done|lia]. }
      intros cs Hh. destruct (Hloc' cs Hh) as (Hg1 & _). by destruct (Hg2 Hg1). }
  set (chunk := if rs_size s <? 512 - co mod 512 then rs_size s else 512 - co mod 512).
  assert (0 < chunk <= rs_size s /\ chunk <= 512 - co mod 512) as Hchunk
    by (unfold chunk; destruct (Z.ltb_spec (rs_size s) (512 - co mod 512)); lia).
  destruct Hw2 as (Hdw2 & Hlen2 & Hby2).
  rewrite copy_loop_ok by lia. simpl. split; [|lia].
  rewrite (u32_small (f_offset f1 + chunk)) by lia.
  split; [done|]. split; [eauto using same_medium_trans|].
  split; [simpl; lia|]. split; [simpl; lia|]. split; [simpl; lia|].
  split; [simpl; lia|]. split; [simpl; lia|].
  split. { cbn [rs_buffer]. rewrite length_splice; [done|]. rewrite length_slice; lia. }
  split. { cbn [rs_buffer rs_output]. apply drop_splice; [|done|]; rewrite length_slice; lia. }
  intros cs Hh. destruct (Hfun cs Hh) as [(Hg & Hp & Hc & Hle) Hbuf].
  destruct (Hloc' cs Hh) as (Hg1 & f1' & c1 & [= <- <-] & Hc1 & Hcs). split.
  - split; [by apply Hg2|].
    split; [apply (fat_path_medium fs (rs_io s)); eauto using same_medium_trans|].
    split; [apply Hc1|]. simpl. by rewrite Hk1.
  - simpl. rewrite Hbuf.
    assert (length (slice (chain_bytes fs io0 cs) (Z.to_nat (f_offset f0)) (Z.to_nat (rs_output s)))
            = Z.to_nat (rs_output s)) as Hls.
    { apply length_slice. rewrite chain_bytes_length.
      - destruct Hfs as [Hs1 Hs2]. destruct Hh as (_ & _ & _ & Hle0). unfold spc. nia.
      - apply Hh. }
    match goal with |- splice (splice _ _ ?A) ?o ?B = _ =>
      pose proof (splice_app b0 0 A B) as Hsp
    end.
    rewrite Hls, !Nat.add_0_l, length_slice in Hsp by lia. rewrite Hsp by lia.
    rewrite (Z2Nat.inj_add (rs_output s)) by lia. rewrite <- slice_app. do 2 f_equal.
    rewrite Hd2 by done.
    replace (Z.to_nat (f_offset f0) + Z.to_nat (rs_output s))%nat
      with (Z.to_nat (f_offset f1)) by lia.
    rewrite Hpos', (chain_bytes_slice fs io0 cs _ c); [|apply Hh|by rewrite Hk2|lia|lia].
    assert (0 <= co) by (apply Z.mod_pos_bound; destruct Hfs; lia).
    rewrite Z2Nat.id by (apply Z.div_pos; lia). by rewrite (Hm1 _), (Hm _).
Qed.
End ReadLoop.

(** [bootfs_read] on a whole: safe on every medium, and on a healthy device
    it returns the slice of the file at the current offset. *)
Lemma wp_bootfs_read fs f b size io :
  io_wf io -> fs_wf fs -> 0 <= f_offset f -> f_size f < 2 ^ 32 -> 0 <= size <= len b ->
  wp (bootfs_read (Some fs) (Some f) (Some b) size io)
    (fun r => let '(io', f', b', ret) := r in
       exists f1 b1, f' = Some f1 /\ b' = Some b1 /\
         io_wf io' /\ same_medium io io' /\ length b1 = length b /\ f_size f1 = f_size f /\
         read_outcome (Z.min size (Z.max 0 (f_size f - f_offset f))) f b f1 b1 ret /\
         forall cs, holds_file fs io f cs ->
           let n := Z.min size (Z.max 0 (f_size f - f_offset f)) in
           ret = n /\ f_offset f1 = f_offset f + n /\ holds_file fs io' f1 cs /\
           b1 = splice b 0 (slice (chain_bytes fs io cs) (Z.to_nat (f_offset f)) (Z.to_nat n)))
    (fun _ => False).
Proof.
  intros Hw Hfs Ho Hs Hsz. unfold bootfs_read.
  destruct (Z.leb_spec (f_size f) (f_offset f)) as [Hle|Hlt].
  { apply wp_ok. exists f, b. split_and!; try done.
    { exists 0. split_and!; [lia..|done|]. left. lia. }
    intros cs Hh.
    replace (Z.min _ _) with 0 by lia. split_and!; [done|lia|done|].
    change (Z.to_nat 0) with 0%nat. by rewrite slice_0, splice_nil. }
  rewrite u32_small by lia. cbv zeta.
  set (n := if f_size f - f_offset f <? size then f_size f - f_offset f else size).
  assert (n = Z.min size (Z.max 0 (f_size f - f_offset f))) as Hn.
  { unfold n. destruct (Z.ltb_spec (f_size f - f_offset f) size); lia. }
  rewrite <- Hn. apply wp_bind.
  apply (wp_iterate _ _ _ (read_inv fs io f b n) (fun s => Z.to_nat (rs_size s))).
  - intros s Hinv. eapply wp_mono; [apply (read_step_ok fs io f b n); try done; lia| |done].
    intros [s'|[s' ret]]; [done|]. intros (Hw' & Hm' & Hl' & Hf' & Hout & Hfun). simpl.
    exists (rs_file s'), (rs_buffer s'). by split_and!.
  - split_and!; try done; simpl; lia.
  - simpl. lia.
Qed.

(** ** Directory search *)

(** Does the 32-byte directory record [e] name the file [name]? *)
Definition entry_matches (name e : list Z) : bool :=
  negb (nth 0 e 0 =? 0xE5) && negb (nth 11 e 0 =? FAT32_ATTRIBUTE_LONG_NAME) &&
  (Z.land (nth 11 e 0) FAT32_ATTRIBUTE_VOLUME_ID =? 0) && bool_decide (take 11 e = name).

Definition entry_decode (e : list Z) : BootFsFat32DirEntry :=
  mkDirEntry (take 11 e) (nth 11 e 0) (le_value (slice e 20 2)) (le_value (slice e 26 2))
    (le_value (slice e 28 4)).

(** The first live record with that name, in directory order; a record whose
    first byte is zero ends the directory. *)
Fixpoint scan_entries (name : list Z) (es : list (list Z))
  : option (Status + BootFsFat32DirEntry) :=
  match es with
  | [] => None
  | e :: r =>
      if nth 0 e 0 =? 0 then Some (inl StatusNotFound)
      else if entry_matches name e then Some (inr (entry_decode e))
      else scan_entries name r
  end.

Definition cluster_entries (fs : BootFs) (io : BootIo D) (c : Z) : list (list Z) :=
  map (fun k => slice (cluster_bytes fs io c) (k * 32) 32) (seq 0 (spc fs * 16)).

Definition dir_lookup (fs : BootFs) (io : BootIo D) (name cs : list Z)
  : Status + BootFsFat32DirEntry :=
  default (inl StatusNotFound)
    (scan_entries name (concat (map (cluster_entries fs io) cs))).

Lemma scan_entries_app name es es' :
  scan_entries name (es ++ es') =
  match scan_entries name es with Some r => Some r | None => scan_entries name es' end.
Proof. induction es as [|e es IH]; simpl; [done|]. by repeat case_match. Qed.

Lemma cluster_entries_medium fs io io' c :
  same_medium io io' -> cluster_entries fs io' c = cluster_entries fs io c.
Proof.
  intros Hs. unfold cluster_entries. by rewrite (cluster_bytes_medium fs io io').
Qed.

(** The record at offset [32 k] of a cluster, in its sector. *)
Lemma cluster_entry_sector fs io c k :
  dev_wf (io_dev io) -> (k < spc fs * 16)%nat ->
  slice (cluster_bytes fs io c) (k * 32) 32 =
  slice (dev_sector (io_dev io) (u32 (bootfs_cluster_to_lba fs c + Z.of_nat k * 32 / 512)))
    (Z.to_nat (Z.of_nat k * 32 mod 512)) 32.
Proof.
  intros Hw Hk. unfold cluster_bytes.
  assert (Z.of_nat k * 32 / 512 = Z.of_nat (k / 16)) as ->
    by (rewrite Nat2Z.inj_div; Z.div_mod_to_equations; lia).
  assert (Z.to_nat (Z.of_nat k * 32 mod 512) = (k mod 16) * 32)%nat as ->.
  { apply Nat2Z.inj. rewrite Z2Nat.id, Nat2Z.inj_mul, Nat2Z.inj_mod by (Z.div_mod_to_equations; lia).
    Z.div_mod_to_equations; lia. }
  pose proof (Nat.div_mod_eq k 16) as Hdm. pose proof (Nat.mod_upper_bound k 16 ltac:(lia)).
  replace (k * 32)%nat with (k / 16 * 512 + k mod 16 * 32)%nat by lia.
  apply slice_concat_uniform.
  - apply List.Forall_map, Forall_true. intros ?. by apply dev_sector_len.
  - rewrite list_lookup_fmap, lookup_seq_lt; [done|]. apply Nat.Div0.div_lt_upper_bound; lia.
  - lia.
Qed.

Lemma aget_entry (b : list Z) so i :
  0 <= so -> so + 32 <= len b -> (i < 32)%nat ->
  aget b (so + Z.of_nat i) = Ok (nth i (slice b (Z.to_nat so) 32) 0).
Proof.
  intros Hs Hl Hi. destruct (aget_lt b (so + Z.of_nat i)) as (x & -> & Hx); [lia|].
  f_equal. symmetry. apply nth_lookup_Some. rewrite lookup_slice by lia.
  rewrite <- Hx. f_equal. lia.
Qed.

Lemma parse_dir_entry_ok b so :
  bytes b -> 0 <= so -> so + 32 <= len b ->
  bootfs_parse_dir_entry b so = Ok (entry_decode (slice b (Z.to_nat so) 32)).
Proof.
  intros Hb Hs Hl. unfold bootfs_parse_dir_entry.
  rewrite read_array_ok by lia.
  change (so + 11) with (so + Z.of_nat 11). rewrite aget_entry by lia. simpl.
  rewrite !boot_read_le16_ok, boot_read_le32_ok by (done || lia). simpl.
  unfold entry_decode. rewrite !slice_slice by lia.
  replace (Z.to_nat (so + 20)) with (Z.to_nat so + 20)%nat by lia.
  replace (Z.to_nat (so + 26)) with (Z.to_nat so + 26)%nat by lia.
  replace (Z.to_nat (so + 28)) with (Z.to_nat so + 28)%nat by lia.
  do 2 f_equal. unfold slice. rewrite take_take. f_equal.
Qed.

(** One record of the inner loop, against [entry_matches]. *)
Lemma find_entry_step_ok fs name c k io io0 :
  io_good io -> same_medium io0 io -> fs_wf fs -> length name = 11%nat ->
  (k < spc fs * 16)%nat ->
  let e := slice (cluster_bytes fs io0 c) (k * 32) 32 in
  wp (find_entry_step fs name c (Z.of_nat k * 32, io))
    (fun r => exists io', io_good io' /\ same_medium io0 io' /\
       r = if nth 0 e 0 =? 0 then inr (io', Some (inl StatusNotFound))
           else if entry_matches name e then inr (io', Some (inr (entry_decode e)))
           else inl (Z.of_nat (S k) * 32, io'))
    (fun _ => False).
Proof.
  intros [Hw Hg] Hm [Hs Hcs] Hn Hk e. unfold find_entry_step.
  assert (cluster_size fs = Z.of_nat (spc fs * 16) * 32) as Hcs'
    by (unfold spc; rewrite Hcs, Nat2Z.inj_mul, Z2Nat.id; lia).
  destruct (Z.ltb_spec (Z.of_nat k * 32) (cluster_size fs)); [|lia]. simpl.
  apply wp_bind, wp_read_sector_buffer; [done|apply u32_range|].
  intros st io' Hw' Hm' Hd Hg'. destruct (Hg' (conj Hw Hg)) as [-> Hg1].
  rewrite bool_decide_eq_true_2 by done. simpl.
  destruct Hw' as (Hdw & Hl & Hb). set (so := Z.of_nat k * 32 mod 512).
  assert (0 <= so /\ so + 32 <= 512) as [Hso1 Hso2]
    by (unfold so; Z.div_mod_to_equations; lia).
  assert (slice (g_sector_buffer io') (Z.to_nat so) 32 = e) as He.
  { unfold e. rewrite Hd by done. rewrite <- (cluster_bytes_medium fs io0 io) by done.
    by rewrite cluster_entry_sector by (done || apply Hw). }
  replace (aget (g_sector_buffer io') so) with (Ok (nth 0 e 0))
    by (rewrite <- He, <- (aget_entry _ _ 0) by lia; f_equal; lia). simpl.
  destruct (nth 0 e 0 =? 0); [by exists io'; eauto using same_medium_trans|].
  change (so + 11) with (so + Z.of_nat 11). rewrite aget_entry, He by lia. simpl.
  unfold entry_matches.
  destruct (negb (nth 0 e 0 =? 0xE5) && negb (nth 11 e 0 =? FAT32_ATTRIBUTE_LONG_NAME) &&
            (Z.land (nth 11 e 0) FAT32_ATTRIBUTE_VOLUME_ID =? 0)) eqn:Hatt; cbn [andb bind].
  - destruct (boot_memcmp_spec (g_sector_buffer io') so name 0 11) as (cmp & -> & Hc); [lia..|].
    simpl. assert ((cmp =? 0) = bool_decide (take 11 e = name)) as ->.
    { apply eq_true_iff_eq. rewrite Z.eqb_eq, bool_decide_eq_true, Hc.
      rewrite <- He. unfold slice. rewrite take_take, !drop_0, (take_ge name) by lia. done. }
    case_bool_decide; simpl.
    + rewrite parse_dir_entry_ok, He by (done || lia). simpl. eauto using same_medium_trans.
    + exists io'. split_and!; [done|eauto using same_medium_trans|].
      rewrite u32_small by (unfold FAT32_DIR_ENTRY_SIZE; lia).
      unfold FAT32_DIR_ENTRY_SIZE. do 2 f_equal. lia.
  - exists io'. split_and!; [done|eauto using same_medium_trans|].
    rewrite u32_small by (unfold FAT32_DIR_ENTRY_SIZE; lia).
    unfold FAT32_DIR_ENTRY_SIZE. do 2 f_equal. lia.
Qed.

(** The inner loop scans the records of one cluster. *)
Lemma scan_cluster_ok fs name c io :
  io_good io -> fs_wf fs -> length name = 11%nat ->
  exists io', iterate (cluster_fuel fs) (find_entry_step fs name c) (0, io)
              = Ok (io', scan_entries name (cluster_entries fs io c)) /\
    io_good io' /\ same_medium io io'.
Proof.
  intros Hg Hfs Hn. set (es := cluster_entries fs io c).
  assert (length es = spc fs * 16)%nat as Hes by (unfold es, cluster_entries; by rewrite length_map, length_seq).
  assert (cluster_size fs = Z.of_nat (length es) * 32) as Hcs.
  { destruct Hfs as [? ->]. rewrite Hes, Nat2Z.inj_mul. unfold spc. lia. }
  assert (wp (iterate (cluster_fuel fs) (find_entry_step fs name c) (0, io))
    (fun r => snd r = scan_entries name es /\ io_good (fst r) /\ same_medium io (fst r))
    (fun _ => False)) as Hwp.
  { apply (wp_iterate _ _ _
      (fun s => exists k, fst s = Z.of_nat k * 32 /\ (k <= length es)%nat /\
         io_good (snd s) /\ same_medium io (snd s) /\
         scan_entries name (drop k es) = scan_entries name es)
      (fun s => Z.to_nat (cluster_size fs - fst s))).
    - intros [o io'] (k & Ho & Hk & Hg' & Hm & Hscan). simpl in *. subst o.
      destruct (decide (k = length es)) as [->|Hne].
      + unfold find_entry_step. rewrite Hcs, Z.ltb_irrefl. simpl.
        rewrite drop_all in Hscan. simpl in Hscan. by rewrite <- Hscan.
      + eapply wp_post; [apply (find_entry_step_ok fs name c k io' io); try done; lia|].
        intros r (io2 & Hg2 & Hm2 & ->).
        rewrite (drop_S es (slice (cluster_bytes fs io c) (k * 32) 32)) in Hscan.
        2:{ unfold es, cluster_entries. rewrite list_lookup_fmap, lookup_seq_lt by lia. done. }
        simpl in Hscan. destruct (nth 0 _ 0 =? 0); [by simpl|].
        destruct (entry_matches _ _); [by simpl|].
        split; [|simpl; lia]. exists (S k). split_and!; try done. lia.
    - exists 0%nat. rewrite drop_0. split_and!; try done. simpl. lia.
    - unfold cluster_fuel. simpl. lia. }
  destruct (iterate _ _ _) as [[io' r]| | |]; try done. simpl in Hwp.
  destruct Hwp as (-> & ? & ?). by exists io'.
Qed.

(** A terminated cluster chain. *)
Inductive fat_chain (fs : BootFs) (io : BootIo D) : Z -> list Z -> Prop :=
| chain_end c : ~ data_cluster c -> fat_chain fs io c []
| chain_next c cs :
    data_cluster c -> fat_chain fs io (fat_value fs io c) cs -> fat_chain fs io c (c :: cs).

Lemma fat_chain_medium fs io io' c cs :
  same_medium io io' -> fat_chain fs io c cs -> fat_chain fs io' c cs.
Proof.
  intros Hs. induction 1; constructor; try done. by rewrite (fat_value_medium _ _ _ _ Hs).
Qed.

Lemma fat_chain_path fs io c cs : fat_chain fs io c cs -> fat_path fs io cs.
Proof.
  induction 1 as [|c cs Hd Hch [IH1 IH2]]; [by split; [constructor|]|].
  split; [by constructor|]. intros [|k] a a' Ha Ha'; simpl in *; simplify_eq; [|eauto].
  destruct Hch; simpl in Ha'; by simplify_eq.
Qed.

Lemma data_clusterb c :
  ((2 <=? c) && (c <? FAT32_CLUSTER_END)) = true <-> data_cluster c.
Proof. unfold data_cluster. rewrite andb_true_iff, Z.leb_le, Z.ltb_lt. done. Qed.

(** One cluster of the outer loop. *)
Lemma find_cluster_step_ok fs name c io :
  io_good io -> fs_wf fs -> length name = 11%nat -> data_cluster c ->
  exists io', io_good io' /\ same_medium io io' /\
    find_cluster_step fs name (c, io) =
    Ok (match scan_entries name (cluster_entries fs io c) with
        | Some r => inr (io', r)
        | None => inl (fat_value fs io c, io')
        end).
Proof.
  intros Hg Hfs Hn Hc. unfold find_cluster_step.
  rewrite (proj2 (data_clusterb c)) by done. cbn [negb].
  destruct (scan_cluster_ok fs name c io) as (io1 & -> & Hg1 & Hm1); [done..|].
  cbn [bind]. destruct (scan_entries _ _); [by exists io1|].
  pose proof (wp_read_fat_entry fs c io1
    (fun r => snd r = inr (fat_value fs io c) /\ io_good (fst r) /\ same_medium io (fst r))
    (fun _ => False)) as Hr.
  destruct (bootfs_read_fat_entry fs c io1) as [[io2 r]| | |]; simpl in Hr.
  2-4: exfalso; apply Hr; [apply Hg1|]; intros io' r' _ Hm' Hf; destruct (Hf Hg1) as [-> ?];
    simpl; split_and!; eauto using same_medium_trans; by rewrite (fat_value_medium _ io).
  destruct Hr as (-> & Hg2 & Hm2); [apply Hg1| |by exists io2].
  intros io' r' _ Hm' Hf; destruct (Hf Hg1) as [-> ?].
  split_and!; eauto using same_medium_trans. by rewrite (fat_value_medium _ io).
Qed.

Lemma find_root_entry_chain fs name c cs io fuel :
  io_good io -> fs_wf fs -> length name = 11%nat -> fat_chain fs io c cs ->
  (length cs < fuel)%nat ->
  exists io', io_good io' /\ same_medium io io' /\
    iterate fuel (find_cluster_step fs name) (c, io) = Ok (io', dir_lookup fs io name cs).
Proof.
  intros Hg Hfs Hn Hch. revert io fuel Hg Hch.
  induction cs as [|a cs IH] in c |- *; intros io fuel Hg Hch Hf;
    (destruct fuel as [|fuel]; [simpl in Hf; lia|]); inversion Hch; subst.
  - exists io. split_and!; [done|done|]. cbn [iterate]. unfold find_cluster_step.
    destruct (_ && _) eqn:Hb; [by apply data_clusterb in Hb|]. done.
  - cbn [iterate]. destruct (find_cluster_step_ok fs name a io) as (io1 & Hg1 & Hm1 & ->); [done..|].
    cbn [bind]. unfold dir_lookup. cbn [map concat]. rewrite scan_entries_app.
    destruct (scan_entries name (cluster_entries fs io a)) as [r|] eqn:Hs; [by exists io1|].
    destruct (IH (fat_value fs io a) io1 fuel) as (io2 & Hg2 & Hm2 & ->).
    + done.
    + by eapply fat_chain_medium.
    + simpl in Hf. lia.
    + exists io2. split_and!; [done|eauto using same_medium_trans|].
      unfold dir_lookup. do 5 f_equal. apply map_ext. intros x. by apply cluster_entries_medium.
Qed.

(** A FAT whose root chain comes back to itself. *)
Lemma find_root_entry_cycle fs name (S : list Z) c io fuel :
  io_good io -> fs_wf fs -> length name = 11%nat -> c ∈ S ->
  (forall a, a ∈ S -> data_cluster a /\ fat_value fs io a ∈ S /\
     scan_entries name (cluster_entries fs io a) = None) ->
  iterate fuel (find_cluster_step fs name) (c, io) = NoFuel.
Proof.
  intros Hg Hfs Hn Hc HS. revert c io Hg Hc HS. induction fuel as [|fuel IH]; intros c io Hg Hc HS; [done|].
  cbn [iterate]. destruct (HS c Hc) as (Hd & Hnx & Hno).
  destruct (find_cluster_step_ok fs name c io) as (io1 & Hg1 & Hm1 & ->); [done..|].
  rewrite Hno. cbn [bind]. apply IH; [done..|]. intros a Ha.
  destruct (HS a Ha) as (? & ? & ?).
  rewrite (fat_value_medium _ io io1), (cluster_entries_medium _ io io1) by done. done.
Qed.
End Volume.

(** ** Short names *)
Lemma upper_loop_ok n dst doff src soff :
  0 <= doff -> 0 <= soff -> soff + Z.of_nat n <= len src -> doff + Z.of_nat n <= len dst ->
  upper_loop n dst doff src soff
  = Ok (splice dst (Z.to_nat doff) (map boot_char_upper (slice src (Z.to_nat soff) n))).
Proof.
  intros Hd Hs H1 H2. unfold upper_loop.
  set (I := fun i d => 0 <= i /\ d = splice dst (Z.to_nat doff)
              (map boot_char_upper (slice src (Z.to_nat soff) (Z.to_nat i)))).
  assert (wp (for_range n 0 (fun k d => x <- cstr_get src (soff + k) ;;
                               aset d (doff + k) (boot_char_upper x)) dst)
    (I (Z.of_nat n)) (fun _ => False)) as Hwp.
  { apply (wp_for_range _ _ _ _ I).
    - split; [done|]. simpl. by rewrite splice_nil.
    - intros i d Hi [_ ->]. unfold cstr_get.
      destruct (Z.eqb_spec (soff + i) (len src)); [lia|].
      apply wp_bind, wp_aget; [lia|]. intros x Hx.
      assert (length (map boot_char_upper (slice src (Z.to_nat soff) (Z.to_nat i))) = Z.to_nat i) as Hl
        by (rewrite length_map, length_slice; lia).
      apply wp_aset; [rewrite length_splice; lia|]. split; [lia|].
      replace (Z.to_nat (doff + i)) with (Z.to_nat doff + length (map boot_char_upper (slice src (Z.to_nat soff) (Z.to_nat i))))%nat by lia.
      rewrite splice_snoc by lia. f_equal.
      replace (Z.to_nat (i + 1)) with (S (Z.to_nat i)) by lia.
      rewrite (slice_S _ _ _ x), map_app; [done|]. rewrite <- Hx. f_equal. lia.
    - done. }
  destruct (for_range _ _ _ _); try done. destruct Hwp as [_ ->]. by rewrite Nat2Z.id.
Qed.

(** A character allowed in a name. *)
Definition name_char (c : Z) : Prop := 0 < c < 256 /\ c <> 46 /\ c <> 47.

(** The 11 bytes of an 8.3 name: padded base, padded extension. *)
Definition fat83 (base ext : list Z) : list Z :=
  map boot_char_upper base ++ replicate (8 - length base) 32 ++
  map boot_char_upper ext ++ replicate (3 - length ext) 32.

Lemma scan_name s pos dot :
  Forall name_char s -> short_name_scan s pos dot = inr dot.
Proof.
  intros H. revert pos. induction H as [|c s (Hc & H1 & H2) _ IH]; intros pos; simpl; [done|].
  destruct (Z.eqb_spec c 47); [lia|]. destruct (Z.eqb_spec c 46); [lia|]. apply IH.
Qed.

Lemma scan_dotted base ext pos :
  Forall name_char base -> Forall name_char ext ->
  short_name_scan (base ++ 46 :: ext) pos None = inr (Some (pos + len base)).
Proof.
  intros Hb He. revert pos. induction Hb as [|c s (Hc & H1 & H2) _ IH]; intros pos; simpl.
  - rewrite scan_name by done. do 2 f_equal. lia.
  - destruct (Z.eqb_spec c 47); [lia|]. destruct (Z.eqb_spec c 46); [lia|].
    rewrite IH. do 2 f_equal. lia.
Qed.

Lemma map_upper_length l : length (map boot_char_upper l) = length l.
Proof. apply length_map. Qed.

(** Filling the padded array gives the padded name. *)
Lemma fat83_splice base ext :
  (length base <= 8)%nat -> (length ext <= 3)%nat ->
  splice (splice (replicate 11 32) 0 (map boot_char_upper base)) 8 (map boot_char_upper ext)
  = fat83 base ext.
Proof.
  intros Hb He. unfold splice, fat83. rewrite !map_upper_length.
  rewrite take_0, app_nil_l, Nat.add_0_l.
  rewrite drop_replicate, take_app, drop_app, !map_upper_length.
  rewrite (take_ge (map boot_char_upper base)) by (rewrite map_upper_length; lia).
  rewrite take_replicate, (drop_ge (map boot_char_upper base)) by (rewrite map_upper_length; lia).
  rewrite drop_replicate, app_nil_l, <- app_assoc.
  rewrite Nat.min_l by lia.
  by replace (11 - length base - (8 + length ext - length base))%nat with (3 - length ext)%nat by lia.
Qed.

Lemma cstr_get_lt s i x : s !! i = Some x -> cstr_get s (Z.of_nat i) = Ok x.
Proof.
  intros Hx. unfold cstr_get. pose proof (lookup_lt_Some _ _ _ Hx).
  destruct (Z.eqb_spec (Z.of_nat i) (len s)); [lia|]. apply aget_ok; [lia|].
  by rewrite Nat2Z.id.
Qed.

Lemma make_short_name_dotted base ext :
  Forall name_char base -> Forall name_char ext ->
  (0 < length base <= 8)%nat -> (length ext <= 3)%nat ->
  bootfs_make_short_name (47 :: base ++ 46 :: ext) = Ok (inr (fat83 base ext)).
Proof.
  intros Hb He Hbl Hel. unfold bootfs_make_short_name.
  set (path := 47 :: base ++ 46 :: ext).
  assert (length path = 2 + length base + length ext)%nat as Hlen
    by (unfold path; simpl; rewrite length_app; simpl; lia).
  change (cstr_get path 0) with (cstr_get path (Z.of_nat 0)).
  rewrite (cstr_get_lt path 0 47) by done. cbn [bind]. change (negb (47 =? 47)) with false. cbv iota.
  destruct base as [|b0 base']; [simpl in *; lia|].
  change (cstr_get path 1) with (cstr_get path (Z.of_nat 1)).
  rewrite (cstr_get_lt path 1 b0) by done. cbn [bind].
  inversion Hb as [|? ? [Hb0 _] _]; subst.
  destruct (Z.eqb_spec b0 0); [lia|].
  change (drop 1 path) with ((b0 :: base') ++ 46 :: ext). rewrite scan_dotted by done.
  cbv zeta. destruct (_ || _) eqn:Hc.
  { apply orb_true_iff in Hc as [Hc|Hc]; [apply orb_true_iff in Hc as [Hc|Hc]|]; zbool; lia. }
  clear Hc. rewrite upper_loop_ok by (rewrite ?length_replicate; lia). cbn [bind].
  rewrite upper_loop_ok.
  2-4: lia.
  2:{ rewrite length_splice; rewrite ?length_replicate; [lia|].
      rewrite map_upper_length, length_slice; lia. }
  cbn [bind]. do 2 f_equal. rewrite <- fat83_splice by lia.
  change (Z.to_nat 0) with 0%nat. change (Z.to_nat 8) with 8%nat. f_equal; [f_equal|]; f_equal.
  - unfold slice. change (drop (Z.to_nat 1) path) with ((b0 :: base') ++ 46 :: ext).
    rewrite take_app_length'; [done|]. lia.
  - rewrite Hlen. unfold slice, path.
    replace (Z.to_nat (1 + len (b0 :: base') + 1)) with (S (length (b0 :: base')) + 1)%nat by lia.
    change (47 :: (b0 :: base') ++ 46 :: ext) with ((47 :: b0 :: base') ++ 46 :: ext).
    rewrite drop_app_add' by done. simpl drop.
    apply take_ge. lia.
Qed.

Lemma make_short_name_plain base :
  Forall name_char base -> (0 < length base <= 8)%nat ->
  bootfs_make_short_name (47 :: base) = Ok (inr (fat83 base [])).
Proof.
  intros Hb Hbl. unfold bootfs_make_short_name. set (path := 47 :: base).
  assert (length path = 1 + length base)%nat as Hlen by done.
  change (cstr_get path 0) with (cstr_get path (Z.of_nat 0)).
  rewrite (cstr_get_lt path 0 47) by done. cbn [bind]. change (negb (47 =? 47)) with false. cbv iota.
  destruct base as [|b0 base']; [simpl in *; lia|].
  change (cstr_get path 1) with (cstr_get path (Z.of_nat 1)).
  rewrite (cstr_get_lt path 1 b0) by done. cbn [bind].
  inversion Hb as [|? ? [Hb0 _] _]; subst.
  destruct (Z.eqb_spec b0 0); [lia|].
  change (drop 1 path) with (b0 :: base'). rewrite scan_name by done.
  cbv zeta. destruct (_ || _) eqn:Hc.
  { apply orb_true_iff in Hc as [Hc|Hc]; [apply orb_true_iff in Hc as [Hc|Hc]|]; zbool; lia. }
  clear Hc. rewrite upper_loop_ok by (rewrite ?length_replicate; lia). cbn [bind].
  do 2 f_equal. rewrite <- fat83_splice by first [lia | simpl; lia]. cbn [map]. rewrite splice_nil.
  f_equal. unfold slice. change (drop (Z.to_nat 1) path) with (b0 :: base').
  rewrite take_ge by lia. done.
Qed.
