(* ===== verification/BootFat32Spec.v ===== *)
(** The contract of the bootloader's FAT32 reader, proved of [BootFat32]:
    mounting, opening, seeking and reading, on healthy and on failing devices. *)
From stdpp Require Import base list numbers.
From Stdlib Require Import ZArith Lia.
From S2P Require Import Prelude BlockIface BootFat32 BootFat32Proofs.

Local Open Scope Z_scope.

(** ** What a boot sector says *)

(** Fields of a sector, by byte offset. *)
Definition byte_at (s : list Z) (i : Z) : Z := nth (Z.to_nat i) s 0.
Definition le16_at (s : list Z) (i : Z) : Z := le_value (slice s (Z.to_nat i) 2).
Definition le32_at (s : list Z) (i : Z) : Z := le_value (slice s (Z.to_nat i) 4).

Definition valid_boot_sector (s : list Z) : bool :=
  (byte_at s 510 =? 0x55) && (byte_at s 511 =? 0xAA) && (le16_at s 11 =? 512) &&
  negb (byte_at s 13 =? 0) && negb (byte_at s 16 =? 0) && negb (le32_at s 36 =? 0) &&
  (2 <=? le32_at s 44) && bool_decide (slice s 82 5 = fat32_tag).

Definition decode_boot_sector (s : list Z) : BootFsFat32BootSector :=
  mkBootSector (le16_at s 11) (byte_at s 13) (le16_at s 14) (byte_at s 16)
    (le32_at s 36) (le32_at s 44) (slice s 82 8).

(** The first FAT32 entry of a partition table. *)
Definition mbr_is_fat32 (s : list Z) (k : Z) : bool :=
  (byte_at s (0x1BE + k * 16 + 4) =? 0x0B) || (byte_at s (0x1BE + k * 16 + 4) =? 0x0C).

Definition mbr_partition (s : list Z) : option Z :=
  (fun k => le32_at s (0x1BE + k * 16 + 8)) <$> List.find (mbr_is_fat32 s) [0; 1; 2; 3].

(** The geometry of a volume that starts at [plba]. *)
Definition volume_at (plba : Z) (s : list Z) : BootFs :=
  let bs := decode_boot_sector s in
  let fat := u32 (plba + reserved_sectors bs) in
  mkBootFs plba bs fat (u32 (fat + u32 (fat_count bs * fat_size_32 bs)))
    (u32 (sectors_per_cluster bs * 512)).

#[local] Arguments boot_memcmp : simpl never.
#[local] Arguments read_array : simpl never.
#[local] Arguments boot_read_le16 : simpl never.
#[local] Arguments boot_read_le32 : simpl never.

Lemma aget_byte_at (b : list Z) i : 0 <= i < len b -> aget b i = Ok (byte_at b i).
Proof.
  intros Hi. destruct (aget_lt b i) as (x & -> & Hx); [lia|].
  f_equal. symmetry. by apply nth_lookup_Some.
Qed.

Lemma byte_at_range b i : bytes b -> 0 <= byte_at b i < 256.
Proof.
  intros Hb. unfold byte_at. destruct (lt_dec (Z.to_nat i) (length b)) as [Hi|Hi].
  - destruct (lookup_lt_is_Some_2 b _ Hi) as [x Hx]. rewrite (nth_lookup_Some _ _ _ x) by done.
    by apply (bytes_lookup b (Z.to_nat i)).
  - rewrite nth_overflow; lia.
Qed.

Lemma is_fat32_ok s :
  length s = 512%nat -> bytes s -> bootfs_is_fat32_boot_sector s = Ok (valid_boot_sector s).
Proof.
  intros Hl Hb. unfold bootfs_is_fat32_boot_sector, valid_boot_sector.
  rewrite !aget_byte_at by lia.
  rewrite boot_read_le16_ok, !boot_read_le32_ok by (done || lia).
  destruct (boot_memcmp_spec s 82 fat32_tag 0 5) as (c & -> & Hc); [simpl; lia..|].
  assert ((c =? 0) = bool_decide (slice s 82 5 = fat32_tag)) as Hc'.
  { apply eq_true_iff_eq. by rewrite Z.eqb_eq, bool_decide_eq_true, Hc. }
  cbn [bind]. rewrite Hc'. unfold le16_at, le32_at.
  repeat match goal with
  | |- context [negb (?a =? ?b)] => destruct (a =? b); cbn [negb andb bind]; try done
  | |- context [if ?a =? ?b then _ else _] => destruct (a =? b); cbn [negb andb bind]; try done
  | |- context [negb (2 <=? ?b)] => destruct (2 <=? b); cbn [negb andb bind]; try done
  end.
Qed.

Lemma parse_boot_sector_ok s :
  length s = 512%nat -> bytes s -> bootfs_parse_boot_sector s = Ok (decode_boot_sector s).
Proof.
  intros Hl Hb. unfold bootfs_parse_boot_sector. rewrite !aget_byte_at by lia.
  rewrite !boot_read_le16_ok, !boot_read_le32_ok, read_array_ok by (done || lia). done.
Qed.

Lemma scan_mbr_ok s :
  length s = 512%nat -> bytes s -> scan_mbr 4 0 s = Ok (mbr_partition s).
Proof.
  intros Hl Hb. unfold mbr_partition, mbr_is_fat32. cbn [scan_mbr List.find].
  change (0 + 1) with 1. change (1 + 1) with 2. change (2 + 1) with 3.
  rewrite !aget_byte_at by lia. rewrite !boot_read_le32_ok by (done || lia). cbn [bind].
  by repeat match goal with |- context [if ?a || ?b then _ else _] => destruct (a || b); [done|] end.
Qed.

Lemma mbr_partition_range s p :
  length s = 512%nat -> bytes s -> mbr_partition s = Some p -> 0 <= p < 2 ^ 32.
Proof.
  intros Hl Hb Hp. unfold mbr_partition in Hp.
  apply fmap_Some in Hp as (k & Hk & ->). apply List.find_some in Hk as [Hk _].
  apply (le_value_slice_range s _ 4); [done|].
  cbn in Hk. lia.
Qed.

Lemma volume_at_wf plba s : bytes s -> valid_boot_sector s = true -> fs_wf (volume_at plba s).
Proof.
  intros Hb Hv. unfold valid_boot_sector in Hv. zbool.
  pose proof (byte_at_range s 13 Hb). split; simpl; [lia|]. rewrite u32_small; lia.
Qed.

#[local] Arguments scan_mbr : simpl never.

Section Contract.
Context {D : Type} `{HD : BlockDevice D} `{!BlockDeviceLaws D}.
Implicit Types (io : BootIo D).

Definition sector io lba := dev_sector (io_dev io) lba.

(** Where the volume starts: sector 0 itself, or a partition entry. *)
Definition volume_lba io : option Z :=
  if valid_boot_sector (sector io 0) then Some 0 else mbr_partition (sector io 0).

Lemma wp_find_partition io (Q : BootIo D * (Status + Z) -> Prop) E :
  io_wf io ->
  (forall io' r, io_wf io' -> same_medium io io' ->
     (forall p, r = inr p -> 0 <= p < 2 ^ 32) ->
     (io_good io -> io_good io' /\
        r = match volume_lba io with Some p => inr p | None => inl StatusNotFound end) ->
     Q (io', r)) ->
  wp (bootfs_find_partition_lba io) Q E.
Proof.
  intros Hw HQ. unfold bootfs_find_partition_lba.
  apply wp_bind, wp_read_sector_buffer; [done|lia|]. intros st io1 Hw1 Hm1 Hd1 Hg1.
  case_bool_decide as Hst; simpl.
  2:{ apply HQ; [done|done|done|]. intros Hg. by destruct (Hg1 Hg). }
  assert (g_sector_buffer io1 = sector io 0) as Hs by auto.
  destruct Hw1 as (Hdw & Hl & Hb). rewrite is_fat32_ok by done. cbn [bind].
  unfold volume_lba in HQ. rewrite Hs in *.
  destruct (valid_boot_sector (sector io 0)).
  - apply wp_ok, HQ; [by split_and!; rewrite ?Hs|done|by intros p [= <-]|].
    intros Hg. by destruct (Hg1 Hg).
  - rewrite scan_mbr_ok by done. cbn [bind].
    destruct (mbr_partition (sector io 0)) as [p|] eqn:Hp;
      (apply wp_ok, HQ; [by split_and!; rewrite ?Hs|done| |intros Hg; by destruct (Hg1 Hg)]).
    + intros p' [= <-]. by apply (mbr_partition_range (sector io 0)).
    + done.
Qed.

Lemma wp_bootfs_init fs0 io (Q : BootIo D * (Status + BootFs) -> Prop) E :
  io_wf io ->
  (forall io' r, io_wf io' -> same_medium io io' ->
     (forall fs, r = inr fs -> fs_wf fs) ->
     (io_good io -> io_good io' /\
        r = match volume_lba io with
            | None => inl StatusNotFound
            | Some p => if valid_boot_sector (sector io p)
                        then inr (volume_at p (sector io p))
                        else inl StatusNotSupported
            end) ->
     Q (io', r)) ->
  wp (bootfs_init (Some fs0) io) Q E.
Proof.
  intros Hw HQ. unfold bootfs_init. apply wp_bind, wp_find_partition; [done|].
  intros io1 r Hw1 Hm1 Hr Hg1. destruct r as [st|p].
  { apply wp_ok, HQ; [done|done|done|]. intros Hg. destruct (Hg1 Hg) as [? Heq].
    split; [done|]. by destruct (volume_lba io). }
  apply wp_bind, wp_read_sector_buffer; [done|by apply Hr|]. intros st io2 Hw2 Hm2 Hd2 Hg2.
  assert (io_good io -> volume_lba io = Some p /\ st = StatusOK /\ io_good io2) as Hall.
  { intros Hg. destruct (Hg1 Hg) as [Hgd Heq]. destruct (Hg2 Hgd).
    destruct (volume_lba io); by simplify_eq. }
  case_bool_decide as Hst; simpl.
  2:{ apply HQ; eauto using same_medium_trans; [done|]. intros Hg. by destruct (Hall Hg) as (_ & ? & _). }
  assert (g_sector_buffer io2 = sector io p) as Hs by (rewrite Hd2 by done; apply Hm1).
  assert (io_wf io2) as (Hdw & Hl & Hb) by done.
  rewrite is_fat32_ok by done. cbn [bind]. rewrite Hs in *.
  destruct (valid_boot_sector (sector io p)) eqn:Hv; cbn [negb].
  - rewrite parse_boot_sector_ok by done. cbn [bind].
    apply wp_ok, HQ; eauto using same_medium_trans.
    + intros fs [= <-]. by apply volume_at_wf.
    + intros Hg. destruct (Hall Hg) as (-> & _ & ?). by rewrite Hv.
  - apply wp_ok, HQ; eauto using same_medium_trans; [done|].
    intros Hg. destruct (Hall Hg) as (-> & _ & ?). by rewrite Hv.
Qed.

Lemma seek_holds fs f off io cs :
  holds_file fs io f cs -> 0 <= off <= f_size f ->
  exists f', bootfs_seek (Some f) off = (StatusOK, Some f') /\
    f_offset f' = off /\ f_size f' = f_size f /\ holds_file fs io f' cs.
Proof.
  intros (Hg & Hp & (Hc1 & Hc2 & Hc3) & Hle) Hoff. unfold bootfs_seek.
  destruct (Z.ltb_spec (f_size f) off); [lia|].
  destruct (Z.eqb_spec off 0) as [->|]; eexists; (split; [done|]); by split_and!.
Qed.

(** What reading does on a device that answers; the public form is stated below. *)
Lemma read_holds fs f b size io cs :
  fs_wf fs -> holds_file fs io f cs ->
  0 <= f_offset f -> f_size f < 2 ^ 32 -> 0 <= size <= len b ->
  let n := Z.min size (Z.max 0 (f_size f - f_offset f)) in
  exists io' f',
    bootfs_read (Some fs) (Some f) (Some b) size io =
      Ok (io', Some f',
          Some (splice b 0 (slice (chain_bytes fs io cs) (Z.to_nat (f_offset f)) (Z.to_nat n))),
          n) /\
    f_offset f' = f_offset f + n /\ f_size f' = f_size f /\
    holds_file fs io' f' cs /\ same_medium io io'.
Proof.
  intros Hfs Hh Ho Hs Hsz n.
  pose proof (wp_bootfs_read fs f b size io) as Hwp.
  destruct (bootfs_read _ _ _ _ _) as [[[[io' f'] b'] ret]| | |]; cbn in Hwp;
    try (exfalso; apply Hwp; try done; apply Hh).
  destruct Hwp as (f1 & b1 & -> & -> & _ & Hm & _ & Hf & _ & Hfun); [apply Hh|done..|].
  destruct (Hfun cs Hh) as (-> & Ho' & Hh' & ->). by exists io', f1.
Qed.

(** C9: reading an open file.  On a device that answers, for a file whose
    cluster chain is [cs], [bootfs_read] terminates, returns the number of
    bytes available up to the end of the file, puts exactly the bytes of the
    chain from the current offset into the buffer (the rest of the buffer
    unchanged), advances the offset by that number and leaves the cluster
    cache coherent with the chain, whatever cluster it held before. *)
Theorem bootfs_read_returns_file_slice fs f b size io cs :
  fs_wf fs -> holds_file fs io f cs ->
  0 <= f_offset f -> f_size f < 2 ^ 32 -> 0 <= size <= len b ->
  let n := Z.min size (Z.max 0 (f_size f - f_offset f)) in
  exists io' f',
    bootfs_read (Some fs) (Some f) (Some b) size io =
      Ok (io', Some f',
          Some (splice b 0 (slice (chain_bytes fs io cs) (Z.to_nat (f_offset f)) (Z.to_nat n))),
          n) /\
    f_offset f' = f_offset f + n /\ f_size f' = f_size f /\
    holds_file fs io' f' cs /\ same_medium io io'.
Proof. intros. by apply read_holds. Qed.

(** C34: memory safety of reading.  Whatever the medium holds and whether or
    not the device answers, [bootfs_read] returns, stays inside the sector
    buffer and inside the caller's buffer, and keeps the driver's invariant.
    With [n] the number of bytes asked for, cut at the end of the file, it
    advances the offset by some [k <= n] and writes only the first [k] bytes of the
    buffer; it answers [n] when [k] is [n], and [StatusIoError] when it stopped
    before. *)
Theorem bootfs_read_safe fs f b size io :
  fs_wf fs -> io_wf io ->
  0 <= f_offset f -> f_size f < 2 ^ 32 -> 0 <= size <= len b ->
  exists io' f' b' ret,
    bootfs_read (Some fs) (Some f) (Some b) size io = Ok (io', Some f', Some b', ret) /\
    length b' = length b /\ f_size f' = f_size f /\ io_wf io' /\ same_medium io io' /\
    let n := Z.min size (Z.max 0 (f_size f - f_offset f)) in
    exists k, 0 <= k <= n /\ f_offset f' = f_offset f + k /\
      drop (Z.to_nat k) b' = drop (Z.to_nat k) b /\
      (ret = n /\ k = n \/ ret = StatusIoError /\ k < n).
Proof.
  intros Hfs Hw Ho Hs Hsz. pose proof (wp_bootfs_read fs f b size io Hw Hfs Ho Hs Hsz) as Hwp.
  destruct (bootfs_read _ _ _ _ _) as [[[[io' f'] b'] ret]| | |]; try done.
  destruct Hwp as (f1 & b1 & -> & -> & ? & ? & ? & ? & Hout & _). by exists io', f1, b1, ret.
Qed.

Lemma init_good fs0 io :
  io_good io ->
  exists io', io_good io' /\ same_medium io io' /\
    bootfs_init (Some fs0) io =
    Ok (io', match volume_lba io with
             | None => inl StatusNotFound
             | Some p => if valid_boot_sector (sector io p)
                         then inr (volume_at p (sector io p))
                         else inl StatusNotSupported
             end).
Proof.
  intros Hg. pose proof (wp_bootfs_init fs0 io
    (fun r => io_good (fst r) /\ same_medium io (fst r) /\
       snd r = match volume_lba io with
             | None => inl StatusNotFound
             | Some p => if valid_boot_sector (sector io p)
                         then inr (volume_at p (sector io p))
                         else inl StatusNotSupported
             end) (fun _ => False) (proj1 Hg)) as Hwp.
  destruct (bootfs_init (Some fs0) io) as [[io' r]| | |]; cbn in Hwp;
    try (exfalso; apply Hwp; intros io1 r1 _ ? _ Hr; destruct (Hr Hg); by split_and!).
  destruct Hwp as (? & ? & ->).
  { intros io1 r1 _ ? _ Hr; destruct (Hr Hg); by split_and!. }
  by exists io'.
Qed.

(** mounting.  On a device that answers, [bootfs_init] finds the volume
    (sector 0, else the first FAT32 partition entry), validates its boot
    sector and reports its geometry; every other medium gets the status of
    the first check that failed. *)
Theorem bootfs_init_mounts fs0 io :
  io_good io ->
  exists io', io_good io' /\ same_medium io io' /\
    bootfs_init (Some fs0) io =
    Ok (io', match volume_lba io with
             | None => inl StatusNotFound
             | Some p => if valid_boot_sector (sector io p)
                         then inr (volume_at p (sector io p))
                         else inl StatusNotSupported
             end).
Proof. apply init_good. Qed.

(** A mounted volume is well formed.  On any medium and any device,
    [bootfs_init] returns without leaving its buffer, and a volume it accepts
    has a positive cluster size of whole 512-byte sectors, which is what
    reading and directory search rely on. *)
Theorem bootfs_init_wf fs0 io :
  io_wf io ->
  exists io' r, bootfs_init (Some fs0) io = Ok (io', r) /\ io_wf io' /\
    forall fs, r = inr fs -> fs_wf fs.
Proof.
  intros Hw. pose proof (wp_bootfs_init fs0 io
    (fun r => io_wf (fst r) /\ forall fs, snd r = inr fs -> fs_wf fs) (fun _ => False) Hw) as Hwp.
  destruct (bootfs_init (Some fs0) io) as [[io' r]| | |]; cbn in Hwp; try (exfalso; by apply Hwp).
  exists io', r. destruct Hwp; [by intros|]. by split_and!.
Qed.

(** A path of the root directory, with or without an extension. *)
Definition path_of (base : list Z) (ext : option (list Z)) : list Z :=
  47 :: base ++ match ext with None => [] | Some e => 46 :: e end.

Definition open_result (r : Status + BootFsFat32DirEntry) : Status + BootFsFile :=
  match r with
  | inl _ => inl StatusNotFound
  | inr e =>
      let c := u32 (Z.lor (Z.shiftl (de_cluster_hi e) 16) (de_cluster_lo e)) in
      inr (mkBootFsFile c c 0 (de_size e) 0)
  end.

Lemma open_good fs f0 io base ext cs fuel :
  fs_wf fs -> io_good io -> fat_chain fs io (root_cluster (boot_sector fs)) cs ->
  Forall name_char base -> Forall name_char (default [] ext) ->
  (0 < length base <= 8)%nat -> (length (default [] ext) <= 3)%nat -> (length cs < fuel)%nat ->
  exists io', io_good io' /\ same_medium io io' /\
    bootfs_open fuel (Some fs) (Some (path_of base ext)) (Some f0) io =
    Ok (io', open_result (dir_lookup fs io (fat83 base (default [] ext)) cs)).
Proof.
  intros Hfs Hg Hch Hb He Hbl Hel Hf. unfold bootfs_open.
  assert (bootfs_make_short_name (path_of base ext) = Ok (inr (fat83 base (default [] ext)))) as ->.
  { unfold path_of. destruct ext; simpl in *; [by apply make_short_name_dotted|].
    rewrite app_nil_r. by apply make_short_name_plain. }
  cbn [bind]. unfold bootfs_find_root_entry.
  destruct (find_root_entry_chain fs (fat83 base (default [] ext)) (root_cluster (boot_sector fs))
              cs io fuel) as (io' & Hg' & Hm & ->); try done.
  { unfold fat83. rewrite !length_app, !length_map, !length_replicate. lia. }
  exists io'. split_and!; try done. by destruct (dir_lookup fs io _ cs).
Qed.

(** Opening a file.  For a path [/BASE] or [/BASE.EXT] (at most eight and
    three characters) on a volume whose root directory occupies the terminated
    chain [cs], [bootfs_open] answers as a search of the directory records in
    order for the upper-cased 8.3 name: the file's first cluster and size,
    offset zero, or not found.  Fuel beyond the length of the chain is enough. *)
Theorem bootfs_open_finds_entry fs f0 io base ext cs fuel :
  fs_wf fs -> io_good io -> fat_chain fs io (root_cluster (boot_sector fs)) cs ->
  Forall name_char base -> Forall name_char (default [] ext) ->
  (0 < length base <= 8)%nat -> (length (default [] ext) <= 3)%nat -> (length cs < fuel)%nat ->
  exists io', io_good io' /\ same_medium io io' /\
    bootfs_open fuel (Some fs) (Some (path_of base ext)) (Some f0) io =
    Ok (io', open_result (dir_lookup fs io (fat83 base (default [] ext)) cs)).
Proof. intros. by apply open_good. Qed.

(** C39: a cyclic root directory hangs the search.  If the FAT entries of a set
    of clusters lead back into the set and none of their records ends the
    directory or carries the name, [bootfs_find_root_entry] does not return
    for any number of iterations: the code has no bound on the chain. *)
Theorem find_root_entry_cyclic_hangs fs name (S : list Z) io fuel :
  fs_wf fs -> io_good io -> length name = 11%nat ->
  root_cluster (boot_sector fs) ∈ S ->
  (forall a, a ∈ S -> data_cluster a /\ fat_value fs io a ∈ S /\
     scan_entries name (cluster_entries fs io a) = None) ->
  bootfs_find_root_entry fuel fs name io = NoFuel.
Proof. intros. by apply (find_root_entry_cycle fs name S). Qed.

(** Seek then read.  Seeking inside a file and reading returns the bytes
    of the chain at that position, for every order of seeks and reads. *)
Theorem bootfs_seek_read fs f off b size io cs :
  fs_wf fs -> holds_file fs io f cs ->
  0 <= off <= f_size f -> f_size f < 2 ^ 32 -> 0 <= size <= len b ->
  let n := Z.min size (f_size f - off) in
  exists f1 io' f2,
    bootfs_seek (Some f) off = (StatusOK, Some f1) /\
    bootfs_read (Some fs) (Some f1) (Some b) size io =
      Ok (io', Some f2,
          Some (splice b 0 (slice (chain_bytes fs io cs) (Z.to_nat off) (Z.to_nat n))), n) /\
    f_offset f2 = off + n /\ holds_file fs io' f2 cs.
Proof.
  intros Hfs Hh Ho Hs Hsz n. destruct (seek_holds fs f off io cs) as (f1 & -> & Ho1 & Hs1 & Hh1); [done..|].
  destruct (read_holds fs f1 b size io cs) as (io' & f2 & Hr & Ho2 & _ & Hh2 & _); try done; try lia.
  cbv zeta in Hr, Ho2. rewrite Ho1, Hs1 in Hr, Ho2.
  assert (Z.min size (Z.max 0 (f_size f - off)) = n) as Hn by lia. rewrite Hn in Hr, Ho2.
  by exists f1, io', f2.
Qed.
End Contract.
