(* ===== verification/BootMmu.v ===== *)
(** The page tables the bootloader hands the kernel
    (kernel/bootloader/arch/aarch64/mmu.c,
    kernel/include/internal/mm/arch/aarch64/mmu_defs.h and the two
    boot_mmu_board.h headers).

    The tables are arrays of U64 at page-aligned physical addresses, which the
    linker chooses and the model takes as an argument.  [translate] is the
    stage-1 walk of the architecture for the configuration [boot_enable_mmu]
    programs (4 KiB granule, 48-bit regions): it is what the properties are
    stated against, and reads tables only through the descriptors. *)
From stdpp Require Import base list numbers.
From Stdlib Require Import ZArith Lia.
From S2P Require Import Prelude.

Local Open Scope Z_scope.

(** ** Constants of mmu_defs.h *)
Definition AARCH64_MMU_TABLE_ENTRIES : Z := 512.
Definition AARCH64_MMU_L0_SHIFT : Z := 39.
Definition AARCH64_MMU_L1_SHIFT : Z := 30.
Definition AARCH64_MMU_L2_SHIFT : Z := 21.
Definition AARCH64_MMU_INDEX_MASK : Z := 0x1FF.
Definition AARCH64_MMU_OUTPUT_ADDRESS_MASK : Z := 0x0000FFFFFFFFF000.
Definition AARCH64_MMU_DESC_BLOCK : Z := 1.
Definition AARCH64_MMU_DESC_TABLE : Z := 3.
Definition AARCH64_MMU_ATTR_DEVICE : Z := 0.
Definition AARCH64_MMU_ATTR_NORMAL : Z := 1.
Definition AARCH64_MMU_AP_KERNEL_RW : Z := Z.shiftl 0 6.
Definition AARCH64_MMU_SH_OUTER : Z := Z.shiftl 2 8.
Definition AARCH64_MMU_SH_INNER : Z := Z.shiftl 3 8.
Definition AARCH64_MMU_ACCESS_FLAG : Z := Z.shiftl 1 10.
Definition AARCH64_MMU_PXN : Z := Z.shiftl 1 53.
Definition AARCH64_MMU_UXN : Z := Z.shiftl 1 54.

Definition AARCH64_MMU_DEVICE_FLAGS : Z :=
  Z.lor (Z.lor (Z.lor (Z.lor (Z.lor (Z.shiftl AARCH64_MMU_ATTR_DEVICE 2)
    AARCH64_MMU_AP_KERNEL_RW) AARCH64_MMU_PXN) AARCH64_MMU_UXN) AARCH64_MMU_SH_OUTER)
    AARCH64_MMU_ACCESS_FLAG.

Definition AARCH64_MMU_KERNEL_CODE_FLAGS : Z :=
  Z.lor (Z.lor (Z.lor (Z.lor (Z.shiftl AARCH64_MMU_ATTR_NORMAL 2)
    AARCH64_MMU_AP_KERNEL_RW) AARCH64_MMU_UXN) AARCH64_MMU_SH_INNER)
    AARCH64_MMU_ACCESS_FLAG.

Definition AARCH64_MMU_MAIR_VALUE : Z :=
  Z.lor (Z.lor (Z.shiftl 0x04 0) (Z.shiftl 0xFF 8)) (Z.shiftl 0x44 16).

Definition aarch64_mmu_tcr_value : Z :=
  let T0SZ := 16 in
  let T1SZ := Z.shiftl 16 16 in
  let IRGN := Z.shiftl 1 8 in
  let ORGN := Z.shiftl 1 10 in
  let SH := Z.shiftl 3 12 in
  let TG0 := Z.shiftl 0 14 in
  let TG1 := Z.shiftl 2 30 in
  u64 (Z.lor (Z.lor (Z.lor (Z.lor (Z.lor (Z.lor (Z.lor (Z.lor (Z.lor T0SZ T1SZ) IRGN) ORGN) SH)
    TG0) TG1) (Z.shiftl IRGN 16)) (Z.shiftl ORGN 16)) (Z.shiftl SH 16)).

Definition aarch64_mmu_level_index (address shift : Z) : Z :=
  Z.land (Z.shiftr address shift) AARCH64_MMU_INDEX_MASK.

(** ** Boards *)
Record BootMmuBoard : Type := mkBoard {
  BOOT_MMU_DEVICE_BASE : Z;
  BOOT_MMU_DEVICE_LIMIT : Z;
  BOOT_MMU_EXTRA_RAM_BASE : Z
}.

Definition board_virt : BootMmuBoard := mkBoard 0x08000000 0x10000000 0x40000000.
Definition board_raspi3 : BootMmuBoard := mkBoard 0x3F000000 0x40000000 0.

(** ** State *)

(** The six static tables, and the addresses the linker gives them. *)
Record BootTables (A : Type) : Type := mkTables {
  g_boot_ttbr0_l0 : A; g_boot_ttbr0_l1 : A; g_boot_ttbr0_l2 : A;
  g_boot_ttbr1_l0 : A; g_boot_ttbr1_l1 : A; g_boot_ttbr1_l2 : A
}.
Arguments mkTables {A}.
Arguments g_boot_ttbr0_l0 {A}.
Arguments g_boot_ttbr0_l1 {A}.
Arguments g_boot_ttbr0_l2 {A}.
Arguments g_boot_ttbr1_l0 {A}.
Arguments g_boot_ttbr1_l1 {A}.
Arguments g_boot_ttbr1_l2 {A}.

Record SysRegs : Type := mkSysRegs {
  ttbr0_el1 : Z; ttbr1_el1 : Z; mair_el1 : Z; tcr_el1 : Z; sctlr_el1 : Z
}.

(** ** Operations *)
Definition make_table_descriptor (table_phys : Z) : Z := Z.lor table_phys AARCH64_MMU_DESC_TABLE.

Definition make_block_descriptor (phys flags : Z) : Z :=
  Z.lor (Z.lor phys flags) AARCH64_MMU_DESC_BLOCK.

(** [memzero] of a whole table. *)
Definition memzero_table (t : list Z) : list Z := map (fun _ => 0) t.

Definition map_low_gib (b : BootMmuBoard) (l2_table : list Z) : Exec (list Z) :=
  for_range (Z.to_nat AARCH64_MMU_TABLE_ENTRIES) 0
    (fun index t =>
       let phys := u64 (Z.shiftl index AARCH64_MMU_L2_SHIFT) in
       let flags := if (BOOT_MMU_DEVICE_BASE b <=? phys) && (phys <? BOOT_MMU_DEVICE_LIMIT b)
                    then AARCH64_MMU_DEVICE_FLAGS else AARCH64_MMU_KERNEL_CODE_FLAGS in
       aset t index (make_block_descriptor phys flags)) l2_table.

(** [#if BOOT_MMU_EXTRA_RAM_BASE != 0ULL]. *)
Definition map_extra_ram (b : BootMmuBoard) (l1_table : list Z) : Exec (list Z) :=
  if BOOT_MMU_EXTRA_RAM_BASE b =? 0 then Ok l1_table
  else aset l1_table 1
         (make_block_descriptor (BOOT_MMU_EXTRA_RAM_BASE b) AARCH64_MMU_KERNEL_CODE_FLAGS).

Definition boot_enable_mmu (b : BootMmuBoard) (addr : BootTables Z) (t : BootTables (list Z))
    (r : SysRegs) : Exec (BootTables (list Z) * SysRegs) :=
  let mair := AARCH64_MMU_MAIR_VALUE in
  let tcr := aarch64_mmu_tcr_value in
  l0 <- aset (memzero_table (g_boot_ttbr0_l0 t)) 0 (make_table_descriptor (g_boot_ttbr0_l1 addr)) ;;
  l1 <- aset (memzero_table (g_boot_ttbr0_l1 t)) 0 (make_table_descriptor (g_boot_ttbr0_l2 addr)) ;;
  l2 <- map_low_gib b (memzero_table (g_boot_ttbr0_l2 t)) ;;
  l1 <- map_extra_ram b l1 ;;
  h0 <- aset (memzero_table (g_boot_ttbr1_l0 t)) 0 (make_table_descriptor (g_boot_ttbr1_l1 addr)) ;;
  h1 <- aset (memzero_table (g_boot_ttbr1_l1 t)) 0 (make_table_descriptor (g_boot_ttbr1_l2 addr)) ;;
  h2 <- map_low_gib b (memzero_table (g_boot_ttbr1_l2 t)) ;;
  h1 <- map_extra_ram b h1 ;;
  Ok (mkTables l0 l1 l2 h0 h1 h2,
      mkSysRegs (g_boot_ttbr0_l0 addr) (g_boot_ttbr1_l0 addr) mair tcr
        (Z.lor (sctlr_el1 r)
           (Z.lor (Z.lor (Z.shiftl 1 0) (Z.shiftl 1 2)) (Z.shiftl 1 12)))).

(** ** The architecture's walk *)

(** What a translation gives: the output address, the MAIR byte the descriptor
    selects and whether EL1 and EL0 may execute. *)
Record Translation : Type := mkTranslation {
  tr_pa : Z; tr_memory : Z; tr_el1_exec : bool; tr_el0_exec : bool
}.

(** The table stored at a physical address. *)
Definition table_at (addr : BootTables Z) (t : BootTables (list Z)) (pa : Z) : option (list Z) :=
  if pa =? g_boot_ttbr0_l0 addr then Some (g_boot_ttbr0_l0 t)
  else if pa =? g_boot_ttbr0_l1 addr then Some (g_boot_ttbr0_l1 t)
  else if pa =? g_boot_ttbr0_l2 addr then Some (g_boot_ttbr0_l2 t)
  else if pa =? g_boot_ttbr1_l0 addr then Some (g_boot_ttbr1_l0 t)
  else if pa =? g_boot_ttbr1_l1 addr then Some (g_boot_ttbr1_l1 t)
  else if pa =? g_boot_ttbr1_l2 addr then Some (g_boot_ttbr1_l2 t)
  else None.

(** A block descriptor at a level whose blocks are [2^shift] bytes. *)
Definition block_translation (r : SysRegs) (desc shift va : Z) : option Translation :=
  if negb (Z.testbit desc 10) then None else
  Some (mkTranslation
          (Z.shiftl (Z.shiftr (Z.land desc AARCH64_MMU_OUTPUT_ADDRESS_MASK) shift) shift
             + va mod 2 ^ shift)
          (Z.land (Z.shiftr (mair_el1 r) (8 * Z.land (Z.shiftr desc 2) 7)) 255)
          (negb (Z.testbit desc 53)) (negb (Z.testbit desc 54))).

(** The walk from level [lvl] (0, 1 or 2): an even descriptor is invalid, 3 in
    the low bits is a table, 1 a block (not allowed at level 0). *)
Fixpoint walk (fuel : nat) (shift : Z) (addr : BootTables Z) (t : BootTables (list Z))
    (r : SysRegs) (table va : Z) : option Translation :=
  match fuel with
  | O => None
  | S fuel' =>
      tb ← table_at addr t table;
      desc ← tb !! Z.to_nat (aarch64_mmu_level_index va shift);
      if Z.land desc 1 =? 0 then None
      else if Z.land desc 3 =? 3
      then walk fuel' (shift - 9) addr t r (Z.land desc AARCH64_MMU_OUTPUT_ADDRESS_MASK) va
      else if shift =? AARCH64_MMU_L0_SHIFT then None
      else block_translation r desc shift va
  end.

(** TTBR0 serves the addresses whose top 16 bits are zero, TTBR1 those whose
    top 16 bits are one; others fault.  With the MMU off (SCTLR.M clear)
    addresses are not translated. *)
Definition translate (addr : BootTables Z) (t : BootTables (list Z)) (r : SysRegs) (va : Z)
  : option Translation :=
  if negb (Z.testbit (sctlr_el1 r) 0) then Some (mkTranslation va 0 true true)
  else
    let top := Z.shiftr va 48 in
    if top =? 0 then walk 3 AARCH64_MMU_L0_SHIFT addr t r (ttbr0_el1 r) va
    else if top =? 0xFFFF then walk 3 AARCH64_MMU_L0_SHIFT addr t r (ttbr1_el1 r) va
    else None.

(** ** What the mapping promises *)
Definition HIGH_BASE : Z := 0xFFFF000000000000.

(** The linker's part: six distinct page-aligned 48-bit addresses. *)
Definition tables_placed (a : BootTables Z) : Prop :=
  NoDup [g_boot_ttbr0_l0 a; g_boot_ttbr0_l1 a; g_boot_ttbr0_l2 a;
         g_boot_ttbr1_l0 a; g_boot_ttbr1_l1 a; g_boot_ttbr1_l2 a] /\
  Forall (fun p => 0 <= p < 2 ^ 48 /\ p mod 4096 = 0)
    [g_boot_ttbr0_l0 a; g_boot_ttbr0_l1 a; g_boot_ttbr0_l2 a;
     g_boot_ttbr1_l0 a; g_boot_ttbr1_l1 a; g_boot_ttbr1_l2 a].

Definition tables_sized (t : BootTables (list Z)) : Prop :=
  Forall (fun l => length l = 512%nat)
    [g_boot_ttbr0_l0 t; g_boot_ttbr0_l1 t; g_boot_ttbr0_l2 t;
     g_boot_ttbr1_l0 t; g_boot_ttbr1_l1 t; g_boot_ttbr1_l2 t].

(** The end of the mapped window and the memory type at an offset in it. *)
Definition mapped_limit (b : BootMmuBoard) : Z :=
  if BOOT_MMU_EXTRA_RAM_BASE b =? 0 then 2 ^ 30 else 2 ^ 31.

Definition in_device_window (b : BootMmuBoard) (pa : Z) : bool :=
  (BOOT_MMU_DEVICE_BASE b <=? pa) && (pa <? BOOT_MMU_DEVICE_LIMIT b).

Definition expected (b : BootMmuBoard) (off : Z) : option Translation :=
  if off <? mapped_limit b
  then Some (if in_device_window b off then mkTranslation off 0x04 false false
             else mkTranslation off 0xFF true false)
  else None.

(** ** Proofs *)
Definition board_ok (b : BootMmuBoard) : Prop :=
  BOOT_MMU_DEVICE_BASE b mod 2 ^ 21 = 0 /\ BOOT_MMU_DEVICE_LIMIT b mod 2 ^ 21 = 0 /\
  BOOT_MMU_DEVICE_LIMIT b <= 2 ^ 30 /\
  (BOOT_MMU_EXTRA_RAM_BASE b = 0 \/ BOOT_MMU_EXTRA_RAM_BASE b = 2 ^ 30).

Definition block_flags (b : BootMmuBoard) (phys : Z) : Z :=
  if in_device_window b phys then AARCH64_MMU_DEVICE_FLAGS else AARCH64_MMU_KERNEL_CODE_FLAGS.

Lemma level_index_eq va s :
  0 <= s -> aarch64_mmu_level_index va s = (va / 2 ^ s) mod 512.
Proof.
  intros. unfold aarch64_mmu_level_index, AARCH64_MMU_INDEX_MASK.
  rewrite Z.shiftr_div_pow2 by done. change 0x1FF with (Z.ones 9). by rewrite Z.land_ones.
Qed.

Lemma table_descriptor_decode p :
  0 <= p < 2 ^ 48 -> p mod 4096 = 0 ->
  let d := make_table_descriptor p in
  Z.land d 1 = 1 /\ Z.land d 3 = 3 /\ Z.land d AARCH64_MMU_OUTPUT_ADDRESS_MASK = p.
Proof.
  intros Hp Hm. cbv zeta. unfold make_table_descriptor, AARCH64_MMU_DESC_TABLE.
  assert (p = Z.shiftl (p / 4096) 12) as He.
  { rewrite Z.shiftl_mul_pow2 by lia. Z.div_mod_to_equations. lia. }
  assert (forall k, 0 <= k < 12 -> Z.testbit p k = false) as Hlow.
  { intros k Hk. rewrite He, Z.shiftl_spec_low; [done|lia]. }
  rewrite !Z.land_lor_distr_l. split_and!.
  - assert (Z.land p 1 = 0) as ->; [|done]. change 1 with (Z.ones 1). rewrite Z.land_ones by lia.
    change (2 ^ 1) with 2. Z.div_mod_to_equations. lia.
  - assert (Z.land p 3 = 0) as ->; [|done]. change 3 with (Z.ones 2). rewrite Z.land_ones by lia.
    change (2 ^ 2) with 4. Z.div_mod_to_equations. lia.
  - change (Z.land 3 AARCH64_MMU_OUTPUT_ADDRESS_MASK) with 0. rewrite Z.lor_0_r.
    change AARCH64_MMU_OUTPUT_ADDRESS_MASK with (Z.shiftl (Z.ones 36) 12).
    rewrite He at 1. rewrite <- Z.shiftl_land, Z.land_ones by lia.
    rewrite Z.mod_small; [by rewrite <- He|]. change (2 ^ 36) with 68719476736.
    change (2 ^ 48) with 281474976710656 in Hp. Z.div_mod_to_equations. lia.
Qed.

(** Both kinds of block at every 2 MiB page of the low GiB and at the extra
    RAM's GiB, checked page by page. *)
Definition block_fields_ok (phys shift flags memory : Z) (x1 x0 : bool) : bool :=
  let d := make_block_descriptor phys flags in
  (Z.land d 1 =? 1) && negb (Z.land d 3 =? 3) && Z.testbit d 10 &&
  (Z.shiftl (Z.shiftr (Z.land d AARCH64_MMU_OUTPUT_ADDRESS_MASK) shift) shift =? phys) &&
  (Z.land (Z.shiftr AARCH64_MMU_MAIR_VALUE (8 * Z.land (Z.shiftr d 2) 7)) 255 =? memory) &&
  Bool.eqb (negb (Z.testbit d 53)) x1 && Bool.eqb (negb (Z.testbit d 54)) x0.

Lemma block_fields_low : forall i, 0 <= i < 512 ->
  block_fields_ok (Z.shiftl i 21) 21 AARCH64_MMU_DEVICE_FLAGS 0x04 false false = true /\
  block_fields_ok (Z.shiftl i 21) 21 AARCH64_MMU_KERNEL_CODE_FLAGS 0xFF true false = true.
Proof.
  assert (forallb (fun n => let i := Z.of_nat n in
    block_fields_ok (Z.shiftl i 21) 21 AARCH64_MMU_DEVICE_FLAGS 0x04 false false &&
    block_fields_ok (Z.shiftl i 21) 21 AARCH64_MMU_KERNEL_CODE_FLAGS 0xFF true false)
    (seq 0 512) = true) as Hall by (vm_compute; reflexivity).
  rewrite forallb_forall in Hall. intros i Hi.
  specialize (Hall (Z.to_nat i)). rewrite Z2Nat.id in Hall by lia.
  apply andb_true_iff, Hall, in_seq. lia.
Qed.

Lemma block_fields_extra :
  block_fields_ok (2 ^ 30) 30 AARCH64_MMU_KERNEL_CODE_FLAGS 0xFF true false = true.
Proof. reflexivity. Qed.

Lemma block_walk r phys shift flags memory x1 x0 va :
  block_fields_ok phys shift flags memory x1 x0 = true -> mair_el1 r = AARCH64_MMU_MAIR_VALUE ->
  let d := make_block_descriptor phys flags in
  Z.land d 1 <> 0 /\ Z.land d 3 <> 3 /\
  block_translation r d shift va = Some (mkTranslation (phys + va mod 2 ^ shift) memory x1 x0).
Proof.
  unfold block_fields_ok, block_translation. cbv zeta. intros Hb ->.
  rewrite !andb_true_iff, !Z.eqb_eq, negb_true_iff, Z.eqb_neq in Hb.
  destruct Hb as ((((((H1 & H3) & H10) & Hpa) & Hm) & Hx1) & Hx0).
  apply Bool.eqb_prop in Hx1, Hx0. rewrite H10, Hpa, Hm, Hx1, Hx0. split_and!; [lia|done|done].
Qed.

(** The tables of one region, as [boot_enable_mmu] leaves them. *)
Definition region_l0 (a1 : Z) : list Z := <[0%nat := make_table_descriptor a1]> (replicate 512 0).
Definition region_l1 (b : BootMmuBoard) (a2 : Z) : list Z :=
  let l := <[0%nat := make_table_descriptor a2]> (replicate 512 0) in
  if BOOT_MMU_EXTRA_RAM_BASE b =? 0 then l
  else <[1%nat := make_block_descriptor (BOOT_MMU_EXTRA_RAM_BASE b)
                    AARCH64_MMU_KERNEL_CODE_FLAGS]> l.
Definition region_l2 (b : BootMmuBoard) : list Z :=
  map (fun k => make_block_descriptor (u64 (Z.shiftl (Z.of_nat k) 21))
                  (block_flags b (u64 (Z.shiftl (Z.of_nat k) 21)))) (seq 0 512).

Lemma map_low_gib_ok b t :
  length t = 512%nat ->
  map_low_gib b t = Ok (region_l2 b).
Proof.
  intros Hl. unfold region_l2, map_low_gib, AARCH64_MMU_TABLE_ENTRIES, AARCH64_MMU_L2_SHIFT.
  rewrite (for_range_ext _ _ _ (fun k d => aset d (Z.of_nat 0 + k)
    (make_block_descriptor (u64 (Z.shiftl k 21)) (block_flags b (u64 (Z.shiftl k 21))))))
    by done.
  rewrite (for_range_fill (Z.to_nat 512) t 0 (fun k => make_block_descriptor (u64 (Z.shiftl k 21))
     (block_flags b (u64 (Z.shiftl k 21))))) by lia.
  unfold splice. rewrite drop_ge; [by rewrite app_nil_r|].
  rewrite length_map, length_seq. lia.
Qed.

Lemma lookup_region_l0 a1 i :
  0 <= i < 512 ->
  region_l0 a1 !! Z.to_nat i = Some (if i =? 0 then make_table_descriptor a1 else 0).
Proof.
  intros Hi. unfold region_l0. destruct (Z.eqb_spec i 0) as [->|Hn].
  - by rewrite list_lookup_insert_eq by (rewrite length_replicate; lia).
  - rewrite list_lookup_insert_ne by lia. apply lookup_replicate_2. lia.
Qed.

Lemma lookup_region_l1 b a2 i :
  0 <= i < 512 ->
  region_l1 b a2 !! Z.to_nat i =
  Some (if i =? 0 then make_table_descriptor a2
        else if (i =? 1) && negb (BOOT_MMU_EXTRA_RAM_BASE b =? 0)
        then make_block_descriptor (BOOT_MMU_EXTRA_RAM_BASE b) AARCH64_MMU_KERNEL_CODE_FLAGS
        else 0).
Proof.
  intros Hi. unfold region_l1. cbv zeta. fold (region_l0 a2).
  pose proof (lookup_region_l0 a2 i Hi) as H0.
  destruct (BOOT_MMU_EXTRA_RAM_BASE b =? 0); cbn [negb].
  - rewrite H0, andb_false_r. done.
  - rewrite andb_true_r. destruct (Z.eqb_spec i 1) as [->|Hn].
    + change (Z.to_nat 1) with 1%nat. rewrite list_lookup_insert_eq; [done|]. unfold region_l0.
      rewrite length_insert, length_replicate. lia.
    + by rewrite list_lookup_insert_ne by lia.
Qed.

Lemma lookup_region_l2 b i :
  0 <= i < 512 ->
  region_l2 b !! Z.to_nat i =
  Some (make_block_descriptor (Z.shiftl i 21) (block_flags b (Z.shiftl i 21))).
Proof.
  intros Hi. unfold region_l2. change (map ?f (seq 0 512)) with (f <$> seq 0 512).
  rewrite list_lookup_fmap, lookup_seq_lt by lia. simpl.
  rewrite Z2Nat.id, u64_small by (rewrite ?Z.shiftl_mul_pow2 by lia; lia). done.
Qed.

(** 2 MiB pages do not straddle the device window. *)
Lemma in_device_window_page b off :
  board_ok b -> 0 <= off -> in_device_window b (Z.shiftl (off / 2 ^ 21) 21) = in_device_window b off.
Proof.
  intros (Hb & Hl & _ & _) Ho. unfold in_device_window. rewrite Z.shiftl_mul_pow2 by lia.
  change (2 ^ 21) with 2097152 in *.
  rewrite (Z.div_mod (BOOT_MMU_DEVICE_BASE b) 2097152) by lia.
  rewrite (Z.div_mod (BOOT_MMU_DEVICE_LIMIT b) 2097152) by lia. rewrite Hb, Hl.
  f_equal; apply eq_true_iff_eq; rewrite ?Z.leb_le, ?Z.ltb_lt; Z.div_mod_to_equations; lia.
Qed.

(** One level of the walk, by the kind of descriptor found. *)
Section Walk.
Context (addr : BootTables Z) (t : BootTables (list Z)) (r : SysRegs) (va : Z).

Definition entry_at (a shift : Z) : option Z :=
  tb ← table_at addr t a; tb !! Z.to_nat (aarch64_mmu_level_index va shift).

Lemma walk_S n shift a d :
  entry_at a shift = Some d ->
  walk (S n) shift addr t r a va =
  if Z.land d 1 =? 0 then None
  else if Z.land d 3 =? 3
  then walk n (shift - 9) addr t r (Z.land d AARCH64_MMU_OUTPUT_ADDRESS_MASK) va
  else if shift =? AARCH64_MMU_L0_SHIFT then None else block_translation r d shift va.
Proof.
  unfold entry_at. simpl. destruct (table_at addr t a); simpl; [|done]. by intros ->.
Qed.

Lemma walk_invalid n shift a : entry_at a shift = Some 0 -> walk (S n) shift addr t r a va = None.
Proof. intros He. by rewrite (walk_S _ _ _ _ He). Qed.

Lemma walk_table n shift a p :
  entry_at a shift = Some (make_table_descriptor p) -> 0 <= p < 2 ^ 48 -> p mod 4096 = 0 ->
  walk (S n) shift addr t r a va = walk n (shift - 9) addr t r p va.
Proof.
  intros He Hp Hq. rewrite (walk_S _ _ _ _ He).
  destruct (table_descriptor_decode p Hp Hq) as (-> & -> & ->). done.
Qed.

Lemma walk_block n shift a phys flags memory x1 x0 :
  entry_at a shift = Some (make_block_descriptor phys flags) ->
  block_fields_ok phys shift flags memory x1 x0 = true ->
  mair_el1 r = AARCH64_MMU_MAIR_VALUE -> shift <> 39 ->
  walk (S n) shift addr t r a va =
    Some (mkTranslation (phys + va mod 2 ^ shift) memory x1 x0).
Proof.
  intros He Hf Hm Hs. rewrite (walk_S _ _ _ _ He).
  destruct (block_walk r _ _ _ _ _ _ va Hf Hm) as (W1 & W3 & ->).
  apply Z.eqb_neq in W1, W3, Hs. unfold AARCH64_MMU_L0_SHIFT. by rewrite W1, W3, Hs.
Qed.
End Walk.

(** The index at each level and the offset in the block, from the 48-bit offset. *)
Lemma index_off va s :
  0 <= s <= 39 -> (va mod 2 ^ 48) / 2 ^ s < 512 ->
  aarch64_mmu_level_index va s = (va mod 2 ^ 48) / 2 ^ s.
Proof.
  intros Hs Hlt. rewrite level_index_eq by lia. change 512 with (2 ^ 9) in *.
  rewrite <- (Z.mod_small ((va mod 2 ^ 48) / 2 ^ s) (2 ^ 9))
    by (split; [apply Z.div_pos; [apply Z.mod_pos_bound|]; lia|done]).
  rewrite <- !Z.shiftr_div_pow2, <- !Z.land_ones by lia.
  apply Z.bits_inj'. intros k Hk. rewrite !Z.land_spec, !Z.shiftr_spec by lia.
  destruct (Z.ltb_spec k 9).
  - rewrite Z.land_spec, (Z.ones_spec_low 48) by lia. by rewrite andb_true_r.
  - by rewrite Z.ones_spec_high, !andb_false_r by lia.
Qed.

Lemma mod_off va s : 0 <= s <= 48 -> va mod 2 ^ s = (va mod 2 ^ 48) mod 2 ^ s.
Proof.
  intros Hs. replace 48 with (s + (48 - s)) by lia. rewrite Z.pow_add_r by lia.
  rewrite Z.rem_mul_r by lia. rewrite Z.mul_comm, Z_mod_plus_full, Z.mod_mod by lia. done.
Qed.

Lemma expected_none b off : mapped_limit b <= off -> expected b off = None.
Proof. intros Hl. unfold expected. destruct (Z.ltb_spec off (mapped_limit b)); [lia|done]. Qed.

Section Region.
Context (b : BootMmuBoard) (addr : BootTables Z) (t : BootTables (list Z)) (r : SysRegs).
Context (va : Z).
Hypothesis Hb : board_ok b.
Hypothesis Hmair : mair_el1 r = AARCH64_MMU_MAIR_VALUE.
Let off := va mod 2 ^ 48.

Lemma off_range : 0 <= off < 2 ^ 48.
Proof. apply Z.mod_pos_bound. lia. Qed.

(** Level 2: the low GiB in 2 MiB pages. *)
Lemma walk_l2 n a2 :
  table_at addr t a2 = Some (region_l2 b) -> off < 2 ^ 30 ->
  walk (S n) 21 addr t r a2 va = expected b off.
Proof.
  intros H2 Hlt. pose proof off_range as Hr. change (2 ^ 30) with 1073741824 in Hlt.
  assert (0 <= off / 2 ^ 21 < 512) as Hi.
  { change (2 ^ 21) with 2097152. Z.div_mod_to_equations. lia. }
  pose proof (index_off va 21 ltac:(lia) ltac:(apply Hi)) as Hidx. fold off in Hidx.
  assert (entry_at addr t va a2 21 = Some (make_block_descriptor (Z.shiftl (off / 2 ^ 21) 21)
            (block_flags b off))) as He.
  { unfold entry_at. rewrite H2, Hidx. simpl. rewrite lookup_region_l2 by done.
    unfold block_flags. by rewrite in_device_window_page by (done || lia). }
  assert (Z.shiftl (off / 2 ^ 21) 21 + va mod 2 ^ 21 = off) as Hpa.
  { rewrite mod_off by lia. fold off. rewrite Z.shiftl_mul_pow2 by lia.
    pose proof (Z.div_mod off (2 ^ 21)). lia. }
  unfold expected, mapped_limit. destruct (Z.ltb_spec off
    (if BOOT_MMU_EXTRA_RAM_BASE b =? 0 then 2 ^ 30 else 2 ^ 31)) as [_|Hge].
  2: { exfalso. destruct (_ =? _) in Hge; lia. }
  destruct (block_fields_low _ Hi) as [Hd Hk]. unfold block_flags in He.
  destruct (in_device_window b off).
  - rewrite (walk_block _ _ _ _ _ _ _ _ _ _ _ _ He Hd) by done. by rewrite Hpa.
  - rewrite (walk_block _ _ _ _ _ _ _ _ _ _ _ _ He Hk) by done. by rewrite Hpa.
Qed.

(** Level 1: the table of the low GiB, then the extra RAM. *)
Lemma walk_l1 n a1 a2 :
  table_at addr t a1 = Some (region_l1 b a2) -> table_at addr t a2 = Some (region_l2 b) ->
  0 <= a2 < 2 ^ 48 -> a2 mod 4096 = 0 -> off < 2 ^ 39 ->
  walk (S (S n)) 30 addr t r a1 va = expected b off.
Proof.
  intros H1 H2 Ha Hq Hlt. pose proof off_range as Hr.
  change (2 ^ 39) with 549755813888 in Hlt.
  assert (0 <= off / 2 ^ 30 < 512) as Hi.
  { change (2 ^ 30) with 1073741824. Z.div_mod_to_equations. lia. }
  pose proof (index_off va 30 ltac:(lia) ltac:(apply Hi)) as Hidx. fold off in Hidx.
  assert (entry_at addr t va a1 30 = region_l1 b a2 !! Z.to_nat (off / 2 ^ 30)) as He.
  { unfold entry_at. by rewrite H1, Hidx. }
  rewrite lookup_region_l1 in He by done. change (2 ^ 30) with 1073741824 in *.
  destruct (Z.eqb_spec (off / 1073741824) 0) as [E0|E0].
  { rewrite (walk_table _ _ _ _ _ _ _ _ He) by done.
    apply walk_l2; [done|]. change (2 ^ 30) with 1073741824. Z.div_mod_to_equations. lia. }
  destruct Hb as (_ & _ & Hl & Hx).
  destruct (Z.eqb_spec (off / 1073741824) 1) as [E1|E1]; simpl in He.
  - assert (1073741824 <= off < 2147483648) as Hor by (Z.div_mod_to_equations; lia).
    destruct Hx as [Hx|Hx]; rewrite Hx in He; simpl in He.
    + rewrite walk_invalid by done. rewrite expected_none; [done|].
      unfold mapped_limit. rewrite Hx. simpl. lia.
    + rewrite (walk_block _ _ _ _ _ _ _ _ _ _ _ _ He block_fields_extra) by done.
      unfold expected, mapped_limit. rewrite Hx. change (2 ^ 30 =? 0) with false. cbv iota.
      destruct (Z.ltb_spec off (2 ^ 31)); [|lia].
      unfold in_device_window. destruct (Z.ltb_spec off (BOOT_MMU_DEVICE_LIMIT b)); [lia|].
      rewrite andb_false_r. do 2 f_equal. rewrite (mod_off va 30) by lia. fold off.
      change (2 ^ 30) with 1073741824. Z.div_mod_to_equations. lia.
  - rewrite walk_invalid by done. rewrite expected_none; [done|].
    assert (2147483648 <= off) by (Z.div_mod_to_equations; lia).
    unfold mapped_limit. destruct (_ =? _); lia.
Qed.

(** Level 0: one entry; the rest of the region faults. *)
Lemma walk_region a0 a1 a2 :
  Forall (fun p => 0 <= p < 2 ^ 48 /\ p mod 4096 = 0) [a1; a2] ->
  table_at addr t a0 = Some (region_l0 a1) -> table_at addr t a1 = Some (region_l1 b a2) ->
  table_at addr t a2 = Some (region_l2 b) ->
  walk 3 39 addr t r a0 va = expected b off.
Proof.
  intros Hp H0 H1 H2. rewrite !Forall_cons_iff in Hp.
  destruct Hp as ((Hp1 & Hq1) & (Hp2 & Hq2) & _). pose proof off_range as Hr.
  change (2 ^ 48) with 281474976710656 in Hr.
  assert (0 <= off / 2 ^ 39 < 512) as Hi.
  { change (2 ^ 39) with 549755813888. Z.div_mod_to_equations. lia. }
  pose proof (index_off va 39 ltac:(lia) ltac:(apply Hi)) as Hidx. fold off in Hidx.
  assert (entry_at addr t va a0 39 = region_l0 a1 !! Z.to_nat (off / 2 ^ 39)) as He.
  { unfold entry_at. by rewrite H0, Hidx. }
  rewrite lookup_region_l0 in He by done. change (2 ^ 39) with 549755813888 in *.
  destruct (Z.eqb_spec (off / 549755813888) 0) as [E0|E0].
  - rewrite (walk_table _ _ _ _ _ _ _ _ He) by done.
    apply (walk_l1 0 a1 a2); try done. change (2 ^ 39) with 549755813888.
    Z.div_mod_to_equations. lia.
  - rewrite walk_invalid by done. rewrite expected_none; [done|].
    assert (549755813888 <= off) by (Z.div_mod_to_equations; lia).
    unfold mapped_limit. destruct (_ =? _); lia.
Qed.
End Region.

Lemma memzero_table_ok l : length l = 512%nat -> memzero_table l = replicate 512 0.
Proof. intros <-. unfold memzero_table. induction l; simpl; congruence. Qed.

Lemma aset_zero_table a :
  aset (replicate 512 0) 0 (make_table_descriptor a) = Ok (region_l0 a).
Proof. rewrite aset_ok; [reflexivity|]. rewrite length_replicate. lia. Qed.

Lemma map_extra_ram_ok b a : map_extra_ram b (region_l0 a) = Ok (region_l1 b a).
Proof.
  unfold map_extra_ram, region_l1. fold (region_l0 a). cbv zeta. destruct (_ =? 0); [done|].
  rewrite aset_ok; [reflexivity|]. unfold region_l0. rewrite length_insert, length_replicate. lia.
Qed.

(** What [boot_enable_mmu] leaves in memory and in the registers. *)
Lemma boot_enable_mmu_result b addr t r :
  tables_sized t ->
  boot_enable_mmu b addr t r =
  Ok (mkTables (region_l0 (g_boot_ttbr0_l1 addr)) (region_l1 b (g_boot_ttbr0_l2 addr)) (region_l2 b)
        (region_l0 (g_boot_ttbr1_l1 addr)) (region_l1 b (g_boot_ttbr1_l2 addr)) (region_l2 b),
      mkSysRegs (g_boot_ttbr0_l0 addr) (g_boot_ttbr1_l0 addr) AARCH64_MMU_MAIR_VALUE
        aarch64_mmu_tcr_value
        (Z.lor (sctlr_el1 r) (Z.lor (Z.lor (Z.shiftl 1 0) (Z.shiftl 1 2)) (Z.shiftl 1 12)))).
Proof.
  intros Hs. unfold tables_sized in Hs. rewrite !Forall_cons_iff in Hs.
  destruct Hs as (S1 & S2 & S3 & S4 & S5 & S6 & _).
  unfold boot_enable_mmu. cbv zeta. rewrite !memzero_table_ok by done.
  repeat first [rewrite bind_ok | rewrite aset_zero_table | rewrite map_extra_ram_ok
               | rewrite map_low_gib_ok by apply length_replicate].
  reflexivity.
Qed.

Lemma table_at_placed addr t :
  tables_placed addr ->
  table_at addr t (g_boot_ttbr0_l0 addr) = Some (g_boot_ttbr0_l0 t) /\
  table_at addr t (g_boot_ttbr0_l1 addr) = Some (g_boot_ttbr0_l1 t) /\
  table_at addr t (g_boot_ttbr0_l2 addr) = Some (g_boot_ttbr0_l2 t) /\
  table_at addr t (g_boot_ttbr1_l0 addr) = Some (g_boot_ttbr1_l0 t) /\
  table_at addr t (g_boot_ttbr1_l1 addr) = Some (g_boot_ttbr1_l1 t) /\
  table_at addr t (g_boot_ttbr1_l2 addr) = Some (g_boot_ttbr1_l2 t).
Proof.
  intros [Hn _]. rewrite !list.NoDup_cons, !not_elem_of_cons in Hn. destruct_and!.
  unfold table_at. split_and!; repeat (case_match; zbool; try done; try congruence).
Qed.

Section Mapping.
Context (b : BootMmuBoard) (addr : BootTables Z) (t : BootTables (list Z)) (r : SysRegs).
Hypothesis Hb : board_ok b.
Hypothesis Hp : tables_placed addr.
Hypothesis Hs : tables_sized t.

(** The translation the programmed tables give, for every 64-bit address. *)
Lemma boot_enable_mmu_translate :
  exists t' r', boot_enable_mmu b addr t r = Ok (t', r') /\
    forall va, 0 <= va < 2 ^ 64 ->
      translate addr t' r' va =
      if va <? 2 ^ 48 then expected b va
      else if HIGH_BASE <=? va then expected b (va - HIGH_BASE) else None.
Proof.
  rewrite boot_enable_mmu_result by done. eexists _, _. split; [done|]. intros va Hva.
  unfold translate. cbn [sctlr_el1 ttbr0_el1 ttbr1_el1].
  rewrite Z.lor_spec. change (Z.testbit (Z.lor _ _) 0) with true at 1. rewrite orb_true_r.
  cbn [negb]. rewrite Z.shiftr_div_pow2 by lia. unfold HIGH_BASE, AARCH64_MMU_L0_SHIFT.
  match goal with |- context [walk _ _ addr ?t' ?r'] =>
    assert (mair_el1 r' = AARCH64_MMU_MAIR_VALUE) as Hm by reflexivity;
    pose proof (table_at_placed addr t' Hp) as (T1 & T2 & T3 & T4 & T5 & T6);
    cbn [g_boot_ttbr0_l0 g_boot_ttbr0_l1 g_boot_ttbr0_l2
         g_boot_ttbr1_l0 g_boot_ttbr1_l1 g_boot_ttbr1_l2] in T1, T2, T3, T4, T5, T6 end.
  destruct Hp as [_ Hf]. rewrite !Forall_cons_iff in Hf. destruct Hf as (A0 & A1 & A2 & B0 & B1 & B2 & _).
  assert (Forall (fun p => 0 <= p < 2 ^ 48 /\ p mod 4096 = 0)
            [g_boot_ttbr0_l1 addr; g_boot_ttbr0_l2 addr]) as F0 by
    (do 2 (apply List.Forall_cons; [done|]); apply List.Forall_nil).
  assert (Forall (fun p => 0 <= p < 2 ^ 48 /\ p mod 4096 = 0)
            [g_boot_ttbr1_l1 addr; g_boot_ttbr1_l2 addr]) as F1 by
    (do 2 (apply List.Forall_cons; [done|]); apply List.Forall_nil).
  rewrite (walk_region b addr _ _ va Hb Hm _ _ _ F0 T1 T2 T3).
  rewrite (walk_region b addr _ _ va Hb Hm _ _ _ F1 T4 T5 T6).
  change (2 ^ 48) with 281474976710656. change (2 ^ 64) with 18446744073709551616 in Hva.
  destruct (Z.ltb_spec va 281474976710656).
  { rewrite Z.div_small, Z.mod_small by lia. done. }
  destruct (Z.eqb_spec (va / 281474976710656) 0); [Z.div_mod_to_equations; lia|].
  destruct (Z.eqb_spec (va / 281474976710656) 65535) as [E|E];
    destruct (Z.leb_spec 18446462598732840960 va); try (Z.div_mod_to_equations; lia); [|done].
  f_equal. Z.div_mod_to_equations. lia.
Qed.
End Mapping.
