(* ===== verification/BootConsole.v ===== *)
(** The bootloader's console (kernel/bootloader/console.c): the PL011 UART of
    the virt board, and the interface the boot sequence uses.

    The UART is an environment: the values its flag and data registers return
    are streams indexed by the number of register reads so far, and the log of
    register writes is what leaves the machine.  Polling loops take fuel. *)
From stdpp Require Import base list numbers.
From Stdlib Require Import ZArith Lia.
From S2P Require Import Prelude.

Local Open Scope Z_scope.

(** ** The interface *)
Class Console (C : Type) : Type := {
  console_init : C -> Exec (Status * C);
  console_puts : option (list Z) -> C -> Exec C
}.

(** Every line feed goes out as carriage return, line feed. *)
Definition crlf (text : list Z) : list Z :=
  concat (map (fun ch => if ch =? 10 then [13; 10] else [ch]) text).

Class ConsoleLaws (C : Type) `{Console C} : Type := {
  console_live : C -> Prop;
  console_sent : C -> list Z;
  console_init_ok : forall c, console_live c ->
    exists c', console_init c = Ok (StatusOK, c') /\ console_live c' /\
      console_sent c' = console_sent c;
  console_puts_ok : forall s c, bytes s -> console_live c ->
    exists c', console_puts (Some s) c = Ok c' /\ console_live c' /\
      console_sent c' = console_sent c ++ crlf s
}.

(** ** The UART *)
Definition UART0_BASE : Z := 0x09000000.
Definition UART0_DR : Z := UART0_BASE + 0x000.
Definition UART0_IBRD : Z := UART0_BASE + 0x024.
Definition UART0_FBRD : Z := UART0_BASE + 0x028.
Definition UART0_LCRH : Z := UART0_BASE + 0x02C.
Definition UART0_CR : Z := UART0_BASE + 0x030.
Definition UART0_IMSC : Z := UART0_BASE + 0x038.
Definition UART0_ICR : Z := UART0_BASE + 0x044.

(** The flag register and the data register as the hardware answers them; the
    number of flag reads so far and the writes so far, oldest first. *)
Record Uart : Type := mkUart {
  uart_fr : nat -> Z;
  uart_rx : nat -> Z;
  uart_reads : nat;
  uart_writes : list (Z * Z)
}.

Definition uart_write (reg value : Z) (u : Uart) : Uart :=
  mkUart (uart_fr u) (uart_rx u) (uart_reads u) (uart_writes u ++ [(reg, value)]).

Definition boot_console_init (u : Uart) : Exec (Status * Uart) :=
  Ok (StatusOK,
      uart_write UART0_CR 0x301 (uart_write UART0_IMSC 0 (uart_write UART0_LCRH 0x70
        (uart_write UART0_FBRD 1 (uart_write UART0_IBRD 13 (uart_write UART0_ICR 0x7FF
          (uart_write UART0_CR 0 u))))))).

(** [while (FR & mask) nop]: one poll of the flag register. *)
Definition poll_step (mask : Z) (u : Uart) : Exec (Uart + Uart) :=
  let u' := mkUart (uart_fr u) (uart_rx u) (S (uart_reads u)) (uart_writes u) in
  if negb (Z.land (uart_fr u (uart_reads u)) mask =? 0) then Ok (inl u') else Ok (inr u').

Section Fuel.
Context (fuel : nat).

Definition send_byte (ch : Z) (u : Uart) : Exec Uart :=
  u <- iterate fuel (poll_step 0x20) u ;;
  Ok (uart_write UART0_DR (u8 ch) u).

(** The recursive call on carriage return does not recurse further. *)
Definition boot_console_putc (ch : Z) (u : Uart) : Exec Uart :=
  u <- (if ch =? 10 then send_byte 13 u else Ok u) ;;
  send_byte ch u.

Fixpoint puts_loop (text : list Z) (u : Uart) : Exec Uart :=
  match text with
  | [] => Ok u
  | ch :: rest => u <- boot_console_putc ch u ;; puts_loop rest u
  end.

Definition boot_console_puts (text : option (list Z)) (u : Uart) : Exec Uart :=
  match text with None => Ok u | Some s => puts_loop s u end.

Definition boot_console_getc (u : Uart) : Exec (Z * Uart) :=
  u <- iterate fuel (poll_step 0x10) u ;;
  let value := Z.land (uart_rx u (uart_reads u)) 0xff in
  Ok (if value =? 13 then 10 else value,
      mkUart (uart_fr u) (uart_rx u) (S (uart_reads u)) (uart_writes u)).

(** ** Proofs *)

(** The bytes handed to the transmitter. *)
Definition transmitted (u : Uart) : list Z :=
  map snd (filter (fun w => fst w = UART0_DR) (uart_writes u)).

(** The bit of [mask] clears within [fuel] polls, whenever polling starts. *)
Definition uart_clears (mask : Z) (u : Uart) : Prop :=
  forall n, exists k, (k < fuel)%nat /\ Z.land (uart_fr u (n + k)) mask = 0.

Lemma transmitted_write reg v u :
  transmitted (uart_write reg v u) =
  transmitted u ++ (if decide (reg = UART0_DR) then [v] else []).
Proof.
  unfold transmitted, uart_write. cbn [uart_writes]. rewrite list.filter_app, map_app. f_equal.
  rewrite list.filter_cons. simpl. by destruct (decide _).
Qed.

Lemma poll_returns mask u :
  uart_clears mask u ->
  exists n, iterate fuel (poll_step mask) u =
    Ok (mkUart (uart_fr u) (uart_rx u) n (uart_writes u)).
Proof.
  intros Hc. destruct (Hc (uart_reads u)) as (k & Hk & Hz). clear Hc.
  destruct u as [f rx n w]. cbn [uart_fr uart_rx uart_reads uart_writes] in *.
  assert (forall j fu, (j < fu)%nat -> forall n, Z.land (f (n + j)%nat) mask = 0 ->
    exists m, iterate fu (poll_step mask) (mkUart f rx n w) = Ok (mkUart f rx m w)) as Hgen.
  { clear k n Hk Hz. induction j as [|j IH]; intros [|fu] Hlt n Hz; try lia; simpl;
      unfold poll_step; cbn [uart_fr uart_rx uart_reads uart_writes].
    - rewrite Nat.add_0_r in Hz. rewrite Hz. simpl. by eexists.
    - destruct (Z.land (f n) mask =? 0); simpl; [by eexists|].
      apply IH; [lia|]. by rewrite Nat.add_succ_r in Hz. }
  by apply (Hgen k).
Qed.

Lemma send_byte_ok ch u :
  is_byte ch -> uart_clears 0x20 u ->
  exists u', send_byte ch u = Ok u' /\ transmitted u' = transmitted u ++ [ch] /\
    uart_clears 0x20 u'.
Proof.
  intros Hb Hc. unfold send_byte. destruct (poll_returns 0x20 u Hc) as [n ->]. simpl.
  eexists. split; [done|]. rewrite transmitted_write, u8_small by done. done.
Qed.

Lemma putc_ok ch u :
  is_byte ch -> uart_clears 0x20 u ->
  exists u', boot_console_putc ch u = Ok u' /\ transmitted u' = transmitted u ++ crlf [ch] /\
    uart_clears 0x20 u'.
Proof.
  intros Hb Hc. unfold boot_console_putc, crlf. simpl. destruct (ch =? 10) eqn:He; simpl.
  - zbool. subst ch. destruct (send_byte_ok 13 u) as (u1 & -> & Ht & Hc1); [done..|]. simpl.
    destruct (send_byte_ok 10 u1) as (u2 & -> & Ht2 & Hc2); [done..|].
    eexists. split; [done|]. by rewrite Ht2, Ht, <- app_assoc.
  - by apply send_byte_ok.
Qed.

Lemma puts_ok s u :
  bytes s -> uart_clears 0x20 u ->
  exists u', boot_console_puts (Some s) u = Ok u' /\ transmitted u' = transmitted u ++ crlf s /\
    uart_clears 0x20 u'.
Proof.
  intros Hs. revert u. simpl. induction Hs as [|ch s Hb Hs IH]; intros u Hc; simpl.
  { eexists. split; [done|]. by rewrite app_nil_r. }
  destruct (putc_ok ch u) as (u1 & -> & Ht & Hc1); [done..|]. simpl.
  destruct (IH u1 Hc1) as (u2 & -> & Ht2 & Hc2). eexists. split; [done|].
  split; [|done]. rewrite Ht2, Ht, <- app_assoc. unfold crlf. simpl. by rewrite app_nil_r.
Qed.
End Fuel.

(** A UART whose transmitter drains within [fuel] polls implements the interface. *)
Definition uart_console (fuel : nat) : Console Uart :=
  {| console_init := boot_console_init; console_puts := boot_console_puts fuel |}.

#[program] Definition uart_console_laws (fuel : nat) : @ConsoleLaws Uart (uart_console fuel) :=
  {| console_live := uart_clears fuel 0x20; console_sent := transmitted |}.
Next Obligation.
  intros fuel u Hc. eexists. split; [done|]. split; [done|].
  rewrite !transmitted_write. simpl. by rewrite !app_nil_r.
Qed.
Next Obligation.
  intros fuel s u Hs Hc. destruct (puts_ok fuel s u Hs Hc) as (u' & ? & ? & ?). by exists u'.
Qed.

(** console output.  When the transmit FIFO drains within [fuel] polls,
    [boot_console_puts] returns and sends exactly the bytes of the text, each
    line feed preceded by a carriage return, after what was sent before. *)
Theorem boot_console_puts_transmits fuel s u :
  bytes s -> uart_clears fuel 0x20 u ->
  exists u', boot_console_puts fuel (Some s) u = Ok u' /\
    transmitted u' = transmitted u ++ crlf s.
Proof. intros Hs Hc. destruct (puts_ok fuel s u Hs Hc) as (u' & ? & ? & _). by exists u'. Qed.
