(* ===== verification/BootMain.v ===== *)
(** The boot sequence (kernel/bootloader/main.c): image header, validation, the
    copy of the payload into memory, and [boot_main] itself.

    Physical memory is a function from addresses to bytes; the bootloader's own
    objects ([g_copy_buffer], the stack) are kept apart from it, as the linker
    scripts place them below the load address.  [boot_panic] and the jump to the
    kernel do not return, so [boot_main] ends in one of them. *)
From stdpp Require Import base list numbers strings.
From Stdlib Require Import ZArith Lia.
From S2P Require Import Prelude BlockIface BootFat32 BootMmu BootConsole.

Local Open Scope Z_scope.

(** ** The image header, 80 packed bytes *)
Record KernelImageHeader : Type := mkHeader {
  magic : list Z;
  version : Z;
  header_size : Z;
  machine : Z;
  flags : Z;
  load_address : Z;
  image_base : Z;
  entry_point : Z;
  payload_offset : Z;
  payload_size : Z;
  memory_size : Z;
  alignment : Z
}.

Definition KERNEL_IMAGE_MAGIC : list Z := [75; 69; 82; 78; 69; 76; 0; 0].
Definition KERNEL_IMAGE_VERSION : Z := 1.
Definition KERNEL_IMAGE_MACHINE_AARCH64 : Z := 183.
Definition sizeof_KernelImageHeader : Z := 80.
Definition BOOT_COPY_CHUNK : Z := 4096.

(** The struct the 80 bytes read into it are. *)
Definition header_of_bytes (b : list Z) : KernelImageHeader :=
  let u32_at o := le_value (slice b o 4) in
  let u64_at o := le_value (slice b o 8) in
  mkHeader (slice b 0 8) (u32_at 8%nat) (u32_at 12%nat) (u32_at 16%nat) (u32_at 20%nat)
    (u64_at 24%nat) (u64_at 32%nat) (u64_at 40%nat) (u64_at 48%nat) (u64_at 56%nat)
    (u64_at 64%nat) (u64_at 72%nat).

(** ** The target *)
Record BootTarget : Type := mkBootTarget {
  board_name : list Z; kernel_path : list Z; load_phys_base : Z
}.

(** The defaults of main.c: "virt", "/kernel", 0x40100000. *)
Definition g_boot_target : BootTarget :=
  mkBootTarget (cstr "virt") (cstr "/kernel") 0x40100000.

Definition boot_header_magic_valid (header : option KernelImageHeader) : bool :=
  match header with
  | None => false
  | Some h => bool_decide (magic h = KERNEL_IMAGE_MAGIC)
  end.

Definition boot_validate_header (target : BootTarget) (header : option KernelImageHeader)
    (file_size : Z) : Status :=
  match header with
  | None => StatusInvalidArgument
  | Some h =>
      if negb (boot_header_magic_valid header) then StatusFault else
      if negb (version h =? KERNEL_IMAGE_VERSION) ||
         negb (machine h =? KERNEL_IMAGE_MACHINE_AARCH64) then StatusNotSupported else
      if (header_size h <? sizeof_KernelImageHeader) || (payload_offset h <? header_size h)
      then StatusFault else
      if memory_size h <? payload_size h then StatusFault else
      if file_size <? u64 (payload_offset h + payload_size h) then StatusFault else
      if (memory_size h =? 0) || negb (Z.land (load_address h) 0xfff =? 0) then StatusFault else
      if negb (load_address h =? load_phys_base target) then StatusFault else
      let image_end := u64 (load_address h + memory_size h) in
      if (image_end <? load_address h) || (entry_point h <? image_base h) ||
         (u64 (image_base h + memory_size h) <=? entry_point h)
      then StatusFault else StatusOK
  end.

(** ** Memory *)
Definition Mem : Type := Z -> Z.

Definition mem_set (m : Mem) (a v : Z) : Mem := fun x => if x =? a then v else m x.

(** [memcopy(a, src, n)] from an array into memory. *)
Definition memcopy (m : Mem) (a : Z) (src : list Z) (n : Z) : Exec Mem :=
  for_range (Z.to_nat n) 0 (fun k m => x <- aget src k ;; Ok (mem_set m (u64 (a + k)) x)) m.

(** [memzero(a, n)]. *)
Definition memzero (m : Mem) (a n : Z) : Exec Mem :=
  for_range (Z.to_nat n) 0 (fun k m => Ok (mem_set m (u64 (a + k)) 0)) m.

Section Boot.
Context {D : Type} `{BlockDevice D}.

(** ** Copying the payload *)
Record CopyState : Type := mkCopyState {
  cp_file : BootFsFile;
  g_copy_buffer : list Z;
  cp_mem : Mem;
  copied : Z;
  cp_io : BootIo D
}.

Definition copy_step (fs : BootFs) (header : KernelImageHeader) (s : CopyState)
  : Exec (CopyState + CopyState * Status) :=
  let destination := load_address header in
  if negb (copied s <? payload_size header) then
    (if payload_size header <? memory_size header then
       m <- memzero (cp_mem s) (u64 (destination + payload_size header))
              (memory_size header - payload_size header) ;;
       Ok (inr (mkCopyState (cp_file s) (g_copy_buffer s) m (copied s) (cp_io s), StatusOK))
     else Ok (inr (s, StatusOK)))
  else
    let chunk := u32 (payload_size header - copied s) in
    let chunk := if BOOT_COPY_CHUNK <? chunk then BOOT_COPY_CHUNK else chunk in
    '(io, file, buf, read_result) <-
      bootfs_read (Some fs) (Some (cp_file s)) (Some (g_copy_buffer s)) chunk (cp_io s) ;;
    match file, buf with
    | Some file, Some buf =>
        if negb (read_result =? chunk) then
          Ok (inr (mkCopyState file buf (cp_mem s) (copied s) io, StatusIoError))
        else
          m <- memcopy (cp_mem s) (u64 (destination + copied s)) buf chunk ;;
          Ok (inl (mkCopyState file buf m (u64 (copied s + chunk)) io))
    | _, _ => Undef
    end.

(** The loop takes fuel; the theorems say that one iteration per 4096 bytes and
    one more are enough. *)
Definition boot_copy_kernel (fuel : nat) (filesystem : option BootFs) (file : option BootFsFile)
    (header : option KernelImageHeader) (buf : list Z) (m : Mem) (io : BootIo D)
  : Exec (option CopyState * Status) :=
  match filesystem, file, header with
  | Some fs, Some f, Some h =>
      let '(st, f') := bootfs_seek (Some f) (u32 (payload_offset h)) in
      if negb (bool_decide (st = StatusOK)) then Ok (None, StatusIoError) else
      match f' with
      | Some f' =>
          '(s, st) <- iterate fuel (copy_step fs h) (mkCopyState f' buf m 0 io) ;;
          Ok (Some s, st)
      | None => Undef
      end
  | _, _, _ => Ok (None, StatusInvalidArgument)
  end.

(** ** The boot sequence *)
Context {C : Type} `{Console C}.

(** What the sequence works on: the console, the device and sector buffer, the
    copy buffer, memory, the page tables and the system registers. *)
Record BootState : Type := mkBootState {
  bs_console : C;
  bs_io : BootIo D;
  bs_copy_buffer : list Z;
  bs_mem : Mem;
  bs_tables : BootTables (list Z);
  bs_regs : SysRegs
}.

Inductive BootOutcome : Type :=
| Panic (message : list Z)
| Jump (entry : Z) (header : KernelImageHeader).

(** "[bootloader] " and the end of line around a message. *)
Definition trace_prefix : list Z := cstr "[bootloader] ".

Definition boot_trace (message : list Z) (c : C) : Exec C :=
  c <- console_puts (Some trace_prefix) c ;;
  c <- console_puts (Some message) c ;;
  console_puts (Some [10]) c.

(** [boot_panic] traces the message and never returns. *)
Definition boot_panic (message : list Z) (s : BootState) : Exec (BootOutcome * BootState) :=
  c <- boot_trace message (bs_console s) ;;
  Ok (Panic message, mkBootState c (bs_io s) (bs_copy_buffer s) (bs_mem s) (bs_tables s) (bs_regs s)).

Definition set_console (c : C) (s : BootState) : BootState :=
  mkBootState c (bs_io s) (bs_copy_buffer s) (bs_mem s) (bs_tables s) (bs_regs s).
Definition set_io (io : BootIo D) (s : BootState) : BootState :=
  mkBootState (bs_console s) io (bs_copy_buffer s) (bs_mem s) (bs_tables s) (bs_regs s).
Definition set_mem (m : Mem) (buf : list Z) (s : BootState) : BootState :=
  mkBootState (bs_console s) (bs_io s) buf m (bs_tables s) (bs_regs s).
Definition set_mmu (t : BootTables (list Z)) (r : SysRegs) (s : BootState) : BootState :=
  mkBootState (bs_console s) (bs_io s) (bs_copy_buffer s) (bs_mem s) t r.

(** [boot_trace] as a statement of [boot_main]. *)
Definition trace (message : list Z) (s : BootState) : Exec BootState :=
  c <- boot_trace message (bs_console s) ;; Ok (set_console c s).

(** The header object on the stack before it is read: 80 bytes of any content. *)
Definition boot_main (boot_block_init : D -> Exec (Status * D)) (board : BootMmuBoard)
    (addr : BootTables Z) (target : BootTarget) (stack_header : list Z)
    (find_fuel copy_fuel : nat) (s : BootState) : Exec (BootOutcome * BootState) :=
  '(st, c) <- console_init (bs_console s) ;;
  let s := set_console c s in
  if negb (bool_decide (st = StatusOK)) then boot_panic (cstr "console init failed") s else
  s <- trace (cstr "UART console ready") s ;;
  '(st, d) <- boot_block_init (io_dev (bs_io s)) ;;
  let s := set_io (mkBootIo d (g_sector_buffer (bs_io s))) s in
  if negb (bool_decide (st = StatusOK)) then boot_panic (cstr "block device init failed") s else
  s <- trace (cstr "block device ready") s ;;
  s <- trace (cstr "mounting FAT32 boot volume") s ;;
  let g_boot_filesystem := mkBootFs 0 (mkBootSector 0 0 0 0 0 0 (replicate 8 0)) 0 0 0 in
  '(io, r) <- bootfs_init (Some g_boot_filesystem) (bs_io s) ;;
  let s := set_io io s in
  match r with
  | inl _ => boot_panic (cstr "unable to mount FAT32 boot volume") s
  | inr fs =>
      s <- trace (cstr "FAT32 boot volume ready") s ;;
      let kernel_file := mkBootFsFile 0 0 0 0 0 in
      '(io, r) <- bootfs_open find_fuel (Some fs) (Some (kernel_path target)) (Some kernel_file)
                    (bs_io s) ;;
      let s := set_io io s in
      match r with
      | inl _ => boot_panic (cstr "unable to open kernel image") s
      | inr file =>
          if f_size file <? sizeof_KernelImageHeader
          then boot_panic (cstr "kernel image is smaller than its header") s else
          '(io, file', buf, n) <- bootfs_read (Some fs) (Some file) (Some stack_header)
                                    sizeof_KernelImageHeader (bs_io s) ;;
          let s := set_io io s in
          if negb (n =? sizeof_KernelImageHeader)
          then boot_panic (cstr "unable to read kernel image header") s else
          match file', buf with
          | Some file, Some buf =>
              let header := header_of_bytes buf in
              if negb (bool_decide (boot_validate_header target (Some header) (f_size file)
                                    = StatusOK))
              then boot_panic (cstr "kernel image header validation failed") s else
              '(cs, st) <- boot_copy_kernel copy_fuel (Some fs) (Some file) (Some header)
                             (bs_copy_buffer s) (bs_mem s) (bs_io s) ;;
              let s := match cs with
                       | Some cs => set_mem (cp_mem cs) (g_copy_buffer cs) (set_io (cp_io cs) s)
                       | None => s
                       end in
              if negb (bool_decide (st = StatusOK))
              then boot_panic (cstr "unable to copy kernel image payload") s else
              s <- trace (cstr "enabling MMU for higher-half kernel handoff") s ;;
              '(t, regs) <- boot_enable_mmu board addr (bs_tables s) (bs_regs s) ;;
              let s := set_mmu t regs s in
              s <- trace (cstr "jumping to loaded kernel entry point") s ;;
              Ok (Jump (entry_point header) header, s)
          | _, _ => Undef
          end
      end
  end.
End Boot.
Arguments CopyState D : clear implicits.
Arguments BootState D C : clear implicits.
