(* ===== verification/BootMainSpec.v ===== *)
(** Loading the kernel image: what validation guarantees, that the copy puts the
    payload and the zeroed tail where the header says and nowhere else, and the
    whole boot sequence down to the first instruction of the kernel.

    The contract of the boot sequence: validation is exact, the copy loads the
    image, and [boot_main] on a bootable medium ends at the kernel's entry point
    with the image in memory and mapped. *)
From stdpp Require Import base list numbers strings.
From Stdlib Require Import ZArith Lia.
From S2P Require Import Prelude BlockIface BootFat32 BootFat32Proofs BootFat32Spec BootMmu BootConsole BootMain.

Local Open Scope Z_scope.

(** ** Memory *)

(** [m] with the block [l] at address [a]. *)
Definition mem_block (m : Mem) (a : Z) (l : list Z) : Mem :=
  fun x => if (a <=? x) && (x <? a + len l) then nth (Z.to_nat (x - a)) l 0 else m x.

Definition mem_eq (m m' : Mem) : Prop := forall x, m x = m' x.

#[global] Instance mem_eq_equiv : Equivalence mem_eq.
Proof. split; [by intros m x|by intros m m' E x; rewrite E|by intros m1 m2 m3 E F x; rewrite E, F]. Qed.

#[global] Instance mem_block_proper : Proper (mem_eq ==> eq ==> eq ==> mem_eq) mem_block.
Proof. intros m m' E a _ <- l _ <- x. unfold mem_block. by rewrite E. Qed.

Lemma mem_block_nil m a : mem_eq (mem_block m a []) m.
Proof.
  intros x. unfold mem_block. destruct (Z.leb_spec a x), (Z.ltb_spec x (a + len (@nil Z))); simpl in *;
    done || lia.
Qed.

Lemma mem_block_snoc m a l v :
  mem_eq (mem_set (mem_block m a l) (a + len l) v) (mem_block m a (l ++ [v])).
Proof.
  intros x. unfold mem_set, mem_block. rewrite length_app. simpl length.
  destruct (Z.eqb_spec x (a + len l)) as [->|Hne].
  - destruct (Z.leb_spec a (a + len l)); [|lia].
    destruct (Z.ltb_spec (a + len l) (a + Z.of_nat (length l + 1))); [|lia]. simpl.
    replace (Z.to_nat (a + len l - a)) with (length l) by lia. by rewrite nth_middle.
  - destruct (Z.leb_spec a x); simpl; [|done].
    destruct (Z.ltb_spec x (a + len l)), (Z.ltb_spec x (a + Z.of_nat (length l + 1))); try done; try lia.
    rewrite app_nth1; [done|lia].
Qed.

Lemma mem_block_app m a l l' :
  mem_eq (mem_block (mem_block m a l) (a + len l) l') (mem_block m a (l ++ l')).
Proof.
  revert l. induction l' as [|v l' IH] using rev_ind; intros l.
  { rewrite app_nil_r. apply mem_block_nil. }
  rewrite <- (mem_block_snoc _ (a + len l) l' v), app_assoc, <- (mem_block_snoc m a (l ++ l') v).
  intros x. unfold mem_set. rewrite length_app.
  replace (a + Z.of_nat (length l + length l')) with (a + len l + len l') by lia.
  destruct (x =? _); [done|]. apply IH.
Qed.

(** A loop of single stores over consecutive addresses stores the block. *)
Lemma store_loop_ok (n : nat) (f : Z -> Exec Z) (l : list Z) m a :
  length l = n -> 0 <= a -> a + Z.of_nat n <= 2 ^ 64 ->
  (forall k v, l !! k = Some v -> f (Z.of_nat k) = Ok v) ->
  exists m', for_range n 0 (fun k m => x <- f k ;; Ok (mem_set m (u64 (a + k)) x)) m = Ok m' /\
    mem_eq m' (mem_block m a l).
Proof.
  intros Hl Ha Hn Hf.
  assert (forall j i mi, (i + j = n)%nat -> mem_eq mi (mem_block m a (take i l)) ->
    exists m', for_range j (Z.of_nat i)
      (fun k m => x <- f k ;; Ok (mem_set m (u64 (a + k)) x)) mi = Ok m' /\
      mem_eq m' (mem_block m a l)) as Hgen.
  { induction j as [|j IH]; intros i mi Hij He; simpl.
    - exists mi. split; [done|]. rewrite He, take_ge by lia. done.
    - destruct (lookup_lt_is_Some_2 l i) as [v Hv]; [lia|]. rewrite (Hf _ _ Hv). simpl.
      replace (Z.of_nat i + 1) with (Z.of_nat (S i)) by lia. apply IH; [lia|].
      rewrite (take_S_r _ _ v) by done. rewrite <- mem_block_snoc, length_take_le by lia.
      intros x. unfold mem_set. rewrite u64_small by lia. destruct (x =? _); [done|]. apply He. }
  apply (Hgen n 0%nat); [lia|]. simpl. symmetry. apply mem_block_nil.
Qed.

Lemma memcopy_ok m a src n :
  0 <= n <= len src -> 0 <= a -> a + n <= 2 ^ 64 ->
  exists m', memcopy m a src n = Ok m' /\ mem_eq m' (mem_block m a (take (Z.to_nat n) src)).
Proof.
  intros Hn Ha Hb. unfold memcopy.
  apply (store_loop_ok _ (aget src)); [rewrite length_take_le; lia|done|lia|].
  intros k v Hk. apply aget_ok; [lia|]. rewrite Nat2Z.id.
  by apply (lookup_take_Some src (Z.to_nat n) k v) in Hk as [? _].
Qed.

Lemma memzero_ok m a n :
  0 <= n -> 0 <= a -> a + n <= 2 ^ 64 ->
  exists m', memzero m a n = Ok m' /\ mem_eq m' (mem_block m a (replicate (Z.to_nat n) 0)).
Proof.
  intros Hn Ha Hb. unfold memzero.
  apply (store_loop_ok _ (fun _ => Ok 0)); [apply length_replicate|done|lia|].
  intros k v Hk. by apply lookup_replicate_1 in Hk as [-> _].
Qed.

(** ** Validation *)

(** What the code means to check. *)
Definition header_ok (target : BootTarget) (h : KernelImageHeader) (file_size : Z) : Prop :=
  magic h = KERNEL_IMAGE_MAGIC /\ version h = 1 /\ machine h = 183 /\
  80 <= header_size h <= payload_offset h /\
  payload_size h <= memory_size h /\ 0 < memory_size h /\
  u64 (payload_offset h + payload_size h) <= file_size /\
  load_address h mod 4096 = 0 /\ load_address h = load_phys_base target /\
  load_address h + memory_size h < 2 ^ 64 /\
  image_base h <= entry_point h < image_base h + memory_size h /\
  image_base h + memory_size h < 2 ^ 64.

(** The fields are values of their C types. *)
Definition header_typed (h : KernelImageHeader) : Prop :=
  Forall (fun x => 0 <= x < 2 ^ 32) [version h; header_size h; machine h; flags h] /\
  Forall (fun x => 0 <= x < 2 ^ 64)
    [load_address h; image_base h; entry_point h; payload_offset h; payload_size h;
     memory_size h; alignment h].

Lemma header_of_bytes_typed b :
  bytes b -> length b = 80%nat -> header_typed (header_of_bytes b).
Proof.
  intros Hb Hl.
  assert (forall o n, (o + n <= 80)%nat -> 0 <= le_value (slice b o n) < 256 ^ Z.of_nat n) as Hr.
  { intros o n Hn. pose proof (le_value_range (slice b o n)) as Hv.
    rewrite length_slice in Hv by lia. apply Hv. by apply bytes_slice. }
  split; repeat (apply List.Forall_cons; [simpl; apply Hr; lia|]); apply List.Forall_nil.
Qed.

Lemma u64_add_case a b :
  0 <= a < 2 ^ 64 -> 0 <= b < 2 ^ 64 ->
  (u64 (a + b) = a + b /\ a + b < 2 ^ 64) \/ (u64 (a + b) = a + b - 2 ^ 64 /\ 2 ^ 64 <= a + b).
Proof.
  intros Ha Hb. destruct (Z_lt_le_dec (a + b) (2 ^ 64)).
  - left. split; [apply u64_small; lia|done].
  - right. split; [|done]. unfold u64. symmetry.
    apply (Z.mod_unique_pos (a + b) (2 ^ 64) 1); lia.
Qed.

(** Destruct every conditional of a chain of checks. *)
Ltac checks :=
  repeat (first
    [ match goal with |- context [if ?b then _ else _] => destruct b eqn:?; cbn [negb] end
    | done ]).

Lemma validate_header_spec target h file_size :
  header_typed h -> 0 <= load_phys_base target ->
  boot_validate_header target (Some h) file_size = StatusOK <-> header_ok target h file_size.
Proof.
  intros [H32 H64] Ht. inv_foralls.
  unfold boot_validate_header, header_ok, boot_header_magic_valid, KERNEL_IMAGE_VERSION,
    KERNEL_IMAGE_MACHINE_AARCH64, sizeof_KernelImageHeader.
  change 0xfff with (Z.ones 12). rewrite Z.land_ones by lia. change (2 ^ 12) with 4096.
  destruct (u64_add_case (load_address h) (memory_size h) ltac:(lia) ltac:(lia)) as [[E1 L1]|[E1 L1]];
  destruct (u64_add_case (image_base h) (memory_size h) ltac:(lia) ltac:(lia)) as [[E2 L2]|[E2 L2]];
  rewrite E1, E2.
  all: split; [|intros; destruct_and!; rewrite bool_decide_eq_true_2 by done; cbn [negb]];
    checks; zbool; repeat (rewrite ?orb_true_iff, ?orb_false_iff, ?negb_true_iff, ?negb_false_iff,
      ?bool_decide_eq_true, ?Z.eqb_eq, ?Z.eqb_neq, ?Z.ltb_lt, ?Z.ltb_ge, ?Z.leb_le, ?Z.leb_gt in * );
    try done; try (intros; split_and!; first [done|lia]); try lia.
Qed.

Section Copy.
Context {D : Type} `{HD : BlockDevice D} `{!BlockDeviceLaws D}.

(** ** The copy loop *)
Section Loop.
Variables (fs : BootFs) (h : KernelImageHeader) (io0 : BootIo D) (f0 : BootFsFile).
Variables (m0 : Mem) (cs : list Z).
Hypothesis Hfs : fs_wf fs.
Hypothesis Hsize : f_size f0 < 2 ^ 32.
Hypothesis Hpo : 0 <= payload_offset h.
Hypothesis Hps : 0 <= payload_size h <= memory_size h.
Hypothesis Hend : payload_offset h + payload_size h <= f_size f0.
Hypothesis Hla : 0 <= load_address h /\ load_address h + memory_size h < 2 ^ 64.
Hypothesis Hchain : f_size f0 <= len cs * cluster_size fs.
Hypothesis Hgood : io_good io0.

(** The first [n] bytes of the payload. *)
Definition payload (n : Z) : list Z :=
  slice (chain_bytes fs io0 cs) (Z.to_nat (payload_offset h)) (Z.to_nat n).

Lemma payload_length n : 0 <= n <= payload_size h -> len (payload n) = n.
Proof.
  intros Hn. unfold payload. rewrite length_slice; [lia|].
  rewrite chain_bytes_length by apply Hgood. destruct Hfs as [Hs1 Hs2]. unfold spc. nia.
Qed.

Definition copy_inv (s : CopyState D) : Prop :=
  holds_file fs (cp_io s) (cp_file s) cs /\ same_medium io0 (cp_io s) /\
  f_offset (cp_file s) = payload_offset h + copied s /\ f_size (cp_file s) = f_size f0 /\
  0 <= copied s <= payload_size h /\ length (g_copy_buffer s) = 4096%nat /\
  mem_eq (cp_mem s) (mem_block m0 (load_address h) (payload (copied s))).

Definition chunks_left (s : CopyState D) : nat :=
  Z.to_nat ((payload_size h - copied s + 4095) / 4096).

(** What memory holds afterwards: payload, then zeroes. *)
Definition image : list Z :=
  payload (payload_size h) ++ replicate (Z.to_nat (memory_size h - payload_size h)) 0.

Definition copy_post (r : CopyState D * Status) : Prop :=
  snd r = StatusOK /\ mem_eq (cp_mem (fst r)) (mem_block m0 (load_address h) image) /\
  same_medium io0 (cp_io (fst r)) /\ length (g_copy_buffer (fst r)) = 4096%nat.

Lemma copy_finish s :
  copy_inv s -> payload_size h <= copied s ->
  wp (copy_step fs h s)
    (fun r => match r with inl _ => False | inr x => copy_post x end) (fun _ => False).
Proof.
  intros (Hh & Hm & Ho & Hf & Hc & Hl & Hmem) Hge. unfold copy_step. cbv zeta.
  assert (copied s = payload_size h) as Hcp by lia. rewrite Hcp in Hmem.
  destruct (Z.ltb_spec (copied s) (payload_size h)); [lia|]. cbn [negb].
  destruct (Z.ltb_spec (payload_size h) (memory_size h)).
  - rewrite u64_small by lia.
    destruct (memzero_ok (cp_mem s) (load_address h + payload_size h)
                (memory_size h - payload_size h)) as (m' & -> & Hm'); [lia..|].
    simpl. split_and!; [done| |done|done]. simpl.
    rewrite Hm', Hmem. unfold image. rewrite <- mem_block_app.
    by rewrite payload_length by lia.
  - simpl. split_and!; [done| |done|done]. simpl. unfold image.
    replace (memory_size h - payload_size h) with 0 by lia. by rewrite app_nil_r.
Qed.

Lemma copy_chunk s :
  copy_inv s -> copied s < payload_size h ->
  wp (copy_step fs h s)
    (fun r => match r with
              | inl s' => copy_inv s' /\ (chunks_left s' < chunks_left s)%nat
              | inr x => False end) (fun _ => False).
Proof.
  intros (Hh & Hm & Ho & Hf & Hc & Hl & Hmem) Hlt. unfold copy_step. cbv zeta.
  destruct (Z.ltb_spec (copied s) (payload_size h)); [|lia]. cbn [negb].
  rewrite u32_small by lia. unfold BOOT_COPY_CHUNK.
  set (chunk := if 4096 <? payload_size h - copied s then 4096 else payload_size h - copied s).
  assert (0 < chunk <= 4096 /\ chunk <= payload_size h - copied s /\
          (chunk = 4096 \/ chunk = payload_size h - copied s)) as (Hk1 & Hk2 & Hk3)
    by (unfold chunk; destruct (Z.ltb_spec 4096 (payload_size h - copied s)); lia).
  destruct (read_holds fs (cp_file s) (g_copy_buffer s) chunk (cp_io s) cs)
    as (io' & f' & Hr & Ho' & Hs' & Hh' & Hm'); [done|done|lia..|].
  cbv zeta in Hr, Ho', Hh'. rewrite Ho, Hf in Hr, Ho'.
  replace (Z.min chunk (Z.max 0 (f_size f0 - (payload_offset h + copied s)))) with chunk in Hr, Ho' by lia.
  rewrite (chain_bytes_medium _ _ _ _ Hm), Z2Nat.inj_add in Hr by lia.
  rewrite Hr. cbn [bind]. rewrite Z.eqb_refl. cbn [negb].
  set (piece := slice _ _ (Z.to_nat chunk)) in *.
  assert (payload (copied s) ++ piece = payload (copied s + chunk)) as Happ.
  { unfold payload, piece. rewrite slice_app. f_equal. lia. }
  assert (len piece = chunk) as Hpl.
  { pose proof (payload_length (copied s + chunk) ltac:(lia)) as H1.
    pose proof (payload_length (copied s) ltac:(lia)). rewrite <- Happ, length_app in H1. lia. }
  rewrite u64_small by lia.
  destruct (memcopy_ok (cp_mem s) (load_address h + copied s) (splice (g_copy_buffer s) 0 piece) chunk)
    as (m' & -> & Hmm); [rewrite length_splice; lia|lia..|].
  simpl. rewrite u64_small by lia. split.
  - split_and!; simpl; try done; try lia; [eauto using same_medium_trans|by rewrite length_splice by lia|].
    rewrite Hmm, Hmem, <- Happ, <- mem_block_app, payload_length by lia.
    replace (take (Z.to_nat chunk) (splice (g_copy_buffer s) 0 piece)) with piece; [done|].
    unfold splice. rewrite take_0. simpl. by rewrite take_app_length' by lia.
  - unfold chunks_left. simpl. Z.div_mod_to_equations. lia.
Qed.

Lemma wp_copy_loop fuel s :
  copy_inv s -> (chunks_left s < fuel)%nat ->
  wp (iterate fuel (copy_step fs h) s) copy_post (fun _ => False).
Proof.
  intros Hi Hf. apply (wp_iterate _ _ _ copy_inv chunks_left); [|done|done]. intros t Ht.
  destruct (Z_lt_le_dec (copied t) (payload_size h)).
  - eapply wp_post; [by apply copy_chunk|]. by intros [|].
  - eapply wp_post; [by apply copy_finish|]. by intros [|].
Qed.
End Loop.

(** Copying from a file that holds the payload. *)
Lemma copy_kernel_ok fuel fs f h buf m io cs :
  fs_wf fs -> holds_file fs io f cs -> f_size f < 2 ^ 32 -> length buf = 4096%nat ->
  0 <= payload_offset h -> 0 <= payload_size h <= memory_size h ->
  payload_offset h + payload_size h <= f_size f ->
  0 <= load_address h -> load_address h + memory_size h < 2 ^ 64 ->
  (Z.to_nat ((payload_size h + 4095) / 4096) < fuel)%nat ->
  exists s, boot_copy_kernel fuel (Some fs) (Some f) (Some h) buf m io = Ok (Some s, StatusOK) /\
    mem_eq (cp_mem s) (mem_block m (load_address h) (image fs h io cs)) /\
    same_medium io (cp_io s) /\ length (g_copy_buffer s) = 4096%nat.
Proof.
  intros Hfs Hh Hs Hb Hpo Hps Hend Hla1 Hla2 Hfuel. unfold boot_copy_kernel.
  rewrite u32_small by lia.
  destruct (seek_holds fs f (payload_offset h) io cs) as (f1 & -> & Ho1 & Hs1 & Hh1); [done|lia|].
  cbn [negb]. rewrite bool_decide_eq_true_2 by done. cbn [negb].
  destruct (wp_total _ _ (wp_copy_loop fs h io f m cs Hfs Hs Hpo Hps Hend (conj Hla1 Hla2)
    ltac:(apply Hh) ltac:(apply Hh) fuel (mkCopyState f1 buf m 0 io) ltac:(split_and!;
      simpl; try done; try lia; unfold payload; rewrite slice_0; symmetry; apply mem_block_nil)
    ltac:(unfold chunks_left; simpl; by rewrite Z.sub_0_r))) as ([s st] & -> & Hst & Hm & Hsm & Hl).
  simpl in *. subst st. by exists s.
Qed.

(** A payload size that is a multiple of 2^32 gives an empty first chunk, and
    the loop does not move. *)
Lemma copy_step_stuck fs f h buf m io :
  0 < payload_size h -> payload_size h mod 2 ^ 32 = 0 ->
  copy_step fs h (mkCopyState f buf m 0 io) = Ok (inl (mkCopyState f buf m 0 io)).
Proof.
  intros Hp Hz. unfold copy_step. cbn [copied cp_file g_copy_buffer cp_mem cp_io].
  destruct (Z.ltb_spec 0 (payload_size h)); [|lia]. cbn [negb].
  rewrite Z.sub_0_r. unfold u32. rewrite Hz. change (BOOT_COPY_CHUNK <? 0) with false. cbv iota zeta.
  unfold bootfs_read. destruct (f_size f <=? f_offset f); [done|].
  destruct (Z.ltb_spec (u32 (f_size f - f_offset f)) 0) as [Hn|_]; [|done].
  pose proof (u32_range (f_size f - f_offset f)). lia.
Qed.

Lemma copy_loop_stuck fuel fs f h buf m io :
  0 < payload_size h -> payload_size h mod 2 ^ 32 = 0 ->
  iterate fuel (copy_step fs h) (mkCopyState f buf m 0 io) = NoFuel.
Proof.
  intros Hp Hz. induction fuel as [|fuel IH]; [done|]. cbn [iterate].
  rewrite copy_step_stuck by done. exact IH.
Qed.
End Copy.

(** Validation.  [boot_validate_header] accepts a header exactly when it has
    the magic, version and machine of a kernel image, its load range and its
    virtual range do not wrap, the entry point lies inside the image, the load
    address is the page-aligned base of the target, and the payload's end,
    computed modulo 2^64, is inside the file. *)
Theorem boot_validate_header_exact target h file_size :
  header_typed h -> 0 <= load_phys_base target ->
  boot_validate_header target (Some h) file_size = StatusOK <-> header_ok target h file_size.
Proof. apply validate_header_spec. Qed.

(** C31: the page tables.  After [boot_enable_mmu] every 64-bit address
    translates as the mapping promises: the low window and its copy at
    0xFFFF000000000000 map to the same physical addresses, the device window as
    device memory that is never executable, the rest as normal memory
    executable at EL1 only, and every other address faults. *)
Theorem boot_enable_mmu_maps b addr t r :
  board_ok b -> tables_placed addr -> tables_sized t ->
  exists t' r', boot_enable_mmu b addr t r = Ok (t', r') /\
    forall va, 0 <= va < 2 ^ 64 ->
      translate addr t' r' va =
      if va <? 2 ^ 48 then expected b va
      else if HIGH_BASE <=? va then expected b (va - HIGH_BASE) else None.
Proof. apply boot_enable_mmu_translate. Qed.

Section Boot.
Context {D : Type} `{HD : BlockDevice D} `{!BlockDeviceLaws D}.
Context {C : Type} `{HC : Console C} `{!ConsoleLaws C}.

(** loading.  From a file that holds the payload, [boot_copy_kernel]
    terminates (one iteration per 4096 bytes and one more), and memory
    afterwards is memory before with the payload at the load address followed by
    zeroes up to the memory size: nothing outside the image is written. *)
Theorem boot_copy_kernel_loads fuel fs f h buf m (io : BootIo D) cs :
  fs_wf fs -> holds_file fs io f cs -> f_size f < 2 ^ 32 -> length buf = 4096%nat ->
  0 <= payload_offset h -> 0 <= payload_size h <= memory_size h ->
  payload_offset h + payload_size h <= f_size f ->
  0 <= load_address h -> load_address h + memory_size h < 2 ^ 64 ->
  (Z.to_nat ((payload_size h + 4095) / 4096) < fuel)%nat ->
  exists s, boot_copy_kernel fuel (Some fs) (Some f) (Some h) buf m io = Ok (Some s, StatusOK) /\
    mem_eq (cp_mem s) (mem_block m (load_address h) (image fs h io cs)) /\
    same_medium io (cp_io s) /\ length (g_copy_buffer s) = 4096%nat.
Proof. intros. by apply copy_kernel_ok. Qed.

(** A header with a payload of 4 GiB that ends, modulo 2^64, at byte 80. *)
Definition wrapping_header (target : BootTarget) : KernelImageHeader :=
  mkHeader KERNEL_IMAGE_MAGIC 1 80 183 0 (load_phys_base target) 0 0
    (2 ^ 64 - 2 ^ 32 + 80) (2 ^ 32) (2 ^ 32) 0.

(** a header that wraps hangs the loader.  For every target there is a
    header that [boot_validate_header] accepts for any file of 80 bytes or more
    and with which the copy loop never ends: the end of the payload is computed
    modulo 2^64, and the first chunk, computed modulo 2^32, is empty. *)
Theorem boot_copy_kernel_wrap_hangs target fs f buf m (io : BootIo D) :
  0 <= load_phys_base target < 2 ^ 63 -> load_phys_base target mod 4096 = 0 ->
  80 <= f_size f < 2 ^ 32 ->
  boot_validate_header target (Some (wrapping_header target)) (f_size f) = StatusOK /\
  forall fuel,
    boot_copy_kernel fuel (Some fs) (Some f) (Some (wrapping_header target)) buf m io = NoFuel.
Proof.
  intros Ht Hal Hs. split.
  - apply validate_header_spec; [|lia|].
    + split; repeat (apply List.Forall_cons; [simpl; lia|]); apply List.Forall_nil.
    + unfold header_ok, wrapping_header; simpl. split_and!; try done; try lia.
      match goal with |- u64 ?x <= _ => replace (u64 x) with 80 by reflexivity end. lia.
  - intros fuel. unfold boot_copy_kernel, bootfs_seek.
    replace (u32 (payload_offset (wrapping_header target))) with 80 by reflexivity.
    destruct (Z.ltb_spec (f_size f) 80); [lia|]. simpl. by rewrite copy_loop_stuck.
Qed.

(** ** The whole sequence *)

(** The medium holds a bootable image: the volume, the root directory's chain,
    the kernel's directory record and cluster chain, and a valid header. *)
Record bootable (target : BootTarget) (io : BootIo D) (plba : Z) (rcs : list Z)
    (base : list Z) (e : BootFsFat32DirEntry) (cs : list Z) : Prop := {
  bt_good : io_good io;
  bt_volume : volume_lba io = Some plba;
  bt_sector : valid_boot_sector (sector io plba) = true;
  bt_root : fat_chain (volume_at plba (sector io plba)) io
              (root_cluster (boot_sector (volume_at plba (sector io plba)))) rcs;
  bt_path : kernel_path target = path_of base None;
  bt_base : Forall name_char base /\ (0 < length base <= 8)%nat;
  bt_entry : dir_lookup (volume_at plba (sector io plba)) io (fat83 base []) rcs = inr e;
  bt_chain : fat_path (volume_at plba (sector io plba)) io cs;
  bt_first : cs !! 0%nat = Some (u32 (Z.lor (Z.shiftl (de_cluster_hi e) 16) (de_cluster_lo e)));
  bt_size : 80 <= de_size e < 2 ^ 32;
  bt_fits : de_size e <= len cs * cluster_size (volume_at plba (sector io plba))
}.

(** The volume and the header of such a medium. *)
Definition boot_volume (io : BootIo D) (plba : Z) : BootFs := volume_at plba (sector io plba).
Definition boot_header (io : BootIo D) (plba : Z) (cs : list Z) : KernelImageHeader :=
  header_of_bytes (slice (chain_bytes (boot_volume io plba) io cs) 0 80).

(** A valid header whose payload does not wrap. *)
Definition header_sound (target : BootTarget) (h : KernelImageHeader) (size : Z) : Prop :=
  header_ok target h size /\ payload_offset h + payload_size h < 2 ^ 64.

(** The console text of a successful boot. *)
Definition boot_log : list Z :=
  concat (map (fun t => crlf (trace_prefix ++ t ++ [10]))
    [cstr "UART console ready"; cstr "block device ready"; cstr "mounting FAT32 boot volume";
     cstr "FAT32 boot volume ready"; cstr "enabling MMU for higher-half kernel handoff";
     cstr "jumping to loaded kernel entry point"]).

Lemma crlf_app a b : crlf (a ++ b) = crlf a ++ crlf b.
Proof. unfold crlf. by rewrite map_app, concat_app. Qed.

Lemma cstr_bytes s : bytes (cstr s).
Proof.
  unfold cstr, bytes. rewrite List.Forall_map, List.Forall_forall. intros a _.
  unfold is_byte. pose proof (Ascii.nat_ascii_bounded a). lia.
Qed.

Lemma trace_ok msg (s : BootState D C) :
  bytes msg -> console_live (bs_console s) ->
  exists c, trace msg s = Ok (set_console c s) /\ console_live c /\
    console_sent c = console_sent (bs_console s) ++ crlf (trace_prefix ++ msg ++ [10]).
Proof.
  intros Hb Hl. unfold trace, boot_trace.
  destruct (console_puts_ok trace_prefix (bs_console s)) as (c1 & -> & Hl1 & Hs1);
    [apply cstr_bytes|done|]. cbn [bind].
  destruct (console_puts_ok msg c1) as (c2 & -> & Hl2 & Hs2); [done..|]. cbn [bind].
  destruct (console_puts_ok [10] c2) as (c3 & -> & Hl3 & Hs3); [by repeat constructor|done|].
  cbn [bind]. exists c3. split_and!; [done|done|].
  by rewrite Hs3, Hs2, Hs1, !crlf_app, !app_assoc.
Qed.

(** The read of the header into the stack object. *)
Lemma read_header_ok fs f (io : BootIo D) cs stack_header :
  fs_wf fs -> holds_file fs io f cs -> f_offset f = 0 -> 80 <= f_size f < 2 ^ 32 ->
  length stack_header = 80%nat ->
  exists io' f', bootfs_read (Some fs) (Some f) (Some stack_header) 80 io =
      Ok (io', Some f', Some (slice (chain_bytes fs io cs) 0 80), 80) /\
    f_size f' = f_size f /\ holds_file fs io' f' cs /\ same_medium io io'.
Proof.
  intros Hfs Hh Ho Hs Hl.
  destruct (read_holds fs f stack_header 80 io cs) as (io' & f' & Hr & _ & Hs' & Hh' & Hm);
    [done|done|lia..|].
  cbv zeta in Hr. rewrite Ho, Z.sub_0_r in Hr.
  replace (Z.min 80 (Z.max 0 (f_size f))) with 80 in Hr by lia.
  exists io', f'. split_and!; try done. rewrite Hr. do 3 f_equal. unfold splice. rewrite take_0. simpl.
  rewrite drop_ge; [by rewrite app_nil_r|].
  rewrite length_slice; [lia|]. rewrite chain_bytes_length by apply Hh.
  destruct Hfs as [H1 H2], Hh as (_ & _ & _ & Hf). unfold spc. nia.
Qed.

Lemma bootable_typed target (io : BootIo D) plba rcs base e cs :
  bootable target io plba rcs base e cs -> header_typed (boot_header io plba cs).
Proof.
  intros [Hg _ Hv _ _ _ _ _ _ Hs Hf]. apply header_of_bytes_typed.
  - apply bytes_slice. unfold chain_bytes, bytes. apply Forall_concat, List.Forall_map, Forall_true.
    intros c. unfold cluster_bytes. apply Forall_concat, List.Forall_map, Forall_true. intros k.
    apply dev_sector_bytes, Hg.
  - apply length_slice. rewrite chain_bytes_length by apply Hg.
    assert (fs_wf (boot_volume io plba)) as [H1 H2]
      by (apply volume_at_wf; [apply dev_sector_bytes, Hg|done]).
    unfold boot_volume, spc in *. nia.
Qed.

(** The description depends on the medium only. *)
Lemma boot_volume_medium (io io' : BootIo D) plba :
  same_medium io io' -> boot_volume io' plba = boot_volume io plba.
Proof. intros Hm. unfold boot_volume, sector. by rewrite Hm. Qed.

Lemma bootable_fs_wf target (io : BootIo D) plba rcs base e cs :
  bootable target io plba rcs base e cs -> fs_wf (boot_volume io plba).
Proof. intros [Hg _ Hv]. apply volume_at_wf; [apply dev_sector_bytes, Hg|done]. Qed.

Lemma dir_lookup_medium fs (io io' : BootIo D) name cs :
  same_medium io io' -> dir_lookup fs io' name cs = dir_lookup fs io name cs.
Proof.
  intros Hm. unfold dir_lookup. do 3 f_equal. apply map_ext. intros c. by apply cluster_entries_medium.
Qed.

Lemma bootable_medium target (io io' : BootIo D) plba rcs base e cs :
  same_medium io io' -> io_good io' ->
  bootable target io plba rcs base e cs -> bootable target io' plba rcs base e cs.
Proof.
  intros Hm Hg' [Hg Hvol Hsec Hroot Hpath Hb He Hch Hfirst Hsz Hfit].
  assert (forall l, sector io' l = sector io l) as Hs by (intros l; apply Hm).
  split; unfold volume_lba; rewrite ?Hs; try done.
  - by apply (fat_chain_medium _ io).
  - by rewrite (dir_lookup_medium _ io) by done.
  - by apply (fat_path_medium _ io).
Qed.

Lemma image_medium fs h (io io' : BootIo D) cs :
  same_medium io io' -> image fs h io' cs = image fs h io cs.
Proof. intros Hm. unfold image, payload. by rewrite (chain_bytes_medium _ io io') by done. Qed.

(** Loading from the medium: everything between mounting and the MMU. *)
Lemma boot_load_ok target (io : BootIo D) plba rcs base e cs find_fuel stack_header f0 :
  bootable target io plba rcs base e cs -> (length rcs < find_fuel)%nat ->
  length stack_header = 80%nat ->
  exists io1 io2 f1 f2,
    bootfs_open find_fuel (Some (boot_volume io plba)) (Some (kernel_path target)) (Some f0) io =
      Ok (io1, inr f1) /\ f_size f1 = de_size e /\
    bootfs_read (Some (boot_volume io plba)) (Some f1) (Some stack_header) 80 io1 =
      Ok (io2, Some f2, Some (slice (chain_bytes (boot_volume io plba) io cs) 0 80), 80) /\
    f_size f2 = de_size e /\ holds_file (boot_volume io plba) io2 f2 cs /\ same_medium io io2.
Proof.
  intros [Hg Hvol Hsec Hroot Hpath [Hb1 Hb2] He Hch Hfirst Hsz Hfit] Hff Hl.
  assert (fs_wf (boot_volume io plba)) as Hfs
    by (apply volume_at_wf; [apply dev_sector_bytes, Hg|done]).
  destruct (open_good (boot_volume io plba) f0 io base None rcs find_fuel)
    as (io1 & Hg1 & Hm1 & Hop); try done; try apply List.Forall_nil; try (simpl; lia).
  fold (boot_volume io plba) in *. rewrite Hpath, Hop. simpl default. rewrite He. cbn [open_result].
  set (c := u32 _) in *. cbv zeta.
  destruct (read_header_ok (boot_volume io plba) (mkBootFsFile c c 0 (de_size e) 0) io1 cs stack_header)
    as (io2 & f2 & Hr & Hs2 & Hh2 & Hm2); try done.
  { split; [done|]. split; [by apply (fat_path_medium _ io)|]. split; [|done]. by split_and!. }
  exists io1, io2, (mkBootFsFile c c 0 (de_size e) 0), f2.
  rewrite (chain_bytes_medium _ io io1) in Hr by done.
  split_and!; try done. by eapply same_medium_trans.
Qed.

(** One statement of [boot_main] on the successful path, from the hypotheses. *)
Ltac boot_step :=
  match goal with
  | |- context [bind (Ok ?a) ?k] => rewrite (bind_ok a k)
  | |- context [trace (cstr ?m) ?s] =>
      destruct (trace_ok (cstr m) s) as (? & -> & ? & ?); [apply cstr_bytes|done|]
  | H : ?x = Ok _ |- context [bind ?x _] => rewrite H
  | io := mkBootIo ?d ?b |- context [mkBootIo ?d ?b] => change (mkBootIo d b) with io
  | H : (f_size ?f <? 80) = false |- context [f_size ?f <? 80] => rewrite H
  | H : boot_validate_header _ _ _ = StatusOK |- context [boot_validate_header _ _ _] => rewrite H
  | |- context [80 =? 80] => change (80 =? 80) with true
  | |- context [bool_decide (?a = ?a)] => rewrite (bool_decide_eq_true_2 (a = a)) by done
  | |- context [negb ?b] => progress cbn [negb]
  | |- _ => progress cbn [set_console set_io set_mem set_mmu bs_console bs_io bs_copy_buffer bs_mem
                          bs_tables bs_regs io_dev g_sector_buffer] in *
  end.

(** The higher-half alias of a mapped address outside the device window. *)
Lemma expected_high board va pa :
  va = HIGH_BASE + pa -> 0 <= pa < mapped_limit board -> BOOT_MMU_DEVICE_LIMIT board <= pa ->
  (if va <? 2 ^ 48 then expected board va
   else if HIGH_BASE <=? va then expected board (va - HIGH_BASE) else None) =
  Some (mkTranslation pa 0xFF true false).
Proof.
  intros -> Hp Hd. unfold HIGH_BASE. destruct (Z.ltb_spec (18446462598732840960 + pa) (2 ^ 48)); [lia|].
  destruct (Z.leb_spec 18446462598732840960 (18446462598732840960 + pa)); [|lia].
  replace (18446462598732840960 + pa - 18446462598732840960) with pa by lia.
  unfold expected, in_device_window. destruct (Z.ltb_spec pa (mapped_limit board)); [|lia].
  destruct (Z.ltb_spec pa (BOOT_MMU_DEVICE_LIMIT board)); [lia|]. by rewrite andb_false_r.
Qed.

(** C24: a bootable medium boots.  If the device comes up healthy and the medium
    holds a valid image (directory entry, cluster chain, header), [boot_main]
    reaches the jump to the header's entry point: it prints its six lines,
    memory is changed only by the image (payload then zeroes at the load
    address), and the tables left for the kernel make the image's higher-half
    address range reach the loaded bytes, so the first instruction fetched is
    the one at the entry point's offset in the image. *)
Theorem boot_main_boots init board addr target stack_header find_fuel copy_fuel
    (s : BootState D C) d plba rcs base e cs :
  let io := mkBootIo d (g_sector_buffer (bs_io s)) in
  let h := boot_header io plba cs in
  console_live (bs_console s) -> init (io_dev (bs_io s)) = Ok (StatusOK, d) ->
  bootable target io plba rcs base e cs -> header_sound target h (de_size e) ->
  (length rcs < find_fuel)%nat -> (Z.to_nat ((payload_size h + 4095) / 4096) < copy_fuel)%nat ->
  length stack_header = 80%nat -> length (bs_copy_buffer s) = 4096%nat ->
  board_ok board -> tables_placed addr -> tables_sized (bs_tables s) ->
  exists s', boot_main init board addr target stack_header find_fuel copy_fuel s =
      Ok (Jump (entry_point h) h, s') /\
    console_sent (bs_console s') = console_sent (bs_console s) ++ boot_log /\
    mem_eq (bs_mem s')
      (mem_block (bs_mem s) (load_address h) (image (boot_volume io plba) h io cs)) /\
    (image_base h = HIGH_BASE + load_address h ->
     load_address h + memory_size h <= mapped_limit board ->
     BOOT_MMU_DEVICE_LIMIT board <= load_address h ->
     translate addr (bs_tables s') (bs_regs s') (entry_point h) =
       Some (mkTranslation (load_address h + (entry_point h - image_base h)) 0xFF true false)).
Proof.
  intros io h Hlive Hinit Hboot [Hok Hwrap] Hff Hcf Hsh Hcb Hbd Htp Hts.
  pose proof (bootable_typed _ _ _ _ _ _ _ Hboot) as [_ Hty]. fold h in Hty. inv_foralls.
  pose proof Hok as (_ & _ & _ & Hhs & Hpm & Hmem & Hpe & Hal & Hla & Hle & Hent & Hib).
  rewrite u64_small in Hpe by lia. pose proof (bt_size _ _ _ _ _ _ _ Hboot) as Hbs.
  destruct (init_good (mkBootFs 0 (mkBootSector 0 0 0 0 0 0 (replicate 8 0)) 0 0 0) io)
    as (io1 & Hg1 & Hm1 & Hi); [apply Hboot|].
  rewrite (bt_volume _ _ _ _ _ _ _ Hboot), (bt_sector _ _ _ _ _ _ _ Hboot) in Hi.
  fold (boot_volume io plba) in Hi.
  destruct (boot_load_ok target io1 plba rcs base e cs find_fuel stack_header (mkBootFsFile 0 0 0 0 0))
    as (io2 & io3 & f1 & f2 & Hop & Hsz1 & Hrd & Hsz2 & Hh3 & Hm3); [|done|done|].
  { by apply (bootable_medium target io). }
  rewrite (boot_volume_medium io io1) in Hop, Hrd, Hh3 by done.
  rewrite (chain_bytes_medium _ io io1) in Hrd by done.
  destruct (copy_kernel_ok copy_fuel (boot_volume io plba) f2 h (bs_copy_buffer s) (bs_mem s) io3 cs)
    as (cst & Hcp & Hmm & _); [by eapply bootable_fs_wf|done|lia|done|lia|lia|lia|lia|lia|done|].
  destruct (boot_enable_mmu_translate board addr (bs_tables s) (bs_regs s)) as (t' & r' & Hmmu & Htr);
    [done..|].
  assert ((f_size f1 <? 80) = false) as Hlt by (apply Z.ltb_ge; lia).
  assert (boot_validate_header target (Some h) (f_size f2) = StatusOK) as Hval
    by (apply validate_header_spec; [by eapply bootable_typed|lia|by rewrite Hsz2]).
  unfold boot_main, sizeof_KernelImageHeader.
  destruct (console_init_ok (bs_console s) Hlive) as (c0 & Hci & Hl0 & Hs0).
  repeat boot_step.
  change (header_of_bytes (slice (chain_bytes (boot_volume io plba) io cs) 0 80)) with h.
  repeat boot_step.
  eexists. split; [reflexivity|]. cbn [set_console set_io set_mem set_mmu bs_console bs_mem bs_tables bs_regs].
  split_and!.
  - unfold boot_log. cbn [map concat]. rewrite app_nil_r.
    repeat match goal with H : console_sent ?x = _ |- context [console_sent ?x] => rewrite H end.
    by rewrite <- !app_assoc.
  - by rewrite Hmm, (image_medium _ _ io io3) by eauto using same_medium_trans.
  - intros Hhb Hml Hdl. rewrite Htr by lia. apply expected_high; lia.
Qed.
End Boot.
