(* ===== verification/BootExample.v ===== *)
(** A small FAT32 volume in memory and the loader's theorems at work on it: the
    witnesses of the properties of [BootFat32Spec], [BootConsole] and [BootMainSpec].

    One sector per cluster: the boot sector at LBA 0, one FAT at LBA 1, the root
    directory in cluster 2 (LBA 2) and a 600-byte file KERNEL in clusters 3 and 4. *)
From stdpp Require Import base list numbers strings.
From Stdlib Require Import ZArith Lia.
From S2P Require Import Prelude BlockIface BootFat32 BootFat32Proofs BootFat32Spec.
From S2P Require Import BootMmu BootConsole BootMain BootMainSpec.

Local Open Scope Z_scope.

(** A sector holding the given blocks at the given offsets. *)
Definition sector_of (blocks : list (nat * list Z)) : list Z :=
  fold_left (fun s b => splice s (fst b) (snd b)) blocks zero_sector.

Definition ex_boot_sector : list Z :=
  sector_of [(11%nat, [0; 2; 1; 1; 0; 1]); (36%nat, [1]); (44%nat, [2]);
             (82%nat, fat32_tag); (510%nat, [0x55; 0xAA])].

Definition ex_fat : list Z :=
  sector_of [(8%nat, [0xFF; 0xFF; 0xFF; 0x0F; 4; 0; 0; 0; 0xFF; 0xFF; 0xFF; 0x0F])].

(** "KERNEL     " *)
Definition ex_name : list Z := [75; 69; 82; 78; 69; 76; 32; 32; 32; 32; 32].

Definition ex_root : list Z :=
  sector_of [(0%nat, ex_name ++ [0x20]); (26%nat, [3; 0; 88; 2])].

(** The kernel image: an 80-byte header (load and image base 0x40100000, entry
    four bytes in, 520 bytes of payload, 1024 bytes of memory), then the payload. *)
Definition ex_header : list Z :=
  [75; 69; 82; 78; 69; 76; 0; 0] ++ [1; 0; 0; 0] ++ [80; 0; 0; 0] ++ [183; 0; 0; 0] ++
  [0; 0; 0; 0] ++ [0; 0; 0x10; 0x40; 0; 0; 0; 0] ++ [0; 0; 0x10; 0x40; 0; 0; 0xFF; 0xFF] ++
  [4; 0; 0x10; 0x40; 0; 0; 0xFF; 0xFF] ++ [80; 0; 0; 0; 0; 0; 0; 0] ++
  [8; 2; 0; 0; 0; 0; 0; 0] ++ [0; 4; 0; 0; 0; 0; 0; 0] ++ [0; 16; 0; 0; 0; 0; 0; 0].

Definition ex_payload : list Z := map (fun k => (Z.of_nat k * 7) mod 251) (seq 0 520).

Definition ex_data : list Z := ex_header ++ ex_payload.

Definition ex_disk : RamDisk :=
  mkRamDisk [ex_boot_sector; ex_fat; ex_root;
             sector_of [(0%nat, take 512 ex_data)]; sector_of [(0%nat, drop 512 ex_data)]].

Definition ex_io : BootIo RamDisk := mkBootIo ex_disk zero_sector.
Definition ex_fs : BootFs := volume_at 0 ex_boot_sector.
Definition ex_file : BootFsFile := mkBootFsFile 3 3 0 600 0.
Definition ex_buffer : list Z := replicate 700 0.

(** A root directory that leads back to itself: the FAT entry of cluster 2 is 2
    and its sixteen records are all in use. *)
Definition ex_cyclic_disk : RamDisk :=
  mkRamDisk [ex_boot_sector; sector_of [(8%nat, [2; 0; 0; 0])]; replicate 512 0x41].

Definition ex_cyclic_io : BootIo RamDisk := mkBootIo ex_cyclic_disk zero_sector.

(** ** The hypotheses hold *)
Definition ram_wfb (d : RamDisk) : bool :=
  forallb (fun s => (Nat.eqb (length s) 512) && forallb byteb s) (ram_sectors d).

Lemma ram_wfb_spec d : ram_wfb d = true -> ram_wf d.
Proof.
  unfold ram_wfb, ram_wf. rewrite forallb_forall, List.Forall_forall. intros Hd s Hs.
  specialize (Hd s Hs). apply andb_true_iff in Hd as [Hl Hb].
  split; [by apply Nat.eqb_eq|]. unfold bytes. rewrite List.Forall_forall.
  rewrite forallb_forall in Hb. intros b Hin. by apply byteb_spec, Hb.
Qed.

Lemma ram_io_good d : ram_wfb d = true -> io_good (mkBootIo d zero_sector).
Proof.
  intros Hd%ram_wfb_spec. split; [|done]. split; [done|]. split; [done|].
  apply Forall_replicate. by unfold is_byte.
Qed.

Lemma ex_io_good : io_good ex_io.
Proof. apply ram_io_good. vm_compute. reflexivity. Qed.

Lemma ex_cyclic_good : io_good ex_cyclic_io.
Proof. apply ram_io_good. vm_compute. reflexivity. Qed.

Lemma ex_fs_wf : fs_wf ex_fs.
Proof. vm_compute. auto. Qed.

Lemma ex_holds : holds_file ex_fs ex_io ex_file [3; 4].
Proof.
  split; [apply ex_io_good|]. split; [|split].
  - split; [do 2 (apply List.Forall_cons; [by vm_compute|]); apply List.Forall_nil|].
    intros [|[|k]] c c' Hc Hc'; simplify_eq/=. vm_compute. reflexivity.
  - split_and!; [done|done|]. done.
  - vm_compute. discriminate.
Qed.

Lemma ex_chain : fat_chain ex_fs ex_io 2 [2].
Proof.
  apply chain_next; [by vm_compute|]. apply chain_end.
  replace (fat_value ex_fs ex_io 2) with 268435455 by (vm_compute; reflexivity).
  intros [_ H]. by vm_compute in H.
Qed.

(** ** Witnesses *)
Lemma bootfs_read_witness :
  exists io' f', bootfs_read (Some ex_fs) (Some ex_file) (Some ex_buffer) 700 ex_io =
    Ok (io', Some f', Some (splice ex_buffer 0 ex_data), 600).
Proof.
  destruct (bootfs_read_returns_file_slice ex_fs ex_file ex_buffer 700 ex_io [3; 4])
    as (io' & f' & Hr & _).
  - exact ex_fs_wf.
  - exact ex_holds.
  - vm_compute. discriminate.
  - vm_compute. reflexivity.
  - vm_compute. split; discriminate.
  - exists io', f'. rewrite Hr. vm_compute. reflexivity.
Defined.

Lemma bootfs_read_safe_witness :
  exists io' f' b' ret, bootfs_read (Some ex_fs) (Some ex_file) (Some ex_buffer) 700 ex_io =
    Ok (io', Some f', Some b', ret) /\ length b' = 700%nat.
Proof.
  destruct (bootfs_read_safe ex_fs ex_file ex_buffer 700 ex_io)
    as (io' & f' & b' & ret & Hr & Hl & _).
  - exact ex_fs_wf.
  - exact (proj1 ex_io_good).
  - vm_compute. discriminate.
  - vm_compute. reflexivity.
  - vm_compute. split; discriminate.
  - exists io', f', b', ret. split; [exact Hr|]. rewrite Hl. apply length_replicate.
Defined.

Lemma bootfs_init_witness :
  exists io', bootfs_init (Some ex_fs) ex_io = Ok (io', inr ex_fs).
Proof.
  destruct (bootfs_init_mounts ex_fs ex_io ex_io_good) as (io' & _ & _ & Hr).
  exists io'. rewrite Hr. vm_compute. reflexivity.
Defined.

Lemma bootfs_init_wf_witness :
  exists io' r, bootfs_init (Some ex_fs) ex_io = Ok (io', r) /\ io_wf io'.
Proof.
  destruct (bootfs_init_wf ex_fs ex_io (proj1 ex_io_good)) as (io' & r & Hr & Hw & _).
  exists io', r. exact (conj Hr Hw).
Defined.

Lemma bootfs_open_witness :
  exists io', bootfs_open 2 (Some ex_fs) (Some [47; 107; 101; 114; 110; 101; 108])
    (Some ex_file) ex_io = Ok (io', inr ex_file).
Proof.
  destruct (bootfs_open_finds_entry ex_fs ex_file ex_io [107; 101; 114; 110; 101; 108] None [2] 2)
    as (io' & _ & _ & Hr).
  - exact ex_fs_wf.
  - exact ex_io_good.
  - exact ex_chain.
  - repeat (apply List.Forall_cons; [by vm_compute|]). apply List.Forall_nil.
  - apply List.Forall_nil.
  - vm_compute. lia.
  - vm_compute. lia.
  - vm_compute. lia.
  - exists io'. etransitivity; [exact Hr|]. vm_compute. reflexivity.
Defined.

Lemma find_root_entry_cyclic_witness :
  bootfs_find_root_entry 1000 ex_fs ex_name ex_cyclic_io = NoFuel.
Proof.
  apply (find_root_entry_cyclic_hangs ex_fs ex_name [2]).
  - exact ex_fs_wf.
  - exact ex_cyclic_good.
  - reflexivity.
  - apply list_elem_of_singleton. reflexivity.
  - intros a Ha. apply list_elem_of_singleton in Ha. subst a. split; [by vm_compute|].
    split; [|vm_compute; reflexivity].
    replace (fat_value ex_fs ex_cyclic_io 2) with 2 by (vm_compute; reflexivity).
    apply list_elem_of_singleton. reflexivity.
Defined.

Lemma bootfs_seek_read_witness :
  exists f1 io' f2, bootfs_seek (Some ex_file) 80 = (StatusOK, Some f1) /\
    bootfs_read (Some ex_fs) (Some f1) (Some ex_buffer) 520 ex_io =
      Ok (io', Some f2, Some (splice ex_buffer 0 ex_payload), 520).
Proof.
  destruct (bootfs_seek_read ex_fs ex_file 80 ex_buffer 520 ex_io [3; 4])
    as (f1 & io' & f2 & Hs & Hr & _).
  - exact ex_fs_wf.
  - exact ex_holds.
  - vm_compute. split; discriminate.
  - vm_compute. reflexivity.
  - vm_compute. split; discriminate.
  - exists f1, io', f2. split; [exact Hs|]. rewrite Hr. vm_compute. reflexivity.
Defined.

(** ** The boot sequence *)

(** A UART whose transmitter is always ready. *)
Definition ex_uart : Uart := mkUart (fun _ => 0) (fun _ => 0) 0 [].

Lemma ex_uart_clears : uart_clears 1 0x20 ex_uart.
Proof. intros n. exists 0%nat. split; [lia|done]. Qed.

Lemma boot_console_puts_witness :
  exists u, boot_console_puts 1 (Some [72; 105; 10]) ex_uart = Ok u /\
    transmitted u = [72; 105; 13; 10].
Proof.
  destruct (boot_console_puts_transmits 1 [72; 105; 10] ex_uart) as (u & Hr & Ht).
  - repeat (apply List.Forall_cons; [by vm_compute|]). apply List.Forall_nil.
  - exact ex_uart_clears.
  - exists u. split; [exact Hr|]. rewrite Ht. reflexivity.
Defined.

Definition ex_image_header : KernelImageHeader := header_of_bytes ex_header.

Lemma ex_header_typed : header_typed ex_image_header.
Proof.
  apply header_of_bytes_typed; [|reflexivity].
  repeat (apply List.Forall_cons; [by vm_compute|]). apply List.Forall_nil.
Qed.

Lemma ex_header_ok : header_ok g_boot_target ex_image_header 600.
Proof.
  unfold header_ok. split_and!; try reflexivity; apply Z.leb_le || apply Z.ltb_lt; reflexivity.
Qed.

Lemma boot_validate_header_witness :
  boot_validate_header g_boot_target (Some ex_image_header) 600 = StatusOK.
Proof.
  apply (boot_validate_header_exact g_boot_target ex_image_header 600).
  - exact ex_header_typed.
  - vm_compute. discriminate.
  - exact ex_header_ok.
Defined.

Definition ex_addr : BootTables Z :=
  mkTables 0x40090000 0x40091000 0x40092000 0x40093000 0x40094000 0x40095000.
Definition ex_tables : BootTables (list Z) :=
  let t := replicate 512 7 in mkTables t t t t t t.
Definition ex_regs : SysRegs := mkSysRegs 0 0 0 0 0.

Lemma ex_placed : tables_placed ex_addr.
Proof.
  split.
  - apply (bool_decide_unpack (NoDup _)). vm_compute. exact I.
  - repeat (apply List.Forall_cons; [by vm_compute|]). apply List.Forall_nil.
Qed.

Lemma ex_sized : tables_sized ex_tables.
Proof. repeat (apply List.Forall_cons; [reflexivity|]). apply List.Forall_nil. Qed.

Lemma board_virt_ok : board_ok board_virt.
Proof. split_and!; [reflexivity|reflexivity|by vm_compute|by right]. Qed.

Lemma board_raspi3_ok : board_ok board_raspi3.
Proof. split_and!; [reflexivity|reflexivity|by vm_compute|by left]. Qed.

Lemma boot_enable_mmu_witness :
  exists t' r', boot_enable_mmu board_virt ex_addr ex_tables ex_regs = Ok (t', r') /\
    translate ex_addr t' r' 0xFFFF000009000018 = Some (mkTranslation 0x09000018 0x04 false false) /\
    translate ex_addr t' r' 0x40100004 = Some (mkTranslation 0x40100004 0xFF true false) /\
    translate ex_addr t' r' 0x80000000 = None.
Proof.
  destruct (boot_enable_mmu_maps board_virt ex_addr ex_tables ex_regs) as (t' & r' & Hr & Ht).
  - exact board_virt_ok.
  - exact ex_placed.
  - exact ex_sized.
  - exists t', r'. split; [exact Hr|].
    rewrite !Ht by (split; [apply Z.leb_le|apply Z.ltb_lt]; reflexivity).
    split; [|split]; reflexivity.
Defined.

Lemma boot_copy_kernel_witness :
  exists s, boot_copy_kernel 2 (Some ex_fs) (Some ex_file) (Some ex_image_header)
    (replicate 4096 0) (fun _ => 9) ex_io = Ok (Some s, StatusOK) /\
    cp_mem s 0x400FFFFF = 9 /\ cp_mem s 0x40100001 = 7 /\ cp_mem s 0x401003FF = 0 /\
    cp_mem s 0x40100400 = 9.
Proof.
  destruct (boot_copy_kernel_loads 2 ex_fs ex_file ex_image_header (replicate 4096 0) (fun _ => 9)
              ex_io [3; 4]) as (s & Hr & Hm & _).
  - exact ex_fs_wf.
  - exact ex_holds.
  - reflexivity.
  - apply length_replicate.
  - vm_compute. discriminate.
  - vm_compute. split; discriminate.
  - vm_compute. discriminate.
  - vm_compute. discriminate.
  - vm_compute. reflexivity.
  - vm_compute. lia.
  - exists s. split; [exact Hr|]. rewrite !Hm. split_and!; vm_compute; reflexivity.
Defined.

Lemma boot_copy_kernel_wrap_witness :
  boot_validate_header g_boot_target (Some (wrapping_header g_boot_target)) 600 = StatusOK /\
  forall fuel, boot_copy_kernel fuel (Some ex_fs) (Some ex_file)
    (Some (wrapping_header g_boot_target)) (replicate 4096 0) (fun _ => 0) ex_io = NoFuel.
Proof.
  apply (boot_copy_kernel_wrap_hangs g_boot_target ex_fs ex_file (replicate 4096 0) (fun _ => 0) ex_io).
  - vm_compute. split; [discriminate|reflexivity].
  - reflexivity.
  - vm_compute. split; [discriminate|reflexivity].
Defined.

Definition ex_state : BootState RamDisk Uart :=
  mkBootState ex_uart ex_io (replicate 4096 0) (fun _ => 9) ex_tables ex_regs.

Lemma ex_bootable :
  bootable g_boot_target ex_io 0 [2] (cstr "kernel") (mkDirEntry ex_name 0x20 0 3 600) [3; 4].
Proof.
  destruct ex_holds as (_ & Hp & _ & _). split.
  - exact ex_io_good.
  - vm_compute. reflexivity.
  - vm_compute. reflexivity.
  - exact ex_chain.
  - vm_compute. reflexivity.
  - split; [|vm_compute; lia].
    repeat (apply List.Forall_cons; [by vm_compute|]). apply List.Forall_nil.
  - vm_compute. reflexivity.
  - exact Hp.
  - vm_compute. reflexivity.
  - vm_compute. split; [discriminate|reflexivity].
  - vm_compute. discriminate.
Qed.

Lemma ex_boot_header : boot_header ex_io 0 [3; 4] = ex_image_header.
Proof. vm_compute. reflexivity. Qed.

Lemma boot_main_witness :
  exists s', @boot_main RamDisk _ Uart (uart_console 1) (fun d => Ok (StatusOK, d)) board_virt ex_addr
      g_boot_target (replicate 80 0) 2 2 ex_state =
      Ok (Jump 0xFFFF000040100004 ex_image_header, s') /\
    bs_mem s' 0x40100004 = 28 /\ bs_mem s' 0x40100400 = 9 /\
    translate ex_addr (bs_tables s') (bs_regs s') 0xFFFF000040100004 =
      Some (mkTranslation 0x40100004 0xFF true false).
Proof.
  destruct (@boot_main_boots RamDisk _ _ Uart (uart_console 1) (uart_console_laws 1)
    (fun d => Ok (StatusOK, d)) board_virt ex_addr g_boot_target (replicate 80 0) 2 2 ex_state
    ex_disk 0 [2] (cstr "kernel") (mkDirEntry ex_name 0x20 0 3 600) [3; 4])
    as (s' & Hr & _ & Hm & Ht).
  - exact ex_uart_clears.
  - reflexivity.
  - exact ex_bootable.
  - cbv zeta. change (mkBootIo _ _) with ex_io. rewrite ex_boot_header.
    split; [exact ex_header_ok|]. vm_compute. reflexivity.
  - simpl. lia.
  - cbv zeta. change (mkBootIo _ _) with ex_io. rewrite ex_boot_header. vm_compute. lia.
  - reflexivity.
  - apply length_replicate.
  - exact board_virt_ok.
  - exact ex_placed.
  - exact ex_sized.
  - cbv zeta in Hr, Hm, Ht. change (mkBootIo _ _) with ex_io in Hr, Hm, Ht.
    rewrite ex_boot_header in Hr, Hm, Ht.
    exists s'. split; [exact Hr|]. rewrite !Hm. split; [vm_compute; reflexivity|].
    split; [vm_compute; reflexivity|].
    apply Ht; [reflexivity|vm_compute; discriminate|vm_compute; discriminate].
Defined.
