(* ===== verification/VirtioBlk.v ===== *)
(** The virtio-mmio block driver of the bootloader
    (kernel/bootloader/block_device.c, virt board).

    The driver's static objects are [BlkMem], which the device shares by DMA, and
    the rest of [BlkState].  The hardware is a parameter: [VirtioHw] gives the
    register file and one step of device activity on the shared memory, which
    the model takes once per poll of the used ring; [BlkEnv] gives the
    architectural counter as a stream of readings, its frequency, CTR_EL0 and the
    addresses of the static objects.  Register accesses, cache maintenance and
    barriers are recorded in order in [bk_trace].  The polling loop takes fuel. *)
From stdpp Require Import base list numbers strings.
From Stdlib Require Import ZArith Lia.
From S2P Require Import Prelude BlockIface.

Local Open Scope Z_scope.

(** ** Registers and constants *)
Definition VIRTIO_MMIO_BASE : Z := 0x0A000000.
Definition VIRTIO_MMIO_STRIDE : Z := 0x200.
Definition VIRTIO_MMIO_MAGIC_VALUE : Z := 0x000.
Definition VIRTIO_MMIO_VERSION : Z := 0x004.
Definition VIRTIO_MMIO_DEVICE_ID : Z := 0x008.
Definition VIRTIO_MMIO_VENDOR_ID : Z := 0x00C.
Definition VIRTIO_MMIO_DEVICE_FEATURES : Z := 0x010.
Definition VIRTIO_MMIO_DEVICE_FEATURES_SEL : Z := 0x014.
Definition VIRTIO_MMIO_DRIVER_FEATURES : Z := 0x020.
Definition VIRTIO_MMIO_DRIVER_FEATURES_SEL : Z := 0x024.
Definition VIRTIO_MMIO_QUEUE_SEL : Z := 0x030.
Definition VIRTIO_MMIO_QUEUE_NUM_MAX : Z := 0x034.
Definition VIRTIO_MMIO_QUEUE_NUM : Z := 0x038.
Definition VIRTIO_MMIO_QUEUE_READY : Z := 0x044.
Definition VIRTIO_MMIO_QUEUE_NOTIFY : Z := 0x050.
Definition VIRTIO_MMIO_INTERRUPT_STATUS : Z := 0x060.
Definition VIRTIO_MMIO_INTERRUPT_ACK : Z := 0x064.
Definition VIRTIO_MMIO_STATUS : Z := 0x070.
Definition VIRTIO_MMIO_QUEUE_DESC_LOW : Z := 0x080.
Definition VIRTIO_MMIO_QUEUE_DESC_HIGH : Z := 0x084.
Definition VIRTIO_MMIO_QUEUE_AVAIL_LOW : Z := 0x090.
Definition VIRTIO_MMIO_QUEUE_AVAIL_HIGH : Z := 0x094.
Definition VIRTIO_MMIO_QUEUE_USED_LOW : Z := 0x0A0.
Definition VIRTIO_MMIO_QUEUE_USED_HIGH : Z := 0x0A4.
Definition VIRTIO_MAGIC : Z := 0x74726976.
Definition VIRTIO_VERSION_1 : Z := 2.
Definition VIRTIO_DEVICE_ID_BLOCK : Z := 2.
Definition VIRTIO_VENDOR_QEMU : Z := 0x554D4551.
Definition VIRTIO_STATUS_ACKNOWLEDGE : Z := 0x01.
Definition VIRTIO_STATUS_DRIVER : Z := 0x02.
Definition VIRTIO_STATUS_DRIVER_OK : Z := 0x04.
Definition VIRTIO_STATUS_FEATURES_OK : Z := 0x08.
Definition VIRTIO_STATUS_FAILED : Z := 0x80.
Definition VIRTIO_F_VERSION_1 : Z := 32.
Definition VIRTQ_DESC_F_NEXT : Z := 1.
Definition VIRTQ_DESC_F_WRITE : Z := 2.
Definition VIRTIO_BLK_T_IN : Z := 0.
Definition VIRTIO_BLK_STATUS_OK : Z := 0.
Definition VIRTIO_BLK_SECTOR_SIZE : Z := 512.
Definition VIRTIO_BLK_QUEUE_SIZE : Z := 8.
Definition VIRTIO_BLK_SLOT_COUNT : Z := 32.
Definition VIRTIO_BLK_TIMEOUT_MSEC : Z := 1000.

(** ** Data *)
Record VirtqDesc : Type := mkVirtqDesc { d_addr : Z; d_len : Z; d_flags : Z; d_next : Z }.
Record VirtqAvail : Type := mkVirtqAvail {
  av_flags : Z; av_idx : Z; av_ring : list Z; used_event : Z }.
Record VirtqUsed : Type := mkVirtqUsed {
  us_flags : Z; us_idx : Z; us_ring : list (Z * Z); avail_event : Z }.
Record VirtioBlkRequest : Type := mkRequest { rq_type : Z; rq_reserved : Z; rq_sector : Z }.

(** The objects the device reads and writes; [bm_buffer] is the 512-byte window
    of the caller's buffer of the request in flight and [bm_window] its address. *)
Record BlkMem : Type := mkBlkMem {
  g_desc_table : list VirtqDesc;
  g_avail : VirtqAvail;
  g_used : VirtqUsed;
  g_request : VirtioBlkRequest;
  g_status_byte : Z;
  bm_buffer : list Z;
  bm_window : Z
}.

Record BlkAddr : Type := mkBlkAddr {
  a_desc : Z; a_avail : Z; a_used : Z; a_request : Z; a_status : Z; a_buffer : Z }.

(** What the driver does to the machine. *)
Inductive BlkEvent : Type :=
| EvRead (addr : Z)
| EvWrite (addr value : Z)
| EvClean (line : Z)
| EvInvalidate (line : Z)
| EvBarrier.

(** ** The hardware *)
Class VirtioHw (H : Type) : Type := {
  mmio_read : H -> Z -> Z;
  mmio_write : H -> Z -> Z -> H;
  hw_step : H -> BlkMem -> BlkMem * H
}.

Record BlkEnv : Type := mkBlkEnv {
  e_counter : nat -> Z;
  e_frequency : Z;
  e_ctr : Z;
  e_addr : BlkAddr
}.

Record BlkState (H : Type) : Type := mkBlkState {
  bk_mem : BlkMem;
  g_last_used_idx : Z;
  g_slot_index : Z;
  g_block_ready : bool;
  bk_hw : H;
  bk_counter_reads : nat;
  bk_trace : list BlkEvent;
  bk_console : list Z
}.
Arguments mkBlkState {H}.
Arguments bk_mem {H}.
Arguments g_last_used_idx {H}.
Arguments g_slot_index {H}.
Arguments g_block_ready {H}.
Arguments bk_hw {H}.
Arguments bk_counter_reads {H}.
Arguments bk_trace {H}.
Arguments bk_console {H}.

(** ** Diagnostics *)

(** The digits are collected least significant first and printed in reverse. *)
Fixpoint u32_digits (fuel : nat) (value : Z) (digits : list Z) : Exec (list Z) :=
  match fuel with
  | O => NoFuel
  | S fuel' =>
      if 0 <? value then
        if len digits <? 10 then u32_digits fuel' (value / 10) (digits ++ [48 + value mod 10])
        else Undef
      else Ok digits
  end.

Definition boot_block_put_u32 (value : Z) (out : list Z) : Exec (list Z) :=
  if value =? 0 then Ok (out ++ [48]) else
  ds <- u32_digits 11 value [] ;; Ok (out ++ rev ds).

Definition k_hex_digits : list Z := cstr "0123456789abcdef".

Definition boot_block_put_hex_u32 (value : Z) (out : list Z) : Exec (list Z) :=
  for_range 8 0
    (fun k out => c <- aget k_hex_digits (Z.land (Z.shiftr value (28 - 4 * k)) 0xF) ;; Ok (out ++ [c]))
    (out ++ cstr "0x").

Section Driver.
Context {H : Type} `{VirtioHw H}.
Context (env : BlkEnv).

Implicit Types (s : BlkState H).

(** ** Field updates *)
Definition bk_set_mem (f : BlkMem -> BlkMem) s : BlkState H :=
  mkBlkState (f (bk_mem s)) (g_last_used_idx s) (g_slot_index s) (g_block_ready s) (bk_hw s)
    (bk_counter_reads s) (bk_trace s) (bk_console s).
Definition bk_set_last (i : Z) s : BlkState H :=
  mkBlkState (bk_mem s) i (g_slot_index s) (g_block_ready s) (bk_hw s)
    (bk_counter_reads s) (bk_trace s) (bk_console s).
Definition bk_set_slot (i : Z) s : BlkState H :=
  mkBlkState (bk_mem s) (g_last_used_idx s) i (g_block_ready s) (bk_hw s)
    (bk_counter_reads s) (bk_trace s) (bk_console s).
Definition bk_set_ready (b : bool) s : BlkState H :=
  mkBlkState (bk_mem s) (g_last_used_idx s) (g_slot_index s) b (bk_hw s)
    (bk_counter_reads s) (bk_trace s) (bk_console s).
Definition bk_set_hw (h : H) s : BlkState H :=
  mkBlkState (bk_mem s) (g_last_used_idx s) (g_slot_index s) (g_block_ready s) h
    (bk_counter_reads s) (bk_trace s) (bk_console s).
Definition bk_emit (e : BlkEvent) s : BlkState H :=
  mkBlkState (bk_mem s) (g_last_used_idx s) (g_slot_index s) (g_block_ready s) (bk_hw s)
    (bk_counter_reads s) (bk_trace s ++ [e]) (bk_console s).
Definition bk_set_console (out : list Z) s : BlkState H :=
  mkBlkState (bk_mem s) (g_last_used_idx s) (g_slot_index s) (g_block_ready s) (bk_hw s)
    (bk_counter_reads s) (bk_trace s) out.

(** ** Counter and caches *)
Definition boot_block_read_counter s : Z * BlkState H :=
  (e_counter env (bk_counter_reads s),
   mkBlkState (bk_mem s) (g_last_used_idx s) (g_slot_index s) (g_block_ready s) (bk_hw s)
     (S (bk_counter_reads s)) (bk_trace s) (bk_console s)).

Definition boot_block_timeout_ticks (timeout_msec : Z) : Z :=
  let frequency := e_frequency env in
  if (frequency =? 0) || (timeout_msec =? 0) then 0
  else u64 (u64 (frequency * timeout_msec) + 999) / 1000.

Definition boot_block_cache_line_size : Z := u32 (Z.shiftl 4 (Z.land (Z.shiftr (e_ctr env) 16) 0xF)).

(** [x & ~(line_size - 1)] on 64 bits. *)
Definition align_down (x line_size : Z) : Z := Z.land x (u64 (Z.lnot (u64 (line_size - 1)))).

(** The loop over cache lines, [op] being DC CVAC or DC CIVAC. *)
Definition cache_range (op : Z -> BlkEvent) (address size : Z) s : Exec (BlkState H) :=
  if (address =? 0) || (size =? 0) then Ok s else
  let line_size := boot_block_cache_line_size in
  let start := align_down address line_size in
  let stop := align_down (u64 (u64 (u64 (address + size) + line_size) - 1)) line_size in
  s <- iterate (S (Z.to_nat (stop - start)))
         (fun '(b, s) => if b <? stop then Ok (inl (u64 (b + line_size), bk_emit (op b) s))
                         else Ok (inr s)) (start, s) ;;
  Ok (bk_emit EvBarrier s).

Definition boot_block_cache_clean_range (address size : Z) s : Exec (BlkState H) :=
  cache_range EvClean address size s.
Definition boot_block_cache_invalidate_range (address size : Z) s : Exec (BlkState H) :=
  cache_range EvInvalidate address size s.

Definition boot_block_barrier s : BlkState H := bk_emit EvBarrier s.

(** ** Registers *)
Definition boot_block_reg s (offset : Z) : Z :=
  u64 (u64 (VIRTIO_MMIO_BASE + u64 (g_slot_index s * VIRTIO_MMIO_STRIDE)) + offset).

Definition boot_block_read_reg (offset : Z) s : Z * BlkState H :=
  (u32 (mmio_read (bk_hw s) (boot_block_reg s offset)), bk_emit (EvRead (boot_block_reg s offset)) s).

Definition boot_block_write_reg (offset value : Z) s : BlkState H :=
  bk_emit (EvWrite (boot_block_reg s offset) value)
    (bk_set_hw (mmio_write (bk_hw s) (boot_block_reg s offset) value) s).

Definition boot_block_write_addr (low_offset high_offset address : Z) s : BlkState H :=
  boot_block_write_reg high_offset (u32 (Z.shiftr address 32))
    (boot_block_write_reg low_offset (u32 (Z.land address 0xffffffff)) s).

(** ** Discovery *)

(** The short-circuit test of one slot: a register is read only if the ones
    before it matched. *)
Definition slot_matches s : bool * BlkState H :=
  let '(v, s) := boot_block_read_reg VIRTIO_MMIO_MAGIC_VALUE s in
  if negb (v =? VIRTIO_MAGIC) then (false, s) else
  let '(v, s) := boot_block_read_reg VIRTIO_MMIO_VERSION s in
  if negb (v =? VIRTIO_VERSION_1) then (false, s) else
  let '(v, s) := boot_block_read_reg VIRTIO_MMIO_DEVICE_ID s in
  (v =? VIRTIO_DEVICE_ID_BLOCK, s).

Fixpoint find_slots (n : nat) s : Status * BlkState H :=
  match n with
  | O => (StatusNotFound, s)
  | S n' =>
      let '(b, s) := slot_matches s in
      if b then (StatusOK, s) else find_slots n' (bk_set_slot (g_slot_index s + 1) s)
  end.

Definition boot_block_find_device s : Status * BlkState H :=
  find_slots (Z.to_nat VIRTIO_BLK_SLOT_COUNT) (bk_set_slot 0 s).

(** ** Requests *)

(** The used index, assembled from its two bytes. *)
Definition used_index (m : BlkMem) : Z :=
  let b0 := u8 (us_idx (g_used m)) in
  let b1 := u8 (Z.shiftr (us_idx (g_used m)) 8) in
  u16 (Z.lor b0 (Z.shiftl b1 8)).

Definition boot_block_log_timeout (sector used irq : Z) s : Exec (BlkState H) :=
  o <- boot_block_put_u32 sector
         (bk_console s ++ cstr "[bootloader] virtio-blk request timed out sector=") ;;
  o <- boot_block_put_u32 used (o ++ cstr " used=") ;;
  o <- boot_block_put_u32 (g_last_used_idx s) (o ++ cstr " last=") ;;
  o <- boot_block_put_u32 (av_idx (g_avail (bk_mem s))) (o ++ cstr " avail=") ;;
  o <- boot_block_put_hex_u32 (g_status_byte (bk_mem s)) (o ++ cstr " status=") ;;
  o <- boot_block_put_hex_u32 irq (o ++ cstr " irq=") ;;
  o <- boot_block_put_u32 (g_slot_index s) (o ++ cstr " slot=") ;;
  Ok (bk_set_console (o ++ [10]) s).

Definition sizeof_request : Z := 16.
Definition sizeof_desc_table : Z := 4096.
Definition sizeof_avail : Z := 22.
Definition sizeof_used : Z := 70.

(** The three descriptors of a read of one sector into [buffer]. *)
Definition request_chain (buffer : Z) : list VirtqDesc :=
  let a := e_addr env in
  [mkVirtqDesc (a_request a) sizeof_request VIRTQ_DESC_F_NEXT 1;
   mkVirtqDesc buffer VIRTIO_BLK_SECTOR_SIZE (Z.lor VIRTQ_DESC_F_NEXT VIRTQ_DESC_F_WRITE) 2;
   mkVirtqDesc (a_status a) 1 VIRTQ_DESC_F_WRITE 0].

(** Filling in the request, the status byte and the descriptors. *)
Definition prepare_request (sector buffer : Z) (m : BlkMem) : Exec BlkMem :=
  match request_chain buffer with
  | [d0; d1; d2] =>
      t <- aset (g_desc_table m) 0 d0 ;;
      t <- aset t 1 d1 ;;
      t <- aset t 2 d2 ;;
      Ok (mkBlkMem t (g_avail m) (g_used m) (mkRequest VIRTIO_BLK_T_IN 0 sector) 0xff (bm_buffer m) (bm_window m))
  | _ => Undef
  end.

(** Publishing descriptor 0: the ring slot, then the index. *)
Definition publish_slot (m : BlkMem) : Exec BlkMem :=
  let a := g_avail m in
  r <- aset (av_ring a) (av_idx a mod VIRTIO_BLK_QUEUE_SIZE) 0 ;;
  Ok (mkBlkMem (g_desc_table m) (mkVirtqAvail (av_flags a) (av_idx a) r (used_event a))
        (g_used m) (g_request m) (g_status_byte m) (bm_buffer m) (bm_window m)).

Definition publish_index (m : BlkMem) : BlkMem :=
  let a := g_avail m in
  mkBlkMem (g_desc_table m) (mkVirtqAvail (av_flags a) (u16 (av_idx a + 1)) (av_ring a) (used_event a))
    (g_used m) (g_request m) (g_status_byte m) (bm_buffer m) (bm_window m).

(** One turn of the completion loop; the device acts before the used ring is
    read.  [inr None] is the timeout. *)
Definition poll_step (buffer start_ticks timeout_ticks : Z) s
  : Exec (BlkState H + BlkState H * option Status) :=
  let '(m, h) := hw_step (bk_hw s) (bk_mem s) in
  let s := bk_set_hw h (bk_set_mem (fun _ => m) s) in
  s <- boot_block_cache_invalidate_range (a_used (e_addr env)) sizeof_used s ;;
  s <- boot_block_cache_invalidate_range (a_status (e_addr env)) 1 s ;;
  let s := boot_block_barrier s in
  let used := used_index (bk_mem s) in
  if negb (used =? g_last_used_idx s) then
    let s := bk_set_last used s in
    let '(irq, s) := boot_block_read_reg VIRTIO_MMIO_INTERRUPT_STATUS s in
    let s := boot_block_write_reg VIRTIO_MMIO_INTERRUPT_ACK irq s in
    s <- boot_block_cache_invalidate_range buffer VIRTIO_BLK_SECTOR_SIZE s ;;
    Ok (inr (s, Some (if g_status_byte (bk_mem s) =? VIRTIO_BLK_STATUS_OK
                      then StatusOK else StatusIoError)))
  else if timeout_ticks =? 0 then Ok (inl s)
  else
    let '(now, s) := boot_block_read_counter s in
    if timeout_ticks <=? u64 (now - start_ticks) then Ok (inr (s, None)) else Ok (inl s).

Definition boot_block_submit (fuel : nat) (sector buffer : Z) s : Exec (BlkState H * Status) :=
  let '(start_ticks, s) := boot_block_read_counter s in
  let timeout_ticks := boot_block_timeout_ticks VIRTIO_BLK_TIMEOUT_MSEC in
  let a := e_addr env in
  m <- prepare_request sector buffer (bk_mem s) ;;
  let s := bk_set_mem (fun _ => m) s in
  s <- boot_block_cache_invalidate_range buffer VIRTIO_BLK_SECTOR_SIZE s ;;
  s <- boot_block_cache_invalidate_range (a_status a) 1 s ;;
  s <- boot_block_cache_invalidate_range (a_used a) sizeof_used s ;;
  s <- boot_block_cache_clean_range (a_request a) sizeof_request s ;;
  s <- boot_block_cache_clean_range (a_desc a) sizeof_desc_table s ;;
  m <- publish_slot (bk_mem s) ;;
  let s := boot_block_barrier (bk_set_mem (fun _ => m) s) in
  let s := bk_set_mem publish_index s in
  s <- boot_block_cache_clean_range (a_avail a) sizeof_avail s ;;
  let s := boot_block_barrier s in
  let s := boot_block_write_reg VIRTIO_MMIO_QUEUE_NOTIFY 0 s in
  '(s, r) <- iterate fuel (poll_step buffer start_ticks timeout_ticks) s ;;
  match r with
  | Some st => Ok (s, st)
  | None =>
      let s := bk_set_ready false s in
      let used := used_index (bk_mem s) in
      let '(irq, s) := boot_block_read_reg VIRTIO_MMIO_INTERRUPT_STATUS s in
      s <- boot_block_log_timeout sector used irq s ;;
      Ok (s, StatusBusy)
  end.

(** ** Initialisation *)
Definition zero_mem (m : BlkMem) : BlkMem :=
  mkBlkMem (replicate 8 (mkVirtqDesc 0 0 0 0)) (mkVirtqAvail 0 0 (replicate 8 0) 0)
    (mkVirtqUsed 0 0 (replicate 8 (0, 0)) 0) (g_request m) (g_status_byte m) (bm_buffer m) (bm_window m).

Definition boot_block_init s : Exec (Status * BlkState H) :=
  let a := e_addr env in
  let s := bk_set_ready false (bk_set_last 0 (bk_set_mem zero_mem s)) in
  let '(st, s) := boot_block_find_device s in
  if negb (bool_decide (st = StatusOK)) then Ok (StatusNotFound, s) else
  let '(v, s) := boot_block_read_reg VIRTIO_MMIO_VENDOR_ID s in
  if negb (v =? VIRTIO_VENDOR_QEMU) then Ok (StatusNotSupported, s) else
  let s := boot_block_write_reg VIRTIO_MMIO_STATUS 0 s in
  let status := Z.lor 0 VIRTIO_STATUS_ACKNOWLEDGE in
  let s := boot_block_write_reg VIRTIO_MMIO_STATUS status s in
  let status := Z.lor status VIRTIO_STATUS_DRIVER in
  let s := boot_block_write_reg VIRTIO_MMIO_STATUS status s in
  let s := boot_block_write_reg VIRTIO_MMIO_DEVICE_FEATURES_SEL 1 s in
  let '(v, s) := boot_block_read_reg VIRTIO_MMIO_DEVICE_FEATURES s in
  if Z.land v (Z.shiftl 1 (VIRTIO_F_VERSION_1 - 32)) =? 0 then
    Ok (StatusNotSupported, boot_block_write_reg VIRTIO_MMIO_STATUS (Z.lor status VIRTIO_STATUS_FAILED) s)
  else
  let s := boot_block_write_reg VIRTIO_MMIO_DRIVER_FEATURES_SEL 0 s in
  let s := boot_block_write_reg VIRTIO_MMIO_DRIVER_FEATURES 0 s in
  let s := boot_block_write_reg VIRTIO_MMIO_DRIVER_FEATURES_SEL 1 s in
  let s := boot_block_write_reg VIRTIO_MMIO_DRIVER_FEATURES (Z.shiftl 1 (VIRTIO_F_VERSION_1 - 32)) s in
  let status := Z.lor status VIRTIO_STATUS_FEATURES_OK in
  let s := boot_block_write_reg VIRTIO_MMIO_STATUS status s in
  let '(v, s) := boot_block_read_reg VIRTIO_MMIO_STATUS s in
  if Z.land v VIRTIO_STATUS_FEATURES_OK =? 0 then
    Ok (StatusNotSupported, boot_block_write_reg VIRTIO_MMIO_STATUS (Z.lor status VIRTIO_STATUS_FAILED) s)
  else
  let s := boot_block_write_reg VIRTIO_MMIO_QUEUE_SEL 0 s in
  let '(v, s) := boot_block_read_reg VIRTIO_MMIO_QUEUE_NUM_MAX s in
  if v <? VIRTIO_BLK_QUEUE_SIZE then
    Ok (StatusNoSpace, boot_block_write_reg VIRTIO_MMIO_STATUS (Z.lor status VIRTIO_STATUS_FAILED) s)
  else
  let s := boot_block_write_reg VIRTIO_MMIO_QUEUE_NUM VIRTIO_BLK_QUEUE_SIZE s in
  let s := boot_block_write_addr VIRTIO_MMIO_QUEUE_DESC_LOW VIRTIO_MMIO_QUEUE_DESC_HIGH (a_desc a) s in
  let s := boot_block_write_addr VIRTIO_MMIO_QUEUE_AVAIL_LOW VIRTIO_MMIO_QUEUE_AVAIL_HIGH (a_avail a) s in
  let s := boot_block_write_addr VIRTIO_MMIO_QUEUE_USED_LOW VIRTIO_MMIO_QUEUE_USED_HIGH (a_used a) s in
  let s := boot_block_write_reg VIRTIO_MMIO_QUEUE_READY 1 s in
  let s := boot_block_barrier s in
  let status := Z.lor status VIRTIO_STATUS_DRIVER_OK in
  let s := boot_block_write_reg VIRTIO_MMIO_STATUS status s in
  Ok (StatusOK, bk_set_ready true s).

(** ** Reading *)

(** The 512 bytes the next request is for, and where they lie. *)
Definition set_window (b : list Z) (addr : Z) s : BlkState H :=
  bk_set_mem (fun m => mkBlkMem (g_desc_table m) (g_avail m) (g_used m) (g_request m)
                         (g_status_byte m) b addr) s.

(** The loop over sectors; the device writes the window of the caller's buffer
    the descriptor names. *)
Fixpoint read_sectors (n : nat) (fuel : nat) (lba index : Z) (b : list Z) s
  : Exec (Status * list Z * BlkState H) :=
  match n with
  | O => Ok (StatusOK, b, s)
  | S n' =>
      let off := index * VIRTIO_BLK_SECTOR_SIZE in
      if len b <? off + VIRTIO_BLK_SECTOR_SIZE then Undef else
      let s := set_window (slice b (Z.to_nat off) 512) (a_buffer (e_addr env) + off) s in
      '(s, st) <- boot_block_submit fuel (u32 (lba + index)) (u64 (a_buffer (e_addr env) + off)) s ;;
      let b := splice b (Z.to_nat off) (bm_buffer (bk_mem s)) in
      if negb (bool_decide (st = StatusOK)) then Ok (st, b, s)
      else read_sectors n' fuel lba (index + 1) b s
  end.

Definition virtio_read (fuel : nat) (lba sector_count : Z) (buffer : option (list Z)) s
  : Exec (Status * option (list Z) * BlkState H) :=
  match buffer with
  | None => Ok (StatusInvalidArgument, None, s)
  | Some b =>
      if negb (g_block_ready s) || (sector_count =? 0) then Ok (StatusInvalidArgument, Some b, s)
      else
        '(st, b, s) <- read_sectors (Z.to_nat sector_count) fuel lba 0 b s ;;
        Ok (st, Some b, s)
  end.

Definition boot_block_is_ready s : bool := g_block_ready s.
End Driver.
