(* ===== verification/VirtioBlkSpec.v ===== *)
(** The contract of the virtio block driver: what the virtio specification says
    of a device that has completed its handshake, and what the driver then
    guarantees.  The last section discharges [BlockDeviceLaws].

    A simulated virtio block device and the driver's theorems at work on it.

    The simulation answers the handshake at slot 3 and completes the outstanding
    request at the first poll with the sector of a RAM disk. *)
From stdpp Require Import base list numbers strings.
From Stdlib Require Import ZArith Lia.
From S2P Require Import Prelude BlockIface VirtioBlk VirtioBlkProofs.

Local Open Scope Z_scope.

(** ** The device, as the specification documents it *)

(** The descriptor [i]: an address, a length, and how it continues. *)
Definition descriptor_at (m : BlkMem) (i : Z) (d : VirtqDesc) : Prop :=
  g_desc_table m !! Z.to_nat i = Some d.

(** A read request is published: the newest ring slot names a descriptor for the
    16 bytes of the request, chained (flag 1) to one for the 512 bytes of the
    caller's window, which the device may write (flag 2), chained to one for the
    status byte, which it may write.  The addresses are what the device has to
    go by: a chain that names another place is not a request the laws below speak
    of. *)
Definition published (a : BlkAddr) (m : BlkMem) : Prop :=
  (exists d0 d1 d2, descriptor_at m 0 d0 /\ descriptor_at m (d_next d0) d1 /\
     descriptor_at m (d_next d1) d2 /\
     (d_addr d0 = a_request a /\ d_len d0 = 16 /\ d_flags d0 = 1) /\
     (d_addr d1 = bm_window m /\ d_len d1 = 512 /\ d_flags d1 = 3) /\
     (d_addr d2 = a_status a /\ d_len d2 = 1 /\ d_flags d2 = 2)) /\
  av_ring (g_avail m) !! Z.to_nat (u16 (av_idx (g_avail m) - 1) mod 8) = Some 0 /\
  rq_type (g_request m) = VIRTIO_BLK_T_IN /\
  length (us_ring (g_used m)) = 8%nat /\
  us_idx (g_used m) = u16 (av_idx (g_avail m) - 1).

(** Completing it: the data, the status and one used element. *)
Definition complete (m : BlkMem) (data : list Z) (st : Z) : BlkMem :=
  mkBlkMem (g_desc_table m) (g_avail m)
    (mkVirtqUsed (us_flags (g_used m)) (u16 (us_idx (g_used m) + 1))
       (<[Z.to_nat (us_idx (g_used m) mod 8) := (0, 513)]> (us_ring (g_used m)))
       (avail_event (g_used m)))
    (g_request m) st data (bm_window m).

(** *** The handshake *)
Definition reg_at (slot off : Z) : Z := VIRTIO_MMIO_BASE + slot * VIRTIO_MMIO_STRIDE + off.

(** The register writes of a successful initialisation, in order: reset,
    ACKNOWLEDGE, DRIVER, feature negotiation, FEATURES_OK, the queue and its
    addresses, DRIVER_OK. *)
Definition handshake_features : list (Z * Z) :=
  [(VIRTIO_MMIO_STATUS, 0); (VIRTIO_MMIO_STATUS, 1); (VIRTIO_MMIO_STATUS, 3);
   (VIRTIO_MMIO_DEVICE_FEATURES_SEL, 1)].
Definition handshake_accept : list (Z * Z) :=
  [(VIRTIO_MMIO_DRIVER_FEATURES_SEL, 0); (VIRTIO_MMIO_DRIVER_FEATURES, 0);
   (VIRTIO_MMIO_DRIVER_FEATURES_SEL, 1); (VIRTIO_MMIO_DRIVER_FEATURES, 1); (VIRTIO_MMIO_STATUS, 11)].
Definition handshake_queue (a : BlkAddr) : list (Z * Z) :=
  [(VIRTIO_MMIO_QUEUE_NUM, 8);
   (VIRTIO_MMIO_QUEUE_DESC_LOW, a_desc a mod 2 ^ 32);
   (VIRTIO_MMIO_QUEUE_DESC_HIGH, a_desc a / 2 ^ 32);
   (VIRTIO_MMIO_QUEUE_AVAIL_LOW, a_avail a mod 2 ^ 32);
   (VIRTIO_MMIO_QUEUE_AVAIL_HIGH, a_avail a / 2 ^ 32);
   (VIRTIO_MMIO_QUEUE_USED_LOW, a_used a mod 2 ^ 32);
   (VIRTIO_MMIO_QUEUE_USED_HIGH, a_used a / 2 ^ 32);
   (VIRTIO_MMIO_QUEUE_READY, 1); (VIRTIO_MMIO_STATUS, 15)].

Definition handshake (a : BlkAddr) : list (Z * Z) :=
  handshake_features ++ handshake_accept ++ [(VIRTIO_MMIO_QUEUE_SEL, 0)] ++ handshake_queue a.

(** The register file after a list of writes at a slot. *)
Definition after_writes {H : Type} `{VirtioHw H} (slot : Z) (ws : list (Z * Z)) (h : H) : H :=
  fold_left (fun h w => mmio_write h (reg_at slot (fst w)) (snd w)) ws h.

(** The slot holds a block device of the supported version. *)
Definition block_slot {H : Type} `{VirtioHw H} (h : H) (slot : Z) : bool :=
  (u32 (mmio_read h (reg_at slot VIRTIO_MMIO_MAGIC_VALUE)) =? VIRTIO_MAGIC) &&
  (u32 (mmio_read h (reg_at slot VIRTIO_MMIO_VERSION)) =? VIRTIO_VERSION_1) &&
  (u32 (mmio_read h (reg_at slot VIRTIO_MMIO_DEVICE_ID)) =? VIRTIO_DEVICE_ID_BLOCK).

(** The device's answers to the handshake: vendor, VERSION_1 offered,
    FEATURES_OK kept, a large enough queue. *)
Definition offers_version_1 {H : Type} `{VirtioHw H} (h : H) (slot : Z) : bool :=
  negb (Z.land (u32 (mmio_read (after_writes slot handshake_features h)
                       (reg_at slot VIRTIO_MMIO_DEVICE_FEATURES))) 1 =? 0).
Definition keeps_features_ok {H : Type} `{VirtioHw H} (h : H) (slot : Z) : bool :=
  negb (Z.land (u32 (mmio_read (after_writes slot (handshake_features ++ handshake_accept) h)
                       (reg_at slot VIRTIO_MMIO_STATUS))) 8 =? 0).
Definition has_queue {H : Type} `{VirtioHw H} (h : H) (slot : Z) : bool :=
  8 <=? u32 (mmio_read (after_writes slot (handshake_features ++ handshake_accept ++
               [(VIRTIO_MMIO_QUEUE_SEL, 0)]) h) (reg_at slot VIRTIO_MMIO_QUEUE_NUM_MAX)).
Definition qemu_vendor {H : Type} `{VirtioHw H} (h : H) (slot : Z) : bool :=
  u32 (mmio_read h (reg_at slot VIRTIO_MMIO_VENDOR_ID)) =? VIRTIO_VENDOR_QEMU.

(** [hw_live a slot h]: the device in [slot] has accepted DRIVER_OK with its
    queue at [a].  [hw_good h]: it also answers every request without error,
    after at most [hw_latency h] further polls. *)
Class VirtioLaws (H : Type) `{VirtioHw H} : Type := {
  hw_live : BlkAddr -> Z -> H -> Prop;
  hw_good : H -> Prop;
  hw_latency : H -> nat;
  hw_medium : H -> Z -> list Z;
  hw_medium_len : forall h l, length (hw_medium h l) = 512%nat;
  hw_medium_bytes : forall h l, bytes (hw_medium h l);
  (** a block device that accepts the handshake is running afterwards *)
  hw_handshake : forall a slot h, 0 <= slot < 32 -> block_slot h slot = true ->
    offers_version_1 h slot = true -> keeps_features_ok h slot = true -> has_queue h slot = true ->
    hw_live a slot (after_writes slot (handshake a) h);
  hw_handshake_good : forall a slot h, hw_good h -> hw_good (after_writes slot (handshake a) h);
  (** registers do not reach the medium *)
  hw_write_medium : forall h r v l, hw_medium (mmio_write h r v) l = hw_medium h l;
  (** notifying and acknowledging keep the device running *)
  hw_write_live : forall a slot h off v, hw_live a slot h ->
    off = VIRTIO_MMIO_QUEUE_NOTIFY \/ off = VIRTIO_MMIO_INTERRUPT_ACK ->
    hw_live a slot (mmio_write h (VIRTIO_MMIO_BASE + slot * VIRTIO_MMIO_STRIDE + off) v);
  hw_write_good : forall a slot h off v, hw_live a slot h -> hw_good h ->
    off = VIRTIO_MMIO_QUEUE_NOTIFY \/ off = VIRTIO_MMIO_INTERRUPT_ACK ->
    hw_good (mmio_write h (VIRTIO_MMIO_BASE + slot * VIRTIO_MMIO_STRIDE + off) v);
  (** with one request outstanding the device either does nothing visible or
      completes it; a success status comes with the sector *)
  hw_step_live : forall a slot h m m' h', hw_live a slot h -> published a m ->
    hw_step h m = (m', h') ->
    hw_live a slot h' /\ (forall l, hw_medium h' l = hw_medium h l) /\
    (m' = m \/ exists data st, m' = complete m data st /\ length data = 512%nat /\ bytes data /\
       0 <= st < 256 /\ (st = 0 -> data = hw_medium h (rq_sector (g_request m))));
  hw_step_good : forall a slot h m m' h', hw_live a slot h -> hw_good h -> published a m ->
    hw_step h m = (m', h') ->
    hw_good h' /\
    ((exists data, m' = complete m data 0) \/ (m' = m /\ (hw_latency h' < hw_latency h)%nat))
}.

(** ** The environment *)

(** Every object lies in the address space with room for the last cache line. *)
Definition addr_ok (x : Z) : Prop := 0 < x /\ x + 2 ^ 18 < 2 ^ 64.

Definition timeout (env : BlkEnv) : Z := boot_block_timeout_ticks env VIRTIO_BLK_TIMEOUT_MSEC.

(** The counter runs: from any reading, the timeout is reached within [fuel]
    further readings. *)
Definition clock_runs (env : BlkEnv) (fuel : nat) : Prop :=
  timeout env <> 0 /\
  forall n, exists k, (k < fuel)%nat /\
    timeout env <= u64 (e_counter env (n + 1 + k) - e_counter env n).

(** And not so fast that a device answering within its latency times out. *)
Definition clock_allows (env : BlkEnv) (latency : nat) : Prop :=
  forall n k, (k <= latency)%nat -> u64 (e_counter env (n + 1 + k) - e_counter env n) < timeout env.

Definition env_ok (env : BlkEnv) : Prop :=
  let a := e_addr env in
  Forall addr_ok [a_desc a; a_avail a; a_used a; a_request a; a_status a; a_buffer a].

(** Evaluates the field updates and nothing else. *)
Ltac bk_simpl :=
  cbn [boot_block_write_reg boot_block_barrier bk_emit bk_log bk_set_hw bk_set_mem bk_set_last
       bk_set_ready bk_set_slot bk_set_console bk_mem bk_hw g_last_used_idx g_slot_index g_block_ready
       bk_counter_reads bk_trace bk_console fst snd].

Lemma reg_address {H : Type} (s : BlkState H) off :
  0 <= g_slot_index s < 32 -> 0 <= off < 512 ->
  boot_block_reg s off = VIRTIO_MMIO_BASE + g_slot_index s * VIRTIO_MMIO_STRIDE + off.
Proof.
  intros Hs Ho. unfold boot_block_reg, VIRTIO_MMIO_BASE, VIRTIO_MMIO_STRIDE.
  change 0x200 with 512. rewrite (u64_small (g_slot_index s * 512)) by lia.
  rewrite (u64_small (_ + g_slot_index s * 512)) by lia. by rewrite u64_small by lia.
Qed.

Section Submit.
Context {H : Type} `{HV : VirtioHw H} `{!VirtioLaws H}.
Context (env : BlkEnv) (fuel : nat).
Hypothesis Henv : env_ok env.
Hypothesis Hclock : clock_runs env fuel.
Implicit Types (s : BlkState H) (h : H).

(** Sizes and ranges of the driver's own objects. *)
Definition mem_wf (m : BlkMem) : Prop :=
  length (g_desc_table m) = 8%nat /\ length (av_ring (g_avail m)) = 8%nat /\
  length (us_ring (g_used m)) = 8%nat /\ 0 <= av_idx (g_avail m) < 2 ^ 16 /\
  0 <= us_idx (g_used m) < 2 ^ 16 /\ length (bm_buffer m) = 512%nat /\ bytes (bm_buffer m).

(** Between requests: nothing is outstanding and the device is running. *)
Definition idle s : Prop :=
  mem_wf (bk_mem s) /\ 0 <= g_slot_index s < 32 /\
  us_idx (g_used (bk_mem s)) = av_idx (g_avail (bk_mem s)) /\
  g_last_used_idx s = us_idx (g_used (bk_mem s)) /\
  hw_live (e_addr env) (g_slot_index s) (bk_hw s).

Lemma used_index_eq m : 0 <= us_idx (g_used m) < 2 ^ 16 -> used_index m = us_idx (g_used m).
Proof.
  intros Hr. unfold used_index. cbv zeta. set (x := us_idx (g_used m)) in *.
  rewrite Z.shiftr_div_pow2 by lia. change (2 ^ 8) with 256.
  rewrite (u8_small (x / 256)) by (split; [apply Z.div_pos; lia|apply Z.div_lt_upper_bound; lia]).
  rewrite lor_shiftl_add by (try apply u8_range; lia). unfold u8. change (2 ^ 8) with 256.
  rewrite u16_small; pose proof (Z.div_mod x 256); pose proof (Z.mod_pos_bound x 256); lia.
Qed.

Lemma complete_ne (m : BlkMem) data st :
  0 <= us_idx (g_used m) < 2 ^ 16 -> complete m data st <> m.
Proof.
  intros Hr E. apply (f_equal (fun x => us_idx (g_used x))) in E. cbn in E. unfold u16 in E.
  change (2 ^ 16) with 65536 in *. Z.div_mod_to_equations. lia.
Qed.

(** *** Waiting for completion *)
Section Poll.
Variables (m1 : BlkMem) (slot : Z) (ready : bool) (con : list Z) (h0 : H) (n0 K : nat) (buffer : Z).
Variable (G : Prop).
Hypothesis Hbuf : addr_ok buffer.
Hypothesis Hslot : 0 <= slot < 32.
Hypothesis Hus : 0 <= us_idx (g_used m1) < 2 ^ 16.
Hypothesis Hpub : published (e_addr env) m1.
Hypothesis HK : timeout env <= u64 (e_counter env (n0 + 1 + K) - e_counter env n0).
Hypothesis HG : G -> clock_allows env (hw_latency h0).

(** Nothing has changed but time and the device's inside. *)
Definition poll_inv s : Prop :=
  bk_mem s = m1 /\ g_last_used_idx s = us_idx (g_used m1) /\ g_slot_index s = slot /\
  g_block_ready s = ready /\ bk_console s = con /\
  hw_live (e_addr env) slot (bk_hw s) /\ (forall l, hw_medium (bk_hw s) l = hw_medium h0 l) /\
  (n0 + 1 <= bk_counter_reads s <= n0 + 1 + K)%nat /\
  (G -> hw_good (bk_hw s) /\
        (hw_latency (bk_hw s) + (bk_counter_reads s - (n0 + 1)) <= hw_latency h0)%nat).

Definition poll_post (r : BlkState H * option Status) : Prop :=
  let '(s, o) := r in
  g_slot_index s = slot /\ g_block_ready s = ready /\ bk_console s = con /\
  hw_live (e_addr env) slot (bk_hw s) /\ (forall l, hw_medium (bk_hw s) l = hw_medium h0 l) /\
  (G -> hw_good (bk_hw s) /\ o = Some StatusOK) /\
  match o with
  | Some st => exists data stb, bk_mem s = complete m1 data stb /\
      g_last_used_idx s = u16 (us_idx (g_used m1) + 1) /\ length data = 512%nat /\ bytes data /\
      (stb = 0 -> data = hw_medium h0 (rq_sector (g_request m1))) /\
      st = (if stb =? 0 then StatusOK else StatusIoError)
  | None => bk_mem s = m1 /\ g_last_used_idx s = us_idx (g_used m1)
  end.

Definition polls_left s : nat := (n0 + 1 + K - bk_counter_reads s)%nat.

(** The device completes during this poll. *)
Lemma poll_completed s m' h' data stb :
  poll_inv s -> hw_step (bk_hw s) m1 = (m', h') -> m' = complete m1 data stb ->
  length data = 512%nat -> bytes data ->
  (stb = 0 -> data = hw_medium h0 (rq_sector (g_request m1))) ->
  hw_live (e_addr env) slot h' -> (forall l, hw_medium h' l = hw_medium h0 l) ->
  (G -> hw_good h' /\ stb = 0) ->
  wp (poll_step env buffer (e_counter env n0) (timeout env) s)
    (fun r => match r with inl _ => False | inr x => poll_post x end) (fun _ => False).
Proof.
  intros (Hm & Hl & Hs & Hr & Hc & _) Hstep -> Hlen Hb Hd Hlive Hmed Hgood.
  pose proof Henv as Ha. unfold env_ok in Ha. inv_foralls. unfold addr_ok in *.
  unfold poll_step, boot_block_cache_invalidate_range. rewrite Hm, Hstep.
  rewrite cache_range_ok by (unfold sizeof_used; lia). cbn [bind].
  rewrite cache_range_ok by lia. cbn [bind].
  cbn [boot_block_barrier bk_emit bk_log bk_set_hw bk_set_mem bk_mem g_last_used_idx].
  assert (u16 (us_idx (g_used m1) + 1) <> us_idx (g_used m1)) as Hne.
  { unfold u16. change (2 ^ 16) with 65536 in *. Z.div_mod_to_equations. lia. }
  rewrite used_index_eq by (cbn [complete g_used us_idx]; apply u16_range).
  cbn [complete g_used us_idx]. rewrite Hl. apply Z.eqb_neq in Hne as ->. cbn [negb].
  cbn [boot_block_read_reg]. cbv zeta.
  rewrite cache_range_ok by (unfold VIRTIO_BLK_SECTOR_SIZE; lia). cbn [bind wp].
  split_and!; bk_simpl; try done.
  - rewrite reg_address by (unfold VIRTIO_MMIO_INTERRUPT_ACK; bk_simpl; lia). bk_simpl. rewrite Hs.
    apply hw_write_live; [done|by right].
  - intros l. rewrite hw_write_medium. apply Hmed.
  - intros HGt. destruct (Hgood HGt) as [? ->]. split; [|done].
    rewrite reg_address by (unfold VIRTIO_MMIO_INTERRUPT_ACK; bk_simpl; lia). bk_simpl. rewrite Hs.
    apply (hw_write_good (e_addr env)); [done|done|by right].
  - exists data, stb. by split_and!.
Qed.

(** The device does nothing visible during this poll. *)
Lemma poll_pending s h' :
  poll_inv s -> hw_step (bk_hw s) m1 = (m1, h') ->
  hw_live (e_addr env) slot h' -> (forall l, hw_medium h' l = hw_medium h0 l) ->
  (G -> hw_good h' /\ (hw_latency h' < hw_latency (bk_hw s))%nat) ->
  wp (poll_step env buffer (e_counter env n0) (timeout env) s)
    (fun r => match r with inl s' => poll_inv s' /\ (polls_left s' < polls_left s)%nat
                         | inr x => poll_post x end) (fun _ => False).
Proof.
  intros (Hm & Hl & Hs & Hr & Hc & _ & _ & Hn & Hg) Hstep Hlive Hmed Hgood.
  pose proof Henv as Ha. unfold env_ok in Ha. inv_foralls. unfold addr_ok in *.
  unfold poll_step, boot_block_cache_invalidate_range. rewrite Hm, Hstep.
  rewrite cache_range_ok by (unfold sizeof_used; lia). cbn [bind].
  rewrite cache_range_ok by lia. cbn [bind].
  cbn [boot_block_barrier bk_emit bk_log bk_set_hw bk_set_mem bk_mem g_last_used_idx].
  rewrite used_index_eq, Hl, Z.eqb_refl by done. cbn [negb].
  destruct Hclock as [Hz _]. apply Z.eqb_neq in Hz as ->.
  unfold boot_block_read_counter. cbn.
  destruct (Z.leb_spec (timeout env) (u64 (e_counter env (bk_counter_reads s) - e_counter env n0)))
    as [Hto|Hto]; cbn.
  - split_and!; try done. intros HGt. exfalso.
    destruct (Hgood HGt) as [_ Hlt], (Hg HGt) as [_ Hle].
    pose proof (HG HGt n0 (bk_counter_reads s - (n0 + 1))%nat ltac:(lia)) as Hall.
    replace (n0 + 1 + (bk_counter_reads s - (n0 + 1)))%nat with (bk_counter_reads s) in Hall by lia. lia.
  - assert (bk_counter_reads s <> n0 + 1 + K)%nat by (intros E; rewrite E in Hto; lia).
    split; [|unfold polls_left; simpl; lia]. split_and!; cbn; try done; try lia.
    intros HGt. destruct (Hgood HGt), (Hg HGt). split; [done|lia].
Qed.

Lemma wp_poll s :
  poll_inv s -> (polls_left s < fuel)%nat ->
  wp (iterate fuel (poll_step env buffer (e_counter env n0) (timeout env)) s) poll_post (fun _ => False).
Proof.
  intros Hi Hf. apply (wp_iterate _ _ _ poll_inv polls_left); [|done|done]. clear s Hi Hf. intros s Hi.
  pose proof Hi as (Hm & Hl & Hs & Hr & Hc & Hlive & Hmed & Hn & Hg).
  destruct (hw_step (bk_hw s) m1) as [m' h'] eqn:Hstep.
  destruct (hw_step_live _ _ _ _ _ _ Hlive Hpub Hstep) as (Hlive' & Hmed' & Hcase).
  assert (forall l, hw_medium h' l = hw_medium h0 l) as Hmed2 by (intros l; by rewrite Hmed', Hmed).
  assert (G -> hw_good h' /\ ((exists data, m' = complete m1 data 0) \/
    (m' = m1 /\ (hw_latency h' < hw_latency (bk_hw s))%nat))) as HGs.
  { intros HGt. by apply (hw_step_good _ _ _ _ _ _ Hlive (proj1 (Hg HGt)) Hpub). }
  assert (forall d t, complete m1 d t <> m1) as Hneq by (intros d t; apply complete_ne, Hus).
  destruct Hcase as [->|(data & stb & Hcm & Hlen & Hb & Hst & Hd)].
  - apply (poll_pending _ h'); try done. intros HGt. destruct (HGs HGt) as [? [[d E]|[_ ?]]]; [|done].
    by destruct (Hneq d 0).
  - eapply wp_post; [apply (poll_completed s m' h' data stb); try done|by intros [|]].
    + intros E. by rewrite (Hd E), Hmed.
    + intros HGt. destruct (HGs HGt) as [? [[d E]|[E _]]].
      * split; [done|]. rewrite Hcm in E. by injection E.
      * by rewrite Hcm in E; destruct (Hneq data stb).
Qed.
End Poll.

(** *** One request *)
Lemma u16_succ_pred x : 0 <= x < 2 ^ 16 -> u16 (u16 (x + 1) - 1) = x.
Proof. intros Hx. unfold u16. change (2 ^ 16) with 65536 in *. Z.div_mod_to_equations. lia. Qed.

(** Memory after the request is filled in and published. *)
Definition published_mem (sector buffer : Z) (m : BlkMem) : BlkMem :=
  mkBlkMem (request_chain env buffer ++ drop 3 (g_desc_table m))
    (mkVirtqAvail (av_flags (g_avail m)) (u16 (av_idx (g_avail m) + 1))
       (<[Z.to_nat (av_idx (g_avail m) mod 8) := 0]> (av_ring (g_avail m))) (used_event (g_avail m)))
    (g_used m) (mkRequest VIRTIO_BLK_T_IN 0 sector) 0xff (bm_buffer m) (bm_window m).

Lemma prepare_publish_ok sector buffer m :
  mem_wf m ->
  exists m0, prepare_request env sector buffer m = Ok m0 /\
    publish_slot m0 = Ok (mkBlkMem (g_desc_table m0) (mkVirtqAvail (av_flags (g_avail m))
      (av_idx (g_avail m)) (<[Z.to_nat (av_idx (g_avail m) mod 8) := 0]> (av_ring (g_avail m)))
      (used_event (g_avail m))) (g_used m0) (g_request m0) (g_status_byte m0) (bm_buffer m0) (bm_window m0)) /\
    g_desc_table m0 = request_chain env buffer ++ drop 3 (g_desc_table m) /\
    g_used m0 = g_used m /\ g_request m0 = mkRequest VIRTIO_BLK_T_IN 0 sector /\
    g_status_byte m0 = 0xff /\ bm_buffer m0 = bm_buffer m /\ bm_window m0 = bm_window m.
Proof.
  intros (Hd & Hr & _ & Hi & _). destruct m as [dt av us rq sb bf]. cbn in *.
  do 8 (destruct dt as [|? dt]; [done|]). destruct dt; [|done].
  eexists. split; [reflexivity|]. split; [|done].
  unfold publish_slot, VIRTIO_BLK_QUEUE_SIZE. cbn. rewrite aset_ok; [done|].
  rewrite Hr. pose proof (Z.mod_pos_bound (av_idx av) 8). lia.
Qed.

Lemma published_mem_published sector buffer m :
  mem_wf m -> us_idx (g_used m) = av_idx (g_avail m) -> bm_window m = buffer ->
  published (e_addr env) (published_mem sector buffer m).
Proof.
  intros (Hd & Hr & Hu & Hi & Hj & _) He Hw. unfold published, published_mem. cbn.
  rewrite (u16_succ_pred (av_idx (g_avail m))) by done. split_and!; try done.
  - do 3 eexists. split_and!; try reflexivity. by rewrite Hw.
  - apply list_lookup_insert_eq. rewrite Hr. pose proof (Z.mod_pos_bound (av_idx (g_avail m)) 8). lia.
Qed.

Lemma complete_wf m data st :
  mem_wf m -> length data = 512%nat -> bytes data -> mem_wf (complete m data st).
Proof.
  intros (Hd & Hr & Hu & Hi & Hj & _) Hl Hb. unfold complete. split_and!; cbn; try done.
  - by rewrite length_insert.
  - apply Hi.
  - apply Hi.
  - apply u16_range.
  - apply u16_range.
Qed.

Lemma published_mem_wf sector buffer m : mem_wf m -> mem_wf (published_mem sector buffer m).
Proof.
  intros (Hd & Hr & Hu & Hi & Hj & Hl & Hb). unfold published_mem. split_and!; cbn; try done.
  - rewrite length_drop. lia.
  - by rewrite length_insert.
  - apply u16_range.
  - apply u16_range.
  - apply Hj.
  - apply Hj.
Qed.

Lemma log_timeout_ok sector used irq s :
  0 <= sector < 2 ^ 32 -> 0 <= used < 2 ^ 32 -> 0 <= g_last_used_idx s < 2 ^ 32 ->
  0 <= av_idx (g_avail (bk_mem s)) < 2 ^ 32 -> 0 <= g_slot_index s < 2 ^ 32 ->
  exists o, boot_block_log_timeout sector used irq s = Ok (bk_set_console o s).
Proof.
  intros H1 H2 H3 H4 H5. unfold boot_block_log_timeout.
  repeat match goal with
  | |- context [boot_block_put_u32 ?v ?o] =>
      destruct (put_u32_ok v o ltac:(done)) as (? & -> & _); cbn [bind]
  | |- context [boot_block_put_hex_u32 ?v ?o] => rewrite (put_hex_ok v o); cbn [bind]
  end.
  by eexists.
Qed.

(** What a request leaves behind: on completion the driver is idle again and a
    success carries the sector; a timeout takes the driver out of service. *)
Definition submit_post (s0 : BlkState H) (sector : Z) (r : BlkState H * Status) : Prop :=
  let '(s, st) := r in
  g_slot_index s = g_slot_index s0 /\ mem_wf (bk_mem s) /\
  (forall l, hw_medium (bk_hw s) l = hw_medium (bk_hw s0) l) /\
  ((idle s /\ g_block_ready s = g_block_ready s0 /\ (st = StatusOK \/ st = StatusIoError)) \/
   (g_block_ready s = false /\ st = StatusBusy)) /\
  (st = StatusOK -> bm_buffer (bk_mem s) = hw_medium (bk_hw s0) sector) /\
  (hw_good (bk_hw s0) -> st = StatusOK /\ hw_good (bk_hw s)).

Hypothesis Hfits : forall h, hw_good h -> clock_allows env (hw_latency h).

Lemma poll_post_submit s0 sector buffer h r :
  idle s0 -> 0 <= sector < 2 ^ 32 -> (forall l, hw_medium h l = hw_medium (bk_hw s0) l) ->
  poll_post (published_mem sector buffer (bk_mem s0)) (g_slot_index s0) (g_block_ready s0)
    (bk_console s0) h (hw_good (bk_hw s0)) r ->
  wp (let '(s, r) := r in
      match r with
      | Some st => Ok (s, st)
      | None =>
          let s := bk_set_ready false s in
          let used := used_index (bk_mem s) in
          let '(irq, s) := boot_block_read_reg VIRTIO_MMIO_INTERRUPT_STATUS s in
          s <- boot_block_log_timeout sector used irq s ;;
          Ok (s, StatusBusy)
      end) (submit_post s0 sector) (fun _ => False).
Proof.
  intros (Hwf & Hslot & Hua & Hlast & Hlv) Hsec Hmed.
  pose proof (published_mem_wf sector buffer _ Hwf) as Hwf1.
  destruct r as [s o]. intros (Hs & Hr & Hc & Hlive & Hmed' & Hg & Hcase).
  assert (forall l, hw_medium (bk_hw s) l = hw_medium (bk_hw s0) l) as Hmed2
    by (intros l; by rewrite Hmed', Hmed).
  destruct o as [st|].
  - destruct Hcase as (data & stb & Hm & Hl & Hlen & Hb & Hd & Hst). cbn [wp submit_post].
    assert (mem_wf (bk_mem s)) as Hwf2 by (rewrite Hm; by apply complete_wf).
    split; [done|]. split; [done|]. split; [done|]. split; [left; split_and!|split].
    + split_and!; try done; try apply Hwf2; [by rewrite Hs; lia|by rewrite Hs; lia| | |by rewrite Hs].
      * rewrite Hm. cbn. rewrite Hua. done.
      * rewrite Hl, Hm. done.
    + done.
    + rewrite Hst. destruct (stb =? 0); [by left|by right].
    + intros ->. destruct (Z.eqb_spec stb 0) as [->|]; [|done]. rewrite Hm. cbn. rewrite Hd, Hmed; done.
    + intros HG. destruct (Hg HG) as [? [= ->]]. done.
  - destruct Hcase as [Hm Hl]. bk_simpl. cbn [boot_block_read_reg]. cbv zeta.
    rewrite Hm. rewrite used_index_eq by apply Hwf1.
    pose proof Hwf1 as (_ & _ & _ & Hi & Hj & _).
    match goal with |- context [boot_block_log_timeout ?a ?b ?c ?d] =>
      destruct (log_timeout_ok a b c d) as [out ->] end; bk_simpl; rewrite ?Hm, ?Hl, ?Hs; try lia.
    cbn [bind wp submit_post]. bk_simpl. rewrite Hm.
    split_and!; try done; [by right|]. intros HG. by destruct (Hg HG) as [_ ?].
Qed.

Lemma wp_submit sector buffer s :
  idle s -> 0 <= sector < 2 ^ 32 -> addr_ok buffer -> bm_window (bk_mem s) = buffer ->
  wp (boot_block_submit env fuel sector buffer s) (submit_post s sector) (fun _ => False).
Proof.
  intros Hidle Hsec Hbuf Hwin. pose proof Hidle as (Hwf & Hslot & Hua & Hlast & Hlive).
  pose proof Henv as Ha. unfold env_ok in Ha. inv_foralls. unfold addr_ok in *.
  unfold boot_block_submit, boot_block_read_counter. cbv zeta. bk_simpl.
  destruct (prepare_publish_ok sector buffer (bk_mem s) Hwf)
    as (m0 & -> & Hpub & Hd0 & Hu0 & Hr0 & Hs0 & Hb0 & Hw0). cbn [bind].
  unfold boot_block_cache_invalidate_range, boot_block_cache_clean_range.
  repeat (rewrite cache_range_ok by (unfold VIRTIO_BLK_SECTOR_SIZE, sizeof_used, sizeof_request,
    sizeof_desc_table, sizeof_avail; lia); cbn [bind]; bk_simpl).
  rewrite Hpub. cbn [bind]. bk_simpl.
  rewrite cache_range_ok by (unfold sizeof_avail; lia). cbn [bind]. bk_simpl.
  set (h1 := mmio_write (bk_hw s)
    (VIRTIO_MMIO_BASE + g_slot_index s * VIRTIO_MMIO_STRIDE + VIRTIO_MMIO_QUEUE_NOTIFY) 0).
  match goal with |- context [iterate _ _ ?x] => set (s1 := x) end.
  assert (bk_hw s1 = h1) as Hh1.
  { subst s1. bk_simpl. rewrite reg_address by (unfold VIRTIO_MMIO_QUEUE_NOTIFY; bk_simpl; lia). done. }
  assert (bk_mem s1 = published_mem sector buffer (bk_mem s)) as Hm1.
  { subst s1. bk_simpl. unfold published_mem, publish_index. cbn. by rewrite Hd0, Hu0, Hr0, Hs0, Hb0, Hw0. }
  pose proof Hclock as [Hz Hck]. destruct (Hck (bk_counter_reads s)) as (K & HK & Hto).
  assert (hw_good (bk_hw s) -> hw_good h1) as Hgd.
  { intros HG. apply (hw_write_good (e_addr env)); [done|done|by left]. }
  apply wp_bind. eapply wp_post.
  - apply (wp_poll (published_mem sector buffer (bk_mem s)) (g_slot_index s) (g_block_ready s)
      (bk_console s) h1 (bk_counter_reads s) K buffer (hw_good (bk_hw s))); try done.
    + unfold published_mem. cbn. apply Hwf.
    + by apply published_mem_published.
    + intros HG. by apply Hfits, Hgd.
    + unfold poll_inv. rewrite Hh1, Hm1. subst s1. bk_simpl. split_and!; try done; try lia.
      * by apply hw_write_live; [|left].
      * intros HG. split; [by apply Hgd|lia].
    + unfold polls_left. subst s1. bk_simpl. lia.
  - intros r Hr. apply (poll_post_submit s sector buffer h1); [done|done| |done].
    intros l. unfold h1. apply hw_write_medium.
Qed.

(** *** Reading sectors *)

(** In service or out of it: a driver that is ready is idle for any window. *)
Definition blk_wf s : Prop :=
  g_block_ready s = true -> forall b x, length b = 512%nat -> bytes b -> idle (set_window b x s).

Lemma idle_window b x s : length b = 512%nat -> bytes b -> idle s -> idle (set_window b x s).
Proof.
  intros Hl Hb ((Hd & Hr & Hu & Hi & Hj & _) & Hs & Hua & Hlast & Hlive).
  unfold idle, mem_wf, set_window, bk_set_mem. cbn.
  split_and!; first [done|apply Hi|apply Hj|apply Hs].
Qed.

Lemma set_window_window b b' x x' s : set_window b x (set_window b' x' s) = set_window b x s.
Proof. done. Qed.

(** The sectors [lba + i ..] of the medium. *)
Definition sectors (h : H) (lba i : Z) (n : nat) : list Z :=
  concat (map (fun k => hw_medium h (u32 (lba + (i + Z.of_nat k)))) (seq 0 n)).

Lemma sectors_S h lba i n :
  sectors h lba i (S n) = hw_medium h (u32 (lba + i)) ++ sectors h lba (i + 1) n.
Proof.
  unfold sectors. cbn [seq map concat]. f_equal; [do 2 f_equal; lia|]. f_equal.
  rewrite <- seq_shift, map_map. apply map_ext. intros k. do 2 f_equal. lia.
Qed.

Lemma sectors_length h lba i n : length (sectors h lba i n) = (n * 512)%nat.
Proof.
  unfold sectors. rewrite (length_concat_uniform 512); [by rewrite length_map, length_seq|].
  apply List.Forall_map, Forall_true. intros k. apply hw_medium_len.
Qed.

Lemma sectors_medium h h' lba i n :
  (forall l, hw_medium h' l = hw_medium h l) -> sectors h' lba i n = sectors h lba i n.
Proof. intros Hm. unfold sectors. f_equal. apply map_ext. intros k. apply Hm. Qed.

Definition read_result (lba i : Z) (n : nat) (b : list Z) (s0 : BlkState H)
    (r : Status * list Z * BlkState H) : Prop :=
  let '(st, b', s) := r in
  length b' = length b /\ bytes b' /\ blk_wf s /\
  (forall l, hw_medium (bk_hw s) l = hw_medium (bk_hw s0) l) /\
  (st = StatusOK -> g_block_ready s = true /\
     b' = splice b (Z.to_nat (i * 512)) (sectors (bk_hw s0) lba i n)) /\
  (hw_good (bk_hw s0) -> st = StatusOK /\ hw_good (bk_hw s)).

Lemma wp_read_sectors n lba i b s :
  blk_wf s -> g_block_ready s = true -> bytes b -> 0 <= i ->
  (i + Z.of_nat n) * 512 <= len b -> a_buffer (e_addr env) + len b + 2 ^ 18 < 2 ^ 64 ->
  wp (read_sectors env n fuel lba i b s) (read_result lba i n b s) (fun _ => False).
Proof.
  revert i b s. induction n as [|n IH]; intros i b s Hwf Hrdy Hb Hi Hlen Ha; cbn [read_sectors].
  { cbn [wp read_result]. split_and!; try done. intros _. split; [done|].
    unfold sectors. simpl. by rewrite splice_nil. }
  unfold VIRTIO_BLK_SECTOR_SIZE. destruct (Z.ltb_spec (len b) (i * 512 + 512)); [lia|].
  assert (length (slice b (Z.to_nat (i * 512)) 512) = 512%nat) as Hsl by (rewrite length_slice; lia).
  pose proof (Hwf Hrdy _ (a_buffer (e_addr env) + i * 512) Hsl (Forall_take _ _ _ (Forall_drop _ _ _ Hb))) as Hidle.
  assert (0 < a_buffer (e_addr env)) by (pose proof Henv as He; unfold env_ok in He; inv_foralls; unfold addr_ok in *; lia).
  apply wp_bind. eapply wp_post.
  { apply wp_submit; [done|apply u32_range| |]; [unfold addr_ok; rewrite u64_small; lia|].
    rewrite u64_small by lia. done. }
  intros [s1 st] (Hsl1 & Hm1 & Hmed & Hcase & Hok & Hgood).
  pose proof Hm1 as (_ & _ & _ & _ & _ & Hl1 & Hb1).
  assert (length (splice b (Z.to_nat (i * 512)) (bm_buffer (bk_mem s1))) = length b) as Hlb
    by (apply length_splice; lia).
  assert (bytes (splice b (Z.to_nat (i * 512)) (bm_buffer (bk_mem s1)))) as Hbb by by apply bytes_splice.
  assert (blk_wf s1) as Hwf1.
  { intros Hr1 w x Hw1 Hw2. destruct Hcase as [(Hid & _)|[Hf _]]; [by apply idle_window|congruence]. }
  case_bool_decide as Hst; cbn [negb].
  2: { cbn [wp read_result]. by split_and!. }
  subst st. destruct Hcase as [(_ & Hr1 & _)|[_ ?]]; [|done].
  eapply wp_post; [apply IH; rewrite ?Hlb, ?Hr1; done || lia|].
  intros [[st b'] s2] (Hl2 & Hb2 & Hwf2 & Hmed2 & Hok2 & Hgood2). cbn [read_result]. split_and!; try done.
  - by rewrite Hl2.
  - intros l. by rewrite Hmed2, Hmed.
  - intros Hst. destruct (Hok2 Hst) as [? ->]. split; [done|].
    rewrite Hok by done. rewrite (sectors_medium (bk_hw s)) by (intros l; apply Hmed).
    rewrite sectors_S. rewrite <- splice_app.
    + rewrite hw_medium_len. f_equal. lia.
    + rewrite hw_medium_len, sectors_length. lia.
  - intros HG. destruct (Hgood HG) as [_ Hg1]. destruct (Hgood2 Hg1). done.
Qed.
End Submit.

(** ** Initialisation *)
Section Init.
Context {H : Type} `{HV : VirtioHw H}.
Context (env : BlkEnv).
Implicit Types (s : BlkState H) (h : H).

(** The register writes of a trace. *)
Definition reg_writes (t : list BlkEvent) : list (Z * Z) :=
  omap (fun e => match e with EvWrite a v => Some (a, v) | _ => None end) t.

Lemma reg_writes_app t t' : reg_writes (t ++ t') = reg_writes t ++ reg_writes t'.
Proof. apply omap_app. Qed.

Definition first_block_slot h : option Z :=
  List.find (block_slot h) (map Z.of_nat (seq 0 32)).

Lemma slot_matches_ok s :
  0 <= g_slot_index s < 32 ->
  exists t, slot_matches s = (block_slot (bk_hw s) (g_slot_index s), bk_log t s) /\ reg_writes t = [].
Proof.
  intros Hs. unfold slot_matches, boot_block_read_reg, block_slot.
  rewrite !reg_address by (bk_simpl; unfold VIRTIO_MMIO_MAGIC_VALUE, VIRTIO_MMIO_VERSION,
    VIRTIO_MMIO_DEVICE_ID; lia). bk_simpl. unfold reg_at.
  destruct (_ =? VIRTIO_MAGIC); cbn [negb andb].
  2: { eexists [EvRead _]. split; reflexivity. }
  destruct (_ =? VIRTIO_VERSION_1); cbn [negb andb].
  2: { eexists [EvRead _; EvRead _]. unfold bk_log, bk_emit. cbn. rewrite <- !app_assoc. split; reflexivity. }
  eexists [EvRead _; EvRead _; EvRead _]. unfold bk_log, bk_emit. cbn. rewrite <- !app_assoc.
  split; reflexivity.
Qed.

Lemma find_slots_ok n s :
  0 <= g_slot_index s -> g_slot_index s + Z.of_nat n <= 32 ->
  exists t, reg_writes t = [] /\
    find_slots n s =
    match List.find (block_slot (bk_hw s)) (map (fun k => g_slot_index s + Z.of_nat k) (seq 0 n)) with
    | Some j => (StatusOK, bk_log t (bk_set_slot j s))
    | None => (StatusNotFound, bk_log t (bk_set_slot (g_slot_index s + Z.of_nat n) s))
    end.
Proof.
  revert s. induction n as [|n IH]; intros s H0 H1; cbn [find_slots].
  - exists []. split; [done|]. simpl. rewrite Z.add_0_r, bk_log_nil. by destruct s.
  - destruct (slot_matches_ok s) as (t & -> & Ht); [lia|]. cbn [seq map List.find].
    rewrite Z.add_0_r. destruct (block_slot (bk_hw s) (g_slot_index s)) eqn:Hb.
    + exists t. split; [done|]. by destruct s.
    + destruct (IH (bk_set_slot (g_slot_index s + 1) (bk_log t s))) as (t' & Ht' & Hf);
        [bk_simpl; lia..|].
      exists (t ++ t'). split; [by rewrite reg_writes_app, Ht, Ht'|].
      cbn [bk_log g_slot_index] in Hf |- *. rewrite Hf. bk_simpl.
      rewrite <- seq_shift, map_map.
      rewrite (map_ext (fun k => g_slot_index s + Z.of_nat (S k))
                       (fun k => g_slot_index s + 1 + Z.of_nat k)) by (intros; lia).
      destruct (List.find _ _); unfold bk_set_slot, bk_log; cbn; rewrite <- app_assoc; do 2 f_equal; lia.
Qed.

Lemma find_device_ok s :
  exists t, reg_writes t = [] /\
    boot_block_find_device s =
    match first_block_slot (bk_hw s) with
    | Some j => (StatusOK, bk_log t (bk_set_slot j s))
    | None => (StatusNotFound, bk_log t (bk_set_slot 32 s))
    end.
Proof.
  unfold boot_block_find_device, first_block_slot, VIRTIO_BLK_SLOT_COUNT.
  destruct (find_slots_ok (Z.to_nat 32) (bk_set_slot 0 s)) as (t & Ht & ->); [bk_simpl; lia..|].
  exists t. split; [done|]. bk_simpl.
  rewrite (map_ext (fun k => 0 + Z.of_nat k) Z.of_nat) by done.
  change (Z.to_nat 32) with 32%nat. by destruct (List.find _ _).
Qed.

Lemma first_block_slot_range h j :
  first_block_slot h = Some j -> 0 <= j < 32 /\ block_slot h j = true.
Proof.
  intros Hf. apply find_some in Hf as [Hin Hb]. split; [|done].
  apply in_map_iff in Hin as (k & <- & Hk%in_seq). lia.
Qed.

(** [s] is [s0] after the register writes [ws] at its slot, and any reads. *)
Definition after s0 (ws : list (Z * Z)) s : Prop :=
  bk_mem s = bk_mem s0 /\ g_last_used_idx s = g_last_used_idx s0 /\
  g_slot_index s = g_slot_index s0 /\ g_block_ready s = g_block_ready s0 /\
  bk_hw s = after_writes (g_slot_index s0) ws (bk_hw s0) /\
  exists t, bk_trace s = bk_trace s0 ++ t /\
    reg_writes t = map (fun w => (reg_at (g_slot_index s0) (fst w), snd w)) ws.

Lemma after_refl s : after s [] s.
Proof. split_and!; try done. exists []. by rewrite app_nil_r. Qed.

Lemma after_write s0 ws s off v :
  0 <= g_slot_index s0 < 32 -> 0 <= off < 512 -> after s0 ws s ->
  after s0 (ws ++ [(off, v)]) (boot_block_write_reg off v s).
Proof.
  intros Hs Ho (Hm & Hl & Hi & Hr & Hh & t & Ht & Hw). unfold boot_block_write_reg.
  rewrite reg_address by lia. split_and!; bk_simpl; try done.
  - unfold after_writes. rewrite fold_left_app. cbn. unfold reg_at. rewrite Hi. by f_equal.
  - exists (t ++ [EvWrite (reg_at (g_slot_index s) off) v]).
    rewrite Ht, <- app_assoc. split; [done|]. by rewrite reg_writes_app, Hw, map_app, Hi.
Qed.

Lemma after_read s0 ws s off :
  0 <= g_slot_index s0 < 32 -> 0 <= off < 512 -> after s0 ws s ->
  exists s', boot_block_read_reg off s =
      (u32 (mmio_read (after_writes (g_slot_index s0) ws (bk_hw s0)) (reg_at (g_slot_index s0) off)), s') /\
    after s0 ws s'.
Proof.
  intros Hs Ho (Hm & Hl & Hi & Hr & Hh & t & Ht & Hw). unfold boot_block_read_reg.
  rewrite reg_address by lia. eexists. split.
  - rewrite Hh, Hi. unfold reg_at. reflexivity.
  - split_and!; bk_simpl; try done. eexists. rewrite Ht, <- app_assoc. split; [done|].
    rewrite reg_writes_app, Hw. cbn. by rewrite app_nil_r.
Qed.

Lemma after_barrier s0 ws s : after s0 ws s -> after s0 ws (boot_block_barrier s).
Proof.
  intros (Hm & Hl & Hi & Hr & Hh & t & Ht & Hw). split_and!; bk_simpl; try done.
  exists (t ++ [EvBarrier]). rewrite Ht, <- app_assoc. split; [done|].
  rewrite reg_writes_app, Hw. cbn. by rewrite app_nil_r.
Qed.

(** The answer of initialisation, from the registers. *)
Definition init_status h : Status :=
  match first_block_slot h with
  | None => StatusNotFound
  | Some j =>
      if negb (qemu_vendor h j) then StatusNotSupported
      else if negb (offers_version_1 h j) then StatusNotSupported
      else if negb (keeps_features_ok h j) then StatusNotSupported
      else if negb (has_queue h j) then StatusNoSpace else StatusOK
  end.

Definition init_done s s' : Prop :=
  exists j t, first_block_slot (bk_hw s) = Some j /\ g_slot_index s' = j /\ g_block_ready s' = true /\
    bk_mem s' = zero_mem (bk_mem s) /\ g_last_used_idx s' = 0 /\
    bk_hw s' = after_writes j (handshake (e_addr env)) (bk_hw s) /\
    bk_trace s' = bk_trace s ++ t /\
    reg_writes t = map (fun w => (reg_at j (fst w), snd w)) (handshake (e_addr env)).

(** A register access of the sequence. *)
Ltac reg_range := unfold VIRTIO_MMIO_VENDOR_ID, VIRTIO_MMIO_STATUS, VIRTIO_MMIO_DEVICE_FEATURES_SEL,
  VIRTIO_MMIO_DEVICE_FEATURES, VIRTIO_MMIO_DRIVER_FEATURES_SEL, VIRTIO_MMIO_DRIVER_FEATURES,
  VIRTIO_MMIO_QUEUE_SEL, VIRTIO_MMIO_QUEUE_NUM_MAX, VIRTIO_MMIO_QUEUE_NUM, VIRTIO_MMIO_QUEUE_READY,
  VIRTIO_MMIO_QUEUE_DESC_LOW, VIRTIO_MMIO_QUEUE_DESC_HIGH, VIRTIO_MMIO_QUEUE_AVAIL_LOW,
  VIRTIO_MMIO_QUEUE_AVAIL_HIGH, VIRTIO_MMIO_QUEUE_USED_LOW, VIRTIO_MMIO_QUEUE_USED_HIGH; lia.
Ltac reg_step Hj Ha :=
  match type of Ha with
  | after _ _ ?s =>
      let Ha' := fresh "Ha" in
      first
        [ match goal with |- context [boot_block_write_reg ?o ?v s] =>
            pose proof (after_write _ _ _ o v Hj ltac:(reg_range) Ha) as Ha';
            let s1 := fresh "s" in
            set (s1 := boot_block_write_reg o v s) in *; clearbody s1 end
        | match goal with |- context [boot_block_read_reg ?o s] =>
            let s1 := fresh "s" in
            destruct (after_read _ _ _ o Hj ltac:(reg_range) Ha) as (s1 & -> & Ha') end
        | match goal with |- context [boot_block_barrier s] =>
            pose proof (after_barrier _ _ _ Ha) as Ha';
            let s1 := fresh "s" in set (s1 := boot_block_barrier s) in *; clearbody s1 end ];
      clear Ha; rename Ha' into Ha
  end.

(** The head conditional is the test [b]; take both branches. *)
Ltac decide_reg b :=
  match goal with |- exists s', (if ?c then _ else _) = _ /\ _ =>
    let E := fresh in
    assert (b = c) as E by (unfold offers_version_1, keeps_features_ok, has_queue;
      first [reflexivity | apply negb_involutive | symmetry; apply Z.ltb_antisym]);
    rewrite E; destruct c; clear E end.

(** Names the writes so far. *)
Ltac so_far Ha ws :=
  match type of Ha with after ?s0 ?l ?x =>
    let E := fresh in assert (l = ws) as E by reflexivity; rewrite E in Ha; clear E end.

Lemma split_address a :
  0 <= a < 2 ^ 64 -> u32 (Z.land a 0xffffffff) = a mod 2 ^ 32 /\ u32 (Z.shiftr a 32) = a / 2 ^ 32.
Proof.
  intros Ha. change 0xffffffff with (Z.ones 32). rewrite Z.land_ones, Z.shiftr_div_pow2 by lia.
  split; apply u32_small; [apply Z.mod_pos_bound; lia|].
  split; [apply Z.div_pos; lia|apply Z.div_lt_upper_bound; lia].
Qed.

Lemma block_init_ok s :
  env_ok env ->
  exists s', boot_block_init env s = Ok (init_status (bk_hw s), s') /\
    (init_status (bk_hw s) = StatusOK -> init_done s s') /\
    (init_status (bk_hw s) <> StatusOK -> g_block_ready s' = false).
Proof.
  intros Henv. pose proof Henv as Ha. unfold env_ok in Ha. inv_foralls. unfold addr_ok in *.
  unfold boot_block_init, init_status. cbv zeta.
  destruct (find_device_ok (bk_set_ready false (bk_set_last 0 (bk_set_mem zero_mem s)))) as (t & Ht & ->).
  bk_simpl. destruct (first_block_slot (bk_hw s)) as [j|] eqn:Hf.
  2: { rewrite bool_decide_eq_false_2 by done. cbn [negb]. eexists. split; [reflexivity|]. by split. }
  destruct (first_block_slot_range _ _ Hf) as [Hj Hb].
  rewrite bool_decide_eq_true_2 by done. cbn [negb].
  set (s0 := bk_log t _).
  assert (g_slot_index s0 = j /\ bk_hw s0 = bk_hw s /\ bk_mem s0 = zero_mem (bk_mem s) /\
    g_last_used_idx s0 = 0 /\ g_block_ready s0 = false /\ bk_trace s0 = bk_trace s ++ t)
    as (Ej & Eh & Em & El & Er & Et) by done.
  clearbody s0. rewrite <- Ej in *. rewrite <- Eh in Hf, Hb. rewrite <- Eh. clear Hb.
  destruct (split_address (a_desc (e_addr env)) ltac:(lia)) as [Ed1 Ed2].
  destruct (split_address (a_avail (e_addr env)) ltac:(lia)) as [Ea1 Ea2].
  destruct (split_address (a_used (e_addr env)) ltac:(lia)) as [Eu1 Eu2].
  unfold boot_block_write_addr. rewrite Ed1, Ed2, Ea1, Ea2, Eu1, Eu2.
  pose proof (after_refl s0) as Ha.
  assert (forall ws x, after s0 ws x -> g_block_ready x = false) as Hnr
    by (intros ws x (_ & _ & _ & -> & _); exact Er).
  reg_step Hj Ha. decide_reg (negb (qemu_vendor (bk_hw s0) (g_slot_index s0))).
  { eexists. split_and!; [done|done|by eauto]. }
  do 4 reg_step Hj Ha. so_far Ha handshake_features.
  reg_step Hj Ha. decide_reg (negb (offers_version_1 (bk_hw s0) (g_slot_index s0))).
  { reg_step Hj Ha. eexists. split_and!; [done|done|by eauto]. }
  do 5 reg_step Hj Ha. so_far Ha (handshake_features ++ handshake_accept).
  reg_step Hj Ha. decide_reg (negb (keeps_features_ok (bk_hw s0) (g_slot_index s0))).
  { reg_step Hj Ha. eexists. split_and!; [done|done|by eauto]. }
  reg_step Hj Ha. so_far Ha (handshake_features ++ handshake_accept ++ [(VIRTIO_MMIO_QUEUE_SEL, 0)]).
  reg_step Hj Ha. decide_reg (negb (has_queue (bk_hw s0) (g_slot_index s0))).
  { reg_step Hj Ha. eexists. split_and!; [done|done|by eauto]. }
  do 10 reg_step Hj Ha. so_far Ha (handshake (e_addr env)).
  eexists. split_and!; [done| |done]. intros _.
  destruct Ha as (Hm & Hl & Hi & Hr & Hh & t' & Ht' & Hw').
  exists (g_slot_index s0), (t ++ t'). rewrite <- Eh. split_and!; bk_simpl; try done; try congruence.
  - by rewrite Ht', Et, app_assoc.
  - by rewrite reg_writes_app, Ht, Hw'.
Qed.
End Init.

(** ** The contract *)
Section Contract.
Context {H : Type} `{HV : VirtioHw H} `{!VirtioLaws H}.
Context (env : BlkEnv) (fuel : nat).
Hypothesis Henv : env_ok env.
Implicit Types (s d : BlkState H) (h : H).

Lemma after_writes_medium slot ws h l : hw_medium (after_writes slot ws h) l = hw_medium h l.
Proof.
  unfold after_writes. revert h. induction ws as [|w ws IH]; intros h; [done|].
  cbn. by rewrite IH, hw_write_medium.
Qed.

Lemma init_done_wf s s' :
  init_done env s s' -> init_status (bk_hw s) = StatusOK -> blk_wf env s' /\
    (forall l, hw_medium (bk_hw s') l = hw_medium (bk_hw s) l) /\
    (hw_good (bk_hw s) -> hw_good (bk_hw s')).
Proof.
  intros (j & t & Hf & Hs & Hr & Hm & Hl & Hh & _) Hst.
  destruct (first_block_slot_range _ _ Hf) as [Hj Hb]. split_and!.
  - intros _ b x Hbl Hbb. unfold idle, mem_wf, set_window, bk_set_mem. bk_simpl.
    rewrite Hm, Hs, Hl, Hh. cbn. split_and!; try done; try apply Hj.
    unfold init_status in Hst. rewrite Hf in Hst.
    destruct (qemu_vendor _ _), (offers_version_1 _ _) eqn:?, (keeps_features_ok _ _) eqn:?,
      (has_queue _ _) eqn:?; try done. by apply hw_handshake.
  - intros l. by rewrite Hh, after_writes_medium.
  - intros Hg. rewrite Hh. by apply hw_handshake_good.
Qed.

(** The handshake.  [boot_block_init] always returns, with the status the
    registers call for; on success the writes it made are exactly the sequence
    the virtio specification prescribes, at the first slot that holds a block
    device, the queue is empty and the driver ready; on failure it is not. *)
Theorem boot_block_init_handshake s :
  env_ok env ->
  exists s', boot_block_init env s = Ok (init_status (bk_hw s), s') /\
    (init_status (bk_hw s) = StatusOK -> init_done env s s') /\
    (init_status (bk_hw s) <> StatusOK -> boot_block_is_ready s' = false).
Proof. apply block_init_ok. Qed.

Hypothesis Hclock : clock_runs env fuel.
Hypothesis Hfits : forall h, hw_good h -> clock_allows env (hw_latency h).
Hypothesis Hroom : a_buffer (e_addr env) + 2 ^ 19 < 2 ^ 64.

Lemma virtio_read_one d lba buf :
  blk_wf env d -> 0 <= lba < 2 ^ 32 -> length buf = 512%nat -> bytes buf ->
  exists st buf' d',
    virtio_read env fuel lba 1 (Some buf) d = Ok (st, Some buf', d') /\
    blk_wf env d' /\ length buf' = 512%nat /\ bytes buf' /\
    (forall l, hw_medium (bk_hw d') l = hw_medium (bk_hw d) l) /\
    (st = StatusOK -> buf' = hw_medium (bk_hw d) lba) /\
    (g_block_ready d = true /\ hw_good (bk_hw d) ->
       st = StatusOK /\ g_block_ready d' = true /\ hw_good (bk_hw d')).
Proof.
  intros Hwf Hlba Hl Hb. unfold virtio_read. destruct (g_block_ready d) eqn:Hr; cbn [negb orb].
  2: { eexists _, _, _. split; [reflexivity|]. split_and!; try done. by intros [? _]. }
  change (1 =? 0) with false. change (Z.to_nat 1) with 1%nat. cbv iota.
  destruct (wp_total _ _ (wp_read_sectors env fuel Henv Hclock Hfits 1 lba 0 buf d Hwf Hr Hb
    ltac:(lia) ltac:(lia) ltac:(lia))) as ([[st b'] s'] & -> & Hl' & Hb' & Hwf' & Hmed & Hok & Hg).
  cbn [bind]. exists st, b', s'. split_and!; try done.
  - by rewrite Hl'.
  - intros Hst. destruct (Hok Hst) as [_ ->]. unfold sectors, splice. cbn.
    rewrite app_nil_r, Z.add_0_r, u32_small, hw_medium_len by lia.
    rewrite drop_ge by lia. by rewrite app_nil_r.
  - intros [_ Hgd]. destruct (Hg Hgd) as [Hst ?]. split_and!; try done. by destruct (Hok Hst).
Qed.

(** The driver as a block device. *)
Definition virtio_device : BlockDevice (BlkState H) :=
  {| boot_block_read := fun d lba count buf => virtio_read env fuel lba count buf d |}.

#[program] Definition virtio_device_laws : @BlockDeviceLaws (BlkState H) virtio_device :=
  {| dev_wf := blk_wf env;
     dev_good := fun d => blk_wf env d /\ g_block_ready d = true /\ hw_good (bk_hw d);
     dev_sector := fun d l => hw_medium (bk_hw d) l |}.
Next Obligation. by intros d [? _]. Qed.
Next Obligation. intros d l _. apply hw_medium_len. Qed.
Next Obligation. intros d l _. apply hw_medium_bytes. Qed.
Next Obligation.
  intros d lba buf Hwf Hlba Hl Hb.
  destruct (virtio_read_one d lba buf Hwf Hlba Hl Hb)
    as (st & b' & d' & Hr & Hwf' & Hl' & Hb' & Hm & Hok & Hg).
  exists st, b', d'. split; [exact Hr|]. split_and!; try done.
  intros (_ & Hr1 & Hg1). destruct (Hg (conj Hr1 Hg1)) as (? & ? & ?). by split_and!.
Qed.
End Contract.

(** Reading sectors.  For a driver in service on a device that answers,
    [boot_block_read] of [n] sectors returns OK and fills the caller's buffer
    with the sectors in order, leaving the rest of it, and the driver is in
    service again; each request returns within the counter's timeout. *)
Theorem boot_block_read_returns_sectors {H : Type} `{HV : VirtioHw H} `{!VirtioLaws H}
    (env : BlkEnv) (fuel : nat) (lba n : Z) (b : list Z) (s : BlkState H) :
  env_ok env -> clock_runs env fuel -> (forall h : H, hw_good h -> clock_allows env (hw_latency h)) ->
  blk_wf env s -> g_block_ready s = true -> hw_good (bk_hw s) -> bytes b ->
  0 < n -> n * 512 <= len b -> a_buffer (e_addr env) + len b + 2 ^ 18 < 2 ^ 64 ->
  exists s', virtio_read env fuel lba n (Some b) s =
      Ok (StatusOK, Some (splice b 0 (sectors (bk_hw s) lba 0 (Z.to_nat n))), s') /\
    blk_wf env s' /\ g_block_ready s' = true /\ hw_good (bk_hw s').
Proof.
  intros Henv Hck Hfit Hwf Hr Hg Hb Hn Hl Ha. unfold virtio_read. rewrite Hr. cbn [negb orb].
  destruct (Z.eqb_spec n 0); [lia|].
  destruct (wp_total _ _ (wp_read_sectors env fuel Henv Hck Hfit (Z.to_nat n) lba 0 b s Hwf Hr Hb
    ltac:(lia) ltac:(lia) ltac:(lia))) as ([[st b'] s'] & -> & Hl' & Hb' & Hwf' & Hmed & Hok & Hgd).
  destruct (Hgd Hg) as [-> ?]. destruct (Hok eq_refl) as [? ->]. cbn [bind]. by exists s'.
Qed.

(** C28: the driver implements the block-device interface.  Whatever the device
    does within the virtio specification (an error status, no answer at all),
    a one-sector read returns, keeps the driver's invariant and the buffer's
    size, and reports success only with the sector in the buffer; on a device
    that answers it succeeds. *)
Theorem boot_block_read_refines_interface {H : Type} `{HV : VirtioHw H} `{!VirtioLaws H}
    (env : BlkEnv) (fuel : nat) (d : BlkState H) lba buf :
  env_ok env -> clock_runs env fuel -> (forall h : H, hw_good h -> clock_allows env (hw_latency h)) ->
  a_buffer (e_addr env) + 2 ^ 19 < 2 ^ 64 ->
  blk_wf env d -> 0 <= lba < 2 ^ 32 -> length buf = 512%nat -> bytes buf ->
  exists st buf' d',
    virtio_read env fuel lba 1 (Some buf) d = Ok (st, Some buf', d') /\
    blk_wf env d' /\ length buf' = 512%nat /\ bytes buf' /\
    (forall l, hw_medium (bk_hw d') l = hw_medium (bk_hw d) l) /\
    (st = StatusOK -> buf' = hw_medium (bk_hw d) lba) /\
    (g_block_ready d = true /\ hw_good (bk_hw d) ->
       st = StatusOK /\ g_block_ready d' = true /\ hw_good (bk_hw d')).
Proof. intros. by apply virtio_read_one. Qed.

(** Cache maintenance covers.  Cleaning or invalidating a range issues the
    operation for a list of line addresses, in order, then a barrier, and every
    byte of the range lies in one of those lines, whatever line size CTR_EL0
    reports. *)
Theorem cache_range_covers {H : Type} (env : BlkEnv) (op : Z -> BlkEvent) address size
    (s : BlkState H) :
  0 < address -> 0 < size -> address + size + 2 ^ 17 < 2 ^ 64 ->
  exists ls, cache_range env op address size s = Ok (bk_log (map op ls ++ [EvBarrier]) s) /\
    forall x, address <= x < address + size ->
      exists l, l ∈ ls /\ l <= x < l + boot_block_cache_line_size env.
Proof.
  intros Ha Hs Hb. exists (range_lines env address size). split; [by apply cache_range_ok|].
  intros x Hx. by apply range_lines_cover.
Qed.

(** The timeout report prints numbers.  [boot_block_put_u32] never leaves
    its ten-digit array and prints decimal digits whose value is the number. *)
Theorem boot_block_put_u32_prints v out :
  0 <= v < 2 ^ 32 ->
  exists ds, boot_block_put_u32 v out = Ok (out ++ ds) /\ Forall is_digit ds /\ dec_value ds = v /\
    ds <> [].
Proof. apply put_u32_ok. Qed.

Record SimHw : Type := mkSimHw { sim_disk : list (list Z); sim_status : Z }.

Definition sim_sector (h : SimHw) (l : Z) : list Z :=
  match sim_disk h !! Z.to_nat l with
  | Some x => if Nat.eqb (length x) 512 && forallb byteb x then x else zero_sector
  | None => zero_sector
  end.

Definition sim_read (h : SimHw) (r : Z) : Z :=
  if r =? reg_at 3 VIRTIO_MMIO_MAGIC_VALUE then VIRTIO_MAGIC
  else if r =? reg_at 3 VIRTIO_MMIO_VERSION then VIRTIO_VERSION_1
  else if r =? reg_at 3 VIRTIO_MMIO_DEVICE_ID then VIRTIO_DEVICE_ID_BLOCK
  else if r =? reg_at 3 VIRTIO_MMIO_VENDOR_ID then VIRTIO_VENDOR_QEMU
  else if r =? reg_at 3 VIRTIO_MMIO_DEVICE_FEATURES then 1
  else if r =? reg_at 3 VIRTIO_MMIO_QUEUE_NUM_MAX then 1024
  else if r =? reg_at 3 VIRTIO_MMIO_STATUS then sim_status h
  else 0.

Definition sim_write (h : SimHw) (r v : Z) : SimHw :=
  if r =? reg_at 3 VIRTIO_MMIO_STATUS then mkSimHw (sim_disk h) v else h.

Definition sim_step (h : SimHw) (m : BlkMem) : BlkMem * SimHw :=
  if us_idx (g_used m) =? av_idx (g_avail m) then (m, h)
  else (complete m (sim_sector h (rq_sector (g_request m))) 0, h).

#[global] Instance sim_hw : VirtioHw SimHw :=
  {| mmio_read := sim_read; mmio_write := sim_write; hw_step := sim_step |}.

Lemma sim_sector_ok h l : length (sim_sector h l) = 512%nat /\ bytes (sim_sector h l).
Proof.
  assert (bytes zero_sector) by (apply Forall_replicate; by unfold is_byte).
  unfold sim_sector. destruct (sim_disk h !! _) as [x|]; [|done].
  destruct (Nat.eqb_spec (length x) 512); cbn [andb]; [|done].
  destruct (forallb byteb x) eqn:Hb; [|done]. split; [done|]. unfold bytes.
  rewrite List.Forall_forall. rewrite forallb_forall in Hb. intros b Hin. by apply byteb_spec, Hb.
Qed.

Lemma sim_write_disk h r v l : sim_sector (sim_write h r v) l = sim_sector h l.
Proof. unfold sim_write. by destruct (_ =? _). Qed.

Lemma published_pending a m : published a m -> us_idx (g_used m) <> av_idx (g_avail m).
Proof.
  intros (_ & _ & _ & _ & ->) E. unfold u16 in E. change (2 ^ 16) with 65536 in E.
  Z.div_mod_to_equations. lia.
Qed.

#[global] Program Instance sim_laws : VirtioLaws SimHw := {|
  hw_live := fun _ _ _ => True; hw_good := fun _ => True; hw_latency := fun _ => 0%nat;
  hw_medium := sim_sector |}.
Next Obligation. intros h l. apply sim_sector_ok. Qed.
Next Obligation. intros h l. apply sim_sector_ok. Qed.
Next Obligation. done. Qed.
Next Obligation. done. Qed.
Next Obligation. apply sim_write_disk. Qed.
Next Obligation. done. Qed.
Next Obligation. done. Qed.
Next Obligation.
  intros a slot h m m' h' _ Hp Hs. cbn in Hs. unfold sim_step in Hs.
  destruct (Z.eqb_spec (us_idx (g_used m)) (av_idx (g_avail m))); simplify_eq/=; split_and!; try done.
  - by left.
  - right. destruct (sim_sector_ok h' (rq_sector (g_request m))).
    eexists _, 0. by split_and!.
Qed.
Next Obligation.
  intros a slot h m m' h' _ _ Hp Hs. cbn in Hs. unfold sim_step in Hs. split; [done|]. left.
  destruct (Z.eqb_spec (us_idx (g_used m)) (av_idx (g_avail m))); simplify_eq/=; [|by eexists].
  by destruct (published_pending a m' Hp).
Qed.

(** ** A machine *)
Definition ex_env : BlkEnv :=
  mkBlkEnv (fun n => Z.of_nat n) 2 0x84448004
    (mkBlkAddr 0x40090000 0x40091000 0x40092000 0x40093000 0x40093010 0x40094000).

Definition ex_blk : BlkState SimHw :=
  mkBlkState (zero_mem (mkBlkMem [] (mkVirtqAvail 0 0 [] 0) (mkVirtqUsed 0 0 [] 0)
                (mkRequest 0 0 0) 0 (replicate 512 0) 0))
    0 0 false (mkSimHw [replicate 512 1; replicate 512 2; replicate 512 3] 0) 0 [] [].

Lemma ex_env_ok : env_ok ex_env.
Proof. repeat (apply List.Forall_cons; [by vm_compute|]). apply List.Forall_nil. Qed.

Lemma ex_clock_runs : clock_runs ex_env 3.
Proof.
  split; [done|]. intros n. exists 1%nat. split; [lia|].
  replace (timeout ex_env) with 2 by reflexivity. cbn [e_counter ex_env].
  replace (Z.of_nat (n + 1 + 1) - Z.of_nat n) with 2 by lia. by vm_compute.
Qed.

Lemma ex_clock_fits (h : SimHw) : hw_good h -> clock_allows ex_env (hw_latency h).
Proof.
  intros _ n k Hk. cbn in Hk. assert (k = 0%nat) as -> by lia.
  replace (timeout ex_env) with 2 by reflexivity. cbn [e_counter ex_env].
  replace (Z.of_nat (n + 1 + 0) - Z.of_nat n) with 1 by lia. by vm_compute.
Qed.

(** ** Witnesses *)
Lemma boot_block_init_witness :
  exists s', boot_block_init ex_env ex_blk = Ok (StatusOK, s') /\ init_done ex_env ex_blk s'.
Proof.
  destruct (boot_block_init_handshake ex_env ex_blk ex_env_ok) as (s' & Hr & Hd & _).
  exists s'. replace (init_status (bk_hw ex_blk)) with StatusOK in Hr, Hd by (vm_compute; reflexivity).
  exact (conj Hr (Hd eq_refl)).
Defined.

(** The state after initialisation. *)
Definition ex_ready : BlkState SimHw :=
  match boot_block_init ex_env ex_blk with Ok (_, s) => s | _ => ex_blk end.

Lemma ex_ready_wf : blk_wf ex_env ex_ready.
Proof.
  destruct (block_init_ok ex_env ex_blk ex_env_ok) as (s' & Hr & Hd & _).
  unfold ex_ready. rewrite Hr.
  apply (init_done_wf ex_env ex_blk s'); [apply Hd|]; vm_compute; reflexivity.
Qed.

Lemma boot_block_read_witness :
  exists s', virtio_read ex_env 3 1 2 (Some (replicate 1024 0)) ex_ready =
    Ok (StatusOK, Some (replicate 512 2 ++ replicate 512 3), s').
Proof.
  destruct (boot_block_read_returns_sectors ex_env 3 1 2 (replicate 1024 0) ex_ready)
    as (s' & Hr & _).
  - exact ex_env_ok.
  - exact ex_clock_runs.
  - exact ex_clock_fits.
  - exact ex_ready_wf.
  - vm_compute. reflexivity.
  - exact I.
  - apply Forall_replicate. vm_compute. split; [discriminate|reflexivity].
  - reflexivity.
  - vm_compute. discriminate.
  - vm_compute. reflexivity.
  - exists s'. etransitivity; [exact Hr|]. vm_compute. reflexivity.
Defined.

Lemma boot_block_refines_witness :
  exists st b' d', virtio_read ex_env 3 2 1 (Some zero_sector) ex_ready = Ok (st, Some b', d') /\
    b' = replicate 512 3.
Proof.
  destruct (boot_block_read_refines_interface ex_env 3 ex_ready 2 zero_sector)
    as (st & b' & d' & Hr & _ & _ & _ & _ & Hok & Hg).
  - exact ex_env_ok.
  - exact ex_clock_runs.
  - exact ex_clock_fits.
  - vm_compute. reflexivity.
  - exact ex_ready_wf.
  - split; [discriminate|reflexivity].
  - reflexivity.
  - apply Forall_replicate. vm_compute. split; [discriminate|reflexivity].
  - exists st, b', d'. split; [exact Hr|]. rewrite Hok; [vm_compute; reflexivity|].
    apply Hg. split; [vm_compute; reflexivity|exact I].
Defined.

Lemma cache_range_witness :
  exists ls, cache_range ex_env EvClean 0x40093010 100 ex_blk
    = Ok (bk_log (map EvClean ls ++ [EvBarrier]) ex_blk).
Proof.
  destruct (cache_range_covers ex_env EvClean 0x40093010 100 ex_blk) as (ls & Hr & _);
    [vm_compute; reflexivity..|].
  exists ls. exact Hr.
Defined.

Lemma boot_block_put_u32_witness :
  exists ds, boot_block_put_u32 4294967295 [] = Ok ds /\ dec_value ds = 4294967295.
Proof.
  destruct (boot_block_put_u32_prints 4294967295 []) as (ds & Hr & _ & Hv & _);
    [vm_compute; split; [discriminate|reflexivity]|].
  exists ds. exact (conj Hr Hv).
Defined.
