(* ===== verification/PhysMem.v ===== *)
(** The kernel's physical page manager (kernel/mm/physical.cpp): an array of page
    records threaded by an intrusive doubly linked free list.

    A [Page*] into [page_array] is the index of the page, NULL is [None].  The
    file-scope variables are the fields of [Phys]; the state also has the
    interrupt mask, which the allocation paths save and restore, and the
    addresses of the pages [memzero] has cleared, in order. *)
From stdpp Require Import base list numbers.
From Stdlib Require Import ZArith Lia.
From S2P Require Import Prelude.

Local Open Scope Z_scope.

Definition PageSize : Z := 0x1000.

(** [sizeof(Page)]: two words, the two 32-bit fields and two pointers. *)
Definition page_struct_bytes : Z := 32.

Record Page : Type := mkPage {
  phys_addr : Z;
  ref_count : Z;
  allocated : bool;
  kernel_page : bool;
  next_page : option nat;
  prev_page : option nat
}.

Record PageList : Type := mkPageList {
  head : option nat;
  tail : option nat;
  size : Z
}.

Record Phys : Type := mkPhys {
  num_pages : Z;
  page_array : list Page;
  free_pages : PageList;
  initialized : bool;
  reserved_heap_base : Z;
  managed_phys_base : Z;
  interrupts : bool;
  cleared : list Z
}.

(** ** Fields *)
Definition with_next (v : option nat) (p : Page) : Page :=
  mkPage (phys_addr p) (ref_count p) (allocated p) (kernel_page p) v (prev_page p).
Definition with_prev (v : option nat) (p : Page) : Page :=
  mkPage (phys_addr p) (ref_count p) (allocated p) (kernel_page p) (next_page p) v.
Definition with_use (a k : bool) (r : Z) (p : Page) : Page :=
  mkPage (phys_addr p) r a k (next_page p) (prev_page p).

(** [p->f] and [p->f = v]. *)
Definition load (a : list Page) (p : nat) : Exec Page := aget a (Z.of_nat p).
Definition store (a : list Page) (p : nat) (f : Page -> Page) : Exec (list Page) :=
  pg <- load a p ;; aset a (Z.of_nat p) (f pg).

Definition with_pages (a : list Page) (l : PageList) (s : Phys) : Phys :=
  mkPhys (num_pages s) a l (initialized s) (reserved_heap_base s) (managed_phys_base s) (interrupts s) (cleared s).
Definition with_interrupts (b : bool) (s : Phys) : Phys :=
  mkPhys (num_pages s) (page_array s) (free_pages s) (initialized s) (reserved_heap_base s) (managed_phys_base s) b (cleared s).
(** [memzero(physical_to_kernel(phys), PageSize)]. *)
Definition clear_page (phys : Z) (s : Phys) : Phys :=
  mkPhys (num_pages s) (page_array s) (free_pages s) (initialized s) (reserved_heap_base s) (managed_phys_base s)
    (interrupts s) (cleared s ++ [phys]).

(** ** The list *)
Definition remove_page_list (a : list Page) (l : PageList) (node : nat) : Exec (list Page * PageList) :=
  n <- load a node ;;
  '(a, hd) <- match prev_page n with
              | Some p => a <- store a p (with_next (next_page n)) ;; Ok (a, head l)
              | None => Ok (a, next_page n)
              end ;;
  n <- load a node ;;
  '(a, tl) <- match next_page n with
              | Some q => a <- store a q (with_prev (prev_page n)) ;; Ok (a, tail l)
              | None => Ok (a, prev_page n)
              end ;;
  let sz := if 0 <? size l then u32 (size l - 1) else size l in
  a <- store a node (with_next None) ;;
  a <- store a node (with_prev None) ;;
  Ok (a, mkPageList hd tl sz).

Definition append_page_list (a : list Page) (l : PageList) (node : nat) : Exec (list Page * PageList) :=
  a <- store a node (with_next None) ;;
  '(a, hd) <- match tail l with
              | Some t =>
                  a <- store a t (with_next (Some node)) ;;
                  a <- store a node (with_prev (Some t)) ;;
                  Ok (a, head l)
              | None =>
                  a <- store a node (with_prev None) ;;
                  Ok (a, Some node)
              end ;;
  Ok (a, mkPageList hd (Some node) (u32 (size l + 1))).

Definition prepend_page_list (a : list Page) (l : PageList) (node : nat) : Exec (list Page * PageList) :=
  a <- store a node (with_prev None) ;;
  '(a, tl) <- match head l with
              | Some h =>
                  a <- store a node (with_next (Some h)) ;;
                  a <- store a h (with_prev (Some node)) ;;
                  Ok (a, tail l)
              | None =>
                  a <- store a node (with_next None) ;;
                  Ok (a, Some node)
              end ;;
  Ok (a, mkPageList (Some node) tl (u32 (size l + 1))).

Definition pop_page_list (a : list Page) (l : PageList) : Exec (list Page * PageList * option nat) :=
  match head l with
  | None => Ok (a, l, None)
  | Some res =>
      n <- load a res ;;
      let hd := next_page n in
      a <- match hd with Some h => store a h (with_prev None) | None => Ok a end ;;
      let tl := match hd with Some _ => tail l | None => None end in
      a <- store a res (with_next None) ;;
      a <- store a res (with_prev None) ;;
      Ok (a, mkPageList hd tl (u32 (size l - 1)), Some res)
  end.

Definition pop_page_list_tail (a : list Page) (l : PageList) : Exec (list Page * PageList * option nat) :=
  match tail l with
  | None => Ok (a, l, None)
  | Some res =>
      n <- load a res ;;
      let tl := prev_page n in
      '(a, hd) <- match tl with
                  | Some t => a <- store a t (with_next None) ;; Ok (a, head l)
                  | None => Ok (a, None)
                  end ;;
      a <- store a res (with_next None) ;;
      a <- store a res (with_prev None) ;;
      Ok (a, mkPageList hd tl (u32 (size l - 1)), Some res)
  end.

Definition size_page_list (l : PageList) : Z := size l.

Definition page_from_phys (s : Phys) (phys_base phys : Z) : option nat :=
  if (phys <? phys_base) || (u64 (num_pages s * PageSize) <=? phys - phys_base) then None
  else Some (Z.to_nat ((phys - phys_base) / PageSize)).

(** ** Initialisation *)
Record BoardConfig : Type := mkBoardConfig {
  PhysicalPagePoolBase : Z;
  PhysicalPagePoolSize : Z;
  EarlyHeapPhysicalBase : Z
}.

Definition virt_board : BoardConfig :=
  let heap := 0x42000000 in
  let pool := heap + 0x06000000 in
  mkBoardConfig pool (0x40000000 + 0x10000000 - pool) heap.
Definition raspi3_board : BoardConfig :=
  let heap := 0x02000000 in
  let pool := heap + 0x04000000 in
  mkBoardConfig pool (0x3F000000 - pool) heap.

(** One turn of the loop that fills the array and the free list. *)
Definition init_page (phys_base i : Z) (st : list Page * PageList) : Exec (list Page * PageList) :=
  let '(a, l) := st in
  a <- store a (Z.to_nat i) (fun _ => mkPage (u64 (phys_base + u64 (i * PageSize))) 0 false false None None) ;;
  append_page_list a l (Z.to_nat i).

(** The loop that takes the pages of the array itself out of the free list. *)
Fixpoint reserve_metadata (turns : nat) (n start j : Z) (a : list Page) (l : PageList) : Exec (list Page * PageList) :=
  match turns with
  | O => Ok (a, l)
  | S turns' =>
      let idx := u64 (start + j) in
      if n <=? idx then Ok (a, l) else
      '(a, l) <- remove_page_list a l (Z.to_nat idx) ;;
      a <- store a (Z.to_nat idx) (with_use true true 1) ;;
      reserve_metadata turns' n start (j + 1) a l
  end.

Definition zero_page : Page := mkPage 0 0 false false None None.

Section Init.
Context (board : BoardConfig).

Definition init (s : Phys) : Exec Phys :=
  if initialized s then Ok s else
  if (PhysicalPagePoolBase board =? 0) || (PhysicalPagePoolSize board <? PageSize) then Fail StatusNotSupported else
  let phys_base := PhysicalPagePoolBase board in
  let phys_size := PhysicalPagePoolSize board in
  let n := u32 (phys_size / PageSize) in
  if n =? 0 then Fail StatusNotSupported else
  let page_array_bytes := u64 (n * page_struct_bytes) in
  let page_array_pages := u32 (u64 (page_array_bytes + PageSize - 1) / PageSize) in
  let page_array_phys := u64 (phys_base + phys_size - u64 (page_array_pages * PageSize)) in
  let a := replicate (Z.to_nat n) zero_page in
  '(a, l) <- for_range (Z.to_nat n) 0 (init_page phys_base) (a, mkPageList None None 0) ;;
  '(a, l) <- (if (phys_base <=? page_array_phys) && ((page_array_phys - phys_base) / PageSize <? n) then
                reserve_metadata (Z.to_nat page_array_pages) n ((page_array_phys - phys_base) / PageSize) 0 a l
              else Ok (a, l)) ;;
  Ok (mkPhys n a l true (EarlyHeapPhysicalBase board) phys_base (interrupts s) (cleared s)).

Definition reserved_heap_physical_base (s : Phys) : Z :=
  if initialized s && negb (reserved_heap_base s =? 0) then reserved_heap_base s
  else EarlyHeapPhysicalBase board.
End Init.

(** ** Operations *)

(** [const bool ints = save_and_disable_interrupts(); ... restore_interrupts(ints)]
    around a body; every return path of the code restores. *)
Definition without_interrupts {A} (m : Phys -> Exec (Phys * A)) (s : Phys) : Exec (Phys * A) :=
  let ints := interrupts s in
  '(s, r) <- m (with_interrupts false s) ;;
  Ok (with_interrupts ints s, r).

Definition take_page (s : Phys) (page : nat) : Exec Phys :=
  a <- store (page_array s) page (with_use true true 1) ;;
  pg <- load a page ;;
  Ok (clear_page (phys_addr pg) (with_pages a (free_pages s) s)).

Definition alloc_page (s : Phys) : Exec (Phys * Z) :=
  if negb (initialized s) then Ok (s, 0) else
  without_interrupts (fun s =>
    '(a, l, page) <- pop_page_list_tail (page_array s) (free_pages s) ;;
    let s := with_pages a l s in
    match page with
    | None => Ok (s, 0)
    | Some p =>
        s <- take_page s p ;;
        pg <- load (page_array s) p ;;
        Ok (s, phys_addr pg)
    end) s.

(** The first loop: do the first pages of the list follow each other in memory? *)
Fixpoint run_is_contiguous (turns : nat) (a : list Page) (cursor : option nat) (expected : Z) : Exec bool :=
  match turns with
  | O => Ok true
  | S n =>
      match cursor with
      | None => Ok false
      | Some c =>
          pg <- load a c ;;
          if negb (phys_addr pg =? expected) then Ok false
          else run_is_contiguous n a (next_page pg) (u64 (expected + PageSize))
      end
  end.

(** The second loop: take them; [false] when the list ran out. *)
Fixpoint take_run (turns : nat) (s : Phys) : Exec (Phys * bool) :=
  match turns with
  | O => Ok (s, true)
  | S n =>
      '(a, l, page) <- pop_page_list (page_array s) (free_pages s) ;;
      let s := with_pages a l s in
      match page with
      | None => Ok (s, false)
      | Some p => s <- take_page s p ;; take_run n s
      end
  end.

Definition reserve_contiguous_pages (page_count : Z) (s : Phys) : Exec (Phys * Z) :=
  without_interrupts (fun s =>
    if negb (initialized s) || (page_count =? 0) then Ok (s, 0) else
    if size (free_pages s) <? page_count then Ok (s, 0) else
    match head (free_pages s) with
    | None => Ok (s, 0)
    | Some c =>
        pg <- load (page_array s) c ;;
        let base_phys := phys_addr pg in
        contiguous <- run_is_contiguous (Z.to_nat page_count) (page_array s) (Some c) base_phys ;;
        if negb contiguous then Ok (s, 0) else
        '(s, complete) <- take_run (Z.to_nat page_count) s ;;
        if complete then Ok (s, base_phys) else Ok (s, 0)
    end) s.

(** One turn, [offset] counting down from [page_count]. *)
Definition release_one (base_phys : Z) (s : Phys) (offset : nat) : Exec Phys :=
  let page_phys := u64 (base_phys + u64 ((Z.of_nat offset - 1) * PageSize)) in
  match page_from_phys s (managed_phys_base s) page_phys with
  | None => Ok s
  | Some page =>
      a <- store (page_array s) page (with_use false false 0) ;;
      '(a, l) <- prepend_page_list a (free_pages s) page ;;
      Ok (with_pages a l s)
  end.

Fixpoint release_run (offset : nat) (base_phys : Z) (s : Phys) : Exec Phys :=
  match offset with
  | O => Ok s
  | S n => s <- release_one base_phys s offset ;; release_run n base_phys s
  end.

Definition release_contiguous_pages (base_phys page_count : Z) (s : Phys) : Exec (Phys * unit) :=
  without_interrupts (fun s =>
    if negb (initialized s) || (base_phys =? 0) || (page_count =? 0) then Ok (s, tt) else
    s <- release_run (Z.to_nat page_count) base_phys s ;; Ok (s, tt)) s.

Definition retain_page (phys : Z) (s : Phys) : Exec Phys :=
  if negb (initialized s) then Ok s else
  match page_from_phys s (managed_phys_base s) phys with
  | None => Ok s
  | Some page =>
      a <- store (page_array s) page (fun p => with_use true (kernel_page p) (u32 (ref_count p + 1)) p) ;;
      Ok (with_pages a (free_pages s) s)
  end.

(** [phys & ~(PageSize - 1ULL)]. *)
Definition page_base (phys : Z) : Z := Z.land phys (u64 (Z.lnot (u64 (PageSize - 1)))).

Definition free_page (phys : Z) (s : Phys) : Exec Phys :=
  if negb (initialized s) then Ok s else
  match page_from_phys s (managed_phys_base s) (page_base phys) with
  | None => Ok s
  | Some page =>
      pg <- load (page_array s) page ;;
      if ref_count pg =? 0 then Ok s else
      let count := u32 (ref_count pg - 1) in
      a <- store (page_array s) page (fun p => with_use (allocated p) (kernel_page p) count p) ;;
      if 0 <? count then Ok (with_pages a (free_pages s) s) else
      a <- store a page (with_use false false count) ;;
      '(a, l) <- append_page_list a (free_pages s) page ;;
      Ok (with_pages a l s)
  end.

Definition free_page_count (s : Phys) : Z :=
  if negb (initialized s) then 0 else size_page_list (free_pages s).

Definition page_refcount (phys : Z) (s : Phys) : Exec Z :=
  if negb (initialized s) then Ok 0 else
  match page_from_phys s (managed_phys_base s) (page_base phys) with
  | None => Ok 0
  | Some page => pg <- load (page_array s) page ;; Ok (ref_count pg)
  end.

Definition is_valid_phys_page (phys : Z) (s : Phys) : bool :=
  initialized s && (managed_phys_base s <=? phys) &&
  (phys - managed_phys_base s <? u64 (num_pages s * PageSize)) && (Z.land phys (PageSize - 1) =? 0).
