(* ===== verification/PhysMemProofs.v ===== *)
(** The free list of the physical page manager as a list of page indexes: each
    list operation of kernel/mm/physical.cpp on it, and the pages it leaves alone. *)
From stdpp Require Import base list numbers.
From Stdlib Require Import ZArith Lia.
From S2P Require Import Prelude PhysMem.

Local Open Scope Z_scope.

(** ** Memory *)
Definition nextf (a : list Page) (p : nat) : option nat := a !! p ≫= next_page.
Definition prevf (a : list Page) (p : nat) : option nat := a !! p ≫= prev_page.

(** Everything of a page but its links. *)
Definition use_of (p : Page) : Z * Z * bool * bool := (phys_addr p, ref_count p, allocated p, kernel_page p).

Lemma load_ok a p : (p < length a)%nat -> exists pg, a !! p = Some pg /\ load a p = Ok pg.
Proof.
  intros Hp. destruct (lookup_lt_is_Some_2 a p Hp) as [pg Hpg]. exists pg. split; [done|].
  apply aget_ok; [lia|]. by rewrite Nat2Z.id.
Qed.

Lemma load_lookup a p pg : a !! p = Some pg -> load a p = Ok pg.
Proof. intros Hp. apply aget_ok; [lia|]. by rewrite Nat2Z.id. Qed.

Lemma page_store_ok a p f : (p < length a)%nat -> store a p f = Ok (alter f p a).
Proof.
  intros Hp. unfold store. destruct (load_ok a p Hp) as (pg & Hpg & ->). rewrite bind_ok, aset_ok by lia.
  rewrite Nat2Z.id. f_equal. apply list_eq. intros q. destruct (decide (p = q)) as [<-|Hne].
  - rewrite list_lookup_insert_eq, list_lookup_alter_eq, Hpg by done. done.
  - by rewrite list_lookup_insert_ne, list_lookup_alter_ne.
Qed.

Lemma lookup_alter_if (f : Page -> Page) (p : nat) (a : list Page) (q : nat) :
  alter f p a !! q = if decide (p = q) then f <$> a !! q else a !! q.
Proof.
  destruct (decide (p = q)) as [<-|Hne]; [by rewrite list_lookup_alter_eq|by rewrite list_lookup_alter_ne].
Qed.

Section Links.
Context (a : list Page) (p q : nat) (v : option nat).
Hypothesis Hp : (p < length a)%nat.

Lemma nextf_with_next : nextf (alter (with_next v) p a) q = if decide (p = q) then v else nextf a q.
Proof.
  unfold nextf. rewrite lookup_alter_if. destruct (decide (p = q)) as [<-|]; [|done].
  by destruct (lookup_lt_is_Some_2 a p Hp) as [pg ->].
Qed.

Lemma prevf_with_prev : prevf (alter (with_prev v) p a) q = if decide (p = q) then v else prevf a q.
Proof.
  unfold prevf. rewrite lookup_alter_if. destruct (decide (p = q)) as [<-|]; [|done].
  by destruct (lookup_lt_is_Some_2 a p Hp) as [pg ->].
Qed.
End Links.

Lemma nextf_with_prev a p q v : nextf (alter (with_prev v) p a) q = nextf a q.
Proof. unfold nextf. rewrite lookup_alter_if. destruct (decide (p = q)); [|done]. by destruct (a !! q). Qed.

Lemma prevf_with_next a p q v : prevf (alter (with_next v) p a) q = prevf a q.
Proof. unfold prevf. rewrite lookup_alter_if. destruct (decide (p = q)); [|done]. by destruct (a !! q). Qed.

Lemma map_use_alter f p a : (forall pg, use_of (f pg) = use_of pg) -> map use_of (alter f p a) = map use_of a.
Proof.
  intros Hf. apply list_eq. intros q. rewrite !list_lookup_fmap, lookup_alter_if.
  destruct (decide (p = q)); [|done]. destruct (a !! q); [|done]. cbn. by rewrite Hf.
Qed.

Lemma use_with_next p v a : map use_of (alter (with_next v) p a) = map use_of a.
Proof. by apply map_use_alter. Qed.
Lemma use_with_prev p v a : map use_of (alter (with_prev v) p a) = map use_of a.
Proof. by apply map_use_alter. Qed.

Lemma map_use_length (a b : list Page) : map use_of a = map use_of b -> length a = length b.
Proof. intros H. apply (f_equal length) in H. by rewrite !length_map in H. Qed.

Create Rewrite HintDb phys.
#[export] Hint Rewrite use_with_next use_with_prev nextf_with_prev prevf_with_next : phys.

(** ** The representation *)
Definition before {A} (l : list A) (k : nat) : option A := match k with O => None | S j => l !! j end.

Record list_rep (a : list Page) (l : PageList) (fl : list nat) : Prop := {
  lr_nodup : NoDup fl;
  lr_in : forall p, p ∈ fl -> (p < length a)%nat;
  lr_links : forall k p, fl !! k = Some p -> nextf a p = fl !! S k /\ prevf a p = before fl k;
  lr_head : head l = fl !! 0%nat;
  lr_tail : tail l = list.last fl;
  lr_size : size l = len fl }.

Lemma rep_nil a : list_rep a (mkPageList None None 0) [].
Proof. split; try done; [constructor|by intros p Hp%not_elem_of_nil]. Qed.

(** What the list operations change: links only, and the page taken or given. *)
Definition relinked (a a' : list Page) : Prop := map use_of a' = map use_of a.

Ltac links := autorewrite with phys; rewrite ?nextf_with_next, ?prevf_with_prev by (rewrite ?length_alter; lia);
  autorewrite with phys; rewrite ?nextf_with_next, ?prevf_with_prev by (rewrite ?length_alter; lia).

Lemma last_index {A} (l : list A) t : list.last l = Some t -> l !! (length l - 1)%nat = Some t /\ (0 < length l)%nat.
Proof.
  intros H. rewrite last_lookup in H. replace (length l - 1)%nat with (Nat.pred (length l)) by lia. split; [done|].
  destruct l; [done|cbn; lia].
Qed.

Lemma append_rep a l fl p :
  list_rep a l fl -> p ∉ fl -> (p < length a)%nat -> len fl + 1 < 2 ^ 32 ->
  exists a' l', append_page_list a l p = Ok (a', l') /\ list_rep a' l' (fl ++ [p]) /\ relinked a a'.
Proof.
  intros [Hn Hin Hl Hh Ht Hs] Hp Hpl Hsz. unfold append_page_list. rewrite page_store_ok, bind_ok by done.
  assert (NoDup (fl ++ [p])) as Hn'.
  { apply list.NoDup_app. split_and!; [done| |apply NoDup_singleton]. intros x Hx Hxp. apply list_elem_of_singleton in Hxp. by subst. }
  assert (forall q, q ∈ fl ++ [p] -> (q < length a)%nat) as Hin'.
  { intros q [Hq|Hq%list_elem_of_singleton]%elem_of_app; [by apply Hin|by subst]. }
  rewrite Ht. destruct (list.last fl) as [t|] eqn:Hlast.
  - destruct (last_index _ _ Hlast) as [Hti Hlen]. assert (t ∈ fl) as Htin by (by eapply list_elem_of_lookup_2).
    pose proof (Hin t Htin). assert (t <> p) as Htp by (by intros ->).
    rewrite !page_store_ok, bind_ok, page_store_ok, bind_ok, bind_ok by (rewrite ?length_alter; done).
    eexists _, _. split; [done|]. split; [|unfold relinked; by autorewrite with phys].
    split; cbn [head tail size]; try done.
    + intros q Hq. rewrite !length_alter. by apply Hin'.
    + intros k q Hk. links. destruct (decide (k < length fl)%nat) as [Hlt|Hge].
      * rewrite lookup_app_l in Hk by done. assert (q <> p) by (intros ->; apply Hp; by eapply list_elem_of_lookup_2).
        rewrite !(decide_False (P := p = q)) by done. destruct (Hl k q Hk) as [-> ->]. split.
        -- destruct (decide (t = q)) as [->|Hne].
           ++ assert (k = (length fl - 1)%nat) as -> by (by apply (NoDup_lookup fl _ _ q)).
              rewrite lookup_app_r by lia. by replace (S (length fl - 1) - length fl)%nat with 0%nat by lia.
           ++ assert (k <> length fl - 1)%nat by (intros ->; by simplify_eq). by rewrite lookup_app_l by lia.
        -- destruct k; [done|]. cbn [before]. by rewrite lookup_app_l by lia.
      * assert (k = length fl) as ->.
        { apply lookup_lt_Some in Hk. rewrite length_app in Hk. cbn in Hk. lia. }
        rewrite lookup_app_r, Nat.sub_diag in Hk by lia. injection Hk as <-.
        rewrite (decide_False (P := t = p)), !(decide_True (P := p = p)) by done. split.
        -- rewrite lookup_ge_None_2; [done|]. rewrite length_app. cbn. lia.
        -- destruct (length fl) as [|n] eqn:E; [lia|]. cbn [before]. rewrite lookup_app_l by lia.
           by replace n with (S n - 1)%nat by lia.
    + rewrite Hh. destruct fl; [done|done].
    + by rewrite last_snoc.
    + rewrite length_app, u32_small; cbn; lia.
  - apply last_None in Hlast as ->. rewrite page_store_ok, bind_ok, bind_ok by (rewrite ?length_alter; done).
    eexists _, _. split; [done|]. split; [|unfold relinked; by autorewrite with phys].
    split; cbn [head tail size]; try done.
    + intros q Hq. rewrite !length_alter. by apply Hin'.
    + intros [|k] q Hk; [|done]. injection Hk as <-. links. by rewrite !decide_True.
    + rewrite u32_small; cbn in *; lia.
Qed.

Lemma prepend_rep a l fl p :
  list_rep a l fl -> p ∉ fl -> (p < length a)%nat -> len fl + 1 < 2 ^ 32 ->
  exists a' l', prepend_page_list a l p = Ok (a', l') /\ list_rep a' l' (p :: fl) /\ relinked a a'.
Proof.
  intros [Hn Hin Hl Hh Ht Hs] Hp Hpl Hsz. unfold prepend_page_list. rewrite page_store_ok, bind_ok by done.
  assert (NoDup (p :: fl)) as Hn' by (by apply list.NoDup_cons).
  assert (forall q, q ∈ p :: fl -> (q < length a)%nat) as Hin'.
  { intros q [->|Hq]%elem_of_cons; [done|by apply Hin]. }
  rewrite Hh. destruct fl as [|h fl]; cbn [lookup list_lookup].
  - rewrite page_store_ok, bind_ok, bind_ok by (rewrite ?length_alter; done).
    eexists _, _. split; [done|]. split; [|unfold relinked; by autorewrite with phys].
    split; cbn [head tail size]; try done.
    + intros q Hq. rewrite !length_alter. by apply Hin'.
    + intros [|k] q Hk; [|done]. injection Hk as <-. links. by rewrite !decide_True.
    + rewrite u32_small; cbn in *; lia.
  - assert (h < length a)%nat by (apply Hin; constructor). assert (h <> p) by (intros ->; apply Hp; constructor).
    rewrite !page_store_ok, bind_ok, page_store_ok, bind_ok, bind_ok by (rewrite ?length_alter; done).
    eexists _, _. split; [done|]. split; [|unfold relinked; by autorewrite with phys].
    split; cbn [head tail size]; try done.
    + intros q Hq. rewrite !length_alter. by apply Hin'.
    + intros [|k] q Hk.
      * injection Hk as <-. links. by rewrite decide_True, (decide_False (P := h = p)), decide_True by done.
      * change ((h :: fl) !! k = Some q) in Hk. links.
        assert (q <> p) by (intros ->; apply Hp; by eapply list_elem_of_lookup_2).
        rewrite !(decide_False (P := p = q)) by done. destruct (Hl k q Hk) as [-> ->]. split; [done|].
        destruct k as [|k].
        -- injection Hk as <-. by rewrite decide_True.
        -- rewrite decide_False; [done|]. intros ->. assert (0 = S k)%nat; [|done]. by apply (NoDup_lookup (q :: fl) _ _ q).
    + rewrite u32_small; cbn [length] in *; lia.
Qed.

(** A store through a pointer that may be NULL. *)
Definition alter_opt (f : Page -> Page) (o : option nat) (a : list Page) : list Page :=
  match o with Some p => alter f p a | None => a end.

Lemma length_alter_opt f o a : length (alter_opt f o a) = length a.
Proof. destruct o; [apply length_alter|done]. Qed.

Lemma nextf_alter_opt a o v q :
  (forall p, o = Some p -> (p < length a)%nat) ->
  nextf (alter_opt (with_next v) o a) q = if decide (o = Some q) then v else nextf a q.
Proof.
  intros Ho. destruct o as [p|]; cbn [alter_opt].
  - rewrite nextf_with_next by auto. destruct (decide (p = q)), (decide (Some p = Some q)); congruence.
  - by rewrite decide_False.
Qed.

Lemma prevf_alter_opt a o v q :
  (forall p, o = Some p -> (p < length a)%nat) ->
  prevf (alter_opt (with_prev v) o a) q = if decide (o = Some q) then v else prevf a q.
Proof.
  intros Ho. destruct o as [p|]; cbn [alter_opt].
  - rewrite prevf_with_prev by auto. destruct (decide (p = q)), (decide (Some p = Some q)); congruence.
  - by rewrite decide_False.
Qed.

Lemma nextf_alter_opt_prev a o v q : nextf (alter_opt (with_prev v) o a) q = nextf a q.
Proof. destruct o; [apply nextf_with_prev|done]. Qed.
Lemma prevf_alter_opt_next a o v q : prevf (alter_opt (with_next v) o a) q = prevf a q.
Proof. destruct o; [apply prevf_with_next|done]. Qed.

Lemma use_alter_opt f o a : (forall pg, use_of (f pg) = use_of pg) -> map use_of (alter_opt f o a) = map use_of a.
Proof. intros Hf. destruct o; [by apply map_use_alter|done]. Qed.

(** The memory after [node], between [pv] and [nx], is unlinked. *)
Definition unlinked (a : list Page) (node : nat) (pv nx : option nat) : list Page :=
  alter (with_prev None) node (alter (with_next None) node
    (alter_opt (with_prev pv) nx (alter_opt (with_next nx) pv a))).

Lemma remove_runs a l p pv nx :
  (p < length a)%nat -> nextf a p = nx -> prevf a p = pv ->
  (forall q, pv = Some q \/ nx = Some q -> (q < length a)%nat /\ q <> p) -> 0 < size l < 2 ^ 32 ->
  remove_page_list a l p =
  Ok (unlinked a p pv nx,
      mkPageList (match pv with Some _ => head l | None => nx end) (match nx with Some _ => tail l | None => pv end)
        (size l - 1)).
Proof.
  intros Hp Hn Hv Ho Hs. unfold remove_page_list. destruct (load_ok a p Hp) as (n & Hna & ->). rewrite bind_ok.
  unfold nextf, prevf in Hn, Hv. rewrite Hna in Hn, Hv. cbn in Hn, Hv. subst pv nx.
  set (a1 := alter_opt (with_next (next_page n)) (prev_page n) a).
  assert (a1 !! p = Some n) as H1.
  { unfold a1. destruct (prev_page n) as [v|] eqn:Ev; cbn [alter_opt]; [|done].
    rewrite lookup_alter_if, decide_False; [done|]. apply (Ho v). auto. }
  assert (length a1 = length a) as Hl1 by apply length_alter_opt.
  assert (bind (match prev_page n with
    | Some q => a <- store a q (with_next (next_page n)) ;; Ok (a, head l)
    | None => Ok (a, next_page n) end) = @bind _ (list Page * PageList) (Ok (a1, match prev_page n with Some _ => head l | None => next_page n end))) as ->.
  { unfold a1. destruct (prev_page n) as [v|] eqn:Ev; cbn [alter_opt]; [|done].
    destruct (Ho v) as [Hv _]; [auto|]. by rewrite page_store_ok, bind_ok. }
  rewrite bind_ok, (load_lookup a1 p n), bind_ok by done. unfold unlinked. fold a1.
  destruct (next_page n) as [x|] eqn:Ex; cbn [alter_opt].
  - destruct (Ho x) as [Hx _]; [auto|]. rewrite page_store_ok, !bind_ok by lia.
    rewrite !page_store_ok, bind_ok, page_store_ok, bind_ok by (rewrite ?length_alter; lia).
    destruct (Z.ltb_spec 0 (size l)); [|lia]. by rewrite u32_small by lia.
  - rewrite bind_ok, !page_store_ok, bind_ok, page_store_ok, bind_ok by (rewrite ?length_alter; lia).
    destruct (Z.ltb_spec 0 (size l)); [|lia]. by rewrite u32_small by lia.
Qed.

Section Unlink.
Context (a : list Page) (l : PageList) (l1 l2 : list nat) (p : nat).
Let fl : list nat := l1 ++ p :: l2.
Hypothesis Hrep : list_rep a l fl.
Hypothesis Hmax : len fl < 2 ^ 32.

Let pv : option nat := before fl (length l1).
Let nx : option nat := fl !! S (length l1).

Lemma unlink_at : fl !! length l1 = Some p.
Proof. unfold fl. by rewrite lookup_app_r, Nat.sub_diag by lia. Qed.

Lemma unlink_rest k : (l1 ++ l2) !! k = if decide (k < length l1)%nat then fl !! k else fl !! S k.
Proof.
  unfold fl. destruct (decide (k < length l1)%nat).
  - by rewrite !lookup_app_l by lia.
  - rewrite !lookup_app_r by lia. by replace (S k - length l1)%nat with (S (k - length l1)) by lia.
Qed.

Lemma unlink_inj i j q : fl !! i = Some q -> fl !! j = Some q -> i = j.
Proof. apply NoDup_lookup, Hrep. Qed.

Lemma unlink_pre :
  (p < length a)%nat /\ nextf a p = nx /\ prevf a p = pv /\
  (forall q, pv = Some q \/ nx = Some q -> (q < length a)%nat /\ q <> p).
Proof.
  destruct (lr_links _ _ _ Hrep _ _ unlink_at) as [H1 H2]. split_and!; try done.
  - apply (lr_in _ _ _ Hrep). apply (list_elem_of_lookup_2 _ _ _ unlink_at).
  - intros q Hq. assert (exists i, i <> length l1 /\ fl !! i = Some q) as (i & Hi & Hq').
    { unfold pv, nx in Hq. destruct Hq as [Hq|Hq]; [|exists (S (length l1)); split; [lia|done]].
      unfold before in Hq. destruct (length l1) as [|n] eqn:E; [done|]. exists n. split; [lia|done]. }
    split; [apply (lr_in _ _ _ Hrep); by eapply list_elem_of_lookup_2|]. intros ->. apply Hi.
    by apply (unlink_inj _ _ p); [|apply unlink_at].
Qed.

Lemma unlinked_links k q :
  (l1 ++ l2) !! k = Some q ->
  nextf (unlinked a p pv nx) q = (l1 ++ l2) !! S k /\ prevf (unlinked a p pv nx) q = before (l1 ++ l2) k.
Proof.
  intros Hk. destruct unlink_pre as (Hp & _ & _ & Ho).
  set (i := if decide (k < length l1)%nat then k else S k).
  assert (fl !! i = Some q) as Hi by (unfold i; rewrite unlink_rest in Hk; by destruct (decide _)).
  assert (q <> p) as Hqp.
  { intros ->. pose proof (unlink_inj _ _ _ Hi unlink_at). unfold i in *. destruct (decide _); lia. }
  destruct (lr_links _ _ _ Hrep _ _ Hi) as [Hn Hv]. unfold unlinked.
  rewrite nextf_with_prev, nextf_with_next by (rewrite !length_alter_opt; done).
  rewrite prevf_with_prev by (rewrite length_alter, !length_alter_opt; done). rewrite prevf_with_next.
  rewrite !(decide_False (P := p = q)) by done.
  rewrite nextf_alter_opt_prev, nextf_alter_opt by (intros r Hr; apply Ho; auto).
  rewrite prevf_alter_opt by (rewrite ?length_alter_opt; intros r Hr; rewrite ?length_alter_opt; apply Ho; auto).
  rewrite prevf_alter_opt_next, Hn, Hv. split.
  - rewrite unlink_rest. destruct (decide (pv = Some q)) as [Eq|Ne].
    + assert (S i = length l1) as Hil.
      { unfold pv, before in Eq. destruct (length l1) as [|n] eqn:E; [done|]. f_equal. by apply (unlink_inj _ _ q). }
      unfold i in Hil. destruct (decide (k < length l1)%nat); [|lia]. rewrite decide_False by lia. unfold nx. by rewrite Hil.
    + unfold i in *. destruct (decide (k < length l1)%nat).
      * destruct (decide (S k < length l1)%nat); [done|]. exfalso. apply Ne. unfold pv, before.
        replace (length l1) with (S k) by lia. done.
      * by rewrite decide_False by lia.
  - destruct (decide (nx = Some q)) as [Eq|Ne].
    + pose proof (unlink_inj _ _ _ Hi Eq) as Hil. unfold i in Hil. destruct (decide (k < length l1)%nat); [lia|].
      assert (k = length l1) as -> by lia. unfold pv, before. destruct (length l1) as [|m] eqn:E; [done|].
      rewrite unlink_rest, E. by rewrite decide_True by lia.
    + unfold i in *. destruct (decide (k < length l1)%nat).
      * destruct k as [|k]; [done|]. cbn [before]. rewrite unlink_rest. by rewrite decide_True by lia.
      * destruct k as [|k]; cbn [before].
        -- exfalso. apply Ne. unfold nx. by replace (length l1) with 0%nat by lia.
        -- rewrite unlink_rest. destruct (decide (k < length l1)%nat); [|done]. exfalso. apply Ne. unfold nx.
           by replace (length l1) with (S k) by lia.
Qed.

Lemma unlinked_rep :
  list_rep (unlinked a p pv nx)
    (mkPageList (match pv with Some _ => head l | None => nx end) (match nx with Some _ => tail l | None => pv end) (size l - 1))
    (l1 ++ l2) /\ relinked a (unlinked a p pv nx).
Proof.
  pose proof Hrep as [Hn Hin Hl Hh Ht Hs]. split; [split; cbn [head tail size]|].
  - unfold fl in Hn. rewrite <- Permutation_middle in Hn. by apply list.NoDup_cons in Hn as [_ ?].
  - intros q Hq. unfold unlinked. rewrite !length_alter, !length_alter_opt. apply Hin. unfold fl.
    rewrite elem_of_app in *. rewrite elem_of_cons. tauto.
  - apply unlinked_links.
  - unfold pv, nx. rewrite Hh. unfold fl. destruct l1 as [|x r]; cbn [length before app]; [done|].
    destruct (lookup_lt_is_Some_2 ((x :: r) ++ p :: l2) (length r)) as [y Hy]; [rewrite length_app; cbn; lia|].
    cbn [app] in Hy. by rewrite Hy.
  - unfold nx, pv, fl. rewrite Ht. unfold fl. rewrite lookup_app_r by lia.
    replace (S (length l1) - length l1)%nat with 1%nat by lia. destruct l2 as [|y r].
    + cbn [lookup list_lookup]. rewrite app_nil_r. unfold before. destruct l1 as [|x r] using rev_ind; [done|].
      rewrite length_app. cbn [length]. rewrite Nat.add_1_r, last_snoc, <- app_assoc, lookup_app_r, Nat.sub_diag by lia. done.
    + cbn [lookup list_lookup]. by rewrite !last_app_cons, last_cons_cons.
  - rewrite Hs. unfold fl. rewrite !length_app. cbn [length]. lia.
  - unfold relinked, unlinked. rewrite use_with_prev, use_with_next, !use_alter_opt; done.
Qed.
End Unlink.

Lemma remove_rep a l l1 p l2 :
  list_rep a l (l1 ++ p :: l2) -> len (l1 ++ p :: l2) < 2 ^ 32 ->
  exists a' l', remove_page_list a l p = Ok (a', l') /\ list_rep a' l' (l1 ++ l2) /\ relinked a a'.
Proof.
  intros Hrep Hmax. destruct (unlink_pre a l l1 l2 p Hrep) as (Hp & Hn & Hv & Ho).
  eexists _, _. split; [|by apply (unlinked_rep a l l1 l2 p)].
  apply remove_runs; try done. rewrite (lr_size _ _ _ Hrep), length_app in *. cbn [length] in *. lia.
Qed.

Lemma pop_rep a l p r :
  list_rep a l (p :: r) -> len (p :: r) < 2 ^ 32 ->
  exists a' l', pop_page_list a l = Ok (a', l', Some p) /\ list_rep a' l' r /\ relinked a a'.
Proof.
  intros Hrep Hmax. destruct (unlink_pre a l [] r p Hrep) as (Hp & Hn & Hv & Ho).
  destruct (unlinked_rep a l [] r p Hrep Hmax) as [Hrep' Hrel]. eexists _, _. split; [|split; [exact Hrep'|exact Hrel]].
  pose proof (lr_size _ _ _ Hrep) as Hs. unfold pop_page_list. rewrite (lr_head _ _ _ Hrep). cbn [lookup list_lookup].
  destruct (load_ok a p Hp) as (n & Hna & ->). rewrite bind_ok. cbn [app length before] in *.
  unfold nextf in Hn. rewrite Hna in Hn. cbn in Hn. rewrite Hn.
  unfold unlinked. cbn [alter_opt]. destruct (r !! 0%nat) as [x|] eqn:Ex; cbn [alter_opt lookup list_lookup] in *.
  - destruct (Ho x) as [Hx _]; [auto|]. rewrite page_store_ok, bind_ok by done.
    rewrite !page_store_ok, bind_ok, page_store_ok, bind_ok by (rewrite ?length_alter; done). rewrite Ex, u32_small by lia. done.
  - rewrite bind_ok, !page_store_ok, bind_ok, page_store_ok, bind_ok by (rewrite ?length_alter; done).
    rewrite Ex, u32_small by lia. done.
Qed.

Lemma pop_tail_rep a l p r :
  list_rep a l (r ++ [p]) -> len (r ++ [p]) < 2 ^ 32 ->
  exists a' l', pop_page_list_tail a l = Ok (a', l', Some p) /\ list_rep a' l' r /\ relinked a a'.
Proof.
  intros Hrep Hmax. destruct (unlink_pre a l r [] p Hrep) as (Hp & Hn & Hv & Ho).
  destruct (unlinked_rep a l r [] p Hrep Hmax) as [Hrep' Hrel]. rewrite app_nil_r in Hrep'.
  assert ((r ++ [p]) !! S (length r) = None) as Enx by (apply lookup_ge_None_2; rewrite length_app; cbn; lia).
  rewrite Enx in *. eexists _, _. split; [|split; [exact Hrep'|exact Hrel]].
  pose proof (lr_size _ _ _ Hrep) as Hs. rewrite length_app in Hs, Hmax. cbn [length] in Hs, Hmax.
  unfold pop_page_list_tail. rewrite (lr_tail _ _ _ Hrep), last_snoc.
  destruct (load_ok a p Hp) as (n & Hna & ->). rewrite bind_ok.
  unfold prevf in Hv. rewrite Hna in Hv. cbn in Hv. rewrite Hv.
  unfold unlinked. cbn [alter_opt]. destruct (before (r ++ [p]) (length r)) as [x|] eqn:Ex; cbn [alter_opt].
  - destruct (Ho x) as [Hx _]; [auto|]. rewrite page_store_ok, !bind_ok by done.
    rewrite !page_store_ok, bind_ok, page_store_ok, bind_ok by (rewrite ?length_alter; done). by rewrite u32_small by lia.
  - rewrite bind_ok, !page_store_ok, bind_ok, page_store_ok, bind_ok by (rewrite ?length_alter; done). by rewrite u32_small by lia.
Qed.
