(* ===== verification/PhysMemSpec.v ===== *)
(** What the physical page manager promises: a pool of reference-counted pages
    with an ordered free list.  The operations of kernel/mm/physical.cpp refine
    it, and the free list stays well formed under every sequence of calls that
    keeps the contract of kernel/include/mm/physical.h. *)
From stdpp Require Import base list numbers.
From Stdlib Require Import ZArith Lia.
From S2P Require Import Prelude PhysMem PhysMemProofs.

Local Open Scope Z_scope.

(** ** The abstract pool *)
Record Pool : Type := mkPool { po_free : list nat; po_refs : list Z }.

Definition set_ref (i : nat) (r : Z) (refs : list Z) : list Z := <[i := r]> refs.

Definition pool_alloc (P : Pool) : Pool * option nat :=
  match list.last (po_free P) with
  | None => (P, None)
  | Some i => (mkPool (take (length (po_free P) - 1) (po_free P)) (set_ref i 1 (po_refs P)), Some i)
  end.

Definition pool_free (i : nat) (P : Pool) : Pool :=
  match po_refs P !! i with
  | None => P
  | Some r =>
      if r =? 0 then P
      else if r =? 1 then mkPool (po_free P ++ [i]) (set_ref i 0 (po_refs P))
      else mkPool (po_free P) (set_ref i (r - 1) (po_refs P))
  end.

Definition pool_retain (i : nat) (P : Pool) : Pool :=
  match po_refs P !! i with
  | None => P
  | Some r => mkPool (po_free P) (set_ref i (r + 1) (po_refs P))
  end.

(** The first [n] free pages, if they are consecutive. *)
Definition pool_reserve (n : nat) (P : Pool) : Pool * option nat :=
  match po_free P with
  | [] => (P, None)
  | b :: _ =>
      if decide (take n (po_free P) = seq b n /\ (0 < n)%nat) then
        (mkPool (drop n (po_free P)) (foldl (fun refs i => set_ref i 1 refs) (po_refs P) (seq b n)), Some b)
      else (P, None)
  end.

(** The run of [n] pages from [b] goes back to the front of the list. *)
Definition pool_release (b n : nat) (P : Pool) : Pool :=
  let run := seq b (Nat.min n (length (po_refs P) - b)) in
  mkPool (run ++ po_free P) (foldl (fun refs i => set_ref i 0 refs) (po_refs P) run).

(** ** The concrete state stands for a pool *)
Record page_ok (base : Z) (P : Pool) (i : nat) (pg : Page) : Prop := {
  po_addr : phys_addr pg = base + Z.of_nat i * PageSize;
  po_ref : po_refs P !! i = Some (ref_count pg);
  po_range : 0 <= ref_count pg < 2 ^ 32;
  po_alloc : allocated pg = negb (ref_count pg =? 0);
  po_idle : i ∈ po_free P <-> ref_count pg = 0 }.

Record phys_rep (s : Phys) (P : Pool) : Prop := {
  pr_init : initialized s = true;
  pr_num : num_pages s = len (page_array s);
  pr_refs : length (po_refs P) = length (page_array s);
  pr_base : 0 < managed_phys_base s /\ managed_phys_base s mod PageSize = 0;
  pr_top : managed_phys_base s + len (page_array s) * PageSize <= 2 ^ 64;
  pr_max : len (page_array s) < 2 ^ 32 - 1;
  pr_list : list_rep (page_array s) (free_pages s) (po_free P);
  pr_pages : forall i pg, page_array s !! i = Some pg -> page_ok (managed_phys_base s) P i pg }.

Lemma relinked_page a a' i pg' :
  relinked a a' -> a' !! i = Some pg' -> exists pg, a !! i = Some pg /\ use_of pg = use_of pg'.
Proof.
  intros Hr Hi. assert (map use_of a' !! i = Some (use_of pg')) as Hm by (by rewrite list_lookup_fmap, Hi).
  rewrite Hr, list_lookup_fmap in Hm. destruct (a !! i) as [pg|]; [|done]. cbn in Hm. injection Hm as H1 H2 H3 H4.
  exists pg. split; [done|]. unfold use_of. by rewrite H1, H2, H3, H4.
Qed.

Lemma page_ok_use base P i pg pg' : use_of pg = use_of pg' -> page_ok base P i pg -> page_ok base P i pg'.
Proof.
  intros Hu [H1 H2 H3 H4 H5]. unfold use_of in Hu. injection Hu as E1 E2 E3 E4.
  split; rewrite <- ?E1, <- ?E2, <- ?E3; done.
Qed.

(** Reading a page by address. *)
Lemma page_index s P phys :
  phys_rep s P -> 0 <= phys ->
  page_from_phys s (managed_phys_base s) phys =
  (let i := Z.to_nat ((phys - managed_phys_base s) / PageSize) in
   if (managed_phys_base s <=? phys) && (Z.of_nat i <? len (page_array s)) then Some i else None).
Proof.
  intros H Hp. unfold page_from_phys. cbv zeta. rewrite (pr_num _ _ H).
  pose proof (pr_base _ _ H) as [Hb _]. pose proof (pr_top _ _ H) as Ht. unfold PageSize in *.
  rewrite u64_small by lia. set (d := phys - managed_phys_base s).
  destruct (Z.ltb_spec phys (managed_phys_base s)); destruct (Z.leb_spec (managed_phys_base s) phys); try lia; cbn [orb andb]; [done|].
  pose proof (Z.div_mod d 4096 ltac:(lia)). pose proof (Z.mod_pos_bound d 4096 ltac:(lia)).
  assert (0 <= d / 4096) by (apply Z.div_pos; lia).
  destruct (Z.leb_spec (len (page_array s) * 4096) d); destruct (Z.ltb_spec (Z.of_nat (Z.to_nat (d / 4096))) (len (page_array s)));
    try done; lia.
Qed.

(** ** Changing one page *)
Lemma set_ref_lookup i j r refs :
  (i < length refs)%nat -> set_ref i r refs !! j = if decide (i = j) then Some r else refs !! j.
Proof.
  intros Hi. unfold set_ref. destruct (decide (i = j)) as [<-|Hne]; [by rewrite list_lookup_insert_eq|].
  by rewrite list_lookup_insert_ne.
Qed.

(** A page gets reference count [r] and the list becomes [fl']. *)
Lemma pages_update s P a' i (a k : bool) r fl' :
  phys_rep s P -> (i < length (page_array s))%nat -> 0 <= r < 2 ^ 32 -> a = negb (r =? 0) ->
  relinked (alter (with_use a k r) i (page_array s)) a' ->
  (i ∈ fl' <-> r = 0) -> (forall j, j <> i -> j ∈ fl' <-> j ∈ po_free P) ->
  forall j pg, a' !! j = Some pg -> page_ok (managed_phys_base s) (mkPool fl' (set_ref i r (po_refs P))) j pg.
Proof.
  intros H Hi Hr Ha Hrel Hfi Hfo j pg Hj. destruct (relinked_page _ _ _ _ Hrel Hj) as (pg0 & Hj0 & Hu).
  apply (page_ok_use _ _ _ pg0); [done|]. rewrite lookup_alter_if in Hj0.
  pose proof (pr_refs _ _ H) as Hlen. destruct (decide (i = j)) as [<-|Hne].
  - destruct (page_array s !! i) as [pg1|] eqn:E; [|done]. injection Hj0 as <-.
    destruct (pr_pages _ _ H _ _ E) as [H1 H2 H3 H4 H5]. split; cbn [phys_addr ref_count allocated with_use po_free po_refs]; try done.
    rewrite set_ref_lookup by lia. by rewrite decide_True.
  - destruct (pr_pages _ _ H _ _ Hj0) as [H1 H2 H3 H4 H5]. split; cbn [po_free po_refs]; try done.
    + rewrite set_ref_lookup by lia. by rewrite decide_False.
    + rewrite Hfo by done. done.
Qed.

Lemma length_relinked a a' : relinked a a' -> length a' = length a.
Proof. intros H. by apply map_use_length. Qed.

(** Relinking and changing the use of a page commute. *)
Lemma relinked_use a a' i x k r : relinked a a' -> relinked (alter (with_use x k r) i a) (alter (with_use x k r) i a').
Proof.
  intros Hr. unfold relinked in *. apply list_eq. intros j. rewrite !list_lookup_fmap, !lookup_alter_if.
  assert (map use_of a' !! j = map use_of a !! j) as Hj by (by rewrite Hr). rewrite !list_lookup_fmap in Hj.
  destruct (decide (i = j)); [|done]. destruct (a' !! j), (a !! j); try done. cbn in *. injection Hj as E1 E2 E3 E4.
  unfold use_of. cbn. by rewrite E1.
Qed.

Lemma rep_update s P a' l' i (a k : bool) r fl' :
  phys_rep s P -> (i < length (page_array s))%nat -> 0 <= r < 2 ^ 32 -> a = negb (r =? 0) ->
  relinked (alter (with_use a k r) i (page_array s)) a' -> list_rep a' l' fl' ->
  (i ∈ fl' <-> r = 0) -> (forall j, j <> i -> j ∈ fl' <-> j ∈ po_free P) ->
  phys_rep (with_pages a' l' s) (mkPool fl' (set_ref i r (po_refs P))).
Proof.
  intros H Hi Hr Ha Hrel Hlist Hfi Hfo. pose proof (length_relinked _ _ Hrel) as Hl. rewrite length_alter in Hl.
  pose proof (pages_update s P a' i a k r fl' H Hi Hr Ha Hrel Hfi Hfo) as Hpages.
  destruct H as [H1 H2 H3 H4 H5 H6 H7 H8]. split; cbn [with_pages initialized num_pages page_array free_pages managed_phys_base]; try done.
  - by rewrite Hl.
  - unfold set_ref. cbn [po_refs]. rewrite length_insert. lia.
  - by rewrite Hl.
  - by rewrite Hl.
Qed.

Lemma free_bound s P : phys_rep s P -> (length (po_free P) <= length (page_array s))%nat.
Proof.
  intros H. pose proof (pr_list _ _ H) as [Hn Hin _ _ _ _]. rewrite <- (length_seq (length (page_array s)) 0).
  apply List.NoDup_incl_length; [by apply NoDup_ListNoDup|]. intros p Hp. apply in_seq. split; [lia|].
  apply Hin. by apply list_elem_of_In.
Qed.

Lemma free_page_idle s P i : phys_rep s P -> i ∈ po_free P -> po_refs P !! i = Some 0 /\ (i < length (page_array s))%nat.
Proof.
  intros H Hi. pose proof (lr_in _ _ _ (pr_list _ _ H) i Hi) as Hl. split; [|done].
  destruct (lookup_lt_is_Some_2 _ _ Hl) as [pg Hpg]. destruct (pr_pages _ _ H i pg Hpg) as [_ H2 _ _ H5].
  rewrite H2. f_equal. by apply H5.
Qed.

(** The state apart from pages and list. *)
Definition frame (s s' : Phys) : Prop :=
  managed_phys_base s' = managed_phys_base s /\ num_pages s' = num_pages s /\
  reserved_heap_base s' = reserved_heap_base s /\ interrupts s' = interrupts s.

Lemma rep_clear s P x : phys_rep s P -> phys_rep (clear_page x s) P.
Proof. intros [? ? ? ? ? ? ? ?]. by split. Qed.
Lemma rep_interrupts s P b : phys_rep s P -> phys_rep (with_interrupts b s) P.
Proof. intros [? ? ? ? ? ? ? ?]. by split. Qed.

Lemma take_page_ok s i :
  (i < length (page_array s))%nat ->
  exists pg, page_array s !! i = Some pg /\
    take_page s i = Ok (clear_page (phys_addr pg) (with_pages (alter (with_use true true 1) i (page_array s)) (free_pages s) s)).
Proof.
  intros Hi. destruct (lookup_lt_is_Some_2 _ _ Hi) as [pg Hpg]. exists pg. split; [done|]. unfold take_page.
  rewrite page_store_ok, bind_ok by done.
  rewrite (load_lookup _ i (with_use true true 1 pg)), bind_ok; [done|]. by rewrite lookup_alter_if, decide_True, Hpg.
Qed.

Lemma list_rep_use a l fl i x k r : list_rep a l fl -> list_rep (alter (with_use x k r) i a) l fl.
Proof.
  intros [Hn Hin Hlk Hh Ht Hs]. split; try done.
  - intros p Hp. rewrite length_alter. by apply Hin.
  - intros j p Hj. destruct (Hlk j p Hj) as [E1 E2].
    unfold nextf, prevf in *. rewrite lookup_alter_if. destruct (decide (i = p)); [|done]. by destruct (a !! p).
Qed.

(** Taking a free page out of the list and into use. *)
Lemma rep_taken s P a l i fl' :
  phys_rep s P -> i ∈ po_free P -> list_rep a l fl' -> relinked (page_array s) a ->
  i ∉ fl' -> (forall j, j <> i -> j ∈ fl' <-> j ∈ po_free P) ->
  phys_rep (with_pages (alter (with_use true true 1) i a) l s) (mkPool fl' (set_ref i 1 (po_refs P))).
Proof.
  intros H Hi Hl Hr Hni Hfo. destruct (free_page_idle _ _ _ H Hi) as [_ Hlt].
  apply (rep_update s P _ _ i true true 1);
    [done|done|lia|done|by apply relinked_use|by apply list_rep_use|split; [done|lia]|done].
Qed.

(** ** Each operation *)
Definition addr_of (s : Phys) (r : option nat) : Z :=
  match r with Some i => managed_phys_base s + Z.of_nat i * PageSize | None => 0 end.

Lemma frame_refl s : frame s s.
Proof. done. Qed.

Lemma alloc_refines s P :
  phys_rep s P ->
  exists s', alloc_page s = Ok (s', addr_of s (snd (pool_alloc P))) /\ phys_rep s' (fst (pool_alloc P)) /\ frame s s' /\
    cleared s' = cleared s ++ match snd (pool_alloc P) with Some i => [addr_of s (Some i)] | None => [] end.
Proof.
  intros H. unfold alloc_page. rewrite (pr_init _ _ H). cbn [negb]. unfold without_interrupts.
  set (s0 := with_interrupts false s). pose proof (rep_interrupts s P false H) as H0. fold s0 in H0.
  pose proof (pr_list _ _ H0) as Hlist. unfold pool_alloc. destruct (list.last (po_free P)) as [i|] eqn:Hlast.
  - destruct (last_index _ _ Hlast) as [Hli Hpos]. apply last_Some in Hlast as [r Hr].
    assert (take (length (po_free P) - 1) (po_free P) = r) as ->.
    { rewrite Hr, length_app. cbn [length]. apply take_app_length'. lia. }
    pose proof (free_bound _ _ H0) as Hb. pose proof (pr_max _ _ H0) as Hm. pose proof (lr_nodup _ _ _ Hlist) as Hnd.
    assert (i ∈ po_free P) as Hi by (by eapply list_elem_of_lookup_2). rewrite Hr in Hlist, Hb, Hnd.
    destruct (pop_tail_rep _ _ i r Hlist ltac:(lia)) as (a & l & -> & Hrep & Hrel). rewrite bind_ok.
    apply list.NoDup_app in Hnd as (_ & Hnd & _).
    assert (i ∉ r) as Hni by (intros Hx; apply (Hnd i Hx); by apply list_elem_of_singleton).
    destruct (free_page_idle _ _ _ H0 Hi) as [_ Hlt]. pose proof (length_relinked _ _ Hrel) as Hlen.
    set (s1 := with_pages a l s0). destruct (take_page_ok s1 i) as (pg & Hpg & ->); [cbn; lia|]. rewrite !bind_ok.
    cbn [page_array clear_page with_pages].
    rewrite (load_lookup _ i (with_use true true 1 pg)), !bind_ok by (rewrite lookup_alter_if, decide_True, Hpg by done; done).
    assert (phys_addr pg = addr_of s (Some i)) as Ea.
    { destruct (relinked_page _ _ _ _ Hrel Hpg) as (pg0 & H00 & Hu). apply (f_equal (fun x => fst (fst (fst x)))) in Hu.
      cbn in Hu. rewrite <- Hu. apply (po_addr _ _ _ _ (pr_pages _ _ H0 _ _ H00)). }
    cbn [phys_addr with_use fst snd]. rewrite Ea. eexists. split; [reflexivity|]. split_and!; [|done|done].
    apply (rep_interrupts (clear_page _ (with_pages _ _ s0))), rep_clear. apply rep_taken; try done.
    intros j Hj. rewrite Hr, elem_of_app, list_elem_of_singleton. tauto.
  - apply last_None in Hlast. unfold pop_page_list_tail. rewrite (lr_tail _ _ _ Hlist), Hlast. cbn [list.last]. rewrite !bind_ok.
    cbn [fst snd]. eexists. split; [reflexivity|]. split_and!; [|done|by rewrite app_nil_r].
    destruct s. exact H.
Qed.

Definition index_of (s : Phys) (phys : Z) : option nat := page_from_phys s (managed_phys_base s) phys.

Lemma page_base_index s P phys :
  phys_rep s P -> 0 <= phys < 2 ^ 64 -> page_from_phys s (managed_phys_base s) (page_base phys) = index_of s phys.
Proof.
  intros H Hp. unfold index_of, page_base. change PageSize with (2 ^ 12). rewrite land_mask_down by lia.
  pose proof (pr_base _ _ H) as [Hb Hm]. change PageSize with 4096 in Hm. change (2 ^ 12) with 4096.
  pose proof (Z.div_mod phys 4096 ltac:(lia)). pose proof (Z.mod_pos_bound phys 4096 ltac:(lia)).
  pose proof (Z.div_mod (managed_phys_base s) 4096 ltac:(lia)).
  rewrite !(page_index s P) by (done || lia). cbv zeta. change PageSize with 4096.
  set (b := managed_phys_base s) in *.
  assert ((phys - phys mod 4096 - b) / 4096 = phys / 4096 - b / 4096) as ->.
  { symmetry. apply (Z.div_unique _ _ _ 0); lia. }
  assert ((phys - b) / 4096 = phys / 4096 - b / 4096) as ->.
  { symmetry. apply (Z.div_unique _ _ _ (phys mod 4096)); lia. }
  destruct (Z.leb_spec b phys), (Z.leb_spec b (phys - phys mod 4096)); try done; lia.
Qed.

Lemma index_lt s P phys i : phys_rep s P -> 0 <= phys -> index_of s phys = Some i -> (i < length (page_array s))%nat.
Proof.
  intros H Hp. unfold index_of. rewrite (page_index s P) by done. cbv zeta.
  destruct (_ && _) eqn:E; [|done]. intros [= <-]. zbool. lia.
Qed.

Lemma alter_const {A} (f g : A -> A) (i : nat) (a : list A) x : a !! i = Some x -> f x = g x -> alter f i a = alter g i a.
Proof.
  intros Hi Hfg. apply list_eq. intros j. destruct (decide (i = j)) as [<-|Hne].
  - rewrite !list_lookup_alter_eq, Hi. cbn. by rewrite Hfg.
  - by rewrite !list_lookup_alter_ne.
Qed.

Lemma alter_twice {A} (f g h : A -> A) (i : nat) (a : list A) :
  (forall x, f (g x) = h x) -> alter f i (alter g i a) = alter h i a.
Proof.
  intros Hfg. apply list_eq. intros j. destruct (decide (i = j)) as [<-|Hne].
  - rewrite !list_lookup_alter_eq. destruct (a !! i); cbn; [|done]. by rewrite Hfg.
  - by rewrite !list_lookup_alter_ne.
Qed.

Lemma free_refines s P phys :
  phys_rep s P -> 0 <= phys < 2 ^ 64 ->
  exists s', free_page phys s = Ok s' /\ frame s s' /\ cleared s' = cleared s /\
    phys_rep s' (match index_of s phys with Some i => pool_free i P | None => P end).
Proof.
  intros H Hp. unfold free_page. rewrite (pr_init _ _ H), (page_base_index s P) by done. cbn [negb].
  destruct (index_of s phys) as [i|] eqn:Ei; [|by exists s].
  pose proof (index_lt s P phys i H ltac:(lia) Ei) as Hi. destruct (lookup_lt_is_Some_2 _ _ Hi) as [pg Hpg].
  rewrite (load_lookup _ _ _ Hpg), bind_ok. destruct (pr_pages _ _ H _ _ Hpg) as [H1 H2 H3 H4 H5].
  unfold pool_free. rewrite H2. destruct (Z.eqb_spec (ref_count pg) 0); [by exists s|].
  rewrite page_store_ok, bind_ok by done. rewrite u32_small by lia.
  rewrite (alter_const _ (with_use true (kernel_page pg) (ref_count pg - 1)) i _ pg Hpg)
    by (unfold with_use; rewrite H4; by destruct (Z.eqb_spec (ref_count pg) 0)).
  destruct (Z.ltb_spec 0 (ref_count pg - 1)); destruct (Z.eqb_spec (ref_count pg) 1); try lia.
  - eexists. split; [reflexivity|]. split_and!; [done|done|].
    apply (rep_update s P _ _ i true (kernel_page pg) (ref_count pg - 1)); try done; try lia.
    + apply list_rep_use, (pr_list _ _ H).
    + rewrite H5. lia.
  - rewrite page_store_ok, bind_ok by (rewrite length_alter; done).
    rewrite (alter_twice _ _ (with_use false false (ref_count pg - 1))) by done.
    assert (i ∉ po_free P) as Hni by (rewrite H5; lia). pose proof (free_bound _ _ H). pose proof (pr_max _ _ H).
    destruct (append_rep (alter (with_use false false (ref_count pg - 1)) i (page_array s)) (free_pages s) (po_free P) i)
      as (a & l & -> & Hrep & Hrel); [apply list_rep_use, (pr_list _ _ H)|done|by rewrite length_alter|lia|].
    rewrite bind_ok. eexists. split; [reflexivity|]. split_and!; [done|done|].
    replace (ref_count pg - 1) with 0 in Hrel by lia.
    apply (rep_update s P _ _ i false false 0); try done.
    + rewrite elem_of_app, list_elem_of_singleton. tauto.
    + intros j Hj. rewrite elem_of_app, list_elem_of_singleton. tauto.
Qed.

Lemma retain_refines s P phys :
  phys_rep s P -> 0 <= phys < 2 ^ 64 ->
  (forall i, index_of s phys = Some i -> exists r, po_refs P !! i = Some r /\ 0 < r < 2 ^ 32 - 1) ->
  exists s', retain_page phys s = Ok s' /\ frame s s' /\ cleared s' = cleared s /\
    phys_rep s' (match index_of s phys with Some i => pool_retain i P | None => P end).
Proof.
  intros H Hp Hheld. unfold retain_page. rewrite (pr_init _ _ H). cbn [negb]. fold (index_of s phys).
  destruct (index_of s phys) as [i|] eqn:Ei; [|by exists s]. destruct (Hheld i eq_refl) as (r & Hr & Hrange).
  pose proof (index_lt s P phys i H ltac:(lia) Ei) as Hi. destruct (lookup_lt_is_Some_2 _ _ Hi) as [pg Hpg].
  destruct (pr_pages _ _ H _ _ Hpg) as [H1 H2 H3 H4 H5]. rewrite Hr in H2. injection H2 as ->.
  rewrite page_store_ok, bind_ok by done.
  rewrite (alter_const _ (with_use true (kernel_page pg) (ref_count pg + 1)) i _ pg Hpg) by (by rewrite u32_small by lia).
  unfold pool_retain. rewrite Hr. eexists. split; [reflexivity|]. split_and!; [done|done|].
  apply (rep_update s P _ _ i true (kernel_page pg) (ref_count pg + 1)); try done; try lia.
  - apply list_rep_use, (pr_list _ _ H).
  - rewrite H5. lia.
Qed.

(** ** Runs of pages *)
Lemma addr_eqb s P (i b : nat) :
  phys_rep s P -> (i < length (page_array s))%nat -> (b <= length (page_array s))%nat ->
  (managed_phys_base s + Z.of_nat i * PageSize =? u64 (managed_phys_base s + Z.of_nat b * PageSize)) = (i =? b)%nat.
Proof.
  intros H Hi Hb. pose proof (pr_base _ _ H) as [Hpos _]. pose proof (pr_top _ _ H) as Ht. unfold PageSize in *.
  destruct (Z.eq_dec (managed_phys_base s + Z.of_nat b * 4096) (2 ^ 64)) as [E|E].
  - rewrite E. change (u64 (2 ^ 64)) with 0. destruct (Z.eqb_spec (managed_phys_base s + Z.of_nat i * 4096) 0); [lia|].
    symmetry. apply Nat.eqb_neq. lia.
  - rewrite u64_small by lia. destruct (Nat.eqb_spec i b) as [->|]; [apply Z.eqb_refl|]. apply Z.eqb_neq. lia.
Qed.

Lemma contiguous_ok s P n k b :
  phys_rep s P -> (k + n <= length (po_free P))%nat -> (b <= length (page_array s))%nat ->
  run_is_contiguous n (page_array s) (po_free P !! k) (u64 (managed_phys_base s + Z.of_nat b * PageSize)) =
  Ok (bool_decide (slice (po_free P) k n = seq b n)).
Proof.
  intros H. revert k b. induction n as [|n IH]; intros k b Hk Hb; cbn [run_is_contiguous]; [by rewrite slice_0|].
  destruct (lookup_lt_is_Some_2 (po_free P) k) as [i Hi]; [lia|]. rewrite Hi.
  destruct (free_page_idle s P i H) as [_ Hlt]; [by eapply list_elem_of_lookup_2|].
  destruct (lookup_lt_is_Some_2 _ _ Hlt) as [pg Hpg]. rewrite (load_lookup _ _ _ Hpg), bind_ok.
  rewrite (po_addr _ _ _ _ (pr_pages _ _ H _ _ Hpg)), (addr_eqb s P) by done.
  assert (slice (po_free P) k (S n) = i :: slice (po_free P) (S k) n) as Hsl.
  { unfold slice. by rewrite (drop_S _ _ _ Hi). }
  rewrite Hsl. cbn [seq]. destruct (Nat.eqb_spec i b) as [->|Hne]; cbn [negb].
  - assert (next_page pg = po_free P !! S k) as ->.
    { destruct (lr_links _ _ _ (pr_list _ _ H) _ _ Hi) as [Hn _]. unfold nextf in Hn. by rewrite Hpg in Hn. }
    assert (u64 (u64 (managed_phys_base s + Z.of_nat b * PageSize) + PageSize) =
      u64 (managed_phys_base s + Z.of_nat (S b) * PageSize)) as ->.
    { unfold u64. rewrite Zplus_mod_idemp_l. f_equal. lia. }
    rewrite IH by lia. f_equal. apply bool_decide_ext. split; [by intros ->|by intros [=]].
  - f_equal. symmetry. apply bool_decide_eq_false. by intros [=].
Qed.

Definition take_refs (refs : list Z) (run : list nat) : list Z := foldl (fun refs i => set_ref i 1 refs) refs run.

Lemma take_run_ok n b rest s P :
  phys_rep s P -> po_free P = seq b n ++ rest ->
  exists s', take_run n s = Ok (s', true) /\ frame s s' /\
    cleared s' = cleared s ++ map (fun i => managed_phys_base s + Z.of_nat i * PageSize) (seq b n) /\
    phys_rep s' (mkPool rest (take_refs (po_refs P) (seq b n))).
Proof.
  revert b s P. induction n as [|n IH]; intros b s P H Hf; cbn [take_run].
  { exists s. cbn. rewrite app_nil_r. split_and!; try done. cbn in Hf. rewrite <- Hf. by destruct P. }
  cbn [seq app] in Hf. pose proof (pr_list _ _ H) as Hlist. pose proof (free_bound _ _ H). pose proof (pr_max _ _ H).
  assert (b ∈ po_free P) as Hb by (rewrite Hf; constructor). destruct (free_page_idle _ _ _ H Hb) as [_ Hlt].
  pose proof (lr_nodup _ _ _ Hlist) as Hnd. rewrite Hf in Hlist, Hnd. rewrite Hf in H0.
  apply list.NoDup_cons in Hnd as [Hnb _].
  destruct (pop_rep _ _ _ _ Hlist ltac:(lia)) as (a & l & -> & Hrep & Hrel). rewrite bind_ok.
  pose proof (length_relinked _ _ Hrel) as Hlen. set (s1 := with_pages a l s).
  destruct (take_page_ok s1 b) as (pg & Hpg & ->); [cbn; lia|]. rewrite bind_ok.
  assert (phys_addr pg = managed_phys_base s + Z.of_nat b * PageSize) as Ea.
  { destruct (relinked_page _ _ _ _ Hrel Hpg) as (pg0 & H00 & Hu). apply (f_equal (fun x => fst (fst (fst x)))) in Hu.
    cbn in Hu. rewrite <- Hu. apply (po_addr _ _ _ _ (pr_pages _ _ H _ _ H00)). }
  assert (phys_rep (with_pages (alter (with_use true true 1) b a) l s)
    (mkPool (seq (S b) n ++ rest) (set_ref b 1 (po_refs P)))) as H'.
  { apply rep_taken; try done. intros j Hj. rewrite Hf, elem_of_cons. tauto. }
  destruct (IH (S b) (clear_page (phys_addr pg) (with_pages (alter (with_use true true 1) b a) l s)) _ (rep_clear _ _ _ H') eq_refl)
    as (s' & Hs' & Hfr & Hcl & Hr'). exists s'. split_and!; [exact Hs'|exact Hfr| |exact Hr'].
  rewrite Hcl. cbn [cleared clear_page with_pages managed_phys_base]. rewrite Ea, <- app_assoc. done.
Qed.

Lemma reserve_refines s P n :
  phys_rep s P -> 0 <= n < 2 ^ 32 ->
  let '(P', r) := pool_reserve (Z.to_nat n) P in
  exists s', reserve_contiguous_pages n s = Ok (s', addr_of s r) /\ phys_rep s' P' /\ frame s s' /\
    cleared s' = cleared s ++ match r with Some b => map (fun i => addr_of s (Some i)) (seq b (Z.to_nat n)) | None => [] end.
Proof.
  intros H Hn. unfold reserve_contiguous_pages, without_interrupts. set (s0 := with_interrupts false s).
  pose proof (rep_interrupts s P false H) as H0. fold s0 in H0. pose proof (pr_list _ _ H0) as Hlist.
  rewrite (pr_init _ _ H0). cbn [negb orb].
  assert (forall s1 : Phys, s1 = s0 -> exists s', ('(s2, r) <- Ok (s1, 0) ;; Ok (with_interrupts (interrupts s) s2, r)) = Ok (s', 0) /\
    phys_rep s' P /\ frame s s' /\ cleared s' = cleared s ++ []) as Hnone.
  { intros s1 ->. rewrite bind_ok. eexists. split; [reflexivity|]. split_and!; [by apply rep_interrupts|done|by rewrite app_nil_r]. }
  unfold pool_reserve. destruct (Z.eqb_spec n 0) as [->|Hn0].
  { destruct (po_free P); [by apply Hnone|]. rewrite decide_False by (intros [_ ?]; lia). by apply Hnone. }
  rewrite (lr_size _ _ _ Hlist), (lr_head _ _ _ Hlist). destruct (po_free P) as [|b rest] eqn:Hfree.
  { cbn [length]. destruct (Z.of_nat 0 <? n); by apply Hnone. }
  destruct (Z.ltb_spec (len (b :: rest)) n).
  { rewrite decide_False; [by apply Hnone|]. intros [Ht _]. apply (f_equal length) in Ht.
    rewrite length_take, length_seq in Ht. lia. }
  cbn [lookup list_lookup]. assert (b ∈ po_free P) as Hb by (rewrite Hfree; constructor).
  destruct (free_page_idle _ _ _ H0 Hb) as [_ Hlt]. destruct (lookup_lt_is_Some_2 _ _ Hlt) as [pg Hpg].
  rewrite (load_lookup _ _ _ Hpg), bind_ok, (po_addr _ _ _ _ (pr_pages _ _ H0 _ _ Hpg)).
  pose proof (contiguous_ok s0 P (Z.to_nat n) 0 b H0) as Hc. rewrite Hfree in Hc.
  assert (u64 (managed_phys_base s0 + Z.of_nat b * PageSize) = managed_phys_base s0 + Z.of_nat b * PageSize) as Eu.
  { pose proof (pr_base _ _ H0) as [? _]. pose proof (pr_top _ _ H0). unfold PageSize in *. apply u64_small. lia. }
  rewrite Eu in Hc. cbn [lookup list_lookup] in Hc. rewrite Hc by lia. clear Hc. rewrite bind_ok.
  change (slice (b :: rest) 0 (Z.to_nat n)) with (take (Z.to_nat n) (b :: rest)).
  destruct (decide (take (Z.to_nat n) (b :: rest) = seq b (Z.to_nat n) /\ (0 < Z.to_nat n)%nat)) as [[Ht _]|Hno].
  2: { rewrite bool_decide_eq_false_2 by (intros Ht; apply Hno; split; [done|lia]). cbn [negb]. by apply Hnone. }
  rewrite bool_decide_eq_true_2 by done. cbn [negb].
  destruct (take_run_ok (Z.to_nat n) b (drop (Z.to_nat n) (b :: rest)) s0 P H0) as (s' & -> & Hfr & Hcl & Hr').
  { rewrite Hfree, <- Ht. by rewrite take_drop. }
  rewrite !bind_ok. eexists. split; [reflexivity|]. split_and!.
  - by apply rep_interrupts.
  - destruct Hfr as (F1 & F2 & F3 & F4). done.
  - exact Hcl.
Qed.

Lemma fold_set_ref_lookup r run refs j :
  (forall i, i ∈ run -> (i < length refs)%nat) ->
  foldl (fun refs i => set_ref i r refs) refs run !! j = if decide (j ∈ run) then Some r else refs !! j.
Proof.
  revert refs. induction run as [|i run IH]; intros refs Hin; cbn [foldl].
  { by rewrite decide_False by apply not_elem_of_nil. }
  assert (i < length refs)%nat as Hi by (apply Hin; constructor).
  rewrite IH by (intros k Hk; unfold set_ref; rewrite length_insert; apply Hin; by constructor).
  rewrite set_ref_lookup by done. destruct (decide (j ∈ run)) as [Hj|Hj].
  { by rewrite decide_True by (by constructor). }
  destruct (decide (i = j)) as [<-|Hne]; [by rewrite decide_True by constructor|].
  rewrite decide_False; [done|]. intros [->|?]%elem_of_cons; done.
Qed.

Lemma foldl_set_ref_length r run refs : length (foldl (fun refs i => set_ref i r refs) refs run) = length refs.
Proof. revert refs. induction run as [|i run IH]; intros refs; cbn [foldl]; [done|]. rewrite IH. apply length_insert. Qed.

Section Release.
Context (s0 : Phys) (P : Pool) (base_phys : Z) (b : nat) (n : nat).
Hypothesis H : phys_rep s0 P.
Hypothesis Hb : index_of s0 base_phys = Some b.
Hypothesis Hn : 0 <= base_phys /\ base_phys + Z.of_nat n * PageSize <= 2 ^ 64.
Hypothesis Hheld : forall i, (b <= i < b + n)%nat -> i ∉ po_free P.

Let count : nat := length (page_array s0).
Let m : nat := Nat.min n (length (po_refs P) - b).

(** The pool when the pages from [b + k] on have been released. *)
Definition released_from (k : nat) : Pool :=
  mkPool (seq (b + k) (m - k) ++ po_free P) (foldl (fun refs i => set_ref i 0 refs) (po_refs P) (seq (b + k) (m - k))).

Lemma b_lt : (b < count)%nat.
Proof. apply (index_lt s0 P base_phys); [done|lia|done]. Qed.

Lemma released_index s k :
  (k < n)%nat -> page_array s = page_array s0 \/ length (page_array s) = count -> num_pages s = num_pages s0 ->
  managed_phys_base s = managed_phys_base s0 ->
  page_from_phys s (managed_phys_base s) (u64 (base_phys + u64 (Z.of_nat k * PageSize))) =
  if decide (b + k < count)%nat then Some (b + k)%nat else None.
Proof.
  intros Hk _ Hnum Hbase. unfold page_from_phys. rewrite Hnum, Hbase.
  pose proof Hb as Hb'. unfold index_of in Hb'. rewrite (page_index s0 P) in Hb' by (done || lia). cbv zeta in Hb'.
  destruct (_ && _) eqn:E; [|done]. injection Hb' as Hbi. zbool.
  pose proof (pr_top _ _ H) as Ht. pose proof (pr_base _ _ H) as [Hpos _]. rewrite (pr_num _ _ H).
  unfold PageSize in *. rewrite (u64_small (Z.of_nat k * 4096)) by lia. rewrite u64_small by lia. rewrite u64_small by lia.
  set (d := base_phys - managed_phys_base s0) in *.
  pose proof (Z.div_mod d 4096 ltac:(lia)). pose proof (Z.mod_pos_bound d 4096 ltac:(lia)).
  assert (0 <= d / 4096) by (apply Z.div_pos; lia).
  replace (base_phys + Z.of_nat k * 4096 - managed_phys_base s0) with (d + Z.of_nat k * 4096) by lia.
  destruct (Z.ltb_spec (base_phys + Z.of_nat k * 4096) (managed_phys_base s0)); [lia|]. cbn [orb].
  rewrite Z.div_add by lia.
  destruct (Z.leb_spec (len (page_array s0) * 4096) (d + Z.of_nat k * 4096)); destruct (decide (b + k < count)%nat);
    try done; unfold count in *; try lia. f_equal. lia.
Qed.

Lemma release_run_ok k s :
  (k <= n)%nat -> phys_rep s (released_from k) -> frame s0 s ->
  exists s', release_run k base_phys s = Ok s' /\ phys_rep s' (released_from 0) /\ frame s s' /\ cleared s' = cleared s.
Proof.
  revert s. induction k as [|k IH]; intros s Hk Hs Hfr; cbn [release_run]; [by exists s|].
  pose proof Hfr as (F1 & F2 & F3 & F4). pose proof b_lt as Hbl. pose proof (pr_refs _ _ H) as Hrefs.
  unfold release_one. replace (Z.of_nat (S k) - 1) with (Z.of_nat k) by lia.
  assert (length (page_array s) = count) as Hlen.
  { pose proof (pr_num _ _ Hs) as N1. pose proof (pr_num _ _ H) as N2. rewrite F2 in N1. unfold count. lia. }
  rewrite released_index by (done || lia || auto). destruct (decide (b + k < count)%nat) as [Hin|Hout].
  2: { rewrite bind_ok. apply IH; [lia| |done]. unfold released_from in *.
       replace (m - k)%nat with 0%nat by (unfold m, count in *; lia). replace (m - S k)%nat with 0%nat in Hs by (unfold m, count in *; lia). done. }
  assert (m - k = S (m - S k))%nat as Hm by (unfold m, count in *; lia).
  assert ((b + k)%nat ∉ seq (b + S k) (m - S k) ++ po_free P) as Hni.
  { rewrite elem_of_app, elem_of_seq. intros [?|Hf]; [lia|]. apply (Hheld (b + k)%nat); [lia|done]. }
  rewrite page_store_ok, bind_ok by lia. pose proof (free_bound _ _ Hs) as Hfb. pose proof (pr_max _ _ Hs) as Hmx.
  cbn [po_free released_from] in Hfb.
  destruct (prepend_rep (alter (with_use false false 0) (b + k)%nat (page_array s)) (free_pages s)
    (seq (b + S k) (m - S k) ++ po_free P) (b + k)%nat) as (a & l & -> & Hrep & Hrel);
    [apply list_rep_use, (pr_list _ _ Hs)|done|rewrite length_alter; lia|lia|].
  rewrite !bind_ok. cut (phys_rep (with_pages a l s) (released_from k)).
  { intros Hs1. destruct (IH (with_pages a l s) ltac:(lia) Hs1 Hfr) as (s' & E1 & E2 & E3 & E4). by exists s'. }
  assert (released_from k = mkPool ((b + k)%nat :: (seq (b + S k) (m - S k) ++ po_free P))
    (set_ref (b + k) 0 (po_refs (released_from (S k))))) as ->.
  { unfold released_from. rewrite Hm. cbn [seq app po_refs]. replace (S (b + k))%nat with (b + S k)%nat by lia. f_equal.
    assert (forall i, i ∈ seq (b + k) (S (m - S k)) -> (i < length (po_refs P))%nat) as Hall.
    { intros i Hi. apply elem_of_seq in Hi. unfold m, count in *. lia. }
    assert (forall i, i ∈ seq (b + S k) (m - S k) -> (i < length (po_refs P))%nat) as Hall'.
    { intros i Hi. apply Hall, elem_of_seq. apply elem_of_seq in Hi. lia. }
    apply list_eq. intros j. rewrite fold_set_ref_lookup.
    2: { intros i [->|Hi]%elem_of_cons; [apply Hall, elem_of_seq; lia|by apply Hall']. }
    rewrite set_ref_lookup.
    2: { rewrite foldl_set_ref_length. apply Hall, elem_of_seq. lia. }
    rewrite fold_set_ref_lookup by done. destruct (decide ((b + k)%nat = j)) as [<-|Hne]; [by rewrite decide_True by constructor|].
    destruct (decide (j ∈ seq (b + S k) (m - S k))); [by rewrite decide_True by (by constructor)|].
    rewrite decide_False; [done|]. intros [->|?]%elem_of_cons; done. }
  apply (rep_update s (released_from (S k)) _ _ (b + k) false false 0); try done; [lia| |].
  - split; [done|]. intros _. constructor.
  - intros j Hj. cbn [po_free released_from]. rewrite elem_of_cons. tauto.
Qed.
End Release.

Lemma release_refines s P base_phys b n :
  phys_rep s P -> index_of s base_phys = Some b -> 0 <= n < 2 ^ 32 ->
  0 <= base_phys /\ base_phys + n * PageSize <= 2 ^ 64 ->
  (forall i, (b <= i < b + Z.to_nat n)%nat -> i ∉ po_free P) ->
  exists s', release_contiguous_pages base_phys n s = Ok (s', tt) /\ phys_rep s' (pool_release b (Z.to_nat n) P) /\
    frame s s' /\ cleared s' = cleared s.
Proof.
  intros H Hb Hn Haddr Hheld. unfold release_contiguous_pages, without_interrupts. set (s0 := with_interrupts false s).
  pose proof (rep_interrupts s P false H) as H0. fold s0 in H0. rewrite (pr_init _ _ H0). cbn [negb orb].
  assert (base_phys <> 0) as Hnz.
  { unfold index_of, page_from_phys in Hb. pose proof (pr_base _ _ H) as [? _].
    destruct (Z.ltb_spec base_phys (managed_phys_base s)); [done|lia]. }
  destruct (Z.eqb_spec base_phys 0); [done|]. cbn [orb]. destruct (Z.eqb_spec n 0) as [->|Hn0].
  { rewrite bind_ok. eexists. split; [reflexivity|]. split_and!; [|done|done].
    unfold pool_release. cbn [Nat.min seq app foldl]. destruct P. by apply rep_interrupts. }
  assert (phys_rep s0 (released_from P b (Z.to_nat n) (Z.to_nat n))) as Hfrom.
  { unfold released_from. replace (Nat.min _ _ - Z.to_nat n)%nat with 0%nat by lia. by destruct P. }
  destruct (release_run_ok s0 P base_phys b (Z.to_nat n) H0 Hb ltac:(unfold PageSize in *; lia) Hheld (Z.to_nat n) s0
    ltac:(lia) Hfrom (frame_refl s0)) as (s' & -> & Hr & Hfr & Hcl).
  rewrite !bind_ok. eexists. split; [reflexivity|]. split_and!; [|by destruct Hfr as (? & ? & ? & ?)|done].
  unfold released_from in Hr. rewrite Nat.add_0_r, Nat.sub_0_r in Hr. by apply rep_interrupts.
Qed.

(** ** Initialisation *)
Section Init.
Context (base : Z) (n m : nat).
Hypothesis Hm : (m <= n)%nat.
Hypothesis Hn : Z.of_nat n < 2 ^ 32 - 1.
Hypothesis Hbase : 0 < base /\ base + Z.of_nat n * PageSize <= 2 ^ 64.

(** The pages when [j] of the [m] metadata pages have been taken. *)
Definition taken (j i : nat) : bool := (n - m <=? i)%nat && (i <? n - m + j)%nat.
Definition use_at (j i : nat) : Z * Z * bool * bool :=
  (base + Z.of_nat i * PageSize, if taken j i then 1 else 0, taken j i, taken j i).

Definition all_free (i : nat) (st : list Page * PageList) : Prop :=
  let '(a, l) := st in
  length a = n /\ list_rep a l (seq 0 i) /\ forall j pg, (j < i)%nat -> a !! j = Some pg -> use_of pg = use_at 0 j.

Lemma taken_0 i : taken 0 i = false.
Proof. unfold taken. destruct (Nat.leb_spec (n - m) i); [|done]. apply Nat.ltb_ge. lia. Qed.

Lemma init_page_ok i st :
  (i < n)%nat -> all_free i st -> wp (init_page base (Z.of_nat i) st) (all_free (S i)) (fun _ => False).
Proof.
  destruct st as [a l]. intros Hi (Hl & Hrep & Huse). unfold init_page. rewrite Nat2Z.id.
  rewrite page_store_ok, bind_ok by lia. unfold PageSize in *.
  rewrite (u64_small (Z.of_nat i * 4096)), u64_small by lia. set (pg0 := mkPage _ _ _ _ _ _).
  set (a1 := alter (fun _ => pg0) i a).
  assert (list_rep a1 l (seq 0 i)) as Hrep1.
  { destruct Hrep as [R1 R2 R3 R4 R5 R6]. split; try done.
    - intros p Hp. unfold a1. rewrite length_alter. by apply R2.
    - intros k p Hk. destruct (R3 k p Hk) as [E1 E2]. assert (p < i)%nat.
      { apply lookup_seq in Hk. lia. }
      unfold nextf, prevf in *. unfold a1. by rewrite !lookup_alter_if, !decide_False by lia. }
  destruct (append_rep a1 l (seq 0 i) i Hrep1) as (a' & l' & -> & Hrep' & Hrel).
  { rewrite elem_of_seq. lia. } { unfold a1. rewrite length_alter. lia. } { rewrite length_seq. lia. }
  apply wp_ok. split_and!.
  - rewrite (length_relinked _ _ Hrel). unfold a1. by rewrite length_alter.
  - by rewrite seq_S.
  - intros j pg Hj Hpg. destruct (relinked_page _ _ _ _ Hrel Hpg) as (pg1 & H1 & <-). unfold a1 in H1.
    rewrite lookup_alter_if in H1. destruct (decide (i = j)) as [<-|Hne].
    + destruct (a !! i); [|done]. injection H1 as <-. unfold use_at, use_of, pg0. rewrite taken_0. done.
    + apply Huse; [lia|done].
Qed.

(** The metadata pages are at the end. *)
Definition some_taken (j : nat) (a : list Page) (l : PageList) : Prop :=
  length a = n /\ list_rep a l (seq 0 (n - m) ++ seq (n - m + j) (m - j)) /\
  forall i pg, a !! i = Some pg -> use_of pg = use_at j i.

Lemma reserve_metadata_ok t j a l :
  (j + t = m)%nat -> some_taken j a l ->
  exists a' l', reserve_metadata t (Z.of_nat n) (Z.of_nat (n - m)) (Z.of_nat j) a l = Ok (a', l') /\ some_taken m a' l'.
Proof.
  revert j a l. induction t as [|t IH]; intros j a l Hj Hst; cbn [reserve_metadata].
  { replace m with j by lia. by exists a, l. }
  destruct Hst as (Hl & Hrep & Huse). rewrite u64_small by lia.
  replace (Z.of_nat (n - m) + Z.of_nat j) with (Z.of_nat (n - m + j)) by lia.
  destruct (Z.leb_spec (Z.of_nat n) (Z.of_nat (n - m + j))); [lia|]. rewrite Nat2Z.id.
  replace (m - j)%nat with (S (m - S j)) in Hrep by lia. cbn [seq] in Hrep.
  destruct (remove_rep a l (seq 0 (n - m)) (n - m + j) (seq (S (n - m + j)) (m - S j)) Hrep) as (a1 & l1 & -> & Hrep1 & Hrel).
  { rewrite length_app. cbn [length]. rewrite !length_seq. lia. }
  pose proof (length_relinked _ _ Hrel) as Hl1. rewrite bind_ok, page_store_ok, bind_ok by lia.
  replace (Z.of_nat j + 1) with (Z.of_nat (S j)) by lia. apply IH; [lia|]. split_and!.
  - rewrite length_alter. lia.
  - apply list_rep_use. replace (n - m + S j)%nat with (S (n - m + j)) by lia. done.
  - intros i pg Hpg. rewrite lookup_alter_if in Hpg.
    assert (forall i, i <> (n - m + j)%nat -> taken (S j) i = taken j i) as Hsame.
    { intros x Hx. unfold taken. destruct (Nat.leb_spec (n - m) x), (Nat.ltb_spec x (n - m + S j)), (Nat.ltb_spec x (n - m + j)); try done; lia. }
    destruct (decide ((n - m + j)%nat = i)) as [<-|Hne].
    + destruct (a1 !! (n - m + j)%nat) as [pg1|] eqn:E1; [|done]. injection Hpg as <-.
      destruct (relinked_page _ _ _ _ Hrel E1) as (pg0 & H0 & Hu). rewrite (Huse _ _ H0) in Hu.
      unfold use_at, use_of in Hu |- *. injection Hu as U1 U2 U3 U4. cbn [phys_addr ref_count allocated kernel_page with_use].
      rewrite <- U1. assert (taken (S j) (n - m + j) = true) as ->; [|done].
      unfold taken. apply andb_true_iff. split; [apply Nat.leb_le|apply Nat.ltb_lt]; lia.
    + destruct (relinked_page _ _ _ _ Hrel Hpg) as (pg0 & H0 & Hu). rewrite <- Hu, (Huse _ _ H0).
      unfold use_at. by rewrite Hsame.
Qed.

Definition initial_pool : Pool := mkPool (seq 0 (n - m)) (replicate (n - m) 0 ++ replicate m 1).
End Init.
