(* ===== verification/PhysMemClaims.v ===== *)
(** The physical page manager: from initialisation through any sequence of calls
    that keeps its contract, and the guarantees its callers rely on.

    The page manager on concrete pools: the two boards, and a pool of eight pages. *)
From stdpp Require Import base list numbers.
From Stdlib Require Import ZArith Lia.
From S2P Require Import Prelude PhysMem PhysMemProofs PhysMemSpec.

Local Open Scope Z_scope.

(** ** Initialisation *)
Definition board_pages (board : BoardConfig) : nat := Z.to_nat (PhysicalPagePoolSize board / PageSize).
(** Pages that hold the page records. *)
Definition metadata_pages (board : BoardConfig) : nat :=
  Z.to_nat ((Z.of_nat (board_pages board) * page_struct_bytes + PageSize - 1) / PageSize).

(** A board whose pool is aligned and in the address space, and has fewer than
    2^32 - 1 pages. *)
Definition board_ok (board : BoardConfig) : Prop :=
  0 < PhysicalPagePoolBase board /\ PhysicalPagePoolBase board mod PageSize = 0 /\
  PageSize <= PhysicalPagePoolSize board /\ PhysicalPagePoolBase board + PhysicalPagePoolSize board <= 2 ^ 64 /\
  PhysicalPagePoolSize board / PageSize < 2 ^ 32 - 1.

Definition board_pool (board : BoardConfig) : Pool := initial_pool (board_pages board) (metadata_pages board).

Lemma metadata_fits board : board_ok board -> (0 < metadata_pages board <= board_pages board)%nat.
Proof.
  intros (_ & _ & Hs & _ & _). unfold metadata_pages, page_struct_bytes, PageSize in *.
  assert (0 < board_pages board)%nat.
  { unfold board_pages, PageSize. assert (1 <= PhysicalPagePoolSize board / 4096) by (apply Z.div_le_lower_bound; lia). lia. }
  set (n := board_pages board) in *.
  pose proof (Z.div_mod (Z.of_nat n * 32 + 4096 - 1) 4096 ltac:(lia)).
  pose proof (Z.mod_pos_bound (Z.of_nat n * 32 + 4096 - 1) 4096 ltac:(lia)). lia.
Qed.

Section Init.
Context (board : BoardConfig).
Hypothesis Hok : board_ok board.
Let n : nat := board_pages board.
Let m : nat := metadata_pages board.
Let base : Z := PhysicalPagePoolBase board.

Lemma board_num : PhysicalPagePoolSize board / PageSize = Z.of_nat n.
Proof. destruct Hok as (_ & _ & Hs & _). unfold n, board_pages, PageSize in *. pose proof (Z.div_pos (PhysicalPagePoolSize board) 4096). lia. Qed.

Lemma initial_page i pg : use_of pg = use_at base n m m i -> (i < n)%nat -> page_ok base (board_pool board) i pg.
Proof.
  pose proof (metadata_fits board Hok) as Hm. intros Hu Hi. unfold use_of, use_at in Hu. injection Hu as E1 E2 E3 E4.
  assert (taken n m m i = (n - m <=? i)%nat) as Et.
  { unfold taken. destruct (Nat.leb_spec (n - m) i); [|done]. cbn [andb]. apply Nat.ltb_lt. unfold m, n in *. lia. }
  rewrite Et in E2, E3. split; rewrite ?E1, ?E2, ?E3.
  - done.
  - cbn [po_refs board_pool initial_pool]. fold n m. destruct (Nat.leb_spec (n - m) i).
    + rewrite lookup_app_r by (rewrite length_replicate; lia). rewrite length_replicate. by apply lookup_replicate_2; lia.
    + rewrite lookup_app_l by (rewrite length_replicate; lia). by apply lookup_replicate_2; lia.
  - destruct (n - m <=? i)%nat; lia.
  - by destruct (n - m <=? i)%nat.
  - cbn [po_free board_pool initial_pool]. fold n m. rewrite elem_of_seq. destruct (Nat.leb_spec (n - m) i); lia.
Qed.

Lemma phys_init_ok s :
  initialized s = false ->
  exists s', init board s = Ok s' /\ phys_rep s' (board_pool board) /\ managed_phys_base s' = base /\
    num_pages s' = Z.of_nat n /\ reserved_heap_base s' = EarlyHeapPhysicalBase board /\
    interrupts s' = interrupts s /\ cleared s' = cleared s.
Proof.
  intros Hi. pose proof (metadata_fits board Hok) as Hm. pose proof board_num as Hnum.
  destruct Hok as (Hb & Hal & Hs & Htop & Hmax). rewrite Hnum in Hmax. fold n m in Hm.
  pose proof (Z.div_mod (PhysicalPagePoolSize board) 4096 ltac:(lia)) as Hdiv.
  pose proof (Z.mod_pos_bound (PhysicalPagePoolSize board) 4096 ltac:(lia)) as Hmod.
  unfold base. set (pb := PhysicalPagePoolBase board) in *. change PageSize with 4096 in *. unfold init. fold pb. rewrite Hi. change PageSize with 4096. rewrite Hnum in Hdiv |- *.
  destruct (Z.eqb_spec pb 0); [lia|]. destruct (Z.ltb_spec (PhysicalPagePoolSize board) 4096); [lia|].
  cbn [orb]. cbv zeta. rewrite (u32_small (Z.of_nat n)) by lia. destruct (Z.eqb_spec (Z.of_nat n) 0); [lia|].
  change page_struct_bytes with 32. rewrite (u64_small (Z.of_nat n * 32)), (u64_small (Z.of_nat n * 32 + 4096 - 1)) by lia.
  assert ((Z.of_nat n * 32 + 4096 - 1) / 4096 = Z.of_nat m) as ->.
  { unfold m, metadata_pages. fold n. change PageSize with 4096. change page_struct_bytes with 32.
    rewrite Z2Nat.id; [done|]. apply Z.div_pos; lia. }
  rewrite (u32_small (Z.of_nat m)), (u64_small (Z.of_nat m * 4096)), u64_small by lia. rewrite !Nat2Z.id.
  destruct (wp_total (for_range n 0 (init_page pb) (replicate n zero_page, mkPageList None None 0))
    (all_free pb n m n)) as ([a l] & -> & Hfree).
  { apply (wp_for_range _ _ _ _ (fun i st => all_free pb n m (Z.to_nat i) st)).
    - cbn [all_free Z.to_nat seq]. split_and!; [by rewrite length_replicate|apply rep_nil|lia].
    - intros i st Hir Hst. replace i with (Z.of_nat (Z.to_nat i)) at 1 by lia.
      replace (Z.to_nat (i + 1)) with (S (Z.to_nat i)) by lia.
      apply init_page_ok; try done; try lia. change PageSize with 4096; lia.
    - intros st Hst. rewrite Z.add_0_l, Nat2Z.id in Hst. done. }
  rewrite bind_ok. destruct Hfree as (Hla & Hrepa & Husea).
  set (start := pb + PhysicalPagePoolSize board - Z.of_nat m * 4096).
  assert ((start - pb) / 4096 = Z.of_nat (n - m)) as ->.
  { unfold start. symmetry. apply (Z.div_unique _ _ _ (PhysicalPagePoolSize board mod 4096)); lia. }
  destruct (Z.leb_spec pb start); [|unfold start in *; lia].
  destruct (Z.ltb_spec (Z.of_nat (n - m)) (Z.of_nat n)); [|lia]. cbn [andb].
  change 0 with (Z.of_nat 0) at 1.
  destruct (reserve_metadata_ok pb n m ltac:(lia) ltac:(lia) m 0 a l ltac:(lia)) as (a' & l' & -> & Hl' & Hrep' & Huse').
  { split_and!; [done| |].
    - rewrite Nat.add_0_r, Nat.sub_0_r.
      replace (seq 0 (n - m) ++ seq (n - m) m) with (seq 0 n); [done|].
      replace n with ((n - m) + m)%nat at 1 by lia. by rewrite seq_app.
    - intros i pg Hpg. apply Husea; [|done]. apply lookup_lt_Some in Hpg. lia. }
  rewrite bind_ok. eexists. split; [reflexivity|]. split_and!; try done.
  split; cbn [initialized num_pages page_array free_pages managed_phys_base]; try done; rewrite ?Hl'; change PageSize with 4096; try lia.
  - cbn [po_refs board_pool initial_pool]. fold n m. rewrite length_app, !length_replicate. lia.
  - rewrite Nat.sub_diag in Hrep'. cbn [seq] in Hrep'. by rewrite app_nil_r in Hrep'.
  - intros i pg Hpg. apply initial_page; [by apply Huse'|]. apply lookup_lt_Some in Hpg. lia.
Qed.
End Init.

(** ** Calls *)
Inductive Call : Type :=
| CAlloc
| CFree (phys : Z)
| CRetain (phys : Z)
| CReserve (count : Z)
| CRelease (phys count : Z).

(** A call and the address it returns, 0 for the calls that return nothing. *)
Definition phys_call (c : Call) (s : Phys) : Exec (Phys * Z) :=
  match c with
  | CAlloc => alloc_page s
  | CFree phys => s <- free_page phys s ;; Ok (s, 0)
  | CRetain phys => s <- retain_page phys s ;; Ok (s, 0)
  | CReserve n => reserve_contiguous_pages n s
  | CRelease phys n => '(s, _) <- release_contiguous_pages phys n s ;; Ok (s, 0)
  end.

Fixpoint phys_calls (cs : list Call) (s : Phys) : Exec (Phys * list Z) :=
  match cs with
  | [] => Ok (s, [])
  | c :: r => '(s, x) <- phys_call c s ;; '(s, xs) <- phys_calls r s ;; Ok (s, x :: xs)
  end.

(** The same on the pool of a board. *)
Definition pool_index (board : BoardConfig) (phys : Z) : option nat :=
  let d := phys - PhysicalPagePoolBase board in
  if (0 <=? d) && (d <? Z.of_nat (board_pages board) * PageSize) then Some (Z.to_nat (d / PageSize)) else None.
Definition pool_addr (board : BoardConfig) (r : option nat) : Z :=
  match r with Some i => PhysicalPagePoolBase board + Z.of_nat i * PageSize | None => 0 end.

Definition pool_call (board : BoardConfig) (c : Call) (P : Pool) : Pool * Z :=
  match c with
  | CAlloc => let '(P, r) := pool_alloc P in (P, pool_addr board r)
  | CFree phys => (match pool_index board phys with Some i => pool_free i P | None => P end, 0)
  | CRetain phys => (match pool_index board phys with Some i => pool_retain i P | None => P end, 0)
  | CReserve n => let '(P, r) := pool_reserve (Z.to_nat n) P in (P, pool_addr board r)
  | CRelease phys n =>
      (match pool_index board phys with Some b => pool_release b (Z.to_nat n) P | None => P end, 0)
  end.

Fixpoint pool_calls (board : BoardConfig) (cs : list Call) (P : Pool) : Pool * list Z :=
  match cs with
  | [] => (P, [])
  | c :: r => let '(P, x) := pool_call board c P in let '(P, xs) := pool_calls board r P in (P, x :: xs)
  end.

Definition word (z : Z) : bool := (0 <=? z) && (z <? 2 ^ 64).

(** The contract of a call: a page may be retained only while it is referenced,
    and a run may be released only if all of it is referenced.  Allocating,
    reserving and freeing are always allowed, even freeing twice. *)
Definition call_ok (board : BoardConfig) (c : Call) (P : Pool) : bool :=
  match c with
  | CAlloc => true
  | CFree phys => word phys
  | CRetain phys =>
      word phys &&
      match pool_index board phys with
      | Some i => match po_refs P !! i with Some r => (0 <? r) && (r <? 2 ^ 32 - 1) | None => false end
      | None => true
      end
  | CReserve n => (0 <=? n) && (n <? 2 ^ 32)
  | CRelease phys n =>
      (0 <=? phys) && (0 <=? n) && (n <? 2 ^ 32) && (phys + n * PageSize <=? 2 ^ 64) &&
      match pool_index board phys with
      | Some b => forallb (fun i => bool_decide (i ∉ po_free P)) (seq b (Z.to_nat n))
      | None => false
      end
  end.

Fixpoint calls_ok (board : BoardConfig) (cs : list Call) (P : Pool) : bool :=
  match cs with
  | [] => true
  | c :: r => call_ok board c P && calls_ok board r (fst (pool_call board c P))
  end.

(** The state belongs to the board. *)
Definition on_board (board : BoardConfig) (s : Phys) : Prop :=
  managed_phys_base s = PhysicalPagePoolBase board /\ num_pages s = Z.of_nat (board_pages board).

Lemma index_on_board board s P phys :
  on_board board s -> phys_rep s P -> 0 <= phys -> index_of s phys = pool_index board phys.
Proof.
  intros [Hb Hn] H Hp. unfold index_of, page_from_phys, pool_index. rewrite Hb, Hn. cbv zeta.
  pose proof (pr_num _ _ H) as Hnum. rewrite Hn in Hnum. pose proof (pr_top _ _ H) as Ht. pose proof (pr_base _ _ H) as [Hpos _].
  rewrite Hb in Ht, Hpos. rewrite <- Hnum in Ht. unfold PageSize in *. rewrite u64_small by lia.
  set (d := phys - PhysicalPagePoolBase board).
  destruct (Z.ltb_spec phys (PhysicalPagePoolBase board)), (Z.leb_spec 0 d); try (unfold d in *; lia); cbn [orb andb]; [done|].
  destruct (Z.leb_spec (Z.of_nat (board_pages board) * 4096) d), (Z.ltb_spec d (Z.of_nat (board_pages board) * 4096)); try done; lia.
Qed.

Lemma frame_on_board board s s' : frame s s' -> on_board board s -> on_board board s'.
Proof. intros (F1 & F2 & _ & _) [Hb Hn]. split; congruence. Qed.

Lemma phys_call_refines board c s P :
  on_board board s -> phys_rep s P -> call_ok board c P = true ->
  exists s', phys_call c s = Ok (s', snd (pool_call board c P)) /\ phys_rep s' (fst (pool_call board c P)) /\ frame s s'.
Proof.
  intros Hon H Hok. assert (forall r, pool_addr board r = addr_of s r) as Haddr.
  { intros [i|]; [|done]. cbn [pool_addr addr_of]. by rewrite (proj1 Hon). }
  destruct c as [|phys|phys|n|phys n]; cbn [phys_call pool_call call_ok] in *; unfold word in *.
  - destruct (alloc_refines s P H) as (s' & E & Hr & Hf & _). destruct (pool_alloc P) as [P' r]. exists s'.
    cbn [fst snd] in *. by rewrite Haddr.
  - zbool. destruct (free_refines s P phys H ltac:(lia)) as (s' & -> & Hf & _ & Hr). rewrite bind_ok. exists s'.
    rewrite (index_on_board board s P) in Hr by (done || lia). done.
  - apply andb_true_iff in Hok as [Hw Hok]. zbool.
    destruct (retain_refines s P phys H ltac:(lia)) as (s' & -> & Hf & _ & Hr).
    { intros i Hi. rewrite (index_on_board board s P) in Hi by (done || lia). rewrite Hi in Hok.
      destruct (po_refs P !! i) as [r|]; [|done]. zbool. exists r. split; [done|lia]. }
    rewrite bind_ok. exists s'. rewrite (index_on_board board s P) in Hr by (done || lia). done.
  - zbool. pose proof (reserve_refines s P n H ltac:(lia)) as Hres. destruct (pool_reserve (Z.to_nat n) P) as [P' r].
    destruct Hres as (s' & E & Hr & Hf & _). exists s'. cbn [fst snd]. by rewrite Haddr.
  - apply andb_true_iff in Hok as [Hw Hok]. zbool. rewrite <- (index_on_board board s P) in Hok |- * by (done || lia).
    destruct (index_of s phys) as [b|] eqn:Eb; [|done].
    destruct (release_refines s P phys b n H Eb ltac:(lia) ltac:(lia)) as (s' & -> & Hr & Hf & _).
    { intros i Hi. rewrite forallb_forall in Hok. specialize (Hok i ltac:(apply in_seq; lia)).
      by apply bool_decide_eq_true in Hok. }
    rewrite bind_ok. by exists s'.
Qed.

(** ** Queries *)
Definition refs_at (P : Pool) (i : nat) : Z := default 0 (po_refs P !! i).

Lemma refcount_ok s P phys :
  phys_rep s P -> 0 <= phys < 2 ^ 64 ->
  page_refcount phys s = Ok (match index_of s phys with Some i => refs_at P i | None => 0 end).
Proof.
  intros H Hp. unfold page_refcount. rewrite (pr_init _ _ H), (page_base_index s P) by done. cbn [negb].
  destruct (index_of s phys) as [i|] eqn:Ei; [|done]. pose proof (index_lt s P phys i H ltac:(lia) Ei) as Hi.
  destruct (lookup_lt_is_Some_2 _ _ Hi) as [pg Hpg]. rewrite (load_lookup _ _ _ Hpg), bind_ok.
  unfold refs_at. by rewrite (po_ref _ _ _ _ (pr_pages _ _ H _ _ Hpg)).
Qed.

Lemma free_count_ok s P : phys_rep s P -> free_page_count s = len (po_free P).
Proof. intros H. unfold free_page_count. rewrite (pr_init _ _ H). apply (lr_size _ _ _ (pr_list _ _ H)). Qed.

Lemma index_of_addr s P i :
  phys_rep s P -> (i < length (page_array s))%nat ->
  index_of s (addr_of s (Some i)) = Some i /\ is_valid_phys_page (addr_of s (Some i)) s = true /\
  0 < addr_of s (Some i) < 2 ^ 64.
Proof.
  intros H Hi. pose proof (pr_base _ _ H) as [Hb Hal]. pose proof (pr_top _ _ H) as Ht. cbn [addr_of].
  unfold PageSize in *. unfold index_of. rewrite (page_index s P) by (done || lia). cbv zeta.
  unfold is_valid_phys_page. rewrite (pr_init _ _ H), (pr_num _ _ H). unfold PageSize. rewrite u64_small by lia.
  replace (managed_phys_base s + Z.of_nat i * 4096 - managed_phys_base s) with (Z.of_nat i * 4096) by lia.
  rewrite Z.div_mul, Nat2Z.id by lia. destruct (Z.leb_spec (managed_phys_base s) (managed_phys_base s + Z.of_nat i * 4096)); [|lia].
  destruct (Z.ltb_spec (Z.of_nat i) (len (page_array s))); [|lia].
  destruct (Z.ltb_spec (Z.of_nat i * 4096) (len (page_array s) * 4096)); [|lia]. cbn [andb].
  change (4096 - 1) with (Z.ones 12). rewrite Z.land_ones by lia. change (2 ^ 12) with 4096.
  rewrite Z_mod_plus_full, Hal. split_and!; done || lia.
Qed.

(** A valid page address is the address of an index. *)
Lemma valid_addr s P phys :
  phys_rep s P -> is_valid_phys_page phys s = true ->
  exists i, (i < length (page_array s))%nat /\ phys = addr_of s (Some i).
Proof.
  intros H Hv. unfold is_valid_phys_page in Hv. pose proof (pr_base _ _ H) as [Hb Hal]. pose proof (pr_top _ _ H) as Ht.
  rewrite (pr_num _ _ H) in Hv. unfold PageSize in *. rewrite u64_small in Hv by lia.
  change (4096 - 1) with (Z.ones 12) in Hv. rewrite Z.land_ones in Hv by lia. change (2 ^ 12) with 4096 in Hv. zbool.
  exists (Z.to_nat ((phys - managed_phys_base s) / 4096)). cbn [addr_of]. unfold PageSize.
  assert ((phys - managed_phys_base s) mod 4096 = 0) as Hz by (rewrite Zminus_mod, Hal; by replace (phys mod 4096) with 0 by lia).
  pose proof (Z.div_mod (phys - managed_phys_base s) 4096 ltac:(lia)).
  assert (0 <= (phys - managed_phys_base s) / 4096) by (apply Z.div_pos; lia). lia.
Qed.

(** ** Claims *)

(** setting up the pool.  On a board whose pool is well formed, [init]
    completes and the state it leaves stands for the pool in which the last pages,
    those that hold the page records, are in use and all others are free, in
    address order. *)
Theorem phys_init_pool board s :
  board_ok board -> initialized s = false ->
  exists s', init board s = Ok s' /\ phys_rep s' (board_pool board) /\ on_board board s' /\
    free_page_count s' = Z.of_nat (board_pages board - metadata_pages board) /\ interrupts s' = interrupts s.
Proof.
  intros Hok Hi. destruct (phys_init_ok board Hok s Hi) as (s' & -> & Hr & Hb & Hn & _ & Hint & _).
  exists s'. split_and!; try done. rewrite (free_count_ok s' (board_pool board)) by done.
  cbn [po_free board_pool initial_pool]. by rewrite length_seq.
Qed.

(** C10: the page manager refines the pool.  After [init], every sequence of calls
    that keeps the contract completes, without touching anything outside the page
    array, returns the addresses the abstract pool gives, leaves a state that stands
    for the abstract pool, and leaves interrupts as they were. *)
Theorem phys_calls_refine board cs s :
  board_ok board -> initialized s = false -> calls_ok board cs (board_pool board) = true ->
  exists s0 s', init board s = Ok s0 /\
    phys_calls cs s0 = Ok (s', snd (pool_calls board cs (board_pool board))) /\
    phys_rep s' (fst (pool_calls board cs (board_pool board))) /\ interrupts s' = interrupts s.
Proof.
  intros Hok Hi Hcs. destruct (phys_init_ok board Hok s Hi) as (s0 & -> & Hr & Hb & Hn & _ & Hint & _).
  assert (on_board board s0) as Hon by done. clear Hb Hn. revert Hr Hcs. generalize (board_pool board) as P.
  intros P Hr Hcs. exists s0. rewrite <- Hint. clear Hint Hi s.
  cut (exists s', phys_calls cs s0 = Ok (s', snd (pool_calls board cs P)) /\
    phys_rep s' (fst (pool_calls board cs P)) /\ interrupts s' = interrupts s0).
  { intros (s' & H). by exists s'. }
  revert s0 P Hon Hr Hcs. induction cs as [|c cs IH]; intros s P Hon Hr Hcs; cbn [phys_calls pool_calls].
  { by exists s. }
  cbn [calls_ok] in Hcs. apply andb_true_iff in Hcs as [Hc Hcs].
  destruct (phys_call_refines board c s P Hon Hr Hc) as (s1 & -> & Hr1 & Hf1). rewrite bind_ok.
  pose proof (frame_on_board _ _ _ Hf1 Hon) as Hon1. destruct (pool_call board c P) as [P1 x]. cbn [fst snd] in *.
  destruct (IH s1 P1 Hon1 Hr1 Hcs) as (s2 & -> & Hr2 & Hi2). rewrite bind_ok.
  destruct (pool_calls board cs P1) as [P2 xs]. cbn [fst snd] in *. exists s2. split_and!; [done|done|].
  destruct Hf1 as (_ & _ & _ & F4). congruence.
Qed.

(** allocating a page.  [alloc_page] returns 0 exactly when no page is free;
    otherwise it returns the aligned address of a page that nobody referenced,
    which then has one reference and has been cleared, and it changes the
    reference count of no other page. *)
Theorem phys_alloc_page_exclusive s P :
  phys_rep s P ->
  exists s' phys, alloc_page s = Ok (s', phys) /\ interrupts s' = interrupts s /\
    if free_page_count s =? 0 then phys = 0
    else is_valid_phys_page phys s = true /\ page_refcount phys s = Ok 0 /\ page_refcount phys s' = Ok 1 /\
      cleared s' = cleared s ++ [phys] /\ free_page_count s' = free_page_count s - 1 /\
      forall q, is_valid_phys_page q s = true -> q <> phys -> page_refcount q s' = page_refcount q s.
Proof.
  intros H. destruct (alloc_refines s P H) as (s' & E & Hr & Hf & Hcl). exists s', (addr_of s (snd (pool_alloc P))).
  split; [done|]. split; [apply Hf|]. rewrite (free_count_ok s P H).
  unfold pool_alloc in *. destruct (list.last (po_free P)) as [i|] eqn:Hlast; cbn [fst snd] in *.
  2: { apply last_None in Hlast. by rewrite Hlast. }
  destruct (last_index _ _ Hlast) as [Hli Hpos]. destruct (Z.eqb_spec (len (po_free P)) 0); [lia|].
  destruct (free_page_idle s P i H) as [Hz Hi]; [by eapply list_elem_of_lookup_2|].
  destruct (index_of_addr s P i H Hi) as (Hidx & Hvalid & Hrange).
  assert (index_of s' = index_of s) as Hix.
  { destruct Hf as (F1 & F2 & _). unfold index_of, page_from_phys. by rewrite F1, F2. }
  pose proof (pr_refs _ _ H) as Hrefs. split_and!.
  - done.
  - rewrite (refcount_ok s P), Hidx by (done || lia). unfold refs_at. by rewrite Hz.
  - rewrite (refcount_ok s' _ _ Hr), Hix, Hidx by lia. unfold refs_at. cbn [po_refs].
    by rewrite set_ref_lookup, decide_True by lia.
  - done.
  - rewrite (free_count_ok s' _ Hr). cbn [po_free]. rewrite length_take. lia.
  - intros q Hq Hne. destruct (valid_addr s P q H Hq) as (j & Hj & ->).
    destruct (index_of_addr s P j H Hj) as (Hjx & _ & Hjr).
    rewrite (refcount_ok s' _ _ Hr), (refcount_ok s P), Hix, Hjx by (done || lia). unfold refs_at. cbn [po_refs].
    rewrite set_ref_lookup, decide_False by (lia || (intros ->; done)). done.
Qed.

(** Giving a run back.  When [reserve_contiguous_pages] succeeds, releasing
    the run restores the pool exactly, the order of the free list included, so a
    failed heap growth can be undone. *)
Theorem phys_reserve_release s P n s1 base_phys :
  phys_rep s P -> 0 < n < 2 ^ 32 -> reserve_contiguous_pages n s = Ok (s1, base_phys) -> base_phys <> 0 ->
  exists s2, release_contiguous_pages base_phys n s1 = Ok (s2, tt) /\ phys_rep s2 P /\ interrupts s2 = interrupts s.
Proof.
  intros H Hn Hres Hnz. pose proof (reserve_refines s P n H ltac:(lia)) as Hr.
  destruct (pool_reserve (Z.to_nat n) P) as [P' r] eqn:Hp. destruct Hr as (s' & E & Hr & Hf & _).
  rewrite Hres in E. injection E as <- ->. destruct r as [b|]; [|done]. unfold pool_reserve in Hp.
  destruct (po_free P) as [|b' rest] eqn:Hfree; [done|]. destruct (decide _) as [[Htake Hpos]|]; [|done].
  injection Hp as <- <-. rewrite <- Hfree in Htake, Hr. set (N := Z.to_nat n) in *.
  pose proof (lr_nodup _ _ _ (pr_list _ _ H)) as Hnd. pose proof (pr_refs _ _ H) as Hrefs.
  assert (po_free P = seq b' N ++ drop N (po_free P)) as Hsplit by (rewrite <- Htake; by rewrite take_drop).
  assert (forall i, (b' <= i < b' + N)%nat -> po_refs P !! i = Some 0 /\ (i < length (page_array s))%nat) as Hrun.
  { intros i Hi. apply (free_page_idle s P i H). rewrite Hsplit, elem_of_app, elem_of_seq. left. lia. }
  destruct (Hrun b' ltac:(lia)) as [_ Hb']. destruct (Hrun (b' + N - 1)%nat ltac:(lia)) as [_ Hlast].
  destruct (index_of_addr s P b' H Hb') as (Hidx & _ & Haddr).
  assert (index_of s1 (addr_of s (Some b')) = Some b') as Hidx1.
  { destruct Hf as (F1 & F2 & _). unfold index_of, page_from_phys in *. by rewrite F1, F2. }
  pose proof (pr_top _ _ H) as Htop.
  destruct (release_refines s1 _ _ b' n Hr Hidx1) as (s2 & -> & Hr2 & Hf2 & _).
  { lia. } { cbn [addr_of] in *. unfold PageSize in *. lia. }
  { intros i Hi Hin. cbn [po_free] in Hin. rewrite Hsplit in Hnd. apply list.NoDup_app in Hnd as (_ & Hnd & _).
    apply (Hnd i); [apply elem_of_seq; lia|done]. }
  exists s2. split; [done|]. split; [|destruct Hf as (_ & _ & _ & ?), Hf2 as (_ & _ & _ & ?); congruence].
  assert (pool_release b' N (mkPool (drop N (po_free P)) (take_refs (po_refs P) (seq b' N))) = P) as <-; [|exact Hr2].
  unfold pool_release, take_refs. cbn [po_free po_refs]. rewrite foldl_set_ref_length.
  replace (Nat.min N (length (po_refs P) - b')) with N by lia. rewrite <- Hsplit. destruct P as [fl refs]. f_equal.
  cbn [po_refs po_free] in *. apply list_eq. intros j.
  rewrite fold_set_ref_lookup by (intros i Hi; rewrite foldl_set_ref_length; apply elem_of_seq in Hi; lia).
  rewrite fold_set_ref_lookup by (intros i Hi; apply elem_of_seq in Hi; lia).
  destruct (decide (j ∈ seq b' N)) as [Hj|]; [|done]. apply elem_of_seq in Hj. by destruct (Hrun j ltac:(lia)) as [-> _].
Qed.

Definition cold : Phys := mkPhys 0 [] (mkPageList None None 0) false 0 0 true [].

(** Both supported boards meet the conditions. *)
Lemma boards_ok : board_ok virt_board /\ board_ok raspi3_board.
Proof. by split; vm_compute. Qed.

Lemma phys_init_witness :
  exists s', init virt_board cold = Ok s' /\ phys_rep s' (board_pool virt_board) /\ on_board virt_board s' /\
    free_page_count s' = Z.of_nat (board_pages virt_board - metadata_pages virt_board) /\ interrupts s' = interrupts cold.
Proof. apply (phys_init_pool virt_board cold); [apply boards_ok|reflexivity]. Defined.

Definition small_board : BoardConfig := mkBoardConfig 0x10000 0x8000 0x1000.

Lemma small_board_ok : board_ok small_board.
Proof. by vm_compute. Qed.

(** Seven pages are free; the last one holds the records.  Pages are taken from
    the top, a run from the bottom; freeing twice is harmless. *)
Definition small_calls : list Call :=
  [CReserve 2; CAlloc; CAlloc; CRetain 0x16000; CFree 0x16123; CFree 0x16000; CFree 0x16000; CRelease 0x10000 2; CReserve 3; CAlloc].

Lemma small_calls_ok : calls_ok small_board small_calls (board_pool small_board) = true.
Proof. vm_compute. reflexivity. Qed.

Example small_results :
  pool_calls small_board small_calls (board_pool small_board) =
  (mkPool [3; 4]%nat [1; 1; 1; 0; 0; 1; 1; 1], [0x10000; 0x16000; 0x15000; 0; 0; 0; 0; 0; 0x10000; 0x16000]).
Proof. vm_compute. reflexivity. Qed.

Lemma phys_calls_witness :
  exists s0 s', init small_board cold = Ok s0 /\
    phys_calls small_calls s0 = Ok (s', snd (pool_calls small_board small_calls (board_pool small_board))) /\
    phys_rep s' (fst (pool_calls small_board small_calls (board_pool small_board))) /\ interrupts s' = interrupts cold.
Proof.
  apply (phys_calls_refine small_board small_calls cold);
    [exact small_board_ok|reflexivity|exact small_calls_ok].
Defined.

(** The state after start-up. *)
Definition small_state : Phys := Eval vm_compute in match init small_board cold with Ok s => s | _ => cold end.

Lemma small_state_rep : phys_rep small_state (board_pool small_board).
Proof.
  destruct (phys_init_ok small_board small_board_ok cold eq_refl) as (s & Hs & Hr & _).
  assert (Ok s = Ok small_state) as [= ->]; [|done]. rewrite <- Hs. vm_compute. reflexivity.
Qed.

Lemma phys_alloc_witness :
  exists s' phys, alloc_page small_state = Ok (s', phys) /\ interrupts s' = interrupts small_state /\
    if free_page_count small_state =? 0 then phys = 0
    else is_valid_phys_page phys small_state = true /\ page_refcount phys small_state = Ok 0 /\ page_refcount phys s' = Ok 1 /\
      cleared s' = cleared small_state ++ [phys] /\ free_page_count s' = free_page_count small_state - 1 /\
      forall q, is_valid_phys_page q small_state = true -> q <> phys -> page_refcount q s' = page_refcount q small_state.
Proof. apply (phys_alloc_page_exclusive small_state (board_pool small_board)). exact small_state_rep. Defined.

(** The state after three pages have been reserved. *)
Definition reserved_state : Phys := Eval vm_compute in
  match reserve_contiguous_pages 3 small_state with Ok (s, _) => s | _ => cold end.

Lemma phys_reserve_release_witness :
  exists s2, release_contiguous_pages 0x10000 3 reserved_state = Ok (s2, tt) /\
    phys_rep s2 (board_pool small_board) /\ interrupts s2 = interrupts small_state.
Proof.
  apply (phys_reserve_release small_state (board_pool small_board) 3 reserved_state 0x10000);
    [exact small_state_rep|lia|vm_compute; reflexivity|lia].
Defined.
