(* ===== verification/SharedHeap.v ===== *)
(** The user-space heap shared by the modules of a process
    (applications/include/user_runtime.h, the user_shared_heap functions): a first-fit
    allocator over a list of blocks whose headers precede their payloads.

    A pointer is its address, 0 is NULL.  The headers are kept in a store indexed
    by address, apart from the payload bytes; reading a header where none was
    written is undefined.  The lock is a word: an acquire while it is held spins
    for ever. *)
From stdpp Require Import base list numbers gmap.
From Stdlib Require Import ZArith Lia.
From S2P Require Import Prelude.

Local Open Scope Z_scope.

Definition USER_HEAP_BASE : Z := 0x20000000.
Definition USER_HEAP_LIMIT : Z := 0x40000000.
Definition USER_HEAP_BYTES : Z := USER_HEAP_LIMIT - USER_HEAP_BASE.
Definition USER_SHARED_HEAP_MAGIC : Z := 0x554845415031.
Definition USER_SHARED_HEAP_BLOCK_FREE : Z := 1.

Record UserSharedHeapBlock : Type := mkBlock {
  payload_bytes : Z;
  flags : Z;
  next : Z;
  prev : Z
}.

(** The state record at the base of the heap, the headers and the payloads. *)
Record Heap : Type := mkHeap {
  magic : Z;
  lock_word : Z;
  hp_head : Z;
  hp_blocks : gmap Z UserSharedHeapBlock;
  hp_bytes : gmap Z Z
}.

(** [sizeof] of the two records: three and four words. *)
Definition sizeof_state : Z := 24.
Definition sizeof_block : Z := 32.

(** ** Fields *)
Definition with_payload (v : Z) (b : UserSharedHeapBlock) := mkBlock v (flags b) (next b) (prev b).
Definition with_flags (v : Z) (b : UserSharedHeapBlock) := mkBlock (payload_bytes b) v (next b) (prev b).
Definition with_next (v : Z) (b : UserSharedHeapBlock) := mkBlock (payload_bytes b) (flags b) v (prev b).
Definition with_prev (v : Z) (b : UserSharedHeapBlock) := mkBlock (payload_bytes b) (flags b) (next b) v.

Definition with_blocks (m : gmap Z UserSharedHeapBlock) (h : Heap) : Heap :=
  mkHeap (magic h) (lock_word h) (hp_head h) m (hp_bytes h).
Definition with_lock (v : Z) (h : Heap) : Heap :=
  mkHeap (magic h) v (hp_head h) (hp_blocks h) (hp_bytes h).
Definition with_bytes (m : gmap Z Z) (h : Heap) : Heap :=
  mkHeap (magic h) (lock_word h) (hp_head h) (hp_blocks h) m.

(** [*block] and [block->f = v]. *)
Definition header (h : Heap) (block : Z) : Exec UserSharedHeapBlock :=
  match hp_blocks h !! block with Some b => Ok b | None => Undef end.
Definition update (h : Heap) (block : Z) (f : UserSharedHeapBlock -> UserSharedHeapBlock) : Exec Heap :=
  b <- header h block ;; Ok (with_blocks (<[block := f b]> (hp_blocks h)) h).
(** A header written field by field where there was none. *)
Definition create (h : Heap) (block : Z) (b : UserSharedHeapBlock) : Heap :=
  with_blocks (<[block := b]> (hp_blocks h)) h.

(** ** Helpers *)
Definition user_shared_heap_align_up (value : Z) : Z :=
  Z.land (u64 (value + 15)) (u64 (Z.lnot 15)).

Definition user_shared_heap_first_block : Z :=
  u64 (USER_HEAP_BASE + user_shared_heap_align_up sizeof_state).

Definition user_shared_heap_contains_pointer (ptr : Z) : bool :=
  (USER_HEAP_BASE <=? ptr) && (ptr <? USER_HEAP_LIMIT).

Definition user_shared_heap_block_is_free (h : Heap) (block : Z) : Exec bool :=
  if block =? 0 then Ok false else
  b <- header h block ;; Ok (negb (Z.land (flags b) USER_SHARED_HEAP_BLOCK_FREE =? 0)).

(** ** The lock *)

(** The exclusive load and store: with no other writer the store succeeds. *)
Definition user_shared_heap_try_lock_once (h : Heap) : Heap * bool :=
  if lock_word h =? 0 then (with_lock 1 h, true) else (h, false).

Definition user_shared_heap_initialize_locked (h : Heap) : Heap :=
  if (magic h =? USER_SHARED_HEAP_MAGIC) && negb (hp_head h =? 0) then h else
  let first := user_shared_heap_first_block in
  let payload := u64 (USER_HEAP_BYTES - user_shared_heap_align_up sizeof_state - sizeof_block) in
  mkHeap USER_SHARED_HEAP_MAGIC (lock_word h) first
    (<[first := mkBlock payload USER_SHARED_HEAP_BLOCK_FREE 0 0]> (hp_blocks h)) (hp_bytes h).

Definition user_shared_heap_lock (h : Heap) : Exec Heap :=
  let '(h, locked) := user_shared_heap_try_lock_once h in
  if locked then Ok (user_shared_heap_initialize_locked h) else NoFuel.

Definition user_shared_heap_unlock (h : Heap) : Heap := with_lock 0 h.

(** ** Blocks *)
Definition user_shared_heap_split_block (h : Heap) (block payload : Z) : Exec Heap :=
  if block =? 0 then Ok h else
  b <- header h block ;;
  if payload_bytes b <=? u64 (payload + sizeof_block + 16) then Ok h else
  let remainder := u64 (block + sizeof_block + payload) in
  let h := create h remainder
    (mkBlock (u64 (payload_bytes b - payload - sizeof_block)) USER_SHARED_HEAP_BLOCK_FREE (next b) block) in
  h <- (if next b =? 0 then Ok h else update h (next b) (with_prev remainder)) ;;
  h <- update h block (with_payload payload) ;;
  update h block (with_next remainder).

(** [block] takes over [nxt], its successor. *)
Definition absorb (h : Heap) (block nxt : Z) : Exec Heap :=
  n <- header h nxt ;;
  h <- update h block (fun b => with_payload (u64 (payload_bytes b + (sizeof_block + payload_bytes n))) b) ;;
  h <- update h block (with_next (next n)) ;;
  b <- header h block ;;
  if next b =? 0 then Ok h else update h (next b) (with_prev block).

Definition user_shared_heap_coalesce (h : Heap) (block : Z) : Exec Heap :=
  if block =? 0 then Ok h else
  b <- header h block ;;
  free_next <- (if next b =? 0 then Ok false else user_shared_heap_block_is_free h (next b)) ;;
  h <- (if free_next then absorb h block (next b) else Ok h) ;;
  b <- header h block ;;
  free_prev <- (if prev b =? 0 then Ok false else user_shared_heap_block_is_free h (prev b)) ;;
  if free_prev then absorb h (prev b) block else Ok h.

(** The search; a header more than the list has is enough fuel. *)
Fixpoint malloc_loop (fuel : nat) (h : Heap) (block payload : Z) : Exec (Heap * Z) :=
  match fuel with
  | O => NoFuel
  | S fuel' =>
      if block =? 0 then Ok (h, 0) else
      b <- header h block ;;
      free <- user_shared_heap_block_is_free h block ;;
      if negb free || (payload_bytes b <? payload) then malloc_loop fuel' h (next b) payload else
      h <- user_shared_heap_split_block h block payload ;;
      h <- update h block (fun b => with_flags (Z.land (flags b) (u64 (Z.lnot USER_SHARED_HEAP_BLOCK_FREE))) b) ;;
      Ok (h, u64 (block + sizeof_block))
  end.

Definition user_shared_heap_malloc_locked (h : Heap) (payload : Z) : Exec (Heap * Z) :=
  malloc_loop (S (size (hp_blocks h))) h (hp_head h) payload.

Definition user_shared_heap_free_locked (h : Heap) (ptr : Z) : Exec Heap :=
  if (ptr =? 0) || negb (user_shared_heap_contains_pointer ptr) then Ok h else
  let block := ptr - sizeof_block in
  h <- update h block (fun b => with_flags (Z.lor (flags b) USER_SHARED_HEAP_BLOCK_FREE) b) ;;
  user_shared_heap_coalesce h block.

(** ** The public operations *)
Definition user_shared_heap_malloc (h : Heap) (size : Z) : Exec (Heap * Z) :=
  let payload := user_shared_heap_align_up (if size =? 0 then 1 else size) in
  h <- user_shared_heap_lock h ;;
  '(h, allocation) <- user_shared_heap_malloc_locked h payload ;;
  Ok (user_shared_heap_unlock h, allocation).

Definition user_shared_heap_free (h : Heap) (ptr : Z) : Exec Heap :=
  if (ptr =? 0) || negb (user_shared_heap_contains_pointer ptr) then Ok h else
  h <- user_shared_heap_lock h ;;
  h <- user_shared_heap_free_locked h ptr ;;
  Ok (user_shared_heap_unlock h).

(** A byte of the heap; memory starts out as zeros. *)
Definition byte_at (h : Heap) (a : Z) : Z := default 0 (hp_bytes h !! a).

Fixpoint copy_bytes (n : nat) (index : Z) (h : Heap) (destination source : Z) : Heap :=
  match n with
  | O => h
  | S n' =>
      copy_bytes n' (index + 1)
        (with_bytes (<[destination + index := byte_at h (source + index)]> (hp_bytes h)) h) destination source
  end.

Definition user_shared_heap_realloc (h : Heap) (ptr size : Z) : Exec (Heap * Z) :=
  if ptr =? 0 then user_shared_heap_malloc h size else
  if size =? 0 then h <- user_shared_heap_free h ptr ;; Ok (h, 0) else
  if negb (user_shared_heap_contains_pointer ptr) then Ok (h, 0) else
  h <- user_shared_heap_lock h ;;
  let block := ptr - sizeof_block in
  let payload := user_shared_heap_align_up size in
  b <- header h block ;;
  if payload <=? payload_bytes b then
    h <- user_shared_heap_split_block h block payload ;;
    Ok (user_shared_heap_unlock h, ptr)
  else
    grow <- (if next b =? 0 then Ok false else
             free_next <- user_shared_heap_block_is_free h (next b) ;;
             if negb free_next then Ok false else
             n <- header h (next b) ;;
             Ok (payload <=? u64 (payload_bytes b + sizeof_block + payload_bytes n))) ;;
    if grow : bool then
      h <- absorb h block (next b) ;;
      h <- user_shared_heap_split_block h block payload ;;
      Ok (user_shared_heap_unlock h, ptr)
    else
      '(h, replacement) <- user_shared_heap_malloc_locked h payload ;;
      if replacement =? 0 then Ok (user_shared_heap_unlock h, 0) else
      b <- header h block ;;
      let copy := if payload_bytes b <? size then payload_bytes b else size in
      let h := copy_bytes (Z.to_nat copy) 0 h replacement ptr in
      h <- user_shared_heap_free_locked h ptr ;;
      Ok (user_shared_heap_unlock h, replacement).
