(* ===== verification/SharedHeapProofs.v ===== *)
(** The block list of the shared user heap as a list of segments that tile the
    heap window, and each list operation on it. *)
From stdpp Require Import base list numbers gmap.
From Stdlib Require Import ZArith Lia.
From S2P Require Import Prelude SharedHeap.

Local Open Scope Z_scope.

(** ** Segments *)
Record Seg : Type := mkSeg { sg_addr : Z; sg_bytes : Z; sg_free : bool }.

Definition sg_end (s : Seg) : Z := sg_addr s + 32 + sg_bytes s.
Definition flag (b : bool) : Z := if b then 1 else 0.

(** [segs] fill the addresses from [a] to [lim], in units of 16 bytes. *)
Fixpoint tiles (a : Z) (segs : list Seg) (lim : Z) : Prop :=
  match segs with
  | [] => a = lim
  | s :: r => sg_addr s = a /\ 16 <= sg_bytes s /\ sg_bytes s mod 16 = 0 /\ tiles (sg_end s) r lim
  end.

Definition head_addr (segs : list Seg) (nxt : Z) : Z := match segs with [] => nxt | s :: _ => sg_addr s end.
Fixpoint last_addr (prv : Z) (segs : list Seg) : Z := match segs with [] => prv | s :: r => last_addr (sg_addr s) r end.

(** The headers of [segs] are linked, between [prv] and [nxt]. *)
Fixpoint lseg (m : gmap Z UserSharedHeapBlock) (prv : Z) (segs : list Seg) (nxt : Z) : Prop :=
  match segs with
  | [] => True
  | s :: r => m !! sg_addr s = Some (mkBlock (sg_bytes s) (flag (sg_free s)) (head_addr r nxt) prv) /\ lseg m (sg_addr s) r nxt
  end.

Lemma tiles_app a l1 l2 lim : tiles a (l1 ++ l2) lim <-> exists mid, tiles a l1 mid /\ tiles mid l2 lim.
Proof.
  revert a. induction l1 as [|s l1 IH]; intros a; cbn [app tiles].
  - split; [intros H; by exists a|]. intros (mid & -> & H). done.
  - rewrite IH. split.
    + intros (H1 & H2 & H3 & mid & H4 & H5). exists mid. done.
    + intros (mid & (H1 & H2 & H3 & H4) & H5). split_and!; try done. by exists mid.
Qed.

Lemma tiles_le a segs lim : tiles a segs lim -> a <= lim.
Proof.
  revert a. induction segs as [|s r IH]; intros a; cbn [tiles]; [lia|].
  intros (<- & Hb & _ & Ht). apply IH in Ht. unfold sg_end in Ht. lia.
Qed.

Lemma tiles_in a segs lim s : tiles a segs lim -> s ∈ segs -> a <= sg_addr s /\ 16 <= sg_bytes s /\ sg_end s <= lim.
Proof.
  revert a. induction segs as [|t r IH]; intros a Ht Hs; [by apply not_elem_of_nil in Hs|]. cbn [tiles] in Ht.
  destruct Ht as (<- & Hb & _ & Ht). apply elem_of_cons in Hs as [->|Hs].
  - apply tiles_le in Ht. lia.
  - apply IH in Ht as (H1 & H2 & H3); [|done]. unfold sg_end in *. lia.
Qed.

Lemma tiles_aligned a segs lim s : a mod 16 = 0 -> tiles a segs lim -> s ∈ segs -> sg_addr s mod 16 = 0 /\ sg_bytes s mod 16 = 0.
Proof.
  revert a. induction segs as [|t r IH]; intros a Ha Ht Hs; [by apply not_elem_of_nil in Hs|]. cbn [tiles] in Ht.
  destruct Ht as (<- & Hb & Hm & Ht). apply elem_of_cons in Hs as [->|Hs]; [done|].
  apply (IH (sg_end t)); try done. unfold sg_end. Z.div_mod_to_equations. lia.
Qed.

(** Segments do not overlap. *)
Lemma tiles_apart a l1 s l2 t lim :
  tiles a (l1 ++ s :: l2) lim ->
  (t ∈ l1 -> sg_end t <= sg_addr s) /\ (t ∈ l2 -> sg_end s <= sg_addr t).
Proof.
  intros Ht. apply tiles_app in Ht as (mid & H1 & H2). cbn [tiles] in H2. destruct H2 as (<- & Hb & _ & H2). split; intros Hin.
  - by apply (tiles_in _ _ _ t) in H1 as (_ & _ & ?).
  - by apply (tiles_in _ _ _ t) in H2 as (? & _).
Qed.

(** No header of the list is strictly inside a segment. *)
Lemma tiles_fresh a l1 s l2 lim x :
  tiles a (l1 ++ s :: l2) lim -> sg_addr s < x < sg_end s -> forall t, t ∈ l1 ++ s :: l2 -> sg_addr t <> x.
Proof.
  intros Ht Hx t Hin E. destruct (tiles_apart _ _ _ _ t _ Ht) as [H1 H2].
  pose proof (tiles_in _ _ _ t Ht Hin) as (_ & Hb & _). unfold sg_end in *.
  apply elem_of_app in Hin as [Hin|Hin]; [apply H1 in Hin; lia|].
  apply elem_of_cons in Hin as [->|Hin]; [lia|]. apply H2 in Hin. lia.
Qed.

Lemma lseg_app m p l1 l2 n : lseg m p (l1 ++ l2) n <-> lseg m p l1 (head_addr l2 n) /\ lseg m (last_addr p l1) l2 n.
Proof.
  revert p. induction l1 as [|s l1 IH]; intros p; cbn [app lseg last_addr]; [tauto|].
  rewrite IH. destruct l1; cbn [app head_addr]; tauto.
Qed.

Lemma lseg_frame m p segs n x b : (forall s, s ∈ segs -> sg_addr s <> x) -> lseg m p segs n -> lseg (<[x := b]> m) p segs n.
Proof.
  revert p. induction segs as [|s r IH]; intros p Hx; cbn [lseg]; [done|]. intros [H1 H2]. split.
  - rewrite lookup_insert_ne; [done|]. intros E. apply (Hx s); [constructor|done].
  - apply IH; [|done]. intros t Ht. apply Hx. by constructor.
Qed.

(** The predecessor of a list of segments changes. *)
Definition set_prev (q : Z) (segs : list Seg) (n : Z) (m : gmap Z UserSharedHeapBlock) : gmap Z UserSharedHeapBlock :=
  match segs with
  | [] => m
  | s :: r => <[sg_addr s := mkBlock (sg_bytes s) (flag (sg_free s)) (head_addr r n) q]> m
  end.

Lemma lseg_set_prev m p q segs n :
  (forall s r, segs = s :: r -> forall t, t ∈ r -> sg_addr t <> sg_addr s) -> lseg m p segs n -> lseg (set_prev q segs n m) q segs n.
Proof.
  intros Hnd. destruct segs as [|s r]; cbn [lseg set_prev]; [done|]. intros [H1 H2]. split; [apply lookup_insert_eq|].
  apply lseg_frame; [|done]. by apply (Hnd s r).
Qed.

(** ** The heap *)
Definition FIRST : Z := 0x20000020.

Record heap_rep (h : Heap) (segs : list Seg) : Prop := {
  hr_magic : magic h = USER_SHARED_HEAP_MAGIC;
  hr_head : hp_head h = FIRST;
  hr_tiles : tiles FIRST segs USER_HEAP_LIMIT;
  hr_links : lseg (hp_blocks h) 0 segs 0 }.

(** What an operation on the list leaves alone. *)
Definition same_rest (h h' : Heap) : Prop :=
  magic h' = magic h /\ lock_word h' = lock_word h /\ hp_head h' = hp_head h /\ hp_bytes h' = hp_bytes h.

Lemma rep_head h segs : heap_rep h segs -> exists s r, segs = s :: r /\ sg_addr s = FIRST.
Proof.
  intros [_ _ Ht _]. destruct segs as [|s r]; [|exists s, r; split; [done|apply Ht]].
  cbn in Ht. unfold FIRST, USER_HEAP_LIMIT in Ht. lia.
Qed.

Lemma update_ok h a b f : hp_blocks h !! a = Some b -> update h a f = Ok (with_blocks (<[a := f b]> (hp_blocks h)) h).
Proof. intros Hb. unfold update, header. rewrite Hb. by rewrite bind_ok. Qed.

Lemma header_ok h a b : hp_blocks h !! a = Some b -> header h a = Ok b.
Proof. intros Hb. unfold header. by rewrite Hb. Qed.

(** One segment in the middle of the heap. *)
Section Middle.
Context (h : Heap) (l1 l2 : list Seg) (s : Seg).
Hypothesis Hrep : heap_rep h (l1 ++ s :: l2).

Lemma mid_header :
  hp_blocks h !! sg_addr s = Some (mkBlock (sg_bytes s) (flag (sg_free s)) (head_addr l2 0) (last_addr 0 l1)).
Proof. destruct Hrep as [_ _ _ Hl]. apply lseg_app in Hl as [_ [H _]]. done. Qed.

Lemma mid_left : lseg (hp_blocks h) 0 l1 (sg_addr s).
Proof. destruct Hrep as [_ _ _ Hl]. by apply lseg_app in Hl as [H _]. Qed.

Lemma mid_right : lseg (hp_blocks h) (sg_addr s) l2 0.
Proof. destruct Hrep as [_ _ _ Hl]. apply lseg_app in Hl as [_ [_ H]]. done. Qed.

Lemma mid_range : FIRST <= sg_addr s /\ 16 <= sg_bytes s /\ sg_end s <= USER_HEAP_LIMIT.
Proof. apply (tiles_in FIRST (l1 ++ s :: l2)); [apply Hrep|]. rewrite elem_of_app, elem_of_cons. auto. Qed.

Lemma mid_aligned : sg_addr s mod 16 = 0 /\ sg_bytes s mod 16 = 0.
Proof. apply (tiles_aligned FIRST (l1 ++ s :: l2) USER_HEAP_LIMIT); [done|apply Hrep|]. rewrite elem_of_app, elem_of_cons. auto. Qed.

Lemma mid_nonzero t : t ∈ l1 ++ s :: l2 -> FIRST <= sg_addr t < USER_HEAP_LIMIT.
Proof.
  intros Ht. pose proof (tiles_in _ _ _ t (hr_tiles _ _ Hrep) Ht) as (H1 & H2 & H3). unfold sg_end in H3. lia.
Qed.

Lemma mid_left_ne t x : t ∈ l1 -> sg_addr s <= x -> sg_addr t <> x.
Proof.
  intros Ht Hx. destruct (tiles_apart _ _ _ _ t _ (hr_tiles _ _ Hrep)) as [H1 _]. apply H1 in Ht as Hle.
  assert (16 <= sg_bytes t) by (apply (tiles_in _ _ _ t (hr_tiles _ _ Hrep)); rewrite elem_of_app; auto).
  unfold sg_end in Hle. lia.
Qed.

Lemma mid_right_ne t x : t ∈ l2 -> x < sg_end s -> sg_addr t <> x.
Proof. intros Ht Hx. destruct (tiles_apart _ _ _ _ t _ (hr_tiles _ _ Hrep)) as [_ H2]. apply H2 in Ht as Hle. lia. Qed.

(** Within the right part, addresses are distinct too. *)
Lemma mid_right_nodup t r u : l2 = t :: r -> u ∈ r -> sg_addr u <> sg_addr t.
Proof.
  intros -> Hu. pose proof (hr_tiles _ _ Hrep) as Ht. apply tiles_app in Ht as (mid & _ & Ht). cbn [tiles] in Ht.
  destruct Ht as (_ & _ & _ & _ & Hb & _ & Ht). apply (tiles_in _ _ _ u) in Ht as (H1 & _); [|done]. unfold sg_end in H1. lia.
Qed.
End Middle.

Lemma head_addr_zero h l1 s l2 : heap_rep h (l1 ++ s :: l2) -> (head_addr l2 0 =? 0) = match l2 with [] => true | _ => false end.
Proof.
  intros H. destruct l2 as [|t r]; [done|]. cbn [head_addr]. apply Z.eqb_neq.
  destruct (mid_nonzero h l1 (t :: r) s H t) as [? _]; [rewrite elem_of_app, !elem_of_cons; auto|]. unfold FIRST in *. lia.
Qed.

(** Replacing the middle segment: the new segments [mid] are linked, the right
    part has them as its predecessor, and the left part is as before. *)
Lemma rep_replace h h' l1 s l2 mid :
  heap_rep h (l1 ++ s :: l2) -> mid <> [] -> tiles (sg_addr s) mid (sg_end s) ->
  magic h' = magic h -> hp_head h' = hp_head h ->
  lseg (hp_blocks h') 0 l1 (sg_addr s) -> lseg (hp_blocks h') (last_addr 0 l1) mid (head_addr l2 0) ->
  lseg (hp_blocks h') (last_addr 0 mid) l2 0 ->
  heap_rep h' (l1 ++ mid ++ l2).
Proof.
  intros [H1 H2 H3 H4] Hne Ht Hm Hh L1 L2 L3. split; [congruence|congruence| |].
  - apply tiles_app in H3 as (x & T1 & T2). cbn [tiles] in T2. destruct T2 as (<- & _ & _ & T2).
    apply tiles_app. exists (sg_addr s). split; [done|]. apply tiles_app. by exists (sg_end s).
  - apply lseg_app. destruct mid as [|u mid]; [done|]. cbn [app head_addr]. destruct Ht as (Ha & _). rewrite Ha. split; [done|].
    change (u :: mid ++ l2) with ((u :: mid) ++ l2). apply lseg_app. by split.
Qed.

(** ** Splitting *)
Definition split_seg (s : Seg) (n : Z) : list Seg :=
  if sg_bytes s <=? n + 48 then [s]
  else [mkSeg (sg_addr s) n (sg_free s); mkSeg (sg_addr s + 32 + n) (sg_bytes s - n - 32) true].

Lemma split_tiles s n :
  16 <= n -> n mod 16 = 0 -> 16 <= sg_bytes s -> sg_bytes s mod 16 = 0 -> tiles (sg_addr s) (split_seg s n) (sg_end s).
Proof.
  intros Hn Hm Hb Hbm. unfold split_seg. destruct (Z.leb_spec (sg_bytes s) (n + 48)); cbn [tiles]; [done|].
  unfold sg_end. cbn [sg_addr sg_bytes]. split_and!; try done; try lia. Z.div_mod_to_equations. lia.
Qed.

Lemma split_ok h l1 s l2 n :
  heap_rep h (l1 ++ s :: l2) -> 16 <= n -> n mod 16 = 0 -> n <= sg_bytes s ->
  exists h', user_shared_heap_split_block h (sg_addr s) n = Ok h' /\ heap_rep h' (l1 ++ split_seg s n ++ l2) /\ same_rest h h'.
Proof.
  intros H Hn Hnm Hmax. pose proof (mid_range h l1 l2 s H) as (Ha & Hb & He). pose proof (mid_aligned h l1 l2 s H) as [Ham Hbm].
  unfold FIRST, USER_HEAP_LIMIT, sg_end in Ha, He. pose proof (split_tiles s n Hn Hnm Hb Hbm) as Htiles.
  unfold user_shared_heap_split_block. destruct (Z.eqb_spec (sg_addr s) 0); [lia|].
  rewrite (header_ok _ _ _ (mid_header h l1 l2 s H)), bind_ok. cbn [payload_bytes next]. unfold sizeof_block.
  unfold split_seg in *. replace (n + 32 + 16) with (n + 48) by lia. rewrite (u64_small (n + 48)) by lia.
  destruct (Z.leb_spec (sg_bytes s) (n + 48)).
  { exists h. cbn [app]. split_and!; done. }
  rewrite (u64_small (sg_addr s + 32 + n)), (u64_small (sg_bytes s - n - 32)) by lia. set (r := sg_addr s + 32 + n).
  rewrite (head_addr_zero h l1 s l2 H).
  set (hd := mkBlock (sg_bytes s - n - 32) USER_SHARED_HEAP_BLOCK_FREE (head_addr l2 0) (sg_addr s)).
  set (m1 := set_prev r l2 0 (<[r := hd]> (hp_blocks h))).
  assert (forall t, t ∈ l1 -> sg_addr t <> r) as Nl by (intros t Ht; apply (mid_left_ne h l1 l2 s H t); [done|unfold r; lia]).
  assert (forall t, t ∈ l2 -> sg_addr t <> r) as Nr by (intros t Ht; apply (mid_right_ne h l1 l2 s H t); [done|unfold r, sg_end; lia]).
  assert (forall t, t ∈ l2 -> sg_addr t <> sg_addr s) as Nrs by (intros t Ht; apply (mid_right_ne h l1 l2 s H t); [done|unfold sg_end; lia]).
  assert (forall t, t ∈ l1 -> sg_addr t <> sg_addr s) as Nls by (intros t Ht; apply (mid_left_ne h l1 l2 s H t); [done|lia]).
  assert ((if match l2 with [] => true | _ => false end then Ok (create h r hd) else
    update (create h r hd) (head_addr l2 0) (with_prev r)) = Ok (with_blocks m1 h)) as ->.
  { unfold m1. destruct l2 as [|t l2']; [done|]. cbn [set_prev head_addr]. destruct (mid_right h l1 (t :: l2') s H) as [Ht _].
    rewrite (update_ok _ _ (mkBlock (sg_bytes t) (flag (sg_free t)) (head_addr l2' 0) (sg_addr s))); [done|].
    cbn [create hp_blocks with_blocks]. rewrite lookup_insert_ne; [done|]. apply not_eq_sym, Nr. constructor. }
  rewrite bind_ok.
  assert (m1 !! sg_addr s = Some (mkBlock (sg_bytes s) (flag (sg_free s)) (head_addr l2 0) (last_addr 0 l1))) as Hm1.
  { unfold m1. destruct l2 as [|t l2']; cbn [set_prev].
    - rewrite lookup_insert_ne by (unfold r; lia). apply (mid_header h l1 [] s H).
    - rewrite !lookup_insert_ne by (unfold r; first [lia|apply Nrs; constructor]). apply (mid_header h l1 (t :: l2') s H). }
  rewrite (update_ok (with_blocks m1 h) _ _ _ Hm1), bind_ok. cbn [with_blocks hp_blocks].
  rewrite (update_ok _ _ (mkBlock n (flag (sg_free s)) (head_addr l2 0) (last_addr 0 l1))) by (cbn; by rewrite lookup_insert_eq).
  eexists. split; [reflexivity|]. cbn [with_blocks hp_blocks]. rewrite insert_insert_eq. unfold with_next. cbn [payload_bytes flags prev].
  split; [|done]. apply (rep_replace h _ l1 s l2); try done; cbn [hp_blocks with_blocks].
  - apply lseg_frame; [done|]. unfold m1. destruct l2 as [|t l2']; cbn [set_prev].
    + apply lseg_frame; [done|]. apply (mid_left h l1 [] s H).
    + apply lseg_frame; [|apply lseg_frame; [done|apply (mid_left h l1 (t :: l2') s H)]].
      intros u Hu. apply (mid_left_ne h l1 (t :: l2') s H u); [done|].
      destruct (tiles_apart _ _ _ _ t _ (hr_tiles _ _ H)) as [_ Hx]. specialize (Hx ltac:(constructor)). unfold sg_end in Hx. lia.
  - cbn [lseg head_addr sg_addr sg_bytes sg_free]. split_and!; [by rewrite lookup_insert_eq| |done].
    rewrite lookup_insert_ne by (unfold r; lia). unfold m1. destruct l2 as [|t l2']; cbn [set_prev].
    + by rewrite lookup_insert_eq.
    + rewrite lookup_insert_ne by (apply Nr; constructor). by rewrite lookup_insert_eq.
  - cbn [last_addr sg_addr]. apply lseg_frame; [done|]. apply (lseg_set_prev _ (sg_addr s)).
    + intros t l2' ->. intros u Hu. by apply (mid_right_nodup h l1 (t :: l2') s H t l2').
    + apply lseg_frame; [done|]. apply (mid_right h l1 l2 s H).
Qed.

(** ** Merging *)
Definition merge (s t : Seg) : Seg := mkSeg (sg_addr s) (sg_bytes s + 32 + sg_bytes t) (sg_free s).

Lemma merge_tiles a l1 s t l2 lim : tiles a (l1 ++ s :: t :: l2) lim -> tiles a (l1 ++ merge s t :: l2) lim.
Proof.
  intros H. apply tiles_app in H as (x & H1 & H2). apply tiles_app. exists x. split; [done|]. cbn [tiles] in *.
  destruct H2 as (E1 & B1 & M1 & E2 & B2 & M2 & H2). unfold merge, sg_end in *. cbn [sg_addr sg_bytes].
  split_and!; [done|lia|Z.div_mod_to_equations; lia|]. rewrite E2 in H2.
  by replace (sg_addr s + 32 + (sg_bytes s + 32 + sg_bytes t)) with (sg_addr s + 32 + sg_bytes s + 32 + sg_bytes t) by lia.
Qed.

Lemma absorb_ok h l1 s t l2 :
  heap_rep h (l1 ++ s :: t :: l2) ->
  exists h', absorb h (sg_addr s) (sg_addr t) = Ok h' /\ heap_rep h' (l1 ++ merge s t :: l2) /\ same_rest h h'.
Proof.
  intros H. assert (heap_rep h ((l1 ++ [s]) ++ t :: l2)) as Ht by (by rewrite <- app_assoc).
  pose proof (mid_range h l1 (t :: l2) s H) as (Ha & Hb & He). pose proof (mid_range h (l1 ++ [s]) l2 t Ht) as (Hta & Htb & Hte).
  unfold FIRST, USER_HEAP_LIMIT, sg_end in *.
  assert (sg_addr t = sg_addr s + 32 + sg_bytes s) as Eadj.
  { pose proof (hr_tiles _ _ H) as Hx. apply tiles_app in Hx as (x & _ & Hx). cbn [tiles] in Hx.
    destruct Hx as (_ & _ & _ & Hx & _). done. }
  pose proof (mid_header h (l1 ++ [s]) l2 t Ht) as Hht. pose proof (mid_header h l1 (t :: l2) s H) as Hhs.
  unfold absorb. rewrite (header_ok _ _ _ Hht), bind_ok. cbn [payload_bytes next].
  rewrite (update_ok _ _ _ _ Hhs), bind_ok. cbn [with_blocks hp_blocks with_payload payload_bytes flags next prev].
  unfold sizeof_block. rewrite u64_small by lia.
  rewrite (update_ok _ _ (mkBlock (sg_bytes s + (32 + sg_bytes t)) (flag (sg_free s)) (sg_addr t) (last_addr 0 l1)))
    by (cbn; by rewrite lookup_insert_eq). rewrite bind_ok.
  cbn [with_blocks hp_blocks with_next payload_bytes flags next prev]. rewrite insert_insert_eq.
  set (b' := mkBlock (sg_bytes s + (32 + sg_bytes t)) (flag (sg_free s)) (head_addr l2 0) (last_addr 0 l1)).
  unfold with_next. cbn [payload_bytes flags prev]. fold b'.
  rewrite (header_ok _ _ b') by (cbn; by rewrite lookup_insert_eq). rewrite bind_ok. cbn [b' next].
  rewrite (head_addr_zero h _ _ _ Ht).
  set (m1 := <[sg_addr s := b']> (hp_blocks h)).
  assert (forall u, u ∈ l2 -> sg_addr u <> sg_addr s) as Nr.
  { intros u Hu. apply (mid_right_ne h l1 (t :: l2) s H u); [by constructor|]. unfold sg_end. lia. }
  assert (forall u x, u ∈ l1 -> sg_addr s <= x -> sg_addr u <> x) as Nl by (intros u x; apply (mid_left_ne h l1 (t :: l2) s H u)).
  cbn [hp_blocks with_blocks].
  match goal with |- exists h', ?m = _ /\ _ /\ _ =>
    assert (m = Ok (mkHeap (magic h) (lock_word h) (hp_head h) (set_prev (sg_addr s) l2 0 m1) (hp_bytes h))) as -> end.
  { destruct l2 as [|u l2']; [done|]. cbn [set_prev head_addr].
    destruct (mid_right h (l1 ++ [s]) (u :: l2') t Ht) as [Hu _].
    rewrite (update_ok _ _ (mkBlock (sg_bytes u) (flag (sg_free u)) (head_addr l2' 0) (sg_addr t))); [done|].
    cbn [hp_blocks with_blocks]. unfold m1. rewrite lookup_insert_ne; [done|]. apply not_eq_sym, Nr. constructor. }
  eexists. split; [reflexivity|]. split; [|done].
  destruct H as [G1 G2 G3 G4]. split; cbn [magic hp_head hp_blocks]; [done|done|by apply merge_tiles|].
  apply lseg_app in G4 as [L1 [_ _]]. apply lseg_app. cbn [head_addr merge sg_addr]. split.
  - unfold m1. destruct l2 as [|u l2']; cbn [set_prev].
    + apply lseg_frame; [|done]. intros v Hv. apply Nl; [done|lia].
    + apply lseg_frame; [|apply lseg_frame; [|done]]; intros v Hv; apply Nl; try done; try lia.
      destruct (tiles_apart _ _ _ _ u _ G3) as [_ Hx]. specialize (Hx ltac:(apply elem_of_cons; right; constructor)).
      unfold sg_end in Hx. lia.
  - cbn [lseg merge sg_addr sg_bytes sg_free]. split.
    + unfold m1. replace (sg_bytes s + 32 + sg_bytes t) with (sg_bytes s + (32 + sg_bytes t)) by lia.
      destruct l2 as [|u l2']; cbn [set_prev]; [by rewrite lookup_insert_eq|].
      rewrite lookup_insert_ne by (apply Nr; constructor). by rewrite lookup_insert_eq.
    + apply (lseg_set_prev _ (sg_addr t)).
      * intros u r Eu v Hv. by apply (mid_right_nodup h (l1 ++ [s]) l2 t Ht u r).
      * unfold m1. apply lseg_frame; [done|]. apply (mid_right h (l1 ++ [s]) l2 t Ht).
Qed.

(** ** Marking *)
Definition mark (b : bool) (s : Seg) : Seg := mkSeg (sg_addr s) (sg_bytes s) b.

Lemma mark_ok h l1 s l2 b f :
  heap_rep h (l1 ++ s :: l2) -> f (flag (sg_free s)) = flag b ->
  exists h', update h (sg_addr s) (fun x => with_flags (f (flags x)) x) = Ok h' /\
    heap_rep h' (l1 ++ mark b s :: l2) /\ same_rest h h'.
Proof.
  intros H Hf. rewrite (update_ok _ _ _ _ (mid_header h l1 l2 s H)). eexists. split; [reflexivity|]. split; [|done].
  unfold with_flags. cbn [flags payload_bytes next prev]. rewrite Hf.
  pose proof (mid_range h l1 l2 s H) as (_ & Hb & _). pose proof (mid_aligned h l1 l2 s H) as [_ Hbm].
  apply (rep_replace h _ l1 s l2 [mark b s]); try done; cbn [hp_blocks with_blocks].
  - apply lseg_frame; [|apply (mid_left h l1 l2 s H)]. intros t Ht. apply (mid_left_ne h l1 l2 s H t); [done|lia].
  - cbn [lseg mark sg_addr sg_bytes sg_free head_addr]. split; [|done]. by rewrite lookup_insert_eq.
  - cbn [last_addr mark sg_addr]. apply lseg_frame; [|apply (mid_right h l1 l2 s H)].
    intros t Ht. apply (mid_right_ne h l1 l2 s H t); [done|]. unfold sg_end. lia.
Qed.

Lemma is_free_ok h l1 s l2 :
  heap_rep h (l1 ++ s :: l2) -> user_shared_heap_block_is_free h (sg_addr s) = Ok (sg_free s).
Proof.
  intros H. unfold user_shared_heap_block_is_free. pose proof (mid_range h l1 l2 s H) as (Ha & _). unfold FIRST in Ha.
  destruct (Z.eqb_spec (sg_addr s) 0); [lia|]. rewrite (header_ok _ _ _ (mid_header h l1 l2 s H)), bind_ok.
  cbn [flags]. by destruct (sg_free s).
Qed.

Lemma same_rest_trans h1 h2 h3 : same_rest h1 h2 -> same_rest h2 h3 -> same_rest h1 h3.
Proof. unfold same_rest. intros (A1 & A2 & A3 & A4) (B1 & B2 & B3 & B4). split_and!; congruence. Qed.

(** ** Coalescing *)
Definition merge_right (s : Seg) (l2 : list Seg) : Seg * list Seg :=
  match l2 with
  | t :: r => if sg_free t then (merge s t, r) else (s, l2)
  | [] => (s, [])
  end.
Definition merge_left (l1 : list Seg) (s : Seg) (l2 : list Seg) : list Seg :=
  match rev l1 with
  | p :: r => if sg_free p then rev r ++ merge p s :: l2 else l1 ++ s :: l2
  | [] => s :: l2
  end.
Definition coalesced (l1 : list Seg) (s : Seg) (l2 : list Seg) : list Seg :=
  let '(s', l2') := merge_right s l2 in merge_left l1 s' l2'.

Lemma last_addr_snoc p l1 s : last_addr p (l1 ++ [s]) = sg_addr s.
Proof. revert p. induction l1 as [|t l1 IH]; intros p; cbn [app last_addr]; [done|apply IH]. Qed.

Lemma merge_left_ok h l1 s l2 :
  heap_rep h (l1 ++ s :: l2) ->
  exists h', (b <- header h (sg_addr s) ;;
    free_prev <- (if prev b =? 0 then Ok false else user_shared_heap_block_is_free h (prev b)) ;;
    if free_prev : bool then absorb h (prev b) (sg_addr s) else Ok h) = Ok h' /\
    heap_rep h' (merge_left l1 s l2) /\ same_rest h h'.
Proof.
  intros H. rewrite (header_ok _ _ _ (mid_header h l1 l2 s H)), bind_ok. cbn [prev]. unfold merge_left.
  destruct l1 as [|p l1] using rev_ind.
  { cbn [last_addr rev app Z.eqb] in *. rewrite bind_ok. by exists h. }
  rewrite last_addr_snoc, rev_app_distr. cbn [rev app]. rewrite rev_involutive. rewrite <- app_assoc in *. cbn [app] in *.
  pose proof (mid_range h l1 (s :: l2) p H) as (Hp & _). unfold FIRST in Hp. destruct (Z.eqb_spec (sg_addr p) 0); [lia|].
  rewrite (is_free_ok h l1 p (s :: l2) H), bind_ok. destruct (sg_free p); [by apply absorb_ok|].
  by exists h.
Qed.

Lemma coalesce_ok h l1 s l2 :
  heap_rep h (l1 ++ s :: l2) ->
  exists h', user_shared_heap_coalesce h (sg_addr s) = Ok h' /\ heap_rep h' (coalesced l1 s l2) /\ same_rest h h'.
Proof.
  intros H. pose proof (mid_range h l1 l2 s H) as (Ha & _). unfold FIRST in Ha. unfold user_shared_heap_coalesce, coalesced.
  destruct (Z.eqb_spec (sg_addr s) 0); [lia|]. rewrite (header_ok _ _ _ (mid_header h l1 l2 s H)), bind_ok. cbn [next].
  rewrite (head_addr_zero h l1 s l2 H). destruct l2 as [|t r]; cbn [merge_right head_addr].
  { rewrite !bind_ok. by apply merge_left_ok. }
  assert (heap_rep h ((l1 ++ [s]) ++ t :: r)) as Ht by (by rewrite <- app_assoc).
  rewrite (is_free_ok h (l1 ++ [s]) t r Ht), bind_ok. destruct (sg_free t).
  - destruct (absorb_ok h l1 s t r H) as (h1 & -> & H1 & R1). rewrite bind_ok.
    destruct (merge_left_ok h1 l1 (merge s t) r H1) as (h2 & E & H2 & R2). exists h2. cbn [merge sg_addr] in E. split_and!; [done|done|].
    by apply (same_rest_trans h h1 h2).
  - rewrite bind_ok. by apply merge_left_ok.
Qed.

(** ** First fit *)
Definition fits (n : Z) (s : Seg) : bool := sg_free s && (n <=? sg_bytes s).
Definition take_seg (s : Seg) (n : Z) : list Seg :=
  match split_seg s n with x :: r => mark false x :: r | [] => [] end.

Lemma split_seg_cons s n : exists x r, split_seg s n = x :: r /\ sg_addr x = sg_addr s /\ sg_free x = sg_free s.
Proof. unfold split_seg. destruct (_ <=? _); eauto. Qed.

Lemma take_ok h l1 s l2 n :
  heap_rep h (l1 ++ s :: l2) -> 16 <= n -> n mod 16 = 0 -> n <= sg_bytes s ->
  exists h', (h <- user_shared_heap_split_block h (sg_addr s) n ;;
    update h (sg_addr s) (fun b => with_flags (Z.land (flags b) (u64 (Z.lnot USER_SHARED_HEAP_BLOCK_FREE))) b)) = Ok h' /\
    heap_rep h' (l1 ++ take_seg s n ++ l2) /\ same_rest h h'.
Proof.
  intros H Hn Hm Hmax. destruct (split_ok h l1 s l2 n H Hn Hm Hmax) as (h1 & -> & H1 & R1). rewrite bind_ok. unfold take_seg.
  destruct (split_seg_cons s n) as (x & r & Ex & Ea & _). rewrite Ex in *. cbn [app] in *. rewrite <- Ea.
  destruct (mark_ok h1 l1 x (r ++ l2) false (fun v => Z.land v (u64 (Z.lnot USER_SHARED_HEAP_BLOCK_FREE))) H1) as (h2 & E & H2 & R2).
  { by destruct (sg_free x). }
  exists h2. split_and!; [exact E|done|]. by apply (same_rest_trans h h1 h2).
Qed.

Definition malloc_result (h : Heap) (l1 l2 : list Seg) (n : Z) (h' : Heap) (p : Z) : Prop :=
  same_rest h h' /\
  ((p = 0 /\ h' = h /\ forall t, t ∈ l2 -> fits n t = false) \/
   exists la s lb, l2 = la ++ s :: lb /\ fits n s = true /\ (forall t, t ∈ la -> fits n t = false) /\
     p = sg_addr s + 32 /\ heap_rep h' (l1 ++ la ++ take_seg s n ++ lb)).

Lemma malloc_loop_ok fuel h l1 l2 n :
  heap_rep h (l1 ++ l2) -> 16 <= n -> n mod 16 = 0 -> (length l2 < fuel)%nat ->
  exists h' p, malloc_loop fuel h (head_addr l2 0) n = Ok (h', p) /\ malloc_result h l1 l2 n h' p.
Proof.
  revert l1 l2. induction fuel as [|fuel IH]; intros l1 l2 H Hn Hm Hf; [lia|]. cbn [malloc_loop].
  destruct l2 as [|s l2]; cbn [head_addr].
  { exists h, 0. split; [done|]. split; [done|]. left. split_and!; try done. by intros t Ht%not_elem_of_nil. }
  pose proof (mid_range h l1 l2 s H) as (Ha & _ & He). unfold FIRST, USER_HEAP_LIMIT, sg_end in *.
  destruct (Z.eqb_spec (sg_addr s) 0); [lia|].
  rewrite (header_ok _ _ _ (mid_header h l1 l2 s H)), bind_ok, (is_free_ok h l1 s l2 H), bind_ok. cbn [payload_bytes next].
  destruct (negb (sg_free s) || (sg_bytes s <? n)) eqn:Hfit.
  - assert (fits n s = false) as Hno.
    { unfold fits. apply orb_true_iff in Hfit as [Hx|Hx]; [by rewrite (proj1 (negb_true_iff _) Hx)|].
      apply Z.ltb_lt in Hx. destruct (sg_free s); [|done]. cbn [andb]. apply Z.leb_gt. lia. }
    assert (heap_rep h ((l1 ++ [s]) ++ l2)) as H' by (by rewrite <- app_assoc).
    cbn [length] in Hf. destruct (IH (l1 ++ [s]) l2 H' Hn Hm ltac:(lia)) as (h' & p & E & Hs & Hr). exists h', p.
    split; [done|]. split; [done|]. destruct Hr as [(-> & -> & Hall)|(la & x & lb & -> & Hx & Hla & -> & Hr)].
    + left. split_and!; try done. intros t [->|Ht]%elem_of_cons; [done|by apply Hall].
    + right. exists (s :: la), x, lb. split_and!; try done.
      * intros t [->|Ht]%elem_of_cons; [done|by apply Hla].
      * rewrite <- app_assoc in Hr. done.
  - apply orb_false_iff in Hfit as [Hf1 Hf2]. apply negb_false_iff in Hf1. apply Z.ltb_ge in Hf2.
    destruct (take_ok h l1 s l2 n H Hn Hm Hf2) as (h' & E & Hr & Hs). rewrite <- bind_assoc, E, bind_ok.
    unfold sizeof_block. rewrite u64_small by lia. exists h', (sg_addr s + 32). split; [done|]. split; [done|].
    assert (16 <= sg_bytes s) by (apply (mid_range h l1 l2 s H)).
    right. exists [], s, l2. split_and!; try done.
    + unfold fits. rewrite Hf1. cbn [andb]. apply Z.leb_le. lia.
    + by intros t Ht%not_elem_of_nil.
Qed.

(** The headers of the list are distinct entries of the store. *)
Lemma lseg_delete m p segs n x : (forall s, s ∈ segs -> sg_addr s <> x) -> lseg m p segs n -> lseg (delete x m) p segs n.
Proof.
  revert p. induction segs as [|s r IH]; intros p Hx; cbn [lseg]; [done|]. intros [H1 H2]. split.
  - rewrite lookup_delete_ne; [done|]. apply not_eq_sym, Hx. constructor.
  - apply IH; [|done]. intros t Ht. apply Hx. by constructor.
Qed.

Lemma lseg_size m a p segs n lim : tiles a segs lim -> lseg m p segs n -> (length segs <= size m)%nat.
Proof.
  revert m a p. induction segs as [|s r IH]; intros m a p Ht Hl; cbn [length]; [lia|]. cbn [tiles lseg] in Ht, Hl.
  destruct Ht as (_ & Hb & _ & Ht). destruct Hl as [Hs Hl].
  assert (lseg (delete (sg_addr s) m) (sg_addr s) r n) as Hl'.
  { apply lseg_delete; [|done]. intros t Hin. apply (tiles_in _ _ _ t) in Ht as (H1 & _); [|done]. unfold sg_end in H1. lia. }
  specialize (IH _ _ _ Ht Hl'). rewrite map_size_delete, Hs in IH.
  assert (size m <> 0%nat) by (intros E; apply map_size_empty_inv in E; subst; by rewrite lookup_empty in Hs). lia.
Qed.

Lemma heap_rep_size h segs : heap_rep h segs -> (length segs <= size (hp_blocks h))%nat.
Proof. intros [_ _ Ht Hl]. by apply (lseg_size _ FIRST 0 segs 0 USER_HEAP_LIMIT). Qed.
