(* ===== verification/SharedHeapSpec.v ===== *)
(** What the shared user heap promises its callers, over the table of live
    allocations: malloc, free and realloc, and the two limits of the code.

    The shared user heap on concrete calls. *)
From stdpp Require Import base list numbers gmap.
From Stdlib Require Import ZArith Lia.
From S2P Require Import Prelude SharedHeap SharedHeapProofs.

Local Open Scope Z_scope.

(** ** Live allocations *)

(** [p] points to a block in use with [c] bytes of payload. *)
Definition used (segs : list Seg) (p c : Z) : Prop :=
  exists s, s ∈ segs /\ sg_free s = false /\ sg_addr s + 32 = p /\ sg_bytes s = c.

(** The blocks in use are those of the table [A], from pointers to sizes. *)
Definition heap_inv (h : Heap) (A : gmap Z Z) : Prop :=
  exists segs, heap_rep h segs /\ forall p c, A !! p = Some c <-> used segs p c.

Lemma used_app l1 l2 p c : used (l1 ++ l2) p c <-> used l1 p c \/ used l2 p c.
Proof.
  unfold used. split.
  - intros (s & [Hs|Hs]%elem_of_app & H); [left|right]; by exists s.
  - intros [(s & Hs & H)|(s & Hs & H)]; exists s; rewrite elem_of_app; tauto.
Qed.

Lemma used_cons s l p c : used (s :: l) p c <-> (sg_free s = false /\ sg_addr s + 32 = p /\ sg_bytes s = c) \/ used l p c.
Proof.
  unfold used. split.
  - intros (t & [->|Ht]%elem_of_cons & H); [by left|right]. by exists t.
  - intros [H|(t & Ht & H)]; [exists s|exists t]; rewrite elem_of_cons; tauto.
Qed.

Lemma used_free s l p c : sg_free s = true -> used (s :: l) p c <-> used l p c.
Proof. intros Hf. rewrite used_cons, Hf. split; [intros [[? _]|?]; done|by right]. Qed.

(** Two segments with one address are one. *)
Lemma tiles_split_at a l1 s l2 lim t :
  tiles a (l1 ++ s :: l2) lim -> t ∈ l1 \/ t ∈ l2 -> sg_addr t <> sg_addr s.
Proof.
  intros Ht Hin. destruct (tiles_apart _ _ _ _ t _ Ht) as [H1 H2].
  assert (16 <= sg_bytes t /\ 16 <= sg_bytes s) as [Hb Hs].
  { split; apply (tiles_in _ _ _ _ Ht); rewrite elem_of_app, elem_of_cons; tauto. }
  unfold sg_end in *. destruct Hin as [Hin|Hin]; [apply H1 in Hin|apply H2 in Hin]; lia.
Qed.

Lemma tiles_two a segs lim s t :
  tiles a segs lim -> s ∈ segs -> t ∈ segs -> sg_addr s <> sg_addr t -> sg_end s <= sg_addr t \/ sg_end t <= sg_addr s.
Proof.
  intros Ht Hs Hin Hne. apply list_elem_of_split in Hs as (l1 & l2 & ->). destruct (tiles_apart _ _ _ _ t _ Ht) as [H1 H2].
  apply elem_of_app in Hin as [Hin|[->|Hin]%elem_of_cons]; [by right; apply H1|done|by left; apply H2].
Qed.

(** A live pointer is the payload of a segment in use. *)
Lemma inv_segment h A p c :
  heap_inv h A -> A !! p = Some c ->
  exists l1 s l2, heap_rep h (l1 ++ s :: l2) /\ sg_free s = false /\ sg_addr s = p - 32 /\ sg_bytes s = c /\
    (forall q d, A !! q = Some d <-> used (l1 ++ s :: l2) q d).
Proof.
  intros (segs & Hrep & Htab) Hp. apply Htab in Hp as (s & Hs & Hf & Ha & Hb).
  apply list_elem_of_split in Hs as (l1 & l2 & ->). exists l1, s, l2. split_and!; try done. lia.
Qed.

(** Changing the middle of the list changes the table there only. *)
Lemma inv_insert h' A l1 s l2 segs p c :
  tiles FIRST (l1 ++ s :: l2) USER_HEAP_LIMIT -> (forall q d, A !! q = Some d <-> used (l1 ++ s :: l2) q d) ->
  p = sg_addr s + 32 -> heap_rep h' segs ->
  (forall q d, used segs q d <-> (q = p /\ d = c) \/ used l1 q d \/ used l2 q d) ->
  heap_inv h' (<[p := c]> A).
Proof.
  intros Ht Htab Hp Hrep Hsegs. exists segs. split; [done|]. intros q d.
  rewrite lookup_insert_Some, Hsegs, Htab, used_app, used_cons.
  assert (forall l, l = l1 \/ l = l2 -> ~ used l p d) as Hno.
  { intros l Hl (t & Hin & _ & Ha & _). apply (tiles_split_at _ _ _ _ _ t Ht); [|lia]. destruct Hl as [->| ->]; auto. }
  split.
  - intros [[<- <-]|[Hne [H|[(_ & H & _)|H]]]]; [tauto|tauto|lia|tauto].
  - intros [[-> ->]|H]; [tauto|]. destruct (Z.eq_dec q p) as [->|]; [exfalso; destruct H as [H|H]; [apply (Hno l1)|apply (Hno l2)]; auto|].
    right. split; [congruence|tauto].
Qed.

Lemma inv_delete h' A l1 s l2 segs p :
  tiles FIRST (l1 ++ s :: l2) USER_HEAP_LIMIT -> (forall q d, A !! q = Some d <-> used (l1 ++ s :: l2) q d) ->
  p = sg_addr s + 32 -> heap_rep h' segs -> (forall q d, used segs q d <-> used l1 q d \/ used l2 q d) ->
  heap_inv h' (delete p A).
Proof.
  intros Ht Htab Hp Hrep Hsegs. exists segs. split; [done|]. intros q d.
  rewrite lookup_delete_Some, Htab, Hsegs, used_app, used_cons.
  assert (forall l, l = l1 \/ l = l2 -> ~ used l p d) as Hno.
  { intros l Hl (t & Hin & _ & Ha & _). apply (tiles_split_at _ _ _ _ _ t Ht); [|lia]. destruct Hl as [->| ->]; auto. }
  split.
  - intros [Hne [H|[(_ & H & _)|H]]]; [tauto|lia|tauto].
  - intros [H|H]; (split; [intros <-|tauto]); [apply (Hno l1)|apply (Hno l2)]; auto.
Qed.

(** ** Aligned sizes *)
Lemma align_up_ok v : 0 <= v -> v + 15 < 2 ^ 64 ->
  let n := user_shared_heap_align_up v in v <= n < v + 16 /\ n mod 16 = 0.
Proof.
  intros Hv Hm. cbv zeta. unfold user_shared_heap_align_up. rewrite u64_small by lia.
  assert (Z.land (v + 15) (u64 (Z.lnot 15)) = v + 15 - (v + 15) mod 16) as ->.
  { change 15 with (u64 (2 ^ 4 - 1)) at 2. rewrite land_mask_down by lia. done. }
  Z.div_mod_to_equations. lia.
Qed.

Lemma granted_used s n q d :
  used (take_seg s n) q d <-> q = sg_addr s + 32 /\ d = (if sg_bytes s <=? n + 48 then sg_bytes s else n).
Proof.
  unfold take_seg, split_seg. destruct (sg_bytes s <=? n + 48); rewrite used_cons; cbn [mark sg_free sg_addr sg_bytes].
  - split; [|intros [-> ->]; by left]. intros [(_ & <- & <-)|(t & Ht%not_elem_of_nil & _)]; done.
  - rewrite used_free by done. split; [|intros [-> ->]; by left]. intros [(_ & <- & <-)|(t & Ht%not_elem_of_nil & _)]; done.
Qed.

Lemma split_used s n q d :
  sg_free s = false ->
  used (split_seg s n) q d <-> q = sg_addr s + 32 /\ d = (if sg_bytes s <=? n + 48 then sg_bytes s else n).
Proof.
  intros Hf. rewrite <- granted_used. unfold take_seg, split_seg.
  destruct (sg_bytes s <=? n + 48); rewrite !used_cons; cbn [mark sg_free sg_addr sg_bytes]; by rewrite Hf.
Qed.

(** ** Under the lock *)

(** No free block has room for [n] bytes. *)
Definition full (h : Heap) (n : Z) : Prop := exists segs, heap_rep h segs /\ forall t, t ∈ segs -> fits n t = false.

Lemma malloc_locked_inv h A n :
  heap_inv h A -> 16 <= n -> n mod 16 = 0 ->
  exists h' p, user_shared_heap_malloc_locked h n = Ok (h', p) /\ same_rest h h' /\
    ((p = 0 /\ h' = h /\ full h n) \/
     exists c, n <= c /\ FIRST + 32 <= p /\ p + c <= USER_HEAP_LIMIT /\ p mod 16 = 0 /\ A !! p = None /\ heap_inv h' (<[p := c]> A)).
Proof.
  intros (segs & Hrep & Htab) Hn Hm. unfold user_shared_heap_malloc_locked.
  destruct (rep_head h segs Hrep) as (s0 & r0 & Es & Ea). pose proof (heap_rep_size h segs Hrep) as Hsz.
  destruct (malloc_loop_ok (S (size (hp_blocks h))) h [] segs n Hrep Hn Hm ltac:(lia)) as (h' & p & E & Hsame & Hres).
  exists h', p. split; [|split; [done|]].
  { rewrite (hr_head _ _ Hrep), <- Ea. by rewrite Es in E. }
  destruct Hres as [(-> & -> & Hall)|(la & s & lb & -> & Hfit & _ & -> & Hrep')].
  { left. split_and!; try done. by exists segs. }
  right. unfold fits in Hfit. apply andb_true_iff in Hfit as [Hfree Hle]. apply Z.leb_le in Hle.
  pose proof (mid_range h la lb s Hrep) as (H1 & H2 & H3). pose proof (mid_aligned h la lb s Hrep) as [H4 H5].
  pose proof (hr_tiles _ _ Hrep) as Ht. unfold sg_end in H3.
  exists (if sg_bytes s <=? n + 48 then sg_bytes s else n). split_and!.
  - destruct (sg_bytes s <=? n + 48); lia.
  - lia.
  - destruct (Z.leb_spec (sg_bytes s) (n + 48)); lia.
  - Z.div_mod_to_equations. lia.
  - destruct (A !! (sg_addr s + 32)) as [c|] eqn:EA; [|done]. apply Htab, used_app in EA. exfalso.
    rewrite used_cons, Hfree in EA. destruct EA as [(t & Hin & _ & Hx & _)|[[? _]|(t & Hin & _ & Hx & _)]]; [|done|].
    + apply (tiles_split_at _ _ _ _ _ t Ht); [auto|lia].
    + apply (tiles_split_at _ _ _ _ _ t Ht); [auto|lia].
  - apply (inv_insert h' A la s lb (la ++ take_seg s n ++ lb)); try done. intros q d. rewrite !used_app, granted_used. tauto.
Qed.

Lemma merge_left_used l1 s l2 q d : sg_free s = true -> used (merge_left l1 s l2) q d <-> used l1 q d \/ used l2 q d.
Proof.
  intros Hf. unfold merge_left. destruct l1 as [|p l1] using rev_ind; cbn [rev app].
  { rewrite used_free by done. split; [by right|]. intros [(t & Ht%not_elem_of_nil & _)|H]; done. }
  rewrite rev_app_distr. cbn [rev app]. rewrite rev_involutive. destruct (sg_free p) eqn:Hp.
  - rewrite !used_app, !used_free by done. split; [tauto|]. intros [[H|(t & Ht%not_elem_of_nil & _)]|H]; [tauto|done|tauto].
  - rewrite !used_app, (used_free s) by done. tauto.
Qed.

Lemma coalesced_used l1 s l2 q d : sg_free s = true -> used (coalesced l1 s l2) q d <-> used l1 q d \/ used l2 q d.
Proof.
  intros Hf. unfold coalesced, merge_right. destruct l2 as [|t r]; [by apply merge_left_used|].
  destruct (sg_free t) eqn:Ht; rewrite merge_left_used by done; [|done]. by rewrite (used_free t).
Qed.

Lemma contains_ok p : FIRST + 32 <= p -> p < USER_HEAP_LIMIT -> user_shared_heap_contains_pointer p = true.
Proof.
  unfold user_shared_heap_contains_pointer, FIRST, USER_HEAP_BASE, USER_HEAP_LIMIT. intros H1 H2.
  apply andb_true_iff. split; [apply Z.leb_le|apply Z.ltb_lt]; lia.
Qed.

Lemma inv_range h A p c : heap_inv h A -> A !! p = Some c ->
  FIRST + 32 <= p /\ 16 <= c /\ p + c <= USER_HEAP_LIMIT /\ p mod 16 = 0 /\ c mod 16 = 0.
Proof.
  intros Hinv Hp. destruct (inv_segment h A p c Hinv Hp) as (l1 & s & l2 & Hrep & _ & Ha & Hb & _).
  pose proof (mid_range h l1 l2 s Hrep) as (H1 & H2 & H3). pose proof (mid_aligned h l1 l2 s Hrep) as [H4 H5].
  unfold sg_end in H3. rewrite Ha in H4. rewrite Hb in H5. split_and!; try lia. Z.div_mod_to_equations. lia.
Qed.

Lemma free_locked_inv h A p c :
  heap_inv h A -> A !! p = Some c ->
  exists h', user_shared_heap_free_locked h p = Ok h' /\ same_rest h h' /\ heap_inv h' (delete p A).
Proof.
  intros Hinv Hp. pose proof (inv_range h A p c Hinv Hp) as (R1 & R2 & R3 & _).
  destruct (inv_segment h A p c Hinv Hp) as (l1 & s & l2 & Hrep & Hf & Ha & Hb & Htab).
  unfold user_shared_heap_free_locked. unfold FIRST in R1. destruct (Z.eqb_spec p 0); [lia|]. cbn [orb].
  rewrite contains_ok by (unfold FIRST; lia). cbn [negb]. unfold sizeof_block. rewrite <- Ha.
  destruct (mark_ok h l1 s l2 true (fun v => Z.lor v USER_SHARED_HEAP_BLOCK_FREE) Hrep) as (h1 & -> & H1 & S1).
  { by rewrite Hf. }
  rewrite bind_ok. destruct (coalesce_ok h1 l1 (mark true s) l2 H1) as (h2 & E & H2 & S2). cbn [mark sg_addr] in E.
  exists h2. split; [done|]. split; [by apply (same_rest_trans h h1 h2)|].
  apply (inv_delete h2 A l1 s l2 (coalesced l1 (mark true s) l2)); try done; [apply Hrep|lia|].
  intros q d. by apply coalesced_used.
Qed.

(** ** Calls *)

(** Between calls the lock is free; a heap that was never used counts as empty. *)
Definition heap_ok (h : Heap) (A : gmap Z Z) : Prop :=
  lock_word h = 0 /\ heap_inv (user_shared_heap_initialize_locked h) A.

Lemma rep_lock v h segs : heap_rep (with_lock v h) segs <-> heap_rep h segs.
Proof. split; intros [? ? ? ?]; by split. Qed.

Lemma inv_lock v h A : heap_inv (with_lock v h) A <-> heap_inv h A.
Proof. unfold heap_inv. split; intros (segs & Hr & Ht); exists segs; (split; [|done]); by apply (rep_lock v). Qed.

Lemma initialize_rep h segs : heap_rep h segs -> user_shared_heap_initialize_locked h = h.
Proof. intros [Hm Hh _ _]. unfold user_shared_heap_initialize_locked. by rewrite Hm, Hh. Qed.

Lemma lock_ok h A :
  heap_ok h A ->
  exists h1, user_shared_heap_lock h = Ok h1 /\ heap_inv h1 A /\ hp_bytes h1 = hp_bytes h.
Proof.
  intros [Hl Hinv]. unfold user_shared_heap_lock, user_shared_heap_try_lock_once. rewrite Hl. cbn [Z.eqb].
  eexists. split; [reflexivity|].
  assert (user_shared_heap_initialize_locked (with_lock 1 h) = with_lock 1 (user_shared_heap_initialize_locked h)) as ->.
  { unfold user_shared_heap_initialize_locked. cbn [magic hp_head with_lock]. by destruct (_ && _). }
  split; [by apply inv_lock|]. cbn. unfold user_shared_heap_initialize_locked. by destruct (_ && _).
Qed.

Lemma unlock_ok h A : heap_inv h A -> heap_ok (user_shared_heap_unlock h) A.
Proof.
  intros Hinv. split; [done|]. unfold user_shared_heap_unlock. pose proof Hinv as (segs & Hr & _).
  rewrite (initialize_rep _ segs) by (by apply rep_lock). by apply inv_lock.
Qed.

(** Memory that was never used. *)
Lemma cold_ok h : magic h = 0 -> lock_word h = 0 -> heap_ok h ∅.
Proof.
  intros Hm Hl. split; [done|]. unfold user_shared_heap_initialize_locked. rewrite Hm. cbn [Z.eqb andb]. cbv zeta.
  exists [mkSeg FIRST (USER_HEAP_LIMIT - FIRST - 32) true]. split.
  - split; cbn [magic hp_head hp_blocks]; try done. cbn [lseg sg_addr sg_bytes sg_free head_addr]. split; [|done].
    change user_shared_heap_first_block with FIRST. apply lookup_insert_eq.
  - intros p c. rewrite lookup_empty, used_free by done. split; [done|]. intros (t & Ht%not_elem_of_nil & _). done.
Qed.

Lemma malloc_inv h A size :
  heap_ok h A -> 0 <= size <= 2 ^ 64 - 16 ->
  exists h' p, user_shared_heap_malloc h size = Ok (h', p) /\ hp_bytes h' = hp_bytes h /\
    ((p = 0 /\ heap_ok h' A /\ full h' (user_shared_heap_align_up (Z.max 1 size))) \/
     exists c, size <= c /\ 0 < c /\ FIRST + 32 <= p /\ p mod 16 = 0 /\ A !! p = None /\ heap_ok h' (<[p := c]> A)).
Proof.
  intros Hok Hs. unfold user_shared_heap_malloc. replace (if size =? 0 then 1 else size) with (Z.max 1 size)
    by (destruct (Z.eqb_spec size 0); lia).
  destruct (lock_ok h A Hok) as (h1 & -> & Hinv & Hb1). rewrite bind_ok.
  destruct (align_up_ok (Z.max 1 size)) as [Hn Hm]; [lia|lia|]. set (n := user_shared_heap_align_up (Z.max 1 size)) in *.
  assert (16 <= n) by (Z.div_mod_to_equations; lia).
  destruct (malloc_locked_inv h1 A n Hinv) as (h2 & p & -> & Hsame & Hres); [lia|done|]. rewrite bind_ok.
  exists (user_shared_heap_unlock h2), p. split; [done|]. destruct Hsame as (_ & _ & _ & Hb2). split; [cbn; congruence|].
  destruct Hres as [(-> & -> & segs & Hr & Hall)|(c & Hc & Hp & _ & Hpm & HA & Hinv')].
  - left. split_and!; [done|by apply unlock_ok|]. exists segs. split; [by apply rep_lock|done].
  - right. exists c. split_and!; try done; try lia. by apply unlock_ok.
Qed.

(** ** Copying *)
Lemma copy_bytes_frame n i h dst src :
  magic (copy_bytes n i h dst src) = magic h /\ hp_head (copy_bytes n i h dst src) = hp_head h /\
  hp_blocks (copy_bytes n i h dst src) = hp_blocks h.
Proof. revert i h. induction n as [|n IH]; intros i h; cbn [copy_bytes]; [done|]. exact (IH _ (with_bytes _ h)). Qed.

Lemma copy_bytes_inv n i h dst src A : heap_inv h A -> heap_inv (copy_bytes n i h dst src) A.
Proof.
  intros (segs & [H1 H2 H3 H4] & Ht). exists segs. split; [|done].
  destruct (copy_bytes_frame n i h dst src) as (E1 & E2 & E3). split; by rewrite ?E1, ?E2, ?E3.
Qed.

Lemma copy_bytes_at n i h dst src a :
  dst + i + Z.of_nat n <= src + i \/ src + i + Z.of_nat n <= dst + i ->
  byte_at (copy_bytes n i h dst src) a =
  if decide (dst + i <= a < dst + i + Z.of_nat n) then byte_at h (src + (a - dst)) else byte_at h a.
Proof.
  revert i h. induction n as [|n IH]; intros i h Hd; cbn [copy_bytes]; [by rewrite decide_False by lia|].
  rewrite IH by lia. unfold byte_at at 1 3. cbn [hp_bytes with_bytes]. destruct (decide (dst + (i + 1) <= a < dst + (i + 1) + Z.of_nat n)).
  - rewrite lookup_insert_ne by lia. by rewrite decide_True by lia.
  - destruct (decide (a = dst + i)) as [->|Hne].
    + rewrite lookup_insert_eq, decide_True by lia. cbn. by replace (src + (dst + i - dst)) with (src + i) by lia.
    + rewrite lookup_insert_ne by lia. by rewrite decide_False by lia.
Qed.

(** Live blocks do not overlap, headers included. *)
Lemma inv_disjoint h A p c q d :
  heap_inv h A -> A !! p = Some c -> A !! q = Some d -> p <> q -> p + c <= q - 32 \/ q + d <= p - 32.
Proof.
  intros (segs & Hrep & Htab) Hp Hq Hne. apply Htab in Hp as (s & Hs & _ & <- & <-). apply Htab in Hq as (t & Ht & _ & <- & <-).
  destruct (tiles_two _ _ _ s t (hr_tiles _ _ Hrep) Hs Ht) as [H|H]; [lia| |]; unfold sg_end in H; lia.
Qed.

(** ** Resizing *)

(** The block of a live pointer is cut down or kept. *)
Lemma shrink_inv h A p c n :
  heap_inv h A -> A !! p = Some c -> 16 <= n -> n mod 16 = 0 -> n <= c ->
  exists h', user_shared_heap_split_block h (p - 32) n = Ok h' /\ same_rest h h' /\
    exists c', n <= c' <= c /\ heap_inv h' (<[p := c']> A).
Proof.
  intros Hinv Hp Hn Hm Hc. destruct (inv_segment h A p c Hinv Hp) as (l1 & s & l2 & Hrep & Hf & Ha & Hb & Htab).
  rewrite <- Ha. destruct (split_ok h l1 s l2 n Hrep Hn Hm ltac:(lia)) as (h' & -> & Hrep' & Hsame).
  exists h'. split; [done|]. split; [done|]. exists (if sg_bytes s <=? n + 48 then sg_bytes s else n).
  split; [destruct (Z.leb_spec (sg_bytes s) (n + 48)); lia|].
  apply (inv_insert h' A l1 s l2 (l1 ++ split_seg s n ++ l2)); try done; [apply Hrep|lia|].
  intros q d. rewrite !used_app, split_used by done. replace (sg_addr s + 32) with p by lia. tauto.
Qed.

(** The block takes over a free successor. *)
Lemma extend_inv h A l1 s t r :
  heap_rep h (l1 ++ s :: t :: r) -> (forall q d, A !! q = Some d <-> used (l1 ++ s :: t :: r) q d) ->
  sg_free s = false -> sg_free t = true ->
  exists h', absorb h (sg_addr s) (sg_addr t) = Ok h' /\ same_rest h h' /\
    heap_inv h' (<[sg_addr s + 32 := sg_bytes s + 32 + sg_bytes t]> A).
Proof.
  intros Hrep Htab Hs Ht. destruct (absorb_ok h l1 s t r Hrep) as (h' & -> & Hrep' & Hsame). exists h'.
  split; [done|]. split; [done|]. apply (inv_insert h' A l1 s (t :: r) (l1 ++ merge s t :: r)); try done; [apply Hrep|].
  intros q d. rewrite used_app, used_cons, used_free by done. cbn [merge sg_free sg_addr sg_bytes]. rewrite Hs.
  split; [intros [?|[(_ & <- & <-)|?]]; tauto|]. intros [[-> ->]|[?|?]]; tauto.
Qed.

(** The outcome of a call of realloc on the live block [p] of [c] bytes. *)
Definition resized (h h' : Heap) (A : gmap Z Z) (p c size q : Z) : Prop :=
  (forall r d a, r <> p -> A !! r = Some d -> r <= a < r + d -> byte_at h' a = byte_at h a) /\
  if q =? 0 then heap_ok h' A /\ forall a, p <= a < p + c -> byte_at h' a = byte_at h a
  else exists c', size <= c' /\ heap_ok h' (<[q := c']> (delete p A)) /\ (q = p \/ A !! q = None) /\
    forall k, 0 <= k < Z.min c size -> byte_at h' (q + k) = byte_at h (p + k).

Lemma same_bytes h h' a : hp_bytes h' = hp_bytes h -> byte_at h' a = byte_at h a.
Proof. unfold byte_at. by intros ->. Qed.

(** In place. *)
Lemma resized_in_place h h' A p c size c' :
  p <> 0 -> size <= c' -> hp_bytes h' = hp_bytes h -> heap_inv h' (<[p := c']> A) ->
  resized h (user_shared_heap_unlock h') A p c size p.
Proof.
  intros Hp Hc Hb Hinv. split; [intros; by apply same_bytes|]. destruct (Z.eqb_spec p 0); [done|].
  exists c'. split_and!; [done| |by left|intros; by apply same_bytes].
  rewrite insert_delete_eq. by apply unlock_ok.
Qed.

(** By moving, [h1] being the locked heap. *)
Lemma resized_moved h h1 A p c size n :
  heap_inv h1 A -> A !! p = Some c -> hp_bytes h1 = hp_bytes h -> 16 <= n -> n mod 16 = 0 -> size <= n -> c < n ->
  exists h' q, ('(h, replacement) <- user_shared_heap_malloc_locked h1 n ;;
      if replacement =? 0 then Ok (user_shared_heap_unlock h, 0) else
      b <- header h (p - sizeof_block) ;;
      let copy := if payload_bytes b <? size then payload_bytes b else size in
      let h := copy_bytes (Z.to_nat copy) 0 h replacement p in
      h <- user_shared_heap_free_locked h p ;;
      Ok (user_shared_heap_unlock h, replacement)) = Ok (h', q) /\ resized h h' A p c size q.
Proof.
  intros Hinv Hp Hb Hn Hm Hsz Hcn. destruct (inv_range h1 A p c Hinv Hp) as (Rp & Rc & _).
  destruct (malloc_locked_inv h1 A n Hinv Hn Hm) as (h2 & q & -> & (_ & _ & _ & Hb2) & Hres). rewrite bind_ok.
  destruct Hres as [(-> & -> & _)|(c' & Hc' & Hq & _ & _ & HA & Hinv2)].
  { eexists _, 0. split; [reflexivity|]. split; [intros; by apply same_bytes|]. cbn [Z.eqb].
    split; [by apply unlock_ok|intros; by apply same_bytes]. }
  unfold FIRST in Hq. destruct (Z.eqb_spec q 0); [lia|].
  assert (p <> q) as Hpq by (intros ->; congruence).
  assert (<[q := c']> A !! p = Some c) as Hp2 by (by rewrite lookup_insert_ne).
  destruct (inv_segment h2 _ p c Hinv2 Hp2) as (l1 & s & l2 & Hrep & _ & Ha & Hbs & _).
  unfold sizeof_block. rewrite <- Ha, (header_ok _ _ _ (mid_header h2 l1 l2 s Hrep)), bind_ok. cbn [payload_bytes].
  rewrite Hbs. cbv zeta. replace (if c <? size then c else size) with (Z.min c size) by (destruct (Z.ltb_spec c size); lia).
  set (h3 := copy_bytes (Z.to_nat (Z.min c size)) 0 h2 q p).
  destruct (free_locked_inv h3 (<[q := c']> A) p c) as (h4 & -> & (_ & _ & _ & Hb4) & Hinv4);
    [by apply copy_bytes_inv|done|]. rewrite bind_ok.
  eexists _, q. split; [reflexivity|].
  assert (<[q := c']> A !! q = Some c') as Hq2 by (by rewrite lookup_insert_eq).
  pose proof (inv_disjoint h2 _ p c q c' Hinv2 Hp2 Hq2 Hpq) as Hdis.
  assert (forall a, byte_at (user_shared_heap_unlock h4) a =
    if decide (q <= a < q + Z.max 0 (Z.min c size)) then byte_at h (p + (a - q)) else byte_at h a) as Hbytes.
  { intros a. rewrite (same_bytes h3 (user_shared_heap_unlock h4) a Hb4). unfold h3. rewrite copy_bytes_at by lia.
    rewrite !(same_bytes h1 h2), !(same_bytes h h1), Z.add_0_r by done.
    by replace (Z.of_nat (Z.to_nat (Z.min c size))) with (Z.max 0 (Z.min c size)) by lia. }
  split.
  - intros r d a Hr Hrd Hra. rewrite Hbytes, decide_False; [done|]. assert (r <> q) as Hrq by (intros ->; congruence).
    pose proof (inv_disjoint h2 _ r d q c' Hinv2) as Hx. rewrite lookup_insert_ne in Hx by done.
    specialize (Hx Hrd Hq2 Hrq). lia.
  - destruct (Z.eqb_spec q 0); [lia|]. exists c'. split_and!; [lia| |by right|].
    + apply unlock_ok. by rewrite <- delete_insert_ne.
    + intros k Hk. rewrite Hbytes, decide_True by lia. f_equal. lia.
Qed.

Lemma realloc_inv h A p c size :
  heap_ok h A -> A !! p = Some c -> 0 < size <= 2 ^ 64 - 16 ->
  exists h' q, user_shared_heap_realloc h p size = Ok (h', q) /\ resized h h' A p c size q.
Proof.
  intros Hok Hp Hs. destruct (lock_ok h A Hok) as (h1 & Hlock & Hinv & Hb1).
  destruct (inv_range h1 A p c Hinv Hp) as (R1 & R2 & R3 & _). unfold FIRST in R1.
  unfold user_shared_heap_realloc. destruct (Z.eqb_spec p 0) as [|_]; [lia|]. destruct (Z.eqb_spec size 0) as [|_]; [lia|].
  rewrite contains_ok by (unfold FIRST; lia). cbn [negb]. rewrite Hlock, bind_ok. cbv zeta.
  destruct (align_up_ok size) as [Hn Hm]; [lia|lia|]. set (n := user_shared_heap_align_up size) in *.
  assert (16 <= n) as Hn16 by (Z.div_mod_to_equations; lia).
  destruct (inv_segment h1 A p c Hinv Hp) as (l1 & s & l2 & Hrep & Hf & Ha & Hbs & Htab).
  replace (header h1 (p - sizeof_block)) with (header h1 (sg_addr s)) by (by rewrite Ha).
  rewrite (header_ok _ _ _ (mid_header h1 l1 l2 s Hrep)), bind_ok. cbn [payload_bytes next]. rewrite Hbs.
  unfold sizeof_block. destruct (Z.leb_spec n c).
  { destruct (shrink_inv h1 A p c n Hinv Hp Hn16 Hm ltac:(lia)) as (h2 & -> & (_ & _ & _ & Hb2) & c' & Hc' & Hinv2).
    rewrite bind_ok. eexists _, p. split; [reflexivity|]. apply (resized_in_place h h2 A p c size c'); [lia|lia|congruence|done]. }
  rewrite (head_addr_zero h1 l1 s l2 Hrep). destruct l2 as [|t r]; cbn [head_addr].
  { rewrite bind_ok. apply (resized_moved h h1 A p c size n); try done; lia. }
  assert (heap_rep h1 ((l1 ++ [s]) ++ t :: r)) as Hrt by (by rewrite <- app_assoc).
  rewrite (is_free_ok h1 (l1 ++ [s]) t r Hrt), bind_ok. destruct (sg_free t) eqn:Ht; cbn [negb].
  2: { rewrite bind_ok. apply (resized_moved h h1 A p c size n); try done; lia. }
  rewrite (header_ok _ _ _ (mid_header h1 (l1 ++ [s]) r t Hrt)), !bind_ok. cbn [payload_bytes].
  pose proof (mid_range h1 (l1 ++ [s]) r t Hrt) as (T1 & T2 & T3). unfold FIRST, USER_HEAP_LIMIT, sg_end, sizeof_block in *.
  rewrite u64_small by lia. destruct (Z.leb_spec n (c + 32 + sg_bytes t)).
  2: { apply (resized_moved h h1 A p c size n); try done; lia. }
  rewrite <- Ha. destruct (extend_inv h1 A l1 s t r Hrep Htab Hf Ht) as (h2 & -> & (_ & _ & _ & Hb2) & Hinv2). rewrite bind_ok.
  replace (sg_addr s + 32) with p in Hinv2 by lia. rewrite Hbs in Hinv2. rewrite Ha.
  destruct (shrink_inv h2 _ p (c + 32 + sg_bytes t) n Hinv2) as (h3 & -> & (_ & _ & _ & Hb3) & c' & Hc' & Hinv3);
    [apply lookup_insert_eq|done|done|lia|]. rewrite insert_insert_eq in Hinv3. rewrite bind_ok.
  eexists _, p. split; [reflexivity|]. apply (resized_in_place h h3 A p c size c'); [lia|lia|congruence|done].
Qed.

(** ** Claims *)

(** C25: allocating.  On a heap in a consistent state (a heap never used is one)
    [user_shared_heap_malloc] completes and releases its lock.  Either it returns
    an aligned pointer to at least the requested bytes, new in the table of live
    blocks and otherwise changing nothing, or it returns NULL and then no free block
    has room. *)
Theorem shared_heap_malloc_ok h A size :
  heap_ok h A -> 0 <= size <= 2 ^ 64 - 16 ->
  exists h' p, user_shared_heap_malloc h size = Ok (h', p) /\ hp_bytes h' = hp_bytes h /\
    if p =? 0 then heap_ok h' A /\ full h' (user_shared_heap_align_up (Z.max 1 size))
    else exists c, size <= c /\ p mod 16 = 0 /\ A !! p = None /\ heap_ok h' (<[p := c]> A).
Proof.
  intros Hok Hs. destruct (malloc_inv h A size Hok Hs) as (h' & p & E & Hb & Hres). exists h', p. split_and!; try done.
  destruct Hres as [(-> & H1 & H2)|(c & H1 & _ & Hp & H2 & H3 & H4)]; [done|].
  unfold FIRST in Hp. destruct (Z.eqb_spec p 0); [lia|]. by exists c.
Qed.

(** freeing.  [user_shared_heap_free] of a live block removes exactly that
    block from the table, and does not touch the contents of any block; of a pointer
    that is NULL or outside the heap it does nothing. *)
Theorem shared_heap_free_ok h A p :
  heap_ok h A ->
  match A !! p with
  | Some _ => exists h', user_shared_heap_free h p = Ok h' /\ heap_ok h' (delete p A) /\ hp_bytes h' = hp_bytes h
  | None => p < USER_HEAP_BASE \/ USER_HEAP_LIMIT <= p -> user_shared_heap_free h p = Ok h
  end.
Proof.
  intros Hok. unfold user_shared_heap_free. destruct (A !! p) as [c|] eqn:Hp.
  - destruct (lock_ok h A Hok) as (h1 & -> & Hinv & Hb1). destruct (inv_range h1 A p c Hinv Hp) as (R1 & R2 & R3 & _).
    unfold FIRST in R1. destruct (Z.eqb_spec p 0); [lia|]. rewrite contains_ok by (unfold FIRST; lia). cbn [orb negb].
    rewrite bind_ok. destruct (free_locked_inv h1 A p c Hinv Hp) as (h2 & -> & (_ & _ & _ & Hb2) & Hinv2). rewrite bind_ok.
    eexists. split; [reflexivity|]. split; [by apply unlock_ok|]. cbn. congruence.
  - intros Hout. unfold user_shared_heap_contains_pointer. destruct (Z.eqb_spec p 0); [done|]. cbn [orb].
    destruct (Z.leb_spec USER_HEAP_BASE p); [|done]. destruct (Z.ltb_spec p USER_HEAP_LIMIT); [lia|done].
Qed.

(** ** Whole sessions

    What a program knows of the heap: the blocks it holds with the sizes it asked
    for, and the last byte it stored at each offset of each. *)
Record Client : Type := mkClient { cl_blocks : gmap Z Z; cl_stored : Z -> Z -> option Z }.

Inductive HeapCall : Type :=
| Malloc (size : Z)
| Free (p : Z)
| Realloc (p size : Z)
| Store (p k v : Z).

(** It frees, resizes and writes only what it holds, and asks for no size that
    rounding up would wrap around. *)
Definition legal (c : Client) (call : HeapCall) : Prop :=
  match call with
  | Malloc size => 0 <= size <= 2 ^ 64 - 16
  | Free p => p = 0 \/ is_Some (cl_blocks c !! p)
  | Realloc p size => (p = 0 \/ is_Some (cl_blocks c !! p)) /\ 0 <= size <= 2 ^ 64 - 16
  | Store p k v => exists n, cl_blocks c !! p = Some n /\ 0 <= k < n
  end.

Definition serve (h : Heap) (call : HeapCall) : Exec (Heap * Z) :=
  match call with
  | Malloc size => user_shared_heap_malloc h size
  | Free p => h <- user_shared_heap_free h p ;; Ok (h, 0)
  | Realloc p size => user_shared_heap_realloc h p size
  | Store p k v => Ok (with_bytes (<[p + k := v]> (hp_bytes h)) h, 0)
  end.

Definition drop_block (p : Z) (c : Client) : Client :=
  mkClient (delete p (cl_blocks c)) (fun q k => if q =? p then None else cl_stored c q k).
Definition hold_block (p size : Z) (stored : Z -> option Z) (c : Client) : Client :=
  mkClient (<[p := size]> (cl_blocks c)) (fun q k => if q =? p then stored k else cl_stored c q k).

(** The program's view after the answer [q]. *)
Definition account (c : Client) (call : HeapCall) (q : Z) : Client :=
  match call with
  | Malloc size => if q =? 0 then c else hold_block q size (fun _ => None) c
  | Free p => drop_block p c
  | Realloc p size =>
      if p =? 0 then if q =? 0 then c else hold_block q size (fun _ => None) c
      else if size =? 0 then drop_block p c
      else if q =? 0 then c
      else hold_block q size
             (fun k => if k <? Z.min (default 0 (cl_blocks c !! p)) size then cl_stored c p k else None)
             (drop_block p c)
  | Store p k v =>
      mkClient (cl_blocks c) (fun q j => if (q =? p) && (j =? k) then Some v else cl_stored c q j)
  end.

Inductive session : Heap -> Client -> Prop :=
| session_start bytes : session (mkHeap 0 0 0 ∅ bytes) (mkClient ∅ (fun _ _ => None))
| session_step h c call h' q :
    session h c -> legal c call -> serve h call = Ok (h', q) -> session h' (account c call q).

(** The heap's table [A] holds the program's blocks, no others, with room for
    what was asked, and the bytes the program stored. *)
Record session_inv (h : Heap) (c : Client) (A : gmap Z Z) : Prop := {
  si_heap : heap_ok h A;
  si_blocks p : is_Some (A !! p) <-> is_Some (cl_blocks c !! p);
  si_room p n d : cl_blocks c !! p = Some n -> A !! p = Some d -> n <= d;
  si_bytes p n k v : cl_blocks c !! p = Some n -> 0 <= k < n -> cl_stored c p k = Some v -> byte_at h (p + k) = v
}.

Lemma session_inv_mono h h' c A :
  session_inv h c A -> heap_ok h' A -> hp_bytes h' = hp_bytes h -> session_inv h' c A.
Proof. intros [H1 H2 H3 H4] Hok Hb. split; [done..|]. intros p n k v. unfold byte_at. rewrite Hb. apply H4. Qed.

Lemma session_hold h h' c A q size d stored :
  session_inv h c A -> heap_ok h' (<[q := d]> A) -> size <= d ->
  (forall p n k v, p <> q -> cl_blocks c !! p = Some n -> 0 <= k < n -> cl_stored c p k = Some v -> byte_at h' (p + k) = v) ->
  (forall k v, 0 <= k < size -> stored k = Some v -> byte_at h' (q + k) = v) ->
  session_inv h' (hold_block q size stored c) (<[q := d]> A).
Proof.
  intros [H1 H2 H3 H4] Hok Hd Hrest Hq. split; cbn [hold_block cl_blocks cl_stored]; [done|..].
  - intros p. destruct (decide (p = q)) as [->|]; rewrite ?lookup_insert_eq, ?lookup_insert_ne by done; [done|apply H2].
  - intros p n d'. destruct (decide (p = q)) as [->|]; rewrite ?lookup_insert_eq, ?lookup_insert_ne by done; [congruence|apply H3].
  - intros p n k v. destruct (Z.eqb_spec p q) as [->|]; rewrite ?lookup_insert_eq, ?lookup_insert_ne by done; [|by apply Hrest].
    intros [= <-]. apply Hq.
Qed.

Lemma session_drop h h' c A p :
  session_inv h c A -> heap_ok h' (delete p A) ->
  (forall r n k v, r <> p -> cl_blocks c !! r = Some n -> 0 <= k < n -> cl_stored c r k = Some v -> byte_at h' (r + k) = v) ->
  session_inv h' (drop_block p c) (delete p A).
Proof.
  intros [H1 H2 H3 H4] Hok Hrest. split; cbn [drop_block cl_blocks cl_stored]; [done|..].
  - intros r. destruct (decide (r = p)) as [->|]; rewrite ?lookup_delete_eq, ?lookup_delete_ne by done; [done|apply H2].
  - intros r n d. destruct (decide (r = p)) as [->|]; rewrite ?lookup_delete_eq, ?lookup_delete_ne by done; [done|apply H3].
  - intros r n k v. destruct (Z.eqb_spec r p) as [->|]; rewrite ?lookup_delete_eq, ?lookup_delete_ne by done; [done|by apply Hrest].
Qed.

Lemma serve_malloc h c A size :
  session_inv h c A -> 0 <= size <= 2 ^ 64 - 16 ->
  exists h' q A', user_shared_heap_malloc h size = Ok (h', q) /\
    session_inv h' (if q =? 0 then c else hold_block q size (fun _ => None) c) A'.
Proof.
  intros Hinv Hs. destruct (malloc_inv h A size (si_heap _ _ _ Hinv) Hs) as (h' & q & E & Hb & Hres).
  exists h', q. destruct Hres as [(-> & Hok & _)|(d & H1 & _ & Hq & _ & Hnew & Hok)].
  - exists A. split; [done|]. cbn. by apply (session_inv_mono h).
  - exists (<[q := d]> A). split; [done|]. unfold FIRST in Hq. destruct (Z.eqb_spec q 0); [lia|].
    apply (session_hold h); [done|done|lia| |done].
    intros p m k v _ Hp Hk Hv. rewrite (same_bytes h) by done. by apply (si_bytes _ _ _ Hinv p m).
Qed.

Lemma serve_free h c A p :
  session_inv h c A -> p = 0 \/ is_Some (cl_blocks c !! p) ->
  exists h' A', user_shared_heap_free h p = Ok h' /\ session_inv h' (drop_block p c) A'.
Proof.
  intros Hinv Hp. pose proof (shared_heap_free_ok h A p (si_heap _ _ _ Hinv)) as Hf.
  assert (forall h', hp_bytes h' = hp_bytes h -> forall r n k v, r <> p -> cl_blocks c !! r = Some n ->
    0 <= k < n -> cl_stored c r k = Some v -> byte_at h' (r + k) = v) as Hrest.
  { intros h' Hb r n k v _ Hr Hk Hv. rewrite (same_bytes h) by done. by apply (si_bytes _ _ _ Hinv r n). }
  destruct (A !! p) as [d|] eqn:Ha.
  - destruct Hf as (h' & E & Hok & Hb). exists h', (delete p A). split; [done|]. apply (session_drop h); [done..|by apply Hrest].
  - assert (p = 0) as ->.
    { destruct Hp as [?|Hp]; [done|]. apply (si_blocks _ _ _ Hinv) in Hp. rewrite Ha in Hp. by destruct Hp. }
    exists h, A. split; [by apply Hf; left|]. rewrite <- (delete_id A 0) at 1 by done.
    apply (session_drop h); [done| |by apply Hrest]. rewrite delete_id by done. apply Hinv.
Qed.

Lemma serve_realloc h c A p n size :
  session_inv h c A -> cl_blocks c !! p = Some n -> 0 < size <= 2 ^ 64 - 16 ->
  exists h' q A', user_shared_heap_realloc h p size = Ok (h', q) /\
    session_inv h' (if q =? 0 then c else hold_block q size
      (fun k => if k <? Z.min n size then cl_stored c p k else None) (drop_block p c)) A'.
Proof.
  intros Hinv Hp Hs. destruct (proj2 (si_blocks _ _ _ Hinv p) ltac:(by eexists)) as [d Ha].
  pose proof (si_room _ _ _ Hinv p n d Hp Ha) as Hroom.
  destruct (realloc_inv h A p d size (si_heap _ _ _ Hinv) Ha Hs) as (h' & q & E & Hoth & Hres). exists h', q.
  assert (forall r m k v, r <> p -> cl_blocks c !! r = Some m -> 0 <= k < m -> cl_stored c r k = Some v ->
    byte_at h' (r + k) = v) as Hrest.
  { intros r m k v Hne Hr Hk Hv. destruct (proj2 (si_blocks _ _ _ Hinv r) ltac:(by eexists)) as [e He].
    pose proof (si_room _ _ _ Hinv r m e Hr He). rewrite (Hoth r e) by (done || lia). by apply (si_bytes _ _ _ Hinv r m). }
  destruct (q =? 0).
  - destruct Hres as [Hok Hsame]. exists A. split; [done|]. destruct Hinv as [H1 H2 H3 H4]. split; [done..|].
    intros r m k v Hr Hk Hv. destruct (decide (r = p)) as [->|Hne]; [|by apply (Hrest r m)].
    replace m with n in Hk by congruence. rewrite Hsame by lia. by apply (H4 p n).
  - destruct Hres as (d' & Hd' & Hok & Hfresh & Hcopy). exists (<[q := d']> (delete p A)). split; [done|].

    split; cbn [hold_block drop_block cl_blocks cl_stored]; [done|..].
    + intros r. destruct (decide (r = q)) as [->|]; rewrite ?lookup_insert_eq, ?lookup_insert_ne by done; [done|].
      destruct (decide (r = p)) as [->|]; rewrite ?lookup_delete_eq, ?lookup_delete_ne by done; [done|apply Hinv].
    + intros r m e. destruct (decide (r = q)) as [->|]; rewrite ?lookup_insert_eq, ?lookup_insert_ne by done; [congruence|].
      destruct (decide (r = p)) as [->|]; rewrite ?lookup_delete_eq, ?lookup_delete_ne by done; [done|apply Hinv].
    + intros r m k v. destruct (Z.eqb_spec r q) as [->|Hq]; rewrite ?lookup_insert_eq, ?lookup_insert_ne by done.
      * intros [= <-] Hk. destruct (Z.ltb_spec k (Z.min n size)); [|done]. intros Hv.
        rewrite Hcopy by lia. by apply (si_bytes _ _ _ Hinv p n); [|lia|].
      * destruct (Z.eqb_spec r p) as [->|]; rewrite ?lookup_delete_eq, ?lookup_delete_ne by done; [done|by apply Hrest].
Qed.

Lemma serve_inv h c A call :
  session_inv h c A -> legal c call ->
  exists h' q A', serve h call = Ok (h', q) /\ session_inv h' (account c call q) A'.
Proof.
  intros Hinv. destruct call as [size|p|p size|p k v]; cbn [legal serve account].
  - by apply (serve_malloc h c A).
  - intros Hp. destruct (serve_free h c A p Hinv Hp) as (h' & A' & -> & Hi). by exists h', 0, A'.
  - intros [Hp Hs]. unfold user_shared_heap_realloc. destruct (Z.eqb_spec p 0) as [->|Hp0]; [by apply (serve_malloc h c A)|].
    destruct (Z.eqb_spec size 0) as [->|Hs0].
    { destruct (serve_free h c A p Hinv Hp) as (h' & A' & -> & Hi). by exists h', 0, A'. }
    destruct Hp as [?|[n Hp]]; [done|]. destruct (serve_realloc h c A p n size Hinv Hp ltac:(lia)) as (h' & q & A' & E & Hi).
    unfold user_shared_heap_realloc in E. rewrite (proj2 (Z.eqb_neq p 0) Hp0), (proj2 (Z.eqb_neq size 0) Hs0) in E.
    exists h', q, A'. split; [exact E|]. by rewrite Hp.
  - intros (n & Hp & Hk). exists (with_bytes (<[p + k := v]> (hp_bytes h)) h), 0, A. split; [done|].
    pose proof Hinv as [Hok H2 H3 H4]. destruct (proj2 (H2 p) ltac:(by eexists)) as [d Ha]. pose proof (H3 p n d Hp Ha).
    split; cbn [cl_blocks cl_stored]; [|done..|].
    + destruct Hok as [Hl Hh]. split; [done|]. unfold user_shared_heap_initialize_locked in *. cbn [magic hp_head with_bytes].
      destruct (_ && _); destruct Hh as (segs & [] & Ht); exists segs; (split; [by split|done]).
    + intros q m j w Hq Hj. destruct (Z.eqb_spec q p) as [->|Hqp]; cbn [andb].
      * destruct (Z.eqb_spec j k) as [->|Hjk]; [intros [= <-]; unfold byte_at; cbn; by rewrite lookup_insert_eq|].
        intros Hw. unfold byte_at. cbn. rewrite lookup_insert_ne by lia. by apply (H4 p m).
      * intros Hw. destruct (proj2 (H2 q) ltac:(by eexists)) as [e He]. pose proof (H3 q m e Hq He).
        destruct Hok as [_ Hh]. destruct (inv_disjoint _ A p d q e Hh Ha He ltac:(done));
          (unfold byte_at; cbn; rewrite lookup_insert_ne by lia; by apply (H4 q m)).
Qed.

Lemma session_ok h c : session h c -> exists A, session_inv h c A.
Proof.
  induction 1 as [bytes|h c call h' q _ [A IH] Hl Hs].
  - exists ∅. split; cbn; [by apply cold_ok| |done..]. intros p. by rewrite !lookup_empty.
  - destruct (serve_inv h c A call IH Hl) as (h1 & q1 & A' & E & Hi). rewrite Hs in E. injection E as <- <-. by exists A'.
Qed.

(** C26: the heap serves any session.  After any calls of malloc, free, realloc
    and stores by a program that frees, resizes and writes only what it holds, on a
    heap that starts unused: every further such call returns; the blocks the
    program holds are aligned, lie in the heap window and are apart from each other
    by at least a header; and every byte it stored and did not overwrite is still
    there, moved along when realloc moved its block. *)
Theorem shared_heap_session_safe h c :
  session h c ->
  (forall call, legal c call -> exists h' q, serve h call = Ok (h', q)) /\
  (forall p n, cl_blocks c !! p = Some n -> p mod 16 = 0 /\ USER_HEAP_BASE < p /\ p + n <= USER_HEAP_LIMIT) /\
  (forall p n q m, cl_blocks c !! p = Some n -> cl_blocks c !! q = Some m -> p <> q ->
     p + n + 32 <= q \/ q + m + 32 <= p) /\
  (forall p n k v, cl_blocks c !! p = Some n -> 0 <= k < n -> cl_stored c p k = Some v -> byte_at h (p + k) = v).
Proof.
  intros [A Hinv]%session_ok. pose proof Hinv as [[_ Hok] H2 H3 H4]. split_and!; [| | |done].
  - intros call Hl. destruct (serve_inv h c A call Hinv Hl) as (h' & q & _ & E & _). by exists h', q.
  - intros p n Hp. destruct (proj2 (H2 p) ltac:(by eexists)) as [d Ha]. pose proof (H3 p n d Hp Ha).
    destruct (inv_range _ A p d Hok Ha) as (R1 & _ & R3 & R4 & _). unfold FIRST, USER_HEAP_BASE in *. split_and!; [done|lia..].
  - intros p n q m Hp Hq Hne. destruct (proj2 (H2 p) ltac:(by eexists)) as [d Ha]. destruct (proj2 (H2 q) ltac:(by eexists)) as [e He].
    pose proof (H3 p n d Hp Ha). pose proof (H3 q m e Hq He). destruct (inv_disjoint _ A p d q e Hok Ha He Hne); lia.
Qed.

(** C27: resizing.  [user_shared_heap_realloc] of a live block to a non-zero size
    either fails with NULL, the block and its contents being kept, or returns a
    block of at least that size, in place or new, that starts with the old
    contents; the contents of all other live blocks are unchanged. *)
Theorem shared_heap_realloc_ok h A p c size :
  heap_ok h A -> A !! p = Some c -> 0 < size <= 2 ^ 64 - 16 ->
  exists h' q, user_shared_heap_realloc h p size = Ok (h', q) /\
    (forall r d a, r <> p -> A !! r = Some d -> r <= a < r + d -> byte_at h' a = byte_at h a) /\
    if q =? 0 then heap_ok h' A /\ forall a, p <= a < p + c -> byte_at h' a = byte_at h a
    else exists c', size <= c' /\ heap_ok h' (<[q := c']> (delete p A)) /\ (q = p \/ A !! q = None) /\
      forall k, 0 <= k < Z.min c size -> byte_at h' (q + k) = byte_at h (p + k).
Proof. apply realloc_inv. Qed.

(** huge requests.  Rounding up wraps around for the fifteen largest sizes:
    instead of failing, [user_shared_heap_malloc] returns a block of no bytes at
    all, for a request of almost 2^64. *)
Theorem shared_heap_malloc_wraps size bytes :
  2 ^ 64 - 16 < size < 2 ^ 64 ->
  exists h' b, user_shared_heap_malloc (mkHeap 0 0 0 ∅ bytes) size = Ok (h', FIRST + 32) /\
    hp_blocks h' !! FIRST = Some b /\ payload_bytes b = 0 /\ Z.land (flags b) USER_SHARED_HEAP_BLOCK_FREE = 0.
Proof.
  intros Hs. unfold user_shared_heap_malloc. destruct (Z.eqb_spec size 0); [lia|].
  assert (user_shared_heap_align_up size = 0) as ->.
  { unfold user_shared_heap_align_up. replace (u64 (size + 15)) with (size + 15 - 2 ^ 64)
      by (unfold u64; apply (Z.mod_unique_pos _ _ 1); lia).
    change 15 with (u64 (2 ^ 4 - 1)) at 2. rewrite land_mask_down by lia. rewrite Z.mod_small by lia. lia. }
  eexists _, _. split; [vm_compute; reflexivity|]. split_and!; vm_compute; reflexivity.
Qed.

Definition cold_heap : Heap := mkHeap 0 0 0 ∅ ∅.

Lemma cold_heap_ok : heap_ok cold_heap ∅.
Proof. by apply cold_ok. Qed.

Lemma shared_heap_malloc_witness :
  exists h' p, user_shared_heap_malloc cold_heap 100 = Ok (h', p) /\ hp_bytes h' = hp_bytes cold_heap /\
    if p =? 0 then heap_ok h' ∅ /\ full h' (user_shared_heap_align_up (Z.max 1 100))
    else exists c, 100 <= c /\ p mod 16 = 0 /\ (∅ : gmap Z Z) !! p = None /\ heap_ok h' (<[p := c]> ∅).
Proof. apply (shared_heap_malloc_ok cold_heap ∅ 100); [exact cold_heap_ok|lia]. Defined.

(** Two blocks: 112 bytes at 0x20000040 and 64 bytes at 0x200000D0, the first
    holding 7 in its first byte. *)
Definition run_malloc (h : Heap) (n : Z) : Heap := match user_shared_heap_malloc h n with Ok (h, _) => h | _ => h end.
Definition poke (h : Heap) (a v : Z) : Heap := with_bytes (<[a := v]> (hp_bytes h)) h.
Definition two_blocks : Heap := poke (run_malloc (run_malloc cold_heap 100) 50) 0x20000040 7.
Definition two_table : gmap Z Z := <[0x200000D0 := 64]> (<[0x20000040 := 112]> ∅).

Definition two_segs : list Seg :=
  [mkSeg FIRST 112 false; mkSeg 0x200000B0 64 false; mkSeg 0x20000110 (USER_HEAP_LIMIT - 0x20000110 - 32) true].

Lemma two_blocks_ok : heap_ok two_blocks two_table.
Proof.
  split; [vm_compute; reflexivity|]. exists two_segs. split.
  - split; [vm_compute; reflexivity|vm_compute; reflexivity| |].
    + cbn [tiles two_segs]. split_and!; vm_compute; congruence.
    + cbn [lseg two_segs]. split_and!; vm_compute; reflexivity.
  - intros p c. unfold two_table, two_segs. rewrite !lookup_insert_Some, lookup_empty, !used_cons. cbn [sg_free sg_addr sg_bytes].
    unfold FIRST. split.
    + intros [[<- <-]|[_ [[<- <-]|[_ ?]]]]; [right; left; done|left; done|done].
    + intros [(_ & <- & <-)|[(_ & <- & <-)|[(? & _)|(t & Ht%not_elem_of_nil & _)]]]; [right; split; [lia|by left]|by left|done|done].
Qed.

(** A program that takes two blocks, stores a byte in the first and has it
    resized, so that it moves behind the second. *)
Lemma ex_session :
  exists h c, session h c /\ cl_blocks c !! 0x20000130 = Some 1000 /\ cl_blocks c !! 0x200000D0 = Some 50 /\
    cl_stored c 0x20000130 3 = Some 7.
Proof.
  eexists _, _. split.
  - eapply (session_step _ _ (Realloc 0x20000040 1000)).
    + eapply (session_step _ _ (Store 0x20000040 3 7)).
      * eapply (session_step _ _ (Malloc 50)).
        -- eapply (session_step _ _ (Malloc 100)); [apply (session_start ∅)|cbn; lia|vm_compute; reflexivity].
        -- cbn; lia.
        -- vm_compute; reflexivity.
      * exists 100. split; [vm_compute; reflexivity|lia].
      * vm_compute; reflexivity.
    + split; [right; exists 100; vm_compute; reflexivity|lia].
    + vm_compute; reflexivity.
  - split_and!; vm_compute; reflexivity.
Defined.

Lemma shared_heap_session_witness :
  exists h c, session h c /\ byte_at h 0x20000133 = 7 /\ (0x20000130 + 1000 + 32 <= 0x200000D0 \/ 0x200000D0 + 50 + 32 <= 0x20000130).
Proof.
  destruct ex_session as (h & c & Hs & Hp & Hq & Hv).
  destruct (shared_heap_session_safe h c Hs) as (_ & _ & Hapart & Hkept). exists h, c.
  split; [exact Hs|]. split.
  - exact (Hkept 0x20000130 1000 3 7 Hp (conj (Z.lt_le_incl 0 3 eq_refl) eq_refl) Hv).
  - apply (Hapart 0x20000130 1000 0x200000D0 50 Hp Hq). discriminate.
Defined.

Lemma shared_heap_free_witness :
  match two_table !! 0x20000040 with
  | Some _ => exists h', user_shared_heap_free two_blocks 0x20000040 = Ok h' /\ heap_ok h' (delete 0x20000040 two_table) /\
      hp_bytes h' = hp_bytes two_blocks
  | None => 0x20000040 < USER_HEAP_BASE \/ USER_HEAP_LIMIT <= 0x20000040 ->
      user_shared_heap_free two_blocks 0x20000040 = Ok two_blocks
  end.
Proof. apply (shared_heap_free_ok two_blocks two_table 0x20000040). exact two_blocks_ok. Defined.

(** The first block cannot grow in place, so it moves. *)
Lemma shared_heap_realloc_witness :
  exists h' q, user_shared_heap_realloc two_blocks 0x20000040 1000 = Ok (h', q) /\
    (forall r d a, r <> 0x20000040 -> two_table !! r = Some d -> r <= a < r + d -> byte_at h' a = byte_at two_blocks a) /\
    if q =? 0 then heap_ok h' two_table /\ forall a, 0x20000040 <= a < 0x20000040 + 112 -> byte_at h' a = byte_at two_blocks a
    else exists c', 1000 <= c' /\ heap_ok h' (<[q := c']> (delete 0x20000040 two_table)) /\
      (q = 0x20000040 \/ two_table !! q = None) /\
      forall k, 0 <= k < Z.min 112 1000 -> byte_at h' (q + k) = byte_at two_blocks (0x20000040 + k).
Proof.
  apply (shared_heap_realloc_ok two_blocks two_table 0x20000040 112 1000);
    [exact two_blocks_ok|vm_compute; reflexivity|lia].
Defined.

Example realloc_moves :
  match user_shared_heap_realloc two_blocks 0x20000040 1000 with
  | Ok (h', q) => q = 0x20000130 /\ byte_at h' 0x20000130 = 7
  | _ => False
  end.
Proof. vm_compute. done. Qed.

Lemma shared_heap_wraps_witness :
  exists h' b, user_shared_heap_malloc (mkHeap 0 0 0 ∅ ∅) (2 ^ 64 - 1) = Ok (h', FIRST + 32) /\
    hp_blocks h' !! FIRST = Some b /\ payload_bytes b = 0 /\ Z.land (flags b) USER_SHARED_HEAP_BLOCK_FREE = 0.
Proof. apply (shared_heap_malloc_wraps (2 ^ 64 - 1) ∅). lia. Defined.

(** Shrinking in place leaves the cut-off tail beside the free block that follows
    it, and freeing merges one neighbour on each side only: when everything has
    been freed the heap is still in two parts, and a request it could serve at
    first now fails. *)
Example shrink_fragments_heap :
  let whole := USER_HEAP_LIMIT - FIRST - 32 in
  match user_shared_heap_malloc cold_heap 1000 with
  | Ok (h, p) =>
      match user_shared_heap_realloc h p 16 with
      | Ok (h, p) =>
          match user_shared_heap_free h p with
          | Ok h =>
              match user_shared_heap_malloc cold_heap whole, user_shared_heap_malloc h whole with
              | Ok (_, at_first), Ok (_, now) => at_first = FIRST + 32 /\ now = 0
              | _, _ => False
              end
          | _ => False
          end
      | _ => False
      end
  | _ => False
  end.
Proof. vm_compute. done. Qed.
