(* ===== verification/KernelText.v ===== *)
(** Character arrays of fixed size in the kernel: the copy into one, and the prefix
    test, of kernel/kernel_event.cpp; kernel/resource_manager.cpp has the same copy
    loop.  A text is what precedes the first zero of its array.  The destination of
    a copy and both arguments of the prefix test are arrays inside records, so the
    code's tests of their addresses against NULL never hold and are left out. *)
From stdpp Require Import base list.
From Stdlib Require Import ZArith Lia.
From S2P Require Import Prelude.

Local Open Scope Z_scope.

(** A name in its array: characters and a terminator. *)
Definition terminated (l : list Z) : Prop := 0 ∈ l.

(** ** The loops *)

(** [copy_text(destination, capacity, source)]; [source] is NULL or the array it
    points into. *)
Definition copy_text_step (capacity : Z) (source : list Z) (st : list Z * Z) : Exec ((list Z * Z) + (list Z * Z)) :=
  let '(destination, index) := st in
  c <- aget source index ;;
  if c =? 0 then Ok (inr st) else
  if negb (u64 (index + 1) <? capacity) then Ok (inr st) else
  destination <- aset destination index c ;;
  Ok (inl (destination, u64 (index + 1))).

Definition copy_text (destination : list Z) (capacity : Z) (source : option (list Z)) : Exec (list Z) :=
  if capacity =? 0 then Ok destination else
  '(destination, index) <-
    match source with
    | None => Ok (destination, 0)
    | Some source => iterate (S (Z.to_nat capacity)) (copy_text_step capacity source) (destination, 0)
    end ;;
  aset destination index 0.

Definition prefix_step (text prefix : list Z) (i : Z) : Exec (Z + bool) :=
  p <- aget prefix i ;;
  if p =? 0 then Ok (inr true) else
  t <- aget text i ;;
  if negb (t =? p) then Ok (inr false) else Ok (inl (i + 1)).

Definition text_has_prefix (text prefix : list Z) : Exec bool :=
  p <- aget prefix 0 ;;
  if p =? 0 then Ok true else iterate (S (length prefix)) (prefix_step text prefix) 0.

(** ** What they compute *)

(** The characters of an array before its terminator. *)
Fixpoint c_text (l : list Z) : list Z :=
  match l with
  | [] => []
  | c :: l' => if c =? 0 then [] else c :: c_text l'
  end.

Lemma terminated_cons c l : c <> 0 -> terminated (c :: l) -> terminated l.
Proof. unfold terminated. intros Hc [Hz|Hz]%elem_of_cons; [congruence|done]. Qed.

Lemma aget_drop {A} (l : list A) (i : nat) x r : drop i l = x :: r -> aget l (Z.of_nat i) = Ok x.
Proof.
  intros Hd. apply aget_ok; [lia|]. rewrite Nat2Z.id. rewrite <- (Nat.add_0_r i), <- lookup_drop, Hd. done.
Qed.

Lemma drop_tail {A} (l : list A) (i : nat) x r : drop i l = x :: r -> drop (S i) l = r.
Proof. intros Hd. replace (S i) with (i + 1)%nat by lia. by rewrite <- drop_drop, Hd. Qed.

Lemma prefix_loop text prefix (i fuel : nat) :
  terminated (drop i text) -> terminated (drop i prefix) -> (length (drop i prefix) < fuel)%nat ->
  iterate fuel (prefix_step text prefix) (Z.of_nat i) =
    Ok (bool_decide (c_text (drop i prefix) `prefix_of` c_text (drop i text))).
Proof.
  revert i. induction fuel as [|fuel IH]; intros i Ht Hp Hf; [lia|]. cbn [iterate]. unfold prefix_step at 1.
  destruct (drop i prefix) as [|p ps] eqn:Ep; [by apply not_elem_of_nil in Hp|].
  destruct (drop i text) as [|t ts] eqn:Et; [by apply not_elem_of_nil in Ht|].
  rewrite (aget_drop _ _ _ _ Ep), bind_ok. cbn [c_text]. destruct (Z.eqb_spec p 0) as [->|Hp0].
  { rewrite bind_ok, bool_decide_eq_true_2; [done|]. apply prefix_nil. }
  rewrite (aget_drop _ _ _ _ Et), bind_ok. destruct (Z.eqb_spec t p) as [->|Hne]; cbn [negb].
  - rewrite bind_ok. destruct (Z.eqb_spec p 0); [done|].
    replace (Z.of_nat i + 1) with (Z.of_nat (S i)) by lia. rewrite IH.
    + rewrite (drop_tail _ _ _ _ Ep), (drop_tail _ _ _ _ Et). f_equal. apply bool_decide_ext. symmetry.
      split; [apply prefix_cons_inv_2|apply prefix_cons].
    + rewrite (drop_tail _ _ _ _ Et). by eapply terminated_cons.
    + rewrite (drop_tail _ _ _ _ Ep). by eapply terminated_cons.
    + rewrite (drop_tail _ _ _ _ Ep). cbn in Hf. lia.
  - rewrite bind_ok, bool_decide_eq_false_2; [done|]. intros Hpre. destruct (Z.eqb_spec t 0).
    + by apply prefix_nil_inv in Hpre.
    + by apply prefix_cons_inv_1 in Hpre.
Qed.

Lemma text_has_prefix_ok text prefix :
  terminated text -> terminated prefix ->
  text_has_prefix text prefix = Ok (bool_decide (c_text prefix `prefix_of` c_text text)).
Proof.
  intros Ht Hp. unfold text_has_prefix. destruct prefix as [|p ps] eqn:E; [by apply not_elem_of_nil in Hp|].
  change (aget (p :: ps) 0) with (@Ok Z p). rewrite bind_ok, <- E in *. destruct (Z.eqb_spec p 0) as [->|Hp0].
  - rewrite bool_decide_eq_true_2; [done|]. rewrite E. apply prefix_nil.
  - apply (prefix_loop text prefix 0); rewrite ?drop_0; [done..|lia].
Qed.

Lemma c_text_no_zero l : 0 ∉ c_text l.
Proof.
  induction l as [|c l IH]; cbn [c_text]; [apply not_elem_of_nil|]. destruct (Z.eqb_spec c 0); [apply not_elem_of_nil|].
  apply not_elem_of_cons. split; [congruence|done].
Qed.

Lemma c_text_app s l : 0 ∉ s -> c_text (s ++ 0 :: l) = s.
Proof.
  induction s as [|c s IH]; intros Hs; cbn [app c_text]; [done|]. apply not_elem_of_cons in Hs as [Hc Hs].
  destruct (Z.eqb_spec c 0); [congruence|]. by rewrite IH.
Qed.

Lemma terminated_split l : terminated l -> exists rest, l = c_text l ++ 0 :: rest.
Proof.
  induction l as [|c l IH]; intros Ht; [by apply not_elem_of_nil in Ht|]. cbn [c_text].
  destruct (Z.eqb_spec c 0) as [->|Hc]; [by exists l|]. destruct IH as [rest Hr]; [by eapply terminated_cons|].
  exists rest. cbn [app]. by rewrite <- Hr.
Qed.

(** Stops at the terminator or at the last slot but one. *)
Lemma copy_text_loop (dst s rest : list Z) capacity (n i fuel : nat) :
  n = (length s `min` (Z.to_nat capacity - 1))%nat -> 0 ∉ s -> len dst = capacity -> 0 < capacity < 2 ^ 64 -> (i <= length s)%nat -> Z.of_nat i < capacity ->
  (Z.to_nat capacity - i < fuel)%nat ->
  iterate fuel (copy_text_step capacity (s ++ 0 :: rest)) (take i s ++ drop i dst, Z.of_nat i) =
    Ok (take n s ++ drop n dst, Z.of_nat n).
Proof.
  intros Hn Hs Hd Hc. revert i. induction fuel as [|fuel IH]; intros i His Hic Hf; [lia|]. cbn [iterate]. unfold copy_text_step at 1.
  destruct (decide (i = length s)) as [->|Hne].
  - rewrite (aget_ok _ _ 0); [|lia|]; [|by rewrite Nat2Z.id, lookup_app_r, Nat.sub_diag by lia].
    rewrite bind_ok. cbn iota beta. by replace n with (length s) by lia.
  - destruct (lookup_lt_is_Some_2 s i) as [c Hci]; [lia|].
    assert (c <> 0) as Hc0 by (intros ->; by apply Hs; eapply list_elem_of_lookup_2).
    rewrite (aget_ok _ _ c); [|lia|]; [|by rewrite Nat2Z.id, lookup_app_l by lia].
    rewrite bind_ok. destruct (Z.eqb_spec c 0); [done|]. rewrite u64_small by lia.
    destruct (Z.ltb_spec (Z.of_nat i + 1) capacity); cbn [negb].
    + rewrite aset_ok by (rewrite length_app, length_take, length_drop; lia). rewrite !bind_ok.
      replace (Z.of_nat i + 1) with (Z.of_nat (S i)) by lia. rewrite <- (IH (S i)) by lia. do 2 f_equal.
      rewrite Nat2Z.id, insert_app_r_alt by (rewrite length_take; lia). rewrite length_take, Nat.min_l, Nat.sub_diag by lia.
      rewrite (take_S_r s i c Hci). destruct (drop i dst) as [|d ds] eqn:Ed.
      { apply (f_equal length) in Ed. rewrite length_drop in Ed. cbn in Ed. lia. }
      rewrite (drop_tail _ _ _ _ Ed). cbn. by rewrite <- app_assoc.
    + rewrite bind_ok. by replace n with i by lia.
Qed.

(** [text_of source]: the string a source pointer denotes, empty for NULL. *)
Definition text_of (source : option (list Z)) : list Z := match source with Some l => c_text l | None => [] end.
Definition source_ok (source : option (list Z)) : Prop := match source with Some l => terminated l | None => True end.

Lemma copy_text_ok dst capacity source :
  len dst = capacity -> 0 < capacity < 2 ^ 64 -> source_ok source ->
  exists d, copy_text dst capacity source = Ok d /\ len d = capacity /\ terminated d /\
    c_text d = take (Z.to_nat capacity - 1) (text_of source).
Proof.
  intros Hd Hc Hs. unfold copy_text. destruct (Z.eqb_spec capacity 0) as [|_]; [lia|].
  set (s := text_of source). set (n := (length s `min` (Z.to_nat capacity - 1))%nat).
  assert (match source with
          | Some src => iterate (S (Z.to_nat capacity)) (copy_text_step capacity src) (dst, 0)
          | None => Ok (dst, 0) end = Ok (take n s ++ drop n dst, Z.of_nat n)) as Heq.
  { destruct source as [src|]; cbn in s, Hs; [|by rewrite drop_0].
    destruct (terminated_split src Hs) as [rest Hr]. rewrite Hr. fold s.
    pose proof (copy_text_loop dst s rest capacity n 0 (S (Z.to_nat capacity)) eq_refl (c_text_no_zero src) Hd Hc) as Hl.
    rewrite take_0, drop_0 in Hl. apply Hl; lia. }
  rewrite Heq, bind_ok. clear Heq.
  rewrite aset_ok by (rewrite length_app, length_take, length_drop; lia). rewrite Nat2Z.id.
  rewrite insert_app_r_alt by (rewrite length_take; lia). rewrite length_take, Nat.min_l, Nat.sub_diag by lia.
  destruct (drop n dst) as [|x xs] eqn:Ed.
  { apply (f_equal length) in Ed. rewrite length_drop in Ed. cbn in Ed. lia. }
  apply (f_equal length) in Ed. rewrite length_drop in Ed. cbn in Ed. cbn [insert list_insert].
  eexists. split; [done|]. split_and!.
  - rewrite length_app, length_take. cbn. lia.
  - unfold terminated. apply elem_of_app. right. apply list_elem_of_here.
  - rewrite c_text_app.
    + unfold n. destruct (decide (length s <= Z.to_nat capacity - 1)%nat).
      * rewrite Nat.min_l, !take_ge by lia. done.
      * by rewrite Nat.min_r by lia.
    + intros Hz. assert (0 ∉ s) as Hns by (unfold s, text_of; destruct source; [apply c_text_no_zero|apply not_elem_of_nil]).
      apply Hns. rewrite <- (take_drop n s). apply elem_of_app. by left.
Qed.
