(* ===== verification/DList.v ===== *)
(** Intrusive doubly linked lists in a store of records.

    The kernel threads its long-lived records by [next] and [prev] pointers kept
    inside them, with a head and a tail in file-scope variables.  A store maps the
    address of each live record to it, NULL is [None], and a list segment says
    which records a chain of pointers visits.  [Linked] is what a record type
    offers: its two link fields. *)
From stdpp Require Import base list gmap.
From Stdlib Require Import ZArith Lia.
From S2P Require Import Prelude.

Local Open Scope Z_scope.

Class Linked (N : Type) : Type := {
  link_next : N -> option Z;
  link_prev : N -> option Z;
  set_next : option Z -> N -> N;
  set_prev : option Z -> N -> N
}.

Class LinkedLaws (N : Type) `{Linked N} : Prop := {
  next_set_next v (n : N) : link_next (set_next v n) = v;
  next_set_prev v (n : N) : link_next (set_prev v n) = link_next n;
  prev_set_next v (n : N) : link_prev (set_next v n) = link_prev n;
  prev_set_prev v (n : N) : link_prev (set_prev v n) = v;
  set_next_next v w (n : N) : set_next v (set_next w n) = set_next v n;
  set_prev_prev v w (n : N) : set_prev v (set_prev w n) = set_prev v n;
  set_prev_next v w (n : N) : set_prev v (set_next w n) = set_next w (set_prev v n)
}.

(** Searching a list and its image. *)
Lemma list_find_agree {A B} (f : A -> B) (P : A -> Prop) (Q : B -> Prop) `{forall x, Decision (P x)} `{forall y, Decision (Q y)} l :
  (forall x, x ∈ l -> P x <-> Q (f x)) -> snd <$> list_find Q (map f l) = (f ∘ snd) <$> list_find P l.
Proof.
  induction l as [|x l IH]; intros Hl; [done|]. cbn [map list_find].
  assert (P x <-> Q (f x)) as Hx by (apply Hl, list_elem_of_here).
  destruct (decide (P x)), (decide (Q (f x))); try tauto.
  assert (snd <$> list_find Q (map f l) = (f ∘ snd) <$> list_find P l) as IH' by (apply IH; intros y Hy; by apply Hl, list_elem_of_further).
  destruct (list_find Q (map f l)) as [[]|], (list_find P l) as [[]|]; cbn in *; congruence.
Qed.

Section DList.
Context {N : Type} `{LinkedLaws N}.
Implicit Types (m : gmap Z N) (p q : Z) (l : list Z).

(** [p->field] and [p->field = v]; an address that holds no record is undefined. *)
Definition fetch m p : Exec N := match m !! p with Some n => Ok n | None => Undef end.
Definition assign m p (f : N -> N) : Exec (gmap Z N) := n <- fetch m p ;; Ok (<[p := f n]> m).

(** ** Operations *)

(** The node goes behind the tail. *)
Definition dl_append m (hd tl : option Z) p : Exec (gmap Z N * option Z * option Z) :=
  m <- assign m p (set_prev tl) ;;
  m <- assign m p (set_next None) ;;
  '(m, hd) <- match tl with
              | Some t => m <- assign m t (set_next (Some p)) ;; Ok (m, hd)
              | None => Ok (m, Some p)
              end ;;
  Ok (m, hd, Some p).

(** The neighbours of the node are joined, or the ends moved. *)
Definition dl_unlink m (hd tl : option Z) p : Exec (gmap Z N * option Z * option Z) :=
  n <- fetch m p ;;
  '(m, hd) <- match link_prev n with
              | Some a => m <- assign m a (set_next (link_next n)) ;; Ok (m, hd)
              | None => Ok (m, link_next n)
              end ;;
  n <- fetch m p ;;
  '(m, tl) <- match link_next n with
              | Some c => m <- assign m c (set_prev (link_prev n)) ;; Ok (m, tl)
              | None => Ok (m, link_prev n)
              end ;;
  Ok (m, hd, tl).

(** The node goes between two neighbours, or to an end. *)
Definition dl_insert m (hd tl : option Z) p (prev next : option Z) : Exec (gmap Z N * option Z * option Z) :=
  m <- assign m p (fun n => set_next next (set_prev prev n)) ;;
  '(m, hd) <- match prev with
              | Some a => m <- assign m a (set_next (Some p)) ;; Ok (m, hd)
              | None => Ok (m, Some p)
              end ;;
  '(m, tl) <- match next with
              | Some c => m <- assign m c (set_prev (Some p)) ;; Ok (m, tl)
              | None => Ok (m, Some p)
              end ;;
  Ok (m, hd, tl).

(** ** Segments *)
Definition first l (next : option Z) : option Z := match l with [] => next | p :: _ => Some p end.
Fixpoint final l (prev : option Z) : option Z := match l with [] => prev | p :: l' => final l' (Some p) end.

Fixpoint seg m (prev : option Z) l (next : option Z) : Prop :=
  match l with
  | [] => True
  | p :: l' => (exists n, m !! p = Some n /\ link_prev n = prev /\ link_next n = first l' next) /\ seg m (Some p) l' next
  end.

(** A whole list, with its head and tail. *)
Definition dlist m (hd tl : option Z) l : Prop :=
  NoDup l /\ seg m None l None /\ hd = first l None /\ tl = final l None.

(** The records without their links: what list surgery keeps. *)
Definition content (n : N) : N := set_next None (set_prev None n).
Definition relinked m m' : Prop := content <$> m' = content <$> m.

#[export] Instance relinked_equiv : Equivalence relinked.
Proof. split; [done|by intros ? ?|intros m1 m2 m3 H12 H23; unfold relinked in *; congruence]. Qed.

Lemma content_set_next v n : content (set_next v n) = content n.
Proof. unfold content. by rewrite set_prev_next, set_next_next. Qed.

Lemma content_set_prev v n : content (set_prev v n) = content n.
Proof. unfold content. by rewrite set_prev_prev. Qed.

Lemma relinked_insert m p n n' : m !! p = Some n -> content n' = content n -> relinked m (<[p := n']> m).
Proof.
  intros Hp Hc. unfold relinked. rewrite fmap_insert, Hc. apply insert_id. by rewrite lookup_fmap, Hp.
Qed.

Lemma relinked_lookup m m' p n : relinked m m' -> m !! p = Some n -> exists n', m' !! p = Some n' /\ content n' = content n.
Proof.
  intros Hr Hp. assert ((content <$> m') !! p = Some (content n)) as Hq by (by rewrite Hr, lookup_fmap, Hp).
  rewrite lookup_fmap in Hq. destruct (m' !! p) as [n'|]; [|done]. injection Hq as Hq. by exists n'.
Qed.

Lemma relinked_dom m m' : relinked m m' -> dom m' = dom m.
Proof. intros Hr. apply (f_equal dom) in Hr. by rewrite !dom_fmap_L in Hr. Qed.

Lemma relinked_fetch m m' p : relinked m m' -> is_Some (m !! p) -> is_Some (m' !! p).
Proof. intros Hr [n Hn]. destruct (relinked_lookup m m' p n Hr Hn) as (n' & -> & _). eauto. Qed.

(** ** Segments and the store *)
Lemma final_app l1 l2 pr : final (l1 ++ l2) pr = final l2 (final l1 pr).
Proof. revert pr. induction l1 as [|x l1 IH]; intros pr; [done|]. apply IH. Qed.

Lemma first_app l1 l2 nx : first (l1 ++ l2) nx = first l1 (first l2 nx).
Proof. by destruct l1. Qed.

Lemma seg_app m pr l1 l2 nx :
  seg m pr (l1 ++ l2) nx <-> seg m pr l1 (first l2 nx) /\ seg m (final l1 pr) l2 nx.
Proof.
  revert pr. induction l1 as [|x l1 IH]; intros pr; cbn [app seg first final]; [naive_solver|].
  rewrite IH. rewrite first_app. naive_solver.
Qed.

Lemma seg_frame m m' pr l nx : (forall p, p ∈ l -> m' !! p = m !! p) -> seg m pr l nx -> seg m' pr l nx.
Proof.
  revert pr. induction l as [|x l IH]; intros pr Hm; [done|]. cbn [seg]. intros [(n & Hn & Hl) Hs]. split.
  - exists n. split; [|done]. rewrite Hm; [done|]. apply list_elem_of_here.
  - apply IH; [|done]. intros p Hp. apply Hm. by apply list_elem_of_further.
Qed.

Lemma seg_in m pr l nx p : seg m pr l nx -> p ∈ l -> is_Some (m !! p).
Proof.
  revert pr. induction l as [|x l IH]; intros pr Hs Hp; [by apply not_elem_of_nil in Hp|].
  destruct Hs as [(n & Hn & _) Hs]. apply elem_of_cons in Hp as [->|Hp]; [eauto|by eapply IH].
Qed.

Lemma fetch_ok m p n : m !! p = Some n -> fetch m p = Ok n.
Proof. unfold fetch. by intros ->. Qed.

Lemma assign_ok m p n f : m !! p = Some n -> assign m p f = Ok (<[p := f n]> m).
Proof. intros Hp. unfold assign. by rewrite (fetch_ok _ _ _ Hp). Qed.

(** Changing the forward link at the end of a segment. *)
Lemma seg_retarget m pr l t nx v n :
  seg m pr (l ++ [t]) nx -> t ∉ l -> m !! t = Some n -> seg (<[t := set_next v n]> m) pr (l ++ [t]) v.
Proof.
  rewrite !seg_app. cbn [first seg]. intros [Hl [(n' & Hn' & Hp & _) _]] Ht Hn. simplify_eq. split; [|split; [|done]].
  - eapply seg_frame; [|done]. intros p Hpl. apply lookup_insert_ne. by intros ->.
  - exists (set_next v n'). rewrite lookup_insert, decide_True by done. by rewrite prev_set_next, next_set_next.
Qed.

(** Changing the backward link at the start of a segment. *)
Lemma seg_reanchor m pr c l nx v n :
  seg m pr (c :: l) nx -> c ∉ l -> m !! c = Some n -> seg (<[c := set_prev v n]> m) v (c :: l) nx.
Proof.
  cbn [seg]. intros [(n' & Hn' & _ & Hnx) Hs] Hc Hn. simplify_eq. split.
  - exists (set_prev v n'). rewrite lookup_insert, decide_True by done. by rewrite prev_set_prev, next_set_prev.
  - eapply seg_frame; [|done]. intros p Hp. apply lookup_insert_ne. by intros ->.
Qed.

Lemma seg_relinked_other m p n pr l nx : seg m pr l nx -> p ∉ l -> seg (<[p := n]> m) pr l nx.
Proof. intros Hs Hp. eapply seg_frame; [|done]. intros q Hq. apply lookup_insert_ne. by intros ->. Qed.

Lemma final_snoc l t pr : final (l ++ [t]) pr = Some t.
Proof. by rewrite final_app. Qed.

Lemma list_snoc_cases l : l = [] \/ exists l' t, l = l' ++ [t].
Proof. destruct l as [|t l' _] using rev_ind; eauto. Qed.

Ltac store_simpl := repeat first
  [ rewrite lookup_insert, decide_True by done
  | rewrite lookup_insert_ne by (done || congruence) ].

Lemma dl_append_ok m hd tl l p :
  dlist m hd tl l -> p ∉ l -> is_Some (m !! p) ->
  exists m' hd', dl_append m hd tl p = Ok (m', hd', Some p) /\ dlist m' hd' (Some p) (l ++ [p]) /\ relinked m m'.
Proof.
  intros (Hnd & Hs & -> & ->) Hp [n Hn]. unfold dl_append.
  rewrite (assign_ok _ _ _ _ Hn), bind_ok. erewrite assign_ok, bind_ok by (store_simpl; done).
  set (m1 := <[p := set_next None _]> _).
  assert (relinked m m1) as Hr1.
  { unfold m1. rewrite insert_insert, decide_True by done. eapply relinked_insert; [done|].
    by rewrite content_set_next, content_set_prev. }
  assert (NoDup (l ++ [p])) as Hnd'.
  { apply list.NoDup_app. split_and!; [done| |apply NoDup_singleton]. by intros x Hx ->%list_elem_of_singleton. }
  assert (m1 !! p = Some (set_next None (set_prev (final l None) n))) as Hm1 by (unfold m1; by store_simpl).
  assert (seg m1 None l None) as Hs1 by (unfold m1; by repeat apply seg_relinked_other).
  assert (seg m1 (final l None) [p] None) as Hsp.
  { cbn [seg]. split; [|done]. eexists. split; [done|]. by rewrite prev_set_next, prev_set_prev, next_set_next. }
  clearbody m1. destruct (list_snoc_cases l) as [->|(l' & t & ->)].
  - cbn [final app]. eexists _, _. split; [done|]. done.
  - rewrite !final_snoc in *. apply list.NoDup_app in Hnd as (_ & Hl't & _).
    assert (t ∉ l') as Ht by (intros Ht; apply (Hl't t Ht); by apply list_elem_of_singleton).
    assert (t <> p) as Htp by (intros ->; apply Hp, elem_of_app; right; by apply list_elem_of_singleton).
    destruct (seg_in _ _ _ _ t Hs1) as [nt Hnt]; [apply elem_of_app; right; by apply list_elem_of_singleton|].
    rewrite (assign_ok _ _ _ _ Hnt), bind_ok, bind_ok. eexists _, _. split; [done|]. split.
    + split; [done|]. split_and!; [|by rewrite !first_app|by rewrite final_snoc].
      apply seg_app. cbn [first]. split; [by eapply seg_retarget|].
      rewrite final_snoc. apply seg_relinked_other; [done|]. by intros ?%list_elem_of_singleton.
    + etransitivity; [done|]. by eapply relinked_insert, content_set_next.
Qed.

Lemma dl_unlink_ok m hd tl l1 p l2 :
  dlist m hd tl (l1 ++ p :: l2) ->
  exists m' hd' tl', dl_unlink m hd tl p = Ok (m', hd', tl') /\ dlist m' hd' tl' (l1 ++ l2) /\ relinked m m'.
Proof.
  intros (Hnd & Hs & -> & ->). apply seg_app in Hs as [Hs1 Hs2]. cbn [first] in Hs1.
  destruct Hs2 as [(n & Hn & Hprev & Hnext) Hs2].
  apply list.NoDup_app in Hnd as (Hnd1 & Hdis & [Hp2 Hnd2]%list.NoDup_cons).
  assert (p ∉ l1) as Hp1 by (intros Hp; apply (Hdis p Hp), list_elem_of_here).
  assert (NoDup (l1 ++ l2)) as Hnd.
  { apply list.NoDup_app. split_and!; [done| |done]. intros x Hx Hx2. by apply (Hdis x Hx), list_elem_of_further. }
  assert (exists m1, (match link_prev n with
              | Some a => m' <- assign m a (set_next (link_next n)) ;; Ok (m', first (l1 ++ p :: l2) None)
              | None => Ok (m, link_next n) end) = Ok (m1, first (l1 ++ l2) None) /\
          seg m1 None l1 (first l2 None) /\ seg m1 (Some p) l2 None /\ m1 !! p = Some n /\ relinked m m1)
    as (m1 & Hm1 & Hs1' & Hs2' & Hn1 & Hr1).
  { rewrite Hprev, Hnext. destruct (list_snoc_cases l1) as [->|(l' & t & ->)]; [by exists m|]. rewrite final_snoc.
    apply list.NoDup_app in Hnd1 as (_ & Hl't & _).
    assert (t ∉ l') as Ht by (intros Ht; apply (Hl't t Ht); by apply list_elem_of_singleton).
    assert (t ∈ l' ++ [t]) as Htin by (apply elem_of_app; right; by apply list_elem_of_singleton).
    destruct (seg_in _ _ _ _ t Hs1 Htin) as [nt Hnt]. rewrite (assign_ok _ _ _ _ Hnt), bind_ok.
    eexists. split; [by rewrite !first_app; destruct l'|]. split_and!.
    - by eapply seg_retarget.
    - apply seg_relinked_other; [done|]. intros Ht2. by apply (Hdis t Htin), list_elem_of_further.
    - rewrite lookup_insert_ne; [done|]. by intros ->.
    - by eapply relinked_insert, content_set_next. }
  unfold dl_unlink. rewrite (fetch_ok _ _ _ Hn), bind_ok, Hm1, bind_ok. cbn iota beta.
  rewrite (fetch_ok _ _ _ Hn1), bind_ok, Hnext, Hprev. rewrite final_app. cbn [final].
  destruct l2 as [|c l2]; cbn [first].
  - eexists _, _, _. split; [done|]. rewrite app_nil_r in *. split; [|done]. by split_and!.
  - apply list.NoDup_cons in Hnd2 as [Hc2 _]. destruct Hs2' as [Hc Hs2']. destruct Hc as (nc & Hnc & Hc).
    rewrite (assign_ok _ _ _ _ Hnc), bind_ok, bind_ok. eexists _, _, _. split; [done|]. split.
    + split; [done|]. split_and!; [|done|by rewrite final_app].
      apply seg_app. split.
      * apply seg_relinked_other; [done|]. intros Hc1. apply (Hdis c Hc1), list_elem_of_further, list_elem_of_here.
      * eapply seg_reanchor; [|done|done]. split; [by eauto|done].
    + etransitivity; [done|]. by eapply relinked_insert, content_set_prev.
Qed.

(** Only the neighbours are written. *)
Lemma dl_unlink_frame m hd tl l1 p l2 m' hd' tl' q :
  dlist m hd tl (l1 ++ p :: l2) -> dl_unlink m hd tl p = Ok (m', hd', tl') -> q ∉ l1 ++ l2 -> m' !! q = m !! q.
Proof.
  intros (Hnd & Hs & -> & ->) Hrun [Hq1 Hq2]%not_elem_of_app. apply seg_app in Hs as [Hs1 [(n & Hn & Hprev & Hnext) Hs2]].
  apply list.NoDup_app in Hnd as (_ & Hdis & [Hp2 _]%list.NoDup_cons).
  assert (p ∉ l1) as Hp1 by (intros Hp; apply (Hdis p Hp), list_elem_of_here).
  assert (exists m1, (match link_prev n with
            | Some a => m' <- assign m a (set_next (link_next n)) ;; Ok (m', first (l1 ++ p :: l2) None)
            | None => Ok (m, link_next n) end) = Ok (m1, first (l1 ++ l2) None) /\ m1 !! p = Some n /\ m1 !! q = m !! q)
    as (m1 & Hm1 & Hn1 & Hq).
  { rewrite Hprev, Hnext. destruct (list_snoc_cases l1) as [->|(l' & t & ->)]; [by exists m|]. rewrite final_snoc.
    assert (t ∈ l' ++ [t]) as Htin by (apply elem_of_app; right; by apply list_elem_of_singleton).
    destruct (seg_in _ _ _ _ t Hs1 Htin) as [nt Hnt]. rewrite (assign_ok _ _ _ _ Hnt), bind_ok.
    eexists. split; [by rewrite !first_app; destruct l'|]. split; apply lookup_insert_ne || (rewrite lookup_insert_ne; [done|]); by intros ->. }
  unfold dl_unlink in Hrun. rewrite (fetch_ok _ _ _ Hn), bind_ok, Hm1, bind_ok in Hrun. cbn iota beta in Hrun.
  rewrite (fetch_ok _ _ _ Hn1), bind_ok, Hnext in Hrun. destruct l2 as [|c l2]; cbn [first] in Hrun.
  - injection Hrun as <- _ _. done.
  - unfold assign, fetch in Hrun. destruct (m1 !! c); [|done]. rewrite !bind_ok in Hrun. injection Hrun as <- _ _.
    rewrite lookup_insert_ne; [done|]. intros ->. by apply Hq2, list_elem_of_here.
Qed.

Lemma list_elem_final l pr : l <> [] -> exists t, final l pr = Some t /\ t ∈ l.
Proof.
  destruct (list_snoc_cases l) as [->|(l' & t & ->)]; [done|]. intros _. exists t. rewrite final_snoc.
  split; [done|]. apply elem_of_app. right. by apply list_elem_of_singleton.
Qed.

(** The segment before the new node, and the one behind it. *)
Lemma seg_link_before m pr l nx p :
  NoDup l -> seg m pr l nx ->
  exists m', (match final l None with Some a => assign m a (set_next (Some p)) | None => Ok m end) = Ok m' /\
    seg m' pr l (Some p) /\ relinked m m' /\ (forall q, q ∉ l -> m' !! q = m !! q).
Proof.
  intros Hnd Hs. destruct (list_snoc_cases l) as [->|(l' & t & ->)]; [by exists m|]. rewrite final_snoc.
  apply list.NoDup_app in Hnd as (_ & Hl't & _).
  assert (t ∉ l') as Ht by (intros Ht; apply (Hl't t Ht); by apply list_elem_of_singleton).
  assert (t ∈ l' ++ [t]) as Htin by (apply elem_of_app; right; by apply list_elem_of_singleton).
  destruct (seg_in _ _ _ _ t Hs Htin) as [nt Hnt]. rewrite (assign_ok _ _ _ _ Hnt).
  eexists. split; [done|]. split_and!; [by eapply seg_retarget|by eapply relinked_insert, content_set_next|].
  intros q Hq. apply lookup_insert_ne. by intros ->.
Qed.

Lemma seg_link_behind m pr l nx p :
  NoDup l -> seg m pr l nx ->
  exists m', (match first l None with Some c => assign m c (set_prev (Some p)) | None => Ok m end) = Ok m' /\
    seg m' (Some p) l nx /\ relinked m m' /\ (forall q, q ∉ l -> m' !! q = m !! q).
Proof.
  intros Hnd Hs. destruct l as [|c l]; [by exists m|]. cbn [first]. apply list.NoDup_cons in Hnd as [Hc _].
  destruct (seg_in _ _ _ _ c Hs (list_elem_of_here _ _)) as [nc Hnc]. rewrite (assign_ok _ _ _ _ Hnc).
  eexists. split; [done|]. split_and!; [by eapply seg_reanchor|by eapply relinked_insert, content_set_prev|].
  intros q Hq. apply lookup_insert_ne. intros ->. by apply Hq, list_elem_of_here.
Qed.

Lemma dl_insert_ok m hd tl l1 p l2 :
  dlist m hd tl (l1 ++ l2) -> p ∉ l1 ++ l2 -> is_Some (m !! p) ->
  exists m' hd' tl', dl_insert m hd tl p (final l1 None) (first l2 None) = Ok (m', hd', tl') /\
    dlist m' hd' tl' (l1 ++ p :: l2) /\ relinked m m' /\ (forall q, q ∉ l1 ++ p :: l2 -> m' !! q = m !! q).
Proof.
  intros (Hnd & Hs & -> & ->) Hp [n Hn]. apply seg_app in Hs as [Hs1 Hs2].
  assert (NoDup (l1 ++ p :: l2)) as Hnd'.
  { rewrite <- Permutation_middle. by apply list.NoDup_cons. }
  apply list.NoDup_app in Hnd as (Hnd1 & Hdis & Hnd2). apply not_elem_of_app in Hp as [Hp1 Hp2].
  unfold dl_insert. rewrite (assign_ok _ _ _ _ Hn), bind_ok. set (n1 := set_next _ _). set (m1 := <[p := n1]> m).
  assert (relinked m m1) as Hr1 by (eapply relinked_insert; [done|]; unfold n1; by rewrite content_set_next, content_set_prev).
  assert (m1 !! p = Some n1) as Hm1 by (unfold m1; by store_simpl).
  destruct (seg_link_before m1 None l1 (first l2 None) p) as (m2 & Hm2 & Hseg1 & Hr2 & Hf2); [done|by apply seg_relinked_other|].
  destruct (seg_link_behind m2 (final l1 None) l2 None p) as (m3 & Hm3 & Hseg2 & Hr3 & Hf3); [done| |].
  { eapply seg_frame; [|by apply seg_relinked_other]. intros q Hq. apply Hf2. intros Hq1. by apply (Hdis q Hq1). }
  assert (forall q, q ∉ l1 ++ p :: l2 -> m3 !! q = m !! q) as Hf.
  { intros q [Hq1 [Hqp Hq2]%not_elem_of_cons]%not_elem_of_app. rewrite Hf3, Hf2 by done. unfold m1. by store_simpl. }
  clearbody m1. exists m3, (first (l1 ++ p :: l2) None), (final (l1 ++ p :: l2) None). split_and!; [| | |done].
  - destruct l1 as [|a l1]; cbn [final] in *.
    + injection Hm2 as <-. rewrite bind_ok. cbn iota beta. destruct l2 as [|c l2]; cbn [first] in *.
      * injection Hm3 as <-. done.
      * rewrite Hm3. rewrite bind_ok, bind_ok. done.
    + destruct (list_elem_final (a :: l1) None) as (t & Ht & _); [done|]. cbn [final] in Ht. rewrite Ht in Hm2 |- *.
      rewrite Hm2, bind_ok, bind_ok. cbn iota beta. destruct l2 as [|c l2]; cbn [first] in *.
      * injection Hm3 as <-. rewrite bind_ok, final_snoc. done.
      * rewrite Hm3, bind_ok, bind_ok. rewrite !final_app. done.
  - split; [done|]. split; [|done]. apply seg_app. cbn [first seg]. split; [|split].
    + eapply seg_frame; [|done]. intros q Hq. apply Hf3. by apply Hdis.
    + exists n1. rewrite Hf3, Hf2 by done. split; [done|]. unfold n1. by rewrite prev_set_next, prev_set_prev, next_set_next.
    + done.
  - etransitivity; [done|]. by etransitivity.
Qed.

(** Records whose links are the same carry the same lists. *)
Lemma seg_ext m m' pr l nx :
  (forall p n, p ∈ l -> m !! p = Some n -> exists n', m' !! p = Some n' /\ link_next n' = link_next n /\ link_prev n' = link_prev n) ->
  seg m pr l nx -> seg m' pr l nx.
Proof.
  revert pr. induction l as [|x l IH]; intros pr Hm; [done|]. cbn [seg]. intros [(n & Hn & Hp & Hx) Hs]. split.
  - destruct (Hm x n (list_elem_of_here _ _) Hn) as (n' & Hn' & E1 & E2). exists n'. by rewrite E1, E2.
  - apply IH; [|done]. intros p k Hp'. apply Hm. by apply list_elem_of_further.
Qed.

Lemma dlist_ext m m' hd tl l :
  (forall p n, p ∈ l -> m !! p = Some n -> exists n', m' !! p = Some n' /\ link_next n' = link_next n /\ link_prev n' = link_prev n) ->
  dlist m hd tl l -> dlist m' hd tl l.
Proof. intros Hm (Hnd & Hs & -> & ->). split; [done|]. split; [by eapply seg_ext|done]. Qed.

(** Updates that keep the links, and removal of a record outside the list. *)
Lemma seg_update m p n n' pr l nx :
  m !! p = Some n -> link_next n' = link_next n -> link_prev n' = link_prev n -> seg m pr l nx -> seg (<[p := n']> m) pr l nx.
Proof.
  intros Hp Hnx Hpv. revert pr. induction l as [|x l IH]; intros pr; [done|]. cbn [seg]. intros [(k & Hk & Hkp & Hkn) Hs].
  split; [|by apply IH]. destruct (decide (p = x)) as [->|Hne].
  - simplify_eq. exists n'. store_simpl. by rewrite Hnx, Hpv.
  - exists k. by rewrite lookup_insert_ne.
Qed.

Lemma dlist_update m hd tl l p n n' :
  dlist m hd tl l -> m !! p = Some n -> link_next n' = link_next n -> link_prev n' = link_prev n -> dlist (<[p := n']> m) hd tl l.
Proof. intros (Hnd & Hs & -> & ->) Hp Hnx Hpv. split; [done|]. split_and!; [by eapply seg_update|done..]. Qed.

Lemma dlist_frame m m' hd tl l : (forall p, p ∈ l -> m' !! p = m !! p) -> dlist m hd tl l -> dlist m' hd tl l.
Proof. intros Hm (Hnd & Hs & -> & ->). split; [done|]. split_and!; [by eapply seg_frame|done..]. Qed.

(** Walking: at a node the code reads the record and follows [next]. *)
Lemma dlist_at m hd tl l1 p l2 :
  dlist m hd tl (l1 ++ p :: l2) -> exists n, m !! p = Some n /\ link_next n = first l2 None /\ link_prev n = final l1 None.
Proof. intros (_ & Hs & _). apply seg_app in Hs as [_ [(n & Hn & Hpv & Hnx) _]]. eauto. Qed.

(** [for (p = head; p != NULL; p = p->next) if (test p) return p;] *)
Section Find.
Context (test : N -> Exec bool).

Definition find_step m (p : option Z) : Exec (option Z + option Z) :=
  match p with
  | None => Ok (inr None)
  | Some a => n <- fetch m a ;; t <- test n ;; Ok (if t then inr (Some a) else inl (link_next n))
  end.

Definition dl_find m (hd : option Z) : Exec (option Z) := iterate (S (size m)) (find_step m) hd.

Lemma find_from m (P : N -> bool) l1 l2 hd tl fuel :
  dlist m hd tl (l1 ++ l2) -> (forall p n, p ∈ l2 -> m !! p = Some n -> test n = Ok (P n)) -> (length l2 < fuel)%nat ->
  iterate fuel (find_step m) (first l2 None) =
    Ok (snd <$> list_find (fun p => P <$> m !! p = Some true) l2).
Proof.
  revert l1 fuel. induction l2 as [|p l2 IH]; intros l1 fuel Hd Ht Hf; (destruct fuel as [|fuel]; [cbn in Hf; lia|]).
  { done. }
  destruct (dlist_at m hd tl l1 p l2 Hd) as (n & Hn & Hnx & _). cbn [iterate find_step first].
  rewrite (fetch_ok _ _ _ Hn), bind_ok, (Ht p n), bind_ok, bind_ok; [|apply list_elem_of_here|done].
  cbn [list_find]. destruct (P n) eqn:HP.
  - rewrite decide_True; [done|]. by rewrite Hn; cbn; rewrite HP.
  - rewrite decide_False by (rewrite Hn; cbn; by rewrite HP). rewrite Hnx.
    rewrite (IH (l1 ++ [p])); [|by rewrite <- app_assoc| |cbn in Hf; lia].
    + by destruct (list_find _ l2) as [[i x]|].
    + intros q k Hq. apply Ht. by apply list_elem_of_further.
Qed.

Lemma dlist_length m hd tl l : dlist m hd tl l -> (length l <= size m)%nat.
Proof.
  intros (Hnd & Hs & _). rewrite <- (size_list_to_set (C := gset Z) l) by done. rewrite <- size_dom.
  apply subseteq_size. intros p Hp%elem_of_list_to_set. apply elem_of_dom. by eapply seg_in.
Qed.

(** The search returns the first node of the list that passes the test. *)
Lemma dl_find_ok m hd tl l (P : N -> bool) :
  dlist m hd tl l -> (forall p n, p ∈ l -> m !! p = Some n -> test n = Ok (P n)) ->
  dl_find m hd = Ok (snd <$> list_find (fun p => P <$> m !! p = Some true) l).
Proof.
  intros Hd Ht. unfold dl_find. pose proof (dlist_length _ _ _ _ Hd). destruct Hd as (Hnd & Hs & -> & ->).
  eapply (find_from m P [] l); [by split_and!|done|lia].
Qed.
End Find.
End DList.

Arguments content {N _} n : simpl never.
