(* ===== verification/KernelIface.v ===== *)
(** What the kernel components modelled here ask of the heap and the scheduler.

    [Kernel] is the state and the calls of the two: [Heap::alloc] and [Heap::free]
    (include/heap.h), and of the scheduler (include/scheduler.h) the running
    thread, the clock and [Scheduler::enqueue].  Making a thread ready is not a
    plain state change: the scheduler reports thread events to the event broker
    and reaps the threads that have ended, which may tear a process down, and all
    of that runs before the call returns.  A call is therefore a resumption: the
    calls into the broker in order, each with the kernel state it is made in and
    what the scheduler does with the state the broker leaves. *)
From stdpp Require Import base list gmap.
From Stdlib Require Import ZArith Lia.
From S2P Require Import Prelude KernelText.

Local Open Scope Z_scope.

(** What the broker reads of a [Thread]: [parent] is the id of the process. *)
Record Thread : Type := mkThread {
  thread_id : Z;
  thread_name : list Z;
  thread_parent : option Z;
  current_priority : Z
}.

(** Calls the scheduler makes while a thread is made ready. *)
Inductive BrokerCall : Type :=
| PublishThreadEvent (type : Z) (thread : Thread) (previous_state current_state : Z) (status : Status)
| UnsubscribeProcess (process_id : Z).

Inductive SchedRun (K : Type) : Type :=
| Finished (k : K)
| Calls (c : BrokerCall) (k : K) (resume : K -> SchedRun K).
Arguments Finished {K} k.
Arguments Calls {K} c k resume.

Class Kernel : Type := {
  KState : Type;
  heap_alloc : Z -> Z -> KState -> option Z * KState;
  heap_free : Z -> KState -> KState;
  heap_live : KState -> gset Z;
  sched_current : KState -> option Z;
  sched_current_process : KState -> option Z;
  sched_current_thread_id : KState -> option Z;
  thread_running : Z -> KState -> bool;
  tick_count : KState -> Z;
  clear_wait : Z -> KState -> KState;
  sched_enqueue : Z -> KState -> SchedRun KState
}.

(** A run that only reports thread events, and leaves the heap as it found it. *)
Fixpoint quiet `{Kernel} (calm : KState -> Prop) (r : SchedRun KState) (live : gset Z) : Prop :=
  match r with
  | Finished k => calm k /\ heap_live k = live
  | Calls c k resume =>
      match c with PublishThreadEvent _ t _ _ _ => terminated (thread_name t) | UnsubscribeProcess _ => False end /\
      calm k /\ heap_live k = live /\ forall k', calm k' -> quiet calm (resume k') (heap_live k')
  end.

(** The heap hands out addresses that are not in use and takes back those it
    handed out.  [calm] are the states with no ended thread left to reap. *)
Class KernelLaws `{Kernel} : Type := {
  calm : KState -> Prop;
  alloc_fresh n a k p k' : heap_alloc n a k = (Some p, k') -> p ∉ heap_live k /\ heap_live k' = {[p]} ∪ heap_live k;
  alloc_fails n a k k' : heap_alloc n a k = (None, k') -> heap_live k' = heap_live k;
  free_live p k : p ∈ heap_live k -> heap_live (heap_free p k) = heap_live k ∖ {[p]};
  clear_wait_live w k : heap_live (clear_wait w k) = heap_live k;
  alloc_calm n a k : calm k -> calm (snd (heap_alloc n a k));
  free_calm p k : calm k -> calm (heap_free p k);
  clear_wait_calm w k : calm k -> calm (clear_wait w k);
  enqueue_quiet w k : calm k -> quiet calm (sched_enqueue w k) (heap_live k)
}.

(** The live blocks are [others] and [owned], without repetition. *)
Definition accounts `{Kernel} (k : KState) (others owned : list Z) : Prop :=
  elements (heap_live k) ≡ₚ others ++ owned.

Section Accounts.
Context `{KernelLaws}.

Lemma accounts_live k others owned p : accounts k others owned -> p ∈ owned -> p ∈ heap_live k.
Proof. unfold accounts. intros Ha Hp. apply elem_of_elements. rewrite Ha. set_solver. Qed.

Lemma accounts_nodup k others owned : accounts k others owned -> NoDup owned.
Proof. unfold accounts. intros Ha. pose proof (NoDup_elements (heap_live k)) as Hn. rewrite Ha in Hn. by apply list.NoDup_app in Hn as (_ & _ & ?). Qed.

Lemma accounts_same k k' others owned : heap_live k' = heap_live k -> accounts k others owned -> accounts k' others owned.
Proof. unfold accounts. by intros ->. Qed.

Lemma accounts_perm k others owned owned' : owned ≡ₚ owned' -> accounts k others owned -> accounts k others owned'.
Proof. unfold accounts. by intros ->. Qed.

Lemma accounts_alloc n a k p k' others owned :
  heap_alloc n a k = (Some p, k') -> accounts k others owned -> accounts k' others (p :: owned) /\ p ∉ owned /\ p ∉ others.
Proof.
  intros Hall Ha. destruct (alloc_fresh _ _ _ _ _ Hall) as [Hp Hk]. unfold accounts in *. split.
  - rewrite Hk, elements_union_singleton by done. rewrite Ha. by rewrite Permutation_middle.
  - rewrite <- elem_of_elements, Ha in Hp. set_solver.
Qed.

Lemma accounts_free k p others owned : accounts k others (p :: owned) -> accounts (heap_free p k) others owned.
Proof.
  intros Ha. assert (p ∈ heap_live k) as Hp by (eapply accounts_live; [done|apply list_elem_of_here]).
  unfold accounts in *. rewrite free_live by done. apply (Permutation_cons_inv (a := p)).
  rewrite <- (elements_union_singleton (heap_live k ∖ {[p]}) p) by set_solver.
  rewrite <- union_difference_singleton_L by done. rewrite Ha. by rewrite Permutation_middle.
Qed.

(** A block handed to the rest of the kernel, and taken from it. *)
Lemma accounts_give k p others owned : accounts k others (p :: owned) <-> accounts k (p :: others) owned.
Proof. unfold accounts. cbn. by rewrite Permutation_middle. Qed.

Lemma accounts_free_other k p others owned : accounts k (p :: others) owned -> accounts (heap_free p k) others owned.
Proof. intros Ha. by apply accounts_free, accounts_give. Qed.
End Accounts.
