(* ===== verification/KernelToy.v ===== *)
(** A small concrete kernel, an instance of the interface [Kernel]: a heap with a
    bump allocator, and a scheduler that reports each thread it makes ready and,
    where the last thread of a process has ended, tears the process down first. *)
From stdpp Require Import base list gmap.
From Stdlib Require Import ZArith Lia.
From S2P Require Import Prelude KernelText KernelIface.

Local Open Scope Z_scope.

(** [t_retired]: processes whose last thread has ended and waits to be reaped. *)
Record Toy : Type := mkToy {
  t_live : gset Z;
  t_next : Z;
  t_current : option Z;
  t_retired : list Z
}.

Definition toy_thread (w : Z) : Thread := mkThread w [116; 0] (Some 1) 16.
Definition KernelEventTypeThreadReady : Z := 18.

(** Reaping comes first, then the report of the new state (waiting to ready). *)
Definition toy_enqueue (w : Z) (k : Toy) : SchedRun Toy :=
  let report k := Calls (PublishThreadEvent KernelEventTypeThreadReady (toy_thread w) 3 1 StatusOK) k Finished in
  match t_retired k with
  | [] => report k
  | pid :: _ => Calls (UnsubscribeProcess pid) (mkToy (t_live k) (t_next k) (t_current k) []) report
  end.

#[export] Instance toy_kernel : Kernel := {
  KState := Toy;
  heap_alloc n a k :=
    if decide (t_next k ∈ t_live k) then (None, k)
    else (Some (t_next k), mkToy ({[t_next k]} ∪ t_live k) (t_next k + n) (t_current k) (t_retired k));
  heap_free p k := mkToy (t_live k ∖ {[p]}) (t_next k) (t_current k) (t_retired k);
  heap_live := t_live;
  sched_current := t_current;
  sched_current_process k := Some 1;
  sched_current_thread_id := t_current;
  thread_running t k := bool_decide (t_current k = Some t);
  tick_count k := 50;
  clear_wait w k := k;
  sched_enqueue := toy_enqueue
}.

#[export] Instance toy_laws : KernelLaws (H := toy_kernel).
Proof.
  refine (Build_KernelLaws toy_kernel (fun k : Toy => t_retired k = []) _ _ _ _ _ _ _ _); try done.
  - cbn. intros n a k p k'. case_decide; [done|]. intros [= <- <-]. done.
  - cbn. intros n a k k'. case_decide; [|done]. by intros [= <-].
  - cbn. intros n a k Hk. by case_decide.
  - cbn. unfold toy_enqueue. intros w k Hk. rewrite Hk. cbn. split; [unfold terminated; set_solver|]. done.
Defined.

Definition toy (current : option Z) (retired : list Z) : Toy := mkToy ∅ 4096 current retired.
