(* ===== verification/KernelEvent.v ===== *)
(** The kernel event broker (kernel/kernel_event.cpp, include/kernel_event.h):
    subscriptions with filters, each with a ring buffer of event records that
    grows on demand, and publication to every subscription that matches.

    An [EventSubscriber*] is the address of a record in [subscribers], the store of
    the live ones; NULL is [None].  A buffer belongs to one subscriber and is kept
    in its [queue] field with its address; a slot that was never written holds
    [None], and reading a record from it is undefined.  The file-scope variables
    are the fields of [Broker], next to the state of the heap and the scheduler.
    Internal functions take objects where the code takes pointers that its callers
    never pass as NULL; the public calls keep their NULL checks.

    Waking a waiting thread calls the scheduler, which calls the broker back.  The
    operations are parametrised by the function that wakes the waiter, and
    [wake_waiter] ties the knot: its argument bounds how deep the calls nest. *)
From stdpp Require Import base list gmap.
From Stdlib Require Import ZArith Lia.
From S2P Require Import Prelude KernelText DList KernelIface.

Local Open Scope Z_scope.

(** ** Constants *)
Definition KERNEL_EVENT_ABI_VERSION : Z := 1.
Definition KERNEL_EVENT_QUEUE_INITIAL_CAPACITY : Z := 16.
Definition KERNEL_EVENT_QUEUE_MAX_CAPACITY : Z := 1024.
Definition KERNEL_EVENT_NAME_CAPACITY : Z := 64.
Definition KERNEL_EVENT_PATH_CAPACITY : Z := 160.

Definition KERNEL_EVENT_FAMILY_NONE : Z := 0.
Definition KERNEL_EVENT_FAMILY_PROCESS : Z := Z.shiftl 1 0.
Definition KERNEL_EVENT_FAMILY_THREAD : Z := Z.shiftl 1 1.
Definition KERNEL_EVENT_FAMILY_FILESYSTEM : Z := Z.shiftl 1 2.
Definition KERNEL_EVENT_FAMILY_REGISTRATION : Z := Z.shiftl 1 3.
Definition KERNEL_EVENT_FAMILY_MODULE : Z := Z.shiftl 1 4.
Definition KERNEL_EVENT_FAMILY_ALL : Z :=
  Z.lor (Z.lor (Z.lor (Z.lor KERNEL_EVENT_FAMILY_PROCESS KERNEL_EVENT_FAMILY_THREAD)
    KERNEL_EVENT_FAMILY_FILESYSTEM) KERNEL_EVENT_FAMILY_REGISTRATION) KERNEL_EVENT_FAMILY_MODULE.

(** The values of [KernelEventType] the broker itself tells apart. *)
Definition KernelEventTypeDeviceRegistered : Z := 48.
Definition KernelEventTypeDriverRegistered : Z := 49.
Definition KernelEventTypeFilesystemDriverRegistered : Z := 50.

Definition KernelEventRegistrationKindNone : Z := 0.
Definition KernelEventRegistrationKindDevice : Z := 1.
Definition KernelEventRegistrationKindDriver : Z := 2.
Definition KernelEventRegistrationKindFilesystemDriver : Z := 3.

(** [sizeof] of the two structures, and their common alignment. *)
Definition record_bytes : Z := 320.
Definition subscriber_bytes : Z := 344.
Definition record_align : Z := 8.

(** [KernelTime::ticks_to_milliseconds]. *)
Definition TickMicroseconds : Z := 100.
Definition MicrosecondsPerMillisecond : Z := 1000.
Definition ticks_to_milliseconds (ticks : Z) : Z := u64 (ticks * TickMicroseconds) / MicrosecondsPerMillisecond.

(** ** Data *)
Inductive KernelEventPayload : Type :=
| PayloadZero
| PayloadProcess (parent_process_id exit_code process_state process_flags : Z)
| PayloadThread (parent_process_id previous_state current_state priority : Z)
| PayloadFilesystem (node_type size_bytes : Z)
| PayloadRegistration (registration_kind : Z).

Record KernelEventRecord : Type := mkRecord {
  version : Z;
  rsize : Z;
  sequence : Z;
  uptime_msec : Z;
  family : Z;
  type : Z;
  status : Z;
  source_process_id : Z;
  source_thread_id : Z;
  source_object_id : Z;
  name : list Z;
  path : list Z;
  payload : KernelEventPayload
}.

Record KernelEventSubscriptionRequest : Type := mkRequest {
  req_version : Z;
  req_flags : Z;
  family_mask : Z;
  req_process_id : Z;
  req_thread_id : Z;
  name_prefix : list Z;
  path_prefix : list Z
}.

Record KernelEventSubscriptionInfo : Type := mkInfo {
  info_version : Z;
  info_subscription_id : Z;
  info_owner_process_id : Z;
  info_family_mask : Z;
  info_process_id : Z;
  info_thread_id : Z;
  info_queued_count : Z;
  info_capacity : Z;
  info_next_sequence : Z;
  info_newest_sequence : Z;
  info_dropped_count : Z;
  info_name_prefix : list Z;
  info_path_prefix : list Z
}.

(** The block a [queue] pointer points to. *)
Record QueueBlock : Type := mkBlock {
  block_address : Z;
  slots : list (option KernelEventRecord)
}.

Record EventSubscriber : Type := mkSubscriber {
  subscription_id : Z;
  owner_process_id : Z;
  request : KernelEventSubscriptionRequest;
  queue : option QueueBlock;
  queue_capacity : Z;
  read_index : Z;
  write_index : Z;
  queued_count : Z;
  dropped_count : Z;
  newest_sequence : Z;
  waiting_thread : option Z;
  next : option Z;
  prev : option Z
}.

Definition with_next (v : option Z) (s : EventSubscriber) : EventSubscriber :=
  let 'mkSubscriber i o r q c ri wi n d ns w _ p := s in mkSubscriber i o r q c ri wi n d ns w v p.
Definition with_prev (v : option Z) (s : EventSubscriber) : EventSubscriber :=
  let 'mkSubscriber i o r q c ri wi n d ns w x _ := s in mkSubscriber i o r q c ri wi n d ns w x v.
Definition with_waiter (v : option Z) (s : EventSubscriber) : EventSubscriber :=
  let 'mkSubscriber i o r q c ri wi n d ns _ x p := s in mkSubscriber i o r q c ri wi n d ns v x p.
Definition with_dropped (v : Z) (s : EventSubscriber) : EventSubscriber :=
  let 'mkSubscriber i o r q c ri wi n _ ns w x p := s in mkSubscriber i o r q c ri wi n v ns w x p.
Definition with_newest (v : Z) (s : EventSubscriber) : EventSubscriber :=
  let 'mkSubscriber i o r q c ri wi n d _ w x p := s in mkSubscriber i o r q c ri wi n d v w x p.
(** The fields of the ring buffer. *)
Definition with_ring (q : option QueueBlock) (c ri wi n : Z) (s : EventSubscriber) : EventSubscriber :=
  let 'mkSubscriber i o r _ _ _ _ _ d ns w x p := s in mkSubscriber i o r q c ri wi n d ns w x p.

#[export] Instance subscriber_linked : Linked EventSubscriber :=
  { link_next := next; link_prev := prev; set_next := with_next; set_prev := with_prev }.

#[export] Instance subscriber_linked_laws : LinkedLaws EventSubscriber.
Proof. split; by intros; destruct n. Qed.

Definition zero_text (n : Z) : list Z := replicate (Z.to_nat n) 0.
Definition zero_record : KernelEventRecord :=
  mkRecord 0 0 0 0 0 0 0 0 0 0 (zero_text KERNEL_EVENT_NAME_CAPACITY) (zero_text KERNEL_EVENT_PATH_CAPACITY) PayloadZero.
Definition zero_request : KernelEventSubscriptionRequest :=
  mkRequest 0 0 0 0 0 (zero_text KERNEL_EVENT_NAME_CAPACITY) (zero_text KERNEL_EVENT_PATH_CAPACITY).
Definition zero_subscriber : EventSubscriber :=
  mkSubscriber 0 0 zero_request None 0 0 0 0 0 0 None None None.

(** ** State *)
Section Broker.
Context `{Kernel}.

Record Broker : Type := mkBroker {
  kernel : KState;
  subscribers : gmap Z EventSubscriber;
  g_subscriber_head : option Z;
  g_subscriber_tail : option Z;
  g_next_subscription_id : Z;
  g_next_sequence : Z;
  interrupts : bool
}.

Definition with_kernel (k : KState) (b : Broker) : Broker :=
  let 'mkBroker _ m h t i s irq := b in mkBroker k m h t i s irq.
Definition with_list (m : gmap Z EventSubscriber) (h t : option Z) (b : Broker) : Broker :=
  let 'mkBroker k _ _ _ i s irq := b in mkBroker k m h t i s irq.
Definition with_subscribers (m : gmap Z EventSubscriber) (b : Broker) : Broker :=
  let 'mkBroker k _ h t i s irq := b in mkBroker k m h t i s irq.
Definition with_next_id (v : Z) (b : Broker) : Broker :=
  let 'mkBroker k m h t _ s irq := b in mkBroker k m h t v s irq.
Definition with_sequence (v : Z) (b : Broker) : Broker :=
  let 'mkBroker k m h t i _ irq := b in mkBroker k m h t i v irq.
Definition with_interrupts (v : bool) (b : Broker) : Broker :=
  let 'mkBroker k m h t i s _ := b in mkBroker k m h t i s v.

Definition get (b : Broker) (p : Z) : Exec EventSubscriber := fetch (subscribers b) p.
Definition set (b : Broker) (p : Z) (f : EventSubscriber -> EventSubscriber) : Exec Broker :=
  m <- assign (subscribers b) p f ;; Ok (with_subscribers m b).
Definition release_block (p : Z) (b : Broker) : Broker := with_kernel (heap_free p (kernel b)) b.

(** ** The list of subscriptions *)
Definition link_subscriber (p : Z) (b : Broker) : Exec Broker :=
  m <- assign (subscribers b) p (with_prev (g_subscriber_tail b)) ;;
  m <- assign m p (with_next None) ;;
  '(m, h) <- match g_subscriber_tail b with
             | Some t => m <- assign m t (with_next (Some p)) ;; Ok (m, g_subscriber_head b)
             | None => Ok (m, Some p)
             end ;;
  Ok (with_list m h (Some p) b).

Definition unlink_subscriber (p : Z) (b : Broker) : Exec Broker :=
  s <- get b p ;;
  '(m, h) <- match prev s with
             | Some a => m <- assign (subscribers b) a (with_next (next s)) ;; Ok (m, g_subscriber_head b)
             | None => Ok (subscribers b, next s)
             end ;;
  s <- fetch m p ;;
  '(m, t) <- match next s with
             | Some c => m <- assign m c (with_prev (prev s)) ;; Ok (m, g_subscriber_tail b)
             | None => Ok (m, prev s)
             end ;;
  m <- assign m p (with_next None) ;;
  m <- assign m p (with_prev None) ;;
  Ok (with_list m h t b).

(** [reset_subscriber] and the [Heap::free] of the record that follows it. *)
Definition reset_subscriber (p : Z) (b : Broker) : Exec Broker :=
  s <- get b p ;;
  let b := match queue s with Some q => release_block (block_address q) b | None => b end in
  set b p (fun _ => zero_subscriber).

Definition free_subscriber (p : Z) (b : Broker) : Broker :=
  release_block p (with_subscribers (delete p (subscribers b)) b).

Definition find_subscription (owner id : Z) (b : Broker) : Exec (option Z) :=
  dl_find (fun s => Ok ((subscription_id s =? id) && (owner_process_id s =? owner))) (subscribers b) (g_subscriber_head b).

(** ** The ring buffer *)

(** [a % b] on unsigned operands. *)
Definition umod (a b : Z) : Exec Z := if b =? 0 then Undef else Ok (a mod b).

Definition slots_of (s : EventSubscriber) : list (option KernelEventRecord) :=
  match queue s with Some q => slots q | None => [] end.

(** The loop that doubles the capacity. *)
Definition grow_capacity (target : Z) (grown : Z) : Exec (Z + Z) :=
  if negb (grown <? target) then Ok (inr grown) else
  if 0xFFFFFFFF / 2 <? grown then Ok (inr target) else
  let grown := u32 (grown * 2) in
  Ok (inl (if KERNEL_EVENT_QUEUE_MAX_CAPACITY <? grown then KERNEL_EVENT_QUEUE_MAX_CAPACITY else grown)).

(** The loop that unrolls the old buffer into the new one. *)
Definition unroll (s : EventSubscriber) (fresh : list (option KernelEventRecord)) : Exec (list (option KernelEventRecord)) :=
  for_range (Z.to_nat (queued_count s)) 0
    (fun index fresh =>
       k <- umod (u32 (read_index s + index)) (queue_capacity s) ;;
       x <- aget (slots_of s) k ;;
       aset fresh index x) fresh.

Definition reserve_queue_capacity (p : Z) (required : Z) (b : Broker) : Exec (Broker * Status) :=
  s <- get b p ;;
  if required <=? queue_capacity s then Ok (b, StatusOK) else
  let target := if KERNEL_EVENT_QUEUE_MAX_CAPACITY <? required then KERNEL_EVENT_QUEUE_MAX_CAPACITY else required in
  if target <=? queue_capacity s then Ok (b, StatusNoSpace) else
  grown <- iterate 33 (grow_capacity target)
             (if queue_capacity s =? 0 then KERNEL_EVENT_QUEUE_INITIAL_CAPACITY else queue_capacity s) ;;
  let '(block, k) := heap_alloc (u64 (record_bytes * grown)) record_align (kernel b) in
  let b := with_kernel k b in
  match block with
  | None => Ok (b, StatusNoMemory)
  | Some a =>
      fresh <- unroll s (replicate (Z.to_nat grown) None) ;;
      let b := match queue s with Some q => release_block (block_address q) b | None => b end in
      b <- set b p (fun s => with_ring (Some (mkBlock a fresh)) grown 0 (queued_count s) (queued_count s) s) ;;
      Ok (b, StatusOK)
  end.

(** ** Matching *)
Definition subscription_matches (s : EventSubscriber) (r : KernelEventRecord) : Exec bool :=
  let q := request s in
  if Z.land (family r) (family_mask q) =? 0 then Ok false else
  if negb (req_process_id q =? 0) && negb (source_process_id r =? req_process_id q) then Ok false else
  if negb (req_thread_id q =? 0) && negb (source_thread_id r =? req_thread_id q) then Ok false else
  n <- text_has_prefix (name r) (name_prefix q) ;;
  if negb n then Ok false else
  p <- text_has_prefix (path r) (path_prefix q) ;;
  if negb p then Ok false else Ok true.

Definition initialize_record : KernelEventRecord :=
  let 'mkRecord _ _ sq up f t st sp sth so n p pl := zero_record in
  mkRecord KERNEL_EVENT_ABI_VERSION record_bytes sq up f t st sp sth so n p pl.

(** The fields [publish_record] fills in. *)
Definition stamp (seq up : Z) (r : KernelEventRecord) : KernelEventRecord :=
  let 'mkRecord _ _ _ _ f t st sp sth so n p pl := r in
  mkRecord KERNEL_EVENT_ABI_VERSION record_bytes seq up f t st sp sth so n p pl.

Definition registration_kind_for_type (type : Z) : Z :=
  if type =? KernelEventTypeDeviceRegistered then KernelEventRegistrationKindDevice
  else if type =? KernelEventTypeDriverRegistered then KernelEventRegistrationKindDriver
  else if type =? KernelEventTypeFilesystemDriverRegistered then KernelEventRegistrationKindFilesystemDriver
  else KernelEventRegistrationKindNone.

(** ** Operations that may wake a thread *)
Section Waking.
Context (wake : Z -> Broker -> Exec Broker).

(** The last four statements of [enqueue_record] before the wake-up: the record
    goes into the slot at [write_index]. *)
Definition store_record (p : Z) (r : KernelEventRecord) (b : Broker) : Exec Broker :=
  s <- get b p ;;
  ring <- aset (slots_of s) (write_index s) (Some r) ;;
  w <- umod (u32 (write_index s + 1)) (queue_capacity s) ;;
  set b p (fun s =>
    with_newest (sequence r)
      (with_ring (option_map (fun q => mkBlock (block_address q) ring) (queue s)) (queue_capacity s) (read_index s) w
         (u32 (queued_count s + 1)) s)).

Definition count_drop (s : EventSubscriber) : EventSubscriber := with_dropped (u64 (dropped_count s + 1)) s.

Definition enqueue_record (p : Z) (r : KernelEventRecord) (b : Broker) : Exec Broker :=
  s <- get b p ;;
  '(b, st) <- reserve_queue_capacity p (u32 (queued_count s + 1)) b ;;
  s <- get b p ;;
  if negb (st =? StatusOK) && (queue_capacity s =? 0) then set b p count_drop else
  b <- (if (st =? StatusNoSpace) && negb (queue_capacity s =? 0) then set b p count_drop else Ok b) ;;
  s <- get b p ;;
  b <- (if queued_count s =? queue_capacity s then
          i <- umod (u32 (read_index s + 1)) (queue_capacity s) ;;
          b <- set b p (fun s => with_ring (queue s) (queue_capacity s) i (write_index s) (u32 (queued_count s - 1)) s) ;;
          if negb (st =? StatusNoSpace) then set b p count_drop else Ok b
        else Ok b) ;;
  b <- store_record p r b ;;
  wake p b.

(** One turn of the loop over the subscriptions. *)
Definition publish_step (r : KernelEventRecord) (st : option Z * Broker) : Exec ((option Z * Broker) + Broker) :=
  let '(p, b) := st in
  match p with
  | None => Ok (inr b)
  | Some p =>
      s <- get b p ;;
      m <- subscription_matches s r ;;
      b <- (if m : bool then enqueue_record p r b else Ok b) ;;
      s <- get b p ;;
      Ok (inl (next s, b))
  end.

Definition publish_record (r : KernelEventRecord) (b : Broker) : Exec Broker :=
  let b := with_sequence (u64 (g_next_sequence b + 1)) b in
  let r := stamp (g_next_sequence b) (ticks_to_milliseconds (tick_count (kernel b))) r in
  iterate (S (size (subscribers b))) (publish_step r) (g_subscriber_head b, b).

Definition destroy_subscriber (p : Z) (b : Broker) : Exec Broker :=
  b <- wake p b ;;
  b <- unlink_subscriber p b ;;
  b <- reset_subscriber p b ;;
  Ok (free_subscriber p b).

Definition unsubscribe_step (owner : Z) (st : option Z * Broker) : Exec ((option Z * Broker) + Broker) :=
  let '(p, b) := st in
  match p with
  | None => Ok (inr b)
  | Some p =>
      s <- get b p ;;
      let next_subscriber := next s in
      b <- (if owner_process_id s =? owner then destroy_subscriber p b else Ok b) ;;
      Ok (inl (next_subscriber, b))
  end.

Definition unsubscribe_process (owner : Z) (b : Broker) : Exec Broker :=
  iterate (S (size (subscribers b))) (unsubscribe_step owner) (g_subscriber_head b, b).

Definition publish_thread_event (type : Z) (thread : Thread) (previous_state current_state : Z) (st : Status) (b : Broker) : Exec Broker :=
  let parent := match thread_parent thread with Some id => id | None => 0 end in
  name <- copy_text (name initialize_record) KERNEL_EVENT_NAME_CAPACITY (Some (thread_name thread)) ;;
  publish_record (mkRecord (version initialize_record) (rsize initialize_record) 0 0 KERNEL_EVENT_FAMILY_THREAD type st
    parent (thread_id thread) (thread_id thread) name (path initialize_record)
    (PayloadThread parent previous_state current_state (current_priority thread))) b.

Definition broker_call (c : BrokerCall) (b : Broker) : Exec Broker :=
  match c with
  | PublishThreadEvent ty t ps cs st => publish_thread_event ty t ps cs st b
  | UnsubscribeProcess pid => unsubscribe_process pid b
  end.

(** What the scheduler does until its call returns. *)
Fixpoint run_scheduler (r : SchedRun KState) (b : Broker) : Exec Broker :=
  match r with
  | Finished k => Ok (with_kernel k b)
  | Calls c k resume => b <- broker_call c (with_kernel k b) ;; run_scheduler (resume (kernel b)) b
  end.
End Waking.

Fixpoint wake_waiter (depth : nat) (p : Z) (b : Broker) : Exec Broker :=
  s <- get b p ;;
  match waiting_thread s with
  | None => Ok b
  | Some w =>
      match depth with
      | O => NoFuel
      | S depth =>
          b <- set b p (with_waiter None) ;;
          let b := with_kernel (clear_wait w (kernel b)) b in
          run_scheduler (wake_waiter depth) (sched_enqueue w (kernel b)) b
      end
  end.

(** Calls nest at most as deep as there are subscriptions. *)
Definition wake_any (p : Z) (b : Broker) : Exec Broker := wake_waiter (size (subscribers b)) p b.

(** ** The calls of [KernelEventBroker]

    An argument that only receives a result is a flag that says whether the
    pointer is not NULL; what is written through it is returned. *)
Definition init_step (b : Broker) : Exec (Broker + Broker) :=
  match g_subscriber_head b with
  | Some p => b <- destroy_subscriber wake_any p b ;; Ok (inl b)
  | None => Ok (inr b)
  end.

Definition init (b : Broker) : Exec (Broker * Status) :=
  b <- iterate (S (size (subscribers b))) init_step b ;;
  Ok (with_sequence 0 (with_next_id 1 b), StatusOK).

(** The request is copied and its texts are cut at the end of their arrays. *)
Definition cut_text (capacity : Z) (l : list Z) : Exec (list Z) := aset l (capacity - 1) 0.

Definition subscribe (owner : Z) (req : option KernelEventSubscriptionRequest) (out_id : bool) (b : Broker)
  : Exec (Broker * Status * option Z) :=
  match (if out_id then req else None) with
  | None => Ok (b, StatusInvalidArgument, None)
  | Some q =>
      if negb (req_version q =? KERNEL_EVENT_ABI_VERSION) then Ok (b, StatusInvalidArgument, None) else
      if negb (req_flags q =? 0) then Ok (b, StatusNotSupported, None) else
      if (family_mask q =? KERNEL_EVENT_FAMILY_NONE)
         || negb (Z.land (family_mask q) (Z.lxor KERNEL_EVENT_FAMILY_ALL (2 ^ 64 - 1)) =? 0)
      then Ok (b, StatusInvalidArgument, None) else
      let '(block, k) := heap_alloc subscriber_bytes record_align (kernel b) in
      let b := with_kernel k b in
      match block with
      | None => Ok (b, StatusNoMemory, None)
      | Some p =>
          let id := g_next_subscription_id b in
          let b := with_next_id (u64 (id + 1)) b in
          np <- cut_text KERNEL_EVENT_NAME_CAPACITY (name_prefix q) ;;
          pp <- cut_text KERNEL_EVENT_PATH_CAPACITY (path_prefix q) ;;
          let q := mkRequest (req_version q) (req_flags q) (family_mask q) (req_process_id q) (req_thread_id q) np pp in
          let s := mkSubscriber id owner q None 0 0 0 0 0 0 None None None in
          let b := with_subscribers (<[p := s]> (subscribers b)) b in
          b <- link_subscriber p b ;;
          Ok (b, StatusOK, Some id)
      end
  end.

Definition unsubscribe (owner id : Z) (b : Broker) : Exec (Broker * Status) :=
  if id =? 0 then Ok (b, StatusInvalidArgument) else
  f <- find_subscription owner id b ;;
  match f with
  | None => Ok (b, StatusNotFound)
  | Some p => b <- destroy_subscriber wake_any p b ;; Ok (b, StatusOK)
  end.

(** [*slot], a record that was written. *)
Definition record_in (x : option KernelEventRecord) : Exec KernelEventRecord :=
  match x with Some r => Ok r | None => Undef end.

Definition query (owner id : Z) (out_info : bool) (b : Broker) : Exec (Status * option KernelEventSubscriptionInfo) :=
  if negb out_info then Ok (StatusInvalidArgument, None) else
  f <- find_subscription owner id b ;;
  match f with
  | None => Ok (StatusNotFound, None)
  | Some p =>
      s <- get b p ;;
      next_sequence <-
        (if negb (queued_count s =? 0) then
           x <- aget (slots_of s) (read_index s) ;; r <- record_in x ;; Ok (sequence r)
         else Ok (u64 (newest_sequence s + 1))) ;;
      np <- copy_text (zero_text KERNEL_EVENT_NAME_CAPACITY) KERNEL_EVENT_NAME_CAPACITY (Some (name_prefix (request s))) ;;
      pp <- copy_text (zero_text KERNEL_EVENT_PATH_CAPACITY) KERNEL_EVENT_PATH_CAPACITY (Some (path_prefix (request s))) ;;
      Ok (StatusOK, Some (mkInfo KERNEL_EVENT_ABI_VERSION (subscription_id s) (owner_process_id s)
            (family_mask (request s)) (req_process_id (request s)) (req_thread_id (request s))
            (queued_count s) (queue_capacity s) next_sequence (newest_sequence s) (dropped_count s) np pp))
  end.

(** [wait] up to the point where the thread blocks: it returns at once, or the
    thread is parked on the subscription and [block_current] is called. *)
Inductive WaitOutcome : Type :=
| Returned (s : Status)
| Parked (subscriber thread : Z) (interrupts_enabled : bool).

Definition wait (owner id : Z) (b : Broker) : Exec (Broker * WaitOutcome) :=
  let interrupts_enabled := interrupts b in
  let b := with_interrupts false b in
  f <- find_subscription owner id b ;;
  match f with
  | None => Ok (with_interrupts interrupts_enabled b, Returned StatusNotFound)
  | Some p =>
      s <- get b p ;;
      if negb (queued_count s =? 0) then Ok (with_interrupts interrupts_enabled b, Returned StatusOK) else
      match sched_current (kernel b) with
      | None => Ok (with_interrupts interrupts_enabled b, Returned StatusBusy)
      | Some t =>
          if negb (thread_running t (kernel b)) then Ok (with_interrupts interrupts_enabled b, Returned StatusBusy) else
          match waiting_thread s with
          | Some w =>
              if negb (w =? t) then Ok (with_interrupts interrupts_enabled b, Returned StatusBusy)
              else b <- set b p (with_waiter (Some t)) ;; Ok (b, Parked p t interrupts_enabled)
          | None => b <- set b p (with_waiter (Some t)) ;; Ok (b, Parked p t interrupts_enabled)
          end
      end
  end.

(** [wait] after [block_current] has returned [st]. *)
Definition wait_resume (p t : Z) (interrupts_enabled : bool) (st : Status) (b : Broker) : Exec (Broker * Status) :=
  s <- get b p ;;
  b <- (if bool_decide (waiting_thread s = Some t) then set b p (with_waiter None) else Ok b) ;;
  Ok (with_interrupts interrupts_enabled b, st).

(** One turn of the loop of [read]. *)
Definition read_step (p index : Z) (st : list KernelEventRecord * Broker) : Exec (list KernelEventRecord * Broker) :=
  let '(out, b) := st in
  s <- get b p ;;
  x <- aget (slots_of s) (read_index s) ;;
  r <- record_in x ;;
  out <- aset out index r ;;
  i <- umod (u32 (read_index s + 1)) (queue_capacity s) ;;
  b <- set b p (fun s => with_ring (queue s) (queue_capacity s) i (write_index s) (u32 (queued_count s - 1)) s) ;;
  Ok (out, b).

(** [out_records] is NULL or the caller's array. *)
Definition read (owner id : Z) (out_records : option (list KernelEventRecord)) (capacity : Z) (out_count : bool) (b : Broker)
  : Exec (Broker * Status * option (list KernelEventRecord) * Z) :=
  if negb out_count then Ok (b, StatusInvalidArgument, out_records, 0) else
  if negb (capacity =? 0) && bool_decide (out_records = None) then Ok (b, StatusInvalidArgument, out_records, 0) else
  f <- find_subscription owner id b ;;
  match f with
  | None => Ok (b, StatusNotFound, out_records, 0)
  | Some p =>
      s <- get b p ;;
      let count := if capacity <? queued_count s then capacity else queued_count s in
      '(out, b) <- for_range (Z.to_nat count) 0 (read_step p) (default [] out_records, b) ;;
      Ok (b, StatusOK, option_map (fun _ => out) out_records, count)
  end.

Definition publish_process_event (type process_id : Z) (process_name image_path : option (list Z))
    (parent_process_id exit_code process_state process_flags : Z) (st : Status) (b : Broker) : Exec Broker :=
  n <- copy_text (name initialize_record) KERNEL_EVENT_NAME_CAPACITY process_name ;;
  p <- copy_text (path initialize_record) KERNEL_EVENT_PATH_CAPACITY image_path ;;
  publish_record wake_any (mkRecord (version initialize_record) (rsize initialize_record) 0 0 KERNEL_EVENT_FAMILY_PROCESS type st
    process_id 0 process_id n p (PayloadProcess parent_process_id exit_code process_state process_flags)) b.

Definition current_process_id (b : Broker) : Z := default 0 (sched_current_process (kernel b)).
Definition current_thread_id (b : Broker) : Z := default 0 (sched_current_thread_id (kernel b)).

Definition publish_vfs_event (type : Z) (path : option (list Z)) (node_type : Z) (st : Status) (b : Broker) : Exec Broker :=
  p <- copy_text (KernelEvent.path initialize_record) KERNEL_EVENT_PATH_CAPACITY path ;;
  publish_record wake_any (mkRecord (version initialize_record) (rsize initialize_record) 0 0 KERNEL_EVENT_FAMILY_FILESYSTEM type st
    (current_process_id b) (current_thread_id b) 0 (KernelEvent.name initialize_record) p (PayloadFilesystem node_type 0)) b.

Definition publish_registration_event (type : Z) (name : option (list Z)) (st : Status) (b : Broker) : Exec Broker :=
  n <- copy_text (KernelEvent.name initialize_record) KERNEL_EVENT_NAME_CAPACITY name ;;
  publish_record wake_any (mkRecord (version initialize_record) (rsize initialize_record) 0 0 KERNEL_EVENT_FAMILY_REGISTRATION type st
    (current_process_id b) (current_thread_id b) 0 n (KernelEvent.path initialize_record)
    (PayloadRegistration (registration_kind_for_type type))) b.
End Broker.
