(* ===== verification/KernelEventRing.v ===== *)
(** The ring buffers of the event broker: the circular buffer of a subscriber as
    the list of the records it holds. *)
From stdpp Require Import base list gmap.
From Stdlib Require Import ZArith Lia.
From S2P Require Import Prelude KernelText DList KernelIface KernelEvent.

Local Open Scope Z_scope.

(** ** The ring buffer *)
Lemma mod_inj c x y : 0 < c -> 0 <= x - y < c -> x mod c = y mod c -> x = y.
Proof.
  intros Hc Hxy Hm. pose proof (Z.div_mod x c). pose proof (Z.div_mod y c).
  assert (x - y = c * (x / c - y / c)) by lia. assert (x / c - y / c = 0) by nia. lia.
Qed.

(** [read_index]-relative position [i]. *)
Definition slot_at (s : EventSubscriber) (i : Z) : Z := (read_index s + i) mod queue_capacity s.

Record ring_full (s : EventSubscriber) (evs : list KernelEventRecord) : Prop := {
  rf_block : exists q, queue s = Some q;
  rf_len : len (slots_of s) = queue_capacity s;
  rf_cap : KERNEL_EVENT_QUEUE_INITIAL_CAPACITY <= queue_capacity s <= KERNEL_EVENT_QUEUE_MAX_CAPACITY;
  rf_read : 0 <= read_index s < queue_capacity s;
  rf_count : len evs <= queue_capacity s;
  rf_write : write_index s = slot_at s (len evs);
  rf_slots : forall i r, evs !! i = Some r -> slots_of s !! Z.to_nat (slot_at s (Z.of_nat i)) = Some (Some r) }.

Definition ring_empty (s : EventSubscriber) (evs : list KernelEventRecord) : Prop :=
  queue s = None /\ queue_capacity s = 0 /\ evs = [].

(** The buffer of [s] holds [evs], oldest first. *)
Definition ring (s : EventSubscriber) (evs : list KernelEventRecord) : Prop :=
  queued_count s = len evs /\ (ring_empty s evs \/ ring_full s evs).

Definition caps : KERNEL_EVENT_QUEUE_INITIAL_CAPACITY = 16 /\ KERNEL_EVENT_QUEUE_MAX_CAPACITY = 1024 := conj eq_refl eq_refl.

Lemma slot_range s i : 0 < queue_capacity s -> 0 <= slot_at s i < queue_capacity s.
Proof. intros. apply Z.mod_pos_bound. lia. Qed.

Lemma ring_pos s evs : ring_full s evs -> 0 < queue_capacity s.
Proof. intros Hr. pose proof (rf_cap _ _ Hr). pose proof caps. lia. Qed.

(** The subscriber after a record is stored and after one is taken. *)
Definition pushed (r : KernelEventRecord) (s : EventSubscriber) : EventSubscriber :=
  with_ring (option_map (fun q => mkBlock (block_address q) (<[Z.to_nat (write_index s) := Some r]> (slots q))) (queue s))
    (queue_capacity s) (read_index s) ((write_index s + 1) mod queue_capacity s) (queued_count s + 1) s.

Definition popped (s : EventSubscriber) : EventSubscriber :=
  with_ring (queue s) (queue_capacity s) ((read_index s + 1) mod queue_capacity s) (write_index s) (queued_count s - 1) s.

Lemma ring_push r s evs :
  queued_count s = len evs -> ring_full s evs -> len evs < queue_capacity s ->
  0 <= write_index s < len (slots_of s) /\ ring (pushed r s) (evs ++ [r]).
Proof.
  intros Hn Hr Hlt. pose proof (ring_pos _ _ Hr) as Hpos. destruct Hr as [[q Hq] Hl Hcap Hrd _ Hw Hs].
  pose proof (slot_range s (len evs) Hpos) as Hwr. rewrite <- Hw in Hwr. split; [lia|].
  split; [destruct s; cbn in *; rewrite length_app; cbn; lia|]. right.
  assert (slots_of (pushed r s) = <[Z.to_nat (write_index s) := Some r]> (slots_of s)) as Hsl.
  { unfold slots_of, pushed. destruct s; cbn in *. by rewrite Hq. }
  assert (forall i, slot_at (pushed r s) i = slot_at s i) as Hat by (by destruct s).
  assert (queue_capacity (pushed r s) = queue_capacity s) as Hc by (by destruct s).
  split.
  - exists (mkBlock (block_address q) (<[Z.to_nat (write_index s) := Some r]> (slots q))). unfold pushed. destruct s; cbn in *. by rewrite Hq.
  - rewrite Hsl, length_insert. lia.
  - lia.
  - by destruct s.
  - rewrite length_app. cbn. lia.
  - rewrite Hat, length_app. unfold pushed, slot_at in *. destruct s; cbn in *. rewrite Hw, Zplus_mod_idemp_l. f_equal. lia.
  - intros i x Hi. rewrite Hsl, Hat. destruct (decide (i = length evs)) as [->|Hne].
    + rewrite lookup_app_r, Nat.sub_diag in Hi by lia. injection Hi as ->. rewrite <- Hw.
      apply list_lookup_insert_eq. lia.
    + assert (i < length evs)%nat by (apply lookup_lt_Some in Hi; rewrite length_app in Hi; cbn in Hi; lia).
      rewrite lookup_app_l in Hi by done. pose proof (slot_range s (Z.of_nat i) Hpos).
      rewrite list_lookup_insert_ne; [by apply Hs|]. rewrite Hw. intros Heq. apply Z2Nat.inj in Heq; [|rewrite <- Hw; lia|lia].
      unfold slot_at in Heq. apply mod_inj in Heq; lia.
Qed.

Lemma ring_pop e s evs :
  queued_count s = len (e :: evs) -> ring_full s (e :: evs) ->
  aget (slots_of s) (read_index s) = Ok (Some e) /\ ring_full (popped s) evs /\ queued_count (popped s) = len evs.
Proof.
  intros Hn Hr. pose proof (ring_pos _ _ Hr) as Hpos. destruct Hr as [Hq Hl Hcap Hrd Hc Hw Hs].
  assert (slot_at s 0 = read_index s) as H0 by (unfold slot_at; rewrite Z.add_0_r; apply Z.mod_small; lia).
  assert (forall i, slot_at (popped s) i = slot_at s (i + 1)) as Hat.
  { intros i. unfold slot_at, popped. destruct s; cbn in *. rewrite Zplus_mod_idemp_l. f_equal. lia. }
  split; [|split].
  - apply aget_ok; [lia|]. pose proof (Hs 0%nat e eq_refl) as He. change (Z.of_nat 0) with 0 in He. by rewrite H0 in He.
  - split.
    + by destruct s.
    + by destruct s.
    + by destruct s.
    + destruct s; cbn in *. apply Z.mod_pos_bound. lia.
    + destruct s; cbn in *. lia.
    + rewrite Hat. destruct s; cbn in *. rewrite Hw. f_equal. lia.
    + intros i r Hi. rewrite Hat. specialize (Hs (S i) r Hi). replace (Z.of_nat i + 1) with (Z.of_nat (S i)) by lia.
      by destruct s.
  - destruct s; cbn in *. lia.
Qed.

(** Copying a buffer into a larger one straightens it. *)
Lemma unroll_ok s evs (g : nat) :
  ring s evs -> (length evs <= g)%nat ->
  exists fresh, unroll s (replicate g None) = Ok fresh /\ length fresh = g /\
    forall i r, evs !! i = Some r -> fresh !! i = Some (Some r).
Proof.
  intros [Hn Hr] Hg. unfold unroll. rewrite Hn, Nat2Z.id.
  assert (wp (for_range (length evs) 0 (fun index fresh =>
       k <- umod (u32 (read_index s + index)) (queue_capacity s) ;;
       x <- aget (slots_of s) k ;; aset fresh index x) (replicate g None))
     (fun fresh => length fresh = g /\ forall i r, evs !! i = Some r -> fresh !! i = Some (Some r)) (fun _ => False)) as Hwp.
  { eapply (wp_for_range _ _ _ _ (fun k fresh => length fresh = g /\
      forall i r, Z.of_nat i < k -> evs !! i = Some r -> fresh !! i = Some (Some r))).
    - split; [by rewrite length_replicate|lia].
    - intros k fresh Hk [Hl Hf]. destruct Hr as [(_ & _ & ->)|Hr]; [cbn in Hk; lia|].
      pose proof (ring_pos _ _ Hr) as Hpos. destruct Hr as [Hq Hls Hcap Hrd Hc Hw Hs]. pose proof caps.
      unfold umod. destruct (Z.eqb_spec (queue_capacity s) 0); [lia|]. rewrite bind_ok, u32_small by lia.
      destruct (lookup_lt_is_Some_2 evs (Z.to_nat k)) as [r Hkr]; [lia|].
      pose proof (Hs _ _ Hkr) as Hsk. rewrite Z2Nat.id in Hsk by lia. fold (slot_at s k).
      pose proof (slot_range s k Hpos). rewrite (aget_ok _ _ (Some r)) by (done || lia). rewrite bind_ok.
      rewrite aset_ok by lia. split; [by rewrite length_insert|].
      intros i x Hi Hx. destruct (decide (i = Z.to_nat k)) as [->|Hne].
      + rewrite list_lookup_insert_eq by lia. by simplify_eq.
      + rewrite list_lookup_insert_ne by lia. apply Hf; [lia|done].
    - intros fresh [Hl Hf]. split; [done|]. intros i r Hi. apply Hf; [|done]. apply lookup_lt_Some in Hi. lia. }
  apply wp_total in Hwp as (fresh & -> & Hl & Hf). eauto.
Qed.

Lemma ring_straight s evs a fresh g :
  16 <= g <= 1024 -> length fresh = Z.to_nat g -> len evs <= g -> queued_count s = len evs ->
  (len evs < g) ->
  (forall i r, evs !! i = Some r -> fresh !! i = Some (Some r)) ->
  ring (with_ring (Some (mkBlock a fresh)) g 0 (queued_count s) (queued_count s) s) evs.
Proof.
  intros Hg Hl Hle Hn Hlt Hf. split; [by destruct s|]. right. pose proof caps. split.
  - exists (mkBlock a fresh). by destruct s.
  - destruct s; cbn. lia.
  - destruct s; cbn in *. unfold KERNEL_EVENT_QUEUE_INITIAL_CAPACITY, KERNEL_EVENT_QUEUE_MAX_CAPACITY. lia.
  - destruct s; cbn in *. lia.
  - destruct s; cbn in *. lia.
  - unfold slot_at. destruct s; cbn in *. rewrite Z.mod_small; lia.
  - intros i r Hi. pose proof (lookup_lt_Some _ _ _ Hi). unfold slot_at. destruct s; cbn in *.
    rewrite Z.mod_small by lia. rewrite Z.add_0_l, Nat2Z.id. by apply Hf.
Qed.

(** The doubling loop, from a capacity that one doubling satisfies. *)
Lemma grow_ok target g0 :
  16 <= g0 <= 1024 -> target <= 1024 -> target <= 2 * g0 ->
  exists g, iterate 33 (grow_capacity target) g0 = Ok g /\ Z.max target g0 <= g <= 1024.
Proof.
  intros Hg Ht H2. change 33%nat with (S (S 31)). cbn [iterate]. unfold grow_capacity, KERNEL_EVENT_QUEUE_MAX_CAPACITY.
  change (0xFFFFFFFF / 2) with 2147483647.
  destruct (Z.ltb_spec g0 target); cbn [negb]; [|rewrite bind_ok; eexists; split; [done|lia]].
  destruct (Z.ltb_spec 2147483647 g0); [lia|]. rewrite bind_ok, u32_small by lia.
  destruct (Z.ltb_spec 1024 (g0 * 2)); [destruct (Z.ltb_spec 1024 target); [lia|]|
    destruct (Z.ltb_spec (g0 * 2) target); [lia|]]; cbn [negb]; rewrite bind_ok; eexists; (split; [done|lia]).
Qed.
