(* ===== verification/KernelEventProofs.v ===== *)
(** The event broker as a list of subscriptions: what the store, the links, the
    buffers and the heap hold, and each list and buffer operation on it. *)
From stdpp Require Import base list gmap.
From Stdlib Require Import ZArith Lia.
From S2P Require Import Prelude KernelText DList KernelIface KernelEvent KernelEventRing.

Local Open Scope Z_scope.

(** ** Subscriptions *)
Record Sub : Type := mkSub {
  a_id : Z;
  a_owner : Z;
  a_req : KernelEventSubscriptionRequest;
  a_events : list KernelEventRecord;
  a_cap : Z;
  a_block : option Z;
  a_dropped : Z;
  a_newest : Z;
  a_waiter : option Z
}.

Definition request_ok (q : KernelEventSubscriptionRequest) : Prop :=
  terminated (name_prefix q) /\ terminated (path_prefix q).
Definition record_ok (r : KernelEventRecord) : Prop := terminated (name r) /\ terminated (path r).

Record sub_rep (s : EventSubscriber) (a : Sub) : Prop := {
  sr_id : subscription_id s = a_id a;
  sr_owner : owner_process_id s = a_owner a;
  sr_req : request s = a_req a;
  sr_req_ok : request_ok (a_req a);
  sr_ring : ring s (a_events a);
  sr_cap : queue_capacity s = a_cap a;
  sr_block : block_address <$> queue s = a_block a;
  sr_dropped : dropped_count s = a_dropped a;
  sr_newest : newest_sequence s = a_newest a;
  sr_waiter : waiting_thread s = a_waiter a }.

Lemma sub_rep_content s s' a : content s' = content s -> sub_rep s a -> sub_rep s' a.
Proof.
  unfold content. cbn. destruct s, s'. cbn. intros [=]. subst. intros [Hi Ho Hq Hqo [Hn Hr] Hc Hb Hd Hw Ht].
  split; try done. split; [done|]. destruct Hr as [Hr|[]]; [by left|right; by split].
Qed.

(** The heap blocks of a subscription: its record and its buffer. *)
Definition blocks (x : Z * Sub) : list Z := x.1 :: option_list (a_block x.2).
Definition owned (ps : list (Z * Sub)) : list Z := flat_map blocks ps.

Lemma owned_delete ps i x : ps !! i = Some x -> owned ps ≡ₚ blocks x ++ owned (delete i ps).
Proof.
  intros Hi. unfold owned. change (blocks x ++ flat_map blocks (delete i ps)) with (flat_map blocks (x :: delete i ps)).
  apply Permutation_flat_map, delete_Permutation, Hi.
Qed.

Lemma owned_insert ps i x y : ps !! i = Some x -> owned (<[i := y]> ps) ≡ₚ blocks y ++ owned (delete i ps).
Proof.
  intros Hi. pose proof (lookup_lt_Some _ _ _ Hi). rewrite (owned_delete _ i y) by (by apply list_lookup_insert_eq).
  replace (delete i (<[i := y]> ps)) with (delete i ps); [done|].
  apply list_eq. intros j. destruct (decide (j < i)%nat).
  - rewrite !list_lookup_delete_lt by done. by rewrite list_lookup_insert_ne by lia.
  - rewrite !list_lookup_delete_ge by lia. by rewrite list_lookup_insert_ne by lia.
Qed.

Section Rep.
Context `{KernelLaws}.
Implicit Types (b : Broker) (ps : list (Z * Sub)).

Record rep (others : list Z) b ps : Prop := {
  rep_list : dlist (subscribers b) (g_subscriber_head b) (g_subscriber_tail b) (map fst ps);
  rep_dom : dom (subscribers b) = list_to_set (map fst ps);
  rep_subs : forall i p a, ps !! i = Some (p, a) -> exists s, subscribers b !! p = Some s /\ sub_rep s a;
  rep_heap : accounts (kernel b) others (owned ps);
  rep_calm : calm (kernel b);
  rep_seq : 0 <= g_next_sequence b < 2 ^ 64 }.

(** What the list operations leave alone. *)
Definition frame b b' : Prop :=
  g_next_subscription_id b' = g_next_subscription_id b /\ interrupts b' = interrupts b.

#[export] Instance frame_preorder : PreOrder frame.
Proof. split; [done|]. intros x y z [] []. split; congruence. Qed.

Lemma get_ok others b ps i p a : rep others b ps -> ps !! i = Some (p, a) -> exists s, get b p = Ok s /\ subscribers b !! p = Some s /\ sub_rep s a.
Proof. intros Hr Hi. destruct (rep_subs _ _ _ Hr i p a Hi) as (s & Hs & Ha). exists s. unfold get. by rewrite (fetch_ok _ _ _ Hs). Qed.

Lemma addr_lookup ps i p a : ps !! i = Some (p, a) -> map fst ps !! i = Some p.
Proof. intros Hi. by rewrite list_lookup_fmap, Hi. Qed.

Lemma rep_nodup others b ps : rep others b ps -> NoDup (map fst ps).
Proof. intros Hr. by destruct (rep_list _ _ _ Hr). Qed.

Lemma addr_insert ps i (p : Z) (a a' : Sub) : ps !! i = Some (p, a) -> map fst (<[i := (p, a')]> ps) = map fst ps.
Proof. intros Hi. rewrite list_fmap_insert. apply list_insert_id. by eapply addr_lookup. Qed.

(** One subscriber rewritten, its links kept, perhaps with another buffer. *)
Lemma store_rep others b ps i p a s s' a' k :
  rep others b ps -> ps !! i = Some (p, a) -> subscribers b !! p = Some s ->
  sub_rep s' a' -> next s' = next s -> prev s' = prev s ->
  accounts k others (owned (<[i := (p, a')]> ps)) -> calm k ->
  rep others (with_subscribers (<[p := s']> (subscribers b)) (with_kernel k b)) (<[i := (p, a')]> ps).
Proof.
  intros Hr Hi Hs Ha' Hln Hlp Hacc Hk. pose proof (rep_nodup _ _ _ Hr) as Hnd. destruct b. cbn in *.
  destruct Hr as [Hdl Hdom Hsub Hheap Hcalm Hseq]. cbn in *. split; cbn; try done.
  - rewrite (addr_insert _ _ _ _ _ Hi). by eapply dlist_update.
  - rewrite (addr_insert _ _ _ _ _ Hi), dom_insert_lookup_L by eauto. done.
  - intros j q c Hj. destruct (decide (j = i)) as [->|Hne].
    + rewrite list_lookup_insert_eq in Hj by (by eapply lookup_lt_Some). injection Hj as <- <-.
      exists s'. by rewrite lookup_insert, decide_True.
    + rewrite list_lookup_insert_ne in Hj by done. rewrite lookup_insert_ne; [by apply (Hsub j)|].
      intros ->. apply Hne. by eapply NoDup_lookup; [done|eapply addr_lookup..].
Qed.

(** Writing fields of one subscriber other than its links. *)
Lemma set_ok others b ps i p a f a' :
  rep others b ps -> ps !! i = Some (p, a) ->
  (forall s, subscribers b !! p = Some s -> sub_rep s a -> sub_rep (f s) a') ->
  (forall s : EventSubscriber, next (f s) = next s /\ prev (f s) = prev s) ->
  a_block a' = a_block a ->
  exists b', set b p f = Ok b' /\ rep others b' (<[i := (p, a')]> ps) /\ frame b b' /\
    g_next_sequence b' = g_next_sequence b /\ kernel b' = kernel b.
Proof.
  intros Hr Hi Hf Hl Hb. destruct (rep_subs _ _ _ Hr i p a Hi) as (s & Hs & Ha).
  unfold set. rewrite (assign_ok _ _ _ _ Hs), bind_ok. exists (with_subscribers (<[p := f s]> (subscribers b)) (with_kernel (kernel b) b)).
  split; [by destruct b|]. split; [|by destruct b]. destruct (Hl s) as [Hln Hlp]. eapply store_rep; eauto; [|by eapply rep_calm].
  eapply accounts_perm; [|by eapply rep_heap]. rewrite (owned_insert _ _ _ _ Hi), (owned_delete _ _ _ Hi).
  unfold blocks. cbn. by rewrite Hb.
Qed.

(** The state of the kernel moves on, the heap stays. *)
Lemma with_kernel_rep others b ps k :
  rep others b ps -> heap_live k = heap_live (kernel b) -> calm k -> rep others (with_kernel k b) ps.
Proof.
  intros [Hdl Hdom Hsub Hheap Hcalm Hseq] Hk Hc. destruct b. cbn in *. split; cbn; try done. by eapply accounts_same.
Qed.

(** ** The list *)
Lemma link_subscriber_eq p b :
  link_subscriber p b =
    bind (dl_append (subscribers b) (g_subscriber_head b) (g_subscriber_tail b) p) (fun '(m, h, t) => Ok (with_list m h t b)).
Proof.
  unfold link_subscriber, dl_append. cbn [set_prev set_next subscriber_linked].
  destruct (assign _ p (with_prev _)) as [m1| | |]; [|done..]. rewrite !bind_ok.
  destruct (assign m1 p _) as [m2| | |]; [|done..]. rewrite !bind_ok.
  destruct (g_subscriber_tail b) as [t|]; [|done]. by destruct (assign m2 t _).
Qed.

Lemma unlink_subscriber_eq p b :
  unlink_subscriber p b =
    bind (dl_unlink (subscribers b) (g_subscriber_head b) (g_subscriber_tail b) p) (fun '(m, h, t) =>
      m <- assign m p (with_next None) ;; m <- assign m p (with_prev None) ;; Ok (with_list m h t b)).
Proof.
  unfold unlink_subscriber, dl_unlink, get. cbn [set_prev set_next link_prev link_next subscriber_linked].
  destruct (fetch (subscribers b) p) as [s| | |]; [|done..]. rewrite !bind_ok.
  assert (forall m h,
    bind (fetch m p) (fun s => '(m, t) <- match next s with
             | Some c => m <- assign m c (with_prev (prev s)) ;; Ok (m, g_subscriber_tail b)
             | None => Ok (m, prev s) end ;;
      m <- assign m p (with_next None) ;; m <- assign m p (with_prev None) ;; Ok (with_list m h t b)) =
    bind (bind (fetch m p) (fun s => '(m, t) <- match next s with
             | Some c => m <- assign m c (with_prev (prev s)) ;; Ok (m, g_subscriber_tail b)
             | None => Ok (m, prev s) end ;; Ok (m, h, t))) (fun '(m, h, t) =>
      m <- assign m p (with_next None) ;; m <- assign m p (with_prev None) ;; Ok (with_list m h t b))) as Hrest.
  { intros m h. destruct (fetch m p) as [s'| | |]; [|done..]. rewrite !bind_ok.
    destruct (next s') as [c|]; [|done]. by destruct (assign m c _). }
  destruct (prev s) as [a|].
  - destruct (assign _ a _) as [m1| | |]; [|done..]. rewrite !bind_ok. apply Hrest.
  - rewrite !bind_ok. apply Hrest.
Qed.

Lemma link_ok others b ps p s a :
  rep others (with_subscribers (delete p (subscribers b)) b) ps ->
  subscribers b !! p = Some s -> sub_rep s a -> p ∉ map fst ps ->
  forall others', accounts (kernel b) others' (owned (ps ++ [(p, a)])) ->
  exists b', link_subscriber p b = Ok b' /\ rep others' b' (ps ++ [(p, a)]) /\ frame b b' /\ g_next_sequence b' = g_next_sequence b.
Proof.
  intros [Hdl Hdom Hsub Hheap Hcalm Hseq] Hs Ha Hp others' Hacc. destruct b as [k m h t i sq irq]. cbn in *.
  assert (dlist m h t (map fst ps)) as Hd.
  { eapply dlist_frame; [|done]. intros q Hq. rewrite lookup_delete_ne; [done|]. by intros ->. }
  destruct (dl_append_ok m h t (map fst ps) p Hd Hp) as (m' & h' & Happ & Hd' & Hr); [by eauto|].
  exists (mkBroker k m' h' (Some p) i sq irq).
  assert (map fst (ps ++ [(p, a)]) = map fst ps ++ [p]) as Hm by (by rewrite map_app).
  split.
  - rewrite link_subscriber_eq. cbn [subscribers g_subscriber_head g_subscriber_tail]. by rewrite Happ.
  - split; [|done]. split; cbn; try done.
    + by rewrite Hm.
    + rewrite Hm, (relinked_dom _ _ Hr), list_to_set_app_L, <- Hdom, dom_delete_L. cbn.
      assert (p ∈ dom m) as H1 by (apply elem_of_dom; eauto). rewrite union_empty_r_L, difference_union_L. clear -H1. set_solver.
    + intros j q c Hj. assert (exists s0, m !! q = Some s0 /\ sub_rep s0 c) as (s0 & Hs0 & Hc).
      { destruct (decide (j < length ps)%nat).
        - rewrite lookup_app_l in Hj by done. destruct (Hsub j q c Hj) as (s0 & Hs0 & Hc). exists s0. split; [|done].
          by apply lookup_delete_Some in Hs0 as [_ ?].
        - rewrite lookup_app_r in Hj by lia. apply list_lookup_singleton_Some in Hj as [_ Hj]. injection Hj as <- <-. eauto. }
      destruct (relinked_lookup _ _ _ _ Hr Hs0) as (n' & Hn' & Hcn). exists n'. split; [done|]. by eapply sub_rep_content.
Qed.

Lemma delete_map {A B} (f : A -> B) (l : list A) i : map f (delete i l) = delete i (map f l).
Proof. revert i. induction l as [|x l IH]; intros [|i]; cbn; [done..|]. by rewrite IH. Qed.

(** Unlinking, then releasing the buffer and the record. *)
Lemma unlink_release_ok others b ps i p a :
  rep others b ps -> ps !! i = Some (p, a) ->
  exists b', (b1 <- unlink_subscriber p b ;; b2 <- reset_subscriber p b1 ;; Ok (free_subscriber p b2)) = Ok b' /\
    rep others b' (delete i ps) /\ frame b b' /\ g_next_sequence b' = g_next_sequence b.
Proof.
  intros [Hdl Hdom Hsub Hheap Hcalm Hseq] Hi. destruct b as [k m h t id sq irq]. cbn in *.
  pose proof (addr_lookup _ _ _ _ Hi) as Hip. set (l := map fst ps) in *.
  pose proof (take_drop_middle l i p Hip) as Hsplit. rewrite <- Hsplit in Hdl.
  destruct (dl_unlink_ok _ _ _ _ _ _ Hdl) as (m' & h' & t' & Hun & Hd' & Hr).
  destruct (Hsub i p a Hi) as (s & Hs & Ha). destruct (relinked_lookup _ _ _ _ Hr Hs) as (s' & Hs' & Hc).
  pose proof (sub_rep_content _ _ _ Hc Ha) as Ha'. rewrite unlink_subscriber_eq.
  cbn [subscribers g_subscriber_head g_subscriber_tail]. rewrite Hun, bind_ok.
  rewrite (assign_ok _ _ _ _ Hs'), bind_ok. erewrite assign_ok by (rewrite lookup_insert, decide_True by done; done).
  rewrite !bind_ok. rewrite insert_insert, decide_True by done. unfold reset_subscriber, get. cbn [with_list subscribers].
  erewrite fetch_ok by (rewrite lookup_insert, decide_True by done; done). rewrite bind_ok.
  replace (queue (with_prev None (with_next None s'))) with (queue s') by (by destruct s').
  set (k' := match queue s' with Some q => heap_free (block_address q) k | None => k end).
  assert (match queue s' with Some q => release_block (block_address q) (mkBroker k (<[p := with_prev None (with_next None s')]> m') h' t' id sq irq)
    | None => mkBroker k (<[p := with_prev None (with_next None s')]> m') h' t' id sq irq end
    = mkBroker k' (<[p := with_prev None (with_next None s')]> m') h' t' id sq irq) as -> by (unfold k'; by destruct (queue s')).
  unfold set. cbn [subscribers]. erewrite assign_ok by (rewrite lookup_insert, decide_True by done; done).
  rewrite !bind_ok. eexists. split; [done|]. cbn [free_subscriber with_subscribers release_block with_kernel subscribers kernel].
  assert (NoDup l) as Hnd by (rewrite <- Hsplit; by destruct Hdl).
  assert (map fst (delete i ps) = take i l ++ drop (S i) l) as Hm.
  { rewrite delete_map. fold l. apply delete_take_drop. }
  assert (p ∉ take i l ++ drop (S i) l) as Hpn.
  { rewrite <- Hsplit in Hnd. apply list.NoDup_app in Hnd as (_ & Hdis & [Hp2 _]%list.NoDup_cons).
    intros [Hp|Hp]%elem_of_app; [|done]. by apply (Hdis p Hp), list_elem_of_here. }
  assert (forall q, q <> p -> delete p (<[p := zero_subscriber]> (<[p := with_prev None (with_next None s')]> m')) !! q = m' !! q) as Hlk.
  { intros q Hq. by rewrite lookup_delete_ne, !lookup_insert_ne. }
  assert (accounts k others (p :: option_list (a_block a) ++ owned (delete i ps))) as Hacc.
  { eapply accounts_perm; [|done]. by rewrite (owned_delete _ _ _ Hi). }
  split; [|done]. split; cbn; try done.
  - rewrite Hm. eapply dlist_frame; [|done]. intros q Hq. apply Hlk. by intros ->.
  - rewrite Hm, dom_delete_L, !dom_insert_L, (relinked_dom _ _ Hr), Hdom. rewrite <- Hsplit at 1. clear -Hpn. set_solver.
  - intros j q c Hj. assert (q <> p) as Hqp.
    { intros ->. apply Hpn. rewrite <- Hm. eapply list_elem_of_lookup_2. by eapply addr_lookup. }
    rewrite Hlk by done. assert (exists j', ps !! j' = Some (q, c)) as [j' Hj'].
    { destruct (decide (j < i)%nat); [rewrite list_lookup_delete_lt in Hj by done|rewrite list_lookup_delete_ge in Hj by lia]; eauto. }
    destruct (Hsub j' q c Hj') as (s0 & Hs0 & Hc0). destruct (relinked_lookup _ _ _ _ Hr Hs0) as (n' & Hn' & Hcn).
    exists n'. split; [done|]. by eapply sub_rep_content.
  - apply accounts_free. unfold k'. rewrite <- (sr_block _ _ Ha') in Hacc. destruct (queue s') as [q|]; cbn in Hacc; [|done].
    apply accounts_free. eapply accounts_perm; [|done]. apply perm_swap.
  - unfold k'. apply free_calm. destruct (queue s'); [by apply free_calm|done].
Qed.
End Rep.
