(* ===== verification/KernelEventPublish.v ===== *)
(** Publication: which subscriptions a record reaches, what a buffer does with it,
    and that the nested calls of broker and scheduler end.

    [delivered o a a']: the subscription [a] was offered the records [o] in that
    order, kept those that match its filters and became [a'].  [published log ps
    ps']: every subscription was offered each record of [log] once. *)
From stdpp Require Import base list gmap.
From Stdlib Require Import ZArith Lia.
From S2P Require Import Prelude KernelText DList KernelIface KernelEvent KernelEventRing KernelEventProofs.

Local Open Scope Z_scope.

(** ** The filters *)
Definition wanted_req (q : KernelEventSubscriptionRequest) (r : KernelEventRecord) : bool :=
  negb (Z.land (family r) (family_mask q) =? 0)
  && ((req_process_id q =? 0) || (source_process_id r =? req_process_id q))
  && ((req_thread_id q =? 0) || (source_thread_id r =? req_thread_id q))
  && bool_decide (c_text (name_prefix q) `prefix_of` c_text (name r))
  && bool_decide (c_text (path_prefix q) `prefix_of` c_text (path r)).
Definition wanted (a : Sub) (r : KernelEventRecord) : bool := wanted_req (a_req a) r.

Lemma matches_ok s a r : sub_rep s a -> record_ok r -> subscription_matches s r = Ok (wanted a r).
Proof.
  intros Ha [Hn Hp]. destruct (sr_req_ok _ _ Ha) as [Hqn Hqp]. unfold subscription_matches, wanted, wanted_req.
  rewrite (sr_req _ _ Ha).
  destruct (Z.land (family r) (family_mask (a_req a)) =? 0); cbn [negb andb]; [done|].
  destruct (req_process_id (a_req a) =? 0), (source_process_id r =? req_process_id (a_req a));
  destruct (req_thread_id (a_req a) =? 0), (source_thread_id r =? req_thread_id (a_req a)); cbn [negb andb orb]; try done;
  rewrite text_has_prefix_ok, bind_ok by done; destruct (bool_decide _); cbn [negb andb]; try done;
  rewrite text_has_prefix_ok, bind_ok by done; by destruct (bool_decide _).
Qed.

(** ** One record, one subscription *)
Definition with_events (evs : list KernelEventRecord) (cap : Z) (block : option Z) (dropped newest : Z) (w : option Z) (a : Sub) : Sub :=
  mkSub (a_id a) (a_owner a) (a_req a) evs cap block dropped newest w.
Definition woken (a : Sub) : Sub :=
  with_events (a_events a) (a_cap a) (a_block a) (a_dropped a) (a_newest a) None a.

(** A record is queued, in a buffer that may have grown; or the oldest one makes
    room and is counted; or there is no buffer and the record itself is counted.
    [w] is the waiter afterwards. *)
Inductive offer (r : KernelEventRecord) (a : Sub) : Sub -> Prop :=
| offer_queued cap block :
    a_cap a <= cap <= KERNEL_EVENT_QUEUE_MAX_CAPACITY -> len (a_events a) < cap ->
    offer r a (with_events (a_events a ++ [r]) cap block (a_dropped a) (sequence r) None a)
| offer_oldest e rest :
    a_events a = e :: rest -> len (a_events a) = a_cap a ->
    offer r a (with_events (rest ++ [r]) (a_cap a) (a_block a) (u64 (a_dropped a + 1)) (sequence r) None a)
| offer_lost :
    a_events a = [] -> a_cap a = 0 ->
    offer r a (with_events [] 0 (a_block a) (u64 (a_dropped a + 1)) (a_newest a) (a_waiter a) a).

Inductive delivered : list KernelEventRecord -> Sub -> Sub -> Prop :=
| delivered_nil a : delivered [] a a
| delivered_skip r rs a a' : wanted a r = false -> delivered rs a a' -> delivered (r :: rs) a a'
| delivered_take r rs a a1 a' : wanted a r = true -> offer r a a1 -> delivered rs a1 a' -> delivered (r :: rs) a a'.

Lemma delivered_app o1 o2 a1 a2 a3 : delivered o1 a1 a2 -> delivered o2 a2 a3 -> delivered (o1 ++ o2) a1 a3.
Proof. induction 1; cbn [app]; [done| |]; intros; [by apply delivered_skip; auto|eapply delivered_take; eauto]. Qed.

Lemma offer_static r a a' : offer r a a' ->
  a_id a' = a_id a /\ a_owner a' = a_owner a /\ a_req a' = a_req a /\ (a_waiter a' = None \/ a_waiter a' = a_waiter a).
Proof. destruct 1; cbn; auto. Qed.

Lemma delivered_static o a a' : delivered o a a' ->
  a_id a' = a_id a /\ a_owner a' = a_owner a /\ a_req a' = a_req a /\ (a_waiter a' = None \/ a_waiter a' = a_waiter a).
Proof.
  induction 1 as [|r rs a a' Hw Hd IH|r rs a a1 a' Hw Ho Hd IH]; [auto|done|].
  apply offer_static in Ho as (H1 & H2 & H3 & H4). destruct IH as (I1 & I2 & I3 & I4).
  split_and!; [congruence..|]. destruct I4 as [I4|I4]; [auto|]. destruct H4 as [H4|H4]; [left|right]; congruence.
Qed.

(** ** All subscriptions *)
Definition reached (o : list KernelEventRecord) (x y : Z * Sub) : Prop := x.1 = y.1 /\ exists o', o' ≡ₚ o /\ delivered o' x.2 y.2.
Definition published_by (f : nat -> list KernelEventRecord) (ps ps' : list (Z * Sub)) : Prop :=
  length ps' = length ps /\ forall j x y, ps !! j = Some x -> ps' !! j = Some y -> reached (f j) x y.
Definition published (log : list KernelEventRecord) (ps ps' : list (Z * Sub)) : Prop := Forall2 (reached log) ps ps'.

Lemma published_by_iff log ps ps' : published log ps ps' <-> published_by (fun _ => log) ps ps'.
Proof.
  unfold published, published_by. rewrite Forall2_same_length_lookup. split; intros [Hl Hf]; split; eauto.
Qed.

Lemma reached_app o1 o2 x y z : reached o1 x y -> reached o2 y z -> reached (o1 ++ o2) x z.
Proof.
  intros [Hxy (p1 & Hp1 & Hd1)] [Hyz (p2 & Hp2 & Hd2)]. split; [congruence|]. exists (p1 ++ p2).
  split; [by rewrite Hp1, Hp2|by eapply delivered_app].
Qed.

Lemma reached_perm o1 o2 x y : o1 ≡ₚ o2 -> reached o1 x y -> reached o2 x y.
Proof. intros Hp [Hxy (o & Ho & Hd)]. split; [done|]. exists o. split; [by rewrite Ho|done]. Qed.

Lemma reached_nil x : reached [] x x.
Proof. split; [done|]. exists []. split; [done|constructor]. Qed.

Lemma published_by_trans f g ps1 ps2 ps3 :
  published_by f ps1 ps2 -> published_by g ps2 ps3 -> published_by (fun j => f j ++ g j) ps1 ps3.
Proof.
  intros [Hl1 H1] [Hl2 H2]. split; [congruence|]. intros j x z Hx Hz. pose proof (lookup_lt_Some _ _ _ Hx).
  destruct (lookup_lt_is_Some_2 ps2 j) as [y Hy]; [lia|]. eapply reached_app; eauto.
Qed.

Lemma published_by_ext f g ps ps' : (forall j, f j ≡ₚ g j) -> published_by f ps ps' -> published_by g ps ps'.
Proof. intros Hfg [Hl Hp]. split; [done|]. intros j x y Hx Hy. eapply reached_perm; eauto. Qed.

Lemma published_nil ps : published [] ps ps.
Proof. induction ps; constructor; [apply reached_nil|done]. Qed.

Lemma published_trans l1 l2 ps1 ps2 ps3 : published l1 ps1 ps2 -> published l2 ps2 ps3 -> published (l1 ++ l2) ps1 ps3.
Proof.
  intros H12. revert ps3. induction H12 as [|x y ps1 ps2 Hxy _ IH]; intros ps3 H23; inversion_clear H23; constructor; [by eapply reached_app|by apply IH].
Qed.

Lemma published_addr log ps ps' : published log ps ps' -> map fst ps' = map fst ps.
Proof. induction 1 as [|x y ps ps' [Hxy _] _ IH]; [done|]. cbn. by rewrite Hxy, IH. Qed.

(** Threads waiting: what bounds the nesting. *)
Definition waits (x : Z * Sub) : nat := match a_waiter x.2 with Some _ => 1 | None => 0 end.
Definition waiters (ps : list (Z * Sub)) : nat := sum_list (map waits ps).

Lemma waiters_published log ps ps' : published log ps ps' -> (waiters ps' <= waiters ps)%nat.
Proof.
  induction 1 as [|x y ps ps' [_ (o & _ & Hd)] _ IH]; [done|]. unfold waiters in *. cbn.
  apply delivered_static in Hd as (_ & _ & _ & Hw).
  assert (waits y <= waits x)%nat by (unfold waits; destruct Hw as [->| ->]; [destruct (a_waiter x.2); cbn; lia|lia]). cbn in *. lia.
Qed.

Lemma waiters_insert ps i x y : ps !! i = Some x -> (waiters (<[i := y]> ps) + waits x = waiters ps + waits y)%nat.
Proof.
  unfold waiters. revert i. induction ps as [|z ps IH]; intros [|i] Hi; [done..| |].
  - injection Hi as ->. cbn. lia.
  - specialize (IH i Hi). change (<[S i := y]> (z :: ps)) with (z :: <[i := y]> ps). rewrite !map_cons. cbn [sum_list foldr]. 
    unfold sum_list in *. cbn [foldr]. lia.
Qed.

Lemma waiters_le ps : (waiters ps <= length ps)%nat.
Proof. induction ps as [|x ps IH]; [done|]. unfold waiters in *. cbn. assert (waits x <= 1)%nat by (unfold waits; destruct (a_waiter x.2); lia). lia. Qed.

(** Consecutive sequence numbers from [s + 1]. *)
Definition numbered (s : Z) (log : list KernelEventRecord) : Prop :=
  forall i r, log !! i = Some r -> sequence r = u64 (s + 1 + Z.of_nat i).

Lemma numbered_app s l1 l2 : numbered s l1 -> numbered (u64 (s + len l1)) l2 -> numbered s (l1 ++ l2).
Proof.
  intros H1 H2 i r Hi. destruct (decide (i < length l1)%nat).
  - rewrite lookup_app_l in Hi by done. by apply H1.
  - rewrite lookup_app_r in Hi by lia. rewrite (H2 _ _ Hi). unfold u64. rewrite <- Z.add_assoc, Zplus_mod_idemp_l. f_equal. lia.
Qed.

Section Publish.
Context `{KernelLaws}.
Implicit Types (b : Broker) (ps : list (Z * Sub)).

(** The broker published [log] between the two states. *)
Record emits b b' (log : list KernelEventRecord) : Prop := {
  em_frame : frame b b';
  em_seq : g_next_sequence b' = u64 (g_next_sequence b + len log);
  em_numbered : numbered (g_next_sequence b) log }.

Lemma emits_nil b b' : 0 <= g_next_sequence b < 2 ^ 64 -> frame b b' -> g_next_sequence b' = g_next_sequence b -> emits b b' [].
Proof. intros Hs Hf Hq. split; [done| |done]. cbn. rewrite Z.add_0_r, u64_small by lia. done. Qed.

Lemma emits_app b1 b2 b3 l1 l2 : emits b1 b2 l1 -> emits b2 b3 l2 -> emits b1 b3 (l1 ++ l2).
Proof.
  intros [F1 S1 N1] [F2 S2 N2]. split.
  - by etransitivity.
  - rewrite S2, S1, length_app. unfold u64. rewrite Zplus_mod_idemp_l. f_equal. lia.
  - apply numbered_app; [done|]. by rewrite <- S1.
Qed.

(** Records the scheduler's own reports produce. *)
Definition thread_record (r : KernelEventRecord) : Prop := family r = KERNEL_EVENT_FAMILY_THREAD.

(** ** The buffer *)
Lemma sub_rep_cap s a : sub_rep s a -> len (a_events a) <= a_cap a <= 1024 /\ (a_cap a = 0 \/ 16 <= a_cap a) /\ queued_count s = len (a_events a).
Proof.
  intros Ha. pose proof (sr_cap _ _ Ha) as Hc. destruct (sr_ring _ _ Ha) as [Hn [(_ & H2 & H3)|Hr]]; rewrite <- Hc.
  - rewrite H3 in *. cbn in *. lia.
  - pose proof (rf_cap _ _ Hr). pose proof (rf_count _ _ Hr). pose proof caps. lia.
Qed.

Lemma reserve_ok others b ps i p a :
  rep others b ps -> ps !! i = Some (p, a) ->
  exists b' st cap block, reserve_queue_capacity p (len (a_events a) + 1) b = Ok (b', st) /\
    rep others b' (<[i := (p, with_events (a_events a) cap block (a_dropped a) (a_newest a) (a_waiter a) a)]> ps) /\
    frame b b' /\ g_next_sequence b' = g_next_sequence b /\
    (st = StatusOK /\ a_cap a <= cap <= 1024 /\ len (a_events a) < cap \/
     (st = StatusNoSpace /\ cap = 1024 \/ st = StatusNoMemory) /\ len (a_events a) = a_cap a /\ cap = a_cap a /\ block = a_block a).
Proof.
  intros Hr Hi. destruct (get_ok _ _ _ _ _ _ Hr Hi) as (s & Hg & Hs & Ha).
  destruct (sub_rep_cap _ _ Ha) as (Hle & Hcap & Hn). pose proof (sr_cap _ _ Ha) as Hc.
  assert (forall cap block, cap = a_cap a -> block = a_block a ->
    rep others b (<[i := (p, with_events (a_events a) cap block (a_dropped a) (a_newest a) (a_waiter a) a)]> ps)) as Hsame.
  { intros cap block -> ->. rewrite list_insert_id; [done|]. rewrite Hi. by destruct a. }
  unfold reserve_queue_capacity. rewrite Hg, bind_ok, Hc. destruct (Z.leb_spec (len (a_events a) + 1) (a_cap a)).
  { eexists _, _, _, _. split; [done|]. split; [by apply Hsame|]. split; [done|]. split; [done|]. left. split; [done|]. lia. }
  cbn zeta. set (target := if KERNEL_EVENT_QUEUE_MAX_CAPACITY <? _ then _ else _).
  assert (target = if 1024 <? len (a_events a) + 1 then 1024 else len (a_events a) + 1) as Htgt by done. clearbody target.
  destruct (Z.leb_spec target (a_cap a)) as [Ht|Ht].
  { exists b, StatusNoSpace, (a_cap a), (a_block a). split; [done|]. split; [by apply Hsame|]. split; [done|]. split; [done|]. right.
    split; [|split_and!; [lia|done|done]]. left. split; [done|]. destruct (Z.ltb_spec 1024 (len (a_events a) + 1)); lia. }
  assert (target = len (a_events a) + 1 /\ target <= 1024) as [Htg Htm] by (destruct (Z.ltb_spec 1024 (len (a_events a) + 1)); lia).
  clear Htgt. subst target. unfold KERNEL_EVENT_QUEUE_INITIAL_CAPACITY.
  destruct (grow_ok (len (a_events a) + 1) (if a_cap a =? 0 then 16 else a_cap a)) as (g & Hgr & Hgb);
    [destruct (Z.eqb_spec (a_cap a) 0); lia|lia|destruct (Z.eqb_spec (a_cap a) 0); lia|].
  assert (a_cap a <= g) as Hag by (destruct (Z.eqb_spec (a_cap a) 0); lia).
  assert (16 <= g <= 1024 /\ len (a_events a) < g) as [H16 Hlt] by (destruct (Z.eqb_spec (a_cap a) 0); lia).
  rewrite Hgr, bind_ok. destruct (heap_alloc _ _ (kernel b)) as [[blk|] k] eqn:Hall.
  2: { exists (with_kernel k b), StatusNoMemory, (a_cap a), (a_block a). split; [done|]. split.
       - apply with_kernel_rep; [by apply Hsame|by eapply alloc_fails|].
         pose proof (alloc_calm (u64 (record_bytes * g)) record_align _ (rep_calm _ _ _ Hr)) as Hk. by rewrite Hall in Hk.
       - split; [by destruct b|]. split; [by destruct b|]. right. split; [auto|]. split_and!; [lia|done|done]. }
  destruct (unroll_ok s (a_events a) (Z.to_nat g) (sr_ring _ _ Ha)) as (fresh & Hun & Hfl & Hff); [lia|].
  rewrite Hun, bind_ok.
  set (k' := match queue s with Some q => heap_free (block_address q) k | None => k end).
  assert (match queue s with Some q => release_block (block_address q) (with_kernel k b) | None => with_kernel k b end
    = with_kernel k' b) as -> by (unfold k'; destruct b; by destruct (queue s)).
  pose proof (alloc_calm (u64 (record_bytes * g)) record_align _ (rep_calm _ _ _ Hr)) as Hk. rewrite Hall in Hk. cbn in Hk.
  destruct (accounts_alloc _ _ _ _ _ _ _ Hall (rep_heap _ _ _ Hr)) as (Hacc & Hblk & _).
  unfold set. replace (subscribers (with_kernel k' b)) with (subscribers b) by (by destruct b).
  rewrite (assign_ok _ _ _ _ Hs), !bind_ok.
  eexists _, StatusOK, g, (Some blk). split; [done|].
  split; [|split; [by destruct b|split; [by destruct b|left; split; [done|lia]]]].
  assert (accounts k others (option_list (a_block a) ++ blk :: p :: owned (delete i ps))) as Hacc'.
  { eapply accounts_perm; [|done]. rewrite (owned_delete _ _ _ Hi). unfold blocks. cbn. solve_Permutation. }
  assert (accounts k' others (blk :: p :: owned (delete i ps))) as Hacc''.
  { unfold k'. rewrite <- (sr_block _ _ Ha) in Hacc'. destruct (queue s) as [q|]; cbn in Hacc'; [by apply accounts_free|done]. }
  eapply store_rep; [done|done|done| |by destruct s|by destruct s| |].
  - destruct Ha as [A1 A2 A3 A4 A5 A6 A7 A8 A9 A10]. split; try (by destruct s).
    cbn [with_events a_events]. apply ring_straight; [lia|done|lia|done|lia|done].
  - eapply accounts_perm; [|done]. rewrite (owned_insert _ _ _ _ Hi). unfold blocks. cbn. apply perm_swap.
  - unfold k'. destruct (queue s); [by apply free_calm|done].
Qed.

(** Dropping the oldest record, counting a loss, storing a record. *)
Lemma drop_ok others b ps i p a e rest :
  rep others b ps -> ps !! i = Some (p, a) -> a_events a = e :: rest ->
  exists b', (s <- get b p ;;
      k <- umod (u32 (read_index s + 1)) (queue_capacity s) ;;
      set b p (fun s => with_ring (queue s) (queue_capacity s) k (write_index s) (u32 (queued_count s - 1)) s)) = Ok b' /\
    rep others b' (<[i := (p, with_events rest (a_cap a) (a_block a) (a_dropped a) (a_newest a) (a_waiter a) a)]> ps) /\
    frame b b' /\ g_next_sequence b' = g_next_sequence b.
Proof.
  intros Hr Hi He. destruct (get_ok _ _ _ _ _ _ Hr Hi) as (s & Hg & Hs & Ha). rewrite Hg, bind_ok.
  destruct (sr_ring _ _ Ha) as [Hn [(_ & _ & H3)|Hf]]; [congruence|]. rewrite He in *. pose proof (ring_pos _ _ Hf) as Hpos.
  pose proof (rf_cap _ _ Hf). pose proof (rf_read _ _ Hf). pose proof (rf_count _ _ Hf). pose proof caps.
  unfold umod. destruct (Z.eqb_spec (queue_capacity s) 0); [lia|]. rewrite bind_ok, u32_small by lia.
  destruct (ring_pop _ _ _ Hn Hf) as (_ & Hf' & Hn').
  edestruct (set_ok others b ps i p a) as (b' & Hset & Hrep & Hfr & Hsq & _); [done|done| | | |exists b'; by split_and!].
  - intros s' Hs' _. simplify_eq. rewrite u32_small by (rewrite Hn; cbn; cbn in *; lia).
    destruct Ha as [A1 A2 A3 A4 A5 A6 A7 A8 A9 A10]. split; try (by destruct s). split; [done|]. right. done.
  - by intros [].
  - done.
Qed.

Lemma count_drop_ok others b ps i p a :
  rep others b ps -> ps !! i = Some (p, a) ->
  exists b', set b p count_drop = Ok b' /\
    rep others b' (<[i := (p, with_events (a_events a) (a_cap a) (a_block a) (u64 (a_dropped a + 1)) (a_newest a) (a_waiter a) a)]> ps) /\
    frame b b' /\ g_next_sequence b' = g_next_sequence b.
Proof.
  intros Hr Hi. edestruct (set_ok others b ps i p a count_drop) as (b' & Hset & Hrep & Hfr & Hsq & _);
    [done|done| | | |exists b'; by split_and!]; [|by intros []|done].
  intros s _ [A1 A2 A3 A4 [A5 A5'] A6 A7 A8 A9 A10]. destruct s. cbn in *. split; cbn; try done; [|by subst].
  split; [done|]. destruct A5' as [A|[]]; [by left|right; by split].
Qed.

Lemma store_record_ok others b ps i p a r :
  rep others b ps -> ps !! i = Some (p, a) -> len (a_events a) < a_cap a ->
  exists b', store_record p r b = Ok b' /\
    rep others b' (<[i := (p, with_events (a_events a ++ [r]) (a_cap a) (a_block a) (a_dropped a) (sequence r) (a_waiter a) a)]> ps) /\
    frame b b' /\ g_next_sequence b' = g_next_sequence b.
Proof.
  intros Hr Hi Hlt. destruct (get_ok _ _ _ _ _ _ Hr Hi) as (s & Hg & Hs & Ha). unfold store_record. rewrite Hg, bind_ok.
  pose proof (sr_cap _ _ Ha) as Hc. rewrite <- Hc in Hlt.
  destruct (sr_ring _ _ Ha) as [Hn [(_ & H2 & _)|Hf]]; [lia|].
  pose proof (rf_cap _ _ Hf). pose proof (ring_pos _ _ Hf). pose proof caps. pose proof (rf_len _ _ Hf).
  destruct (ring_push r _ _ Hn Hf Hlt) as [Hw Hp]. rewrite aset_ok, bind_ok by done.
  unfold umod. destruct (Z.eqb_spec (queue_capacity s) 0); [lia|]. rewrite bind_ok, u32_small by lia.
  edestruct (set_ok others b ps i p a) as (b' & Hset & Hrep & Hfr & Hsq & _); [done|done| | | |exists b'; by split_and!].
  - intros s' Hs' _. simplify_eq. rewrite (u32_small (queued_count s + 1)) by lia.
    destruct (rf_block _ _ Hf) as [q Hq].
    replace (with_ring _ _ _ _ _ s) with (pushed r s)
      by (unfold pushed, slots_of; destruct s; cbn in *; by rewrite Hq).
    destruct Ha as [A1 A2 A3 A4 A5 A6 A7 A8 A9 A10]. split; try (by destruct s).
    + destruct Hp as [Hp1 Hp2]. split; [by destruct s|]. destruct Hp2 as [Hp2|[]]; [by left; destruct s|right; destruct s; by split].
    + cbn [with_events a_block]. rewrite <- A7. unfold pushed. destruct s. cbn in *. by rewrite Hq.
  - by intros [].
  - done.
Qed.

(** Room made in a full buffer; the loss may have been counted already. *)
Lemma evict_store others b ps i p a e rest r (counted : bool) :
  rep others b ps -> ps !! i = Some (p, a) -> a_events a = e :: rest -> len (a_events a) = a_cap a ->
  exists b', (s <- get b p ;;
      b <- (if queued_count s =? queue_capacity s then
              k <- umod (u32 (read_index s + 1)) (queue_capacity s) ;;
              b <- set b p (fun s => with_ring (queue s) (queue_capacity s) k (write_index s) (u32 (queued_count s - 1)) s) ;;
              if negb counted then set b p count_drop else Ok b
            else Ok b) ;;
      store_record p r b) = Ok b' /\
    rep others b' (<[i := (p, with_events (rest ++ [r]) (a_cap a) (a_block a)
      (if counted then a_dropped a else u64 (a_dropped a + 1)) (sequence r) (a_waiter a) a)]> ps) /\
    frame b b' /\ g_next_sequence b' = g_next_sequence b.
Proof.
  intros Hr Hi He Hfull. destruct (get_ok _ _ _ _ _ _ Hr Hi) as (s & Hg & Hs & Ha). pose proof (lookup_lt_Some _ _ _ Hi).
  assert (forall x, <[i := (p, x)]> ps !! i = Some (p, x)) as Hii by (intros; by apply list_lookup_insert_eq).
  destruct (sub_rep_cap _ _ Ha) as (_ & _ & Hn).
  destruct (drop_ok _ _ _ _ _ _ e rest Hr Hi He) as (b1 & Hdrop & Hr1 & Hf1 & Hsq1).
  rewrite Hg, bind_ok in Hdrop |- *. rewrite Hn, (sr_cap _ _ Ha), Hfull, Z.eqb_refl in *.
  destruct (umod (u32 (read_index s + 1)) (a_cap a)) as [k| | |]; [|done..]. rewrite bind_ok in *. rewrite Hdrop, !bind_ok.
  assert (len rest < a_cap a) as Hlt by (rewrite <- Hfull, He; cbn; lia).
  destruct counted; cbn [negb].
  - rewrite bind_ok. destruct (store_record_ok _ _ _ _ _ _ r Hr1 (Hii _)) as (b2 & -> & Hr2 & Hf2 & Hsq2); [done|].
    rewrite list_insert_insert_eq in Hr2. eexists. split; [done|]. split; [done|]. split; [by etransitivity|congruence].
  - destruct (count_drop_ok _ _ _ _ _ _ Hr1 (Hii _)) as (b2 & -> & Hr2 & Hf2 & Hsq2). rewrite bind_ok. rewrite list_insert_insert_eq in Hr2.
    destruct (store_record_ok _ _ _ _ _ _ r Hr2 (Hii _)) as (b3 & -> & Hr3 & Hf3 & Hsq3); [done|].
    rewrite list_insert_insert_eq in Hr3. eexists. split; [done|]. split; [done|]. split; [|congruence].
    etransitivity; [done|]. by etransitivity.
Qed.

(** ** [enqueue_record] up to the wake-up *)
Lemma enqueue_ok wake others b ps i p a r :
  rep others b ps -> ps !! i = Some (p, a) ->
  exists b1 a1, rep others b1 (<[i := (p, a1)]> ps) /\ frame b b1 /\ g_next_sequence b1 = g_next_sequence b /\ a_waiter a1 = a_waiter a /\
    (enqueue_record wake p r b = Ok b1 /\ offer r a a1 \/
     enqueue_record wake p r b = wake p b1 /\ offer r a (woken a1)).
Proof.
  intros Hr Hi. destruct (get_ok _ _ _ _ _ _ Hr Hi) as (s & Hg & Hs & Ha). unfold enqueue_record. rewrite Hg, bind_ok.
  destruct (sub_rep_cap _ _ Ha) as (Hle & Hcap & Hn). rewrite Hn, u32_small by lia.
  pose proof (lookup_lt_Some _ _ _ Hi) as Hlt.
  destruct (reserve_ok _ _ _ _ _ _ Hr Hi) as (b' & st & cap & block & -> & Hr' & Hf & Hsq & Hst). rewrite bind_ok.
  set (a' := with_events (a_events a) cap block _ _ _ a) in *.
  assert (forall x, <[i := (p, x)]> ps !! i = Some (p, x)) as Hii by (intros; by apply list_lookup_insert_eq).
  destruct (get_ok _ _ _ _ _ _ Hr' (Hii _)) as (s' & Hg' & Hs' & Ha'). rewrite Hg', bind_ok.
  rewrite (sr_cap _ _ Ha'). change (a_cap a') with cap.
  destruct Hst as [(-> & Hc & Hlc)|(Hst & Hfull & -> & ->)].
  - change (StatusOK =? StatusOK) with true. change (StatusOK =? StatusNoSpace) with false. cbn [negb andb].
    rewrite bind_ok, Hg', bind_ok. destruct (sub_rep_cap _ _ Ha') as (_ & _ & Hn').
    rewrite Hn', (sr_cap _ _ Ha'). change (a_cap a') with cap. change (a_events a') with (a_events a).
    destruct (Z.eqb_spec (len (a_events a)) cap); [lia|]. rewrite bind_ok.
    destruct (store_record_ok _ _ _ _ _ _ r Hr' (Hii _)) as (b2 & -> & Hr2 & Hf2 & Hsq2); [done|]. rewrite bind_ok. rewrite list_insert_insert_eq in Hr2.
    eexists b2, _. split; [done|]. split; [by etransitivity|]. split; [congruence|]. split; [done|]. right. split; [done|].
    change (woken _) with (with_events (a_events a ++ [r]) cap block (a_dropped a) (sequence r) None a).
    apply offer_queued; [pose proof caps; lia|done].
  - assert (negb (st =? StatusOK) = true) as -> by (by destruct Hst as [[-> _]| ->]). cbn [andb].
    assert (a' = a) as Haa by (unfold a'; by destruct a). clearbody a'. subst a'.
    destruct (Z.eqb_spec (a_cap a) 0) as [Hz|Hnz].
    { destruct (count_drop_ok _ _ _ _ _ _ Hr' (Hii _)) as (b2 & -> & Hr2 & Hf2 & Hsq2). rewrite list_insert_insert_eq in Hr2.
      eexists b2, _. split; [done|]. split; [by etransitivity|]. split; [congruence|]. split; [done|]. left. split; [done|].
      assert (a_events a = []) as Hnil by (destruct (a_events a); [done|cbn in *; lia]). rewrite Hnil, Hz. by apply offer_lost. }
    assert (exists e rest, a_events a = e :: rest) as (e & rest & He) by (destruct (a_events a); [cbn in Hfull; lia|eauto]).
    assert (forall d w, woken (with_events (rest ++ [r]) (a_cap a) (a_block a) d (sequence r) w a) =
      with_events (rest ++ [r]) (a_cap a) (a_block a) d (sequence r) None a) as Hwk by done.
    assert (exists b2, (b <- (if (st =? StatusNoSpace) && negb false then set b' p count_drop else Ok b') ;;
      s <- get b p ;;
      b <- (if queued_count s =? queue_capacity s then
              k <- umod (u32 (read_index s + 1)) (queue_capacity s) ;;
              b <- set b p (fun s => with_ring (queue s) (queue_capacity s) k (write_index s) (u32 (queued_count s - 1)) s) ;;
              if negb (st =? StatusNoSpace) then set b p count_drop else Ok b
            else Ok b) ;; store_record p r b) = Ok b2 /\
      rep others b2 (<[i := (p, with_events (rest ++ [r]) (a_cap a) (a_block a) (u64 (a_dropped a + 1)) (sequence r) (a_waiter a) a)]> ps) /\
      frame b' b2 /\ g_next_sequence b2 = g_next_sequence b') as (b2 & Hrun & Hr2 & Hf2 & Hsq2).
    { destruct Hst as [[-> _]| ->].
      - change (StatusNoSpace =? StatusNoSpace) with true. cbn [andb]. change (negb false) with true. cbn iota.
        destruct (count_drop_ok _ _ _ _ _ _ Hr' (Hii _)) as (b2 & -> & Hr2 & Hf2 & Hsq2). rewrite bind_ok.
        rewrite list_insert_insert_eq in Hr2.
        destruct (evict_store _ _ _ _ _ _ e rest r true Hr2 (Hii _)) as (b3 & -> & Hr3 & Hf3 & Hsq3); [done|done|].
        rewrite list_insert_insert_eq in Hr3. exists b3. split; [done|]. split; [done|]. split; [by etransitivity|congruence].
      - change (StatusNoMemory =? StatusNoSpace) with false. cbn [andb]. rewrite bind_ok.
        destruct (evict_store _ _ _ _ _ _ e rest r false Hr' (Hii _)) as (b3 & -> & Hr3 & Hf3 & Hsq3); [done|done|].
        rewrite list_insert_insert_eq in Hr3. by exists b3. }
    exists b2, (with_events (rest ++ [r]) (a_cap a) (a_block a) (u64 (a_dropped a + 1)) (sequence r) (a_waiter a) a).
    split; [done|]. split; [by etransitivity|]. split; [congruence|]. split; [done|]. right. split; [|rewrite Hwk; by eapply offer_oldest].
    change (wake p b2) with (bind (Ok b2) (wake p)). rewrite <- Hrun.
    destruct (if _ && _ then set b' p count_drop else Ok b') as [b3| | |]; [|done..]. rewrite !bind_ok.
    destruct (get b3 p) as [s3| | |]; [|done..]. rewrite !bind_ok. by rewrite bind_assoc.
Qed.
End Publish.
