(* ===== verification/KernelEventWake.v ===== *)
(** Waking a waiter and publishing call each other through the scheduler.  Each
    level of nesting clears one waiter first, so the nesting ends, and every record
    published on the way is offered to every subscription exactly once. *)
From stdpp Require Import base list gmap.
From Stdlib Require Import ZArith Lia.
From S2P Require Import Prelude KernelText DList KernelIface KernelEvent KernelEventRing KernelEventProofs KernelEventPublish.

Local Open Scope Z_scope.

Lemma first_drop (l : list Z) k : first (drop k l) None = l !! k.
Proof.
  rewrite <- (Nat.add_0_r k) at 2. rewrite <- lookup_drop. by destruct (drop k l).
Qed.

Section Wake.
Context `{KernelLaws}.
Implicit Types (b : Broker) (ps : list (Z * Sub)) (wake : Z -> Broker -> Exec Broker).

(** The pointer the loops follow from the [k]-th subscription. *)
Lemma next_ok others b ps k p a : rep others b ps -> ps !! k = Some (p, a) ->
  exists s, get b p = Ok s /\ sub_rep s a /\ next s = map fst ps !! S k.
Proof.
  intros Hr Hk. destruct (get_ok _ _ _ _ _ _ Hr Hk) as (s & Hg & Hs & Ha). exists s. split; [done|]. split; [done|].
  pose proof (rep_list _ _ _ Hr) as Hd. rewrite <- (take_drop_middle _ _ _ (addr_lookup _ _ _ _ Hk)) in Hd.
  destruct (dlist_at _ _ _ _ _ _ Hd) as (n & Hn & Hnx & _). simplify_eq. cbn in Hnx. by rewrite Hnx, first_drop.
Qed.

Lemma head_ok others b ps : rep others b ps -> g_subscriber_head b = map fst ps !! 0%nat.
Proof. intros Hr. destruct (rep_list _ _ _ Hr) as (_ & _ & -> & _). by destruct ps. Qed.

(** What is asked of the function that wakes a waiter, with at most [d] waiting. *)
Definition wake_spec (d : nat) wake : Prop := forall others b ps i p a,
  rep others b ps -> ps !! i = Some (p, a) -> (waiters ps <= d)%nat ->
  exists b' ps' log, wake p b = Ok b' /\ rep others b' ps' /\
    published log (<[i := (p, woken a)]> ps) ps' /\ emits b b' log /\ Forall thread_record log.

Lemma waiters_woken ps i p a : ps !! i = Some (p, a) -> (waiters (<[i := (p, woken a)]> ps) <= waiters ps)%nat.
Proof. intros Hi. pose proof (waiters_insert _ _ _ (p, woken a) Hi) as Hw. unfold waits in Hw. cbn in Hw. lia. Qed.

(** Only the subscription at [i] is offered [r]. *)
Lemma published_at ps i p a a' r :
  ps !! i = Some (p, a) -> delivered [r] a a' ->
  published_by (fun j => if decide (j = i) then [r] else []) ps (<[i := (p, a')]> ps).
Proof.
  intros Hi Hd. split; [by rewrite length_insert|]. intros j x y Hx Hy. case_decide as Hj.
  - subst. rewrite list_lookup_insert_eq in Hy by (by eapply lookup_lt_Some). simplify_eq. split; [done|]. by exists [r].
  - rewrite list_lookup_insert_ne in Hy by done. simplify_eq. apply reached_nil.
Qed.

Section Loop.
Context (d : nat) wake (Hwake : wake_spec d wake).

(** One subscription of the publication loop. *)
Lemma publish_one others b ps k p a r :
  rep others b ps -> ps !! k = Some (p, a) -> (waiters ps <= d)%nat -> record_ok r ->
  exists b' ps' log, publish_step wake r (Some p, b) = Ok (inl (map fst ps' !! S k, b')) /\ rep others b' ps' /\
    published_by (fun j => (if decide (j = k) then [r] else []) ++ log) ps ps' /\ emits b b' log /\ Forall thread_record log.
Proof.
  intros Hr Hk Hw Hrec. destruct (next_ok _ _ _ _ _ _ Hr Hk) as (s & Hg & Ha & _). unfold publish_step.
  rewrite Hg, bind_ok, (matches_ok _ _ _ Ha Hrec), bind_ok. pose proof (lookup_lt_Some _ _ _ Hk) as Hlt.
  assert (exists b' ps' log, (if wanted a r then enqueue_record wake p r b else Ok b) = Ok b' /\ rep others b' ps' /\
    published_by (fun j => (if decide (j = k) then [r] else []) ++ log) ps ps' /\ emits b b' log /\ Forall thread_record log)
    as (b' & ps' & log & -> & Hr' & Hp' & He & Hl).
  { destruct (wanted a r) eqn:Hwant.
    - destruct (enqueue_ok wake _ _ _ _ _ _ r Hr Hk) as (b1 & a1 & Hr1 & Hf1 & Hsq1 & Hwt & [[-> Ho]|[-> Ho]]).
      + exists b1, (<[k := (p, a1)]> ps), []. split; [done|]. split; [done|]. split; [|split; [|constructor]].
        * eapply published_by_ext, published_at; [intros; by rewrite app_nil_r|done|]. eapply delivered_take; [done..|constructor].
        * apply emits_nil; [by eapply rep_seq|done|done].
      + assert (<[k := (p, a1)]> ps !! k = Some (p, a1)) as Hk1 by (by apply list_lookup_insert_eq).
        destruct (Hwake others b1 _ k p a1 Hr1 Hk1) as (b2 & ps2 & log & -> & Hr2 & Hp2 & He2 & Hl2).
        { pose proof (waiters_insert _ _ _ (p, a1) Hk) as Hwi. unfold waits in Hwi. cbn in Hwi. rewrite Hwt in Hwi. lia. }
        rewrite list_insert_insert_eq in Hp2. exists b2, ps2, log. split; [done|]. split; [done|]. split; [|split; [|done]].
        * eapply (published_by_trans _ (fun _ => log)); [|by apply published_by_iff]. eapply published_at; [done|].
          eapply delivered_take; [done..|constructor].
        * change log with ([] ++ log). eapply emits_app; [|done]. apply emits_nil; [by eapply rep_seq|done|done].
    - exists b, ps, []. split; [done|]. split; [done|]. split; [|split; [by apply emits_nil; [eapply rep_seq|..]|constructor]].
      eapply (published_by_ext (fun j => if decide (j = k) then [r] else [])); [intros; by rewrite app_nil_r|]. rewrite <- (list_insert_id ps k (p, a)) at 2 by done.
      eapply published_at; [done|]. apply delivered_skip; [done|constructor]. }
  rewrite bind_ok. exists b', ps', log. split; [|done]. destruct Hp' as [Hlen Hp'].
  destruct (lookup_lt_is_Some_2 ps' k) as [[p' a'] Hk']; [lia|]. destruct (Hp' k _ _ Hk Hk') as [Hpp _]. cbn in Hpp. subst p'.
  destruct (next_ok _ _ _ _ _ _ Hr' Hk') as (s' & -> & _ & Hnx). by rewrite bind_ok, Hnx.
Qed.

Lemma waiters_published_by f ps ps' : published_by f ps ps' -> (waiters ps' <= waiters ps)%nat.
Proof.
  revert f ps'. induction ps as [|x ps IH]; intros f [|y ps'] [Hl Hp]; try done.
  destruct (Hp 0%nat x y eq_refl eq_refl) as [_ (o & _ & Hd)]. apply delivered_static in Hd as (_ & _ & _ & Hwt).
  assert (waits y <= waits x)%nat by (unfold waits; destruct Hwt as [->| ->]; [destruct (a_waiter x.2); cbn; lia|lia]).
  assert (waiters ps' <= waiters ps)%nat; [|unfold waiters in *; cbn; lia].
  apply (IH (fun j => f (S j))). split; [cbn in Hl; lia|]. intros j u v Hu Hv. by apply (Hp (S j)).
Qed.

Lemma publish_loop others r fuel k b ps :
  rep others b ps -> (waiters ps <= d)%nat -> record_ok r -> (k <= length ps)%nat -> (length ps - k < fuel)%nat ->
  exists b' ps' log, iterate fuel (publish_step wake r) (map fst ps !! k, b) = Ok b' /\ rep others b' ps' /\
    published_by (fun j => (if decide (k <= j)%nat then [r] else []) ++ log) ps ps' /\ emits b b' log /\ Forall thread_record log.
Proof.
  revert k b ps. induction fuel as [|fuel IH]; intros k b ps Hr Hw Hrec Hk Hf; [lia|].
  destruct (ps !! k) as [[p a]|] eqn:Hka.
  - rewrite (addr_lookup _ _ _ _ Hka). pose proof (lookup_lt_Some _ _ _ Hka).
    destruct (publish_one _ _ _ _ _ _ r Hr Hka Hw Hrec) as (b1 & ps1 & l1 & Hstep & Hr1 & Hp1 & He1 & Hl1).
    cbn [iterate]. rewrite Hstep, bind_ok. pose proof (proj1 Hp1) as Hlen.
    destruct (IH (S k) b1 ps1 Hr1) as (b2 & ps2 & l2 & Hrun & Hr2 & Hp2 & He2 & Hl2); [|done|lia|lia|].
    { pose proof (waiters_published_by _ _ _ Hp1). lia. }
    exists b2, ps2, (l1 ++ l2). split; [done|]. split; [done|]. split; [|split; [by eapply emits_app|by apply Forall_app]].
    eapply published_by_ext; [|by eapply published_by_trans]. intros j. cbn beta.
    destruct (decide (j = k)) as [->|]; [rewrite decide_False, decide_True by lia; cbn; done|].
    destruct (decide (S k <= j)%nat); [rewrite decide_True by lia; cbn; by rewrite Permutation_middle|rewrite decide_False by lia; done].
  - assert (k = length ps) as -> by (apply lookup_ge_None in Hka; lia). rewrite list_lookup_fmap, Hka.
    cbn [iterate publish_step fmap option_fmap option_map]. rewrite bind_ok. exists b, ps, []. split; [done|]. split; [done|].
    split; [|split; [by apply emits_nil; [eapply rep_seq|..]|constructor]]. split; [done|].
    intros j x y Hx Hy. simplify_eq. pose proof (lookup_lt_Some _ _ _ Hx). rewrite decide_False by lia. apply reached_nil.
Qed.

(** The record with the number and the time it is published with. *)
Definition stamped b (r : KernelEventRecord) : KernelEventRecord :=
  stamp (u64 (g_next_sequence b + 1)) (ticks_to_milliseconds (tick_count (kernel b))) r.

Lemma publish_ok others b ps r :
  rep others b ps -> (waiters ps <= d)%nat -> record_ok r ->
  exists b' ps' log, publish_record wake r b = Ok b' /\ rep others b' ps' /\
    published (stamped b r :: log) ps ps' /\ emits b b' (stamped b r :: log) /\ Forall thread_record log.
Proof.
  intros Hr Hw Hrec. unfold publish_record. set (b0 := with_sequence _ b). cbn zeta.
  assert (rep others b0 ps) as Hr0.
  { destruct Hr as [Hdl Hdom Hsub Hheap Hcalm Hseq]. destruct b. unfold b0. cbn in *. split; cbn; try done. apply u64_range. }
  assert (g_next_sequence b0 = u64 (g_next_sequence b + 1)) as Hs0 by (unfold b0; by destruct b).
  assert (kernel b0 = kernel b) as Hk0 by (unfold b0; by destruct b).
  rewrite Hs0, Hk0. fold (stamped b r). rewrite (head_ok _ _ _ Hr0).
  assert (record_ok (stamped b r)) as Hrec' by (by destruct r).
  destruct (publish_loop others (stamped b r) (S (size (subscribers b0))) 0 b0 ps) as (b' & ps' & log & Hrun & Hr' & Hp & He & Hl); [done..|lia| |].
  { pose proof (dlist_length _ _ _ _ (rep_list _ _ _ Hr0)) as Hle. rewrite length_map in Hle. lia. }
  exists b', ps', log. split; [done|]. split; [done|]. split; [|split; [|done]].
  - apply published_by_iff. eapply published_by_ext; [|done]. intros j. cbn beta. destruct (decide (0 <= j)%nat); [done|lia].
  - change (stamped b r :: log) with ([stamped b r] ++ log). eapply emits_app; [|done]. split; [unfold b0; by destruct b|done|].
    intros [|i] x Hx; [|done]. injection Hx as <-. unfold stamped. rewrite Z.add_0_r. by destruct r.
Qed.

(** The scheduler's run, with the reports it makes. *)
Lemma run_scheduler_ok others r : forall b ps, rep others b ps -> (waiters ps <= d)%nat -> quiet calm r (heap_live (kernel b)) ->
  exists b' ps' log, run_scheduler wake r b = Ok b' /\ rep others b' ps' /\ published log ps ps' /\ emits b b' log /\ Forall thread_record log.
Proof.
  induction r as [k|c k resume IH]; intros b ps Hr Hw Hq.
  - destruct Hq as [Hc Hlive]. exists (with_kernel k b), ps, []. split; [done|]. split; [by apply with_kernel_rep|].
    split; [apply published_nil|]. split; [|constructor]. apply emits_nil; [by eapply rep_seq|by destruct b|by destruct b].
  - destruct Hq as (Hcall & Hc & Hlive & Hres). destruct c as [ty t pst cst st|pid]; [|done].
    cbn [run_scheduler broker_call]. unfold publish_thread_event.
    edestruct (copy_text_ok (name initialize_record) KERNEL_EVENT_NAME_CAPACITY (Some (thread_name t)))
      as (nm & -> & _ & Hnm & _); [done|done|done|]. rewrite bind_ok.
    set (rec := mkRecord _ _ _ _ _ _ _ _ _ _ nm _ _).
    destruct (publish_ok others (with_kernel k b) ps rec) as (b1 & ps1 & l1 & -> & Hr1 & Hp1 & He1 & Hl1);
      [by apply with_kernel_rep|done| |].
    { split; [done|]. unfold terminated. cbn. apply list_elem_of_here. }
    rewrite bind_ok. destruct (IH (kernel b1) b1 ps1 Hr1) as (b2 & ps2 & l2 & -> & Hr2 & Hp2 & He2 & Hl2).
    { pose proof (waiters_published _ _ _ Hp1). lia. }
    { apply Hres. by eapply rep_calm. }
    eexists b2, ps2, (_ :: l1 ++ l2). split; [done|]. split; [done|]. split; [|split].
    + change (?x :: l1 ++ l2) with ((x :: l1) ++ l2). by eapply published_trans.
    + change (?x :: l1 ++ l2) with ((x :: l1) ++ l2). eapply emits_app; [|done].
      destruct He1 as [F1 S1 N1]. split; [|by destruct b|by destruct b]. etransitivity; [|done]. by destruct b.
    + constructor; [done|by apply Forall_app].
Qed.
End Loop.

Lemma wake_waiter_ok d : wake_spec d (wake_waiter d).
Proof.
  induction d as [|d IH]; intros others b ps i p a Hr Hi Hw; destruct (get_ok _ _ _ _ _ _ Hr Hi) as (s & Hg & Hs & Ha);
    cbn [wake_waiter]; rewrite Hg, bind_ok, (sr_waiter _ _ Ha); (destruct (a_waiter a) as [w|] eqn:Hwt).
  2, 4: exists b, ps, []; split; [done|]; split; [done|]; split; [|split; [by apply emits_nil; [eapply rep_seq|..]|constructor]];
    rewrite list_insert_id; [apply published_nil|]; rewrite Hi; destruct a; cbn in *; by subst.
  - pose proof (waiters_insert _ _ _ (p, woken a) Hi) as Hwi. unfold waits in Hwi. cbn in Hwi. rewrite Hwt in Hwi. lia.
  - edestruct (set_ok others b ps i p a (with_waiter None) (woken a)) as (b1 & -> & Hr1 & Hf1 & Hsq1 & Hk1); [done|done| |by intros []|done|].
    { intros s' _ [A1 A2 A3 A4 [A5 A5'] A6 A7 A8 A9 A10]. destruct s'. cbn in *. split; cbn; try done.
      split; [done|]. destruct A5' as [A|[]]; [by left|right; by split]. }
    rewrite bind_ok. cbn zeta. set (b2 := with_kernel _ b1).
    assert (rep others b2 (<[i := (p, woken a)]> ps)) as Hr2.
    { apply with_kernel_rep; [done|by rewrite clear_wait_live|]. apply clear_wait_calm. by eapply rep_calm. }
    destruct (run_scheduler_ok d (wake_waiter d) IH others (sched_enqueue w (kernel b2)) b2 _ Hr2) as (b' & ps' & log & -> & Hr' & Hp & He & Hl).
    { pose proof (waiters_insert _ _ _ (p, woken a) Hi) as Hwi. unfold waits in Hwi. cbn in Hwi. rewrite Hwt in Hwi. lia. }
    { apply enqueue_quiet. by eapply rep_calm. }
    exists b', ps', log. split; [done|]. split; [done|]. split; [done|]. split; [|done].
    change log with ([] ++ log). eapply emits_app; [|done]. apply emits_nil; [by eapply rep_seq| |unfold b2; by destruct b1].
    etransitivity; [done|]. unfold b2. by destruct b1.
Qed.

(** The bound the calls use is enough for any number of waiting threads. *)
Lemma wake_any_ok d : wake_spec d wake_any.
Proof.
  intros others b ps i p a Hr Hi _. unfold wake_any. apply (wake_waiter_ok (size (subscribers b))); [done|done|].
  pose proof (waiters_le ps). pose proof (dlist_length _ _ _ _ (rep_list _ _ _ Hr)) as Hle. rewrite length_map in Hle. lia.
Qed.
End Wake.
