(* ===== verification/KernelEventCalls.v ===== *)
(** The calls of the event broker on the list of subscriptions: finding one,
    destroying one or all of a process, reading and querying, waiting. *)
From stdpp Require Import base list gmap.
From Stdlib Require Import ZArith Lia.
From S2P Require Import Prelude KernelText DList KernelIface KernelEvent KernelEventRing KernelEventProofs KernelEventPublish KernelEventWake.

Local Open Scope Z_scope.

(** ** Finding a subscription *)
Definition is_sub (owner id : Z) (x : Z * Sub) : Prop := a_id x.2 = id /\ a_owner x.2 = owner.
#[export] Instance is_sub_dec owner id x : Decision (is_sub owner id x).
Proof. unfold is_sub. apply _. Defined.

(** Position and contents of the first subscription with that id and owner. *)
Definition lookup_sub (owner id : Z) (ps : list (Z * Sub)) : option (nat * (Z * Sub)) := list_find (is_sub owner id) ps.

Section Calls.
Context `{KernelLaws}.
Implicit Types (b : Broker) (ps : list (Z * Sub)) (wake : Z -> Broker -> Exec Broker).

Lemma find_ok others b ps owner id :
  rep others b ps -> find_subscription owner id b = Ok ((fst ∘ snd) <$> lookup_sub owner id ps).
Proof.
  intros Hr. unfold find_subscription.
  rewrite (dl_find_ok _ _ _ _ _ (fun s => (subscription_id s =? id) && (owner_process_id s =? owner)) (rep_list _ _ _ Hr)) by done.
  f_equal. apply list_find_agree. intros [p a] Hx. apply list_elem_of_lookup in Hx as [i Hi].
  destruct (rep_subs _ _ _ Hr i p a Hi) as (s & Hs & Ha). cbn. rewrite Hs. cbn. unfold is_sub. cbn.
  rewrite (sr_id _ _ Ha), (sr_owner _ _ Ha).
  destruct (Z.eqb_spec (a_id a) id), (Z.eqb_spec (a_owner a) owner); cbn; naive_solver.
Qed.

Lemma lookup_sub_Some owner id ps i x :
  lookup_sub owner id ps = Some (i, x) -> ps !! i = Some x /\ a_id x.2 = id /\ a_owner x.2 = owner.
Proof. intros (Hi & [H1 H2] & _)%list_find_Some. done. Qed.

(** ** Destroying *)
Lemma published_lookup log ps ps' i p a :
  published log ps ps' -> ps !! i = Some (p, a) -> exists a', ps' !! i = Some (p, a') /\ a_owner a' = a_owner a.
Proof.
  intros Hp Hi. destruct (Forall2_lookup_l _ _ _ _ _ Hp Hi) as ([q a'] & Hi' & Hq & o & _ & Hd). cbn in *. subst q.
  exists a'. split; [done|]. by apply delivered_static in Hd as (_ & ? & _).
Qed.

Lemma destroy_ok others b ps i p a :
  rep others b ps -> ps !! i = Some (p, a) ->
  exists b' ps1 log, destroy_subscriber wake_any p b = Ok b' /\ rep others b' (delete i ps1) /\
    published log (<[i := (p, woken a)]> ps) ps1 /\ emits b b' log /\ Forall thread_record log.
Proof.
  intros Hr Hi. unfold destroy_subscriber.
  destruct (wake_any_ok (waiters ps) _ _ _ _ _ _ Hr Hi) as (b1 & ps1 & log & -> & Hr1 & Hp & He & Hl); [done|]. rewrite bind_ok.
  destruct (published_lookup _ _ _ i p (woken a) Hp) as (a1 & Hi1 & _); [apply list_lookup_insert_eq; by eapply lookup_lt_Some|].
  destruct (unlink_release_ok _ _ _ _ _ _ Hr1 Hi1) as (b' & -> & Hr' & Hf' & Hsq').
  exists b', ps1, log. split; [done|]. split; [done|]. split; [done|]. split; [|done].
  rewrite <- (app_nil_r log). eapply emits_app; [done|]. apply emits_nil; [by eapply rep_seq|done|done].
Qed.

Lemma published_delete log ps ps' i : published log ps ps' -> published log (delete i ps) (delete i ps').
Proof. intros Hp. revert i. induction Hp as [|x y ps ps' Hxy Hp IH]; intros [|i]; cbn; [constructor..|done|]. constructor; [done|apply IH]. Qed.

Lemma delete_insert_same {A} (l : list A) i x : delete i (<[i := x]> l) = delete i l.
Proof. revert i. induction l as [|y l IH]; intros [|i]; cbn; [done..|]. f_equal. apply IH. Qed.

(** The subscriptions that do not belong to [owner]. *)
Definition foreign (owner : Z) (x : Z * Sub) : Prop := a_owner x.2 <> owner.
#[export] Instance foreign_dec owner x : Decision (foreign owner x).
Proof. unfold foreign. apply _. Defined.

Lemma published_filter log owner ps ps' :
  published log ps ps' -> published log (filter (foreign owner) ps) (filter (foreign owner) ps').
Proof.
  induction 1 as [|x y ps ps' Hxy Hp IH]; [constructor|]. pose proof Hxy as [_ (o & _ & Hd)].
  apply delivered_static in Hd as (_ & Ho & _). rewrite !filter_cons.
  assert (foreign owner x <-> foreign owner y) by (unfold foreign; rewrite Ho; done).
  destruct (decide (foreign owner x)), (decide (foreign owner y)); try tauto. by constructor.
Qed.

Lemma unsubscribe_loop others owner fuel b qs rest :
  rep others b (qs ++ rest) -> (length rest < fuel)%nat ->
  exists b' ps' log, iterate fuel (unsubscribe_step wake_any owner) (first (map fst rest) None, b) = Ok b' /\ rep others b' ps' /\
    published log (qs ++ filter (foreign owner) rest) ps' /\ emits b b' log.
Proof.
  revert b qs rest. induction fuel as [|fuel IH]; intros b qs rest Hr Hf; [lia|].
  destruct rest as [|[p a] rest].
  { exists b, (qs ++ []), []. split; [done|]. split; [done|]. split; [apply published_nil|by apply emits_nil; [eapply rep_seq|..]]. }
  assert ((qs ++ (p, a) :: rest) !! length qs = Some (p, a)) as Hi by (by rewrite lookup_app_r, Nat.sub_diag).
  destruct (next_ok _ _ _ _ _ _ Hr Hi) as (s & Hg & Ha & Hnx). cbn [iterate first map fst unsubscribe_step].
  rewrite Hg, bind_ok, (sr_owner _ _ Ha). rewrite map_app, lookup_app_r, length_map in Hnx by (rewrite length_map; lia).
  replace (S (length qs) - length qs)%nat with 1%nat in Hnx by lia. cbn [map lookup list_lookup] in Hnx.
  rewrite <- (first_drop _ 0), drop_0 in Hnx. rewrite filter_cons. unfold foreign at 2. cbn [snd].
  destruct (Z.eqb_spec (a_owner a) owner) as [Ho|Ho].
  - rewrite decide_False by tauto.
    destruct (destroy_ok _ _ _ _ _ _ Hr Hi) as (b1 & ps1 & l1 & -> & Hr1 & Hp1 & He1 & _). rewrite !bind_ok, Hnx.
    apply (published_delete _ _ _ (length qs)) in Hp1. rewrite delete_insert_same, delete_middle in Hp1.
    apply Forall2_app_inv_l in Hp1 as (qs1 & rest1 & Hpq & Hpr & Heq). rewrite Heq in Hr1.
    rewrite <- (published_addr _ _ _ Hpr). destruct (IH b1 qs1 rest1 Hr1) as (b2 & ps2 & l2 & -> & Hr2 & Hp2 & He2).
    { rewrite <- (Forall2_length _ _ _ Hpr). cbn in Hf. lia. }
    exists b2, ps2, (l1 ++ l2). split; [done|]. split; [done|]. split; [|by eapply emits_app].
    eapply published_trans; [|done]. apply Forall2_app; [done|by apply published_filter].
  - rewrite decide_True by done. rewrite !bind_ok, Hnx.
    destruct (IH b (qs ++ [(p, a)]) rest) as (b2 & ps2 & l2 & -> & Hr2 & Hp2 & He2); [by rewrite <- app_assoc|cbn in Hf; lia|].
    exists b2, ps2, l2. split; [done|]. split; [done|]. split; [by rewrite <- app_assoc in Hp2|done].
Qed.

Lemma event_rep_size others b ps : rep others b ps -> (length ps <= size (subscribers b))%nat.
Proof. intros Hr. pose proof (dlist_length _ _ _ _ (rep_list _ _ _ Hr)) as Hl. by rewrite length_map in Hl. Qed.

Lemma unsubscribe_process_ok others b ps owner :
  rep others b ps ->
  exists b' ps' log, unsubscribe_process wake_any owner b = Ok b' /\ rep others b' ps' /\
    published log (filter (foreign owner) ps) ps' /\ emits b b' log.
Proof.
  intros Hr. unfold unsubscribe_process. rewrite (head_ok _ _ _ Hr), <- first_drop, drop_0.
  apply (unsubscribe_loop others owner _ b [] ps); [done|]. pose proof (event_rep_size _ _ _ Hr). lia.
Qed.

Lemma init_loop others fuel b ps :
  rep others b ps -> (length ps < fuel)%nat ->
  exists b', iterate fuel init_step b = Ok b' /\ rep others b' [] /\ frame b b'.
Proof.
  revert b ps. induction fuel as [|fuel IH]; intros b ps Hr Hf; [lia|]. cbn [iterate]. unfold init_step at 1.
  rewrite (head_ok _ _ _ Hr). destruct ps as [|[p a] ps]; [by exists b|]. cbn [map fst lookup list_lookup].
  destruct (destroy_ok others b _ 0%nat p a Hr eq_refl) as (b1 & ps1 & log & -> & Hr1 & Hp & [Hfr _ _] & _). rewrite !bind_ok.
  apply Forall2_length in Hp. cbn in Hp. destruct (IH b1 (delete 0%nat ps1) Hr1) as (b2 & -> & Hr2 & Hf2).
  { destruct ps1; cbn in *; lia. }
  exists b2. split; [done|]. split; [done|]. by etransitivity.
Qed.

(** ** Reading *)
Lemma read_loop others p i n : forall (idx : nat) out b ps a,
  rep others b ps -> ps !! i = Some (p, a) -> (n <= length (a_events a))%nat -> (idx + n <= length out)%nat ->
  exists b', for_range n (Z.of_nat idx) (read_step p) (out, b) = Ok (splice out idx (take n (a_events a)), b') /\
    rep others b' (<[i := (p, with_events (drop n (a_events a)) (a_cap a) (a_block a) (a_dropped a) (a_newest a) (a_waiter a) a)]> ps) /\
    frame b b' /\ g_next_sequence b' = g_next_sequence b.
Proof.
  induction n as [|n IH]; intros idx out b ps a Hr Hi Hn Hidx.
  { exists b. rewrite take_0, drop_0, splice_nil, list_insert_id; [done|]. rewrite Hi. by destruct a. }
  destruct (a_events a) as [|e rest] eqn:He; [cbn in Hn; lia|]. cbn [for_range]. unfold read_step at 1.
  destruct (get_ok _ _ _ _ _ _ Hr Hi) as (s & Hg & Hs & Ha). rewrite Hg, bind_ok.
  destruct (sr_ring _ _ Ha) as [Hq [(_ & _ & Hnil)|Hf]]; [congruence|]. rewrite He in Hq, Hf.
  destruct (ring_pop _ _ _ Hq Hf) as (-> & _). rewrite !bind_ok. cbn [record_in]. rewrite bind_ok, aset_ok, bind_ok by lia.
  destruct (drop_ok _ _ _ _ _ _ e rest Hr Hi He) as (b1 & Hdrop & Hr1 & Hf1 & Hsq1). rewrite Hg, bind_ok in Hdrop.
  destruct (umod _ _) as [k| | |]; [|done..]. rewrite bind_ok in Hdrop. rewrite bind_ok, Hdrop, !bind_ok. pose proof (lookup_lt_Some _ _ _ Hi).
  replace (Z.of_nat idx + 1) with (Z.of_nat (S idx)) by lia. rewrite Nat2Z.id.
  assert (forall x, <[i := (p, x)]> ps !! i = Some (p, x)) as Hii by (intros; by apply list_lookup_insert_eq).
  destruct (IH (S idx) (<[idx := e]> out) b1 _ _ Hr1 (Hii _)) as (b2 & -> & Hr2 & Hf2 & Hsq2);
    [cbn in *; lia|rewrite length_insert; lia|].
  exists b2. rewrite list_insert_insert_eq in Hr2. split; [|split; [done|split; [by etransitivity|congruence]]].
  do 2 f_equal. cbn [with_events a_events take].
  assert (<[idx := e]> out = splice out idx [e]) as ->.
  { rewrite <- (splice_nil out idx) at 1. rewrite <- (app_nil_l [e]), <- splice_snoc; cbn; rewrite Nat.add_0_r; [done|lia]. }
  replace (S idx) with (idx + length [e])%nat by (cbn; lia). rewrite splice_app; [done|]. rewrite length_take. cbn in *. lia.
Qed.
End Calls.
