(* ===== verification/KernelEventSpec.v ===== *)
(** The contract of the event broker, and that the code keeps it.

    [Abs] is the broker without pointers and buffers: the subscriptions in order,
    each with the records queued for it, and the two counters.  [call_spec] says
    what each call of [KernelEventBroker] returns and does to it; [event_call_refines]
    is the simulation. *)
From stdpp Require Import base list gmap.
From Stdlib Require Import ZArith Lia.
From S2P Require Import Prelude KernelText DList KernelIface KernelEvent KernelEventRing KernelEventProofs KernelEventPublish KernelEventWake KernelEventCalls.

Local Open Scope Z_scope.

Record Abs : Type := mkAbs {
  subs : list (Z * Sub);
  next_id : Z;
  next_seq : Z;
  irq : bool
}.
Definition with_subs (ps : list (Z * Sub)) (A : Abs) : Abs := mkAbs ps (next_id A) (next_seq A) (irq A).

(** ** Calls and results *)
Inductive Call : Type :=
| Init
| Subscribe (owner : Z) (req : option KernelEventSubscriptionRequest) (out_id : bool)
| Unsubscribe (owner id : Z)
| EndProcess (owner : Z)
| Query (owner id : Z) (out_info : bool)
| Wait (owner id : Z)
| Resume (p t : Z) (interrupts_enabled : bool) (st : Status)
| Read (owner id : Z) (out : option (list KernelEventRecord)) (capacity : Z) (out_count : bool)
| PublishProcess (type process_id : Z) (name path : option (list Z)) (parent exit_code state flags : Z) (st : Status)
| PublishThread (type : Z) (thread : Thread) (previous current : Z) (st : Status)
| PublishVfs (type : Z) (path : option (list Z)) (node_type : Z) (st : Status)
| PublishRegistration (type : Z) (name : option (list Z)) (st : Status).

Inductive Result : Type :=
| RDone
| RStatus (s : Status)
| RId (s : Status) (id : option Z)
| RInfo (s : Status) (info : option KernelEventSubscriptionInfo)
| RWait (w : WaitOutcome)
| RRead (s : Status) (out : option (list KernelEventRecord)) (count : Z).

Section Spec.
Context `{Kernel}.

Definition run_call (c : Call) (b : Broker) : Exec (Broker * Result) :=
  match c with
  | Init => '(b, s) <- init b ;; Ok (b, RStatus s)
  | Subscribe o q out => '(b, s, id) <- subscribe o q out b ;; Ok (b, RId s id)
  | Unsubscribe o id => '(b, s) <- unsubscribe o id b ;; Ok (b, RStatus s)
  | EndProcess o => b <- unsubscribe_process wake_any o b ;; Ok (b, RDone)
  | Query o id out => '(s, i) <- query o id out b ;; Ok (b, RInfo s i)
  | Wait o id => '(b, w) <- wait o id b ;; Ok (b, RWait w)
  | Resume p t i st => '(b, s) <- wait_resume p t i st b ;; Ok (b, RStatus s)
  | Read o id out cap oc => '(b, s, out, n) <- read o id out cap oc b ;; Ok (b, RRead s out n)
  | PublishProcess ty pid nm pa par ec st fl s => b <- publish_process_event ty pid nm pa par ec st fl s b ;; Ok (b, RDone)
  | PublishThread ty t pr cu s => b <- publish_thread_event wake_any ty t pr cu s b ;; Ok (b, RDone)
  | PublishVfs ty pa nt s => b <- publish_vfs_event ty pa nt s b ;; Ok (b, RDone)
  | PublishRegistration ty nm s => b <- publish_registration_event ty nm s b ;; Ok (b, RDone)
  end.

(** What callers must keep to: texts are terminated, arrays have their size, and
    a thread resumes only while its subscription exists. *)
Definition request_sized (q : KernelEventSubscriptionRequest) : Prop :=
  len (name_prefix q) = KERNEL_EVENT_NAME_CAPACITY /\ len (path_prefix q) = KERNEL_EVENT_PATH_CAPACITY.

Definition valid_call (b : Broker) (c : Call) : Prop :=
  match c with
  | Subscribe _ (Some q) _ => request_sized q
  | Resume p _ _ _ => is_Some (subscribers b !! p)
  | Read _ _ (Some out) cap _ => 0 <= cap <= len out
  | PublishProcess _ _ nm pa _ _ _ _ _ => source_ok nm /\ source_ok pa
  | PublishThread _ t _ _ _ => terminated (thread_name t)
  | PublishVfs _ pa _ _ => source_ok pa
  | PublishRegistration _ nm _ => source_ok nm
  | _ => True
  end.

(** ** The contract *)

(** The status [subscribe] answers before it allocates, or the request it takes. *)
Definition accepted (req : option KernelEventSubscriptionRequest) (out_id : bool) : Status + KernelEventSubscriptionRequest :=
  match req, out_id with
  | Some q, true =>
      if negb (req_version q =? KERNEL_EVENT_ABI_VERSION) then inl StatusInvalidArgument else
      if negb (req_flags q =? 0) then inl StatusNotSupported else
      if (family_mask q =? 0) || negb (Z.land (family_mask q) (Z.lxor KERNEL_EVENT_FAMILY_ALL (2 ^ 64 - 1)) =? 0)
      then inl StatusInvalidArgument else inr q
  | _, _ => inl StatusInvalidArgument
  end.

Definition cut (q : KernelEventSubscriptionRequest) : KernelEventSubscriptionRequest :=
  mkRequest (req_version q) (req_flags q) (family_mask q) (req_process_id q) (req_thread_id q)
    (<[63%nat := 0]> (name_prefix q)) (<[159%nat := 0]> (path_prefix q)).

Definition fresh_sub (id owner : Z) (q : KernelEventSubscriptionRequest) : Sub := mkSub id owner (cut q) [] 0 None 0 0 None.

Definition after_read (n : nat) (a : Sub) : Sub :=
  with_events (drop n (a_events a)) (a_cap a) (a_block a) (a_dropped a) (a_newest a) (a_waiter a) a.

Definition parked (t : Z) (a : Sub) : Sub :=
  with_events (a_events a) (a_cap a) (a_block a) (a_dropped a) (a_newest a) (Some t) a.

(** The record a publication builds, from the state it is called in. *)
Definition describes (k : KState) (c : Call) (r : KernelEventRecord) : Prop :=
  let here := default 0 (sched_current_process k) in
  let thread := default 0 (sched_current_thread_id k) in
  match c with
  | PublishProcess ty pid nm pa par ec st fl s =>
      family r = KERNEL_EVENT_FAMILY_PROCESS /\ type r = ty /\ status r = s /\
      source_process_id r = pid /\ source_thread_id r = 0 /\ source_object_id r = pid /\
      c_text (name r) = take 63 (text_of nm) /\ c_text (path r) = take 159 (text_of pa) /\ payload r = PayloadProcess par ec st fl
  | PublishThread ty t pr cu s =>
      family r = KERNEL_EVENT_FAMILY_THREAD /\ type r = ty /\ status r = s /\
      source_process_id r = default 0 (thread_parent t) /\ source_thread_id r = thread_id t /\ source_object_id r = thread_id t /\
      c_text (name r) = take 63 (c_text (thread_name t)) /\ c_text (path r) = [] /\
      payload r = PayloadThread (default 0 (thread_parent t)) pr cu (current_priority t)
  | PublishVfs ty pa nt s =>
      family r = KERNEL_EVENT_FAMILY_FILESYSTEM /\ type r = ty /\ status r = s /\
      source_process_id r = here /\ source_thread_id r = thread /\ source_object_id r = 0 /\
      c_text (name r) = [] /\ c_text (path r) = take 159 (text_of pa) /\ payload r = PayloadFilesystem nt 0
  | PublishRegistration ty nm s =>
      family r = KERNEL_EVENT_FAMILY_REGISTRATION /\ type r = ty /\ status r = s /\
      source_process_id r = here /\ source_thread_id r = thread /\ source_object_id r = 0 /\
      c_text (name r) = take 63 (text_of nm) /\ c_text (path r) = [] /\ payload r = PayloadRegistration (registration_kind_for_type ty)
  | _ => False
  end.

(** [log] was published: the sequence numbers continue, the rest stays. *)
Definition logs (A A' : Abs) (log : list KernelEventRecord) : Prop :=
  next_id A' = next_id A /\ irq A' = irq A /\ next_seq A' = u64 (next_seq A + len log) /\ numbered (next_seq A) log.

Definition info_of (a : Sub) (i : KernelEventSubscriptionInfo) : Prop :=
  info_version i = KERNEL_EVENT_ABI_VERSION /\ info_subscription_id i = a_id a /\ info_owner_process_id i = a_owner a /\
  info_family_mask i = family_mask (a_req a) /\ info_process_id i = req_process_id (a_req a) /\
  info_thread_id i = req_thread_id (a_req a) /\ info_queued_count i = len (a_events a) /\ info_capacity i = a_cap a /\
  info_next_sequence i = match a_events a with e :: _ => sequence e | [] => u64 (a_newest a + 1) end /\
  info_newest_sequence i = a_newest a /\ info_dropped_count i = a_dropped a /\
  c_text (info_name_prefix i) = take 63 (c_text (name_prefix (a_req a))) /\
  c_text (info_path_prefix i) = take 159 (c_text (path_prefix (a_req a))).

Definition wait_spec (k : KState) (owner id : Z) (A : Abs) (w : WaitOutcome) (A' : Abs) : Prop :=
  match lookup_sub owner id (subs A) with
  | None => w = Returned StatusNotFound /\ A' = A
  | Some (i, (p, a)) =>
      if negb (bool_decide (a_events a = [])) then w = Returned StatusOK /\ A' = A else
      match sched_current k with
      | Some t =>
          if thread_running t k && bool_decide (a_waiter a = None \/ a_waiter a = Some t)
          then w = Parked p t (irq A) /\ A' = mkAbs (<[i := (p, parked t a)]> (subs A)) (next_id A) (next_seq A) false
          else w = Returned StatusBusy /\ A' = A
      | None => w = Returned StatusBusy /\ A' = A
      end
  end.

Definition call_spec (k : KState) (c : Call) (A : Abs) (r : Result) (A' : Abs) : Prop :=
  match c with
  | Init => r = RStatus StatusOK /\ A' = mkAbs [] 1 0 (irq A)
  | Subscribe owner req out =>
      match accepted req out with
      | inl s => r = RId s None /\ A' = A
      | inr q =>
          r = RId StatusNoMemory None /\ A' = A \/
          r = RId StatusOK (Some (next_id A)) /\
          exists p, A' = mkAbs (subs A ++ [(p, fresh_sub (next_id A) owner q)]) (u64 (next_id A + 1)) (next_seq A) (irq A)
      end
  | Unsubscribe owner id =>
      if id =? 0 then r = RStatus StatusInvalidArgument /\ A' = A else
      match lookup_sub owner id (subs A) with
      | None => r = RStatus StatusNotFound /\ A' = A
      | Some (i, (p, a)) =>
          r = RStatus StatusOK /\ exists log ps, Forall thread_record log /\ logs A A' log /\
            published log (<[i := (p, woken a)]> (subs A)) ps /\ subs A' = delete i ps
      end
  | EndProcess owner => r = RDone /\ exists log, logs A A' log /\ published log (filter (foreign owner) (subs A)) (subs A')
  | Query owner id out =>
      A' = A /\
      if negb out then r = RInfo StatusInvalidArgument None else
      match lookup_sub owner id (subs A) with
      | None => r = RInfo StatusNotFound None
      | Some (_, (_, a)) => exists i, r = RInfo StatusOK (Some i) /\ info_of a i
      end
  | Wait owner id => exists w, r = RWait w /\ wait_spec k owner id A w A'
  | Resume p t i s =>
      r = RStatus s /\ exists j a, subs A !! j = Some (p, a) /\
        A' = mkAbs (if bool_decide (a_waiter a = Some t) then <[j := (p, woken a)]> (subs A) else subs A) (next_id A) (next_seq A) i
  | Read owner id out cap oc =>
      if negb oc || negb (cap =? 0) && bool_decide (out = None) then r = RRead StatusInvalidArgument out 0 /\ A' = A else
      match lookup_sub owner id (subs A) with
      | None => r = RRead StatusNotFound out 0 /\ A' = A
      | Some (i, (p, a)) =>
          let n := (Z.to_nat cap `min` length (a_events a))%nat in
          r = RRead StatusOK (option_map (fun l => splice l 0 (take n (a_events a))) out) (Z.of_nat n) /\
          A' = with_subs (<[i := (p, after_read n a)]> (subs A)) A
      end
  | _ =>
      r = RDone /\ exists e log, describes k c e /\ Forall thread_record log /\
        logs A A' (e :: log) /\ published (e :: log) (subs A) (subs A')
  end.
End Spec.

Section Refinement.
Context `{KernelLaws}.
Implicit Types (b : Broker) (A : Abs).

(** The broker holds [A], next to the heap blocks [others] of the rest of the kernel. *)
Definition holds (others : list Z) b A : Prop :=
  rep others b (subs A) /\ g_next_subscription_id b = next_id A /\ g_next_sequence b = next_seq A /\ interrupts b = irq A.

Definition refines (c : Call) : Prop := forall others b A, holds others b A -> valid_call b c ->
  exists b' r A', run_call c b = Ok (b', r) /\ holds others b' A' /\ call_spec (kernel b) c A r A'.

(** An emission seen from the abstract state. *)
Lemma emits_holds others b b' A ps log :
  holds others b A -> rep others b' ps -> emits b b' log ->
  holds others b' (mkAbs ps (next_id A) (u64 (next_seq A + len log)) (irq A)) /\
  logs A (mkAbs ps (next_id A) (u64 (next_seq A + len log)) (irq A)) log.
Proof.
  intros (Hr & Hi & Hs & Hq) Hr' [[F1 F2] S1 N1]. rewrite Hs in S1, N1. split; [|done].
  split; [done|]. cbn. by rewrite F1, F2, S1.
Qed.

Lemma refines_init : refines Init.
Proof.
  intros others b A (Hr & Hi & Hs & Hq) _. cbn [run_call]. unfold init.
  destruct (init_loop others (S (size (subscribers b))) b (subs A) Hr) as (b' & -> & [D1 D2 D3 D4 D5 D6] & Hf); [pose proof (event_rep_size _ _ _ Hr); lia|].
  rewrite !bind_ok. eexists _, _, (mkAbs [] 1 0 (irq A)). split; [done|]. split; [|done]. destruct b'. cbn in *.
  destruct Hf as [_ Hf]. cbn in Hf. split; [split; done|]. cbn. by rewrite Hf.
Qed.

Lemma cut_ok q : request_sized q ->
  cut_text KERNEL_EVENT_NAME_CAPACITY (name_prefix q) = Ok (name_prefix (cut q)) /\
  cut_text KERNEL_EVENT_PATH_CAPACITY (path_prefix q) = Ok (path_prefix (cut q)) /\ request_ok (cut q).
Proof.
  unfold request_sized, KERNEL_EVENT_NAME_CAPACITY, KERNEL_EVENT_PATH_CAPACITY. intros [Hn Hp]. unfold cut_text.
  rewrite !aset_ok by lia. split; [done|]. split; [done|]. unfold request_ok, terminated. cbn. split.
  - apply (list_elem_of_lookup_2 _ 63%nat). apply list_lookup_insert_eq. lia.
  - apply (list_elem_of_lookup_2 _ 159%nat). apply list_lookup_insert_eq. lia.
Qed.

Lemma refines_subscribe owner req out : refines (Subscribe owner req out).
Proof.
  intros others b A (Hr & Hi & Hs & Hq) Hv. cbn [run_call call_spec]. unfold subscribe, accepted.
  destruct req as [q|]; [|destruct out; exists b; eexists _, A; by split_and!]. destruct out; [|exists b; eexists _, A; by split_and!].
  cbn in Hv. destruct (negb (req_version q =? _)); [exists b; eexists _, A; by split_and!|].
  destruct (negb (req_flags q =? 0)); [exists b; eexists _, A; by split_and!|]. unfold KERNEL_EVENT_FAMILY_NONE.
  destruct (_ || _); [exists b; eexists _, A; by split_and!|].
  pose proof (alloc_calm subscriber_bytes record_align _ (rep_calm _ _ _ Hr)) as Hk.
  destruct (heap_alloc subscriber_bytes record_align (kernel b)) as [[p|] k] eqn:Hall; cbn in Hk.
  2: { rewrite bind_ok. eexists _, _, A. split; [done|]. split; [|by left]. split; [|by destruct b].
       apply with_kernel_rep; [done|by eapply alloc_fails|done]. }
  destruct (accounts_alloc _ _ _ _ _ _ _ Hall (rep_heap _ _ _ Hr)) as (Hacc & Hfresh & _).
  destruct (cut_ok q Hv) as (Hcn & Hcp & Hok). rewrite Hcn, Hcp, !bind_ok. cbn zeta. fold (cut q).
  destruct b as [k0 m h t id sq iq]. cbn in Hi, Hs, Hq |- *. subst id sq iq.
  set (s := mkSubscriber _ _ _ _ _ _ _ _ _ _ _ _ _).
  assert (p ∉ map fst (subs A)) as Hp.
  { intros Hin. apply Hfresh. apply list_elem_of_fmap in Hin as ([p' a] & -> & Hin). unfold owned.
    apply list_elem_of_In, in_flat_map. exists (p', a). split; [by apply list_elem_of_In|by left]. }
  assert (m !! p = None) as Hmp.
  { apply not_elem_of_dom. pose proof (rep_dom _ _ _ Hr) as Hd. cbn in Hd. by rewrite Hd, elem_of_list_to_set. }
  set (b1 := mkBroker k (<[p := s]> m) h t (u64 (next_id A + 1)) (next_seq A) (irq A)).
  destruct (link_ok (p :: others) b1 (subs A) p s (fresh_sub (next_id A) owner q)) with (others' := others) as (b2 & Hlink & Hr2 & [F1 F2] & Hsq2).
  - destruct Hr as [D1 D2 D3 D4 D5 D6]. unfold b1. cbn in *. rewrite delete_insert_id by done. split; cbn; try done.
    unfold accounts in *. rewrite Hacc. symmetry. apply (Permutation_middle others).
  - unfold b1. cbn. by rewrite lookup_insert, decide_True.
  - split; try done. split; [done|]. by left.
  - done.
  - unfold b1, owned, accounts in *. cbn. rewrite flat_map_app, Hacc. cbn. by rewrite Permutation_cons_append.
  - rewrite Hlink, !bind_ok. eexists _, _, _. split; [done|]. split; [|right; split; [done|eexists; done]].
    split; [done|]. cbn. by rewrite F1, F2, Hsq2.
Qed.

Lemma refines_unsubscribe owner id : refines (Unsubscribe owner id).
Proof.
  intros others b A Hh _. pose proof Hh as (Hr & Hi & Hs & Hq). cbn [run_call call_spec]. unfold unsubscribe.
  destruct (id =? 0); [exists b; eexists _, A; by split_and!|]. rewrite (find_ok _ _ _ _ _ Hr), bind_ok.
  destruct (lookup_sub owner id (subs A)) as [[i [p a]]|] eqn:Hl; cbn [fmap option_fmap option_map compose fst snd];
    [|exists b; eexists _, A; by split_and!].
  apply lookup_sub_Some in Hl as (Hip & _). destruct (destroy_ok _ _ _ _ _ _ Hr Hip) as (b' & ps1 & log & -> & Hr' & Hp & He & Hth).
  rewrite !bind_ok. destruct (emits_holds _ _ _ _ _ _ Hh Hr' He) as [Hh' Hlg]. eexists _, _, _. split; [done|]. split; [done|].
  split; [done|]. exists log, ps1. by split_and!.
Qed.

Lemma refines_end_process owner : refines (EndProcess owner).
Proof.
  intros others b A Hh _. pose proof Hh as (Hr & _). cbn [run_call call_spec].
  destruct (unsubscribe_process_ok _ _ _ owner Hr) as (b' & ps' & log & -> & Hr' & Hp & He). rewrite bind_ok.
  destruct (emits_holds _ _ _ _ _ _ Hh Hr' He) as [Hh' Hlg]. eexists _, _, _. split; [done|]. split; [done|].
  split; [done|]. by exists log.
Qed.

Lemma refines_query owner id out : refines (Query owner id out).
Proof.
  intros others b A Hh _. pose proof Hh as (Hr & _). cbn [run_call call_spec]. unfold query.
  destruct out; cbn [negb]; [|exists b; eexists _, A; by split_and!]. rewrite (find_ok _ _ _ _ _ Hr), bind_ok.
  destruct (lookup_sub owner id (subs A)) as [[i [p a]]|] eqn:Hl; cbn [fmap option_fmap option_map compose fst snd];
    [|exists b; eexists _, A; by split_and!].
  apply lookup_sub_Some in Hl as (Hip & _). destruct (get_ok _ _ _ _ _ _ Hr Hip) as (s & -> & _ & Ha). rewrite bind_ok.
  destruct (sub_rep_cap _ _ Ha) as (Hc1 & Hc2 & Hn). destruct (sr_req_ok _ _ Ha) as [Hqn Hqp]. rewrite (sr_req _ _ Ha).
  assert ((if negb (queued_count s =? 0) then x <- aget (slots_of s) (read_index s) ;; r <- record_in x ;; Ok (sequence r)
           else Ok (u64 (newest_sequence s + 1)))
    = Ok (match a_events a with e :: _ => sequence e | [] => u64 (a_newest a + 1) end)) as ->.
  { rewrite Hn, <- (sr_newest _ _ Ha). destruct (a_events a) as [|e rest] eqn:He; [done|].
    destruct (sr_ring _ _ Ha) as [Hq [(_ & _ & Hnil)|Hf]]; [congruence|]. rewrite He in *.
    destruct (ring_pop _ _ _ Hq Hf) as (-> & _). done. }
  rewrite bind_ok.
  destruct (copy_text_ok (zero_text KERNEL_EVENT_NAME_CAPACITY) KERNEL_EVENT_NAME_CAPACITY (Some (name_prefix (a_req a))))
    as (np & -> & _ & _ & Hnp); [done..|]. rewrite bind_ok.
  destruct (copy_text_ok (zero_text KERNEL_EVENT_PATH_CAPACITY) KERNEL_EVENT_PATH_CAPACITY (Some (path_prefix (a_req a))))
    as (pp & -> & _ & _ & Hpp); [done..|]. rewrite !bind_ok.
  exists b. eexists _, A. split; [done|]. split; [done|]. split; [done|]. eexists. split; [done|]. destruct Ha. unfold info_of. cbn.
  split_and!; try done; congruence.
Qed.

Lemma set_waiter_ok others b ps i p a v :
  rep others b ps -> ps !! i = Some (p, a) ->
  exists b', set b p (with_waiter v) = Ok b' /\
    rep others b' (<[i := (p, with_events (a_events a) (a_cap a) (a_block a) (a_dropped a) (a_newest a) v a)]> ps) /\
    frame b b' /\ g_next_sequence b' = g_next_sequence b.
Proof.
  intros Hr Hi. edestruct (set_ok others b ps i p a (with_waiter v)) as (b1 & Hset & Hr1 & Hf1 & Hsq1 & _);
    [done|done| |by intros []| |by exists b1]; [|done].
  intros s' _ [A1 A2 A3 A4 [A5 A5'] A6 A7 A8 A9 A10]. destruct s'. cbn in *. split; cbn; try done.
  split; [done|]. destruct A5' as [A|[]]; [by left|right; by split].
Qed.

Lemma with_interrupts_rep others b ps v : rep others b ps -> rep others (with_interrupts v b) ps.
Proof. intros [D1 D2 D3 D4 D5 D6]. by destruct b. Qed.

Lemma with_interrupts_same b v : with_interrupts (interrupts b) (with_interrupts v b) = b.
Proof. by destruct b. Qed.

Lemma refines_wait owner id : refines (Wait owner id).
Proof.
  intros others b A Hh _. pose proof Hh as (Hr & Hi & Hs & Hq). cbn [run_call call_spec]. unfold wait, wait_spec. cbn zeta.
  assert (forall w, exists b' r A', ('(b0, w0) <- Ok (with_interrupts (interrupts b) (with_interrupts false b), Returned w) ;; Ok (b0, RWait w0)) = Ok (b', r) /\
    holds others b' A' /\ r = RWait (Returned w) /\ A' = A) as Hret.
  { intros w. rewrite with_interrupts_same, bind_ok. exists b. by eexists _, A. }
  assert (forall w (P : WaitOutcome -> Abs -> Prop), P (Returned w) A ->
    exists b' r A', ('(b0, w0) <- Ok (with_interrupts (interrupts b) (with_interrupts false b), Returned w) ;; Ok (b0, RWait w0)) = Ok (b', r) /\
    holds others b' A' /\ exists w', r = RWait w' /\ P w' A') as Hdone.
  { intros w P HP. destruct (Hret w) as (b' & r & A' & Hb & Hh' & -> & ->). eauto 10. }
  rewrite (find_ok others _ (subs A)), bind_ok by (by apply with_interrupts_rep).
  destruct (lookup_sub owner id (subs A)) as [[i [p a]]|] eqn:Hl; cbn [fmap option_fmap option_map compose fst snd]; [|by apply Hdone].
  apply lookup_sub_Some in Hl as (Hip & _). pose proof (with_interrupts_rep _ _ _ false Hr) as Hrf.
  destruct (get_ok _ _ _ _ _ _ Hrf Hip) as (s & Hg & _ & Ha). rewrite Hg, bind_ok.
  destruct (sub_rep_cap _ _ Ha) as (_ & _ & ->). rewrite (sr_waiter _ _ Ha).
  replace (kernel (with_interrupts false b)) with (kernel b) by (by destruct b).
  destruct (a_events a) as [|e rest]; cbn [length]; [|rewrite bool_decide_eq_false_2 by done; by apply Hdone].
  rewrite bool_decide_eq_true_2 by done. cbn. change (0 =? 0) with true. cbn [negb].
  destruct (sched_current (kernel b)) as [t|]; [|by apply Hdone].
  destruct (thread_running t (kernel b)); cbn [negb andb]; [|by apply Hdone].
  assert (exists b' r A', ('(b0, w) <- (b0 <- set (with_interrupts false b) p (with_waiter (Some t)) ;; Ok (b0, Parked p t (interrupts b))) ;; Ok (b0, RWait w)) = Ok (b', r) /\
    holds others b' A' /\ exists w, r = RWait w /\ w = Parked p t (irq A) /\
      A' = mkAbs (<[i := (p, parked t a)]> (subs A)) (next_id A) (next_seq A) false) as Hpark.
  { destruct (set_waiter_ok _ _ _ _ _ _ (Some t) Hrf Hip) as (b' & -> & Hr' & [F1 F2] & Hsq). rewrite !bind_ok.
    eexists b', _, _. split; [done|]. split; [|by rewrite <- Hq; eexists]. split; [done|]. cbn. rewrite F1, F2, Hsq. by destruct b. }
  destruct (a_waiter a) as [w|].
  - destruct (Z.eqb_spec w t) as [->|Hne]; cbn [negb].
    + rewrite bool_decide_eq_true_2 by auto. apply Hpark.
    + rewrite bool_decide_eq_false_2 by naive_solver. by apply Hdone.
  - rewrite bool_decide_eq_true_2 by auto. apply Hpark.
Qed.

Lemma refines_resume p t i st : refines (Resume p t i st).
Proof.
  intros others b A Hh Hv. pose proof Hh as (Hr & Hi & Hs & Hq). cbn [run_call call_spec]. unfold wait_resume. cbn in Hv.
  assert (exists j a, subs A !! j = Some (p, a)) as (j & a & Hj).
  { assert (p ∈ dom (subscribers b)) as Hp by (by apply elem_of_dom). rewrite (rep_dom _ _ _ Hr), elem_of_list_to_set in Hp.
    apply list_elem_of_fmap in Hp as ([p' a] & -> & Hin). apply list_elem_of_lookup in Hin as [j Hj]. eauto. }
  destruct (get_ok _ _ _ _ _ _ Hr Hj) as (s & -> & _ & Ha). rewrite bind_ok, (sr_waiter _ _ Ha).
  destruct (bool_decide (a_waiter a = Some t)) eqn:Hb.
  - destruct (set_waiter_ok _ _ _ _ _ _ None Hr Hj) as (b' & -> & Hr' & [F1 F2] & Hsq). rewrite !bind_ok.
    eexists _, _, _. split; [done|]. split; [|split; [done|exists j, a; by rewrite Hb]].
    split; [by apply with_interrupts_rep|]. destruct b'. cbn in *. by rewrite F1, Hsq.
  - rewrite !bind_ok. eexists _, _, _. split; [done|]. split; [|split; [done|exists j, a; by rewrite Hb]].
    split; [by apply with_interrupts_rep|]. by destruct b.
Qed.

Lemma refines_read owner id out cap oc : refines (Read owner id out cap oc).
Proof.
  intros others b A Hh Hv. pose proof Hh as (Hr & Hi & Hs & Hq). cbn [run_call call_spec]. unfold read.
  destruct oc; cbn [negb orb]; [|exists b; eexists _, A; by split_and!].
  destruct (negb (cap =? 0) && bool_decide (out = None)) eqn:Hbad; [exists b; eexists _, A; by split_and!|].
  rewrite (find_ok _ _ _ _ _ Hr), bind_ok.
  destruct (lookup_sub owner id (subs A)) as [[i [p a]]|] eqn:Hl; cbn [fmap option_fmap option_map compose fst snd];
    [|exists b; eexists _, A; by split_and!].
  apply lookup_sub_Some in Hl as (Hip & _). destruct (get_ok _ _ _ _ _ _ Hr Hip) as (s & -> & _ & Ha). rewrite bind_ok.
  destruct (sub_rep_cap _ _ Ha) as (_ & _ & ->). set (n := (Z.to_nat cap `min` length (a_events a))%nat).
  assert (0 <= cap /\ (n <= length (default [] out))%nat) as [Hc0 Hn].
  { destruct out as [l|]; cbn in *; [lia|]. destruct (Z.eqb_spec cap 0); [unfold n; lia|done]. }
  assert ((if cap <? len (a_events a) then cap else len (a_events a)) = Z.of_nat n) as -> by (unfold n; destruct (Z.ltb_spec cap (len (a_events a))); lia).
  rewrite Nat2Z.id. destruct (read_loop others p i n 0 (default [] out) b _ a Hr Hip) as (b' & Hrun & Hr' & [F1 F2] & Hsq); [unfold n; lia|lia|].
  change (Z.of_nat 0) with 0 in Hrun. rewrite Hrun, !bind_ok. eexists b', _, _. split; [done|].
  split; [|split; [by destruct out|done]]. split; [done|]. cbn. by rewrite F1, F2, Hsq.
Qed.

Lemma refines_publish others b A r c :
  holds others b A -> record_ok r -> describes (kernel b) c (stamped b r) ->
  exists b' A', publish_record wake_any r b = Ok b' /\ holds others b' A' /\
    exists e log, describes (kernel b) c e /\ Forall thread_record log /\ logs A A' (e :: log) /\ published (e :: log) (subs A) (subs A').
Proof.
  intros Hh Hrec Hd. pose proof Hh as (Hr & _).
  destruct (publish_ok _ _ (wake_any_ok (waiters (subs A))) others b (subs A) r Hr) as (b' & ps' & log & -> & Hr' & Hp & He & Hl); [done|done|].
  destruct (emits_holds _ _ _ _ _ _ Hh Hr' He) as [Hh' Hlg]. eexists b', _. split; [done|]. split; [done|]. by eexists _, log.
Qed.

Ltac publish_with Hh c := match goal with |- context [publish_record wake_any ?r ?b] =>
  destruct (refines_publish _ b _ r c Hh) as (b' & A' & -> & Hh' & Hspec);
    [split; [assumption || apply list_elem_of_here|assumption || apply list_elem_of_here]|by split_and!|] end;
  rewrite bind_ok; eexists _, _, _; split; [done|]; split; [done|]; by split.

Lemma refines_publish_process ty pid nm pa par ec st fl s : refines (PublishProcess ty pid nm pa par ec st fl s).
Proof.
  intros others b A Hh [Hn Hp]. cbn [run_call]. unfold publish_process_event.
  destruct (copy_text_ok (name initialize_record) KERNEL_EVENT_NAME_CAPACITY nm) as (n & -> & _ & Hnt & Hnn); [done..|].
  destruct (copy_text_ok (path initialize_record) KERNEL_EVENT_PATH_CAPACITY pa) as (p & -> & _ & Hpt & Hpp); [done..|].
  rewrite !bind_ok. publish_with Hh (PublishProcess ty pid nm pa par ec st fl s).
Qed.

Lemma refines_publish_thread ty t pr cu s : refines (PublishThread ty t pr cu s).
Proof.
  intros others b A Hh Hv. cbn [run_call]. unfold publish_thread_event.
  destruct (copy_text_ok (name initialize_record) KERNEL_EVENT_NAME_CAPACITY (Some (thread_name t))) as (n & -> & _ & Hnt & Hnn); [done..|].
  rewrite !bind_ok. publish_with Hh (PublishThread ty t pr cu s).
Qed.

Lemma refines_publish_vfs ty pa nt s : refines (PublishVfs ty pa nt s).
Proof.
  intros others b A Hh Hv. cbn [run_call]. unfold publish_vfs_event.
  destruct (copy_text_ok (path initialize_record) KERNEL_EVENT_PATH_CAPACITY pa) as (p & -> & _ & Hpt & Hpp); [done..|].
  rewrite !bind_ok. publish_with Hh (PublishVfs ty pa nt s).
Qed.

Lemma refines_publish_registration ty nm s : refines (PublishRegistration ty nm s).
Proof.
  intros others b A Hh Hv. cbn [run_call]. unfold publish_registration_event.
  destruct (copy_text_ok (name initialize_record) KERNEL_EVENT_NAME_CAPACITY nm) as (n & -> & _ & Hnt & Hnn); [done..|].
  rewrite !bind_ok. publish_with Hh (PublishRegistration ty nm s).
Qed.

(** Every call, in every state, does what the contract says. *)
Lemma event_call_refines c : refines c.
Proof.
  destruct c; auto using refines_init, refines_subscribe, refines_unsubscribe, refines_end_process, refines_query, refines_wait,
    refines_resume, refines_read, refines_publish_process, refines_publish_thread, refines_publish_vfs, refines_publish_registration.
Qed.
End Refinement.
