(* ===== verification/KernelEventClaims.v ===== *)
(** What the event broker guarantees: every history of calls keeps the contract,
    a publication reaches every subscription that matches with every loss counted,
    nothing leaks, and where the code is not safe.

    The event broker at work on the concrete kernel of [KernelToy]. *)
From stdpp Require Import base list gmap.
From Stdlib Require Import ZArith Lia.
From S2P Require Import Prelude KernelText DList KernelIface KernelToy KernelEvent KernelEventRing KernelEventProofs KernelEventPublish KernelEventWake KernelEventCalls KernelEventSpec.

Local Open Scope Z_scope.

(** ** The stream of a subscription *)
Lemma offer_stream r a a' : offer r a a' ->
  exists lost, a_events a ++ [r] = lost ++ a_events a' /\ u64 (a_dropped a') = u64 (a_dropped a + len lost).
Proof.
  destruct 1 as [cap block Hc Hl|e rest He Hf|He Hz]; cbn [with_events a_events a_dropped].
  - exists []. rewrite Z.add_0_r. done.
  - exists [e]. rewrite He. split; [done|]. unfold u64. by rewrite Zmod_mod.
  - exists [r]. rewrite He. split; [done|]. unfold u64. by rewrite Zmod_mod.
Qed.

(** The queue is always the newest part of the stream, and the count of dropped
    records is what is missing from it. *)
Lemma delivered_stream o a a' : delivered o a a' ->
  exists lost, a_events a ++ filter (fun r => wanted a r = true) o = lost ++ a_events a' /\
    u64 (a_dropped a') = u64 (a_dropped a + len lost).
Proof.
  induction 1 as [a|r rs a a' Hw Hd IH|r rs a a1 a' Hw Ho Hd IH].
  - exists []. rewrite Z.add_0_r, app_nil_r. done.
  - rewrite filter_cons_False by congruence. done.
  - rewrite filter_cons_True by done. destruct (offer_static _ _ _ Ho) as (_ & _ & Hq & _).
    apply offer_stream in Ho as (l1 & Hs1 & Hd1). destruct IH as (l2 & Hs2 & Hd2). exists (l1 ++ l2).
    assert (filter (fun r => wanted a1 r = true) rs = filter (fun r => wanted a r = true) rs) as Hfl
      by (unfold wanted; by rewrite Hq). rewrite Hfl in Hs2. split.
    + change (r :: ?l) with ([r] ++ l). by rewrite app_assoc, Hs1, <- !app_assoc, Hs2.
    + rewrite Hd2. unfold u64 in *. rewrite Zplus_mod, Hd1, <- Zplus_mod, length_app. f_equal. lia.
Qed.

Section Claims.
Context `{KernelLaws}.
Implicit Types (b : Broker) (A : Abs).

(** The broker at boot: its globals are zero. *)
Definition boot_broker (k : KState) (irq : bool) : Broker := mkBroker k ∅ None None 0 0 irq.

(** Histories: calls of the broker, and the rest of the kernel, which allocates and
    frees its own blocks, running in between.  The histories are those in which no
    ended thread waits to be reaped when the broker is called ([calm]): the real
    [Scheduler::enqueue] reaps such threads before it answers, and that can tear a
    process down, whose subscriptions go in the middle of the broker's loop.  What
    happens then is shown at the end of the file. *)
Inductive reachable : list Z -> Broker -> Prop :=
| reach_boot k irq : calm k -> reachable (elements (heap_live k)) (boot_broker k irq)
| reach_call others b c b' r :
    reachable others b -> valid_call b c -> run_call c b = Ok (b', r) -> reachable others b'
| reach_kernel others others' owned b k :
    reachable others b -> accounts (kernel b) others owned -> accounts k others' owned -> calm k ->
    reachable others' (with_kernel k b).

Lemma reachable_holds others b : reachable others b -> exists A, holds others b A.
Proof.
  induction 1 as [k iq Hk|others b c b' r _ [A HA] Hv Hrun|others others' own b k _ [A HA] Hacc Hacc' Hk].
  - exists (mkAbs [] 0 0 iq). split; [|done]. split; try done.
    + split; [constructor|done].
    + unfold accounts. by rewrite app_nil_r.
  - destruct (event_call_refines c others b A HA Hv) as (b1 & r1 & A' & Hrun' & HA' & _). rewrite Hrun in Hrun'. injection Hrun' as <- <-. by exists A'.
  - exists A. destruct HA as ([D1 D2 D3 D4 D5 D6] & Hi & Hs & Hq). split; [|by destruct b].
    destruct b. cbn in *. split; cbn; try done. apply (accounts_perm _ _ own); [|done].
    apply (Permutation_app_inv_l others). unfold accounts in *. by rewrite <- Hacc, <- D4.
Qed.

(** C13: The event broker refines its contract.  In every state reached by calls of
    the broker and activity of the rest of the kernel that leaves no ended thread to
    be reaped, every valid call completes without touching memory that is not its
    own: nested publications end, buffers are read and written in range and only
    slots that were written are read.  The result and the new subscriptions are
    those of [call_spec]: subscription, lookup, first-in first-out reading, waiting,
    publication.  A wake-up that reaps ended threads is outside of it (see
    [reaping_inside_publication]). *)
Theorem event_calls_refine others b c :
  reachable others b -> valid_call b c ->
  exists A b' r A', holds others b A /\ run_call c b = Ok (b', r) /\ holds others b' A' /\ call_spec (kernel b) c A r A'.
Proof.
  intros Hb Hv. destruct (reachable_holds _ _ Hb) as [A HA].
  destruct (event_call_refines c others b A HA Hv) as (b' & r & A' & Hrun & HA' & Hspec). by exists A, b', r, A'.
Qed.

Definition is_publication (c : Call) : bool :=
  match c with PublishProcess _ _ _ _ _ _ _ _ _ | PublishThread _ _ _ _ _ | PublishVfs _ _ _ _ | PublishRegistration _ _ _ => true | _ => false end.

(** C14: A publication reaches every subscription, and no loss is silent, where no
    ended thread waits to be reaped.  It
    publishes its record [e] and, for each thread it wakes, the scheduler's thread
    records [log], under consecutive sequence numbers.  Every subscription stays
    and sees all of them exactly once: its queue grows by those its filters accept,
    and what no longer fits is taken from the old end and counted in its number of
    dropped records. *)
Theorem event_publish_delivers others b c :
  reachable others b -> valid_call b c -> is_publication c = true ->
  exists A b' A' e log, holds others b A /\ run_call c b = Ok (b', RDone) /\ holds others b' A' /\
    describes (kernel b) c e /\ Forall thread_record log /\ numbered (next_seq A) (e :: log) /\
    length (subs A') = length (subs A) /\
    forall i p a, subs A !! i = Some (p, a) -> exists a' seen lost, subs A' !! i = Some (p, a') /\
      seen ≡ₚ e :: log /\ a_req a' = a_req a /\
      a_events a ++ filter (fun r => wanted a r = true) seen = lost ++ a_events a' /\
      u64 (a_dropped a') = u64 (a_dropped a + len lost).
Proof.
  intros Hb Hv Hpub. destruct (reachable_holds _ _ Hb) as [A HA].
  destruct (event_call_refines c others b A HA Hv) as (b' & r & A' & Hrun & HA' & Hspec).
  assert (r = RDone /\ exists e log, describes (kernel b) c e /\ Forall thread_record log /\
        logs A A' (e :: log) /\ published (e :: log) (subs A) (subs A')) as (-> & e & log & Hd & Hl & (_ & _ & _ & Hn) & Hp)
    by (by destruct c).
  exists A, b', A', e, log. split_and!; try done; [by apply Forall2_length in Hp|].
  intros i p a Hi. destruct (Forall2_lookup_l _ _ _ _ _ Hp Hi) as ([q a'] & Hi' & Hq & o & Ho & Hdel). cbn in *. subst q.
  destruct (delivered_stream _ _ _ Hdel) as (lost & Hs & Hdr). apply delivered_static in Hdel as (_ & _ & Hreq & _).
  by exists a', o, lost.
Qed.

(** Starting over releases everything.  In every reachable state [init]
    completes, no subscription is left, the counters restart, and the heap holds
    exactly the blocks of the rest of the kernel: every subscription and every
    buffer that was ever allocated has been freed, once. *)
Theorem event_init_releases others b :
  reachable others b ->
  exists b', init b = Ok (b', StatusOK) /\ subscribers b' = ∅ /\ g_subscriber_head b' = None /\ g_subscriber_tail b' = None /\
    g_next_subscription_id b' = 1 /\ g_next_sequence b' = 0 /\ elements (heap_live (kernel b')) ≡ₚ others.
Proof.
  intros Hb. destruct (reachable_holds _ _ Hb) as [A HA].
  destruct (refines_init others b A HA I) as (b' & r & A' & Hrun & (Hr & Hi & Hs & _) & -> & ->). cbn [run_call] in Hrun.
  destruct (init b) as [[b0 s]| | |]; try done. rewrite bind_ok in Hrun. simplify_eq. exists b'. split; [done|].
  destruct Hr as [(_ & _ & Hh & Ht) Hdom _ Hacc _ _]. cbn in *. unfold accounts in Hacc. rewrite app_nil_r in Hacc. split_and!; try done.
  by apply dom_empty_iff_L.
Qed.

(** C35: A thread that is blocked in [wait] when its subscription is removed reads
    freed memory.  After [wait] parked the thread and another thread of the process
    removed the subscription with [unsubscribe], the rest of [wait] accesses a
    subscriber that is no longer allocated. *)
Theorem event_wait_use_after_free others b owner id b1 p t i b2 st :
  reachable others b -> wait owner id b = Ok (b1, Parked p t i) -> unsubscribe owner id b1 = Ok (b2, StatusOK) ->
  wait_resume p t i st b2 = Undef.
Proof.
  intros Hb Hwait Hun. destruct (reachable_holds _ _ Hb) as [A HA].
  destruct (refines_wait owner id others b A HA I) as (b1' & r1 & A1 & Hrun1 & HA1 & w & -> & Hspec1).
  cbn [run_call] in Hrun1. rewrite Hwait, bind_ok in Hrun1. injection Hrun1 as <- <-. unfold wait_spec in Hspec1.
  destruct (lookup_sub owner id (subs A)) as [[j [q a]]|] eqn:Hl; [|by destruct Hspec1].
  destruct (negb _); [by destruct Hspec1|]. destruct (sched_current (kernel b)) as [t'|]; [|by destruct Hspec1].
  destruct (_ && _); [|by destruct Hspec1]. destruct Hspec1 as [Heq ->]. injection Heq as <- <- ->.
  destruct (refines_unsubscribe owner id others b1 _ HA1 I) as (b2' & r2 & A2 & Hrun2 & HA2 & Hspec2).
  cbn [run_call] in Hrun2. rewrite Hun, bind_ok in Hrun2. injection Hrun2 as <- <-. cbn [call_spec subs] in Hspec2.
  destruct (id =? 0); [by destruct Hspec2|].
  assert (lookup_sub owner id (<[j := (p, parked t a)]> (subs A)) = Some (j, (p, parked t a))) as Hl2.
  { apply list_find_Some in Hl as (Hj & Hsub & Hbefore). apply list_find_Some. split_and!.
    - apply list_lookup_insert_eq. by eapply lookup_lt_Some.
    - done.
    - intros j' y Hy Hlt. rewrite list_lookup_insert_ne in Hy by lia. eauto. }
  rewrite Hl2 in Hspec2. destruct Hspec2 as (_ & log & ps & _ & _ & Hp & Hsubs).
  assert (p ∉ map fst (subs A2)) as Hnot.
  { rewrite Hsubs, delete_map, (published_addr _ _ _ Hp). rewrite (addr_insert _ _ _ (parked t a)) by
      (apply list_lookup_insert_eq; by eapply lookup_lt_Some, lookup_sub_Some).
    destruct HA1 as (Hr1 & _). cbn in Hr1. pose proof (rep_nodup _ _ _ Hr1) as Hnd.
    assert (map fst (<[j := (p, parked t a)]> (subs A)) !! j = Some p) as Hj
      by (eapply addr_lookup; apply list_lookup_insert_eq; by eapply lookup_lt_Some, lookup_sub_Some).
    rewrite (delete_Permutation _ _ _ Hj) in Hnd. by apply list.NoDup_cons in Hnd as [? _]. }
  destruct HA2 as (Hr2 & _). unfold wait_resume, get, fetch.
  rewrite (not_elem_of_dom_1 (subscribers b2) p); [done|]. by rewrite (rep_dom _ _ _ Hr2), elem_of_list_to_set.
Qed.
End Claims.

Definition boot : Broker := boot_broker (toy (Some 7) []) true.

(** A request for everything of the given families. *)
Definition all_of (mask : Z) : KernelEventSubscriptionRequest :=
  mkRequest 1 0 mask 0 0 (zero_text KERNEL_EVENT_NAME_CAPACITY) (zero_text KERNEL_EVENT_PATH_CAPACITY).

(** Calls in a row. *)
Fixpoint run_calls (cs : list Call) (b : Broker) : Exec Broker :=
  match cs with
  | [] => Ok b
  | c :: cs => '(b, _) <- run_call c b ;; run_calls cs b
  end.

Definition state_of (m : Exec Broker) : Broker := match m with Ok b => b | _ => boot end.

Lemma reachable_run cs others b b' :
  reachable others b -> run_calls cs b = Ok b' ->
  (forall b, Forall (valid_call b) cs) -> reachable others b'.
Proof.
  intros Hb Hrun Hv. revert b Hb Hrun. induction cs as [|c cs IH]; intros b Hb Hrun; cbn in Hrun; [by injection Hrun as <-|].
  apply bind_ok_inv in Hrun as ([b1 r] & H1 & Hrun). cbn in Hrun.
  apply (IH (fun b => Forall_inv_tail (Hv b)) b1); [|done]. eapply reach_call; [done|exact (Forall_inv (Hv b))|done].
Qed.

Definition registration : Call := PublishRegistration KernelEventTypeDeviceRegistered (Some [117; 97; 114; 116; 0]) StatusOK.

(** Two subscriptions; a thread waits on the first. *)
Definition setup : list Call :=
  [Init; Subscribe 1 (Some (all_of KERNEL_EVENT_FAMILY_ALL)) true; Subscribe 2 (Some (all_of KERNEL_EVENT_FAMILY_ALL)) true; Wait 1 1].
Definition waiting : Broker := state_of (run_calls setup boot).

Lemma setup_valid b : Forall (valid_call b) setup.
Proof. repeat constructor. Qed.

Lemma reachable_waiting : reachable [] waiting.
Proof.
  apply (reachable_run setup [] boot); [|by vm_compute|exact setup_valid].
  change [] with (elements (heap_live (toy (Some 7) []))). by apply reach_boot.
Qed.

Lemma event_calls_witness :
  exists A b' r A', holds [] waiting A /\ run_call registration waiting = Ok (b', r) /\ holds [] b' A' /\
    call_spec (kernel waiting) registration A r A'.
Proof. apply (event_calls_refine [] waiting registration); [exact reachable_waiting|]. unfold terminated. cbn. set_solver. Defined.

Lemma event_publish_witness :
  exists A b' A' e log, holds [] waiting A /\ run_call registration waiting = Ok (b', RDone) /\ holds [] b' A' /\
    describes (kernel waiting) registration e /\ Forall thread_record log /\ numbered (next_seq A) (e :: log) /\
    length (subs A') = length (subs A) /\
    forall i p a, subs A !! i = Some (p, a) -> exists a' seen lost, subs A' !! i = Some (p, a') /\
      seen ≡ₚ e :: log /\ a_req a' = a_req a /\
      a_events a ++ filter (fun r => wanted a r = true) seen = lost ++ a_events a' /\
      u64 (a_dropped a') = u64 (a_dropped a + len lost).
Proof.
  apply (event_publish_delivers [] waiting registration); [exact reachable_waiting| |reflexivity]. unfold terminated. cbn. set_solver.
Defined.

Lemma event_init_witness :
  exists b', init waiting = Ok (b', StatusOK) /\ subscribers b' = ∅ /\ g_subscriber_head b' = None /\ g_subscriber_tail b' = None /\
    g_next_subscription_id b' = 1 /\ g_next_sequence b' = 0 /\ elements (heap_live (kernel b')) ≡ₚ [].
Proof. apply (event_init_releases [] waiting). exact reachable_waiting. Defined.

Lemma event_wait_witness :
  exists b2, unsubscribe 1 1 waiting = Ok (b2, StatusOK) /\ wait_resume 4096 7 true StatusOK b2 = Undef.
Proof.
  assert (exists b, run_calls (take 3 setup) boot = Ok b /\ wait 1 1 b = Ok (waiting, Parked 4096 7 true)) as (b & Hb & Hw).
  { eexists. split; vm_compute; reflexivity. }
  assert (exists b2, unsubscribe 1 1 waiting = Ok (b2, StatusOK)) as [b2 Hu] by (eexists; vm_compute; reflexivity).
  exists b2. split; [exact Hu|].
  apply (event_wait_use_after_free [] b 1 1 waiting 4096 7 true b2 StatusOK); [|exact Hw|exact Hu].
  apply (reachable_run (take 3 setup) [] boot); [|exact Hb|intros; repeat constructor].
  change [] with (elements (heap_live (toy (Some 7) []))). by apply reach_boot.
Defined.

(** The sequence numbers queued for a subscription, oldest first. *)
Definition queued (owner id : Z) (m : Exec Broker) : option (list Z) :=
  match m with
  | Ok b => match read owner id (Some (replicate 8 zero_record)) 8 true b with
            | Ok (_, _, Some out, n) => Some (map sequence (take (Z.to_nat n) out))
            | _ => None
            end
  | _ => None
  end.

(** Waking the waiter of the first subscription publishes the thread event before
    the second one has seen the record being published: the first reads 1 then 2,
    the second 2 then 1. *)
Example nested_publication_overtakes :
  queued 1 1 (run_calls [registration] waiting) = Some [1; 2] /\
  queued 2 2 (run_calls [registration] waiting) = Some [2; 1].
Proof. vm_compute. split; reflexivity. Qed.

(** The scheduler has the last thread of the processes [l] to reap. *)
Definition reaping (l : list Z) : Broker :=
  let k := kernel waiting in with_kernel (mkToy (t_live k) (t_next k) (t_current k) l) waiting.

(** Without [calm] the loop of a publication is re-entered.  Waking the waiter of the
    first subscription has the scheduler reap an ended thread, and the process torn
    down drops its subscriptions: those of process 2, which the loop has not come to,
    are gone before they see the record; and if they are those of the subscriber being
    visited, the loop goes on from freed memory. *)
Example reaping_inside_publication :
  queued 2 2 (run_calls [registration] (reaping [2])) = Some [] /\ queued 1 1 (run_calls [registration] (reaping [2])) = Some [1; 2] /\
  run_call registration (reaping [1]) = Undef.
Proof. vm_compute. split_and!; reflexivity. Qed.
