(* ===== verification/ResourceManager.v ===== *)
(** The kernel's resource registry (kernel/resource_manager.cpp,
    include/resource_manager.h): a linked list of records of the long-lived blocks
    of the kernel, with counts and high-water marks per kind.

    A record is the value at its address in [records]; NULL is [None].  The
    file-scope variables are the fields of [Registry], next to the heap.  Internal
    functions take records where the code takes pointers that are never NULL.  The debug
    log of a registration is compiled out (its zone is 0) and is not modelled. *)
From stdpp Require Import base list gmap.
From Stdlib Require Import ZArith Lia.
From S2P Require Import Prelude KernelText DList KernelIface.

Local Open Scope Z_scope.

(** ** Data *)

(** [KernelResourceKind] is a 32-bit enumeration; [Count] is the number of kinds. *)
Definition KindCount : Z := 11.
Definition KernelResourceLabelCapacity : Z := 40.
(** [sizeof] and [alignof] of a record. *)
Definition resource_bytes : Z := 96.
Definition resource_align : Z := 8.

Record KernelResourceStats : Type := mkStats {
  live_count : Z;
  peak_count : Z;
  live_bytes : Z;
  peak_bytes : Z
}.
Definition zero_stats : KernelResourceStats := mkStats 0 0 0 0.

Record KernelResourceRecord : Type := mkResource {
  kind : Z;
  owns_memory : bool;
  bytes_held : Z;
  owner_id : Z;
  address : Z;
  label : list Z;
  next : option Z;
  prev : option Z
}.

Definition with_next (v : option Z) (r : KernelResourceRecord) : KernelResourceRecord :=
  let 'mkResource k o n i a l _ p := r in mkResource k o n i a l v p.
Definition with_prev (v : option Z) (r : KernelResourceRecord) : KernelResourceRecord :=
  let 'mkResource k o n i a l x _ := r in mkResource k o n i a l x v.

#[export] Instance resource_linked : Linked KernelResourceRecord :=
  { link_next := next; link_prev := prev; set_next := with_next; set_prev := with_prev }.

#[export] Instance resource_linked_laws : LinkedLaws KernelResourceRecord.
Proof. split; by intros; destruct n. Qed.

(** The source is NULL or the array the pointer points into. *)
Definition resource_copy_label (destination : list Z) (source : option (list Z)) : Exec (list Z) :=
  let source := match source with Some s => s | None => [0] end in
  '(destination, index) <-
    iterate (S (Z.to_nat KernelResourceLabelCapacity)) (copy_text_step KernelResourceLabelCapacity source) (destination, 0) ;;
  aset destination index 0.

Definition resource_kind_index (k : Z) : Z := if k <? KindCount then k else KindCount.

Section Registry.
Context `{Kernel}.

Record Registry : Type := mkRegistry {
  kernel : KState;
  records : gmap Z KernelResourceRecord;
  initialized : bool;
  resource_head : option Z;
  resource_tail : option Z;
  resource_stats : list KernelResourceStats;
  interrupts : bool
}.

Definition with_kernel (k : KState) (g : Registry) : Registry :=
  let 'mkRegistry _ m i h t s q := g in mkRegistry k m i h t s q.
Definition with_records (m : gmap Z KernelResourceRecord) (g : Registry) : Registry :=
  let 'mkRegistry k _ i h t s q := g in mkRegistry k m i h t s q.
Definition with_links (m : gmap Z KernelResourceRecord) (h t : option Z) (g : Registry) : Registry :=
  let 'mkRegistry k _ i _ _ s q := g in mkRegistry k m i h t s q.
Definition with_stats (s : list KernelResourceStats) (g : Registry) : Registry :=
  let 'mkRegistry k m i h t _ q := g in mkRegistry k m i h t s q.
Definition with_interrupts (q : bool) (g : Registry) : Registry :=
  let 'mkRegistry k m i h t s _ := g in mkRegistry k m i h t s q.
Definition release_block (p : Z) (g : Registry) : Registry := with_kernel (heap_free p (kernel g)) g.

(** ** The list *)

(** A record more of [n] bytes, and one less. *)
Definition count_in (n : Z) (s : KernelResourceStats) : KernelResourceStats :=
  let c := u64 (live_count s + 1) in
  let b := u64 (live_bytes s + n) in
  mkStats c (if peak_count s <? c then c else peak_count s) b (if peak_bytes s <? b then b else peak_bytes s).
Definition count_out (n : Z) (s : KernelResourceStats) : KernelResourceStats :=
  mkStats (if negb (live_count s =? 0) then u64 (live_count s - 1) else live_count s) (peak_count s)
    (if n <=? live_bytes s then u64 (live_bytes s - n) else 0) (peak_bytes s).

Definition resource_link_record (p : Z) (g : Registry) : Exec Registry :=
  r <- fetch (records g) p ;;
  let index := resource_kind_index (kind r) in
  m <- assign (records g) p (with_prev (resource_tail g)) ;;
  m <- assign m p (with_next None) ;;
  '(m, h) <- match resource_tail g with
             | Some t => m <- assign m t (with_next (Some p)) ;; Ok (m, resource_head g)
             | None => Ok (m, Some p)
             end ;;
  s <- aget (resource_stats g) index ;;
  stats <- aset (resource_stats g) index (count_in (bytes_held r) s) ;;
  Ok (with_stats stats (with_links m h (Some p) g)).

Definition resource_unlink_record (p : Z) (g : Registry) : Exec Registry :=
  r <- fetch (records g) p ;;
  let index := resource_kind_index (kind r) in
  '(m, h) <- match prev r with
             | Some a => m <- assign (records g) a (with_next (next r)) ;; Ok (m, resource_head g)
             | None => Ok (records g, next r)
             end ;;
  r' <- fetch m p ;;
  '(m, t) <- match next r' with
             | Some c => m <- assign m c (with_prev (prev r')) ;; Ok (m, resource_tail g)
             | None => Ok (m, prev r')
             end ;;
  m <- assign m p (with_prev None) ;;
  m <- assign m p (with_next None) ;;
  s <- aget (resource_stats g) index ;;
  stats <- aset (resource_stats g) index (count_out (bytes_held r) s) ;;
  Ok (with_stats stats (with_links m h t g)).

Definition resource_find_record (a : Z) (g : Registry) : Exec (option Z) :=
  dl_find (fun r => Ok (address r =? a)) (records g) (resource_head g).

(** An address argument is NULL or points somewhere. *)
Definition resource_register_record (k : Z) (a : option Z) (n owner : Z) (text : option (list Z)) (owns : bool) (g : Registry)
  : Exec (Registry * Status) :=
  let index := resource_kind_index k in
  match a with
  | None => Ok (g, StatusInvalidArgument)
  | Some a =>
      if (KindCount <=? index) || (n =? 0) then Ok (g, StatusInvalidArgument) else
      f <- resource_find_record a g ;;
      match f with
      | Some _ => Ok (g, StatusAlreadyExists)
      | None =>
          let '(block, ks) := heap_alloc resource_bytes resource_align (kernel g) in
          let g := with_kernel ks g in
          match block with
          | None => Ok (g, StatusNoMemory)
          | Some p =>
              l <- resource_copy_label (replicate (Z.to_nat KernelResourceLabelCapacity) 0) text ;;
              let r := mkResource k owns n owner a l None None in
              let g := with_records (<[p := r]> (records g)) g in
              g <- resource_link_record p g ;;
              Ok (g, StatusOK)
          end
      end
  end.

(** [Heap::free(record)]. *)
Definition free_record (p : Z) (g : Registry) : Registry := release_block p (with_records (delete p (records g)) g).

(** ** The calls of [KernelResourceManager] *)
Definition init (g : Registry) : Registry * Status :=
  let interrupts_enabled := interrupts g in
  let g := with_interrupts false g in
  let g := if initialized g then g
           else mkRegistry (kernel g) (records g) true None None (replicate (Z.to_nat KindCount) zero_stats) (interrupts g) in
  (with_interrupts interrupts_enabled g, StatusOK).

Definition allocate (k n alignment owner : Z) (text : option (list Z)) (g : Registry) : Exec (Registry * option Z) :=
  let interrupts_enabled := interrupts g in
  let g := with_interrupts false g in
  let '(g, _) := init g in
  let g := with_interrupts interrupts_enabled g in
  let '(a, ks) := heap_alloc n alignment (kernel g) in
  let g := with_kernel ks g in
  match a with
  | None => Ok (g, None)
  | Some p =>
      '(g, st) <- resource_register_record k (Some p) n owner text true g ;;
      if negb (st =? StatusOK) then Ok (release_block p g, None) else Ok (g, Some p)
  end.

Definition track_external (k : Z) (a : option Z) (n owner : Z) (text : option (list Z)) (g : Registry) : Exec (Registry * Status) :=
  let interrupts_enabled := interrupts g in
  let g := with_interrupts false g in
  let '(g, _) := init g in
  '(g, st) <- resource_register_record k a n owner text false g ;;
  Ok (with_interrupts interrupts_enabled g, st).

Definition untrack (k : Z) (a : option Z) (g : Registry) : Exec (Registry * Status) :=
  let interrupts_enabled := interrupts g in
  let g := with_interrupts false g in
  match a with
  | None => Ok (with_interrupts interrupts_enabled g, StatusInvalidArgument)
  | Some a =>
      if KindCount <=? resource_kind_index k then Ok (with_interrupts interrupts_enabled g, StatusInvalidArgument) else
      f <- resource_find_record a g ;;
      match f with
      | None => Ok (with_interrupts interrupts_enabled g, StatusNotFound)
      | Some p =>
          r <- fetch (records g) p ;;
          if negb (kind r =? k) then Ok (with_interrupts interrupts_enabled g, StatusNotFound) else
          g <- resource_unlink_record p g ;;
          Ok (with_interrupts interrupts_enabled (free_record p g), StatusOK)
      end
  end.

Definition release (a : option Z) (g : Registry) : Exec Registry :=
  let interrupts_enabled := interrupts g in
  let g := with_interrupts false g in
  match a with
  | None => Ok (with_interrupts interrupts_enabled g)
  | Some a =>
      f <- resource_find_record a g ;;
      match f with
      | None => Ok (with_interrupts interrupts_enabled g)
      | Some p =>
          r <- fetch (records g) p ;;
          g <- resource_unlink_record p g ;;
          let g := with_interrupts interrupts_enabled (free_record p g) in
          Ok (if owns_memory r then release_block a g else g)
      end
  end.

(** The caller's structure, unless its pointer is NULL. *)
Definition get_stats (k : Z) (out : bool) (g : Registry) : Exec (Registry * option KernelResourceStats) :=
  let interrupts_enabled := interrupts g in
  let g := with_interrupts false g in
  let index := resource_kind_index k in
  s <- (if out && (index <? KindCount) then s <- aget (resource_stats g) index ;; Ok (Some s)
        else if out then Ok (Some zero_stats) else Ok None) ;;
  Ok (with_interrupts interrupts_enabled g, s).
End Registry.
