(* ===== verification/ResourceSpec.v ===== *)
(** The resource registry as a list of entries: the records in order, the heap
    blocks they stand for, and the statistics as sums over them.

    The contract of the resource registry and that the code keeps it.

    The registry is the list of its entries.  Each heap block belongs either to the
    registry (its records, and the blocks it allocated and still tracks) or to the
    rest of the kernel; [call_effect] says what every call answers, which entries
    it leaves and which blocks change hands. *)
From stdpp Require Import base list gmap.
From Stdlib Require Import ZArith Lia.
From S2P Require Import Prelude KernelText DList KernelIface ResourceManager.

Local Open Scope Z_scope.

(** ** Entries *)

(** An entry is a record without its links, at its address. *)
Abbreviation Entry := (Z * KernelResourceRecord)%type.

(** Sums over entries. *)
Definition weigh (f : Entry -> Z) (ps : list Entry) : Z := foldr (fun x acc => f x + acc) 0 ps.
Definition of_kind (k : Z) (f : Entry -> Z) (x : Entry) : Z := if kind x.2 =? k then f x else 0.
Definition count_of (k : Z) : list Entry -> Z := weigh (of_kind k (fun _ => 1)).
Definition bytes_of (k : Z) : list Entry -> Z := weigh (of_kind k (fun x => bytes_held x.2)).
Definition total : list Entry -> Z := weigh (fun x => bytes_held x.2).

Lemma weigh_perm f ps ps' : ps ≡ₚ ps' -> weigh f ps = weigh f ps'.
Proof. induction 1; cbn; try lia. unfold weigh in *. cbn. lia. Qed.

Lemma weigh_snoc f ps x : weigh f (ps ++ [x]) = weigh f ps + f x.
Proof. rewrite (weigh_perm f _ (x :: ps)) by (symmetry; apply Permutation_cons_append). unfold weigh. cbn. lia. Qed.

Lemma weigh_delete f ps i x : ps !! i = Some x -> weigh f ps = f x + weigh f (delete i ps).
Proof. intros Hi. by rewrite (weigh_perm f _ _ (delete_Permutation _ _ _ Hi)). Qed.

Lemma weigh_le f g ps : (forall x, x ∈ ps -> f x <= g x) -> weigh f ps <= weigh g ps.
Proof.
  induction ps as [|x ps IH]; intros Hfg; [done|]. unfold weigh in *. cbn.
  pose proof (Hfg x (list_elem_of_here _ _)). specialize (IH (fun y Hy => Hfg y (list_elem_of_further _ _ _ Hy))). lia.
Qed.

Lemma weigh_nonneg f ps : (forall x, x ∈ ps -> 0 <= f x) -> 0 <= weigh f ps.
Proof.
  intros Hf. transitivity (weigh (fun _ => 0) ps); [|by apply weigh_le]. clear. induction ps; [done|]. unfold weigh in *. cbn. lia.
Qed.

Lemma count_snoc k ps x : count_of k (ps ++ [x]) = count_of k ps + (if kind x.2 =? k then 1 else 0).
Proof. apply weigh_snoc. Qed.
Lemma bytes_snoc k ps x : bytes_of k (ps ++ [x]) = bytes_of k ps + (if kind x.2 =? k then bytes_held x.2 else 0).
Proof. apply weigh_snoc. Qed.
Lemma count_delete k ps i x : ps !! i = Some x -> count_of k ps = (if kind x.2 =? k then 1 else 0) + count_of k (delete i ps).
Proof. apply weigh_delete. Qed.
Lemma bytes_delete k ps i x : ps !! i = Some x -> bytes_of k ps = (if kind x.2 =? k then bytes_held x.2 else 0) + bytes_of k (delete i ps).
Proof. apply weigh_delete. Qed.

(** The heap blocks of an entry: its record, and the block it owns. *)
Definition entry_blocks (x : Entry) : list Z := x.1 :: (if owns_memory x.2 then [address x.2] else []).
Definition entries_blocks (ps : list Entry) : list Z := flat_map entry_blocks ps.

Lemma blocks_delete ps i x : ps !! i = Some x -> entries_blocks ps ≡ₚ entry_blocks x ++ entries_blocks (delete i ps).
Proof.
  intros Hi. unfold entries_blocks. change (entry_blocks x ++ flat_map entry_blocks (delete i ps)) with (flat_map entry_blocks (x :: delete i ps)).
  apply Permutation_flat_map, delete_Permutation, Hi.
Qed.

Definition entry_ok (x : Entry) : Prop := 0 <= kind x.2 < KindCount /\ 0 < bytes_held x.2.

Lemma entry_nonneg ps : Forall entry_ok ps -> forall x, x ∈ ps -> 0 < bytes_held x.2.
Proof. intros Hok x Hx. rewrite Forall_forall in Hok. by destruct (Hok x Hx). Qed.

Lemma count_le_total k ps : Forall entry_ok ps -> 0 <= count_of k ps <= total ps.
Proof.
  intros Hok. pose proof (entry_nonneg ps Hok) as Hp. split.
  - apply weigh_nonneg. intros x Hx. unfold of_kind. destruct (_ =? _); lia.
  - apply weigh_le. intros x Hx. specialize (Hp x Hx). unfold of_kind. destruct (_ =? _); lia.
Qed.

Lemma bytes_le_total k ps : Forall entry_ok ps -> 0 <= bytes_of k ps <= total ps.
Proof.
  intros Hok. pose proof (entry_nonneg ps Hok) as Hp. split.
  - apply weigh_nonneg. intros x Hx. specialize (Hp x Hx). unfold of_kind. destruct (_ =? _); lia.
  - apply weigh_le. intros x Hx. specialize (Hp x Hx). unfold of_kind. destruct (_ =? _); lia.
Qed.

Section Registry.
Context `{KernelLaws}.
Implicit Types (g : Registry) (ps : list Entry).

(** The statistics say what the list holds; [pk] are the high-water marks. *)
Definition stats_ok (stats : list KernelResourceStats) ps (pk : Z -> Z * Z) : Prop :=
  len stats = KindCount /\
  forall k, 0 <= k < KindCount ->
    stats !! Z.to_nat k = Some (mkStats (count_of k ps) (pk k).1 (bytes_of k ps) (pk k).2).

Record reg (others : list Z) g ps (pk : Z -> Z * Z) : Prop := {
  rg_list : dlist (records g) (resource_head g) (resource_tail g) (map fst ps);
  rg_dom : dom (records g) = list_to_set (map fst ps);
  rg_recs : forall i p r, ps !! i = Some (p, r) -> exists n, records g !! p = Some n /\ content n = r;
  rg_heap : accounts (kernel g) others (entries_blocks ps);
  rg_entries : Forall entry_ok ps;
  rg_total : total ps < 2 ^ 64;
  rg_stats : stats_ok (resource_stats g) ps pk;
  rg_peaks : forall k, count_of k ps <= (pk k).1 /\ bytes_of k ps <= (pk k).2 }.

Lemma content_fields (n : KernelResourceRecord) :
  kind (content n) = kind n /\ bytes_held (content n) = bytes_held n /\ owns_memory (content n) = owns_memory n /\ address (content n) = address n.
Proof. by destruct n. Qed.

Lemma index_ok k : 0 <= k < KindCount -> resource_kind_index k = k.
Proof. unfold resource_kind_index. intros Hk. destruct (Z.ltb_spec k KindCount); lia. Qed.

(** ** Adding and removing *)
Definition raise (pk : Z -> Z * Z) ps : Z -> Z * Z := fun k => (Z.max (pk k).1 (count_of k ps), Z.max (pk k).2 (bytes_of k ps)).

Lemma count_in_ok stats ps pk x :
  stats_ok stats ps pk -> entry_ok x -> Forall entry_ok ps -> total (ps ++ [x]) < 2 ^ 64 ->
  (forall k, count_of k ps <= (pk k).1 /\ bytes_of k ps <= (pk k).2) ->
  exists s stats', aget stats (kind x.2) = Ok s /\ aset stats (kind x.2) (count_in (bytes_held x.2) s) = Ok stats' /\
    stats_ok stats' (ps ++ [x]) (raise pk (ps ++ [x])).
Proof.
  intros [Hl Hs] [Hk Hn] Hok Ht Hpk. pose proof (Hs _ Hk) as Hsk. eexists _, _.
  split; [apply aget_ok; [lia|done]|]. rewrite aset_ok by lia. split; [done|].
  assert (total ps + bytes_held x.2 < 2 ^ 64) as Ht' by (unfold total in *; by rewrite weigh_snoc in Ht).
  split; [by rewrite length_insert|]. intros k Hk'. unfold raise. rewrite count_snoc, bytes_snoc.
  pose proof (count_le_total k ps Hok). pose proof (bytes_le_total k ps Hok). specialize (Hpk k).
  destruct (decide (k = kind x.2)) as [->|Hne].
  - rewrite list_lookup_insert_eq by lia. unfold count_in. cbn [live_count peak_count live_bytes peak_bytes]. rewrite Z.eqb_refl.
    rewrite !u64_small by lia. f_equal. f_equal.
    + destruct (Z.ltb_spec (pk (kind x.2)).1 (count_of (kind x.2) ps + 1)); cbn; lia.
    + destruct (Z.ltb_spec (pk (kind x.2)).2 (bytes_of (kind x.2) ps + bytes_held x.2)); cbn; lia.
  - rewrite list_lookup_insert_ne by lia. rewrite Hs by done. destruct (Z.eqb_spec (kind x.2) k); [congruence|].
    rewrite !Z.add_0_r. f_equal. f_equal; cbn; lia.
Qed.

Lemma count_out_ok stats ps pk i x :
  stats_ok stats ps pk -> ps !! i = Some x -> Forall entry_ok ps -> total ps < 2 ^ 64 ->
  (forall k, count_of k ps <= (pk k).1 /\ bytes_of k ps <= (pk k).2) ->
  exists s stats', aget stats (kind x.2) = Ok s /\ aset stats (kind x.2) (count_out (bytes_held x.2) s) = Ok stats' /\
    stats_ok stats' (delete i ps) (raise pk (delete i ps)).
Proof.
  intros [Hl Hs] Hi Hok Ht Hpk. assert (entry_ok x) as [Hk Hn] by (by eapply Forall_lookup_1). pose proof (Hs _ Hk) as Hsk. eexists _, _.
  split; [apply aget_ok; [lia|done]|]. rewrite aset_ok by lia. split; [done|]. split; [by rewrite length_insert|]. intros k Hk'. unfold raise.
  assert (Forall entry_ok (delete i ps)) as Hok' by (by apply Forall_delete).
  pose proof (count_le_total k _ Hok'). pose proof (bytes_le_total k _ Hok').
  pose proof (count_le_total k ps Hok). pose proof (bytes_le_total k ps Hok). specialize (Hpk k).
  pose proof (count_delete k _ _ _ Hi) as Hc. pose proof (bytes_delete k _ _ _ Hi) as Hb.
  destruct (decide (k = kind x.2)) as [->|Hne].
  - rewrite Z.eqb_refl in *. rewrite list_lookup_insert_eq by lia. unfold count_out. cbn [live_count peak_count live_bytes peak_bytes].
    destruct (Z.eqb_spec (count_of (kind x.2) ps) 0); [lia|]. destruct (Z.leb_spec (bytes_held x.2) (bytes_of (kind x.2) ps)); [|lia].
    cbn [negb]. rewrite !u64_small by lia. f_equal. f_equal; cbn; lia.
  - rewrite list_lookup_insert_ne by lia. rewrite Hs by done. destruct (Z.eqb_spec (kind x.2) k); [congruence|]. f_equal. f_equal; cbn; lia.
Qed.

Lemma raise_peaks pk ps : forall k, count_of k ps <= (raise pk ps k).1 /\ bytes_of k ps <= (raise pk ps k).2.
Proof. intros k. unfold raise. cbn. lia. Qed.

(** ** The operations of the list *)

(** What they leave alone. *)
Definition same_env g g' : Prop := kernel g' = kernel g /\ initialized g' = initialized g /\ interrupts g' = interrupts g.

Lemma link_record_eq p g :
  resource_link_record p g =
    bind (fetch (records g) p) (fun r =>
    bind (dl_append (records g) (resource_head g) (resource_tail g) p) (fun '(m, h, t) =>
      s <- aget (resource_stats g) (resource_kind_index (kind r)) ;;
      stats <- aset (resource_stats g) (resource_kind_index (kind r)) (count_in (bytes_held r) s) ;;
      Ok (with_stats stats (with_links m h t g)))).
Proof.
  unfold resource_link_record, dl_append. cbn [set_prev set_next resource_linked].
  destruct (fetch (records g) p) as [r| | |]; [|done..]. rewrite !bind_ok.
  destruct (assign _ p (with_prev _)) as [m1| | |]; [|done..]. rewrite !bind_ok.
  destruct (assign m1 p _) as [m2| | |]; [|done..]. rewrite !bind_ok.
  destruct (resource_tail g) as [t|]; [|done]. by destruct (assign m2 t _).
Qed.

Lemma link_record_ok others g ps pk p r others0 :
  reg others0 (with_records (delete p (records g)) g) ps pk ->
  records g !! p = Some r -> content r = r -> p ∉ map fst ps -> entry_ok (p, r) -> total (ps ++ [(p, r)]) < 2 ^ 64 ->
  accounts (kernel g) others (entries_blocks (ps ++ [(p, r)])) ->
  exists g', resource_link_record p g = Ok g' /\ reg others g' (ps ++ [(p, r)]) (raise pk (ps ++ [(p, r)])) /\ same_env g g'.
Proof.
  intros [Hdl Hdom Hrec Hheap Hok Htot Hst Hpk] Hp Hc Hnew Hr Ht Hacc. rewrite link_record_eq, (fetch_ok _ _ _ Hp), bind_ok.
  assert (records (with_records (delete p (records g)) g) = delete p (records g)) as Hm by (by destruct g).
  assert (resource_head (with_records (delete p (records g)) g) = resource_head g) as Hh by (by destruct g).
  assert (resource_tail (with_records (delete p (records g)) g) = resource_tail g) as Htl by (by destruct g).
  assert (resource_stats (with_records (delete p (records g)) g) = resource_stats g) as Hss by (by destruct g).
  rewrite Hm, ?Hh, ?Htl, ?Hss in *.
  assert (dlist (records g) (resource_head g) (resource_tail g) (map fst ps)) as Hd.
  { eapply dlist_frame; [|done]. intros q Hq. rewrite lookup_delete_ne; [done|]. by intros ->. }
  destruct (dl_append_ok _ _ _ _ p Hd Hnew) as (m' & h' & -> & Hd' & Hrl); [by eauto|]. rewrite bind_ok.
  destruct (count_in_ok _ _ _ (p, r) Hst Hr Hok Ht Hpk) as (s & stats' & Hg & Hs & Hst'). cbn [snd] in Hg, Hs.
  rewrite index_ok by apply Hr. rewrite Hg, bind_ok, Hs, bind_ok. eexists. split; [done|]. split; [|by destruct g].
  assert (map fst (ps ++ [(p, r)]) = map fst ps ++ [p]) as Hma by (by rewrite map_app).
  destruct g as [k m i h t st q]. cbn in *. split; cbn; try done.
  - by rewrite Hma.
  - rewrite Hma, (relinked_dom _ _ Hrl), list_to_set_app_L, <- Hdom, dom_delete_L. cbn.
    assert (p ∈ dom m) as Hpm by (apply elem_of_dom; eauto). rewrite union_empty_r_L, difference_union_L. clear -Hpm. set_solver.
  - intros j x c Hj. assert (exists n, m !! x = Some n /\ content n = c) as (n & Hn & Hcn).
    { destruct (decide (j < length ps)%nat).
      - rewrite lookup_app_l in Hj by done. destruct (Hrec j x c Hj) as (n & Hn & Hcn). exists n. split; [|done].
        by apply lookup_delete_Some in Hn as [_ ?].
      - rewrite lookup_app_r in Hj by lia. apply list_lookup_singleton_Some in Hj as [_ Hj]. injection Hj as <- <-. eauto. }
    destruct (relinked_lookup _ _ _ _ Hrl Hn) as (n' & Hn' & Hcn'). exists n'. split; [done|congruence].
  - apply Forall_app. split; [done|]. by constructor.
  - apply raise_peaks.
Qed.

Lemma unlink_record_eq p g :
  resource_unlink_record p g =
    bind (fetch (records g) p) (fun r =>
    bind (dl_unlink (records g) (resource_head g) (resource_tail g) p) (fun '(m, h, t) =>
      m <- assign m p (with_prev None) ;;
      m <- assign m p (with_next None) ;;
      s <- aget (resource_stats g) (resource_kind_index (kind r)) ;;
      stats <- aset (resource_stats g) (resource_kind_index (kind r)) (count_out (bytes_held r) s) ;;
      Ok (with_stats stats (with_links m h t g)))).
Proof.
  unfold resource_unlink_record, dl_unlink. cbn [set_prev set_next link_prev link_next resource_linked].
  destruct (fetch (records g) p) as [r| | |]; [|done..]. rewrite !bind_ok.
  destruct (prev r) as [a|]; [destruct (assign _ a _) as [m1| | |]; [|done..]|]; rewrite !bind_ok;
    (destruct (fetch _ p) as [r'| | |]; [|done..]); rewrite !bind_ok;
    (destruct (next r') as [c|]; [|done]); by destruct (assign _ c _).
Qed.

(** Unlinking and freeing the record of the [i]-th entry. *)
Lemma drop_record_ok others g ps pk i p r :
  reg others g ps pk -> ps !! i = Some (p, r) ->
  exists g', (g1 <- resource_unlink_record p g ;; Ok (free_record p g1)) = Ok g' /\
    reg ((if owns_memory r then [address r] else []) ++ others) g' (delete i ps) (raise pk (delete i ps)) /\
    initialized g' = initialized g /\ interrupts g' = interrupts g.
Proof.
  intros [Hdl Hdom Hrec Hheap Hok Htot Hst Hpk] Hi. pose proof (f_equal (fmap fst) Hi) as Hip. rewrite <- list_lookup_fmap in Hip. cbn in Hip.
  set (l := map fst ps) in *. change (fst <$> ps) with l in Hip.
  pose proof (take_drop_middle l i p Hip) as Hsplit. rewrite <- Hsplit in Hdl.
  destruct (dl_unlink_ok _ _ _ _ _ _ Hdl) as (m' & h' & t' & Hun & Hd' & Hrl).
  destruct (Hrec i p r Hi) as (n & Hn & Hcn). destruct (relinked_lookup _ _ _ _ Hrl Hn) as (n' & Hn' & Hcn').
  rewrite unlink_record_eq, (fetch_ok _ _ _ Hn), bind_ok, Hun, bind_ok.
  rewrite (assign_ok _ _ _ _ Hn'), bind_ok. erewrite assign_ok by (rewrite lookup_insert, decide_True by done; done).
  rewrite !bind_ok, insert_insert, decide_True by done.
  destruct (content_fields n) as (Hk & Hb & Ho & Ha). rewrite Hcn in *.
  destruct (count_out_ok _ _ _ _ _ Hst Hi Hok Htot Hpk) as (s & stats' & Hg & Hs & Hst'). cbn [snd] in Hg, Hs.
  assert (entry_ok (p, r)) as Hrok by (by eapply Forall_lookup_1).
  rewrite <- Hk, <- Hb, index_ok by apply Hrok. rewrite Hg, bind_ok, Hs, !bind_ok. eexists. split; [done|].
  assert (NoDup l) as Hnd by (rewrite <- Hsplit; by destruct Hdl).
  assert (map fst (delete i ps) = take i l ++ drop (S i) l) as Hm.
  { transitivity (delete i l); [|apply delete_take_drop]. unfold l. clear. revert i. induction ps as [|x ps IH]; intros [|i]; cbn; [done..|]. by rewrite IH. }
  assert (p ∉ take i l ++ drop (S i) l) as Hpn.
  { rewrite <- Hsplit in Hnd. apply list.NoDup_app in Hnd as (_ & Hdis & [Hp2 _]%list.NoDup_cons).
    intros [Hp|Hp]%elem_of_app; [|done]. by apply (Hdis p Hp), list_elem_of_here. }
  split; [|by destruct g]. destruct g as [k m ini h t st q]. cbn in *.
  assert (forall q, q <> p -> delete p (<[p := with_next None (with_prev None n')]> m') !! q = m' !! q) as Hlk.
  { intros x Hx. by rewrite lookup_delete_ne, lookup_insert_ne. }
  split; cbn.
  - rewrite Hm. eapply dlist_frame; [|done]. intros x Hx. apply Hlk. by intros ->.
  - rewrite Hm, dom_delete_L, dom_insert_L, (relinked_dom _ _ Hrl), Hdom. rewrite <- Hsplit at 1. clear -Hpn. set_solver.
  - intros j x c Hj. assert (x <> p) as Hxp.
    { intros ->. apply Hpn. rewrite <- Hm. apply (list_elem_of_lookup_2 _ j). by rewrite list_lookup_fmap, Hj. }
    rewrite Hlk by done. assert (exists j', ps !! j' = Some (x, c)) as [j' Hj'].
    { destruct (decide (j < i)%nat); [rewrite list_lookup_delete_lt in Hj by done|rewrite list_lookup_delete_ge in Hj by lia]; eauto. }
    destruct (Hrec j' x c Hj') as (n0 & Hn0 & Hc0). destruct (relinked_lookup _ _ _ _ Hrl Hn0) as (n1 & Hn1 & Hc1).
    exists n1. split; [done|congruence].
  - apply accounts_free. unfold accounts in *. rewrite Hheap, (blocks_delete _ _ _ Hi). unfold entry_blocks. cbn. solve_Permutation.
  - by apply Forall_delete.
  - pose proof (weigh_delete (fun x => bytes_held x.2) _ _ _ Hi) as Hw. fold (total ps) (total (delete i ps)) in Hw. cbn in Hw.
    destruct Hrok as [_ Hpos]. cbn in Hpos. lia.
  - done.
  - apply raise_peaks.
Qed.

(** The entry with a given address. *)
Definition lookup_entry (a : Z) ps : option (nat * Entry) := list_find (fun x => address x.2 = a) ps.

Lemma find_record_ok others g ps pk a :
  reg others g ps pk -> resource_find_record a g = Ok ((fst ∘ snd) <$> lookup_entry a ps).
Proof.
  intros Hr. unfold resource_find_record.
  rewrite (dl_find_ok _ _ _ _ _ (fun r => address r =? a) (rg_list _ _ _ _ Hr)) by done.
  f_equal. apply list_find_agree. intros [p r] Hx. apply list_elem_of_lookup in Hx as [i Hi].
  destruct (rg_recs _ _ _ _ Hr i p r Hi) as (n & Hn & Hc). cbn. rewrite Hn. cbn.
  destruct (content_fields n) as (_ & _ & _ & Ha). rewrite Hc in Ha. rewrite Ha.
  destruct (Z.eqb_spec (address n) a); naive_solver.
Qed.
End Registry.

Record Tracked : Type := mkTracked {
  entries : list Entry;
  peaks : Z -> Z * Z;
  masked : bool
}.

Inductive ResourceCall : Type :=
| CallInit
| CallAllocate (k n alignment owner : Z) (text : option (list Z))
| CallTrack (k : Z) (a : option Z) (n owner : Z) (text : option (list Z))
| CallUntrack (k : Z) (a : option Z)
| CallRelease (a : option Z)
| CallStats (k : Z) (out : bool).

Inductive Answer : Type :=
| Nothing
| Answered (s : Status)
| Address (a : option Z)
| Stats (s : option KernelResourceStats).

(** The entry of a new record. *)
Definition new_entry (k : Z) (owns : bool) (n owner a : Z) (text : option (list Z)) (x : Entry) : Prop :=
  exists p l, x = (p, mkResource k owns n owner a l None None) /\ c_text l = take 39 (text_of text).

Section Spec.
Context `{Kernel}.

Definition run_resource (c : ResourceCall) (g : Registry) : Exec (Registry * Answer) :=
  match c with
  | CallInit => let '(g, s) := init g in Ok (g, Answered s)
  | CallAllocate k n al o t => '(g, a) <- allocate k n al o t g ;; Ok (g, Address a)
  | CallTrack k a n o t => '(g, s) <- track_external k a n o t g ;; Ok (g, Answered s)
  | CallUntrack k a => '(g, s) <- untrack k a g ;; Ok (g, Answered s)
  | CallRelease a => g <- release a g ;; Ok (g, Nothing)
  | CallStats k out => '(g, s) <- get_stats k out g ;; Ok (g, Stats s)
  end.

(** Kinds and sizes are unsigned, texts are terminated, and all tracked bytes
    together stay countable. *)
Definition valid_resource (bytes : Z) (c : ResourceCall) : Prop :=
  match c with
  | CallAllocate k n _ _ t => 0 <= k /\ 0 <= n /\ bytes + n < 2 ^ 64 /\ source_ok t
  | CallTrack k _ n _ t => 0 <= k /\ 0 <= n /\ bytes + n < 2 ^ 64 /\ source_ok t
  | CallUntrack k _ | CallStats k _ => 0 <= k
  | _ => True
  end.

Definition storable (k n : Z) : bool := (k <? KindCount) && negb (n =? 0).

(** What is left of the entries and of the rest of the kernel's blocks. *)
Definition call_effect (c : ResourceCall) (others : list Z) (es : list Entry) (pk : Z -> Z * Z) (r : Answer) (others' : list Z) (es' : list Entry) : Prop :=
  match c with
  | CallInit => r = Answered StatusOK /\ es' = es /\ others' = others
  | CallAllocate k n _ owner t =>
      others' = others /\
      (r = Address None /\ es' = es \/
       exists p x, r = Address (Some p) /\ storable k n = true /\ lookup_entry p es = None /\ new_entry k true n owner p t x /\ es' = es ++ [x])
  | CallTrack k a n owner t =>
      others' = others /\
      match a with
      | Some a =>
          if negb (storable k n) then r = Answered StatusInvalidArgument /\ es' = es else
          match lookup_entry a es with
          | Some _ => r = Answered StatusAlreadyExists /\ es' = es
          | None => r = Answered StatusNoMemory /\ es' = es \/
                    exists x, r = Answered StatusOK /\ new_entry k false n owner a t x /\ es' = es ++ [x]
          end
      | None => r = Answered StatusInvalidArgument /\ es' = es
      end
  | CallUntrack k a =>
      match a with
      | Some a =>
          if KindCount <=? k then r = Answered StatusInvalidArgument /\ es' = es /\ others' = others else
          match lookup_entry a es with
          | Some (i, x) =>
              if kind x.2 =? k then r = Answered StatusOK /\ es' = delete i es /\ others' = (if owns_memory x.2 then [a] else []) ++ others
              else r = Answered StatusNotFound /\ es' = es /\ others' = others
          | None => r = Answered StatusNotFound /\ es' = es /\ others' = others
          end
      | None => r = Answered StatusInvalidArgument /\ es' = es /\ others' = others
      end
  | CallRelease a =>
      r = Nothing /\ others' = others /\
      match a with
      | Some a => match lookup_entry a es with Some (i, _) => es' = delete i es | None => es' = es end
      | None => es' = es
      end
  | CallStats k out =>
      es' = es /\ others' = others /\
      r = Stats (if out then Some (if k <? KindCount then mkStats (count_of k es) (pk k).1 (bytes_of k es) (pk k).2 else zero_stats) else None)
  end.
End Spec.

Section Refinement.
Context `{KernelLaws}.
Implicit Types (g : Registry) (T : Tracked).

Record tracks (others : list Z) g T : Prop := {
  tr_reg : reg others g (entries T) (peaks T);
  tr_once : NoDup (map (fun x : Entry => address x.2) (entries T));
  tr_fresh : initialized g = false -> entries T = [] /\ forall k, 0 <= k < KindCount -> peaks T k = (0, 0);
  tr_masked : interrupts g = masked T }.

Lemma reg_interrupts others g ps pk v : reg others g ps pk -> reg others (with_interrupts v g) ps pk.
Proof. intros [A1 A2 A3 A4 A5 A6 A7 A8]. by destruct g. Qed.

Lemma reg_same_live others g ps pk k : reg others g ps pk -> heap_live k = heap_live (kernel g) -> reg others (with_kernel k g) ps pk.
Proof. intros [A1 A2 A3 A4 A5 A6 A7 A8] Hk. destruct g. cbn in *. split; cbn; try done. by eapply accounts_same. Qed.

Lemma init_tracks others g T : tracks others g T -> exists g', init g = (g', StatusOK) /\ tracks others g' T /\ initialized g' = true.
Proof.
  intros [Hr Ho Hf Hm]. unfold init. eexists. split; [done|]. destruct g as [k m ini h t s q]. destruct ini.
  - split; [|done]. split; done.
  - destruct (Hf eq_refl) as [He Hp]. cbn. split; [|done]. split; cbn; try done. rewrite He in *.
    destruct Hr as [A1 A2 A3 A4 A5 A6 [A7 A7'] A8]. split; cbn; try done.
    split; [done|]. intros j Hj. rewrite Hp by done. by apply lookup_replicate_2; unfold KindCount in *; cbn; lia.
Qed.

Lemma label_ok text : source_ok text ->
  exists l, resource_copy_label (replicate (Z.to_nat KernelResourceLabelCapacity) 0) text = Ok l /\ c_text l = take 39 (text_of text).
Proof.
  intros Ht. destruct (copy_text_ok (replicate 40 0) 40 (Some (match text with Some s => s | None => [0] end))) as (d & Hd & _ & _ & Hc); [done|done| |].
  { destruct text; [done|]. apply list_elem_of_here. }
  exists d. split; [exact Hd|]. rewrite Hc. by destruct text.
Qed.

Lemma lookup_entry_none a es : lookup_entry a es = None -> a ∉ map (fun x : Entry => address x.2) es.
Proof. intros Hn%list_find_None (x & -> & Hx)%list_elem_of_fmap. rewrite Forall_forall in Hn. by apply (Hn x Hx). Qed.

(** Registering an address: the payload, when owned, is a block of the rest of the
    kernel ([own]) that the registry takes over. *)
Lemma register_ok own others g T k a n owner text (owns : bool) :
  tracks (own ++ others) g T -> initialized g = true -> own = (if owns then [a] else []) ->
  0 <= k -> 0 <= n -> total (entries T) + n < 2 ^ 64 -> source_ok text ->
  exists g' st, resource_register_record k (Some a) n owner text owns g = Ok (g', st) /\
    initialized g' = true /\
    (st = StatusOK /\ storable k n = true /\ lookup_entry a (entries T) = None /\
       (exists x, new_entry k owns n owner a text x /\
          tracks others g' (mkTracked (entries T ++ [x]) (raise (peaks T) (entries T ++ [x])) (masked T))) \/
     tracks (own ++ others) g' T /\
       (storable k n = false /\ st = StatusInvalidArgument \/
        storable k n = true /\ is_Some (lookup_entry a (entries T)) /\ st = StatusAlreadyExists \/
        storable k n = true /\ lookup_entry a (entries T) = None /\ st = StatusNoMemory)).
Proof.
  intros HT Hini Hown Hk Hn Htot Ht. pose proof HT as [Hr Ho Hf Hm]. unfold resource_register_record. cbn zeta.
  assert (((KindCount <=? resource_kind_index k) || (n =? 0)) = negb (storable k n)) as ->.
  { unfold storable, resource_kind_index. destruct (Z.ltb_spec k KindCount); cbn [andb negb].
    - destruct (Z.leb_spec KindCount k); [lia|]. by destruct (n =? 0).
    - rewrite Z.leb_refl. done. }
  destruct (storable k n) eqn:Hst; cbn [negb]; [|exists g, StatusInvalidArgument; split; [done|]; split; [done|]; right; auto].
  rewrite (find_record_ok _ _ _ _ a Hr), bind_ok. destruct (lookup_entry a (entries T)) as [[i x]|] eqn:Hl; cbn [fmap option_fmap option_map].
  { exists g, StatusAlreadyExists. split; [done|]. split; [done|]. right. split; [done|]. right. left. by eauto. }
  destruct (heap_alloc resource_bytes resource_align (kernel g)) as [[p|] ks] eqn:Hall.
  2: { exists (with_kernel ks g), StatusNoMemory. split; [done|]. split; [by destruct g|]. right. split; [|auto 10].
       split; [apply reg_same_live; [done|by eapply alloc_fails]|done|by destruct g|by destruct g]. }
  destruct (label_ok text Ht) as (l & -> & Hlab). rewrite bind_ok.
  set (r := mkResource k owns n owner a l None None). set (g1 := with_records (<[p := r]> (records (with_kernel ks g))) (with_kernel ks g)).
  destruct (accounts_alloc _ _ _ _ _ _ _ Hall (rg_heap _ _ _ _ Hr)) as (Hacc & Hfresh & _).
  assert (p ∉ map fst (entries T)) as Hp.
  { intros (x & -> & Hx)%list_elem_of_fmap. apply Hfresh. unfold entries_blocks.
    apply list_elem_of_In, in_flat_map. exists x. split; [by apply list_elem_of_In|by left]. }
  assert (records g !! p = None) as Hgp by (apply not_elem_of_dom; by rewrite (rg_dom _ _ _ _ Hr), elem_of_list_to_set).
  destruct (link_record_ok others g1 (entries T) (peaks T) p r (p :: own ++ others)) as (g2 & -> & Hr2 & Henv & Hi2 & Hq2).
  - destruct Hr as [A1 A2 A3 A4 A5 A6 A7 A8]. unfold g1. destruct g. cbn in *. rewrite delete_insert_id by done. split; cbn; try done.
    by apply accounts_give.
  - unfold g1. destruct g. cbn. by rewrite lookup_insert, decide_True.
  - done.
  - done.
  - unfold storable in Hst. apply andb_prop in Hst as [H1 H2]. apply Z.ltb_lt in H1. apply negb_true_iff, Z.eqb_neq in H2. split; cbn; lia.
  - unfold total in *. rewrite weigh_snoc. cbn. lia.
  - unfold g1. destruct g. unfold entries_blocks, accounts in *. cbn in *. rewrite flat_map_app, Hacc, Hown. cbn. destruct owns; cbn; solve_Permutation.
  - rewrite bind_ok. exists g2, StatusOK. split; [done|]. split; [unfold g1 in Hi2; destruct g; cbn in *; congruence|]. left. split; [done|]. split; [done|]. split; [done|].
    exists (p, r). split; [by exists p, l|]. split; cbn.
    + done.
    + rewrite map_app. apply list.NoDup_app. split_and!; [done| |apply NoDup_singleton].
      intros y Hy ->%list_elem_of_singleton. by apply (lookup_entry_none _ _ Hl).
    + intros Hfalse. unfold g1 in Hi2. destruct g. cbn in *. congruence.
    + unfold g1 in Hq2. destruct g. cbn in *. congruence.
Qed.

Lemma raise_same others g T k : tracks others g T -> peaks T k = raise (peaks T) (entries T) k.
Proof. intros [Hr _ _ _]. pose proof (rg_peaks _ _ _ _ Hr k). unfold raise. destruct (peaks T k) as [c b]. cbn in *. f_equal; lia. Qed.

Definition resource_refines (c : ResourceCall) : Prop := forall others g T,
  tracks others g T -> valid_resource (total (entries T)) c ->
  exists g' r others' T', run_resource c g = Ok (g', r) /\ tracks others' g' T' /\
    call_effect c others (entries T) (peaks T) r others' (entries T') /\ masked T' = masked T /\
    forall k, peaks T' k = raise (peaks T) (entries T') k.

(** A call that changes nothing. *)
Lemma unchanged c others g g' T r :
  tracks others g T -> run_resource c g = Ok (g', r) -> tracks others g' T ->
  call_effect c others (entries T) (peaks T) r others (entries T) ->
  exists g' r others' T', run_resource c g = Ok (g', r) /\ tracks others' g' T' /\
    call_effect c others (entries T) (peaks T) r others' (entries T') /\ masked T' = masked T /\
    forall k, peaks T' k = raise (peaks T) (entries T') k.
Proof. intros HT Hrun HT' He. exists g', r, others, T. split_and!; try done. intros k. by eapply raise_same. Qed.

Lemma masked_tracks others g T v : tracks others g T -> tracks others (with_interrupts v g) (mkTracked (entries T) (peaks T) v).
Proof. intros [Hr Ho Hf Hm]. split; cbn; [by apply reg_interrupts|done|by destruct g|by destruct g]. Qed.

Lemma unmask_tracks others g T v : tracks others g T -> tracks others (with_interrupts (interrupts g) (with_interrupts v g)) T.
Proof. intros HT. by destruct g. Qed.

Lemma resource_init : resource_refines CallInit.
Proof.
  intros others g T HT _. destruct (init_tracks _ _ _ HT) as (g' & Hi & HT' & _).
  eapply (unchanged _ _ _ g'); [done|cbn [run_resource]; by rewrite Hi|done|done].
Qed.

Lemma tracks_kernel others g T k : tracks others g T -> heap_live k = heap_live (kernel g) -> tracks others (with_kernel k g) T.
Proof. intros [Hr Ho Hf Hm] Hk. split; [by apply reg_same_live|done|by destruct g|by destruct g]. Qed.

Lemma resource_allocate k n al owner text : resource_refines (CallAllocate k n al owner text).
Proof.
  intros others g T HT (Hk & Hn & Htot & Hs). cbn [run_resource]. unfold allocate. cbn zeta.
  destruct (init_tracks _ _ _ (masked_tracks _ _ _ false HT)) as (g1 & -> & HT1 & Hi1).
  set (g2 := with_interrupts (interrupts g) g1).
  assert (tracks others g2 T) as HT2.
  { pose proof (masked_tracks _ _ _ (interrupts g) HT1) as Hx. rewrite (tr_masked _ _ _ HT) in Hx. cbn in Hx. destruct T. cbn in *. unfold g2. by rewrite (tr_masked _ _ _ HT). }
  assert (initialized g2 = true) as Hi2 by (unfold g2; by destruct g1).
  destruct (heap_alloc n al (kernel g2)) as [[p|] ks] eqn:Hall.
  2: { exists (with_kernel ks g2), (Address None), others, T. split; [done|]. split; [apply tracks_kernel; [done|by eapply alloc_fails]|].
       split; [split; [done|by left]|]. split; [done|]. intros j. by eapply raise_same. }
  destruct (accounts_alloc _ _ _ _ _ _ _ Hall (rg_heap _ _ _ _ (tr_reg _ _ _ HT2))) as (Hacc & _ & _).
  assert (tracks ([p] ++ others) (with_kernel ks g2) T) as HT3.
  { destruct HT2 as [[A1 A2 A3 A4 A5 A6 A7 A8] Ho Hf Hm]. destruct g2. cbn in *. split; cbn; try done. split; cbn; try done. by apply accounts_give. }
  destruct (register_ok [p] others (with_kernel ks g2) T k p n owner text true HT3) as (g' & st & -> & _ & [(-> & Hst & Hl & x & Hx & HT4)|(HT4 & Hst)]);
    [by destruct g2|done|done|done|done|done| |]; rewrite bind_ok.
  - change (StatusOK =? StatusOK) with true. cbn [negb]. rewrite bind_ok. eexists _, _, others, _. split; [done|]. split; [done|].
    split; [|split; [done|done]]. split; [done|]. right. exists p, x. by split_and!.
  - assert (negb (st =? StatusOK) = true) as -> by (destruct Hst as [[_ ->]|[(_ & _ & ->)|(_ & _ & ->)]]; done).
    rewrite bind_ok. eexists _, _, others, T. split; [done|]. split; [|split; [split; [done|by left]|split; [done|intros j; by eapply raise_same]]].
    destruct HT4 as [[A1 A2 A3 A4 A5 A6 A7 A8] Ho Hf Hm]. destruct g'. cbn in *. split; cbn; try done. split; cbn; try done. by apply accounts_free_other.
Qed.

Lemma resource_track k a n owner text : resource_refines (CallTrack k a n owner text).
Proof.
  intros others g T HT (Hk & Hn & Htot & Hs). cbn [run_resource]. unfold track_external. cbn zeta.
  destruct (init_tracks _ _ _ (masked_tracks _ _ _ false HT)) as (g1 & -> & HT1 & Hi1). pose proof (tr_masked _ _ _ HT) as Hm.
  assert (forall g', tracks others g' (mkTracked (entries T) (peaks T) false) -> tracks others (with_interrupts (interrupts g) g') T) as Hback.
  { intros g' HT'. apply (masked_tracks _ _ _ (interrupts g)) in HT'. rewrite Hm in *. by destruct T. }
  destruct a as [a|].
  2: { cbn [resource_register_record]. rewrite !bind_ok. eexists _, _, others, T. split; [done|]. split; [by apply Hback|].
       split; [done|]. split; [done|]. intros j. by eapply raise_same. }
  destruct (register_ok [] others g1 _ k a n owner text false HT1) as (g' & st & -> & _ & [(-> & Hst & Hl & x & Hx & HT4)|(HT4 & Hst)]);
    [done|done|done|done|done|done| |]; rewrite !bind_ok.
  - eexists _, _, others, (mkTracked (entries T ++ [x]) (raise (peaks T) (entries T ++ [x])) (masked T)). split; [done|].
    split; [rewrite Hm; exact (masked_tracks _ _ _ (masked T) HT4)|]. split; [|done]. cbn [call_effect]. split; [done|].
    rewrite Hst. cbn [negb] in *. cbn [entries] in Hl. rewrite Hl. right. by exists x.
  - eexists _, _, others, T. split; [done|]. split; [by apply Hback|]. split; [|split; [done|intros j; by eapply raise_same]].
    cbn [call_effect]. split; [done|]. cbn [entries] in Hst. destruct Hst as [[-> ->]|[(-> & [y Hy] & ->)|(-> & Hl & ->)]]; cbn [negb]; [done| |].
    + by rewrite Hy.
    + rewrite Hl. by left.
Qed.

Lemma lookup_entry_Some a es i x : lookup_entry a es = Some (i, x) -> es !! i = Some x /\ address x.2 = a.
Proof. intros (Hi & Ha & _)%list_find_Some. done. Qed.

(** Taking an entry out of the list. *)
Lemma remove_tracks others g T i x g' b :
  tracks others g T -> entries T !! i = Some x ->
  (g1 <- resource_unlink_record x.1 (with_interrupts b g) ;; Ok (free_record x.1 g1)) = Ok g' ->
  tracks ((if owns_memory x.2 then [address x.2] else []) ++ others) (with_interrupts (interrupts g) g')
    (mkTracked (delete i (entries T)) (raise (peaks T) (delete i (entries T))) (masked T)).
Proof.
  intros [Hr Ho Hf Hm] Hi Hrun. destruct x as [p r]. cbn [fst snd] in *.
  destruct (drop_record_ok _ _ _ _ _ _ _ (reg_interrupts _ _ _ _ b Hr) Hi) as (g1 & Hrun' & Hr1 & Hi1 & Hq1).
  rewrite Hrun' in Hrun. injection Hrun as ->. split; cbn.
  - by apply reg_interrupts.
  - rewrite delete_take_drop, map_app. rewrite <- (take_drop_middle _ _ _ Hi) in Ho. rewrite map_app in Ho. cbn in Ho.
    apply list.NoDup_app in Ho as (N1 & N2 & [N3 N4]%list.NoDup_cons). apply list.NoDup_app. split_and!; [done| |done].
    intros y Hy Hy2. by apply (N2 y Hy), list_elem_of_further.
  - intros Hini. exfalso. assert (initialized g = false) as Hg by (destruct g, g'; cbn in *; congruence).
    destruct (Hf Hg) as [He _]. by rewrite He in Hi.
  - destruct g'. cbn. by rewrite Hm.
Qed.

Lemma resource_untrack k a : resource_refines (CallUntrack k a).
Proof.
  intros others g T HT Hk. cbn in Hk. cbn [run_resource]. unfold untrack. cbn zeta.
  destruct a as [a|]; [|eexists _, _, others, T; split; [done|]; split; [by apply unmask_tracks|]; split; [done|]; split; [done|]; intros j; by eapply raise_same].
  assert ((KindCount <=? resource_kind_index k) = (KindCount <=? k)) as ->.
  { unfold resource_kind_index. destruct (Z.ltb_spec k KindCount); [done|]. destruct (Z.leb_spec KindCount KindCount), (Z.leb_spec KindCount k); lia. }
  cbn [call_effect]. destruct (KindCount <=? k).
  { eexists _, _, others, T. split; [done|]. split; [by apply unmask_tracks|]. split; [done|]. split; [done|]. intros j. by eapply raise_same. }
  rewrite (find_record_ok _ _ _ _ a (reg_interrupts _ _ _ _ false (tr_reg _ _ _ HT))), bind_ok.
  destruct (lookup_entry a (entries T)) as [[i [p r]]|] eqn:Hl; cbn [fmap option_fmap option_map compose fst snd].
  2: { eexists _, _, others, T. split; [done|]. split; [by apply unmask_tracks|]. split; [done|]. split; [done|]. intros j. by eapply raise_same. }
  apply lookup_entry_Some in Hl as [Hi Ha]. destruct (rg_recs _ _ _ _ (tr_reg _ _ _ HT) i p r Hi) as (n & Hn & Hc).
  replace (records (with_interrupts false g)) with (records g) by (by destruct g). rewrite (fetch_ok _ _ _ Hn), bind_ok.
  destruct (content_fields n) as (Hkn & _). rewrite Hc in Hkn. rewrite <- Hkn. destruct (kind r =? k); cbn [negb].
  2: { eexists _, _, others, T. split; [done|]. split; [by apply unmask_tracks|]. split; [done|]. split; [done|]. intros j. by eapply raise_same. }
  destruct (drop_record_ok _ _ _ _ _ _ _ (reg_interrupts _ _ _ _ false (tr_reg _ _ _ HT)) Hi) as (g1 & Hrun & _).
  pose proof (remove_tracks _ _ _ _ _ _ false HT Hi Hrun) as HT'. cbn [fst snd] in HT', Ha. rewrite Ha in HT'.
  destruct (resource_unlink_record p (with_interrupts false g)) as [g2| | |]; try done. rewrite !bind_ok in *. injection Hrun as ->.
  eexists _, _, _, _. split; [done|]. split; [exact HT'|]. by split_and!.
Qed.

Lemma resource_release a : resource_refines (CallRelease a).
Proof.
  intros others g T HT _. cbn [run_resource]. unfold release. cbn zeta.
  destruct a as [a|]; [|rewrite bind_ok; eexists _, _, others, T; split; [done|]; split; [by apply unmask_tracks|]; split; [done|]; split; [done|]; intros j; by eapply raise_same].
  rewrite (find_record_ok _ _ _ _ a (reg_interrupts _ _ _ _ false (tr_reg _ _ _ HT))), bind_ok. cbn [call_effect].
  destruct (lookup_entry a (entries T)) as [[i [p r]]|] eqn:Hl; cbn [fmap option_fmap option_map compose fst snd].
  2: { rewrite bind_ok. eexists _, _, others, T. split; [done|]. split; [by apply unmask_tracks|]. split; [done|]. split; [done|]. intros j. by eapply raise_same. }
  apply lookup_entry_Some in Hl as [Hi Ha]. destruct (rg_recs _ _ _ _ (tr_reg _ _ _ HT) i p r Hi) as (n & Hn & Hc).
  replace (records (with_interrupts false g)) with (records g) by (by destruct g). rewrite (fetch_ok _ _ _ Hn), bind_ok.
  destruct (content_fields n) as (_ & _ & Hon & _). rewrite Hc in Hon. rewrite <- Hon.
  destruct (drop_record_ok _ _ _ _ _ _ _ (reg_interrupts _ _ _ _ false (tr_reg _ _ _ HT)) Hi) as (g1 & Hrun & _).
  pose proof (remove_tracks _ _ _ _ _ _ false HT Hi Hrun) as HT'. cbn [fst snd] in HT', Ha. rewrite Ha in HT'.
  destruct (resource_unlink_record p (with_interrupts false g)) as [g2| | |]; try done. rewrite !bind_ok in *. injection Hrun as ->.
  eexists _, _, others, (mkTracked (delete i (entries T)) (raise (peaks T) (delete i (entries T))) (masked T)).
  split; [done|]. split; [|by split_and!]. destruct (owns_memory r); [|exact HT'].
  destruct HT' as [[A1 A2 A3 A4 A5 A6 A7 A8] Ho Hf Hm]. destruct g1. cbn in *. split; cbn; try done. split; cbn; try done. by apply accounts_free_other.
Qed.

Lemma resource_get_stats k out : resource_refines (CallStats k out).
Proof.
  intros others g T HT Hk. cbn in Hk. cbn [run_resource]. unfold get_stats. cbn zeta.
  replace (resource_stats (with_interrupts false g)) with (resource_stats g) by (by destruct g).
  assert ((resource_kind_index k <? KindCount) = (k <? KindCount)) as ->.
  { unfold resource_kind_index. destruct (Z.ltb_spec k KindCount); [destruct (Z.ltb_spec k KindCount); lia|]. apply Z.ltb_irrefl. }
  destruct out; cbn [andb]; [destruct (Z.ltb_spec k KindCount)|].
  - destruct (rg_stats _ _ _ _ (tr_reg _ _ _ HT)) as [_ Hs]. rewrite index_ok by lia.
    rewrite (aget_ok _ _ _ Hk (Hs k ltac:(lia))), !bind_ok. eexists _, _, others, T. split; [done|]. split; [by apply unmask_tracks|].
    split; [|split; [done|intros j; by eapply raise_same]]. cbn. split_and!; try done. by destruct (Z.ltb_spec k KindCount); [|lia].
  - rewrite !bind_ok. eexists _, _, others, T. split; [done|]. split; [by apply unmask_tracks|].
    split; [|split; [done|intros j; by eapply raise_same]]. cbn. split_and!; try done. by destruct (Z.ltb_spec k KindCount); [lia|].
  - rewrite !bind_ok. eexists _, _, others, T. split; [done|]. split; [by apply unmask_tracks|].
    split; [done|split; [done|intros j; by eapply raise_same]].
Qed.

Lemma resource_call_refines c : resource_refines c.
Proof. destruct c; auto using resource_init, resource_allocate, resource_track, resource_untrack, resource_release, resource_get_stats. Qed.
End Refinement.
