(* ===== verification/ResourceClaims.v ===== *)
(** What the resource registry guarantees over every history of calls.

    The resource registry on concrete calls. *)
From stdpp Require Import base list gmap.
From Stdlib Require Import ZArith Lia.
From S2P Require Import Prelude KernelText DList KernelIface KernelToy ResourceManager ResourceSpec.

Local Open Scope Z_scope.

Definition kinds : list Z := [0; 1; 2; 3; 4; 5; 6; 7; 8; 9; 10].
Definition sum_over (f : Z -> Z) (ks : list Z) : Z := foldr (fun k acc => f k + acc) 0 ks.

Lemma sum_over_ext f f' ks : (forall k, k ∈ ks -> f k = f' k) -> sum_over f ks = sum_over f' ks.
Proof.
  induction ks as [|k ks IH]; intros Hf; [done|]. unfold sum_over in *. cbn.
  rewrite (Hf k), (IH (fun j Hj => Hf j (list_elem_of_further _ _ _ Hj))); [done|]. apply list_elem_of_here.
Qed.

Lemma sum_over_add f f' ks : sum_over (fun k => f k + f' k) ks = sum_over f ks + sum_over f' ks.
Proof. induction ks as [|k ks IH]; [done|]. cbn in *. unfold sum_over in *. lia. Qed.

(** Every entry has exactly one kind. *)
Lemma bytes_by_kind ps : Forall entry_ok ps -> sum_over (fun k => bytes_of k ps) kinds = total ps.
Proof.
  induction 1 as [|x ps [Hk _] _ IH]; [done|].
  rewrite (sum_over_ext _ (fun k => (if kind x.2 =? k then bytes_held x.2 else 0) + bytes_of k ps)) by done.
  rewrite sum_over_add, IH. change (total (x :: ps)) with (bytes_held x.2 + total ps). f_equal. unfold KindCount in Hk.
  unfold sum_over, kinds. cbn [foldr].
  repeat match goal with |- context [kind x.2 =? ?k] => destruct (Z.eqb_spec (kind x.2) k) end; lia.
Qed.

Section Claims.
Context `{KernelLaws}.
Implicit Types (g : Registry) (T : Tracked).

(** The registry before its first call: the file-scope variables are zero. *)
Definition boot_registry (k : KState) (irq : bool) : Registry :=
  mkRegistry k ∅ false None None (replicate (Z.to_nat KindCount) zero_stats) irq.

(** The bytes the statistics report as live. *)
Definition tracked_bytes g : Z := foldr (fun s acc => live_bytes s + acc) 0 (resource_stats g).

Lemma tracked_bytes_total others g T : tracks others g T -> tracked_bytes g = total (entries T).
Proof.
  intros [[_ _ _ _ Hok _ [Hl Hs] _] _ _ _]. rewrite <- (bytes_by_kind _ Hok). unfold tracked_bytes.
  assert (resource_stats g = map (fun k => mkStats (count_of k (entries T)) (peaks T k).1 (bytes_of k (entries T)) (peaks T k).2) kinds) as ->; [|done].
  apply list_eq. intros i. unfold KindCount in *. destruct (decide (i < 11)%nat) as [Hi|Hi].
  - specialize (Hs (Z.of_nat i) ltac:(lia)). rewrite Nat2Z.id in Hs. rewrite Hs, list_lookup_fmap.
    do 11 (destruct i as [|i]; [done|]). lia.
  - rewrite !lookup_ge_None_2; [done|cbn; lia|lia].
Qed.

(** The block a call of [untrack] leaves to its caller: one the registry had
    allocated. *)
Definition handed_over (c : ResourceCall) g : list Z :=
  match c with
  | CallUntrack k (Some a) =>
      match resource_find_record a g with
      | Ok (Some p) =>
          match records g !! p with
          | Some r => if (k <? KindCount) && (kind r =? k) && owns_memory r then [a] else []
          | None => []
          end
      | _ => []
      end
  | _ => []
  end.

Lemma effect_others c others g T r others' es' :
  tracks others g T -> call_effect c others (entries T) (peaks T) r others' es' -> others' = handed_over c g ++ others.
Proof.
  intros HT. destruct c as [|k n al o t|k a n o t|k [a|]|a|k out]; cbn [call_effect handed_over]; try (by intros (_ & _ & ->)).
  - by intros [-> _].
  - by intros [-> _].
  - rewrite (find_record_ok _ _ _ _ a (tr_reg _ _ _ HT)). destruct (lookup_entry a (entries T)) as [[i [p x]]|] eqn:Hl; cbn [fmap option_fmap option_map compose fst snd].
    + apply lookup_entry_Some in Hl as [Hi _]. destruct (rg_recs _ _ _ _ (tr_reg _ _ _ HT) i p x Hi) as (n & -> & Hc).
      destruct (content_fields n) as (Hk & _ & Hw & _). rewrite Hc in Hk, Hw. rewrite <- Hk, <- Hw. rewrite Z.leb_antisym.
      destruct (k <? KindCount); cbn [negb andb]; [|by intros (_ & _ & ->)]. destruct (kind x =? k); cbn [andb]; by intros (_ & _ & ->).
    + destruct (KindCount <=? k); by intros (_ & _ & ->).
  - by intros (_ & -> & _).
  - by intros (_ & -> & _).
Qed.

(** Histories of calls, with the rest of the kernel allocating and freeing its own
    blocks in between. *)
Inductive history : list Z -> Registry -> Prop :=
| hist_boot k irq : history (elements (heap_live k)) (boot_registry k irq)
| hist_call others g c g' r :
    history others g -> valid_resource (tracked_bytes g) c -> run_resource c g = Ok (g', r) -> history (handed_over c g ++ others) g'
| hist_kernel others others' owned g k :
    history others g -> accounts (kernel g) others owned -> accounts k others' owned -> history others' (with_kernel k g).

Lemma history_tracks others g : history others g -> exists T, tracks others g T.
Proof.
  induction 1 as [k q|others g c g' r _ [T HT] Hv Hrun|others others' own g k _ [T HT] Hacc Hacc'].
  - exists (mkTracked [] (fun _ => (0, 0)) q). split; [|constructor|done|done]. split; try done.
    + split; [constructor|done].
    + unfold accounts. by rewrite app_nil_r.
    + split; [done|]. intros j Hj. by apply lookup_replicate_2; unfold KindCount in *; cbn; lia.
  - rewrite (tracked_bytes_total _ _ _ HT) in Hv. destruct (resource_call_refines c others g T HT Hv) as (g1 & r1 & others' & T' & Hrun' & HT' & He & _).
    rewrite Hrun in Hrun'. injection Hrun' as <- <-. rewrite <- (effect_others _ _ _ _ _ _ _ HT He). by exists T'.
  - exists T. destruct HT as [[A1 A2 A3 A4 A5 A6 A7 A8] Ho Hf Hm]. destruct g. cbn in *. split; cbn; try done. split; cbn; try done.
    apply (accounts_perm _ _ own); [|done]. apply (Permutation_app_inv_l others). unfold accounts in *. by rewrite <- Hacc, <- A4.
Qed.

(** C23: The resource registry refines its contract.  After any history, every valid
    call completes, answers and changes the entries as [call_effect] says, and
    leaves the interrupt mask as it found it.  No address is tracked twice; the heap
    blocks are the registry's records, the blocks it owns and those of the rest of
    the kernel, with none lost and none freed twice; the statistics of a kind are
    the number of its entries and the sum of their sizes, and its high-water marks
    the largest values these have had. *)
Theorem resource_calls_refine others g c :
  history others g -> valid_resource (tracked_bytes g) c ->
  exists T g' r T', tracks others g T /\ run_resource c g = Ok (g', r) /\ tracks (handed_over c g ++ others) g' T' /\
    call_effect c others (entries T) (peaks T) r (handed_over c g ++ others) (entries T') /\ masked T' = masked T /\
    forall k, peaks T' k = raise (peaks T) (entries T') k.
Proof.
  intros Hh Hv. destruct (history_tracks _ _ Hh) as [T HT]. rewrite (tracked_bytes_total _ _ _ HT) in Hv.
  destruct (resource_call_refines c others g T HT Hv) as (g' & r & others' & T' & Hrun & HT' & He & Hm & Hp).
  pose proof (effect_others _ _ _ _ _ _ _ HT He). subst others'. by exists T, g', r, T'.
Qed.

(** Releasing what was allocated undoes it.  After any history, when
    [allocate] returns a block, [release] of that block completes, frees the block
    and its record, and leaves the same entries and the same live heap blocks as
    before the allocation. *)
Theorem resource_allocate_release others g k n al owner text g1 p :
  history others g -> valid_resource (tracked_bytes g) (CallAllocate k n al owner text) ->
  allocate k n al owner text g = Ok (g1, Some p) ->
  exists g2 T1 T2, release (Some p) g1 = Ok g2 /\ tracks others g T1 /\ tracks others g2 T2 /\ entries T2 = entries T1 /\
    p ∈ heap_live (kernel g1) /\ p ∉ heap_live (kernel g2) /\ heap_live (kernel g2) = heap_live (kernel g).
Proof.
  intros Hh Hv Hall. destruct (history_tracks _ _ Hh) as [T HT]. rewrite (tracked_bytes_total _ _ _ HT) in Hv.
  destruct (resource_allocate k n al owner text others g T HT Hv) as (g1' & r & others' & T1 & Hrun & HT1 & [-> He] & _).
  cbn [run_resource] in Hrun. rewrite Hall, bind_ok in Hrun. injection Hrun as <- <-.
  destruct He as [[He _]|(p' & x & He & Hst & Hl & (q & l & -> & _) & Hes)]; [done|]. injection He as <-.
  destruct (resource_release (Some p) others g1 T1 HT1 I) as (g2 & r2 & others2 & T2 & Hrun2 & HT2 & (_ & -> & He2) & _).
  cbn [run_resource] in Hrun2. destruct (release (Some p) g1) as [g2'| | |]; try done. rewrite bind_ok in Hrun2. injection Hrun2 as -> _.
  assert (lookup_entry p (entries T1) = Some (length (entries T), (q, mkResource k true n owner p l None None))) as Hl1.
  { rewrite Hes. apply list_find_Some. split_and!.
    - by rewrite lookup_app_r, Nat.sub_diag.
    - done.
    - intros j y Hj Hlt Hy. rewrite lookup_app_l in Hj by done. apply (lookup_entry_none _ _ Hl).
      rewrite <- Hy. apply (list_elem_of_fmap_2 (fun x : Entry => address x.2)). by eapply list_elem_of_lookup_2. }
  rewrite Hl1 in He2.
  assert (entries T2 = entries T) as Hback by (by rewrite He2, Hes, delete_middle, app_nil_r).
  pose proof (rg_heap _ _ _ _ (tr_reg _ _ _ HT)) as Ha. pose proof (rg_heap _ _ _ _ (tr_reg _ _ _ HT1)) as Ha1. pose proof (rg_heap _ _ _ _ (tr_reg _ _ _ HT2)) as Ha2.
  rewrite Hback in Ha2. assert (heap_live (kernel g2) = heap_live (kernel g)) as Hlive.
  { unfold accounts in Ha, Ha2. apply set_eq. intros y. by rewrite <- !elem_of_elements, Ha, Ha2. }
  exists g2, T, T2. split_and!; try done.
  - eapply accounts_live; [exact Ha1|]. rewrite Hes. unfold entries_blocks. rewrite flat_map_app. cbn. set_solver.
  - intros Hp2. rewrite <- elem_of_elements in Hp2. unfold accounts in Ha2, Ha1. rewrite Ha2 in Hp2.
    pose proof (NoDup_elements (heap_live (kernel g1))) as Hnd. rewrite Ha1, Hes in Hnd. unfold entries_blocks in *. rewrite flat_map_app, app_assoc in Hnd.
    apply list.NoDup_app in Hnd as (_ & Hdis & _). apply (Hdis p Hp2). cbn. set_solver.
Qed.
End Claims.

Definition cold : Registry := boot_registry (toy None []) true.

Definition stack_label : option (list Z) := Some [115; 116; 97; 99; 107; 0].
Definition take_stack : ResourceCall := CallAllocate 0 8192 16 7 stack_label.

(** The registry after a first allocation. *)
Definition warm : Registry := match run_resource take_stack cold with Ok (g, _) => g | _ => cold end.

Lemma stack_label_ok : source_ok stack_label.
Proof. unfold source_ok, terminated. cbn. set_solver. Qed.

Lemma history_cold : history [] cold.
Proof. change [] with (elements (heap_live (toy None []))). apply hist_boot. Qed.

Lemma history_warm : history [] warm.
Proof.
  apply (hist_call [] cold take_stack warm (Address (Some 4096))); [exact history_cold| |vm_compute; reflexivity].
  cbn [valid_resource take_stack]. split; [lia|]. split; [lia|]. split; [by vm_compute|exact stack_label_ok].
Qed.

Lemma resource_calls_witness :
  exists T g' r T', tracks [] warm T /\ run_resource (CallUntrack 0 (Some 4096)) warm = Ok (g', r) /\
    tracks ([4096] ++ []) g' T' /\
    call_effect (CallUntrack 0 (Some 4096)) [] (entries T) (peaks T) r ([4096] ++ []) (entries T') /\ masked T' = masked T /\
    forall k, peaks T' k = raise (peaks T) (entries T') k.
Proof.
  change [4096] with (handed_over (CallUntrack 0 (Some 4096)) warm).
  apply (resource_calls_refine [] warm (CallUntrack 0 (Some 4096))); [exact history_warm|]. cbn. lia.
Defined.

Lemma resource_release_witness :
  exists g1 g2 T1 T2, allocate 0 8192 16 7 stack_label cold = Ok (g1, Some 4096) /\ release (Some 4096) g1 = Ok g2 /\
    tracks [] cold T1 /\ tracks [] g2 T2 /\ entries T2 = entries T1 /\
    4096 ∈ heap_live (kernel g1) /\ 4096 ∉ heap_live (kernel g2) /\ heap_live (kernel g2) = heap_live (kernel cold).
Proof.
  assert (allocate 0 8192 16 7 stack_label cold = Ok (warm, Some 4096)) as Ha by (vm_compute; reflexivity).
  destruct (resource_allocate_release [] cold 0 8192 16 7 stack_label warm 4096) as (g2 & T1 & T2 & Hr); [exact history_cold| |exact Ha|].
  - cbn [valid_resource]. split; [lia|]. split; [lia|]. split; [by vm_compute|exact stack_label_ok].
  - exists warm, g2, T1, T2. split; [exact Ha|exact Hr].
Defined.
