(* ===== verification/SchedState.v ===== *)
(** The scheduler's data (include/thread.h, include/process.h, the variables of
    scheduler/scheduler.cpp and thread.cpp) and the programs it is written in.

    A scheduler call is not a plain state change.  It reports thread events to the
    event broker, which may make further threads ready through [Scheduler::enqueue]
    before the report returns; it has ended threads destroyed; and it reads devices
    and the timer.  A program is therefore a [Run]: it is [Done], or it makes a
    [Call] with the state it has reached and goes on with the answer and the state
    the callee leaves.  [Undefined] is a use of an address that holds no record,
    and [Unfinished] a loop that was not given enough turns. *)
From stdpp Require Import base list gmap.
From Stdlib Require Import ZArith Lia.
From S2P Require Import Prelude KernelText DList KernelIface.

Local Open Scope Z_scope.

(** ** Data *)
Inductive ThreadState : Type := Initialized | Ready | Running | Waiting | Suspended | Terminated.
Inductive ProcessState : Type := ProcessCreated | ProcessRunning | ProcessExiting | ProcessTerminated.
Inductive WaitReason : Type := WaitNone | WaitDelay | WaitEvent | WaitMutex | WaitSemaphore | WaitMessage | WaitIO.

#[export] Instance thread_state_eq_dec : EqDecision ThreadState.
Proof. solve_decision. Defined.
#[export] Instance process_state_eq_dec : EqDecision ProcessState.
Proof. solve_decision. Defined.

(** [static_cast<U32>] of the enumerations. *)
Definition thread_state_code (st : ThreadState) : Z :=
  match st with Initialized => 0 | Ready => 1 | Running => 2 | Waiting => 3 | Suspended => 4 | Terminated => 5 end.
Definition wait_reason_code (w : WaitReason) : Z :=
  match w with
  | WaitNone => 0 | WaitDelay => 1 | WaitEvent => 2 | WaitMutex => 3 | WaitSemaphore => 4 | WaitMessage => 5 | WaitIO => 6
  end.

Definition ThreadPriorityNormal : Z := 16.
Definition ThreadPriorityIdle : Z := 31.
Definition ThreadPriorityLevelCount : Z := 32.
Definition ThreadDefaultQuantumTicks : Z := 1.
Definition CpuContextUserModeFlag : Z := Z.shiftl 1 63.
Definition CpuContextResumeExceptionFrameFlag : Z := Z.shiftl 1 62.
Definition CpuContextSchedulerFlagsMask : Z := Z.lor CpuContextUserModeFlag CpuContextResumeExceptionFrameFlag.
Definition CpuContextProcessorStateMask : Z := u64 (Z.lnot CpuContextSchedulerFlagsMask).
Definition KernelEventTypeThreadReady : Z := 18.
Definition KernelEventTypeThreadRunning : Z := 19.

Record ObjectHeader : Type := mkHeader { type : Z; flags : Z; object_id : Z; ref_count : Z }.

Record ThreadStacks : Type := mkStacks {
  user_stack_top : Z;
  user_stack_backing : option Z;
  user_stack_bytes : Z;
  user_stack_slot_index : Z;
  kernel_stack_backing : option Z;
  kernel_stack_top : Z
}.

(** The call a thread was in when it gave the processor away, and the value of
    [interrupts_enabled] on its stack: where it goes on after the switch. *)
Inductive Caller : Type :=
| InYield
| InPoll
| InCurrentElIrq
| InLowerElIrq
| InSetPriority
| InBlock
| InBlockFor (reason : WaitReason)
| InSleep
| InExit.

Inductive Continuation : Type :=
| ThreadEntry (entry_point : Z)
| AfterSwitch (caller : Caller) (interrupts_enabled : bool).

(** The frame the exception vectors save. *)
Record AArch64ExceptionFrame : Type := mkFrame {
  general_registers : list Z;
  stack_pointer : Z;
  elr : Z;
  spsr : Z;
  esr : Z;
  far : Z;
  sctlr : Z;
  tcr : Z;
  vector_id : Z;
  reserved0 : Z
}.

(** A program counter: an address in user code, or a place in the kernel with the
    stack and the callee-saved registers that belong to it. *)
Inductive CodeAddress : Type :=
| UserCode (pc : Z)
| KernelCode (k : Continuation).

(** [CpuContext]: the stack pointer and the registers the switch saves are part of
    the place in the kernel; the state word carries the scheduler's two flags. *)
Record CpuContext : Type := mkContext {
  program_counter : CodeAddress;
  user_stack_pointer : Z;
  processor_state : Z;
  saved_exception_frame : AArch64ExceptionFrame
}.

Record AddressSpace : Type := mkSpace {
  page_table_root : Z;
  region_list : option Z;
  asid : Z;
  user_base : Z;
  user_limit : Z;
  translation_table_l0 : Z;
  translation_table_l1 : Z;
  translation_table_l2 : Z
}.
Record ReadyQueue : Type := mkReadyQueue { head : option Z; tail : option Z }.

(** [struct Thread]: the record, with the links of the four lists it can be on. *)
Record Thread : Type := mkThread {
  t_header : ObjectHeader;
  t_id : Z;
  t_name : list Z;
  current_state : ThreadState;
  base_priority : Z;
  current_priority : Z;
  quantum_ticks : Z;
  quantum_ticks_remaining : Z;
  in_ready_queue : bool;
  t_parent : option Z;
  t_stacks : ThreadStacks;
  wait_object : option Z;
  wait_status : Z;
  wake_tick : Z;
  t_context : CpuContext;
  ready_next : option Z;
  ready_prev : option Z;
  sleep_next : option Z;
  sleep_prev : option Z;
  t_next : option Z;
  t_prev : option Z;
  process_next : option Z;
  process_prev : option Z
}.

Definition with_t_header (v : ObjectHeader) (t : Thread) : Thread := mkThread v (t_id t) (t_name t) (current_state t) (base_priority t) (current_priority t) (quantum_ticks t) (quantum_ticks_remaining t) (in_ready_queue t) (t_parent t) (t_stacks t) (wait_object t) (wait_status t) (wake_tick t) (t_context t) (ready_next t) (ready_prev t) (sleep_next t) (sleep_prev t) (t_next t) (t_prev t) (process_next t) (process_prev t).
Definition with_current_state (v : ThreadState) (t : Thread) : Thread := mkThread (t_header t) (t_id t) (t_name t) v (base_priority t) (current_priority t) (quantum_ticks t) (quantum_ticks_remaining t) (in_ready_queue t) (t_parent t) (t_stacks t) (wait_object t) (wait_status t) (wake_tick t) (t_context t) (ready_next t) (ready_prev t) (sleep_next t) (sleep_prev t) (t_next t) (t_prev t) (process_next t) (process_prev t).
Definition with_base_priority (v : Z) (t : Thread) : Thread := mkThread (t_header t) (t_id t) (t_name t) (current_state t) v (current_priority t) (quantum_ticks t) (quantum_ticks_remaining t) (in_ready_queue t) (t_parent t) (t_stacks t) (wait_object t) (wait_status t) (wake_tick t) (t_context t) (ready_next t) (ready_prev t) (sleep_next t) (sleep_prev t) (t_next t) (t_prev t) (process_next t) (process_prev t).
Definition with_current_priority (v : Z) (t : Thread) : Thread := mkThread (t_header t) (t_id t) (t_name t) (current_state t) (base_priority t) v (quantum_ticks t) (quantum_ticks_remaining t) (in_ready_queue t) (t_parent t) (t_stacks t) (wait_object t) (wait_status t) (wake_tick t) (t_context t) (ready_next t) (ready_prev t) (sleep_next t) (sleep_prev t) (t_next t) (t_prev t) (process_next t) (process_prev t).
Definition with_quantum_ticks (v : Z) (t : Thread) : Thread := mkThread (t_header t) (t_id t) (t_name t) (current_state t) (base_priority t) (current_priority t) v (quantum_ticks_remaining t) (in_ready_queue t) (t_parent t) (t_stacks t) (wait_object t) (wait_status t) (wake_tick t) (t_context t) (ready_next t) (ready_prev t) (sleep_next t) (sleep_prev t) (t_next t) (t_prev t) (process_next t) (process_prev t).
Definition with_quantum_ticks_remaining (v : Z) (t : Thread) : Thread := mkThread (t_header t) (t_id t) (t_name t) (current_state t) (base_priority t) (current_priority t) (quantum_ticks t) v (in_ready_queue t) (t_parent t) (t_stacks t) (wait_object t) (wait_status t) (wake_tick t) (t_context t) (ready_next t) (ready_prev t) (sleep_next t) (sleep_prev t) (t_next t) (t_prev t) (process_next t) (process_prev t).
Definition with_in_ready_queue (v : bool) (t : Thread) : Thread := mkThread (t_header t) (t_id t) (t_name t) (current_state t) (base_priority t) (current_priority t) (quantum_ticks t) (quantum_ticks_remaining t) v (t_parent t) (t_stacks t) (wait_object t) (wait_status t) (wake_tick t) (t_context t) (ready_next t) (ready_prev t) (sleep_next t) (sleep_prev t) (t_next t) (t_prev t) (process_next t) (process_prev t).
Definition with_t_parent (v : option Z) (t : Thread) : Thread := mkThread (t_header t) (t_id t) (t_name t) (current_state t) (base_priority t) (current_priority t) (quantum_ticks t) (quantum_ticks_remaining t) (in_ready_queue t) v (t_stacks t) (wait_object t) (wait_status t) (wake_tick t) (t_context t) (ready_next t) (ready_prev t) (sleep_next t) (sleep_prev t) (t_next t) (t_prev t) (process_next t) (process_prev t).
Definition with_t_stacks (v : ThreadStacks) (t : Thread) : Thread := mkThread (t_header t) (t_id t) (t_name t) (current_state t) (base_priority t) (current_priority t) (quantum_ticks t) (quantum_ticks_remaining t) (in_ready_queue t) (t_parent t) v (wait_object t) (wait_status t) (wake_tick t) (t_context t) (ready_next t) (ready_prev t) (sleep_next t) (sleep_prev t) (t_next t) (t_prev t) (process_next t) (process_prev t).
Definition with_wait_object (v : option Z) (t : Thread) : Thread := mkThread (t_header t) (t_id t) (t_name t) (current_state t) (base_priority t) (current_priority t) (quantum_ticks t) (quantum_ticks_remaining t) (in_ready_queue t) (t_parent t) (t_stacks t) v (wait_status t) (wake_tick t) (t_context t) (ready_next t) (ready_prev t) (sleep_next t) (sleep_prev t) (t_next t) (t_prev t) (process_next t) (process_prev t).
Definition with_wait_status (v : Z) (t : Thread) : Thread := mkThread (t_header t) (t_id t) (t_name t) (current_state t) (base_priority t) (current_priority t) (quantum_ticks t) (quantum_ticks_remaining t) (in_ready_queue t) (t_parent t) (t_stacks t) (wait_object t) v (wake_tick t) (t_context t) (ready_next t) (ready_prev t) (sleep_next t) (sleep_prev t) (t_next t) (t_prev t) (process_next t) (process_prev t).
Definition with_wake_tick (v : Z) (t : Thread) : Thread := mkThread (t_header t) (t_id t) (t_name t) (current_state t) (base_priority t) (current_priority t) (quantum_ticks t) (quantum_ticks_remaining t) (in_ready_queue t) (t_parent t) (t_stacks t) (wait_object t) (wait_status t) v (t_context t) (ready_next t) (ready_prev t) (sleep_next t) (sleep_prev t) (t_next t) (t_prev t) (process_next t) (process_prev t).
Definition with_t_context (v : CpuContext) (t : Thread) : Thread := mkThread (t_header t) (t_id t) (t_name t) (current_state t) (base_priority t) (current_priority t) (quantum_ticks t) (quantum_ticks_remaining t) (in_ready_queue t) (t_parent t) (t_stacks t) (wait_object t) (wait_status t) (wake_tick t) v (ready_next t) (ready_prev t) (sleep_next t) (sleep_prev t) (t_next t) (t_prev t) (process_next t) (process_prev t).
Definition with_ready_next (v : option Z) (t : Thread) : Thread := mkThread (t_header t) (t_id t) (t_name t) (current_state t) (base_priority t) (current_priority t) (quantum_ticks t) (quantum_ticks_remaining t) (in_ready_queue t) (t_parent t) (t_stacks t) (wait_object t) (wait_status t) (wake_tick t) (t_context t) v (ready_prev t) (sleep_next t) (sleep_prev t) (t_next t) (t_prev t) (process_next t) (process_prev t).
Definition with_ready_prev (v : option Z) (t : Thread) : Thread := mkThread (t_header t) (t_id t) (t_name t) (current_state t) (base_priority t) (current_priority t) (quantum_ticks t) (quantum_ticks_remaining t) (in_ready_queue t) (t_parent t) (t_stacks t) (wait_object t) (wait_status t) (wake_tick t) (t_context t) (ready_next t) v (sleep_next t) (sleep_prev t) (t_next t) (t_prev t) (process_next t) (process_prev t).
Definition with_sleep_next (v : option Z) (t : Thread) : Thread := mkThread (t_header t) (t_id t) (t_name t) (current_state t) (base_priority t) (current_priority t) (quantum_ticks t) (quantum_ticks_remaining t) (in_ready_queue t) (t_parent t) (t_stacks t) (wait_object t) (wait_status t) (wake_tick t) (t_context t) (ready_next t) (ready_prev t) v (sleep_prev t) (t_next t) (t_prev t) (process_next t) (process_prev t).
Definition with_sleep_prev (v : option Z) (t : Thread) : Thread := mkThread (t_header t) (t_id t) (t_name t) (current_state t) (base_priority t) (current_priority t) (quantum_ticks t) (quantum_ticks_remaining t) (in_ready_queue t) (t_parent t) (t_stacks t) (wait_object t) (wait_status t) (wake_tick t) (t_context t) (ready_next t) (ready_prev t) (sleep_next t) v (t_next t) (t_prev t) (process_next t) (process_prev t).
Definition with_t_next (v : option Z) (t : Thread) : Thread := mkThread (t_header t) (t_id t) (t_name t) (current_state t) (base_priority t) (current_priority t) (quantum_ticks t) (quantum_ticks_remaining t) (in_ready_queue t) (t_parent t) (t_stacks t) (wait_object t) (wait_status t) (wake_tick t) (t_context t) (ready_next t) (ready_prev t) (sleep_next t) (sleep_prev t) v (t_prev t) (process_next t) (process_prev t).
Definition with_t_prev (v : option Z) (t : Thread) : Thread := mkThread (t_header t) (t_id t) (t_name t) (current_state t) (base_priority t) (current_priority t) (quantum_ticks t) (quantum_ticks_remaining t) (in_ready_queue t) (t_parent t) (t_stacks t) (wait_object t) (wait_status t) (wake_tick t) (t_context t) (ready_next t) (ready_prev t) (sleep_next t) (sleep_prev t) (t_next t) v (process_next t) (process_prev t).
Definition with_process_next (v : option Z) (t : Thread) : Thread := mkThread (t_header t) (t_id t) (t_name t) (current_state t) (base_priority t) (current_priority t) (quantum_ticks t) (quantum_ticks_remaining t) (in_ready_queue t) (t_parent t) (t_stacks t) (wait_object t) (wait_status t) (wake_tick t) (t_context t) (ready_next t) (ready_prev t) (sleep_next t) (sleep_prev t) (t_next t) (t_prev t) v (process_prev t).
Definition with_process_prev (v : option Z) (t : Thread) : Thread := mkThread (t_header t) (t_id t) (t_name t) (current_state t) (base_priority t) (current_priority t) (quantum_ticks t) (quantum_ticks_remaining t) (in_ready_queue t) (t_parent t) (t_stacks t) (wait_object t) (wait_status t) (wake_tick t) (t_context t) (ready_next t) (ready_prev t) (sleep_next t) (sleep_prev t) (t_next t) (t_prev t) (process_next t) v.

(** [struct Process]. *)
Record Process : Type := mkProcess {
  p_header : ObjectHeader;
  p_id : Z;
  p_name : list Z;
  image_path : list Z;
  launch_arguments : option Z;
  p_state : ProcessState;
  process_address_space : AddressSpace;
  loader_image_backing : option Z;
  loader_image_bytes : Z;
  loader_image_private_pages : option Z;
  loader_image_private_page_count : Z;
  loader_stack_backing : option Z;
  loader_stack_bytes : Z;
  user_stack_slot_bitmap : Z;
  user_stack_slot_bytes : Z;
  user_heap_base : Z;
  user_heap_reserved_bytes : Z;
  parent_process_id : Z;
  p_parent : option Z;
  main_thread : option Z;
  thread_list_head : option Z;
  thread_list_tail : option Z;
  thread_count : Z;
  handles : option Z;
  exit_code : Z;
  p_next : option Z;
  p_prev : option Z
}.

Definition with_p_header (v : ObjectHeader) (p : Process) : Process := mkProcess v (p_id p) (p_name p) (image_path p) (launch_arguments p) (p_state p) (process_address_space p) (loader_image_backing p) (loader_image_bytes p) (loader_image_private_pages p) (loader_image_private_page_count p) (loader_stack_backing p) (loader_stack_bytes p) (user_stack_slot_bitmap p) (user_stack_slot_bytes p) (user_heap_base p) (user_heap_reserved_bytes p) (parent_process_id p) (p_parent p) (main_thread p) (thread_list_head p) (thread_list_tail p) (thread_count p) (handles p) (exit_code p) (p_next p) (p_prev p).
Definition with_launch_arguments (v : option Z) (p : Process) : Process := mkProcess (p_header p) (p_id p) (p_name p) (image_path p) v (p_state p) (process_address_space p) (loader_image_backing p) (loader_image_bytes p) (loader_image_private_pages p) (loader_image_private_page_count p) (loader_stack_backing p) (loader_stack_bytes p) (user_stack_slot_bitmap p) (user_stack_slot_bytes p) (user_heap_base p) (user_heap_reserved_bytes p) (parent_process_id p) (p_parent p) (main_thread p) (thread_list_head p) (thread_list_tail p) (thread_count p) (handles p) (exit_code p) (p_next p) (p_prev p).
Definition with_p_state (v : ProcessState) (p : Process) : Process := mkProcess (p_header p) (p_id p) (p_name p) (image_path p) (launch_arguments p) v (process_address_space p) (loader_image_backing p) (loader_image_bytes p) (loader_image_private_pages p) (loader_image_private_page_count p) (loader_stack_backing p) (loader_stack_bytes p) (user_stack_slot_bitmap p) (user_stack_slot_bytes p) (user_heap_base p) (user_heap_reserved_bytes p) (parent_process_id p) (p_parent p) (main_thread p) (thread_list_head p) (thread_list_tail p) (thread_count p) (handles p) (exit_code p) (p_next p) (p_prev p).
Definition with_process_address_space (v : AddressSpace) (p : Process) : Process := mkProcess (p_header p) (p_id p) (p_name p) (image_path p) (launch_arguments p) (p_state p) v (loader_image_backing p) (loader_image_bytes p) (loader_image_private_pages p) (loader_image_private_page_count p) (loader_stack_backing p) (loader_stack_bytes p) (user_stack_slot_bitmap p) (user_stack_slot_bytes p) (user_heap_base p) (user_heap_reserved_bytes p) (parent_process_id p) (p_parent p) (main_thread p) (thread_list_head p) (thread_list_tail p) (thread_count p) (handles p) (exit_code p) (p_next p) (p_prev p).
Definition with_user_stack_slot_bitmap (v : Z) (p : Process) : Process := mkProcess (p_header p) (p_id p) (p_name p) (image_path p) (launch_arguments p) (p_state p) (process_address_space p) (loader_image_backing p) (loader_image_bytes p) (loader_image_private_pages p) (loader_image_private_page_count p) (loader_stack_backing p) (loader_stack_bytes p) v (user_stack_slot_bytes p) (user_heap_base p) (user_heap_reserved_bytes p) (parent_process_id p) (p_parent p) (main_thread p) (thread_list_head p) (thread_list_tail p) (thread_count p) (handles p) (exit_code p) (p_next p) (p_prev p).
Definition with_parent_process_id (v : Z) (p : Process) : Process := mkProcess (p_header p) (p_id p) (p_name p) (image_path p) (launch_arguments p) (p_state p) (process_address_space p) (loader_image_backing p) (loader_image_bytes p) (loader_image_private_pages p) (loader_image_private_page_count p) (loader_stack_backing p) (loader_stack_bytes p) (user_stack_slot_bitmap p) (user_stack_slot_bytes p) (user_heap_base p) (user_heap_reserved_bytes p) v (p_parent p) (main_thread p) (thread_list_head p) (thread_list_tail p) (thread_count p) (handles p) (exit_code p) (p_next p) (p_prev p).
Definition with_p_parent (v : option Z) (p : Process) : Process := mkProcess (p_header p) (p_id p) (p_name p) (image_path p) (launch_arguments p) (p_state p) (process_address_space p) (loader_image_backing p) (loader_image_bytes p) (loader_image_private_pages p) (loader_image_private_page_count p) (loader_stack_backing p) (loader_stack_bytes p) (user_stack_slot_bitmap p) (user_stack_slot_bytes p) (user_heap_base p) (user_heap_reserved_bytes p) (parent_process_id p) v (main_thread p) (thread_list_head p) (thread_list_tail p) (thread_count p) (handles p) (exit_code p) (p_next p) (p_prev p).
Definition with_main_thread (v : option Z) (p : Process) : Process := mkProcess (p_header p) (p_id p) (p_name p) (image_path p) (launch_arguments p) (p_state p) (process_address_space p) (loader_image_backing p) (loader_image_bytes p) (loader_image_private_pages p) (loader_image_private_page_count p) (loader_stack_backing p) (loader_stack_bytes p) (user_stack_slot_bitmap p) (user_stack_slot_bytes p) (user_heap_base p) (user_heap_reserved_bytes p) (parent_process_id p) (p_parent p) v (thread_list_head p) (thread_list_tail p) (thread_count p) (handles p) (exit_code p) (p_next p) (p_prev p).
Definition with_thread_list_head (v : option Z) (p : Process) : Process := mkProcess (p_header p) (p_id p) (p_name p) (image_path p) (launch_arguments p) (p_state p) (process_address_space p) (loader_image_backing p) (loader_image_bytes p) (loader_image_private_pages p) (loader_image_private_page_count p) (loader_stack_backing p) (loader_stack_bytes p) (user_stack_slot_bitmap p) (user_stack_slot_bytes p) (user_heap_base p) (user_heap_reserved_bytes p) (parent_process_id p) (p_parent p) (main_thread p) v (thread_list_tail p) (thread_count p) (handles p) (exit_code p) (p_next p) (p_prev p).
Definition with_thread_list_tail (v : option Z) (p : Process) : Process := mkProcess (p_header p) (p_id p) (p_name p) (image_path p) (launch_arguments p) (p_state p) (process_address_space p) (loader_image_backing p) (loader_image_bytes p) (loader_image_private_pages p) (loader_image_private_page_count p) (loader_stack_backing p) (loader_stack_bytes p) (user_stack_slot_bitmap p) (user_stack_slot_bytes p) (user_heap_base p) (user_heap_reserved_bytes p) (parent_process_id p) (p_parent p) (main_thread p) (thread_list_head p) v (thread_count p) (handles p) (exit_code p) (p_next p) (p_prev p).
Definition with_thread_count (v : Z) (p : Process) : Process := mkProcess (p_header p) (p_id p) (p_name p) (image_path p) (launch_arguments p) (p_state p) (process_address_space p) (loader_image_backing p) (loader_image_bytes p) (loader_image_private_pages p) (loader_image_private_page_count p) (loader_stack_backing p) (loader_stack_bytes p) (user_stack_slot_bitmap p) (user_stack_slot_bytes p) (user_heap_base p) (user_heap_reserved_bytes p) (parent_process_id p) (p_parent p) (main_thread p) (thread_list_head p) (thread_list_tail p) v (handles p) (exit_code p) (p_next p) (p_prev p).
Definition with_handles (v : option Z) (p : Process) : Process := mkProcess (p_header p) (p_id p) (p_name p) (image_path p) (launch_arguments p) (p_state p) (process_address_space p) (loader_image_backing p) (loader_image_bytes p) (loader_image_private_pages p) (loader_image_private_page_count p) (loader_stack_backing p) (loader_stack_bytes p) (user_stack_slot_bitmap p) (user_stack_slot_bytes p) (user_heap_base p) (user_heap_reserved_bytes p) (parent_process_id p) (p_parent p) (main_thread p) (thread_list_head p) (thread_list_tail p) (thread_count p) v (exit_code p) (p_next p) (p_prev p).
Definition with_exit_code (v : Z) (p : Process) : Process := mkProcess (p_header p) (p_id p) (p_name p) (image_path p) (launch_arguments p) (p_state p) (process_address_space p) (loader_image_backing p) (loader_image_bytes p) (loader_image_private_pages p) (loader_image_private_page_count p) (loader_stack_backing p) (loader_stack_bytes p) (user_stack_slot_bitmap p) (user_stack_slot_bytes p) (user_heap_base p) (user_heap_reserved_bytes p) (parent_process_id p) (p_parent p) (main_thread p) (thread_list_head p) (thread_list_tail p) (thread_count p) (handles p) v (p_next p) (p_prev p).
Definition with_p_next (v : option Z) (p : Process) : Process := mkProcess (p_header p) (p_id p) (p_name p) (image_path p) (launch_arguments p) (p_state p) (process_address_space p) (loader_image_backing p) (loader_image_bytes p) (loader_image_private_pages p) (loader_image_private_page_count p) (loader_stack_backing p) (loader_stack_bytes p) (user_stack_slot_bitmap p) (user_stack_slot_bytes p) (user_heap_base p) (user_heap_reserved_bytes p) (parent_process_id p) (p_parent p) (main_thread p) (thread_list_head p) (thread_list_tail p) (thread_count p) (handles p) (exit_code p) v (p_prev p).
Definition with_p_prev (v : option Z) (p : Process) : Process := mkProcess (p_header p) (p_id p) (p_name p) (image_path p) (launch_arguments p) (p_state p) (process_address_space p) (loader_image_backing p) (loader_image_bytes p) (loader_image_private_pages p) (loader_image_private_page_count p) (loader_stack_backing p) (loader_stack_bytes p) (user_stack_slot_bitmap p) (user_stack_slot_bytes p) (user_heap_base p) (user_heap_reserved_bytes p) (parent_process_id p) (p_parent p) (main_thread p) (thread_list_head p) (thread_list_tail p) (thread_count p) (handles p) (exit_code p) (p_next p) v.

(** The links of the ready queues, of the sleep queue, of the registry and of the
    threads of a process, and those of the processes. *)
Definition ready_links : Linked Thread :=
  {| link_next := ready_next; link_prev := ready_prev; set_next := with_ready_next; set_prev := with_ready_prev |}.
Definition sleep_links : Linked Thread :=
  {| link_next := sleep_next; link_prev := sleep_prev; set_next := with_sleep_next; set_prev := with_sleep_prev |}.
Definition registry_links : Linked Thread :=
  {| link_next := t_next; link_prev := t_prev; set_next := with_t_next; set_prev := with_t_prev |}.

Definition member_links : Linked Thread :=
  {| link_next := process_next; link_prev := process_prev; set_next := with_process_next; set_prev := with_process_prev |}.
Definition process_links : Linked Process :=
  {| link_next := p_next; link_prev := p_prev; set_next := with_p_next; set_prev := with_p_prev |}.

#[export] Instance ready_links_laws : @LinkedLaws Thread ready_links.
Proof. by split. Qed.
#[export] Instance sleep_links_laws : @LinkedLaws Thread sleep_links.
Proof. by split. Qed.
#[export] Instance registry_links_laws : @LinkedLaws Thread registry_links.
Proof. by split. Qed.
#[export] Instance member_links_laws : @LinkedLaws Thread member_links.
Proof. by split. Qed.
#[export] Instance process_links_laws : @LinkedLaws Process process_links.
Proof. by split. Qed.

(** The variables of scheduler.cpp and thread.cpp, the live threads and processes by
    address, and of mm.cpp and the processor the active address space and the
    interrupt mask. *)
Record Sched : Type := mkSched {
  threads : gmap Z Thread;
  processes : gmap Z Process;
  g_current_thread : option Z;
  g_current_process : option Z;
  g_idle_thread : option Z;
  g_ready_queues : list ReadyQueue;
  g_ready_bitmap : Z;
  g_ready_count : Z;
  g_tick_count : Z;
  g_sleep_head : option Z;
  g_sleep_tail : option Z;
  g_retired_thread_head : option Z;
  g_retired_thread_tail : option Z;
  g_reschedule_pending : bool;
  g_thread_head : option Z;
  g_thread_tail : option Z;
  g_thread_count : Z;
  g_next_thread_id : Z;
  kernel_root_table : Z;
  current_address_space : AddressSpace;
  interrupts : bool
}.

Definition with_threads (v : gmap Z Thread) (s : Sched) : Sched := mkSched v (processes s) (g_current_thread s) (g_current_process s) (g_idle_thread s) (g_ready_queues s) (g_ready_bitmap s) (g_ready_count s) (g_tick_count s) (g_sleep_head s) (g_sleep_tail s) (g_retired_thread_head s) (g_retired_thread_tail s) (g_reschedule_pending s) (g_thread_head s) (g_thread_tail s) (g_thread_count s) (g_next_thread_id s) (kernel_root_table s) (current_address_space s) (interrupts s).
Definition with_processes (v : gmap Z Process) (s : Sched) : Sched := mkSched (threads s) v (g_current_thread s) (g_current_process s) (g_idle_thread s) (g_ready_queues s) (g_ready_bitmap s) (g_ready_count s) (g_tick_count s) (g_sleep_head s) (g_sleep_tail s) (g_retired_thread_head s) (g_retired_thread_tail s) (g_reschedule_pending s) (g_thread_head s) (g_thread_tail s) (g_thread_count s) (g_next_thread_id s) (kernel_root_table s) (current_address_space s) (interrupts s).
Definition with_g_current_thread (v : option Z) (s : Sched) : Sched := mkSched (threads s) (processes s) v (g_current_process s) (g_idle_thread s) (g_ready_queues s) (g_ready_bitmap s) (g_ready_count s) (g_tick_count s) (g_sleep_head s) (g_sleep_tail s) (g_retired_thread_head s) (g_retired_thread_tail s) (g_reschedule_pending s) (g_thread_head s) (g_thread_tail s) (g_thread_count s) (g_next_thread_id s) (kernel_root_table s) (current_address_space s) (interrupts s).
Definition with_g_current_process (v : option Z) (s : Sched) : Sched := mkSched (threads s) (processes s) (g_current_thread s) v (g_idle_thread s) (g_ready_queues s) (g_ready_bitmap s) (g_ready_count s) (g_tick_count s) (g_sleep_head s) (g_sleep_tail s) (g_retired_thread_head s) (g_retired_thread_tail s) (g_reschedule_pending s) (g_thread_head s) (g_thread_tail s) (g_thread_count s) (g_next_thread_id s) (kernel_root_table s) (current_address_space s) (interrupts s).
Definition with_g_idle_thread (v : option Z) (s : Sched) : Sched := mkSched (threads s) (processes s) (g_current_thread s) (g_current_process s) v (g_ready_queues s) (g_ready_bitmap s) (g_ready_count s) (g_tick_count s) (g_sleep_head s) (g_sleep_tail s) (g_retired_thread_head s) (g_retired_thread_tail s) (g_reschedule_pending s) (g_thread_head s) (g_thread_tail s) (g_thread_count s) (g_next_thread_id s) (kernel_root_table s) (current_address_space s) (interrupts s).
Definition with_g_ready_queues (v : list ReadyQueue) (s : Sched) : Sched := mkSched (threads s) (processes s) (g_current_thread s) (g_current_process s) (g_idle_thread s) v (g_ready_bitmap s) (g_ready_count s) (g_tick_count s) (g_sleep_head s) (g_sleep_tail s) (g_retired_thread_head s) (g_retired_thread_tail s) (g_reschedule_pending s) (g_thread_head s) (g_thread_tail s) (g_thread_count s) (g_next_thread_id s) (kernel_root_table s) (current_address_space s) (interrupts s).
Definition with_g_ready_bitmap (v : Z) (s : Sched) : Sched := mkSched (threads s) (processes s) (g_current_thread s) (g_current_process s) (g_idle_thread s) (g_ready_queues s) v (g_ready_count s) (g_tick_count s) (g_sleep_head s) (g_sleep_tail s) (g_retired_thread_head s) (g_retired_thread_tail s) (g_reschedule_pending s) (g_thread_head s) (g_thread_tail s) (g_thread_count s) (g_next_thread_id s) (kernel_root_table s) (current_address_space s) (interrupts s).
Definition with_g_ready_count (v : Z) (s : Sched) : Sched := mkSched (threads s) (processes s) (g_current_thread s) (g_current_process s) (g_idle_thread s) (g_ready_queues s) (g_ready_bitmap s) v (g_tick_count s) (g_sleep_head s) (g_sleep_tail s) (g_retired_thread_head s) (g_retired_thread_tail s) (g_reschedule_pending s) (g_thread_head s) (g_thread_tail s) (g_thread_count s) (g_next_thread_id s) (kernel_root_table s) (current_address_space s) (interrupts s).
Definition with_g_tick_count (v : Z) (s : Sched) : Sched := mkSched (threads s) (processes s) (g_current_thread s) (g_current_process s) (g_idle_thread s) (g_ready_queues s) (g_ready_bitmap s) (g_ready_count s) v (g_sleep_head s) (g_sleep_tail s) (g_retired_thread_head s) (g_retired_thread_tail s) (g_reschedule_pending s) (g_thread_head s) (g_thread_tail s) (g_thread_count s) (g_next_thread_id s) (kernel_root_table s) (current_address_space s) (interrupts s).
Definition with_g_sleep_head (v : option Z) (s : Sched) : Sched := mkSched (threads s) (processes s) (g_current_thread s) (g_current_process s) (g_idle_thread s) (g_ready_queues s) (g_ready_bitmap s) (g_ready_count s) (g_tick_count s) v (g_sleep_tail s) (g_retired_thread_head s) (g_retired_thread_tail s) (g_reschedule_pending s) (g_thread_head s) (g_thread_tail s) (g_thread_count s) (g_next_thread_id s) (kernel_root_table s) (current_address_space s) (interrupts s).
Definition with_g_sleep_tail (v : option Z) (s : Sched) : Sched := mkSched (threads s) (processes s) (g_current_thread s) (g_current_process s) (g_idle_thread s) (g_ready_queues s) (g_ready_bitmap s) (g_ready_count s) (g_tick_count s) (g_sleep_head s) v (g_retired_thread_head s) (g_retired_thread_tail s) (g_reschedule_pending s) (g_thread_head s) (g_thread_tail s) (g_thread_count s) (g_next_thread_id s) (kernel_root_table s) (current_address_space s) (interrupts s).
Definition with_g_retired_thread_head (v : option Z) (s : Sched) : Sched := mkSched (threads s) (processes s) (g_current_thread s) (g_current_process s) (g_idle_thread s) (g_ready_queues s) (g_ready_bitmap s) (g_ready_count s) (g_tick_count s) (g_sleep_head s) (g_sleep_tail s) v (g_retired_thread_tail s) (g_reschedule_pending s) (g_thread_head s) (g_thread_tail s) (g_thread_count s) (g_next_thread_id s) (kernel_root_table s) (current_address_space s) (interrupts s).
Definition with_g_retired_thread_tail (v : option Z) (s : Sched) : Sched := mkSched (threads s) (processes s) (g_current_thread s) (g_current_process s) (g_idle_thread s) (g_ready_queues s) (g_ready_bitmap s) (g_ready_count s) (g_tick_count s) (g_sleep_head s) (g_sleep_tail s) (g_retired_thread_head s) v (g_reschedule_pending s) (g_thread_head s) (g_thread_tail s) (g_thread_count s) (g_next_thread_id s) (kernel_root_table s) (current_address_space s) (interrupts s).
Definition with_g_reschedule_pending (v : bool) (s : Sched) : Sched := mkSched (threads s) (processes s) (g_current_thread s) (g_current_process s) (g_idle_thread s) (g_ready_queues s) (g_ready_bitmap s) (g_ready_count s) (g_tick_count s) (g_sleep_head s) (g_sleep_tail s) (g_retired_thread_head s) (g_retired_thread_tail s) v (g_thread_head s) (g_thread_tail s) (g_thread_count s) (g_next_thread_id s) (kernel_root_table s) (current_address_space s) (interrupts s).
Definition with_g_thread_count (v : Z) (s : Sched) : Sched := mkSched (threads s) (processes s) (g_current_thread s) (g_current_process s) (g_idle_thread s) (g_ready_queues s) (g_ready_bitmap s) (g_ready_count s) (g_tick_count s) (g_sleep_head s) (g_sleep_tail s) (g_retired_thread_head s) (g_retired_thread_tail s) (g_reschedule_pending s) (g_thread_head s) (g_thread_tail s) v (g_next_thread_id s) (kernel_root_table s) (current_address_space s) (interrupts s).
Definition with_g_next_thread_id (v : Z) (s : Sched) : Sched := mkSched (threads s) (processes s) (g_current_thread s) (g_current_process s) (g_idle_thread s) (g_ready_queues s) (g_ready_bitmap s) (g_ready_count s) (g_tick_count s) (g_sleep_head s) (g_sleep_tail s) (g_retired_thread_head s) (g_retired_thread_tail s) (g_reschedule_pending s) (g_thread_head s) (g_thread_tail s) (g_thread_count s) v (kernel_root_table s) (current_address_space s) (interrupts s).
Definition with_current_address_space (v : AddressSpace) (s : Sched) : Sched := mkSched (threads s) (processes s) (g_current_thread s) (g_current_process s) (g_idle_thread s) (g_ready_queues s) (g_ready_bitmap s) (g_ready_count s) (g_tick_count s) (g_sleep_head s) (g_sleep_tail s) (g_retired_thread_head s) (g_retired_thread_tail s) (g_reschedule_pending s) (g_thread_head s) (g_thread_tail s) (g_thread_count s) (g_next_thread_id s) (kernel_root_table s) v (interrupts s).
Definition with_interrupts (v : bool) (s : Sched) : Sched := mkSched (threads s) (processes s) (g_current_thread s) (g_current_process s) (g_idle_thread s) (g_ready_queues s) (g_ready_bitmap s) (g_ready_count s) (g_tick_count s) (g_sleep_head s) (g_sleep_tail s) (g_retired_thread_head s) (g_retired_thread_tail s) (g_reschedule_pending s) (g_thread_head s) (g_thread_tail s) (g_thread_count s) (g_next_thread_id s) (kernel_root_table s) (current_address_space s) v.

(** ** Programs *)

(** The calls out of the scheduler: a report to the event broker,
    [ThreadManager::destroy_thread], [Platform::poll_devices] and
    [Arch::poll_periodic_timer]. *)
Inductive OutCall : Type :=
| Report (c : BrokerCall)
| DestroyThread (thread : Z)
| PollDevices
| PollTimer.

Definition answer (c : OutCall) : Type :=
  match c with Report _ => unit | DestroyThread _ => Status | PollDevices => unit | PollTimer => Z end.

Inductive Run (A : Type) : Type :=
| Done (a : A) (s : Sched)
| Undefined
| Unfinished
| Call (c : OutCall) (s : Sched) (resume : answer c -> Sched -> Run A).
Arguments Done {A} a s.
Arguments Undefined {A}.
Arguments Unfinished {A}.
Arguments Call {A} c s resume.

Fixpoint run_bind {A B : Type} (r : Run A) (k : A -> Sched -> Run B) : Run B :=
  match r with
  | Done a s => k a s
  | Undefined => Undefined
  | Unfinished => Unfinished
  | Call c s resume => Call c s (fun x s' => run_bind (resume x s') k)
  end.

Definition M (A : Type) : Type := Sched -> Run A.
Definition ret {A : Type} (a : A) : M A := Done a.
Definition seq {A B : Type} (m : M A) (k : A -> M B) : M B := fun s => run_bind (m s) k.
Definition call (c : OutCall) : M (answer c) := fun s => Call c s Done.

(** A part without calls. *)
Definition exec {A : Type} (f : Sched -> Exec (A * Sched)) : M A := fun s =>
  match f s with Ok (a, s') => Done a s' | NoFuel => Unfinished | _ => Undefined end.
Definition change (f : Sched -> Exec Sched) : M unit := exec (fun s => s' <- f s ;; Ok (tt, s')).
Definition set_var (f : Sched -> Sched) : M unit := fun s => Done tt (f s).
Definition read_var {A : Type} (f : Sched -> A) : M A := fun s => Done (f s) s.

Declare Scope sched_scope.
Delimit Scope sched_scope with sched.
Notation "'let!' x := m 'in' k" := (seq m (fun x => k)) (at level 200, x binder, m at level 100, k at level 200) : sched_scope.
Notation "m ;;; k" := (seq m (fun _ => k)) (at level 100, k at level 200, right associativity) : sched_scope.
Open Scope sched_scope.

(** [while] over programs, as [iterate]. *)
Fixpoint loop {A : Type} (fuel : nat) (step : M (option A)) : M A :=
  match fuel with
  | O => fun _ => Unfinished
  | S fuel => let! r := step in match r with Some a => ret a | None => loop fuel step end
  end.

(** ** Fields of threads and processes *)
Definition get (t : Z) (s : Sched) : Exec Thread := fetch (threads s) t.
Definition set (t : Z) (f : Thread -> Thread) (s : Sched) : Exec Sched :=
  m <- assign (threads s) t f ;; Ok (with_threads m s).
Definition get_process (p : Z) (s : Sched) : Exec Process :=
  match processes s !! p with Some x => Ok x | None => Undef end.
Definition set_process (p : Z) (f : Process -> Process) (s : Sched) : Exec Sched :=
  x <- get_process p s ;; Ok (with_processes (<[p := f x]> (processes s)) s).

Definition thread_at (t : Z) : M Thread := exec (fun s => r <- get t s ;; Ok (r, s)).
Definition process_at (p : Z) : M Process := exec (fun s => x <- get_process p s ;; Ok (x, s)).
Definition update (t : Z) (f : Thread -> Thread) : M unit := change (set t f).

(** [Arch::save_and_disable_interrupts] and [Arch::restore_interrupts]. *)
Definition save_and_disable_interrupts : M bool := fun s => Done (interrupts s) (with_interrupts false s).
Definition restore_interrupts (enabled : bool) : M unit := set_var (with_interrupts enabled).

(** ** Running a program

    A handler gives the answer to each call and the state it leaves. *)
Definition Handler : Type := forall c, Sched -> Exec (answer c * Sched).

Fixpoint handled {A : Type} (h : Handler) (r : Run A) : Exec (A * Sched) :=
  match r with
  | Done a s => Ok (a, s)
  | Undefined => Undef
  | Unfinished => NoFuel
  | Call c s resume => '(x, s') <- h c s ;; handled h (resume x s')
  end.
