(* ===== verification/Scheduler.v ===== *)
(** The scheduler: scheduler/scheduler.cpp.

    A thread gives the processor away inside [switch_to_thread]: what follows the
    call there runs when the thread is dispatched again.  [switch_to_thread] and
    [dispatch] therefore take the call they are made from ([Caller]) and the saved
    interrupt mask, leave them in the context of the thread that gives way, and go
    on with what the context of the next thread holds.  A call ends with the
    processor in one of the states of [Control], for the thread that then runs. *)
From stdpp Require Import base list gmap.
From Stdlib Require Import ZArith Lia.
From S2P Require Import Prelude KernelText DList KernelIface SchedState.

Local Open Scope Z_scope.

(** ** Predicates on threads *)
Definition is_waiting_state (st : ThreadState) : bool :=
  match st with Waiting | Suspended | Terminated => true | _ => false end.

Definition thread_is_runnable (thread : option Z) (s : Sched) : Exec bool :=
  match thread with
  | None => Ok false
  | Some t => r <- get t s ;; Ok (negb (is_waiting_state (current_state r)))
  end.

Definition thread_can_enter_ready_queue (thread : option Z) (s : Sched) : Exec bool :=
  b <- thread_is_runnable thread s ;;
  Ok (b && negb (bool_decide (thread = g_idle_thread s))).

Definition thread_has_valid_priority (thread : option Z) (s : Sched) : Exec bool :=
  match thread with
  | None => Ok false
  | Some t => r <- get t s ;; Ok (current_priority r <? ThreadPriorityLevelCount)
  end.

Definition full_quantum (r : Thread) : Z :=
  if quantum_ticks r =? 0 then ThreadDefaultQuantumTicks else quantum_ticks r.

Definition reset_quantum (thread : option Z) (s : Sched) : Exec Sched :=
  match thread with
  | None => Ok s
  | Some t => set t (fun r => with_quantum_ticks_remaining (full_quantum r) r) s
  end.

Definition thread_in_sleep_queue (thread : option Z) (s : Sched) : Exec bool :=
  match thread with
  | None => Ok false
  | Some t =>
      r <- get t s ;;
      Ok (bool_decide (g_sleep_head s = Some t) || bool_decide (sleep_prev r <> None) || bool_decide (sleep_next r <> None))
  end.

(** ** The ready queues *)

(** [__builtin_ctz] of a value that is not 0. *)
Fixpoint pos_ctz (p : positive) : Z := match p with xO p => 1 + pos_ctz p | _ => 0 end.
Definition ctz (z : Z) : Z := match z with Zpos p => pos_ctz p | _ => 0 end.

Definition highest_ready_priority (s : Sched) : Z :=
  if g_ready_bitmap s =? 0 then -1 else ctz (g_ready_bitmap s).

(** The index of the queue, where the code returns a pointer to it. *)
Definition ready_queue_for_priority (priority : Z) : option Z :=
  if ThreadPriorityLevelCount <=? priority then None else Some priority.

Definition set_queue (p : Z) (q : ReadyQueue) (s : Sched) : Exec Sched :=
  l <- aset (g_ready_queues s) p q ;; Ok (with_g_ready_queues l s).

(** The links of a thread that joins the queue [p] at one of its ends. *)
Definition link_ready (t : Z) (at_tail : bool) (p : Z) (queue : ReadyQueue) (s : Sched) : Exec Sched :=
  s <- set t (with_ready_prev None) s ;;
  s <- set t (with_ready_next None) s ;;
  match head queue with
  | None => set_queue p (mkReadyQueue (Some t) (Some t)) s
  | Some h =>
      if at_tail then
        s <- set t (with_ready_prev (tail queue)) s ;;
        s <- match tail queue with
             | Some l => set l (with_ready_next (Some t)) s
             | None => Undef
             end ;;
        set_queue p (mkReadyQueue (Some h) (Some t)) s
      else
        s <- set t (with_ready_next (Some h)) s ;;
        s <- set h (with_ready_prev (Some t)) s ;;
        set_queue p (mkReadyQueue (Some t) (tail queue)) s
  end.

Definition ready_queue_push (thread : option Z) (at_tail : bool) (s : Sched) : Exec (Status * Sched) :=
  can <- thread_can_enter_ready_queue thread s ;;
  valid <- thread_has_valid_priority thread s ;;
  match thread with
  | None => Ok (StatusInvalidArgument, s)
  | Some t =>
      if negb can || negb valid then Ok (StatusInvalidArgument, s) else
      r <- get t s ;;
      if in_ready_queue r then Ok (StatusAlreadyExists, s) else
      match ready_queue_for_priority (current_priority r) with
      | None => Ok (StatusInvalidArgument, s)
      | Some p =>
          queue <- aget (g_ready_queues s) p ;;
          s <- link_ready t at_tail p queue s ;;
          s <- set t (with_in_ready_queue true) s ;;
          let s := with_g_ready_bitmap (Z.lor (g_ready_bitmap s) (Z.shiftl 1 (current_priority r))) s in
          Ok (StatusOK, with_g_ready_count (u64 (g_ready_count s + 1)) s)
      end
  end.

(** The neighbours of a thread that leaves its queue, or the ends of the queue. *)
Definition unlink_ready (t : Z) (queue : ReadyQueue) (s : Sched) : Exec (Sched * ReadyQueue) :=
  r <- get t s ;;
  '(s, queue) <- match ready_prev r with
                 | Some a => s <- set a (with_ready_next (ready_next r)) s ;; Ok (s, queue)
                 | None => Ok (s, mkReadyQueue (ready_next r) (tail queue))
                 end ;;
  r <- get t s ;;
  match ready_next r with
  | Some c => s <- set c (with_ready_prev (ready_prev r)) s ;; Ok (s, queue)
  | None => Ok (s, mkReadyQueue (head queue) (ready_prev r))
  end.

Definition ready_queue_remove (thread : option Z) (s : Sched) : Exec Sched :=
  valid <- thread_has_valid_priority thread s ;;
  match thread with
  | None => Ok s
  | Some t =>
      r <- get t s ;;
      if negb (in_ready_queue r) || negb valid then Ok s else
      match ready_queue_for_priority (current_priority r) with
      | None =>
          set t (fun r => with_ready_next None (with_ready_prev None (with_in_ready_queue false r))) s
      | Some p =>
          queue <- aget (g_ready_queues s) p ;;
          '(s, queue) <- unlink_ready t queue s ;;
          s <- set_queue p queue s ;;
          s <- set t (fun r => with_in_ready_queue false (with_ready_next None (with_ready_prev None r))) s ;;
          let s := if g_ready_count s =? 0 then s else with_g_ready_count (u64 (g_ready_count s - 1)) s in
          Ok (match head queue with
              | None => with_g_ready_bitmap (Z.ldiff (g_ready_bitmap s) (Z.shiftl 1 (current_priority r))) s
              | Some _ => s
              end)
      end
  end.

(** One turn of the loop of [ready_queue_pop_best]. *)
Definition pop_step (s : Sched) : Exec (Sched + option Z * Sched) :=
  if g_ready_bitmap s =? 0 then Ok (inr (None, s)) else
  let priority := highest_ready_priority s in
  if priority <? 0 then Ok (inr (None, s)) else
  match ready_queue_for_priority (u8 priority) with
  | None => Ok (inl (with_g_ready_bitmap (Z.ldiff (g_ready_bitmap s) (Z.shiftl 1 priority)) s))
  | Some p =>
      queue <- aget (g_ready_queues s) p ;;
      match head queue with
      | None => Ok (inl (with_g_ready_bitmap (Z.ldiff (g_ready_bitmap s) (Z.shiftl 1 priority)) s))
      | Some t =>
          s <- ready_queue_remove (Some t) s ;;
          can <- thread_can_enter_ready_queue (Some t) s ;;
          r <- get t s ;;
          if can && bool_decide (current_state r = Ready) then Ok (inr (Some t, s)) else Ok (inl s)
      end
  end.

(** Each turn takes a thread out of a queue or clears a bit. *)
Definition ready_queue_pop_best (s : Sched) : Exec (option Z * Sched) :=
  iterate (33 + size (threads s)) pop_step s.

(** ** The sleep queue *)
(** The neighbours of a thread that leaves the sleep queue, or its ends. *)
Definition unlink_sleep (t : Z) (s : Sched) : Exec Sched :=
  r <- get t s ;;
  s <- match sleep_prev r with
       | Some a => set a (with_sleep_next (sleep_next r)) s
       | None => Ok (with_g_sleep_head (sleep_next r) s)
       end ;;
  r <- get t s ;;
  match sleep_next r with
  | Some c => set c (with_sleep_prev (sleep_prev r)) s
  | None => Ok (with_g_sleep_tail (sleep_prev r) s)
  end.

Definition sleep_queue_remove (thread : option Z) (s : Sched) : Exec Sched :=
  sleeping <- thread_in_sleep_queue thread s ;;
  match thread with
  | None => Ok s
  | Some t =>
      if negb sleeping then Ok s else
      s <- unlink_sleep t s ;;
      set t (fun r => with_sleep_next None (with_sleep_prev None r)) s
  end.

(** The first sleeper that wakes after [tick], from [cursor] on. *)
Definition cursor_step (s : Sched) (tick : Z) (cursor : option Z) : Exec (option Z + option Z) :=
  match cursor with
  | None => Ok (inr None)
  | Some c => r <- get c s ;; Ok (if wake_tick r <=? tick then inl (sleep_next r) else inr (Some c))
  end.

(** The links of a thread that goes before [cursor], or to the end. *)
Definition link_sleep (t : Z) (cursor : option Z) (s : Sched) : Exec Sched :=
  match cursor with
  | None =>
      s <- set t (with_sleep_prev (g_sleep_tail s)) s ;;
      s <- match g_sleep_tail s with
           | Some l => set l (with_sleep_next (Some t)) s
           | None => Undef
           end ;;
      Ok (with_g_sleep_tail (Some t) s)
  | Some c =>
      s <- set t (with_sleep_next (Some c)) s ;;
      rc <- get c s ;;
      s <- set t (with_sleep_prev (sleep_prev rc)) s ;;
      rc <- get c s ;;
      s <- match sleep_prev rc with
           | Some a => set a (with_sleep_next (Some t)) s
           | None => Ok (with_g_sleep_head (Some t) s)
           end ;;
      set c (with_sleep_prev (Some t)) s
  end.

Definition sleep_queue_insert_sorted (thread : option Z) (s : Sched) : Exec Sched :=
  match thread with
  | None => Ok s
  | Some t =>
      s <- sleep_queue_remove (Some t) s ;;
      s <- set t (fun r => with_sleep_next None (with_sleep_prev None r)) s ;;
      match g_sleep_head s with
      | None => Ok (with_g_sleep_tail (Some t) (with_g_sleep_head (Some t) s))
      | Some h =>
          r <- get t s ;;
          cursor <- iterate (S (size (threads s))) (cursor_step s (wake_tick r)) (Some h) ;;
          link_sleep t cursor s
      end
  end.

(** ** Making threads ready *)

(** [KernelEventBroker::publish_thread_event]: the broker reads the thread's id,
    name, priority and the id of its process. *)
Definition publish_thread_event (type : Z) (t : Z) (previous_state : Z) (current : Z) : M unit :=
  let! r := thread_at t in
  let! pid := match t_parent r with
              | None => ret None
              | Some p => let! x := process_at p in ret (Some (p_id x))
              end in
  call (Report (PublishThreadEvent type (KernelIface.mkThread (t_id r) (t_name r) pid (current_priority r)) previous_state current StatusOK)).

Definition with_wait (object : option Z) (status : Z) (r : Thread) : Thread := with_wait_status status (with_wait_object object r).

(** A process that is not on its way out is running again. *)
Definition revive_process (parent : option Z) (s : Sched) : Exec Sched :=
  match parent with
  | None => Ok s
  | Some p =>
      x <- get_process p s ;;
      if bool_decide (p_state x = ProcessExiting) || bool_decide (p_state x = ProcessTerminated) then Ok s
      else set_process p (with_p_state ProcessRunning) s
  end.

Definition transition_thread_to_ready (thread : option Z) (at_tail : bool) : M Status :=
  match thread with
  | None => ret StatusInvalidArgument
  | Some t =>
      let! r := thread_at t in
      if bool_decide (current_state r = Terminated) then ret StatusBusy else
      if in_ready_queue r then ret StatusAlreadyExists else
      change (sleep_queue_remove (Some t)) ;;;
      update t (fun r => with_wake_tick 0 (with_wait None (wait_reason_code WaitNone) r)) ;;;
      change (revive_process (t_parent r)) ;;;
      let previous_state := current_state r in
      update t (with_current_state Ready) ;;;
      let! r := thread_at t in
      (if quantum_ticks_remaining r =? 0 then change (reset_quantum (Some t)) else ret tt) ;;;
      let! status := exec (ready_queue_push (Some t) at_tail) in
      (if bool_decide (status = StatusOK) && negb (bool_decide (previous_state = Ready))
       then publish_thread_event KernelEventTypeThreadReady t (thread_state_code previous_state) (thread_state_code Ready)
       else ret tt) ;;;
      if negb (bool_decide (status = StatusOK)) then ret status else
      let! current := read_var g_current_thread in
      let! idle := read_var g_idle_thread in
      (if bool_decide (current = idle) then set_var (with_g_reschedule_pending true) else ret tt) ;;;
      match current with
      | None => ret status
      | Some c =>
          if bool_decide (current = idle) then ret status else
          let! r := thread_at t in
          let! rc := thread_at c in
          (if current_priority r <? current_priority rc then set_var (with_g_reschedule_pending true) else ret tt) ;;;
          ret status
      end
  end.

(** One turn of [wake_expired_sleepers]; [Some tt] leaves the loop. *)
Definition wake_step : M (option unit) :=
  let! first := read_var g_sleep_head in
  match first with
  | None => ret (Some tt)
  | Some t =>
      let! r := thread_at t in
      let! now := read_var g_tick_count in
      if negb (wake_tick r <=? now) then ret (Some tt) else
      change (sleep_queue_remove (Some t)) ;;;
      let! r := thread_at t in
      (if bool_decide (current_state r = Waiting)
       then let! _ := transition_thread_to_ready (Some t) true in ret tt
       else ret tt) ;;;
      ret None
  end.

(** Each turn takes a thread off the sleep queue. *)
Definition wake_expired_sleepers : M unit := fun s => loop (S (size (threads s))) wake_step s.

(** ** Threads that have ended *)
Definition queue_retired_thread (thread : option Z) (s : Sched) : Exec Sched :=
  match thread with
  | None => Ok s
  | Some t =>
      s <- set t (with_ready_next None) s ;;
      s <- match g_retired_thread_tail s with
           | Some l => set l (with_ready_next (Some t)) s
           | None => Ok (with_g_retired_thread_head (Some t) s)
           end ;;
      Ok (with_g_retired_thread_tail (Some t) s)
  end.

(** One turn of [reap_retired_threads]. *)
Definition reap_step : M (option unit) :=
  let! first := read_var g_retired_thread_head in
  let! current := read_var g_current_thread in
  match first with
  | None => ret (Some tt)
  | Some t =>
      if bool_decide (current = Some t) then ret (Some tt) else
      let! r := thread_at t in
      set_var (with_g_retired_thread_head (ready_next r)) ;;;
      (if bool_decide (ready_next r = None) then set_var (with_g_retired_thread_tail None) else ret tt) ;;;
      update t (with_ready_next None) ;;;
      let! _ := call (DestroyThread t) in
      ret None
  end.

(** Each turn takes a thread off the list. *)
Definition reap_retired_threads : M unit := fun s => loop (S (size (threads s))) reap_step s.

(** ** Giving the processor away *)

(** [MemoryManager::switch_to]: the translation tables of the two halves. *)
Definition switch_to (space : AddressSpace) (s : Sched) : Status * Sched :=
  if (page_table_root space =? 0) || (kernel_root_table s =? 0) then (StatusInvalidArgument, s)
  else (StatusOK, with_current_address_space space s).

Definition bind_current_thread (thread : option Z) : M Status :=
  match thread with
  | None => ret StatusInvalidArgument
  | Some t =>
      let! r := thread_at t in
      let previous_state := current_state r in
      let! status :=
        match t_parent r with
        | None => ret StatusOK
        | Some p =>
            let! x := process_at p in
            let! status := exec (fun s => Ok (switch_to (process_address_space x) s)) in
            (if bool_decide (status = StatusOK) then change (set_process p (with_p_state ProcessRunning)) else ret tt) ;;;
            ret status
        end in
      if negb (bool_decide (status = StatusOK)) then ret status else
      update t (with_current_state Running) ;;;
      (if negb (bool_decide (previous_state = Running))
       then publish_thread_event KernelEventTypeThreadRunning t (thread_state_code previous_state) (thread_state_code Running)
       else ret tt) ;;;
      set_var (with_g_current_thread (Some t)) ;;;
      let! r := thread_at t in
      set_var (with_g_current_process (t_parent r)) ;;;
      change (reset_quantum (Some t)) ;;;
      ret StatusOK
  end.

Definition pick_next_thread (keep_current_if_runnable : bool) (s : Sched) : Exec (option Z * Sched) :=
  '(next, s) <- ready_queue_pop_best s ;;
  match next with
  | Some t => Ok (Some t, s)
  | None =>
      runnable <- thread_is_runnable (g_current_thread s) s ;;
      if keep_current_if_runnable && runnable && negb (bool_decide (g_current_thread s = g_idle_thread s))
      then Ok (g_current_thread s, s)
      else match g_idle_thread s with
           | Some i => Ok (Some i, s)
           | None => Ok (g_current_thread s, s)
           end
  end.

(** The processor at the end of a call: the running thread's own call returns (a
    call without a result returns [StatusOK]), it runs user code from a saved
    frame or from its first instruction, it starts in the kernel, or the
    processor is halted. *)
Inductive Control : Type :=
| Returns (caller : Caller) (status : Status)
| ResumesUser (frame : AArch64ExceptionFrame)
| EntersUser (pc stack state : Z)
| EntersThread (entry_point : Z)
| Halts.

(** What each call does after [switch_to_thread] or [dispatch] has returned. *)
Definition after_switch (caller : Caller) (interrupts_enabled : bool) (status : Status) : M Control :=
  match caller with
  | InYield | InPoll | InCurrentElIrq | InLowerElIrq =>
      restore_interrupts interrupts_enabled ;;; ret (Returns caller StatusOK)
  | InSetPriority => restore_interrupts interrupts_enabled ;;; ret (Returns caller status)
  | InBlock =>
      let! current := read_var g_current_thread in
      match current with
      | None => restore_interrupts interrupts_enabled ;;; ret (Returns caller status)
      | Some c =>
          update c (with_wait None 0) ;;;
          (if bool_decide (status = StatusOK) then ret tt else update c (with_current_state Running)) ;;;
          restore_interrupts interrupts_enabled ;;; ret (Returns caller status)
      end
  | InBlockFor reason =>
      let! current := read_var g_current_thread in
      match current with
      | None => restore_interrupts interrupts_enabled ;;; ret (Returns caller status)
      | Some c =>
          let! r := thread_at c in
          let timed_out := (wait_status r =? wait_reason_code reason) && negb (wake_tick r =? 0) in
          update c (fun r => with_wake_tick 0 (with_wait None (wait_reason_code WaitNone) r)) ;;;
          if bool_decide (status = StatusOK)
          then restore_interrupts interrupts_enabled ;;; ret (Returns caller (if timed_out then StatusBusy else StatusOK))
          else change (sleep_queue_remove (Some c)) ;;;
               update c (with_current_state Running) ;;;
               restore_interrupts interrupts_enabled ;;; ret (Returns caller status)
      end
  | InSleep =>
      let! current := read_var g_current_thread in
      match current with
      | None => restore_interrupts interrupts_enabled ;;; ret (Returns caller status)
      | Some c =>
          update c (fun r => with_wake_tick 0 (with_wait None (wait_reason_code WaitNone) r)) ;;;
          (if bool_decide (status = StatusOK) then ret tt
           else change (sleep_queue_remove (Some c)) ;;; update c (with_current_state Running)) ;;;
          restore_interrupts interrupts_enabled ;;; ret (Returns caller status)
      end
  | InExit => restore_interrupts interrupts_enabled ;;; ret Halts
  end.

(** [aarch64_context_switch] (arch/aarch64/context_switch.S) and what runs next. *)
Definition save_context (caller : Caller) (interrupts_enabled : bool) (c : CpuContext) : CpuContext :=
  mkContext (KernelCode (AfterSwitch caller interrupts_enabled)) (user_stack_pointer c) (processor_state c) (saved_exception_frame c).

Definition resume_context (c : CpuContext) : M Control :=
  if Z.testbit (processor_state c) 62 then ret (ResumesUser (saved_exception_frame c)) else
  if Z.testbit (processor_state c) 63 then
    match program_counter c with
    | UserCode pc => ret (EntersUser pc (user_stack_pointer c) (Z.land (processor_state c) CpuContextProcessorStateMask))
    | KernelCode _ => fun _ => Undefined
    end
  else
    match program_counter c with
    | UserCode _ => fun _ => Undefined
    | KernelCode (ThreadEntry entry_point) => restore_interrupts true ;;; ret (EntersThread entry_point)
    | KernelCode (AfterSwitch caller interrupts_enabled) =>
        reap_retired_threads ;;; after_switch caller interrupts_enabled StatusOK
    end.

Definition context_switch (previous : option Z) (next : Z) (caller : Caller) (interrupts_enabled : bool) : M Control :=
  match previous with
  | Some p => update p (fun r => with_t_context (save_context caller interrupts_enabled (t_context r)) r)
  | None => ret tt
  end ;;;
  let! r := thread_at next in
  resume_context (t_context r).

Definition switch_to_thread (next : option Z) (caller : Caller) (interrupts_enabled : bool) : M Control :=
  let! previous := read_var g_current_thread in
  match next with
  | None => after_switch caller interrupts_enabled StatusNotFound
  | Some n =>
      if bool_decide (next = previous) then
        update n (with_current_state Running) ;;;
        change (reset_quantum next) ;;;
        after_switch caller interrupts_enabled StatusOK
      else
        let! status := bind_current_thread next in
        if negb (bool_decide (status = StatusOK)) then after_switch caller interrupts_enabled status
        else context_switch previous n caller interrupts_enabled
  end.

Definition dispatch (requeue_current requeue_at_tail reset_requeued_quantum keep_current_if_runnable : bool)
    (caller : Caller) (interrupts_enabled : bool) : M Control :=
  let! previous := read_var g_current_thread in
  let! idle := read_var g_idle_thread in
  match previous with
  | None => ret tt
  | Some p =>
      let! r := thread_at p in
      if requeue_current && negb (bool_decide (previous = idle)) && bool_decide (current_state r = Running) then
        update p (with_current_state Ready) ;;;
        (if reset_requeued_quantum then change (reset_quantum previous) else ret tt) ;;;
        let! status := exec (ready_queue_push previous requeue_at_tail) in
        if bool_decide (status = StatusOK)
        then publish_thread_event KernelEventTypeThreadReady p (thread_state_code Running) (thread_state_code Ready)
        else ret tt
      else ret tt
  end ;;;
  let! next := exec (pick_next_thread keep_current_if_runnable) in
  switch_to_thread next caller interrupts_enabled.

Definition process_pending_reschedule (caller : Caller) (interrupts_enabled : bool) : M Control :=
  let! current := read_var g_current_thread in
  let! idle := read_var g_idle_thread in
  let! ready := read_var g_ready_count in
  let finish := after_switch caller interrupts_enabled StatusOK in
  let leave :=
    if negb (ready =? 0) then
      let! next := exec (pick_next_thread false) in switch_to_thread next caller interrupts_enabled
    else finish in
  match current with
  | None => leave
  | Some c =>
      if bool_decide (current = idle) then leave else
      let! best_priority := read_var highest_ready_priority in
      let! r := thread_at c in
      if (0 <=? best_priority) && (u8 best_priority <? current_priority r) then dispatch true false false false caller interrupts_enabled else
      if (quantum_ticks_remaining r =? 0) && negb (ready =? 0) then dispatch true true true false caller interrupts_enabled else
      (if quantum_ticks_remaining r =? 0 then change (reset_quantum current) else ret tt) ;;;
      finish
  end.

Definition save_frame (frame : AArch64ExceptionFrame) (c : CpuContext) : CpuContext :=
  mkContext (UserCode (elr frame)) (user_stack_pointer c)
    (Z.lor (Z.land (spsr frame) CpuContextProcessorStateMask) CpuContextResumeExceptionFrameFlag) frame.

Definition save_current_lower_el_exception_frame (frame : option AArch64ExceptionFrame) : M bool :=
  let! current := read_var g_current_thread in
  match current, frame with
  | Some c, Some f => update c (fun r => with_t_context (save_frame f (t_context r)) r) ;;; ret true
  | _, _ => ret false
  end.

Definition process_pending_reschedule_from_lower_el_irq (frame : option AArch64ExceptionFrame) (interrupts_enabled : bool) : M Control :=
  let finish := after_switch InLowerElIrq interrupts_enabled StatusOK in
  let preempt at_tail reset :=
    let! saved := save_current_lower_el_exception_frame frame in
    if negb saved then set_var (with_g_reschedule_pending true) ;;; finish
    else dispatch true at_tail reset false InLowerElIrq interrupts_enabled in
  let! pending := read_var g_reschedule_pending in
  if negb pending then finish else
  set_var (with_g_reschedule_pending false) ;;;
  let! current := read_var g_current_thread in
  let! idle := read_var g_idle_thread in
  let! ready := read_var g_ready_count in
  let leave :=
    if negb (ready =? 0) then
      let! next := exec (pick_next_thread false) in switch_to_thread next InLowerElIrq interrupts_enabled
    else finish in
  match current with
  | None => leave
  | Some c =>
      if bool_decide (current = idle) then leave else
      let! best_priority := read_var highest_ready_priority in
      let! r := thread_at c in
      if (0 <=? best_priority) && (u8 best_priority <? current_priority r) then preempt false false else
      if (quantum_ticks_remaining r =? 0) && negb (ready =? 0) then preempt true true else
      (if quantum_ticks_remaining r =? 0 then change (reset_quantum current) else ret tt) ;;;
      finish
  end.

Definition exit_current_thread : M Control :=
  let! interrupts_enabled := save_and_disable_interrupts in
  let! current := read_var g_current_thread in
  let! idle := read_var g_idle_thread in
  match current with
  | None => ret Halts
  | Some c =>
      if bool_decide (current = idle) then ret Halts else
      update c (with_current_state Terminated) ;;;
      change (queue_retired_thread current) ;;;
      let! next := exec (pick_next_thread false) in
      switch_to_thread next InExit interrupts_enabled
  end.

(** On each entry from user code (exception_vectors.S). *)
Definition capture_current_user_context (stack pc state : Z) : M unit :=
  let! current := read_var g_current_thread in
  match current with
  | None => ret tt
  | Some c =>
      update c (fun r => with_t_context (mkContext (UserCode pc) stack (Z.land state CpuContextProcessorStateMask)
                                           (saved_exception_frame (t_context r))) r)
  end.

(** ** The calls of [Scheduler] *)
Definition init (s : Sched) : Status * Sched :=
  (StatusOK,
   mkSched (threads s) (processes s) None None None (replicate (Z.to_nat ThreadPriorityLevelCount) (mkReadyQueue None None)) 0 0 0
     None None None None false (g_thread_head s) (g_thread_tail s) (g_thread_count s) (g_next_thread_id s)
     (kernel_root_table s) (current_address_space s) (interrupts s)).

(** [ThreadManager::find_thread] walks the registry. *)
Definition find_thread (thread_id : Z) (s : Sched) : Exec (option Z) :=
  @dl_find Thread registry_links (fun r => Ok (t_id r =? thread_id)) (threads s) (g_thread_head s).

Definition enqueue (thread : option Z) : M Status :=
  let! interrupts_enabled := save_and_disable_interrupts in
  let finish status := restore_interrupts interrupts_enabled ;;; ret status in
  reap_retired_threads ;;;
  match thread with
  | None => finish StatusInvalidArgument
  | Some t =>
      let! r := thread_at t in
      let! found := exec (fun s => f <- find_thread (t_id r) s ;; Ok (f, s)) in
      if negb (bool_decide (found = Some t)) then finish StatusNotFound else
      if bool_decide (current_state r = Terminated) then finish StatusBusy else
      let! current := read_var g_current_thread in
      if bool_decide (current = Some t) then finish StatusAlreadyExists else
      match current with
      | None => let! status := bind_current_thread thread in finish status
      | Some _ => let! status := transition_thread_to_ready thread true in finish status
      end
  end.

Definition with_priority (priority : Z) (r : Thread) : Thread := with_current_priority priority (with_base_priority priority r).

Definition set_current_priority (priority : Z) : M Control :=
  if ThreadPriorityLevelCount <=? priority then ret (Returns InSetPriority StatusInvalidArgument) else
  let! interrupts_enabled := save_and_disable_interrupts in
  let finish status := restore_interrupts interrupts_enabled ;;; ret (Returns InSetPriority status) in
  reap_retired_threads ;;;
  let! current := read_var g_current_thread in
  let! idle := read_var g_idle_thread in
  match current with
  | None => finish StatusBusy
  | Some c =>
      if bool_decide (current = idle) then finish StatusBusy else
      let! r := thread_at c in
      if negb (bool_decide (current_state r = Running)) then finish StatusBusy else
      update c (with_priority priority) ;;;
      change (reset_quantum current) ;;;
      let! best_priority := read_var highest_ready_priority in
      let! r := thread_at c in
      if (0 <=? best_priority) && (u8 best_priority <? current_priority r)
      then dispatch true false false false InSetPriority interrupts_enabled
      else finish StatusOK
  end.

Definition set_thread_priority (thread : option Z) (priority : Z) : M Control :=
  if ThreadPriorityLevelCount <=? priority then ret (Returns InSetPriority StatusInvalidArgument) else
  let! interrupts_enabled := save_and_disable_interrupts in
  let finish status := restore_interrupts interrupts_enabled ;;; ret (Returns InSetPriority status) in
  reap_retired_threads ;;;
  match thread with
  | None => finish StatusNotFound
  | Some t =>
      let! r := thread_at t in
      let! found := exec (fun s => f <- find_thread (t_id r) s ;; Ok (f, s)) in
      if negb (bool_decide (found = Some t)) then finish StatusNotFound else
      let! idle := read_var g_idle_thread in
      if bool_decide (thread = idle) || bool_decide (current_state r = Terminated) then finish StatusBusy else
      let! current := read_var g_current_thread in
      if bool_decide (thread = current) then restore_interrupts interrupts_enabled ;;; set_current_priority priority else
      (if in_ready_queue r then change (ready_queue_remove thread) else ret tt) ;;;
      update t (with_priority priority) ;;;
      change (reset_quantum thread) ;;;
      if bool_decide (current_state r = Ready) then
        let! status := exec (ready_queue_push thread true) in
        if negb (bool_decide (status = StatusOK)) then finish status else
        match current with
        | None => finish StatusOK
        | Some c =>
            if bool_decide (current = idle) then finish StatusOK else
            let! r := thread_at t in
            let! rc := thread_at c in
            (if current_priority r <? current_priority rc then set_var (with_g_reschedule_pending true) else ret tt) ;;;
            finish StatusOK
        end
      else finish StatusOK
  end.

(** The running thread, where it may be parked; otherwise the call is refused. *)
Definition blocking (caller : Caller) (park : Z -> bool -> M Control) : M Control :=
  let! interrupts_enabled := save_and_disable_interrupts in
  let refuse := restore_interrupts interrupts_enabled ;;; ret (Returns caller StatusBusy) in
  reap_retired_threads ;;;
  let! current := read_var g_current_thread in
  let! idle := read_var g_idle_thread in
  match current with
  | None => refuse
  | Some c =>
      if bool_decide (current = idle) then refuse else
      let! r := thread_at c in
      if negb (bool_decide (current_state r = Running)) then refuse else park c interrupts_enabled
  end.

Definition block_current (reason : WaitReason) (object : option Z) : M Control :=
  blocking InBlock (fun c interrupts_enabled =>
    update c (fun r => with_current_state Waiting (with_wait object (wait_reason_code reason) r)) ;;;
    let! next := exec (pick_next_thread false) in
    switch_to_thread next InBlock interrupts_enabled).

(** The thread waits, on the sleep queue too, until the tick it asked for. *)
Definition park_until (c : Z) (object : option Z) (reason : WaitReason) (delay_ticks : Z) (s : Sched) : Exec Sched :=
  s <- set c (fun r => with_current_state Waiting (with_wake_tick (u64 (g_tick_count s + delay_ticks))
                         (with_wait object (wait_reason_code reason) r))) s ;;
  sleep_queue_insert_sorted (Some c) s.

Definition block_current_for (reason : WaitReason) (delay_ticks : Z) (object : option Z) : M Control :=
  if delay_ticks =? 0 then block_current reason object else
  blocking (InBlockFor reason) (fun c interrupts_enabled =>
    change (park_until c object reason delay_ticks) ;;;
    let! next := exec (pick_next_thread false) in
    switch_to_thread next (InBlockFor reason) interrupts_enabled).

Definition sleep_current (delay_ticks : Z) : M Control :=
  if delay_ticks =? 0 then ret (Returns InSleep StatusOK) else
  blocking InSleep (fun c interrupts_enabled =>
    change (park_until c None WaitDelay delay_ticks) ;;;
    let! next := exec (pick_next_thread false) in
    switch_to_thread next InSleep interrupts_enabled).

Definition yield : M Control :=
  let! interrupts_enabled := save_and_disable_interrupts in
  reap_retired_threads ;;;
  let! current := read_var g_current_thread in
  let! idle := read_var g_idle_thread in
  let! ready := read_var g_ready_count in
  match current with
  | None => restore_interrupts interrupts_enabled ;;; ret (Returns InYield StatusOK)
  | Some _ =>
      if negb (bool_decide (current = idle)) && (ready =? 0) then
        change (reset_quantum current) ;;;
        restore_interrupts interrupts_enabled ;;; ret (Returns InYield StatusOK)
      else dispatch (negb (bool_decide (current = idle))) true true true InYield interrupts_enabled
  end.

Definition timer_tick : M unit :=
  let! interrupts_enabled := save_and_disable_interrupts in
  set_var (fun s => with_g_tick_count (u64 (g_tick_count s + 1)) s) ;;;
  reap_retired_threads ;;;
  wake_expired_sleepers ;;;
  let! current := read_var g_current_thread in
  let! idle := read_var g_idle_thread in
  let! ready := read_var g_ready_count in
  match current with
  | None => ret tt
  | Some c =>
      if bool_decide (current = idle) then
        (if negb (ready =? 0) then set_var (with_g_reschedule_pending true) else ret tt)
      else if ready =? 0 then change (reset_quantum current)
      else
        let! r := thread_at c in
        (if 0 <? quantum_ticks_remaining r
         then update c (fun r => with_quantum_ticks_remaining (u32 (quantum_ticks_remaining r - 1)) r) else ret tt) ;;;
        let! r := thread_at c in
        (if quantum_ticks_remaining r =? 0 then set_var (with_g_reschedule_pending true) else ret tt)
  end ;;;
  restore_interrupts interrupts_enabled.

Fixpoint ticks (elapsed : nat) : M unit :=
  match elapsed with O => ret tt | S n => timer_tick ;;; ticks n end.

Definition poll : M Control :=
  call PollDevices ;;;
  let! elapsed := call PollTimer in
  ticks (Z.to_nat elapsed) ;;;
  let! interrupts_enabled := save_and_disable_interrupts in
  let! pending := read_var g_reschedule_pending in
  if negb pending then restore_interrupts interrupts_enabled ;;; ret (Returns InPoll StatusOK) else
  set_var (with_g_reschedule_pending false) ;;;
  process_pending_reschedule InPoll interrupts_enabled.

Definition reap_retired : M unit :=
  let! interrupts_enabled := save_and_disable_interrupts in
  reap_retired_threads ;;;
  restore_interrupts interrupts_enabled.

Definition forget (thread : option Z) (s : Sched) : Exec Sched :=
  let interrupts_enabled := interrupts s in
  let s := with_interrupts false s in
  s <- match thread with
       | None => Ok s
       | Some t =>
           r <- get t s ;;
           s <- (if in_ready_queue r then ready_queue_remove thread s else Ok s) ;;
           s <- sleep_queue_remove thread s ;;
           let s := if bool_decide (g_current_thread s = thread)
                    then with_g_current_process None (with_g_current_thread None s) else s in
           set t (fun r => with_wake_tick 0 (with_wait None (wait_reason_code WaitNone) r)) s
       end ;;
  Ok (with_interrupts interrupts_enabled s).

Definition handle_lower_el_timer_irq (frame : option AArch64ExceptionFrame) : M Control :=
  timer_tick ;;;
  let! interrupts_enabled := save_and_disable_interrupts in
  process_pending_reschedule_from_lower_el_irq frame interrupts_enabled.

Definition handle_current_el_timer_irq : M Control :=
  timer_tick ;;;
  let! interrupts_enabled := save_and_disable_interrupts in
  process_pending_reschedule InCurrentElIrq interrupts_enabled.

Definition current_process (s : Sched) : Exec (option Z * Sched) :=
  match g_current_thread s with
  | None => Ok (g_current_process s, s)
  | Some c =>
      r <- get c s ;;
      match t_parent r with
      | Some p => Ok (Some p, with_g_current_process (Some p) s)
      | None => Ok (g_current_process s, s)
      end
  end.
