(* ===== verification/SchedQueues.v ===== *)
(** The scheduler's queues as lists of threads.

    Each queue is a chain of pointers through the thread records.  The predicates
    below say which list of addresses a chain holds and what the scheduler keeps
    true of the threads on it; the lemmas say what the operations of the queues do
    to those lists. *)
From stdpp Require Import base list gmap.
From Stdlib Require Import ZArith Lia Sorted.
From S2P Require Import Prelude KernelText DList KernelIface SchedState Scheduler.

Local Open Scope Z_scope.

Abbreviation ready_dlist := (@dlist Thread ready_links).
Abbreviation sleep_dlist := (@dlist Thread sleep_links).
Abbreviation registry_dlist := (@dlist Thread registry_links).

(** What the ready queues hold, by priority; the threads that sleep, by the tick
    they wake at; the threads that have ended and are not yet destroyed; and all
    threads in the order of creation. *)
Record Queues : Type := mkQueues {
  ready : list (list Z);
  sleepers : list Z;
  retired : list Z;
  registry : list Z
}.

Definition with_ready (v : list (list Z)) (q : Queues) : Queues := mkQueues v (sleepers q) (retired q) (registry q).
Definition with_sleepers (v : list Z) (q : Queues) : Queues := mkQueues (ready q) v (retired q) (registry q).
Definition with_retired (v : list Z) (q : Queues) : Queues := mkQueues (ready q) (sleepers q) v (registry q).

(** ** Ready queues *)
Definition queued_at (p : nat) (r : Thread) : Prop :=
  in_ready_queue r = true /\ current_priority r = Z.of_nat p /\ current_state r = Ready.

Record ready_rep (m : gmap Z Thread) (queues : list ReadyQueue) (bitmap count : Z) (ready : list (list Z)) : Prop := {
  rr_levels : length queues = 32%nat /\ length ready = 32%nat;
  rr_list p Q l : queues !! p = Some Q -> ready !! p = Some l -> ready_dlist m (head Q) (tail Q) l;
  rr_member p l t : ready !! p = Some l -> t ∈ l -> exists r, m !! t = Some r /\ queued_at p r;
  rr_flag t r : m !! t = Some r -> in_ready_queue r = true -> exists p l, ready !! p = Some l /\ t ∈ l;
  rr_range : 0 <= bitmap < 2 ^ 32;
  rr_bitmap p l : ready !! p = Some l -> Z.testbit bitmap (Z.of_nat p) = bool_decide (l <> []);
  rr_count : count = Z.of_nat (length (concat ready))
}.

(** ** The sleep queue *)
Definition wake_of (m : gmap Z Thread) (t : Z) : Z := from_option wake_tick 0 (m !! t).

Record sleep_rep (m : gmap Z Thread) (hd tl : option Z) (sleepers : list Z) : Prop := {
  sl_list : sleep_dlist m hd tl sleepers;
  sl_waiting t r : t ∈ sleepers -> m !! t = Some r -> current_state r = Waiting;
  sl_sorted : StronglySorted Z.le (map (wake_of m) sleepers);
  sl_out t r : m !! t = Some r -> t ∉ sleepers -> sleep_next r = None /\ sleep_prev r = None
}.

(** ** Threads that have ended: chained by [ready_next] *)
Fixpoint chain (m : gmap Z Thread) (l : list Z) : Prop :=
  match l with
  | [] => True
  | t :: l' => (exists r, m !! t = Some r /\ ready_next r = first l' None) /\ chain m l'
  end.

Record retired_rep (m : gmap Z Thread) (hd tl : option Z) (retired : list Z) : Prop := {
  re_nodup : NoDup retired;
  re_chain : chain m retired;
  re_ends : hd = first retired None /\ tl = final retired None;
  re_ended t r : t ∈ retired -> m !! t = Some r -> current_state r = Terminated
}.

(** ** The registry *)
Record registry_rep (m : gmap Z Thread) (hd tl : option Z) (registry : list Z) : Prop := {
  rg_list : registry_dlist m hd tl registry;
  rg_all t : is_Some (m !! t) <-> t ∈ registry;
  rg_ids t1 t2 r1 r2 : m !! t1 = Some r1 -> m !! t2 = Some r2 -> t_id r1 = t_id r2 -> t1 = t2
}.

(** ** Changes of the store that a queue does not see

    [keeps f m m']: the same threads, with the same [f]. *)
Definition keeps {X : Type} (f : Thread -> X) (m m' : gmap Z Thread) : Prop := f <$> m' = f <$> m.

#[export] Instance keeps_preorder {X} (f : Thread -> X) : PreOrder (keeps f).
Proof. split; [done|]. intros m1 m2 m3 H1 H2. unfold keeps in *. congruence. Qed.

Lemma keeps_lookup {X} (f : Thread -> X) m m' t r : keeps f m m' -> m !! t = Some r -> exists r', m' !! t = Some r' /\ f r' = f r.
Proof.
  intros Hk Ht. assert ((f <$> m') !! t = Some (f r)) as Hq by (by rewrite Hk, lookup_fmap, Ht).
  rewrite lookup_fmap in Hq. destruct (m' !! t) as [r'|]; [|done]. injection Hq as Hq. by exists r'.
Qed.

Lemma keeps_back {X} (f : Thread -> X) m m' t r' : keeps f m m' -> m' !! t = Some r' -> exists r, m !! t = Some r /\ f r' = f r.
Proof. intros Hk Ht. symmetry in Hk. destruct (keeps_lookup f m' m t r' Hk Ht) as (r & Hr & E). by exists r. Qed.

Lemma keeps_insert {X} (f : Thread -> X) m t r r' : m !! t = Some r -> f r' = f r -> keeps f m (<[t := r']> m).
Proof. intros Ht Hf. unfold keeps. rewrite fmap_insert, Hf. apply insert_id. by rewrite lookup_fmap, Ht. Qed.

Lemma keeps_weaken {X Y} (f : Thread -> X) (g : X -> Y) m m' : keeps f m m' -> keeps (g ∘ f) m m'.
Proof. unfold keeps. rewrite !map_fmap_compose. by intros ->. Qed.

Lemma keeps_dom {X} (f : Thread -> X) m m' : keeps f m m' -> dom m' = dom m.
Proof. intros Hk. apply (f_equal dom) in Hk. by rewrite !dom_fmap_L in Hk. Qed.

Lemma keeps_is_Some {X} (f : Thread -> X) m m' t : keeps f m m' -> is_Some (m' !! t) <-> is_Some (m !! t).
Proof. intros Hk. rewrite <- !elem_of_dom. by rewrite (keeps_dom f m m' Hk). Qed.

(** What each queue reads of a thread. *)
Definition ready_part (r : Thread) := (in_ready_queue r, current_priority r, bool_decide (current_state r = Ready), ready_next r, ready_prev r).
Definition sleep_part (r : Thread) := (sleep_next r, sleep_prev r, wake_tick r, bool_decide (current_state r = Waiting)).
Definition retired_part (r : Thread) := (ready_next r, bool_decide (current_state r = Terminated)).
Definition registry_part (r : Thread) := (t_id r, t_next r, t_prev r).

Lemma ready_frame m m' queues bitmap count ready :
  keeps ready_part m m' -> ready_rep m queues bitmap count ready -> ready_rep m' queues bitmap count ready.
Proof.
  intros Hk [R1 R2 R3 R4 R5 R6 R7]. split; try done.
  - intros p Q l HQ Hl. eapply dlist_ext; [|by eapply R2]. intros t n Ht Hn.
    destruct (keeps_lookup _ _ _ _ _ Hk Hn) as (n' & Hn' & E). injection E as E1 E2 E3 E4 E5. by exists n'.
  - intros p l t Hl Ht. destruct (R3 p l t Hl Ht) as (r & Hr & Q1 & Q2 & Q3).
    destruct (keeps_lookup _ _ _ _ _ Hk Hr) as (r' & Hr' & E). injection E as E1 E2 E3 E4 E5. exists r'. split; [done|].
    split_and!; [by rewrite E1|by rewrite E2|]. rewrite (bool_decide_true (current_state r = Ready)) in E3 by done. by apply bool_decide_eq_true in E3.
  - intros t r' Hr' Hf. destruct (keeps_back _ _ _ _ _ Hk Hr') as (r & Hr & E). injection E as E1 E2 E3 E4 E5.
    apply (R4 t r); congruence.
Qed.

Lemma wake_of_keeps m m' t : keeps sleep_part m m' -> wake_of m' t = wake_of m t.
Proof.
  intros Hk. unfold wake_of. destruct (m !! t) as [r|] eqn:Hr.
  - destruct (keeps_lookup _ _ _ _ _ Hk Hr) as (r' & -> & E). by injection E.
  - destruct (m' !! t) as [r'|] eqn:Hr'; [|done]. destruct (keeps_back _ _ _ _ _ Hk Hr') as (r & Hr2 & _). congruence.
Qed.

Lemma sleep_frame m m' hd tl l : keeps sleep_part m m' -> sleep_rep m hd tl l -> sleep_rep m' hd tl l.
Proof.
  intros Hk [S1 S2 S3 S4]. split.
  - eapply dlist_ext; [|done]. intros t n Ht Hn.
    destruct (keeps_lookup _ _ _ _ _ Hk Hn) as (n' & Hn' & E). injection E as E1 E2 E3 E4. by exists n'.
  - intros t r' Ht Hr'. destruct (keeps_back _ _ _ _ _ Hk Hr') as (r & Hr & E). injection E as E1 E2 E3 E4.
    rewrite (bool_decide_true (current_state r = Waiting)) in E4 by (by eapply S2). by apply bool_decide_eq_true in E4.
  - erewrite map_ext; [done|]. intros t. by apply wake_of_keeps.
  - intros t r' Hr' Ht. destruct (keeps_back _ _ _ _ _ Hk Hr') as (r & Hr & E). injection E as E1 E2 E3 E4.
    destruct (S4 t r Hr Ht). split; congruence.
Qed.

Lemma chain_ext m m' l :
  (forall t r, t ∈ l -> m !! t = Some r -> exists r', m' !! t = Some r' /\ ready_next r' = ready_next r) -> chain m l -> chain m' l.
Proof.
  induction l as [|t l IH]; intros Hm; [done|]. intros [(r & Hr & Hn) Hc]. split.
  - destruct (Hm t r (list_elem_of_here _ _) Hr) as (r' & Hr' & E). exists r'. by rewrite E.
  - apply IH; [|done]. intros u ru Hu. apply Hm. by apply list_elem_of_further.
Qed.

Lemma retired_frame m m' hd tl l : keeps retired_part m m' -> retired_rep m hd tl l -> retired_rep m' hd tl l.
Proof.
  intros Hk [R1 R2 R3 R4]. split; try done.
  - eapply chain_ext; [|done]. intros t r Ht Hr. destruct (keeps_lookup _ _ _ _ _ Hk Hr) as (r' & Hr' & E). injection E as E1 E2. by exists r'.
  - intros t r' Ht Hr'. destruct (keeps_back _ _ _ _ _ Hk Hr') as (r & Hr & E). injection E as E1 E2.
    rewrite (bool_decide_true (current_state r = Terminated)) in E2 by (by eapply R4). by apply bool_decide_eq_true in E2.
Qed.

Lemma registry_frame m m' hd tl l : keeps registry_part m m' -> registry_rep m hd tl l -> registry_rep m' hd tl l.
Proof.
  intros Hk [R1 R2 R3]. split.
  - eapply dlist_ext; [|done]. intros t n Ht Hn.
    destruct (keeps_lookup _ _ _ _ _ Hk Hn) as (n' & Hn' & E). injection E as E1 E2 E3. by exists n'.
  - intros t. rewrite (keeps_is_Some _ _ _ _ Hk). apply R2.
  - intros t1 t2 r1 r2 H1 H2 Hid. destruct (keeps_back _ _ _ _ _ Hk H1) as (r1' & H1' & E1), (keeps_back _ _ _ _ _ Hk H2) as (r2' & H2' & E2).
    injection E1 as E1 _ _. injection E2 as E2 _ _. apply (R3 t1 t2 r1' r2'); congruence.
Qed.

(** A filter that drops nothing. *)
Lemma list_filter_all {A} (P : A -> Prop) `{forall x, Decision (P x)} (l : list A) : Forall P l -> filter P l = l.
Proof. induction 1 as [|x l Hx Hl IH]; [done|]. by rewrite filter_cons_True, IH. Qed.

(** ** Bits *)
Lemma bits_bound b n : 0 <= n -> 0 <= b -> (forall i, n <= i -> Z.testbit b i = false) -> b < 2 ^ n.
Proof.
  intros Hn Hb Hi. destruct (decide (b = 0)) as [->|Hne]; [lia|]. apply Z.log2_lt_pow2; [lia|].
  destruct (Z_lt_le_dec (Z.log2 b) n) as [|Hle]; [done|]. pose proof (Z.bit_log2 b ltac:(lia)) as Hbit. rewrite Hi in Hbit by done. done.
Qed.

Lemma bit_of_shift p i : 0 <= p -> 0 <= i -> Z.testbit (Z.shiftl 1 p) i = (i =? p).
Proof.
  intros Hp Hi. rewrite Z.shiftl_1_l, Z.pow2_bits_eqb by done. rewrite Z.eqb_sym. done.
Qed.

Lemma set_bit_range b p : 0 <= b < 2 ^ 32 -> 0 <= p < 32 -> 0 <= Z.lor b (Z.shiftl 1 p) < 2 ^ 32.
Proof.
  intros Hb Hp. assert (0 <= Z.shiftl 1 p) by (apply Z.shiftl_nonneg; lia).
  split; [apply Z.lor_nonneg; lia|]. apply bits_bound; [lia|apply Z.lor_nonneg; lia|].
  intros i Hi. rewrite Z.lor_spec, bit_of_shift, (testbit_high b 32) by lia. destruct (Z.eqb_spec i p); [lia|done].
Qed.

Lemma clear_bit_range b p : 0 <= b < 2 ^ 32 -> 0 <= p < 32 -> 0 <= Z.ldiff b (Z.shiftl 1 p) < 2 ^ 32.
Proof.
  intros Hb Hp. assert (0 <= Z.ldiff b (Z.shiftl 1 p)) by (apply Z.ldiff_nonneg; lia).
  split; [done|]. apply bits_bound; [lia|done|].
  intros i Hi. rewrite Z.ldiff_spec, (testbit_high b 32) by lia. done.
Qed.

Lemma ctz_lowest b : 0 < b -> 0 <= ctz b /\ Z.testbit b (ctz b) = true /\ forall i, 0 <= i < ctz b -> Z.testbit b i = false.
Proof.
  destruct b as [|p|p]; try lia. intros _. cbn [ctz]. induction p as [p IH|p IH|]; cbn [pos_ctz].
  - split_and!; [lia|done|lia].
  - destruct IH as (H1 & H2 & H3). rewrite Pos2Z.inj_xO. split_and!; [lia| |].
    + rewrite Z.add_1_l, Z.testbit_even_succ by done. done.
    + intros i Hi. destruct (Z.eq_dec i 0) as [->|Hne]; [by rewrite Z.testbit_even_0|].
      replace i with (Z.succ (i - 1)) by lia. rewrite Z.testbit_even_succ by lia. apply H3. lia.
  - split_and!; [lia|done|lia].
Qed.

(** ** One level of the ready queues *)
Definition level_of (r : Thread) : nat := Z.to_nat (current_priority r).

Lemma concat_insert_length {A} (R : list (list A)) p l l' :
  R !! p = Some l -> (length (concat (<[p := l']> R)) + length l = length (concat R) + length l')%nat.
Proof.
  revert p. induction R as [|x R IH]; intros [|p] Hp; cbn [lookup list_lookup] in *; [done..|injection Hp as ->|].
  - cbn. rewrite !length_app. lia.
  - change (<[S p := l']> (x :: R)) with (x :: <[p := l']> R). cbn [concat]. rewrite !length_app. specialize (IH p Hp). lia.
Qed.

Section Ready.
Context (m : gmap Z Thread) (queues : list ReadyQueue) (bitmap count : Z) (R : list (list Z)).
Hypothesis Hrep : ready_rep m queues bitmap count R.

Lemma ready_level p : (p < 32)%nat -> exists Q l, queues !! p = Some Q /\ R !! p = Some l /\ ready_dlist m (head Q) (tail Q) l.
Proof.
  intros Hp. destruct (rr_levels _ _ _ _ _ Hrep) as [H1 H2].
  destruct (lookup_lt_is_Some_2 queues p) as [Q HQ]; [lia|]. destruct (lookup_lt_is_Some_2 R p) as [l Hl]; [lia|].
  exists Q, l. split_and!; [done..|]. by eapply rr_list.
Qed.

Lemma ready_one_level p1 p2 l1 l2 t : R !! p1 = Some l1 -> R !! p2 = Some l2 -> t ∈ l1 -> t ∈ l2 -> p1 = p2.
Proof.
  intros H1 H2 T1 T2. destruct (rr_member _ _ _ _ _ Hrep p1 l1 t H1 T1) as (r1 & Hr1 & _ & E1 & _).
  destruct (rr_member _ _ _ _ _ Hrep p2 l2 t H2 T2) as (r2 & Hr2 & _ & E2 & _). simplify_eq. lia.
Qed.

Lemma ready_not_in p l t r : R !! p = Some l -> m !! t = Some r -> in_ready_queue r = false -> t ∉ l.
Proof. intros Hl Hr Hf Ht. destruct (rr_member _ _ _ _ _ Hrep p l t Hl Ht) as (r' & Hr' & Hq & _). congruence. Qed.

Lemma ready_in t r : m !! t = Some r -> in_ready_queue r = true ->
  queued_at (level_of r) r /\ (level_of r < 32)%nat /\ exists l, R !! level_of r = Some l /\ t ∈ l.
Proof.
  intros Hr Hf. destruct (rr_flag _ _ _ _ _ Hrep t r Hr Hf) as (p & l & Hl & Ht).
  destruct (rr_member _ _ _ _ _ Hrep p l t Hl Ht) as (r' & Hr' & Hq). simplify_eq. destruct (Hq) as (_ & Hp & _).
  assert (level_of r = p) as -> by (unfold level_of; lia). split; [done|]. split; [|eauto].
  destruct (rr_levels _ _ _ _ _ Hrep) as [_ H2]. apply lookup_lt_Some in Hl. lia.
Qed.

Lemma ready_flag_iff t r : m !! t = Some r -> in_ready_queue r = true <-> exists p l, R !! p = Some l /\ t ∈ l.
Proof.
  intros Hr. split; [by apply (rr_flag _ _ _ _ _ Hrep)|]. intros (p & l & Hl & Ht).
  destruct (rr_member _ _ _ _ _ Hrep p l t Hl Ht) as (r' & Hr' & Hq & _). congruence.
Qed.

(** A new list at one level: the other levels are untouched, and the bit and the
    count follow. *)
Lemma ready_replace p l l' m' Q' bitmap' count' :
  (p < 32)%nat -> R !! p = Some l ->
  ready_dlist m' (head Q') (tail Q') l' ->
  (forall u, u ∉ l -> u ∉ l' -> m' !! u = m !! u) ->
  (forall u, u ∈ l' -> exists r, m' !! u = Some r /\ queued_at p r) ->
  (forall u r, u ∈ l \/ u ∈ l' -> m' !! u = Some r -> in_ready_queue r = true -> u ∈ l') ->
  (forall u, u ∈ l' -> u ∉ l -> exists r, m !! u = Some r /\ in_ready_queue r = false) ->
  bitmap' = (if bool_decide (l' = []) then Z.ldiff bitmap (Z.shiftl 1 (Z.of_nat p)) else Z.lor bitmap (Z.shiftl 1 (Z.of_nat p))) ->
  count' = count + Z.of_nat (length l') - Z.of_nat (length l) ->
  ready_rep m' (<[p := Q']> queues) bitmap' count' (<[p := l']> R).
Proof.
  intros Hp Hl Hd Hf Hin Hflag Hnew -> ->. destruct Hrep as [[R1 R1'] R2 R3 R4 R5 R6 R7].
  assert (forall p' k u, p' <> p -> R !! p' = Some k -> u ∈ k -> m' !! u = m !! u) as Hother.
  { intros p' k u Hne Hk Hu. destruct (R3 p' k u Hk Hu) as (r & Hr & Hq & Hpr & _). apply Hf.
    - intros Hul. apply Hne. by eapply ready_one_level.
    - intros Hul'. destruct (decide (u ∈ l)) as [Hul|Hul]; [apply Hne; by eapply ready_one_level|].
      destruct (Hnew u Hul' Hul) as (r' & Hr' & E). congruence. }
  split.
  - by rewrite !length_insert.
  - intros p' Q k HQ Hk. destruct (decide (p' = p)) as [->|Hne].
    + rewrite list_lookup_insert_eq in HQ by lia. rewrite list_lookup_insert_eq in Hk by lia. by simplify_eq.
    + rewrite list_lookup_insert_ne in HQ by done. rewrite list_lookup_insert_ne in Hk by done. eapply dlist_ext; [|by eapply R2].
      intros u n Hu Hn. exists n. split; [|done]. rewrite <- Hn. by eapply Hother.
  - intros p' k u Hk Hu. destruct (decide (p' = p)) as [->|Hne].
    + rewrite list_lookup_insert_eq in Hk by lia. simplify_eq. by apply Hin.
    + rewrite list_lookup_insert_ne in Hk by done. destruct (R3 p' k u Hk Hu) as (r & Hr & Hq). exists r. split; [|done].
      rewrite <- Hr. by eapply Hother.
  - intros u r Hr Hq. destruct (decide (u ∈ l \/ u ∈ l')) as [Hu|Hu].
    + exists p, l'. rewrite list_lookup_insert_eq by lia. split; [done|]. by eapply Hflag.
    + assert (m !! u = Some r) as Hr0 by (rewrite <- Hr; symmetry; apply Hf; tauto).
      destruct (R4 u r Hr0 Hq) as (p' & k & Hk & Huk). exists p', k. split; [|done]. rewrite list_lookup_insert_ne; [done|].
      intros ->. rewrite Hl in Hk. injection Hk as ->. tauto.
  - case_bool_decide; [apply clear_bit_range|apply set_bit_range]; lia.
  - intros p' k Hk. assert (Z.testbit (if bool_decide (l' = []) then Z.ldiff bitmap (Z.shiftl 1 (Z.of_nat p)) else Z.lor bitmap (Z.shiftl 1 (Z.of_nat p))) (Z.of_nat p') =
       if decide (p' = p) then bool_decide (l' <> []) else Z.testbit bitmap (Z.of_nat p')) as ->.
    { repeat case_bool_decide; try tauto; rewrite ?Z.ldiff_spec, ?Z.lor_spec, bit_of_shift by lia;
        destruct (decide (p' = p)) as [->|Hne]; rewrite ?Z.eqb_refl, ?andb_false_r, ?orb_true_r; try done;
        destruct (Z.eqb_spec (Z.of_nat p') (Z.of_nat p)); try lia; by rewrite ?andb_true_r, ?orb_false_r. }
    destruct (decide (p' = p)) as [->|Hne].
    + rewrite list_lookup_insert_eq in Hk by lia. by simplify_eq.
    + rewrite list_lookup_insert_ne in Hk by done. by apply R6.
  - pose proof (concat_insert_length R p l l' Hl). lia.
Qed.
End Ready.

(** A thread that is on a level before and after has the same flag. *)
Lemma flag_other m queues bitmap count R m' queues' bitmap' count' p l l' t r r' :
  ready_rep m queues bitmap count R -> ready_rep m' queues' bitmap' count' (<[p := l']> R) -> R !! p = Some l ->
  (t ∈ l' <-> t ∈ l) -> m !! t = Some r -> m' !! t = Some r' -> in_ready_queue r' = in_ready_queue r.
Proof.
  intros H1 H2 Hl Ht Hr Hr'. apply eq_bool_prop_intro. rewrite !Is_true_true.
  rewrite (ready_flag_iff _ _ _ _ _ H1 t r Hr), (ready_flag_iff _ _ _ _ _ H2 t r' Hr'). pose proof (lookup_lt_Some _ _ _ Hl) as Hlt. split.
  - intros (p' & k & Hk & Htk). destruct (decide (p' = p)) as [->|Hne].
    + rewrite list_lookup_insert_eq in Hk by done. injection Hk as <-. exists p, l. split; [done|]. by apply Ht.
    + rewrite list_lookup_insert_ne in Hk by done. eauto.
  - intros (p' & k & Hk & Htk). destruct (decide (p' = p)) as [->|Hne].
    + exists p, l'. rewrite list_lookup_insert_eq by done. split; [done|]. apply Ht. congruence.
    + exists p', k. by rewrite list_lookup_insert_ne.
Qed.
