(* ===== verification/SchedOps.v ===== *)
(** The operations of the queues, on the lists they hold. *)
From stdpp Require Import base list gmap.
From Stdlib Require Import ZArith Lia Sorted.
From S2P Require Import Prelude KernelText DList KernelIface SchedState Scheduler SchedQueues.

Local Open Scope Z_scope.

Ltac sched_cbn :=
  cbn [threads processes g_current_thread g_current_process g_idle_thread g_ready_queues g_ready_bitmap g_ready_count
       g_tick_count g_sleep_head g_sleep_tail g_retired_thread_head g_retired_thread_tail g_reschedule_pending g_thread_head
       g_thread_tail g_thread_count g_next_thread_id kernel_root_table current_address_space interrupts
       with_threads with_processes with_g_current_thread with_g_current_process with_g_idle_thread with_g_ready_queues
       with_g_ready_bitmap with_g_ready_count with_g_tick_count with_g_sleep_head with_g_sleep_tail
       with_g_retired_thread_head with_g_retired_thread_tail with_g_reschedule_pending with_current_address_space
       with_interrupts].

Ltac lookups := repeat first
  [ rewrite lookup_insert, decide_True by done
  | rewrite lookup_insert_ne by (done || congruence) ].

(** ** Reading and writing a thread *)
Lemma thread_get_ok t r s : threads s !! t = Some r -> get t s = Ok r.
Proof. unfold get. apply fetch_ok. Qed.

Lemma thread_set_ok t r f s : threads s !! t = Some r -> set t f s = Ok (with_threads (<[t := f r]> (threads s)) s).
Proof. intros Hr. unfold set. by rewrite (assign_ok _ _ _ _ Hr). Qed.

(** What a change of the ready queues leaves alone: all but the queue's fields. *)
Definition unqueued (r : Thread) : Thread := with_in_ready_queue false (with_ready_next None (with_ready_prev None r)).
Definition set_ready (m : gmap Z Thread) (queues : list ReadyQueue) (bitmap count : Z) (s : Sched) : Sched :=
  with_g_ready_count count (with_g_ready_bitmap bitmap (with_g_ready_queues queues (with_threads m s))).

Abbreviation ready_in_state s R := (ready_rep (threads s) (g_ready_queues s) (g_ready_bitmap s) (g_ready_count s) R).

Lemma relinked_unqueued m m' : @relinked Thread ready_links m m' -> keeps unqueued m m'.
Proof. intros Hr. exact (keeps_weaken (@content Thread ready_links) (with_in_ready_queue false) m m' Hr). Qed.

(** ** Putting a thread on its level *)
Definition pushed (at_tail : bool) (t : Z) (l : list Z) : list Z := if at_tail then l ++ [t] else t :: l.

Lemma pushed_in at_tail t l u : u ∈ pushed at_tail t l <-> u = t \/ u ∈ l.
Proof. destruct at_tail; cbn [pushed]; rewrite ?elem_of_app, ?list_elem_of_singleton, ?elem_of_cons; tauto. Qed.

(** The links, as the code writes them. *)
Definition push_links (t : Z) (at_tail : bool) (Q : ReadyQueue) (m : gmap Z Thread) : Exec (gmap Z Thread * ReadyQueue) :=
  m <- assign m t (with_ready_prev None) ;;
  m <- assign m t (with_ready_next None) ;;
  match head Q with
  | None => Ok (m, mkReadyQueue (Some t) (Some t))
  | Some h =>
      if at_tail then
        m <- assign m t (with_ready_prev (tail Q)) ;;
        m <- match tail Q with Some l => assign m l (with_ready_next (Some t)) | None => Undef end ;;
        Ok (m, mkReadyQueue (Some h) (Some t))
      else
        m <- assign m t (with_ready_next (Some h)) ;;
        m <- assign m h (with_ready_prev (Some t)) ;;
        Ok (m, mkReadyQueue (Some t) (tail Q))
  end.

Lemma assign_twice (m : gmap Z Thread) t f g : (m <- assign m t f ;; assign m t g) = assign m t (g ∘ f).
Proof.
  unfold assign, fetch. destruct (m !! t) as [r|]; [|done]. rewrite !bind_ok. lookups. rewrite bind_ok. by rewrite insert_insert, decide_True.
Qed.

Lemma push_links_ok m Q l t at_tail :
  ready_dlist m (head Q) (tail Q) l -> t ∉ l -> is_Some (m !! t) ->
  exists m' Q', push_links t at_tail Q m = Ok (m', Q') /\ ready_dlist m' (head Q') (tail Q') (pushed at_tail t l) /\
    @relinked Thread ready_links m m' /\ (forall u, u ∉ pushed at_tail t l -> m' !! u = m !! u).
Proof.
  intros Hd Ht Hm. destruct (@dl_insert_ok Thread ready_links _ m (head Q) (tail Q) (if at_tail then l else []) t (if at_tail then [] else l))
    as (m' & hd & tl & Hi & Hd' & Hr & Hf); [by destruct at_tail; rewrite ?app_nil_r|by destruct at_tail; rewrite ?app_nil_r|done|].
  exists m', (mkReadyQueue hd tl). cbn [head tail].
  assert ((if at_tail then l else []) ++ t :: (if at_tail then [] else l) = pushed at_tail t l) as El by (by destruct at_tail).
  rewrite El in *. split; [|done].  destruct Hd as (_ & _ & Hhd & Htl). clear Hd' Hr Hf El.
  destruct Hm as [r Hr]. unfold push_links, dl_insert in *. rewrite Hhd, Htl.
  rewrite (assign_ok _ _ _ _ Hr), bind_ok in Hi. rewrite (assign_ok _ _ _ _ Hr), bind_ok. erewrite assign_ok, bind_ok by (lookups; done).
  rewrite insert_insert, decide_True by done.
  destruct l as [|x l]; cbn [first final] in *.
  { destruct at_tail; cbn [first final] in *; rewrite !bind_ok in Hi; injection Hi as <- <- <-; done. }
  destruct at_tail; cbn [first final] in *.
  - destruct (list_elem_final (x :: l) None) as (e & He & Hin); [done|]. cbn [final] in He. rewrite He in Hi |- *.
    erewrite assign_ok, bind_ok by (lookups; done). rewrite insert_insert, decide_True by done.
    change (with_ready_prev (Some e) (with_ready_next None (with_ready_prev None r)))
      with (@set_next _ ready_links None (@set_prev _ ready_links (Some e) r)).
    change (with_ready_next (Some t)) with (@set_next _ ready_links (Some t)).
    destruct (assign _ e _) as [m1| | |]; try done. rewrite !bind_ok in Hi. injection Hi as <- <- <-. by rewrite Hhd.
  - erewrite assign_ok, bind_ok by (lookups; done). rewrite insert_insert, decide_True by done.
    rewrite bind_ok in Hi. cbn iota beta in Hi.
    change (with_ready_next (Some x) (with_ready_next None (with_ready_prev None r)))
      with (@set_next _ ready_links (Some x) (@set_prev _ ready_links None r)).
    change (with_ready_prev (Some t)) with (@set_prev _ ready_links (Some t)).
    destruct (assign _ x _) as [m1| | |]; try done. rewrite !bind_ok in Hi. injection Hi as <- <- <-. by rewrite Htl.
Qed.

Lemma link_ready_state s t at_tail Q p :
  link_ready t at_tail p Q s = ('(m, Q') <- push_links t at_tail Q (threads s) ;; set_queue p Q' (with_threads m s)).
Proof.
  unfold link_ready, push_links, set. destruct (assign (threads s) t _) as [m1| | |]; [rewrite !bind_ok|done..]. sched_cbn.
  destruct (assign m1 t _) as [m2| | |]; [rewrite !bind_ok|done..]. sched_cbn. destruct (head Q) as [h|]; [|done].
  destruct at_tail.
  - destruct (assign m2 t _) as [m3| | |]; [rewrite !bind_ok|done..]. sched_cbn. destruct (tail Q) as [l|]; [|done].
    by destruct (assign m3 l _).
  - destruct (assign m2 t _) as [m3| | |]; [rewrite !bind_ok|done..]. sched_cbn. by destruct (assign m3 h _).
Qed.

Lemma valid_priority_ok t r s :
  threads s !! t = Some r -> 0 <= current_priority r < 32 ->
  thread_has_valid_priority (Some t) s = Ok true /\ ready_queue_for_priority (current_priority r) = Some (current_priority r).
Proof.
  intros Hr Hp. unfold thread_has_valid_priority, ready_queue_for_priority, ThreadPriorityLevelCount. rewrite (thread_get_ok _ _ _ Hr), bind_ok.
  destruct (Z.ltb_spec (current_priority r) 32); [|lia]. by destruct (Z.leb_spec 32 (current_priority r)); [lia|].
Qed.

Lemma can_enter_ok t r s :
  threads s !! t = Some r -> current_state r = Ready -> g_idle_thread s <> Some t -> thread_can_enter_ready_queue (Some t) s = Ok true.
Proof.
  intros Hr Hst Hi. unfold thread_can_enter_ready_queue, thread_is_runnable. rewrite (thread_get_ok _ _ _ Hr), !bind_ok, Hst.
  rewrite bool_decide_eq_false_2; [done|]. congruence.
Qed.

Lemma set_queue_ok p Q s : length (g_ready_queues s) = 32%nat -> 0 <= p < 32 ->
  set_queue p Q s = Ok (with_g_ready_queues (<[Z.to_nat p := Q]> (g_ready_queues s)) s).
Proof. intros Hl Hp. unfold set_queue. by rewrite aset_ok, bind_ok by lia. Qed.

(** Fields a change of the ready queues keeps. *)
Lemma unqueued_fields r r' : unqueued r' = unqueued r ->
  current_state r' = current_state r /\ current_priority r' = current_priority r.
Proof. intros E. split; [exact (f_equal current_state E)|exact (f_equal current_priority E)]. Qed.

Lemma relinked_fields r r' : @content Thread ready_links r' = @content Thread ready_links r ->
  current_state r' = current_state r /\ current_priority r' = current_priority r /\ in_ready_queue r' = in_ready_queue r.
Proof. intros E. split_and!; [exact (f_equal current_state E)|exact (f_equal current_priority E)|exact (f_equal in_ready_queue E)]. Qed.

Lemma ready_queue_push_ok s R t r at_tail l :
  ready_in_state s R -> threads s !! t = Some r -> current_state r = Ready -> in_ready_queue r = false ->
  0 <= current_priority r < 32 -> g_idle_thread s <> Some t -> R !! level_of r = Some l ->
  Z.of_nat (length (concat R)) < 2 ^ 64 - 1 ->
  exists m queues bitmap count,
    ready_queue_push (Some t) at_tail s = Ok (StatusOK, set_ready m queues bitmap count s) /\
    ready_rep m queues bitmap count (<[level_of r := pushed at_tail t l]> R) /\
    keeps unqueued (threads s) m /\ (forall u, u ∉ pushed at_tail t l -> m !! u = threads s !! u).
Proof.
  intros Hrep Hr Hst Hq Hp Hi Hl Hct.
  assert (level_of r < 32)%nat as Hlt by (unfold level_of; lia).
  assert (Z.of_nat (level_of r) = current_priority r) as Hlv by (unfold level_of; lia).
  destruct (valid_priority_ok t r s Hr Hp) as [Hv Hqp].
  destruct (ready_level _ _ _ _ _ Hrep (level_of r) Hlt) as (Q & l' & HQ & Hl' & Hd). rewrite Hl in Hl'. injection Hl' as <-.
  assert (t ∉ l) as Ht by (by eapply ready_not_in).
  destruct (push_links_ok (threads s) Q l t at_tail Hd Ht ltac:(eauto)) as (m1 & Q' & Hpl & Hd' & Hr1 & Hf).
  destruct (relinked_lookup (H := ready_links) _ _ _ _ Hr1 Hr) as (r1 & Hr1t & Hc).
  set (m := <[t := with_in_ready_queue true r1]> m1).
  assert (forall u, u ∉ pushed at_tail t l -> m !! u = threads s !! u) as Hfr.
  { intros u Hu. unfold m. rewrite lookup_insert_ne; [by apply Hf|]. intros ->. apply Hu, pushed_in. by left. }
  assert (keeps unqueued (threads s) m) as Hkeep.
  { etransitivity; [by apply relinked_unqueued|]. by eapply keeps_insert. }
  exists m, (<[level_of r := Q']> (g_ready_queues s)), (Z.lor (g_ready_bitmap s) (Z.shiftl 1 (current_priority r))), (g_ready_count s + 1).
  split; [|split; [|done]].
  - unfold ready_queue_push. rewrite (can_enter_ok _ _ _ Hr Hst Hi), bind_ok, Hv, bind_ok. cbn [negb orb].
    rewrite (thread_get_ok _ _ _ Hr), bind_ok, Hq, Hqp. rewrite (aget_ok _ _ Q), bind_ok by (done || lia).
    rewrite link_ready_state, Hpl, bind_ok. cbn iota beta.
    rewrite set_queue_ok, bind_ok by (destruct (rr_levels _ _ _ _ _ Hrep); done || lia). rewrite (thread_set_ok t r1), bind_ok by done.
    sched_cbn. rewrite u64_small by (rewrite (rr_count _ _ _ _ _ Hrep); lia). done.
  - eapply (ready_replace _ _ _ _ _ Hrep (level_of r) l (pushed at_tail t l) m Q'); try done.
    + eapply (dlist_update (H := ready_links)); [done|done|done|done].
    + intros u Hu Hu'. by apply Hfr.
    + intros u [->|Hu]%pushed_in.
      * exists (with_in_ready_queue true r1). unfold m. lookups. split; [done|]. unfold queued_at. cbn.
        destruct (relinked_fields _ _ Hc) as (E2 & E1 & _).
        split_and!; [done|lia|congruence].
      * destruct (rr_member _ _ _ _ _ Hrep _ _ u Hl Hu) as (ru & Hru & Q1 & Q2 & Q3). destruct (keeps_lookup _ _ _ _ _ Hkeep Hru) as (r' & Hr' & E).
        exists r'. split; [done|]. destruct (unqueued_fields _ _ E) as [E1 E2]. split_and!; [|lia|congruence].
        unfold m in Hr'. rewrite lookup_insert_ne in Hr' by (by intros ->). destruct (relinked_lookup (H := ready_links) _ _ _ _ Hr1 Hru) as (r2 & Hr2 & E3).
        rewrite Hr2 in Hr'. injection Hr' as <-. destruct (relinked_fields _ _ E3) as (_ & _ & ->). done.
    + intros u r' [Hu|Hu] _ _; [apply pushed_in; by right|done].
    + intros u [->|Hu]%pushed_in Hnu; [by exists r|done].
    + rewrite Hlv, bool_decide_eq_false_2; [done|]. destruct at_tail; cbn [pushed]; [|done]. by intros []%app_eq_nil.
    + replace (length (pushed at_tail t l)) with (S (length l)); [lia|]. destruct at_tail; cbn [pushed]; [rewrite length_app; cbn; lia|done].
Qed.

(** ** Taking a thread off its level *)
Lemma with_threads_id s : with_threads (threads s) s = s.
Proof. by destruct s. Qed.

Lemma unlink_ready_state s t Q :
  unlink_ready t Q s =
  ('(m, hd, tl) <- @dl_unlink Thread ready_links (threads s) (head Q) (tail Q) t ;; Ok (with_threads m s, mkReadyQueue hd tl)).
Proof.
  unfold unlink_ready, dl_unlink, get, set. destruct Q as [hd tl]. cbn [head tail]. destruct (fetch (threads s) t) as [r| | |]; [rewrite !bind_ok|done..].
  change (@link_prev Thread ready_links) with ready_prev. change (@link_next Thread ready_links) with ready_next.
  change (@set_prev Thread ready_links) with with_ready_prev. change (@set_next Thread ready_links) with with_ready_next.
  destruct (ready_prev r) as [a|].
  - destruct (assign (threads s) a _) as [m1| | |]; [rewrite !bind_ok|done..]. sched_cbn.
    destruct (fetch m1 t) as [r1| | |]; [rewrite !bind_ok|done..]. destruct (ready_next r1) as [c|]; [|done].
    by destruct (assign m1 c _).
  - rewrite !bind_ok. destruct (fetch (threads s) t) as [r1| | |]; [rewrite !bind_ok|done..]. destruct (ready_next r1) as [c|].
    + by destruct (assign (threads s) c _).
    + by destruct s.
Qed.

Lemma ready_queue_remove_ok s R t r l1 l2 :
  ready_in_state s R -> threads s !! t = Some r -> in_ready_queue r = true -> R !! level_of r = Some (l1 ++ t :: l2) ->
  Z.of_nat (length (concat R)) < 2 ^ 64 ->
  exists m queues bitmap count,
    ready_queue_remove (Some t) s = Ok (set_ready m queues bitmap count s) /\
    ready_rep m queues bitmap count (<[level_of r := l1 ++ l2]> R) /\
    keeps unqueued (threads s) m /\ m !! t = Some (unqueued r) /\ (forall u, u ∉ l1 ++ t :: l2 -> m !! u = threads s !! u).
Proof.
  intros Hrep Hr Hq Hl Hct. destruct (ready_in _ _ _ _ _ Hrep t r Hr Hq) as ((_ & Hlv & _) & Hlt & _).
  assert (0 <= current_priority r < 32) as Hp by lia. destruct (valid_priority_ok t r s Hr Hp) as [Hv Hqp].
  destruct (ready_level _ _ _ _ _ Hrep (level_of r) Hlt) as (Q & l' & HQ & Hl' & Hd). rewrite Hl in Hl'. injection Hl' as <-.
  destruct (dl_unlink_ok (H := ready_links) _ _ _ _ _ _ Hd) as (m1 & hd & tl & Hun & Hd' & Hr1).
  pose proof (fun u => dl_unlink_frame (H := ready_links) _ _ _ _ _ _ _ _ _ u Hd Hun) as Hf.
  destruct Hd as (Hnd & _). assert (t ∉ l1 ++ l2) as Htn by (apply NoDup_app in Hnd as (_ & Hd1 & [Hd2 _]%list.NoDup_cons); intros [Ht|Ht]%elem_of_app; [by apply (Hd1 t Ht), list_elem_of_here|done]).
  assert (NoDup (l1 ++ l2)) as Hnd' by (apply Hd').
  set (r' := unqueued r). set (m := <[t := r']> m1).
  assert (m1 !! t = Some r) as Hm1 by (by rewrite Hf).
  assert (keeps unqueued (threads s) m) as Hkeep.
  { etransitivity; [by apply relinked_unqueued|]. by eapply keeps_insert. }
  assert (forall u, u ∉ l1 ++ t :: l2 -> m !! u = threads s !! u) as Hfr.
  { intros u Hu. unfold m. rewrite lookup_insert_ne by (intros ->; apply Hu; set_solver). apply Hf. set_solver. }
  assert (0 < g_ready_count s < 2 ^ 64) as Hc.
  { rewrite (rr_count _ _ _ _ _ Hrep). pose proof (concat_insert_length R _ _ [] Hl) as Hcl. rewrite length_app in Hcl. cbn in Hcl. lia. }
  exists m, (<[level_of r := mkReadyQueue hd tl]> (g_ready_queues s)),
    (match hd with None => Z.ldiff (g_ready_bitmap s) (Z.shiftl 1 (current_priority r)) | Some _ => g_ready_bitmap s end), (g_ready_count s - 1).
  split; [|split; [|split; [done|split; [by unfold m; lookups|done]]]].
  - unfold ready_queue_remove. rewrite Hv, bind_ok, (thread_get_ok _ _ _ Hr), bind_ok, Hq. cbn [negb orb]. rewrite Hqp.
    rewrite (aget_ok _ _ Q), bind_ok by (done || lia). rewrite unlink_ready_state, Hun, !bind_ok. cbn iota beta.
    rewrite set_queue_ok, bind_ok by (destruct (rr_levels _ _ _ _ _ Hrep); done || lia). rewrite (thread_set_ok t r), bind_ok by done.
    sched_cbn. destruct (Z.eqb_spec (g_ready_count s) 0); [lia|]. rewrite u64_small by lia. cbn [head].
    by destruct hd.
  - eapply (ready_replace _ _ _ _ _ Hrep (level_of r) (l1 ++ t :: l2) (l1 ++ l2) m (mkReadyQueue hd tl)); try done.
    + cbn [head tail]. eapply (dlist_frame (H := ready_links)); [|done]. intros u Hu. unfold m. rewrite lookup_insert_ne; [done|]. by intros ->.
    + intros u Hu _. by apply Hfr.
    + intros u Hu. assert (u ∈ l1 ++ t :: l2) as Hu' by set_solver. destruct (rr_member _ _ _ _ _ Hrep _ _ u Hl Hu') as (ru & Hru & Q1 & Q2 & Q3).
      destruct (relinked_lookup (H := ready_links) _ _ _ _ Hr1 Hru) as (r2 & Hr2 & E). exists r2. unfold m. rewrite lookup_insert_ne by (by intros ->).
      split; [done|]. destruct (relinked_fields _ _ E) as (E1 & E2 & E3). split_and!; congruence.
    + intros u ru Hu Hru Hqu. destruct (decide (u = t)) as [->|Hne]; [|set_solver]. unfold m in Hru. revert Hru. lookups. intros [= <-]. done.
    + intros u Hu Hnu. set_solver.
    + destruct Hd' as (_ & _ & -> & _). destruct (l1 ++ l2) as [|x l] eqn:El; cbn [first].
      * by rewrite Hlv.
      * rewrite bool_decide_eq_false_2 by done. symmetry. apply Z.bits_inj'. intros i Hi. rewrite Z.lor_spec, bit_of_shift by lia. destruct (Z.eqb_spec i (Z.of_nat (level_of r))) as [->|]; [|by rewrite orb_false_r].
        rewrite (rr_bitmap _ _ _ _ _ Hrep _ _ Hl). rewrite bool_decide_eq_true_2; [done|]. by destruct l1.
    + rewrite !length_app. cbn [length]. lia.
Qed.

(** ** The best thread: the first of the highest level that is not empty *)
Definition best (R : list (list Z)) : option (nat * list Z) := list_find (fun l => l <> []) R.

Lemma best_bitmap m queues bitmap count R :
  ready_rep m queues bitmap count R ->
  match best R with
  | None => bitmap = 0 /\ count = 0
  | Some (p, _) => bitmap <> 0 /\ ctz bitmap = Z.of_nat p /\ (p < 32)%nat /\ count <> 0
  end.
Proof.
  intros [[R1 R1'] R2 R3 R4 R5 R6 R7]. unfold best. destruct (list_find _ R) as [[p l]|] eqn:Hf.
  - apply list_find_Some in Hf as (Hl & Hne & Hb). pose proof (lookup_lt_Some _ _ _ Hl) as Hlt.
    assert (Z.testbit bitmap (Z.of_nat p) = true) as Hbit by (rewrite (R6 _ _ Hl); by apply bool_decide_eq_true_2).
    assert (bitmap <> 0) as Hnz by (intros ->; by rewrite Z.bits_0 in Hbit).
    destruct (ctz_lowest bitmap ltac:(lia)) as (C1 & C2 & C3). split_and!; [done| |lia|].
    + destruct (Z.lt_trichotomy (ctz bitmap) (Z.of_nat p)) as [Hc|[Hc|Hc]]; [|done|].
      * destruct (lookup_lt_is_Some_2 R (Z.to_nat (ctz bitmap))) as [k Hk]; [lia|].
        pose proof (R6 _ _ Hk) as Hbk. rewrite Z2Nat.id, C2 in Hbk by lia. symmetry in Hbk. apply bool_decide_eq_true in Hbk.
        exfalso. apply (Hb _ k Hk); [lia|done].
      * rewrite C3 in Hbit by lia. done.
    + pose proof (concat_insert_length R _ _ [] Hl) as Hcl. destruct l; [done|]. cbn in Hcl. lia.
  - apply list_find_None in Hf. assert (forall p l, R !! p = Some l -> l = []) as Hall.
    { intros p l Hl. rewrite Forall_lookup in Hf. destruct l; [done|]. exfalso. by apply (Hf p _ Hl). }
    split.
    + apply Z.bits_inj'. intros i Hi. rewrite Z.bits_0. destruct (Z_lt_le_dec i 32) as [Hlt|Hge]; [|apply (testbit_high bitmap 32); lia].
      destruct (lookup_lt_is_Some_2 R (Z.to_nat i)) as [k Hk]; [lia|]. pose proof (R6 _ _ Hk) as Hb. rewrite Z2Nat.id in Hb by lia.
      rewrite Hb, (Hall _ _ Hk). done.
    + rewrite R7. assert (concat R = []) as ->; [|done]. clear -Hall. induction R as [|x R IH]; [done|]. cbn [concat].
      rewrite (Hall O x eq_refl). apply IH. intros p l Hl. by apply (Hall (S p)).
Qed.

Lemma best_level R p l : best R = Some (p, l) -> R !! p = Some l /\ l <> [] /\ forall p' l', R !! p' = Some l' -> (p' < p)%nat -> l' = [].
Proof.
  unfold best. intros (Hl & Hne & Hb)%list_find_Some. split_and!; [done..|]. intros p' l' Hl' Hlt.
  destruct l'; [done|]. exfalso. by apply (Hb p' _ Hl' Hlt).
Qed.

Lemma highest_ok s R : ready_in_state s R ->
  highest_ready_priority s = match best R with None => -1 | Some (p, _) => Z.of_nat p end.
Proof.
  intros Hrep. pose proof (best_bitmap _ _ _ _ _ Hrep) as Hb. unfold highest_ready_priority. destruct (best R) as [[p l]|].
  - destruct Hb as (H1 & H2 & _). destruct (Z.eqb_spec (g_ready_bitmap s) 0); [done|]. done.
  - destruct Hb as (-> & _). done.
Qed.

Lemma ready_queue_pop_best_ok s R :
  ready_in_state s R -> (forall p l t, R !! p = Some l -> t ∈ l -> g_idle_thread s <> Some t) -> Z.of_nat (length (concat R)) < 2 ^ 64 ->
  match best R with
  | None => ready_queue_pop_best s = Ok (None, s)
  | Some (p, l) =>
      exists t l' r m queues bitmap count,
        l = t :: l' /\ threads s !! t = Some r /\ queued_at p r /\
        ready_queue_pop_best s = Ok (Some t, set_ready m queues bitmap count s) /\
        ready_rep m queues bitmap count (<[p := l']> R) /\
        keeps unqueued (threads s) m /\ m !! t = Some (unqueued r) /\ (forall u, u ∉ l -> m !! u = threads s !! u)
  end.
Proof.
  intros Hrep Hidle Hct. pose proof (best_bitmap _ _ _ _ _ Hrep) as Hb. pose proof (highest_ok _ _ Hrep) as Hh.
  assert (forall x, pop_step s = Ok (inr x) -> ready_queue_pop_best s = Ok x) as Hpop.
  { intros x Hx. unfold ready_queue_pop_best. cbn [Nat.add iterate]. by rewrite Hx, bind_ok. }
  destruct (best R) as [[p l]|] eqn:HB.
  - destruct Hb as (Hnz & _ & Hlt & _). destruct (best_level _ _ _ HB) as (Hl & Hne & _). destruct l as [|t l']; [done|].
    destruct (rr_member _ _ _ _ _ Hrep p _ t Hl ltac:(apply list_elem_of_here)) as (r & Hr & Hq). destruct (Hq) as (Hq1 & Hq2 & Hq3).
    assert (level_of r = p) as Hlv by (unfold level_of; lia).
    destruct (ready_queue_remove_ok s R t r [] l') as (m & queues & bitmap & count & Hrm & Hrep' & Hk & Hmt & Hf); [done..|by rewrite Hlv|done|].
    exists t, l', r, m, queues, bitmap, count. cbn [app] in *. rewrite Hlv in *. split_and!; try done.
    apply Hpop. unfold pop_step. destruct (Z.eqb_spec (g_ready_bitmap s) 0); [done|]. rewrite Hh. cbn zeta. destruct (Z.ltb_spec (Z.of_nat p) 0); [lia|].
    unfold ready_queue_for_priority, ThreadPriorityLevelCount. rewrite u8_small by lia. destruct (Z.leb_spec 32 (Z.of_nat p)); [lia|].
    destruct (ready_level _ _ _ _ _ Hrep p Hlt) as (Q & k & HQ & Hk' & Hd). rewrite Hl in Hk'. injection Hk' as <-.
    rewrite (aget_ok _ _ Q), bind_ok by (lia || by rewrite Nat2Z.id). destruct Hd as (_ & _ & -> & _). cbn [first].
    rewrite Hrm, bind_ok. rewrite (can_enter_ok t (unqueued r)), bind_ok; [|done|done|by eapply Hidle; [|apply list_elem_of_here]].
    rewrite (thread_get_ok t (unqueued r)), bind_ok by done. rewrite bool_decide_eq_true_2 by done. done.
  - destruct Hb as (Hb & _). apply Hpop. unfold pop_step. by rewrite Hb.
Qed.

(** ** The sleep queue *)
Definition unslept (r : Thread) : Thread := with_sleep_next None (with_sleep_prev None r).
Definition set_sleep (m : gmap Z Thread) (hd tl : option Z) (s : Sched) : Sched :=
  with_g_sleep_tail tl (with_g_sleep_head hd (with_threads m s)).
Abbreviation sleep_in_state s l := (sleep_rep (threads s) (g_sleep_head s) (g_sleep_tail s) l).

Lemma unslept_fields r r' : unslept r' = unslept r -> current_state r' = current_state r /\ wake_tick r' = wake_tick r.
Proof. intros E. split; [exact (f_equal current_state E)|exact (f_equal wake_tick E)]. Qed.

Lemma wake_of_unslept m m' t : keeps unslept m m' -> wake_of m' t = wake_of m t.
Proof.
  intros Hk. unfold wake_of. destruct (m !! t) as [r|] eqn:Hr.
  - destruct (keeps_lookup _ _ _ _ _ Hk Hr) as (r' & -> & E). apply (unslept_fields _ _ E).
  - destruct (m' !! t) as [r'|] eqn:Hr'; [|done]. destruct (keeps_back _ _ _ _ _ Hk Hr') as (r & Hr2 & _). congruence.
Qed.

(** A new list of the same threads or fewer, or with a thread that waits. *)
Lemma sleep_replace m hd tl l m' hd' tl' l' :
  sleep_rep m hd tl l -> keeps unslept m m' -> sleep_dlist m' hd' tl' l' ->
  (forall t r, t ∈ l' -> t ∉ l -> m !! t = Some r -> current_state r = Waiting) ->
  StronglySorted Z.le (map (wake_of m) l') ->
  (forall t r, m' !! t = Some r -> t ∉ l' -> t ∉ l \/ (sleep_next r = None /\ sleep_prev r = None)) ->
  (forall t, t ∉ l -> t ∉ l' -> m' !! t = m !! t) ->
  sleep_rep m' hd' tl' l'.
Proof.
  intros [S1 S2 S3 S4] Hk Hd Hnew Hsort Hout Hf. split; [done| | |].
  - intros t r' Ht Hr'. destruct (keeps_back _ _ _ _ _ Hk Hr') as (r & Hr & E). destruct (unslept_fields _ _ E) as [-> _].
    destruct (decide (t ∈ l)) as [Hl|Hl]; [by eapply S2|by eapply Hnew].
  - erewrite map_ext; [done|]. intros t. by apply wake_of_unslept.
  - intros t r' Hr' Ht. destruct (Hout t r' Hr' Ht) as [Hl|Hl]; [|done]. rewrite Hf in Hr' by done. by eapply S4.
Qed.

Lemma unlink_sleep_state s t :
  unlink_sleep t s =
  ('(m, hd, tl) <- @dl_unlink Thread sleep_links (threads s) (g_sleep_head s) (g_sleep_tail s) t ;; Ok (set_sleep m hd tl s)).
Proof.
  unfold unlink_sleep, dl_unlink, get, set. destruct (fetch (threads s) t) as [r| | |]; [rewrite !bind_ok|done..].
  change (@link_prev Thread sleep_links) with sleep_prev. change (@link_next Thread sleep_links) with sleep_next.
  change (@set_prev Thread sleep_links) with with_sleep_prev. change (@set_next Thread sleep_links) with with_sleep_next.
  destruct (sleep_prev r) as [a|].
  - destruct (assign (threads s) a _) as [m1| | |]; [rewrite !bind_ok|done..]. sched_cbn.
    destruct (fetch m1 t) as [r1| | |]; [rewrite !bind_ok|done..]. destruct (sleep_next r1) as [c|].
    + by destruct (assign m1 c _).
    + done.
  - rewrite !bind_ok. sched_cbn. destruct (fetch (threads s) t) as [r1| | |]; [rewrite !bind_ok|done..]. destruct (sleep_next r1) as [c|].
    + by destruct (assign (threads s) c _).
    + by destruct s.
Qed.

Lemma in_sleep_queue_ok s l t r :
  sleep_in_state s l -> threads s !! t = Some r -> thread_in_sleep_queue (Some t) s = Ok (bool_decide (t ∈ l)).
Proof.
  intros [S1 S2 S3 S4] Hr. unfold thread_in_sleep_queue. rewrite (thread_get_ok _ _ _ Hr), bind_ok. f_equal. case_bool_decide as Hh.
  - destruct S1 as (_ & _ & S1 & _). rewrite (bool_decide_eq_true_2 (t ∈ l)); [done|]. rewrite S1 in Hh. destruct l as [|x l]; [done|].
    injection Hh as ->. apply list_elem_of_here.
  - destruct (decide (t ∈ l)) as [Ht|Ht].
    + rewrite (bool_decide_eq_true_2 (t ∈ l)) by done. apply list_elem_of_split in Ht as (l1 & l2 & ->).
      destruct (dlist_at (H := sleep_links) _ _ _ _ _ _ S1) as (r' & Hr' & Hn & Hp). simplify_eq. cbn in Hn, Hp.
      rewrite (bool_decide_eq_true_2 (sleep_prev r <> None)); [done|]. rewrite Hp. destruct l1 as [|x l1].
      * exfalso. apply Hh. by destruct S1 as (_ & _ & -> & _).
      * destruct (list_elem_final (x :: l1) None) as (e & -> & _); done.
    + destruct (S4 t r Hr Ht) as [-> ->]. by rewrite (bool_decide_eq_false_2 (t ∈ l)) by done.
Qed.

Lemma sleep_queue_remove_out s l t r :
  sleep_in_state s l -> threads s !! t = Some r -> t ∉ l -> sleep_queue_remove (Some t) s = Ok s.
Proof.
  intros Hrep Hr Ht. unfold sleep_queue_remove. rewrite (in_sleep_queue_ok _ _ _ _ Hrep Hr), bind_ok, bool_decide_eq_false_2 by done. done.
Qed.

Lemma sorted_remove {A} (f : A -> Z) l1 x l2 :
  StronglySorted Z.le (map f (l1 ++ x :: l2)) -> StronglySorted Z.le (map f (l1 ++ l2)).
Proof.
  induction l1 as [|y l1 IH]; cbn [app map]; intros [Hs Hf]%StronglySorted_inv; [done|]. constructor; [by apply IH|].
  rewrite map_app in *. apply Forall_app in Hf as [H1 H2]. apply Forall_app. split; [done|]. by inversion H2.
Qed.

Lemma sleep_queue_remove_ok s l1 t l2 r :
  sleep_in_state s (l1 ++ t :: l2) -> threads s !! t = Some r ->
  exists m hd tl, sleep_queue_remove (Some t) s = Ok (set_sleep m hd tl s) /\ sleep_rep m hd tl (l1 ++ l2) /\
    keeps unslept (threads s) m /\ m !! t = Some (unslept r) /\ (forall u, u ∉ l1 ++ t :: l2 -> m !! u = threads s !! u).
Proof.
  intros Hrep Hr. destruct (dl_unlink_ok (H := sleep_links) _ _ _ _ _ _ (sl_list _ _ _ _ Hrep)) as (m1 & hd & tl & Hun & Hd' & Hr1).
  pose proof (fun u => dl_unlink_frame (H := sleep_links) _ _ _ _ _ _ _ _ _ u (sl_list _ _ _ _ Hrep) Hun) as Hf.
  destruct (sl_list _ _ _ _ Hrep) as (Hnd & _). assert (t ∉ l1 ++ l2) as Htn.
  { apply list.NoDup_app in Hnd as (_ & Hd1 & [Hd2 _]%list.NoDup_cons); intros [Ht|Ht]%elem_of_app; [by apply (Hd1 t Ht), list_elem_of_here|done]. }
  assert (m1 !! t = Some r) as Hm1 by (by rewrite Hf). set (m := <[t := unslept r]> m1).
  assert (keeps unslept (threads s) m) as Hkeep.
  { transitivity m1; [exact Hr1|]. by eapply keeps_insert. }
  assert (forall u, u ∉ l1 ++ t :: l2 -> m !! u = threads s !! u) as Hfr.
  { intros u Hu. unfold m. rewrite lookup_insert_ne by (intros ->; apply Hu; set_solver). apply Hf. set_solver. }
  exists m, hd, tl. split; [|split; [|split; [done|split; [by unfold m; lookups|done]]]].
  - unfold sleep_queue_remove. rewrite (in_sleep_queue_ok _ _ _ _ Hrep Hr), bind_ok, bool_decide_eq_true_2 by set_solver. cbn [negb].
    rewrite unlink_sleep_state, Hun, !bind_ok. cbn iota beta. by rewrite (thread_set_ok t r).
  - eapply (sleep_replace _ _ _ _ m hd tl (l1 ++ l2) Hrep); [done| | | | |].
    + eapply (dlist_frame (H := sleep_links)); [|done]. intros u Hu. unfold m. rewrite lookup_insert_ne; [done|]. by intros ->.
    + intros u ru Hu Hnu. set_solver.
    + eapply sorted_remove. apply Hrep.
    + intros u ru Hru Hu. destruct (decide (u = t)) as [->|]; [|left; set_solver]. right. unfold m in Hru. revert Hru. lookups. by intros [= <-].
    + intros u Hu _. by apply Hfr.
Qed.

Lemma cursor_ok s tick hd tl l0 l fuel :
  sleep_dlist (threads s) hd tl (l0 ++ l) -> (length l < fuel)%nat ->
  exists l1 l2, l = l1 ++ l2 /\ iterate fuel (cursor_step s tick) (first l None) = Ok (first l2 None) /\
    Forall (fun u => wake_of (threads s) u <= tick) l1 /\ match l2 with [] => True | c :: _ => tick < wake_of (threads s) c end.
Proof.
  revert l0 fuel. induction l as [|c l IH]; intros l0 fuel Hd Hfuel; (destruct fuel as [|fuel]; [cbn in Hfuel; lia|]).
  { exists [], []. done. }
  destruct (dlist_at (H := sleep_links) _ _ _ _ _ _ Hd) as (r & Hr & Hn & _). cbn in Hn.
  assert (wake_of (threads s) c = wake_tick r) as Hw by (unfold wake_of; by rewrite Hr).
  cbn [iterate first cursor_step]. rewrite (thread_get_ok _ _ _ Hr), bind_ok. rewrite bind_ok.
  destruct (Z.leb_spec (wake_tick r) tick) as [Hle|Hgt].
  - rewrite Hn. destruct (IH (l0 ++ [c]) fuel) as (l1 & l2 & -> & Hit & H1 & H2); [by rewrite <- app_assoc|cbn in Hfuel; lia|].
    exists (c :: l1), l2. split_and!; [done|done| |done]. constructor; [lia|done].
  - exists [], (c :: l). split_and!; [done|done|constructor|lia].
Qed.

Lemma link_sleep_ok s t r l1 l2 :
  sleep_dlist (threads s) (g_sleep_head s) (g_sleep_tail s) (l1 ++ l2) -> t ∉ l1 ++ l2 -> l1 ++ l2 <> [] ->
  threads s !! t = Some r -> sleep_next r = None -> sleep_prev r = None ->
  exists m hd tl, link_sleep t (first l2 None) s = Ok (set_sleep m hd tl s) /\ sleep_dlist m hd tl (l1 ++ t :: l2) /\
    keeps unslept (threads s) m /\ (forall u, u ∉ l1 ++ t :: l2 -> m !! u = threads s !! u).
Proof.
  intros Hd Ht Hne Hr Hn Hp. destruct (@dl_insert_ok Thread sleep_links _ _ _ _ l1 t l2 Hd Ht ltac:(eauto)) as (m & hd & tl & Hi & Hd' & Hrel & Hf).
  exists m, hd, tl. split; [|done]. clear Hd' Hrel Hf. unfold dl_insert in Hi. rewrite (assign_ok _ _ _ _ Hr), bind_ok in Hi.
  destruct l2 as [|c l2]; cbn [first link_sleep] in *.
  - rewrite app_nil_r in *. destruct Hd as (_ & Hs & _ & Htl). rewrite Htl.
    destruct (list_elem_final l1 None Hne) as (e & He & Hin). rewrite He in Hi |- *. rewrite (thread_set_ok t r), bind_ok by done. sched_cbn.
    rewrite Htl, He. unfold set. sched_cbn. change (with_sleep_next (Some t)) with (@set_next _ sleep_links (Some t)).
    assert (with_sleep_prev (Some e) r = @set_next _ sleep_links None (@set_prev _ sleep_links (Some e) r)) as ->.
    { cbn. destruct r. cbn in *. by subst. }
    destruct (assign _ e _) as [m1| | |]; try done. rewrite !bind_ok in Hi. injection Hi as <- <- <-. by destruct s.
  - assert (t <> c) as Htc by set_solver. destruct (dlist_at (H := sleep_links) _ _ _ _ _ _ Hd) as (rc & Hrc & _ & Hpc). cbn in Hpc.
    rewrite (thread_set_ok t r), bind_ok by done. rewrite (thread_get_ok c rc), bind_ok by (sched_cbn; by lookups). rewrite Hpc.
    erewrite thread_set_ok, bind_ok by (sched_cbn; by lookups). sched_cbn. rewrite insert_insert, decide_True by done.
    rewrite (thread_get_ok c rc), bind_ok by (sched_cbn; by lookups). rewrite Hpc.
    change (with_sleep_prev (final l1 None) (with_sleep_next (Some c) r)) with (@set_next _ sleep_links (Some c) (@set_prev _ sleep_links (final l1 None) r)).
    unfold set. change (with_sleep_next (Some t)) with (@set_next _ sleep_links (Some t)). change (with_sleep_prev (Some t)) with (@set_prev _ sleep_links (Some t)).
    destruct (final l1 None) as [a|]; sched_cbn.
    + destruct (assign _ a _) as [m1| | |]; try done. rewrite !bind_ok in Hi. rewrite bind_ok, bind_ok. sched_cbn.
      destruct (assign m1 c _) as [m2| | |]; try done. rewrite !bind_ok in Hi. injection Hi as <- <- <-. by destruct s.
    + rewrite bind_ok in Hi. cbn iota beta in Hi. rewrite bind_ok. sched_cbn.
      destruct (assign _ c _) as [m2| | |]; try done. rewrite !bind_ok in Hi. injection Hi as <- <- <-. by destruct s.
Qed.

Lemma sorted_insert (f : Z -> Z) l1 x l2 :
  StronglySorted Z.le (map f (l1 ++ l2)) -> Forall (fun u => f u <= f x) l1 -> match l2 with [] => True | c :: _ => f x < f c end ->
  StronglySorted Z.le (map f (l1 ++ x :: l2)) /\ Forall (fun u => f x < f u) l2.
Proof.
  intros Hs H1 H2. assert (Forall (fun u => f x < f u) l2) as Hl2.
  { rewrite map_app in Hs. clear H1. induction l1 as [|y l1 IH]; cbn [map app] in Hs.
    - destruct l2 as [|c l2]; [constructor|]. cbn [map] in Hs. apply StronglySorted_inv in Hs as [_ Hc]. constructor; [done|].
      rewrite Forall_map in Hc. eapply Forall_impl; [exact Hc|]. intros u Hu. cbn in Hu. lia.
    - apply StronglySorted_inv in Hs as [Hs _]. by apply IH. }
  split; [|done]. clear H2. induction l1 as [|y l1 IH]; cbn [map app] in *.
  - constructor; [done|]. apply Forall_map. eapply Forall_impl; [exact Hl2|]. intros u Hu. cbn in *. lia.
  - apply StronglySorted_inv in Hs as [Hs Hy]. apply Forall_cons in H1 as [Hyx H1]. constructor; [by apply IH|].
    rewrite map_app in *. cbn [map]. apply Forall_app in Hy as [Hy1 Hy2]. apply Forall_app. split; [done|]. by constructor.
Qed.

(** The thread goes behind all that wake no later than it does. *)
Lemma sleep_queue_insert_sorted_ok s l t r :
  sleep_in_state s l -> threads s !! t = Some r -> current_state r = Waiting -> t ∉ l ->
  exists m hd tl l1 l2, l = l1 ++ l2 /\
    Forall (fun u => wake_of (threads s) u <= wake_tick r) l1 /\ Forall (fun u => wake_tick r < wake_of (threads s) u) l2 /\
    sleep_queue_insert_sorted (Some t) s = Ok (set_sleep m hd tl s) /\ sleep_rep m hd tl (l1 ++ t :: l2) /\
    keeps unslept (threads s) m /\ (forall u, u ∉ l1 ++ t :: l2 -> m !! u = threads s !! u).
Proof.
  intros Hrep Hr Hst Ht. assert (wake_of (threads s) t = wake_tick r) as Hw by (unfold wake_of; by rewrite Hr).
  unfold sleep_queue_insert_sorted. rewrite (sleep_queue_remove_out _ _ _ _ Hrep Hr Ht), bind_ok. rewrite (thread_set_ok t r), bind_ok by done.
  set (m0 := <[t := _]> (threads s)). set (s0 := with_threads m0 s).
  destruct (sl_out _ _ _ _ Hrep t r Hr Ht) as [Hn0 Hp0].
  assert (m0 = threads s) as Hm0. { unfold m0. apply insert_id. rewrite Hr. f_equal. destruct r. cbn in *. by subst. }
  assert (s0 = s) as -> by (unfold s0; rewrite Hm0; by destruct s). clear m0 Hm0.
  pose proof (sl_list _ _ _ _ Hrep) as Hd. pose proof (dlist_length (H := sleep_links) _ _ _ _ Hd) as Hlen.
  destruct l as [|h l].
  - destruct (Hd) as (_ & _ & Hhd & _). rewrite Hhd. cbn [first].
    assert (with_g_sleep_tail (Some t) (with_g_sleep_head (Some t) s) = set_sleep (threads s) (Some t) (Some t) s) as -> by (by destruct s).
    exists (threads s), (Some t), (Some t), [], []. split_and!; try done; cbn [app].
    + eapply (sleep_replace _ _ _ _ _ _ _ [t] Hrep); [done| | | | |done].
      * split; [apply NoDup_singleton|]. split; [|done]. cbn [seg first]. split; [|done]. by exists r.
      * intros u ru ->%list_elem_of_singleton _ Hru. congruence.
      * cbn [map]. repeat constructor.
      * intros u ru _ _. left. by apply not_elem_of_nil.
  - destruct (Hd) as (_ & _ & Hhd & _). rewrite Hhd. cbn [first]. rewrite (thread_get_ok _ _ _ Hr), bind_ok.
    destruct (cursor_ok s (wake_tick r) _ _ [] (h :: l) (S (size (threads s))) Hd ltac:(lia)) as (l1 & l2 & El & Hit & H1 & H2).
    cbn [first] in Hit. rewrite Hit, bind_ok.
    destruct (link_sleep_ok s t r l1 l2) as (m & hd & tl & Hlk & Hd' & Hk & Hf); [by rewrite <- El|by rewrite <- El|by rewrite <- El|done..|].
    destruct (sorted_insert (wake_of (threads s)) l1 t l2) as [Hs1 Hs2]; [rewrite <- El; apply Hrep|by rewrite Hw|by rewrite Hw|].
    exists m, hd, tl, l1, l2. split_and!; try done; [by rewrite Hw in Hs2|].
    eapply (sleep_replace _ _ _ _ _ _ _ _ Hrep); [done|done| |done| |].
    + intros u ru Hu Hnu Hru. rewrite El in Hnu. assert (u = t) as -> by set_solver. congruence.
    + intros u ru _ Hu. left. rewrite El. set_solver.
    + intros u _ Hu. by apply Hf.
Qed.
