(* ===== verification/SchedInv.v ===== *)
(** The invariant of the scheduler, and how each change of the state keeps it. *)
From stdpp Require Import base list gmap.
From Stdlib Require Import ZArith Lia Sorted.
From S2P Require Import Prelude KernelText DList KernelIface SchedState Scheduler SchedQueues SchedOps.

Local Open Scope Z_scope.

(** What holds of every thread: its fields are in range, its process is live and
    has translation tables, and a thread that does not wait has no wake-up tick. *)
Record thread_ok (s : Sched) (t : Z) (r : Thread) : Prop := {
  ok_priority : 0 <= current_priority r < 32;
  ok_quantum : 0 <= quantum_ticks r < 2 ^ 32 /\ 0 <= quantum_ticks_remaining r < 2 ^ 32;
  ok_name : terminated (t_name r);
  ok_wake : current_state r <> Waiting -> wake_tick r = 0;
  ok_parent p : t_parent r = Some p -> exists x, processes s !! p = Some x /\ page_table_root (process_address_space x) <> 0
}.

Record inv (s : Sched) (q : Queues) : Prop := {
  inv_ready : ready_in_state s (ready q);
  inv_sleep : sleep_in_state s (sleepers q);
  inv_retired : retired_rep (threads s) (g_retired_thread_head s) (g_retired_thread_tail s) (retired q);
  inv_registry : registry_rep (threads s) (g_thread_head s) (g_thread_tail s) (registry q);
  inv_threads t r : threads s !! t = Some r -> thread_ok s t r;
  inv_current : exists c, g_current_thread s = Some c /\ is_Some (threads s !! c);
  inv_idle : exists i r, g_idle_thread s = Some i /\ threads s !! i = Some r /\ in_ready_queue r = false /\
    (current_state r = Ready \/ current_state r = Running);
  inv_root : kernel_root_table s <> 0;
  inv_small : Z.of_nat (size (threads s)) < 2 ^ 64 - 1
}.

(** ** Consequences *)
Lemma nodup_concat (R : list (list Z)) :
  (forall p l, R !! p = Some l -> NoDup l) ->
  (forall p1 p2 l1 l2 t, R !! p1 = Some l1 -> R !! p2 = Some l2 -> t ∈ l1 -> t ∈ l2 -> p1 = p2) -> NoDup (concat R).
Proof.
  induction R as [|x R IH]; intros Hn Hd; [constructor|]. cbn [concat]. apply list.NoDup_app. split_and!.
  - by apply (Hn O).
  - intros t Hx Hc. apply list_elem_of_In, in_concat in Hc as (l & Hl%list_elem_of_In & Ht%list_elem_of_In).
    apply list_elem_of_lookup in Hl as [p Hp]. pose proof (Hd O (S p) x l t eq_refl Hp Hx Ht). lia.
  - apply IH; [intros p l; apply (Hn (S p))|]. intros p1 p2 l1 l2 t H1 H2 T1 T2. pose proof (Hd (S p1) (S p2) l1 l2 t H1 H2 T1 T2). lia.
Qed.

Lemma ready_bound m queues bitmap count R : ready_rep m queues bitmap count R -> (length (concat R) <= size m)%nat.
Proof.
  intros Hrep. assert (NoDup (concat R)) as Hnd.
  { apply nodup_concat.
    - intros p l Hl. assert (p < 32)%nat as Hp by (destruct (rr_levels _ _ _ _ _ Hrep) as [_ <-]; by apply lookup_lt_Some in Hl).
      destruct (ready_level _ _ _ _ _ Hrep p Hp) as (Q & l' & _ & Hl' & Hd). rewrite Hl in Hl'. injection Hl' as <-. apply Hd.
    - intros p1 p2 l1 l2 t. by apply (ready_one_level _ _ _ _ _ Hrep). }
  rewrite <- (size_list_to_set (C := gset Z) _ Hnd), <- size_dom. apply subseteq_size. intros t Ht%elem_of_list_to_set.
  apply list_elem_of_In, in_concat in Ht as (l & Hl%list_elem_of_In & Ht%list_elem_of_In). apply list_elem_of_lookup in Hl as [p Hp].
  destruct (rr_member _ _ _ _ _ Hrep p l t Hp Ht) as (r & Hr & _). apply elem_of_dom. eauto.
Qed.

Section Facts.
Context (s : Sched) (q : Queues) (Hinv : inv s q).

Lemma inv_count : Z.of_nat (length (concat (ready q))) < 2 ^ 64 - 1.
Proof. pose proof (ready_bound _ _ _ _ _ (inv_ready _ _ Hinv)). pose proof (inv_small _ _ Hinv). lia. Qed.

Lemma idle_not_queued p l t : ready q !! p = Some l -> t ∈ l -> g_idle_thread s <> Some t.
Proof.
  intros Hl Ht Hi. destruct (inv_idle _ _ Hinv) as (i & r & Hi' & Hr & Hf & _). simplify_eq.
  destruct (rr_member _ _ _ _ _ (inv_ready _ _ Hinv) p l t Hl Ht) as (r' & Hr' & Hq & _). congruence.
Qed.

Lemma level_bound t r : threads s !! t = Some r -> (level_of r < 32)%nat /\ Z.of_nat (level_of r) = current_priority r.
Proof. intros Hr. pose proof (ok_priority _ _ _ (inv_threads _ _ Hinv t r Hr)). unfold level_of. lia. Qed.

Lemma level_list t r : threads s !! t = Some r -> exists l, ready q !! level_of r = Some l.
Proof.
  intros Hr. destruct (level_bound t r Hr) as [Hlt _]. destruct (ready_level _ _ _ _ _ (inv_ready _ _ Hinv) _ Hlt) as (Q & l & _ & Hl & _). eauto.
Qed.

Lemma retired_not_queued p l t : ready q !! p = Some l -> t ∈ l -> t ∉ retired q.
Proof.
  intros Hl Ht Hr. destruct (rr_member _ _ _ _ _ (inv_ready _ _ Hinv) p l t Hl Ht) as (r & Hrt & _ & _ & Hst).
  pose proof (re_ended _ _ _ _ (inv_retired _ _ Hinv) t r Hr Hrt). congruence.
Qed.
End Facts.

(** ** Frames for changes outside a queue *)
Lemma ready_frame_out m m' queues bitmap count R :
  (forall t r, m !! t = Some r -> in_ready_queue r = true -> m' !! t = Some r) ->
  (forall t r, m' !! t = Some r -> in_ready_queue r = true -> m !! t = Some r) ->
  ready_rep m queues bitmap count R -> ready_rep m' queues bitmap count R.
Proof.
  intros H1 H2 [R1 R2 R3 R4 R5 R6 R7]. split; try done.
  - intros p Q l HQ Hl. eapply dlist_ext; [|by eapply R2]. intros t n Ht Hn. exists n. split; [|done].
    destruct (R3 p l t Hl Ht) as (r & Hr & Hq & _). simplify_eq. by apply H1.
  - intros p l t Hl Ht. destruct (R3 p l t Hl Ht) as (r & Hr & Hq). exists r. split; [|done]. apply H1; [done|]. apply Hq.
  - intros t r Hr Hq. eapply R4; [|done]. by apply H2.
Qed.

Lemma retired_frame_out m m' hd tl l : (forall t, t ∈ l -> m' !! t = m !! t) -> retired_rep m hd tl l -> retired_rep m' hd tl l.
Proof.
  intros Hm [R1 R2 R3 R4]. split; try done.
  - eapply chain_ext; [|done]. intros t r Ht Hr. exists r. by rewrite Hm.
  - intros t r Ht. rewrite Hm by done. by apply R4.
Qed.

(** ** Changes of links *)

(** All of a thread but the links and flags the queues use. *)
Definition bare (r : Thread) : Thread := unslept (unqueued r).

Lemma bare_unqueued m m' : keeps unqueued m m' -> keeps bare m m'.
Proof. exact (keeps_weaken unqueued unslept m m'). Qed.

Lemma bare_unslept m m' : keeps unslept m m' -> keeps bare m m'.
Proof. exact (keeps_weaken unslept unqueued m m'). Qed.

Lemma bare_fields r r' : bare r' = bare r ->
  current_state r' = current_state r /\ current_priority r' = current_priority r /\ t_parent r' = t_parent r /\
  wake_tick r' = wake_tick r /\ t_id r' = t_id r /\ t_context r' = t_context r /\ quantum_ticks_remaining r' = quantum_ticks_remaining r /\
  wait_status r' = wait_status r.
Proof.
  intros E. split_and!; [exact (f_equal current_state E)|exact (f_equal current_priority E)|exact (f_equal t_parent E)|
    exact (f_equal wake_tick E)|exact (f_equal t_id E)|exact (f_equal t_context E)|exact (f_equal quantum_ticks_remaining E)|exact (f_equal wait_status E)].
Qed.

Lemma thread_ok_bare s s' t r r' :
  bare r' = bare r -> processes s' = processes s -> thread_ok s t r -> thread_ok s' t r'.
Proof.
  intros E Hp [K1 K2 K3 K4 K5]. split.
  - pose proof (f_equal current_priority E) as E1. cbn in E1. by rewrite E1.
  - pose proof (f_equal quantum_ticks E) as E1. pose proof (f_equal quantum_ticks_remaining E) as E2. cbn in E1, E2. by rewrite E1, E2.
  - pose proof (f_equal t_name E) as E1. cbn in E1. by rewrite E1.
  - destruct (bare_fields _ _ E) as (-> & _ & _ & -> & _). done.
  - destruct (bare_fields _ _ E) as (_ & _ & -> & _). by rewrite Hp.
Qed.

Lemma registry_bare m m' : keeps bare m m' -> keeps registry_part m m'.
Proof. exact (keeps_weaken bare registry_part m m'). Qed.

Lemma inv_relink s q s' q' :
  inv s q -> keeps bare (threads s) (threads s') ->
  ready_in_state s' (ready q') -> sleep_in_state s' (sleepers q') ->
  retired_rep (threads s') (g_retired_thread_head s') (g_retired_thread_tail s') (retired q') -> registry q' = registry q ->
  g_current_thread s' = g_current_thread s -> g_idle_thread s' = g_idle_thread s -> processes s' = processes s ->
  g_thread_head s' = g_thread_head s -> g_thread_tail s' = g_thread_tail s -> kernel_root_table s' = kernel_root_table s ->
  (forall i r, g_idle_thread s = Some i -> threads s' !! i = Some r -> in_ready_queue r = false) ->
  inv s' q'.
Proof.
  intros [I1 I2 I3 I4 I5 I6 I7 I8 I9] Hk H1 H2 H3 Hg Hc Hi Hp Hth Htt Hroot Hidle. split; try done.
  - rewrite Hth, Htt, Hg. eapply registry_frame; [|done]. by apply registry_bare.
  - intros t r' Hr'. destruct (keeps_back _ _ _ _ _ Hk Hr') as (r & Hr & E). eapply thread_ok_bare; [done..|]. by apply I5.
  - destruct I6 as (c & E & Hl). exists c. rewrite Hc. split; [done|]. by rewrite (keeps_is_Some _ _ _ _ Hk).
  - destruct I7 as (i & r & E & Hr & Hf & Hst). destruct (keeps_lookup _ _ _ _ _ Hk Hr) as (r' & Hr' & Eb).
    exists i, r'. rewrite Hi. split_and!; [done|done|by eapply Hidle|]. by destruct (bare_fields _ _ Eb) as (-> & _).
  - by rewrite Hroot.
  - rewrite <- size_dom, (keeps_dom _ _ _ Hk), size_dom. done.
Qed.

Lemma sleep_unqueued m m' : keeps unqueued m m' -> keeps sleep_part m m'.
Proof. exact (keeps_weaken unqueued sleep_part m m'). Qed.
Lemma ready_unslept m m' : keeps unslept m m' -> keeps ready_part m m'.
Proof. exact (keeps_weaken unslept ready_part m m'). Qed.
Lemma retired_unslept m m' : keeps unslept m m' -> keeps retired_part m m'.
Proof. exact (keeps_weaken unslept retired_part m m'). Qed.

Create HintDb sched.
#[export] Hint Resolve bare_unqueued bare_unslept sleep_unqueued ready_unslept retired_unslept registry_bare : sched.

(** ** The queues under the invariant *)
Section Changes.
Context (s : Sched) (q : Queues) (Hinv : inv s q).

Lemma inv_push t r at_tail l :
  threads s !! t = Some r -> current_state r = Ready -> in_ready_queue r = false -> g_idle_thread s <> Some t ->
  ready q !! level_of r = Some l ->
  exists m queues bitmap count, let s' := set_ready m queues bitmap count s in
    ready_queue_push (Some t) at_tail s = Ok (StatusOK, s') /\
    inv s' (with_ready (<[level_of r := pushed at_tail t l]> (ready q)) q) /\ keeps unqueued (threads s) m.
Proof.
  intros Hr Hst Hq Hi Hl. pose proof (ok_priority _ _ _ (inv_threads _ _ Hinv t r Hr)) as Hp. pose proof (inv_count _ _ Hinv).
  destruct (ready_queue_push_ok s (ready q) t r at_tail l) as (m & queues & bitmap & count & Hrun & Hrep & Hk & Hf); [apply Hinv|done..|].
  exists m, queues, bitmap, count. cbn zeta. split_and!; [done| |done]. eapply (inv_relink s q); try done; sched_cbn.
  - by apply bare_unqueued.
  - eapply sleep_frame; [by apply sleep_unqueued|apply Hinv].
  - eapply retired_frame_out; [|apply Hinv]. intros u Hu. apply Hf. intros [->|Hul]%pushed_in.
    + pose proof (re_ended _ _ _ _ (inv_retired _ _ Hinv) t r Hu Hr). congruence.
    + by apply (retired_not_queued _ _ Hinv _ _ _ Hl Hul).
  - intros i ri Ei Hri. destruct (inv_idle _ _ Hinv) as (i' & r' & Ei' & Hr' & Hfl & _). simplify_eq.
    rewrite Hf in Hri; [congruence|]. intros [->|Hil]%pushed_in; [done|]. by apply (idle_not_queued _ _ Hinv _ _ _ Hl Hil).
Qed.

Lemma inv_remove t r l1 l2 :
  threads s !! t = Some r -> in_ready_queue r = true -> ready q !! level_of r = Some (l1 ++ t :: l2) ->
  exists m queues bitmap count, let s' := set_ready m queues bitmap count s in
    ready_queue_remove (Some t) s = Ok s' /\ inv s' (with_ready (<[level_of r := l1 ++ l2]> (ready q)) q) /\
    keeps unqueued (threads s) m /\ m !! t = Some (unqueued r).
Proof.
  intros Hr Hq Hl. pose proof (inv_count _ _ Hinv).
  destruct (ready_queue_remove_ok s (ready q) t r l1 l2) as (m & queues & bitmap & count & Hrun & Hrep & Hk & Hmt & Hf); [apply Hinv|done..|lia|].
  exists m, queues, bitmap, count. cbn zeta. split_and!; [done| |done..]. eapply (inv_relink s q); try done; sched_cbn.
  - by apply bare_unqueued.
  - eapply sleep_frame; [by apply sleep_unqueued|apply Hinv].
  - eapply retired_frame_out; [|apply Hinv]. intros u Hu. apply Hf. intros Hul. by apply (retired_not_queued _ _ Hinv _ _ _ Hl Hul).
  - intros i ri Ei Hri. destruct (inv_idle _ _ Hinv) as (i' & r' & Ei' & Hr' & Hfl & _). simplify_eq.
    rewrite Hf in Hri; [congruence|]. intros Hil. by apply (idle_not_queued _ _ Hinv _ _ _ Hl Hil).
Qed.

Lemma inv_pop_best :
  match best (ready q) with
  | None => ready_queue_pop_best s = Ok (None, s)
  | Some (p, l) =>
      exists t l' r m queues bitmap count, let s' := set_ready m queues bitmap count s in
        l = t :: l' /\ threads s !! t = Some r /\ queued_at p r /\ ready_queue_pop_best s = Ok (Some t, s') /\
        inv s' (with_ready (<[p := l']> (ready q)) q) /\ keeps unqueued (threads s) m /\ m !! t = Some (unqueued r)
  end.
Proof.
  pose proof (inv_count _ _ Hinv).
  pose proof (ready_queue_pop_best_ok s (ready q) (inv_ready _ _ Hinv) (idle_not_queued _ _ Hinv) ltac:(lia)) as Hpop.
  destruct (best (ready q)) as [[p l]|] eqn:HB; [|done]. destruct (best_level _ _ _ HB) as (Hl & _ & _).
  destruct Hpop as (t & l' & r & m & queues & bitmap & count & -> & Hr & Hq & Hrun & Hrep & Hk & Hmt & Hf).
  exists t, l', r, m, queues, bitmap, count. cbn zeta. split_and!; try done. eapply (inv_relink s q); try done; sched_cbn.
  - by apply bare_unqueued.
  - eapply sleep_frame; [by apply sleep_unqueued|apply Hinv].
  - eapply retired_frame_out; [|apply Hinv]. intros u Hu. apply Hf. intros Hul. by apply (retired_not_queued _ _ Hinv _ _ _ Hl Hul).
  - intros i ri Ei Hri. destruct (inv_idle _ _ Hinv) as (i' & r' & Ei' & Hr' & Hfl & _). simplify_eq.
    rewrite Hf in Hri; [congruence|]. intros Hil. by apply (idle_not_queued _ _ Hinv _ _ _ Hl Hil).
Qed.

Lemma inv_set_sleep m hd tl l :
  keeps unslept (threads s) m -> sleep_rep m hd tl l -> inv (set_sleep m hd tl s) (with_sleepers l q).
Proof.
  intros Hk Hrep. eapply (inv_relink s q); try done; sched_cbn.
  - by apply bare_unslept.
  - eapply ready_frame; [by apply ready_unslept|apply Hinv].
  - eapply retired_frame; [by apply retired_unslept|apply Hinv].
  - intros i ri Ei Hri. destruct (inv_idle _ _ Hinv) as (i' & r' & Ei' & Hr' & Hfl & _). simplify_eq.
    destruct (keeps_lookup _ _ _ _ _ Hk Hr') as (r2 & Hr2 & E). change (m !! i = Some ri) in Hri. rewrite Hr2 in Hri. injection Hri as <-.
    rewrite <- Hfl. exact (f_equal in_ready_queue E).
Qed.

(** Removing a thread that does not sleep is no change. *)
Lemma inv_sleep_remove t r :
  threads s !! t = Some r ->
  exists m hd tl, let s' := set_sleep m hd tl s in
    sleep_queue_remove (Some t) s = Ok s' /\ inv s' (with_sleepers (filter (fun u => u <> t) (sleepers q)) q) /\
    keeps unslept (threads s) m /\ m !! t = Some (unslept r).
Proof.
  intros Hr. pose proof (inv_sleep _ _ Hinv) as Hsl. destruct (sl_list _ _ _ _ Hsl) as (Hnd & _).
  destruct (decide (t ∈ sleepers q)) as [Ht|Ht].
  - apply list_elem_of_split in Ht as (l1 & l2 & El). rewrite El in Hsl, Hnd.
    destruct (sleep_queue_remove_ok s l1 t l2 r Hsl Hr) as (m & hd & tl & Hrun & Hrep & Hk & Hmt & _).
    exists m, hd, tl. cbn zeta. split_and!; try done.
    assert (filter (fun u => u <> t) (sleepers q) = l1 ++ l2) as ->; [|by apply inv_set_sleep].
    apply list.NoDup_app in Hnd as (_ & Hd1 & [Hd2 _]%list.NoDup_cons). rewrite El, filter_app, filter_cons_False by tauto.
    f_equal; apply list_filter_all; apply Forall_forall; intros u Hu ->; [by apply (Hd1 t Hu), list_elem_of_here|done].
  - exists (threads s), (g_sleep_head s), (g_sleep_tail s). cbn zeta.
    assert (set_sleep (threads s) (g_sleep_head s) (g_sleep_tail s) s = s) as -> by (by destruct s). split_and!; [|  |done|].
    + by eapply sleep_queue_remove_out.
    + rewrite list_filter_all by (apply Forall_forall; by intros u Hu ->). by destruct q.
    + destruct (sl_out _ _ _ _ Hsl t r Hr Ht) as [E1 E2]. rewrite Hr. f_equal. destruct r. cbn in *. by subst.
Qed.

Lemma inv_sleep_insert t r :
  threads s !! t = Some r -> current_state r = Waiting -> t ∉ sleepers q ->
  exists m hd tl l1 l2, let s' := set_sleep m hd tl s in
    sleepers q = l1 ++ l2 /\ Forall (fun u => wake_of (threads s) u <= wake_tick r) l1 /\
    Forall (fun u => wake_tick r < wake_of (threads s) u) l2 /\
    sleep_queue_insert_sorted (Some t) s = Ok s' /\ inv s' (with_sleepers (l1 ++ t :: l2) q) /\ keeps unslept (threads s) m.
Proof.
  intros Hr Hst Ht. destruct (sleep_queue_insert_sorted_ok s (sleepers q) t r (inv_sleep _ _ Hinv) Hr Hst Ht)
    as (m & hd & tl & l1 & l2 & El & H1 & H2 & Hrun & Hrep & Hk & _).
  exists m, hd, tl, l1, l2. cbn zeta. split_and!; try done. by apply inv_set_sleep.
Qed.
End Changes.

(** ** Changes of other fields *)
Lemma sleep_frame_out m m' hd tl l :
  (forall t, t ∈ l -> m' !! t = m !! t) ->
  (forall t r', m' !! t = Some r' -> t ∉ l -> sleep_next r' = None /\ sleep_prev r' = None) ->
  sleep_rep m hd tl l -> sleep_rep m' hd tl l.
Proof.
  intros Hm Hout [S1 S2 S3 S4]. split; [by eapply dlist_frame| | |done].
  - intros t r Ht. rewrite Hm by done. by apply S2.
  - erewrite map_ext_in; [done|]. intros t Ht%list_elem_of_In. unfold wake_of. by rewrite Hm.
Qed.

(** The fields the queues and the registry read. *)
Record same_links (r r' : Thread) : Prop := {
  same_ready : ready_next r' = ready_next r /\ ready_prev r' = ready_prev r;
  same_flag : in_ready_queue r' = in_ready_queue r;
  same_sleep : sleep_next r' = sleep_next r /\ sleep_prev r' = sleep_prev r;
  same_registry : registry_part r' = registry_part r
}.

Section Update.
Context (s : Sched) (q : Queues) (Hinv : inv s q) (t : Z) (r r' : Thread).
Hypothesis Hr : threads s !! t = Some r.
Hypothesis Hlinks : same_links r r'.

Lemma inv_update :
  (in_ready_queue r = true -> current_priority r' = current_priority r /\ current_state r' = Ready) ->
  (t ∈ sleepers q -> current_state r' = Waiting /\ wake_tick r' = wake_tick r) ->
  (t ∈ retired q -> current_state r' = Terminated) ->
  (g_idle_thread s = Some t -> current_state r' = Ready \/ current_state r' = Running) ->
  thread_ok s t r' -> inv (with_threads (<[t := r']> (threads s)) s) q.
Proof.
  intros Hq Hsl Hre Hidle Hok. destruct Hlinks as [[L1 L2] L3 [L4 L5] L6]. destruct Hinv as [I1 I2 I3 I4 I5 I6 I7 I8 I9]. split; sched_cbn; try done.
  - destruct (in_ready_queue r) eqn:Hf.
    + destruct (Hq eq_refl) as [Hp Hst]. eapply ready_frame; [|done]. eapply keeps_insert; [done|].
      destruct (ready_in _ _ _ _ _ I1 t r Hr Hf) as ((_ & _ & Hst') & _). unfold ready_part. rewrite L1, L2, L3, Hp, Hst, Hst', Hf. done.
    + eapply ready_frame_out; [| |done].
      * intros u ru Hu Hfu. rewrite lookup_insert_ne; [done|]. intros ->. congruence.
      * intros u ru. destruct (decide (u = t)) as [->|Hne]; [|by rewrite lookup_insert_ne]. lookups. intros [= <-] Hfu. congruence.
  - destruct (decide (t ∈ sleepers q)) as [Ht|Ht].
    + destruct (Hsl Ht) as [Hst Hw]. pose proof (sl_waiting _ _ _ _ I2 t r Ht Hr) as Hst'. eapply sleep_frame; [|done]. eapply keeps_insert; [done|].
      unfold sleep_part. by rewrite L4, L5, Hw, Hst, Hst'.
    + eapply sleep_frame_out; [| |done].
      * intros u Hu. rewrite lookup_insert_ne; [done|]. by intros ->.
      * intros u ru. destruct (decide (u = t)) as [->|Hne].
        -- lookups. intros [= <-] _. destruct (sl_out _ _ _ _ I2 t r Hr Ht). by rewrite L4, L5.
        -- rewrite lookup_insert_ne by done. apply I2.
  - destruct (decide (t ∈ retired q)) as [Ht|Ht].
    + eapply retired_frame; [|done]. eapply keeps_insert; [done|]. pose proof (re_ended _ _ _ _ I3 t r Ht Hr) as Hst. unfold retired_part. by rewrite L1, Hst, (Hre Ht).
    + eapply retired_frame_out; [|done]. intros u Hu. rewrite lookup_insert_ne; [done|]. by intros ->.
  - eapply registry_frame; [|done]. by eapply keeps_insert.
  - intros u ru. destruct (decide (u = t)) as [->|Hne].
    + lookups. intros [= <-]. destruct Hok as [K1 K2 K3 K4 K5]. by split.
    + rewrite lookup_insert_ne by done. intros Hu. destruct (I5 u ru Hu) as [K1 K2 K3 K4 K5]. by split.
  - destruct I6 as (c & Hc & Hl). exists c. split; [done|]. by apply lookup_insert_is_Some'; right.
  - destruct I7 as (i & ri & Hi & Hri & Hf & Hst). destruct (decide (i = t)) as [->|Hne].
    + exists t, r'. lookups. split_and!; [done|done|congruence|by apply Hidle].
    + exists i, ri. by rewrite lookup_insert_ne.
  - rewrite map_size_insert, Hr. done.
Qed.
End Update.

Ltac keep_inv := match goal with H : inv _ _ |- inv _ _ => destruct H as [I1 I2 I3 I4 I5 I6 I7 I8 I9]; split; sched_cbn; try done end.

(** Variables the invariant does not mention. *)
Lemma inv_interrupts s q b : inv s q -> inv (with_interrupts b s) q.
Proof. intros Hinv. keep_inv. intros t r Hr. destruct (I5 t r Hr) as [K1 K2 K3 K4 K5]. by split. Qed.
Lemma inv_pending s q b : inv s q -> inv (with_g_reschedule_pending b s) q.
Proof. intros Hinv. keep_inv. intros t r Hr. destruct (I5 t r Hr) as [K1 K2 K3 K4 K5]. by split. Qed.
Lemma inv_tick s q n : inv s q -> inv (with_g_tick_count n s) q.
Proof. intros Hinv. keep_inv. intros t r Hr. destruct (I5 t r Hr) as [K1 K2 K3 K4 K5]. by split. Qed.
Lemma inv_process s q p : inv s q -> inv (with_g_current_process p s) q.
Proof. intros Hinv. keep_inv. intros t r Hr. destruct (I5 t r Hr) as [K1 K2 K3 K4 K5]. by split. Qed.
Lemma inv_space s q a : inv s q -> inv (with_current_address_space a s) q.
Proof. intros Hinv. keep_inv. intros t r Hr. destruct (I5 t r Hr) as [K1 K2 K3 K4 K5]. by split. Qed.
#[export] Hint Resolve inv_interrupts inv_pending inv_tick inv_process inv_space : sched.

(** A process that changes its state keeps its translation tables. *)
Lemma inv_process_state s q p x st : inv s q -> processes s !! p = Some x -> inv (with_processes (<[p := with_p_state st x]> (processes s)) s) q.
Proof.
  intros Hinv Hp. keep_inv. intros t r Hr. destruct (I5 t r Hr) as [K1 K2 K3 K4 K5]. split; try done. intros p' Hp'. sched_cbn.
  destruct (K5 p' Hp') as (y & Hy & Hne). destruct (decide (p' = p)) as [->|Hn].
  - exists (with_p_state st x). lookups. simplify_eq. done.
  - exists y. by rewrite lookup_insert_ne.
Qed.

Lemma inv_set_current s q t : inv s q -> is_Some (threads s !! t) -> inv (with_g_current_thread (Some t) s) q.
Proof. intros Hinv Ht. keep_inv; [|by exists t]. intros u r Hu. destruct (I5 u r Hu) as [K1 K2 K3 K4 K5]. by split. Qed.

(** ** Threads that end *)
Definition set_retired (m : gmap Z Thread) (hd tl : option Z) (s : Sched) : Sched :=
  with_g_retired_thread_tail tl (with_g_retired_thread_head hd (with_threads m s)).

Lemma chain_snoc m l t e re r :
  chain m (l ++ [e]) -> NoDup (l ++ [e]) -> t ∉ l ++ [e] -> m !! e = Some re -> m !! t = Some r ->
  chain (<[e := with_ready_next (Some t) re]> (<[t := with_ready_next None r]> m)) (l ++ [e] ++ [t]).
Proof.
  induction l as [|x l IH]; cbn [app chain]; intros [(rx & Hrx & Hx) Hc] [Hnx Hnd]%list.NoDup_cons Ht He Hr.
  - assert (e <> t) by set_solver. split; [|split; [|done]].
    + exists (with_ready_next (Some t) re). by lookups.
    + exists (with_ready_next None r). by lookups.
  - assert (x <> t) by set_solver. assert (x <> e) by set_solver. split.
    + exists rx. lookups. split; [done|]. rewrite Hx. by destruct l.
    + apply IH; [done..|set_solver|done|done].
Qed.

Section Retire.
Context (s : Sched) (q : Queues) (Hinv : inv s q).

Lemma ended_not_flagged t r : threads s !! t = Some r -> current_state r = Terminated -> in_ready_queue r = false.
Proof.
  intros Hr Hst. destruct (in_ready_queue r) eqn:Hf; [|done]. destruct (ready_in _ _ _ _ _ (inv_ready _ _ Hinv) t r Hr Hf) as ((_ & _ & Hst') & _). congruence.
Qed.

Lemma inv_set_retired m hd tl l :
  keeps unqueued (threads s) m -> keeps in_ready_queue (threads s) m ->
  (forall t r, threads s !! t = Some r -> in_ready_queue r = true -> m !! t = Some r) ->
  retired_rep m hd tl l -> inv (set_retired m hd tl s) (with_retired l q).
Proof.
  intros Hk Hkf Hf Hrep. eapply (inv_relink s q); try done; sched_cbn.
  - by apply bare_unqueued.
  - eapply ready_frame_out; [done| |apply Hinv]. intros t r' Hr' Hfl. destruct (keeps_back _ _ _ _ _ Hkf Hr') as (r & Hr & E).
    assert (m !! t = Some r) as Hm by (apply Hf; [done|congruence]). change (m !! t = Some r') in Hr'. congruence.
  - eapply sleep_frame; [by apply sleep_unqueued|apply Hinv].
  - intros i ri Ei Hri. destruct (inv_idle _ _ Hinv) as (i' & r' & Ei' & Hr' & Hfl & _). simplify_eq.
    destruct (keeps_lookup _ _ _ _ _ Hkf Hr') as (r2 & Hr2 & E). change (m !! i = Some ri) in Hri.
    rewrite Hr2 in Hri. injection Hri as <-. by rewrite E.
Qed.

Lemma inv_retire t r :
  threads s !! t = Some r -> current_state r = Terminated -> t ∉ retired q ->
  exists m hd tl, let s' := set_retired m hd tl s in
    queue_retired_thread (Some t) s = Ok s' /\ inv s' (with_retired (retired q ++ [t]) q) /\ keeps unqueued (threads s) m.
Proof.
  intros Hr Hst Ht. pose proof (inv_retired _ _ Hinv) as [R1 R2 [R3 R3'] R4]. pose proof (ended_not_flagged t r Hr Hst) as Hf.
  assert (exists m hd, queue_retired_thread (Some t) s = Ok (set_retired m hd (Some t) s) /\ hd = first (retired q ++ [t]) None /\
            chain m (retired q ++ [t]) /\ keeps unqueued (threads s) m /\ keeps in_ready_queue (threads s) m /\
            (forall u ru, threads s !! u = Some ru -> in_ready_queue ru = true -> m !! u = Some ru)) as (m & hd & Hrun & Hhd & Hc & Hk & Hkf & Hfl).
  { unfold queue_retired_thread. rewrite (thread_set_ok t r), bind_ok by done. sched_cbn. rewrite R3'.
    assert (forall u ru, threads s !! u = Some ru -> in_ready_queue ru = true -> <[t:=with_ready_next None r]> (threads s) !! u = Some ru) as H1.
    { intros u ru Hu Hfu. rewrite lookup_insert_ne; [done|]. intros ->. congruence. }
    destruct (list_snoc_cases (retired q)) as [E|(l & e & E)]; rewrite E in *.
    - cbn [final]. rewrite bind_ok. eexists _, (Some t). split; [done|]. cbn [app]. split_and!; try done.
      + cbn [chain]. split; [|done]. exists (with_ready_next None r). by lookups.
      + by eapply keeps_insert.
      + by eapply keeps_insert.
    - rewrite final_snoc. assert (e <> t) as Het by set_solver. assert (e ∈ l ++ [e]) as Hein by set_solver.
      assert (exists re, threads s !! e = Some re) as [re He].
      { clear -R2. induction l as [|x l IH]; cbn [app chain] in R2; [destruct R2 as [(re & He & _) _]; eauto|destruct R2 as [_ R2]; eauto]. }
      rewrite (thread_set_ok e re), bind_ok by (sched_cbn; by lookups). sched_cbn.
      exists (<[e := with_ready_next (Some t) re]> (<[t := with_ready_next None r]> (threads s))), (g_retired_thread_head s). split; [by destruct s|].
      pose proof (ended_not_flagged e re He (R4 e re Hein He)) as Hfe. split_and!.
      + rewrite R3. by destruct l.
      + rewrite <- app_assoc. by apply chain_snoc.
      + transitivity (<[t := with_ready_next None r]> (threads s)); [by eapply keeps_insert|]. eapply keeps_insert; [by lookups|done].
      + transitivity (<[t := with_ready_next None r]> (threads s)); [by eapply keeps_insert|]. eapply keeps_insert; [by lookups|done].
      + intros u ru Hu Hfu. rewrite lookup_insert_ne; [by apply H1|]. intros ->. congruence. }
  exists m, hd, (Some t). cbn zeta. split_and!; [done| |done]. apply inv_set_retired; try done. split.
  - apply list.NoDup_app. split_and!; [done| |apply NoDup_singleton]. by intros u Hu ->%list_elem_of_singleton.
  - done.
  - by rewrite Hhd, final_snoc.
  - intros u ru Hu Hru. destruct (keeps_back _ _ _ _ _ Hk Hru) as (r0 & Hr0 & E). destruct (unqueued_fields _ _ E) as [-> _].
    apply elem_of_app in Hu as [Hu|Hu%list_elem_of_singleton]; [by eapply R4|congruence].
Qed.

(** The first ended thread leaves the list before it is destroyed. *)
Lemma inv_unretire t l r :
  retired q = t :: l -> threads s !! t = Some r ->
  let m := <[t := with_ready_next None r]> (threads s) in
  ready_next r = first l None /\ current_state r = Terminated /\
  inv (set_retired m (ready_next r) (if bool_decide (ready_next r = None) then None else g_retired_thread_tail s) s) (with_retired l q).
Proof.
  intros E Hr m. pose proof (inv_retired _ _ Hinv) as [R1 R2 [R3 R3'] R4]. rewrite E in *. destruct R2 as [(r' & Hr' & Hn) Hc]. simplify_eq.
  apply list.NoDup_cons in R1 as [Htl Hnd]. assert (current_state r = Terminated) as Hst by (eapply R4; [apply list_elem_of_here|done]).
  split_and!; [done..|]. apply inv_set_retired.
  - by eapply keeps_insert.
  - by eapply keeps_insert.
  - intros u ru Hu Hf. unfold m. rewrite lookup_insert_ne; [done|]. intros ->. pose proof (ended_not_flagged u r Hr Hst). congruence.
  - split; [done| | |].
    + eapply chain_ext; [|done]. intros u ru Hu Hru. exists ru. unfold m. rewrite lookup_insert_ne; [done|]. by intros ->.
    + split; [done|]. rewrite Hn. destruct l as [|x l]; [done|]. rewrite bool_decide_eq_false_2 by done. rewrite R3'. done.
    + intros u ru Hu. unfold m. rewrite lookup_insert_ne by (by intros ->). apply R4. by apply list_elem_of_further.
Qed.
End Retire.
