(* ===== verification/SchedLogic.v ===== *)
(** Reasoning about scheduler programs.

    [post C r Q]: the program [r] is defined, its loops end, each call it makes is
    one the contract [C] allows in the state it is made in, and whatever the callee
    does within the contract, the program ends with [Q]. *)
From stdpp Require Import base list gmap.
From Stdlib Require Import ZArith Lia Sorted.
From S2P Require Import Prelude KernelText DList KernelIface SchedState Scheduler SchedQueues SchedOps SchedInv.

Local Open Scope Z_scope.

Record Contract : Type := mkContract {
  ask : OutCall -> Sched -> Prop;
  reply : forall c, Sched -> answer c -> Sched -> Prop
}.

Fixpoint post {A : Type} (C : Contract) (r : Run A) (Q : A -> Sched -> Prop) : Prop :=
  match r with
  | Done a s => Q a s
  | Undefined | Unfinished => False
  | Call c s resume => ask C c s /\ forall x s', reply C c s x s' -> post C (resume x s') Q
  end.

Lemma post_mono {A} C (r : Run A) (P Q : A -> Sched -> Prop) : (forall a s, P a s -> Q a s) -> post C r P -> post C r Q.
Proof. intros HPQ. induction r as [a s| | |c s resume IH]; cbn [post]; [by apply HPQ|done..|]. intros [Ha Hr]. split; [done|]. intros x s' Hx. by apply IH, Hr. Qed.

Lemma post_bind {A B} C (r : Run A) (k : A -> Sched -> Run B) Q : post C r (fun a s => post C (k a s) Q) -> post C (run_bind r k) Q.
Proof. induction r as [a s| | |c s resume IH]; cbn [post run_bind]; [done..|]. intros [Ha Hr]. split; [done|]. intros x s' Hx. by apply IH, Hr. Qed.

Lemma post_seq {A B} C (m : M A) (k : A -> M B) s P Q :
  post C (m s) P -> (forall a s', P a s' -> post C (k a s') Q) -> post C (seq m k s) Q.
Proof. intros Hm Hk. unfold seq. apply post_bind. by eapply post_mono. Qed.

(** A run under a handler that keeps the contract. *)
Lemma post_handled {A} C (h : Handler) (r : Run A) Q :
  (forall c s, ask C c s -> exists x s', h c s = Ok (x, s') /\ reply C c s x s') ->
  post C r Q -> exists a s, handled h r = Ok (a, s) /\ Q a s.
Proof.
  intros Hh. induction r as [a s| | |c s resume IH]; cbn [post handled]; [by eauto|done..|]. intros [Ha Hr].
  destruct (Hh c s Ha) as (x & s' & -> & Hx). rewrite bind_ok. by apply IH, Hr.
Qed.

(** ** Steps without calls *)
Lemma bind_assoc_run {A B D} (r : Run A) (f : A -> Sched -> Run B) (g : B -> Sched -> Run D) Q C :
  post C (run_bind r (fun a s => run_bind (f a s) g)) Q -> post C (run_bind (run_bind r f) g) Q.
Proof.
  induction r as [a s| | |c s resume IH]; cbn [post run_bind]; [done..|]. intros [Ha Hr]. split; [done|]. intros x s' Hx. by apply IH, Hr.
Qed.

Lemma seq_assoc {A B D} C (m : M A) (f : A -> M B) (g : B -> M D) s Q :
  post C (seq m (fun a => seq (f a) g) s) Q -> post C (seq (seq m f) g s) Q.
Proof. unfold seq. apply bind_assoc_run. Qed.

Lemma seq_ret {A B} (a : A) (k : A -> M B) s : seq (ret a) k s = k a s.
Proof. done. Qed.
Lemma seq_read {A B} (f : Sched -> A) (k : A -> M B) s : seq (read_var f) k s = k (f s) s.
Proof. done. Qed.
Lemma seq_set {B} f (k : unit -> M B) s : seq (set_var f) k s = k tt (f s).
Proof. done. Qed.
Lemma seq_mask {B} (k : bool -> M B) s : seq save_and_disable_interrupts k s = k (interrupts s) (with_interrupts false s).
Proof. done. Qed.
Lemma seq_unmask {B} b (k : unit -> M B) s : seq (restore_interrupts b) k s = k tt (with_interrupts b s).
Proof. done. Qed.
Lemma seq_exec {A B} f (k : A -> M B) s a s' : f s = Ok (a, s') -> seq (exec f) k s = k a s'.
Proof. intros Hf. unfold seq, exec. by rewrite Hf. Qed.
Lemma seq_change {B} f (k : unit -> M B) s s' : f s = Ok s' -> seq (change f) k s = k tt s'.
Proof. intros Hf. unfold change. apply seq_exec. by rewrite Hf. Qed.
Lemma seq_thread {B} t r (k : Thread -> M B) s : threads s !! t = Some r -> seq (thread_at t) k s = k r s.
Proof. intros Hr. apply seq_exec. by rewrite (thread_get_ok _ _ _ Hr). Qed.
Lemma seq_process {B} p x (k : Process -> M B) s : processes s !! p = Some x -> seq (process_at p) k s = k x s.
Proof. intros Hx. apply seq_exec. unfold get_process. by rewrite Hx. Qed.
Lemma seq_update {B} t r f (k : unit -> M B) s :
  threads s !! t = Some r -> seq (update t f) k s = k tt (with_threads (<[t := f r]> (threads s)) s).
Proof. intros Hr. apply seq_change. by apply thread_set_ok. Qed.

Lemma post_call {B} C c (k : answer c -> M B) s Q :
  ask C c s -> (forall x s', reply C c s x s' -> post C (k x s') Q) -> post C (seq (call c) k s) Q.
Proof. intros Ha Hk. unfold seq, call. cbn. split; [done|]. intros x s' Hx. by apply Hk. Qed.

Lemma post_ret {A} C (a : A) s Q : Q a s -> post C (ret a s) Q.
Proof. done. Qed.

(** A loop whose measure goes down on every turn that does not leave. *)
Lemma post_loop {A} C (step : M (option A)) (I : Sched -> Prop) (measure : Sched -> nat -> Prop) Q fuel n s :
  (forall s n, I s -> measure s n -> post C (step s) (fun r s' => match r with
      | Some a => Q a s'
      | None => I s' /\ exists n', (n' < n)%nat /\ measure s' n' end)) ->
  I s -> measure s n -> (n < fuel)%nat -> post C (loop fuel step s) Q.
Proof.
  intros Hstep. revert n s. induction fuel as [|fuel IH]; intros n s HI Hm Hn; [lia|]. cbn [loop].
  eapply post_seq; [by eapply Hstep|]. intros [a|] s' Hr; [by apply post_ret|]. destruct Hr as (HI' & n' & Hn' & Hm').
  eapply IH; [done|done|lia].
Qed.

(** ** What a call may change

    [still]: all of a thread but the links of the lists it is on and the two words
    about the object it waits for, which the broker clears when it wakes a thread. *)
Definition unregistered (r : Thread) : Thread :=
  with_process_prev None (with_process_next None (with_t_prev None (with_t_next None r))).
Definition still (r : Thread) : Thread := with_wait None 0 (unregistered (bare r)).
Definition steady (r r' : Thread) : Prop := still r' = still r /\ in_ready_queue r' = in_ready_queue r.

(** A thread that was made ready: the state, the wake-up tick and the remaining
    quantum differ as well. *)
Definition asleep (r : Thread) : Thread := with_quantum_ticks_remaining 0 (with_wake_tick 0 (with_current_state Ready (still r))).
Definition woken (r r' : Thread) : Prop := asleep r' = asleep r /\ current_state r' = Ready /\ in_ready_queue r' = true.

Definition thread_grows (s : Sched) (t : Z) (r r' : Thread) : Prop :=
  steady r r' \/ (current_state r = Waiting /\ g_current_thread s <> Some t /\ woken r r').

(** While a call is out, threads that wait may be made ready (at the end of their
    level), and ended threads (but not the current one) and those in [gone] may be
    destroyed; nothing else of the scheduler changes. *)
Record grows (gone : list Z) (s : Sched) (q : Queues) (s' : Sched) (q' : Queues) : Prop := {
  gr_current : g_current_thread s' = g_current_thread s;
  gr_idle : g_idle_thread s' = g_idle_thread s;
  gr_tick : g_tick_count s' = g_tick_count s;
  gr_interrupts : interrupts s' = interrupts s;
  gr_space : current_address_space s' = current_address_space s;
  gr_retired : exists dead, retired q = dead ++ retired q' /\ forall c, g_current_thread s = Some c -> c ∉ dead;
  gr_thread t r : threads s !! t = Some r -> t ∉ gone -> (t ∈ retired q -> t ∈ retired q') ->
    exists r', threads s' !! t = Some r' /\ thread_grows s t r r';
  gr_dead t : t ∈ gone \/ (t ∈ retired q /\ t ∉ retired q') -> threads s' !! t = None;
  gr_old t : is_Some (threads s' !! t) -> is_Some (threads s !! t);
  gr_ready p l : ready q !! p = Some l -> exists new, ready q' !! p = Some (l ++ new);
  gr_sleep : sublist (sleepers q') (sleepers q);
  gr_left t : t ∈ sleepers q -> t ∈ sleepers q' \/ exists r', threads s' !! t = Some r' /\ current_state r' = Ready /\ in_ready_queue r' = true;
  gr_process p x' : processes s' !! p = Some x' ->
    exists x, processes s !! p = Some x /\ p_id x' = p_id x /\ process_address_space x' = process_address_space x
}.

Definition evolves (gone : list Z) (s s' : Sched) : Prop :=
  forall q, inv s q -> exists q', inv s' q' /\ grows gone s q s' q'.

(** What the scheduler may ask of the rest of the kernel, and what it may get. *)
Definition kernel : Contract := {|
  ask c s := exists q, inv s q /\
    match c with
    | Report (PublishThreadEvent _ t _ _ _) => terminated (thread_name t)
    | Report (UnsubscribeProcess _) => False
    | DestroyThread t => t ∉ retired q /\ g_current_thread s <> Some t /\ exists r, threads s !! t = Some r /\ current_state r = Terminated
    | _ => True
    end;
  reply c :=
    match c with
    | Report _ => fun s _ s' => evolves [] s s'
    | PollDevices => fun s _ s' => evolves [] s s'
    | DestroyThread t => fun s _ s' => evolves [t] s s'
    | PollTimer => fun s x s' => s' = s /\ 0 <= x < 2 ^ 32
    end
|}.

(** ** Composing changes *)
#[export] Instance steady_preorder : PreOrder steady.
Proof. split; [by split|]. intros r1 r2 r3 [E1 F1] [E2 F2]. split; congruence. Qed.

Lemma still_fields r r' : still r' = still r ->
  current_state r' = current_state r /\ current_priority r' = current_priority r /\ t_parent r' = t_parent r /\
  wake_tick r' = wake_tick r /\ t_id r' = t_id r /\ t_context r' = t_context r /\ quantum_ticks_remaining r' = quantum_ticks_remaining r /\
  t_name r' = t_name r.
Proof.
  intros E. split_and!; [exact (f_equal current_state E)|exact (f_equal current_priority E)|exact (f_equal t_parent E)|
    exact (f_equal wake_tick E)|exact (f_equal t_id E)|exact (f_equal t_context E)|exact (f_equal quantum_ticks_remaining E)|exact (f_equal t_name E)].
Qed.

Lemma woken_fields r r' : woken r r' ->
  current_state r' = Ready /\ in_ready_queue r' = true /\ current_priority r' = current_priority r /\ t_parent r' = t_parent r /\
  t_id r' = t_id r /\ t_context r' = t_context r.
Proof.
  intros (E & H1 & H2). split_and!; [done|done|exact (f_equal current_priority E)|exact (f_equal t_parent E)|exact (f_equal t_id E)|exact (f_equal t_context E)].
Qed.

Lemma asleep_still r r' : still r' = still r -> asleep r' = asleep r.
Proof. unfold asleep. by intros ->. Qed.

Lemma steady_bare r r' : bare r' = bare r -> in_ready_queue r' = in_ready_queue r -> steady r r'.
Proof. intros E Hf. split; [|done]. exact (f_equal (fun r => with_wait None 0 (unregistered r)) E). Qed.

Lemma thread_grows_trans s s' t r1 r2 r3 :
  g_current_thread s' = g_current_thread s -> thread_grows s t r1 r2 -> thread_grows s' t r2 r3 -> thread_grows s t r1 r3.
Proof.
  intros Hc [H12|(W12 & C12 & K12)] [H23|(W23 & C23 & K23)].
  - left. by etransitivity.
  - right. destruct H12 as [E _]. destruct (still_fields _ _ E) as (Est & _). split_and!; [congruence|congruence|].
    destruct K23 as (E2 & H1 & H2). split_and!; [|done|done]. rewrite E2. by apply asleep_still.
  - right. split_and!; [done|done|]. destruct H23 as [E Hf], K12 as (E2 & H1 & H2). destruct (still_fields _ _ E) as (Est & _).
    split_and!; [|congruence|congruence]. rewrite <- E2. by apply asleep_still.
  - destruct K12 as (_ & H1 & _). congruence.
Qed.

Lemma grows_refl s q : grows [] s q s q.
Proof.
  split; try done.
  - by exists []; split; [|intros c _; apply not_elem_of_nil].
  - intros t r Hr _ _. exists r. split; [done|]. by left.
  - intros t [Ht%not_elem_of_nil|[]]; done.
  - intros p l Hl. exists []. by rewrite app_nil_r.
  - by left.
  - eauto.
Qed.

Lemma thread_grows_ready s t r r' : thread_grows s t r r' -> current_state r = Ready -> in_ready_queue r = true ->
  current_state r' = Ready /\ in_ready_queue r' = true.
Proof.
  intros [[E Hf]|(W & _)] Hst Hq; [|congruence]. destruct (still_fields _ _ E) as (Est & _). split; congruence.
Qed.

Lemma grows_trans gone s1 q1 s2 q2 s3 q3 :
  inv s2 q2 -> grows gone s1 q1 s2 q2 -> grows [] s2 q2 s3 q3 -> grows gone s1 q1 s3 q3.
Proof.
  intros Hinv2 [A1 A2 A3 A4 A5 (d1 & A6 & A6') A7 AD A8 A9 A10 AL A11] [B1 B2 B3 B4 B5 (d2 & B6 & B6') B7 BD B8 B9 B10 BL B11]. split; try congruence.
  - exists (d1 ++ d2). rewrite A6, B6, app_assoc. split; [done|]. intros c Hc [Hd|Hd]%elem_of_app; [by apply (A6' c Hc)|].
    apply (B6' c); [congruence|done].
  - intros t r Hr Hg Hre. destruct (A7 t r Hr Hg) as (r2 & Hr2 & G12).
    { intros Hin. rewrite B6. apply elem_of_app. right. by apply Hre. }
    destruct (B7 t r2 Hr2) as (r3 & Hr3 & G23); [apply not_elem_of_nil| |].
    { intros Hin. apply Hre. rewrite A6. apply elem_of_app. by right. }
    exists r3. split; [done|]. by eapply thread_grows_trans.
  - intros t Ht. destruct (decide (t ∈ retired q2)) as [H2|H2].
    + destruct Ht as [Ht|[H1 H3]]; [|apply BD; by right]. destruct (threads s3 !! t) eqn:E3; [|done].
      destruct (B8 t ltac:(eauto)) as [r2 Hr2]. rewrite AD in Hr2 by (by left). done.
    + destruct (threads s3 !! t) eqn:E3; [|done]. destruct (B8 t ltac:(eauto)) as [r2 Hr2]. rewrite AD in Hr2; [done|]. tauto.
  - intros t Ht. by apply A8, B8.
  - intros p l Hl. destruct (A9 p l Hl) as (n1 & Hn1). destruct (B9 p _ Hn1) as (n2 & Hn2). exists (n1 ++ n2). by rewrite app_assoc.
  - by etransitivity.
  - intros t Ht. destruct (AL t Ht) as [Ht2|(r2 & Hr2 & S2 & F2)]; [by apply BL|]. right.
    destruct (B7 t r2 Hr2) as (r3 & Hr3 & G); [apply not_elem_of_nil| |].
    { intros Hin. pose proof (re_ended _ _ _ _ (inv_retired _ _ Hinv2) t r2 Hin Hr2). congruence. }
    exists r3. split; [done|]. by eapply thread_grows_ready.
  - intros p x3 H3. destruct (B11 p x3 H3) as (x2 & H2 & E1 & E2). destruct (A11 p x2 H2) as (x & H1 & E3 & E4).
    exists x. split_and!; congruence.
Qed.
