(* ===== verification/SchedProofs.v ===== *)
(** The parts of the scheduler that make threads ready and destroy ended ones. *)
From stdpp Require Import base list gmap.
From Stdlib Require Import ZArith Lia Sorted.
From S2P Require Import Prelude KernelText DList KernelIface SchedState Scheduler SchedQueues SchedOps SchedInv SchedLogic.

Local Open Scope Z_scope.

(** ** Reports *)
Lemma publish_post {B} ty t a b (k : unit -> M B) s q r Q :
  inv s q -> threads s !! t = Some r ->
  (forall s' q', inv s' q' -> grows [] s q s' q' -> post kernel (k tt s') Q) ->
  post kernel (seq (publish_thread_event ty t a b) k s) Q.
Proof.
  intros Hinv Hr Hk. unfold publish_thread_event. apply seq_assoc. rewrite (seq_thread t r) by done.
  pose proof (inv_threads _ _ Hinv t r Hr) as [_ _ Hname _ Hpar].
  assert (forall pid, post kernel (seq (call (Report (PublishThreadEvent ty (KernelIface.mkThread (t_id r) (t_name r) pid (current_priority r)) a b StatusOK))) k s) Q) as Hcall.
  { intros pid. apply (post_call kernel (Report _)); [by exists q|]. intros x s' Hs'. destruct (Hs' q Hinv) as (q' & Hinv' & Hg). destruct x. by apply (Hk s' q'). }
  destruct (t_parent r) as [p|].
  - destruct (Hpar p eq_refl) as (x & Hx & _). apply seq_assoc, seq_assoc. rewrite (seq_process p x), seq_ret by done. apply Hcall.
  - apply seq_assoc. rewrite seq_ret. apply Hcall.
Qed.

(** ** Destroying ended threads *)
Lemma chain_in m l t : chain m l -> t ∈ l -> is_Some (m !! t).
Proof.
  induction l as [|x l IH]; intros Hc Ht; [by apply not_elem_of_nil in Ht|]. destruct Hc as [(r & Hr & _) Hc].
  apply elem_of_cons in Ht as [Ht|Ht]; [subst; eauto|by apply IH].
Qed.

Lemma retired_bound s q : inv s q -> (length (retired q) <= size (threads s))%nat.
Proof.
  intros Hinv. destruct (inv_retired _ _ Hinv) as [R1 R2 _ _]. rewrite <- (size_list_to_set (C := gset Z) _ R1), <- size_dom.
  apply subseteq_size. intros t Ht%elem_of_list_to_set. apply elem_of_dom. by eapply chain_in.
Qed.

(** No ended thread is left that may be destroyed now. *)
Definition reaped (s : Sched) : Prop := g_retired_thread_head s = None \/ g_retired_thread_head s = g_current_thread s.

Lemma reap_grows s q t l r s1 s2 q2 :
  inv s q -> retired q = t :: l -> g_current_thread s <> Some t -> threads s !! t = Some r ->
  s1 = set_retired (<[t := with_ready_next None r]> (threads s)) (ready_next r) (if bool_decide (ready_next r = None) then None else g_retired_thread_tail s) s ->
  grows [t] s1 (with_retired l q) s2 q2 -> grows [] s q s2 q2.
Proof.
  intros Hinv E Hct Hr -> [G1 G2 G3 G4 G5 (dead & G6 & G6') G7 GD G8 G9 G10 GL G11]. cbn in *. split; try done.
  - exists (t :: dead). rewrite E, G6. split; [done|]. intros c Hc [->|Hd]%elem_of_cons; [done|]. by apply (G6' c Hc).
  - intros u ru Hu _ Hre. assert (u <> t) as Hne.
    { intros ->. destruct (inv_retired _ _ Hinv) as [Hnd _ _ _]. rewrite E in Hnd, Hre. apply list.NoDup_cons in Hnd as [Hnt _].
      apply Hnt. rewrite G6. apply elem_of_app. right. apply Hre, list_elem_of_here. }
    destruct (G7 u ru) as (r' & Hr' & Hg); [by lookups|by intros ?%list_elem_of_singleton| |].
    { intros Hin. apply Hre. rewrite E. by apply list_elem_of_further. }
    exists r'. split; [done|]. exact Hg.
  - intros u [Hu%not_elem_of_nil|[Hu Hn]]; [done|]. apply GD. rewrite E in Hu. apply elem_of_cons in Hu as [Hu|Hu]; [left; by apply list_elem_of_singleton|by right].
  - intros u Hu. apply G8 in Hu. destruct (decide (u = t)) as [->|Hne]; [eauto|by rewrite lookup_insert_ne in Hu].
Qed.

Lemma reap_post s q :
  inv s q -> post kernel (reap_retired_threads s) (fun _ s' => exists q', inv s' q' /\ grows [] s q s' q' /\ reaped s' /\ (retired q = [] -> s' = s /\ q' = q)).
Proof.
  intros Hinv. unfold reap_retired_threads.
  eapply (post_loop kernel reap_step (fun _ => True) (fun s' n => exists q', inv s' q' /\ grows [] s q s' q' /\ n = length (retired q') /\ (retired q = [] -> s' = s /\ q' = q)));
    [|done|exists q; split_and!; [done|apply grows_refl|done|done]|pose proof (retired_bound s q Hinv); lia].
  clear Hinv. intros s1 n _ (q1 & Hinv & Hg & -> & Hnone). unfold reap_step. rewrite seq_read, seq_read.
  destruct (inv_retired _ _ Hinv) as [R1 R2 [R3 R3'] R4]. rewrite R3. destruct (retired q1) as [|t l] eqn:E; cbn [first].
  { exists q1. split_and!; [done|done|by left|done]. }
  case_bool_decide as Hc.
  { exists q1. split_and!; [done|done|right; by rewrite R3, Hc|done]. }
  destruct R2 as [(r & Hr & Hn) R2]. rewrite (seq_thread t r) by done. rewrite seq_set.
  destruct (inv_unretire s1 q1 Hinv t l r E Hr) as (_ & Hst & Hinv1). set (s2 := set_retired _ _ _ s1) in Hinv1.
  assert (threads s2 !! t = Some (with_ready_next None r)) as Hr2 by (unfold s2, set_retired; sched_cbn; by lookups).
  match goal with |- post _ _ ?Q => assert (post kernel ((let! _ := call (DestroyThread t) in ret None) s2) Q) as Hcall end.
  { apply (post_call kernel (DestroyThread t)).
    - exists (with_retired l q1). split; [done|]. split_and!; [by apply list.NoDup_cons in R1 as [? _]|unfold s2, set_retired; sched_cbn; congruence|]. eauto.
    - intros x s3 Hs3. destruct (Hs3 _ Hinv1) as (q3 & Hinv3 & Hg3). apply post_ret. split; [done|].
      exists (length (retired q3)). destruct (gr_retired _ _ _ _ _ Hg3) as (dead & Ed & _). cbn in Ed. split.
      + cbn [length]. rewrite Ed, length_app. lia.
      + exists q3. split_and!; [done| |done|].
        * eapply grows_trans; [exact Hinv|done|]. eapply (reap_grows s1 q1 t l r s2); [done|done|congruence|done|done|done].
        * intros Hq. destruct (gr_retired _ _ _ _ _ Hg) as (dead0 & Ed0 & _). rewrite Hq, E in Ed0. by destruct dead0. }
  destruct (bool_decide (ready_next r = None)) eqn:Hb.
  - rewrite seq_set. rewrite (seq_update t r) by done. exact Hcall.
  - rewrite seq_ret. rewrite (seq_update t r) by done. sched_cbn.
    match goal with |- post _ (seq _ _ ?x) _ => replace x with s2 by (unfold s2; clear; by destruct s1) end. exact Hcall.
Qed.

(** ** Making a thread ready *)
Record readied (t : Z) (at_tail : bool) (s : Sched) (q : Queues) (s1 : Sched) (q1 : Queues) : Prop := {
  rd_inv : inv s1 q1;
  rd_queues : exists r l, threads s !! t = Some r /\ ready q !! level_of r = Some l /\
    q1 = with_ready (<[level_of r := pushed at_tail t l]> (ready q)) (with_sleepers (filter (fun u => u <> t) (sleepers q)) q);
  rd_thread : exists r r1, threads s !! t = Some r /\ threads s1 !! t = Some r1 /\ woken r r1;
  rd_others u r : u <> t -> threads s !! u = Some r -> exists r1, threads s1 !! u = Some r1 /\ steady r r1;
  rd_old u : is_Some (threads s1 !! u) -> is_Some (threads s !! u);
  rd_vars : g_current_thread s1 = g_current_thread s /\ g_idle_thread s1 = g_idle_thread s /\ g_tick_count s1 = g_tick_count s /\
    interrupts s1 = interrupts s /\ current_address_space s1 = current_address_space s;
  rd_process p x1 : processes s1 !! p = Some x1 ->
    exists x, processes s !! p = Some x /\ p_id x1 = p_id x /\ process_address_space x1 = process_address_space x
}.

Lemma same_links_refl r : same_links r r.
Proof. by split. Qed.
#[export] Hint Resolve same_links_refl : sched.

(** Changes to one thread that the queues do not see, with its process. *)
Lemma inv_plain_update s q t r f :
  inv s q -> threads s !! t = Some r -> same_links r (f r) -> current_state (f r) = current_state r -> current_priority (f r) = current_priority r ->
  t_parent (f r) = t_parent r -> t_name (f r) = t_name r ->
  (t ∈ sleepers q -> wake_tick (f r) = wake_tick r) -> (wake_tick r = 0 -> wake_tick (f r) = 0) ->
  0 <= quantum_ticks (f r) < 2 ^ 32 -> 0 <= quantum_ticks_remaining (f r) < 2 ^ 32 ->
  inv (with_threads (<[t := f r]> (threads s)) s) q.
Proof.
  intros Hinv Hr Hl Hst Hp Hpar Hname Hw Hw0 Hq1 Hq2. apply (inv_update s q Hinv t r (f r)); try done.
  - intros Hf. destruct (ready_in _ _ _ _ _ (inv_ready _ _ Hinv) t r Hr Hf) as ((_ & _ & E) & _). split; [done|congruence].
  - intros Ht. split; [|by apply Hw]. rewrite Hst. by apply (sl_waiting _ _ _ _ (inv_sleep _ _ Hinv) t r).
  - intros Ht. rewrite Hst. by apply (re_ended _ _ _ _ (inv_retired _ _ Hinv) t r).
  - intros Hi. rewrite Hst. destruct (inv_idle _ _ Hinv) as (i & ri & Hi' & Hri & _ & H). simplify_eq. done.
  - destruct (inv_threads _ _ Hinv t r Hr) as [K1 K2 K3 K4 K5]. split; [by rewrite Hp|done|by rewrite Hname| |by rewrite Hpar].
    rewrite Hst. intros Hn. by apply Hw0, K4.
Qed.

Lemma full_quantum_range r : 0 <= quantum_ticks r < 2 ^ 32 -> 0 < full_quantum r < 2 ^ 32.
Proof. intros H. unfold full_quantum, ThreadDefaultQuantumTicks. destruct (Z.eqb_spec (quantum_ticks r) 0); lia. Qed.

Lemma inv_reset_quantum s q t r :
  inv s q -> threads s !! t = Some r ->
  let s' := with_threads (<[t := with_quantum_ticks_remaining (full_quantum r) r]> (threads s)) s in
  reset_quantum (Some t) s = Ok s' /\ inv s' q.
Proof.
  intros Hinv Hr. cbn zeta. split; [by apply (thread_set_ok t r (fun r => with_quantum_ticks_remaining (full_quantum r) r))|].
  pose proof (inv_threads _ _ Hinv t r Hr) as [_ [K1 K2] _ _ _]. pose proof (full_quantum_range r K1).
  apply (inv_plain_update s q t r (fun r => with_quantum_ticks_remaining (full_quantum r) r)); try done. cbn. lia.
Qed.

Lemma revive_ok s q t r :
  inv s q -> threads s !! t = Some r ->
  exists ps, revive_process (t_parent r) s = Ok (with_processes ps s) /\ inv (with_processes ps s) q /\
    forall p x1, ps !! p = Some x1 -> exists x, processes s !! p = Some x /\ p_id x1 = p_id x /\ process_address_space x1 = process_address_space x.
Proof.
  intros Hinv Hr. assert (with_processes (processes s) s = s) as Eid by (by destruct s). destruct (t_parent r) as [p|] eqn:Hpar; cbn [revive_process].
  - destruct (ok_parent _ _ _ (inv_threads _ _ Hinv t r Hr) p Hpar) as (x & Hx & _). unfold get_process, set_process. rewrite Hx, bind_ok.
    case_bool_decide; cbn [orb]; [exists (processes s); rewrite Eid; split_and!; eauto|].
    case_bool_decide; [exists (processes s); rewrite Eid; split_and!; eauto|]. unfold get_process. rewrite Hx, bind_ok.
    eexists. split; [done|]. split; [by apply inv_process_state|]. intros p' x1. destruct (decide (p' = p)) as [->|Hne].
    + lookups. intros [= <-]. eauto.
    + rewrite lookup_insert_ne by done. eauto.
  - exists (processes s). rewrite Eid. split_and!; eauto.
Qed.

Lemma filter_not_in (t : Z) (l : list Z) : t ∉ filter (fun u => u <> t) l.
Proof. intros [Ht _]%list_elem_of_filter. by apply Ht. Qed.

(** The thread [t] is as in [s] but for what [asleep] leaves out, and off the
    queues; all other threads are as in [s]. *)
Record preparing (t : Z) (s : Sched) (q : Queues) (r : Thread) (s1 : Sched) (r1 : Thread) : Prop := {
  pr_inv : inv s1 (with_sleepers (filter (fun u => u <> t) (sleepers q)) q);
  pr_thread : threads s1 !! t = Some r1 /\ asleep r1 = asleep r /\ in_ready_queue r1 = false;
  pr_others u ru : u <> t -> threads s !! u = Some ru -> exists r1, threads s1 !! u = Some r1 /\ steady ru r1;
  pr_old u : is_Some (threads s1 !! u) -> is_Some (threads s !! u);
  pr_vars : g_current_thread s1 = g_current_thread s /\ g_idle_thread s1 = g_idle_thread s /\ g_tick_count s1 = g_tick_count s /\
    interrupts s1 = interrupts s /\ current_address_space s1 = current_address_space s;
  pr_process p x1 : processes s1 !! p = Some x1 ->
    exists x, processes s !! p = Some x /\ p_id x1 = p_id x /\ process_address_space x1 = process_address_space x
}.

Lemma steady_unslept r r' : unslept r' = unslept r -> steady r r'.
Proof. intros E. apply steady_bare; [exact (f_equal unqueued E)|exact (f_equal in_ready_queue E)]. Qed.

Lemma preparing_start t s q r :
  inv s q -> threads s !! t = Some r -> in_ready_queue r = false ->
  exists s1, sleep_queue_remove (Some t) s = Ok s1 /\ preparing t s q r s1 (unslept r).
Proof.
  intros Hinv Hr Hf. destruct (inv_sleep_remove s q Hinv t r Hr) as (m & hd & tl & Hrun & Hinv1 & Hk & Hmt).
  exists (set_sleep m hd tl s). split; [done|]. split; try done.
  - intros u ru _ Hu. destruct (keeps_lookup _ _ _ _ _ Hk Hu) as (r1 & Hr1 & E). exists r1. split; [done|]. by apply steady_unslept.
  - intros u Hu. by apply (keeps_is_Some _ _ _ u Hk).
  - eauto.
Qed.

(** One more field of the thread. *)
Lemma preparing_update t s q r s1 r1 f :
  preparing t s q r s1 r1 -> same_links r1 (f r1) -> asleep (f r1) = asleep r1 -> in_ready_queue (f r1) = false ->
  0 <= quantum_ticks_remaining (f r1) < 2 ^ 32 -> (current_state (f r1) <> Waiting -> wake_tick (f r1) = 0) ->
  t ∉ retired q -> g_idle_thread s <> Some t ->
  preparing t s q r (with_threads (<[t := f r1]> (threads s1)) s1) (f r1).
Proof.
  intros [P1 (P2 & P2' & P2'') P3 P4 P5 P6] Hl Ha Hf Hqr Hw Hre Hi. split; sched_cbn; try done.
  - apply (inv_update s1 _ P1 t r1 (f r1)); [done|done|congruence| | | |].
    + intros Ht. exfalso. by apply (filter_not_in t (sleepers q)).
    + done.
    + intros Hi'. destruct P5 as (_ & E & _). congruence.
    + destruct (inv_threads _ _ P1 t r1 P2) as [K1 K2 K3 K4 K5]. split; [| | |done|].
      * pose proof (f_equal current_priority Ha) as E. cbn in E. by rewrite E.
      * pose proof (f_equal quantum_ticks Ha) as E. cbn in E. rewrite E. split; [apply K2|done].
      * pose proof (f_equal t_name Ha) as E. cbn in E. by rewrite E.
      * intros p. pose proof (f_equal t_parent Ha) as E. cbn in E. rewrite E. apply K5.
  - lookups. split_and!; [done|congruence|done].
  - intros u ru Hne Hu. rewrite lookup_insert_ne by done. by apply P3.
  - intros u Hu. apply P4. destruct (decide (u = t)) as [->|]; [eauto|by rewrite lookup_insert_ne in Hu].
Qed.

Lemma preparing_push t at_tail s q r s1 r1 :
  preparing t s q r s1 r1 -> threads s !! t = Some r -> current_state r1 = Ready -> g_idle_thread s <> Some t ->
  exists s2 q2, ready_queue_push (Some t) at_tail s1 = Ok (StatusOK, s2) /\ readied t at_tail s q s2 q2.
Proof.
  intros [P1 (P2 & P2' & P2'') P3 P4 P5 P6] Hr Hst Hi.
  assert (level_of r1 = level_of r) as Hlv by (unfold level_of; f_equal; exact (f_equal current_priority P2')).
  destruct (level_list _ _ P1 t r1 P2) as [l Hl]. cbn [ready with_sleepers] in Hl.
  destruct (inv_push s1 _ P1 t r1 at_tail l P2 Hst P2'') as (m & queues & bitmap & count & Hrun & Hinv2 & Hk); [destruct P5 as (_ & -> & _); done|done|].
  eexists _, _. split; [done|]. split; [done| | | | |done|done].
  - exists r, l. rewrite Hlv in *. split_and!; done.
  - destruct (keeps_lookup _ _ _ _ _ Hk P2) as (r2 & Hr2 & E). exists r, r2. split_and!; [done|done|]. split_and!.
    + rewrite <- P2'. exact (f_equal (fun r => asleep r) E).
    + rewrite <- Hst. exact (f_equal current_state E).
    + assert (t ∈ pushed at_tail t l) as Htl by (apply pushed_in; by left).
      assert (level_of r1 < length (ready q))%nat as Hlt by (by apply lookup_lt_Some in Hl).
      destruct (rr_member _ _ _ _ _ (inv_ready _ _ Hinv2) (level_of r1) (pushed at_tail t l) t) as (r3 & Hr3 & Hq3 & _); [cbn; by apply list_lookup_insert_eq|done|].
      change (m !! t = Some r3) in Hr3. congruence.
  - intros u ru Hne Hu. destruct (P3 u ru Hne Hu) as (r2 & Hr2 & S2). destruct (keeps_lookup _ _ _ _ _ Hk Hr2) as (r3 & Hr3 & E).
    exists r3. split; [done|]. etransitivity; [done|]. apply steady_bare; [exact (f_equal unslept E)|].
    eapply (flag_other _ _ _ _ _ _ _ _ _ _ _ _ u r2 r3 (inv_ready _ _ P1) (inv_ready _ _ Hinv2)); [done| |done|done]. rewrite pushed_in. naive_solver.
  - intros u Hu. apply P4. by apply (keeps_is_Some _ _ _ u Hk).
Qed.

Lemma preparing_revive t s q r s1 r1 :
  preparing t s q r s1 r1 -> exists s2, revive_process (t_parent r1) s1 = Ok s2 /\ preparing t s q r s2 r1.
Proof.
  intros [P1 (P2 & P2' & P2'') P3 P4 P5 P6]. destruct (revive_ok s1 _ t r1 P1 P2) as (ps & Hrun & Hinv & Hps).
  exists (with_processes ps s1). split; [done|]. split; sched_cbn; try done. intros p x1 Hx1.
  destruct (Hps p x1 Hx1) as (x & Hx & E1 & E2). destruct (P6 p x Hx) as (x0 & Hx0 & E3 & E4). exists x0. split_and!; congruence.
Qed.

(** A thread made ready outranks the running one: a switch is due. *)
Definition due (s : Sched) (t : Z) : Prop :=
  forall r c rc, threads s !! t = Some r -> g_current_thread s = Some c -> threads s !! c = Some rc ->
    g_idle_thread s = Some c \/ current_priority r < current_priority rc -> g_reschedule_pending s = true.

Lemma grows_live s q s' q' t r :
  inv s q -> grows [] s q s' q' -> threads s !! t = Some r -> current_state r <> Terminated ->
  exists r', threads s' !! t = Some r' /\ thread_grows s t r r'.
Proof.
  intros Hinv Hg Hr Hst. apply (gr_thread _ _ _ _ _ Hg t r Hr); [apply not_elem_of_nil|].
  intros Hin. pose proof (re_ended _ _ _ _ (inv_retired _ _ Hinv) t r Hin Hr). congruence.
Qed.

Lemma grows_current s q s' q' c r :
  inv s q -> grows [] s q s' q' -> g_current_thread s = Some c -> threads s !! c = Some r ->
  exists r', threads s' !! c = Some r' /\ steady r r'.
Proof.
  intros Hinv Hg Hc Hr. destruct (gr_thread _ _ _ _ _ Hg c r Hr) as (r' & Hr' & G); [apply not_elem_of_nil| |].
  - intros Hin. destruct (gr_retired _ _ _ _ _ Hg) as (dead & E & Hd). rewrite E in Hin.
    apply elem_of_app in Hin as [Hin|]; [|done]. by apply (Hd c Hc) in Hin.
  - exists r'. split; [done|]. destruct G as [|(_ & Hne & _)]; [done|]. congruence.
Qed.

Lemma pending_post {A} s q t r (x : A) Q :
  inv s q -> threads s !! t = Some r ->
  (forall s', s' = s \/ s' = with_g_reschedule_pending true s -> due s' t -> Q x s') ->
  post kernel
    ((let! current := read_var g_current_thread in
      let! idle := read_var g_idle_thread in
      (if bool_decide (current = idle) then set_var (with_g_reschedule_pending true) else ret tt) ;;;
      match current with
      | None => ret x
      | Some c =>
          if bool_decide (current = idle) then ret x else
          let! r := thread_at t in
          let! rc := thread_at c in
          (if current_priority r <? current_priority rc then set_var (with_g_reschedule_pending true) else ret tt) ;;;
          ret x
      end) s) Q.
Proof.
  intros Hinv Hr HQ. rewrite seq_read, seq_read. destruct (inv_current _ _ Hinv) as (c & Hc & rc & Hrc). rewrite Hc.
  case_bool_decide as Hi.
  - rewrite seq_set. apply post_ret, HQ; [by right|]. done.
  - rewrite seq_ret. rewrite (seq_thread t r), (seq_thread c rc) by done. destruct (Z.ltb_spec (current_priority r) (current_priority rc)).
    + rewrite seq_set. apply post_ret, HQ; [by right|]. done.
    + rewrite seq_ret. apply post_ret, HQ; [by left|]. intros r' c' rc' Hr' Hc' Hrc' [E|E]; [congruence|]. simplify_eq. lia.
Qed.

Lemma transition_post s q t r at_tail :
  inv s q -> threads s !! t = Some r -> current_state r <> Terminated -> in_ready_queue r = false -> g_idle_thread s <> Some t ->
  post kernel (transition_thread_to_ready (Some t) at_tail s) (fun st s' =>
    st = StatusOK /\ due s' t /\ exists s1 q1 q', readied t at_tail s q s1 q1 /\ inv s' q' /\ grows [] s1 q1 s' q').
Proof.
  intros Hinv Hr Hst Hf Hi. cbn [transition_thread_to_ready]. rewrite (seq_thread t r) by done.
  rewrite bool_decide_eq_false_2 by done. rewrite Hf.
  assert (t ∉ retired q) as Hre.
  { intros Hin. pose proof (re_ended _ _ _ _ (inv_retired _ _ Hinv) t r Hin Hr). congruence. }
  destruct (preparing_start t s q r Hinv Hr Hf) as (s1 & Hrun1 & P1). rewrite (seq_change _ _ _ _ Hrun1).
  pose proof (pr_thread _ _ _ _ _ _ P1) as (T1 & _ & _). rewrite (seq_update t (unslept r)) by done.
  pose proof (inv_threads _ _ (pr_inv _ _ _ _ _ _ P1) t _ T1) as [_ [K1 K2] _ _ _].
  pose proof (preparing_update t s q r s1 (unslept r) (fun r => with_wake_tick 0 (with_wait None (wait_reason_code WaitNone) r)) P1
    ltac:(by split) eq_refl ltac:(done) K2 ltac:(done) Hre Hi) as P2. cbn beta in P2.
  destruct (preparing_revive _ _ _ _ _ _ P2) as (s3 & Hrun3 & P3). cbn in Hrun3. rewrite (seq_change _ _ _ _ Hrun3). cbn zeta.
  pose proof (pr_thread _ _ _ _ _ _ P3) as (T3 & _ & _). erewrite seq_update by done.
  eapply (preparing_update _ _ _ _ _ _ (with_current_state Ready)) in P3; [|by split|done|done|done|done|done|done].
  set (r4 := with_current_state Ready _) in *. set (s4 := with_threads _ s3) in *.
  assert (current_state r4 = Ready) as S4 by done. clearbody r4 s4.
  pose proof (pr_thread _ _ _ _ _ _ P3) as (T4 & _ & F4). rewrite (seq_thread t r4) by done.
  assert (exists s5 r5, (forall B (k : unit -> M B), seq (if quantum_ticks_remaining r4 =? 0 then change (reset_quantum (Some t)) else ret tt) k s4 = k tt s5) /\
            preparing t s q r s5 r5 /\ current_state r5 = Ready) as (s5 & r5 & Hrun5 & P5 & S5).
  { destruct (quantum_ticks_remaining r4 =? 0).
    - destruct (inv_reset_quantum s4 _ t r4 (pr_inv _ _ _ _ _ _ P3) T4) as [Hrun _]. eexists _, (with_quantum_ticks_remaining (full_quantum r4) r4). split; [|split].
      + intros B k. apply (seq_change _ _ _ _ Hrun).
      + pose proof (inv_threads _ _ (pr_inv _ _ _ _ _ _ P3) t _ T4) as [_ [K3 K4] _ K5 _]. pose proof (full_quantum_range r4 K3).
        apply (preparing_update _ _ _ _ _ _ (fun r => with_quantum_ticks_remaining (full_quantum r) r) P3); [by split|done|done|cbn; lia|done|done|done].
      + done.
    - exists s4, r4. split_and!; done. }
  rewrite Hrun5. destruct (preparing_push t at_tail s q r s5 r5 P5 Hr S5 Hi) as (s6 & q6 & Hrun6 & R6).
  rewrite (seq_exec _ _ _ _ _ Hrun6). rewrite bool_decide_eq_true_2 by done. cbn [negb andb].
  destruct (rd_thread _ _ _ _ _ _ R6) as (r0 & r6 & Hr0 & Hr6 & W6). destruct (woken_fields _ _ W6) as (S6 & F6 & _).
  assert (forall s' q', inv s' q' -> grows [] s6 q6 s' q' -> forall r', threads s' !! t = Some r' -> forall s'', s'' = s' \/ s'' = with_g_reschedule_pending true s' -> due s'' t ->
    StatusOK = StatusOK /\ due s'' t /\ exists s1 q1 q', readied t at_tail s q s1 q1 /\ inv s'' q' /\ grows [] s1 q1 s'' q') as Hfin.
  { intros s' q' Hinv' Hg' r' Hr' s'' [-> | ->] Hd; split_and!; try done; exists s6, q6, q'; split_and!; try done.
    - by apply inv_pending.
    - by destruct Hg'. }
  assert (forall s' q', inv s' q' -> grows [] s6 q6 s' q' -> exists r', threads s' !! t = Some r') as Hlive.
  { intros s' q' Hinv' Hg'. destruct (grows_live _ _ _ _ t r6 (rd_inv _ _ _ _ _ _ R6) Hg' Hr6) as (r' & Hr' & _); [congruence|]. eauto. }
  destruct (bool_decide (current_state r = Ready)); cbn [negb].
  - rewrite seq_ret. eapply pending_post; [exact (rd_inv _ _ _ _ _ _ R6)|exact Hr6|].
    intros s'' Hs'' Hd. eapply (Hfin s6 q6); [exact (rd_inv _ _ _ _ _ _ R6)|apply grows_refl|exact Hr6|done|done].
  - eapply (publish_post _ _ _ _ _ s6 q6); [exact (rd_inv _ _ _ _ _ _ R6)|exact Hr6|]. intros s7 q7 Hinv7 Hg7.
    destruct (Hlive _ _ Hinv7 Hg7) as (r7 & Hr7). eapply pending_post; [done|done|]. intros s'' Hs'' Hd. by eapply (Hfin s7 q7).
Qed.

(** Waking a thread that waits is one of the changes a call may make. *)
Lemma readied_grows t s q s1 q1 r :
  inv s q -> readied t true s q s1 q1 -> threads s !! t = Some r -> current_state r = Waiting -> g_current_thread s <> Some t ->
  grows [] s q s1 q1.
Proof.
  intros Hinv [R1 (r0 & l & Hr0 & Hl & ->) (r2 & r1 & Hr2 & Hr1 & W) R4 R5 (V1 & V2 & V3 & V4 & V5) R7] Hr Hst Hc.
  rewrite Hr in Hr0, Hr2. injection Hr0 as <-. injection Hr2 as <-. split; try done; cbn.
  - exists []. split; [done|]. intros c _. apply not_elem_of_nil.
  - intros u ru Hu _ _. destruct (decide (u = t)) as [->|Hne].
    + simplify_eq. exists r1. split; [done|]. by right.
    + destruct (R4 u ru Hne Hu) as (r3 & Hr3 & S3). exists r3. split; [done|]. by left.
  - intros u [Hu%not_elem_of_nil|[]]; done.
  - intros p k Hk. destruct (decide (p = level_of r)) as [->|Hne].
    + exists [t]. rewrite list_lookup_insert_eq by (by apply lookup_lt_Some in Hk). simplify_eq. done.
    + exists []. rewrite list_lookup_insert_ne, app_nil_r by done. done.
  - apply sublist_filter.
  - intros u Hu. destruct (decide (u = t)) as [->|Hne].
    + right. exists r1. destruct (woken_fields _ _ W) as (H1 & H2 & _). done.
    + left. apply list_elem_of_filter. done.
Qed.

(** A thread that waits, has been taken off the sleep queue, and is made ready. *)
Lemma wake_post s q t r :
  inv s q -> threads s !! t = Some r -> current_state r = Waiting -> g_current_thread s <> Some t ->
  post kernel (transition_thread_to_ready (Some t) true s) (fun st s' =>
    st = StatusOK /\ due s' t /\ exists q', inv s' q' /\ grows [] s q s' q' /\ t ∉ sleepers q' /\
      exists r', threads s' !! t = Some r' /\ woken r r').
Proof.
  intros Hinv Hr Hst Hc. assert (in_ready_queue r = false) as Hf.
  { destruct (in_ready_queue r) eqn:Hf; [|done]. destruct (ready_in _ _ _ _ _ (inv_ready _ _ Hinv) t r Hr Hf) as ((_ & _ & E) & _). congruence. }
  assert (g_idle_thread s <> Some t) as Hi.
  { intros Hi. destruct (inv_idle _ _ Hinv) as (i & ri & Hi' & Hri & _ & [E|E]); simplify_eq; congruence. }
  eapply post_mono; [|apply (transition_post s q t r true); [done|done|congruence|done|done]].
  intros st s' (-> & Hd & s1 & q1 & q' & R & Hinv' & Hg). split_and!; [done|done|]. pose proof (readied_grows t s q s1 q1 r Hinv R Hr Hst Hc) as Hg1.
  exists q'. split_and!; [done|eapply grows_trans; [exact (rd_inv _ _ _ _ _ _ R)|done|done]| |].
  - intros Ht. pose proof (elem_of_sublist _ _ t Ht (gr_sleep _ _ _ _ _ Hg)) as Hin.
    destruct (rd_queues _ _ _ _ _ _ R) as (r0 & l & _ & _ & ->). cbn in Hin. by apply filter_not_in in Hin.
  - destruct (rd_thread _ _ _ _ _ _ R) as (r0 & r1 & Hr0 & Hr1 & W). rewrite Hr in Hr0. injection Hr0 as <-. destruct (woken_fields _ _ W) as (S1 & F1 & _).
    destruct (grows_live _ _ _ _ t r1 (rd_inv _ _ _ _ _ _ R) Hg Hr1) as (r' & Hr' & G); [congruence|]. exists r'. split; [done|].
    destruct G as [[E Fl]|(E & _)]; [|congruence]. destruct W as (W1 & W2 & W3). destruct (still_fields _ _ E) as (Est & _).
    split_and!; [|congruence|congruence]. rewrite <- W1. by apply asleep_still.
Qed.

Lemma unslept_grows t s q s1 q1 s2 q2 r r2 :
  threads s !! t = Some r -> current_state r = Waiting -> g_current_thread s <> Some t ->
  keeps unslept (threads s) (threads s1) ->
  g_current_thread s1 = g_current_thread s -> g_idle_thread s1 = g_idle_thread s -> g_tick_count s1 = g_tick_count s ->
  interrupts s1 = interrupts s -> current_address_space s1 = current_address_space s -> processes s1 = processes s ->
  q1 = with_sleepers (filter (fun u => u <> t) (sleepers q)) q ->
  grows [] s1 q1 s2 q2 -> threads s2 !! t = Some r2 -> woken r r2 -> grows [] s q s2 q2.
Proof.
  intros Hr Hst Hc Hk E1 E2 E3 E4 E5 E6 -> [G1 G2 G3 G4 G5 (dead & G6 & G6') G7 GD G8 G9 G10 GL G11] Hr2 W. cbn in *. split; try congruence.
  - exists dead. split; [done|]. intros c Hcc. apply G6'. congruence.
  - intros u ru Hu Hg Hre. destruct (decide (u = t)) as [->|Hne].
    + rewrite Hr in Hu. injection Hu as <-. exists r2. split; [done|]. by right.
    + destruct (keeps_lookup _ _ _ _ _ Hk Hu) as (r1 & Hr1 & E). destruct (G7 u r1 Hr1 Hg Hre) as (r3 & Hr3 & G). exists r3. split; [done|].
      eapply (thread_grows_trans s s1); [done|left; by apply steady_unslept|done].
  - done.
  - intros u Hu. apply (keeps_is_Some _ _ _ u Hk). by apply G8.
  - done.
  - etransitivity; [done|apply sublist_filter].
  - intros u Hu. destruct (decide (u = t)) as [->|Hne].
    + right. exists r2. destruct (woken_fields _ _ W) as (? & ? & _). done.
    + apply GL, list_elem_of_filter. done.
  - intros p x Hx. rewrite <- E6. by apply G11.
Qed.

Lemma sleepers_bound s q : inv s q -> (length (sleepers q) <= size (threads s))%nat.
Proof. intros Hinv. apply (dlist_length (H := sleep_links) _ _ _ _ (sl_list _ _ _ _ (inv_sleep _ _ Hinv))). Qed.

Definition awake (s : Sched) : Prop := forall c r, g_current_thread s = Some c -> threads s !! c = Some r -> current_state r <> Waiting.

Lemma grows_awake s q s' q' : inv s q -> grows [] s q s' q' -> awake s -> awake s'.
Proof.
  intros Hinv Hg Ha c r' Hc Hr'. rewrite (gr_current _ _ _ _ _ Hg) in Hc. destruct (inv_current _ _ Hinv) as (c' & Hc' & r & Hr). simplify_eq.
  destruct (grows_current _ _ _ _ c r Hinv Hg Hc Hr) as (r2 & Hr2 & E & _). destruct (still_fields _ _ E) as (Est & _).
  rewrite Hr2 in Hr'. injection Hr' as <-. rewrite Est. by eapply Ha.
Qed.

(** All sleepers whose tick has come are made ready. *)
Lemma wake_expired_post s q :
  inv s q -> awake s ->
  post kernel (wake_expired_sleepers s) (fun _ s' => exists q', inv s' q' /\ grows [] s q s' q' /\
    Forall (fun t => g_tick_count s < wake_of (threads s') t) (sleepers q')).
Proof.
  intros Hinv Hawake. unfold wake_expired_sleepers.
  eapply (post_loop kernel wake_step (fun _ => True) (fun s' n => exists q', inv s' q' /\ grows [] s q s' q' /\ awake s' /\ n = length (sleepers q')));
    [|done|exists q; split_and!; [done|apply grows_refl|done|done]|pose proof (sleepers_bound s q Hinv); lia].
  clear Hinv Hawake. intros s1 n _ (q1 & Hinv & Hg & Hawake & ->). unfold wake_step. rewrite seq_read.
  pose proof (inv_sleep _ _ Hinv) as Hsl. destruct (sl_list _ _ _ _ Hsl) as (Hnd & Hs & Hhd & _). rewrite Hhd.
  destruct (sleepers q1) as [|t l] eqn:El; cbn [first].
  { exists q1. split_and!; [done|done|]. rewrite El. constructor. }
  destruct Hs as [(r & Hr & _) _]. rewrite (seq_thread t r) by done. rewrite seq_read. rewrite (gr_tick _ _ _ _ _ Hg).
  assert (wake_of (threads s1) t = wake_tick r) as Hw by (unfold wake_of; by rewrite Hr).
  destruct (Z.leb_spec (wake_tick r) (g_tick_count s)) as [Hle|Hgt]; cbn [negb].
  2:{ exists q1. split_and!; [done|done|]. rewrite El. pose proof (sl_sorted _ _ _ _ Hsl) as Hso. cbn [map] in Hso.
      apply StronglySorted_inv in Hso as [_ Hso]. constructor; [lia|]. rewrite Forall_map in Hso. eapply Forall_impl; [exact Hso|].
      intros u Hu. cbn in Hu. lia. }
  assert (current_state r = Waiting) as Hst by (eapply (sl_waiting _ _ _ _ Hsl); [apply list_elem_of_here|done]).
  assert (g_current_thread s1 <> Some t) as Hc by (intros Hc; by apply (Hawake t r)).
  destruct (inv_sleep_remove s1 q1 Hinv t r Hr) as (m & hd & tl & Hrun & Hinv2 & Hk & Hmt). set (s2 := set_sleep m hd tl s1) in *.
  rewrite (seq_change _ _ _ _ Hrun). rewrite (seq_thread t (unslept r)) by done. rewrite bool_decide_eq_true_2 by done.
  apply seq_assoc. eapply post_seq; [apply (wake_post s2 (with_sleepers (filter (fun u => u <> t) (sleepers q1)) q1) t (unslept r)); [exact Hinv2|exact Hmt|exact Hst|exact Hc]|]. cbn beta. intros st s3 (_ & _ & q3 & Hinv3 & Hg3 & Hout & r3 & Hr3 & W3).
  rewrite seq_ret. apply post_ret. split; [done|].
  assert (woken r r3) as W by (destruct W3 as (W1 & W2 & W4); split_and!; [exact W1|done|done]).
  assert (grows [] s1 q1 s3 q3) as Hg13 by (eapply (unslept_grows t s1 q1 s2 _ s3 q3 r r3); try done).
  exists (length (sleepers q3)). split.
  - pose proof (sublist_length _ _ (gr_sleep _ _ _ _ _ Hg3)) as Hlen. cbn [sleepers with_sleepers] in Hlen. rewrite El in Hlen.
    rewrite filter_cons_False in Hlen by tauto. pose proof (sublist_length _ _ (sublist_filter (fun u => u <> t) l)). cbn [length]. lia.
  - exists q3. split_and!; [done|eapply grows_trans; [exact Hinv|exact Hg|exact Hg13]|by eapply (grows_awake s1 q1)|done].
Qed.
