(* ===== verification/SchedSwitch.v ===== *)
(** Giving the processor away, and what holds when a call ends. *)
From stdpp Require Import base list gmap.
From Stdlib Require Import ZArith Lia Sorted.
From S2P Require Import Prelude KernelText DList KernelIface SchedState Scheduler SchedQueues SchedOps SchedInv SchedLogic SchedProofs.

Local Open Scope Z_scope.

(** A thread that does not run can be resumed from its context: in user code from a
    saved frame, in user code at its first instruction, or inside the kernel.  Only
    a thread that has ended waits in [exit_current_thread]. *)
Definition saved_ok (r : Thread) : Prop :=
  let c := t_context r in
  if Z.testbit (processor_state c) 62 then True
  else if Z.testbit (processor_state c) 63 then exists pc, program_counter c = UserCode pc
  else match program_counter c with
       | UserCode _ => False
       | KernelCode (AfterSwitch InExit _) => current_state r = Terminated
       | KernelCode _ => True
       end.

Definition contexts (s : Sched) : Prop := forall t r, threads s !! t = Some r -> g_current_thread s <> Some t -> saved_ok r.

(** Only the current thread is marked as running (or the idle thread, which keeps
    the mark when it is left). *)
Definition one_running (s : Sched) : Prop :=
  forall t r, threads s !! t = Some r -> current_state r = Running -> g_current_thread s = Some t \/ g_idle_thread s = Some t.

(** The active address space is that of the current thread's process. *)
Definition lockstep (s : Sched) : Prop :=
  forall c r p x, g_current_thread s = Some c -> threads s !! c = Some r -> t_parent r = Some p -> processes s !! p = Some x ->
    current_address_space s = process_address_space x.

(** The state between calls. *)
Record settled (s : Sched) (q : Queues) : Prop := {
  se_inv : inv s q;
  se_running : exists c r, g_current_thread s = Some c /\ threads s !! c = Some r /\ current_state r = Running;
  se_one : one_running s;
  se_contexts : contexts s;
  se_lockstep : lockstep s
}.

(** The current thread is inside the kernel: its context is not one of the two the
    switch would leave to user code with. *)
Definition in_kernel (s : Sched) : Prop :=
  forall c r, g_current_thread s = Some c -> threads s !! c = Some r ->
    Z.testbit (processor_state (t_context r)) 62 = false /\ Z.testbit (processor_state (t_context r)) 63 = false.

(** ** Calls between *)
Lemma saved_grows s t r r' : thread_grows s t r r' -> saved_ok r -> saved_ok r'.
Proof.
  unfold saved_ok. intros [[E _]|(Hst & _ & W)].
  - destruct (still_fields _ _ E) as (-> & _ & _ & _ & _ & -> & _). done.
  - destruct (woken_fields _ _ W) as (-> & _ & _ & _ & _ & ->). destruct (Z.testbit _ 62); [done|]. destruct (Z.testbit _ 63); [done|].
    destruct (program_counter _) as [|[|[] ?]]; try done. congruence.
Qed.

Lemma grows_back s q s' q' t r' :
  grows [] s q s' q' -> threads s' !! t = Some r' ->
  exists r, threads s !! t = Some r /\ thread_grows s t r r'.
Proof.
  intros Hg Hr'. destruct (gr_old _ _ _ _ _ Hg t ltac:(eauto)) as [r Hr].
  destruct (decide (t ∈ retired q /\ t ∉ retired q')) as [[H1 H2]|Hn].
  - rewrite (gr_dead _ _ _ _ _ Hg t) in Hr' by tauto. done.
  - destruct (gr_thread _ _ _ _ _ Hg t r Hr) as (r2 & Hr2 & G); [apply not_elem_of_nil|destruct (decide (t ∈ retired q')); tauto|].
    rewrite Hr2 in Hr'. injection Hr' as <-. eauto.
Qed.

Lemma grows_contexts s q s' q' : grows [] s q s' q' -> contexts s -> contexts s'.
Proof.
  intros Hg Hc t r' Hr' Hne. destruct (grows_back s q s' q' t r' Hg Hr') as (r & Hr & G). eapply saved_grows; [exact G|].
  apply (Hc t r Hr). by rewrite <- (gr_current _ _ _ _ _ Hg).
Qed.

Lemma thread_grows_running s t r r' : thread_grows s t r r' -> current_state r' = Running -> current_state r = Running.
Proof.
  intros [[E _]|(_ & _ & W)] Hst; [destruct (still_fields _ _ E) as (<- & _); done|]. destruct (woken_fields _ _ W) as (E & _). congruence.
Qed.

Lemma grows_one s q s' q' : grows [] s q s' q' -> one_running s -> one_running s'.
Proof.
  intros Hg Ho t r' Hr' Hst. destruct (grows_back s q s' q' t r' Hg Hr') as (r & Hr & G).
  rewrite (gr_current _ _ _ _ _ Hg), (gr_idle _ _ _ _ _ Hg). apply (Ho t r Hr). by eapply thread_grows_running.
Qed.

Lemma grows_lockstep s q s' q' : inv s q -> grows [] s q s' q' -> lockstep s -> lockstep s'.
Proof.
  intros Hinv Hg Hl c r' p x' Hc Hr' Hp Hx'. rewrite (gr_current _ _ _ _ _ Hg) in Hc. destruct (grows_back s q s' q' c r' Hg Hr') as (r & Hr & G).
  destruct (grows_current _ _ _ _ c r Hinv Hg Hc Hr) as (r2 & Hr2 & E & _). rewrite Hr2 in Hr'. injection Hr' as <-.
  destruct (gr_process _ _ _ _ _ Hg p x' Hx') as (x & Hx & _ & ->). rewrite (gr_space _ _ _ _ _ Hg). apply (Hl c r p x Hc Hr); [|done].
  destruct (still_fields _ _ E) as (_ & _ & <- & _). done.
Qed.

Lemma grows_settled s q s' q' : settled s q -> inv s' q' -> grows [] s q s' q' -> settled s' q'.
Proof.
  intros [S1 (c & r & Hc & Hr & Hst) S3 S4 S5] Hinv' Hg. split; [done| |exact (grows_one _ _ _ _ Hg S3)|exact (grows_contexts _ _ _ _ Hg S4)|exact (grows_lockstep _ _ _ _ S1 Hg S5)].
  destruct (grows_current _ _ _ _ c r S1 Hg Hc Hr) as (r' & Hr' & E & _). exists c, r'. rewrite (gr_current _ _ _ _ _ Hg).
  split_and!; [done|done|]. destruct (still_fields _ _ E) as (-> & _). done.
Qed.

Lemma grows_in_kernel s q s' q' : inv s q -> grows [] s q s' q' -> in_kernel s -> in_kernel s'.
Proof.
  intros Hinv Hg Hk c r' Hc Hr'. rewrite (gr_current _ _ _ _ _ Hg) in Hc. destruct (grows_back s q s' q' c r' Hg Hr') as (r & Hr & _).
  destruct (grows_current _ _ _ _ c r Hinv Hg Hc Hr) as (r2 & Hr2 & E & _). rewrite Hr2 in Hr'. injection Hr' as <-.
  destruct (still_fields _ _ E) as (_ & _ & _ & _ & _ & -> & _). by apply (Hk c r).
Qed.

Lemma sleeper_thread s q t : inv s q -> t ∈ sleepers q -> is_Some (threads s !! t).
Proof. intros Hinv Ht. destruct (sl_list _ _ _ _ (inv_sleep _ _ Hinv)) as (_ & Hs & _). by eapply (seg_in (H := sleep_links)). Qed.

Lemma grows_wake s q s' q' t : inv s q -> inv s' q' -> grows [] s q s' q' -> t ∈ sleepers q' -> t ∈ sleepers q /\ wake_of (threads s') t = wake_of (threads s) t.
Proof.
  intros Hinv Hinv' Hg Ht. pose proof (elem_of_sublist _ _ t Ht (gr_sleep _ _ _ _ _ Hg)) as Ht0. split; [done|].
  destruct (sleeper_thread _ _ t Hinv' Ht) as [r' Hr'].
  destruct (grows_back s q s' q' t r' Hg Hr') as (r & Hr & G). unfold wake_of. rewrite Hr, Hr'.
  pose proof (sl_waiting _ _ _ _ (inv_sleep _ _ Hinv') t r' Ht Hr') as Hst.
  destruct G as [[E _]|(_ & _ & W)]; [destruct (still_fields _ _ E) as (_ & _ & _ & Ew & _); exact Ew|]. destruct (woken_fields _ _ W) as (E & _). congruence.
Qed.

(** [t] will be woken at tick [w], or is already on the queue of its level. *)
Definition waits (t w : Z) (s : Sched) (q : Queues) : Prop :=
  (t ∈ sleepers q /\ wake_of (threads s) t = w) \/ exists p l, ready q !! p = Some l /\ t ∈ l.

Lemma grows_waits t w s q s' q' : inv s q -> inv s' q' -> grows [] s q s' q' -> waits t w s q -> waits t w s' q'.
Proof.
  intros Hinv Hinv' Hg [[Ht Hw]|(p & l & Hl & Ht)].
  - destruct (gr_left _ _ _ _ _ Hg t Ht) as [Ht'|(r' & Hr' & _ & Hf)].
    + left. destruct (grows_wake s q s' q' t Hinv Hinv' Hg Ht') as [_ ->]. done.
    + right. by eapply (rr_flag _ _ _ _ _ (inv_ready _ _ Hinv')).
  - right. destruct (gr_ready _ _ _ _ _ Hg p l Hl) as (new & Hl'). exists p, (l ++ new). split; [done|]. apply elem_of_app. by left.
Qed.

(** Changes that leave a thread its wake-up tick and a place on a queue. *)
Lemma waits_frame t w s q s' q' :
  wake_of (threads s') t = wake_of (threads s) t -> (t ∈ sleepers q -> t ∈ sleepers q') ->
  (forall p l, ready q !! p = Some l -> t ∈ l -> exists p' l', ready q' !! p' = Some l' /\ t ∈ l') ->
  waits t w s q -> waits t w s' q'.
Proof.
  intros Hw Hs Hr [[Ht E]|(p & l & Hl & Ht)]; [left|right; by eapply Hr]. split; [by apply Hs|by rewrite Hw].
Qed.

Lemma wake_keeps m m' t : keeps bare m m' -> wake_of m' t = wake_of m t.
Proof.
  intros Hk. unfold wake_of. destruct (m !! t) as [r|] eqn:Hr.
  - destruct (keeps_lookup _ _ _ _ _ Hk Hr) as (r' & -> & E). exact (f_equal wake_tick E).
  - destruct (m' !! t) as [r'|] eqn:Hr'; [|done]. destruct (keeps_back _ _ _ _ _ Hk Hr') as (r & Hr2 & _). congruence.
Qed.

(** A change of one other thread. *)
Lemma waits_others c t w s q s' :
  (forall u, u <> c -> threads s' !! u = threads s !! u) -> t <> c -> waits t w s q -> waits t w s' q.
Proof. intros Ho Hne. apply waits_frame; [|done|eauto]. unfold wake_of. by rewrite Ho. Qed.

Lemma waits_relinked t w s q s' : keeps bare (threads s) (threads s') -> waits t w s q -> waits t w s' q.
Proof. intros Hk. apply waits_frame; [by apply wake_keeps|done|eauto]. Qed.

(** A thread joins the level [p]. *)
Lemma waits_pushed t w s q s' p l at_tail u :
  keeps bare (threads s) (threads s') -> ready q !! p = Some l -> waits t w s q ->
  waits t w s' (with_ready (<[p := pushed at_tail u l]> (ready q)) q).
Proof.
  intros Hk Hl. apply waits_frame; [by apply wake_keeps|done|]. intros p' l' Hl' Ht. cbn [ready with_ready].
  destruct (decide (p' = p)) as [->|Hne].
  - rewrite Hl in Hl'. injection Hl' as <-. exists p, (pushed at_tail u l). rewrite list_lookup_insert_eq by (by apply lookup_lt_Some in Hl).
    split; [done|]. apply pushed_in. by right.
  - exists p', l'. by rewrite list_lookup_insert_ne.
Qed.

(** ** Binding the next thread *)
Record bound (n : Z) (s : Sched) (q : Queues) (s' : Sched) (q' : Queues) : Prop := {
  bo_inv : inv s' q';
  bo_current : g_current_thread s' = Some n /\ g_idle_thread s' = g_idle_thread s /\ g_tick_count s' = g_tick_count s /\ interrupts s' = interrupts s;
  bo_next : exists r r', threads s !! n = Some r /\ threads s' !! n = Some r' /\ current_state r' = Running /\ t_context r' = t_context r;
  bo_lockstep : lockstep s';
  bo_thread t r' : t <> n -> threads s' !! t = Some r' -> exists r, threads s !! t = Some r /\ thread_grows s t r r';
  bo_left c r : g_current_thread s = Some c -> c <> n -> threads s !! c = Some r -> exists r', threads s' !! c = Some r' /\ steady r r';
  bo_ready p l : ready q !! p = Some l -> exists new, ready q' !! p = Some (l ++ new);
  bo_waits t w : t <> n -> waits t w s q -> waits t w s' q'
}.

(** A thread that may be given the processor. *)
Definition eligible (s : Sched) (n : Z) (r : Thread) : Prop :=
  threads s !! n = Some r /\ in_ready_queue r = false /\ (current_state r = Ready \/ (current_state r = Running /\ g_idle_thread s = Some n)).

Lemma eligible_not_listed s q n r : inv s q -> eligible s n r -> n ∉ sleepers q /\ n ∉ retired q /\ wake_tick r = 0.
Proof.
  intros Hinv (Hr & _ & Hst). split_and!.
  - intros Hn. pose proof (sl_waiting _ _ _ _ (inv_sleep _ _ Hinv) n r Hn Hr). destruct Hst as [|[]]; congruence.
  - intros Hn. pose proof (re_ended _ _ _ _ (inv_retired _ _ Hinv) n r Hn Hr). destruct Hst as [|[]]; congruence.
  - apply (ok_wake _ _ _ (inv_threads _ _ Hinv n r Hr)). destruct Hst as [->|[-> _]]; done.
Qed.

Lemma mark_running s q n r :
  inv s q -> eligible s n r -> inv (with_threads (<[n := with_current_state Running r]> (threads s)) s) q.
Proof.
  intros Hinv He. destruct (eligible_not_listed s q n r Hinv He) as (H1 & H2 & H3). destruct He as (Hr & Hf & Hst).
  apply (inv_update s q Hinv n r (with_current_state Running r)); try done; [congruence|by right|].
  destruct (inv_threads _ _ Hinv n r Hr) as [K1 K2 K3 K4 K5]. by split.
Qed.

Lemma seq_done {A B} (m : M A) (k : A -> M B) s a s' : m s = Done a s' -> seq m k s = k a s'.
Proof. intros Hm. unfold seq. by rewrite Hm. Qed.

(** The translation tables of the next thread's process are activated. *)
Lemma space_done s q n r :
  inv s q -> threads s !! n = Some r ->
  exists ps a, (match t_parent r with
        | None => ret StatusOK
        | Some p =>
            let! x := process_at p in
            let! status := exec (fun s => Ok (switch_to (process_address_space x) s)) in
            (if bool_decide (status = StatusOK) then change (set_process p (with_p_state ProcessRunning)) else ret tt) ;;;
            ret status
        end : M Status) s = Done StatusOK (with_processes ps (with_current_address_space a s)) /\
    inv (with_processes ps (with_current_address_space a s)) q /\
    (forall p x, t_parent r = Some p -> ps !! p = Some x -> a = process_address_space x) /\
    (forall p x1, ps !! p = Some x1 -> exists x, processes s !! p = Some x /\ p_id x1 = p_id x /\ process_address_space x1 = process_address_space x).
Proof.
  intros Hinv Hr. assert (with_processes (processes s) (with_current_address_space (current_address_space s) s) = s) as Eid by (by destruct s).
  destruct (t_parent r) as [p|] eqn:Hp.
  - destruct (ok_parent _ _ _ (inv_threads _ _ Hinv n r Hr) p Hp) as (x & Hx & Hroot).
    exists (<[p := with_p_state ProcessRunning x]> (processes s)), (process_address_space x). split_and!.
    + rewrite (seq_process p x) by done. rewrite (seq_exec _ _ _ StatusOK (with_current_address_space (process_address_space x) s)); cycle 1.
      { unfold switch_to. destruct (Z.eqb_spec (page_table_root (process_address_space x)) 0); [done|].
        destruct (Z.eqb_spec (kernel_root_table s) 0) as [e|]; [by apply (inv_root _ _ Hinv) in e|]. reflexivity. }
      rewrite bool_decide_eq_true_2 by done. erewrite seq_change; [reflexivity|].
      unfold set_process, get_process. sched_cbn. rewrite Hx, bind_ok. reflexivity.
    + apply (inv_process_state (with_current_address_space (process_address_space x) s)); [by apply inv_space|done].
    + intros p' x' [= <-]. lookups. by intros [= <-].
    + intros p' x1. destruct (decide (p' = p)) as [->|Hne]; [lookups; intros [= <-]; eauto|rewrite lookup_insert_ne by done; eauto].
  - exists (processes s), (current_address_space s). rewrite Eid. split_and!; [done|done|done|eauto].
Qed.

(** The end of [bind_current_thread], from the state [s3] the report leaves. *)
Lemma bind_finish s q n r ps a s2 s3 q3 :
  inv s q -> eligible s n r -> g_current_thread s <> Some n ->
  (forall p x, t_parent r = Some p -> ps !! p = Some x -> a = process_address_space x) ->
  s2 = with_threads (<[n := with_current_state Running r]> (threads s)) (with_processes ps (with_current_address_space a s)) ->
  inv s2 q -> inv s3 q3 -> grows [] s2 q s3 q3 ->
  post kernel ((set_var (with_g_current_thread (Some n)) ;;;
      let! r := thread_at n in
      set_var (with_g_current_process (t_parent r)) ;;;
      change (reset_quantum (Some n)) ;;;
      ret StatusOK) s3) (fun st s' => st = StatusOK /\ bound n s q s' q3).
Proof.
  intros Hinv He Hcn Hps -> Hinv2 Hinv3 Hg. destruct (He) as (Hr & _ & _). set (s2 := with_threads _ _) in *.
  assert (threads s2 !! n = Some (with_current_state Running r)) as Hn2 by (unfold s2; sched_cbn; by lookups).
  destruct (grows_live s2 q s3 q3 n _ Hinv2 Hg Hn2) as (r3 & Hr3 & G3); [done|].
  destruct G3 as [[E3 F3]|(Hw & _)]; [|done]. destruct (still_fields _ _ E3) as (St3 & _ & P3 & _ & _ & X3 & _).
  rewrite seq_set. rewrite (seq_thread n r3) by done. rewrite seq_set. set (s4 := with_g_current_process _ _).
  assert (inv s4 q3) as Hinv4 by (apply inv_process, inv_set_current; [done|eauto]).
  destruct (inv_reset_quantum s4 q3 n r3 Hinv4 Hr3) as [Hrun Hinv5]. rewrite (seq_change _ _ _ _ Hrun). apply post_ret. split; [done|].
  set (r5 := with_quantum_ticks_remaining _ r3) in *. set (s5 := with_threads _ s4) in *. split; [done| | | | | | |].
  - unfold s5, s4. sched_cbn. rewrite (gr_idle _ _ _ _ _ Hg), (gr_tick _ _ _ _ _ Hg), (gr_interrupts _ _ _ _ _ Hg). done.
  - exists r, r5. unfold s5. sched_cbn. lookups. split_and!; [done|done|exact St3|exact X3].
  - intros c rc p x Hc Hrc Hp Hx. unfold s5 in Hc, Hrc, Hx. revert Hc Hrc Hx. unfold s4. sched_cbn. intros [= <-]. lookups. intros [= <-] Hx.
    destruct (gr_process _ _ _ _ _ Hg p x Hx) as (x0 & Hx0 & _ & ->). unfold s5, s4. sched_cbn. rewrite (gr_space _ _ _ _ _ Hg).
    unfold s2. sched_cbn. apply (Hps p x0); [|done]. change (t_parent r3 = Some p) in Hp. rewrite <- Hp. symmetry. exact P3.
  - intros t rt Hne Hrt. unfold s5, s4 in Hrt. revert Hrt. sched_cbn. rewrite lookup_insert_ne by done. intros Hrt.
    destruct (grows_back s2 q s3 q3 t rt Hg Hrt) as (r0 & Hr0 & G). exists r0. split; [|exact G]. revert Hr0. unfold s2. sched_cbn. by rewrite lookup_insert_ne.
  - intros c rc Hc Hne Hrc. destruct (grows_current s2 q s3 q3 c rc Hinv2 Hg Hc) as (r' & Hr' & S'); [unfold s2; sched_cbn; by rewrite lookup_insert_ne|].
    exists r'. split; [|done]. unfold s5, s4. sched_cbn. by rewrite lookup_insert_ne.
  - apply (gr_ready _ _ _ _ _ Hg).
  - intros t w Hne Hw. assert (waits t w s2 q) as Hw2.
    { destruct Hw as [[Ht <-]|]; [left|by right]. split; [done|]. unfold wake_of, s2. sched_cbn. by rewrite lookup_insert_ne. }
    destruct (grows_waits t w s2 q s3 q3 Hinv2 Hinv3 Hg Hw2) as [[Ht <-]|]; [left|by right]. split; [done|].
    unfold wake_of, s5, s4. sched_cbn. by rewrite lookup_insert_ne.
Qed.

Lemma bind_post s q n r :
  inv s q -> g_current_thread s <> Some n -> eligible s n r ->
  post kernel (bind_current_thread (Some n) s) (fun st s' => st = StatusOK /\ exists q', bound n s q s' q').
Proof.
  intros Hinv Hcn He. destruct (He) as (Hr & Hf & Hst). cbn [bind_current_thread]. rewrite (seq_thread n r) by done. cbn zeta.
  destruct (space_done s q n r Hinv Hr) as (ps & a & Hrun & Hinv1 & Hps & Hprocs). rewrite (seq_done _ _ _ _ _ Hrun). rewrite bool_decide_eq_true_2 by done. cbn [negb].
  rewrite (seq_update n r) by done. set (s1 := with_processes ps _) in *.
  pose proof (mark_running s1 q n r Hinv1 He) as Hinv2. set (s2 := with_threads _ s1) in *.
  destruct (bool_decide (current_state r = Running)); cbn [negb].
  - rewrite seq_ret. eapply post_mono; [|eapply (bind_finish s q n r ps a s2 s2 q); try done; apply grows_refl]. intros st s' [-> B]. eauto.
  - eapply (publish_post _ _ _ _ _ s2 q (with_current_state Running r)); [done|unfold s2, s1; sched_cbn; by lookups|].
    intros s3 q3 Hinv3 Hg3. eapply post_mono; [|by eapply (bind_finish s q n r ps a s2 s3 q3)]. intros st s' [-> B]. eauto.
Qed.

(** ** Resuming a thread *)
Lemma settled_interrupts s q b : settled s q -> settled (with_interrupts b s) q.
Proof. intros [S1 S2 S3 S4 S5]. by split; [apply inv_interrupts|..]. Qed.
Lemma settled_pending s q b : settled s q -> settled (with_g_reschedule_pending b s) q.
Proof. intros [S1 S2 S3 S4 S5]. by split; [apply inv_pending|..]. Qed.
#[export] Hint Resolve settled_interrupts settled_pending : sched.

(** Fields of the current thread that only its waiting and its time slice use. *)
Lemma settled_update s q c r f :
  settled s q -> g_current_thread s = Some c -> threads s !! c = Some r ->
  same_links r (f r) -> current_state (f r) = current_state r -> current_priority (f r) = current_priority r ->
  t_parent (f r) = t_parent r -> t_name (f r) = t_name r -> wake_tick (f r) = 0 ->
  0 <= quantum_ticks (f r) < 2 ^ 32 -> 0 <= quantum_ticks_remaining (f r) < 2 ^ 32 ->
  settled (with_threads (<[c := f r]> (threads s)) s) q.
Proof.
  intros [S1 (c' & r' & Hc' & Hr' & Hst) S3 S4 S5] Hc Hr Hl E1 E2 E3 E4 E5 E6 E7.
  rewrite Hc in Hc'. injection Hc' as <-. rewrite Hr in Hr'. injection Hr' as <-. split.
  - apply (inv_plain_update s q c r f); try done. intros Hsl. pose proof (sl_waiting _ _ _ _ (inv_sleep _ _ S1) c r Hsl Hr). congruence.
  - exists c, (f r). sched_cbn. lookups. split_and!; [done|done|congruence].
  - intros t rt. sched_cbn. destruct (decide (t = c)) as [->|Hne]; [by left|]. rewrite lookup_insert_ne by done. apply S3.
  - intros t rt. sched_cbn. intros Hrt Hne. rewrite lookup_insert_ne in Hrt by congruence. by apply (S4 t).
  - intros c2 r2 p x. sched_cbn. rewrite Hc. intros [= <-]. lookups. intros [= <-]. rewrite E3. by apply (S5 c r).
Qed.

Lemma in_kernel_update s c r f :
  g_current_thread s = Some c -> threads s !! c = Some r -> t_context (f r) = t_context r -> in_kernel s ->
  in_kernel (with_threads (<[c := f r]> (threads s)) s).
Proof.
  intros Hc Hr Hx Hk c2 r2. sched_cbn. rewrite Hc. intros [= <-]. lookups. intros [= <-]. rewrite Hx. by apply (Hk c r).
Qed.

(** The call of the current thread returns. *)
Record returned (c : Z) (interrupts_enabled : bool) (s : Sched) (q : Queues) (s' : Sched) : Prop := {
  rt_settled : settled s' q;
  rt_current : g_current_thread s' = Some c;
  rt_kernel : in_kernel s -> in_kernel s';
  rt_interrupts : interrupts s' = interrupts_enabled;
  rt_same : g_tick_count s' = g_tick_count s /\ g_idle_thread s' = g_idle_thread s /\ g_ready_queues s' = g_ready_queues s;
  rt_others t : t <> c -> threads s' !! t = threads s !! t;
  rt_self r : threads s !! c = Some r -> exists r', threads s' !! c = Some r' /\ current_priority r' = current_priority r /\
    quantum_ticks_remaining r' = quantum_ticks_remaining r
}.

Lemma after_switch_post s q caller enabled c :
  settled s q -> g_current_thread s = Some c -> caller <> InExit ->
  post kernel (after_switch caller enabled StatusOK s) (fun ctl s' => ctl = Returns caller StatusOK /\ returned c enabled s q s').
Proof.
  intros Hs Hc Hx. destruct (se_running _ _ Hs) as (c' & r & Hc' & Hr & Hst). rewrite Hc in Hc'. injection Hc' as <-.
  assert (wake_tick r = 0) as Hw by (apply (ok_wake _ _ _ (inv_threads _ _ (se_inv _ _ Hs) c r Hr)); congruence).
  pose proof (ok_quantum _ _ _ (inv_threads _ _ (se_inv _ _ Hs) c r Hr)) as [Hq1 Hq2].
  assert (returned c enabled s q (with_interrupts enabled s)) as Hplain.
  { split; [by apply settled_interrupts|done|done|done|done|done|]. intros r0 Hr0. by exists r0. }
  assert (forall f, same_links r (f r) -> current_state (f r) = current_state r -> current_priority (f r) = current_priority r ->
            t_parent (f r) = t_parent r -> t_name (f r) = t_name r -> wake_tick (f r) = 0 -> t_context (f r) = t_context r ->
            quantum_ticks (f r) = quantum_ticks r -> quantum_ticks_remaining (f r) = quantum_ticks_remaining r ->
            returned c enabled s q (with_interrupts enabled (with_threads (<[c := f r]> (threads s)) s))) as Hupd.
  { intros f L E1 E2 E3 E4 E5 E6 E7 E8. split.
    - apply settled_interrupts. apply (settled_update s q c r f); try done; [by rewrite E7|by rewrite E8].
    - done.
    - intros Hk. by apply (in_kernel_update s c r f).
    - done.
    - done.
    - intros t Ht. sched_cbn. by rewrite lookup_insert_ne.
    - intros r0 Hr0. rewrite Hr in Hr0. injection Hr0 as <-. exists (f r). sched_cbn. by lookups. }
  destruct caller; cbn [after_switch]; try (rewrite seq_unmask; apply post_ret; by split).
  - rewrite seq_read, Hc, (seq_update c r) by done. rewrite bool_decide_eq_true_2, seq_ret, seq_unmask by done. apply post_ret.
    split; [done|]. by apply (Hupd (with_wait None 0)).
  - rewrite seq_read, Hc, (seq_thread c r), (seq_update c r) by done. rewrite bool_decide_eq_true_2, seq_unmask by done. apply post_ret.
    rewrite Hw. cbn [Z.eqb negb]. rewrite andb_false_r. split; [done|]. by apply (Hupd (fun r => with_wake_tick 0 (with_wait None (wait_reason_code WaitNone) r))).
  - rewrite seq_read, Hc, (seq_update c r) by done. rewrite bool_decide_eq_true_2, seq_ret, seq_unmask by done. apply post_ret.
    split; [done|]. by apply (Hupd (fun r => with_wake_tick 0 (with_wait None (wait_reason_code WaitNone) r))).
Qed.

(** ** What a switch leads to *)
Definition resumes (c : CpuContext) (ctl : Control) (s : Sched) : Prop :=
  if Z.testbit (processor_state c) 62 then ctl = ResumesUser (saved_exception_frame c)
  else if Z.testbit (processor_state c) 63 then
    exists pc, program_counter c = UserCode pc /\ ctl = EntersUser pc (user_stack_pointer c) (Z.land (processor_state c) CpuContextProcessorStateMask)
  else match program_counter c with
       | UserCode _ => False
       | KernelCode (ThreadEntry entry_point) => ctl = EntersThread entry_point /\ interrupts s = true /\ in_kernel s
       | KernelCode (AfterSwitch caller enabled) => ctl = Returns caller StatusOK /\ interrupts s = enabled /\ in_kernel s
       end.

(** The processor is with [n], whose call goes on from its context. *)
Record arrived (n : Z) (c : CpuContext) (s : Sched) (q : Queues) (ctl : Control) (s' : Sched) : Prop := {
  ar_settled : exists q', settled s' q' /\ (forall p l, ready q !! p = Some l -> exists new, ready q' !! p = Some (l ++ new)) /\
    forall t w, t <> n -> waits t w s q -> waits t w s' q';
  ar_current : g_current_thread s' = Some n;
  ar_resumes : resumes c ctl s';
  ar_idle : g_idle_thread s' = g_idle_thread s;
  ar_tick : g_tick_count s' = g_tick_count s
}.

Lemma settled_in_kernel s n r :
  g_current_thread s = Some n -> threads s !! n = Some r ->
  Z.testbit (processor_state (t_context r)) 62 = false -> Z.testbit (processor_state (t_context r)) 63 = false -> in_kernel s.
Proof. intros Hc Hr H1 H2 c' r' Hc' Hr'. rewrite Hc in Hc'. injection Hc' as <-. rewrite Hr in Hr'. injection Hr' as <-. done. Qed.

Lemma resume_post s q n r :
  settled s q -> g_current_thread s = Some n -> threads s !! n = Some r -> saved_ok r ->
  post kernel (resume_context (t_context r) s) (arrived n (t_context r) s q).
Proof.
  intros Hs Hc Hr Hok. destruct (se_running _ _ Hs) as (n' & r' & Hc' & Hr' & Hst). rewrite Hc in Hc'. injection Hc' as <-.
  rewrite Hr in Hr'. injection Hr' as <-. pose proof (settled_in_kernel s n r Hc Hr) as Hkern.
  assert (exists q', settled s q' /\ (forall p l, ready q !! p = Some l -> exists new, ready q' !! p = Some (l ++ new)) /\
    forall t w, t <> n -> waits t w s q -> waits t w s q') as Hq.
  { exists q. split_and!; [done| |done]. intros p l Hl. exists []. by rewrite app_nil_r. }
  unfold saved_ok in Hok. unfold resume_context. destruct (Z.testbit (processor_state (t_context r)) 62) eqn:B62.
  { apply post_ret. split; try done. unfold resumes. by rewrite B62. }
  destruct (Z.testbit (processor_state (t_context r)) 63) eqn:B63.
  { destruct Hok as (pc & Epc). rewrite Epc. apply post_ret. split; try done. unfold resumes. rewrite B62, B63. eauto. }
  destruct (program_counter (t_context r)) as [pc|[|caller enabled]] eqn:Epc; [done| |].
  - rewrite seq_unmask. apply post_ret. split; try done.
    + destruct Hq as (q' & Hs' & Hq'). exists q'. split; [by apply settled_interrupts|done].
    + unfold resumes. rewrite B62, B63, Epc. split_and!; [done|done|]. by apply Hkern.
  - assert (caller <> InExit) as Hx by (intros ->; congruence).
    eapply post_seq; [apply (reap_post s q); apply Hs|]. cbn beta. intros _ s1 (q1 & Hinv1 & Hg & _).
    pose proof (grows_settled s q s1 q1 Hs Hinv1 Hg) as Hs1. pose proof (grows_in_kernel s q s1 q1 (se_inv _ _ Hs) Hg (Hkern eq_refl eq_refl)) as Hk1.
    eapply post_mono; [|apply (after_switch_post s1 q1 caller enabled n); [done|by rewrite (gr_current _ _ _ _ _ Hg)|done]].
    cbn beta. intros ctl s2 (-> & [R1 R2 R3 R4 (R5 & R5' & _) R6 _]). split.
    + exists q1. split_and!; [done|apply (gr_ready _ _ _ _ _ Hg)|]. intros t w Hne Hw.
      destruct (grows_waits t w s q s1 q1 (se_inv _ _ Hs) Hinv1 Hg Hw) as [[Ht <-]|]; [left|by right]. split; [done|]. unfold wake_of. by rewrite R6.
    + done.
    + unfold resumes. rewrite B62, B63, Epc. split_and!; [done|done|by apply R3].
    + rewrite R5'. apply (gr_idle _ _ _ _ _ Hg).
    + rewrite R5. apply (gr_tick _ _ _ _ _ Hg).
Qed.

(** ** Leaving

    What holds of the thread [c] that gives the processor away from [caller]. *)
Record leaving (s : Sched) (q : Queues) (c : Z) (r : Thread) (caller : Caller) : Prop := {
  lv_inv : inv s q;
  lv_current : g_current_thread s = Some c /\ threads s !! c = Some r;
  lv_state : current_state r <> Running \/ g_idle_thread s = Some c;
  lv_one : one_running s;
  lv_contexts : contexts s;
  lv_lockstep : lockstep s;
  lv_flags : Z.testbit (processor_state (t_context r)) 62 = true \/ Z.testbit (processor_state (t_context r)) 63 = false;
  lv_exit : caller = InExit -> current_state r = Terminated
}.

Lemma saved_running r r' : saved_ok r -> current_state r <> Terminated -> t_context r' = t_context r -> saved_ok r'.
Proof.
  unfold saved_ok. intros Hok Hst ->. destruct (Z.testbit _ 62); [done|]. destruct (Z.testbit _ 63); [done|].
  destruct (program_counter _) as [|[|[] ?]]; done.
Qed.

(** The context of the thread that is left can be resumed. *)
Lemma left_contexts s q c rc caller enabled n s1 q1 rc1 :
  leaving s q c rc caller -> bound n s q s1 q1 -> threads s1 !! c = Some rc1 -> still rc1 = still rc -> n <> c ->
  contexts (with_threads (<[c := with_t_context (save_context caller enabled (t_context rc1)) rc1]> (threads s1)) s1).
Proof.
  intros [L1 [L2 L2'] L3 L4 L5 _ L6 L7] [B1 (B2 & _) _ B4 B5 B6 B7 _] Hrc1 Ec Hne t rt Hrt Hct.
  destruct (still_fields _ _ Ec) as (Stc & _ & _ & _ & _ & Xc & _). revert Hrt Hct. sched_cbn. rewrite B2. intros Hrt Hct. destruct (decide (t = c)) as [->|Htc].
  - revert Hrt. lookups. intros [= <-]. unfold saved_ok.
    cbn [t_context with_t_context save_context processor_state program_counter current_state]. rewrite Xc. destruct (Z.testbit _ 62) eqn:B62; [done|].
    destruct L6 as [|L6]; [congruence|]. rewrite L6. destruct caller; try done. rewrite Stc. by apply L7.
  - rewrite lookup_insert_ne in Hrt by done. assert (t <> n) as Htn by congruence. destruct (B5 t rt Htn Hrt) as (r0 & Hr0 & G).
    eapply saved_grows; [exact G|]. apply (L5 t r0 Hr0). congruence.
Qed.

Lemma left_one s q c rc caller n s1 q1 f rc1 :
  leaving s q c rc caller -> bound n s q s1 q1 -> threads s1 !! c = Some rc1 -> still rc1 = still rc -> current_state (f rc1) = current_state rc1 ->
  one_running (with_threads (<[c := f rc1]> (threads s1)) s1).
Proof.
  intros [L1 [L2 L2'] L3 L4 L5 _ L6 L7] [B1 (B2 & B2' & _) _ B4 B5 B6 B7 _] Hrc1 Ec Hf t rt Hrt Hst. destruct (still_fields _ _ Ec) as (Stc & _).
  sched_cbn. rewrite B2, B2'. revert Hrt. sched_cbn. destruct (decide (t = n)) as [->|Htn]; [by left|]. intros Hrt. right.
  destruct (decide (t = c)) as [->|Htc].
  - revert Hrt. lookups. intros [= <-]. destruct L3 as [L3|L3]; [congruence|done].
  - rewrite lookup_insert_ne in Hrt by done. destruct (B5 t rt Htn Hrt) as (r0 & Hr0 & G). pose proof (thread_grows_running _ _ _ _ G Hst) as Hst0.
    destruct (L4 t r0 Hr0 Hst0); [congruence|done].
Qed.

Lemma switch_away s q c rc caller enabled n rn :
  leaving s q c rc caller -> eligible s n rn -> n <> c -> saved_ok rn ->
  post kernel (switch_to_thread (Some n) caller enabled s) (arrived n (t_context rn) s q).
Proof.
  intros L He Hne Hok. pose proof (lv_current _ _ _ _ _ L) as [L2 L2']. unfold switch_to_thread. rewrite seq_read, L2.
  rewrite bool_decide_eq_false_2 by congruence. eapply post_seq; [apply (bind_post s q n rn); [apply L|congruence|done]|].
  cbn beta. intros st s1 (-> & q1 & B). pose proof B as [B1 (B2 & B2i & B2t & _) (r & r1 & Hr & Hr1 & St1 & X1) B4 _ B6 B7 B8].
  rewrite bool_decide_eq_true_2 by done. cbn [negb]. unfold context_switch.
  pose proof He as (Hrn & _ & Hrst). rewrite Hrn in Hr. injection Hr as <-.
  destruct (B6 c rc L2 ltac:(done) L2') as (rc1 & Hrc1 & Ec & _). rewrite (seq_update c rc1) by done. set (s2 := with_threads _ s1).
  assert (threads s2 !! n = Some r1) as Hr2 by (unfold s2; sched_cbn; by rewrite lookup_insert_ne).
  rewrite (seq_thread n r1) by done. rewrite <- X1.
  assert (settled s2 q1) as Hs2.
  { split; [|by exists n, r1| | |].
    - apply (inv_plain_update s1 q1 c rc1 (fun r => with_t_context (save_context caller enabled (t_context r)) r)); try done;
        apply (ok_quantum _ _ _ (inv_threads _ _ B1 c rc1 Hrc1)).
    - by apply (left_one s q c rc caller n s1 q1 (fun r => with_t_context (save_context caller enabled (t_context r)) r) rc1).
    - by apply (left_contexts s q c rc caller enabled n s1 q1 rc1).
    - intros c2 r2 p x. unfold s2. sched_cbn. rewrite B2. intros [= <-]. rewrite lookup_insert_ne by done. intros Hr3. by apply (B4 n r2 p x). }
  eapply post_mono; [|apply (resume_post s2 q1 n r1); [done|done|done|]].
  - intros ctl s3 [(q3 & A1 & A1' & A1w) A2 A3 A4 A5]. split; [|done|done| |].
    + exists q3. split_and!; [done| |].
      * intros p l Hl. destruct (B7 p l Hl) as (n1 & Hn1). destruct (A1' p _ Hn1) as (n2 & Hn2). exists (n1 ++ n2). by rewrite app_assoc.
      * intros t w Hnt Hw. apply A1w; [done|]. destruct (B8 t w Hnt Hw) as [[Ht <-]|]; [left|by right]. split; [done|].
        unfold wake_of, s2. sched_cbn. destruct (decide (t = c)) as [->|Hc']; [lookups; by rewrite Hrc1|by rewrite lookup_insert_ne].
    + rewrite A4. unfold s2. sched_cbn. done.
    + rewrite A5. unfold s2. sched_cbn. done.
  - apply (saved_running rn); [done| |done]. destruct Hrst as [->|[-> _]]; done.
Qed.
