(* ===== verification/SchedCalls.v ===== *)
(** The calls of the scheduler. *)
From stdpp Require Import base list gmap.
From Stdlib Require Import ZArith Lia Sorted.
From S2P Require Import Prelude KernelText DList KernelIface SchedState Scheduler SchedQueues SchedOps SchedInv SchedLogic SchedProofs SchedSwitch.

Local Open Scope Z_scope.

(** ** The choice of the next thread *)

(** The first thread of the highest level that holds one, and the idle thread
    where all levels are empty. *)
Definition chosen (s : Sched) (q : Queues) : option Z :=
  match best (ready q) with Some (_, t :: _) => Some t | _ => g_idle_thread s end.
Definition rest (q : Queues) : Queues :=
  match best (ready q) with Some (p, _ :: l) => with_ready (<[p := l]> (ready q)) q | _ => q end.

(** Worlds that differ in the links of the queues only. *)
Lemma relinked_world s s1 :
  keeps bare (threads s) (threads s1) -> g_current_thread s1 = g_current_thread s -> g_idle_thread s1 = g_idle_thread s ->
  processes s1 = processes s -> current_address_space s1 = current_address_space s ->
  (one_running s -> one_running s1) /\ (contexts s -> contexts s1) /\ (lockstep s -> lockstep s1).
Proof.
  intros Hk Hc Hi Hp Ha. split_and!.
  - intros Ho t r1 Hr1 Hst. destruct (keeps_back _ _ _ _ _ Hk Hr1) as (r & Hr & E). rewrite Hc, Hi. apply (Ho t r Hr). rewrite <- Hst. symmetry. exact (f_equal current_state E).
  - intros Ho t r1 Hr1 Hne. destruct (keeps_back _ _ _ _ _ Hk Hr1) as (r & Hr & E). rewrite Hc in Hne. specialize (Ho t r Hr Hne). unfold saved_ok in *.
    assert (t_context r1 = t_context r) as -> by exact (f_equal t_context E). assert (current_state r1 = current_state r) as -> by exact (f_equal current_state E). done.
  - intros Ho c r1 p x Hc1 Hr1 Hpar Hx. destruct (keeps_back _ _ _ _ _ Hk Hr1) as (r & Hr & E). rewrite Hc in Hc1. rewrite Hp in Hx. rewrite Ha.
    apply (Ho c r p x); try done. rewrite <- Hpar. symmetry. exact (f_equal t_parent E).
Qed.

Lemma leaving_relinked s q c r caller s1 q1 :
  leaving s q c r caller -> inv s1 q1 -> keeps bare (threads s) (threads s1) -> g_current_thread s1 = g_current_thread s ->
  g_idle_thread s1 = g_idle_thread s -> processes s1 = processes s -> current_address_space s1 = current_address_space s ->
  exists r1, leaving s1 q1 c r1 caller /\ bare r1 = bare r.
Proof.
  intros [L1 [L2 L2'] L3 L4 L5 L5' L6 L7] Hinv1 Hk Hc Hi Hp Ha. destruct (keeps_lookup _ _ _ _ _ Hk L2') as (r1 & Hr1 & E).
  destruct (relinked_world s s1 Hk Hc Hi Hp Ha) as (W1 & W2 & W3).
  assert (t_context r1 = t_context r) as Ex by exact (f_equal t_context E). assert (current_state r1 = current_state r) as Es by exact (f_equal current_state E).
  exists r1. split; [|done]. split; [done|by rewrite Hc|by rewrite Es, Hi|by apply W1|by apply W2|by apply W3|by rewrite Ex|by rewrite Es].
Qed.

(** Where no thread is ready, the running thread is kept only if it is asked for,
    and never the idle thread for its own sake. *)
Definition gives_way (keep : bool) (s : Sched) (q : Queues) : Prop :=
  best (ready q) <> None \/ keep = false \/ g_current_thread s = g_idle_thread s.

Lemma pick_ok s q :
  inv s q ->
  exists n s1 rn, chosen s q = Some n /\ (forall keep, gives_way keep s q -> pick_next_thread keep s = Ok (Some n, s1)) /\
    inv s1 (rest q) /\ eligible s1 n rn /\
    (exists r, threads s !! n = Some r /\ unqueued rn = unqueued r) /\
    keeps unqueued (threads s) (threads s1) /\ g_current_thread s1 = g_current_thread s /\ g_idle_thread s1 = g_idle_thread s /\
    processes s1 = processes s /\ current_address_space s1 = current_address_space s /\ g_tick_count s1 = g_tick_count s /\
    interrupts s1 = interrupts s.
Proof.
  intros Hinv. pose proof (inv_pop_best s q Hinv) as Hpop. unfold chosen, rest, pick_next_thread. destruct (best (ready q)) as [[p l]|] eqn:HB.
  - destruct Hpop as (t & l' & r & m & queues & bitmap & count & -> & Hr & Hq & Hrun & Hinv1 & Hk & Hmt).
    exists t, (set_ready m queues bitmap count s), (unqueued r). split; [done|]. split.
    { intros keep _. rewrite Hrun, bind_ok. done. }
    split_and!; try done; [|by exists r]. split; [done|]. split; [done|]. left. apply Hq.
  - destruct (inv_idle _ _ Hinv) as (i & r & Hi & Hr & Hf & Hst). exists i, s, r. split; [done|]. split.
    { intros keep Hway. rewrite Hpop, bind_ok. cbn iota beta. destruct (inv_current _ _ Hinv) as (c & Hc & rc & Hrc).
      unfold thread_is_runnable. destruct Hway as [Hno|[->|Hci]]; [done|..].
      - rewrite Hc, (thread_get_ok _ _ _ Hrc), !bind_ok. cbn [andb]. by rewrite Hi.
      - rewrite (bool_decide_eq_true_2 _ Hci), Hc, (thread_get_ok _ _ _ Hrc), !bind_ok. cbn [negb]. rewrite andb_false_r. by rewrite Hi. }
    split_and!; try done; [|by exists r]. split; [done|]. split; [done|]. destruct Hst; [by left|right; by split].
Qed.

(** ** Handing the processor over *)
Record handed (caller : Caller) (enabled : bool) (s : Sched) (q : Queues) (c : Z) (ctl : Control) (s' : Sched) : Prop := {
  hd_current : exists n rn, chosen s q = Some n /\ g_current_thread s' = Some n /\ threads s !! n = Some rn /\
    (if decide (n = c) then ctl = Returns caller StatusOK /\ interrupts s' = enabled /\ (in_kernel s -> in_kernel s') else resumes (t_context rn) ctl s');
  hd_settled : exists q', settled s' q' /\ (forall p l, ready (rest q) !! p = Some l -> exists new, ready q' !! p = Some (l ++ new)) /\
    forall t w, chosen s q <> Some t -> waits t w s q -> waits t w s' q';
  hd_idle : g_idle_thread s' = g_idle_thread s;
  hd_tick : g_tick_count s' = g_tick_count s
}.

(** The thread that leaves is the one that is chosen: it goes on. *)
Lemma stay_post s q c r caller enabled :
  leaving s q c r caller -> eligible s c r -> caller <> InExit ->
  post kernel (switch_to_thread (Some c) caller enabled s) (fun ctl s' => ctl = Returns caller StatusOK /\ settled s' q /\ g_current_thread s' = Some c /\
    interrupts s' = enabled /\ (in_kernel s -> in_kernel s') /\ g_idle_thread s' = g_idle_thread s /\ g_tick_count s' = g_tick_count s /\
    forall t, t <> c -> threads s' !! t = threads s !! t).
Proof.
  intros [L1 [L2 L2'] L3 L4 L5 L5' L6 L7] He Hx. unfold switch_to_thread. rewrite seq_read, L2, bool_decide_eq_true_2 by done.
  rewrite (seq_update c r) by done. pose proof (mark_running s q c r L1 He) as Hinv1. set (s1 := with_threads _ s) in *.
  assert (threads s1 !! c = Some (with_current_state Running r)) as Hr1 by (unfold s1; sched_cbn; by lookups).
  assert (settled s1 q) as Hs1.
  { split; [done|by exists c, (with_current_state Running r)| | |].
    - intros t rt. unfold s1. sched_cbn. destruct (decide (t = c)) as [->|Hne]; [by left|]. rewrite lookup_insert_ne by done. apply L4.
    - intros t rt. unfold s1. sched_cbn. intros Hrt Hne. rewrite lookup_insert_ne in Hrt by congruence. by apply (L5 t).
    - intros c2 r2 p x. unfold s1. sched_cbn. rewrite L2. intros [= <-]. lookups. intros [= <-]. by apply (L5' c r). }
  destruct (inv_reset_quantum s1 q c _ Hinv1 Hr1) as [Hrun Hinv2]. rewrite (seq_change _ _ _ _ Hrun). set (s2 := with_threads _ s1) in *.
  pose proof (ok_quantum _ _ _ (inv_threads _ _ Hinv1 c _ Hr1)) as [Hq1 _]. pose proof (full_quantum_range _ Hq1) as Hq2.
  assert (settled s2 q) as Hs2.
  { apply (settled_update s1 q c _ (fun r => with_quantum_ticks_remaining (full_quantum r) r) Hs1); try done.
    - apply (ok_wake _ _ _ (inv_threads _ _ Hinv1 c _ Hr1)). done.
    - cbn beta. cbn [quantum_ticks_remaining with_quantum_ticks_remaining]. lia. }
  eapply post_mono; [|apply (after_switch_post s2 q caller enabled c); done].
  cbn beta. intros ctl s3 (-> & [R1 R2 R3 R4 (R5 & R5' & _) R6 _]). split_and!; try done.
  - intros Hk. apply R3. apply (in_kernel_update s1 c _ (fun r => with_quantum_ticks_remaining (full_quantum r) r)); try done.
    by apply (in_kernel_update s c r (with_current_state Running)).
  - intros t Ht. rewrite R6 by done. unfold s2, s1. sched_cbn. by rewrite !lookup_insert_ne.
Qed.

(** The threads that are not chosen keep their place. *)
Lemma rest_waits t w s q s1 :
  keeps unqueued (threads s) (threads s1) -> chosen s q <> Some t -> waits t w s q -> waits t w s1 (rest q).
Proof.
  intros Hk Hch [[Ht <-]|(p & l & Hl & Ht)].
  - left. assert (sleepers (rest q) = sleepers q) as -> by (unfold rest; by destruct (best (ready q)) as [[? []]|]). split; [done|].
    unfold wake_of. destruct (threads s !! t) as [r|] eqn:Hr.
    + destruct (keeps_lookup _ _ _ _ _ Hk Hr) as (r1 & Hr1 & E). rewrite Hr1. exact (f_equal wake_tick E).
    + destruct (threads s1 !! t) as [r1|] eqn:Hr1; [|done]. destruct (keeps_back _ _ _ _ _ Hk Hr1) as (r & Hr' & _). congruence.
  - right. unfold chosen, rest in *. destruct (best (ready q)) as [[p' [|n l']]|] eqn:HB; [by exists p, l| |by exists p, l].
    destruct (best_level _ _ _ HB) as (Hl' & _). cbn [ready with_ready]. destruct (decide (p = p')) as [->|Hne].
    + rewrite Hl in Hl'. injection Hl' as ->. exists p', l'. rewrite list_lookup_insert_eq by (by apply lookup_lt_Some in Hl). split; [done|].
      apply elem_of_cons in Ht as [->|]; done.
    + exists p, l. by rewrite list_lookup_insert_ne.
Qed.

Lemma rest_grows_refl q : forall p l, ready (rest q) !! p = Some l -> exists new, ready (rest q) !! p = Some (l ++ new).
Proof. intros p l Hl. exists []. by rewrite app_nil_r. Qed.

Lemma give_post s q c r caller enabled keep :
  leaving s q c r caller -> gives_way keep s q ->
  post kernel ((let! next := exec (pick_next_thread keep) in switch_to_thread next caller enabled) s) (handed caller enabled s q c).
Proof.
  intros L Hkeep. pose proof (lv_inv _ _ _ _ _ L) as Hinv.
  destruct (pick_ok s q Hinv) as (n & s1 & rn & Hch & Hpick & Hinv1 & He & (r0 & Hr0 & E0) & Hk & Hc & Hi & Hp & Ha & Ht & Hir).
  rewrite (seq_exec _ _ _ _ _ (Hpick keep Hkeep)).
  destruct (leaving_relinked s q c r caller s1 (rest q) L Hinv1 (bare_unqueued _ _ Hk) Hc Hi Hp Ha) as (r1 & L1 & E1). pose proof (lv_current _ _ _ _ _ L1) as [Lc Lr].
  assert (t_context rn = t_context r0) as Ex by exact (f_equal t_context E0).
  destruct (decide (n = c)) as [->|Hne].
  - destruct He as (Hrn & Hf & Hst). rewrite Lr in Hrn. injection Hrn as ->.
    assert (caller <> InExit) as Hx.
    { intros Hx. pose proof (lv_exit _ _ _ _ _ L1 Hx). destruct Hst as [|[]]; congruence. }
    eapply post_mono; [|apply (stay_post s1 (rest q) c rn caller enabled); [done|by split_and!|done]].
    cbn beta. intros ctl s2 (-> & Hs2 & Hc2 & Hi2 & Hk2 & Hid2 & Ht2 & Ho2). split.
    + exists c, r0. rewrite decide_True by done. split_and!; try done. intros Hker. apply Hk2. intros c' r' Hc' Hr'.
      rewrite Lc in Hc'. injection Hc' as <-. rewrite Lr in Hr'. injection Hr' as <-. rewrite Ex. apply (Hker c r0); [by rewrite <- Hc|done].
    + exists (rest q). split_and!; [done|apply rest_grows_refl|]. intros t w Hnt Hw. destruct (rest_waits t w s q s1 Hk Hnt Hw) as [[Ht2' <-]|]; [left|by right].
      split; [done|]. unfold wake_of. rewrite Ho2; [done|congruence].
    + congruence.
    + congruence.
  - assert (saved_ok rn) as Hok. { apply (lv_contexts _ _ _ _ _ L1 n rn); [apply He|congruence]. }
    eapply post_mono; [|apply (switch_away s1 (rest q) c r1 caller enabled n rn); done].
    intros ctl s2 [(q2 & A1 & A1' & A1w) A2 A3 A4 A5]. split.
    + exists n, r0. rewrite decide_False by done. rewrite <- Ex. done.
    + exists q2. split_and!; [done|done|]. intros t w Hnt Hw. apply A1w; [congruence|]. by eapply rest_waits.
    + congruence.
    + congruence.
Qed.

(** ** Putting the running thread back *)
Record requeued (c : Z) (at_tail : bool) (s : Sched) (q : Queues) (s1 : Sched) (q1 : Queues) : Prop := {
  rq_ready p l : ready q !! p = Some l -> exists new, ready q1 !! p = Some ((if decide (level_of <$> threads s !! c = Some p) then pushed at_tail c l else l) ++ new);
  rq_context t r1 : threads s1 !! t = Some r1 -> exists r, threads s !! t = Some r /\ t_context r1 = t_context r;
  rq_same : g_current_thread s1 = g_current_thread s /\ g_idle_thread s1 = g_idle_thread s /\ g_tick_count s1 = g_tick_count s /\ interrupts s1 = interrupts s;
  rq_some : best (ready q1) <> None;
  rq_inv : inv s1 q1;
  rq_waits t w : t <> c -> waits t w s q -> waits t w s1 q1
}.

(** The running thread may be resumed in the kernel, or has its frame saved. *)
Definition may_leave (r : Thread) : Prop :=
  Z.testbit (processor_state (t_context r)) 62 = true \/ Z.testbit (processor_state (t_context r)) 63 = false.

Lemma best_some R p l : R !! p = Some l -> l <> [] -> best R <> None.
Proof.
  intros Hl Hne Hb. unfold best in Hb. apply list_find_None in Hb. rewrite Forall_lookup in Hb. by apply (Hb p l Hl).
Qed.

Lemma mark_ready s q c r (f : Thread -> Thread) :
  settled s q -> g_current_thread s = Some c -> threads s !! c = Some r -> g_idle_thread s <> Some c ->
  f = with_current_state Ready \/ f = (fun r => with_quantum_ticks_remaining (full_quantum r) (with_current_state Ready r)) ->
  let s1 := with_threads (<[c := f r]> (threads s)) s in
  inv s1 q /\ one_running s1 /\ contexts s1 /\ lockstep s1 /\ threads s1 !! c = Some (f r) /\ current_state (f r) = Ready /\ in_ready_queue (f r) = false /\
  level_of (f r) = level_of r /\ t_context (f r) = t_context r /\ t_parent (f r) = t_parent r.
Proof.
  intros [S1 (c' & r' & Hc' & Hr' & Hst) S3 S4 S5] Hc Hr Hi Hf. rewrite Hc in Hc'. injection Hc' as <-. rewrite Hr in Hr'. injection Hr' as <-.
  assert (in_ready_queue r = false) as Hq.
  { destruct (in_ready_queue r) eqn:Hq; [|done]. destruct (ready_in _ _ _ _ _ (inv_ready _ _ S1) c r Hr Hq) as ((_ & _ & E) & _). congruence. }
  pose proof (inv_threads _ _ S1 c r Hr) as [K1 [K2 K2'] K3 K4 K5]. pose proof (full_quantum_range r K2) as Hq2.
  assert (same_links r (f r) /\ current_state (f r) = Ready /\ in_ready_queue (f r) = false /\ current_priority (f r) = current_priority r /\
    t_context (f r) = t_context r /\ t_parent (f r) = t_parent r /\ thread_ok s c (f r)) as (F1 & F2 & F3 & F4 & F5 & F6 & F7).
  { assert (wake_tick r = 0) as Hw by (apply K4; congruence).
    destruct Hf as [->| ->]; (split_and!; [by split|done|done|done|done|done|]); split; try done; split; try done; cbn; lia. }
  cbn zeta. sched_cbn. lookups. split_and!; try done.
  - apply (inv_update s q S1 c r (f r)); try done.
    + intros Hsl. pose proof (sl_waiting _ _ _ _ (inv_sleep _ _ S1) c r Hsl Hr). congruence.
    + intros Hre. pose proof (re_ended _ _ _ _ (inv_retired _ _ S1) c r Hre Hr). congruence.
  - intros t rt. sched_cbn. destruct (decide (t = c)) as [->|Hne]; [by left|]. rewrite lookup_insert_ne by done. apply S3.
  - intros t rt. sched_cbn. intros Hrt Hne. rewrite lookup_insert_ne in Hrt by congruence. by apply (S4 t).
  - intros c2 r2 p x. sched_cbn. rewrite Hc. intros [= <-]. lookups. intros [= <-]. rewrite F6. by apply (S5 c r).
  - unfold level_of. by rewrite F4.
Qed.

Lemma requeue_post {B} s q c r at_tail reset (k : unit -> M B) Q :
  settled s q -> g_current_thread s = Some c -> threads s !! c = Some r -> g_idle_thread s <> Some c -> may_leave r ->
  (forall s1 q1 r1, requeued c at_tail s q s1 q1 -> (forall caller, caller <> InExit -> leaving s1 q1 c r1 caller) -> post kernel (k tt s1) Q) ->
  post kernel (seq (match Some c with
    | None => ret tt
    | Some p =>
      let! r := thread_at p in
      if true && negb (bool_decide (Some c = g_idle_thread s)) && bool_decide (current_state r = Running) then
        update p (with_current_state Ready) ;;;
        (if reset : bool then change (reset_quantum (Some c)) else ret tt) ;;;
        let! status := exec (ready_queue_push (Some c) at_tail) in
        if bool_decide (status = StatusOK)
        then publish_thread_event KernelEventTypeThreadReady p (thread_state_code Running) (thread_state_code Ready)
        else ret tt
      else ret tt
    end) k s) Q.
Proof.
  intros Hs Hc Hr Hi Hml Hk. destruct (se_running _ _ Hs) as (c' & r' & Hc' & Hr' & Hst). rewrite Hc in Hc'. injection Hc' as <-. rewrite Hr in Hr'. injection Hr' as <-.
  apply seq_assoc. rewrite (seq_thread c r) by done. rewrite bool_decide_eq_false_2, bool_decide_eq_true_2 by (done || congruence). cbn [negb andb].
  apply seq_assoc. rewrite (seq_update c r) by done.
  assert (exists f, (f = with_current_state Ready \/ f = (fun r => with_quantum_ticks_remaining (full_quantum r) (with_current_state Ready r))) /\
    forall D (h : unit -> M D), seq (if reset then change (reset_quantum (Some c)) else ret tt) h (with_threads (<[c := with_current_state Ready r]> (threads s)) s) =
      h tt (with_threads (<[c := f r]> (threads s)) s)) as (f & Hf & Hstep).
  { destruct reset.
    - eexists. split; [by right|]. intros D h. erewrite seq_change; [reflexivity|]. cbn [reset_quantum].
      rewrite (thread_set_ok c (with_current_state Ready r)) by (sched_cbn; by lookups). sched_cbn. by rewrite insert_insert, decide_True.
    - eexists. split; [by left|]. intros D h. by rewrite seq_ret. }
  destruct (mark_ready s q c r f Hs Hc Hr Hi Hf) as (Hinv1 & Ho1 & Hx1 & Hl1 & Hr1 & St1 & Q1 & Lv1 & X1 & P1). set (s1 := with_threads (<[c := f r]> (threads s)) s) in *.
  apply seq_assoc. rewrite Hstep. apply seq_assoc. destruct (level_list s1 q Hinv1 c (f r) Hr1) as (l & Hl).
  destruct (inv_push s1 q Hinv1 c (f r) at_tail l) as (m & queues & bitmap & count & Hrun & Hinv2 & Hkeep); [done..|].
  rewrite (seq_exec _ _ _ _ _ Hrun). rewrite bool_decide_eq_true_2 by done. set (s2 := set_ready m queues bitmap count s1) in *.
  set (q2 := with_ready _ q) in *. destruct (keeps_lookup _ _ _ _ _ Hkeep Hr1) as (r2 & Hr2 & E2).
  assert (t_context r2 = t_context r) as X2 by (rewrite <- X1; exact (f_equal t_context E2)).
  assert (current_state r2 = Ready) as St2 by (rewrite <- St1; exact (f_equal current_state E2)).
  destruct (relinked_world s1 s2 (bare_unqueued _ _ Hkeep)) as (W1 & W2 & W3); [done..|].
  eapply (publish_post _ _ _ _ _ s2 q2 r2); [done|exact Hr2|]. intros s3 q3 Hinv3 Hg3.
  destruct (grows_current s2 q2 s3 q3 c r2 Hinv2 Hg3 Hc Hr2) as (r3 & Hr3 & E3 & _). destruct (still_fields _ _ E3) as (St3 & _ & _ & _ & _ & X3 & _).
  eapply (Hk s3 q3 r3); [|intros caller Hcaller].
  - split.
    + intros p k0 Hk0. unfold q2 in Hg3. assert (level_of <$> threads s !! c = Some (level_of r)) as Ec by (by rewrite Hr).
      pose proof (gr_ready _ _ _ _ _ Hg3 p) as Hgr. cbn [ready with_ready] in Hgr. rewrite Ec, Lv1 in *. case_decide as Hp.
      * injection Hp as <-. rewrite Hk0 in Hl. injection Hl as <-. apply Hgr. apply list_lookup_insert_eq. by apply lookup_lt_Some in Hk0.
      * apply Hgr. rewrite list_lookup_insert_ne; [done|congruence].
    + intros t rt Hrt. destruct (grows_back s2 q2 s3 q3 t rt Hg3 Hrt) as (rt2 & Hrt2 & G). destruct (keeps_back _ _ _ _ _ Hkeep Hrt2) as (rt1 & Hrt1 & E).
      assert (t_context rt = t_context rt2) as ->.
      { destruct G as [[E4 _]|(_ & _ & W)]; [by destruct (still_fields _ _ E4) as (_ & _ & _ & _ & _ & ? & _)|by destruct (woken_fields _ _ W) as (_ & _ & _ & _ & _ & ?)]. }
      assert (t_context rt2 = t_context rt1) as -> by exact (f_equal t_context E). revert Hrt1. unfold s1. sched_cbn. destruct (decide (t = c)) as [->|Hne].
      * lookups. intros [= <-]. by exists r.
      * rewrite lookup_insert_ne by done. eauto.
    + rewrite (gr_current _ _ _ _ _ Hg3), (gr_idle _ _ _ _ _ Hg3), (gr_tick _ _ _ _ _ Hg3), (gr_interrupts _ _ _ _ _ Hg3). done.
    + destruct (gr_ready _ _ _ _ _ Hg3 (level_of (f r)) (pushed at_tail c l)) as (new & Hnew).
      { cbn. apply list_lookup_insert_eq. by apply lookup_lt_Some in Hl. }
      eapply best_some; [exact Hnew|]. destruct at_tail; cbn [pushed]; [|done]. by destruct l.
    + done.
    + intros t w Hne Hw. apply (grows_waits t w s2 q2 s3 q3 Hinv2 Hinv3 Hg3). unfold q2. rewrite Lv1 in Hl |- *.
      apply (waits_pushed t w s1); [by apply bare_unqueued|done|]. apply (waits_others c t w s); [|done|done].
      intros u Hu. unfold s1. sched_cbn. by rewrite lookup_insert_ne.
  - split; [done|by rewrite (gr_current _ _ _ _ _ Hg3)|left; congruence|by eapply grows_one, W1|by eapply grows_contexts, W2|eapply grows_lockstep; [exact Hinv2|exact Hg3|by apply W3]| |done].
    unfold may_leave in Hml. by rewrite X3, X2.
Qed.

(** The running thread goes back to its level and the best thread runs. *)
Definition rotated (c : Z) (at_tail : bool) (caller : Caller) (enabled : bool) (s : Sched) (q : Queues) (ctl : Control) (s' : Sched) : Prop :=
  exists s1 q1, requeued c at_tail s q s1 q1 /\ (in_kernel s -> in_kernel s1) /\ handed caller enabled s1 q1 c ctl s'.

Lemma requeued_in_kernel c at_tail s q s1 q1 : requeued c at_tail s q s1 q1 -> in_kernel s -> in_kernel s1.
Proof.
  intros [_ R2 (R3 & _) _ _ _] Hk c1 r1 Hc1 Hr1. destruct (R2 c1 r1 Hr1) as (r & Hr & ->). apply (Hk c1 r); [by rewrite <- R3|done].
Qed.

(** The thread gives way where another of its level, or of a higher one, is ready. *)
Lemma rotated_moves c r at_tail caller enabled s q ctl s' p l :
  rotated c at_tail caller enabled s q ctl s' -> threads s !! c = Some r -> best (ready q) = Some (p, l) -> (level_of r < 32)%nat -> length (ready q) = 32%nat ->
  (p < level_of r \/ p = level_of r /\ at_tail = true)%nat -> g_current_thread s' <> Some c.
Proof.
  intros (s1 & q1 & [R1 _ _ R4 R5 _] & _ & Hh) Hr HB Hlv Hlen Hp. destruct (hd_current _ _ _ _ _ _ _ Hh) as (n & rn & Hch & -> & _). intros [= ->].
  destruct (best_level _ _ _ HB) as (Hl & Hne & _). pose proof (R1 p l Hl) as (newp & Hlp). rewrite Hr in Hlp. cbn in Hlp.
  destruct (lookup_lt_is_Some_2 (ready q) (level_of r)) as [lc Hlc]; [lia|]. pose proof (R1 _ _ Hlc) as (newc & Hcc). rewrite Hr in Hcc. cbn in Hcc. rewrite decide_True in Hcc by done.
  unfold chosen in Hch. destruct (best (ready q1)) as [[p' l']|] eqn:HB'; [|done]. destruct (best_level _ _ _ HB') as (Hl' & Hne' & Hlow). destruct l' as [|x l']; [done|]. injection Hch as ->.
  assert (p' = level_of r) as ->.
  { eapply (ready_one_level _ _ _ _ _ (inv_ready _ _ R5)); [exact Hl'|exact Hcc|apply list_elem_of_here|]. apply elem_of_app. left. apply pushed_in. by left. }
  destruct (decide (p < level_of r)%nat) as [Hlt|Hge].
  - specialize (Hlow p _ Hlp Hlt). rewrite decide_False in Hlow by (intros [=]; lia). by destruct l.
  - destruct Hp as [|[-> ->]]; [lia|]. rewrite Hl in Hlc. injection Hlc as <-. rewrite Hcc in Hl'. injection Hl' as Hl'. cbn [pushed] in Hl'.
    destruct l as [|y l0]; [done|]. cbn in Hl'. injection Hl' as -> Hl'.
    destruct (ready_level _ _ _ _ _ (inv_ready _ _ R5) (level_of r) Hlv) as (Q & k & _ & Hk & (Hnd & _)). rewrite Hcc in Hk. injection Hk as <-. cbn [pushed app] in Hnd.
    apply list.NoDup_cons in Hnd as [Hnin _]. apply Hnin. rewrite !elem_of_app. left. right. apply list_elem_of_here.
Qed.

Lemma dispatch_post s q c r at_tail reset keep caller enabled :
  settled s q -> g_current_thread s = Some c -> threads s !! c = Some r -> g_idle_thread s <> Some c -> may_leave r -> caller <> InExit ->
  post kernel (dispatch true at_tail reset keep caller enabled s) (rotated c at_tail caller enabled s q).
Proof.
  intros Hs Hc Hr Hi Hml Hx. unfold dispatch. rewrite seq_read, seq_read, Hc. eapply (requeue_post s q c r); [done..|].
  intros s1 q1 r1 Hrq Hlv. eapply post_mono; [|eapply (give_post s1 q1 c r1); [by apply Hlv|left; apply Hrq]].
  intros ctl s' Hh. exists s1, q1. split_and!; [done| |done]. by eapply requeued_in_kernel.
Qed.

(** The idle thread gives way without being queued. *)
Lemma idle_leaving s q c r caller :
  settled s q -> g_current_thread s = Some c -> threads s !! c = Some r -> g_idle_thread s = Some c -> may_leave r -> caller <> InExit ->
  leaving s q c r caller.
Proof. intros [S1 S2 S3 S4 S5] Hc Hr Hi Hml Hx. split; try done. by right. Qed.

Lemma dispatch_idle_post s q c r at_tail reset caller enabled :
  settled s q -> g_current_thread s = Some c -> threads s !! c = Some r -> g_idle_thread s = Some c -> may_leave r -> caller <> InExit ->
  post kernel (dispatch false at_tail reset true caller enabled s) (handed caller enabled s q c).
Proof.
  intros Hs Hc Hr Hi Hml Hx. unfold dispatch. rewrite seq_read, seq_read, Hc. apply seq_assoc. rewrite (seq_thread c r) by done. cbn [andb]. rewrite seq_ret.
  eapply (give_post s q c r); [by apply idle_leaving|]. right. right. congruence.
Qed.

(** ** Ends of calls *)
Definition well_ended (ctl : Control) (s : Sched) : Prop :=
  (exists q, settled s q) /\
  match ctl with
  | Halts => False
  | Returns InLowerElIrq _ => True
  | Returns _ _ | EntersThread _ => in_kernel s
  | ResumesUser _ | EntersUser _ _ _ => True
  end.

Lemma resumes_ended c ctl s : resumes c ctl s -> match ctl with Halts => False | Returns InLowerElIrq _ => True | Returns _ _ | EntersThread _ => in_kernel s | _ => True end.
Proof.
  unfold resumes. destruct (Z.testbit _ 62); [by intros ->|]. destruct (Z.testbit _ 63); [by intros (pc & _ & ->)|].
  destruct (program_counter c) as [|[|caller enabled]]; [done|by intros (-> & _ & Hk)|intros (-> & _ & Hk)]. by destruct caller.
Qed.

Lemma handed_ended caller enabled s q c ctl s' :
  handed caller enabled s q c ctl s' -> in_kernel s \/ caller = InLowerElIrq -> well_ended ctl s'.
Proof.
  intros [(n & rn & Hch & Hn & Hrn & Hcase) (q' & Hs' & _) _ _] Hk. split; [by exists q'|]. case_decide as Hnc.
  - destruct Hcase as (-> & _ & Hk'). destruct Hk as [Hk| ->]; [|done]. apply Hk' in Hk. by destruct caller.
  - by eapply resumes_ended.
Qed.

Lemma rotated_ended c at_tail caller enabled s q ctl s' :
  rotated c at_tail caller enabled s q ctl s' -> in_kernel s \/ caller = InLowerElIrq -> well_ended ctl s'.
Proof. intros (s1 & q1 & _ & Hk1 & Hh) Hk. eapply handed_ended; [done|]. destruct Hk; [left; by apply Hk1|by right]. Qed.

Lemma in_kernel_may_leave s c r : in_kernel s -> g_current_thread s = Some c -> threads s !! c = Some r -> may_leave r.
Proof. intros Hk Hc Hr. right. by apply (Hk c r). Qed.

(** ** The opening of the calls: interrupts off, ended threads destroyed *)
Lemma opening_exact {B} s q (k : unit -> M B) Q :
  settled s q -> in_kernel s ->
  (forall s1 q1, settled s1 q1 -> in_kernel s1 -> grows [] (with_interrupts false s) q s1 q1 -> reaped s1 ->
     (retired q = [] -> s1 = with_interrupts false s /\ q1 = q) -> post kernel (k tt s1) Q) ->
  post kernel (seq reap_retired_threads k (with_interrupts false s)) Q.
Proof.
  intros Hs Hk Hcont. pose proof (settled_interrupts s q false Hs) as Hs0.
  eapply post_seq; [apply (reap_post _ q); apply Hs0|]. cbn beta. intros [] s1 (q1 & Hinv1 & Hg & Hre & Hnone).
  apply (Hcont s1 q1); [by eapply grows_settled|by eapply (grows_in_kernel _ q); [apply Hs0|done|done]|done|done|done].
Qed.

Lemma opening {B} s q (k : unit -> M B) Q :
  settled s q -> in_kernel s ->
  (forall s1 q1, settled s1 q1 -> in_kernel s1 -> grows [] (with_interrupts false s) q s1 q1 -> reaped s1 -> post kernel (k tt s1) Q) ->
  post kernel (seq reap_retired_threads k (with_interrupts false s)) Q.
Proof. intros Hs Hk Hcont. apply (opening_exact s q); [done|done|]. intros s1 q1 H1 H2 H3 H4 _. by apply (Hcont s1 q1). Qed.

(** ** Stopping the running thread *)
Lemma stop_running s q c r f :
  settled s q -> in_kernel s -> g_current_thread s = Some c -> threads s !! c = Some r -> g_idle_thread s <> Some c ->
  same_links r (f r) -> current_state (f r) = Waiting \/ (current_state (f r) = Terminated /\ wake_tick (f r) = wake_tick r) ->
  current_priority (f r) = current_priority r -> t_parent (f r) = t_parent r -> t_name (f r) = t_name r -> t_context (f r) = t_context r ->
  quantum_ticks (f r) = quantum_ticks r -> quantum_ticks_remaining (f r) = quantum_ticks_remaining r ->
  let s1 := with_threads (<[c := f r]> (threads s)) s in
  threads s1 !! c = Some (f r) /\ c ∉ sleepers q /\ c ∉ retired q /\
  forall caller, (caller = InExit -> current_state (f r) = Terminated) -> leaving s1 q c (f r) caller.
Proof.
  intros [S1 (c' & r' & Hc' & Hr' & Hst) S3 S4 S5] Hk Hc Hr Hi Hl Hf E1 E2 E3 E4 E5 E6. rewrite Hc in Hc'. injection Hc' as <-. rewrite Hr in Hr'. injection Hr' as <-.
  assert (in_ready_queue r = false) as Hq.
  { destruct (in_ready_queue r) eqn:Hq; [|done]. destruct (ready_in _ _ _ _ _ (inv_ready _ _ S1) c r Hr Hq) as ((_ & _ & E) & _). congruence. }
  assert (c ∉ sleepers q) as Hns by (intros Hsl; pose proof (sl_waiting _ _ _ _ (inv_sleep _ _ S1) c r Hsl Hr); congruence).
  assert (c ∉ retired q) as Hnr by (intros Hre; pose proof (re_ended _ _ _ _ (inv_retired _ _ S1) c r Hre Hr); congruence).
  pose proof (inv_threads _ _ S1 c r Hr) as [K1 K2 K3 K4 K5]. destruct (Hk c r Hc Hr) as [B62 B63].
  cbn zeta. sched_cbn. lookups. split_and!; [done..|]. intros caller Hx. split; [| | | | | | |done].
  - apply (inv_update s q S1 c r (f r)); try done; [congruence|]. split; [by rewrite E1|by rewrite E5, E6|by rewrite E3| |by rewrite E2].
    intros Hnw. destruct Hf as [|[_ ->]]; [done|]. apply K4. congruence.
  - sched_cbn. by lookups.
  - left. destruct Hf as [->|[-> _]]; done.
  - intros t rt. sched_cbn. destruct (decide (t = c)) as [->|Hne]; [by left|]. rewrite lookup_insert_ne by done. apply S3.
  - intros t rt. sched_cbn. intros Hrt Hne. rewrite lookup_insert_ne in Hrt by congruence. by apply (S4 t).
  - intros c2 r2 p x. sched_cbn. rewrite Hc. intros [= <-]. lookups. intros [= <-]. rewrite E2. by apply (S5 c r).
  - right. by rewrite E4.
Qed.

Lemma blocking_post caller park s q c r Q :
  settled s q -> in_kernel s -> g_current_thread s = Some c -> threads s !! c = Some r -> g_idle_thread s <> Some c ->
  (forall s1 q1 r1, settled s1 q1 -> in_kernel s1 -> grows [] (with_interrupts false s) q s1 q1 -> g_current_thread s1 = Some c -> g_idle_thread s1 <> Some c ->
     threads s1 !! c = Some r1 -> post kernel (park c (interrupts s) s1) Q) ->
  post kernel (blocking caller park s) Q.
Proof.
  intros Hs Hk Hc Hr Hi Hpark. unfold blocking. rewrite seq_mask. cbn zeta. eapply (opening s q); [done|done|]. intros s1 q1 Hs1 Hk1 Hg _.
  rewrite seq_read, seq_read. pose proof (gr_current _ _ _ _ _ Hg) as Hc1. pose proof (gr_idle _ _ _ _ _ Hg) as Hi1. cbn in Hc1, Hi1.
  rewrite Hc1, Hi1, Hc. rewrite bool_decide_eq_false_2 by congruence.
  destruct (se_running _ _ Hs1) as (c1 & r1 & Hcc & Hr1 & Hst1). rewrite Hc1, Hc in Hcc. injection Hcc as <-.
  rewrite (seq_thread c r1) by done. rewrite bool_decide_eq_true_2 by done. cbn [negb]. apply (Hpark s1 q1 r1); try done; congruence.
Qed.

(** The idle thread is never parked. *)
Lemma blocking_idle caller park s q c :
  settled s q -> in_kernel s -> g_current_thread s = Some c -> g_idle_thread s = Some c ->
  post kernel (blocking caller park s) (fun ctl s' => ctl = Returns caller StatusBusy /\ exists q', settled s' q' /\ in_kernel s' /\
    grows [] s q s' q').
Proof.
  intros Hs Hk Hc Hi. unfold blocking. rewrite seq_mask. cbn zeta. eapply (opening s q); [done|done|]. intros s1 q1 Hs1 Hk1 Hg _.
  rewrite seq_read, seq_read. pose proof (gr_current _ _ _ _ _ Hg) as Hc1. pose proof (gr_idle _ _ _ _ _ Hg) as Hi1. cbn in Hc1, Hi1.
  rewrite Hc1, Hi1, Hc, Hi, bool_decide_eq_true_2 by done. rewrite seq_unmask. apply post_ret. split; [done|]. exists q1.
  split_and!; [by apply settled_interrupts|done|]. destruct Hg. by split.
Qed.

(** ** Blocking *)

(** The state in which the running thread of [s] waits and another is chosen. *)
Record parked (c : Z) (reason : WaitReason) (object : option Z) (s : Sched) (q : Queues) (s1 : Sched) (q1 : Queues) : Prop := {
  pk_thread : exists r, threads s1 !! c = Some r /\ current_state r = Waiting /\ wait_status r = wait_reason_code reason /\ wait_object r = object;
  pk_ready p l : ready q !! p = Some l -> exists new, ready q1 !! p = Some (l ++ new);
  pk_context t r1 : threads s1 !! t = Some r1 -> exists r, threads s !! t = Some r /\ t_context r1 = t_context r;
  pk_same : g_current_thread s1 = g_current_thread s /\ g_idle_thread s1 = g_idle_thread s /\ g_tick_count s1 = g_tick_count s;
  pk_sleepers t : t <> c -> t ∈ sleepers q1 -> t ∈ sleepers q;
  pk_waits t w : t <> c -> waits t w s q -> waits t w s1 q1
}.

Lemma thread_grows_context s t r r' : thread_grows s t r r' -> t_context r' = t_context r.
Proof.
  intros [[E _]|(_ & _ & W)]; [by destruct (still_fields _ _ E) as (_ & _ & _ & _ & _ & ? & _)|by destruct (woken_fields _ _ W) as (_ & _ & _ & _ & _ & ?)].
Qed.

Lemma parked_update c reason object s q s1 q1 r1 f :
  inv s q -> inv s1 q1 -> grows [] s q s1 q1 -> threads s1 !! c = Some r1 -> t_context (f r1) = t_context r1 ->
  current_state (f r1) = Waiting -> wait_status (f r1) = wait_reason_code reason -> wait_object (f r1) = object ->
  parked c reason object s q (with_threads (<[c := f r1]> (threads s1)) s1) q1.
Proof.
  intros Hinv Hinv1 Hg Hr1 Hx Hst Hw Ho. split; sched_cbn.
  - exists (f r1). by lookups.
  - apply (gr_ready _ _ _ _ _ Hg).
  - intros t rt Hrt. destruct (decide (t = c)) as [->|Hne].
    + revert Hrt. lookups. intros [= <-]. destruct (grows_back _ _ _ _ c r1 Hg Hr1) as (r & Hr & G). exists r. split; [done|]. rewrite Hx. by eapply thread_grows_context.
    + rewrite lookup_insert_ne in Hrt by done. destruct (grows_back _ _ _ _ t rt Hg Hrt) as (r & Hr & G). exists r. split; [done|]. by eapply thread_grows_context.
  - rewrite (gr_current _ _ _ _ _ Hg), (gr_idle _ _ _ _ _ Hg), (gr_tick _ _ _ _ _ Hg). done.
  - intros t _ Ht. by eapply elem_of_sublist, (gr_sleep _ _ _ _ _ Hg).
  - intros t w Hne Hwt. apply (waits_others c t w s1); [|done|by apply (grows_waits t w s q)].
    intros u Hu. sched_cbn. by rewrite lookup_insert_ne.
Qed.

Lemma stopped_not_chosen s q c r : inv s q -> threads s !! c = Some r -> current_state r <> Ready -> current_state r <> Running -> chosen s q <> Some c.
Proof.
  intros Hinv Hr Hst Hst2 Hch. unfold chosen in Hch. destruct (best (ready q)) as [[p [|t l]]|] eqn:HB.
  - by destruct (best_level _ _ _ HB) as (_ & [] & _).
  - injection Hch as ->. destruct (best_level _ _ _ HB) as (Hl & _).
    destruct (rr_member _ _ _ _ _ (inv_ready _ _ Hinv) p _ c Hl ltac:(apply list_elem_of_here)) as (r' & Hr' & _ & _ & Hst'). congruence.
  - destruct (inv_idle _ _ Hinv) as (i & ri & Hi & Hri & _ & [Hs|Hs]); congruence.
Qed.

Lemma waiting_not_chosen s q c r : inv s q -> threads s !! c = Some r -> current_state r = Waiting -> chosen s q <> Some c.
Proof. intros Hinv Hr Hst. by apply (stopped_not_chosen s q c r); rewrite ?Hst. Qed.

(** The processor goes to another thread, which is resumed from its context. *)
Record passed (c : Z) (s1 : Sched) (q1 : Queues) (ctl : Control) (s' : Sched) : Prop := {
  ps_next : exists n rn, chosen s1 q1 = Some n /\ n <> c /\ threads s1 !! n = Some rn /\ g_current_thread s' = Some n /\ resumes (t_context rn) ctl s';
  ps_settled : exists q', settled s' q' /\ (forall p l, ready (rest q1) !! p = Some l -> exists new, ready q' !! p = Some (l ++ new)) /\
    forall t w, chosen s1 q1 <> Some t -> waits t w s1 q1 -> waits t w s' q';
  ps_same : g_idle_thread s' = g_idle_thread s1 /\ g_tick_count s' = g_tick_count s1
}.

Lemma handed_passed caller enabled s1 q1 c ctl s' : handed caller enabled s1 q1 c ctl s' -> chosen s1 q1 <> Some c -> passed c s1 q1 ctl s'.
Proof.
  intros [(n & rn & Hch & Hn & Hrn & Hcase) H2 H3 H4] Hne. assert (n <> c) as Hnc by (intros ->; done). rewrite decide_False in Hcase by done.
  split; [|done|done]. exists n, rn. split_and!; done.
Qed.

Lemma passed_ended c s1 q1 ctl s' : passed c s1 q1 ctl s' -> well_ended ctl s'.
Proof. intros [(n & rn & _ & _ & _ & _ & Hres) (q' & Hs & _) _]. split; [by exists q'|]. by eapply resumes_ended. Qed.

Lemma block_current_post s q c reason object :
  settled s q -> in_kernel s -> g_current_thread s = Some c -> g_idle_thread s <> Some c ->
  post kernel (block_current reason object s) (fun ctl s' => exists s1 q1, parked c reason object (with_interrupts false s) q s1 q1 /\ passed c s1 q1 ctl s').
Proof.
  intros Hs Hk Hc Hi. destruct (se_running _ _ Hs) as (c' & r & Hc' & Hr & _). rewrite Hc in Hc'. injection Hc' as <-.
  unfold block_current. eapply (blocking_post InBlock _ s q c r); [done..|]. intros s1 q1 r1 Hs1 Hk1 Hg Hc1 Hi1 Hr1. cbn beta.
  rewrite (seq_update c r1) by done. set (f := fun r => with_current_state Waiting (with_wait object (wait_reason_code reason) r)).
  destruct (stop_running s1 q1 c r1 f) as (Hr2 & _ & _ & Hlv); try done; [by left|]. specialize (Hlv InBlock ltac:(done)).
  eapply post_mono; [|eapply (give_post _ q1 c (f r1)); [exact Hlv|right; by left]]. intros ctl s' Hh. exists (with_threads (<[c := f r1]> (threads s1)) s1), q1.
  split; [eapply parked_update; try done; [by apply inv_interrupts, Hs|apply Hs1]|]. eapply handed_passed; [done|]. eapply waiting_not_chosen; [apply Hlv|exact Hr2|done].
Qed.

(** ** Timed waits *)
(** The thread is on the sleep queue until its tick. *)
Definition sleeps_until (c : Z) (tick : Z) (s1 : Sched) (q1 : Queues) : Prop := c ∈ sleepers q1 /\ wake_of (threads s1) c = tick.

Lemma park_until_ok s q c r object reason delay s0 q0 :
  settled s q -> in_kernel s -> g_current_thread s = Some c -> threads s !! c = Some r -> g_idle_thread s <> Some c -> inv s0 q0 -> grows [] s0 q0 s q ->
  exists s1 q1 r1, park_until c object reason delay s = Ok s1 /\ parked c reason object s0 q0 s1 q1 /\
    sleeps_until c (u64 (g_tick_count s + delay)) s1 q1 /\ threads s1 !! c = Some r1 /\ current_state r1 = Waiting /\
    forall caller, caller <> InExit -> leaving s1 q1 c r1 caller.
Proof.
  intros Hs Hk Hc Hr Hi Hinv0 Hg. set (f := fun r => with_current_state Waiting (with_wake_tick (u64 (g_tick_count s + delay)) (with_wait object (wait_reason_code reason) r))).
  destruct (stop_running s q c r f) as (Hr1 & Hns & _ & Hlv); try done; [by left|].
  pose proof (parked_update c reason object s0 q0 s q r f Hinv0 (se_inv _ _ Hs) Hg Hr ltac:(done) ltac:(done) ltac:(done) ltac:(done)) as Hpk.
  unfold park_until. rewrite (thread_set_ok c r f), bind_ok by done. set (s1 := with_threads _ s) in *.
  pose proof (lv_inv _ _ _ _ _ (Hlv InBlock ltac:(done))) as Hinv1.
  destruct (inv_sleep_insert s1 q Hinv1 c (f r) Hr1 ltac:(done) Hns) as (m & hd & tl & l1 & l2 & El & _ & _ & Hrun & Hinv2 & Hk2).
  set (s2 := set_sleep m hd tl s1) in *. set (q2 := with_sleepers (l1 ++ c :: l2) q) in *. destruct (keeps_lookup _ _ _ _ _ Hk2 Hr1) as (r2 & Hr2 & E2).
  exists s2, q2, r2. split_and!; try done.
  - destruct Hpk as [(rp & P1 & P1' & P1'' & P1o) P2 P3 P4 P5 P6]. rewrite Hr1 in P1. injection P1 as <-. split; try done.
    + exists r2. split_and!; [done|rewrite <- P1'; exact (f_equal current_state E2)|rewrite <- P1''; exact (f_equal wait_status E2)|rewrite <- P1o; exact (f_equal wait_object E2)].
    + intros t rt Hrt. destruct (keeps_back _ _ _ _ _ Hk2 Hrt) as (rt1 & Hrt1 & E). assert (t_context rt = t_context rt1) as -> by exact (f_equal t_context E). by apply P3.
    + intros t Hne Ht. apply (P5 t Hne). rewrite El. cbn in Ht. set_solver.
    + intros t w Hne Ht. specialize (P6 t w Hne Ht). revert P6. apply waits_frame; [by apply wake_keeps, bare_unslept| |eauto].
      unfold q2. cbn [sleepers with_sleepers]. rewrite El. set_solver.
  - split; [unfold q2; cbn [sleepers with_sleepers]; set_solver|]. unfold wake_of. change (threads s2) with m. rewrite Hr2. exact (f_equal wake_tick E2).
  - exact (f_equal current_state E2).
  - intros caller Hx. destruct (leaving_relinked s1 q c (f r) caller s2 q2) as (r3 & L3 & _); [by apply Hlv|done|by apply bare_unslept|done..|].
    pose proof (lv_current _ _ _ _ _ L3) as [_ Hr3]. change (m !! c = Some r3) in Hr3. rewrite Hr2 in Hr3. by injection Hr3 as <-.
Qed.

Lemma timed_post s q c caller object reason delay :
  settled s q -> in_kernel s -> g_current_thread s = Some c -> g_idle_thread s <> Some c -> caller <> InExit ->
  post kernel (blocking caller (fun c interrupts_enabled =>
      change (park_until c object reason delay) ;;;
      let! next := exec (pick_next_thread false) in
      switch_to_thread next caller interrupts_enabled) s)
    (fun ctl s' => exists s1 q1, parked c reason object (with_interrupts false s) q s1 q1 /\
       sleeps_until c (u64 (g_tick_count s + delay)) s1 q1 /\ passed c s1 q1 ctl s').
Proof.
  intros Hs Hk Hc Hi Hx. destruct (se_running _ _ Hs) as (c' & r & Hc' & Hr & _). rewrite Hc in Hc'. injection Hc' as <-.
  eapply (blocking_post caller _ s q c r); [done..|]. intros s1 q1 r1 Hs1 Hk1 Hg Hc1 Hi1 Hr1. cbn beta.
  destruct (park_until_ok s1 q1 c r1 object reason delay _ _ Hs1 Hk1 Hc1 Hr1 Hi1 (inv_interrupts _ _ false (se_inv _ _ Hs)) Hg) as (s2 & q2 & r2 & Hrun & Hpk & Hsl & Hr2 & Hst2 & Hlv).
  rewrite (seq_change _ _ _ _ Hrun). specialize (Hlv caller Hx). rewrite (gr_tick _ _ _ _ _ Hg) in Hsl.
  eapply post_mono; [|eapply (give_post s2 q2 c r2); [exact Hlv|right; by left]]. intros ctl s' Hh. exists s2, q2. split_and!; [done|done|].
  eapply handed_passed; [done|]. eapply waiting_not_chosen; [apply Hlv|done|done].
Qed.

(** ** Yielding *)
Lemma count_best s q : inv s q -> (g_ready_count s = 0 <-> best (ready q) = None).
Proof.
  intros Hinv. pose proof (best_bitmap _ _ _ _ _ (inv_ready _ _ Hinv)) as Hb. destruct (best (ready q)) as [[p l]|].
  - destruct Hb as (_ & _ & _ & Hb). split; [done|congruence].
  - destruct Hb as (_ & ->). done.
Qed.

Lemma settled_reset s q c r :
  settled s q -> g_current_thread s = Some c -> threads s !! c = Some r ->
  let s1 := with_threads (<[c := with_quantum_ticks_remaining (full_quantum r) r]> (threads s)) s in
  reset_quantum (Some c) s = Ok s1 /\ settled s1 q /\ (in_kernel s -> in_kernel s1).
Proof.
  intros Hs Hc Hr. cbn zeta. destruct (inv_reset_quantum s q c r (se_inv _ _ Hs) Hr) as [Hrun _]. split_and!; [done| |].
  - destruct (se_running _ _ Hs) as (c' & r' & Hc' & Hr' & Hst). rewrite Hc in Hc'. injection Hc' as <-. rewrite Hr in Hr'. injection Hr' as <-.
    pose proof (inv_threads _ _ (se_inv _ _ Hs) c r Hr) as [_ [Hq1 _] _ Hw _]. pose proof (full_quantum_range _ Hq1).
    apply (settled_update s q c r (fun r => with_quantum_ticks_remaining (full_quantum r) r) Hs); try done; [|cbn; lia]. cbn. apply Hw. congruence.
  - by apply (in_kernel_update s c r (fun r => with_quantum_ticks_remaining (full_quantum r) r)).
Qed.

(** What [yield] does: the thread goes to the end of its level and the best thread
    runs; with no other ready thread it goes on. *)
Inductive yielded (c : Z) (enabled : bool) (s : Sched) (q : Queues) (ctl : Control) (s' : Sched) : Prop :=
| yielded_alone q' : g_idle_thread s <> Some c -> best (ready q) = None -> settled s' q' -> in_kernel s' -> g_current_thread s' = Some c ->
    g_tick_count s' = g_tick_count s -> (forall t w, t <> c -> waits t w s q -> waits t w s' q') ->
    ctl = Returns InYield StatusOK -> yielded c enabled s q ctl s'
| yielded_rotated : g_idle_thread s <> Some c -> best (ready q) <> None -> rotated c true InYield enabled s q ctl s' -> yielded c enabled s q ctl s'
| yielded_idle : g_idle_thread s = Some c -> handed InYield enabled s q c ctl s' -> yielded c enabled s q ctl s'.

Lemma yield_post s q c :
  settled s q -> in_kernel s -> g_current_thread s = Some c ->
  post kernel (yield s) (fun ctl s' => exists s1 q1, settled s1 q1 /\ in_kernel s1 /\ grows [] (with_interrupts false s) q s1 q1 /\ yielded c (interrupts s) s1 q1 ctl s').
Proof.
  intros Hs Hk Hc. unfold yield. rewrite seq_mask. eapply (opening s q); [done|done|]. intros s1 q1 Hs1 Hk1 Hg _. rewrite !seq_read.
  pose proof (gr_current _ _ _ _ _ Hg) as Hc1. cbn in Hc1. rewrite Hc in Hc1. rewrite Hc1.
  destruct (se_running _ _ Hs1) as (c' & r & Hc' & Hr & _). rewrite Hc1 in Hc'. injection Hc' as <-. pose proof (in_kernel_may_leave s1 c r Hk1 Hc1 Hr) as Hml.
  destruct (decide (g_idle_thread s1 = Some c)) as [Hi|Hi].
  - rewrite bool_decide_eq_true_2 by done. cbn [negb andb]. eapply post_mono; [|eapply (dispatch_idle_post s1 q1 c r); done].
    intros ctl s' Hh. exists s1, q1. split_and!; [done..|]. by constructor 3.
  - rewrite bool_decide_eq_false_2 by congruence. cbn [negb andb]. destruct (Z.eqb_spec (g_ready_count s1) 0) as [E|E].
    + destruct (settled_reset s1 q1 c r Hs1 Hc1 Hr) as (Hrun & Hs2 & Hk2). rewrite (seq_change _ _ _ _ Hrun), seq_unmask. apply post_ret.
      exists s1, q1. split_and!; [done..|]. eapply yielded_alone; [done|by apply (count_best s1 q1 (se_inv _ _ Hs1))|by apply settled_interrupts|by apply Hk2|done|done| |done].
      intros t w Hne. apply (waits_others c); [|done]. intros u Hu. sched_cbn. by rewrite lookup_insert_ne.
    + eapply post_mono; [|eapply (dispatch_post s1 q1 c r); done]. intros ctl s' Hh. exists s1, q1. split_and!; [done..|].
      constructor 2; [done| |done]. by rewrite <- (count_best s1 q1 (se_inv _ _ Hs1)).
Qed.

Lemma yielded_ended c enabled s q ctl s' : in_kernel s -> yielded c enabled s q ctl s' -> well_ended ctl s'.
Proof.
  intros Hk [q' _ _ Hs Hk' _ _ _ ->|_ _ Hr|_ Hh]; [split; [by exists q'|done]|by eapply rotated_ended; [done|left]|by eapply handed_ended; [done|left]].
Qed.
