(* ===== verification/SchedTimer.v ===== *)
(** The timer: ticks, the end of a time slice and the calls that act on it. *)
From stdpp Require Import base list gmap.
From Stdlib Require Import ZArith Lia Sorted.
From S2P Require Import Prelude KernelText DList KernelIface SchedState Scheduler SchedQueues SchedOps SchedInv SchedLogic SchedProofs SchedSwitch SchedCalls.

Local Open Scope Z_scope.

Lemma settled_tick s q n : settled s q -> settled (with_g_tick_count n s) q.
Proof. intros [S1 S2 S3 S4 S5]. by split; [apply inv_tick|..]. Qed.
#[export] Hint Resolve settled_tick : sched.

Lemma settled_awake s q : settled s q -> awake s.
Proof. intros [_ (c & r & Hc & Hr & Hst) _ _ _] c' r' Hc' Hr'. rewrite Hc in Hc'. injection Hc' as <-. rewrite Hr in Hr'. injection Hr' as <-. congruence. Qed.

Lemma settled_current s q c : settled s q -> g_current_thread s = Some c -> exists r, threads s !! c = Some r /\ current_state r = Running.
Proof. intros [_ (c' & r & Hc' & Hr & Hst) _ _ _] Hc. rewrite Hc in Hc'. injection Hc' as <-. eauto. Qed.

Lemma settled_some s q : settled s q -> exists c, g_current_thread s = Some c.
Proof. intros [_ (c & r & Hc & _) _ _ _]. eauto. Qed.

(** ** One tick *)

(** The time slice of the running thread after a tick, with the threads of [q]
    ready: it is full where nothing else can run, and one tick shorter otherwise. *)
Definition slice_after (q : Queues) (r : Thread) : Z :=
  match best (ready q) with None => full_quantum r | Some _ => Z.max 0 (quantum_ticks_remaining r - 1) end.

Record ticked (s : Sched) (q : Queues) (s' : Sched) (q' : Queues) : Prop := {
  tk_settled : settled s' q';
  tk_kernel : in_kernel s -> in_kernel s';
  tk_count : g_tick_count s' = u64 (g_tick_count s + 1);
  tk_same : g_current_thread s' = g_current_thread s /\ g_idle_thread s' = g_idle_thread s /\ interrupts s' = interrupts s;
  tk_late : Forall (fun t => g_tick_count s' < wake_of (threads s') t) (sleepers q');
  tk_due t : t ∈ sleepers q -> wake_of (threads s) t <= g_tick_count s' ->
    exists r', threads s' !! t = Some r' /\ current_state r' = Ready /\ in_ready_queue r' = true;
  tk_sleeps t : t ∈ sleepers q -> t ∈ sleepers q' \/ exists r', threads s' !! t = Some r' /\ current_state r' = Ready /\ in_ready_queue r' = true;
  tk_wakes t : t ∈ sleepers q' -> t ∈ sleepers q /\ wake_of (threads s') t = wake_of (threads s) t;
  tk_queued t r : threads s !! t = Some r -> current_state r = Ready -> in_ready_queue r = true ->
    exists r', threads s' !! t = Some r' /\ current_state r' = Ready /\ in_ready_queue r' = true;
  tk_ready p l : ready q !! p = Some l -> exists new, ready q' !! p = Some (l ++ new);
  tk_slice c r : g_current_thread s = Some c -> g_idle_thread s <> Some c -> threads s !! c = Some r ->
    exists r', threads s' !! c = Some r' /\ current_priority r' = current_priority r /\ quantum_ticks_remaining r' = slice_after q' r /\
      (quantum_ticks_remaining r' = 0 -> g_reschedule_pending s' = true);
  tk_idle : g_current_thread s = g_idle_thread s -> best (ready q') <> None -> g_reschedule_pending s' = true
}.

Lemma grows_queued s q s' q' t r : inv s q -> grows [] s q s' q' -> threads s !! t = Some r -> current_state r = Ready -> in_ready_queue r = true ->
  exists r', threads s' !! t = Some r' /\ current_state r' = Ready /\ in_ready_queue r' = true.
Proof.
  intros Hinv Hg Hr Hst Hf. destruct (grows_live _ _ _ _ t r Hinv Hg Hr) as (r' & Hr' & G); [congruence|]. exists r'. split; [done|]. by eapply thread_grows_ready.
Qed.

(** The part of a tick that only concerns the sleepers. *)
Lemma woken_up_grows s q s2 q2 :
  settled s q -> settled s2 q2 -> let s1 := with_g_tick_count (u64 (g_tick_count s + 1)) (with_interrupts false s) in
  grows [] s1 q s2 q2 -> Forall (fun t => g_tick_count s1 < wake_of (threads s2) t) (sleepers q2) ->
  forall t, t ∈ sleepers q -> wake_of (threads s) t <= g_tick_count s2 ->
  exists r', threads s2 !! t = Some r' /\ current_state r' = Ready /\ in_ready_queue r' = true.
Proof.
  intros Hs Hs2 s1 Hg Hlate t Ht Hw. destruct (gr_left _ _ _ _ _ Hg t Ht) as [Ht2|]; [|done]. exfalso.
  rewrite Forall_forall in Hlate. apply Hlate in Ht2 as Hl. rewrite (gr_tick _ _ _ _ _ Hg) in Hw.
  assert (inv s1 q) as Hinv1 by (apply inv_tick, inv_interrupts, Hs).
  destruct (grows_wake s1 q s2 q2 t Hinv1 (se_inv _ _ Hs2) Hg Ht2) as (_ & E). cbn in E. lia.
Qed.

(** The end of a tick changes the slice of the running thread and the pending flag. *)
Definition slice_end (interrupts_enabled : bool) : M unit :=
  let! current := read_var g_current_thread in
  let! idle := read_var g_idle_thread in
  let! ready := read_var g_ready_count in
  match current with
  | None => ret tt
  | Some c =>
      if bool_decide (current = idle) then
        (if negb (ready =? 0) then set_var (with_g_reschedule_pending true) else ret tt)
      else if ready =? 0 then change (reset_quantum current)
      else
        let! r := thread_at c in
        (if 0 <? quantum_ticks_remaining r
         then update c (fun r => with_quantum_ticks_remaining (u32 (quantum_ticks_remaining r - 1)) r) else ret tt) ;;;
        let! r := thread_at c in
        (if quantum_ticks_remaining r =? 0 then set_var (with_g_reschedule_pending true) else ret tt)
  end ;;;
  restore_interrupts interrupts_enabled.

(** [s'] is [s] but for the slice of [c], the pending flag and the mask. *)
Record sliced (enabled : bool) (s : Sched) (q : Queues) (s' : Sched) : Prop := {
  sc_settled : settled s' q;
  sc_kernel : in_kernel s -> in_kernel s';
  sc_same : g_current_thread s' = g_current_thread s /\ g_idle_thread s' = g_idle_thread s /\ g_tick_count s' = g_tick_count s /\ interrupts s' = enabled;
  sc_threads t r : threads s !! t = Some r -> exists r', threads s' !! t = Some r' /\ current_state r' = current_state r /\
    in_ready_queue r' = in_ready_queue r /\ wake_tick r' = wake_tick r;
  sc_wake t : wake_of (threads s') t = wake_of (threads s) t;
  sc_slice c r : g_current_thread s = Some c -> g_idle_thread s <> Some c -> threads s !! c = Some r ->
    exists r', threads s' !! c = Some r' /\ current_priority r' = current_priority r /\ quantum_ticks_remaining r' = slice_after q r /\
      (quantum_ticks_remaining r' = 0 -> g_reschedule_pending s' = true);
  sc_idle : g_current_thread s = g_idle_thread s -> best (ready q) <> None -> g_reschedule_pending s' = true
}.

(** The slice of the running thread is set to [n] and the flag to [b]. *)
Lemma sliced_update enabled s q c r n b :
  settled s q -> g_current_thread s = Some c -> threads s !! c = Some r -> g_idle_thread s <> Some c ->
  n = slice_after q r -> (n = 0 -> b = true) ->
  sliced enabled s q (with_interrupts enabled (with_g_reschedule_pending b (with_threads (<[c := with_quantum_ticks_remaining n r]> (threads s)) s))).
Proof.
  intros Hs Hc Hr Hi -> Hb. pose proof (inv_threads _ _ (se_inv _ _ Hs) c r Hr) as [_ [Hq1 Hq2] _ Hw _]. destruct (settled_current s q c Hs Hc) as (r' & Hr' & Hst).
  rewrite Hr in Hr'. injection Hr' as <-. pose proof (full_quantum_range r Hq1) as Hfull.
  assert (0 <= slice_after q r < 2 ^ 32) as Hn by (unfold slice_after; destruct (best _); lia).
  set (f := fun r0 : Thread => with_quantum_ticks_remaining (slice_after q r) r0). split.
  - apply settled_interrupts, settled_pending. apply (settled_update s q c r f Hs); try done. apply Hw. congruence.
  - intros Hk. by apply (in_kernel_update s c r f).
  - done.
  - intros t rt Hrt. sched_cbn. destruct (decide (t = c)) as [->|Hne]; [|rewrite lookup_insert_ne by done; eauto].
    lookups. rewrite Hr in Hrt. injection Hrt as <-. eauto.
  - intros t. unfold wake_of. sched_cbn. destruct (decide (t = c)) as [->|Hne]; [|by rewrite lookup_insert_ne]. lookups. by rewrite Hr.
  - intros c' rc Hc' _ Hrc. rewrite Hc in Hc'. injection Hc' as <-. rewrite Hr in Hrc. injection Hrc as <-. sched_cbn. lookups.
    eexists. split_and!; [done|done|done|]. exact Hb.
  - intros E. congruence.
Qed.

Lemma sliced_idle enabled s q c b :
  settled s q -> g_current_thread s = Some c -> g_idle_thread s = Some c -> (best (ready q) <> None -> b = true) ->
  sliced enabled s q (with_interrupts enabled (with_g_reschedule_pending b s)).
Proof.
  intros Hs Hc Hi Hb. split; try done; [by apply settled_interrupts, settled_pending|eauto|]. intros c' rc Hc' Hi'. congruence.
Qed.

Lemma same_pending s : with_g_reschedule_pending (g_reschedule_pending s) s = s.
Proof. by destruct s. Qed.

Lemma slice_post enabled s q : settled s q -> post kernel (slice_end enabled s) (fun _ s' => sliced enabled s q s').
Proof.
  intros Hs. destruct (settled_some s q Hs) as (c & Hc). destruct (settled_current s q c Hs Hc) as (r & Hr & Hst).
  pose proof (count_best s q (se_inv _ _ Hs)) as Hcount. pose proof (inv_threads _ _ (se_inv _ _ Hs) c r Hr) as [_ [Hq1 Hq2] _ _ _].
  unfold slice_end. rewrite !seq_read, Hc. case_bool_decide as Hi.
  - destruct (Z.eqb_spec (g_ready_count s) 0) as [E|E]; cbn [negb].
    + rewrite seq_ret. cbn. pose proof (sliced_idle enabled s q c (g_reschedule_pending s) Hs Hc ltac:(done)) as H. rewrite same_pending in H. apply H. tauto.
    + rewrite seq_set. cbn. by apply (sliced_idle enabled s q c true Hs Hc).
  - destruct (Z.eqb_spec (g_ready_count s) 0) as [E|E].
    + destruct (settled_reset s q c r Hs Hc Hr) as (Hrun & _). rewrite (seq_change _ _ _ _ Hrun). cbn.
      assert (best (ready q) = None) as HB by tauto. pose proof (full_quantum_range r Hq1) as Hfull.
      pose proof (sliced_update enabled s q c r (full_quantum r) (g_reschedule_pending s) Hs Hc Hr ltac:(congruence)) as H.
      rewrite <- (same_pending s) at 2. apply H; [unfold slice_after; by rewrite HB|lia].
    + assert (best (ready q) <> None) as HB by tauto.
      assert (slice_after q r = Z.max 0 (quantum_ticks_remaining r - 1)) as Hsl by (unfold slice_after; by destruct (best _)).
      apply seq_assoc. rewrite (seq_thread c r) by done.
      assert (forall Q, (forall s1, s1 = with_threads (<[c := with_quantum_ticks_remaining (slice_after q r) r]> (threads s)) s -> post kernel (seq (
          let! r := thread_at c in
          (if quantum_ticks_remaining r =? 0 then set_var (with_g_reschedule_pending true) else ret tt)) (fun _ => restore_interrupts enabled) s1) Q) ->
        post kernel (seq (seq (if 0 <? quantum_ticks_remaining r
         then update c (fun r => with_quantum_ticks_remaining (u32 (quantum_ticks_remaining r - 1)) r) else ret tt) (fun _ =>
          let! r := thread_at c in
          (if quantum_ticks_remaining r =? 0 then set_var (with_g_reschedule_pending true) else ret tt))) (fun _ => restore_interrupts enabled) s) Q) as Hstep.
      { intros Q Hk. apply seq_assoc. destruct (Z.ltb_spec 0 (quantum_ticks_remaining r)) as [Hlt|Hge].
        - rewrite (seq_update c r) by done. apply Hk. rewrite Hsl. unfold u32. rewrite Z.mod_small by lia. by rewrite Z.max_r by lia.
        - rewrite seq_ret. apply Hk. rewrite Hsl. replace (Z.max 0 (quantum_ticks_remaining r - 1)) with (quantum_ticks_remaining r) by lia.
          assert (with_quantum_ticks_remaining (quantum_ticks_remaining r) r = r) as -> by (by destruct r). rewrite insert_id by done. by destruct s. }
      apply Hstep. intros s1 ->. apply seq_assoc. erewrite seq_thread by (sched_cbn; by lookups). cbn [quantum_ticks_remaining with_quantum_ticks_remaining].
      destruct (Z.eqb_spec (slice_after q r) 0) as [E0|E0].
      * rewrite seq_set. cbn. apply sliced_update; try done; congruence.
      * rewrite seq_ret. cbn. rewrite <- (same_pending (with_threads _ s)). apply sliced_update; try done; congruence.
Qed.

Lemma timer_tick_post s q : settled s q -> post kernel (timer_tick s) (fun _ s' => exists q', ticked s q s' q').
Proof.
  intros Hs. unfold timer_tick. rewrite seq_mask, seq_set. set (s1 := with_g_tick_count _ _).
  assert (settled s1 q) as Hs1 by (by apply settled_tick, settled_interrupts).
  eapply post_seq; [apply (reap_post s1 q); apply Hs1|]. cbn beta. intros [] s2 (q2 & Hinv2 & Hg2 & _).
  pose proof (grows_settled _ _ _ _ Hs1 Hinv2 Hg2) as Hs2.
  eapply post_seq; [apply (wake_expired_post s2 q2 Hinv2); by eapply settled_awake|]. cbn beta. intros [] s3 (q3 & Hinv3 & Hg3 & Hlate).
  pose proof (grows_settled _ _ _ _ Hs2 Hinv3 Hg3) as Hs3. pose proof (grows_trans [] _ _ _ _ _ _ Hinv2 Hg2 Hg3) as Hg.
  rewrite (gr_tick _ _ _ _ _ Hg2) in Hlate.
  eapply post_mono; [|exact (slice_post (interrupts s) s3 q3 Hs3)]. cbn beta. intros _ s4 [C1 C2 (C3 & C3' & C3'' & C3i) C4 C5 C6 C7]. exists q3.
  assert (forall t, (exists r', threads s3 !! t = Some r' /\ current_state r' = Ready /\ in_ready_queue r' = true) ->
    exists r', threads s4 !! t = Some r' /\ current_state r' = Ready /\ in_ready_queue r' = true) as Hready.
  { intros t (r3 & Hr3 & St3 & F3). destruct (C4 t r3 Hr3) as (r4 & Hr4 & St4 & F4 & _). exists r4. split_and!; congruence. }
  assert (g_tick_count s4 = u64 (g_tick_count s + 1)) as Ht by (rewrite C3''; exact (gr_tick _ _ _ _ _ Hg)).
  split; try done.
  - intros Hk. apply C2. by eapply (grows_in_kernel s1 q); [apply Hs1|..].
  - rewrite C3, C3'. split_and!; [exact (gr_current _ _ _ _ _ Hg)|exact (gr_idle _ _ _ _ _ Hg)|done].
  - rewrite Ht. eapply Forall_impl; [exact Hlate|]. intros t Hlt. by rewrite C5.
  - intros t Hsl Hw. apply Hready. rewrite C3'' in Hw. exact (woken_up_grows s q s3 q3 Hs Hs3 Hg Hlate t Hsl Hw).
  - intros t Hsl. destruct (gr_left _ _ _ _ _ Hg t Hsl) as [|H]; [by left|right; by apply Hready].
  - intros t Hsl. rewrite C5. exact (grows_wake s1 q s3 q3 t (se_inv _ _ Hs1) Hinv3 Hg Hsl).
  - intros t r Hr Hst Hf. apply Hready. exact (grows_queued s1 q s3 q3 t r (se_inv _ _ Hs1) Hg Hr Hst Hf).
  - apply (gr_ready _ _ _ _ _ Hg).
  - intros c r Hc Hi Hr. destruct (grows_current s1 q s3 q3 c r (se_inv _ _ Hs1) Hg Hc Hr) as (r3 & Hr3 & E & _).
    destruct (C6 c r3) as (r4 & Hr4 & P4 & Q4 & Pend); [rewrite (gr_current _ _ _ _ _ Hg); exact Hc|rewrite (gr_idle _ _ _ _ _ Hg); exact Hi|done|].
    destruct (still_fields _ _ E) as (_ & Pr & _ & _ & _ & _ & Qr & _). exists r4. split_and!; [done|congruence| |done].
    rewrite Q4. unfold slice_after, full_quantum. rewrite Qr. assert (quantum_ticks r3 = quantum_ticks r) as -> by exact (f_equal quantum_ticks E). done.
  - intros E. apply C7. rewrite (gr_current _ _ _ _ _ Hg), (gr_idle _ _ _ _ _ Hg). exact E.
Qed.

(** ** Several ticks *)
Record advanced (n : nat) (s : Sched) (q : Queues) (s' : Sched) (q' : Queues) : Prop := {
  ad_settled : settled s' q';
  ad_none : n = O -> s' = s /\ q' = q;
  ad_kernel : in_kernel s -> in_kernel s';
  ad_count : (0 < n)%nat -> g_tick_count s' = u64 (g_tick_count s + Z.of_nat n);
  ad_same : g_current_thread s' = g_current_thread s /\ g_idle_thread s' = g_idle_thread s /\ interrupts s' = interrupts s;
  ad_late : (0 < n)%nat -> Forall (fun t => g_tick_count s' < wake_of (threads s') t) (sleepers q');
  ad_sleeps t : t ∈ sleepers q -> t ∈ sleepers q' \/ exists r', threads s' !! t = Some r' /\ current_state r' = Ready /\ in_ready_queue r' = true;
  ad_wakes t : t ∈ sleepers q' -> t ∈ sleepers q /\ wake_of (threads s') t = wake_of (threads s) t;
  ad_queued t r : threads s !! t = Some r -> current_state r = Ready -> in_ready_queue r = true ->
    exists r', threads s' !! t = Some r' /\ current_state r' = Ready /\ in_ready_queue r' = true;
  ad_ready p l : ready q !! p = Some l -> exists new, ready q' !! p = Some (l ++ new);
  ad_slice c r : g_current_thread s = Some c -> g_idle_thread s <> Some c -> threads s !! c = Some r -> best (ready q) <> None ->
    exists r', threads s' !! c = Some r' /\ current_priority r' = current_priority r /\
      quantum_ticks_remaining r' = Z.max 0 (quantum_ticks_remaining r - Z.of_nat n) /\
      ((0 < n)%nat -> quantum_ticks_remaining r' = 0 -> g_reschedule_pending s' = true)
}.

Lemma best_grows R R' : (forall p l, R !! p = Some l -> exists new, R' !! p = Some (l ++ new)) -> best R <> None -> best R' <> None.
Proof.
  intros Hg Hb. destruct (best R) as [[p l]|] eqn:E; [|done]. destruct (best_level _ _ _ E) as (Hl & Hne & _).
  destruct (Hg p l Hl) as (new & Hl'). eapply best_some; [exact Hl'|]. by destruct l.
Qed.

Lemma advanced_nil s q : settled s q -> advanced 0 s q s q.
Proof.
  intros Hs. split; try done; [lia|lia|by left|eauto|intros p l Hl; exists []; by rewrite app_nil_r|].
  intros c r Hc Hi Hr _. exists r. pose proof (ok_quantum _ _ _ (inv_threads _ _ (se_inv _ _ Hs) c r Hr)) as [_ Hq]. split_and!; [done|done|lia|lia].
Qed.

Lemma ticked_advanced s q s1 q1 : ticked s q s1 q1 -> advanced 1 s q s1 q1.
Proof.
  intros [T1 T2 T3 T4 T5 T6 T7 T8 T9 T10 T11 T12]. split; try done. intros c r Hc Hi Hr Hb.
  destruct (T11 c r Hc Hi Hr) as (r1 & Hr1 & P1 & Q1 & F1). exists r1. split_and!; [done|done| |by intros _].
  rewrite Q1. unfold slice_after. pose proof (best_grows _ _ T10 Hb). by destruct (best (ready q1)).
Qed.

Lemma advanced_step n s q s1 q1 s2 q2 : ticked s q s1 q1 -> advanced n s1 q1 s2 q2 -> advanced (S n) s q s2 q2.
Proof.
  intros T A. destruct (decide (n = O)) as [->|Hn].
  { destruct (ad_none _ _ _ _ _ A eq_refl) as [-> ->]. by apply ticked_advanced. }
  apply ticked_advanced in T. destruct T as [T1 T0 T2 T3 (T4 & T4' & T4'') T5 T6 T7 T8 T9 T11], A as [A1 A0 A2 A3 (A4 & A4' & A4'') A5 A6 A7 A8 A9 A10]. split; try done.
  - intros Hk. by apply A2, T2.
  - intros _. rewrite A3, T3 by lia. unfold u64. rewrite Zplus_mod_idemp_l. f_equal. lia.
  - split_and!; congruence.
  - intros _. apply A5. lia.
  - intros t Ht. destruct (T6 t Ht) as [Ht1|(r1 & Hr1 & St1 & F1)]; [by apply A6|right]. by apply (A8 t r1).
  - intros t Ht. destruct (A7 t Ht) as (Ht1 & ->). by apply T7.
  - intros t r Hr Hst Hf. destruct (T8 t r Hr Hst Hf) as (r1 & Hr1 & St1 & F1). by apply (A8 t r1).
  - intros p l Hl. destruct (T9 p l Hl) as (n1 & Hn1). destruct (A9 p _ Hn1) as (n2 & Hn2). exists (n1 ++ n2). by rewrite app_assoc.
  - intros c r Hc Hi Hr Hb. pose proof (best_grows _ _ T9 Hb) as Hb1. destruct (T11 c r Hc Hi Hr Hb) as (r1 & Hr1 & P1 & Q1 & F1).
    destruct (A10 c r1) as (r2 & Hr2 & P2 & Q2 & F2); [congruence|congruence|done|done|].
    exists r2. split_and!; [done|congruence|lia|]. intros _. apply F2. lia.
Qed.

Lemma ticks_post n s q : settled s q -> post kernel (ticks n s) (fun _ s' => exists q', advanced n s q s' q').
Proof.
  revert s q. induction n as [|n IH]; intros s q Hs; cbn [ticks].
  - apply post_ret. exists q. by apply advanced_nil.
  - eapply post_seq; [by apply timer_tick_post|]. cbn beta. intros [] s1 (q1 & T). eapply post_mono; [|apply (IH s1 q1), T].
    cbn beta. intros _ s2 (q2 & A). exists q2. by eapply advanced_step.
Qed.

(** ** Acting on a pending switch *)
Definition outranked (q : Queues) (r : Thread) : bool :=
  match best (ready q) with Some (p, _) => Z.of_nat p <? current_priority r | None => false end.

Lemma outranked_ok s q (r : Thread) :
  inv s q -> (0 <=? highest_ready_priority s) && (u8 (highest_ready_priority s) <? current_priority r) = outranked q r.
Proof.
  intros Hinv. rewrite (highest_ok s (ready q) (inv_ready _ _ Hinv)). pose proof (best_bitmap _ _ _ _ _ (inv_ready _ _ Hinv)) as Hb.
  unfold outranked. destruct (best (ready q)) as [[p l]|]; [|done]. destruct Hb as (_ & _ & Hp & _). rewrite u8_small by lia.
  by destruct (Z.leb_spec 0 (Z.of_nat p)); [|lia].
Qed.

(** What the end of the time slice leads to; [resume] is the state in which the
    running thread is put back on its level. *)
Inductive rescheduled (c : Z) (r : Thread) (caller : Caller) (enabled : bool) (resume : Sched) (s : Sched) (q : Queues) (ctl : Control) (s' : Sched) : Prop :=
| rs_kept : g_idle_thread s = Some c /\ best (ready q) = None \/ g_idle_thread s <> Some c /\ outranked q r = false /\ (quantum_ticks_remaining r <> 0 \/ best (ready q) = None) ->
    settled s' q -> (in_kernel s -> in_kernel s') -> g_current_thread s' = Some c -> g_tick_count s' = g_tick_count s /\ g_idle_thread s' = g_idle_thread s -> ctl = Returns caller StatusOK ->
    (forall t, t <> c -> threads s' !! t = threads s !! t) ->
    (quantum_ticks_remaining r <> 0 -> exists r', threads s' !! c = Some r' /\ current_priority r' = current_priority r /\ quantum_ticks_remaining r' = quantum_ticks_remaining r) ->
    rescheduled c r caller enabled resume s q ctl s'
| rs_idle : g_idle_thread s = Some c -> best (ready q) <> None -> handed caller enabled s q c ctl s' -> rescheduled c r caller enabled resume s q ctl s'
| rs_outranked : g_idle_thread s <> Some c -> outranked q r = true -> rotated c false caller enabled resume q ctl s' -> rescheduled c r caller enabled resume s q ctl s'
| rs_expired : g_idle_thread s <> Some c -> outranked q r = false -> quantum_ticks_remaining r = 0 -> best (ready q) <> None ->
    rotated c true caller enabled resume q ctl s' -> rescheduled c r caller enabled resume s q ctl s'.

Section Reschedule.
Context (s : Sched) (q : Queues) (c : Z) (r : Thread) (caller : Caller) (enabled : bool) (resume : Sched).
Hypothesis Hs : settled s q.
Hypothesis Hc : g_current_thread s = Some c.
Hypothesis Hr : threads s !! c = Some r.
Hypothesis Hx : caller <> InExit.

Lemma kept_post :
  g_idle_thread s = Some c /\ best (ready q) = None \/ g_idle_thread s <> Some c /\ outranked q r = false /\ (quantum_ticks_remaining r <> 0 \/ best (ready q) = None) ->
  post kernel (after_switch caller enabled StatusOK s) (rescheduled c r caller enabled resume s q).
Proof.
  intros Hcase. eapply post_mono; [|by apply (after_switch_post s q caller enabled c)].
  cbn beta. intros ctl s' (-> & [R1 R2 R3 R4 (R5 & R5i & _) R6 R7]). constructor 1; try done. intros _. by apply R7.
Qed.

(** The idle thread gives way to any ready thread. *)
Lemma idle_leave_post :
  g_idle_thread s = Some c -> may_leave r ->
  post kernel ((if negb (g_ready_count s =? 0) then
      let! next := exec (pick_next_thread false) in switch_to_thread next caller enabled
    else after_switch caller enabled StatusOK) s) (rescheduled c r caller enabled resume s q).
Proof.
  intros Hi Hml. pose proof (count_best s q (se_inv _ _ Hs)) as Hcount. destruct (Z.eqb_spec (g_ready_count s) 0) as [E|E]; cbn [negb].
  - apply kept_post. left. tauto.
  - eapply post_mono; [|eapply (give_post s q c r caller enabled false); [by apply idle_leaving|right; by left]].
    intros ctl s' Hh. constructor 2; [done|tauto|done].
Qed.

(** The slice of a thread that goes on is filled again. *)
Lemma refill_post :
  g_idle_thread s <> Some c -> outranked q r = false -> quantum_ticks_remaining r <> 0 \/ best (ready q) = None ->
  post kernel (((if quantum_ticks_remaining r =? 0 then change (reset_quantum (Some c)) else ret tt) ;;;
    after_switch caller enabled StatusOK) s) (rescheduled c r caller enabled resume s q).
Proof.
  intros Hi Ho Hq. destruct (Z.eqb_spec (quantum_ticks_remaining r) 0) as [E|E].
  - destruct (settled_reset s q c r Hs Hc Hr) as (Hrun & Hs1 & Hk1). rewrite (seq_change _ _ _ _ Hrun). set (s1 := with_threads _ s) in *.
    eapply post_mono; [|by apply (after_switch_post s1 q caller enabled c)].
    cbn beta. intros ctl s' (-> & [R1 R2 R3 R4 (R5 & R5i & _) R6 R7]). constructor 1; try done; [by right|intros Hk; by apply R3, Hk1|].
    intros t Ht. rewrite R6 by done. unfold s1. sched_cbn. by rewrite lookup_insert_ne.
  - rewrite seq_ret. apply kept_post. by right.
Qed.
End Reschedule.

Lemma process_pending_post s q c r caller enabled :
  settled s q -> in_kernel s -> g_current_thread s = Some c -> threads s !! c = Some r -> caller <> InExit ->
  post kernel (process_pending_reschedule caller enabled s) (rescheduled c r caller enabled s s q).
Proof.
  intros Hs Hk Hc Hr Hx. pose proof (in_kernel_may_leave s c r Hk Hc Hr) as Hml. unfold process_pending_reschedule. rewrite !seq_read, Hc. cbn zeta.
  case_bool_decide as Hi; [by apply idle_leave_post|]. assert (g_idle_thread s <> Some c) as Hi' by congruence.
  rewrite seq_read, (seq_thread c r), (outranked_ok s q r (se_inv _ _ Hs)) by done. pose proof (count_best s q (se_inv _ _ Hs)) as Hcount.
  destruct (outranked q r) eqn:Ho.
  - eapply post_mono; [|by eapply (dispatch_post s q c r false false false)]. intros ctl s' Hro. by constructor 3.
  - pose proof (refill_post s q c r caller enabled s Hs Hc Hr Hx Hi' Ho) as Href. revert Href.
    destruct (Z.eqb_spec (quantum_ticks_remaining r) 0) as [E|E], (Z.eqb_spec (g_ready_count s) 0) as [E0|E0]; cbn [andb negb]; intros Href.
    + apply Href. right. tauto.
    + eapply post_mono; [|by eapply (dispatch_post s q c r true true false)]. intros ctl s' Hro. constructor 4; try done. tauto.
    + apply Href. by left.
    + apply Href. by left.
Qed.

(** ** Interrupts from user code *)

(** The state in which the interrupted frame is saved with the thread. *)
Definition interrupted (c : Z) (r : Thread) (f : AArch64ExceptionFrame) (s : Sched) : Sched :=
  with_threads (<[c := with_t_context (save_frame f (t_context r)) r]> (threads s)) s.

Lemma save_frame_flag f x : Z.testbit (processor_state (save_frame f x)) 62 = true.
Proof.
  cbn [save_frame processor_state]. unfold CpuContextResumeExceptionFrameFlag, CpuContextProcessorStateMask. rewrite Z.lor_spec. apply orb_true_iff. right. reflexivity.
Qed.

Lemma interrupted_settled s q c r f :
  settled s q -> g_current_thread s = Some c -> threads s !! c = Some r -> settled (interrupted c r f s) q.
Proof.
  intros Hs Hc Hr. pose proof (inv_threads _ _ (se_inv _ _ Hs) c r Hr) as [_ [Hq1 Hq2] _ Hw _].
  destruct (settled_current s q c Hs Hc) as (r' & Hr' & Hst). rewrite Hr in Hr'. injection Hr' as <-.
  apply (settled_update s q c r (fun r => with_t_context (save_frame f (t_context r)) r) Hs); try done. apply Hw. congruence.
Qed.

(** What a timer interrupt from user code leads to. *)
Inductive irq_ended (c : Z) (r : Thread) (f : AArch64ExceptionFrame) (enabled : bool) (s : Sched) (q : Queues) (ctl : Control) (s' : Sched) : Prop :=
| irq_returns r' : g_reschedule_pending s = false -> settled s' q -> g_current_thread s' = Some c -> g_tick_count s' = g_tick_count s /\ g_idle_thread s' = g_idle_thread s ->
    (forall t, t <> c -> threads s' !! t = threads s !! t) -> threads s' !! c = Some r' -> current_priority r' = current_priority r -> quantum_ticks_remaining r' = quantum_ticks_remaining r ->
    ctl = Returns InLowerElIrq StatusOK -> irq_ended c r f enabled s q ctl s'
| irq_decides : g_reschedule_pending s = true ->
    rescheduled c r InLowerElIrq enabled (interrupted c r f (with_g_reschedule_pending false s)) (with_g_reschedule_pending false s) q ctl s' ->
    irq_ended c r f enabled s q ctl s'.

Lemma preempt_post s q c r f enabled at_tail reset :
  settled s q -> g_current_thread s = Some c -> threads s !! c = Some r -> g_idle_thread s <> Some c ->
  post kernel ((let! saved := save_current_lower_el_exception_frame (Some f) in
    if negb saved then set_var (with_g_reschedule_pending true) ;;; after_switch InLowerElIrq enabled StatusOK
    else dispatch true at_tail reset false InLowerElIrq enabled) s) (rotated c at_tail InLowerElIrq enabled (interrupted c r f s) q).
Proof.
  intros Hs Hc Hr Hi. unfold save_current_lower_el_exception_frame. apply seq_assoc. rewrite seq_read, Hc. apply seq_assoc.
  rewrite (seq_update c r), seq_ret by done. cbn [negb]. pose proof (interrupted_settled s q c r f Hs Hc Hr) as Hs1.
  eapply (dispatch_post (interrupted c r f s) q c); try done; [unfold interrupted; sched_cbn; by lookups|]. left. apply save_frame_flag.
Qed.

Lemma lower_el_post s q c r f enabled :
  settled s q -> in_kernel s -> g_current_thread s = Some c -> threads s !! c = Some r ->
  post kernel (process_pending_reschedule_from_lower_el_irq (Some f) enabled s) (irq_ended c r f enabled s q).
Proof.
  intros Hs Hk Hc Hr. unfold process_pending_reschedule_from_lower_el_irq. cbn zeta. rewrite seq_read.
  destruct (g_reschedule_pending s) eqn:Hp; cbn [negb]; cycle 1.
  { eapply post_mono; [|by apply (after_switch_post s q InLowerElIrq enabled c)]. cbn beta. intros ctl s' (-> & [R1 R2 _ _ (R5 & R5i & _) R6 R7]).
    destruct (R7 r Hr) as (r' & Hr' & E1 & E2). by apply (irq_returns c r f enabled s q _ s' r'). }
  rewrite seq_set. set (s1 := with_g_reschedule_pending false s). assert (settled s1 q) as Hs1 by (by apply settled_pending).
  assert (in_kernel s1) as Hk1 by done. pose proof (in_kernel_may_leave s1 c r Hk1 Hc Hr) as Hml.
  set (resume := interrupted c r f s1). assert (InLowerElIrq <> InExit) as Hx by done.
  eapply (post_mono kernel _ (rescheduled c r InLowerElIrq enabled resume s1 q)); [intros ctl s' H; by constructor 2|].
  rewrite !seq_read. change (g_current_thread s1) with (g_current_thread s). rewrite Hc. case_bool_decide as Hi; [by apply (idle_leave_post s1 q c r)|].
  assert (g_idle_thread s1 <> Some c) as Hi' by congruence.
  rewrite seq_read, (seq_thread c r), (outranked_ok s1 q r (se_inv _ _ Hs1)) by done. pose proof (count_best s1 q (se_inv _ _ Hs1)) as Hcount.
  destruct (outranked q r) eqn:Ho.
  - eapply post_mono; [|by eapply (preempt_post s1 q c r f enabled false false)]. intros ctl s' Hro. by constructor 3.
  - pose proof (refill_post s1 q c r InLowerElIrq enabled resume Hs1 Hc Hr Hx Hi' Ho) as Href. revert Href.
    destruct (Z.eqb_spec (quantum_ticks_remaining r) 0) as [E|E], (Z.eqb_spec (g_ready_count s1) 0) as [E0|E0]; cbn [andb negb]; intros Href.
    + apply Href. right. tauto.
    + eapply post_mono; [|by eapply (preempt_post s1 q c r f enabled true true)]. intros ctl s' Hro. constructor 4; try done. tauto.
    + apply Href. by left.
    + apply Href. by left.
Qed.

Lemma rescheduled_ended c r caller enabled resume s q ctl s' :
  rescheduled c r caller enabled resume s q ctl s' -> in_kernel s -> in_kernel resume \/ caller = InLowerElIrq -> well_ended ctl s'.
Proof.
  intros [_ Hs Hk' _ _ -> _ _|_ _ Hh|_ _ Hro|_ _ _ _ Hro] Hk Hres.
  - split; [by exists q|]. apply Hk' in Hk. by destruct caller.
  - eapply handed_ended; [exact Hh|by left].
  - by eapply rotated_ended.
  - by eapply rotated_ended.
Qed.

Lemma irq_ended_well c r f enabled s q ctl s' : irq_ended c r f enabled s q ctl s' -> in_kernel s -> well_ended ctl s'.
Proof.
  intros [r' _ Hs _ _ _ _ _ _ ->|_ Hr] Hk; [split; [by exists q|done]|]. eapply rescheduled_ended; [exact Hr|done|by right].
Qed.

(** ** The interrupt handlers and the poll *)
Lemma lower_irq_post s q c f :
  settled s q -> in_kernel s -> g_current_thread s = Some c ->
  post kernel (handle_lower_el_timer_irq (Some f) s) (fun ctl s' => exists s1 q1 r1, ticked s q s1 q1 /\ threads s1 !! c = Some r1 /\
    irq_ended c r1 f (interrupts s) (with_interrupts false s1) q1 ctl s').
Proof.
  intros Hs Hk Hc. unfold handle_lower_el_timer_irq. eapply post_seq; [by apply timer_tick_post|]. cbn beta. intros [] s1 (q1 & T).
  pose proof (tk_same _ _ _ _ T) as (T1 & _ & T3). rewrite Hc in T1. destruct (settled_current s1 q1 c (tk_settled _ _ _ _ T) T1) as (r1 & Hr1 & _).
  rewrite seq_mask, T3. eapply post_mono; [|eapply (lower_el_post (with_interrupts false s1) q1 c r1 f); [apply settled_interrupts, T|by apply (tk_kernel _ _ _ _ T)|done|done]].
  intros ctl s' H. exists s1, q1, r1. done.
Qed.

Lemma current_irq_post s q c :
  settled s q -> in_kernel s -> g_current_thread s = Some c ->
  post kernel (handle_current_el_timer_irq s) (fun ctl s' => exists s1 q1 r1, ticked s q s1 q1 /\ threads s1 !! c = Some r1 /\
    rescheduled c r1 InCurrentElIrq (interrupts s) (with_interrupts false s1) (with_interrupts false s1) q1 ctl s').
Proof.
  intros Hs Hk Hc. unfold handle_current_el_timer_irq. eapply post_seq; [by apply timer_tick_post|]. cbn beta. intros [] s1 (q1 & T).
  pose proof (tk_same _ _ _ _ T) as (T1 & _ & T3). rewrite Hc in T1. destruct (settled_current s1 q1 c (tk_settled _ _ _ _ T) T1) as (r1 & Hr1 & _).
  rewrite seq_mask, T3. eapply post_mono; [|eapply (process_pending_post (with_interrupts false s1) q1 c r1 InCurrentElIrq); [apply settled_interrupts, T|by apply (tk_kernel _ _ _ _ T)|done|done|done]].
  intros ctl s' H. exists s1, q1, r1. done.
Qed.

(** What [poll] leads to after [n] ticks, from the state [s1] they leave. *)
Inductive polled (c : Z) (r : Thread) (enabled : bool) (s : Sched) (q : Queues) (ctl : Control) (s' : Sched) : Prop :=
| polled_idle : g_reschedule_pending s = false -> s' = s -> ctl = Returns InPoll StatusOK -> polled c r enabled s q ctl s'
| polled_switch s1 : g_reschedule_pending s = true -> s1 = with_g_reschedule_pending false (with_interrupts false s) ->
    rescheduled c r InPoll enabled s1 s1 q ctl s' -> polled c r enabled s q ctl s'.

Lemma poll_post s q c :
  settled s q -> in_kernel s -> g_current_thread s = Some c ->
  post kernel (poll s) (fun ctl s' => exists s0 q0 x s1 q1 r1, grows [] s q s0 q0 /\ settled s0 q0 /\ advanced (Z.to_nat x) s0 q0 s1 q1 /\ threads s1 !! c = Some r1 /\
    in_kernel s1 /\ polled c r1 (interrupts s) s1 q1 ctl s').
Proof.
  intros Hs Hk Hc. unfold poll. apply (post_call kernel PollDevices); [by exists q; split; [apply Hs|]|].
  intros x0 s0 H0. destruct (H0 q (se_inv _ _ Hs)) as (q0 & Hinv0 & Hg0). pose proof (grows_settled _ _ _ _ Hs Hinv0 Hg0) as Hs0.
  pose proof (grows_in_kernel _ _ _ _ (se_inv _ _ Hs) Hg0 Hk) as Hk0.
  apply (post_call kernel PollTimer); [by exists q0|]. intros x s00 [-> _].
  eapply post_seq; [apply (ticks_post _ s0 q0 Hs0)|]. cbn beta. intros [] s1 (q1 & A). destruct (ad_same _ _ _ _ _ A) as (A1 & _ & A3).
  pose proof (ad_settled _ _ _ _ _ A) as Hs1. assert (g_current_thread s1 = Some c) as Hc1 by (rewrite A1, (gr_current _ _ _ _ _ Hg0); done).
  destruct (settled_current s1 q1 c Hs1 Hc1) as (r1 & Hr1 & _). pose proof (ad_kernel _ _ _ _ _ A Hk0) as Hk1.
  rewrite seq_mask, seq_read. assert (interrupts s1 = interrupts s) as -> by (rewrite A3; apply (gr_interrupts _ _ _ _ _ Hg0)).
  change (g_reschedule_pending (with_interrupts false s1)) with (g_reschedule_pending s1). destruct (g_reschedule_pending s1) eqn:Hp; cbn [negb].
  - rewrite seq_set. set (s2 := with_g_reschedule_pending false _). eapply post_mono; [|eapply (process_pending_post s2 q1 c r1 InPoll (interrupts s)); try done; by apply settled_pending, settled_interrupts].
    intros ctl s' H. exists s0, q0, x, s1, q1, r1. split_and!; try done. by econstructor 2.
  - rewrite seq_unmask. apply post_ret. exists s0, q0, x, s1, q1, r1. split_and!; try done. constructor 1; [done| |done].
    assert (interrupts s1 = interrupts s) as <- by (rewrite A3; apply (gr_interrupts _ _ _ _ _ Hg0)). by destruct s1.
Qed.

Lemma polled_ended c r enabled s q ctl s' : settled s q -> in_kernel s -> polled c r enabled s q ctl s' -> well_ended ctl s'.
Proof.
  intros Hs Hk [_ -> ->|s1 _ -> Hr]; [split; [by exists q|done]|]. eapply rescheduled_ended; [exact Hr|done|by left].
Qed.
