(* ===== verification/SchedRequests.v ===== *)
(** The calls that make threads ready, change priorities, end and forget threads. *)
From stdpp Require Import base list gmap.
From Stdlib Require Import ZArith Lia Sorted.
From S2P Require Import Prelude KernelText DList KernelIface SchedState Scheduler SchedQueues SchedOps SchedInv SchedLogic SchedProofs SchedSwitch SchedCalls SchedTimer.

Local Open Scope Z_scope.

(** What the facts about the running thread and the saved contexts read. *)
Definition world_part (r : Thread) := (current_state r, t_context r, t_parent r).

Lemma world_keeps s q s1 q1 :
  settled s q -> inv s1 q1 -> keeps world_part (threads s) (threads s1) -> g_current_thread s1 = g_current_thread s ->
  g_idle_thread s1 = g_idle_thread s -> processes s1 = processes s -> current_address_space s1 = current_address_space s ->
  settled s1 q1 /\ (in_kernel s -> in_kernel s1).
Proof.
  intros [S1 (c & r & Hc & Hr & Hst) S3 S4 S5] Hinv1 Hk Ec Ei Ep Ea.
  assert (forall t r1, threads s1 !! t = Some r1 -> exists r, threads s !! t = Some r /\ current_state r1 = current_state r /\ t_context r1 = t_context r /\ t_parent r1 = t_parent r) as Hback.
  { intros t r1 Hr1. destruct (keeps_back _ _ _ _ _ Hk Hr1) as (r0 & Hr0 & E). exists r0. injection E as E1 E2 E3. done. }
  split; [split; [done| | | |]|].
  - destruct (keeps_lookup _ _ _ _ _ Hk Hr) as (r1 & Hr1 & E). exists c, r1. injection E as E1 _ _. split_and!; congruence.
  - intros t r1 Hr1 Hst1. destruct (Hback t r1 Hr1) as (r0 & Hr0 & E1 & _). rewrite Ec, Ei. apply (S3 t r0 Hr0). congruence.
  - intros t r1 Hr1 Hne. destruct (Hback t r1 Hr1) as (r0 & Hr0 & E1 & E2 & _). rewrite Ec in Hne. specialize (S4 t r0 Hr0 Hne).
    unfold saved_ok in *. by rewrite E1, E2.
  - intros c1 r1 p x Hc1 Hr1 Hp Hx. destruct (Hback c1 r1 Hr1) as (r0 & Hr0 & _ & _ & E3). rewrite Ea. apply (S5 c1 r0 p x); congruence.
  - intros Hker c1 r1 Hc1 Hr1. destruct (Hback c1 r1 Hr1) as (r0 & Hr0 & _ & -> & _). apply (Hker c1 r0); congruence.
Qed.

Lemma world_bare m m' : keeps bare m m' -> keeps world_part m m'.
Proof. exact (keeps_weaken bare world_part m m'). Qed.
#[export] Hint Resolve world_bare : sched.

(** ** Entering the kernel *)
Lemma post_update C t r f s Q : threads s !! t = Some r -> Q tt (with_threads (<[t := f r]> (threads s)) s) -> post C (update t f s) Q.
Proof. intros Hr HQ. unfold update, change, exec. by rewrite (thread_set_ok t r f) by done. Qed.

Lemma capture_post s q stack pc state :
  settled s q -> post kernel (capture_current_user_context stack pc state s) (fun _ s' => settled s' q /\ in_kernel s' /\
    g_current_thread s' = g_current_thread s /\ g_idle_thread s' = g_idle_thread s /\
    g_tick_count s' = g_tick_count s /\ (forall c t, g_current_thread s = Some c -> t <> c -> threads s' !! t = threads s !! t) /\
    forall t r, threads s !! t = Some r -> exists r', threads s' !! t = Some r' /\ current_priority r' = current_priority r /\ quantum_ticks_remaining r' = quantum_ticks_remaining r).
Proof.
  intros Hs. destruct (settled_some s q Hs) as (c & Hc). destruct (settled_current s q c Hs Hc) as (r & Hr & Hst).
  pose proof (inv_threads _ _ (se_inv _ _ Hs) c r Hr) as [_ [Hq1 Hq2] _ Hw _].
  unfold capture_current_user_context. rewrite seq_read, Hc. set (f := fun r : Thread => with_t_context (mkContext (UserCode pc) stack (Z.land state CpuContextProcessorStateMask) (saved_exception_frame (t_context r))) r).
  apply (post_update kernel c r f); [done|]. split_and!; [|  |done|done|done| |].
  - apply (settled_update s q c r f Hs); try done. apply Hw. congruence.
  - apply (settled_in_kernel _ c (f r)); [done|sched_cbn; by lookups|..];
      unfold f; cbn [t_context with_t_context processor_state]; rewrite Z.land_spec; apply andb_false_iff; right; reflexivity.
  - intros c' t [= <-] Hne. sched_cbn. by rewrite lookup_insert_ne.
  - intros t rt Hrt. sched_cbn. destruct (decide (t = c)) as [->|Hne]; [|rewrite lookup_insert_ne by done; eauto].
    lookups. rewrite Hr in Hrt. injection Hrt as <-. eauto.
Qed.

(** ** Ending the running thread *)
Lemma exit_post s q c :
  settled s q -> in_kernel s -> g_current_thread s = Some c -> g_idle_thread s <> Some c ->
  post kernel (exit_current_thread s) (fun ctl s' => exists s1 q1 r1, inv s1 q1 /\ threads s1 !! c = Some r1 /\ current_state r1 = Terminated /\
    ready q1 = ready q /\ retired q1 = retired q ++ [c] /\ g_idle_thread s1 = g_idle_thread s /\ g_tick_count s1 = g_tick_count s /\
    (forall t w, t <> c -> waits t w s q -> waits t w s1 q1) /\ passed c s1 q1 ctl s').
Proof.
  intros Hs Hk Hc Hi. destruct (settled_current s q c Hs Hc) as (r & Hr & _). unfold exit_current_thread. rewrite seq_mask, !seq_read.
  set (s0 := with_interrupts false s). assert (settled s0 q) as Hs0 by (by apply settled_interrupts).
  change (g_current_thread s0) with (g_current_thread s). change (g_idle_thread s0) with (g_idle_thread s). rewrite Hc, bool_decide_eq_false_2 by congruence.
  rewrite (seq_update c r) by done. destruct (stop_running s0 q c r (with_current_state Terminated)) as (Hr1 & _ & Hnr & Hlv); try done; [by right|].
  set (s1 := with_threads _ s0) in *. pose proof (Hlv InExit ltac:(done)) as L1.
  destruct (inv_retire s1 q (lv_inv _ _ _ _ _ L1) c _ Hr1 ltac:(done) Hnr) as (m & hd & tl & Hrun & Hinv2 & Hkm).
  rewrite (seq_change _ _ _ _ Hrun). set (s2 := set_retired m hd tl s1) in *.
  destruct (leaving_relinked s1 q c _ InExit s2 (with_retired (retired q ++ [c]) q) L1 Hinv2 (bare_unqueued _ _ Hkm)) as (r2 & L2 & E2); [done..|].
  pose proof (lv_current _ _ _ _ _ L2) as [_ Hr2]. assert (current_state r2 = Terminated) as Hst2 by exact (f_equal current_state E2).
  eapply post_mono; [|eapply (give_post s2 _ c r2 InExit (interrupts s) false); [exact L2|right; by left]].
  intros ctl s' Hh. exists s2, (with_retired (retired q ++ [c]) q), r2. split_and!; try done.
  { intros t w Hne Hw. apply (waits_relinked t w s1 q s2); [by apply bare_unqueued|].
    apply (waits_others c t w s); [|done|done]. intros u Hu. unfold s1, s0. sched_cbn. by rewrite lookup_insert_ne. }
  eapply handed_passed; [done|].
  by eapply stopped_not_chosen; [exact Hinv2|exact Hr2|rewrite Hst2..].
Qed.

(** ** Destroying ended threads, and forgetting one *)
Lemma reap_retired_post s q :
  settled s q -> in_kernel s ->
  post kernel (reap_retired s) (fun _ s' => exists q', settled s' q' /\ in_kernel s' /\ grows [] s q s' q' /\ reaped s').
Proof.
  intros Hs Hk. unfold reap_retired. rewrite seq_mask. eapply (opening s q); [done|done|]. intros s1 q1 Hs1 Hk1 Hg Hre. cbn.
  exists q1. split_and!; [by apply settled_interrupts|done| |done]. destruct Hg. by split.
Qed.

(** The thread [t] is on no queue and waits for nothing. *)
Definition forgotten (t : Z) (s : Sched) (q : Queues) (s' : Sched) (q' : Queues) : Prop :=
  (exists r', threads s' !! t = Some r' /\ in_ready_queue r' = false /\ wait_object r' = None /\ wake_tick r' = 0) /\
  t ∉ sleepers q' /\ (forall p l, ready q' !! p = Some l -> t ∉ l) /\
  forall u, u <> t -> (u ∈ sleepers q' <-> u ∈ sleepers q).

Lemma inv_dequeue s q t r :
  inv s q -> threads s !! t = Some r ->
  exists s1 R, (if in_ready_queue r then ready_queue_remove (Some t) s else Ok s) = Ok s1 /\ inv s1 (with_ready R q) /\
    keeps unqueued (threads s) (threads s1) /\ (exists r1, threads s1 !! t = Some r1 /\ unqueued r1 = unqueued r /\ in_ready_queue r1 = false) /\
    g_current_thread s1 = g_current_thread s /\ g_idle_thread s1 = g_idle_thread s /\ processes s1 = processes s /\
    current_address_space s1 = current_address_space s /\ g_tick_count s1 = g_tick_count s /\ interrupts s1 = interrupts s /\
    g_reschedule_pending s1 = g_reschedule_pending s /\
    (forall u w, u <> t -> waits u w s q -> waits u w s1 (with_ready R q)).
Proof.
  intros Hinv Hr. destruct (in_ready_queue r) eqn:Hf.
  - destruct (ready_in _ _ _ _ _ (inv_ready _ _ Hinv) t r Hr Hf) as (Hq & _ & l & Hl & Hin).
    apply list_elem_of_split in Hin as (l1 & l2 & ->).
    destruct (inv_remove s q Hinv t r l1 l2 Hr Hf Hl) as (m & queues & bitmap & count & Hrun & Hinv1 & Hk & Hmt).
    exists (set_ready m queues bitmap count s), (<[level_of r := l1 ++ l2]> (ready q)). split_and!; try done; [by exists (unqueued r)|].
    intros u w Hne. apply waits_frame; [by apply wake_keeps, bare_unqueued|done|]. intros p l0 Hl0 Hu. cbn [ready with_ready].
    destruct (decide (p = level_of r)) as [->|Hp]; [|exists p, l0; by rewrite list_lookup_insert_ne].
    rewrite Hl in Hl0. injection Hl0 as <-. exists (level_of r), (l1 ++ l2). rewrite list_lookup_insert_eq by (by apply lookup_lt_Some in Hl).
    split; [done|]. rewrite elem_of_app in *. rewrite elem_of_cons in Hu. tauto.
  - exists s, (ready q). split_and!; try done; [by destruct q|by exists r].
Qed.

Lemma forget_ok s q t r :
  settled s q -> threads s !! t = Some r -> g_current_thread s <> Some t ->
  exists s' q', forget (Some t) s = Ok s' /\ settled s' q' /\ (in_kernel s -> in_kernel s') /\ forgotten t s q s' q' /\ g_current_thread s' = g_current_thread s /\
    g_tick_count s' = g_tick_count s /\ forall u w, u <> t -> waits u w s q -> waits u w s' q'.
Proof.
  intros Hs Hr Hc. unfold forget. set (s0 := with_interrupts false s). assert (settled s0 q) as Hs0 by (by apply settled_interrupts).
  rewrite (thread_get_ok t r s0), bind_ok by done.
  destruct (inv_dequeue s0 q t r (se_inv _ _ Hs0) Hr) as (s1 & R & Hrun1 & Hinv1 & Hk1 & (r1 & Hr1 & E1 & F1) & V1 & V2 & V3 & V4 & V5 & V6 & _ & Hw1).
  rewrite Hrun1, bind_ok. destruct (inv_sleep_remove s1 _ Hinv1 t r1 Hr1) as (m & hd & tl & Hrun2 & Hinv2 & Hk2 & Hr2).
  rewrite Hrun2, bind_ok. set (s2 := set_sleep m hd tl s1) in *. set (q2 := with_sleepers _ _) in *.
  cbn zeta. change (g_current_thread s2) with (g_current_thread s1). rewrite V1. change (g_current_thread s0) with (g_current_thread s).
  rewrite bool_decide_eq_false_2 by done. set (f := fun r : Thread => with_wake_tick 0 (with_wait None (wait_reason_code WaitNone) r)).
  rewrite (thread_set_ok t (unslept r1) f s2) by done. rewrite bind_ok. set (s3 := with_threads _ s2).
  pose proof (inv_threads _ _ Hinv2 t _ Hr2) as [_ [Hq1 Hq2] _ _ _].
  assert (inv s3 q2) as Hinv3.
  { apply (inv_plain_update s2 q2 t (unslept r1) f Hinv2 Hr2); try done. intros Ht. by apply filter_not_in in Ht. }
  assert (threads s3 !! t = Some (f (unslept r1))) as Hr3 by (unfold s3; sched_cbn; by lookups).
  assert (keeps world_part (threads s0) (threads s3)) as Hkw.
  { transitivity (threads s1); [apply world_bare; by apply bare_unqueued|]. transitivity m; [apply world_bare; by apply bare_unslept|].
    unfold s3. sched_cbn. by eapply keeps_insert. }
  destruct (world_keeps s0 q s3 q2 Hs0 Hinv3 Hkw V1 V2 V3 V4) as [Hs3 Hk3].
  exists (with_interrupts (interrupts s) s3), q2. split_and!; [done|by apply settled_interrupts|by intros Hk; apply Hk3| |exact V1|exact V5|].
  2: { intros u w Hne Hw. apply (waits_others t u w s2 q2); [|done|].
       - intros v Hv. unfold s3. sched_cbn. by rewrite lookup_insert_ne.
       - specialize (Hw1 u w Hne Hw). revert Hw1. apply waits_frame; [by apply wake_keeps, bare_unslept| |eauto].
         unfold q2. cbn [sleepers with_sleepers with_ready]. rewrite list_elem_of_filter. tauto. }
  split_and!.
  - exists (f (unslept r1)). by split_and!.
  - apply filter_not_in.
  - intros p l Hl Ht. destruct (rr_member _ _ _ _ _ (inv_ready _ _ Hinv3) p l t Hl Ht) as (r' & Hr' & Hf' & _). rewrite Hr3 in Hr'. injection Hr' as <-. cbn in Hf'. congruence.
  - intros u Hne. unfold q2. cbn [sleepers with_sleepers with_ready]. rewrite list_elem_of_filter. tauto.
Qed.

(** ** Priorities *)

(** The running thread with another priority and a full time slice. *)
Lemma settled_priority s q c r priority :
  settled s q -> g_current_thread s = Some c -> threads s !! c = Some r -> 0 <= priority < 32 ->
  let s1 := with_threads (<[c := with_priority priority r]> (threads s)) s in settled s1 q /\ (in_kernel s -> in_kernel s1).
Proof.
  intros Hs Hc Hr Hp s1. destruct (settled_current s q c Hs Hc) as (r' & Hr' & Hst). rewrite Hr in Hr'. injection Hr' as <-.
  apply (world_keeps s q); try done; [|by eapply keeps_insert].
  assert (in_ready_queue r = false) as Hq.
  { destruct (in_ready_queue r) eqn:Hq; [|done]. destruct (ready_in _ _ _ _ _ (inv_ready _ _ (se_inv _ _ Hs)) c r Hr Hq) as ((_ & _ & E) & _). congruence. }
  pose proof (inv_threads _ _ (se_inv _ _ Hs) c r Hr) as [K1 K2 K3 K4 K5]. apply (inv_update s q (se_inv _ _ Hs) c r); try done.
  - congruence.
  - intros Hsl. pose proof (sl_waiting _ _ _ _ (inv_sleep _ _ (se_inv _ _ Hs)) c r Hsl Hr). congruence.
  - intros Hre. pose proof (re_ended _ _ _ _ (inv_retired _ _ (se_inv _ _ Hs)) c r Hre Hr). congruence.
  - intros _. by right.
Qed.

(** What [set_current_priority] leads to. *)
Inductive reprioritised (c : Z) (r : Thread) (priority : Z) (enabled : bool) (s : Sched) (q : Queues) (ctl : Control) (s' : Sched) : Prop :=
| rp_kept r' : outranked q (with_priority priority r) = false -> settled s' q -> in_kernel s' -> g_current_thread s' = Some c -> threads s' !! c = Some r' ->
    current_priority r' = priority /\ base_priority r' = priority /\ quantum_ticks_remaining r' = full_quantum r ->
    ctl = Returns InSetPriority StatusOK -> g_tick_count s' = g_tick_count s -> (forall t, t <> c -> threads s' !! t = threads s !! t) -> reprioritised c r priority enabled s q ctl s'
| rp_left s1 r1 : outranked q (with_priority priority r) = true -> threads s1 !! c = Some r1 -> current_priority r1 = priority -> in_kernel s1 ->
    g_current_thread s1 = Some c -> g_tick_count s1 = g_tick_count s -> (forall t, t <> c -> threads s1 !! t = threads s !! t) ->
    rotated c false InSetPriority enabled s1 q ctl s' -> reprioritised c r priority enabled s q ctl s'.

Lemma set_current_priority_post s q c priority :
  settled s q -> in_kernel s -> g_current_thread s = Some c -> g_idle_thread s <> Some c -> 0 <= priority < 32 ->
  post kernel (set_current_priority priority s) (fun ctl s' => exists s1 q1 r1, settled s1 q1 /\ grows [] (with_interrupts false s) q s1 q1 /\ threads s1 !! c = Some r1 /\
    reprioritised c r1 priority (interrupts s) s1 q1 ctl s').
Proof.
  intros Hs Hk Hc Hi Hp. unfold set_current_priority, ThreadPriorityLevelCount. destruct (Z.leb_spec 32 priority); [lia|]. rewrite seq_mask. cbn zeta.
  eapply (opening s q); [done|done|]. intros s1 q1 Hs1 Hk1 Hg _. rewrite !seq_read. pose proof (gr_current _ _ _ _ _ Hg) as Hc1. pose proof (gr_idle _ _ _ _ _ Hg) as Hi1.
  cbn in Hc1, Hi1. rewrite Hc in Hc1. rewrite Hc1, Hi1, bool_decide_eq_false_2 by congruence.
  destruct (settled_current s1 q1 c Hs1 Hc1) as (r1 & Hr1 & Hst1). rewrite (seq_thread c r1), bool_decide_eq_true_2 by done. cbn [negb].
  rewrite (seq_update c r1) by done. destruct (settled_priority s1 q1 c r1 priority Hs1 Hc1 Hr1 Hp) as [Hs2 Hk2]. set (s2 := with_threads _ s1) in *.
  assert (threads s2 !! c = Some (with_priority priority r1)) as Hr2 by (unfold s2; sched_cbn; by lookups).
  destruct (settled_reset s2 q1 c _ Hs2 Hc1 Hr2) as (Hrun & Hs3 & Hk3). rewrite (seq_change _ _ _ _ Hrun). set (s3 := with_threads _ s2) in *.
  set (r3 := with_quantum_ticks_remaining _ _) in *. assert (threads s3 !! c = Some r3) as Hr3 by (unfold s3; sched_cbn; by lookups).
  rewrite seq_read, (seq_thread c r3), (outranked_ok s3 q1 r3 (se_inv _ _ Hs3)) by done.
  change (outranked q1 r3) with (outranked q1 (with_priority priority r1)). destruct (outranked q1 (with_priority priority r1)) eqn:Ho.
  - eapply post_mono; [|eapply (dispatch_post s3 q1 c r3 false false false InSetPriority (interrupts s)); try done; [|]].
    + intros ctl s' Hro. exists s1, q1, r1. split_and!; [done|done|done|]. eapply rp_left; try done; [by apply Hk3, Hk2|].
      intros t Ht. unfold s3, s2. sched_cbn. by rewrite !lookup_insert_ne.
    + unfold s3, s2; sched_cbn; congruence.
    + eapply (in_kernel_may_leave s3 c r3); [by apply Hk3, Hk2|done|done].
  - rewrite seq_unmask. apply post_ret. exists s1, q1, r1. split_and!; [done|done|done|]. eapply (rp_kept _ _ _ _ _ _ _ _ r3); try done.
    + by apply settled_interrupts.
    + by apply Hk3, Hk2.
    + intros t Ht. unfold s3, s2. sched_cbn. by rewrite !lookup_insert_ne.
Qed.

(** ** Making a thread ready *)
Lemma find_thread_ok s q t r : inv s q -> threads s !! t = Some r -> find_thread (t_id r) s = Ok (Some t).
Proof.
  intros Hinv Hr. pose proof (inv_registry _ _ Hinv) as [G1 G2 G3]. unfold find_thread.
  erewrite (dl_find_ok (H := registry_links) _ _ _ _ (registry q) (fun r0 => t_id r0 =? t_id r)); [|done|done]. f_equal.
  destruct (list_find _ (registry q)) as [[i u]|] eqn:Hf; cbn.
  - apply list_find_Some in Hf as (Hu & Hp & _). destruct (threads s !! u) as [ru|] eqn:Hru; [|done]. cbn in Hp. injection Hp as Hp%Z.eqb_eq. f_equal. by eapply G3.
  - apply list_find_None in Hf. rewrite Forall_forall in Hf. assert (t ∈ registry q) as Ht by (apply G2; eauto). apply Hf in Ht. rewrite Hr in Ht. cbn in Ht.
    by rewrite Z.eqb_refl in Ht.
Qed.

Lemma seq_find {B} s q t r (k : option Z -> M B) :
  inv s q -> threads s !! t = Some r -> seq (exec (fun s => f <- find_thread (t_id r) s ;; Ok (f, s))) k s = k (Some t) s.
Proof. intros Hinv Hr. apply seq_exec. by rewrite (find_thread_ok s q t r Hinv Hr). Qed.

Lemma readied_settled s q t r s1 q1 :
  settled s q -> readied t true s q s1 q1 -> threads s !! t = Some r -> current_state r <> Terminated -> g_current_thread s <> Some t ->
  settled s1 q1 /\ (in_kernel s -> in_kernel s1).
Proof.
  intros [S1 (c & rc & Hc & Hrc & Hst) S3 S4 S5] [R1 _ (r0 & r1 & Hr0 & Hr1 & W) R4 R5 (V1 & V2 & V3 & V4 & V5) R7] Hr Hte Hct.
  rewrite Hr in Hr0. injection Hr0 as <-. destruct (woken_fields _ _ W) as (W1 & W2 & W3 & W4 & W5 & W6).
  assert (forall u ru, u <> t -> threads s1 !! u = Some ru -> exists r0, threads s !! u = Some r0 /\ steady r0 ru) as Hback.
  { intros u ru Hne Hru. destruct (R5 u ltac:(eauto)) as [r0 Hr0]. destruct (R4 u r0 Hne Hr0) as (r2 & Hr2 & E). exists r0. split; [done|]. congruence. }
  assert (c <> t) as Hne by congruence. destruct (R4 c rc Hne Hrc) as (rc1 & Hrc1 & Ec & _). destruct (still_fields _ _ Ec) as (Es & _ & Ep & _ & _ & Ex & _).
  split; [split; [done| | | |]|].
  - exists c, rc1. split_and!; congruence.
  - intros u ru Hru Hru2. rewrite V1, V2. destruct (decide (u = t)) as [->|Hnu]; [congruence|]. destruct (Hback u ru Hnu Hru) as (r2 & Hr2 & E & _).
    destruct (still_fields _ _ E) as (E1 & _). apply (S3 u r2 Hr2). congruence.
  - intros u ru Hru Hnc. rewrite V1 in Hnc. destruct (decide (u = t)) as [->|Hnu].
    + rewrite Hr1 in Hru. injection Hru as <-. eapply (saved_running r); [by apply (S4 t)|done|done].
    + destruct (Hback u ru Hnu Hru) as (r2 & Hr2 & G). eapply (saved_grows s u r2 ru); [by left|]. by apply (S4 u).
  - intros c1 r2 p x Hc1 Hr2 Hp Hx. rewrite V1, Hc in Hc1. injection Hc1 as <-. rewrite Hrc1 in Hr2. injection Hr2 as <-.
    destruct (R7 p x Hx) as (x0 & Hx0 & _ & ->). rewrite V5. apply (S5 c rc p x0); congruence.
  - intros Hk c1 r2 Hc1 Hr2. rewrite V1, Hc in Hc1. injection Hc1 as <-. rewrite Hrc1 in Hr2. injection Hr2 as <-. rewrite Ex. by apply (Hk c rc).
Qed.

(** The answers of [enqueue]: [s1] is the state in which the thread is looked up. *)
Inductive enqueued (t : Z) (r : Thread) (enabled : bool) (s : Sched) (q : Queues) (st : Status) (s' : Sched) : Prop :=
| eq_ended : current_state r = Terminated -> st = StatusBusy -> s' = with_interrupts enabled s -> enqueued t r enabled s q st s'
| eq_current : current_state r <> Terminated -> g_current_thread s = Some t -> st = StatusAlreadyExists -> s' = with_interrupts enabled s -> enqueued t r enabled s q st s'
| eq_queued : current_state r = Ready -> in_ready_queue r = true -> st = StatusAlreadyExists -> s' = with_interrupts enabled s -> enqueued t r enabled s q st s'
| eq_readied s1 q1 s2 q2 : current_state r <> Terminated -> g_current_thread s <> Some t -> in_ready_queue r = false -> st = StatusOK ->
    readied t true s q s1 q1 -> inv s2 q2 -> grows [] s1 q1 s2 q2 -> due s2 t -> s' = with_interrupts enabled s2 -> enqueued t r enabled s q st s'.

Lemma readied_waits t s q s1 q1 u w : inv s q -> readied t true s q s1 q1 -> waits u w s q -> waits u w s1 q1.
Proof.
  intros Hinv [R1 (r & l & Hr & Hl & ->) (r' & r1 & Hr' & Hr1 & W) R4 R5 _ _] Hw.
  destruct (decide (u = t)) as [->|Hne].
  { right. exists (level_of r), (pushed true t l). cbn [ready with_ready]. rewrite list_lookup_insert_eq by (by apply lookup_lt_Some in Hl).
    split; [done|]. apply pushed_in. by left. }
  revert Hw. apply waits_frame.
  - unfold wake_of. destruct (threads s !! u) as [ru|] eqn:Hru.
    + destruct (R4 u ru Hne Hru) as (ru1 & -> & [E _]). by destruct (still_fields _ _ E) as (_ & _ & _ & Ew & _).
    + destruct (threads s1 !! u) as [ru1|] eqn:Hru1; [|done]. destruct (R5 u ltac:(eauto)) as [? ?]. congruence.
  - cbn [sleepers with_ready with_sleepers]. rewrite list_elem_of_filter. done.
  - intros p l' Hl' Hu. cbn [ready with_ready]. destruct (decide (p = level_of r)) as [->|Hp].
    + rewrite Hl in Hl'. injection Hl' as <-. exists (level_of r), (pushed true t l). rewrite list_lookup_insert_eq by (by apply lookup_lt_Some in Hl).
      split; [done|]. apply pushed_in. by right.
    + exists p, l'. by rewrite list_lookup_insert_ne.
Qed.

Lemma enqueued_settled t r enabled s q st s' :
  settled s q -> in_kernel s -> threads s !! t = Some r -> enqueued t r enabled s q st s' -> exists q', settled s' q' /\ in_kernel s'.
Proof.
  intros Hs Hk Hr [_ _ ->|_ _ _ ->|_ _ _ ->|s1 q1 s2 q2 Hst Hc _ _ R Hinv2 Hg _ ->]; try (exists q; split; [by apply settled_interrupts|done]).
  destruct (readied_settled s q t r s1 q1 Hs R Hr Hst Hc) as [Hs1 Hk1]. exists q2. split; [apply settled_interrupts; by eapply grows_settled|].
  exact (grows_in_kernel _ _ _ _ (se_inv _ _ Hs1) Hg (Hk1 Hk)).
Qed.

Lemma kept_thread s q s1 q1 t r :
  grows [] s q s1 q1 -> threads s !! t = Some r -> t ∉ retired q -> exists r1, threads s1 !! t = Some r1.
Proof. intros Hg Hr Ht. destruct (gr_thread _ _ _ _ _ Hg t r Hr) as (r1 & Hr1 & _); [apply not_elem_of_nil|done|eauto]. Qed.

Lemma enqueue_post s q t r :
  settled s q -> in_kernel s -> threads s !! t = Some r -> t ∉ retired q -> g_idle_thread s <> Some t ->
  post kernel (enqueue (Some t) s) (fun st s' => exists s1 q1 r1, settled s1 q1 /\ in_kernel s1 /\ grows [] (with_interrupts false s) q s1 q1 /\
    (retired q = [] -> s1 = with_interrupts false s /\ q1 = q) /\ threads s1 !! t = Some r1 /\ enqueued t r1 (interrupts s) s1 q1 st s').
Proof.
  intros Hs Hk Hr Hnr Hi. unfold enqueue. rewrite seq_mask. cbn zeta. eapply (opening_exact s q); [done|done|]. intros s1 q1 Hs1 Hk1 Hg _ Hnone.
  pose proof (se_inv _ _ Hs1) as Hinv1. destruct (kept_thread _ _ _ _ t r Hg Hr Hnr) as (r1 & Hr1). rewrite (seq_thread t r1), (seq_find s1 q1 t r1) by done.
  rewrite bool_decide_eq_true_2 by done. cbn [negb].
  match goal with |- post _ _ ?Q => assert (forall st s', enqueued t r1 (interrupts s) s1 q1 st s' -> Q st s') as HQ by (intros st s' H; exists s1, q1, r1; split_and!; done) end.
  case_bool_decide as Hst; [rewrite seq_unmask; apply post_ret, HQ; by constructor 1|]. rewrite seq_read.
  destruct (inv_current _ _ Hinv1) as (c & Hc1 & _). rewrite Hc1. case_bool_decide as Hct.
  { rewrite seq_unmask. apply post_ret, HQ. constructor 2; [done|congruence|done|done]. }
  destruct (in_ready_queue r1) eqn:Hf.
  - cbn [transition_thread_to_ready]. apply seq_assoc. rewrite (seq_thread t r1) by done. rewrite bool_decide_eq_false_2, Hf by done. rewrite seq_ret, seq_unmask. apply post_ret, HQ.
    constructor 3; try done. by destruct (ready_in _ _ _ _ _ (inv_ready _ _ Hinv1) t r1 Hr1 Hf) as ((_ & _ & E) & _).
  - eapply post_seq; [apply (transition_post s1 q1 t r1 true); try done; pose proof (gr_idle _ _ _ _ _ Hg) as E; cbn in E; congruence|].
    cbn beta. intros st s2 (-> & Hd & s3 & q3 & q4 & R & Hinv2 & Hg2). rewrite seq_unmask. apply post_ret, HQ. econstructor 4; try done. congruence.
Qed.

(** ** The priority of another thread *)
Record prioritised (t : Z) (r : Thread) (priority : Z) (m : gmap Z Thread) (q' : Queues) : Prop := {
  pz_thread : exists r', m !! t = Some r' /\ current_priority r' = priority /\ base_priority r' = priority /\ quantum_ticks_remaining r' = full_quantum r /\
    current_state r' = current_state r;
  pz_ready : current_state r = Ready -> exists l, ready q' !! Z.to_nat priority = Some (l ++ [t])
}.

Lemma set_priority_fields s q t r priority :
  inv s q -> threads s !! t = Some r -> in_ready_queue r = false -> 0 <= priority < 32 ->
  let r' := with_quantum_ticks_remaining (full_quantum r) (with_priority priority r) in
  let s1 := with_threads (<[t := with_priority priority r]> (threads s)) s in
  let s2 := with_threads (<[t := r']> (threads s1)) s1 in
  reset_quantum (Some t) s1 = Ok s2 /\ inv s2 q /\ threads s2 !! t = Some r' /\ keeps world_part (threads s) (threads s2).
Proof.
  intros Hinv Hr Hf Hp. cbn zeta. set (s1 := with_threads _ s). assert (threads s1 !! t = Some (with_priority priority r)) as Hr1 by (unfold s1; sched_cbn; by lookups).
  assert (inv s1 q) as Hinv1.
  { pose proof (inv_threads _ _ Hinv t r Hr) as [K1 K2 K3 K4 K5]. apply (inv_update s q Hinv t r); try done.
    - congruence.
    - intros Hsl. split; [|done]. by apply (sl_waiting _ _ _ _ (inv_sleep _ _ Hinv) t r).
    - intros Hre. by apply (re_ended _ _ _ _ (inv_retired _ _ Hinv) t r).
    - intros Hi. destruct (inv_idle _ _ Hinv) as (i & ri & Hi' & Hri & _ & Hst). rewrite Hi in Hi'. injection Hi' as <-. rewrite Hr in Hri. injection Hri as <-. done. }
  destruct (inv_reset_quantum s1 q t _ Hinv1 Hr1) as [Hrun Hinv2]. split_and!; [exact Hrun|exact Hinv2|sched_cbn; by lookups|].
  transitivity (threads s1); [by eapply keeps_insert|]. sched_cbn. by eapply keeps_insert.
Qed.

(** The rest of [set_thread_priority] once the thread has left its level. *)
Lemma reprioritise_post s q t r priority enabled c rc idle :
  settled s q -> in_kernel s -> threads s !! t = Some r -> in_ready_queue r = false -> 0 <= priority < 32 ->
  g_idle_thread s <> Some t -> g_current_thread s = Some c -> c <> t -> threads s !! c = Some rc ->
  post kernel ((update t (with_priority priority) ;;;
      change (reset_quantum (Some t)) ;;;
      if bool_decide (current_state r = Ready) then
        let! status := exec (ready_queue_push (Some t) true) in
        if negb (bool_decide (status = StatusOK)) then restore_interrupts enabled ;;; ret (Returns InSetPriority status) else
        if bool_decide (Some c = idle) then restore_interrupts enabled ;;; ret (Returns InSetPriority StatusOK) else
        let! r := thread_at t in
        let! rc := thread_at c in
        (if current_priority r <? current_priority rc then set_var (with_g_reschedule_pending true) else ret tt) ;;;
        restore_interrupts enabled ;;; ret (Returns InSetPriority StatusOK)
      else restore_interrupts enabled ;;; ret (Returns InSetPriority StatusOK)) s)
    (fun ctl s' => exists q', ctl = Returns InSetPriority StatusOK /\ settled s' q' /\ in_kernel s' /\ prioritised t r priority (threads s') q' /\ g_current_thread s' = Some c /\
      g_tick_count s' = g_tick_count s /\ forall u w, waits u w s q -> waits u w s' q').
Proof.
  intros Hs Hk Hr Hf Hp Hi Hc Hct Hrc. rewrite (seq_update t r) by done.
  destruct (set_priority_fields s q t r priority (se_inv _ _ Hs) Hr Hf Hp) as (Hrun & Hinv2 & Hr2 & Hkw). cbn zeta in *.
  rewrite (seq_change _ _ _ _ Hrun). set (r2 := with_quantum_ticks_remaining _ _) in *. set (s2 := with_threads _ (with_threads _ s)) in *.
  destruct (world_keeps s q s2 q Hs Hinv2 Hkw eq_refl eq_refl eq_refl eq_refl) as [Hs2 Hk2].
  assert (forall u w, waits u w s q -> waits u w s2 q) as Hw2.
  { intros u w. apply waits_frame; [|done|eauto]. unfold s2, wake_of. sched_cbn. destruct (decide (u = t)) as [->|Hne]; [|by rewrite !lookup_insert_ne].
    lookups. by rewrite Hr. }
  case_bool_decide as Hst; cycle 1.
  { rewrite seq_unmask. apply post_ret. exists q. split_and!; [done|by apply settled_interrupts|by apply Hk2| |done|done|exact Hw2]. split; [by exists r2|done]. }
  destruct (level_list s2 q Hinv2 t r2 Hr2) as [l Hl].
  destruct (inv_push s2 q Hinv2 t r2 true l Hr2 Hst Hf Hi Hl) as (m & queues & bitmap & count & Hrun3 & Hinv3 & Hk3).
  rewrite (seq_exec _ _ _ _ _ Hrun3). rewrite bool_decide_eq_true_2 by done. cbn [negb]. set (s3 := set_ready m queues bitmap count s2) in *. set (q3 := with_ready _ q) in *.
  destruct (world_keeps s2 q s3 q3 Hs2 Hinv3 (world_bare _ _ (bare_unqueued _ _ Hk3)) eq_refl eq_refl eq_refl eq_refl) as [Hs3 Hk3'].
  destruct (keeps_lookup _ _ _ _ _ Hk3 Hr2) as (r3 & Hr3 & E3).
  assert (prioritised t r priority (threads s3) q3) as Hpz.
  { split.
    - exists r3. split_and!; [done|exact (f_equal current_priority E3)|exact (f_equal base_priority E3)|exact (f_equal quantum_ticks_remaining E3)|exact (f_equal current_state E3)].
    - intros _. exists l. unfold q3. cbn [ready with_ready]. change (level_of r2) with (Z.to_nat priority) in *. rewrite list_lookup_insert_eq; [done|]. by apply lookup_lt_Some in Hl. }
  assert (forall u w, waits u w s q -> waits u w s3 q3) as Hw3.
  { intros u w Hw. apply (waits_pushed u w s2); [by apply bare_unqueued|exact Hl|by apply Hw2]. }
  assert (forall b, settled (with_interrupts enabled (with_g_reschedule_pending b s3)) q3) as Hs4 by (intros b; by apply settled_interrupts, settled_pending).
  case_bool_decide as Hci.
  { rewrite seq_unmask. apply post_ret. exists q3. split_and!; [done|by apply settled_interrupts|by apply Hk3', Hk2|done|done|done|exact Hw3]. }
  assert (exists rc3, threads s3 !! c = Some rc3) as (rc3 & Hrc3).
  { destruct (keeps_lookup _ _ _ _ _ Hkw Hrc) as (rc2 & Hrc2 & _). destruct (keeps_lookup _ _ _ _ _ Hk3 Hrc2) as (rc3 & Hrc3 & _). eauto. }
  rewrite (seq_thread t r3), (seq_thread c rc3) by done.
  destruct (current_priority r3 <? current_priority rc3); [rewrite seq_set|rewrite seq_ret]; rewrite seq_unmask; apply post_ret; exists q3; split_and!; try done.
  - by apply Hk3', Hk2.
  - by apply settled_interrupts.
  - by apply Hk3', Hk2.
Qed.

(** What [set_thread_priority] leads to, from the state [s] the lookup is made in. *)
Inductive priority_set (t : Z) (r : Thread) (priority : Z) (enabled : bool) (s : Sched) (q : Queues) (ctl : Control) (s' : Sched) : Prop :=
| ps_busy : g_idle_thread s = Some t \/ current_state r = Terminated -> ctl = Returns InSetPriority StatusBusy -> s' = with_interrupts enabled s ->
    priority_set t r priority enabled s q ctl s'
| ps_current s1 q1 r1 : g_current_thread s = Some t -> settled s1 q1 -> grows [] (with_interrupts false s) q s1 q1 -> threads s1 !! t = Some r1 ->
    reprioritised t r1 priority enabled s1 q1 ctl s' -> priority_set t r priority enabled s q ctl s'
| ps_other q' : g_idle_thread s <> Some t -> current_state r <> Terminated -> g_current_thread s <> Some t -> ctl = Returns InSetPriority StatusOK ->
    settled s' q' -> in_kernel s' -> prioritised t r priority (threads s') q' -> g_current_thread s' = g_current_thread s ->
    g_tick_count s' = g_tick_count s -> (forall u w, waits u w s q -> waits u w s' q') ->
    priority_set t r priority enabled s q ctl s'.

Lemma set_thread_priority_post s q t r priority :
  settled s q -> in_kernel s -> threads s !! t = Some r -> t ∉ retired q -> 0 <= priority < 32 ->
  post kernel (set_thread_priority (Some t) priority s) (fun ctl s' => exists s1 q1 r1, settled s1 q1 /\ in_kernel s1 /\ grows [] (with_interrupts false s) q s1 q1 /\ threads s1 !! t = Some r1 /\
    priority_set t r1 priority (interrupts s) s1 q1 ctl s').
Proof.
  intros Hs Hk Hr Hnr Hp. unfold set_thread_priority, ThreadPriorityLevelCount. destruct (Z.leb_spec 32 priority); [lia|]. rewrite seq_mask. cbn zeta.
  eapply (opening s q); [done|done|]. intros s1 q1 Hs1 Hk1 Hg _. pose proof (se_inv _ _ Hs1) as Hinv1. destruct (kept_thread _ _ _ _ t r Hg Hr Hnr) as (r1 & Hr1).
  rewrite (seq_thread t r1), (seq_find s1 q1 t r1) by done. rewrite bool_decide_eq_true_2 by done. cbn [negb]. rewrite seq_read.
  match goal with |- post _ _ ?Q => assert (forall ctl s', priority_set t r1 priority (interrupts s) s1 q1 ctl s' -> Q ctl s') as HQ by (intros st s' H1; exists s1, q1, r1; split_and!; done) end.
  destruct (bool_decide (Some t = g_idle_thread s1) || bool_decide (current_state r1 = Terminated)) eqn:Hbusy.
  { rewrite seq_unmask. apply post_ret, HQ. constructor 1; try done. apply orb_true_iff in Hbusy as [Hb|Hb]; apply bool_decide_eq_true in Hb; [left; congruence|by right]. }
  apply orb_false_iff in Hbusy as [Hb1%bool_decide_eq_false Hb2%bool_decide_eq_false]. assert (g_idle_thread s1 <> Some t) as Hi1 by congruence. rewrite seq_read.
  destruct (inv_current _ _ Hinv1) as (c & Hc1 & rc & Hrc). rewrite Hc1. case_bool_decide as Hct.
  - injection Hct as <-. rewrite seq_unmask. set (s2 := with_interrupts (interrupts s) s1). assert (settled s2 q1) as Hs2 by (by apply settled_interrupts).
    eapply post_mono; [|apply (set_current_priority_post s2 q1 t priority); done]. intros ctl s' (s3 & q3 & r3 & Hs3 & Hg3 & Hr3 & Hre).
    apply HQ. econstructor 2; [done|exact Hs3| |exact Hr3|exact Hre]. destruct Hg3. by split.
  - destruct (inv_dequeue s1 q1 t r1 Hinv1 Hr1) as (s2 & R & Hrun & Hinv2 & Hk2 & (r2 & Hr2 & E2 & F2) & V1 & V2 & V3 & V4 & V5 & V6 & V7 & Hw2).
    destruct (world_keeps s1 q1 s2 (with_ready R q1) Hs1 Hinv2 (world_bare _ _ (bare_unqueued _ _ Hk2)) V1 V2 V3 V4) as [Hs2 Hker2].
    destruct (keeps_lookup _ _ _ _ _ Hk2 Hrc) as (rc2 & Hrc2 & _).
    assert (forall B (k : unit -> M B), seq (if in_ready_queue r1 then change (ready_queue_remove (Some t)) else ret tt) k s1 = k tt s2) as Hstep.
    { intros B k. destruct (in_ready_queue r1); [by apply seq_change|]. injection Hrun as ->. by rewrite seq_ret. }
    rewrite Hstep. replace (current_state r1) with (current_state r2) by exact (f_equal current_state E2).
    eapply post_mono; [|apply (reprioritise_post s2 (with_ready R q1) t r2 priority (interrupts s) c rc2 (g_idle_thread s1)); try done; [by apply Hker2|congruence|congruence|congruence]].
    intros ctl s' (q' & -> & Hs' & Hk' & [P1 P2] & Hc' & Ht' & Hw'). apply HQ. econstructor 3; try done; [congruence| |congruence|congruence|].
    2: { intros u w Hw. destruct (decide (u = t)) as [->|Hne]; [|by apply Hw', Hw2]. destruct Hw as [[Hsl Hwk]|(p & l & Hl & Hin)].
         - apply Hw'. left. split; [exact Hsl|]. by rewrite (wake_keeps _ _ t (bare_unqueued _ _ Hk2)).
         - destruct (rr_member _ _ _ _ _ (inv_ready _ _ Hinv1) p l t Hl Hin) as (r0 & Hr0 & _ & _ & Hst0). rewrite Hr1 in Hr0. injection Hr0 as <-.
           destruct P2 as (l' & Hl'); [rewrite <- Hst0; exact (f_equal current_state E2)|]. right. exists (Z.to_nat priority), (l' ++ [t]). split; [done|].
           apply elem_of_app. right. apply list_elem_of_here. }
    assert (current_state r2 = current_state r1) as Es by exact (f_equal current_state E2).
    split; [|by rewrite <- Es]. destruct P1 as (r' & Hr' & A1 & A2 & A3 & A4). exists r'. split_and!; [done|done|done| |congruence].
    rewrite A3. unfold full_quantum. assert (quantum_ticks r2 = quantum_ticks r1) as -> by exact (f_equal quantum_ticks E2). done.
Qed.

Lemma reprioritised_ended c r priority enabled s q ctl s' : reprioritised c r priority enabled s q ctl s' -> well_ended ctl s'.
Proof.
  intros [r' _ Hs Hk _ _ _ -> _ _|s1 r1 _ _ _ Hk _ _ _ Hro]; [split; [by exists q|done]|]. eapply rotated_ended; [exact Hro|by left].
Qed.

Lemma priority_set_ended t r priority enabled s q ctl s' :
  settled s q -> in_kernel s -> priority_set t r priority enabled s q ctl s' -> well_ended ctl s'.
Proof.
  intros Hs Hk [_ -> ->|s1 q1 r1 _ _ _ _ Hre|q' _ _ _ -> Hs' Hk' _ _ _ _].
  - split; [exists q; by apply settled_interrupts|done].
  - by eapply reprioritised_ended.
  - by split; [exists q'|].
Qed.
