(* ===== verification/SchedSystem.v ===== *)
(** The scheduler as a system: every call that threads, interrupts and the rest of
    the kernel make, and the states that sequences of them reach.

    Progress: sleepers are woken when their tick comes, and a thread does not keep
    the processor past its time slice while another of its level is ready. *)
From stdpp Require Import base list gmap.
From Stdlib Require Import ZArith Lia Sorted.
From S2P Require Import Prelude KernelText DList KernelIface SchedState Scheduler SchedQueues SchedOps SchedInv SchedLogic SchedProofs SchedSwitch SchedCalls SchedTimer SchedRequests.

Local Open Scope Z_scope.

Inductive Request : Type :=
| Yield
| Poll
| Block (reason : WaitReason) (object : option Z)
| BlockFor (reason : WaitReason) (delay_ticks : Z) (object : option Z)
| Sleep (delay_ticks : Z)
| Exit
| SetCurrentPriority (priority : Z)
| SetThreadPriority (thread : option Z) (priority : Z)
| Enqueue (thread : option Z)
| Tick
| CurrentElIrq
| LowerElIrq (frame : AArch64ExceptionFrame)
| ReapRetired
| Forget (thread : option Z)
| EnterKernel (stack pc state : Z).

(** Where a call ends: in the thread that runs then, or with a plain result. *)
Inductive Reply : Type :=
| Switched (control : Control)
| Answered (status : Status)
| Completed.

Definition run (request : Request) : M Reply :=
  let switched (m : M Control) := let! c := m in ret (Switched c) in
  let completed (m : M unit) := m ;;; ret Completed in
  match request with
  | Yield => switched yield
  | Poll => switched poll
  | Block reason object => switched (block_current reason object)
  | BlockFor reason delay object => switched (block_current_for reason delay object)
  | Sleep delay => switched (sleep_current delay)
  | Exit => switched exit_current_thread
  | SetCurrentPriority priority => switched (set_current_priority priority)
  | SetThreadPriority thread priority => switched (set_thread_priority thread priority)
  | Enqueue thread => let! st := enqueue thread in ret (Answered st)
  | Tick => completed timer_tick
  | CurrentElIrq => switched handle_current_el_timer_irq
  | LowerElIrq frame => switched (handle_lower_el_timer_irq (Some frame))
  | ReapRetired => completed reap_retired
  | Forget thread => completed (change (forget thread))
  | EnterKernel stack pc state => completed (capture_current_user_context stack pc state)
  end.

(** A thread that has not been handed to [reap_retired_threads]. *)
Definition live (t : Z) (s : Sched) : Prop := is_Some (threads s !! t) /\ forall q, inv s q -> t ∉ retired q.

(** What the callers keep to: calls come from a thread inside the kernel, pointers
    are null or to live threads, the idle thread neither ends nor is enqueued, and
    the running thread is not forgotten. *)
Definition legal (request : Request) (s : Sched) : Prop :=
  match request with
  | EnterKernel _ _ _ => True
  | Exit => in_kernel s /\ g_current_thread s <> g_idle_thread s
  | SetCurrentPriority p => in_kernel s /\ 0 <= p
  | SetThreadPriority thread p => in_kernel s /\ 0 <= p /\ forall t, thread = Some t -> live t s
  | Enqueue thread => in_kernel s /\ forall t, thread = Some t -> live t s /\ g_idle_thread s <> Some t
  | Forget thread => in_kernel s /\ forall t, thread = Some t -> is_Some (threads s !! t) /\ g_current_thread s <> Some t
  | _ => in_kernel s
  end.

(** The processor is left to a thread inside the kernel. *)
Definition kernel_side (reply : Reply) : bool :=
  match reply with
  | Switched (ResumesUser _) | Switched (EntersUser _ _ _) | Switched (Returns InLowerElIrq _) | Switched Halts => false
  | _ => true
  end.

Definition well_replied (reply : Reply) (s : Sched) : Prop :=
  (exists q, settled s q) /\ (kernel_side reply = true -> in_kernel s) /\ reply <> Switched Halts.

Lemma switched_post (m : M Control) s :
  post kernel (m s) well_ended -> post kernel ((let! c := m in ret (Switched c)) s) well_replied.
Proof.
  intros Hm. eapply post_seq; [exact Hm|]. intros ctl s' [Hs He]. apply post_ret. split_and!; [done| |].
  - destruct ctl as [[]| | | |]; cbn in *; try done; by intros _.
  - by intros [= ->].
Qed.

Lemma completed_post (m : M unit) s :
  post kernel (m s) (fun _ s' => (exists q, settled s' q) /\ in_kernel s') -> post kernel ((m ;;; ret Completed) s) well_replied.
Proof. intros Hm. eapply post_seq; [exact Hm|]. cbn beta. intros [] s' [Hs Hk]. apply post_ret. by split_and!. Qed.

Section Calls.
Context (s : Sched) (q : Queues) (c : Z).
Hypothesis Hs : settled s q.
Hypothesis Hk : in_kernel s.
Hypothesis Hc : g_current_thread s = Some c.

(** A call that is refused or answered at once. *)
Lemma same_ended caller st : well_ended (Returns caller st) s.
Proof. split; [by exists q|]. by destruct caller. Qed.

Lemma blocking_ended caller park :
  (g_idle_thread s <> Some c -> post kernel (blocking caller park s) well_ended) -> post kernel (blocking caller park s) well_ended.
Proof.
  intros Hp. destruct (decide (g_idle_thread s = Some c)) as [Hi|Hi]; [|by apply Hp].
  eapply post_mono; [|by apply (blocking_idle caller park s q c)]. cbn beta. intros ctl s' (-> & q' & Hs' & Hk' & _).
  split; [by exists q'|]. by destruct caller.
Qed.

Lemma block_ended reason object : post kernel (block_current reason object s) well_ended.
Proof.
  unfold block_current. apply blocking_ended. intros Hi. eapply post_mono; [|by apply (block_current_post s q c reason object)].
  cbn beta. intros ctl s' (s1 & q1 & _ & Hp). by eapply passed_ended.
Qed.

Lemma timed_ended caller object reason delay :
  caller <> InExit ->
  post kernel (blocking caller (fun c interrupts_enabled =>
      change (park_until c object reason delay) ;;;
      let! next := exec (pick_next_thread false) in
      switch_to_thread next caller interrupts_enabled) s) well_ended.
Proof.
  intros Hx. apply blocking_ended. intros Hi. eapply post_mono; [|by apply (timed_post s q c caller object reason delay)].
  cbn beta. intros ctl s' (s1 & q1 & _ & _ & Hp). by eapply passed_ended.
Qed.

Lemma set_current_ended priority : 0 <= priority -> post kernel (set_current_priority priority s) well_ended.
Proof.
  intros Hp. destruct (Z.leb_spec 32 priority) as [Hle|Hlt].
  { unfold set_current_priority, ThreadPriorityLevelCount. destruct (Z.leb_spec 32 priority); [|lia]. apply post_ret, same_ended. }
  destruct (decide (g_idle_thread s = Some c)) as [Hi|Hi].
  - unfold set_current_priority, ThreadPriorityLevelCount. destruct (Z.leb_spec 32 priority); [lia|]. rewrite seq_mask. cbn zeta.
    eapply (opening s q); [done|done|]. intros s1 q1 Hs1 Hk1 Hg _. rewrite !seq_read, (gr_current _ _ _ _ _ Hg), (gr_idle _ _ _ _ _ Hg). cbn [g_current_thread g_idle_thread with_interrupts].
    rewrite Hc, Hi, bool_decide_eq_true_2, seq_unmask by done. apply post_ret. split; [exists q1; by apply settled_interrupts|done].
  - eapply post_mono; [|apply (set_current_priority_post s q c priority); done]. cbn beta. intros ctl s' (s1 & q1 & r1 & _ & _ & _ & Hre). by eapply reprioritised_ended.
Qed.

Lemma set_thread_ended thread priority :
  0 <= priority -> (forall t, thread = Some t -> live t s) -> post kernel (set_thread_priority thread priority s) well_ended.
Proof.
  intros Hp Hl. destruct (Z.leb_spec 32 priority) as [Hle|Hlt].
  { unfold set_thread_priority, ThreadPriorityLevelCount. destruct (Z.leb_spec 32 priority); [|lia]. apply post_ret, same_ended. }
  destruct thread as [t|].
  - destruct (Hl t eq_refl) as ([r Hr] & Hnr). eapply post_mono; [|apply (set_thread_priority_post s q t r priority); try done; apply Hnr, Hs].
    cbn beta. intros ctl s' (s1 & q1 & r1 & Hs1 & Hk1 & _ & _ & Hps). by eapply priority_set_ended.
  - unfold set_thread_priority, ThreadPriorityLevelCount. destruct (Z.leb_spec 32 priority); [lia|]. rewrite seq_mask. cbn zeta.
    eapply (opening s q); [done|done|]. intros s1 q1 Hs1 Hk1 _ _. rewrite seq_unmask. apply post_ret. split; [exists q1; by apply settled_interrupts|done].
Qed.

Lemma enqueue_ended thread :
  (forall t, thread = Some t -> live t s /\ g_idle_thread s <> Some t) ->
  post kernel (enqueue thread s) (fun _ s' => (exists q, settled s' q) /\ in_kernel s').
Proof.
  intros Hl. destruct thread as [t|].
  - destruct (Hl t eq_refl) as (([r Hr] & Hnr) & Hi). eapply post_mono; [|apply (enqueue_post s q t r); try done; apply Hnr, Hs].
    cbn beta. intros st s' (s1 & q1 & r1 & Hs1 & Hk1 & _ & _ & Hr1 & He). destruct (enqueued_settled _ _ _ _ _ _ _ Hs1 Hk1 Hr1 He) as (q' & Hs' & Hk'). eauto.
  - unfold enqueue. rewrite seq_mask. cbn zeta. eapply (opening s q); [done|done|]. intros s1 q1 Hs1 Hk1 _ _. rewrite seq_unmask. apply post_ret.
    split; [exists q1; by apply settled_interrupts|done].
Qed.

Lemma forget_ended thread :
  (forall t, thread = Some t -> is_Some (threads s !! t) /\ g_current_thread s <> Some t) ->
  post kernel (change (forget thread) s) (fun _ s' => (exists q, settled s' q) /\ in_kernel s').
Proof.
  intros Hl. destruct thread as [t|].
  - destruct (Hl t eq_refl) as ([r Hr] & Hct). destruct (forget_ok s q t r Hs Hr Hct) as (s' & q' & Hrun & Hs' & Hk' & _). unfold change, exec. rewrite Hrun. cbn.
    split; [by exists q'|by apply Hk'].
  - unfold change, exec. cbn. split; [exists q; by destruct s|]. by destruct s.
Qed.
End Calls.

(** Every call that may be made completes, and leaves the scheduler in order. *)
Lemma run_post request s q : settled s q -> legal request s -> post kernel (run request s) well_replied.
Proof.
  intros Hs Hl. destruct (settled_some s q Hs) as (c & Hc). unfold run.
  destruct request as [| |reason object|reason delay object|delay| |priority|thread priority|thread| | |frame| |thread|stack pc state]; cbn [legal] in Hl.
  - apply switched_post. eapply post_mono; [|by apply (yield_post s q c)]. cbn beta. intros ctl s' (s1 & q1 & _ & Hk1 & _ & Hy). by eapply yielded_ended.
  - apply switched_post. eapply post_mono; [|by apply (poll_post s q c)]. cbn beta. intros ctl s' (s0 & q0 & x & s1 & q1 & r1 & _ & _ & A & _ & Hk1 & Hp).
    eapply polled_ended; [apply A|done|exact Hp].
  - apply switched_post. by eapply block_ended.
  - apply switched_post. unfold block_current_for. destruct (Z.eqb_spec delay 0); [by eapply block_ended|]. by eapply timed_ended.
  - apply switched_post. unfold sleep_current. destruct (Z.eqb_spec delay 0); [by eapply post_ret, same_ended|]. by eapply timed_ended.
  - apply switched_post. destruct Hl as [Hk Hi]. eapply post_mono; [|apply (exit_post s q c); try done; congruence]. cbn beta.
    intros ctl s' (s1 & q1 & r1 & _ & _ & _ & _ & _ & _ & _ & _ & Hp). by eapply passed_ended.
  - apply switched_post. destruct Hl. by eapply set_current_ended.
  - apply switched_post. destruct Hl as (Hk & Hp & Hl). by eapply set_thread_ended.
  - destruct Hl as [Hk Hl]. eapply post_seq; [by eapply (enqueue_ended s q)|]. cbn beta. intros st s' [Hs' Hk']. apply post_ret. by split_and!.
  - apply completed_post. eapply post_mono; [|by apply (timer_tick_post s q)]. cbn beta. intros _ s' (q' & T). split; [exists q'; apply T|by apply (tk_kernel _ _ _ _ T)].
  - apply switched_post. eapply post_mono; [|by apply (current_irq_post s q c)]. cbn beta. intros ctl s' (s1 & q1 & r1 & T & _ & Hr).
    eapply rescheduled_ended; [exact Hr|by apply (tk_kernel _ _ _ _ T)|left; by apply (tk_kernel _ _ _ _ T)].
  - apply switched_post. eapply post_mono; [|by apply (lower_irq_post s q c frame)]. cbn beta. intros ctl s' (s1 & q1 & r1 & T & _ & Hr).
    eapply irq_ended_well; [exact Hr|by apply (tk_kernel _ _ _ _ T)].
  - apply completed_post. eapply post_mono; [|by apply (reap_retired_post s q)]. cbn beta. intros _ s' (q' & Hs' & Hk' & _). eauto.
  - apply completed_post. destruct Hl as [Hk Hl]. by eapply forget_ended.
  - apply completed_post. eapply post_mono; [|by apply (capture_post s q)]. cbn beta. intros _ s' (Hs' & Hk' & _). eauto.
Qed.

(** ** Sequences of calls *)

(** A handler that keeps to the contract. *)
Definition obeys (h : Handler) : Prop :=
  forall c s, ask kernel c s -> exists x s', h c s = Ok (x, s') /\ reply kernel c s x s'.

(** The states that calls reach from [s0]; the flag is true while a thread is
    inside the kernel.  User code enters it before any other call. *)
Inductive reachable (h : Handler) (s0 : Sched) : Sched -> bool -> Prop :=
| reach_start : reachable h s0 s0 true
| reach_call s b request x s' :
    reachable h s0 s b -> legal request s -> handled h (run request s) = Ok (x, s') -> reachable h s0 s' (kernel_side x).

Lemma run_handled h request s q :
  obeys h -> settled s q -> legal request s -> exists x s', handled h (run request s) = Ok (x, s') /\ well_replied x s'.
Proof. intros Hh Hs Hl. apply (post_handled kernel); [done|]. by eapply run_post. Qed.

Lemma reachable_settled h s0 q0 s b :
  obeys h -> settled s0 q0 -> in_kernel s0 -> reachable h s0 s b -> (exists q, settled s q) /\ (b = true -> in_kernel s).
Proof.
  intros Hh Hs0 Hk0. induction 1 as [|s b request x s' _ [(q & Hs) _] Hl Hrun]; [eauto|].
  destruct (run_handled h request s q Hh Hs Hl) as (x' & s'' & Hrun' & Hs' & Hk' & _). rewrite Hrun in Hrun'. injection Hrun' as <- <-. done.
Qed.

(** ** Sleepers *)
Lemma advanced_waits n s q s' q' t w : settled s q -> advanced n s q s' q' -> waits t w s q -> waits t w s' q'.
Proof.
  intros Hs A [[Ht Hw]|(p & l & Hl & Ht)].
  - destruct (ad_sleeps _ _ _ _ _ A t Ht) as [Ht'|(r' & Hr' & _ & Hf)].
    + left. destruct (ad_wakes _ _ _ _ _ A t Ht') as [_ ->]. done.
    + right. by eapply (rr_flag _ _ _ _ _ (inv_ready _ _ (se_inv _ _ (ad_settled _ _ _ _ _ A)))).
  - right. destruct (ad_ready _ _ _ _ _ A p l Hl) as (new & Hl'). exists p, (l ++ new). split; [done|]. apply elem_of_app. by left.
Qed.

Lemma advanced_wakes n s q s' q' t w :
  settled s q -> advanced n s q s' q' -> (0 < n)%nat -> waits t w s q -> w <= g_tick_count s' -> exists p l, ready q' !! p = Some l /\ t ∈ l.
Proof.
  intros Hs A Hn Hw Hle. destruct (advanced_waits n s q s' q' t w Hs A Hw) as [[Ht Hw']|]; [|done]. exfalso.
  pose proof (ad_late _ _ _ _ _ A Hn) as Hl. rewrite Forall_forall in Hl. apply Hl in Ht. lia.
Qed.

(** [t] sleeps until the tick [w], which has not come, or is on the queue of a level. *)
Definition dozing (t w : Z) (s : Sched) (q : Queues) : Prop :=
  (t ∈ sleepers q /\ wake_of (threads s) t = w /\ g_tick_count s < w) \/ exists p l, ready q !! p = Some l /\ t ∈ l.

Lemma dozing_waits t w s q : dozing t w s q -> waits t w s q.
Proof. intros [(H1 & H2 & _)|H]; [by left|by right]. Qed.

Lemma dozing_calm t w s q s' q' :
  g_tick_count s' = g_tick_count s -> (forall w, waits t w s q -> waits t w s' q') -> dozing t w s q -> dozing t w s' q'.
Proof.
  intros Ht Hw Hd. pose proof (dozing_waits _ _ _ _ Hd) as H. destruct Hd as [(_ & _ & Hlt)|(p & l & Hl & Hin)].
  - destruct (Hw w H) as [[H1 H2]|]; [left|by right]. split_and!; [done|done|by rewrite Ht].
  - assert (forall w, waits t w s q) as Hall by (intros w'; right; by exists p, l).
    destruct (Hw w (Hall w)) as [[_ H2]|]; [|by right]. destruct (Hw (w + 1) (Hall _)) as [[_ H2']|]; [lia|by right].
Qed.

(** Only the thread that gets the processor leaves the queues. *)
Definition undisturbed (c : Z) (s : Sched) (q : Queues) (s' : Sched) : Prop :=
  exists q', settled s' q' /\ forall t w, t <> c -> g_current_thread s' <> Some t -> dozing t w s q -> dozing t w s' q'.

Lemma undisturbed_calm c s q s' q' :
  settled s' q' -> g_tick_count s' = g_tick_count s ->
  (forall t w, t <> c -> g_current_thread s' <> Some t -> waits t w s q -> waits t w s' q') -> undisturbed c s q s'.
Proof. intros Hs Ht Hw. exists q'. split; [done|]. intros t w Hne Hc. apply dozing_calm; [done|]. intros w'. by apply Hw. Qed.

Lemma undisturbed_after c s q s1 q1 s' :
  (forall t w, t <> c -> dozing t w s q -> dozing t w s1 q1) -> undisturbed c s1 q1 s' -> undisturbed c s q s'.
Proof. intros H1 (q' & Hs' & H2). exists q'. split; [done|]. intros t w Hne Hc Hd. by apply H2, H1. Qed.

Lemma grows_dozing t w s q s' q' : inv s q -> inv s' q' -> grows [] s q s' q' -> dozing t w s q -> dozing t w s' q'.
Proof. intros Hi Hi' Hg. apply dozing_calm; [by apply (gr_tick _ _ _ _ _ Hg)|]. intros w' Hw. by apply (grows_waits t w' s q). Qed.

Lemma advanced_dozing n s q s' q' t w : settled s q -> advanced n s q s' q' -> dozing t w s q -> dozing t w s' q'.
Proof.
  intros Hs A Hd. destruct (decide (n = O)) as [->|Hn]; [by destruct (ad_none _ _ _ _ _ A eq_refl) as [-> ->]|].
  destruct (advanced_waits n s q s' q' t w Hs A (dozing_waits _ _ _ _ Hd)) as [[H1 H2]|]; [left|by right].
  split_and!; [done|done|]. pose proof (ad_late _ _ _ _ _ A ltac:(lia)) as Hl. rewrite Forall_forall in Hl. rewrite <- H2. by apply Hl.
Qed.

Lemma handed_undisturbed caller enabled s q c ctl s' : handed caller enabled s q c ctl s' -> undisturbed c s q s'.
Proof.
  intros [(n & rn & Hch & Hn & _) (q' & Hs' & _ & Hw) _ Ht]. apply (undisturbed_calm c s q s' q'); [done|done|].
  intros t w _ Hc. apply Hw. congruence.
Qed.

Lemma passed_undisturbed c s q ctl s' : passed c s q ctl s' -> undisturbed c s q s'.
Proof.
  intros [(n & rn & Hch & _ & _ & Hn & _) (q' & Hs' & _ & Hw) [_ Ht]]. apply (undisturbed_calm c s q s' q'); [done|done|].
  intros t w _ Hc. apply Hw. congruence.
Qed.

Lemma rotated_undisturbed c at_tail caller enabled s q ctl s' : rotated c at_tail caller enabled s q ctl s' -> undisturbed c s q s'.
Proof.
  intros (s1 & q1 & Hrq & _ & Hh). apply (undisturbed_after c s q s1 q1); [|by eapply handed_undisturbed].
  intros t w Hne. destruct (rq_same _ _ _ _ _ _ Hrq) as (_ & _ & Ht & _). apply dozing_calm; [done|]. intros w'. by apply (rq_waits _ _ _ _ _ _ Hrq).
Qed.

Lemma others_undisturbed c s q s' :
  settled s' q -> g_tick_count s' = g_tick_count s -> (forall t, t <> c -> threads s' !! t = threads s !! t) -> undisturbed c s q s'.
Proof. intros Hs Ht Ho. apply (undisturbed_calm c s q s' q); [done|done|]. intros t w Hne _. by apply (waits_others c). Qed.

Lemma rescheduled_undisturbed c r caller enabled resume s q ctl s' :
  g_tick_count resume = g_tick_count s -> (forall t, t <> c -> threads resume !! t = threads s !! t) ->
  rescheduled c r caller enabled resume s q ctl s' -> undisturbed c s q s'.
Proof.
  intros Ht Ho [_ Hs' _ _ [Ht' _] _ Ho' _|_ _ Hh|_ _ Hr|_ _ _ _ Hr].
  - by apply others_undisturbed.
  - by eapply handed_undisturbed.
  - apply (undisturbed_after c s q resume q); [|by eapply rotated_undisturbed]. intros t w Hne. apply dozing_calm; [done|]. intros w'. by apply (waits_others c).
  - apply (undisturbed_after c s q resume q); [|by eapply rotated_undisturbed]. intros t w Hne. apply dozing_calm; [done|]. intros w'. by apply (waits_others c).
Qed.

Lemma reprioritised_undisturbed c r priority enabled s q ctl s' : reprioritised c r priority enabled s q ctl s' -> undisturbed c s q s'.
Proof.
  intros [r' _ Hs' _ _ _ _ _ Ht Ho|s1 r1 _ _ _ _ _ Ht Ho Hr]; [by apply others_undisturbed|].
  apply (undisturbed_after c s q s1 q); [|by eapply rotated_undisturbed]. intros t w Hne. apply dozing_calm; [done|]. intros w'. by apply (waits_others c).
Qed.

Lemma running_not_waiting s q c w : settled s q -> g_current_thread s = Some c -> ~ dozing c w s q.
Proof.
  intros Hs Hc Hd. destruct (settled_current s q c Hs Hc) as (r & Hr & Hst). destruct Hd as [(Hsl & _)|(p & l & Hl & Hin)].
  - pose proof (sl_waiting _ _ _ _ (inv_sleep _ _ (se_inv _ _ Hs)) c r Hsl Hr). congruence.
  - destruct (rr_member _ _ _ _ _ (inv_ready _ _ (se_inv _ _ Hs)) p l c Hl Hin) as (r' & Hr' & _ & _ & Hst'). congruence.
Qed.

Lemma grows_undisturbed c s q s' q' : settled s q -> settled s' q' -> grows [] s q s' q' -> undisturbed c s q s'.
Proof. intros Hs Hs' Hg. exists q'. split; [done|]. intros t w _ _. apply (grows_dozing t w s q); [apply Hs|apply Hs'|done]. Qed.

(** The state the opening of a call leaves. *)
Lemma opened_undisturbed c s q s1 q1 s' :
  settled s q -> settled s1 q1 -> grows [] (with_interrupts false s) q s1 q1 -> undisturbed c s1 q1 s' -> undisturbed c s q s'.
Proof.
  intros Hs Hs1 Hg. apply undisturbed_after. intros t w _ Hd.
  apply (grows_dozing t w (with_interrupts false s) q); [apply inv_interrupts, Hs|apply Hs1|done|exact Hd].
Qed.

Lemma same_undisturbed c b s q : settled s q -> undisturbed c s q (with_interrupts b s).
Proof. intros Hs. exists q. split; [by apply settled_interrupts|done]. Qed.

Lemma same_state_undisturbed c s q : settled s q -> undisturbed c s q s.
Proof. intros Hs. by exists q. Qed.

Lemma switched_post' (m : M Control) s (P : Sched -> Prop) :
  post kernel (m s) (fun _ s' => P s') -> post kernel ((let! c := m in ret (Switched c)) s) (fun _ s' => P s').
Proof. intros Hm. eapply post_seq; [exact Hm|]. cbn beta. intros ctl s' H. by apply post_ret. Qed.

Lemma completed_post' (m : M unit) s (P : Sched -> Prop) :
  post kernel (m s) (fun _ s' => P s') -> post kernel ((m ;;; ret Completed) s) (fun _ s' => P s').
Proof. intros Hm. eapply post_seq; [exact Hm|]. cbn beta. intros [] s' H. by apply post_ret. Qed.

Section Undisturbed.
Context (s : Sched) (q : Queues) (c : Z).
Hypothesis Hs : settled s q.
Hypothesis Hk : in_kernel s.
Hypothesis Hc : g_current_thread s = Some c.

Lemma parked_undisturbed reason object s1 q1 ctl s' :
  parked c reason object (with_interrupts false s) q s1 q1 -> passed c s1 q1 ctl s' -> undisturbed c s q s'.
Proof.
  intros Hpk Hp. apply (undisturbed_after c s q s1 q1); [|by eapply passed_undisturbed]. intros t w Hne.
  destruct (pk_same _ _ _ _ _ _ _ Hpk) as (_ & _ & Ht). apply dozing_calm; [done|]. intros w' Hw. by apply (pk_waits _ _ _ _ _ _ _ Hpk).
Qed.

Lemma blocking_undisturbed caller park :
  (g_idle_thread s <> Some c -> post kernel (blocking caller park s) (fun _ s' => undisturbed c s q s')) ->
  post kernel (blocking caller park s) (fun _ s' => undisturbed c s q s').
Proof.
  intros Hp. destruct (decide (g_idle_thread s = Some c)) as [Hi|Hi]; [|by apply Hp].
  eapply post_mono; [|by apply (blocking_idle caller park s q c)]. cbn beta. intros ctl s' (_ & q' & Hs' & _ & Hg). by apply (grows_undisturbed c s q s' q').
Qed.

Lemma block_undisturbed reason object : post kernel (block_current reason object s) (fun _ s' => undisturbed c s q s').
Proof.
  unfold block_current. apply blocking_undisturbed. intros Hi. eapply post_mono; [|by apply (block_current_post s q c reason object)].
  cbn beta. intros ctl s' (s1 & q1 & Hpk & Hp). by eapply parked_undisturbed.
Qed.

Lemma timed_undisturbed caller object reason delay :
  caller <> InExit ->
  post kernel (blocking caller (fun c interrupts_enabled =>
      change (park_until c object reason delay) ;;;
      let! next := exec (pick_next_thread false) in
      switch_to_thread next caller interrupts_enabled) s) (fun _ s' => undisturbed c s q s').
Proof.
  intros Hx. apply blocking_undisturbed. intros Hi. eapply post_mono; [|by apply (timed_post s q c caller object reason delay)].
  cbn beta. intros ctl s' (s1 & q1 & Hpk & _ & Hp). by eapply parked_undisturbed.
Qed.

Lemma yield_undisturbed : post kernel (yield s) (fun _ s' => undisturbed c s q s').
Proof.
  eapply post_mono; [|by apply (yield_post s q c)]. cbn beta. intros ctl s' (s1 & q1 & Hs1 & _ & Hg & Hy).
  apply (opened_undisturbed c s q s1 q1); [done|done|done|].
  destruct Hy as [q' _ _ Hs' _ _ Ht Hw _|_ _ Hr|_ Hh]; [|by eapply rotated_undisturbed|by eapply handed_undisturbed].
  apply (undisturbed_calm c s1 q1 s' q'); [done|done|]. intros t w Hne _. by apply Hw.
Qed.

Lemma set_current_undisturbed priority : 0 <= priority -> post kernel (set_current_priority priority s) (fun _ s' => undisturbed c s q s').
Proof.
  intros Hp. destruct (Z.leb_spec 32 priority) as [Hle|Hlt].
  { unfold set_current_priority, ThreadPriorityLevelCount. destruct (Z.leb_spec 32 priority); [|lia]. by apply post_ret, same_state_undisturbed. }
  destruct (decide (g_idle_thread s = Some c)) as [Hi|Hi].
  - unfold set_current_priority, ThreadPriorityLevelCount. destruct (Z.leb_spec 32 priority); [lia|]. rewrite seq_mask. cbn zeta.
    eapply (opening s q); [done|done|]. intros s1 q1 Hs1 Hk1 Hg _. rewrite !seq_read, (gr_current _ _ _ _ _ Hg), (gr_idle _ _ _ _ _ Hg). cbn [g_current_thread g_idle_thread with_interrupts].
    rewrite Hc, Hi, bool_decide_eq_true_2, seq_unmask by done. apply post_ret. apply (opened_undisturbed c s q s1 q1); [done|done|done|]. by apply same_undisturbed.
  - eapply post_mono; [|apply (set_current_priority_post s q c priority); done]. cbn beta. intros ctl s' (s1 & q1 & r1 & Hs1 & Hg & _ & Hre).
    apply (opened_undisturbed c s q s1 q1); [done|done|done|]. by eapply reprioritised_undisturbed.
Qed.

Lemma set_thread_undisturbed thread priority :
  0 <= priority -> (forall t, thread = Some t -> live t s) ->
  post kernel (set_thread_priority thread priority s) (fun _ s' => undisturbed c s q s').
Proof.
  intros Hp Hl. destruct (Z.leb_spec 32 priority) as [Hle|Hlt].
  { unfold set_thread_priority, ThreadPriorityLevelCount. destruct (Z.leb_spec 32 priority); [|lia]. by apply post_ret, same_state_undisturbed. }
  destruct thread as [t|].
  - destruct (Hl t eq_refl) as ([r Hr] & Hnr). eapply post_mono; [|apply (set_thread_priority_post s q t r priority); try done; apply Hnr, Hs].
    cbn beta. intros ctl s' (s1 & q1 & r1 & Hs1 & _ & Hg & _ & Hps). apply (opened_undisturbed c s q s1 q1); [done|done|done|].
    destruct Hps as [_ _ ->|s2 q2 r2 Hct Hs2 Hg2 _ Hre|q' _ _ _ _ Hs' _ _ _ Ht Hw].
    + by apply same_undisturbed.
    + rewrite (gr_current _ _ _ _ _ Hg) in Hct. cbn in Hct. rewrite Hc in Hct. injection Hct as <-.
      apply (opened_undisturbed c s1 q1 s2 q2); [done|done|done|]. by eapply reprioritised_undisturbed.
    + apply (undisturbed_calm c s1 q1 s' q'); [done|done|]. intros u w _ _. apply Hw.
  - unfold set_thread_priority, ThreadPriorityLevelCount. destruct (Z.leb_spec 32 priority); [lia|]. rewrite seq_mask. cbn zeta.
    eapply (opening s q); [done|done|]. intros s1 q1 Hs1 _ Hg _. rewrite seq_unmask. apply post_ret.
    apply (opened_undisturbed c s q s1 q1); [done|done|done|]. by apply same_undisturbed.
Qed.

Lemma enqueue_undisturbed thread :
  (forall t, thread = Some t -> live t s /\ g_idle_thread s <> Some t) ->
  post kernel (enqueue thread s) (fun _ s' => undisturbed c s q s').
Proof.
  intros Hl. destruct thread as [t|].
  - destruct (Hl t eq_refl) as (([r Hr] & Hnr) & Hi). eapply post_mono; [|apply (enqueue_post s q t r); try done; apply Hnr, Hs].
    cbn beta. intros st s' (s1 & q1 & r1 & Hs1 & _ & Hg & _ & Hr1 & He). apply (opened_undisturbed c s q s1 q1); [done|done|done|].
    destruct He as [_ _ ->|_ _ _ ->|_ _ _ ->|s2 q2 s3 q3 Hst Hct _ _ R Hinv3 Hg3 _ ->]; [by apply same_undisturbed..|].
    destruct (readied_settled s1 q1 t r1 s2 q2 Hs1 R Hr1 Hst Hct) as [Hs2 _].
    apply (undisturbed_after c s1 q1 s2 q2).
    { intros u w _. destruct (rd_vars _ _ _ _ _ _ R) as (_ & _ & Ht & _). apply dozing_calm; [done|]. intros w'. apply (readied_waits t); [apply Hs1|done]. }
    apply (undisturbed_after c s2 q2 s3 q3); [|apply same_undisturbed; by eapply grows_settled].
    intros u w _. by apply (grows_dozing u w s2 q2 s3 q3); [apply Hs2|..].
  - unfold enqueue. rewrite seq_mask. cbn zeta. eapply (opening s q); [done|done|]. intros s1 q1 Hs1 _ Hg _. rewrite seq_unmask. apply post_ret.
    apply (opened_undisturbed c s q s1 q1); [done|done|done|]. by apply same_undisturbed.
Qed.

Lemma irq_undisturbed : post kernel (handle_current_el_timer_irq s) (fun _ s' => undisturbed c s q s').
Proof.
  eapply post_mono; [|by apply (current_irq_post s q c)]. cbn beta. intros ctl s' (s1 & q1 & r1 & T & _ & Hr).
  apply (undisturbed_after c s q (with_interrupts false s1) q1); [|by eapply rescheduled_undisturbed].
  intros t w _. exact (advanced_dozing 1 s q s1 q1 t w Hs (ticked_advanced _ _ _ _ T)).
Qed.

Lemma lower_irq_undisturbed frame : post kernel (handle_lower_el_timer_irq (Some frame) s) (fun _ s' => undisturbed c s q s').
Proof.
  eapply post_mono; [|by apply (lower_irq_post s q c frame)]. cbn beta. intros ctl s' (s1 & q1 & r1 & T & _ & Hr).
  apply (undisturbed_after c s q (with_interrupts false s1) q1).
  { intros t w _. exact (advanced_dozing 1 s q s1 q1 t w Hs (ticked_advanced _ _ _ _ T)). }
  destruct Hr as [r' _ Hs' _ [Ht _] Ho _ _ _ _|_ Hre]; [by apply others_undisturbed|].
  eapply (rescheduled_undisturbed c _ _ _ _ (with_g_reschedule_pending false (with_interrupts false s1)) q1); [| |exact Hre]; [done|].
  intros t Hne. unfold interrupted. sched_cbn. by rewrite lookup_insert_ne.
Qed.

Lemma poll_undisturbed : post kernel (poll s) (fun _ s' => undisturbed c s q s').
Proof.
  eapply post_mono; [|by apply (poll_post s q c)]. cbn beta. intros ctl s' (s0 & q0 & x & s1 & q1 & r1 & Hg & Hs0 & A & _ & _ & Hp).
  apply (undisturbed_after c s q s1 q1).
  { intros t w _ Hd. apply (advanced_dozing _ s0 q0 s1 q1 t w Hs0 A). by apply (grows_dozing t w s q s0 q0); [apply Hs|apply Hs0|..]. }
  destruct Hp as [_ -> _|s2 _ -> Hr]; [apply same_state_undisturbed, A|]. by eapply (rescheduled_undisturbed c _ _ _ _ _ q1) in Hr.
Qed.

End Undisturbed.

(** Whatever call is made, only the thread that gets the processor leaves the
    queues, unless the kernel forgets it. *)
Lemma run_undisturbed request s q :
  settled s q -> legal request s ->
  post kernel (run request s) (fun _ s' => exists q', settled s' q' /\
    forall t w, g_current_thread s' <> Some t -> request <> Forget (Some t) -> dozing t w s q -> dozing t w s' q').
Proof.
  intros Hs Hl. destruct (settled_some s q Hs) as (c & Hc). assert (forall s', undisturbed c s q s' -> exists q', settled s' q' /\
    forall t w, g_current_thread s' <> Some t -> request <> Forget (Some t) -> dozing t w s q -> dozing t w s' q') as Hall.
  { intros s' (q' & Hs' & H). exists q'. split; [done|]. intros t w Hct _ Hd. apply H; [|done|done]. intros ->. by apply (running_not_waiting s q c w). }
  destruct request as [| |reason object|reason delay object|delay| |priority|thread priority|thread| | |frame| |thread|stack pc state]; cbn [legal] in Hl.
  14: { unfold run. apply completed_post'. destruct Hl as [Hk Hl]. destruct thread as [t|].
    - destruct (Hl t eq_refl) as ([r Hr] & Hct). destruct (forget_ok s q t r Hs Hr Hct) as (s' & q' & Hrun & Hs' & _ & _ & _ & Ht & Hw).
      unfold change, exec. rewrite Hrun. cbn. exists q'. split; [done|]. intros u w _ Hne. apply dozing_calm; [done|]. intros w'. apply Hw. congruence.
    - unfold change, exec. cbn. exists q. split; [by destruct s|]. intros u w _ _. by destruct s. }
  all: (eapply (post_mono kernel _ (fun _ s' => undisturbed c s q s')); [intros x s'; exact (Hall s')|]); clear Hall; unfold run.
  - by apply switched_post', yield_undisturbed.
  - by apply switched_post', poll_undisturbed.
  - by apply switched_post', block_undisturbed.
  - apply switched_post'. unfold block_current_for. destruct (Z.eqb_spec delay 0); [by apply block_undisturbed|by apply timed_undisturbed].
  - apply switched_post'. unfold sleep_current. destruct (Z.eqb_spec delay 0); [by apply post_ret, same_state_undisturbed|by apply timed_undisturbed].
  - apply switched_post'. destruct Hl as [Hk Hi]. eapply post_mono; [|apply (exit_post s q c); try done; congruence]. cbn beta.
    intros ctl s' (s1 & q1 & r1 & _ & _ & _ & _ & _ & _ & Ht & Hw & Hp). apply (undisturbed_after c s q s1 q1); [|by eapply passed_undisturbed].
    intros t w Hne. apply dozing_calm; [done|]. intros w'. by apply Hw.
  - destruct Hl. by apply switched_post', set_current_undisturbed.
  - destruct Hl as (Hk & Hp & Hl). by apply switched_post', set_thread_undisturbed.
  - destruct Hl as [Hk Hl]. eapply post_seq; [by apply (enqueue_undisturbed s q c)|]. cbn beta. intros st s' H. by apply post_ret.
  - apply completed_post'. eapply post_mono; [|by apply (timer_tick_post s q)]. cbn beta. intros _ s' (q' & T). exists q'. split; [apply T|].
    intros t w _ _. exact (advanced_dozing 1 s q s' q' t w Hs (ticked_advanced _ _ _ _ T)).
  - by apply switched_post', irq_undisturbed.
  - by apply switched_post', lower_irq_undisturbed.
  - apply completed_post'. eapply post_mono; [|by apply (reap_retired_post s q)]. cbn beta. intros _ s' (q' & Hs' & _ & Hg & _). by apply (grows_undisturbed c s q s' q').
  - apply completed_post'. eapply post_mono; [|by apply (capture_post s q)]. cbn beta. intros _ s' (Hs' & _ & _ & _ & Ht & Ho & _).
    apply others_undisturbed; [done|done|]. intros t. by apply Ho.
Qed.

(** Calls during which [c] does not get the processor. *)
Inductive away (h : Handler) (c : Z) (s : Sched) : Sched -> Prop :=
| away_start : g_current_thread s <> Some c -> away h c s s
| away_call s1 request x s2 :
    away h c s s1 -> legal request s1 -> request <> Forget (Some c) -> handled h (run request s1) = Ok (x, s2) ->
    g_current_thread s2 <> Some c -> away h c s s2.

Lemma away_dozing h c w s q s' :
  obeys h -> settled s q -> dozing c w s q -> away h c s s' -> exists q', settled s' q' /\ dozing c w s' q'.
Proof.
  intros Hh Hs Hd. induction 1 as [_|s1 request x s2 _ (q1 & Hs1 & Hd1) Hl Hf Hrun Hc]; [by exists q|].
  destruct (post_handled kernel h _ _ Hh (run_undisturbed request s1 q1 Hs1 Hl)) as (x' & s2' & Hrun' & q2 & Hs2 & H2).
  rewrite Hrun in Hrun'. injection Hrun' as <- <-. exists q2. split; [done|]. by apply H2.
Qed.

(** A thread that goes to sleep. *)
Lemma sleep_dozes s q c delay :
  settled s q -> in_kernel s -> g_current_thread s = Some c -> g_idle_thread s <> Some c ->
  0 < delay -> 0 <= g_tick_count s -> g_tick_count s + delay < 2 ^ 64 ->
  post kernel (run (Sleep delay) s) (fun _ s' => g_current_thread s' <> Some c /\
    exists q', settled s' q' /\ dozing c (g_tick_count s + delay) s' q').
Proof.
  intros Hs Hk Hc Hi Hd Ht Hb. unfold run. apply switched_post'. unfold sleep_current. destruct (Z.eqb_spec delay 0) as [E0|E0]; [lia|].
  eapply post_mono; [|by apply (timed_post s q c InSleep None WaitDelay delay)]. cbn beta. intros ctl s2 (s1 & q1 & Hpk & [Hsl Hwk] & Hp).
  destruct (ps_next _ _ _ _ _ Hp) as (n0 & rn & Hch & Hne & _ & Hcur & _). destruct (ps_settled _ _ _ _ _ Hp) as (q2 & Hs2 & _ & Hw2). destruct (ps_same _ _ _ _ _ Hp) as [_ Htk2].
  destruct (pk_same _ _ _ _ _ _ _ Hpk) as (_ & _ & Htk1). cbn in Htk1. split; [congruence|]. exists q2. split; [done|].
  assert (dozing c (g_tick_count s + delay) s1 q1) as Hd1.
  { left. split_and!; [done| |lia]. rewrite Hwk. unfold u64. rewrite Z.mod_small; lia. }
  revert Hd1. apply dozing_calm; [done|]. intros w. apply Hw2. congruence.
Qed.

(** ** Time slices *)

(** Timer interrupts until the thread [c] loses the processor; at most [n]. *)
Fixpoint irqs_until_moved (irq : M Control) (c : Z) (n : nat) : M bool :=
  match n with
  | O => ret false
  | S n =>
      let! _ := irq in
      let! current := read_var g_current_thread in
      if bool_decide (current = Some c) then irqs_until_moved irq c n else ret true
  end.

(** A timer interrupt in user code: the vectors first save the user context. *)
Definition user_irq (stack pc state : Z) (frame : AArch64ExceptionFrame) : M Control :=
  capture_current_user_context stack pc state ;;; handle_lower_el_timer_irq (Some frame).

(** The thread [c] runs, with [k] ticks of its slice left, and a thread of its
    level or a higher one is ready. *)
Definition contended (c : Z) (k : Z) (s : Sched) (q : Queues) : Prop :=
  exists r p l, g_current_thread s = Some c /\ g_idle_thread s <> Some c /\ threads s !! c = Some r /\ quantum_ticks_remaining r = k /\
    best (ready q) = Some (p, l) /\ Z.of_nat p <= current_priority r.

Lemma best_low R R' p l : (forall p l, R !! p = Some l -> exists new, R' !! p = Some (l ++ new)) -> best R = Some (p, l) ->
  exists p' l', best R' = Some (p', l') /\ (p' <= p)%nat.
Proof.
  intros Hg HB. destruct (best_level _ _ _ HB) as (Hl & Hne & _). destruct (Hg p l Hl) as (new & Hl').
  destruct (best R') as [[p' l']|] eqn:HB'.
  - destruct (best_level _ _ _ HB') as (_ & _ & Hlow). exists p', l'. split; [done|]. destruct (decide (p' <= p)%nat); [done|]. specialize (Hlow p _ Hl' ltac:(lia)). by destruct l.
  - exfalso. eapply best_some; [exact Hl'| |exact HB']. by destruct l.
Qed.

(** One interrupt moves the thread or shortens its slice. *)
Definition shortened (c : Z) (k : Z) (inside : Prop) (s' : Sched) : Prop :=
  g_current_thread s' <> Some c \/ (1 < k /\ (inside -> in_kernel s') /\ exists q', settled s' q' /\ contended c (k - 1) s' q').

Lemma slice_step c k s q s1 q1 r1 :
  settled s q -> contended c k s q -> ticked s q s1 q1 -> threads s1 !! c = Some r1 ->
  exists p l, best (ready q1) = Some (p, l) /\ Z.of_nat p <= current_priority r1 /\ quantum_ticks_remaining r1 = Z.max 0 (k - 1) /\
    g_idle_thread s1 <> Some c /\ g_current_thread s1 = Some c /\ (quantum_ticks_remaining r1 = 0 -> g_reschedule_pending s1 = true).
Proof.
  intros Hs (r & p & l & Hc & Hi & Hr & Hk & HB & Hp) T Hr1. destruct (best_low _ _ _ _ (tk_ready _ _ _ _ T) HB) as (p1 & l1 & HB1 & Hle).
  destruct (tk_same _ _ _ _ T) as (E1 & E2 & _). destruct (tk_slice _ _ _ _ T c r Hc Hi Hr) as (r' & Hr' & P' & Q' & F'). rewrite Hr1 in Hr'. injection Hr' as <-.
  exists p1, l1. split_and!; [done|lia| |congruence|congruence|done]. rewrite Q'. unfold slice_after. rewrite HB1. lia.
Qed.

Section Shortened.
Context (c k : Z) (r : Thread) (caller : Caller) (enabled : bool) (resume s : Sched) (q : Queues) (p : nat) (l : list Z).
Hypothesis Hs : settled s q.
Hypothesis Hr : threads s !! c = Some r.
Hypothesis Hi : g_idle_thread s <> Some c.
Hypothesis HB : best (ready q) = Some (p, l).
Hypothesis Hp : Z.of_nat p <= current_priority r.
Hypothesis Hk : quantum_ticks_remaining r = Z.max 0 (k - 1).

Lemma kept_shortened (inside : Prop) s' r' :
  (inside -> in_kernel s') ->
  quantum_ticks_remaining r <> 0 -> settled s' q -> g_current_thread s' = Some c -> g_idle_thread s' = g_idle_thread s ->
  threads s' !! c = Some r' -> current_priority r' = current_priority r -> quantum_ticks_remaining r' = quantum_ticks_remaining r -> shortened c k inside s'.
Proof.
  intros Hin Hne Hs' Hc' Hi' Hr' Hp' Hq'. right. split_and!; [lia|done|]. exists q. split; [done|]. exists r', p, l. split_and!; [done|congruence|done|lia|done|lia].
Qed.

Lemma rotated_shortened at_tail ctl s' :
  rotated c at_tail caller enabled resume q ctl s' -> (exists rr, threads resume !! c = Some rr /\ current_priority rr = current_priority r) ->
  Z.of_nat p < current_priority r \/ at_tail = true -> shortened c k (in_kernel s) s'.
Proof.
  intros Hro (rr & Hrr & Epr) Hlow. left. pose proof (ok_priority _ _ _ (inv_threads _ _ (se_inv _ _ Hs) c r Hr)) as Hrange.
  eapply (rotated_moves c rr); [exact Hro|done|exact HB|unfold level_of; lia|apply (rr_levels _ _ _ _ _ (inv_ready _ _ (se_inv _ _ Hs)))|].
  unfold level_of. rewrite Epr. destruct (decide (Z.of_nat p = current_priority r)); [right|left; lia]. split; [lia|]. destruct Hlow; [lia|done].
Qed.

Lemma rescheduled_shortened ctl s' :
  rescheduled c r caller enabled resume s q ctl s' -> (exists rr, threads resume !! c = Some rr /\ current_priority rr = current_priority r) -> shortened c k (in_kernel s) s'.
Proof.
  intros [Hcase Hs' Hker Hc' [_ Hi'] _ _ Hself|Hid _ _|_ Ho Hro|_ _ _ _ Hro] Hres.
  - destruct Hcase as [[Hid _]|(_ & _ & [Hne|Hno])]; [done| |congruence]. destruct (Hself Hne) as (r' & Hr' & E1 & E2). by eapply kept_shortened.
  - done.
  - eapply rotated_shortened; [exact Hro|done|]. left. unfold outranked in Ho. rewrite HB in Ho. by apply Z.ltb_lt.
  - eapply rotated_shortened; [exact Hro|done|by right].
Qed.
End Shortened.

Lemma current_irq_shortens c k s q :
  settled s q -> in_kernel s -> contended c k s q -> post kernel (handle_current_el_timer_irq s) (fun _ s' => shortened c k True s').
Proof.
  intros Hs Hk Hct. eapply post_mono; [|apply (current_irq_post s q c Hs Hk); by destruct Hct as (? & ? & ? & ? & _)].
  cbn beta. intros ctl s' (s1 & q1 & r1 & T & Hr1 & Hre). destruct (slice_step c k s q s1 q1 r1 Hs Hct T Hr1) as (p & l & HB & Hp & Hq & Hi1 & _ & _).
  destruct (rescheduled_shortened c k r1 InCurrentElIrq (interrupts s) (with_interrupts false s1) (with_interrupts false s1) q1 p l) with (ctl := ctl) (s' := s') as [H|(H1 & H2 & H3)];
    try done; [apply settled_interrupts, T|by exists r1|by left|].
  right. split_and!; [done| |done]. intros _. apply H2. by apply (tk_kernel _ _ _ _ T).
Qed.

Lemma user_irq_shortens stack pc state f c k s q :
  settled s q -> contended c k s q -> post kernel (user_irq stack pc state f s) (fun _ s' => shortened c k False s').
Proof.
  intros Hs (r & p & l & Hc & Hi & Hr & Hk & HB & Hp). unfold user_irq.
  eapply post_seq; [by apply (capture_post s q)|]. cbn beta. intros [] s0 (Hs0 & Hk0 & Hc0 & Hi0 & _ & _ & Hth). destruct (Hth c r Hr) as (r0 & Hr0 & P0 & Q0).
  assert (contended c k s0 q) as Hct by (exists r0, p, l; split_and!; congruence). assert (g_current_thread s0 = Some c) as Hc0' by congruence.
  eapply post_mono; [|by apply (lower_irq_post s0 q c f)]. cbn beta. intros ctl s' (s1 & q1 & r1 & T & Hr1 & Hir).
  destruct (slice_step c k s0 q s1 q1 r1 Hs0 Hct T Hr1) as (p1 & l1 & HB1 & Hp1 & Hq1 & Hi1 & _ & Hpend).
  assert (settled (with_interrupts false s1) q1) as Hs1 by (apply settled_interrupts, T).
  destruct Hir as [r' Hnp Hs' Hc' [_ Hi'] _ Hr' E1 E2 _|_ Hre].
  - eapply (kept_shortened c k r1 (with_interrupts false s1) q1 p1 l1); try done. intros Hz. apply Hpend in Hz. cbn in Hnp. congruence.
  - destruct (rescheduled_shortened c k r1 InLowerElIrq (interrupts s0) (interrupted c r1 f (with_g_reschedule_pending false (with_interrupts false s1)))
      (with_g_reschedule_pending false (with_interrupts false s1)) q1 p1 l1) with (ctl := ctl) (s' := s') as [H|(H1 & H2 & H3)]; try done.
    + by apply settled_pending.
    + eexists. unfold interrupted. sched_cbn. lookups. done.
    + by left.
    + right. by split_and!.
Qed.

(** A thread loses the processor before its slice, if longer than a tick, is over. *)
Lemma moved_post (irq : M Control) (inside : Prop) c n s q k :
  (forall s q k, settled s q -> (inside -> in_kernel s) -> contended c k s q -> post kernel (irq s) (fun _ s' => shortened c k inside s')) ->
  settled s q -> (inside -> in_kernel s) -> contended c k s q -> Z.max 1 k <= Z.of_nat n ->
  post kernel (irqs_until_moved irq c n s) (fun moved _ => moved = true).
Proof.
  intros Hirq. revert s q k. induction n as [|n IH]; intros s q k Hs Hin Hct Hn; [lia|]. cbn [irqs_until_moved].
  eapply post_seq; [by eapply Hirq|]. cbn beta. intros _ s' [Hne|(Hk & Hin' & q' & Hs' & Hct')]; rewrite seq_read.
  - rewrite bool_decide_eq_false_2 by done. done.
  - case_bool_decide; [|done]. eapply (IH s' q' (k - 1)); try done. lia.
Qed.
