(* ===== verification/ThreadRegistry.v ===== *)
(** The registry of threads (thread.cpp) as far as the scheduler depends on it: the
    list a thread leaves when it is destroyed.  Releasing the record of an ended
    thread is one of the changes the scheduler's contract allows. *)
From stdpp Require Import base list gmap.
From Stdlib Require Import ZArith Lia.
From S2P Require Import Prelude KernelText DList KernelIface SchedState Scheduler SchedQueues SchedOps SchedInv SchedLogic.

Local Open Scope Z_scope.

Definition set_registry (m : gmap Z Thread) (hd tl : option Z) (s : Sched) : Sched :=
  mkSched m (processes s) (g_current_thread s) (g_current_process s) (g_idle_thread s) (g_ready_queues s) (g_ready_bitmap s) (g_ready_count s)
    (g_tick_count s) (g_sleep_head s) (g_sleep_tail s) (g_retired_thread_head s) (g_retired_thread_tail s) (g_reschedule_pending s)
    hd tl (g_thread_count s) (g_next_thread_id s) (kernel_root_table s) (current_address_space s) (interrupts s).

Definition link_thread (t : Z) (s : Sched) : Exec Sched :=
  '(m, hd, tl) <- dl_append (H := registry_links) (threads s) (g_thread_head s) (g_thread_tail s) t ;;
  Ok (set_registry m hd tl s).

Definition unlink_thread (t : Z) (s : Sched) : Exec Sched :=
  '(m, hd, tl) <- dl_unlink (H := registry_links) (threads s) (g_thread_head s) (g_thread_tail s) t ;;
  set t (fun r => with_t_prev None (with_t_next None r)) (set_registry m hd tl s).

(** The record of the thread is given back to the heap. *)
Definition release_thread_slot (t : Z) (s : Sched) : Sched := with_threads (delete t (threads s)) s.

(** ** A registry without one of its threads *)
Lemma keeps_content m m' : relinked (H := registry_links) m m' -> keeps unregistered m m'.
Proof. exact (keeps_weaken (content (H := registry_links)) unregistered m m'). Qed.

Lemma drop_queues m m1 t r queues bitmap count R hd tl sl rhd rtl re :
  keeps unregistered m m1 -> m !! t = Some r -> current_state r = Terminated -> t ∉ re ->
  ready_rep m queues bitmap count R -> sleep_rep m hd tl sl -> retired_rep m rhd rtl re ->
  ready_rep (delete t m1) queues bitmap count R /\ sleep_rep (delete t m1) hd tl sl /\ retired_rep (delete t m1) rhd rtl re.
Proof.
  intros Hk Hr Hst Hre HR HS HE. destruct (keeps_lookup _ _ _ _ _ Hk Hr) as (r1 & Hr1 & E1). assert (current_state r1 = Terminated) as Hst1 by (rewrite <- Hst; exact (f_equal current_state E1)).
  apply (ready_frame m m1) in HR; [|exact (keeps_weaken unregistered ready_part m m1 Hk)].
  apply (sleep_frame m m1) in HS; [|exact (keeps_weaken unregistered sleep_part m m1 Hk)].
  apply (retired_frame m m1) in HE; [|exact (keeps_weaken unregistered retired_part m m1 Hk)].
  assert (t ∉ sl) as Hsl by (intros Hin; pose proof (sl_waiting _ _ _ _ HS t r1 Hin Hr1); congruence).
  assert (in_ready_queue r1 = false) as Hf.
  { destruct (in_ready_queue r1) eqn:Hf; [|done]. destruct (ready_in _ _ _ _ _ HR t r1 Hr1 Hf) as ((_ & _ & E) & _). congruence. }
  split_and!.
  - eapply ready_frame_out; [| |exact HR].
    + intros u ru Hu Hfu. rewrite lookup_delete_ne; [done|]. intros ->. congruence.
    + intros u ru Hu Hfu. by apply lookup_delete_Some in Hu as [_ Hu].
  - eapply sleep_frame_out; [| |exact HS].
    + intros u Hu. apply lookup_delete_ne. by intros ->.
    + intros u ru Hu Hn. apply lookup_delete_Some in Hu as [_ Hu]. by apply (sl_out _ _ _ _ HS u).
  - eapply retired_frame_out; [|exact HE]. intros u Hu. apply lookup_delete_ne. by intros ->.
Qed.

Lemma drop_registry m m1 t hd tl l1 l2 hd1 tl1 :
  keeps unregistered m m1 -> registry_rep m hd tl (l1 ++ t :: l2) -> registry_dlist m1 hd1 tl1 (l1 ++ l2) -> registry_rep (delete t m1) hd1 tl1 (l1 ++ l2).
Proof.
  intros Hk [G1 G2 G3] Hd. destruct G1 as (Hnd & _). apply list.NoDup_app in Hnd as (_ & Hdis & [Ht2 _]%list.NoDup_cons).
  assert (t ∉ l1 ++ l2) as Ht by (rewrite elem_of_app; intros [Hin|Hin]; [by apply (Hdis t Hin), list_elem_of_here|done]). split.
  - eapply (dlist_frame (H := registry_links)); [|exact Hd]. intros u Hu. apply lookup_delete_ne. by intros ->.
  - intros u. destruct (decide (u = t)) as [->|Hne].
    + rewrite lookup_delete_eq. split; [by intros []|done].
    + rewrite lookup_delete_ne, (keeps_is_Some _ _ _ _ Hk), G2 by done. rewrite !elem_of_app, elem_of_cons. naive_solver.
  - intros u1 u2 r1 r2 [_ H1]%lookup_delete_Some [_ H2]%lookup_delete_Some Hid.
    destruct (keeps_back _ _ _ _ _ Hk H1) as (r1' & H1' & E1), (keeps_back _ _ _ _ _ Hk H2) as (r2' & H2' & E2).
    assert (t_id r1 = t_id r1') by exact (f_equal t_id E1). assert (t_id r2 = t_id r2') by exact (f_equal t_id E2). apply (G3 u1 u2 r1' r2'); congruence.
Qed.

Lemma unlink_ok s q t r :
  inv s q -> threads s !! t = Some r ->
  exists m hd tl l1 l2, unlink_thread t s = Ok (set_registry m hd tl s) /\ registry q = l1 ++ t :: l2 /\
    registry_dlist m hd tl (l1 ++ l2) /\ keeps unregistered (threads s) m.
Proof.
  intros Hinv Hr. pose proof (inv_registry _ _ Hinv) as [G1 G2 G3]. assert (t ∈ registry q) as Ht by (apply G2; eauto).
  apply list_elem_of_split in Ht as (l1 & l2 & El). rewrite El in G1.
  destruct (dl_unlink_ok (H := registry_links) _ _ _ _ _ _ G1) as (m & hd & tl & Hrun & Hd & Hk). apply keeps_content in Hk.
  destruct (keeps_lookup _ _ _ _ _ Hk Hr) as (r1 & Hr1 & E1). unfold unlink_thread. rewrite Hrun, bind_ok. rewrite (thread_set_ok t r1) by done.
  exists (<[t := with_t_prev None (with_t_next None r1)]> m), hd, tl, l1, l2. split_and!; [done|done| |].
  - eapply (dlist_frame (H := registry_links)); [|exact Hd]. intros u Hu. apply lookup_insert_ne. intros <-.
    destruct G1 as (Hnd & _). apply list.NoDup_app in Hnd as (_ & Hdis & [Ht2 _]%list.NoDup_cons).
    apply elem_of_app in Hu as [Hu|Hu]; [by apply (Hdis t Hu), list_elem_of_here|done].
  - transitivity m; [done|]. by eapply keeps_insert.
Qed.

Lemma chain_unique m l1 l2 : chain m l1 -> chain m l2 -> first l1 None = first l2 None -> l1 = l2.
Proof.
  revert l2. induction l1 as [|x l1 IH]; intros [|y l2] H1 H2 E; try done. cbn in E. injection E as <-.
  destruct H1 as [(r1 & Hr1 & E1) H1], H2 as [(r2 & Hr2 & E2) H2]. f_equal. apply IH; [done|done|]. rewrite Hr1 in Hr2. injection Hr2 as <-. congruence.
Qed.

Lemma retired_unique s q1 q2 : inv s q1 -> inv s q2 -> retired q1 = retired q2.
Proof.
  intros H1 H2. destruct (inv_retired _ _ H1) as [_ C1 [E1 _] _], (inv_retired _ _ H2) as [_ C2 [E2 _] _]. eapply chain_unique; [done|done|congruence].
Qed.

Section Release.
Context (s : Sched) (q : Queues) (t : Z) (r : Thread) (m : gmap Z Thread) (hd tl : option Z) (l1 l2 : list Z).
Hypothesis Hinv : inv s q.
Hypothesis Hr : threads s !! t = Some r.
Hypothesis Hst : current_state r = Terminated.
Hypothesis Hre : t ∉ retired q.
Hypothesis Hct : g_current_thread s <> Some t.
Hypothesis Hreg : registry q = l1 ++ t :: l2.
Hypothesis Hd : registry_dlist m hd tl (l1 ++ l2).
Hypothesis Hk : keeps unregistered (threads s) m.

Let s' := release_thread_slot t (set_registry m hd tl s).
Let q' := mkQueues (ready q) (sleepers q) (retired q) (l1 ++ l2).

Lemma released_back u ru : threads s' !! u = Some ru -> u <> t /\ exists r0, threads s !! u = Some r0 /\ unregistered ru = unregistered r0.
Proof. change (threads s') with (delete t m). intros [Hne Hu]%lookup_delete_Some. split; [done|]. by apply (keeps_back _ _ _ _ _ Hk). Qed.

Lemma released_keeps u ru : u <> t -> threads s !! u = Some ru -> exists r1, threads s' !! u = Some r1 /\ unregistered r1 = unregistered ru.
Proof. intros Hne Hu. destruct (keeps_lookup _ _ _ _ _ Hk Hu) as (r1 & Hr1 & E). exists r1. split; [|done]. change (threads s') with (delete t m). by apply lookup_delete_Some. Qed.

Lemma released_inv : inv s' q'.
Proof.
  destruct (Hinv) as [I1 I2 I3 I4 I5 I6 I7 I8 I9].
  destruct (drop_queues (threads s) m t r _ _ _ _ _ _ _ _ _ _ Hk Hr Hst Hre I1 I2 I3) as (D1 & D2 & D3).
  split; try done.
  - rewrite Hreg in I4. exact (drop_registry _ _ _ _ _ _ _ _ _ Hk I4 Hd).
  - intros u ru Hu. destruct (released_back u ru Hu) as (_ & r0 & Hr0 & E). destruct (I5 u r0 Hr0) as [K1 K2 K3 K4 K5]. split.
    + pose proof (f_equal current_priority E) as E1. cbn in E1. by rewrite E1.
    + pose proof (f_equal quantum_ticks E) as E1. pose proof (f_equal quantum_ticks_remaining E) as E2. cbn in E1, E2. by rewrite E1, E2.
    + pose proof (f_equal t_name E) as E1. cbn in E1. by rewrite E1.
    + pose proof (f_equal current_state E) as E1. pose proof (f_equal wake_tick E) as E2. cbn in E1, E2. by rewrite E1, E2.
    + intros p. pose proof (f_equal t_parent E) as E1. cbn in E1. rewrite E1. apply K5.
  - destruct I6 as (c & Hc & rc & Hrc). exists c. split; [done|]. destruct (released_keeps c rc) as (r1 & Hr1 & _); [congruence|done|eauto].
  - destruct I7 as (i & ri & Hi & Hri & Hf & Hs). assert (i <> t) as Hne by (intros ->; rewrite Hr in Hri; injection Hri as <-; destruct Hs; congruence).
    destruct (released_keeps i ri Hne Hri) as (r1 & Hr1 & E). exists i, r1. pose proof (f_equal current_state E) as E1. pose proof (f_equal in_ready_queue E) as E2. cbn in E1, E2.
    split_and!; [done|done|congruence|by rewrite E1].
  - assert (size (threads s') <= size (threads s))%nat; [|lia]. rewrite <- !size_dom. apply subseteq_size. intros u [ru Hu]%elem_of_dom.
    destruct (released_back u ru Hu) as (_ & r0 & Hr0 & _). apply elem_of_dom. eauto.
Qed.

Lemma released_grows : grows [t] s q s' q'.
Proof.
  split; try done.
  - exists []. split; [done|]. intros c _. apply not_elem_of_nil.
  - intros u ru Hu Hn _. assert (u <> t) as Hne by (intros ->; apply Hn, list_elem_of_here). destruct (released_keeps u ru Hne Hu) as (r1 & Hr1 & E).
    exists r1. split; [done|]. left. split; [exact (f_equal (fun x => with_wait None 0 (bare x)) E)|exact (f_equal in_ready_queue E)].
  - intros u [->%list_elem_of_singleton|[Hu Hn]]; [apply lookup_delete_eq|done].
  - intros u [ru Hu]. destruct (released_back u ru Hu) as (_ & r0 & Hr0 & _). eauto.
  - intros p l Hl. exists []. by rewrite app_nil_r.
  - by left.
  - eauto.
Qed.
End Release.

(** An ended thread that is on no list of the scheduler may be released. *)
Lemma release_evolves s t q r :
  inv s q -> t ∉ retired q -> g_current_thread s <> Some t -> threads s !! t = Some r -> current_state r = Terminated ->
  exists s1, unlink_thread t s = Ok s1 /\ evolves [t] s (release_thread_slot t s1).
Proof.
  intros Hinv Hre Hct Hr Hst. destruct (unlink_ok s q t r Hinv Hr) as (m & hd & tl & l1 & l2 & Hrun & _). exists (set_registry m hd tl s). split; [done|].
  intros q0 Hinv0. destruct (unlink_ok s q0 t r Hinv0 Hr) as (m' & hd' & tl' & l1' & l2' & Hrun' & Hreg & Hd & Hk). rewrite Hrun in Hrun'. injection Hrun' as <- <- <-.
  rewrite (retired_unique s q q0 Hinv Hinv0) in Hre. eexists. split; [by eapply released_inv|by eapply released_grows].
Qed.
