(* ===== verification/SchedExample.v ===== *)
(** A system of four threads for the examples: the idle thread, a thread that runs,
    one that is ready on the same level and one that waits. *)
From stdpp Require Import base list gmap.
From Stdlib Require Import ZArith Lia Sorted.
From S2P Require Import Prelude KernelText DList KernelIface SchedState Scheduler SchedQueues SchedOps SchedInv SchedLogic SchedProofs SchedSwitch SchedCalls SchedTimer SchedRequests SchedSystem ThreadRegistry.

Local Open Scope Z_scope.

(** A frame of user code at [pc]. *)
Definition frame_at (pc : Z) : AArch64ExceptionFrame := mkFrame (replicate 31 0) 0 pc 0 0 0 0 0 9 0.
Definition new_context : CpuContext := mkContext (KernelCode (ThreadEntry 4096)) 0 0 (frame_at 0).
Definition demo_space : AddressSpace := mkSpace 4096 None 1 0 0 0 0 0.

Definition demo_thread (id priority : Z) (st : ThreadState) (queued : bool) (prev next : option Z) : Thread :=
  mkThread (mkHeader 2 1 id 1) id [116; 0] st priority priority 2 2 queued (Some 100) (mkStacks 0 None 0 0 None 0) None 0 0 new_context
    None None None None next prev None None.

Definition demo_process : Process :=
  mkProcess (mkHeader 1 1 1 1) 1 [112; 0] [0] None ProcessRunning demo_space None 0 None 0 None 0 0 0 0 0 0 None None None None 4 None 0 None None.

Definition idle_t : Z := 1.
Definition runner : Z := 2.
Definition other : Z := 3.
Definition waiter : Z := 4.

Definition demo_threads : gmap Z Thread :=
  <[idle_t := demo_thread 1 31 Ready false None (Some runner)]>
  (<[runner := demo_thread 2 16 Running false (Some idle_t) (Some other)]>
  (<[other := demo_thread 3 16 Ready true (Some runner) (Some waiter)]>
  (<[waiter := demo_thread 4 8 Waiting false (Some other) None]> ∅))).

Definition demo : Sched :=
  mkSched demo_threads {[ 100 := demo_process ]} (Some runner) (Some 100) (Some idle_t)
    (<[16%nat := mkReadyQueue (Some other) (Some other)]> (replicate 32 (mkReadyQueue None None))) 65536 1 0
    None None None None false (Some idle_t) (Some waiter) 4 5 4096 demo_space true.

Definition demo_queues : Queues :=
  mkQueues (<[16%nat := [other]]> (replicate 32 [])) [] [] [idle_t; runner; other; waiter].

(** Every statement about the four threads, case by case. *)
Lemma demo_forall (P : Z -> Thread -> Prop) :
  P idle_t (demo_thread 1 31 Ready false None (Some runner)) -> P runner (demo_thread 2 16 Running false (Some idle_t) (Some other)) ->
  P other (demo_thread 3 16 Ready true (Some runner) (Some waiter)) -> P waiter (demo_thread 4 8 Waiting false (Some other) None) ->
  forall t r, demo_threads !! t = Some r -> P t r.
Proof.
  intros H1 H2 H3 H4 t r. unfold demo_threads. repeat (intros [[<- <-]|[_ H]]%lookup_insert_Some; [done|]; revert H). by rewrite lookup_empty.
Qed.

Lemma demo_level p l : ready demo_queues !! p = Some l -> (p = 16%nat /\ l = [other]) \/ (p <> 16%nat /\ l = []).
Proof.
  cbn [demo_queues ready]. destruct (decide (p = 16%nat)) as [->|Hne]; [rewrite list_lookup_insert_eq by (rewrite length_replicate; lia); intros [= <-]; by left|].
  rewrite list_lookup_insert_ne by done. intros [-> _]%lookup_replicate. by right.
Qed.

Lemma demo_ready : ready_in_state demo (ready demo_queues).
Proof.
  split.
  - done.
  - intros p Q l HQ Hl. destruct (demo_level p l Hl) as [[-> ->]|[Hne ->]].
    + cbn [demo g_ready_queues] in HQ. rewrite list_lookup_insert_eq in HQ by (rewrite length_replicate; lia). injection HQ as <-.
      split; [apply NoDup_singleton|]. split; [|done]. split; [|done]. by eexists.
    + cbn [demo g_ready_queues] in HQ. rewrite list_lookup_insert_ne in HQ by done. apply lookup_replicate in HQ as [-> _]. split; [apply NoDup_nil_2|]. done.
  - intros p l t Hl Ht. destruct (demo_level p l Hl) as [[-> ->]|[_ ->]]; [|by apply not_elem_of_nil in Ht].
    apply list_elem_of_singleton in Ht as ->. by eexists.
  - intros t r Hr Hf. revert t r Hr Hf. apply (demo_forall (fun t r => in_ready_queue r = true -> exists p l, ready demo_queues !! p = Some l /\ t ∈ l)); try done. intros _. exists 16%nat, [other]. split; [done|]. apply list_elem_of_here.
  - done.
  - intros p l Hl. destruct (demo_level p l Hl) as [[-> ->]|[Hne ->]]; [done|]. cbn [demo g_ready_bitmap]. change 65536 with (2 ^ 16).
    rewrite Z.pow2_bits_false by lia. done.
  - done.
Qed.

Lemma demo_registry : registry_rep (threads demo) (g_thread_head demo) (g_thread_tail demo) (registry demo_queues).
Proof.
  split.
  - split; [apply (bool_decide_eq_true_1 (NoDup [idle_t; runner; other; waiter])); by vm_compute|]. split; [|done]. repeat split; by eexists.
  - intros t. split.
    + intros [r Hr]. revert t r Hr. apply (demo_forall (fun t _ => t ∈ registry demo_queues)); cbn [registry demo_queues]; set_solver.
    + cbn [demo_queues registry]. rewrite !elem_of_cons. intros [->|[->|[->|[->|Ht]]]]; [by eexists..|]. by apply not_elem_of_nil in Ht.
  - assert (forall t r, demo_threads !! t = Some r -> t_id r = t) as Hid by (by apply (demo_forall (fun t r => t_id r = t))).
    intros t1 t2 r1 r2 H1 H2 E. by rewrite <- (Hid t1 r1 H1), <- (Hid t2 r2 H2).
Qed.

Lemma demo_inv : inv demo demo_queues.
Proof.
  split.
  - exact demo_ready.
  - split; [split; [apply NoDup_nil_2|done]|intros t r Ht; by apply not_elem_of_nil in Ht|constructor|].
    intros t r Hr _. revert t r Hr. by apply (demo_forall (fun t r => sleep_next r = None /\ sleep_prev r = None)).
  - split; [apply NoDup_nil_2|done|done|]. intros t r Ht. by apply not_elem_of_nil in Ht.
  - exact demo_registry.
  - apply (demo_forall (fun t r => thread_ok demo t r)); split; try done; try (cbn; lia); try (cbn; apply list_elem_of_further, list_elem_of_here);
      (intros p [= <-]; exists demo_process; split; [by vm_compute|done]).
  - exists runner. split; [done|]. by eexists.
  - exists idle_t. eexists. split_and!; [done|done|done|by left].
  - done.
  - by vm_compute.
Qed.

Lemma demo_settled : settled demo demo_queues.
Proof.
  split; [exact demo_inv| | | |].
  - exists runner. eexists. split_and!; done.
  - intros t r Hr. revert t r Hr. apply (demo_forall (fun t r => current_state r = Running -> g_current_thread demo = Some t \/ g_idle_thread demo = Some t)); try done. by left.
  - intros t r Hr. revert t r Hr. by apply (demo_forall (fun t r => g_current_thread demo <> Some t -> saved_ok r)).
  - intros c r p x Hc Hr Hp Hx. assert (forall t r, demo_threads !! t = Some r -> t_parent r = Some 100) as Hpar by (by apply (demo_forall (fun t r => t_parent r = Some 100))).
    rewrite (Hpar c r Hr) in Hp. injection Hp as <-. change (({[100 := demo_process]} : gmap Z Process) !! 100 = Some x) in Hx. rewrite lookup_singleton_eq in Hx. by injection Hx as <-.
Qed.

Lemma demo_in_kernel : in_kernel demo.
Proof. intros c r Hc. revert c r Hc. intros c r _ Hr. revert c r Hr. by apply (demo_forall (fun _ r => Z.testbit (processor_state (t_context r)) 62 = false /\ Z.testbit (processor_state (t_context r)) 63 = false)). Qed.

(** A kernel in which nobody subscribes to thread events, and ended threads leave
    the registry and are released. *)
Definition quiet : Handler := fun c s =>
  match c with
  | Report _ => Ok (tt, s)
  | DestroyThread t => s <- unlink_thread t s ;; Ok (StatusOK, release_thread_slot t s)
  | PollDevices => Ok (tt, s)
  | PollTimer => Ok (1, s)
  end.

Lemma quiet_obeys : obeys quiet.
Proof.
  intros [c|t| |] s (q & Hinv & Hask); cbn [quiet reply kernel].
  - exists tt, s. split; [done|]. intros q0 H0. exists q0. split; [done|]. apply grows_refl.
  - destruct Hask as (Hre & Hct & r & Hr & Hst). destruct (release_evolves s t q r Hinv Hre Hct Hr Hst) as (s1 & Hrun & Hev).
    exists StatusOK, (release_thread_slot t s1). by rewrite Hrun.
  - exists tt, s. split; [done|]. intros q0 H0. exists q0. split; [done|]. apply grows_refl.
  - by exists 1, s.
Qed.
