(* ===== verification/SchedSpec.v ===== *)
(** What the scheduler guarantees. *)
From stdpp Require Import base list gmap.
From Stdlib Require Import ZArith Lia Sorted.
From S2P Require Import Prelude KernelText DList KernelIface SchedState Scheduler SchedQueues SchedOps SchedInv SchedLogic SchedProofs SchedSwitch SchedCalls SchedTimer SchedRequests SchedSystem ThreadRegistry SchedExample.

Local Open Scope Z_scope.

(** ** Queues as lists *)

(** Threads join the ends of the levels. *)
Definition extends (R R' : list (list Z)) : Prop := forall p l, R !! p = Some l -> exists new, R' !! p = Some (l ++ new).

(** The first thread of the highest level, and the levels without it. *)
Definition front (R : list (list Z)) : option Z := match best R with Some (_, t :: _) => Some t | _ => None end.
Definition drop_front (R : list (list Z)) : list (list Z) := match best R with Some (p, _ :: l) => <[p := l]> R | _ => R end.

Lemma front_chosen s q : best (ready q) <> None -> chosen s q = front (ready q).
Proof.
  intros Hne. unfold chosen, front. destruct (best (ready q)) as [[p [|t l]]|] eqn:HB; [|done|done]. by destruct (best_level _ _ _ HB) as (_ & [] & _).
Qed.

Lemma drop_front_rest q : ready (rest q) = drop_front (ready q).
Proof. unfold rest, drop_front. by destruct (best (ready q)) as [[p [|t l]]|]. Qed.

Lemma requeued_extends c s q s1 q1 r :
  requeued c true s q s1 q1 -> threads s !! c = Some r -> extends (alter (fun l => l ++ [c]) (level_of r) (ready q)) (ready q1).
Proof.
  intros Hrq Hr p l Hl. destruct (ready q !! p) as [l0|] eqn:Hl0.
  - destruct (rq_ready _ _ _ _ _ _ Hrq p l0 Hl0) as (new & Hnew). exists new. rewrite Hr in Hnew. cbn in Hnew. destruct (decide (p = level_of r)) as [->|Hne].
    + rewrite decide_True in Hnew by done. rewrite list_lookup_alter_eq, Hl0 in Hl. injection Hl as <-. done.
    + rewrite decide_False in Hnew by congruence. rewrite list_lookup_alter_ne, Hl0 in Hl by done. injection Hl as <-. done.
  - apply lookup_ge_None in Hl0. apply lookup_lt_Some in Hl. rewrite length_alter in Hl. lia.
Qed.

(** ** The properties *)

(** C2: Whatever sequence of calls threads, timer interrupts and the rest of the
    kernel have made, starting from a state in order, the next call they may make is
    defined and completes (no list is followed to a freed thread, no loop fails to
    end, no context is resumed that cannot be), the processor is never halted, and
    the state is in order again: the ready levels with their bitmap and count, the
    sorted sleep queue, the ended threads and the registry are well-formed, exactly
    the current thread runs, in the address space of its process.  The event broker,
    the thread manager and the devices may do anything their contract allows. *)
Theorem sched_system_safe h s0 q0 s b request :
  obeys h -> settled s0 q0 -> in_kernel s0 -> reachable h s0 s b -> legal request s ->
  exists x s' q', handled h (run request s) = Ok (x, s') /\ settled s' q' /\ x <> Switched Halts /\ (kernel_side x = true -> in_kernel s').
Proof.
  intros Hh Hs0 Hk0 Hreach Hl. destruct (reachable_settled h s0 q0 s b Hh Hs0 Hk0 Hreach) as [(q & Hs) _].
  destruct (run_handled h request s q Hh Hs Hl) as (x & s' & Hrun & (q' & Hs') & Hk' & Hx). exists x, s', q'. done.
Qed.

Lemma sched_system_safe_witness :
  exists x s' q', handled quiet (run Yield demo) = Ok (x, s') /\ settled s' q' /\ x <> Switched Halts /\ (kernel_side x = true -> in_kernel s').
Proof.
  apply (sched_system_safe quiet demo demo_queues demo true Yield).
  - exact quiet_obeys.
  - exact demo_settled.
  - exact demo_in_kernel.
  - apply reach_start.
  - exact demo_in_kernel.
Defined.

(** C11: The linked queues implement lists.  [ready_queue_push] adds the thread at
    the chosen end of its level, [ready_queue_remove] takes it out, and
    [ready_queue_pop_best] takes the first thread of the highest level that is not
    empty; [sleep_queue_insert_sorted] puts the thread behind all sleepers that wake
    no later, [sleep_queue_remove] takes it out; [queue_retired_thread] appends. *)
Theorem sched_queues_refine s q :
  inv s q ->
  (forall t r at_tail l, threads s !! t = Some r -> current_state r = Ready -> in_ready_queue r = false -> g_idle_thread s <> Some t -> ready q !! level_of r = Some l ->
    exists s', ready_queue_push (Some t) at_tail s = Ok (StatusOK, s') /\ inv s' (with_ready (<[level_of r := if at_tail then l ++ [t] else t :: l]> (ready q)) q)) /\
  (forall t r l1 l2, threads s !! t = Some r -> ready q !! level_of r = Some (l1 ++ t :: l2) ->
    exists s', ready_queue_remove (Some t) s = Ok s' /\ inv s' (with_ready (<[level_of r := l1 ++ l2]> (ready q)) q)) /\
  (exists s', ready_queue_pop_best s = Ok (front (ready q), s') /\ inv s' (with_ready (drop_front (ready q)) q)) /\
  (forall t r, threads s !! t = Some r -> current_state r = Waiting -> t ∉ sleepers q ->
    exists s' l1 l2, sleep_queue_insert_sorted (Some t) s = Ok s' /\ sleepers q = l1 ++ l2 /\ inv s' (with_sleepers (l1 ++ t :: l2) q) /\
      Forall (fun u => wake_of (threads s) u <= wake_tick r) l1 /\ Forall (fun u => wake_tick r < wake_of (threads s) u) l2) /\
  (forall t r, threads s !! t = Some r ->
    exists s', sleep_queue_remove (Some t) s = Ok s' /\ inv s' (with_sleepers (filter (fun u => u <> t) (sleepers q)) q)) /\
  (forall t r, threads s !! t = Some r -> current_state r = Terminated -> t ∉ retired q ->
    exists s', queue_retired_thread (Some t) s = Ok s' /\ inv s' (with_retired (retired q ++ [t]) q)).
Proof.
  intros Hinv. split_and!.
  - intros t r at_tail l Hr Hst Hf Hi Hl. destruct (inv_push s q Hinv t r at_tail l Hr Hst Hf Hi Hl) as (m & qs & bm & ct & Hrun & Hinv' & _). eexists. split; [exact Hrun|]. by destruct at_tail.
  - intros t r l1 l2 Hr Hl.
    assert (in_ready_queue r = true) as Hf.
    { destruct (rr_member _ _ _ _ _ (inv_ready _ _ Hinv) _ _ t Hl) as (r' & Hr' & Hf & _); [apply elem_of_app; right; apply list_elem_of_here|]. congruence. }
    destruct (inv_remove s q Hinv t r l1 l2 Hr Hf Hl) as (m & qs & bm & ct & Hrun & Hinv' & _). eauto.
  - pose proof (inv_pop_best s q Hinv) as Hpop. unfold front, drop_front. destruct (best (ready q)) as [[p l]|] eqn:HB.
    + destruct Hpop as (t & l' & r & m & qs & bm & ct & -> & _ & _ & Hrun & Hinv' & _). eauto.
    + exists s. split; [done|]. by destruct q.
  - intros t r Hr Hst Ht. destruct (inv_sleep_insert s q Hinv t r Hr Hst Ht) as (m & hd & tl & l1 & l2 & El & H1 & H2 & Hrun & Hinv' & _). eexists _, l1, l2. split_and!; done.
  - intros t r Hr. destruct (inv_sleep_remove s q Hinv t r Hr) as (m & hd & tl & Hrun & Hinv' & _). eauto.
  - intros t r Hr Hst Ht. destruct (inv_retire s q Hinv t r Hr Hst Ht) as (m & hd & tl & Hrun & Hinv' & _). eauto.
Qed.

Lemma sched_queues_refine_witness :
  exists s', ready_queue_pop_best demo = Ok (Some other, s') /\ inv s' (with_ready (replicate 32 []) demo_queues).
Proof. exact (proj1 (proj2 (proj2 (sched_queues_refine demo demo_queues demo_inv)))). Defined.

Lemma grows_context_back s q s1 q1 t r1 : grows [] s q s1 q1 -> threads s1 !! t = Some r1 -> exists r, threads s !! t = Some r /\ t_context r1 = t_context r.
Proof. intros Hg Hr1. destruct (grows_back s q s1 q1 t r1 Hg Hr1) as (r & Hr & G). exists r. split; [done|]. by eapply thread_grows_context. Qed.

(** C12: [yield] is round robin within a level and strict between levels.  The levels
    [R1] it finds are those of the caller's state, with threads that events have
    made ready behind them.  Where all are empty the caller goes on.  Otherwise the
    caller goes to the end of its own level, the first thread of the highest level
    that is not empty gets the processor, and that thread, if it is another, goes on
    from its saved context: in user code, or in the call it gave way in, with that
    call's interrupt mask. *)
Theorem sched_yield_rotates s q c r :
  settled s q -> in_kernel s -> g_current_thread s = Some c -> g_idle_thread s <> Some c -> threads s !! c = Some r ->
  post kernel (yield s) (fun ctl s' => exists R1 q', extends (ready q) R1 /\ settled s' q' /\
    if best R1 then
      exists R2 n, extends (alter (fun l => l ++ [c]) (level_of r) R1) R2 /\ front R2 = Some n /\ extends (drop_front R2) (ready q') /\
        g_current_thread s' = Some n /\ (n <> c -> exists rn, threads s !! n = Some rn /\ resumes (t_context rn) ctl s')
    else g_current_thread s' = Some c /\ ctl = Returns InYield StatusOK).
Proof.
  intros Hs Hk Hc Hi Hr. eapply post_mono; [|by apply (yield_post s q c)]. cbn beta. intros ctl s' (s1 & q1 & Hs1 & Hk1 & Hg & Hy).
  exists (ready q1). pose proof (gr_ready _ _ _ _ _ Hg) as Hext. pose proof (gr_idle _ _ _ _ _ Hg) as Hi1. cbn in Hi1.
  destruct (grows_current _ q s1 q1 c r (inv_interrupts _ _ false (se_inv _ _ Hs)) Hg Hc Hr) as (r1 & Hr1 & E1 & _). destruct (still_fields _ _ E1) as (_ & Ep & _).
  destruct Hy as [q' _ HB Hs' Hk' Hc' _ _ ->|_ HB (s2 & q2 & Hrq & _ & Hh)|Hid _]; [| |congruence].
  - exists q'. rewrite HB. done.
  - destruct (hd_settled _ _ _ _ _ _ _ Hh) as (q' & Hs' & Hrest & _). exists q'. split_and!; [done|done|]. destruct (best (ready q1)); [|done].
    destruct (hd_current _ _ _ _ _ _ _ Hh) as (n & rn & Hch & Hn & Hrn & Hcase). exists (ready q2), n.
    pose proof (requeued_extends c s1 q1 s2 q2 r1 Hrq Hr1) as Hext2. assert (level_of r1 = level_of r) as Elv by (unfold level_of; by rewrite Ep). rewrite Elv in Hext2.
    split_and!; [done|by rewrite <- (front_chosen s2 q2 (rq_some _ _ _ _ _ _ Hrq))|by rewrite <- drop_front_rest|done|].
    intros Hnc. rewrite decide_False in Hcase by done. destruct (rq_context _ _ _ _ _ _ Hrq n rn Hrn) as (rn1 & Hrn1 & Ex). rewrite Ex in Hcase.
    destruct (grows_context_back _ _ _ _ n rn1 Hg Hrn1) as (rn0 & Hrn0 & Ex0). rewrite Ex0 in Hcase. by exists rn0.
Qed.

Lemma sched_yield_rotates_witness :
  post kernel (yield demo) (fun ctl s' => exists R1 q', extends (ready demo_queues) R1 /\ settled s' q' /\
    if best R1 then
      exists R2 n, extends (alter (fun l => l ++ [runner]) 16%nat R1) R2 /\ front R2 = Some n /\ extends (drop_front R2) (ready q') /\
        g_current_thread s' = Some n /\ (n <> runner -> exists rn, threads demo !! n = Some rn /\ resumes (t_context rn) ctl s')
    else g_current_thread s' = Some runner /\ ctl = Returns InYield StatusOK).
Proof.
  apply (sched_yield_rotates demo demo_queues runner (demo_thread 2 16 Running false (Some idle_t) (Some other))).
  - exact demo_settled.
  - exact demo_in_kernel.
  - reflexivity.
  - discriminate.
  - reflexivity.
Defined.

(** C21: A thread that sleeps for [delay] ticks waits for exactly that.  Whatever
    calls threads, interrupts and the rest of the kernel make while it is away (but
    the one that forgets it), it sleeps, with its tick still to come, or stands on
    the queue of a level; once [delay] ticks have passed it is on the queue. *)
Theorem sched_sleep_wakes h s q c delay :
  obeys h -> settled s q -> in_kernel s -> g_current_thread s = Some c -> g_idle_thread s <> Some c ->
  0 < delay -> 0 <= g_tick_count s -> g_tick_count s + delay < 2 ^ 64 ->
  exists x s1, handled h (run (Sleep delay) s) = Ok (x, s1) /\ g_current_thread s1 <> Some c /\
    forall s', away h c s1 s' -> exists q', settled s' q' /\
      if bool_decide (g_tick_count s + delay <= g_tick_count s') then exists p l, ready q' !! p = Some l /\ c ∈ l
      else c ∈ sleepers q' \/ exists p l, ready q' !! p = Some l /\ c ∈ l.
Proof.
  intros Hh Hs Hk Hc Hi Hd Ht Hb.
  destruct (post_handled kernel h _ _ Hh (sleep_dozes s q c delay Hs Hk Hc Hi Hd Ht Hb)) as (x & s1 & Hrun & Hne & q1 & Hs1 & Hd1).
  exists x, s1. split_and!; [done|done|]. intros s' Haway. destruct (away_dozing h c _ s1 q1 s' Hh Hs1 Hd1 Haway) as (q' & Hs' & Hd').
  exists q'. split; [done|]. case_bool_decide as Hle; destruct Hd' as [(H1 & _ & H3)|H]; [lia|done|by left|by right].
Qed.

Lemma sched_sleep_wakes_witness :
  exists x s1, handled quiet (run (Sleep 3) demo) = Ok (x, s1) /\ g_current_thread s1 <> Some runner /\
    forall s', away quiet runner s1 s' -> exists q', settled s' q' /\
      if bool_decide (g_tick_count demo + 3 <= g_tick_count s') then exists p l, ready q' !! p = Some l /\ runner ∈ l
      else runner ∈ sleepers q' \/ exists p l, ready q' !! p = Some l /\ runner ∈ l.
Proof.
  apply (sched_sleep_wakes quiet demo demo_queues runner 3).
  - exact quiet_obeys.
  - exact demo_settled.
  - exact demo_in_kernel.
  - reflexivity.
  - discriminate.
  - reflexivity.
  - discriminate.
  - reflexivity.
Defined.

(** C20: A thread does not keep the processor.  While another thread of its level or
    of a higher one is ready, the running thread loses the processor after at most
    as many timer interrupts as its time slice has ticks left, and after one if none
    is left: both when the interrupts find it in user code, where its frame is
    saved, and when they find it inside the kernel. *)
Theorem sched_slice_preempts c k n s q stack pc state frame :
  settled s q -> contended c k s q -> Z.max 1 k <= Z.of_nat n ->
  post kernel (irqs_until_moved (user_irq stack pc state frame) c n s) (fun moved _ => moved = true) /\
  (in_kernel s -> post kernel (irqs_until_moved handle_current_el_timer_irq c n s) (fun moved _ => moved = true)).
Proof.
  intros Hs Hct Hn. split.
  - eapply (moved_post _ False c n s q k); try done. intros s1 q1 k1 Hs1 _ Hct1. by eapply user_irq_shortens.
  - intros Hk. eapply (moved_post _ True c n s q k); try done. intros s1 q1 k1 Hs1 Hk1 Hct1. eapply current_irq_shortens; [done|by apply Hk1|done].
Qed.

Lemma sched_slice_preempts_witness :
  post kernel (irqs_until_moved (user_irq 0 4096 0 (frame_at 4096)) runner 2 demo) (fun moved _ => moved = true) /\
  (in_kernel demo -> post kernel (irqs_until_moved handle_current_el_timer_irq runner 2 demo) (fun moved _ => moved = true)).
Proof.
  apply (sched_slice_preempts runner 2 2 demo demo_queues 0 4096 0 (frame_at 4096)).
  - exact demo_settled.
  - exists (demo_thread 2 16 Running false (Some idle_t) (Some other)), 16%nat, [other]. split_and!; [reflexivity|discriminate|reflexivity|reflexivity|vm_compute; reflexivity|cbn; lia].
  - lia.
Defined.

(** The state in which a call looks at its thread: ended threads have been
    destroyed, if there were any. *)
Definition reaping (s : Sched) (q : Queues) (s1 : Sched) (q1 : Queues) : Prop :=
  grows [] (with_interrupts false s) q s1 q1 /\ (retired q = [] -> s1 = with_interrupts false s /\ q1 = q).

Definition enqueue_answer (t : Z) (r : Thread) (s : Sched) : Status :=
  if bool_decide (current_state r = Terminated) then StatusBusy
  else if bool_decide (g_current_thread s = Some t) || in_ready_queue r then StatusAlreadyExists
  else StatusOK.

(** C22: [enqueue] of a live thread other than the idle one.  In the state that the
    destruction of ended threads leaves (the caller's own where there are none), it
    answers StatusBusy for an ended thread, StatusAlreadyExists for the running and
    for a queued one, and then changes nothing; any other thread it makes ready with
    StatusOK, at the end of the queue of its level and off the sleep queue, and a
    switch is pending if it outranks the running thread or that is the idle one.
    The running thread does not change. *)
Theorem sched_enqueue_outcome s q t r :
  settled s q -> in_kernel s -> threads s !! t = Some r -> t ∉ retired q -> g_idle_thread s <> Some t ->
  post kernel (enqueue (Some t) s) (fun st s' => exists s1 q1 r1 q',
    reaping s q s1 q1 /\ threads s1 !! t = Some r1 /\
    settled s' q' /\ in_kernel s' /\ g_current_thread s' = g_current_thread s /\ st = enqueue_answer t r1 s1 /\
    if bool_decide (st = StatusOK) then
      (exists r' l new, threads s' !! t = Some r' /\ current_state r' = Ready /\
        ready q1 !! level_of r1 = Some l /\ ready q' !! level_of r1 = Some (l ++ t :: new)) /\
      t ∉ sleepers q' /\ due s' t
    else s' = with_interrupts (interrupts s) s1).
Proof.
  intros Hs Hk Hr Hnr Hi. eapply post_mono; [|by apply (enqueue_post s q t r)]. cbn beta.
  intros st s' (s1 & q1 & r1 & Hs1 & Hk1 & Hg & Hnone & Hr1 & He). exists s1, q1, r1. pose proof (gr_current _ _ _ _ _ Hg) as Hc1. cbn in Hc1.
  unfold enqueue_answer. destruct He as [Hst -> ->|Hst Hc -> ->|Hst Hf -> ->|s2 q2 s3 q3 Hst Hc Hf -> R Hinv3 Hg3 Hd ->].
  - exists q1. rewrite Hst. split_and!; try done; [by apply settled_interrupts].
  - exists q1. rewrite (bool_decide_eq_false_2 _ Hst), (bool_decide_eq_true_2 _ Hc). split_and!; try done; [by apply settled_interrupts].
  - exists q1. rewrite Hst, Hf, orb_true_r. split_and!; try done; [by apply settled_interrupts].
  - destruct (readied_settled s1 q1 t r1 s2 q2 Hs1 R Hr1 Hst Hc) as [Hs2 Hk2]. pose proof (grows_settled _ _ _ _ Hs2 Hinv3 Hg3) as Hs3. exists q3.
    rewrite (bool_decide_eq_false_2 _ Hst), (bool_decide_eq_false_2 _ Hc), Hf. cbn [orb].
    destruct (rd_queues _ _ _ _ _ _ R) as (r2 & l & Hr2 & Hl & ->). rewrite Hr1 in Hr2. injection Hr2 as <-.
    destruct (gr_ready _ _ _ _ _ Hg3 (level_of r1) (pushed true t l)) as (new & Hnew).
    { cbn. apply list_lookup_insert_eq. by apply lookup_lt_Some in Hl. }
    cbn [pushed] in Hnew. rewrite <- app_assoc in Hnew. cbn [app] in Hnew. rewrite bool_decide_eq_true_2 by done. split_and!; try done.
    + by apply settled_interrupts.
    + exact (grows_in_kernel _ _ _ _ (se_inv _ _ Hs2) Hg3 (Hk2 Hk1)).
    + cbn. rewrite (gr_current _ _ _ _ _ Hg3). destruct (rd_vars _ _ _ _ _ _ R) as (-> & _). done.
    + destruct (rr_member _ _ _ _ _ (inv_ready _ _ Hinv3) _ _ t Hnew) as (r' & Hr' & _ & _ & Hst'); [set_solver|]. by exists r', l, new.
    + intros Ht. pose proof (elem_of_sublist _ _ t Ht (gr_sleep _ _ _ _ _ Hg3)) as Ht2. cbn [sleepers with_ready with_sleepers] in Ht2.
      by apply filter_not_in in Ht2.
Qed.

Lemma sched_enqueue_outcome_witness :
  post kernel (enqueue (Some waiter) demo) (fun st s' => exists s1 q1 r1 q',
    reaping demo demo_queues s1 q1 /\ threads s1 !! waiter = Some r1 /\
    settled s' q' /\ in_kernel s' /\ g_current_thread s' = g_current_thread demo /\ st = enqueue_answer waiter r1 s1 /\
    if bool_decide (st = StatusOK) then
      (exists r' l new, threads s' !! waiter = Some r' /\ current_state r' = Ready /\
        ready q1 !! level_of r1 = Some l /\ ready q' !! level_of r1 = Some (l ++ waiter :: new)) /\
      waiter ∉ sleepers q' /\ due s' waiter
    else s' = with_interrupts (interrupts demo) s1).
Proof.
  apply (sched_enqueue_outcome demo demo_queues waiter (demo_thread 4 8 Waiting false (Some other) None)).
  - exact demo_settled.
  - exact demo_in_kernel.
  - reflexivity.
  - apply not_elem_of_nil.
  - discriminate.
Defined.

(** C37: A timed wait never reports that it ran out.  Whenever a thread that gave the
    processor away in [block_current_for] is resumed, the call returns StatusOK:
    waking the thread has cleared the wake-up tick and the wait status by which the
    call would recognise a timeout, so the StatusBusy its description promises for
    an expired delay is never returned. *)
Theorem sched_timeout_unreported s q n r reason enabled :
  settled s q -> g_current_thread s = Some n -> threads s !! n = Some r ->
  program_counter (t_context r) = KernelCode (AfterSwitch (InBlockFor reason) enabled) ->
  Z.testbit (processor_state (t_context r)) 62 = false -> Z.testbit (processor_state (t_context r)) 63 = false ->
  post kernel (resume_context (t_context r) s) (fun ctl s' => ctl = Returns (InBlockFor reason) StatusOK /\ interrupts s' = enabled).
Proof.
  intros Hs Hn Hr Hpc B62 B63. eapply post_mono; [|apply (resume_post s q n r Hs Hn Hr)].
  - intros ctl s' A. pose proof (ar_resumes _ _ _ _ _ _ A) as Hres. unfold resumes in Hres. rewrite B62, B63, Hpc in Hres. by destruct Hres as (-> & -> & _).
  - unfold saved_ok. by rewrite B62, B63, Hpc.
Qed.

(** A thread that waits for a message with a timeout of two ticks, until it runs
    again: the timer has woken it, and its call returns StatusOK. *)
Definition timed_wait : M (Control * Control) :=
  let! away := block_current_for WaitMessage 2 None in
  ticks 2 ;;;
  let! back := yield in
  ret (away, back).

Example timed_wait_returns_ok :
  (r <- handled quiet (timed_wait demo) ;; Ok (fst r)) = Ok (EntersThread 4096, Returns (InBlockFor WaitMessage) StatusOK).
Proof. vm_compute. reflexivity. Qed.

Definition waiting_runner : Thread :=
  with_t_context (mkContext (KernelCode (AfterSwitch (InBlockFor WaitMessage) true)) 0 0 (frame_at 0)) (demo_thread 2 16 Running false (Some idle_t) (Some other)).

Lemma sched_timeout_unreported_witness :
  post kernel (resume_context (t_context waiting_runner) (with_threads (<[runner := waiting_runner]> (threads demo)) demo))
    (fun ctl s' => ctl = Returns (InBlockFor WaitMessage) StatusOK /\ interrupts s' = true).
Proof.
  apply (sched_timeout_unreported (with_threads (<[runner := waiting_runner]> (threads demo)) demo) demo_queues runner waiting_runner WaitMessage true).
  - apply (settled_update demo demo_queues runner (demo_thread 2 16 Running false (Some idle_t) (Some other)) (with_t_context (mkContext (KernelCode (AfterSwitch (InBlockFor WaitMessage) true)) 0 0 (frame_at 0))) demo_settled);
      try reflexivity; try (cbn; lia). split; try reflexivity; split; reflexivity.
  - reflexivity.
  - reflexivity.
  - reflexivity.
  - reflexivity.
  - reflexivity.
Defined.

(** ** A wake-up during the handover *)

(** The first call a program makes is a report, [P] holds of it, and the program
    ends with [Q] when the report changes nothing. *)
Definition first_report {A} (r : Run A) (P : BrokerCall -> Sched -> Prop) (Q : A -> Sched -> Prop) : Prop :=
  match r with
  | Call c s resume =>
      match c as c return (answer c -> Sched -> Run A) -> Prop with
      | Report e => fun resume => P e s /\ post kernel (resume tt s) Q
      | _ => fun _ => False
      end resume
  | _ => False
  end.

Lemma first_report_assoc {A B D} (m : M A) (f : A -> M B) (g : B -> M D) s P Q :
  first_report (seq m (fun a => seq (f a) g) s) P Q -> first_report (seq (seq m f) g s) P Q.
Proof.
  unfold seq. destruct (m s) as [a s'| | |[] s' resume]; cbn [run_bind first_report]; try done. intros [HP HQ]. split; [done|]. by apply bind_assoc_run.
Qed.

Lemma first_report_mono {A} (r : Run A) P (Q Q' : A -> Sched -> Prop) : (forall a s, Q a s -> Q' a s) -> first_report r P Q -> first_report r P Q'.
Proof. intros HQ. destruct r as [a s| | |[] s resume]; cbn; try done. intros [HP H]. split; [done|]. by eapply post_mono. Qed.

Lemma first_report_call {B} e (k : unit -> M B) s P Q :
  P e s -> post kernel (k tt s) Q -> first_report (seq (call (Report e)) k s) P Q.
Proof. intros HP HQ. by split. Qed.

Lemma seq_reap_none {B} (k : unit -> M B) s : g_retired_thread_head s = None -> seq reap_retired_threads k s = k tt s.
Proof. intros Hh. unfold reap_retired_threads, loop, reap_step, seq, read_var. cbn. by rewrite Hh. Qed.

Lemma publish_first {B} ty t a b (k : unit -> M B) s q r P Q :
  inv s q -> threads s !! t = Some r -> (forall e, P e s) -> post kernel (k tt s) Q ->
  first_report (seq (publish_thread_event ty t a b) k s) P Q.
Proof.
  intros Hinv Hr HP Hk. unfold publish_thread_event. apply first_report_assoc. rewrite (seq_thread t r) by done.
  pose proof (inv_threads _ _ Hinv t r Hr) as [_ _ _ _ Hpar]. destruct (t_parent r) as [p|].
  - destruct (Hpar p eq_refl) as (x & Hx & _). apply first_report_assoc, first_report_assoc. rewrite (seq_process p x), seq_ret by done. by apply first_report_call.
  - apply first_report_assoc. rewrite seq_ret. by apply first_report_call.
Qed.

(** Resuming a thread where none has ended changes that thread only. *)
Lemma resume_plain s q n r :
  settled s q -> g_current_thread s = Some n -> threads s !! n = Some r -> saved_ok r -> retired q = [] ->
  post kernel (resume_context (t_context r) s) (fun _ s' => settled s' q /\ g_current_thread s' = Some n /\ forall t, t <> n -> threads s' !! t = threads s !! t).
Proof.
  intros Hs Hc Hr Hok Hq. destruct (settled_current s q n Hs Hc) as (r' & Hr' & Hst). rewrite Hr in Hr'. injection Hr' as <-.
  unfold saved_ok in Hok. unfold resume_context. destruct (Z.testbit (processor_state (t_context r)) 62); [by apply post_ret|].
  destruct (Z.testbit (processor_state (t_context r)) 63); [destruct Hok as (pc & ->); by apply post_ret|].
  destruct (program_counter (t_context r)) as [pc|[|caller enabled]] eqn:Epc; [done| |].
  - rewrite seq_unmask. apply post_ret. split_and!; [by apply settled_interrupts|done|done].
  - assert (caller <> InExit) as Hx by (intros ->; congruence).
    rewrite seq_reap_none.
    2: { destruct (re_ends _ _ _ _ (inv_retired _ _ (se_inv _ _ Hs))) as [-> _]. by rewrite Hq. }
    eapply post_mono; [|by apply (after_switch_post s q caller enabled n)]. cbn beta. intros ctl s' (_ & R). split_and!; [apply R|apply R|apply (rt_others _ _ _ _ _ R)].
Qed.

(** The thread [c] is marked as waiting but still counts as the running one. *)
Definition between (c : Z) (s : Sched) : Prop :=
  exists q r, inv s q /\ retired q = [] /\ g_current_thread s = Some c /\ threads s !! c = Some r /\ current_state r = Waiting.

(** The processor goes from [c], which waits, to another thread that is ready. *)
Lemma handover_first s q c rc n rn enabled (P : BrokerCall -> Sched -> Prop) :
  leaving s q c rc InBlock -> eligible s n rn -> current_state rn = Ready -> n <> c -> current_state rc = Waiting -> retired q = [] -> saved_ok rn ->
  (forall e s1, between c s1 -> P e s1) ->
  first_report (switch_to_thread (Some n) InBlock enabled s) P
    (fun _ s' => settled s' q /\ g_current_thread s' = Some n /\ exists r', threads s' !! c = Some r' /\ current_state r' = Waiting).
Proof.
  intros L He Hst Hne Hw Hq Hok HP. pose proof (lv_inv _ _ _ _ _ L) as Hinv. pose proof (lv_current _ _ _ _ _ L) as [L2 L2'].
  pose proof He as (Hr & _). unfold switch_to_thread. rewrite seq_read, L2, bool_decide_eq_false_2 by congruence.
  cbn [bind_current_thread]. apply first_report_assoc. rewrite (seq_thread n rn) by done. cbn zeta. apply first_report_assoc.
  destruct (space_done s q n rn Hinv Hr) as (ps & a & Hrun & Hinv1 & Hps & Hprocs). rewrite (seq_done _ _ _ _ _ Hrun), bool_decide_eq_true_2 by done. cbn [negb].
  apply first_report_assoc. rewrite (seq_update n rn) by done. set (s1 := with_processes ps _) in *.
  pose proof (mark_running s1 q n rn Hinv1 He) as Hinv2. set (s2 := with_threads _ s1) in *. rewrite bool_decide_eq_false_2 by congruence. cbn [negb].
  apply first_report_assoc. eapply (publish_first _ _ _ _ _ s2 q (with_current_state Running rn)); [done|unfold s2, s1; sched_cbn; by lookups| |].
  { intros e. apply HP. exists q, rc. split_and!; try done. unfold s2, s1. sched_cbn. by rewrite lookup_insert_ne. }
  eapply post_seq; [eapply (bind_finish s q n rn ps a s2 s2 q); try done; [congruence|apply grows_refl]|]. cbn beta.
  intros st s3 (-> & B). pose proof B as [B1 (B2 & B2i & B2t & _) (r & r1 & Hr0 & Hr1 & St1 & X1) B4 _ B6 _ _].
  rewrite bool_decide_eq_true_2 by done. cbn [negb]. unfold context_switch. rewrite Hr in Hr0. injection Hr0 as <-.
  destruct (B6 c rc L2 ltac:(done) L2') as (rc1 & Hrc1 & Ec & _). destruct (still_fields _ _ Ec) as (Sc & _). rewrite (seq_update c rc1) by done. set (s4 := with_threads _ s3).
  assert (threads s4 !! n = Some r1) as Hr4 by (unfold s4; sched_cbn; by rewrite lookup_insert_ne).
  rewrite (seq_thread n r1) by done.
  assert (settled s4 q) as Hs4.
  { split; [|by exists n, r1| | |].
    - apply (inv_plain_update s3 q c rc1 (fun r => with_t_context (save_context InBlock enabled (t_context r)) r)); try done;
        apply (ok_quantum _ _ _ (inv_threads _ _ B1 c rc1 Hrc1)).
    - by apply (left_one s q c rc InBlock n s3 q (fun r => with_t_context (save_context InBlock enabled (t_context r)) r) rc1).
    - by apply (left_contexts s q c rc InBlock enabled n s3 q rc1).
    - intros c2 r2 p x. unfold s4. sched_cbn. rewrite B2. intros [= <-]. rewrite lookup_insert_ne by done. intros Hr3. by apply (B4 n r2 p x). }
  eapply post_mono; [|apply (resume_plain s4 q n r1); [done|done|done| |done]].
  - intros ctl s' (A1 & A2 & A3). split_and!; [done|done|]. rewrite A3 by done. unfold s4. sched_cbn. lookups. eexists. split; [done|]. cbn. congruence.
  - apply (saved_running rn); [done|congruence|done].
Qed.

Lemma enqueue_between c s h : between c s -> handled h (enqueue (Some c) s) = Ok (StatusAlreadyExists, s).
Proof.
  intros (q & r & Hinv & Hq & Hc & Hr & Hst). unfold enqueue. rewrite seq_mask. cbn zeta. rewrite seq_reap_none.
  2: { destruct (re_ends _ _ _ _ (inv_retired _ _ Hinv)) as [E _]. cbn. by rewrite E, Hq. }
  rewrite (seq_thread c r) by done. rewrite (seq_find (with_interrupts false s) q c r) by (done || by apply inv_interrupts).
  rewrite bool_decide_eq_true_2 by done. cbn [negb]. rewrite bool_decide_eq_false_2 by congruence. rewrite seq_read, bool_decide_eq_true_2 by done.
  rewrite seq_unmask. cbn. by destruct s.
Qed.

Lemma waiting_unqueued s q c r : inv s q -> threads s !! c = Some r -> current_state r = Waiting -> in_ready_queue r = false.
Proof.
  intros Hinv Hr Hst. destruct (in_ready_queue r) eqn:Hq; [|done]. destruct (ready_in _ _ _ _ _ (inv_ready _ _ Hinv) c r Hr Hq) as ((_ & _ & E) & _). congruence.
Qed.

Lemma sleepers_rest q : sleepers (rest q) = sleepers q.
Proof. unfold rest. by destruct (best (ready q)) as [[p [|t l]]|]. Qed.

(** The thread chosen from the ready queues is ready. *)
Lemma chosen_ready s q n r : inv s q -> best (ready q) <> None -> chosen s q = Some n -> threads s !! n = Some r -> current_state r = Ready.
Proof.
  intros Hinv HB Hch Hr. unfold chosen in Hch. destruct (best (ready q)) as [[p [|t l]]|] eqn:E; [| |done].
  - by destruct (best_level _ _ _ E) as (_ & [] & _).
  - injection Hch as ->. destruct (best_level _ _ _ E) as (Hl & _).
    destruct (rr_member _ _ _ _ _ (inv_ready _ _ Hinv) p _ n Hl ltac:(apply list_elem_of_here)) as (r' & Hr' & _ & _ & Hst'). congruence.
Qed.

(** C38: A wake-up is lost while the processor changes hands.  Take any state where
    no ended thread waits to be reaped and a thread of a level is ready, and let the
    running thread block: it is marked as waiting, and the first call that leaves the
    scheduler is the report that the next thread runs, published before that thread is
    the current one.  A broker that answers this very report by waking the thread that
    blocks, as [wake_waiter] does when the report is the event it waits for, is
    refused with StatusAlreadyExists and changes nothing, whatever the broker's own
    answers; and the switch then ends with the thread waiting, in no ready queue and
    off the sleep queue, although its wake-up has been delivered. *)
Theorem sched_wakeup_lost s q c reason object :
  settled s q -> in_kernel s -> g_current_thread s = Some c -> g_idle_thread s <> Some c -> retired q = [] -> best (ready q) <> None ->
  first_report (block_current reason object s)
    (fun _ s1 => forall h, handled h (enqueue (Some c) s1) = Ok (StatusAlreadyExists, s1))
    (fun _ s' => g_current_thread s' <> Some c /\ exists q' r', settled s' q' /\ threads s' !! c = Some r' /\ current_state r' = Waiting /\
       in_ready_queue r' = false /\ c ∉ sleepers q').
Proof.
  intros Hs Hk Hc Hi Hq Hb. destruct (settled_current s q c Hs Hc) as (r & Hr & Hst).
  unfold block_current, blocking. rewrite seq_mask. cbn zeta. rewrite seq_reap_none.
  2: { destruct (re_ends _ _ _ _ (inv_retired _ _ (se_inv _ _ Hs))) as [E _]. cbn. by rewrite E, Hq. }
  set (s0 := with_interrupts false s). assert (settled s0 q) as Hs0 by (by apply settled_interrupts).
  rewrite seq_read, seq_read. change (g_current_thread s0) with (g_current_thread s). change (g_idle_thread s0) with (g_idle_thread s).
  rewrite Hc, bool_decide_eq_false_2 by congruence. rewrite (seq_thread c r) by done. rewrite bool_decide_eq_true_2 by done. cbn [negb].
  rewrite (seq_update c r) by done. set (f := fun r => with_current_state Waiting (with_wait object (wait_reason_code reason) r)).
  destruct (stop_running s0 q c r f) as (Hr1 & Hns & _ & Hlv); try done; [by left|]. specialize (Hlv InBlock ltac:(done)).
  set (s1 := with_threads _ s0) in *.
  destruct (pick_ok s1 q (lv_inv _ _ _ _ _ Hlv)) as (n & s2 & rn & Hch & Hpick & Hinv2 & He & (r0 & Hr0 & U0) & Hk2 & Hc2 & Hi2 & Hp2 & Ha2 & _).
  change (with_threads _ s0) with s1. rewrite (seq_exec _ _ _ _ _ (Hpick false ltac:(by left))).
  destruct (leaving_relinked s1 q c (f r) InBlock s2 (rest q)) as (r2 & L2 & E2); try done; [by apply bare_unqueued|].
  assert (current_state rn = Ready) as Hready by (rewrite <- (chosen_ready s1 q n r0 (lv_inv _ _ _ _ _ Hlv) Hb Hch Hr0); exact (f_equal current_state U0)).
  assert (current_state r2 = Waiting) as Hw by exact (f_equal current_state E2).
  pose proof (lv_current _ _ _ _ _ L2) as [Lc Lr].
  assert (n <> c) as Hne by (intros ->; destruct He as (Hrn & _); congruence).
  eapply first_report_mono; [|apply (handover_first s2 (rest q) c r2 n rn); try done].
  - intros ctl s' (Hs' & Hc' & r' & Hr' & Hst'). split; [congruence|]. exists (rest q), r'.
    split_and!; try done; [apply (waiting_unqueued s' (rest q) c r'); [apply Hs'|done|done]|by rewrite sleepers_rest].
  - unfold rest. by destruct (best (ready q)) as [[p [|t l]]|].
  - apply (lv_contexts _ _ _ _ _ L2 n rn); [apply He|congruence].
  - intros e s3 Hbt h. by apply enqueue_between.
Qed.

Lemma sched_wakeup_lost_witness :
  first_report (block_current WaitEvent None demo)
    (fun _ s1 => forall h, handled h (enqueue (Some runner) s1) = Ok (StatusAlreadyExists, s1))
    (fun _ s' => g_current_thread s' <> Some runner /\ exists q' r', settled s' q' /\ threads s' !! runner = Some r' /\ current_state r' = Waiting /\
       in_ready_queue r' = false /\ runner ∉ sleepers q').
Proof. exact (sched_wakeup_lost demo demo_queues runner WaitEvent None demo_settled demo_in_kernel eq_refl ltac:(done) eq_refl ltac:(done)). Defined.
