(* ===== verification/HeapList.v ===== *)
(** The growable arrays of the kernel (include/heap_list.h).

    An array is the address of its block, the cells of the block, how many of them
    are in use and how many there are; [None] is a cell nothing was stored in.  The
    parts without calls are here: the capacity to ask for, what the block holds
    after it was reallocated, storing behind the last element and removing one.
    The calls into the heap are in Lifecycle. *)
From stdpp Require Import base list.
From Stdlib Require Import ZArith Lia.
From S2P Require Import Prelude.

Local Open Scope Z_scope.

Record HeapList (T : Type) : Type := mkHeapList {
  m_items : option Z;
  m_storage : list (option T);
  m_count : Z;
  m_capacity : Z
}.
Arguments mkHeapList {T} m_items m_storage m_count m_capacity.
Arguments m_items {T} h : rename.
Arguments m_storage {T} h : rename.
Arguments m_count {T} h : rename.
Arguments m_capacity {T} h : rename.

Section HeapList.
Context {T : Type}.
Implicit Types (h : HeapList T) (l : list T).

Definition no_items : HeapList T := mkHeapList None [] 0 0.

(** The loop of [reserve]: double until it is enough. *)
Definition grow_step (requested grown_capacity : Z) : Exec (Z + Z) :=
  if negb (grown_capacity <? requested) then Ok (inr grown_capacity) else
  if (2 ^ 64 - 1) / 2 <? grown_capacity then Ok (inr requested) else Ok (inl (u64 (grown_capacity * 2))).

Definition grown_capacity h (requested : Z) : Exec Z :=
  iterate 66 (grow_step requested) (if m_capacity h =? 0 then 4 else m_capacity h).

(** The block after [Heap::realloc] to [bytes] bytes: the old cells, then fresh ones. *)
Definition regrown (items bytes item_size capacity : Z) h : HeapList T :=
  mkHeapList (Some items) (resize (Z.to_nat (bytes / item_size)) None (m_storage h)) (m_count h) capacity.

(** [m_items[m_count++] = value]. *)
Definition store_last (value : T) h : Exec (HeapList T) :=
  storage <- aset (m_storage h) (m_count h) (Some value) ;;
  Ok (mkHeapList (m_items h) storage (u64 (m_count h + 1)) (m_capacity h)).

Definition shift_step (count : Z) (st : list (option T) * Z) : Exec ((list (option T) * Z) + list (option T)) :=
  let '(storage, shift) := st in
  if negb (shift <? count) then Ok (inr storage) else
  x <- aget storage shift ;;
  storage <- aset storage (u64 (shift - 1)) x ;;
  Ok (inl (storage, u64 (shift + 1))).

Definition remove_at (index : Z) h : Exec (HeapList T) :=
  if m_count h <=? index then Ok h else
  storage <- iterate (S (length (m_storage h))) (shift_step (m_count h)) (m_storage h, u64 (index + 1)) ;;
  Ok (mkHeapList (m_items h) storage (u64 (m_count h - 1)) (m_capacity h)).

(** [list[index]] of a cell that holds an element, and a change of it in place. *)
Definition item (index : Z) h : Exec T :=
  x <- aget (m_storage h) index ;; match x with Some v => Ok v | None => Undef end.
Definition replace_item (index : Z) (value : T) h : Exec (HeapList T) :=
  storage <- aset (m_storage h) index (Some value) ;;
  Ok (mkHeapList (m_items h) storage (m_count h) (m_capacity h)).

(** [for (index = 0; index < list.count(); ++index) if (test(list[index])) ...;]:
    the first index that passes. *)
Definition seek_step (test : T -> bool) h (index : Z) : Exec (Z + option Z) :=
  if negb (index <? m_count h) then Ok (inr None) else
  x <- item index h ;;
  Ok (if test x then inr (Some index) else inl (u64 (index + 1))).
Definition seek (test : T -> bool) h : Exec (option Z) := iterate (S (length (m_storage h))) (seek_step test h) 0.

(** ** What an array holds *)
Record holds h l : Prop := {
  ho_cells : take (length l) (m_storage h) = Some <$> l;
  ho_count : m_count h = len l;
  ho_capacity : m_capacity h = len (m_storage h);
  ho_size : m_capacity h < 2 ^ 48;
  ho_block : m_items h = None -> m_capacity h = 0
}.

Lemma holds_none : holds no_items [].
Proof. by split. Qed.

Lemma holds_room h l : holds h l -> len l <= m_capacity h.
Proof.
  intros [H1 _ H3 _ _]. apply (f_equal length) in H1. rewrite length_take, length_fmap in H1. rewrite H3. lia.
Qed.

Lemma holds_split h l : holds h l -> m_storage h = (Some <$> l) ++ drop (length l) (m_storage h).
Proof. intros [<- _ _ _ _]. by rewrite take_drop. Qed.

Lemma holds_unique h l l' : holds h l -> holds h l' -> l = l'.
Proof.
  intros [A1 A2 _ _ _] [B1 B2 _ _ _]. assert (length l = length l') as E by lia. rewrite E in A1. rewrite A1 in B1. by apply (list_fmap_eq_inj Some) in B1; [|intros ? ? [= ->]].
Qed.

Lemma holds_lookup h l (i : nat) x : holds h l -> l !! i = Some x -> m_storage h !! i = Some (Some x).
Proof. intros Hh Hx. rewrite (holds_split _ _ Hh). rewrite lookup_app_l by (rewrite length_fmap; by eapply lookup_lt_Some). by rewrite list_lookup_fmap, Hx. Qed.

Lemma item_ok h l (i : nat) x : holds h l -> l !! i = Some x -> item (Z.of_nat i) h = Ok x.
Proof. intros Hh Hx. unfold item. rewrite (aget_ok _ _ (Some x)); [done|lia|]. rewrite Nat2Z.id. by eapply holds_lookup. Qed.

(** ** Growing *)
Lemma grow_loop requested c fuel :
  0 < c < 2 ^ 64 -> c < 2 ^ 48 -> c < requested <= 2 ^ 48 -> 0 < requested < c * 2 ^ Z.of_nat fuel ->
  exists g, iterate (S fuel) (grow_step requested) c = Ok g /\ requested <= g < 2 ^ 49.
Proof.
  revert c. induction fuel as [|fuel IH]; intros c Hc Hc2 Hr Hf; [cbn in Hf; lia|].
  cbn [iterate]. unfold grow_step at 1. destruct (Z.ltb_spec c requested); [|lia]. cbn [negb].
  change ((2 ^ 64 - 1) / 2) with 9223372036854775807. destruct (Z.ltb_spec 9223372036854775807 c); [lia|]. rewrite bind_ok.
  rewrite (u64_small (c * 2)) by lia. destruct (Z.ltb_spec (c * 2) requested).
  - apply IH; [lia|lia|lia|]. rewrite Nat2Z.inj_succ, Z.pow_succ_r in Hf by lia. nia.
  - exists (c * 2). split; [|lia]. cbn [iterate]. unfold grow_step at 1. destruct (Z.ltb_spec (c * 2) requested); [lia|]. done.
Qed.

(** Enough is asked for, and not more than twice what is needed. *)
Lemma grown_capacity_ok h l :
  holds h l -> m_capacity h < len l + 1 -> exists g, grown_capacity h (len l + 1) = Ok g /\ len l + 1 <= g < 2 ^ 49.
Proof.
  intros Hh Hc. pose proof (holds_room _ _ Hh). pose proof (ho_size _ _ Hh). unfold grown_capacity. destruct (Z.eqb_spec (m_capacity h) 0) as [E|E].
  - assert (len l = 0) as -> by lia. exists 4. split; [done|lia].
  - apply (grow_loop (len l + 1) (m_capacity h) 65); lia.
Qed.

Lemma holds_regrown h l items item_size g :
  holds h l -> 0 < item_size -> len l <= g < 2 ^ 48 -> m_capacity h <= g -> holds (regrown items (g * item_size) item_size g h) l.
Proof.
  intros Hh Hi Hg Hc. pose proof (ho_capacity _ _ Hh) as Hcap. unfold regrown. rewrite Z.div_mul by lia. split; cbn.
  - rewrite take_resize_le by lia. pose proof (ho_cells _ _ Hh) as E. pose proof (holds_room _ _ Hh).
    rewrite resize_le by lia. exact E.
  - apply Hh.
  - rewrite length_resize. lia.
  - lia.
  - done.
Qed.

(** ** Storing and removing *)
Lemma store_last_ok h l v :
  holds h l -> len l < m_capacity h -> exists h', store_last v h = Ok h' /\ holds h' (l ++ [v]) /\ m_items h' = m_items h.
Proof.
  intros [H1 H2 H3 H4 H5] Hr. unfold store_last. rewrite H2.
  rewrite (aset_ok (m_storage h) (len l) (Some v)) by lia. rewrite bind_ok. eexists. split; [done|]. split; [|done]. rewrite Nat2Z.id. split; cbn.
  - rewrite length_app, Nat.add_comm. cbn [length Nat.add]. rewrite fmap_app. cbn [fmap list_fmap].
    rewrite <- H1. rewrite (take_S_r _ _ (Some v)) by (apply list_lookup_insert_eq; lia). by rewrite take_insert_ge by lia.
  - rewrite u64_small by lia. rewrite length_app. cbn [length]. lia.
  - by rewrite length_insert.
  - done.
  - done.
Qed.

Lemma shift_loop (pre mid : list (option T)) x (post : list (option T)) fuel :
  len (pre ++ x :: mid ++ post) < 2 ^ 48 -> (length mid < fuel)%nat ->
  exists y, iterate fuel (shift_step (len (pre ++ x :: mid))) (pre ++ x :: mid ++ post, len pre + 1) = Ok (pre ++ mid ++ y :: post).
Proof.
  revert pre x fuel. induction mid as [|m mid IH]; intros pre x fuel Hl Hf; (destruct fuel as [|fuel]; [cbn in Hf; lia|]);
    cbn [iterate]; unfold shift_step at 1; rewrite !length_app in *; cbn [length] in *.
  - destruct (Z.ltb_spec (len pre + 1) (Z.of_nat (length pre + 1))); [lia|]. cbn [negb]. rewrite bind_ok. by exists x.
  - destruct (Z.ltb_spec (len pre + 1) (Z.of_nat (length pre + S (S (length mid))))); [|lia]. cbn [negb].
    rewrite (aget_ok _ _ m), bind_ok; [|lia|].
    2: { rewrite lookup_app_r by lia. replace (Z.to_nat (len pre + 1) - length pre)%nat with 1%nat by lia. done. }
    replace (u64 (len pre + 1 - 1)) with (len pre) by (rewrite u64_small; lia).
    rewrite aset_ok by (rewrite length_app; cbn [length app]; lia). rewrite bind_ok, bind_ok. rewrite Nat2Z.id, insert_app_r_alt, Nat.sub_diag by lia. cbn [insert list_insert app].
    rewrite (u64_small (len pre + 1 + 1)) by lia. destruct (IH (pre ++ [m]) m fuel) as [y Hy]; [repeat first [rewrite length_app in Hl | rewrite length_app | progress cbn [app length] in Hl | progress cbn [length]]; lia|lia|].
    exists y. rewrite <- !app_assoc in Hy. cbn [app] in Hy. replace (len (pre ++ [m])) with (len pre + 1) in Hy by (rewrite length_app; cbn [length]; lia).
    replace (length pre + S (S (length mid)))%nat with (length (pre ++ m :: m :: mid)) by (rewrite length_app; cbn [length]; lia). exact Hy.
Qed.

Lemma remove_at_ok h (l1 : list T) x l2 :
  holds h (l1 ++ x :: l2) -> exists h', remove_at (len l1) h = Ok h' /\ holds h' (l1 ++ l2) /\ m_items h' = m_items h.
Proof.
  intros Hh. pose proof (holds_split _ _ Hh) as Es. pose proof (holds_room _ _ Hh) as Hroom. destruct Hh as [H1 H2 H3 H4 H5].
  rewrite length_app in H2, Hroom. cbn [length] in H2, Hroom. unfold remove_at.
  destruct (Z.leb_spec (m_count h) (len l1)); [lia|]. rewrite (u64_small (len l1 + 1)) by lia.
  set (rest := drop (length (l1 ++ x :: l2)) (m_storage h)) in *.
  rewrite fmap_app in Es. cbn [fmap list_fmap] in Es. rewrite <- app_assoc in Es. cbn [app] in Es.
  assert (len (m_storage h) < 2 ^ 48) as Hlen by lia.
  destruct (shift_loop (Some <$> l1) (Some <$> l2) (Some x) rest (S (length (m_storage h)))) as [y Hy].
  { rewrite <- Es. exact Hlen. }
  { rewrite Es, !length_app. cbn [length]. rewrite !length_app, length_fmap. lia. }
  rewrite length_app in Hy. cbn [length] in Hy. rewrite !length_fmap in Hy. rewrite Es in *. rewrite H2.
  rewrite Hy, bind_ok. eexists. split; [done|]. split; [|done]. split; cbn.
  - rewrite length_app, app_assoc. rewrite take_app_length'; [by rewrite fmap_app|]. by rewrite length_app, !length_fmap.
  - rewrite u64_small by lia. rewrite length_app. lia.
  - rewrite !length_app in *. cbn [length] in *. rewrite !length_app, !length_fmap in *. cbn [length]. lia.
  - done.
  - done.
Qed.

Lemma replace_item_ok h (l : list T) (i : nat) v :
  holds h l -> (i < length l)%nat -> exists h', replace_item (Z.of_nat i) v h = Ok h' /\ holds h' (<[i := v]> l) /\ m_items h' = m_items h.
Proof.
  intros Hh Hi. pose proof (holds_room _ _ Hh) as Hroom. destruct Hh as [H1 H2 H3 H4 H5]. unfold replace_item.
  rewrite (aset_ok (m_storage h) (Z.of_nat i) (Some v)) by lia. rewrite bind_ok. rewrite Nat2Z.id.
  eexists. split; [done|]. split; [|done]. split; cbn.
  - rewrite length_insert, take_insert_lt by lia. by rewrite H1, list_fmap_insert.
  - by rewrite length_insert.
  - by rewrite length_insert.
  - done.
  - done.
Qed.

(** ** Searching *)
Lemma seek_from test h (l1 l2 : list T) fuel :
  holds h (l1 ++ l2) -> (length l2 < fuel)%nat -> 
  iterate fuel (seek_step test h) (len l1) =
    Ok ((fun r => Z.of_nat (length l1 + fst r)) <$> list_find (fun x => test x = true) l2).
Proof.
  intros Hh. revert l1 fuel Hh. induction l2 as [|x l2 IH]; intros l1 fuel Hh Hf; (destruct fuel as [|fuel]; [cbn in Hf; lia|]);
    cbn [iterate]; unfold seek_step at 1; rewrite (ho_count _ _ Hh), length_app; cbn [length].
  - destruct (Z.ltb_spec (len l1) (Z.of_nat (length l1 + 0))); [lia|]. done.
  - destruct (Z.ltb_spec (len l1) (Z.of_nat (length l1 + S (length l2)))); [|lia]. cbn [negb].
    rewrite (item_ok h _ (length l1) x Hh) by (rewrite lookup_app_r, Nat.sub_diag by lia; done). rewrite bind_ok, bind_ok. cbn [list_find].
    destruct (test x) eqn:Ht.
    + rewrite decide_True by done. cbn. by rewrite Nat.add_0_r.
    + rewrite decide_False by congruence. pose proof (holds_room _ _ Hh) as Hroom. rewrite length_app in Hroom. cbn [length] in Hroom. pose proof (ho_size _ _ Hh).
      rewrite u64_small by lia. replace (len l1 + 1) with (len (l1 ++ [x])) by (rewrite length_app; cbn [length]; lia).
      rewrite IH; [|by rewrite <- app_assoc|cbn in Hf; lia]. destruct (list_find _ l2) as [[i y]|]; [|done]. cbn. rewrite length_app. cbn [length]. do 2 f_equal. lia.
Qed.

Lemma seek_ok test h (l : list T) : holds h l -> seek test h = Ok ((fun r => Z.of_nat (fst r)) <$> list_find (fun x => test x = true) l).
Proof.
  intros Hh. unfold seek. change 0 with (len (@nil T)). rewrite (seek_from test h [] l); [done|done|].
  pose proof (holds_room _ _ Hh). pose proof (ho_capacity _ _ Hh). lia.
Qed.
End HeapList.
