(* ===== verification/LifeState.v ===== *)
(** The state of the kernel's objects, processes and threads, and the programs that
    change it.

    object.cpp, process.cpp and thread.cpp keep their records on the heap and call
    the scheduler, the event broker, the memory manager and the parts of the kernel
    that hold something for a process.  As in SchedState a program is [KDone] or
    makes a [KCall] with the state it has reached and goes on with the answer and
    the state the callee leaves; a scheduler program is one of them ([lifted]).
    A block of the heap is named by its address; [blocks] are those that these files
    have taken from the heap and not handed back. *)
From stdpp Require Import base list gmap.
From Stdlib Require Import ZArith Lia.
From S2P Require Import Prelude KernelText DList KernelIface SchedState Scheduler HeapList.

Local Open Scope Z_scope.

(** ** Data *)
Record ProcessExitRecord : Type := mkExitRecord { er_process_id : Z; er_parent_process_id : Z; er_exit_code : Z }.

(** The state: the scheduler's with the threads and processes, the variables of
    process.cpp and of object.cpp, the headers of the registered objects of other
    kinds, and the blocks taken from the heap. *)
Record Kern : Type := mkKern {
  sched : Sched;
  process_head : option Z;
  process_tail : option Z;
  process_count_value : Z;
  next_pid : Z;
  exit_records : HeapList ProcessExitRecord;
  g_objects : HeapList Z;
  other_objects : gmap Z ObjectHeader;
  blocks : gset Z
}.

Definition with_sched (v : Sched) (k : Kern) : Kern := mkKern v (process_head k) (process_tail k) (process_count_value k) (next_pid k) (exit_records k) (g_objects k) (other_objects k) (blocks k).
Definition with_process_head (v : option Z) (k : Kern) : Kern := mkKern (sched k) v (process_tail k) (process_count_value k) (next_pid k) (exit_records k) (g_objects k) (other_objects k) (blocks k).
Definition with_process_tail (v : option Z) (k : Kern) : Kern := mkKern (sched k) (process_head k) v (process_count_value k) (next_pid k) (exit_records k) (g_objects k) (other_objects k) (blocks k).
Definition with_process_count_value (v : Z) (k : Kern) : Kern := mkKern (sched k) (process_head k) (process_tail k) v (next_pid k) (exit_records k) (g_objects k) (other_objects k) (blocks k).
Definition with_next_pid (v : Z) (k : Kern) : Kern := mkKern (sched k) (process_head k) (process_tail k) (process_count_value k) v (exit_records k) (g_objects k) (other_objects k) (blocks k).
Definition with_exit_records (v : HeapList ProcessExitRecord) (k : Kern) : Kern := mkKern (sched k) (process_head k) (process_tail k) (process_count_value k) (next_pid k) v (g_objects k) (other_objects k) (blocks k).
Definition with_g_objects (v : HeapList Z) (k : Kern) : Kern := mkKern (sched k) (process_head k) (process_tail k) (process_count_value k) (next_pid k) (exit_records k) v (other_objects k) (blocks k).
Definition with_other_objects (v : gmap Z ObjectHeader) (k : Kern) : Kern := mkKern (sched k) (process_head k) (process_tail k) (process_count_value k) (next_pid k) (exit_records k) (g_objects k) v (blocks k).
Definition with_blocks (v : gset Z) (k : Kern) : Kern := mkKern (sched k) (process_head k) (process_tail k) (process_count_value k) (next_pid k) (exit_records k) (g_objects k) (other_objects k) v.

(** ** Programs *)

(** The calls out: those the scheduler makes, the events of a process, the heap, and
    what the rest of the kernel does for a thread's stack and for a process. *)
Inductive OutsideCall : Type :=
| FromScheduler (c : OutCall)
| PublishProcessEvent (type process_id : Z) (name : list Z) (parent_process_id exit_code state flags : Z) (status : Status)
| UnsubscribeOwner (process_id : Z)
| HeapAlloc (bytes alignment : Z)
| HeapRealloc (block : option Z) (bytes : Z)
| HeapFree (block : Z)
| Unmap (process base bytes : Z)
| ReleaseResource (backing : Z)
| CreateUserAddressSpace (process : Z)
| DestroyUserAddressSpace (process : Z)
| BootstrapAddressSpace
| ReleaseSurfaces (process : Z)
| ReleaseSharedMemory (process : Z)
| ReleaseFileMappings (process : Z)
| ReleaseUserHeap (process : Z)
| ReleaseLoaderResources (process : Z)
| DestroyModule (object : Z).

(** Answers the code ignores are left out. *)
Definition reply_of (c : OutsideCall) : Type :=
  match c with
  | FromScheduler c => answer c
  | HeapAlloc _ _ | HeapRealloc _ _ => option Z
  | CreateUserAddressSpace _ => Status
  | BootstrapAddressSpace => option AddressSpace
  | _ => unit
  end.

Inductive KRun (A : Type) : Type :=
| KDone (a : A) (k : Kern)
| KUndefined
| KUnfinished
| KCall (c : OutsideCall) (k : Kern) (resume : reply_of c -> Kern -> KRun A).
Arguments KDone {A} a k.
Arguments KUndefined {A}.
Arguments KUnfinished {A}.
Arguments KCall {A} c k resume.

Fixpoint krun_bind {A B : Type} (r : KRun A) (f : A -> Kern -> KRun B) : KRun B :=
  match r with
  | KDone a k => f a k
  | KUndefined => KUndefined
  | KUnfinished => KUnfinished
  | KCall c k resume => KCall c k (fun x k' => krun_bind (resume x k') f)
  end.

Definition K (A : Type) : Type := Kern -> KRun A.
Definition kret {A : Type} (a : A) : K A := KDone a.
Definition kseq {A B : Type} (m : K A) (f : A -> K B) : K B := fun k => krun_bind (m k) f.
Definition kcall (c : OutsideCall) : K (reply_of c) := fun k => KCall c k KDone.

(** Parts without calls, and reading a variable. *)
Definition kexec {A : Type} (f : Kern -> Exec (A * Kern)) : K A := fun k =>
  match f k with Ok (a, k') => KDone a k' | NoFuel => KUnfinished | _ => KUndefined end.
Definition kread {A : Type} (f : Kern -> A) : K A := fun k => KDone (f k) k.
Definition kset (f : Kern -> Kern) : K unit := fun k => KDone tt (f k).
Definition compute {A : Type} (f : Kern -> Exec A) : K A := kexec (fun k => x <- f k ;; Ok (x, k)).
Definition kchange (f : Kern -> Exec Kern) : K unit := kexec (fun k => k' <- f k ;; Ok (tt, k')).

(** A change of the scheduler's part, and a scheduler program. *)
Definition on_sched (f : Sched -> Exec Sched) : K unit := kchange (fun k => s <- f (sched k) ;; Ok (with_sched s k)).

Fixpoint lift {A : Type} (r : Run A) (k : Kern) : KRun A :=
  match r with
  | Done a s => KDone a (with_sched s k)
  | Undefined => KUndefined
  | Unfinished => KUnfinished
  | Call c s resume => KCall (FromScheduler c) (with_sched s k) (fun x k' => lift (resume x (sched k')) k')
  end.
Definition lifted {A : Type} (m : M A) : K A := fun k => lift (m (sched k)) k.

Declare Scope life_scope.
Delimit Scope life_scope with life.
Notation "'let*' x := m 'in' f" := (kseq m (fun x => f)) (at level 200, x binder, m at level 100, f at level 200) : life_scope.
Notation "m >; f" := (kseq m (fun _ => f)) (at level 100, f at level 200, right associativity) : life_scope.
Open Scope life_scope.

Fixpoint kloop {A : Type} (fuel : nat) (step : K (option A)) : K A :=
  match fuel with
  | O => fun _ => KUnfinished
  | S fuel => let* r := step in match r with Some a => kret a | None => kloop fuel step end
  end.

(** [thread->field] and [process->field]. *)
Definition kthread (t : Z) : K Thread := compute (fun k => get t (sched k)).
Definition kprocess (p : Z) : K Process := compute (fun k => get_process p (sched k)).
Definition set_thread (t : Z) (f : Thread -> Thread) : K unit := on_sched (set t f).
Definition set_proc (p : Z) (f : Process -> Process) : K unit := on_sched (set_process p f).

(** ** Running a program under a handler of the calls *)
Definition Outside : Type := forall c, Kern -> Exec (reply_of c * Kern).

Fixpoint served {A : Type} (h : Outside) (r : KRun A) : Exec (A * Kern) :=
  match r with
  | KDone a k => Ok (a, k)
  | KUndefined => Undef
  | KUnfinished => NoFuel
  | KCall c k resume => '(x, k') <- h c k ;; served h (resume x k')
  end.
