(* ===== verification/Lifecycle.v ===== *)
(** Kernel objects, processes and threads (object.cpp, process.cpp, thread.cpp), and
    the start of the scheduler ([Scheduler::bootstrap]).

    Every function of the three files is here, with its early returns and the order
    of its steps.  A pointer argument is [option Z]; an out-pointer is a flag that it
    is not NULL, and what is stored through it is part of the result.  A thread or
    process can ask for the other to be destroyed, so the two functions take each
    other as arguments and are unrolled as deep as the calls go. *)
From stdpp Require Import base list gmap.
From Stdlib Require Import ZArith Lia.
From S2P Require Import Prelude KernelText DList KernelIface SchedState Scheduler ThreadRegistry HeapList LifeState.

Local Open Scope Z_scope.

(** ** Constants and helpers of the headers *)
Definition ObjectTypeProcess : Z := 1.
Definition ObjectTypeThread : Z := 2.
Definition ObjectTypeModule : Z := 3.
Definition FlagPermanent : Z := 1.
Definition FlagKernel : Z := 2.
Definition object_has_flag (value flag : Z) : bool := negb (Z.land value flag =? 0).

Definition ProcessNameCapacity : Z := 32.
Definition ProcessImagePathCapacity : Z := 260.
Definition ThreadNameCapacity : Z := 32.
Definition KernelThreadStackSize : Z := 16 * 1024.
Definition process_size : Z := 568.
Definition thread_size : Z := 832.
Definition record_alignment : Z := 8.
Definition L2BlockSize : Z := 2 ^ 21.
Definition HeapBase : Z := 256 * L2BlockSize.
Definition HeapReservedBytes : Z := 512 * L2BlockSize - HeapBase.
Definition InitialThreadStackSlotBytes : Z := 256 * 1024.
Definition KernelEventTypeProcessCreated : Z := 1.
Definition KernelEventTypeProcessExited : Z := 2.
Definition KernelEventTypeThreadCreated : Z := 16.
Definition KernelEventTypeThreadExited : Z := 17.

Definition process_state_code (st : ProcessState) : Z :=
  match st with ProcessCreated => 0 | ProcessRunning => 1 | ProcessExiting => 2 | ProcessTerminated => 3 end.

(** Records after [memzero]. *)
Definition zero_header : ObjectHeader := mkHeader 0 0 0 0.
Definition zero_space : AddressSpace := mkSpace 0 None 0 0 0 0 0 0.
Definition zero_stacks : ThreadStacks := mkStacks 0 None 0 0 None 0.
Definition zero_frame : AArch64ExceptionFrame := mkFrame (replicate 31 0) 0 0 0 0 0 0 0 0 0.
Definition zero_thread : Thread :=
  mkThread zero_header 0 (replicate (Z.to_nat ThreadNameCapacity) 0) Initialized 0 0 0 0 false None zero_stacks None 0 0
    (mkContext (UserCode 0) 0 0 zero_frame) None None None None None None None None.
Definition zero_process : Process :=
  mkProcess zero_header 0 (replicate (Z.to_nat ProcessNameCapacity) 0) (replicate (Z.to_nat ProcessImagePathCapacity) 0) None ProcessCreated
    zero_space None 0 None 0 None 0 0 0 0 0 0 None None None None 0 None 0 None None.

(** ** Text *)
Definition copy_name_step (capacity : Z) (active : list Z) (st : list Z * Z) : Exec ((list Z * Z) + (list Z * Z)) :=
  let '(destination, index) := st in
  if negb (u64 (index + 1) <? capacity) then Ok (inr st) else
  c <- aget active index ;;
  if c =? 0 then Ok (inr st) else
  destination <- aset destination index c ;;
  Ok (inl (destination, u64 (index + 1))).

(** [copy_text] of process.cpp and thread.cpp; the destination is an array of a record. *)
Definition copy_name (destination : list Z) (capacity : Z) (source : option (list Z)) (fallback : list Z) : Exec (list Z) :=
  active <- match source with
            | None => Ok fallback
            | Some text => c <- aget text 0 ;; Ok (if negb (c =? 0) then text else fallback)
            end ;;
  if capacity =? 0 then Ok destination else
  '(destination, index) <- iterate (S (Z.to_nat capacity)) (copy_name_step capacity active) (destination, 0) ;;
  aset destination index 0.

Definition text_step (lhs rhs : list Z) (i : Z) : Exec (Z + bool) :=
  a <- aget lhs i ;;
  b <- aget rhs i ;;
  if (a =? 0) || (b =? 0) then Ok (inr (a =? b)) else
  if negb (a =? b) then Ok (inr false) else Ok (inl (i + 1)).

Definition same_text (lhs rhs : list Z) : Exec bool := iterate (S (length lhs)) (text_step lhs rhs) 0.

(** ** Growable arrays in the kernel's variables *)
Record ListVar (T : Type) : Type := mkListVar {
  value : Kern -> HeapList T;
  store : HeapList T -> Kern -> Kern;
  item_size : Z
}.
Arguments value {T} l k : rename.
Arguments store {T} l h k : rename.
Arguments item_size {T} l : rename.

Definition objects_var : ListVar Z := mkListVar Z g_objects with_g_objects 8.
Definition records_var : ListVar ProcessExitRecord := mkListVar ProcessExitRecord exit_records with_exit_records 24.

Section ListCalls.
Context {T : Type} (L : ListVar T).

Definition list_change (f : HeapList T -> Exec (HeapList T)) : K unit :=
  kchange (fun k => h <- f (value L k) ;; Ok (store L h k)).

Definition reserve (requested_count : Z) : K Status :=
  let* h := kread (value L) in
  if requested_count <=? m_capacity h then kret StatusOK else
  let* grown := compute (fun _ => grown_capacity h requested_count) in
  let bytes := u64 (grown * item_size L) in
  let* items := kcall (HeapRealloc (m_items h) bytes) in
  match items with
  | None => kret StatusNoMemory
  | Some a => kset (store L (regrown a bytes (item_size L) grown h)) >; kret StatusOK
  end.

Definition append (x : T) : K Status :=
  let* h := kread (value L) in
  let* status := reserve (u64 (m_count h + 1)) in
  if negb (bool_decide (status = StatusOK)) then kret status else
  list_change (store_last x) >; kret StatusOK.

Definition clear : K unit :=
  let* h := kread (value L) in
  match m_items h with Some a => kcall (HeapFree a) | None => kret tt end >;
  kset (store L no_items).
End ListCalls.

(** ** object.cpp *)
Definition objects_init : K Status := clear objects_var >; kret StatusOK.

Definition register_object (object : option Z) : K Status :=
  match object with
  | None => kret StatusInvalidArgument
  | Some o =>
      let* found := compute (fun k => seek (Z.eqb o) (g_objects k)) in
      match found with Some _ => kret StatusAlreadyExists | None => append objects_var o end
  end.

Definition unregister_object (object : option Z) : K Status :=
  match object with
  | None => kret StatusInvalidArgument
  | Some o =>
      let* found := compute (fun k => seek (Z.eqb o) (g_objects k)) in
      match found with
      | Some i => list_change objects_var (remove_at i) >; kret StatusOK
      | None => kret StatusNotFound
      end
  end.

(** The header an object starts with. *)
Definition header_at (o : Z) (k : Kern) : Exec ObjectHeader :=
  match threads (sched k) !! o with
  | Some r => Ok (t_header r)
  | None => match processes (sched k) !! o with
            | Some x => Ok (p_header x)
            | None => match other_objects k !! o with Some h => Ok h | None => Undef end
            end
  end.

Definition set_header (o : Z) (h : ObjectHeader) (k : Kern) : Exec Kern :=
  match threads (sched k) !! o with
  | Some r => s <- set o (with_t_header h) (sched k) ;; Ok (with_sched s k)
  | None => match processes (sched k) !! o with
            | Some x => s <- set_process o (with_p_header h) (sched k) ;; Ok (with_sched s k)
            | None => match other_objects k !! o with Some _ => Ok (with_other_objects (<[o := h]> (other_objects k)) k) | None => Undef end
            end
  end.

Definition find_object_step (type object_id : Z) (k : Kern) (index : Z) : Exec (Z + option Z) :=
  if negb (index <? m_count (g_objects k)) then Ok (inr None) else
  o <- item index (g_objects k) ;;
  h <- header_at o k ;;
  Ok (if (SchedState.type h =? type) && (SchedState.object_id h =? object_id) then inr (Some o) else inl (u64 (index + 1))).

Definition find_object (type object_id : Z) (k : Kern) : Exec (option Z) :=
  iterate (S (length (m_storage (g_objects k)))) (find_object_step type object_id k) 0.

Definition with_ref_count (n : Z) (h : ObjectHeader) : ObjectHeader :=
  mkHeader (SchedState.type h) (flags h) (SchedState.object_id h) n.

Definition reference_object (object : option Z) : K Status :=
  match object with
  | None => kret StatusInvalidArgument
  | Some o =>
      let* h := compute (header_at o) in
      kchange (set_header o (with_ref_count (u64 (ref_count h + 1)) h)) >; kret StatusOK
  end.

Definition object_count (k : Kern) : Z := m_count (g_objects k).

(** ** process.cpp: the list of processes *)
Definition contains_step {N : Type} `{Linked N} (m : gmap Z N) (node cursor : option Z) : Exec (option Z + bool) :=
  match cursor with
  | None => Ok (inr false)
  | Some a => if bool_decide (node = Some a) then Ok (inr true) else n <- fetch m a ;; Ok (inl (link_next n))
  end.

Definition contains_node {N : Type} `{Linked N} (m : gmap Z N) (head node : option Z) : Exec bool :=
  iterate (S (size m)) (contains_step m node) head.

Definition contains_process (process : option Z) (k : Kern) : Exec bool :=
  contains_node (H := process_links) (processes (sched k)) (process_head k) process.

Definition find_process (id : Z) (k : Kern) : Exec (option Z) :=
  @dl_find Process process_links (fun x => Ok (p_id x =? id)) (processes (sched k)) (process_head k).

Definition find_process_named (name : option (list Z)) (k : Kern) : Exec (option Z) :=
  match name with
  | None => Ok None
  | Some name => @dl_find Process process_links (fun x => same_text (p_name x) name) (processes (sched k)) (process_head k)
  end.

Definition process_count (k : Kern) : Z := process_count_value k.

Definition with_process_list (m : gmap Z Process) (hd tl : option Z) (k : Kern) : Kern :=
  with_process_tail tl (with_process_head hd (with_sched (with_processes m (sched k)) k)).

Definition link_process (p : Z) (k : Kern) : Exec Kern :=
  '(m, hd, tl) <- dl_append (H := process_links) (processes (sched k)) (process_head k) (process_tail k) p ;;
  Ok (with_process_list m hd tl k).

Definition unlink_process (p : Z) (k : Kern) : Exec Kern :=
  '(m, hd, tl) <- dl_unlink (H := process_links) (processes (sched k)) (process_head k) (process_tail k) p ;;
  m <- assign m p (fun x => with_p_prev None (with_p_next None x)) ;;
  Ok (with_process_list m hd tl k).

(** The address names no record any more; the block goes back to the heap. *)
Definition release_process_slot (p : Z) : K unit :=
  kset (fun k => with_sched (with_processes (delete p (processes (sched k))) (sched k)) k) >;
  kcall (HeapFree p).

(** One turn of the walk up the launchers. *)
Definition tree_step (process root_id : Z) (k : Kern) (cursor_id : Z) : Exec (Z + bool) :=
  if cursor_id =? 0 then Ok (inr false) else
  parent <- find_process cursor_id k ;;
  if cursor_id =? root_id then Ok (inr true) else
  match parent with
  | None => Ok (inr false)
  | Some a => if a =? process then Ok (inr false) else x <- get_process a (sched k) ;; Ok (inl (parent_process_id x))
  end.

Definition process_is_in_tree (process root_id : Z) (k : Kern) : Exec bool :=
  if root_id =? 0 then Ok false else
  x <- get_process process (sched k) ;;
  if p_id x =? root_id then Ok true else
  iterate (S (S (size (processes (sched k))))) (tree_step process root_id k) (parent_process_id x).

Definition mark_for_exit (code : Z) (x : Process) : Process :=
  let x := with_exit_code code x in
  if negb (bool_decide (p_state x = ProcessTerminated)) then with_p_state ProcessExiting x else x.

Definition mark_step (root_id code : Z) (st : Kern * option Z * Z) : Exec ((Kern * option Z * Z) + (Kern * Z)) :=
  let '(k, cursor, marked) := st in
  match cursor with
  | None => Ok (inr (k, marked))
  | Some p =>
      inside <- process_is_in_tree p root_id k ;;
      x <- get_process p (sched k) ;;
      if negb inside || object_has_flag (flags (p_header x)) FlagPermanent then Ok (inl (k, p_next x, marked)) else
      s <- set_process p (mark_for_exit code) (sched k) ;;
      Ok (inl (with_sched s k, p_next x, u64 (marked + 1)))
  end.

Definition mark_process_tree_for_exit (root_id code : Z) : K Z :=
  kexec (fun k => '(k, marked) <- iterate (S (size (processes (sched k)))) (mark_step root_id code) (k, process_head k, 0) ;; Ok (marked, k)).

Definition orphan_step (launcher_id : Z) (st : Kern * option Z) : Exec ((Kern * option Z) + Kern) :=
  let '(k, cursor) := st in
  match cursor with
  | None => Ok (inr k)
  | Some p =>
      x <- get_process p (sched k) ;;
      if negb (parent_process_id x =? launcher_id) then Ok (inl (k, p_next x)) else
      s <- set_process p (fun x => with_p_parent None (with_parent_process_id 0 x)) (sched k) ;;
      Ok (inl (with_sched s k, p_next x))
  end.

Definition orphan_launched_processes (launcher_id : Z) (k : Kern) : Exec Kern :=
  if launcher_id =? 0 then Ok k else
  iterate (S (size (processes (sched k)))) (orphan_step launcher_id) (k, process_head k).

(** ** process.cpp: exit records *)
Definition is_record (id parent_id : Z) (e : ProcessExitRecord) : bool := (er_process_id e =? id) && (er_parent_process_id e =? parent_id).

Definition remember_exit_status (p : Z) : K unit :=
  let* x := kprocess p in
  if parent_process_id x =? 0 then kret tt else
  let e := mkExitRecord (p_id x) (parent_process_id x) (exit_code x) in
  let* found := compute (fun k => seek (is_record (p_id x) (parent_process_id x)) (exit_records k)) in
  match found with
  | Some i => list_change records_var (replace_item i e)
  | None => let* _ := append records_var e in kret tt
  end.

Definition consume_exit_status (id parent_id : Z) (exit_code_out : bool) : K (Status * option Z) :=
  if negb exit_code_out then kret (StatusInvalidArgument, None) else
  let* found := compute (fun k => seek (is_record id parent_id) (exit_records k)) in
  match found with
  | None => kret (StatusNotFound, None)
  | Some i =>
      let* e := compute (fun k => item i (exit_records k)) in
      list_change records_var (remove_at i) >;
      kret (StatusOK, Some (er_exit_code e))
  end.

Definition processes_init : K Status :=
  kset (fun k => with_process_tail None (with_process_head None (with_next_pid 1 (with_process_count_value 0 k)))) >;
  clear records_var >;
  kret StatusOK.

(** ** process.cpp: creation *)
Definition publish_process_event (type : Z) (p : Z) : K unit :=
  let* x := kprocess p in
  kcall (PublishProcessEvent type (p_id x) (p_name x) (parent_process_id x) (exit_code x)
           (process_state_code (p_state x)) (flags (p_header x)) StatusOK).

Definition text_process : list Z := [112; 114; 111; 99; 101; 115; 115; 0].
Definition text_user : list Z := [117; 115; 101; 114; 0].

Definition new_process (user_process : bool) (id : Z) (name : list Z) : Process :=
  mkProcess (mkHeader ObjectTypeProcess (if user_process then 0 else FlagKernel) id 1) id name (image_path zero_process) None ProcessCreated
    zero_space None 0 None 0 None 0 0 (if user_process then InitialThreadStackSlotBytes else 0)
    (if user_process then HeapBase else 0) (if user_process then HeapReservedBytes else 0) 0 None None None None 0 None 0 None None.

Definition with_asid (id : Z) (a : AddressSpace) : AddressSpace :=
  mkSpace (page_table_root a) (region_list a) id (user_base a) (user_limit a) (translation_table_l0 a) (translation_table_l1 a) (translation_table_l2 a).

(** [MemoryManager::create_user_address_space] fills the process's address space. *)
Definition create_user_address_space (p : Z) : K Status := kcall (CreateUserAddressSpace p).

Definition create_process_with_mode (name : option (list Z)) (user_process out_process : bool) : K (Status * option Z) :=
  if negb out_process then kret (StatusInvalidArgument, None) else
  let* slot := kcall (HeapAlloc process_size record_alignment) in
  match slot with
  | None => kret (StatusNoSpace, None)
  | Some p =>
      let* id := kread next_pid in
      kset (with_next_pid (u64 (id + 1))) >;
      let* text := compute (fun _ => copy_name (p_name zero_process) ProcessNameCapacity name (if user_process then text_user else text_process)) in
      kset (fun k => with_sched (with_processes (<[p := new_process user_process id text]> (processes (sched k))) (sched k)) k) >;
      let* status :=
        (if user_process then create_user_address_space p
         else let* space := kcall BootstrapAddressSpace in
              match space with Some a => set_proc p (with_process_address_space a) | None => kret tt end >;
              kret StatusOK) in
      if negb (bool_decide (status = StatusOK)) then release_process_slot p >; kret (status, None) else
      set_proc p (fun x => with_process_address_space (with_asid (Z.land (p_id x) 65535) (process_address_space x)) x) >;
      let* status := register_object (Some p) in
      if negb (bool_decide (status = StatusOK)) then
        (if user_process then kcall (DestroyUserAddressSpace p) else kret tt) >;
        release_process_slot p >;
        kret (status, None)
      else
      kchange (link_process p) >;
      kset (fun k => with_process_count_value (u64 (process_count_value k + 1)) k) >;
      publish_process_event KernelEventTypeProcessCreated p >;
      kret (StatusOK, Some p)
  end.

Definition create_process (name : option (list Z)) (out_process : bool) : K (Status * option Z) := create_process_with_mode name false out_process.
Definition create_user_process (name : option (list Z)) (out_process : bool) : K (Status * option Z) := create_process_with_mode name true out_process.

(** ** process.cpp: the threads of a process *)
Definition set_members (p : Z) (m : gmap Z Thread) (hd tl : option Z) (s : Sched) : Exec Sched :=
  set_process p (fun x => with_thread_list_tail tl (with_thread_list_head hd x)) (with_threads m s).

Definition attach_thread (process thread : option Z) : K Status :=
  match process, thread with
  | Some p, Some t =>
      let* inside := compute (contains_process process) in
      if negb inside then kret StatusNotFound else
      let* r := kthread t in
      if bool_decide (t_parent r = process) then kret StatusAlreadyExists else
      if negb (bool_decide (t_parent r = None)) then kret StatusBusy else
      set_thread t (with_t_parent process) >;
      on_sched (fun s => x <- get_process p s ;;
                '(m, hd, tl) <- dl_append (H := member_links) (threads s) (thread_list_head x) (thread_list_tail x) t ;;
                set_members p m hd tl s) >;
      set_proc p (fun x => if bool_decide (main_thread x = None) then with_main_thread (Some t) x else x) >;
      set_proc p (fun x => with_thread_count (u64 (thread_count x + 1)) x) >;
      kret StatusOK
  | _, _ => kret StatusInvalidArgument
  end.

Definition detach_thread (process thread : option Z) : K Status :=
  match process, thread with
  | Some p, Some t =>
      let* r := kthread t in
      if negb (bool_decide (t_parent r = process)) then kret StatusNotFound else
      on_sched (fun s => x <- get_process p s ;;
                '(m, hd, tl) <- dl_unlink (H := member_links) (threads s) (thread_list_head x) (thread_list_tail x) t ;;
                set_members p m hd tl s) >;
      set_thread t (fun r => with_process_prev None (with_process_next None (with_t_parent None r))) >;
      set_proc p (fun x => if bool_decide (main_thread x = thread) then with_main_thread (thread_list_head x) x else x) >;
      set_proc p (fun x => if negb (thread_count x =? 0) then with_thread_count (thread_count x - 1) x else x) >;
      kret StatusOK
  | _, _ => kret StatusInvalidArgument
  end.

(** ** thread.cpp *)
Definition contains_thread (thread : option Z) (k : Kern) : Exec bool :=
  contains_node (H := registry_links) (threads (sched k)) (g_thread_head (sched k)) thread.

Definition live_thread_count (k : Kern) : Z := g_thread_count (sched k).

Definition threads_init : K Status :=
  kset (fun k => with_sched (set_registry (threads (sched k)) None None (with_g_next_thread_id 1 (with_g_thread_count 0 (sched k)))) k) >;
  kret StatusOK.

(** The address names no record any more; the block goes back to the heap. *)
Definition free_thread_slot (t : Z) : K unit :=
  kset (fun k => with_sched (release_thread_slot t (sched k)) k) >;
  kcall (HeapFree t).

Definition thread_kernel_stack_top (backing : option Z) : Z :=
  match backing with Some a => u64 (a + KernelThreadStackSize) | None => 0 end.

Definition free_stack (stack : option Z) : K unit := match stack with Some a => kcall (HeapFree a) | None => kret tt end.

(** The common end of the three functions that make a thread: it is registered,
    linked and attached, or everything is undone. *)
Definition enroll_thread (p t : Z) (stack : option Z) : K (Status * option Z) :=
  let* status := register_object (Some t) in
  if negb (bool_decide (status = StatusOK)) then free_stack stack >; free_thread_slot t >; kret (status, None) else
  on_sched (link_thread t) >;
  kset (fun k => with_sched (with_g_thread_count (u64 (g_thread_count (sched k) + 1)) (sched k)) k) >;
  let* status := attach_thread (Some p) (Some t) in
  if negb (bool_decide (status = StatusOK)) then
    on_sched (unlink_thread t) >;
    kset (fun k => with_sched (with_g_thread_count (u64 (g_thread_count (sched k) - 1)) (sched k)) k) >;
    unregister_object (Some t) >;
    free_stack stack >;
    free_thread_slot t >;
    kret (status, None)
  else
  let* r := kthread t in
  lifted (publish_thread_event KernelEventTypeThreadCreated t (thread_state_code Initialized) (thread_state_code (current_state r))) >;
  kret (StatusOK, Some t).

Definition new_thread (id flags : Z) (name : list Z) (st : ThreadState) (priority quantum : Z) (stacks : ThreadStacks) (context : CpuContext) : Thread :=
  mkThread (mkHeader ObjectTypeThread flags id 1) id name st priority priority quantum quantum false None stacks None 0 0 context
    None None None None None None None None.

Definition put_thread (t : Z) (r : Thread) : K unit := kset (fun k => with_sched (with_threads (<[t := r]> (threads (sched k))) (sched k)) k).

(** The next thread identifier. *)
Definition take_thread_id : K Z :=
  let* id := kread (fun k => g_next_thread_id (sched k)) in
  kset (fun k => with_sched (with_g_next_thread_id (u64 (id + 1)) (sched k)) k) >; kret id.

Definition text_thread : list Z := [116; 104; 114; 101; 97; 100; 0].
Definition text_boot : list Z := [98; 111; 111; 116; 0].
Definition text_idle : list Z := [105; 100; 108; 101; 0].

(** [create_thread] and [create_user_thread] after their checks: [make] is the record
    for an identifier, a name and a kernel stack. *)
Definition spawn_thread (p : Z) (name : option (list Z)) (fallback : list Z) (make : Z -> list Z -> option Z -> Thread) : K (Status * option Z) :=
  let* slot := kcall (HeapAlloc thread_size record_alignment) in
  match slot with
  | None => kret (StatusNoMemory, None)
  | Some t =>
      let* id := take_thread_id in
      let* text := compute (fun _ => copy_name (t_name zero_thread) ThreadNameCapacity name fallback) in
      put_thread t (make id text None) >;
      let* stack := kcall (HeapAlloc KernelThreadStackSize 16) in
      match stack with
      | None => free_thread_slot t >; kret (StatusNoMemory, None)
      | Some a => put_thread t (make id text stack) >; enroll_thread p t stack
      end
  end.

Definition spawn_checks (parent : option Z) (out_thread badly_placed : bool) (base_priority quantum_ticks : Z) (spawn : Z -> K (Status * option Z)) : K (Status * option Z) :=
  match parent with
  | None => kret (StatusInvalidArgument, None)
  | Some p =>
      if negb out_thread then kret (StatusInvalidArgument, None) else
      if badly_placed then kret (StatusInvalidArgument, None) else
      if (ThreadPriorityLevelCount <=? base_priority) || (quantum_ticks =? 0) then kret (StatusInvalidArgument, None) else
      let* x := kprocess p in
      let* found := compute (find_process (p_id x)) in
      if negb (bool_decide (found = parent)) then kret (StatusNotFound, None) else spawn p
  end.

Definition kernel_thread (entry_point priority quantum id : Z) (name : list Z) (stack : option Z) : Thread :=
  new_thread id FlagKernel name Ready priority quantum (mkStacks 0 None 0 0 stack (thread_kernel_stack_top stack))
    (mkContext (KernelCode (ThreadEntry entry_point)) 0 0 zero_frame).

Definition create_thread (parent : option Z) (name : option (list Z)) (entry_point : Z) (out_thread : bool) (base_priority quantum_ticks : Z) : K (Status * option Z) :=
  spawn_checks parent out_thread (entry_point =? 0) base_priority quantum_ticks
    (fun p => spawn_thread p name text_thread (kernel_thread entry_point base_priority quantum_ticks)).

Definition user_thread (entry_point user_stack_top priority quantum id : Z) (name : list Z) (stack : option Z) : Thread :=
  new_thread id 0 name Ready priority quantum (mkStacks user_stack_top None 0 0 stack (thread_kernel_stack_top stack))
    (mkContext (UserCode entry_point) user_stack_top CpuContextUserModeFlag zero_frame).

Definition create_user_thread (parent : option Z) (name : option (list Z)) (entry_point user_stack_top : Z) (out_thread : bool) (base_priority quantum_ticks : Z) : K (Status * option Z) :=
  spawn_checks parent out_thread (user_stack_top =? 0) base_priority quantum_ticks
    (fun p => spawn_thread p name text_user (user_thread entry_point user_stack_top base_priority quantum_ticks)).

(** [sp] and [pc] are the stack pointer and the return address the processor has. *)
Definition adopt_current_thread (sp : Z) (pc : Continuation) (parent : option Z) (name : option (list Z)) (out_thread : bool) : K (Status * option Z) :=
  match parent with
  | None => kret (StatusInvalidArgument, None)
  | Some p =>
      if negb out_thread then kret (StatusInvalidArgument, None) else
      let* x := kprocess p in
      let* found := compute (find_process (p_id x)) in
      if negb (bool_decide (found = parent)) then kret (StatusNotFound, None) else
      let* slot := kcall (HeapAlloc thread_size record_alignment) in
      match slot with
      | None => kret (StatusNoMemory, None)
      | Some t =>
          let* id := take_thread_id in
          let* text := compute (fun _ => copy_name (t_name zero_thread) ThreadNameCapacity name text_boot) in
          put_thread t (new_thread id FlagKernel text Running ThreadPriorityNormal ThreadDefaultQuantumTicks
                          (mkStacks 0 None 0 0 None sp) (mkContext (KernelCode pc) 0 0 zero_frame)) >;
          enroll_thread p t None
      end
  end.

Definition with_user_stack_gone (r : Thread) : Thread :=
  let st := t_stacks r in
  with_t_stacks (mkStacks (user_stack_top st) None 0 0 (kernel_stack_backing st) (kernel_stack_top st)) r.

Definition without_kernel_stack (r : Thread) : Thread :=
  let st := t_stacks r in
  with_t_stacks (mkStacks (user_stack_top st) (user_stack_backing st) (user_stack_bytes st) (user_stack_slot_index st) None (kernel_stack_top st)) r.

(** The user stack the thread was given, if any. *)
Definition release_user_stack (p t : Z) : K unit :=
  let* r := kthread t in
  let st := t_stacks r in
  match user_stack_backing st with
  | None => kret tt
  | Some backing =>
      if (user_stack_bytes st =? 0) || (user_stack_top st <? user_stack_bytes st) then kret tt else
      kcall (Unmap p (user_stack_top st - user_stack_bytes st) (user_stack_bytes st)) >;
      kcall (ReleaseResource backing) >;
      (if user_stack_slot_index st <? 32
       then set_proc p (fun x => with_user_stack_slot_bitmap (Z.land (user_stack_slot_bitmap x) (u32 (Z.lnot (Z.shiftl 1 (user_stack_slot_index st))))) x)
       else kret tt) >;
      set_thread t with_user_stack_gone
  end.

(** A thread without a process leaves the registries; its blocks go back to the heap. *)
Definition dispose_thread (t : Z) : K unit :=
  on_sched (unlink_thread t) >;
  kset (fun k => if negb (g_thread_count (sched k) =? 0) then with_sched (with_g_thread_count (g_thread_count (sched k) - 1) (sched k)) k else k) >;
  unregister_object (Some t) >;
  let* r := kthread t in
  free_stack (kernel_stack_backing (t_stacks r)) >;
  set_thread t without_kernel_stack >;
  free_thread_slot t.

Definition destroy_thread_with (destroy_process : option Z -> K Status) (thread : option Z) : K Status :=
  let* inside := compute (contains_thread thread) in
  match thread with
  | None => kret StatusNotFound
  | Some t =>
      if negb inside then kret StatusNotFound else
      let* r := kthread t in
      let previous_state := current_state r in
      on_sched (forget thread) >;
      set_thread t (with_current_state Terminated) >;
      lifted (publish_thread_event KernelEventTypeThreadExited t (thread_state_code previous_state) (thread_state_code Terminated)) >;
      let* r := kthread t in
      let parent := t_parent r in
      let* status := match parent with
                     | None => kret StatusOK
                     | Some p => release_user_stack p t >; detach_thread parent thread
                     end in
      if negb (bool_decide (status = StatusOK)) then kret status else
      dispose_thread t >;
      match parent with
      | None => kret StatusOK
      | Some p =>
          let* x := kprocess p in
          if (thread_count x =? 0) && negb (bool_decide (p_state x = ProcessTerminated)) && negb (object_has_flag (flags (p_header x)) FlagPermanent)
          then let* _ := destroy_process parent in kret StatusOK
          else kret StatusOK
      end
  end.

(** ** process.cpp: destruction *)
Definition collect_process_resources (p : Z) : K unit :=
  let* x := kprocess p in
  if object_has_flag (flags (p_header x)) FlagKernel then kret tt else
  kcall (ReleaseSurfaces p) >;
  kcall (ReleaseSharedMemory p) >;
  kcall (ReleaseFileMappings p) >;
  kcall (ReleaseUserHeap p) >;
  kcall (ReleaseLoaderResources p) >;
  kcall (DestroyUserAddressSpace p) >;
  set_proc p (with_handles None).

(** One turn of the loop over the threads. *)
Definition empty_step (destroy_thread : option Z -> K Status) (p : Z) : K (option Status) :=
  let* x := kprocess p in
  match thread_list_head x with
  | None => kret (Some StatusOK)
  | Some t =>
      let* status := destroy_thread (Some t) in
      if negb (bool_decide (status = StatusOK)) then kret (Some status) else kret None
  end.

(** The end of [destroy_process], once the threads are gone. *)
Definition bury_process (p id : Z) : K Status :=
  publish_process_event KernelEventTypeProcessExited p >;
  remember_exit_status p >;
  kchange (orphan_launched_processes id) >;
  kchange (unlink_process p) >;
  kset (fun k => if negb (process_count_value k =? 0) then with_process_count_value (process_count_value k - 1) k else k) >;
  collect_process_resources p >;
  let* x := kprocess p in
  match launch_arguments x with
  | Some a => kcall (HeapFree a) >; set_proc p (with_launch_arguments None)
  | None => kret tt
  end >;
  unregister_object (Some p) >;
  let* x := kprocess p in
  kcall (UnsubscribeOwner (p_id x)) >;
  release_process_slot p >;
  kret StatusOK.

Definition destroy_process_with (destroy_thread : option Z -> K Status) (process : option Z) : K Status :=
  let* inside := compute (contains_process process) in
  match process with
  | None => kret StatusNotFound
  | Some p =>
      if negb inside then kret StatusNotFound else
      let* x := kprocess p in
      let exiting_process_id := p_id x in
      set_proc p (with_p_state ProcessTerminated) >;
      let* fuel := kread (fun k => S (size (threads (sched k)))) in
      let* status := kloop fuel (empty_step destroy_thread p) in
      if negb (bool_decide (status = StatusOK)) then kret status else
      bury_process p exiting_process_id
  end.

(** A thread's last act may be to destroy its process, which has no thread left
    then; a process destroys its threads, none of which destroys it again. *)
Fixpoint destroy_process_upto (depth : nat) (process : option Z) : K Status :=
  match depth with
  | O => fun _ => KUnfinished
  | S depth => destroy_process_with (destroy_thread_with (destroy_process_upto depth)) process
  end.

Definition destroy_process : option Z -> K Status := destroy_process_upto 2.
Definition destroy_thread : option Z -> K Status := destroy_thread_with destroy_process.

Definition terminate_thread (thread_id : Z) : K Status :=
  let* thread := compute (fun k => find_thread thread_id (sched k)) in
  match thread with None => kret StatusNotFound | Some _ => destroy_thread thread end.

Definition terminate_process (id code : Z) : K Status :=
  let* process := compute (find_process id) in
  match process with
  | None => kret StatusNotFound
  | Some p =>
      set_proc p (fun x => with_exit_code code (with_p_state ProcessExiting x)) >;
      destroy_process process
  end.

(** One turn of a walk that destroys: the successor is read before. *)
Definition sweep_step (chosen : Z -> K bool) (cursor : option Z) : K (option (option Z)) :=
  match cursor with
  | None => kret None
  | Some p =>
      let* x := kprocess p in
      let* hit := chosen p in
      (if hit then let* _ := destroy_process (Some p) in kret tt else kret tt) >;
      kret (Some (p_next x))
  end.

Fixpoint sweep (fuel : nat) (chosen : Z -> K bool) (cursor : option Z) : K unit :=
  match fuel with
  | O => fun _ => KUnfinished
  | S fuel => let* next := sweep_step chosen cursor in match next with None => kret tt | Some c => sweep fuel chosen c end
  end.

Definition terminate_process_tree (root_id code exempt_process_id : Z) : K Status :=
  let* root := compute (find_process root_id) in
  match root with
  | None => kret StatusNotFound
  | Some a =>
      let* x := kprocess a in
      if object_has_flag (flags (p_header x)) FlagPermanent then kret StatusBusy else
      let* marked := mark_process_tree_for_exit root_id code in
      if marked =? 0 then kret StatusNotFound else
      let* fuel := kread (fun k => S (size (processes (sched k)))) in
      let* head := kread process_head in
      sweep fuel (fun p =>
        let* inside := compute (process_is_in_tree p root_id) in
        let* x := kprocess p in
        kret (inside && negb (p_id x =? exempt_process_id) && negb (object_has_flag (flags (p_header x)) FlagPermanent))) head >;
      kret StatusOK
  end.

Definition reap_exiting : K Status :=
  let* current := kexec (fun k => '(c, s) <- current_process (sched k) ;; Ok (c, with_sched s k)) in
  let* fuel := kread (fun k => S (size (processes (sched k)))) in
  let* head := kread process_head in
  sweep fuel (fun p =>
    let* x := kprocess p in
    kret (negb (bool_decide (current = Some p)) && bool_decide (p_state x = ProcessExiting) && negb (object_has_flag (flags (p_header x)) FlagPermanent))) head >;
  kret StatusOK.

(** ** object.cpp: destruction through the header *)
Definition destroy_object (o : Z) : K unit :=
  let* h := compute (header_at o) in
  if SchedState.type h =? ObjectTypeProcess then let* _ := destroy_process (Some o) in kret tt else
  if SchedState.type h =? ObjectTypeThread then let* _ := destroy_thread (Some o) in kret tt else
  if SchedState.type h =? ObjectTypeModule then kcall (DestroyModule o) else
  unregister_object (Some o) >;
  kchange (set_header o zero_header).

(** [object_unref]: the count after it, and whether it reached zero. *)
Definition object_unref (h : ObjectHeader) : option (Z * bool) :=
  if ref_count h =? 0 then None else Some (ref_count h - 1, ref_count h - 1 =? 0).

Definition dereference_object (object : option Z) : K Status :=
  match object with
  | None => kret StatusInvalidArgument
  | Some o =>
      let* h := compute (header_at o) in
      if object_has_flag (flags h) FlagPermanent && (ref_count h <=? 1) then kret StatusBusy else
      match object_unref h with
      | None => kret StatusOK
      | Some (n, last) =>
          kchange (set_header o (with_ref_count n h)) >;
          if last then destroy_object o >; kret StatusOK else kret StatusOK
      end
  end.

(** ** scheduler.cpp: the first process and threads *)
Definition with_flags (f : Z) (h : ObjectHeader) : ObjectHeader := mkHeader (SchedState.type h) f (SchedState.object_id h) (ref_count h).
Definition keep_forever (h : ObjectHeader) : ObjectHeader := with_flags (Z.lor (Z.lor (flags h) FlagPermanent) FlagKernel) h.

Definition bootstrap (sp : Z) (pc : Continuation) (idle_thread_main : Z) (process_name thread_name : option (list Z)) : K Status :=
  let* current := kread (fun k => g_current_thread (sched k)) in
  match current with Some _ => kret StatusAlreadyExists | None =>
  let* made := create_process process_name true in
  match made with
  | (StatusOK, Some p) =>
      set_proc p (fun x => with_p_header (keep_forever (p_header x)) x) >;
      set_proc p (with_p_state ProcessRunning) >;
      let* made := adopt_current_thread sp pc (Some p) thread_name true in
      match made with
      | (StatusOK, Some t) =>
          set_thread t (fun r => with_t_header (keep_forever (t_header r)) r) >;
          let* made := create_thread (Some p) (Some text_idle) idle_thread_main true ThreadPriorityIdle ThreadDefaultQuantumTicks in
          match made with
          | (StatusOK, Some i) =>
              set_thread i (fun r => with_t_header (keep_forever (t_header r)) r) >;
              kset (fun k => with_sched (with_g_idle_thread (Some i) (sched k)) k) >;
              lifted (bind_current_thread (Some t))
          | (status, _) => let* _ := destroy_process (Some p) in kret status
          end
      | (status, _) => let* _ := destroy_process (Some p) in kret status
      end
  | (status, _) => kret status
  end end.
