(* ===== verification/LifeInv.v ===== *)
(** The invariant of the kernel's objects, processes and threads, and what one call
    may change while it is out.

    Reasoning about programs over objects, processes and threads.

    [kpost C r Q] is [post] of SchedLogic for these programs: the program is defined,
    its loops end, every call it makes is one the contract [C] allows, and whatever
    the callee does within the contract, the program ends with [Q].  [outside] is the
    contract with the rest of the kernel. *)
From stdpp Require Import base list gmap.
From Stdlib Require Import ZArith Lia.
From S2P Require Import Prelude KernelText DList KernelIface SchedState Scheduler SchedQueues SchedOps SchedInv SchedLogic ThreadRegistry HeapList LifeState Lifecycle.

Local Open Scope Z_scope.

Abbreviation member_dlist := (@dlist Thread member_links).
Abbreviation process_dlist := (@dlist Process process_links).

Lemma dlist_unique {N} `{LinkedLaws N} (m : gmap Z N) hd tl tl' l l' : dlist m hd tl l -> dlist m hd tl' l' -> l = l'.
Proof.
  intros (_ & S1 & E1 & _) (_ & S2 & E2 & _). rewrite E1 in E2. clear E1 hd tl tl'.
  assert (forall pr1 pr2, seg m pr1 l None -> seg m pr2 l' None -> l = l') as Hgo; [|by eapply Hgo].
  clear S1 S2. revert l' E2. induction l as [|a l IH]; intros [|b l'] E pr1 pr2 S1 S2; try done. injection E as <-. cbn in S1, S2.
  destruct S1 as [(n1 & H1 & _ & N1) S1], S2 as [(n2 & H2 & _ & N2) S2]. f_equal. eapply IH; [congruence|done|done].
Qed.

(** The processes in the order of the list. *)
Definition in_order (k : Kern) (ps : list Z) : Prop := process_dlist (processes (sched k)) (process_head k) (process_tail k) ps.

(** ** Blocks of the heap

    The records of a map own the block they are in and the one [f] names. *)
Definition owned_by {N : Type} (f : N -> option Z) (m : gmap Z N) : list Z :=
  map_to_list (f <$> m) ≫= (fun '(a, b) => a :: option_list b).

(** Permutations of concatenations, by counting. *)
Ltac perm := apply (Permutation_count_occ Z.eq_dec); intros ?z;
  repeat first [rewrite count_occ_app | progress cbn [count_occ app]]; repeat destruct (Z.eq_dec _ _); lia.

Lemma owned_same {N} (f : N -> option Z) m m' : f <$> m' = f <$> m -> owned_by f m' = owned_by f m.
Proof. unfold owned_by. by intros ->. Qed.

Lemma owned_by_insert {N} (f : N -> option Z) m a n : m !! a = None -> owned_by f (<[a := n]> m) ≡ₚ a :: option_list (f n) ++ owned_by f m.
Proof.
  intros Ha. unfold owned_by. rewrite fmap_insert, map_to_list_insert by (by rewrite lookup_fmap, Ha). done.
Qed.

Lemma owned_by_delete {N} (f : N -> option Z) m a n : m !! a = Some n -> owned_by f m ≡ₚ a :: option_list (f n) ++ owned_by f (delete a m).
Proof. intros Ha. rewrite <- (insert_delete_id m a n Ha) at 1. apply owned_by_insert, lookup_delete_eq. Qed.

Lemma owned_update {N} (f : N -> option Z) m a n n' :
  m !! a = Some n -> owned_by f (<[a := n']> m) ≡ₚ a :: option_list (f n') ++ owned_by f (delete a m).
Proof. intros Ha. rewrite <- insert_delete_eq. apply owned_by_insert, lookup_delete_eq. Qed.

Lemma owned_in {N} (f : N -> option Z) m b : b ∈ owned_by f m <-> exists a n, m !! a = Some n /\ (b = a \/ f n = Some b).
Proof.
  unfold owned_by. rewrite list_elem_of_bind. split.
  - intros ([a o] & Hb & Hm%elem_of_map_to_list). rewrite lookup_fmap in Hm. destruct (m !! a) as [n|] eqn:Hn; [|done]. injection Hm as <-.
    exists a, n. split; [done|]. apply elem_of_cons in Hb as [->|Hb]; [by left|]. right. destruct (f n) as [c|]; cbn in Hb; [|by apply not_elem_of_nil in Hb].
    apply list_elem_of_singleton in Hb as ->. done.
  - intros (a & n & Hn & Hb). exists (a, f n). split; [|apply elem_of_map_to_list; by rewrite lookup_fmap, Hn].
    destruct Hb as [->|Hb]; [apply list_elem_of_here|]. apply list_elem_of_further. rewrite Hb. apply list_elem_of_here.
Qed.

Definition kernel_stack (r : Thread) : option Z := kernel_stack_backing (t_stacks r).

Definition owned (k : Kern) : list Z :=
  owned_by kernel_stack (threads (sched k)) ++ owned_by launch_arguments (processes (sched k)) ++
  option_list (m_items (g_objects k)) ++ option_list (m_items (exit_records k)).

(** Nothing is owned twice, and what was taken from the heap is what is owned: no block
    is lost. *)
Definition owns (k : Kern) : Prop := NoDup (owned k) /\ forall b, b ∈ owned k <-> b ∈ blocks k.

(** ** The threads of a process *)
Record member_rep (m : gmap Z Thread) (p : Z) (x : Process) (l : list Z) : Prop := {
  mb_list : member_dlist m (thread_list_head x) (thread_list_tail x) l;
  mb_all t : t ∈ l <-> exists r, m !! t = Some r /\ t_parent r = Some p;
  mb_count : thread_count x = len l;
  mb_main : match main_thread x with Some t => t ∈ l | None => l = [] end
}.

(** ** The list of processes *)
Record process_ok (x : Process) (next : Z) : Prop := {
  po_id : 0 < p_id x < next;
  po_launcher : 0 <= parent_process_id x < p_id x;
  po_name : terminated (p_name x)
}.

(** [ps] are the processes in the list; those in [limbo] have a record but are not in it. *)
Record processes_rep (m : gmap Z Process) (hd tl : option Z) (count next : Z) (ps limbo : list Z) : Prop := {
  pr_list : process_dlist m hd tl ps;
  pr_all p : is_Some (m !! p) <-> p ∈ ps \/ p ∈ limbo;
  pr_limbo p : p ∈ limbo -> p ∉ ps;
  pr_count : count = len ps;
  pr_next : 0 < next < 2 ^ 64;
  pr_ok p x : m !! p = Some x -> process_ok x next;
  pr_ids p1 p2 x1 x2 : m !! p1 = Some x1 -> m !! p2 = Some x2 -> p_id x1 = p_id x2 -> p1 = p2;
  pr_space p x : p ∈ ps -> m !! p = Some x -> page_table_root (process_address_space x) <> 0
}.

(** Identifiers of threads. *)
Record tids_rep (m : gmap Z Thread) (count next : Z) (registry : list Z) : Prop := {
  ti_count : count = len registry;
  ti_id t r : m !! t = Some r -> 0 < t_id r < next;
  ti_next : 0 < next < 2 ^ 64
}.

(** Every thread and every process in the list is a registered object. *)
Record objects_rep (h : HeapList Z) (m : gmap Z Thread) (ps : list Z) (objects : list Z) : Prop := {
  ob_holds : holds h objects;
  ob_nodup : NoDup objects;
  ob_threads t : is_Some (m !! t) -> t ∈ objects;
  ob_processes p : p ∈ ps -> p ∈ objects
}.

(** At most one exit record for a process, and none for one in the list. *)
Record records_rep (h : HeapList ProcessExitRecord) (m : gmap Z Process) (ps : list Z) (next : Z) (records : list ProcessExitRecord) : Prop := {
  rc_holds : holds h records;
  rc_nodup : NoDup (er_process_id <$> records);
  rc_dead e p x : e ∈ records -> p ∈ ps -> m !! p = Some x -> p_id x <> er_process_id e;
  rc_old e : e ∈ records -> er_process_id e < next
}.

(** The idle thread belongs to a process that is never destroyed. *)
Definition idle_stays (s : Sched) : Prop :=
  forall i r p x, g_idle_thread s = Some i -> threads s !! i = Some r -> t_parent r = Some p -> processes s !! p = Some x ->
    object_has_flag (flags (p_header x)) FlagPermanent = true.

(** What is registered is there, and the records of other kinds are apart from these. *)
Definition live (k : Kern) (o : Z) : Prop := is_Some (threads (sched k) !! o) \/ is_Some (processes (sched k) !! o) \/ is_Some (other_objects k !! o).

Record registered (k : Kern) : Prop := {
  rg_live l o : holds (g_objects k) l -> o ∈ l -> live k o;
  rg_others o : is_Some (other_objects k !! o) -> o ∉ owned k
}.

Lemma registered_keeps k k' :
  registered k -> (forall o, is_Some (threads (sched k) !! o) -> is_Some (threads (sched k') !! o)) ->
  (forall o, is_Some (processes (sched k) !! o) -> is_Some (processes (sched k') !! o)) ->
  g_objects k' = g_objects k -> other_objects k' = other_objects k -> (forall o, o ∈ owned k' -> o ∈ owned k) -> registered k'.
Proof.
  intros [R1 R2] Ht Hp Eg Eo Hown. split.
  - intros l o Hl Ho. rewrite Eg in Hl. destruct (R1 l o Hl Ho) as [H|[H|H]]; [left; by apply Ht|right; left; by apply Hp|right; right; by rewrite Eo].
  - intros o Ho Hin. rewrite Eo in Ho. by apply (R2 o Ho), Hown.
Qed.

Record kinv (k : Kern) (q : Queues) (ps limbo : list Z) : Prop := {
  ki_sched : inv (sched k) q;
  ki_processes : processes_rep (processes (sched k)) (process_head k) (process_tail k) (process_count_value k) (next_pid k) ps limbo;
  ki_members p x : processes (sched k) !! p = Some x -> exists l, member_rep (threads (sched k)) p x l;
  ki_limbo p t r : p ∈ limbo -> threads (sched k) !! t = Some r -> t_parent r <> Some p;
  ki_tids : tids_rep (threads (sched k)) (g_thread_count (sched k)) (g_next_thread_id (sched k)) (registry q);
  ki_objects : exists objects, objects_rep (g_objects k) (threads (sched k)) ps objects;
  ki_records : exists records, records_rep (exit_records k) (processes (sched k)) ps (next_pid k) records;
  ki_idle : idle_stays (sched k);
  ki_owns : owns k;
  ki_registered : registered k
}.

(** ** What a call may change

    [departs gone]: as [grows], with the threads in [gone] left out of account. *)
Record departs (gone : list Z) (s : Sched) (q : Queues) (s' : Sched) (q' : Queues) : Prop := {
  de_current : g_current_thread s' = g_current_thread s;
  de_idle : g_idle_thread s' = g_idle_thread s;
  de_tick : g_tick_count s' = g_tick_count s;
  de_interrupts : interrupts s' = interrupts s;
  de_space : current_address_space s' = current_address_space s;
  de_retired : exists dead, retired q = dead ++ retired q' /\ forall c, g_current_thread s = Some c -> c ∉ dead;
  de_thread t r : threads s !! t = Some r -> t ∉ gone -> (t ∈ retired q -> t ∈ retired q') ->
    exists r', threads s' !! t = Some r' /\ thread_grows s t r r';
  de_dead t : t ∈ retired q -> t ∉ retired q' -> threads s' !! t = None;
  de_old t : is_Some (threads s' !! t) -> is_Some (threads s !! t);
  de_ready p l : ready q !! p = Some l -> exists new, ready q' !! p = Some (filter (fun t => t ∉ gone) l ++ new);
  de_sleep : sublist (sleepers q') (sleepers q);
  de_left t : t ∈ sleepers q -> t ∉ gone ->
    t ∈ sleepers q' \/ exists r', threads s' !! t = Some r' /\ current_state r' = Ready /\ in_ready_queue r' = true;
  de_process p x' : processes s' !! p = Some x' ->
    exists x, processes s !! p = Some x /\ p_id x' = p_id x /\ process_address_space x' = process_address_space x
}.

(** What does not change of a process that stays. *)
Definition lasting (x : Process) := (p_header x, p_id x, p_name x, process_address_space x, launch_arguments x, exit_code x).
Definition lasts (x x' : Process) : Prop :=
  lasting x' = lasting x /\
  (p_state x' = p_state x \/ (p_state x <> ProcessExiting /\ p_state x <> ProcessTerminated /\ p_state x' = ProcessRunning)).

(** A process stays if it is being destroyed by its own call or is permanent, had no
    threads, or keeps one. *)
Definition spared (k k' : Kern) (p : Z) (x : Process) : Prop :=
  p_state x = ProcessTerminated \/ object_has_flag (flags (p_header x)) FlagPermanent = true \/
  (forall t r, threads (sched k) !! t = Some r -> t_parent r <> Some p) \/
  (exists t r, threads (sched k) !! t = Some r /\ t_parent r = Some p /\ is_Some (threads (sched k') !! t)).

(** The launcher is forgotten only when it is gone. *)
Definition launched (k k' : Kern) (x x' : Process) : Prop :=
  parent_process_id x' = parent_process_id x \/
  (parent_process_id x' = 0 /\ exists p0 x0, processes (sched k) !! p0 = Some x0 /\ p_id x0 = parent_process_id x /\ processes (sched k') !! p0 = None).

Record kgrows (gone pgone : list Z) (k : Kern) (q : Queues) (k' : Kern) (q' : Queues) : Prop := {
  kg_sched : departs gone (sched k) q (sched k') q';
  kg_process p x : processes (sched k) !! p = Some x -> p ∉ pgone -> spared k k' p x ->
    exists x', processes (sched k') !! p = Some x' /\ lasts x x';
  kg_launcher p x x' : processes (sched k) !! p = Some x -> processes (sched k') !! p = Some x' -> launched k k' x x';
  kg_next : next_pid k' = next_pid k /\ g_next_thread_id (sched k') = g_next_thread_id (sched k);
  kg_records l : holds (exit_records k) l -> exists new, holds (exit_records k') (l ++ new);
  kg_order ps ps' : in_order k ps -> in_order k' ps' -> sublist ps' ps
}.

(** The part of the invariant that composing changes needs. *)
Definition sound (k : Kern) (q : Queues) : Prop := inv (sched k) q /\ exists ps, in_order k ps.

Lemma kinv_sound k q ps limbo : kinv k q ps limbo -> sound k q.
Proof. intros Hk. split; [apply Hk|]. exists ps. apply Hk. Qed.

Lemma order_unique k ps ps' : in_order k ps -> in_order k ps' -> ps' = ps.
Proof. intros H1 H2. by eapply (dlist_unique (H := process_links)). Qed.

(** Links that are the same give the same list. *)
Lemma order_same k k' :
  process_head k' = process_head k -> process_tail k' = process_tail k ->
  (forall p x, processes (sched k) !! p = Some x -> exists x', processes (sched k') !! p = Some x' /\ p_next x' = p_next x /\ p_prev x' = p_prev x) ->
  forall ps ps', in_order k ps -> in_order k' ps' -> sublist ps' ps.
Proof.
  intros E1 E2 Hm ps ps' H H'. rewrite (order_unique k' ps ps'); [done| |done]. unfold in_order. rewrite E1, E2. eapply (dlist_ext (H := process_links)); [|exact H].
  intros p x _ Hx. destruct (Hm p x Hx) as (x' & Hx' & A & B). by exists x'.
Qed.

(** ** Composing changes *)
Lemma departs_refl s q : departs [] s q s q.
Proof.
  split; try done.
  - by exists []; split; [|intros c _; apply not_elem_of_nil].
  - intros t r Hr _ _. exists r. split; [done|]. by left.
  - intros p l Hl. exists []. rewrite app_nil_r, list_filter_all; [done|]. apply Forall_forall. intros t _. apply not_elem_of_nil.
  - by left.
  - eauto.
Qed.

Lemma thread_grows_parent s t r r' : thread_grows s t r r' -> t_parent r' = t_parent r.
Proof. intros [[E _]|(_ & _ & W)]; [apply (still_fields _ _ E)|apply (woken_fields _ _ W)]. Qed.

(** A thread that is still there is one of before. *)
Lemma departs_back gone s q s' q' t r' :
  departs gone s q s' q' -> threads s' !! t = Some r' -> t ∉ gone -> exists r, threads s !! t = Some r /\ thread_grows s t r r'.
Proof.
  intros H Hr' Hg. destruct (de_old _ _ _ _ _ H t ltac:(eauto)) as [r Hr]. exists r. split; [done|].
  destruct (de_thread _ _ _ _ _ H t r Hr Hg) as (r2 & Hr2 & G); [|congruence].
  intros Hin. destruct (decide (t ∈ retired q')); [done|]. rewrite (de_dead _ _ _ _ _ H t Hin) in Hr' by done. done.
Qed.

Lemma filter_filter_not (g1 g2 l : list Z) : filter (fun t => t ∉ g2) (filter (fun t => t ∉ g1) l) = filter (fun t => t ∉ g1 ++ g2) l.
Proof.
  induction l as [|x l IH]; [done|]. destruct (decide (x ∉ g1)).
  - rewrite (filter_cons_True _ x) by done. destruct (decide (x ∉ g2)).
    + rewrite !filter_cons_True by set_solver. by rewrite IH.
    + rewrite !filter_cons_False by set_solver. done.
  - rewrite !filter_cons_False by set_solver. done.
Qed.

Lemma departs_trans g1 g2 s1 q1 s2 q2 s3 q3 :
  inv s2 q2 -> departs g1 s1 q1 s2 q2 -> departs g2 s2 q2 s3 q3 -> departs (g1 ++ g2) s1 q1 s3 q3.
Proof.
  intros Hinv2 A B. pose proof A as [A1 A2 A3 A4 A5 (d1 & A6 & A6') A7 AD A8 A9 A10 AL A11]. pose proof B as [B1 B2 B3 B4 B5 (d2 & B6 & B6') B7 BD B8 B9 B10 BL B11].
  split; try congruence.
  - exists (d1 ++ d2). rewrite A6, B6, app_assoc. split; [done|]. intros c Hc [Hd|Hd]%elem_of_app; [by apply (A6' c Hc)|]. apply (B6' c); [congruence|done].
  - intros t r Hr [Hg1 Hg2]%not_elem_of_app Hre. destruct (A7 t r Hr Hg1) as (r2 & Hr2 & G12).
    { intros Hin. rewrite B6. apply elem_of_app. right. by apply Hre. }
    destruct (B7 t r2 Hr2 Hg2) as (r3 & Hr3 & G23).
    { intros Hin. apply Hre. rewrite A6. apply elem_of_app. by right. }
    exists r3. split; [done|]. by eapply thread_grows_trans.
  - intros t H1 H3. destruct (decide (t ∈ retired q2)) as [H2|H2]; [by apply BD|].
    destruct (threads s3 !! t) eqn:E3; [|done]. destruct (B8 t ltac:(eauto)) as [r2 Hr2]. by rewrite AD in Hr2.
  - intros t Ht. by apply A8, B8.
  - intros p l Hl. destruct (A9 p l Hl) as (n1 & Hn1). destruct (B9 p _ Hn1) as (n2 & Hn2). exists (filter (fun t => t ∉ g2) n1 ++ n2).
    by rewrite app_assoc, Hn2, filter_app, filter_filter_not.
  - by etransitivity.
  - intros t Ht [Hg1 Hg2]%not_elem_of_app. destruct (AL t Ht Hg1) as [Ht2|(r2 & Hr2 & S2 & F2)]; [by apply BL|]. right.
    destruct (B7 t r2 Hr2 Hg2) as (r3 & Hr3 & G).
    { intros Hin. pose proof (re_ended _ _ _ _ (inv_retired _ _ Hinv2) t r2 Hin Hr2). congruence. }
    exists r3. split; [done|]. by eapply thread_grows_ready.
  - intros p x3 H3. destruct (B11 p x3 H3) as (x2 & H2 & E1 & E2). destruct (A11 p x2 H2) as (x & H1 & E3 & E4). exists x. split_and!; congruence.
Qed.

Lemma departs_set g g' s q s' q' : (forall t, t ∈ g <-> t ∈ g') -> departs g s q s' q' -> departs g' s q s' q'.
Proof.
  intros E [D1 D2 D3 D4 D5 D6 D7 D8 D9 D10 D11 D12 D13]. split; try done.
  - intros t r Hr Hg. apply D7; [done|]. by rewrite E.
  - intros p l Hl. destruct (D10 p l Hl) as [new Hn]. exists new. rewrite Hn. do 2 f_equal. apply list_filter_iff. intros t. by rewrite E.
  - intros t Ht Hg. apply D12; [done|]. by rewrite E.
Qed.

(** The change the scheduler's contract speaks of. *)
Lemma grows_departs gone s q s' q' : grows gone s q s' q' -> (forall t p l, t ∈ gone -> ready q !! p = Some l -> t ∉ l) -> departs gone s q s' q'.
Proof.
  intros [D1 D2 D3 D4 D5 D6 D7 D8 D9 D10 D11 D12 D13] Hr. split; try done.
  - intros t H1 H2. apply D8. by right.
  - intros p l Hl. destruct (D10 p l Hl) as [new Hn]. exists new. rewrite list_filter_all; [done|]. apply Forall_forall. intros t Ht Hg. by eapply Hr.
  - intros t Ht _. by apply D12.
Qed.

Lemma departs_grows gone s q s' q' :
  departs gone s q s' q' -> (forall t, t ∈ gone -> threads s' !! t = None) ->
  (forall t p l, t ∈ gone -> ready q !! p = Some l -> t ∉ l) -> (forall t, t ∈ gone -> t ∉ sleepers q) -> grows gone s q s' q'.
Proof.
  intros [D1 D2 D3 D4 D5 D6 D7 D8 D9 D10 D11 D12 D13] Hg Hr Hs. split; try done.
  - intros t [Ht|[H1 H2]]; [by apply Hg|by apply D8].
  - intros p l Hl. destruct (D10 p l Hl) as [new Hn]. exists new. rewrite list_filter_all in Hn; [done|]. apply Forall_forall. intros t Ht Hin. by eapply Hr.
  - intros t Ht. apply D12; [done|]. intros Hin. by apply (Hs t).
Qed.

Lemma lasts_refl x : lasts x x.
Proof. split; [done|by left]. Qed.

Lemma lasts_trans x1 x2 x3 : lasts x1 x2 -> lasts x2 x3 -> lasts x1 x3.
Proof.
  intros [E1 S1] [E2 S2]. split; [congruence|]. destruct S1 as [S1|(A1 & A2 & A3)], S2 as [S2|(B1 & B2 & B3)].
  - left. congruence.
  - right. rewrite S1 in *. done.
  - right. split_and!; [done|done|]. congruence.
  - right. done.
Qed.

Lemma lasts_fields x x' : lasts x x' ->
  p_header x' = p_header x /\ p_id x' = p_id x /\ p_name x' = p_name x /\ process_address_space x' = process_address_space x /\
  launch_arguments x' = launch_arguments x /\ exit_code x' = exit_code x.
Proof. intros [E _]. unfold lasting in E. injection E. intros. done. Qed.

Lemma lasts_terminated x x' : lasts x x' -> p_state x = ProcessTerminated -> p_state x' = ProcessTerminated.
Proof. intros [_ [E|(_ & H & _)]] Hx; congruence. Qed.

Lemma kgrows_refl k q : kgrows [] [] k q k q.
Proof.
  split; [apply departs_refl| | |done| |].
  - intros p x Hx _ _. exists x. split; [done|apply lasts_refl].
  - intros p x x' Hx Hx'. left. congruence.
  - intros l Hl. exists []. by rewrite app_nil_r.
  - intros ps ps' H H'. by rewrite (order_unique k ps ps').
Qed.

(** Threads in [gone] that are still there belong to the process they belonged to, or
    to none before they go. *)
Definition parents_kept (gone : list Z) (k1 k2 k3 : Kern) : Prop :=
  forall t r r', t ∈ gone -> threads (sched k1) !! t = Some r -> threads (sched k2) !! t = Some r' ->
    t_parent r' = t_parent r \/ (t_parent r' = None /\ threads (sched k3) !! t = None).

Lemma spared_split g1 pg1 g2 k1 q1 k2 q2 k3 q3 p x1 x2 :
  kgrows g1 pg1 k1 q1 k2 q2 -> departs g2 (sched k2) q2 (sched k3) q3 -> parents_kept g1 k1 k2 k3 -> spared k1 k3 p x1 -> lasts x1 x2 -> spared k2 k3 p x2.
Proof.
  intros G D Hg Hsp Hl. destruct (lasts_fields _ _ Hl) as (Eh & _).
  assert (forall t r r', threads (sched k1) !! t = Some r -> threads (sched k2) !! t = Some r' ->
    t_parent r' = t_parent r \/ (t_parent r' = None /\ threads (sched k3) !! t = None)) as Hpar.
  { intros t r r' Hr Hr'. destruct (decide (t ∈ g1)) as [Hin|Hn]; [by eapply Hg|]. left.
    destruct (departs_back _ _ _ _ _ t r' (kg_sched _ _ _ _ _ _ G) Hr' Hn) as (r0 & Hr0 & Gr). rewrite Hr in Hr0. injection Hr0 as <-. by eapply thread_grows_parent. }
  destruct Hsp as [H1|[H2|[H3|(t & r & Hr & Hp & Ht)]]].
  - left. by eapply lasts_terminated.
  - right. left. by rewrite Eh.
  - right. right. left. intros t r2 Hr2 Hp. destruct (de_old _ _ _ _ _ (kg_sched _ _ _ _ _ _ G) t ltac:(eauto)) as [r Hr].
    apply (H3 t r Hr). destruct (Hpar t r r2 Hr Hr2) as [<-|[E _]]; congruence.
  - right. right. right. destruct (de_old _ _ _ _ _ D t Ht) as [r2 Hr2]. exists t, r2. split_and!; [done| |done].
    destruct (Hpar t r r2 Hr Hr2) as [->|[_ E]]; [done|]. rewrite E in Ht. by destruct Ht.
Qed.

Lemma spared_before g k1 k2 k3 q2 q3 p x1 : departs g (sched k2) q2 (sched k3) q3 -> spared k1 k3 p x1 -> spared k1 k2 p x1.
Proof.
  intros D [H1|[H2|[H3|(t & r & Hr & Hp & Ht)]]]; [by left|by right; left|by right; right; left|].
  right. right. right. exists t, r. split_and!; [done|done|]. by apply (de_old _ _ _ _ _ D).
Qed.

Lemma departs_gone gone s q s' q' p : departs gone s q s' q' -> processes s !! p = None -> processes s' !! p = None.
Proof. intros D Hn. destruct (processes s' !! p) as [x|] eqn:E; [|done]. destruct (de_process _ _ _ _ _ D p x E) as (? & ? & _). congruence. Qed.

Lemma launched_trans g1 g2 k1 q1 k2 q2 k3 q3 x1 x2 x3 :
  departs g1 (sched k1) q1 (sched k2) q2 -> departs g2 (sched k2) q2 (sched k3) q3 -> launched k1 k2 x1 x2 -> launched k2 k3 x2 x3 -> launched k1 k3 x1 x3.
Proof.
  intros DA DB L1 L2. destruct L1 as [L1|(L1 & p0 & x0 & H1 & H2 & H3)].
  - destruct L2 as [L2|(L2 & p0 & x0 & H1 & H2 & H3)]; [left; congruence|]. right. split; [done|].
    destruct (de_process _ _ _ _ _ DA p0 x0 H1) as (x00 & H0 & E0 & _). exists p0, x00. split_and!; [done|congruence|done].
  - right. split; [destruct L2 as [L2|[L2 _]]; congruence|]. exists p0, x0. split_and!; [done|done|]. by eapply departs_gone.
Qed.

Lemma kgrows_trans g1 pg1 g2 pg2 k1 q1 k2 q2 k3 q3 :
  sound k2 q2 -> parents_kept g1 k1 k2 k3 -> kgrows g1 pg1 k1 q1 k2 q2 -> kgrows g2 pg2 k2 q2 k3 q3 -> kgrows (g1 ++ g2) (pg1 ++ pg2) k1 q1 k3 q3.
Proof.
  intros [Hinv [ps2 Ho2]] Hpk A B. pose proof (kg_sched _ _ _ _ _ _ A) as DA. pose proof (kg_sched _ _ _ _ _ _ B) as DB. split.
  - by eapply departs_trans.
  - intros p x Hx [Hp1 Hp2]%not_elem_of_app Hsp.
    destruct (kg_process _ _ _ _ _ _ A p x Hx Hp1) as (x2 & Hx2 & L1); [by eapply spared_before|].
    destruct (kg_process _ _ _ _ _ _ B p x2 Hx2 Hp2) as (x3 & Hx3 & L2); [by eapply spared_split|]. exists x3. split; [done|]. by eapply lasts_trans.
  - intros p x x3 Hx Hx3. destruct (de_process _ _ _ _ _ DB p x3 Hx3) as (x2 & Hx2 & _). eapply launched_trans; [done|done| |].
    + exact (kg_launcher _ _ _ _ _ _ A p x x2 Hx Hx2).
    + exact (kg_launcher _ _ _ _ _ _ B p x2 x3 Hx2 Hx3).
  - destruct (kg_next _ _ _ _ _ _ A), (kg_next _ _ _ _ _ _ B). split; congruence.
  - intros l Hl. destruct (kg_records _ _ _ _ _ _ A l Hl) as [n1 H1]. destruct (kg_records _ _ _ _ _ _ B _ H1) as [n2 H2].
    exists (n1 ++ n2). by rewrite app_assoc.
  - intros ps ps' H H'. etransitivity; [by eapply (kg_order _ _ _ _ _ _ B)|by eapply (kg_order _ _ _ _ _ _ A)].
Qed.

Lemma kgrows_set g g' pg pg' k q k' q' :
  (forall t, t ∈ g <-> t ∈ g') -> (forall p, p ∈ pg -> p ∈ pg') -> kgrows g pg k q k' q' -> kgrows g' pg' k q k' q'.
Proof.
  intros E P [G1 G2 G3 G4 G5 G6]. split; [by eapply departs_set| |done..]. intros p x Hx Hn. apply G2; [done|]. intros Hin. by apply Hn, P.
Qed.

Record Outer : Type := mkOuter {
  k_ask : OutsideCall -> Kern -> Prop;
  k_reply : forall c, Kern -> reply_of c -> Kern -> Prop
}.

Fixpoint kpost {A : Type} (C : Outer) (r : KRun A) (Q : A -> Kern -> Prop) : Prop :=
  match r with
  | KDone a k => Q a k
  | KUndefined | KUnfinished => False
  | KCall c k resume => k_ask C c k /\ forall x k', k_reply C c k x k' -> kpost C (resume x k') Q
  end.

Lemma kpost_mono {A} C (r : KRun A) (P Q : A -> Kern -> Prop) : (forall a k, P a k -> Q a k) -> kpost C r P -> kpost C r Q.
Proof. intros HPQ. induction r as [a k| | |c k resume IH]; cbn [kpost]; [by apply HPQ|done..|]. intros [Ha Hr]. split; [done|]. intros x k' Hx. by apply IH, Hr. Qed.

Lemma kpost_bind {A B} C (r : KRun A) (f : A -> Kern -> KRun B) Q : kpost C r (fun a k => kpost C (f a k) Q) -> kpost C (krun_bind r f) Q.
Proof. induction r as [a k| | |c k resume IH]; cbn [kpost krun_bind]; [done..|]. intros [Ha Hr]. split; [done|]. intros x k' Hx. by apply IH, Hr. Qed.

Lemma kpost_seq {A B} C (m : K A) (f : A -> K B) k P Q :
  kpost C (m k) P -> (forall a k', P a k' -> kpost C (f a k') Q) -> kpost C (kseq m f k) Q.
Proof. intros Hm Hf. unfold kseq. apply kpost_bind. by eapply kpost_mono. Qed.

(** A run under a handler that keeps the contract. *)
Lemma kpost_served {A} C (h : Outside) (r : KRun A) Q :
  (forall c k, k_ask C c k -> exists x k', h c k = Ok (x, k') /\ k_reply C c k x k') ->
  kpost C r Q -> exists a k, served h r = Ok (a, k) /\ Q a k.
Proof.
  intros Hh. induction r as [a k| | |c k resume IH]; cbn [kpost served]; [by eauto|done..|]. intros [Ha Hr].
  destruct (Hh c k Ha) as (x & k' & -> & Hx). rewrite bind_ok. by apply IH, Hr.
Qed.

(** ** Steps without calls *)
Lemma kassoc_run {A B D} C (r : KRun A) (f : A -> Kern -> KRun B) (g : B -> Kern -> KRun D) Q :
  kpost C (krun_bind r (fun a k => krun_bind (f a k) g)) Q -> kpost C (krun_bind (krun_bind r f) g) Q.
Proof. induction r as [a k| | |c k resume IH]; cbn [kpost krun_bind]; [done..|]. intros [Ha Hr]. split; [done|]. intros x k' Hx. by apply IH, Hr. Qed.

Lemma kassoc {A B D} C (m : K A) (f : A -> K B) (g : B -> K D) k Q :
  kpost C (kseq m (fun a => kseq (f a) g) k) Q -> kpost C (kseq (kseq m f) g k) Q.
Proof. unfold kseq. apply kassoc_run. Qed.

Lemma kseq_done {A B} (m : K A) (f : A -> K B) k a k' : m k = KDone a k' -> kseq m f k = f a k'.
Proof. intros Hm. unfold kseq. by rewrite Hm. Qed.
Lemma kseq_ret {A B} (a : A) (f : A -> K B) k : kseq (kret a) f k = f a k.
Proof. done. Qed.
Lemma kseq_read {A B} (g : Kern -> A) (f : A -> K B) k : kseq (kread g) f k = f (g k) k.
Proof. done. Qed.
Lemma kseq_set {B} g (f : unit -> K B) k : kseq (kset g) f k = f tt (g k).
Proof. done. Qed.
Lemma kseq_exec {A B} g (f : A -> K B) k a k' : g k = Ok (a, k') -> kseq (kexec g) f k = f a k'.
Proof. intros Hg. unfold kseq, kexec. by rewrite Hg. Qed.
Lemma kseq_compute {A B} g (f : A -> K B) k a : g k = Ok a -> kseq (compute g) f k = f a k.
Proof. intros Hg. unfold compute. apply kseq_exec. by rewrite Hg. Qed.
Lemma kseq_change {B} g (f : unit -> K B) k k' : g k = Ok k' -> kseq (kchange g) f k = f tt k'.
Proof. intros Hg. unfold kchange. apply kseq_exec. by rewrite Hg. Qed.
Lemma kseq_sched {B} g (f : unit -> K B) k s : g (sched k) = Ok s -> kseq (on_sched g) f k = f tt (with_sched s k).
Proof. intros Hg. unfold on_sched. apply kseq_change. by rewrite Hg. Qed.
Lemma kseq_thread {B} t r (f : Thread -> K B) k : threads (sched k) !! t = Some r -> kseq (kthread t) f k = f r k.
Proof. intros Hr. apply kseq_compute. by apply thread_get_ok. Qed.
Lemma kseq_process {B} p x (f : Process -> K B) k : processes (sched k) !! p = Some x -> kseq (kprocess p) f k = f x k.
Proof. intros Hx. apply kseq_compute. unfold get_process. by rewrite Hx. Qed.
Lemma kseq_set_thread {B} t r g (f : unit -> K B) k :
  threads (sched k) !! t = Some r -> kseq (set_thread t g) f k = f tt (with_sched (with_threads (<[t := g r]> (threads (sched k))) (sched k)) k).
Proof. intros Hr. apply kseq_sched. by apply thread_set_ok. Qed.
Lemma kseq_set_proc {B} p x g (f : unit -> K B) k :
  processes (sched k) !! p = Some x -> kseq (set_proc p g) f k = f tt (with_sched (with_processes (<[p := g x]> (processes (sched k))) (sched k)) k).
Proof. intros Hx. apply kseq_sched. unfold set_process, get_process. by rewrite Hx. Qed.

Lemma kpost_call {B} C c (f : reply_of c -> K B) k Q :
  k_ask C c k -> (forall x k', k_reply C c k x k' -> kpost C (f x k') Q) -> kpost C (kseq (kcall c) f k) Q.
Proof. intros Ha Hf. unfold kseq, kcall. cbn. split; [done|]. intros x k' Hx. by apply Hf. Qed.

Lemma kpost_ret {A} C (a : A) k Q : Q a k -> kpost C (kret a k) Q.
Proof. done. Qed.

(** A loop whose measure goes down on every turn that does not leave. *)
Lemma kpost_loop {A} C (step : K (option A)) (I : Kern -> Prop) (measure : Kern -> nat -> Prop) Q fuel n k :
  (forall k n, I k -> measure k n -> kpost C (step k) (fun r k' => match r with
      | Some a => Q a k'
      | None => I k' /\ exists n', (n' < n)%nat /\ measure k' n' end)) ->
  I k -> measure k n -> (n < fuel)%nat -> kpost C (kloop fuel step k) Q.
Proof.
  intros Hstep. revert n k. induction fuel as [|fuel IH]; intros n k HI Hm Hn; [lia|]. cbn [kloop].
  eapply kpost_seq; [by eapply Hstep|]. intros [a|] k' Hr; [by apply kpost_ret|]. destruct Hr as (HI' & n' & Hn' & Hm').
  eapply IH; [done|done|lia].
Qed.

(** ** The contract *)

(** All of a process but what other parts of the kernel keep in it. *)
Definition kept (x : Process) :=
  (p_header x, p_id x, p_name x, launch_arguments x, p_state x, parent_process_id x, main_thread x,
   (thread_list_head x, thread_list_tail x, thread_count x, exit_code x, p_next x, p_prev x)).

(** Only those parts of the process [who] and objects of other kinds change. *)
Record frames (who : option Z) (k k' : Kern) : Prop := {
  fr_sched : exists m, sched k' = with_processes m (sched k) /\ dom m = dom (processes (sched k)) /\
    forall p x, processes (sched k) !! p = Some x -> exists x', m !! p = Some x' /\ (who <> Some p -> x' = x) /\ kept x' = kept x;
  fr_vars : process_head k' = process_head k /\ process_tail k' = process_tail k /\ process_count_value k' = process_count_value k /\
    next_pid k' = next_pid k /\ exit_records k' = exit_records k;
  fr_objects l : holds (g_objects k) l -> NoDup l -> exists l', holds (g_objects k') l' /\ NoDup l' /\
    (forall o, o ∈ l -> is_Some (threads (sched k) !! o) \/ is_Some (processes (sched k) !! o) -> o ∈ l') /\
    (forall o, o ∈ l' -> (o ∈ l /\ (is_Some (threads (sched k) !! o) \/ is_Some (processes (sched k) !! o))) \/ is_Some (other_objects k' !! o));
  fr_items : m_items (g_objects k') = m_items (g_objects k);
  fr_blocks : blocks k' = blocks k;
  fr_others o : is_Some (other_objects k' !! o) -> o ∉ owned k
}.

(** A report may wake threads, and have threads that ended destroyed.  Dropping the
    subscriptions of a process wakes nobody: it is asked for when no thread of the
    process is left ([UnsubscribeOwner] below), and only a thread of the owner waits on
    a subscription (service_call.cpp asks for the current process).  Where a thread was
    destroyed while it waited, the code wakes the freed record all the same: the
    contract does not cover that. *)
Definition kevolves (k k' : Kern) : Prop :=
  forall q ps, kinv k q ps [] -> exists q' ps', kinv k' q' ps' [] /\ kgrows [] [] k q k' q'.

Definition block_set (b : option Z) : gset Z := match b with Some a => {[a]} | None => ∅ end.

Definition outside : Outer := {|
  k_ask c k :=
    match c with
    | FromScheduler (Report (PublishThreadEvent _ t _ _ _)) => (exists q ps, kinv k q ps []) /\ terminated (thread_name t)
    | FromScheduler _ => False
    | PublishProcessEvent _ _ name _ _ _ _ _ => (exists q ps, kinv k q ps []) /\ terminated name
    | HeapRealloc (Some b) _ => b ∈ blocks k
    | HeapFree b => b ∈ blocks k
    | HeapAlloc _ _ | HeapRealloc None _ | BootstrapAddressSpace => True
    | CreateUserAddressSpace p | DestroyUserAddressSpace p | ReleaseSurfaces p | ReleaseSharedMemory p | ReleaseFileMappings p
    | ReleaseUserHeap p | ReleaseLoaderResources p => exists q ps, kinv k q ps [p]
    | UnsubscribeOwner id => exists q ps p x, kinv k q ps [p] /\ processes (sched k) !! p = Some x /\ p_id x = id
    | Unmap _ _ _ | ReleaseResource _ | DestroyModule _ => exists q ps limbo, kinv k q ps limbo
    end;
  k_reply c :=
    match c with
    | FromScheduler _ => fun k _ k' => kevolves k k'
    | PublishProcessEvent _ _ _ _ _ _ _ _ => fun k _ k' => kevolves k k'
    | HeapAlloc _ _ => fun k x k' =>
        match x with None => k' = k | Some a => a ∉ blocks k /\ other_objects k !! a = None /\ k' = with_blocks ({[a]} ∪ blocks k) k end
    | HeapRealloc old bytes => fun k x k' =>
        match x with
        | None => k' = k
        | Some a => a ∉ blocks k ∖ block_set old /\ other_objects k !! a = None /\ bytes < 2 ^ 48 /\ k' = with_blocks ({[a]} ∪ blocks k ∖ block_set old) k
        end
    | HeapFree b => fun k _ k' => k' = with_blocks (blocks k ∖ {[b]}) k
    | BootstrapAddressSpace => fun k x k' => k' = k /\ exists a, x = Some a /\ page_table_root a <> 0
    | CreateUserAddressSpace p => fun k x k' => frames (Some p) k k' /\
        (x = StatusOK -> exists y, processes (sched k') !! p = Some y /\ page_table_root (process_address_space y) <> 0)
    | DestroyUserAddressSpace p | ReleaseSurfaces p | ReleaseSharedMemory p | ReleaseFileMappings p
    | ReleaseUserHeap p | ReleaseLoaderResources p => fun k _ k' => frames (Some p) k k'
    | Unmap _ _ _ | ReleaseResource _ | UnsubscribeOwner _ | DestroyModule _ => fun k _ k' => frames None k k'
    end
|}.
