(* ===== verification/LifeChanges.v ===== *)
(** Names, the growable arrays in the kernel's variables, and searches through the
    lists of processes and threads.

    Threads joining and leaving the registry and their process.

    How the invariant is kept when a thread is registered, attached to a process,
    detached from it and removed. *)
From stdpp Require Import base list gmap.
From Stdlib Require Import ZArith Lia.
From S2P Require Import Prelude KernelText DList KernelIface SchedState Scheduler SchedQueues SchedOps SchedInv SchedLogic ThreadRegistry HeapList LifeState Lifecycle LifeInv.

Local Open Scope Z_scope.

(** ** Names *)
Lemma copy_name_loop capacity (s rest dst : list Z) (i fuel : nat) :
  0 ∉ s -> len s < 2 ^ 64 - 1 -> (i <= length s)%nat ->
  iterate fuel (copy_name_step capacity (s ++ 0 :: rest)) (dst, Z.of_nat i) = iterate fuel (copy_text_step capacity (s ++ 0 :: rest)) (dst, Z.of_nat i).
Proof.
  intros Hs Hl. revert dst i. induction fuel as [|fuel IH]; intros dst i Hi; [done|]. cbn [iterate]. unfold copy_name_step at 1, copy_text_step at 1.
  destruct (decide (i = length s)) as [->|Hne].
  - rewrite (aget_ok _ _ 0); [|lia|]; [|by rewrite Nat2Z.id, lookup_app_r, Nat.sub_diag by lia]. rewrite bind_ok. cbn iota beta.
    by destruct (negb _).
  - destruct (lookup_lt_is_Some_2 s i) as [c Hci]; [lia|].
    assert (c <> 0) as Hc0 by (intros ->; by apply Hs; eapply list_elem_of_lookup_2).
    rewrite (aget_ok _ _ c); [|lia|]; [|by rewrite Nat2Z.id, lookup_app_l by lia]. rewrite !bind_ok. destruct (Z.eqb_spec c 0); [done|].
    destruct (negb _); [done|]. destruct (aset dst (Z.of_nat i) c) as [d| | |]; try done. rewrite !bind_ok.
    rewrite u64_small by lia. replace (Z.of_nat i + 1) with (Z.of_nat (S i)) by lia. apply IH. lia.
Qed.

(** The name that is stored: the given one, or the other one where it is empty. *)
Definition chosen_name (source : option (list Z)) (fallback : list Z) : list Z :=
  match text_of source with [] => c_text fallback | s => s end.

Definition short_text (source : option (list Z)) : Prop := source_ok source /\ len (text_of source) < 2 ^ 64 - 1.

Lemma copy_name_ok source fallback :
  short_text source -> short_text (Some fallback) ->
  exists d, copy_name (replicate 32 0) 32 source fallback = Ok d /\ terminated d /\ c_text d = take 31 (chosen_name source fallback).
Proof.
  intros [Hs1 Hs2] [Hf1 Hf2]. unfold copy_name.
  assert (exists active, match source with None => Ok fallback | Some text => c <- aget text 0 ;; Ok (if negb (c =? 0) then text else fallback) end = Ok active /\
            short_text (Some active) /\ c_text active = chosen_name source fallback) as (active & -> & [Ha1 Ha2] & Hact).
  { destruct source as [text|]; [|by exists fallback]. cbn in Hs1, Hs2. destruct text as [|c text]; [by apply not_elem_of_nil in Hs1|].
    change (aget (c :: text) 0) with (@Ok Z c). rewrite bind_ok. unfold chosen_name. cbn [text_of c_text].
    destruct (Z.eqb_spec c 0) as [->|Hc]; cbn [negb]; [by exists fallback|]. exists (c :: text). split_and!; [done| |].
    - split; [done|]. exact Hs2.
    - cbn [c_text]. by destruct (Z.eqb_spec c 0). }
  rewrite bind_ok. cbn [text_of source_ok] in *. destruct (terminated_split active Ha1) as [rest Hr].
  destruct (copy_text_ok (replicate 32 0) 32 (Some active)) as (d & Hrun & _ & Hd & Ht); [by vm_compute|lia|done|].
  exists d. split_and!; [|done|by rewrite <- Hact]. rewrite <- Hrun. unfold copy_text. change (32 =? 0) with false. cbn iota.
  pose proof (copy_name_loop 32 (c_text active) rest (replicate 32 0) 0 (S (Z.to_nat 32)) (c_text_no_zero _) Ha2 ltac:(lia)) as E.
  rewrite <- Hr in E. change (Z.of_nat 0) with 0 in E. by rewrite E.
Qed.

Lemma same_text_loop (lhs rhs : list Z) (i fuel : nat) :
  terminated (drop i lhs) -> terminated (drop i rhs) -> (length (drop i lhs) < fuel)%nat ->
  iterate fuel (text_step lhs rhs) (Z.of_nat i) = Ok (bool_decide (c_text (drop i lhs) = c_text (drop i rhs))).
Proof.
  revert i. induction fuel as [|fuel IH]; intros i Hl Hr Hf; [lia|]. cbn [iterate]. unfold text_step at 1.
  destruct (drop i lhs) as [|a ls] eqn:El; [by apply not_elem_of_nil in Hl|]. destruct (drop i rhs) as [|b rs] eqn:Er; [by apply not_elem_of_nil in Hr|].
  rewrite (aget_drop _ _ _ _ El), bind_ok, (aget_drop _ _ _ _ Er), bind_ok. cbn [c_text].
  destruct (Z.eqb_spec a 0) as [->|Ha], (Z.eqb_spec b 0) as [->|Hb]; cbn [orb]; rewrite ?bind_ok.
  - by rewrite bool_decide_eq_true_2.
  - rewrite bool_decide_eq_false_2 by done. by destruct b.
  - rewrite bool_decide_eq_false_2 by done. by destruct a.
  - destruct (Z.eqb_spec a b) as [->|Hne]; cbn [negb]; rewrite bind_ok.
    + replace (Z.of_nat i + 1) with (Z.of_nat (S i)) by lia. rewrite IH, (drop_tail _ _ _ _ El), (drop_tail _ _ _ _ Er).
      * f_equal. apply bool_decide_ext. split; [by intros ->|by intros [= ->]].
      * rewrite (drop_tail _ _ _ _ El). by eapply terminated_cons.
      * rewrite (drop_tail _ _ _ _ Er). by eapply terminated_cons.
      * rewrite (drop_tail _ _ _ _ El). cbn in Hf. lia.
    + rewrite bool_decide_eq_false_2; [done|]. by intros [= ->].
Qed.

Lemma same_text_ok lhs rhs : terminated lhs -> terminated rhs -> same_text lhs rhs = Ok (bool_decide (c_text lhs = c_text rhs)).
Proof. intros Hl Hr. unfold same_text. change 0 with (Z.of_nat 0). rewrite same_text_loop; rewrite ?drop_0; [done..|lia]. Qed.

(** ** Arrays in variables *)
Class ListVarLaws {T : Type} (L : ListVar T) : Prop := {
  lv_value_store h k : value L (store L h k) = h;
  lv_value_blocks b k : value L (with_blocks b k) = value L k;
  lv_size : 0 < item_size L <= 24
}.
#[export] Instance objects_var_laws : ListVarLaws objects_var.
Proof. split; try done; by vm_compute. Qed.
#[export] Instance records_var_laws : ListVarLaws records_var.
Proof. split; try done; by vm_compute. Qed.

(** The block of an array is kept, or traded for another one. *)
Definition refit (others : gmap Z ObjectHeader) (old new : option Z) (b b' : gset Z) : Prop :=
  (new = old /\ b' = b) \/ (exists a, new = Some a /\ others !! a = None /\ a ∉ b ∖ block_set old /\ b' = {[a]} ∪ b ∖ block_set old).

Lemma refit_owns others old new b b' (rest : list Z) :
  refit others old new b b' -> NoDup (option_list old ++ rest) -> (forall a, a ∈ option_list old ++ rest <-> a ∈ b) ->
  NoDup (option_list new ++ rest) /\ (forall a, a ∈ option_list new ++ rest <-> a ∈ b').
Proof.
  intros [[-> ->]|(a & -> & _ & Ha & ->)] Hn Hb; [done|]. apply list.NoDup_app in Hn as (_ & Hd & Hn).
  assert (forall c, c ∈ rest <-> c ∈ b ∖ block_set old) as Hrest.
  { intros c. rewrite elem_of_difference, <- Hb, elem_of_app. destruct old as [o|]; cbn; [|set_solver].
    rewrite list_elem_of_singleton, elem_of_singleton. split; [intros Hc; split; [by right|]; intros ->; by apply (Hd o (list_elem_of_here _ _))|tauto]. }
  split.
  - cbn. apply list.NoDup_cons. split; [|done]. intros Hin. by apply Ha, Hrest.
  - cbn. intros c. rewrite elem_of_cons, elem_of_union, elem_of_singleton. by rewrite Hrest.
Qed.

Section ListCalls.
Context {T : Type} (L : ListVar T) `{!ListVarLaws L}.

(** Appending succeeds with the element behind the others, or there is no memory and
    nothing has changed. *)
Lemma append_post k l x Q :
  holds (value L k) l -> (forall b, m_items (value L k) = Some b -> b ∈ blocks k) ->
  (m_capacity (value L k) = len l -> Q StatusNoMemory k) ->
  (forall h b, holds h (l ++ [x]) -> refit (other_objects k) (m_items (value L k)) (m_items h) (blocks k) b -> Q StatusOK (store L h (with_blocks b (store L h k)))) ->
  (forall h b, store L h (with_blocks b (store L h k)) = store L h (with_blocks b k)) ->
  (forall h h' b, store L h (store L h' (with_blocks b k)) = store L h (with_blocks b k)) ->
  (forall h, store L h (with_blocks (blocks k) k) = store L h k) ->
  kpost outside (append L x k) Q.
Proof.
  intros Hh Hb Hno Hok E1 E2 E3. unfold append. rewrite kseq_read, (ho_count _ _ Hh).
  pose proof (holds_room _ _ Hh) as Hroom. pose proof (ho_size _ _ Hh) as Hsize. rewrite u64_small by lia.
  unfold reserve. apply kassoc. rewrite kseq_read. destruct (Z.leb_spec (len l + 1) (m_capacity (value L k))) as [Hle|Hgt].
  - rewrite kseq_ret, bool_decide_eq_true_2 by done. cbn [negb]. destruct (store_last_ok _ l x Hh) as (h & Hrun & Hh' & Hit); [lia|].
    unfold list_change. rewrite (kseq_change _ _ k (store L h k)) by (by rewrite Hrun). apply kpost_ret.
    rewrite <- E3, <- E1. apply Hok; [done|]. by left.
  - destruct (grown_capacity_ok _ _ Hh) as (g & Hg & Hgr); [lia|]. apply kassoc. rewrite (kseq_compute _ _ k g) by done. apply kassoc.
    pose proof lv_size as Hsz. rewrite u64_small by nia. apply kpost_call.
    { cbn. destruct (m_items (value L k)) as [b|] eqn:Hi; [by apply Hb|done]. }
    intros [a|] k' Hrep; cbn in Hrep; [|subst k'; rewrite kseq_ret, bool_decide_eq_false_2 by done; apply kpost_ret, Hno; lia].
    destruct Hrep as (Ha & Hao & Hbytes & ->). apply kassoc. rewrite kseq_set, kseq_ret, bool_decide_eq_true_2 by done. cbn [negb].
    assert (g < 2 ^ 48) as Hg48 by nia.
    pose proof (holds_regrown _ _ a (item_size L) g Hh ltac:(lia) ltac:(lia) ltac:(lia)) as Hre. set (h1 := regrown _ _ _ _ _) in *.
    destruct (store_last_ok _ _ x Hre) as (h & Hrun & Hh' & Hit); [cbn; lia|].
    unfold list_change. rewrite (kseq_change _ _ _ (store L h (store L h1 (with_blocks ({[a]} ∪ blocks k ∖ block_set (m_items (value L k))) k)))) by (by rewrite lv_value_store, Hrun).
    apply kpost_ret. rewrite E2, <- E1. apply Hok; [done|]. right. exists a. split_and!; [by rewrite Hit|done|done|done].
Qed.
End ListCalls.

Lemma append_objects k l x Q :
  holds (g_objects k) l -> (forall b, m_items (g_objects k) = Some b -> b ∈ blocks k) -> Q StatusNoMemory k ->
  (forall h b, holds h (l ++ [x]) -> refit (other_objects k) (m_items (g_objects k)) (m_items h) (blocks k) b -> Q StatusOK (with_g_objects h (with_blocks b k))) ->
  kpost outside (append objects_var x k) Q.
Proof.
  intros Hh Hb Hno Hok. apply (append_post objects_var k l); done.
Qed.

Lemma append_records k l x Q :
  holds (exit_records k) l -> (forall b, m_items (exit_records k) = Some b -> b ∈ blocks k) -> (m_capacity (exit_records k) = len l -> Q StatusNoMemory k) ->
  (forall h b, holds h (l ++ [x]) -> refit (other_objects k) (m_items (exit_records k)) (m_items h) (blocks k) b -> Q StatusOK (with_exit_records h (with_blocks b k))) ->
  kpost outside (append records_var x k) Q.
Proof.
  intros Hh Hb Hno Hok. apply (append_post records_var k l); done.
Qed.

(** ** The registry of objects *)
Lemma seek_absent {T} (test : T -> bool) h l : holds h l -> (forall x, x ∈ l -> test x = false) -> seek test h = Ok None.
Proof.
  intros Hh Hl. rewrite (seek_ok test h l Hh). replace (list_find _ l) with (@None (nat * T)); [done|]. symmetry. apply list_find_None.
  apply Forall_forall. intros x Hx. rewrite Hl by done. done.
Qed.

Lemma seek_present {T} (test : T -> bool) h l1 x l2 :
  holds h (l1 ++ x :: l2) -> (forall y, y ∈ l1 -> test y = false) -> test x = true -> seek test h = Ok (Some (len l1)).
Proof.
  intros Hh Hl Hx. rewrite (seek_ok test h _ Hh). replace (list_find _ _) with (Some (length l1, x)); [done|]. symmetry. apply list_find_Some.
  split_and!; [by apply list_lookup_middle|done|]. intros j y Hj Hlt. rewrite lookup_app_l in Hj by done. rewrite Hl by (by eapply list_elem_of_lookup_2). done.
Qed.

Lemma register_post k l o Q :
  holds (g_objects k) l -> o ∉ l -> (forall b, m_items (g_objects k) = Some b -> b ∈ blocks k) -> Q StatusNoMemory k ->
  (forall h b, holds h (l ++ [o]) -> refit (other_objects k) (m_items (g_objects k)) (m_items h) (blocks k) b -> Q StatusOK (with_g_objects h (with_blocks b k))) ->
  kpost outside (register_object (Some o) k) Q.
Proof.
  intros Hh Ho Hb Hno Hok. unfold register_object. rewrite (kseq_compute _ _ k None); [by eapply append_objects|].
  eapply seek_absent; [done|]. intros x Hx. apply Z.eqb_neq. by intros ->.
Qed.

Lemma unregister_ok {B} k l o (f : Status -> K B) :
  holds (g_objects k) l -> NoDup l -> o ∈ l ->
  exists h l', holds h l' /\ NoDup l' /\ (forall u, u ∈ l' <-> u ∈ l /\ u <> o) /\ m_items h = m_items (g_objects k) /\
    kseq (unregister_object (Some o)) f k = f StatusOK (with_g_objects h k).
Proof.
  intros Hh Hn Ho. apply list_elem_of_split in Ho as (l1 & l2 & ->). destruct (remove_at_ok _ _ _ _ Hh) as (h & Hrun & Hh' & Hit).
  pose proof Hn as Hn'. apply list.NoDup_app in Hn' as (N1 & N2 & [N3 N4]%list.NoDup_cons).
  exists h, (l1 ++ l2). split_and!; [done| | |done|].
  - apply list.NoDup_app. split_and!; [done| |done]. intros x H1 H2. apply (N2 x H1). by apply list_elem_of_further.
  - intros u. rewrite !elem_of_app, elem_of_cons. split; [|naive_solver]. intros [Hu|Hu].
    + split; [by left|]. intros ->. by apply (N2 o Hu), list_elem_of_here.
    + split; [by right; right|]. intros ->. done.
  - unfold unregister_object, kseq. unfold compute, kexec. rewrite (seek_present _ _ l1 o l2 Hh).
    + cbn. unfold list_change, kchange, kexec. cbn. by rewrite Hrun.
    + intros y Hy. apply Z.eqb_neq. intros ->. by apply (N2 y Hy), list_elem_of_here.
    + apply Z.eqb_refl.
Qed.

(** ** Searches *)
Definition among (node : option Z) (l : list Z) : bool := match node with Some a => bool_decide (a ∈ l) | None => false end.

Section Contains.
Context {N : Type} `{LinkedLaws N}.

Lemma contains_from (m : gmap Z N) hd tl l1 l2 node fuel :
  dlist m hd tl (l1 ++ l2) -> (length l2 < fuel)%nat ->
  iterate fuel (contains_step m node) (first l2 None) = Ok (among node l2).
Proof.
  revert l1 fuel. induction l2 as [|p l2 IH]; intros l1 fuel Hd Hf; (destruct fuel as [|fuel]; [cbn in Hf; lia|]); cbn [iterate contains_step first].
  - by destruct node.
  - case_bool_decide as E.
    + rewrite bind_ok, E. cbn [among]. by rewrite bool_decide_eq_true_2 by apply list_elem_of_here.
    + destruct (dlist_at _ _ _ _ _ _ Hd) as (n & Hn & Hnx & _). rewrite (fetch_ok _ _ _ Hn), bind_ok, bind_ok, Hnx.
      rewrite (IH (l1 ++ [p])); [|by rewrite <- app_assoc|cbn in Hf; lia]. f_equal. destruct node as [a|]; [|done]. apply bool_decide_ext.
      rewrite elem_of_cons. split; [by right|]. by intros [->|Ha].
Qed.

Lemma contains_node_ok (m : gmap Z N) hd tl l node :
  dlist m hd tl l -> contains_node m hd node = Ok (among node l).
Proof.
  intros Hd. pose proof (dlist_length _ _ _ _ Hd). pose proof Hd as (_ & _ & -> & _). unfold contains_node. eapply (contains_from m _ _ []); [done|lia].
Qed.
End Contains.

Section Processes.
Context (k : Kern) (ps limbo : list Z).
Hypothesis Hps : processes_rep (processes (sched k)) (process_head k) (process_tail k) (process_count_value k) (next_pid k) ps limbo.

Lemma process_here p : p ∈ ps -> exists x, processes (sched k) !! p = Some x.
Proof. intros Hp. apply (pr_all _ _ _ _ _ _ _ Hps). by left. Qed.

Lemma contains_process_ok process : contains_process process k = Ok (among process ps).
Proof. unfold contains_process. apply (contains_node_ok (N := Process) (H := process_links) _ _ (process_tail k)). apply Hps. Qed.

(** The search finds the one process with the identifier. *)
Lemma find_process_ok id :
  exists found, find_process id k = Ok found /\
    match found with
    | Some p => p ∈ ps /\ exists x, processes (sched k) !! p = Some x /\ p_id x = id
    | None => forall p x, p ∈ ps -> processes (sched k) !! p = Some x -> p_id x <> id
    end.
Proof.
  unfold find_process. eexists. split; [eapply (dl_find_ok (H := process_links) _ _ _ (process_tail k) ps (fun x => p_id x =? id)); [apply Hps|done]|].
  destruct (list_find _ ps) as [[i p]|] eqn:Hf; cbn.
  - apply list_find_Some in Hf as (Hp & Hid & _). apply list_elem_of_lookup_2 in Hp. split; [done|]. destruct (process_here p Hp) as [x Hx]. exists x. split; [done|].
    rewrite Hx in Hid. injection Hid as Hid. by apply Z.eqb_eq.
  - apply list_find_None in Hf. rewrite Forall_forall in Hf. intros p x Hp Hx Hid. apply (Hf p Hp). rewrite Hx. cbn. by rewrite Hid, Z.eqb_refl.
Qed.

Lemma find_process_here p x : p ∈ ps -> processes (sched k) !! p = Some x -> find_process (p_id x) k = Ok (Some p).
Proof.
  intros Hp Hx. destruct (find_process_ok (p_id x)) as ([p'|] & Hrun & Hf); [|by destruct (Hf p x Hp Hx)]. destruct Hf as (_ & x' & Hx' & E).
  rewrite Hrun. do 2 f_equal. by apply (pr_ids _ _ _ _ _ _ _ Hps p' p x' x).
Qed.
End Processes.

(** ** What list surgery leaves alone *)
Section Frames.
Context {N : Type} `{LinkedLaws N}.

Lemma dl_append_frame (m : gmap Z N) hd tl l p m' hd' tl' :
  dlist m hd tl l -> dl_append m hd tl p = Ok (m', hd', tl') -> forall a, a ∉ l ++ [p] -> m' !! a = m !! a.
Proof.
  intros (_ & Hs & -> & ->) Hrun a [Ha Hp]%not_elem_of_app. assert (a <> p) as Hap by (intros ->; apply Hp, list_elem_of_here). unfold dl_append in Hrun.
  apply bind_ok_inv in Hrun as (m1 & H1 & Hrun). apply bind_ok_inv in H1 as (n1 & _ & [= <-]).
  apply bind_ok_inv in Hrun as (m2 & H2 & Hrun). apply bind_ok_inv in H2 as (n2 & _ & [= <-]).
  apply bind_ok_inv in Hrun as ([m3 hd3] & H3 & [= <- <- <-]).
  destruct (list_snoc_cases l) as [->|(l' & t & ->)]; [injection H3 as <- <-; by rewrite !lookup_insert_ne by done|]. rewrite final_snoc in H3.
  apply bind_ok_inv in H3 as (m4 & H4 & [= <- <-]). apply bind_ok_inv in H4 as (n4 & _ & [= <-]).
  rewrite lookup_insert_ne; [by rewrite !lookup_insert_ne by done|]. intros ->. apply Ha, elem_of_app. right. apply list_elem_of_here.
Qed.

Lemma dl_unlink_apart (m : gmap Z N) hd tl l p m' hd' tl' :
  dlist m hd tl l -> p ∈ l -> dl_unlink m hd tl p = Ok (m', hd', tl') -> forall a, a ∉ l -> m' !! a = m !! a.
Proof.
  intros Hd Hp Hrun a Ha. apply list_elem_of_split in Hp as (l1 & l2 & ->). destruct (dlist_at _ _ _ _ _ _ Hd) as (n & Hn & Hnx & Hpv).
  destruct Hd as (Hnd & Hs & -> & ->). unfold dl_unlink in Hrun. rewrite (fetch_ok _ _ _ Hn), bind_ok, Hpv, Hnx in Hrun.
  apply bind_ok_inv in Hrun as ([m1 hd1] & H1 & Hrun).
  assert (m1 !! a = m !! a /\ m1 !! p = Some n) as [E1 Hn1].
  { destruct (list_snoc_cases l1) as [->|(l' & t & ->)]; [by injection H1 as <- <-|]. rewrite final_snoc in H1.
    apply bind_ok_inv in H1 as (m2 & H2 & [= <- <-]). apply bind_ok_inv in H2 as (n2 & _ & [= <-]). split.
    - apply lookup_insert_ne. intros ->. apply Ha. rewrite <- app_assoc. apply elem_of_app. right. apply list_elem_of_here.
    - rewrite lookup_insert_ne; [done|]. intros ->. apply list.NoDup_app in Hnd as (_ & Hd & _).
      apply (Hd p); [apply elem_of_app; right; apply list_elem_of_here|apply list_elem_of_here]. }
  rewrite (fetch_ok _ _ _ Hn1), bind_ok, Hnx, Hpv in Hrun. apply bind_ok_inv in Hrun as ([m2 tl2] & H2 & [= <- <- <-]). rewrite <- E1.
  destruct l2 as [|c l2]; cbn [first] in H2; [by injection H2 as <- <-|]. apply bind_ok_inv in H2 as (m3 & H3 & [= <- <-]). apply bind_ok_inv in H3 as (n3 & _ & [= <-]).
  apply lookup_insert_ne. intros ->. apply Ha, elem_of_app. right. apply list_elem_of_further, list_elem_of_here.
Qed.
End Frames.

(** ** The scheduler's invariant *)

(** Processes may change as long as those with threads keep translation tables. *)
Lemma inv_with_processes s q m :
  inv s q ->
  (forall t r p x, threads s !! t = Some r -> t_parent r = Some p -> processes s !! p = Some x -> page_table_root (process_address_space x) <> 0 ->
    exists x', m !! p = Some x' /\ page_table_root (process_address_space x') <> 0) ->
  inv (with_processes m s) q.
Proof.
  intros [I1 I2 I3 I4 I5 I6 I7 I8 I9] Hm. split; try done. intros t r Hr. destruct (I5 t r Hr) as [K1 K2 K3 K4 K5]. split; try done.
  intros p Hp. destruct (K5 p Hp) as (x & Hx & Hne). by eapply Hm.
Qed.

Lemma inv_thread_count s q n : inv s q -> inv (with_g_thread_count n s) q.
Proof. intros [I1 I2 I3 I4 I5 I6 I7 I8 I9]. split; try done. intros t r Hr. destruct (I5 t r Hr). by split. Qed.

Lemma inv_next_id s q n : inv s q -> inv (with_g_next_thread_id n s) q.
Proof. intros [I1 I2 I3 I4 I5 I6 I7 I8 I9]. split; try done. intros t r Hr. destruct (I5 t r Hr). by split. Qed.

(** The links within a process, the process itself, the header and the stacks are not the scheduler's. *)
Definition unowned (r : Thread) : Thread :=
  with_t_header zero_header (with_t_stacks zero_stacks (with_process_prev None (with_process_next None (with_t_parent None r)))).

Lemma inv_members s q m :
  inv s q -> keeps unowned (threads s) m ->
  (forall t r p, m !! t = Some r -> t_parent r = Some p -> exists x, processes s !! p = Some x /\ page_table_root (process_address_space x) <> 0) ->
  inv (with_threads m s) q.
Proof.
  intros [I1 I2 I3 I4 I5 I6 I7 I8 I9] Hk Hp. split; try done; sched_cbn.
  - eapply ready_frame; [|done]. exact (keeps_weaken unowned ready_part _ _ Hk).
  - eapply sleep_frame; [|done]. exact (keeps_weaken unowned sleep_part _ _ Hk).
  - eapply retired_frame; [|done]. exact (keeps_weaken unowned retired_part _ _ Hk).
  - eapply registry_frame; [|done]. exact (keeps_weaken unowned registry_part _ _ Hk).
  - intros t r Hr. destruct (keeps_back _ _ _ _ _ Hk Hr) as (r0 & Hr0 & E). destruct (I5 t r0 Hr0) as [K1 K2 K3 K4 K5].
    pose proof (f_equal current_priority E) as E1. pose proof (f_equal quantum_ticks E) as E2. pose proof (f_equal quantum_ticks_remaining E) as E3.
    pose proof (f_equal t_name E) as E4. pose proof (f_equal current_state E) as E5. pose proof (f_equal wake_tick E) as E6. cbn in E1, E2, E3, E4, E5, E6.
    split; [by rewrite E1|by rewrite E2, E3|by rewrite E4|by rewrite E5, E6|]. intros p Hpar. by eapply Hp.
  - destruct I6 as (c & Hc & Hs). exists c. split; [done|]. by rewrite (keeps_is_Some _ _ _ _ Hk).
  - destruct I7 as (i & ri & Hi & Hri & Hf & Hst). destruct (keeps_lookup _ _ _ _ _ Hk Hri) as (r' & Hr' & E). exists i, r'.
    pose proof (f_equal current_state E) as E1. pose proof (f_equal in_ready_queue E) as E2. cbn in E1, E2. split_and!; [done|done|congruence|by rewrite E1].
  - rewrite <- size_dom, (keeps_dom _ _ _ Hk), size_dom. done.
Qed.

Lemma retired_there m hd tl l t : retired_rep m hd tl l -> t ∈ l -> is_Some (m !! t).
Proof.
  intros [_ Hc _ _] (l1 & l2 & ->)%list_elem_of_split. induction l1 as [|a l1 IH]; cbn in Hc; [destruct Hc as [(r & Hr & _) _]; by eauto|]. by apply IH, Hc.
Qed.

(** ** A thread joins the registry *)
Record newcomer (s : Sched) (t : Z) (r : Thread) : Prop := {
  nc_free : threads s !! t = None;
  nc_idle : in_ready_queue r = false /\ sleep_next r = None /\ sleep_prev r = None;
  nc_ok : thread_ok s t r;
  nc_id u ru : threads s !! u = Some ru -> t_id ru <> t_id r;
  nc_room : Z.of_nat (size (threads s)) + 1 < 2 ^ 64 - 1
}.

Lemma registry_join m hd tl l t r :
  registry_rep m hd tl l -> m !! t = None -> (forall u ru, m !! u = Some ru -> t_id ru <> t_id r) ->
  exists m' hd' tl', dl_append (H := registry_links) (<[t := r]> m) hd tl t = Ok (m', hd', tl') /\ registry_rep m' hd' tl' (l ++ [t]) /\
    relinked (H := registry_links) (<[t := r]> m) m'.
Proof.
  intros [R1 R2 R3] Ht Hid. assert (t ∉ l) as Htl by (rewrite <- R2, Ht; by intros []).
  destruct (dl_append_ok (H := registry_links) (<[t := r]> m) hd tl l t) as (m' & hd' & Hrun & Hd & Hk0); [|done|by rewrite lookup_insert_eq|].
  { eapply (dlist_frame (H := registry_links)); [|exact R1]. intros u Hu. apply lookup_insert_ne. by intros ->. }
  pose proof (keeps_content _ _ Hk0) as Hk. exists m', hd', (Some t). split_and!; [done| |done]. split; [done| |].
  - intros u. rewrite (keeps_is_Some _ _ _ _ Hk), elem_of_app, list_elem_of_singleton. destruct (decide (u = t)) as [->|Hne].
    + rewrite lookup_insert_eq. split; [by right|by eauto].
    + rewrite lookup_insert_ne, R2 by done. naive_solver.
  - intros u1 u2 r1 r2 H1 H2 E. destruct (keeps_back _ _ _ _ _ Hk H1) as (s1 & S1 & E1), (keeps_back _ _ _ _ _ Hk H2) as (s2 & S2 & E2).
    assert (t_id r1 = t_id s1) as I1 by exact (f_equal t_id E1). assert (t_id r2 = t_id s2) as I2 by exact (f_equal t_id E2).
    apply lookup_insert_Some in S1 as [[<- <-]|[N1 S1]]; apply lookup_insert_Some in S2 as [[<- <-]|[N2 S2]]; [done| | |].
    + by destruct (Hid u2 s2 S2); congruence.
    + by destruct (Hid u1 s1 S1); congruence.
    + by apply (R3 u1 u2 s1 s2); congruence.
Qed.

Lemma inv_join s q t r :
  inv s q -> newcomer s t r ->
  exists m hd tl, link_thread t (with_threads (<[t := r]> (threads s)) s) = Ok (set_registry m hd tl s) /\
    inv (set_registry m hd tl s) (mkQueues (ready q) (sleepers q) (retired q) (registry q ++ [t])) /\ relinked (H := registry_links) (<[t := r]> (threads s)) m.
Proof.
  intros [I1 I2 I3 I4 I5 I6 I7 I8 I9] [N1 (N2 & N3 & N4) N5 N6 N7]. destruct (registry_join _ _ _ _ t r I4 N1 N6) as (m & hd & tl & Hrun & Hreg & Hk0).
  pose proof (keeps_content _ _ Hk0) as Hk. exists m, hd, tl. split_and!; [by unfold link_thread; sched_cbn; rewrite Hrun| |done].
  assert (forall u ru, threads s !! u = Some ru -> (<[t := r]> (threads s)) !! u = Some ru) as Hold by (intros u ru Hu; rewrite lookup_insert_ne; [done|]; congruence).
  split; try done; cbn [set_registry threads processes g_ready_queues g_ready_bitmap g_ready_count g_sleep_head g_sleep_tail g_retired_thread_head g_retired_thread_tail g_current_thread g_idle_thread kernel_root_table ready sleepers retired].
  - cbn [set_registry threads g_ready_queues g_ready_bitmap g_ready_count]. eapply ready_frame; [exact (keeps_weaken unregistered ready_part _ _ Hk)|].
    eapply ready_frame_out; [| |exact I1].
    + intros u ru Hu _. by apply Hold.
    + intros u ru Hu Hf. apply lookup_insert_Some in Hu as [[<- <-]|[_ Hu]]; [congruence|done].
  - cbn [set_registry threads g_sleep_head g_sleep_tail]. eapply sleep_frame; [exact (keeps_weaken unregistered sleep_part _ _ Hk)|].
    eapply sleep_frame_out; [| |exact I2].
    + intros u Hu. apply lookup_insert_ne. intros <-. destruct (sl_list _ _ _ _ I2) as (_ & Hs & _). destruct (seg_in (H := sleep_links) _ _ _ _ t Hs Hu). congruence.
    + intros u ru Hu Hn. apply lookup_insert_Some in Hu as [[<- <-]|[_ Hu]]; [done|]. by apply (sl_out _ _ _ _ I2 u).
  - eapply retired_frame; [exact (keeps_weaken unregistered retired_part _ _ Hk)|]. eapply retired_frame_out; [|exact I3].
    intros u Hu. apply lookup_insert_ne. intros <-. destruct (retired_there _ _ _ _ t I3 Hu). congruence.
  - intros u ru Hu. destruct (keeps_back _ _ _ _ _ Hk Hu) as (r0 & Hr0 & E).
    assert (thread_ok s u r0) as [K1 K2 K3 K4 K5].
    { apply lookup_insert_Some in Hr0 as [[<- <-]|[_ Hr0]]; [done|]. by apply I5. }
    pose proof (f_equal current_priority E) as E1. pose proof (f_equal quantum_ticks E) as E2. pose proof (f_equal quantum_ticks_remaining E) as E3.
    pose proof (f_equal t_name E) as E4. pose proof (f_equal current_state E) as E5. pose proof (f_equal wake_tick E) as E6. pose proof (f_equal t_parent E) as E7. cbn in E1, E2, E3, E4, E5, E6, E7.
    split; [by rewrite E1|by rewrite E2, E3|by rewrite E4|by rewrite E5, E6|]. by rewrite E7.
  - destruct I6 as (c & Hc & rc & Hrc). exists c. split; [done|]. rewrite (keeps_is_Some _ _ _ _ Hk). eauto.
  - destruct I7 as (i & ri & Hi & Hri & Hf & Hst). destruct (keeps_lookup _ _ _ _ _ Hk (Hold i ri Hri)) as (r' & Hr' & E). exists i, r'.
    pose proof (f_equal current_state E) as E1. pose proof (f_equal in_ready_queue E) as E2. cbn in E1, E2. split_and!; [done|done|congruence|by rewrite E1].
  - rewrite <- size_dom, (keeps_dom _ _ _ Hk), size_dom, map_size_insert_None by done. lia.
Qed.

(** ** A thread joins a process *)
Definition joined (t : Z) (hd : option Z) (x : Process) : Process :=
  let x := with_thread_list_tail (Some t) (with_thread_list_head hd x) in
  let x := if bool_decide (main_thread x = None) then with_main_thread (Some t) x else x in
  with_thread_count (u64 (thread_count x + 1)) x.

Lemma member_join m p x l t r :
  member_rep m p x l -> m !! t = Some r -> t_parent r = None -> len l + 1 < 2 ^ 64 ->
  exists m' hd, dl_append (H := member_links) (<[t := with_t_parent (Some p) r]> m) (thread_list_head x) (thread_list_tail x) t = Ok (m', hd, Some t) /\
    member_rep m' p (joined t hd x) (l ++ [t]) /\ keeps unowned m m' /\ (forall a, a ∉ l ++ [t] -> m' !! a = m !! a) /\
    (forall a ra, m' !! a = Some ra -> exists ra0, m !! a = Some ra0 /\ content (H := member_links) ra = content (H := member_links) (if decide (a = t) then with_t_parent (Some p) ra0 else ra0)).
Proof.
  intros [B1 B2 B3 B4] Hr Hp Hl. assert (t ∉ l) as Ht by (rewrite B2; intros (r' & Hr' & Hp'); congruence).
  set (m1 := <[t := with_t_parent (Some p) r]> m). assert (member_dlist m1 (thread_list_head x) (thread_list_tail x) l) as Hd1.
  { eapply (dlist_frame (H := member_links)); [|exact B1]. intros a Ha. apply lookup_insert_ne. by intros ->. }
  destruct (dl_append_ok (H := member_links) m1 _ _ l t Hd1 Ht) as (m' & hd & Hrun & Hd & Hk); [unfold m1; rewrite lookup_insert_eq; by eauto|].
  pose proof (dl_append_frame (H := member_links) _ _ _ _ _ _ _ _ Hd1 Hrun) as Hfr.
  assert (forall a ra, m' !! a = Some ra -> exists ra1, m1 !! a = Some ra1 /\ content (H := member_links) ra = content (H := member_links) ra1) as Hback.
  { intros a ra Ha. symmetry in Hk. destruct (relinked_lookup (H := member_links) _ _ _ _ Hk Ha) as (ra1 & H1 & E). by exists ra1. }
  exists m', hd. split_and!; [done| | | |].
  - split.
    + unfold joined. by case_bool_decide.
    + intros a. rewrite elem_of_app, list_elem_of_singleton. split.
      * intros [Ha|E0]; [|subst a].
        -- apply B2 in Ha as (ra & Hra & Hpa). destruct (relinked_lookup (H := member_links) m1 m' a ra Hk) as (ra' & Hra' & E); [unfold m1; rewrite lookup_insert_ne; [done|]; intros <-; congruence|].
           exists ra'. split; [done|]. rewrite <- Hpa. exact (f_equal t_parent E).
        -- destruct (relinked_lookup (H := member_links) m1 m' t (with_t_parent (Some p) r) Hk) as (ra' & Hra' & E); [apply lookup_insert_eq|]. exists ra'. split; [done|]. exact (f_equal t_parent E).
      * intros (ra & Hra & Hpa). destruct (Hback a ra Hra) as (ra1 & H1 & E). unfold m1 in H1. apply lookup_insert_Some in H1 as [[<- _]|[Hne H1]]; [by right|].
        left. apply B2. exists ra1. split; [done|]. rewrite <- Hpa. symmetry. exact (f_equal t_parent E).
    + unfold joined. rewrite length_app. cbn [length]. case_bool_decide; cbn [thread_count with_thread_count with_main_thread with_thread_list_tail with_thread_list_head]; rewrite B3, u64_small by lia; lia.
    + unfold joined. cbn [main_thread with_thread_list_tail with_thread_list_head]. case_bool_decide as E; cbn [main_thread with_thread_count with_main_thread with_thread_list_tail with_thread_list_head].
      * apply elem_of_app. right. apply list_elem_of_here.
      * destruct (main_thread x) as [u|]; [|done]. apply elem_of_app. by left.
  - transitivity m1; [by eapply keeps_insert|]. exact (keeps_weaken (content (H := member_links)) unowned m1 m' Hk).
  - intros a Ha. rewrite Hfr by done. unfold m1. apply lookup_insert_ne. intros ->. apply Ha, elem_of_app. right. apply list_elem_of_here.
  - intros a ra Ha. destruct (Hback a ra Ha) as (ra1 & H1 & E). unfold m1 in H1. apply lookup_insert_Some in H1 as [[<- <-]|[Hne H1]].
    + exists r. by rewrite decide_True.
    + exists ra1. by rewrite decide_False.
Qed.

(** ** A thread leaves its process *)
Definition parted (t : Z) (hd tl : option Z) (x : Process) : Process :=
  let x := with_thread_list_tail tl (with_thread_list_head hd x) in
  let x := if bool_decide (main_thread x = Some t) then with_main_thread (thread_list_head x) x else x in
  if negb (thread_count x =? 0) then with_thread_count (thread_count x - 1) x else x.

Lemma first_in (l : list Z) : match first l None with Some t => t ∈ l | None => l = [] end.
Proof. destruct l; [done|]. apply list_elem_of_here. Qed.

Lemma member_leave m p x l t r :
  member_rep m p x l -> m !! t = Some r -> t_parent r = Some p ->
  exists l1 l2 m1 m' hd tl r1, l = l1 ++ t :: l2 /\ dl_unlink (H := member_links) m (thread_list_head x) (thread_list_tail x) t = Ok (m1, hd, tl) /\ m1 !! t = Some r1 /\
    m' = <[t := with_process_prev None (with_process_next None (with_t_parent None r1))]> m1 /\ unowned r1 = unowned r /\ t_stacks r1 = t_stacks r /\
    member_rep m' p (parted t hd tl x) (l1 ++ l2) /\ keeps unowned m m' /\ (forall a, a ∉ l -> m' !! a = m !! a) /\
    (forall a ra, m' !! a = Some ra -> exists ra0, m !! a = Some ra0 /\ kernel_stack ra = kernel_stack ra0 /\ (content (H := member_links) ra = content (H := member_links) ra0 \/ a = t /\ t_parent ra = None)).
Proof.
  intros [B1 B2 B3 B4] Hr Hp. assert (t ∈ l) as Ht by (apply B2; eauto). pose proof Ht as Htl. apply list_elem_of_split in Ht as (l1 & l2 & El). rewrite El in B1.
  destruct (dl_unlink_ok (H := member_links) _ _ _ _ _ _ B1) as (m1 & hd & tl & Hrun & Hd & Hk).
  pose proof (dl_unlink_apart (H := member_links) m _ _ _ t _ _ _ B1 ltac:(set_solver) Hrun) as Hfr.
  destruct (relinked_lookup (H := member_links) _ _ _ _ Hk Hr) as (r1 & Hr1 & E1).
  pose proof B1 as (Hnd & _). apply list.NoDup_app in Hnd as (_ & Hd1 & [Hd2 _]%list.NoDup_cons).
  assert (t ∉ l1 ++ l2) as Hn by (rewrite elem_of_app; intros [Hin|Hin]; [by apply (Hd1 t Hin), list_elem_of_here|done]).
  assert (forall a ra, a <> t -> m1 !! a = Some ra -> exists ra0, m !! a = Some ra0 /\ content (H := member_links) ra = content (H := member_links) ra0) as Hback.
  { intros a ra _ Ha. symmetry in Hk. destruct (relinked_lookup (H := member_links) _ _ _ _ Hk Ha) as (ra1 & H1 & E). by exists ra1. }
  exists l1, l2, m1, (<[t := with_process_prev None (with_process_next None (with_t_parent None r1))]> m1), hd, tl, r1.
  split_and!; [done|done|done|done|exact (f_equal unowned E1)|exact (f_equal t_stacks E1)| | | |].
  - split.
    + eapply (dlist_frame (H := member_links)) with (m := m1).
      * intros a Ha. apply lookup_insert_ne. by intros ->.
      * unfold parted. case_bool_decide; destruct (negb _); exact Hd.
    + intros a. split.
      * intros Ha. assert (a <> t) as Hne by (by intros ->). assert (a ∈ l) as Hal by (rewrite El; set_solver). apply B2 in Hal as (ra & Hra & Hpa).
        destruct (relinked_lookup (H := member_links) _ _ _ _ Hk Hra) as (ra' & Hra' & E). exists ra'. rewrite lookup_insert_ne by done. split; [done|]. rewrite <- Hpa. exact (f_equal t_parent E).
      * intros (ra & Hra & Hpa). apply lookup_insert_Some in Hra as [[<- <-]|[Hne Hra]]; [done|]. destruct (Hback a ra ltac:(done) Hra) as (ra0 & H0 & E).
        assert (a ∈ l) as Hal by (apply B2; exists ra0; split; [done|]; rewrite <- Hpa; symmetry; exact (f_equal t_parent E)). rewrite El in Hal. set_solver.
    + assert (thread_count x = len (l1 ++ l2) + 1) as Ec by (rewrite B3, El, !length_app; cbn [length]; lia). unfold parted.
      case_bool_decide; cbn [thread_count with_main_thread with_thread_list_tail with_thread_list_head];
        (destruct (Z.eqb_spec (thread_count x) 0); cbn [negb]; cbn [thread_count with_thread_count with_main_thread with_thread_list_tail with_thread_list_head]; lia).
    + destruct Hd as (_ & _ & Ehd & _). rewrite El in B4. unfold parted. cbn [main_thread with_thread_list_tail with_thread_list_head]. case_bool_decide as E; (destruct (negb _); cbn [main_thread thread_list_head with_thread_count with_main_thread with_thread_list_tail with_thread_list_head]).
      1,2: rewrite Ehd; apply first_in.
      1,2: destruct (main_thread x) as [u|]; [assert (u <> t) by congruence; set_solver|by destruct l1].
  - transitivity m1; [exact (keeps_weaken (content (H := member_links)) unowned m m1 Hk)|]. by eapply keeps_insert.
  - intros a Ha. rewrite lookup_insert_ne by (intros <-; done). apply Hfr. by rewrite <- El.
  - intros a ra Ha. apply lookup_insert_Some in Ha as [[<- <-]|[Hne Ha]].
    + exists r. split_and!; [done|exact (f_equal kernel_stack E1)|]. by right.
    + destruct (Hback a ra ltac:(done) Ha) as (ra0 & H0 & E). exists ra0. split_and!; [done|exact (f_equal kernel_stack E)|]. by left.
Qed.

(** The threads of another process are not touched. *)
Lemma member_other m m' p x l p' (l' : list Z) :
  member_rep m p x l -> p <> p' -> (forall a, a ∈ l' -> exists ra, m !! a = Some ra /\ (t_parent ra = Some p' \/ t_parent ra = None)) ->
  (forall a, a ∉ l' -> m' !! a = m !! a) ->
  (forall a ra, a ∈ l' -> m' !! a = Some ra -> t_parent ra = Some p' \/ t_parent ra = None) -> member_rep m' p x l.
Proof.
  intros [B1 B2 B3 B4] Hne Hl' Hfr Hpar. assert (forall a, a ∈ l -> a ∉ l') as Hdis.
  { intros a Ha Ha'. apply B2 in Ha as (ra & Hra & Hpa). destruct (Hl' a Ha') as (ra' & Hra' & Hp'). destruct Hp' as [Hp'|Hp']; congruence. }
  split; [|split|done|done].
  - eapply (dlist_frame (H := member_links)); [|exact B1]. intros a Ha. by apply Hfr, Hdis.
  - intros Ha. rewrite Hfr by (by apply Hdis). by apply B2.
  - intros (ra & Hra & Hpa). destruct (decide (t ∈ l')) as [Hin|Hn].
    + destruct (Hpar t ra Hin Hra); congruence.
    + apply B2. exists ra. by rewrite <- Hfr.
Qed.

Ltac life_cbn :=
  cbn [sched process_head process_tail process_count_value next_pid exit_records g_objects other_objects blocks
       with_sched with_process_head with_process_tail with_process_count_value with_next_pid with_exit_records with_g_objects
       with_other_objects with_blocks with_process_list set_registry release_thread_slot with_g_thread_count with_g_next_thread_id
       threads processes g_current_thread g_current_process g_idle_thread g_ready_queues g_ready_bitmap g_ready_count
       g_tick_count g_sleep_head g_sleep_tail g_retired_thread_head g_retired_thread_tail g_reschedule_pending g_thread_head
       g_thread_tail g_thread_count g_next_thread_id kernel_root_table current_address_space interrupts
       with_threads with_processes with_g_current_thread with_g_current_process with_g_idle_thread ready sleepers retired registry].

(** ** Changes a part of the invariant does not see *)
Definition member_part (r : Thread) := (process_next r, process_prev r, t_parent r).

Lemma member_frame m m' p x l : keeps member_part m m' -> member_rep m p x l -> member_rep m' p x l.
Proof.
  intros Hk [B1 B2 B3 B4]. split; [|split|done|done].
  - eapply (dlist_ext (H := member_links)); [|exact B1]. intros t n Ht Hn. destruct (keeps_lookup _ _ _ _ _ Hk Hn) as (n' & Hn' & E).
    injection E as E1 E2 E3. by exists n'.
  - intros Ht. apply B2 in Ht as (r & Hr & Hp). destruct (keeps_lookup _ _ _ _ _ Hk Hr) as (r' & Hr' & E). injection E as E1 E2 E3. exists r'. split; congruence.
  - intros (r' & Hr' & Hp). destruct (keeps_back _ _ _ _ _ Hk Hr') as (r & Hr & E). injection E as E1 E2 E3. apply B2. exists r. split; congruence.
Qed.

(** Fields of a process the list of its threads does not use. *)
Lemma member_process m p x x' l :
  thread_list_head x' = thread_list_head x -> thread_list_tail x' = thread_list_tail x -> thread_count x' = thread_count x -> main_thread x' = main_thread x ->
  member_rep m p x l -> member_rep m p x' l.
Proof. intros E1 E2 E3 E4 [B1 B2 B3 B4]. split; [by rewrite E1, E2|done|by rewrite E3|by rewrite E4]. Qed.

Lemma members_stay m p x l t r : m !! t = None -> t_parent r = None -> member_rep m p x l -> member_rep (<[t := r]> m) p x l.
Proof.
  intros Ht Hr [B1 B2 B3 B4]. split; [|split|done|done].
  - eapply (dlist_frame (H := member_links)); [|exact B1]. intros a Ha. apply lookup_insert_ne. intros <-. apply B2 in Ha as (ra & Hra & _). congruence.
  - intros Ha. apply B2 in Ha as (ra & Hra & Hp). exists ra. split; [|done]. rewrite lookup_insert_ne; [done|]. congruence.
  - intros (ra & Hra & Hp). apply B2. apply lookup_insert_Some in Hra as [[<- <-]|[_ Hra]]; [congruence|by exists ra].
Qed.

Lemma members_drop m p x l t r : m !! t = Some r -> t_parent r = None -> member_rep m p x l -> member_rep (delete t m) p x l.
Proof.
  intros Ht Hr [B1 B2 B3 B4]. split; [|split|done|done].
  - eapply (dlist_frame (H := member_links)); [|exact B1]. intros a Ha. apply lookup_delete_ne. intros <-. apply B2 in Ha as (ra & Hra & Hp). congruence.
  - intros Ha. apply B2 in Ha as (ra & Hra & Hp). exists ra. split; [|done]. rewrite lookup_delete_ne; [done|]. congruence.
  - intros (ra & Hra & Hp). apply B2. apply lookup_delete_Some in Hra as [_ Hra]. by exists ra.
Qed.

Lemma owned_keeps m m' : keeps kernel_stack m m' -> owned_by kernel_stack m' = owned_by kernel_stack m.
Proof. apply owned_same. Qed.

Lemma owns_perm k k' : owned k' ≡ₚ owned k -> blocks k' = blocks k -> owns k -> owns k'.
Proof. intros E Hb [H1 H2]. split; [by rewrite E|]. intros b. by rewrite E, Hb. Qed.

Lemma owns_by k l : owned k ≡ₚ l -> NoDup l -> (forall b, b ∈ l <-> b ∈ blocks k) -> owns k.
Proof. intros E Hn Hb. split; [by rewrite E|]. intros b. by rewrite E. Qed.

(** One block less. *)
Lemma owns_drop k k' a : owned k ≡ₚ a :: owned k' -> blocks k' = blocks k ∖ {[a]} -> owns k -> owns k'.
Proof.
  intros E Hb [N H]. rewrite E in N. apply list.NoDup_cons in N as [N1 N2]. split; [done|]. intros c.
  rewrite Hb, elem_of_difference, elem_of_singleton, <- H, E, elem_of_cons. split; [intros Hc; split; [by right|]; by intros ->|tauto].
Qed.

Lemma tids_keeps m m' count next registry : keeps unowned m m' -> tids_rep m count next registry -> tids_rep m' count next registry.
Proof.
  intros Hk [T1 T2 T3]. split; [done| |done]. intros u ru Hu. destruct (keeps_back _ _ _ _ _ Hk Hu) as (r0 & H0 & E).
  assert (t_id ru = t_id r0) as -> by exact (f_equal t_id E). by apply (T2 u).
Qed.

Lemma objects_keeps {X} (f : Thread -> X) h m m' ps l : keeps f m m' -> objects_rep h m ps l -> objects_rep h m' ps l.
Proof. intros Hk [O1 O2 O3 O4]. split; try done. intros u Hu. apply O3. by rewrite <- (keeps_is_Some _ _ _ _ Hk). Qed.

(** Stacks that are what they were, thread by thread. *)
Lemma stacks_back {X} (f : Thread -> X) m m' :
  keeps f m m' -> (forall u ru, m' !! u = Some ru -> exists r0, m !! u = Some r0 /\ kernel_stack ru = kernel_stack r0) -> kernel_stack <$> m' = kernel_stack <$> m.
Proof.
  intros Hk Hb. apply map_eq. intros u. rewrite !lookup_fmap. destruct (m' !! u) as [ru|] eqn:Hu.
  - destruct (Hb u ru Hu) as (r0 & -> & E). cbn. by rewrite E.
  - destruct (m !! u) as [r0|] eqn:H0; [|done]. destruct (keeps_lookup _ _ _ _ _ Hk H0) as (ru & Hru & _). congruence.
Qed.

(** The live records are fewer than the identifiers handed out. *)
Lemma ids_size {N} (id : N -> Z) (m : gmap Z N) next :
  (forall a n, m !! a = Some n -> 0 < id n < next) -> (forall a1 a2 n1 n2, m !! a1 = Some n1 -> m !! a2 = Some n2 -> id n1 = id n2 -> a1 = a2) ->
  (Z.of_nat (size m) <= Z.max 0 (next - 1))%Z.
Proof.
  intros T2 R3. set (ids := (fun p => id (snd p)) <$> map_to_list m).
  assert (NoDup ids) as Hn.
  { apply NoDup_fmap_2_strong; [|apply NoDup_map_to_list]. intros [t1 r1] [t2 r2] H1%elem_of_map_to_list H2%elem_of_map_to_list E. cbn in E.
    pose proof (R3 t1 t2 r1 r2 H1 H2 E) as ->. congruence. }
  assert (length ids = size m) as <- by (unfold ids; by rewrite length_fmap, length_map_to_list).
  assert (ids ⊆ seqZ 1 (Z.max 0 (next - 1))) as Hsub.
  { intros i Hi. unfold ids in Hi. apply list_elem_of_fmap in Hi as ([t r] & -> & Hm%elem_of_map_to_list). pose proof (T2 t r Hm). apply elem_of_seqZ. cbn. lia. }
  pose proof (submseteq_length _ _ (NoDup_submseteq _ _ Hn Hsub)) as Hle. rewrite length_seqZ in Hle. lia.
Qed.

Lemma tids_size m count next registry hd tl l : tids_rep m count next registry -> registry_rep m hd tl l -> (Z.of_nat (size m) <= Z.max 0 (next - 1))%Z.
Proof. intros [T1 T2 T3] [R1 R2 R3]. by apply (ids_size t_id). Qed.

Lemma pids_size m hd tl c n ps limbo : processes_rep m hd tl c n ps limbo -> (Z.of_nat (size m) <= n - 1)%Z.
Proof.
  intros [R1 R2 R3 R4 R5 R6 R7 R8]. assert (Z.of_nat (size m) <= Z.max 0 (n - 1)); [|lia]. apply (ids_size p_id); [|exact R7]. intros p x Hx. apply (po_id _ _ (R6 p x Hx)).
Qed.

Lemma registry_length m hd tl l : registry_rep m hd tl l -> (length l <= size m)%nat.
Proof. intros [R1 R2 R3]. by apply (dlist_length (H := registry_links) _ _ _ _ R1). Qed.

(** ** A new thread *)
Record fresh_thread (k : Kern) (t : Z) (r : Thread) : Prop := {
  ft_free : t ∉ owned k /\ other_objects k !! t = None;
  ft_stack a : kernel_stack r = Some a -> a <> t /\ a ∉ owned k /\ other_objects k !! a = None;
  ft_idle : in_ready_queue r = false /\ sleep_next r = None /\ sleep_prev r = None;
  ft_parent : t_parent r = None;
  ft_ok : thread_ok (sched k) t r;
  ft_id : t_id r = g_next_thread_id (sched k)
}.

Lemma fresh_absent k t r : fresh_thread k t r -> threads (sched k) !! t = None.
Proof.
  intros [[F1 _] _ _ _ _ _]. destruct (threads (sched k) !! t) as [r'|] eqn:E; [|done]. exfalso. apply F1. unfold owned. apply elem_of_app. left.
  apply owned_in. exists t, r'. split; [done|by left].
Qed.

Definition with_registry (l : list Z) (q : Queues) : Queues := mkQueues (ready q) (sleepers q) (retired q) l.

Lemma kinv_admit k q ps t r l h b :
  kinv k q ps [] -> fresh_thread k t r -> g_next_thread_id (sched k) + 1 < 2 ^ 64 ->
  objects_rep (g_objects k) (threads (sched k)) ps l -> holds h (l ++ [t]) -> t ∉ l ->
  refit (other_objects k) (m_items (g_objects k)) (m_items h) (block_set (Some t) ∪ block_set (kernel_stack r) ∪ blocks k) b ->
  let id := g_next_thread_id (sched k) in
  exists m hd tl, let s1 := with_g_thread_count (u64 (g_thread_count (sched k) + 1)) (set_registry m hd tl (with_g_next_thread_id (u64 (id + 1)) (sched k))) in
    let k1 := with_g_objects h (with_blocks b (with_sched s1 k)) in
    link_thread t (with_threads (<[t := r]> (threads (sched k))) (with_g_next_thread_id (u64 (id + 1)) (sched k))) = Ok (set_registry m hd tl (with_g_next_thread_id (u64 (id + 1)) (sched k))) /\
    kinv k1 (with_registry (registry q ++ [t]) q) ps [] /\ relinked (H := registry_links) (<[t := r]> (threads (sched k))) m.
Proof.
  intros Hk Hf Hn Hobj Hh Htl Hre id. pose proof (fresh_absent _ _ _ Hf) as Habs. destruct Hf as [[F1 F1o] F2 F3 F4 F5 F6]. pose proof (ti_next _ _ _ _ (ki_tids _ _ _ _ Hk)) as [Hn0 _].
  pose proof (ki_sched _ _ _ _ Hk) as Hinv. pose proof (ki_tids _ _ _ _ Hk) as Hti. pose proof (inv_registry _ _ Hinv) as Hreg.
  pose proof (tids_size _ _ _ _ _ _ _ Hti Hreg) as Hsz. pose proof (registry_length _ _ _ _ Hreg) as Hlen.
  set (s0 := with_g_next_thread_id (u64 (id + 1)) (sched k)). assert (inv s0 q) as Hinv0 by (by apply inv_next_id).
  destruct (inv_join s0 q t r Hinv0) as (m & hd & tl & Hrun & Hinv1 & Hrel).
  { split; [done|done| | |].
    - destruct F5. by split.
    - intros u ru Hu E. pose proof (ti_id _ _ _ _ Hti u ru Hu). change (threads s0) with (threads (sched k)) in Hu. lia.
    - change (threads s0) with (threads (sched k)). lia. }
  exists m, hd, tl. split_and!; [done| |done].
  assert (keeps member_part (<[t := r]> (threads (sched k))) m) as Hkm by exact (keeps_weaken (content (H := registry_links)) member_part _ _ Hrel).
  assert (keeps t_id (<[t := r]> (threads (sched k))) m) as Hki by exact (keeps_weaken (content (H := registry_links)) t_id _ _ Hrel).
  assert (keeps kernel_stack (<[t := r]> (threads (sched k))) m) as Hks by exact (keeps_weaken (content (H := registry_links)) kernel_stack _ _ Hrel).
  split; life_cbn.
  - by apply inv_thread_count.
  - apply Hk.
  - intros p x Hx. destruct (ki_members _ _ _ _ Hk p x Hx) as [lm Hm]. exists lm. eapply member_frame; [exact Hkm|]. by apply members_stay.
  - intros p u ru Hp. by apply not_elem_of_nil in Hp.
  - split.
    + unfold with_registry. cbn [registry]. rewrite (ti_count _ _ _ _ Hti), length_app. cbn [length]. rewrite u64_small by lia. lia.
    + intros u ru Hu. destruct (keeps_back _ _ _ _ _ Hki Hu) as (r0 & Hr0 & E). rewrite E. change (g_next_thread_id s0) with (u64 (id + 1)). rewrite u64_small by (unfold id; lia).
      apply lookup_insert_Some in Hr0 as [[<- <-]|[_ Hr0]]; [rewrite F6; unfold id; lia|]. pose proof (ti_id _ _ _ _ Hti u r0 Hr0). unfold id in *. lia.
    + change (g_next_thread_id s0) with (u64 (id + 1)). rewrite u64_small; unfold id; lia.
  - exists (l ++ [t]). destruct Hobj as [O1 O2 O3 O4]. split; [done| | |].
    + apply list.NoDup_app. split_and!; [done| |apply NoDup_singleton]. by intros a Ha ->%list_elem_of_singleton.
    + intros u Hu. rewrite (keeps_is_Some _ _ _ _ Hkm) in Hu. rewrite elem_of_app, list_elem_of_singleton. destruct (decide (u = t)) as [->|Hne]; [by right|]. left.
      rewrite lookup_insert_ne in Hu by done. by apply O3.
    + intros p Hp. apply elem_of_app. left. by apply O4.
  - apply Hk.
  - intros i ri p x Hi Hri Hp Hx. destruct (keeps_back _ _ _ _ _ Hkm Hri) as (r0 & Hr0 & E). injection E as _ _ E.
    apply lookup_insert_Some in Hr0 as [[<- <-]|[_ Hr0]]; [congruence|]. apply (ki_idle _ _ _ _ Hk i r0 p x); try done. congruence.
  - destruct (ki_owns _ _ _ _ Hk) as [N1 N2]. unfold owned in N1, N2, F1, F2.
    set (T := owned_by kernel_stack (threads (sched k))) in *. set (P := owned_by launch_arguments (processes (sched k))) in *.
    set (R := option_list (m_items (exit_records k))) in *. set (old := m_items (g_objects k)) in *.
    destruct (refit_owns _ old (m_items h) _ b (t :: option_list (kernel_stack r) ++ T ++ P ++ R) Hre) as [G1 G2].
    + assert (option_list old ++ t :: option_list (kernel_stack r) ++ T ++ P ++ R ≡ₚ t :: option_list (kernel_stack r) ++ (T ++ P ++ option_list old ++ R)) as -> by perm.
      apply list.NoDup_cons. split; [|apply list.NoDup_app; split_and!; [by destruct (kernel_stack r); [apply NoDup_singleton|apply NoDup_nil_2]| |done]].
      * rewrite elem_of_app. intros [Ha|Ha]; [|done]. destruct (kernel_stack r) as [a|]; cbn in Ha; [|by apply not_elem_of_nil in Ha].
        apply list_elem_of_singleton in Ha as ->. by destruct (F2 a eq_refl) as (? & ? & _).
      * intros c Hc. destruct (kernel_stack r) as [a|]; cbn in Hc; [|by apply not_elem_of_nil in Hc]. apply list_elem_of_singleton in Hc as ->. by destruct (F2 a eq_refl) as (? & ? & _).
    + intros c. assert (option_list old ++ t :: option_list (kernel_stack r) ++ T ++ P ++ R ≡ₚ t :: option_list (kernel_stack r) ++ (T ++ P ++ option_list old ++ R)) as -> by perm.
      rewrite elem_of_cons, elem_of_app, N2, !elem_of_union. cbn [block_set]. rewrite elem_of_singleton.
      destruct (kernel_stack r) as [a|]; cbn [option_list block_set]; set_solver.
    + apply (owns_by _ (option_list (m_items h) ++ t :: option_list (kernel_stack r) ++ T ++ P ++ R)); [|done|done]. unfold owned. life_cbn.
      rewrite (owned_keeps _ _ Hks), (owned_by_insert kernel_stack _ t r Habs). fold T. change (processes s0) with (processes (sched k)). fold P R. perm.
  - destruct (ki_registered _ _ _ _ Hk) as [G1 G2]. split; life_cbn.
    + intros l' o Hl' Ho. rewrite <- (holds_unique _ _ _ Hh Hl') in Ho. unfold live. life_cbn. rewrite (keeps_is_Some _ _ _ _ Hkm).
      apply elem_of_app in Ho as [Ho| ->%list_elem_of_singleton]; [|left; rewrite lookup_insert_eq; by eauto].
      destruct (G1 l o (ob_holds _ _ _ _ Hobj) Ho) as [[ro Hro]|[H|H]]; [left|by right; left|by right; right]. destruct (decide (o = t)) as [->|Hne]; [congruence|]. rewrite lookup_insert_ne by done. by eauto.
    + intros o Ho. pose proof (G2 o Ho) as Hno. unfold owned in Hno |- *. life_cbn. rewrite (owned_keeps _ _ Hks), (owned_by_insert kernel_stack _ t r Habs). change (processes s0) with (processes (sched k)).
      rewrite !elem_of_app in Hno. rewrite !elem_of_app, elem_of_cons, !elem_of_app. intros [[->|[Ha|Ha]]|[Ha|[Ha|Ha]]]; [rewrite F1o in Ho; by destruct Ho| |by apply Hno; auto|by apply Hno; auto| |by apply Hno; auto].
      * destruct (kernel_stack r) as [a|]; cbn in Ha; [|by apply not_elem_of_nil in Ha]. apply list_elem_of_singleton in Ha as ->. destruct (F2 a eq_refl) as (_ & _ & E). rewrite E in Ho. by destruct Ho.
      * destruct Hre as [[E _]|(a & E & Eo & _)]; rewrite E in Ha; [by apply Hno; auto|]. apply list_elem_of_singleton in Ha as ->. rewrite Eo in Ho. by destruct Ho.
Qed.

(** ** One process changes *)

(** What the list of processes reads of one of them. *)
Definition slot_part (x : Process) := (p_id x, parent_process_id x, p_name x, process_address_space x, p_next x, p_prev x).

Definition place_part (x : Process) := (p_id x, p_name x, process_address_space x, p_next x, p_prev x).

Lemma processes_place m hd tl c n ps limbo p x x' :
  processes_rep m hd tl c n ps limbo -> m !! p = Some x -> place_part x' = place_part x -> 0 <= parent_process_id x' < p_id x -> processes_rep (<[p := x']> m) hd tl c n ps limbo.
Proof.
  intros [R1 R2 R3 R4 R5 R6 R7 R8] Hx E Hpar. unfold place_part in E. injection E as E1 E3 E4 E5 E6.
  assert (forall p' y', <[p := x']> m !! p' = Some y' -> exists y, m !! p' = Some y /\ p_id y' = p_id y /\ 0 <= parent_process_id y' < p_id y /\
    p_name y' = p_name y /\ process_address_space y' = process_address_space y) as Hb.
  { intros p' y' Hy'. apply lookup_insert_Some in Hy' as [[<- <-]|[_ Hy']]; [by exists x|]. exists y'. split_and!; try done; apply (R6 p' y' Hy'). }
  split; try done.
  - by eapply (dlist_update (H := process_links)).
  - intros p'. rewrite <- R2. destruct (decide (p' = p)) as [->|Hn]; [rewrite lookup_insert_eq; split; by eauto|by rewrite lookup_insert_ne].
  - intros p' y' Hy'. destruct (Hb p' y' Hy') as (y & Hy & F1 & F2 & F3 & _). destruct (R6 p' y Hy). split; by rewrite ?F1, ?F3.
  - intros p1 p2 x1 x2 H1 H2 E. destruct (Hb p1 x1 H1) as (y1 & G1 & F1 & _), (Hb p2 x2 H2) as (y2 & G2 & F2 & _). apply (R7 p1 p2 y1 y2); congruence.
  - intros p' y' Hp' Hy'. destruct (Hb p' y' Hy') as (y & Hy & _ & _ & _ & F). rewrite F. by apply (R8 p').
Qed.

Lemma processes_update m hd tl c n ps limbo p x x' :
  processes_rep m hd tl c n ps limbo -> m !! p = Some x -> slot_part x' = slot_part x -> processes_rep (<[p := x']> m) hd tl c n ps limbo.
Proof.
  intros Hps Hx E. unfold slot_part in E. injection E as E1 E2 E3 E4 E5 E6. apply (processes_place m hd tl c n ps limbo p x); [done|done|unfold place_part; congruence|].
  rewrite E2. apply (pr_ok _ _ _ _ _ _ _ Hps p x Hx).
Qed.

Lemma records_update h m ps n l p x x' : records_rep h m ps n l -> m !! p = Some x -> p_id x' = p_id x -> records_rep h (<[p := x']> m) ps n l.
Proof.
  intros [C1 C2 C3 C4] Hx E. split; try done. intros e p' y He Hp Hy. apply lookup_insert_Some in Hy as [[<- <-]|[_ Hy]]; [rewrite E|]; by eapply C3.
Qed.

Lemma spaces_update s q p x x' :
  inv s q -> processes s !! p = Some x -> process_address_space x' = process_address_space x -> inv (with_processes (<[p := x']> (processes s)) s) q.
Proof.
  intros Hinv Hx E. apply inv_with_processes; [done|]. intros t r p' y _ _ Hy Hne. destruct (decide (p' = p)) as [->|Hn].
  - rewrite lookup_insert_eq. eexists. split; [done|]. congruence.
  - rewrite lookup_insert_ne by done. eauto.
Qed.

Lemma idle_update s p x x' : idle_stays s -> processes s !! p = Some x -> flags (p_header x') = flags (p_header x) -> idle_stays (with_processes (<[p := x']> (processes s)) s).
Proof.
  intros Hi Hx E i r p' y H1 H2 H3 H4. cbn [processes with_processes] in H4. apply lookup_insert_Some in H4 as [[<- <-]|[_ H4]]; [rewrite E|]; by eapply Hi.
Qed.

Lemma launch_update m p x x' : m !! p = Some x -> launch_arguments x' = launch_arguments x -> owned_by launch_arguments (<[p := x']> m) = (owned_by launch_arguments m).
Proof. intros Hx E. apply owned_same. rewrite fmap_insert. apply insert_id. by rewrite lookup_fmap, Hx, E. Qed.

(** Any other field of a process may be set, and blocks handed back that are not owned. *)
Lemma kinv_process_owns k q ps limbo p x x' b :
  kinv k q ps limbo -> processes (sched k) !! p = Some x -> place_part x' = place_part x -> 0 <= parent_process_id x' < p_id x -> flags (p_header x') = flags (p_header x) ->
  thread_list_head x' = thread_list_head x -> thread_list_tail x' = thread_list_tail x -> thread_count x' = thread_count x -> main_thread x' = main_thread x ->
  owns (with_sched (with_processes (<[p := x']> (processes (sched k))) (sched k)) (with_blocks b k)) -> (forall a, launch_arguments x' = Some a -> launch_arguments x = Some a) ->
  kinv (with_sched (with_processes (<[p := x']> (processes (sched k))) (sched k)) (with_blocks b k)) q ps limbo.
Proof.
  intros Hk Hx E Epar Eh M1 M2 M3 M4 Ho Hla. pose proof E as E'. unfold place_part in E'. injection E' as E1 _ E4 _ _. split; life_cbn.
  - eapply spaces_update; [apply Hk|done|done].
  - eapply processes_place; [apply Hk|done|done|done].
  - intros p' y Hy. apply lookup_insert_Some in Hy as [[<- <-]|[_ Hy]]; [|by apply (ki_members _ _ _ _ Hk)].
    destruct (ki_members _ _ _ _ Hk p x Hx) as [l Hl]. exists l. by eapply member_process.
  - apply (ki_limbo _ _ _ _ Hk).
  - apply Hk.
  - apply Hk.
  - destruct (ki_records _ _ _ _ Hk) as [lr Hr]. exists lr. by eapply records_update.
  - eapply idle_update; [apply Hk|done|done].
  - exact Ho.
  - apply (registered_keeps k); try done; [apply Hk|..]; life_cbn.
    + intros o Hp. destruct (decide (o = p)) as [->|Hne]; [rewrite lookup_insert_eq; by eauto|by rewrite lookup_insert_ne].
    + intros o. unfold owned. life_cbn. rewrite (owned_update _ _ _ _ _ Hx), (owned_by_delete launch_arguments _ p x Hx), !elem_of_app, !elem_of_cons, !elem_of_app.
      intros [H|[[->|[H|H]]|H]]; auto 6. right. left. right. left. destruct (launch_arguments x') as [a|]; cbn in H; [|by apply not_elem_of_nil in H]. by rewrite (Hla a eq_refl).
Qed.

Lemma kinv_process k q ps limbo p x x' :
  kinv k q ps limbo -> processes (sched k) !! p = Some x -> slot_part x' = slot_part x -> p_header x' = p_header x -> launch_arguments x' = launch_arguments x ->
  thread_list_head x' = thread_list_head x -> thread_list_tail x' = thread_list_tail x -> thread_count x' = thread_count x -> main_thread x' = main_thread x ->
  kinv (with_sched (with_processes (<[p := x']> (processes (sched k))) (sched k)) k) q ps limbo.
Proof.
  intros Hk Hx E Eh El M1 M2 M3 M4. replace k with (with_blocks (blocks k) k) at 3 by (by destruct k). pose proof E as E'. unfold slot_part in E'. injection E' as E1 E2 E3 E4 E5 E6.
  eapply kinv_process_owns; try done; [unfold place_part; congruence|rewrite E2; apply (pr_ok _ _ _ _ _ _ _ (ki_processes _ _ _ _ Hk) p x Hx)|by rewrite Eh| |by intros a; rewrite El].
  eapply (owns_perm k); [|done|apply Hk]. unfold owned. life_cbn. by erewrite launch_update.
Qed.

(** The loader says who launched a process. *)
Lemma kinv_launcher k q ps limbo p x n :
  kinv k q ps limbo -> processes (sched k) !! p = Some x -> 0 <= n < p_id x -> kinv (with_sched (with_processes (<[p := with_parent_process_id n x]> (processes (sched k))) (sched k)) k) q ps limbo.
Proof.
  intros Hk Hx Hn. replace k with (with_blocks (blocks k) k) at 3 by (by destruct k). eapply kinv_process_owns; try done.
  eapply (owns_perm k); [|done|apply Hk]. unfold owned. life_cbn. by erewrite launch_update.
Qed.

(** ** Attaching and detaching *)
Lemma joined_same t hd x :
  slot_part (joined t hd x) = slot_part x /\ p_header (joined t hd x) = p_header x /\ launch_arguments (joined t hd x) = launch_arguments x /\
  p_state (joined t hd x) = p_state x /\ exit_code (joined t hd x) = exit_code x.
Proof. unfold joined. cbn zeta. by destruct (bool_decide _). Qed.

Lemma attach_run k q ps limbo p x t r m hd :
  kinv k q ps limbo -> p ∈ ps -> processes (sched k) !! p = Some x -> threads (sched k) !! t = Some r -> t_parent r = None ->
  dl_append (H := member_links) (<[t := with_t_parent (Some p) r]> (threads (sched k))) (thread_list_head x) (thread_list_tail x) t = Ok (m, hd, Some t) ->
  attach_thread (Some p) (Some t) k =
    KDone StatusOK (with_sched (with_processes (<[p := joined t hd x]> (processes (sched k))) (with_threads m (sched k))) k).
Proof.
  intros Hk Hp Hx Hr Hpar Hrun. unfold attach_thread. rewrite (kseq_compute _ _ k true).
  2: { rewrite (contains_process_ok _ _ _ (ki_processes _ _ _ _ Hk)). cbn [among]. by rewrite bool_decide_eq_true_2. }
  cbn [negb]. rewrite (kseq_thread t r) by done. rewrite Hpar, bool_decide_eq_false_2, bool_decide_eq_true_2 by done. cbn [negb].
  rewrite (kseq_set_thread t r) by done. set (x1 := with_thread_list_tail (Some t) (with_thread_list_head hd x)).
  rewrite (kseq_sched _ _ _ (with_processes (<[p := x1]> (processes (sched k))) (with_threads m (sched k)))).
  2: { life_cbn. unfold get_process at 1. life_cbn. rewrite Hx, bind_ok, Hrun, bind_ok. unfold set_members, set_process, get_process. life_cbn. by rewrite Hx. }
  rewrite (kseq_set_proc p x1) by (life_cbn; apply lookup_insert_eq).
  rewrite (kseq_set_proc p (if bool_decide (main_thread x1 = None) then with_main_thread (Some t) x1 else x1)) by (life_cbn; apply lookup_insert_eq).
  unfold kret. life_cbn. rewrite !insert_insert_eq. done.
Qed.

(** One thread changed hands between no process and [p]. *)
Lemma kinv_regroup k q ps p x x' t m (touched l : list Z) :
  kinv k q ps [] -> p ∈ ps -> processes (sched k) !! p = Some x -> slot_part x' = slot_part x -> p_header x' = p_header x -> launch_arguments x' = launch_arguments x ->
  keeps unowned (threads (sched k)) m -> member_rep m p x' l ->
  (forall u ru, m !! u = Some ru -> exists r0, threads (sched k) !! u = Some r0 /\ kernel_stack ru = kernel_stack r0 /\
    (t_parent ru = t_parent r0 \/ t_parent ru = None \/ (u = t /\ t_parent ru = Some p /\ g_idle_thread (sched k) <> Some t))) ->
  (forall a, a ∈ touched -> exists ra, threads (sched k) !! a = Some ra /\ (t_parent ra = Some p \/ t_parent ra = None)) ->
  (forall a, a ∉ touched -> m !! a = threads (sched k) !! a) ->
  (forall a ra, a ∈ touched -> m !! a = Some ra -> t_parent ra = Some p \/ t_parent ra = None) ->
  kinv (with_sched (with_processes (<[p := x']> (processes (sched k))) (with_threads m (sched k))) k) q ps [].
Proof.
  intros Hk Hp Hx Es Eh El Hku Hl Hback Ht1 Ht2 Ht3. pose proof (ki_sched _ _ _ _ Hk) as Hinv. pose proof (ki_processes _ _ _ _ Hk) as Hps.
  pose proof Es as Es'. unfold slot_part in Es'. injection Es' as E1 _ _ E4 _ _.
  assert (owned (with_sched (with_processes (<[p := x']> (processes (sched k))) (with_threads m (sched k))) k) ≡ₚ owned k) as Eown.
  { unfold owned. life_cbn. rewrite (launch_update _ p x) by done. rewrite (owned_same kernel_stack (threads (sched k)) m); [done|].
    eapply stacks_back; [exact Hku|]. intros u ru Hu. destruct (Hback u ru Hu) as (r0 & H0 & E & _). eauto. }
  split; life_cbn.
  - apply (spaces_update (with_threads m (sched k)) q p x); [|done|done]. apply inv_members; [done|done|].
    intros u ru p' Hu Hp'. destruct (Hback u ru Hu) as (r0 & H0 & _ & [E|[E|(_ & E & _)]]); [|congruence|].
    + apply (ok_parent _ _ _ (inv_threads _ _ Hinv u r0 H0)). congruence.
    + rewrite E in Hp'. injection Hp' as <-. exists x. split; [done|]. by apply (pr_space _ _ _ _ _ _ _ Hps p x).
  - by eapply processes_update.
  - intros p' y Hy. apply lookup_insert_Some in Hy as [[<- <-]|[Hne Hy]]; [by exists l|].
    destruct (ki_members _ _ _ _ Hk p' y Hy) as [l' Hl']. exists l'. by eapply (member_other _ _ p' y l' p touched).
  - intros p' u ru Hp'. by apply not_elem_of_nil in Hp'.
  - eapply tids_keeps; [exact Hku|apply Hk].
  - destruct (ki_objects _ _ _ _ Hk) as [lo Ho]. exists lo. by eapply objects_keeps.
  - destruct (ki_records _ _ _ _ Hk) as [lr Hrc]. exists lr. by eapply records_update.
  - intros i ri p' y Hi Hri Hp' Hy. change (g_idle_thread (sched k) = Some i) in Hi. cbn [processes with_processes] in Hy.
    destruct (Hback i ri Hri) as (r0 & H0 & _ & E). assert (t_parent r0 = Some p') as Hp0 by (destruct E as [E|[E|(-> & _ & E)]]; congruence).
    apply lookup_insert_Some in Hy as [[<- <-]|[_ Hy]]; [rewrite Eh|]; by eapply (ki_idle _ _ _ _ Hk).
  - eapply (owns_perm k); [exact Eown|done|apply Hk].
  - apply (registered_keeps k); try done; [apply Hk|..]; life_cbn.
    + intros o. by rewrite (keeps_is_Some _ _ _ _ Hku).
    + intros o Ho. destruct (decide (o = p)) as [->|Hne]; [rewrite lookup_insert_eq; by eauto|by rewrite lookup_insert_ne].
    + intros o. by rewrite Eown.
Qed.

Lemma kinv_attach k q ps p x t r :
  kinv k q ps [] -> p ∈ ps -> processes (sched k) !! p = Some x -> threads (sched k) !! t = Some r -> t_parent r = None -> g_idle_thread (sched k) <> Some t ->
  exists m hd, let k1 := with_sched (with_processes (<[p := joined t hd x]> (processes (sched k))) (with_threads m (sched k))) k in
    attach_thread (Some p) (Some t) k = KDone StatusOK k1 /\ kinv k1 q ps [] /\
    keeps unowned (threads (sched k)) m /\ (exists r1, m !! t = Some r1 /\ t_parent r1 = Some p /\ unowned r1 = unowned r) /\
    (forall u ru, m !! u = Some ru -> exists r0, threads (sched k) !! u = Some r0 /\ content (H := member_links) ru = content (H := member_links) (if decide (u = t) then with_t_parent (Some p) r0 else r0)).
Proof.
  intros Hk Hp Hx Hr Hpar Hidle. destruct (ki_members _ _ _ _ Hk p x Hx) as [l Hl]. pose proof (ki_sched _ _ _ _ Hk) as Hinv.
  assert (len l + 1 < 2 ^ 64) as Hlen.
  { pose proof (dlist_length (H := member_links) _ _ _ _ (mb_list _ _ _ _ Hl)). pose proof (inv_small _ _ Hinv). lia. }
  destruct (member_join _ _ _ _ t r Hl Hr Hpar Hlen) as (m & hd & Hrun & Hl1 & Hku & Hfr & Hback).
  assert (exists r1, m !! t = Some r1 /\ t_parent r1 = Some p /\ unowned r1 = unowned r) as (r1 & Hr1 & Hp1 & Eu).
  { destruct (mb_all _ _ _ _ Hl1 t) as [(r1 & Hr1 & Hp1) _]; [apply elem_of_app; right; apply list_elem_of_here|]. exists r1. split_and!; [done|done|].
    destruct (keeps_lookup _ _ _ _ _ Hku Hr) as (r2 & Hr2 & E). congruence. }
  exists m, hd. cbn zeta. split_and!; [by eapply attach_run| |done|by exists r1|done].
  destruct (joined_same t hd x) as (Es & Eh & El & _). eapply (kinv_regroup k q ps p x _ t m (l ++ [t])); try done.
  - intros u ru Hu. destruct (Hback u ru Hu) as (r0 & H0 & E). exists r0. split; [done|]. pose proof (f_equal kernel_stack E) as E1. pose proof (f_equal t_parent E) as E3.
    destruct (decide (u = t)) as [->|Hne]; (split; [exact E1|]); [right; by right|by left].
  - intros a [Ha|Ha]%elem_of_app; [apply (mb_all _ _ _ _ Hl) in Ha as (ra & Hra & Hpa); exists ra; split; [done|by left]|].
    apply list_elem_of_singleton in Ha as ->. exists r. split; [done|by right].
  - intros a ra Ha Hra. apply (mb_all _ _ _ _ Hl1) in Ha as (ra' & Hra' & E). left. congruence.
Qed.

Lemma parted_same t hd tl x :
  slot_part (parted t hd tl x) = slot_part x /\ p_header (parted t hd tl x) = p_header x /\ launch_arguments (parted t hd tl x) = launch_arguments x /\
  p_state (parted t hd tl x) = p_state x /\ exit_code (parted t hd tl x) = exit_code x.
Proof. unfold parted. cbn zeta. destruct (bool_decide _); by destruct (negb _). Qed.

Lemma detach_run k p x t r m1 m r1 hd tl :
  processes (sched k) !! p = Some x -> threads (sched k) !! t = Some r -> t_parent r = Some p ->
  dl_unlink (H := member_links) (threads (sched k)) (thread_list_head x) (thread_list_tail x) t = Ok (m1, hd, tl) -> m1 !! t = Some r1 ->
  m = <[t := with_process_prev None (with_process_next None (with_t_parent None r1))]> m1 ->
  detach_thread (Some p) (Some t) k =
    KDone StatusOK (with_sched (with_processes (<[p := parted t hd tl x]> (processes (sched k))) (with_threads m (sched k))) k).
Proof.
  intros Hx Hr Hpar Hrun Hr1 ->. unfold detach_thread. rewrite (kseq_thread t r) by done. rewrite bool_decide_eq_true_2 by done. cbn [negb].
  set (x1 := with_thread_list_tail tl (with_thread_list_head hd x)).
  rewrite (kseq_sched _ _ _ (with_processes (<[p := x1]> (processes (sched k))) (with_threads m1 (sched k)))).
  2: { unfold get_process at 1. rewrite Hx, bind_ok, Hrun, bind_ok. unfold set_members, set_process, get_process. life_cbn. by rewrite Hx. }
  rewrite (kseq_set_thread t r1) by done.
  rewrite (kseq_set_proc p x1) by (life_cbn; apply lookup_insert_eq).
  rewrite (kseq_set_proc p (if bool_decide (main_thread x1 = Some t) then with_main_thread (thread_list_head x1) x1 else x1)) by (life_cbn; apply lookup_insert_eq).
  unfold kret. life_cbn. rewrite !insert_insert_eq. done.
Qed.

Lemma kinv_detach k q ps p x t r :
  kinv k q ps [] -> p ∈ ps -> processes (sched k) !! p = Some x -> threads (sched k) !! t = Some r -> t_parent r = Some p ->
  exists m hd tl l, let k1 := with_sched (with_processes (<[p := parted t hd tl x]> (processes (sched k))) (with_threads m (sched k))) k in
    detach_thread (Some p) (Some t) k = KDone StatusOK k1 /\ kinv k1 q ps [] /\ keeps unowned (threads (sched k)) m /\
    (exists r1, m !! t = Some r1 /\ t_parent r1 = None /\ unowned r1 = unowned r /\ t_stacks r1 = t_stacks r) /\
    (forall u ru, u <> t -> m !! u = Some ru -> exists r0, threads (sched k) !! u = Some r0 /\ content (H := member_links) ru = content (H := member_links) r0) /\
    member_rep m p (parted t hd tl x) l.
Proof.
  intros Hk Hp Hx Hr Hpar. destruct (ki_members _ _ _ _ Hk p x Hx) as [l Hl].
  destruct (member_leave _ _ _ _ t r Hl Hr Hpar) as (l1 & l2 & m1 & m & hd & tl & r1 & El & Hrun & Hr1 & Em & Eu & Est & Hl1 & Hku & Hfr & Hback).
  exists m, hd, tl, (l1 ++ l2). cbn zeta. destruct (parted_same t hd tl x) as (Es & Eh & Ela & _). split_and!; [by eapply detach_run| |done| | |done].
  - eapply (kinv_regroup k q ps p x _ t m l); try done.
    + intros u ru Hu. destruct (Hback u ru Hu) as (r0 & H0 & E1 & E3). exists r0. split_and!; [done|done|]. destruct E3 as [E3|[_ E3]]; [left; exact (f_equal t_parent E3)|]. right. by left.
    + intros a Ha. apply (mb_all _ _ _ _ Hl) in Ha as (ra & Hra & Hpa). exists ra. split; [done|by left].
    + intros a ra Ha Hra. destruct (Hback a ra Hra) as (r0 & H0 & _ & [E|[_ E]]); [|by right]. left. apply (mb_all _ _ _ _ Hl) in Ha as (ra' & Hra' & E'). assert (t_parent ra = t_parent r0) by exact (f_equal t_parent E). congruence.
  - eexists. split; [rewrite Em; apply lookup_insert_eq|]. split_and!; [done|by rewrite <- Eu|done].
  - intros u ru Hne Hu. destruct (Hback u ru Hu) as (r0 & H0 & _ & [E|[-> _]]); [|done]. by exists r0.
Qed.

(** ** A thread leaves the registry *)
Lemma unlink_exact s q t r :
  inv s q -> threads s !! t = Some r ->
  exists m hd tl l1 l2, unlink_thread t s = Ok (set_registry m hd tl s) /\ registry q = l1 ++ t :: l2 /\
    registry_dlist m hd tl (l1 ++ l2) /\ relinked (H := registry_links) (threads s) m.
Proof.
  intros Hinv Hr. pose proof (inv_registry _ _ Hinv) as [G1 G2 G3]. assert (t ∈ registry q) as Ht by (apply G2; eauto).
  apply list_elem_of_split in Ht as (l1 & l2 & El). rewrite El in G1.
  destruct (dl_unlink_ok (H := registry_links) _ _ _ _ _ _ G1) as (m & hd & tl & Hrun & Hd & Hk).
  destruct (relinked_lookup (H := registry_links) _ _ _ _ Hk Hr) as (r1 & Hr1 & E1). unfold unlink_thread. rewrite Hrun, bind_ok. rewrite (thread_set_ok t r1) by done.
  exists (<[t := with_t_prev None (with_t_next None r1)]> m), hd, tl, l1, l2. split_and!; [done|done| |].
  - eapply (dlist_frame (H := registry_links)); [|exact Hd]. intros u Hu. apply lookup_insert_ne. intros <-.
    destruct G1 as (Hnd & _). apply list.NoDup_app in Hnd as (_ & Hdis & [Ht2 _]%list.NoDup_cons).
    apply elem_of_app in Hu as [Hu|Hu]; [by apply (Hdis t Hu), list_elem_of_here|done].
  - transitivity m; [done|]. by eapply (relinked_insert (H := registry_links)).
Qed.

(** An ended thread is on no queue. *)
Lemma ended_unqueued s q t r : inv s q -> threads s !! t = Some r -> current_state r = Terminated -> (forall p l, ready q !! p = Some l -> t ∉ l) /\ t ∉ sleepers q.
Proof.
  intros Hinv Hr Hst. split.
  - intros p l Hl Ht. destruct (rr_member _ _ _ _ _ (inv_ready _ _ Hinv) p l t Hl Ht) as (r' & Hr' & _ & _ & E). congruence.
  - intros Ht. pose proof (sl_waiting _ _ _ _ (inv_sleep _ _ Hinv) t r Ht Hr). congruence.
Qed.

(** The invariant once the record of a thread without a process is gone. *)
Lemma kinv_dismiss k q ps t r h l' m hd tl l1 l2 b :
  kinv k q ps [] -> threads (sched k) !! t = Some r -> t_parent r = None -> current_state r = Terminated -> t ∉ retired q -> g_current_thread (sched k) <> Some t ->
  registry q = l1 ++ t :: l2 -> registry_dlist m hd tl (l1 ++ l2) -> relinked (H := registry_links) (threads (sched k)) m ->
  objects_rep h (delete t (threads (sched k))) ps l' -> (forall o, o ∈ l' -> live k o /\ o <> t) -> m_items h = m_items (g_objects k) ->
  b = blocks k ∖ block_set (kernel_stack r) ∖ {[t]} ->
  kinv (with_blocks b (with_g_objects h (with_sched (release_thread_slot t (with_g_thread_count (g_thread_count (sched k) - 1) (set_registry m hd tl (sched k)))) k)))
    (with_registry (l1 ++ l2) q) ps [].
Proof.
  intros Hk Hr Hpar Hst Hre Hct Hreg Hd Hrel Hobj Hliv Hit Hb. pose proof (ki_sched _ _ _ _ Hk) as Hinv.
  pose proof (released_inv (sched k) q t r m hd tl l1 l2 Hinv Hr Hst Hre Hct Hreg Hd (keeps_content _ _ Hrel)) as Hinv1.
  assert (keeps member_part (threads (sched k)) m) as Hkm by exact (keeps_weaken (content (H := registry_links)) member_part _ _ Hrel).
  assert (keeps t_id (threads (sched k)) m) as Hki by exact (keeps_weaken (content (H := registry_links)) t_id _ _ Hrel).
  assert (keeps kernel_stack (threads (sched k)) m) as Hks by exact (keeps_weaken (content (H := registry_links)) kernel_stack _ _ Hrel).
  destruct (keeps_lookup _ _ _ _ _ Hkm Hr) as (r1 & Hr1 & E1). injection E1 as _ _ E1.
  destruct (keeps_lookup _ _ _ _ _ Hks Hr) as (r2 & Hr2 & E2). rewrite Hr1 in Hr2. injection Hr2 as <-. split; life_cbn.
  - exact (inv_thread_count _ _ (g_thread_count (sched k) - 1) Hinv1).
  - apply Hk.
  - intros p x Hx. destruct (ki_members _ _ _ _ Hk p x Hx) as [lm Hm]. exists lm. eapply members_drop; [exact Hr1|congruence|]. by eapply member_frame.
  - intros p u ru Hp. by apply not_elem_of_nil in Hp.
  - destruct (ki_tids _ _ _ _ Hk) as [T1 T2 T3]. split; [| |done].
    + unfold with_registry. cbn [registry]. rewrite T1, Hreg, !length_app. cbn [length]. lia.
    + intros u ru [_ Hu]%lookup_delete_Some. destruct (keeps_back _ _ _ _ _ Hki Hu) as (r0 & Hr0 & ->). by apply (T2 u).
  - exists l'. destruct Hobj as [O1 O2 O3 O4]. split; try done. intros u [ru [Hne Hu]%lookup_delete_Some]. apply O3. rewrite lookup_delete_ne by done.
    destruct (keeps_back _ _ _ _ _ Hki Hu) as (r0 & Hr0 & _). eauto.
  - apply Hk.
  - intros i ri p x Hi Hri Hp Hx. change (delete t m !! i = Some ri) in Hri. apply lookup_delete_Some in Hri as [_ Hri]. destruct (keeps_back _ _ _ _ _ Hkm Hri) as (r0 & Hr0 & E).
    injection E as _ _ E. apply (ki_idle _ _ _ _ Hk i r0 p x); try done. congruence.
  - destruct (ki_owns _ _ _ _ Hk) as [N1 N2]. unfold owned in N1, N2. rewrite <- (owned_keeps _ _ Hks) in N1, N2.
    rewrite (owned_by_delete kernel_stack m t r1 Hr1) in N1. setoid_rewrite (owned_by_delete kernel_stack m t r1 Hr1) in N2. rewrite E2 in N1, N2.
    cbn [app] in N1. rewrite <- app_assoc in N1. apply list.NoDup_cons in N1 as [M1 N1]. apply list.NoDup_app in N1 as (_ & M2 & N1).
    unfold owns, owned. life_cbn. rewrite Hit. split; [done|]. intros c. rewrite Hb, !elem_of_difference, elem_of_singleton, <- N2. cbn [app].
    rewrite elem_of_cons, <- (app_assoc (option_list (kernel_stack r))), (elem_of_app (option_list _)).
    set (rest := owned_by kernel_stack (delete t m) ++ _) in *. split.
    + intros Hc. split_and!; [by right; right| |by intros ->; apply M1, elem_of_app; right]. intros Hs. apply (M2 c); [|done].
      destruct (kernel_stack r) as [a|]; cbn in Hs |- *; set_solver.
    + intros [[[->|[Hs|Hc]] Hn] Ht]; [done| |done]. destruct Hn. destruct (kernel_stack r) as [a|]; cbn in Hs |- *; set_solver.
  - destruct (ki_registered _ _ _ _ Hk) as [G1 G2]. split; life_cbn.
    + intros l o Hl Ho. rewrite <- (holds_unique _ _ _ (ob_holds _ _ _ _ Hobj) Hl) in Ho. destruct (Hliv o Ho) as [[[ro Hro]|[H|H]] Hne]; [left|by right; left|by right; right].
      destruct (keeps_lookup _ _ _ _ _ Hki Hro) as (r' & Hr' & _). exists r'. life_cbn. by rewrite lookup_delete_ne.
    + intros o Ho Hin. apply (G2 o Ho). unfold owned in Hin |- *. revert Hin. life_cbn. rewrite <- (owned_keeps _ _ Hks), (owned_by_delete kernel_stack m t r1 Hr1), Hit, !elem_of_app, elem_of_cons, elem_of_app. tauto.
Qed.
