(* ===== verification/LifeDestroy.v ===== *)
(** The first act of destroying a thread: the scheduler forgets it.

    Single steps on objects, processes and threads: that they keep the invariant and
    are changes a call may make.

    Destroying a thread. *)
From stdpp Require Import base list gmap.
From Stdlib Require Import ZArith Lia.
From S2P Require Import Prelude KernelText DList KernelIface SchedState Scheduler SchedQueues SchedOps SchedInv SchedLogic ThreadRegistry HeapList LifeState Lifecycle LifeInv LifeChanges.

Local Open Scope Z_scope.

(** All of a thread but where it is queued, what it waits for and its state. *)
Definition resting (r : Thread) : Thread := with_current_state Ready (with_wake_tick 0 (with_wait None 0 (bare r))).

Lemma flag_iff s q t r : inv s q -> threads s !! t = Some r -> in_ready_queue r = true <-> exists p l, ready q !! p = Some l /\ t ∈ l.
Proof.
  intros Hinv Hr. split; [by apply (rr_flag _ _ _ _ _ (inv_ready _ _ Hinv) t r Hr)|].
  intros (p & l & Hl & Ht). destruct (rr_member _ _ _ _ _ (inv_ready _ _ Hinv) p l t Hl Ht) as (r' & Hr' & Hf & _). congruence.
Qed.

Lemma flag_same s q s' q' t r r' :
  inv s q -> inv s' q' -> threads s !! t = Some r -> threads s' !! t = Some r' ->
  (forall p, (exists l, ready q !! p = Some l /\ t ∈ l) <-> (exists l, ready q' !! p = Some l /\ t ∈ l)) -> in_ready_queue r' = in_ready_queue r.
Proof.
  intros H H' Hr Hr' Hsame. pose proof (flag_iff s q t r H Hr) as F. pose proof (flag_iff s' q' t r' H' Hr') as F'.
  destruct (in_ready_queue r), (in_ready_queue r'); try done.
  - destruct F as [F _]. destruct (F eq_refl) as (p & Hp). apply F'. exists p. by apply Hsame.
  - destruct F' as [F' _]. destruct (F' eq_refl) as (p & Hp). symmetry. apply F. exists p. by apply Hsame.
Qed.

Definition without (t : Z) (l : list Z) : list Z := filter (fun u => u ∉ [t]) l.

Lemma without_split t l1 l2 : NoDup (l1 ++ t :: l2) -> without t (l1 ++ t :: l2) = l1 ++ l2.
Proof.
  intros Hn. apply list.NoDup_app in Hn as (_ & Hd & [Hd2 _]%list.NoDup_cons). unfold without. rewrite filter_app, filter_cons_False by (intros Hn; by apply Hn, list_elem_of_here).
  f_equal; apply list_filter_all, Forall_forall; intros u Hu ->%list_elem_of_singleton; [by apply (Hd t Hu), list_elem_of_here|done].
Qed.

Lemma without_absent t l : t ∉ l -> without t l = l.
Proof. intros Ht. apply list_filter_all, Forall_forall. intros u Hu ->%list_elem_of_singleton. done. Qed.

Lemma without_in t l u : u ∈ without t l <-> u ∈ l /\ u <> t.
Proof. unfold without. rewrite list_elem_of_filter, list_elem_of_singleton. tauto. Qed.

(** Off its ready queue, if it is on one. *)
Lemma dequeue_exact s q t r :
  inv s q -> threads s !! t = Some r ->
  exists s1 R r1, (if in_ready_queue r then ready_queue_remove (Some t) s else Ok s) = Ok s1 /\ inv s1 (with_ready R q) /\
    (forall p l, ready q !! p = Some l -> R !! p = Some (without t l)) /\ (forall p l, R !! p = Some l -> exists l0, ready q !! p = Some l0) /\
    keeps unqueued (threads s) (threads s1) /\ threads s1 !! t = Some r1 /\ in_ready_queue r1 = false /\
    exists m queues bitmap count, s1 = set_ready m queues bitmap count s.
Proof.
  intros Hinv Hr. destruct (in_ready_queue r) eqn:Hf.
  - destruct (ready_in _ _ _ _ _ (inv_ready _ _ Hinv) t r Hr Hf) as (Hq & Hlt & l & Hl & Hin).
    apply list_elem_of_split in Hin as (l1 & l2 & ->). destruct (inv_remove s q Hinv t r l1 l2 Hr Hf Hl) as (m & queues & bitmap & count & Hrun & Hinv1 & Hk & Hmt).
    exists (set_ready m queues bitmap count s), (<[level_of r := l1 ++ l2]> (ready q)), (unqueued r). split_and!; try done; [| |by exists m, queues, bitmap, count].
    + intros p l Hp. destruct (decide (p = level_of r)) as [->|Hne].
      * rewrite Hl in Hp. injection Hp as <-. rewrite list_lookup_insert_eq by (by eapply lookup_lt_Some). f_equal. symmetry. apply without_split.
        destruct (ready_level _ _ _ _ _ (inv_ready _ _ Hinv) _ Hlt) as (Q & l' & _ & Hl' & Hd). rewrite Hl in Hl'. injection Hl' as <-. apply Hd.
      * rewrite list_lookup_insert_ne, Hp by done. f_equal. symmetry. apply without_absent. intros Ht.
        apply Hne. eapply (ready_one_level _ _ _ _ _ (inv_ready _ _ Hinv)); [exact Hp|exact Hl|exact Ht|set_solver].
    + intros p l Hp. destruct (decide (p = level_of r)) as [->|Hne]; [by eauto|]. rewrite list_lookup_insert_ne in Hp by done. eauto.
  - exists s, (ready q), r. split_and!; try done; [by destruct q| |by eauto|by exists (threads s), (g_ready_queues s), (g_ready_bitmap s), (g_ready_count s); destruct s].
    intros p l Hl. rewrite Hl. f_equal. symmetry. apply without_absent. intros Ht.
    assert (in_ready_queue r = true) by (apply (flag_iff s q t r Hinv Hr); by exists p, l). congruence.
Qed.

(** [forget], and the state set to [Terminated]. *)
Lemma forget_exact s q t r :
  inv s q -> threads s !! t = Some r -> g_current_thread s <> Some t -> g_idle_thread s <> Some t ->
  exists s1 R r1, forget (Some t) s = Ok s1 /\ threads s1 !! t = Some r1 /\ unregistered (resting r1) = unregistered (resting r) /\
    let s2 := with_threads (<[t := with_current_state Terminated r1]> (threads s1)) s1 in
    let q2 := mkQueues R (without t (sleepers q)) (retired q) (registry q) in
    inv s2 q2 /\ departs [t] s q s2 q2 /\ keeps resting (threads s) (threads s2) /\ processes s2 = processes s /\
    g_thread_count s2 = g_thread_count s /\ g_next_thread_id s2 = g_next_thread_id s.
Proof.
  intros Hinv Hr Hc Hi. unfold forget. set (s0 := with_interrupts false s). assert (inv s0 q) as H0 by (by apply inv_interrupts).
  rewrite (thread_get_ok t r s0), bind_ok by done.
  destruct (dequeue_exact s0 q t r H0 Hr) as (s1 & R & r1 & Hrun1 & Hinv1 & HR & HR' & Hk1 & Hr1 & F1 & mm & qq & bb & cc & Es1).
  rewrite Hrun1, bind_ok. destruct (inv_sleep_remove s1 _ Hinv1 t r1 Hr1) as (m & hd & tl & Hrun2 & Hinv2 & Hk2 & Hr2).
  rewrite Hrun2, bind_ok. set (s2 := set_sleep m hd tl s1) in *.
  assert (filter (fun u => u <> t) (sleepers (with_ready R q)) = without t (sleepers q)) as Efl.
  { apply list_filter_iff. intros u. rewrite list_elem_of_singleton. done. }
  rewrite Efl in Hinv2. clear Efl. cbn zeta. assert (g_current_thread s2 = g_current_thread s) as Ec by (unfold s2; subst s1; done).
  rewrite Ec, bool_decide_eq_false_2 by done. set (f := fun r : Thread => with_wake_tick 0 (with_wait None (wait_reason_code WaitNone) r)).
  rewrite (thread_set_ok t (unslept r1) f s2) by done. rewrite bind_ok. set (s3 := with_threads _ s2).
  exists (with_interrupts (interrupts s) s3), R, (f (unslept r1)). split; [done|]. split; [unfold s3; sched_cbn; by apply lookup_insert_eq|].
  assert (resting r1 = resting r) as Er.
  { destruct (keeps_lookup _ _ _ _ _ Hk1 Hr) as (r1' & Hr1' & E). change (threads s0 !! t = Some r) in Hr. rewrite Hr1 in Hr1'. injection Hr1' as <-. exact (f_equal resting E). }
  split; [exact (f_equal unregistered Er)|]. cbn zeta. set (r3 := with_current_state Terminated (f (unslept r1))).
  set (s4 := with_threads (<[t := r3]> (threads (with_interrupts (interrupts s) s3))) (with_interrupts (interrupts s) s3)).
  assert (threads s4 = <[t := r3]> m) as Em by (unfold s4, s3, s2; sched_cbn; by rewrite insert_insert_eq).
  assert (keeps resting (threads s) (threads s4)) as Hkr.
  { rewrite Em. transitivity (threads s1); [exact (keeps_weaken unqueued resting _ _ Hk1)|]. transitivity m; [exact (keeps_weaken unslept resting _ _ Hk2)|]. by eapply keeps_insert. }
  set (q2 := mkQueues R (without t (sleepers q)) (retired q) (registry q)).
  assert (inv s4 q2) as Hinv4.
  { pose proof (inv_update s2 q2 Hinv2 t (unslept r1) r3 Hr2) as Hu. assert (inv (with_threads (<[t := r3]> (threads s2)) s2) q2) as Hu4.
    - apply Hu; try done; [cbn; congruence|intros [_ Ht]%without_in; done|subst s1; done|].
      destruct (inv_threads _ _ Hinv2 t _ Hr2) as [K1 K2 K3 K4 K5]. by split.
    - apply (inv_interrupts _ _ (interrupts s)) in Hu4. unfold s4, s3. sched_cbn. rewrite insert_insert_eq. exact Hu4. }
  split_and!; [done| |done|unfold s4, s3, s2; subst s1; done..].
  assert (forall u, u <> t -> forall p, (exists l, ready q !! p = Some l /\ u ∈ l) <-> (exists l, ready q2 !! p = Some l /\ u ∈ l)) as Hsame.
  { intros u Hne p. cbn [ready q2]. split.
    - intros (l & Hl & Hu). exists (without t l). split; [by apply HR|]. by apply without_in.
    - intros (l & Hl & Hu). destruct (HR' p l Hl) as [l0 Hl0]. exists l0. split; [done|]. rewrite (HR p l0 Hl0) in Hl. injection Hl as <-. by apply without_in in Hu as [Hu _]. }
  split; try (unfold s4, s3, s2; subst s1; done).
  - exists []. split; [done|]. intros c _. apply not_elem_of_nil.
  - intros u ru Hu Hg _. assert (u <> t) as Hne by (intros ->; by apply Hg, list_elem_of_here).
    rewrite Em, lookup_insert_ne by done. destruct (keeps_lookup _ _ _ _ _ Hk1 Hu) as (ru1 & Hu1 & E1). destruct (keeps_lookup _ _ _ _ _ Hk2 Hu1) as (ru2 & Hu2 & E2).
    exists ru2. split; [done|]. left. split.
    + transitivity (still ru1); [exact (f_equal still E2)|exact (f_equal still E1)].
    + eapply (flag_same s q s4 q2 u ru ru2); [done|done|done|by rewrite Em, lookup_insert_ne|]. by apply Hsame.
  - intros u Hu. rewrite (keeps_is_Some _ _ _ _ Hkr) in Hu. done.
  - intros p l Hl. exists []. rewrite app_nil_r. by apply HR.
  - apply sublist_filter.
  - intros u Hu Hg. left. apply without_in. split; [done|]. intros ->. by apply Hg, list_elem_of_here.
  - intros p x Hx. exists x. split_and!; [|done|done]. revert Hx. unfold s4, s3, s2. subst s1. done.
Qed.

(** ** Changes that keep the invariant *)

(** Header and stacks of threads. *)
Lemma kinv_threads k q ps limbo m :
  kinv k q ps limbo -> keeps unowned (threads (sched k)) m -> keeps member_part (threads (sched k)) m -> keeps kernel_stack (threads (sched k)) m ->
  kinv (with_sched (with_threads m (sched k)) k) q ps limbo.
Proof.
  intros Hk Hu Hm Hs. split; life_cbn.
  - apply inv_members; [apply Hk|done|]. intros t r p Hr Hp. destruct (keeps_back _ _ _ _ _ Hm Hr) as (r0 & Hr0 & E). injection E as _ _ E.
    apply (ok_parent _ _ _ (inv_threads _ _ (ki_sched _ _ _ _ Hk) t r0 Hr0)). congruence.
  - apply Hk.
  - intros p x Hx. destruct (ki_members _ _ _ _ Hk p x Hx) as [l Hl]. exists l. by eapply member_frame.
  - intros p t r Hp Hr. destruct (keeps_back _ _ _ _ _ Hm Hr) as (r0 & Hr0 & E). injection E as _ _ E. rewrite E. by eapply (ki_limbo _ _ _ _ Hk).
  - eapply tids_keeps; [done|apply Hk].
  - destruct (ki_objects _ _ _ _ Hk) as [l Hl]. exists l. by eapply objects_keeps.
  - apply Hk.
  - intros i r p x Hi Hr Hp Hx. destruct (keeps_back _ _ _ _ _ Hm Hr) as (r0 & Hr0 & E). injection E as _ _ E.
    apply (ki_idle _ _ _ _ Hk i r0 p x); try done. congruence.
  - eapply (owns_perm k); [|done|apply Hk]. unfold owned. life_cbn. by rewrite (owned_keeps _ _ Hs).
  - apply (registered_keeps k); try done; [apply Hk|..]; life_cbn; [intros o; by rewrite (keeps_is_Some _ _ _ _ Hu)|]. intros o. unfold owned. life_cbn. by rewrite (owned_keeps _ _ Hs).
Qed.

(** What the scheduler does to its queues. *)
Lemma kinv_rest k q ps limbo s q' :
  kinv k q ps limbo -> inv s q' -> keeps resting (threads (sched k)) (threads s) -> processes s = processes (sched k) -> registry q' = registry q ->
  g_thread_count s = g_thread_count (sched k) -> g_next_thread_id s = g_next_thread_id (sched k) -> g_idle_thread s = g_idle_thread (sched k) ->
  kinv (with_sched s k) q' ps limbo.
Proof.
  intros Hk Hinv Hr Hp Hreg Hc Hn Hi.
  assert (keeps member_part (threads (sched k)) (threads s)) as Hm by exact (keeps_weaken resting member_part _ _ Hr).
  assert (keeps t_id (threads (sched k)) (threads s)) as Hid by exact (keeps_weaken resting t_id _ _ Hr).
  split; life_cbn; rewrite ?Hp, ?Hc, ?Hn.
  - done.
  - apply Hk.
  - intros p x Hx. destruct (ki_members _ _ _ _ Hk p x Hx) as [l Hl]. exists l. by eapply member_frame.
  - intros p t r Hlim Ht. destruct (keeps_back _ _ _ _ _ Hm Ht) as (r0 & Hr0 & E). injection E as _ _ E. rewrite E. by eapply (ki_limbo _ _ _ _ Hk).
  - destruct (ki_tids _ _ _ _ Hk) as [T1 T2 T3]. split; [by rewrite Hreg| |done]. intros t r Ht. destruct (keeps_back _ _ _ _ _ Hid Ht) as (r0 & Hr0 & ->). by apply (T2 t).
  - destruct (ki_objects _ _ _ _ Hk) as [l Hl]. exists l. by eapply objects_keeps.
  - apply Hk.
  - intros i r p x E1 Ht E2 Hx. rewrite Hi in E1. rewrite Hp in Hx. destruct (keeps_back _ _ _ _ _ Hm Ht) as (r0 & Hr0 & E). injection E as _ _ E.
    apply (ki_idle _ _ _ _ Hk i r0 p x); try done. congruence.
  - eapply (owns_perm k); [|done|apply Hk]. unfold owned. life_cbn. rewrite Hp. by rewrite (owned_keeps _ _ (keeps_weaken resting kernel_stack _ _ Hr)).
  - apply (registered_keeps k); try done; [apply Hk|..]; life_cbn; [intros o; by rewrite (keeps_is_Some _ _ _ _ Hr)|by rewrite Hp|]. intros o. unfold owned. life_cbn.
    by rewrite Hp, (owned_keeps _ _ (keeps_weaken resting kernel_stack _ _ Hr)).
Qed.

(** What the rest of the kernel does for a process that is not in the list, or for none. *)
Lemma kept_fields x x' : kept x' = kept x ->
  p_header x' = p_header x /\ p_id x' = p_id x /\ p_name x' = p_name x /\ launch_arguments x' = launch_arguments x /\ p_state x' = p_state x /\
  parent_process_id x' = parent_process_id x /\ main_thread x' = main_thread x /\ thread_list_head x' = thread_list_head x /\
  thread_list_tail x' = thread_list_tail x /\ thread_count x' = thread_count x /\ exit_code x' = exit_code x /\ p_next x' = p_next x /\ p_prev x' = p_prev x.
Proof. intros E. unfold kept in E. injection E. intros. split_and!; done. Qed.

Lemma frames_processes who k k' m :
  frames who k k' -> sched k' = with_processes m (sched k) -> forall p x', m !! p = Some x' ->
  exists x, processes (sched k) !! p = Some x /\ kept x' = kept x /\ (who <> Some p -> x' = x).
Proof.
  intros [(m' & E & Hd & Hm) _ _ _ _ _] Es p x' Hx'. assert (m' = m) as ->. { rewrite Es in E. by injection E. }
  assert (is_Some (processes (sched k) !! p)) as [x Hx] by (apply elem_of_dom; rewrite <- Hd; apply elem_of_dom; eauto).
  destruct (Hm p x Hx) as (y & Hy & E1 & E2). rewrite Hx' in Hy. injection Hy as <-. eauto.
Qed.

Lemma processes_frame m m' hd tl c n ps limbo who :
  processes_rep m hd tl c n ps limbo -> dom m' = dom m -> (forall p x', m' !! p = Some x' -> exists x, m !! p = Some x /\ kept x' = kept x /\ (who <> Some p -> x' = x)) ->
  (forall p, who = Some p -> p ∉ ps) -> processes_rep m' hd tl c n ps limbo.
Proof.
  intros [R1 R2 R3 R4 R5 R6 R7 R8] Hd Hb Hw. assert (forall p, is_Some (m' !! p) <-> is_Some (m !! p)) as Hdom by (intros p; by rewrite <- !elem_of_dom, Hd).
  split; try done.
  - eapply (dlist_ext (H := process_links)); [|exact R1]. intros p x _ Hx. destruct (Hdom p) as [_ [x' Hx']]; [by eauto|].
    destruct (Hb p x' Hx') as (x0 & Hx0 & E & _). rewrite Hx in Hx0. injection Hx0 as <-. exists x'. split; [done|]. split; by apply (kept_fields _ _ E).
  - intros p. by rewrite Hdom.
  - intros p x' Hx'. destruct (Hb p x' Hx') as (x & Hx & E & _). destruct (kept_fields _ _ E) as (_ & E1 & E2 & _ & _ & E3 & _). destruct (R6 p x Hx). split; by rewrite ?E1, ?E2, ?E3.
  - intros p1 p2 x1 x2 H1 H2 E. destruct (Hb p1 x1 H1) as (y1 & G1 & F1 & _), (Hb p2 x2 H2) as (y2 & G2 & F2 & _).
    apply (R7 p1 p2 y1 y2); [done|done|]. destruct (kept_fields _ _ F1) as (_ & <- & _), (kept_fields _ _ F2) as (_ & <- & _). done.
  - intros p x' Hp Hx'. destruct (Hb p x' Hx') as (x & Hx & _ & E). rewrite E; [by apply (R8 p)|]. intros ->. by apply (Hw p).
Qed.

Lemma kinv_frames who k q ps limbo k' :
  kinv k q ps limbo -> frames who k k' -> (forall p, who = Some p -> p ∈ limbo) -> kinv k' q ps limbo.
Proof.
  intros Hk Hf Hw. pose proof Hf as [(m & Es & Hd & Hm) (V1 & V2 & V3 & V4 & V5) Fo Fi Fb Ft]. pose proof (frames_processes _ _ _ _ Hf Es) as Hb.
  assert (forall p, who = Some p -> p ∉ ps) as Hw'. { intros p Hp. by apply (pr_limbo _ _ _ _ _ _ _ (ki_processes _ _ _ _ Hk)), Hw. }
  assert (owned k' = owned k) as Eown.
  { unfold owned. rewrite Es, Fi, V5. life_cbn. rewrite (owned_same launch_arguments (processes (sched k)) m); [done|].
    apply map_eq. intros p. rewrite !lookup_fmap. destruct (m !! p) as [x'|] eqn:Hx'.
    + destruct (Hb p x' Hx') as (x & -> & E & _). cbn. by destruct (kept_fields _ _ E) as (_ & _ & _ & -> & _).
    + destruct (processes (sched k) !! p) as [x|] eqn:Hx; [|done]. destruct (Hm p x Hx) as (x' & ? & _). congruence. }
  split; rewrite ?Es, ?V1, ?V2, ?V3, ?V4, ?V5; life_cbn.
  - apply inv_with_processes; [apply Hk|]. intros t r p x Hr Hp Hx Hne. destruct (Hm p x Hx) as (x' & Hx' & E & _). exists x'. split; [done|]. rewrite E; [done|].
    intros ->. by apply (ki_limbo _ _ _ _ Hk p t r (Hw p eq_refl) Hr).
  - eapply processes_frame; [apply Hk|done|exact Hb|done].
  - intros p x' Hx'. destruct (Hb p x' Hx') as (x & Hx & E & _). destruct (ki_members _ _ _ _ Hk p x Hx) as [l Hl]. exists l.
    destruct (kept_fields _ _ E) as (_ & _ & _ & _ & _ & _ & E1 & E2 & E3 & E4 & _). by eapply member_process.
  - apply (ki_limbo _ _ _ _ Hk).
  - apply Hk.
  - destruct (ki_objects _ _ _ _ Hk) as [l [O1 O2 O3 O4]]. destruct (Fo l O1 O2) as (l' & H1 & H2 & H3 & _). exists l'. split; [done|done| |].
    + intros t Ht. apply H3; [by apply O3|by left].
    + intros p Hp. apply H3; [by apply O4|]. right. apply (pr_all _ _ _ _ _ _ _ (ki_processes _ _ _ _ Hk)). by left.
  - destruct (ki_records _ _ _ _ Hk) as [l [C1 C2 C3 C4]]. exists l. split; try done. intros e p x' He Hp Hx'. destruct (Hb p x' Hx') as (x & Hx & E & _).
    destruct (kept_fields _ _ E) as (_ & -> & _). by eapply C3.
  - intros i r p x' Hi Hr Hp Hx'. destruct (Hb p x' Hx') as (x & Hx & E & _). destruct (kept_fields _ _ E) as (-> & _). by eapply (ki_idle _ _ _ _ Hk).
  - eapply (owns_perm k); [by rewrite Eown|exact Fb|apply Hk].
  - split; [|intros o Ho; rewrite Eown; by apply Ft]. intros l' o Hl' Ho. destruct (ki_objects _ _ _ _ Hk) as [l [O1 O2 _ _]]. destruct (Fo l O1 O2) as (l2 & H1 & _ & _ & H4).
    rewrite <- (holds_unique _ _ _ H1 Hl') in Ho. unfold live. rewrite Es. life_cbn. destruct (H4 o Ho) as [[_ [H|H]]|H]; [by left| |by right; right].
    right. left. apply elem_of_dom. rewrite Hd. by apply elem_of_dom.
Qed.

(** ** Changes a call may make *)

(** Only records changed, and of the threads outside [gone] only links. *)
Lemma kgrows_records gone k q k' :
  (exists m mp, sched k' = with_processes mp (with_threads m (sched k)) /\ dom m = dom (threads (sched k)) /\
    (forall t r, threads (sched k) !! t = Some r -> t ∉ gone -> exists r', m !! t = Some r' /\ steady r r') /\
    dom mp = dom (processes (sched k)) /\
    forall p x, processes (sched k) !! p = Some x -> exists x', mp !! p = Some x' /\ lasts x x' /\ parent_process_id x' = parent_process_id x /\ p_next x' = p_next x /\ p_prev x' = p_prev x) ->
  (forall t p l, t ∈ gone -> ready q !! p = Some l -> t ∉ l) ->
  next_pid k' = next_pid k -> exit_records k' = exit_records k -> process_head k' = process_head k -> process_tail k' = process_tail k -> kgrows gone [] k q k' q.
Proof.
  intros (m & mp & Es & Hd & Hm & Hdp & Hmp) Hg Hn He Hhd Htl.
  assert (forall p x', mp !! p = Some x' -> exists x, processes (sched k) !! p = Some x /\ lasts x x' /\ parent_process_id x' = parent_process_id x) as Hb.
  { intros p x' Hx'. assert (is_Some (processes (sched k) !! p)) as [x Hx] by (apply elem_of_dom; rewrite <- Hdp; apply elem_of_dom; eauto).
    destruct (Hmp p x Hx) as (y & Hy & L & E & _). rewrite Hx' in Hy. injection Hy as <-. eauto. }
  split; rewrite ?Es, ?Hn, ?He; life_cbn.
  - split; try done; life_cbn.
    + by exists []; split; [|intros c _; apply not_elem_of_nil].
    + intros t r Hr Ht _. destruct (Hm t r Hr Ht) as (r' & Hr' & S). exists r'. split; [done|by left].
    + intros t Ht. apply elem_of_dom in Ht. rewrite Hd in Ht. by apply elem_of_dom.
    + intros p l Hl. exists []. rewrite app_nil_r, list_filter_all; [done|]. apply Forall_forall. intros t Ht Hin. by eapply Hg.
    + by left.
    + intros p x' Hx'. destruct (Hb p x' Hx') as (x & Hx & L & _). destruct (lasts_fields _ _ L) as (_ & E1 & _ & E2 & _). eauto.
  - intros p x Hx _ _. destruct (Hmp p x Hx) as (x' & Hx' & L & _). eauto.
  - intros p x x' Hx Hx'. left. destruct (Hb p x' Hx') as (y & Hy & _ & E). congruence.
  - done.
  - intros l Hl. exists []. by rewrite app_nil_r.
  - apply order_same; [done|done|]. intros p x Hx. rewrite Es. destruct (Hmp p x Hx) as (y & Hy & _ & _ & A & B). by exists y.
Qed.

Lemma kgrows_frames k q k' : frames None k k' -> kgrows [] [] k q k' q.
Proof.
  intros [(m & Es & Hd & Hm) (V1 & V2 & V3 & V4 & V5) _ _ _ _]. apply kgrows_records; try done.
  - exists (threads (sched k)), m. split_and!; [by rewrite Es; destruct (sched k)|done| |done|].
    + intros t r Hr _. exists r. by split.
    + intros p x Hx. destruct (Hm p x Hx) as (x' & Hx' & E & _). exists x'. rewrite E by done. split_and!; [by rewrite <- E|apply lasts_refl|done|done|done].
  - intros t p l Ht. by apply not_elem_of_nil in Ht.
Qed.

(** The processes are untouched. *)
Lemma kgrows_sched gone k q k' q' :
  departs gone (sched k) q (sched k') q' -> processes (sched k') = processes (sched k) -> next_pid k' = next_pid k -> g_next_thread_id (sched k') = g_next_thread_id (sched k) ->
  exit_records k' = exit_records k -> process_head k' = process_head k -> process_tail k' = process_tail k -> kgrows gone [] k q k' q'.
Proof.
  intros Hd Hp Hn Ht He Hhd Htl. split; [done| | |done| |].
  - intros p x Hx _ _. exists x. rewrite Hp. split; [done|apply lasts_refl].
  - intros p x x' Hx Hx'. left. rewrite Hp in Hx'. congruence.
  - intros l Hl. exists []. by rewrite app_nil_r, He.
  - apply order_same; [done|done|]. intros p x Hx. rewrite Hp. by exists x.
Qed.

Lemma kgrows_drop gone p pgone k q k' q' :
  kgrows gone (p :: pgone) k q k' q' -> (forall x, processes (sched k) !! p = Some x -> ~ spared k k' p x) -> kgrows gone pgone k q k' q'.
Proof.
  intros [G1 G2 G3 G4 G5 G6] Hn. split; try done. intros p' x Hx Hp Hsp. destruct (decide (p' = p)) as [->|Hne]; [by destruct (Hn x Hx)|].
  apply G2; [done| |done]. intros [->|Hin]%elem_of_cons; done.
Qed.

(** ** Reports *)
Lemma publish_thread_post k q ps t r ty a b Q :
  kinv k q ps [] -> threads (sched k) !! t = Some r ->
  (forall k' q' ps', kinv k' q' ps' [] -> kgrows [] [] k q k' q' -> Q tt k') ->
  kpost outside (lifted (publish_thread_event ty t a b) k) Q.
Proof.
  intros Hk Hr HQ. pose proof (inv_threads _ _ (ki_sched _ _ _ _ Hk) t r Hr) as [_ _ Hname _ Hpar]. unfold lifted, publish_thread_event. rewrite (seq_thread t r) by done.
  assert (with_sched (sched k) k = k) as Ek by (by destruct k).
  assert (forall pid : option Z, kpost outside (lift (call (Report (PublishThreadEvent ty (KernelIface.mkThread (t_id r) (t_name r) pid (current_priority r)) a b StatusOK)) (sched k)) k) Q) as Hcall.
  { intros pid. unfold call. cbn [lift kpost]. rewrite Ek. split; [split; [by exists q, ps|done]|]. intros [] k' Hev. destruct (Hev q ps Hk) as (q' & ps' & Hk' & Hg).
    assert (with_sched (sched k') k' = k') as -> by (by destruct k'). by eapply HQ. }
  destruct (t_parent r) as [p|] eqn:Ep; [|apply Hcall]. destruct (Hpar p eq_refl) as (x & Hx & _).
  replace (seq (let! x := process_at p in ret (Some (p_id x))) _ (sched k)) with (call (Report (PublishThreadEvent ty (KernelIface.mkThread (t_id r) (t_name r) (Some (p_id x)) (current_priority r)) a b StatusOK)) (sched k)); [apply Hcall|].
  unfold seq, process_at, exec, get_process. by rewrite Hx.
Qed.

Lemma publish_process_post {B} k q ps ty p x (f : unit -> K B) Q :
  kinv k q ps [] -> processes (sched k) !! p = Some x ->
  (forall k' q' ps', kinv k' q' ps' [] -> kgrows [] [] k q k' q' -> kpost outside (f tt k') Q) ->
  kpost outside (kseq (publish_process_event ty p) f k) Q.
Proof.
  intros Hk Hx HQ. unfold publish_process_event. apply kassoc. rewrite (kseq_process p x) by done. apply kpost_call.
  - split; [by exists q, ps|]. by apply (pr_ok _ _ _ _ _ _ _ (ki_processes _ _ _ _ Hk) p x).
  - intros [] k' Hev. destruct (Hev q ps Hk) as (q' & ps' & Hk' & Hg). by eapply HQ.
Qed.

(** ** The user stack *)

(** The thread [t] is still there, with its process and its kernel stack. *)
Definition stays (t : Z) (k k' : Kern) : Prop :=
  forall r, threads (sched k) !! t = Some r ->
    exists r', threads (sched k') !! t = Some r' /\ unowned r' = unowned r /\ t_parent r' = t_parent r /\ kernel_stack r' = kernel_stack r.

Lemma stays_refl t k : stays t k k.
Proof. intros r Hr. by exists r. Qed.

Lemma stays_trans t k1 k2 k3 : stays t k1 k2 -> stays t k2 k3 -> stays t k1 k3.
Proof.
  intros H1 H2 r Hr. destruct (H1 r Hr) as (r2 & Hr2 & A1 & A2 & A3). destruct (H2 r2 Hr2) as (r3 & Hr3 & B1 & B2 & B3). exists r3. split_and!; congruence.
Qed.

Lemma stays_parents t k k' k'' : stays t k k' -> parents_kept [t] k k' k''.
Proof.
  intros H u r r' ->%list_elem_of_singleton Hr Hr'. left. destruct (H r Hr) as (r2 & Hr2 & _ & E & _). congruence.
Qed.

Lemma stays_frames who t k k' : frames who k k' -> stays t k k'.
Proof. intros [(m & Es & _) _ _ _ _ _] r Hr. exists r. by rewrite Es. Qed.

(** One or more steps that leave the queues alone. *)
Definition calmly (t : Z) (k : Kern) (q : Queues) (ps : list Z) (k' : Kern) : Prop := kinv k' q ps [] /\ kgrows [t] [] k q k' q /\ stays t k k'.

Lemma calmly_trans t k q ps k2 k3 : calmly t k q ps k2 -> calmly t k2 q ps k3 -> calmly t k q ps k3.
Proof.
  intros (K2 & G2 & S2) (K3 & G3 & S3). split_and!; [done| |by eapply stays_trans]. eapply (kgrows_set ([t] ++ [t]) [t] ([] ++ []) []); [set_solver|done|].
  eapply kgrows_trans; [exact (kinv_sound _ _ _ _ K2)|by apply stays_parents|done|done].
Qed.

(** A thread on no queue may be counted among those that go. *)
Lemma kgrows_ended t pgone k q k' q' : (forall p l, ready q !! p = Some l -> t ∉ l) -> kgrows [] pgone k q k' q' -> kgrows [t] pgone k q k' q'.
Proof.
  intros Hq [[D1 D2 D3 D4 D5 D6 D7 D8 D9 D10 D11 D12 D13] G2 G3 G4 G5 G6]. split; [|done..]. split; try done.
  - intros u r Hr _. apply D7; [done|apply not_elem_of_nil].
  - intros p l Hl. destruct (D10 p l Hl) as [new Hn]. exists new. rewrite Hn. f_equal. change (filter (fun u => u ∉ [t]) l) with (without t l).
    rewrite without_absent by (by eapply Hq). rewrite list_filter_all; [done|]. apply Forall_forall. intros u _. apply not_elem_of_nil.
  - intros u Hu _. apply D12; [done|apply not_elem_of_nil].
Qed.

Lemma calmly_frames t k q ps k' : kinv k q ps [] -> (forall p l, ready q !! p = Some l -> t ∉ l) -> frames None k k' -> calmly t k q ps k'.
Proof. intros Hk Hq Hf. split_and!; [by eapply kinv_frames|by apply kgrows_ended, kgrows_frames|by eapply stays_frames]. Qed.

Lemma calmly_process t k q ps p x x' :
  kinv k q ps [] -> (forall p l, ready q !! p = Some l -> t ∉ l) -> processes (sched k) !! p = Some x -> lasts x x' -> slot_part x' = slot_part x ->
  thread_list_head x' = thread_list_head x -> thread_list_tail x' = thread_list_tail x -> thread_count x' = thread_count x -> main_thread x' = main_thread x ->
  calmly t k q ps (with_sched (with_processes (<[p := x']> (processes (sched k))) (sched k)) k).
Proof.
  intros Hk Hq Hx L E M1 M2 M3 M4. destruct (lasts_fields _ _ L) as (Eh & _ & _ & _ & El & _). split_and!.
  - by eapply kinv_process.
  - apply kgrows_records; try done; [|by intros u p0 l0 ->%list_elem_of_singleton; apply Hq].
    exists (threads (sched k)), (<[p := x']> (processes (sched k))). split_and!; [by destruct (sched k)|done|intros u r Hr _; by exists r|by rewrite dom_insert_lookup_L|].
    intros p' y Hy. destruct (decide (p' = p)) as [->|Hne]; [rewrite lookup_insert_eq; exists x'|rewrite lookup_insert_ne by done; exists y].
    + rewrite Hx in Hy. injection Hy as <-. unfold slot_part in E. injection E as E1 E2 E3 E4 E5 E6. split_and!; done.
    + split_and!; [done|apply lasts_refl|done..].
  - intros r Hr. by exists r.
Qed.

Lemma calmly_stacks t k q ps r f :
  kinv k q ps [] -> (forall p l, ready q !! p = Some l -> t ∉ l) -> threads (sched k) !! t = Some r -> unowned (f r) = unowned r -> member_part (f r) = member_part r ->
  kernel_stack (f r) = kernel_stack r -> calmly t k q ps (with_sched (with_threads (<[t := f r]> (threads (sched k))) (sched k)) k).
Proof.
  intros Hk Hq Hr E1 E2 E3. split_and!.
  - apply kinv_threads; [done|by eapply keeps_insert..].
  - apply kgrows_records; try done; [|by intros u p0 l0 ->%list_elem_of_singleton; apply Hq].
    exists (<[t := f r]> (threads (sched k))), (processes (sched k)). split_and!; [by destruct (sched k)|by rewrite dom_insert_lookup_L| |done|].
    + intros u ru Hu Hn. exists ru. rewrite lookup_insert_ne; [by split|]. intros <-. by apply Hn, list_elem_of_here.
    + intros p x Hx. exists x. split_and!; [done|apply lasts_refl|done..].
  - intros r' Hr'. rewrite Hr in Hr'. injection Hr' as <-. exists (f r). life_cbn. rewrite lookup_insert_eq. split_and!; [done|done| |done]. unfold member_part in E2. by injection E2.
Qed.

Lemma release_user_stack_post k q ps p x t r :
  kinv k q ps [] -> (forall p l, ready q !! p = Some l -> t ∉ l) -> threads (sched k) !! t = Some r -> processes (sched k) !! p = Some x ->
  kpost outside (release_user_stack p t k) (fun _ k' => calmly t k q ps k').
Proof.
  intros Hk Hq Hr Hx. assert (calmly t k q ps k) as Hrefl by (split_and!; [done|by apply kgrows_ended, kgrows_refl|apply stays_refl]).
  unfold release_user_stack. rewrite (kseq_thread t r) by done. destruct (user_stack_backing (t_stacks r)) as [a|]; [|by apply kpost_ret].
  destruct (_ || _); [by apply kpost_ret|]. apply kpost_call; [by exists q, ps, []|]. intros [] k1 F1. pose proof (calmly_frames t k q ps k1 Hk Hq F1) as C1.
  apply kpost_call; [exists q, ps, []; apply C1|]. intros [] k2 F2. pose proof (calmly_trans _ _ _ _ _ _ C1 (calmly_frames t k1 q ps k2 (proj1 C1) Hq F2)) as C2. clear F1 F2 C1.
  destruct C2 as (K2 & G2 & S2). destruct (S2 r Hr) as (r2 & Hr2 & U2 & P2 & T2).
  assert (exists x2, processes (sched k2) !! p = Some x2) as [x2 Hx2].
  { destruct (kg_process _ _ _ _ _ _ G2 p x Hx (not_elem_of_nil _)) as (x2 & Hx2 & _); [|by exists x2].
    destruct (ki_members _ _ _ _ Hk p x Hx) as [l Hl]. destruct l as [|u l].
    - right. right. left. intros u ru Hu Hp. destruct (mb_all _ _ _ _ Hl u) as [_ Hin]. destruct (not_elem_of_nil u). apply Hin. eauto.
    - right. right. right. destruct (mb_all _ _ _ _ Hl u) as [(ru & Hu & Hp) _]; [apply list_elem_of_here|]. exists u, ru. split_and!; [done|done|].
      destruct (decide (u = t)) as [->|Hne]; [by eauto|].
      destruct (de_thread _ _ _ _ _ (kg_sched _ _ _ _ _ _ G2) u ru Hu) as (ru' & Hu' & _); [by intros ->%list_elem_of_singleton|done|by eauto]. }
  assert (calmly t k q ps k2) as C2 by done. destruct (user_stack_slot_index (t_stacks r) <? 32).
  - rewrite (kseq_set_proc p x2) by done. set (x3 := with_user_stack_slot_bitmap _ x2).
    pose proof (calmly_process t k2 q ps p x2 x3 K2 Hq Hx2 ltac:(split; [done|by left]) eq_refl eq_refl eq_refl eq_refl eq_refl) as C3. set (k3 := with_sched _ k2) in *.
    unfold set_thread, on_sched, kchange, kexec. rewrite (thread_set_ok t r2) by done. rewrite !bind_ok. cbn [kpost].
    eapply calmly_trans; [exact C2|]. eapply calmly_trans; [exact C3|]. exact (calmly_stacks t k3 q ps r2 with_user_stack_gone (proj1 C3) Hq Hr2 eq_refl eq_refl eq_refl).
  - rewrite kseq_ret. unfold set_thread, on_sched, kchange, kexec. rewrite (thread_set_ok t r2) by done. rewrite !bind_ok. cbn [kpost].
    eapply calmly_trans; [exact C2|]. exact (calmly_stacks t k2 q ps r2 with_user_stack_gone K2 Hq Hr2 eq_refl eq_refl eq_refl).
Qed.

(** ** The registries *)
Lemma thread_owned k t r : threads (sched k) !! t = Some r -> t ∈ owned k /\ forall a, kernel_stack r = Some a -> a ∈ owned k.
Proof.
  intros Hr. unfold owned. split; [|intros a Ha]; apply elem_of_app; left; apply owned_in; exists t, r; (split; [done|]); [by left|by right].
Qed.

Lemma stack_apart k t r a : owns k -> threads (sched k) !! t = Some r -> kernel_stack r = Some a -> a <> t.
Proof.
  intros [N _] Hr Ha ->. unfold owned in N. rewrite (owned_by_delete kernel_stack _ t r Hr), Ha in N. apply list.NoDup_app in N as (N & _).
  apply list.NoDup_cons in N as [N _]. apply N, list_elem_of_here.
Qed.

Lemma dispose_post k q ps t r :
  kinv k q ps [] -> threads (sched k) !! t = Some r -> t_parent r = None -> current_state r = Terminated -> t ∉ retired q -> g_current_thread (sched k) <> Some t ->
  kpost outside (dispose_thread t k) (fun _ k' => exists q', kinv k' q' ps [] /\ kgrows [t] [] k q k' q' /\ threads (sched k') !! t = None /\ processes (sched k') = processes (sched k)).
Proof.
  intros Hk Hr Hpar Hst Hre Hct. pose proof (ki_sched _ _ _ _ Hk) as Hinv. pose proof (ki_owns _ _ _ _ Hk) as Hown.
  destruct (unlink_exact _ _ t r Hinv Hr) as (m & hd & tl & l1 & l2 & Hrun & Hreg & Hd & Hrel). unfold dispose_thread. rewrite (kseq_sched _ _ _ _ Hrun), kseq_set. life_cbn.
  assert (g_thread_count (sched k) <> 0) as Hcnt. { rewrite (ti_count _ _ _ _ (ki_tids _ _ _ _ Hk)), Hreg, length_app. cbn [length]. lia. }
  destruct (Z.eqb_spec (g_thread_count (sched k)) 0); [done|]. cbn [negb]. set (s1 := with_g_thread_count _ _). set (k1 := with_sched s1 k). change (with_sched s1 (with_sched _ k)) with k1.
  destruct (ki_objects _ _ _ _ Hk) as [lo Ho]. destruct Ho as [O1 O2 O3 O4].
  destruct (unregister_ok k1 lo t (fun _ => let* r := kthread t in free_stack (kernel_stack_backing (t_stacks r)) >; set_thread t without_kernel_stack >; free_thread_slot t) O1 O2)
    as (h & lo' & Hh & Hn & Hin & Hit & ->); [apply O3; by eauto|].
  destruct (relinked_lookup (H := registry_links) _ _ _ _ Hrel Hr) as (r1 & Hr1 & E1). assert (kernel_stack r1 = kernel_stack r) as Eks by exact (f_equal kernel_stack E1).
  set (k2 := with_g_objects h k1). rewrite (kseq_thread t r1) by done. change (kernel_stack_backing (t_stacks r1)) with (kernel_stack r1). rewrite Eks.
  assert (forall b, b = blocks k ∖ block_set (kernel_stack r) ∖ {[t]} ->
    exists q', kinv (with_blocks b (with_g_objects h (with_sched (release_thread_slot t s1) k))) q' ps [] /\
      kgrows [t] [] k q (with_blocks b (with_g_objects h (with_sched (release_thread_slot t s1) k))) q') as Hfin.
  { intros b Hb. exists (with_registry (l1 ++ l2) q). split.
    - eapply (kinv_dismiss k q ps t r h lo' m); try done; [|intros o [Ho Hne]%Hin; split; [by apply (rg_live _ (ki_registered _ _ _ _ Hk) lo)|done]]. split; [done|done| |].
      + intros u [ru [Hne Hu]%lookup_delete_Some]. apply Hin. split; [apply O3; by eauto|done].
      + intros p Hp. apply Hin. split; [by apply O4|]. intros ->. destruct (process_here _ _ _ (ki_processes _ _ _ _ Hk) t Hp) as [x Hx].
        destruct Hown as [N _]. unfold owned in N. rewrite (owned_by_delete kernel_stack _ t r Hr) in N. cbn [app] in N. apply list.NoDup_cons in N as [N _]. apply N. rewrite !elem_of_app.
        right. left. apply owned_in. exists t, x. split; [done|by left].
    - apply kgrows_sched; try done. apply grows_departs.
      + pose proof (released_grows (sched k) q t m hd tl l1 l2 (keeps_content _ _ Hrel)) as [R1 R2 R3 R4 R5 R6 R7 R8 R9 R10 R11 R12 R13]. by split.
      + intros u p l ->%list_elem_of_singleton. by apply (ended_unqueued (sched k) q t r). }
  assert (forall b, with_blocks b (with_sched (release_thread_slot t (with_threads (<[t := without_kernel_stack r1]> (threads (sched k2))) (sched k2))) k2) =
    with_blocks b (with_g_objects h (with_sched (release_thread_slot t s1) k))) as Eend.
  { intros b. unfold k2, k1, s1, release_thread_slot. life_cbn. by rewrite delete_insert_eq. }
  assert (blocks k2 = blocks k) as Eb by done. destruct (thread_owned k t r Hr) as [Hot Hoa]. destruct Hown as [_ Hb].
  unfold free_stack. destruct (kernel_stack r) as [a|] eqn:Ea.
  - pose proof (stack_apart k t r a (ki_owns _ _ _ _ Hk) Hr Ea) as Hat. apply kpost_call; [cbn; by apply Hb, Hoa|]. intros [] k3 ->. rewrite (kseq_set_thread t r1) by done. unfold free_thread_slot. rewrite kseq_set.
    unfold kcall. cbn [kpost]. split; [cbn; apply elem_of_difference; split; [by apply Hb|set_solver]|]. intros [] k' ->. life_cbn.
    destruct (Hfin ((blocks k ∖ {[a]}) ∖ {[t]})) as (q' & K & G); [done|]. exists q'. unfold release_thread_slot. life_cbn. rewrite delete_insert_eq. split_and!; [exact K|exact G|apply lookup_delete_eq|done].
  - rewrite kseq_ret, (kseq_set_thread t r1) by done. unfold free_thread_slot. rewrite kseq_set.
    unfold kcall. cbn [kpost]. split; [cbn; by apply Hb|]. intros [] k' ->. life_cbn.
    destruct (Hfin (blocks k ∖ {[t]})) as (q' & K & G); [cbn [block_set]; set_solver|]. exists q'. unfold release_thread_slot. life_cbn. rewrite delete_insert_eq. split_and!; [exact K|exact G|apply lookup_delete_eq|done].
Qed.

(** ** The whole call *)
Lemma kgrows_one t g2 pg k1 q1 k2 q2 k3 q3 :
  (forall u, u ∈ g2 -> u = t) -> sound k2 q2 -> parents_kept [t] k1 k2 k3 -> kgrows [t] [] k1 q1 k2 q2 -> kgrows g2 pg k2 q2 k3 q3 -> kgrows [t] pg k1 q1 k3 q3.
Proof.
  intros Hg Hinv Hp G1 G2. eapply (kgrows_set ([t] ++ g2) _ ([] ++ pg)); [|done|by eapply kgrows_trans].
  intros u. rewrite elem_of_app, list_elem_of_singleton. split; [|by left]. intros [->|Hu]; [done|by apply Hg].
Qed.

Lemma retired_shrinks gone s q s' q' t : departs gone s q s' q' -> t ∉ retired q -> t ∉ retired q'.
Proof. intros D Ht Hin. destruct (de_retired _ _ _ _ _ D) as (dead & E & _). apply Ht. rewrite E. apply elem_of_app. by right. Qed.

(** A thread that has ended stays as it is. *)
Lemma ended_grows s t r r' : thread_grows s t r r' -> current_state r = Terminated ->
  current_state r' = Terminated /\ t_parent r' = t_parent r /\ kernel_stack r' = kernel_stack r.
Proof.
  intros [[E _]|(Hw & _)] Hst; [|congruence]. split_and!; [rewrite <- Hst; exact (f_equal current_state E)|exact (f_equal t_parent E)|exact (f_equal kernel_stack E)].
Qed.

(** The thread has ended. *)
Definition ended (t : Z) (p : option Z) (k : Kern) : Prop :=
  exists r, threads (sched k) !! t = Some r /\ t_parent r = p /\ current_state r = Terminated.

Lemma ended_post {B} k q ps t r p a b (f : unit -> K B) Q :
  kinv k q ps [] -> threads (sched k) !! t = Some r -> t_parent r = p -> t ∉ retired q -> g_current_thread (sched k) <> Some t -> g_idle_thread (sched k) <> Some t ->
  (forall k' q' ps', kinv k' q' ps' [] -> kgrows [t] [] k q k' q' -> t ∉ retired q' -> ended t p k' -> kpost outside (f tt k') Q) ->
  kpost outside (kseq (on_sched (forget (Some t))) (fun _ => set_thread t (with_current_state Terminated) >; kseq (lifted (publish_thread_event KernelEventTypeThreadExited t a b)) f) k) Q.
Proof.
  intros Hk Hr Hp Hre Hc Hi HQ. destruct (forget_exact (sched k) q t r (ki_sched _ _ _ _ Hk) Hr Hc Hi) as (s1 & R & r1 & Hrun & Hr1 & Eu & Hinv & Hd & Hkr & Ep & Et & En).
  rewrite (kseq_sched _ _ _ _ Hrun), (kseq_set_thread t r1) by done. life_cbn. set (s2 := with_threads _ s1) in *. set (q2 := mkQueues _ _ _ _) in *.
  change (with_sched s2 (with_sched s1 k)) with (with_sched s2 k). set (k2 := with_sched s2 k).
  assert (kinv k2 q2 ps []) as K2 by (apply (kinv_rest k q); try done; apply Hd).
  assert (kgrows [t] [] k q k2 q2) as G2 by (by apply kgrows_sched).
  assert (t_parent r1 = p) as Hp1 by (rewrite <- Hp; exact (f_equal t_parent Eu)).
  assert (threads (sched k2) !! t = Some (with_current_state Terminated r1)) as Hr2 by apply lookup_insert_eq.
  eapply kpost_seq; [eapply (publish_thread_post k2 q2 ps t _ _ a b (fun _ k' => exists q' ps', kinv k' q' ps' [] /\ kgrows [] [] k2 q2 k' q') K2 Hr2); by eauto|].
  intros [] k' (q' & ps' & K' & G'). apply (HQ k' q' ps' K').
  - apply (kgrows_one t [] [] k q k2 q2 k' q'); [by intros u Hu%not_elem_of_nil|exact (kinv_sound _ _ _ _ K2)| |exact G2|exact G']. intros u ru ru' ->%list_elem_of_singleton Hu Hu'. left. rewrite Hr in Hu. rewrite Hr2 in Hu'. by injection Hu as <-; injection Hu' as <-; cbn; congruence.
  - by eapply retired_shrinks; [apply G'|].
  - destruct (de_thread _ _ _ _ _ (kg_sched _ _ _ _ _ _ G') t _ Hr2) as (r' & Hr' & Gr); [by apply not_elem_of_nil|done|].
    destruct (ended_grows _ _ _ _ Gr eq_refl) as (E1 & E2 & _). exists r'. split_and!; [done|by rewrite E2|done].
Qed.

Lemma process_listed k q ps p x : kinv k q ps [] -> processes (sched k) !! p = Some x -> p ∈ ps.
Proof. intros Hk Hx. destruct (pr_all _ _ _ _ _ _ _ (ki_processes _ _ _ _ Hk) p) as [[Hp|Hp] _]; [by eauto|done|by apply not_elem_of_nil in Hp]. Qed.

(** The process [p] is still there. *)
Definition outlasts (p : Z) (k k' : Kern) : Prop := forall x, processes (sched k) !! p = Some x -> exists x', processes (sched k') !! p = Some x' /\ lasts x x'.

(** A process stays as long as one of its threads does. *)
Lemma member_outlasts gone k q k' q' t r p : kgrows gone [] k q k' q' -> threads (sched k) !! t = Some r -> t_parent r = Some p -> is_Some (threads (sched k') !! t) -> outlasts p k k'.
Proof. intros G Hr Hp Ht x Hx. apply (kg_process _ _ _ _ _ _ G p x Hx); [apply not_elem_of_nil|]. right. right. right. by exists t, r. Qed.

Lemma leave_post k q ps t p :
  kinv k q ps [] -> ended t (Some p) k ->
  kpost outside ((release_user_stack p t >; detach_thread (Some p) (Some t)) k)
    (fun st k' => st = StatusOK /\ kinv k' q ps [] /\ kgrows [t] [] k q k' q /\ ended t None k' /\ outlasts p k k').
Proof.
  intros Hk (r & Hr & Hp & Hst). destruct (ended_unqueued _ _ _ _ (ki_sched _ _ _ _ Hk) Hr Hst) as [Hq _].
  destruct (ok_parent _ _ _ (inv_threads _ _ (ki_sched _ _ _ _ Hk) t r Hr) p Hp) as (x & Hx & _).
  eapply kpost_seq; [by apply (release_user_stack_post k q ps p x t r)|]. intros [] k3 (K3 & G3 & S3). cbn beta.
  destruct (S3 r Hr) as (r3 & Hr3 & Eu & Ep & _). rewrite Hp in Ep.
  assert (current_state r3 = Terminated) as Hst3 by (rewrite <- Hst; exact (f_equal current_state Eu)).
  destruct (ok_parent _ _ _ (inv_threads _ _ (ki_sched _ _ _ _ K3) t r3 Hr3) p Ep) as (x3 & Hx3 & _).
  destruct (kinv_detach k3 q ps p x3 t r3 K3 (process_listed _ _ _ _ _ K3 Hx3) Hx3 Hr3 Ep) as (m & hd & tl & l & Hrun & K4 & Hku & (r4 & Hr4 & Ep4 & Eu4 & _) & Hpar & _).
  cbn zeta in *. rewrite Hrun. cbn [kpost]. set (k4 := with_sched _ k3) in *.
  assert (kgrows [t] [] k3 q k4 q) as G4.
  { apply kgrows_records; try done; [|by intros u p0 l0 ->%list_elem_of_singleton; apply Hq].
    exists m, (<[p := parted t hd tl x3]> (processes (sched k3))). split_and!; [done|by apply (keeps_dom unowned)| |by rewrite dom_insert_lookup_L|].
    - intros u ru Hu Hn. destruct (keeps_lookup _ _ _ _ _ Hku Hu) as (ru' & Hu' & E). exists ru'. split; [done|].
      assert (u <> t) as Hne by (intros ->; by apply Hn, list_elem_of_here). destruct (Hpar u ru' Hne Hu') as (r0 & H0 & Econ). rewrite Hu in H0. injection H0 as <-.
      split; [exact (f_equal still Econ)|exact (f_equal in_ready_queue Econ)].
    - intros p' y Hy. destruct (decide (p' = p)) as [->|Hne]; [rewrite lookup_insert_eq; exists (parted t hd tl x3)|rewrite lookup_insert_ne by done; exists y].
      + rewrite Hx3 in Hy. injection Hy as <-. destruct (parted_same t hd tl x3) as (E & Eh & El & Es & Ec). unfold slot_part in E. injection E as E1 E2 E3 E4 E5 E6.
        split_and!; [done| |done..]. split; [|by left]. unfold lasting. congruence.
      + split_and!; [done|apply lasts_refl|done..]. }
  split_and!; [done|exact K4| | |].
  - apply (kgrows_one t [t] [] k q k3 q k4 q); [by intros u ->%list_elem_of_singleton|exact (kinv_sound _ _ _ _ K3)|by apply stays_parents|done|done].
  - exists r4. split_and!; [done|done|]. rewrite <- Hst3. exact (f_equal current_state Eu4).
  - intros y Hy. destruct (member_outlasts _ _ _ _ _ t r p G3 Hr Hp ltac:(eauto) y Hy) as (y3 & Hy3 & L3). destruct (kg_process _ _ _ _ _ _ G4 p y3 Hy3) as (y4 & Hy4 & L4);
      [apply not_elem_of_nil|right; right; right; exists t, r3; split_and!; [done|done|eauto]|]. exists y4. split; [done|]. by eapply lasts_trans.
Qed.

(** Out of its process, if it has one, and out of the registries. *)
Lemma remove_post k q ps t p (f : unit -> K Status) (g : Status -> K Status) (Q : Status -> Kern -> Prop) :
  kinv k q ps [] -> t ∉ retired q -> ended t p k -> g_current_thread (sched k) <> Some t ->
  (forall k' q', kinv k' q' ps [] -> kgrows [t] [] k q k' q' -> threads (sched k') !! t = None -> (forall a, p = Some a -> outlasts a k k') -> kpost outside (f tt k') Q) ->
  kpost outside (kseq (match p with None => kret StatusOK | Some a => release_user_stack a t >; detach_thread p (Some t) end)
    (fun status => if negb (bool_decide (status = StatusOK)) then g status else kseq (dispose_thread t) f) k) Q.
Proof.
  intros Hk Hre He Hc HQ.
  assert (forall k1, kinv k1 q ps [] -> kgrows [t] [] k q k1 q -> ended t None k1 -> (forall a, p = Some a -> outlasts a k k1) -> kpost outside (kseq (dispose_thread t) f k1) Q) as Hend.
  { intros k1 K1 G1 (r1 & Hr1 & Hp1 & Hst1) Hx1.
    eapply kpost_seq; [apply (dispose_post k1 q ps t r1); try done; by rewrite (de_current _ _ _ _ _ (kg_sched _ _ _ _ _ _ G1))|].
    intros [] k2 (q2 & K2 & G2 & Hn & Ep). apply (HQ k2 q2); [done| |done|intros a Ha x Hx; rewrite Ep; by apply Hx1].
    apply (kgrows_one t [t] [] k q k1 q k2 q2); [by intros u ->%list_elem_of_singleton|exact (kinv_sound _ _ _ _ K1)| |done|done].
    intros u ru ru' ->%list_elem_of_singleton _ Hu'. right. split; [congruence|done]. }
  destruct p as [a|].
  - eapply kpost_seq; [by apply (leave_post k q ps)|]. intros st k1 (-> & K1 & G1 & E1 & Hx1). rewrite bool_decide_eq_true_2 by done. cbn [negb]. apply Hend; try done. by intros ? [= <-].
  - rewrite kseq_ret, bool_decide_eq_true_2 by done. cbn [negb]. apply Hend; try done. destruct He as (r & Hr & _ & Hst). destruct (ended_unqueued _ _ _ _ (ki_sched _ _ _ _ Hk) Hr Hst) as [Hq _].
    by apply kgrows_ended, kgrows_refl.
Qed.

(** What destroying a process without threads does. *)
Definition buries (destroy_process : option Z -> K Status) : Prop :=
  forall k q ps p x, kinv k q ps [] -> processes (sched k) !! p = Some x -> object_has_flag (flags (p_header x)) FlagPermanent = false ->
    (forall t r, threads (sched k) !! t = Some r -> t_parent r <> Some p) ->
    kpost outside (destroy_process (Some p) k)
      (fun st k' => st = StatusOK /\ exists q' ps', kinv k' q' ps' [] /\ kgrows [] [p] k q k' q' /\ processes (sched k') !! p = None).

(** A process without threads that goes was not spared. *)
Lemma last_thread_not_spared gone k q k' q' p x x' t r :
  kgrows gone [] k q k' q' -> (forall u, u ∈ gone -> threads (sched k') !! u = None) -> threads (sched k) !! t = Some r -> t_parent r = Some p ->
  processes (sched k) !! p = Some x -> processes (sched k') !! p = Some x' -> lasts x x' ->
  (forall u ru, threads (sched k') !! u = Some ru -> t_parent ru <> Some p) -> p_state x' <> ProcessTerminated -> object_has_flag (flags (p_header x')) FlagPermanent = false ->
  forall k2 q2, departs [] (sched k') q' (sched k2) q2 -> ~ spared k k2 p x.
Proof.
  intros G Hg Hr Hp Hx Hx' L Hnone Hst Hfl k2 q2 D [S1|[S2|[S3|(u & ru & Hu & Hpu & Hu2)]]].
  - by apply Hst, (lasts_terminated x).
  - destruct (lasts_fields _ _ L) as (E & _). congruence.
  - by apply (S3 t r).
  - destruct (de_old _ _ _ _ _ D u Hu2) as [ru' Hu']. apply (Hnone u ru' Hu'). rewrite <- Hpu.
    destruct (departs_back _ _ _ _ _ u ru' (kg_sched _ _ _ _ _ _ G) Hu') as (r0 & H0 & Gr); [intros Hin; by rewrite Hg in Hu'|].
    rewrite Hu in H0. injection H0 as <-. by eapply thread_grows_parent.
Qed.

Lemma members_none k q ps p x : kinv k q ps [] -> processes (sched k) !! p = Some x -> thread_count x = 0 -> forall t r, threads (sched k) !! t = Some r -> t_parent r <> Some p.
Proof.
  intros Hk Hx Hc t r Hr Hp. destruct (ki_members _ _ _ _ Hk p x Hx) as [l Hl]. assert (t ∈ l) as Ht by (apply (mb_all _ _ _ _ Hl); eauto).
  rewrite (mb_count _ _ _ _ Hl) in Hc. destruct l; [by apply not_elem_of_nil in Ht|cbn in Hc; lia].
Qed.

Lemma destroy_thread_with_post D k q ps t r :
  kinv k q ps [] -> threads (sched k) !! t = Some r -> t ∉ retired q -> g_current_thread (sched k) <> Some t -> g_idle_thread (sched k) <> Some t ->
  (buries D \/ exists p x, t_parent r = Some p /\ processes (sched k) !! p = Some x /\ p_state x = ProcessTerminated) ->
  kpost outside (destroy_thread_with D (Some t) k)
    (fun st k' => st = StatusOK /\ exists q' ps', kinv k' q' ps' [] /\ kgrows [t] [] k q k' q' /\ threads (sched k') !! t = None).
Proof.
  intros Hk Hr Hre Hc Hi Hor. unfold destroy_thread_with. rewrite (kseq_compute _ _ k true).
  2: { unfold contains_thread. rewrite (contains_node_ok (H := registry_links) _ _ (g_thread_tail (sched k)) (registry q)) by apply (inv_registry _ _ (ki_sched _ _ _ _ Hk)).
       cbn [among]. rewrite bool_decide_eq_true_2; [done|]. apply (inv_registry _ _ (ki_sched _ _ _ _ Hk)). eauto. }
  cbn [negb]. rewrite (kseq_thread t r) by done. eapply (ended_post k q ps t r (t_parent r)); try done. intros k1 q1 ps1 K1 G1 Hre1 E1.
  destruct E1 as (r1 & Hr1 & Hp1 & Hst1). rewrite (kseq_thread t r1) by done. rewrite Hp1.
  apply (remove_post k1 q1 ps1 t (t_parent r)); [done|done|by exists r1|by rewrite (de_current _ _ _ _ _ (kg_sched _ _ _ _ _ _ G1))|].
  intros k2 q2 K2 G2 Hn Hx2.
  assert (kgrows [t] [] k q k2 q2) as G.
  { apply (kgrows_one t [t] [] k q k1 q1 k2 q2); [by intros u ->%list_elem_of_singleton|exact (kinv_sound _ _ _ _ K1)| |done|done].
    intros u ru ru' ->%list_elem_of_singleton Hu Hu'. left. congruence. }
  destruct (t_parent r) as [p|] eqn:Hp; [|apply kpost_ret; split; [done|by exists q2, ps1]].
  destruct (ok_parent _ _ _ (inv_threads _ _ (ki_sched _ _ _ _ Hk) t r Hr) p Hp) as (x & Hx & _).
  assert (exists x2, processes (sched k2) !! p = Some x2 /\ lasts x x2) as (x2 & Hx2p & L).
  { destruct (member_outlasts _ _ _ _ _ t r p G1 Hr Hp ltac:(eauto) x Hx) as (x1 & Hx1 & L1). destruct (Hx2 p eq_refl x1 Hx1) as (x2 & Hx2p & L2). exists x2. split; [done|]. by eapply lasts_trans. }
  rewrite (kseq_process p x2) by done. destruct ((thread_count x2 =? 0) && _ && _) eqn:Hb; [|apply kpost_ret; split; [done|by exists q2, ps1]].
  apply andb_true_iff in Hb as [Hb Hfl%negb_true_iff]. apply andb_true_iff in Hb as [Hcnt%Z.eqb_eq Hnt%negb_true_iff]. apply bool_decide_eq_false_1 in Hnt.
  destruct Hor as [HD|(p' & y & [= <-] & Hy & Hyt)]; [|destruct Hnt; apply (lasts_terminated x); [done|congruence]].
  pose proof (members_none k2 q2 ps1 p x2 K2 Hx2p Hcnt) as Hnone.
  eapply kpost_seq; [by apply (HD k2 q2 ps1 p x2)|]. intros st k3 (-> & q3 & ps3 & K3 & G3 & _). apply kpost_ret. split; [done|]. exists q3, ps3. split_and!; [done| |].
  - apply (kgrows_drop [t] p []); [|intros x0 Hx0; rewrite Hx in Hx0; injection Hx0 as <-].
    + apply (kgrows_one t [] [p] k q k2 q2 k3 q3); [by intros u Hu%not_elem_of_nil|exact (kinv_sound _ _ _ _ K2)| |done|done]. intros u ru ru' ->%list_elem_of_singleton Hu Hu'. congruence.
    + eapply (last_thread_not_spared [t] k q k2 q2 p x x2 t r); try done; [by intros u ->%list_elem_of_singleton|apply G3].
  - destruct (threads (sched k3) !! t) eqn:E3; [|done]. destruct (de_old _ _ _ _ _ (kg_sched _ _ _ _ _ _ G3) t) as [? ?]; [by eauto|congruence].
Qed.

(** A thread that is not registered is not destroyed. *)
Lemma destroy_thread_unknown D k q ps thread :
  kinv k q ps [] -> (forall t, thread = Some t -> threads (sched k) !! t = None) -> destroy_thread_with D thread k = KDone StatusNotFound k.
Proof.
  intros Hk Hn. unfold destroy_thread_with. rewrite (kseq_compute _ _ k (among thread (registry q))).
  2: { unfold contains_thread. by rewrite (contains_node_ok (H := registry_links) _ _ (g_thread_tail (sched k)) (registry q)) by apply (inv_registry _ _ (ki_sched _ _ _ _ Hk)). }
  destruct thread as [t|]; [|done]. cbn [among]. rewrite bool_decide_eq_false_2; [done|]. intros Ht. apply (inv_registry _ _ (ki_sched _ _ _ _ Hk)) in Ht as [r Hr].
  by rewrite (Hn t eq_refl) in Hr.
Qed.
