(* ===== verification/LifeEnd.v ===== *)
(** Destroying a process, once its threads are gone.

    Destroying a process with its threads, and what the calls that end threads and
    processes promise. *)
From stdpp Require Import base list gmap.
From Stdlib Require Import ZArith Lia.
From S2P Require Import Prelude KernelText DList KernelIface SchedState Scheduler SchedQueues SchedOps SchedInv SchedLogic ThreadRegistry HeapList LifeState Lifecycle LifeInv LifeChanges LifeDestroy.

Local Open Scope Z_scope.

(** ** Children lose their launcher *)
Definition orphaned (id : Z) (x : Process) : Process := if parent_process_id x =? id then with_p_parent None (with_parent_process_id 0 x) else x.

Lemma orphaned_fields id x :
  p_header (orphaned id x) = p_header x /\ p_id (orphaned id x) = p_id x /\ p_name (orphaned id x) = p_name x /\ p_next (orphaned id x) = p_next x /\
  p_prev (orphaned id x) = p_prev x /\ lasts x (orphaned id x) /\
  thread_list_head (orphaned id x) = thread_list_head x /\ thread_list_tail (orphaned id x) = thread_list_tail x /\
  thread_count (orphaned id x) = thread_count x /\ main_thread (orphaned id x) = main_thread x /\
  (parent_process_id (orphaned id x) = parent_process_id x \/ (parent_process_id (orphaned id x) = 0 /\ parent_process_id x = id)).
Proof.
  unfold orphaned. destruct (Z.eqb_spec (parent_process_id x) id); split_and!; try done.
  - split; [done|by left].
  - by right.
  - apply lasts_refl.
  - by left.
Qed.

Lemma orphan_from id (m : gmap Z Process) hd tl l1 l2 fuel k :
  process_dlist m hd tl (l1 ++ l2) -> (forall a, processes (sched k) !! a = (if decide (a ∈ l1) then orphaned id <$> m !! a else m !! a)) -> (length l2 < fuel)%nat ->
  exists m', iterate fuel (orphan_step id) (k, first l2 None) = Ok (with_sched (with_processes m' (sched k)) k) /\
    forall a, m' !! a = (if decide (a ∈ l1 ++ l2) then orphaned id <$> m !! a else m !! a).
Proof.
  revert l1 fuel k. induction l2 as [|p l2 IH]; intros l1 fuel k Hd Hm Hf; (destruct fuel as [|fuel]; [cbn in Hf; lia|]); cbn [iterate orphan_step first].
  - rewrite bind_ok. exists (processes (sched k)). split; [by destruct k as [[]]|]. rewrite app_nil_r. done.
  - destruct (dlist_at (H := process_links) _ _ _ _ _ _ Hd) as (x & Hx & Hnx & _).
    assert (p ∉ l1) as Hp1. { destruct Hd as [Hn _]. apply list.NoDup_app in Hn as (_ & Hdis & _). intros Hin. by apply (Hdis p Hin), list_elem_of_here. }
    assert (processes (sched k) !! p = Some x) as Hpx by (by rewrite Hm, decide_False).
    unfold get_process at 1. rewrite Hpx, !bind_ok. cbn [link_next process_links] in Hnx. rewrite Hnx.
    assert (forall k1, (forall a, processes (sched k1) !! a = (if decide (a ∈ l1 ++ [p]) then orphaned id <$> m !! a else m !! a)) ->
      (forall m', with_sched (with_processes m' (sched k1)) k1 = with_sched (with_processes m' (sched k)) k) ->
      exists m', iterate fuel (orphan_step id) (k1, first l2 None) = Ok (with_sched (with_processes m' (sched k)) k) /\
        forall a, m' !! a = (if decide (a ∈ l1 ++ p :: l2) then orphaned id <$> m !! a else m !! a)) as Hgo.
    { intros k1 H1 E1. replace (l1 ++ p :: l2) with ((l1 ++ [p]) ++ l2) in * by (by rewrite <- app_assoc).
      destruct (IH (l1 ++ [p]) fuel k1 Hd H1 ltac:(cbn in Hf; lia)) as (m' & Hrun & Hm'). exists m'. by rewrite Hrun, E1. }
    unfold orphaned in Hgo at 1. destruct (Z.eqb_spec (parent_process_id x) id) as [E|E]; cbn [negb].
    + unfold set_process, get_process. rewrite Hpx, !bind_ok. apply Hgo; [|by destruct k as [[]]]. intros a. life_cbn. destruct (decide (a = p)) as [->|Hne].
      * rewrite lookup_insert_eq, decide_True, Hx by set_solver. cbn. by destruct (Z.eqb_spec (parent_process_id x) id).
      * rewrite lookup_insert_ne, Hm by done. destruct (decide (a ∈ l1)); [rewrite decide_True by set_solver|rewrite decide_False by set_solver]; done.
    + rewrite bind_ok. apply Hgo; [|by destruct k as [[]]]. intros a. destruct (decide (a = p)) as [->|Hne].
      * rewrite Hpx, decide_True, Hx by set_solver. cbn. by destruct (Z.eqb_spec (parent_process_id x) id).
      * rewrite Hm. destruct (decide (a ∈ l1)); [rewrite decide_True by set_solver|rewrite decide_False by set_solver]; done.
Qed.

Lemma orphan_ok id k ps :
  processes_rep (processes (sched k)) (process_head k) (process_tail k) (process_count_value k) (next_pid k) ps [] -> id <> 0 ->
  orphan_launched_processes id k = Ok (with_sched (with_processes (orphaned id <$> processes (sched k)) (sched k)) k).
Proof.
  intros Hps Hid. unfold orphan_launched_processes. destruct (Z.eqb_spec id 0); [done|]. pose proof (pr_list _ _ _ _ _ _ _ Hps) as Hd.
  pose proof Hd as (_ & _ & Eh & _). rewrite Eh.
  destruct (orphan_from id (processes (sched k)) _ _ [] ps (S (size (processes (sched k)))) k Hd) as (m' & Hrun & Hm').
  - intros a. rewrite decide_False by apply not_elem_of_nil. done.
  - pose proof (dlist_length (H := process_links) _ _ _ _ Hd). lia.
  - rewrite Hrun. do 3 f_equal. apply map_eq. intros a. rewrite Hm', lookup_fmap. cbn [app]. destruct (decide (a ∈ ps)) as [Ha|Ha]; [done|].
    destruct (processes (sched k) !! a) eqn:E; [|done]. destruct (pr_all _ _ _ _ _ _ _ Hps a) as [[H|H] _]; [by eauto|done|by apply not_elem_of_nil in H].
Qed.

(** Fields of processes the invariant does not read, and launchers, may change. *)
Definition core (x : Process) :=
  (p_header x, p_id x, p_name x, process_address_space x, launch_arguments x, (thread_list_head x, thread_list_tail x, thread_count x, main_thread x)).

Lemma core_fields x x' : core x' = core x ->
  p_header x' = p_header x /\ p_id x' = p_id x /\ p_name x' = p_name x /\ process_address_space x' = process_address_space x /\ launch_arguments x' = launch_arguments x /\
  thread_list_head x' = thread_list_head x /\ thread_list_tail x' = thread_list_tail x /\ thread_count x' = thread_count x /\ main_thread x' = main_thread x.
Proof. intros E. unfold core in E. injection E. intros. split_and!; done. Qed.

(** A process that may be in the list. *)
Definition listable (k : Kern) (p : Z) : Prop :=
  (forall x, processes (sched k) !! p = Some x -> page_table_root (process_address_space x) <> 0 /\ forall l e, holds (exit_records k) l -> e ∈ l -> p_id x <> er_process_id e) /\
  forall l, holds (g_objects k) l -> p ∈ l.

(** The list of processes is another one, with the same records but for the links and
    the launchers. *)
Lemma kinv_relist k q ps limbo m hd tl n ps' limbo' :
  kinv k q ps limbo ->
  (forall p, is_Some (m !! p) <-> is_Some (processes (sched k) !! p)) ->
  (forall p x', m !! p = Some x' -> exists x, processes (sched k) !! p = Some x /\ core x' = core x /\ (parent_process_id x' = parent_process_id x \/ parent_process_id x' = 0)) ->
  process_dlist m hd tl ps' -> n = len ps' -> (forall p, p ∈ ps' -> p ∈ ps \/ listable k p) -> (forall p, p ∈ limbo' -> p ∉ ps') -> (forall p, p ∈ ps' \/ p ∈ limbo' <-> p ∈ ps \/ p ∈ limbo) ->
  (forall p t r, p ∈ limbo' -> threads (sched k) !! t = Some r -> t_parent r <> Some p) ->
  kinv (with_process_count_value n (with_process_list m hd tl k)) q ps' limbo'.
Proof.
  intros Hk Hdom Hb Hd Hn Hsub Hdis Hall Hlim. pose proof (ki_processes _ _ _ _ Hk) as [R1 R2 R3 R4 R5 R6 R7 R8].
  assert (owned (with_process_count_value n (with_process_list m hd tl k)) = owned k) as Eown.
  { unfold owned. life_cbn. rewrite (owned_same launch_arguments (processes (sched k)) m); [done|].
    apply map_eq. intros p. rewrite !lookup_fmap. destruct (m !! p) as [x'|] eqn:Hx'.
    + destruct (Hb p x' Hx') as (x & -> & E & _). cbn. by destruct (core_fields _ _ E) as (_ & _ & _ & _ & -> & _).
    + destruct (processes (sched k) !! p) as [x|] eqn:Hx; [|done]. destruct (Hdom p) as [_ [? ?]]; [by eauto|congruence]. }
  split; life_cbn.
  - apply inv_with_processes; [apply Hk|]. intros t r p x _ _ Hx Hne. destruct (Hdom p) as [_ [x' Hx']]; [by eauto|]. destruct (Hb p x' Hx') as (y & Hy & E & _).
    exists x'. split; [done|]. destruct (core_fields _ _ E) as (_ & _ & _ & -> & _). congruence.
  - split; try done.
    + intros p. by rewrite Hdom, R2, Hall.
    + intros p x' Hx'. destruct (Hb p x' Hx') as (x & Hx & E & El). destruct (core_fields _ _ E) as (_ & E1 & E2 & _). destruct (R6 p x Hx) as [Q1 Q2 Q3].
      split; rewrite ?E1, ?E2; [done| |done]. destruct El as [->| ->]; [done|lia].
    + intros p1 p2 x1 x2 H1 H2 E. destruct (Hb p1 x1 H1) as (y1 & G1 & F1 & _), (Hb p2 x2 H2) as (y2 & G2 & F2 & _).
      apply (R7 p1 p2 y1 y2); [done|done|]. destruct (core_fields _ _ F1) as (_ & <- & _), (core_fields _ _ F2) as (_ & <- & _). done.
    + intros p x' Hp Hx'. destruct (Hb p x' Hx') as (x & Hx & E & _). destruct (core_fields _ _ E) as (_ & _ & _ & -> & _). destruct (Hsub p Hp) as [Hin|[Hl _]]; [by apply (R8 p)|by apply Hl].
  - intros p x' Hx'. destruct (Hb p x' Hx') as (x & Hx & E & _). destruct (ki_members _ _ _ _ Hk p x Hx) as [l Hl]. exists l.
    destruct (core_fields _ _ E) as (_ & _ & _ & _ & _ & E1 & E2 & E3 & E4). by eapply member_process.
  - done.
  - apply Hk.
  - destruct (ki_objects _ _ _ _ Hk) as [l [O1 O2 O3 O4]]. exists l. split; try done. intros p Hp. destruct (Hsub p Hp) as [Hin|[_ Hl]]; [by apply O4|by apply Hl].
  - destruct (ki_records _ _ _ _ Hk) as [l [C1 C2 C3 C4]]. exists l. split; try done. intros e p x' He Hp Hx'. destruct (Hb p x' Hx') as (x & Hx & E & _).
    destruct (core_fields _ _ E) as (_ & -> & _). destruct (Hsub p Hp) as [Hin|[Hl _]]; [by apply (C3 e p)|by apply (Hl x Hx) with l].
  - intros i r p x' Hi Hr Hp Hx'. destruct (Hb p x' Hx') as (x & Hx & E & _). destruct (core_fields _ _ E) as (-> & _). by eapply (ki_idle _ _ _ _ Hk).
  - eapply (owns_perm k); [by rewrite Eown|done|apply Hk].
  - apply (registered_keeps k); try done; [apply Hk|..]; [intros o; life_cbn; by rewrite Hdom|by rewrite Eown].
Qed.

(** A process leaves the list; its children have lost it before. *)
Lemma unlist_ok k ps p :
  process_dlist (processes (sched k)) (process_head k) (process_tail k) ps -> p ∈ ps ->
  exists l1 l2 m hd tl, ps = l1 ++ p :: l2 /\ unlink_process p k = Ok (with_process_list m hd tl k) /\ process_dlist m hd tl (l1 ++ l2) /\
    relinked (H := process_links) (processes (sched k)) m.
Proof.
  intros Hd Hp. apply list_elem_of_split in Hp as (l1 & l2 & El). rewrite El in Hd. destruct (dlist_at (H := process_links) _ _ _ _ _ _ Hd) as (x & Hx & _).
  destruct (dl_unlink_ok (H := process_links) _ _ _ _ _ _ Hd) as (m & hd & tl & Hrun & Hd' & Hk).
  destruct (relinked_lookup (H := process_links) _ _ _ _ Hk Hx) as (x1 & Hx1 & E1).
  exists l1, l2, (<[p := with_p_prev None (with_p_next None x1)]> m), hd, tl. split_and!; [done| | |].
  - unfold unlink_process. rewrite Hrun, bind_ok, (assign_ok _ _ _ _ Hx1), bind_ok. done.
  - eapply (dlist_frame (H := process_links)); [|exact Hd']. intros u Hu. apply lookup_insert_ne. intros <-.
    destruct Hd as (Hnd & _). apply list.NoDup_app in Hnd as (_ & Hdis & [Ht2 _]%list.NoDup_cons).
    apply elem_of_app in Hu as [Hu|Hu]; [by apply (Hdis p Hu), list_elem_of_here|done].
  - transitivity m; [done|]. by eapply (relinked_insert (H := process_links)).
Qed.

(** ** Exit records *)
Definition record_of (x : Process) : ProcessExitRecord := mkExitRecord (p_id x) (parent_process_id x) (exit_code x).

(** The status is there for the launcher, unless there was none or no room for it. *)
Definition recorded (x : Process) (k : Kern) : Prop :=
  exists l, holds (exit_records k) l /\ (parent_process_id x = 0 \/ record_of x ∈ l \/ m_capacity (exit_records k) = len l).

Lemma kinv_records k q ps limbo h b lr :
  kinv k q ps limbo -> records_rep h (processes (sched k)) ps (next_pid k) lr -> refit (other_objects k) (m_items (exit_records k)) (m_items h) (blocks k) b ->
  kinv (with_exit_records h (with_blocks b k)) q ps limbo.
Proof.
  intros Hk Hr Hf. split; life_cbn; try apply Hk; [by exists lr|destruct (ki_owns _ _ _ _ Hk) as [N B]; unfold owned in N, B|destruct (ki_registered _ _ _ _ Hk) as [G1 G2]].
  - set (rest := owned_by kernel_stack (threads (sched k)) ++ owned_by launch_arguments (processes (sched k)) ++ option_list (m_items (g_objects k))).
    assert (forall o : list Z, owned_by kernel_stack (threads (sched k)) ++ owned_by launch_arguments (processes (sched k)) ++ option_list (m_items (g_objects k)) ++ o ≡ₚ o ++ rest) as E by (intros o; unfold rest; perm).
    rewrite E in N. setoid_rewrite E in B. destruct (refit_owns _ _ _ _ _ rest Hf N B) as [N' B']. apply (owns_by _ (option_list (m_items h) ++ rest)); [exact (E _)|done|done].
  - split; [exact G1|]. intros o Ho. pose proof (G2 o Ho) as Hno. unfold owned in Hno |- *. life_cbn. rewrite !elem_of_app in *. intros [H|[H|[H|H]]]; [by apply Hno; auto..|].
    destruct Hf as [[E _]|(a & E & Eo & _)]; rewrite E in H; [by apply Hno; auto|]. apply list_elem_of_singleton in H as ->. life_cbn. cbn in Ho. rewrite Eo in Ho. by destruct Ho.
Qed.

Definition remembered (x : Process) (k k' : Kern) : Prop :=
  (k' = k /\ recorded x k) \/
  exists h b l, holds (exit_records k) l /\ holds h (l ++ [record_of x]) /\ refit (other_objects k) (m_items (exit_records k)) (m_items h) (blocks k) b /\ k' = with_exit_records h (with_blocks b k).

Lemma remembered_recorded x k k' : remembered x k k' -> recorded x k' /\ forall l, holds (exit_records k) l -> exists new, holds (exit_records k') (l ++ new).
Proof.
  intros [[-> H]|(h & b & l & Hl & Hh & _ & ->)].
  - split; [done|]. intros l Hl. exists []. by rewrite app_nil_r.
  - split; [exists (l ++ [record_of x]); split; [done|]; right; left; set_solver|]. intros l' Hl'. rewrite (holds_unique _ _ _ Hl' Hl). by exists [record_of x].
Qed.

Lemma unrecorded k q ps limbo p x l e : kinv k q ps limbo -> p ∈ ps -> processes (sched k) !! p = Some x -> holds (exit_records k) l -> e ∈ l -> er_process_id e <> p_id x.
Proof.
  intros Hk Hp Hx Hl He. destruct (ki_records _ _ _ _ Hk) as [l' [C1 _ C3 _]]. rewrite (holds_unique _ _ _ Hl C1) in He. intros E. by apply (C3 e p x He Hp Hx).
Qed.

Lemma remember_post {B} k q ps p x (f : unit -> K B) Q :
  kinv k q ps [] -> processes (sched k) !! p = Some x -> (forall k', remembered x k k' -> kpost outside (f tt k') Q) ->
  kpost outside (kseq (remember_exit_status p) f k) Q.
Proof.
  intros Hk Hx HQ. unfold remember_exit_status. apply kassoc. rewrite (kseq_process p x) by done. destruct (ki_records _ _ _ _ Hk) as [l [C1 _ _ _]].
  destruct (Z.eqb_spec (parent_process_id x) 0) as [E|E]; [rewrite kseq_ret; apply HQ; left; split; [done|]; exists l; split; [done|by left]|].
  apply kassoc. rewrite (kseq_compute _ _ k None).
  2: { eapply seek_absent; [exact C1|]. intros e He. unfold is_record. destruct (Z.eqb_spec (er_process_id e) (p_id x)) as [Ee|]; [|done].
       by destruct (unrecorded k q ps [] p x l e Hk (process_listed _ _ _ _ _ Hk Hx) Hx C1 He). }
  apply kassoc. apply (kpost_seq _ _ _ _ (fun _ => remembered x k)); [apply (append_records k l (record_of x) (fun _ => remembered x k) C1)|].
  - intros b Hb. apply (ki_owns _ _ _ _ Hk). unfold owned. rewrite Hb, !elem_of_app. right. right. right. apply list_elem_of_here.
  - intros Hfull. left. split; [done|]. exists l. split; [done|]. right. by right.
  - intros h b Hh Hf. right. by exists h, b, l.
  - intros st k' H. rewrite kseq_ret. by apply HQ.
Qed.

(** ** Out of the list *)
Record unlisted (p : Z) (x : Process) (k k' : Kern) : Prop := {
  ul_sched : exists m, sched k' = with_processes m (sched k) /\ (forall a, is_Some (m !! a) <-> is_Some (processes (sched k) !! a)) /\
    forall a y', m !! a = Some y' -> exists y, processes (sched k) !! a = Some y /\ lasts y y' /\
      (parent_process_id y' = parent_process_id y \/ (parent_process_id y' = 0 /\ parent_process_id y = p_id x));
  ul_next : next_pid k' = next_pid k;
  ul_recorded : recorded x k';
  ul_records l : holds (exit_records k) l -> exists new, holds (exit_records k') (l ++ new);
  ul_order : exists l1 l2, in_order k (l1 ++ p :: l2) /\ in_order k' (l1 ++ l2) /\ p ∉ l1 ++ l2
}.

Lemma unlist_post {B} k q ps p x (f : unit -> K B) Q :
  kinv k q ps [] -> processes (sched k) !! p = Some x -> (forall t r, threads (sched k) !! t = Some r -> t_parent r <> Some p) ->
  (forall k' ps', kinv k' q ps' [p] -> unlisted p x k k' -> kpost outside (f tt k') Q) ->
  kpost outside (kseq (remember_exit_status p) (fun _ => kchange (orphan_launched_processes (p_id x)) >; kchange (unlink_process p) >;
    kseq (kset (fun k => if negb (process_count_value k =? 0) then with_process_count_value (process_count_value k - 1) k else k)) f) k) Q.
Proof.
  intros Hk Hx Hnone HQ. pose proof (process_listed _ _ _ _ _ Hk Hx) as Hp. pose proof (ki_processes _ _ _ _ Hk) as Hps.
  assert (p_id x <> 0) as Hid by (destruct (po_id _ _ (pr_ok _ _ _ _ _ _ _ Hps p x Hx)); lia).
  apply (remember_post k q ps p x); [done|done|]. intros k1 Hk1. destruct (remembered_recorded _ _ _ Hk1) as [Hrec Hnew].
  assert (sched k1 = sched k /\ process_head k1 = process_head k /\ process_tail k1 = process_tail k /\ process_count_value k1 = process_count_value k /\ next_pid k1 = next_pid k) as (E1 & E2 & E3 & E4 & E5).
  { by destruct Hk1 as [[-> _]|(h & b & l & _ & _ & _ & ->)]. }
  rewrite (kseq_change _ _ k1 (with_sched (with_processes (orphaned (p_id x) <$> processes (sched k)) (sched k)) k1)).
  2: { rewrite (orphan_ok _ k1 ps); [by rewrite E1| |done]. by rewrite E1, E2, E3, E4, E5. }
  set (k2 := with_sched _ k1). set (m2 := orphaned (p_id x) <$> processes (sched k)) in *.
  assert (process_dlist m2 (process_head k) (process_tail k) ps) as Hd2.
  { eapply (dlist_ext (H := process_links)); [|apply Hps]. intros a n Ha Hn. exists (orphaned (p_id x) n). split; [by unfold m2; rewrite lookup_fmap, Hn|].
    destruct (orphaned_fields (p_id x) n) as (_ & _ & _ & En & Ep & _). by split. }
  destruct (unlist_ok k2 ps p) as (l1 & l2 & m & hd & tl & El & Hrun & Hd & Hrel); [by unfold k2; life_cbn; rewrite E2, E3|done|].
  rewrite (kseq_change _ _ _ _ Hrun), kseq_set. unfold k2 in *. clear k2. life_cbn. cbn [sched with_sched processes with_processes] in Hrel. rewrite E4.
  destruct (Z.eqb_spec (process_count_value k) 0) as [E0|_]; [rewrite (pr_count _ _ _ _ _ _ _ Hps) in E0; rewrite El, length_app in E0; cbn in E0; lia|]. cbn [negb].
  assert (forall a y', m !! a = Some y' -> exists y, processes (sched k) !! a = Some y /\ content (H := process_links) y' = content (H := process_links) (orphaned (p_id x) y)) as Hb.
  { intros a y' Hy'. symmetry in Hrel. destruct (relinked_lookup (H := process_links) _ _ _ _ Hrel Hy') as (y2 & Hy2 & E). unfold m2 in Hy2. rewrite lookup_fmap in Hy2.
    apply fmap_Some in Hy2 as (y & Hy & ->). by exists y. }
  assert (forall a, is_Some (m !! a) <-> is_Some (processes (sched k) !! a)) as Hdom.
  { intros a. rewrite <- !elem_of_dom, (relinked_dom (H := process_links) _ _ Hrel). unfold m2. by rewrite dom_fmap_L. }
  set (n := process_count_value k - 1). set (k3 := with_process_count_value n _).
  assert (kinv (with_process_count_value n (with_process_list m hd tl k)) q (l1 ++ l2) [p]) as K.
  { assert (NoDup ps) as Hnd by apply (pr_list _ _ _ _ _ _ _ Hps). rewrite El in Hnd. apply list.NoDup_app in Hnd as (_ & Hdis & [Hp2 _]%list.NoDup_cons).
    apply (kinv_relist k q ps []); try done.
    - intros a y' Hy'. destruct (Hb a y' Hy') as (y & Hy & E). exists y. split; [done|]. destruct (orphaned_fields (p_id x) y) as (F1 & F2 & F3 & _ & _ & L & F4 & F5 & F6 & F7 & F8).
      destruct (lasts_fields _ _ L) as (_ & _ & _ & G1 & G2 & _). split; [transitivity (core (orphaned (p_id x) y)); [exact (f_equal core E)|unfold core; congruence]|].
      assert (parent_process_id y' = parent_process_id (orphaned (p_id x) y)) as -> by exact (f_equal parent_process_id E). destruct F8 as [->|[-> _]]; [by left|by right].
    - unfold n. rewrite (pr_count _ _ _ _ _ _ _ Hps), El, !length_app. cbn [length]. lia.
    - intros a Ha. left. rewrite El. set_solver.
    - intros a ->%list_elem_of_singleton [Ha|Ha]%elem_of_app; [by apply (Hdis p Ha), list_elem_of_here|done].
    - rewrite El. set_solver.
    - intros a t r ->%list_elem_of_singleton. apply Hnone. }
  apply (HQ k3 (l1 ++ l2)).
  - destruct Hk1 as [[-> _]|(h & b & l & Hl & Hh & Hf & ->)]; [exact K|].
    refine (kinv_records _ q (l1 ++ l2) [p] h b (l ++ [record_of x]) K _ Hf). destruct (ki_records _ _ _ _ K) as [l' [C1 C2 C3 C4]]. rewrite (holds_unique _ _ _ Hl C1) in *. split.
    + done.
    + rewrite fmap_app. apply list.NoDup_app. split_and!; [done| |apply NoDup_singleton]. intros i (e & -> & He)%list_elem_of_fmap Hi%list_elem_of_singleton.
      by destruct (unrecorded k q ps [] p x l' e).
    + intros e a y [He| ->%list_elem_of_singleton]%elem_of_app Ha Hy; [by apply (C3 e a)|]. cbn. intros E. pose proof (pr_limbo _ _ _ _ _ _ _ (ki_processes _ _ _ _ K) p (list_elem_of_here _ _)) as Hn. apply Hn.
      destruct (Hb a y Hy) as (y0 & Hy0 & Ec). replace p with a; [done|]. apply (pr_ids _ _ _ _ _ _ _ Hps a p y0 x); [done|done|].
      rewrite <- E. destruct (orphaned_fields (p_id x) y0) as (_ & <- & _). symmetry. exact (f_equal p_id Ec).
    + intros e [He| ->%list_elem_of_singleton]%elem_of_app; [by apply C4|]. apply (pr_ok _ _ _ _ _ _ _ Hps p x Hx).
  - split; [|exact E5|exact Hrec|exact Hnew|exists l1, l2; split_and!; [unfold in_order; rewrite <- El; apply Hps|exact Hd|apply (pr_limbo _ _ _ _ _ _ _ (ki_processes _ _ _ _ K)), list_elem_of_here]]. exists m. split_and!; [done|done|].
    intros a y' Hy'. destruct (Hb a y' Hy') as (y & Hy & E). exists y. split; [done|]. destruct (orphaned_fields (p_id x) y) as (_ & _ & _ & _ & _ & L & _ & _ & _ & _ & F8).
    assert (parent_process_id y' = parent_process_id (orphaned (p_id x) y)) as -> by exact (f_equal parent_process_id E). split; [|done].
    destruct L as [L1 L2]. split; [rewrite <- L1; exact (f_equal lasting E)|]. assert (p_state y' = p_state (orphaned (p_id x) y)) as -> by exact (f_equal p_state E). done.
Qed.

(** ** What the rest of the kernel held for it *)

(** Only the record of the process [p], which is not in the list any more, differs. *)
Record aside (p : Z) (k k' : Kern) : Prop := {
  as_sched : exists m, sched k' = with_processes m (sched k) /\ (forall a, a <> p -> m !! a = processes (sched k) !! a) /\
    forall x, processes (sched k) !! p = Some x -> exists x', m !! p = Some x' /\ p_id x' = p_id x;
  as_vars : next_pid k' = next_pid k /\ exit_records k' = exit_records k;
  as_ends : process_head k' = process_head k /\ process_tail k' = process_tail k
}.

Definition settles (p : Z) (k : Kern) (q : Queues) (ps : list Z) (k' : Kern) : Prop := kinv k' q ps [p] /\ aside p k k'.

Lemma aside_refl p k : aside p k k.
Proof. split; [|done..]. exists (processes (sched k)). split_and!; [by destruct (sched k)|done|]. intros x Hx. by exists x. Qed.

Lemma aside_trans p k1 k2 k3 : aside p k1 k2 -> aside p k2 k3 -> aside p k1 k3.
Proof.
  intros [(m & E1 & A1 & B1) [V1 W1] [X1 Y1]] [(m' & E2 & A2 & B2) [V2 W2] [X2 Y2]]. split; [|split; congruence..]. exists m'. rewrite E1 in *. cbn [processes with_processes] in *. split_and!; [by rewrite E2; destruct (sched k1)| |].
  - intros a Ha. rewrite A2, A1 by done. done.
  - intros x Hx. destruct (B1 x Hx) as (x2 & Hx2 & I2). destruct (B2 x2 Hx2) as (x3 & Hx3 & I3). exists x3. split; congruence.
Qed.

Lemma settles_trans p k q ps k2 k3 : settles p k q ps k2 -> settles p k2 q ps k3 -> settles p k q ps k3.
Proof. intros [_ A] [K B]. split; [done|]. by eapply aside_trans. Qed.

Lemma settles_frames p who k q ps k' : kinv k q ps [p] -> frames who k k' -> (forall a, who = Some a -> a = p) -> settles p k q ps k'.
Proof.
  intros Hk Hf Hw. split; [eapply kinv_frames; [done|done|intros a Ha; apply list_elem_of_singleton; by apply Hw]|].
  destruct Hf as [(m & Es & Hd & Hm) (V1 & V2 & _ & V4 & V5) _ _ _ _]. split; [|done..]. exists m. split_and!; [done| |].
  - intros a Ha. destruct (processes (sched k) !! a) as [x|] eqn:Hx.
    + destruct (Hm a x Hx) as (x' & Hx' & E & _). rewrite E in Hx'; [done|]. intros E'. by apply Ha, Hw.
    + apply not_elem_of_dom. rewrite Hd. by apply not_elem_of_dom.
  - intros x Hx. destruct (Hm p x Hx) as (x' & Hx' & _ & E). exists x'. split; [done|]. apply (kept_fields _ _ E).
Qed.

Lemma settles_process p x x' k q ps k' :
  kinv k' q ps [p] -> sched k' = with_processes (<[p := x']> (processes (sched k))) (sched k) -> next_pid k' = next_pid k -> exit_records k' = exit_records k ->
  process_head k' = process_head k -> process_tail k' = process_tail k -> processes (sched k) !! p = Some x -> p_id x' = p_id x -> settles p k q ps k'.
Proof.
  intros Hk Es E1 E2 E3 E4 Hx E. split; [done|]. split; [|done..]. exists (<[p := x']> (processes (sched k))). split_and!; [done| |].
  - intros a Ha. by apply lookup_insert_ne.
  - intros y Hy. exists x'. rewrite lookup_insert_eq. split; [done|congruence].
Qed.

Lemma settles_here p k q ps k' : settles p k q ps k' -> is_Some (processes (sched k') !! p).
Proof. intros [K _]. apply (pr_all _ _ _ _ _ _ _ (ki_processes _ _ _ _ K)). right. apply list_elem_of_here. Qed.

Lemma collect_post k q ps p : kinv k q ps [p] -> kpost outside (collect_process_resources p k) (fun _ k' => settles p k q ps k').
Proof.
  intros Hk. assert (settles p k q ps k) as H0 by (split; [done|apply aside_refl]). destruct (settles_here _ _ _ _ _ H0) as [x Hx].
  unfold collect_process_resources. rewrite (kseq_process p x) by done. destruct (object_has_flag _ _); [by apply kpost_ret|].
  assert (forall k1 k2, settles p k q ps k1 -> frames (Some p) k1 k2 -> settles p k q ps k2) as Hstep.
  { intros k1 k2 S1 F. eapply settles_trans; [exact S1|]. eapply settles_frames; [apply S1|done|by intros a [= ->]]. }
  do 6 (apply kpost_call; [exists q, ps; apply H0|]; intros [] ? ?F; pose proof (Hstep _ _ H0 F) as H1; clear H0 F; rename H1 into H0).
  destruct (settles_here _ _ _ _ _ H0) as [y Hy]. unfold set_proc, on_sched, kchange, kexec. unfold set_process, get_process. rewrite Hy, !bind_ok. cbn [kpost].
  eapply settles_trans; [exact H0|]. eapply (settles_process p y (with_handles None y)); try done. eapply kinv_process; try done. apply H0.
Qed.

(** ** Its record *)
Lemma thread_apart k t r p x : owns k -> threads (sched k) !! t = Some r -> processes (sched k) !! p = Some x -> t <> p.
Proof.
  intros [N _] Hr Hx ->. unfold owned in N. apply list.NoDup_app in N as (_ & N & _). apply (N p).
  - apply owned_in. exists p, r. split; [done|by left].
  - apply elem_of_app. left. apply owned_in. exists p, x. split; [done|by left].
Qed.

(** What is neither a thread nor a process in the list leaves the registry. *)
Lemma unregister_post {B} k q ps limbo p (f : Status -> K B) Q :
  kinv k q ps limbo -> threads (sched k) !! p = None -> p ∉ ps ->
  (forall st h, kinv (with_g_objects h k) q ps limbo -> (forall l, holds h l -> p ∉ l) -> kpost outside (f st (with_g_objects h k)) Q) -> kpost outside (kseq (unregister_object (Some p)) f k) Q.
Proof.
  intros Hk Hnt Hp HQ. destruct (ki_objects _ _ _ _ Hk) as [lo [O1 O2 O3 O4]]. destruct (decide (p ∈ lo)) as [Hin|Hn].
  - destruct (unregister_ok k lo p f O1 O2 Hin) as (h & lo' & Hh & Hnd & Hel & Hit & ->). apply HQ; [|by intros l Hl; rewrite <- (holds_unique _ _ _ Hh Hl), Hel; intros [_ ?]].
    split; life_cbn; try apply Hk.
    + exists lo'. split; [done|done| |].
      * intros t [r Hr]. apply Hel. split; [apply O3; by eauto|congruence].
      * intros a Ha. apply Hel. split; [by apply O4|]. by intros ->.
    + eapply (owns_perm k); [|done|apply Hk]. unfold owned. life_cbn. by rewrite Hit.
    + destruct (ki_registered _ _ _ _ Hk) as [G1 G2]. split.
      * intros l o Hl Ho. rewrite <- (holds_unique _ _ _ Hh Hl) in Ho. apply Hel in Ho as [Ho _]. exact (G1 lo o O1 Ho).
      * intros o Ho. unfold owned. life_cbn. rewrite Hit. by apply G2.
  - unfold unregister_object. apply kassoc. rewrite (kseq_compute _ _ k None); [|apply (seek_absent _ _ lo O1); intros o Ho; apply Z.eqb_neq; by intros ->]. rewrite kseq_ret.
    replace k with (with_g_objects (g_objects k) k) by (by destruct k). apply HQ; [by replace (with_g_objects (g_objects k) k) with k by (by destruct k)|]. intros l Hl. by rewrite (holds_unique _ _ _ Hl O1).
Qed.

Lemma kinv_unargued k q ps limbo p x a :
  kinv k q ps limbo -> processes (sched k) !! p = Some x -> launch_arguments x = Some a ->
  kinv (with_sched (with_processes (<[p := with_launch_arguments None x]> (processes (sched k))) (sched k)) (with_blocks (blocks k ∖ {[a]}) k)) q ps limbo.
Proof.
  intros Hk Hx Ha. eapply kinv_process_owns; try done; [apply (pr_ok _ _ _ _ _ _ _ (ki_processes _ _ _ _ Hk) p x Hx)|]. apply (owns_drop k _ a); [|life_cbn; set_solver|apply Hk]. unfold owned. life_cbn.
  rewrite (owned_by_delete launch_arguments _ p x Hx), (owned_update launch_arguments _ p x _ Hx), Ha. change (option_list (Some a)) with [a]. change (option_list (launch_arguments (with_launch_arguments None x))) with (@nil Z). perm.
Qed.

Lemma kinv_release k q ps p x :
  kinv k q ps [p] -> processes (sched k) !! p = Some x -> launch_arguments x = None -> (forall l, holds (g_objects k) l -> p ∉ l) ->
  kinv (with_blocks (blocks k ∖ {[p]}) (with_sched (with_processes (delete p (processes (sched k))) (sched k)) k)) q ps [].
Proof.
  intros Hk Hx Ha Hun. pose proof (ki_processes _ _ _ _ Hk) as [R1 R2 R3 R4 R5 R6 R7 R8]. assert (p ∉ ps) as Hp by apply R3, list_elem_of_here.
  assert (owned k ≡ₚ p :: owned (with_blocks (blocks k ∖ {[p]}) (with_sched (with_processes (delete p (processes (sched k))) (sched k)) k))) as Eown.
  { unfold owned. life_cbn. rewrite (owned_by_delete launch_arguments _ p x Hx), Ha. change (option_list None) with (@nil Z). perm. }
  split; life_cbn.
  - apply inv_with_processes; [apply Hk|]. intros t r a y Hr Hpar Hy Hne. exists y. split; [|done]. rewrite lookup_delete_ne; [done|]. intros <-.
    by apply (ki_limbo _ _ _ _ Hk p t r (list_elem_of_here _ _) Hr).
  - split; try done.
    + eapply (dlist_frame (H := process_links)); [|exact R1]. intros a Ha'. apply lookup_delete_ne. by intros <-.
    + intros a. split.
      * intros [y [Hne Hy]%lookup_delete_Some]. left. destruct (R2 a) as [[H|H] _]; [by eauto|done|]. apply list_elem_of_singleton in H. by subst.
      * intros [Hin|Hin%not_elem_of_nil]; [|done]. rewrite lookup_delete_ne by (by intros <-). apply R2. by left.
    + intros a Hin. by apply not_elem_of_nil in Hin.
    + intros a y [_ Hy]%lookup_delete_Some. by apply (R6 a).
    + intros a1 a2 y1 y2 [_ H1]%lookup_delete_Some [_ H2]%lookup_delete_Some. by apply R7.
    + intros a y Hin [_ Hy]%lookup_delete_Some. by apply (R8 a).
  - intros a y [_ Hy]%lookup_delete_Some. by apply (ki_members _ _ _ _ Hk).
  - intros a t r Hin. by apply not_elem_of_nil in Hin.
  - apply Hk.
  - apply Hk.
  - destruct (ki_records _ _ _ _ Hk) as [l [C1 C2 C3 C4]]. exists l. split; try done. intros e a y He Hin [_ Hy]%lookup_delete_Some. by apply (C3 e a).
  - intros i r a y Hi Hr Hpar Hy. cbn [processes with_processes] in Hy. apply lookup_delete_Some in Hy as [_ Hy]. by eapply (ki_idle _ _ _ _ Hk).
  - apply (owns_drop k _ p); [exact Eown|life_cbn; set_solver|apply Hk].
  - destruct (ki_registered _ _ _ _ Hk) as [G1 G2]. split; life_cbn.
    + intros l o Hl Ho. destruct (G1 l o Hl Ho) as [H|[[y Hy]|H]]; [by left| |by right; right]. right. left. exists y. life_cbn. rewrite lookup_delete_ne; [done|]. intros <-. by apply (Hun l).
    + intros o Ho Hin. apply (G2 o Ho). rewrite Eown. by right.
Qed.

(** What [bury_process] does once the process is out of the list. *)
Definition shed (p : Z) : K Status :=
  collect_process_resources p >;
  let* x := kprocess p in
  match launch_arguments x with
  | Some a => kcall (HeapFree a) >; set_proc p (with_launch_arguments None)
  | None => kret tt
  end >;
  unregister_object (Some p) >;
  let* x := kprocess p in
  kcall (UnsubscribeOwner (p_id x)) >;
  release_process_slot p >;
  kret StatusOK.

Definition released (p : Z) (k k' : Kern) : Prop :=
  exists k1, aside p k k1 /\ sched k' = with_processes (delete p (processes (sched k1))) (sched k1) /\ next_pid k' = next_pid k1 /\ exit_records k' = exit_records k1 /\
    process_head k' = process_head k1 /\ process_tail k' = process_tail k1.

Lemma process_owned k p x : processes (sched k) !! p = Some x -> p ∈ owned k /\ forall a, launch_arguments x = Some a -> a ∈ owned k.
Proof.
  intros Hx. unfold owned. split; [|intros a Ha]; rewrite !elem_of_app; right; left; apply owned_in; exists p, x; (split; [done|]); [by left|by right].
Qed.

Lemma unargue_post k q ps p x :
  kinv k q ps [p] -> processes (sched k) !! p = Some x ->
  kpost outside (match launch_arguments x with Some a => kcall (HeapFree a) >; set_proc p (with_launch_arguments None) | None => kret tt end k)
    (fun _ k' => settles p k q ps k' /\ exists x', processes (sched k') !! p = Some x' /\ launch_arguments x' = None).
Proof.
  intros Hk Hx. destruct (launch_arguments x) as [a|] eqn:Ea.
  - apply kpost_call; [apply (ki_owns _ _ _ _ Hk); by apply (process_owned k p x)|]. intros [] k1 ->. unfold set_proc, on_sched, kchange, kexec, set_process, get_process. life_cbn. rewrite Hx, !bind_ok. cbn [kpost].
    split; [|eexists; split; [apply lookup_insert_eq|done]]. eapply (settles_process p x (with_launch_arguments None x)); try done. by apply (kinv_unargued k q ps [p] p x a).
  - apply kpost_ret. split; [|by exists x]. split; [done|apply aside_refl].
Qed.

Lemma shed_post k q ps p : kinv k q ps [p] -> kpost outside (shed p k) (fun st k' => st = StatusOK /\ kinv k' q ps [] /\ released p k k').
Proof.
  intros Hk. unfold shed. eapply kpost_seq; [by apply collect_post|]. intros [] k1 S1. cbn beta. destruct (settles_here _ _ _ _ _ S1) as [x1 Hx1]. rewrite (kseq_process p x1) by done.
  eapply kpost_seq; [apply (unargue_post k1 q ps p x1); [apply S1|done]|]. intros [] k2 (S2 & x2 & Hx2 & Ha2). cbn beta.
  apply (unregister_post k2 q ps [p] p); [apply S2| |apply (pr_limbo _ _ _ _ _ _ _ (ki_processes _ _ _ _ (proj1 S2))), list_elem_of_here|].
  { destruct (threads (sched k2) !! p) as [r|] eqn:E; [|done]. by destruct (thread_apart k2 p r p x2 (ki_owns _ _ _ _ (proj1 S2)) E Hx2). }
  intros st h K3 Hun. set (k3 := with_g_objects h k2) in *. rewrite (kseq_process p x2) by done.
  apply kpost_call; [by exists q, ps, p, x2|]. intros [] k4 F4. pose proof (settles_frames p None k3 q ps k4 K3 F4 ltac:(done)) as S4. pose proof F4 as [(m & Es & _ & Hm) _ Fo _ _ Ft].
  destruct (Hm p x2 Hx2) as (x4 & Hx4 & E4 & _). rewrite E4 in Hx4 by done. assert (processes (sched k4) !! p = Some x2) as Hx4' by (by rewrite Es).
  unfold release_process_slot. apply kassoc. rewrite kseq_set. destruct S4 as [K4 A4]. apply kpost_call; [change (p ∈ blocks k4); apply (ki_owns _ _ _ _ K4); exact (proj1 (process_owned k4 p x2 Hx4'))|].
  intros [] k5 ->. apply kpost_ret. split_and!; [done|apply (kinv_release k4 q ps p x2); [done|done|done|]|].
  - destruct (ki_objects _ _ _ _ K3) as [l [O1 O2 _ _]]. destruct (Fo l O1 O2) as (l' & H1 & _ & _ & H4). intros l2 Hl2 Hin. rewrite <- (holds_unique _ _ _ H1 Hl2) in Hin.
    destruct (H4 p Hin) as [[Hp _]|Ho]; [by apply (Hun l)|]. apply (Ft p Ho). exact (proj1 (process_owned k3 p x2 Hx2)).
  - exists k4. split_and!; [|done..].
  eapply aside_trans; [apply S1|]. eapply aside_trans; [apply S2|]. destruct A4. by split.
Qed.

Lemma kgrows_buried k q k1 k' p x :
  processes (sched k) !! p = Some x -> unlisted p x k k1 -> released p k1 k' -> kgrows [] [p] k q k' q /\ processes (sched k') !! p = None.
Proof.
  intros Hx [(m1 & E1 & Hd1 & Hb1) N1 _ Hrec (l1 & l2 & Ho & Ho1 & Hp)] (k2 & [(m2 & E2 & Hs2 & _) [N2 R2] [X2 Y2]] & E3 & N3 & R3 & X3 & Y3). rewrite E1 in *. cbn [processes with_processes] in *.
  rewrite E2 in *. cbn [processes with_processes] in *.
  assert (sched k' = with_processes (delete p m2) (sched k)) as Es by (rewrite E3; by destruct (sched k)).
  assert (forall a y', delete p m2 !! a = Some y' -> a <> p /\ exists y, processes (sched k) !! a = Some y /\ lasts y y' /\
      (parent_process_id y' = parent_process_id y \/ (parent_process_id y' = 0 /\ parent_process_id y = p_id x))) as Hb.
  { intros a y' [Hne Hy']%lookup_delete_Some. split; [done|]. rewrite Hs2 in Hy' by done. by apply Hb1. }
  split; [|rewrite Es; apply lookup_delete_eq]. split.
  - rewrite Es. split; try done; life_cbn.
    + by exists []; split; [|intros c _; apply not_elem_of_nil].
    + intros t r Hr _ _. exists r. split; [done|by left].
    + intros lv l Hl. exists []. rewrite app_nil_r, list_filter_all; [done|]. apply Forall_forall. intros t _. apply not_elem_of_nil.
    + by left.
    + intros a y' Hy'. destruct (Hb a y' Hy') as (_ & y & Hy & L & _). destruct (lasts_fields _ _ L) as (_ & F1 & _ & F2 & _). eauto.
  - intros a y Hy Ha _. rewrite Es. life_cbn. assert (a <> p) as Hne by (intros ->; by apply Ha, list_elem_of_here).
    destruct (Hd1 a) as [_ [y' Hy']]; [by eauto|]. assert (delete p m2 !! a = Some y') as Hd by (rewrite lookup_delete_ne by done; by rewrite Hs2).
    exists y'. split; [done|]. destruct (Hb a y' Hd) as (_ & y0 & Hy0 & L & _). congruence.
  - intros a y y' Hy Hy'. rewrite Es in Hy'. destruct (Hb a y' Hy') as (_ & y0 & Hy0 & _ & Hpar). assert (y0 = y) as -> by congruence. destruct Hpar as [E|[E Ep]]; [by left|]. right. split; [done|].
    exists p, x. split_and!; [done|done|]. rewrite Es. apply lookup_delete_eq.
  - rewrite Es. split; [congruence|done].
  - intros l Hl. destruct (Hrec l Hl) as [new Hn]. exists new. by rewrite R3, R2.
  - intros ps ps' H H'. rewrite (order_unique k (l1 ++ p :: l2) ps Ho H). assert (in_order k' (l1 ++ l2)) as Ho'.
    { unfold in_order in *. rewrite Es, X3, X2, Y3, Y2. rewrite E1 in Ho1. cbn [processes with_processes] in *. eapply (dlist_frame (H := process_links)); [|exact Ho1].
      intros a Ha. assert (a <> p) as Hne by (by intros ->). rewrite lookup_delete_ne by done. by apply Hs2. }
    rewrite (order_unique k' _ ps' Ho' H'). apply sublist_app; [done|]. by apply sublist_cons.
Qed.

Lemma launched_more k k1 k2 x x' : launched k k1 x x' -> (forall p, processes (sched k1) !! p = None -> processes (sched k2) !! p = None) -> launched k k2 x x'.
Proof. intros [E|(E & p & y & H1 & H2 & H3)] Hm; [by left|]. right. split; [done|]. exists p, y. split_and!; [done|done|by apply Hm]. Qed.

(** The status the process ended with is kept for the launcher it still has. *)
Definition leaves_status (x : Process) (k k' : Kern) : Prop := exists x1, p_id x1 = p_id x /\ exit_code x1 = exit_code x /\ launched k k' x x1 /\ recorded x1 k'.

Lemma bury_post k q ps p x :
  kinv k q ps [] -> processes (sched k) !! p = Some x -> (forall t r, threads (sched k) !! t = Some r -> t_parent r <> Some p) ->
  kpost outside (bury_process p (p_id x) k)
    (fun st k' => st = StatusOK /\ exists q' ps', kinv k' q' ps' [] /\ kgrows [] [p] k q k' q' /\ processes (sched k') !! p = None /\ leaves_status x k k').
Proof.
  intros Hk Hx Hnone. unfold bury_process. apply (publish_process_post k q ps _ p x); [done|done|]. intros k1 q1 ps1 K1 G1.
  destruct (kg_process _ _ _ _ _ _ G1 p x Hx) as (x1 & Hx1 & L1); [apply not_elem_of_nil|by right; right; left|].
  assert (forall t r, threads (sched k1) !! t = Some r -> t_parent r <> Some p) as Hnone1.
  { intros t r Hr Hp. destruct (departs_back _ _ _ _ _ t r (kg_sched _ _ _ _ _ _ G1) Hr (not_elem_of_nil _)) as (r0 & Hr0 & Gr). apply (Hnone t r0 Hr0). rewrite <- Hp. symmetry. by eapply thread_grows_parent. }
  destruct (lasts_fields _ _ L1) as (_ & <- & _). apply (unlist_post k1 q1 ps1 p x1); [done|done|done|]. intros k2 ps2 K2 U2. change (kpost outside (shed p k2) (fun st k' => st = StatusOK /\ exists q' ps', kinv k' q' ps' [] /\ kgrows [] [p] k q k' q' /\ processes (sched k') !! p = None /\ leaves_status x k k')).
  eapply kpost_mono; [|by apply (shed_post k2 q1 ps2 p)]. intros st k3 (-> & K3 & R3). split; [done|]. destruct (kgrows_buried k1 q1 k2 k3 p x1 Hx1 U2 R3) as [G3 Hn].
  exists q1, ps2. split_and!; [done| |done|].
  - apply (kgrows_trans [] [] [] [p] k q k1 q1 k3 q1); [exact (kinv_sound _ _ _ _ K1)|by intros t r r' Ht%not_elem_of_nil|done|done].
  - destruct (lasts_fields _ _ L1) as (_ & F1 & _ & _ & _ & F2). exists x1. split_and!; [done|done| |].
    + eapply launched_more; [by apply (kg_launcher _ _ _ _ _ _ G1 p)|]. intros a. apply (departs_gone _ _ _ _ _ _ (kg_sched _ _ _ _ _ _ G3)).
    + destruct U2 as [_ _ (l & Hl & Hor) _ _]. destruct R3 as (k4 & [_ [_ R4] _] & _ & _ & R5 & _). exists l. by rewrite R5, R4.
Qed.

(** A thread that may be destroyed. *)
Definition may_go (k : Kern) (q : Queues) (t : Z) : Prop := t ∉ retired q /\ g_current_thread (sched k) <> Some t /\ g_idle_thread (sched k) <> Some t.

Lemma may_go_later gone pgone k q k' q' t : kgrows gone pgone k q k' q' -> may_go k q t -> may_go k' q' t.
Proof.
  intros [D _ _ _ _ _] (H1 & H2 & H3). split_and!; [by eapply retired_shrinks|by rewrite (de_current _ _ _ _ _ D)|by rewrite (de_idle _ _ _ _ _ D)].
Qed.

(** A member of a process was one before, unless it went. *)
Lemma member_before gone pgone k q k' q' t r p :
  kgrows gone pgone k q k' q' -> (forall u, u ∈ gone -> threads (sched k') !! u = None) -> threads (sched k') !! t = Some r -> t_parent r = Some p ->
  exists r0, threads (sched k) !! t = Some r0 /\ t_parent r0 = Some p.
Proof.
  intros G Hg Hr Hp. destruct (departs_back _ _ _ _ _ t r (kg_sched _ _ _ _ _ _ G) Hr) as (r0 & Hr0 & Gr); [intros Hin; by rewrite Hg in Hr|].
  exists r0. split; [done|]. rewrite <- Hp. symmetry. by eapply thread_grows_parent.
Qed.

Lemma fewer_threads gone pgone k q k' q' t : kgrows gone pgone k q k' q' -> is_Some (threads (sched k) !! t) -> threads (sched k') !! t = None ->
  (size (threads (sched k')) < size (threads (sched k)))%nat.
Proof.
  intros G Ht Hn. rewrite <- !size_dom. apply subset_size. split.
  - intros u Hu%elem_of_dom. apply elem_of_dom. by apply (de_old _ _ _ _ _ (kg_sched _ _ _ _ _ _ G)).
  - intros Hsub. apply elem_of_dom in Ht. apply Hsub, elem_of_dom in Ht. rewrite Hn in Ht. by destruct Ht.
Qed.

Section DestroyProcess.
Context (D : option Z -> K Status) (k : Kern) (q : Queues) (p : Z) (x : Process) (members : list Z).
Hypothesis Hx : processes (sched k) !! p = Some x.
Hypothesis Hm : member_rep (threads (sched k)) p x members.
Hypothesis Hgo : forall t, t ∈ members -> may_go k q t.

(** Some of the threads have gone. *)
Definition emptying (k1 : Kern) : Prop := exists q1 ps1 gone x1,
  kinv k1 q1 ps1 [] /\ kgrows gone [p] k q k1 q1 /\ processes (sched k1) !! p = Some x1 /\ lasts (with_p_state ProcessTerminated x) x1 /\
  forall t, t ∈ gone -> t ∈ members /\ threads (sched k1) !! t = None.

Lemma emptying_step k1 n :
  emptying k1 -> size (threads (sched k1)) = n ->
  kpost outside (empty_step (destroy_thread_with D) p k1) (fun r k' => match r with
    | Some st => st = StatusOK /\ emptying k' /\ (forall t r, threads (sched k') !! t = Some r -> t_parent r <> Some p)
    | None => emptying k' /\ exists n', (n' < n)%nat /\ size (threads (sched k')) = n' end).
Proof.
  intros (q1 & ps1 & gone & x1 & K1 & G1 & Hx1 & L1 & Hgone) Hn. destruct (ki_members _ _ _ _ K1 p x1 Hx1) as [l Hl]. unfold empty_step. rewrite (kseq_process p x1) by done.
  pose proof (mb_list _ _ _ _ Hl) as (_ & _ & -> & _). destruct l as [|t l]; cbn [first].
  - apply kpost_ret. split_and!; [done|by exists q1, ps1, gone, x1|]. intros t r Hr Hp. apply (not_elem_of_nil t), (mb_all _ _ _ _ Hl). eauto.
  - destruct (mb_all _ _ _ _ Hl t) as [(r & Hr & Hp) _]; [apply list_elem_of_here|].
    assert (t ∈ members) as Ht. { apply (mb_all _ _ _ _ Hm). eapply member_before; [exact G1| |done|done]. intros u Hu. by apply Hgone. }
    destruct (may_go_later _ _ _ _ _ _ t G1 (Hgo t Ht)) as (M1 & M2 & M3). pose proof (lasts_terminated _ _ L1 eq_refl) as Hst.
    eapply kpost_seq; [apply (destroy_thread_with_post D k1 q1 ps1 t r); try done; right; by exists p, x1|]. intros st k2 (-> & q2 & ps2 & K2 & G2 & Hn2).
    rewrite bool_decide_eq_true_2 by done. cbn [negb]. apply kpost_ret. split; [|exists (size (threads (sched k2))); split; [|done]; rewrite <- Hn; eapply fewer_threads; [exact G2|by eauto|done]].
    destruct (kg_process _ _ _ _ _ _ G2 p x1 Hx1) as (x2 & Hx2 & L2); [apply not_elem_of_nil|by left|]. exists q2, ps2, (gone ++ [t]), x2. split_and!; [done| |done|by eapply lasts_trans|].
    + apply (kgrows_set (gone ++ [t]) (gone ++ [t]) ([p] ++ []) [p]); [done|set_solver|]. eapply kgrows_trans; [exact (kinv_sound _ _ _ _ K1)| |done|done].
      intros u r1 r2 Hu _ Hu2. destruct (Hgone u Hu). congruence.
    + intros u [Hu| ->%list_elem_of_singleton]%elem_of_app; [|done]. destruct (Hgone u Hu) as [Hu1 Hu2]. split; [done|].
      destruct (threads (sched k2) !! u) eqn:E2; [|done]. destruct (de_old _ _ _ _ _ (kg_sched _ _ _ _ _ _ G2) u) as [? ?]; [by eauto|congruence].
Qed.

Lemma kgrows_terminated : kgrows [] [p] k q (with_sched (with_processes (<[p := with_p_state ProcessTerminated x]> (processes (sched k))) (sched k)) k) q.
Proof.
  set (x' := with_p_state ProcessTerminated x).
  assert (forall a y', <[p := x']> (processes (sched k)) !! a = Some y' -> exists y, processes (sched k) !! a = Some y /\ p_id y' = p_id y /\ process_address_space y' = process_address_space y /\ parent_process_id y' = parent_process_id y) as Hb.
  { intros a y' Hy'. apply lookup_insert_Some in Hy' as [[<- <-]|[Hne Hy']]; [by exists x|by exists y']. }
  split; life_cbn.
  - split; try done; life_cbn.
    + by exists []; split; [|intros c _; apply not_elem_of_nil].
    + intros t r Hr _ _. exists r. split; [done|by left].
    + intros lv l Hl. exists []. rewrite app_nil_r, list_filter_all; [done|]. apply Forall_forall. intros t _. apply not_elem_of_nil.
    + by left.
    + intros a y' Hy'. destruct (Hb a y' Hy') as (y & Hy & E1 & E2 & _). eauto.
  - intros a y Hy Ha _. exists y. rewrite lookup_insert_ne; [split; [done|apply lasts_refl]|]. intros <-. by apply Ha, list_elem_of_here.
  - intros a y y' Hy Hy'. left. destruct (Hb a y' Hy') as (y0 & Hy0 & _ & _ & ->). congruence.
  - done.
  - intros l Hl. exists []. by rewrite app_nil_r.
  - apply order_same; [done|done|]. intros a y Hy. life_cbn. destruct (decide (a = p)) as [->|Hne]; [rewrite lookup_insert_eq; exists x'|rewrite lookup_insert_ne by done; by exists y]. rewrite Hx in Hy. by injection Hy as <-.
Qed.

(** What is left of it. *)
Record destroyed (k' : Kern) : Prop := {
  ds_later : exists q' ps', kinv k' q' ps' [] /\ kgrows members [p] k q k' q';
  ds_process : processes (sched k') !! p = None;
  ds_threads t : t ∈ members -> threads (sched k') !! t = None;
  ds_status : leaves_status x k k'
}.

Lemma destroy_process_with_post ps : kinv k q ps [] -> kpost outside (destroy_process_with (destroy_thread_with D) (Some p) k) (fun st k' => st = StatusOK /\ destroyed k').
Proof.
  intros Hk. unfold destroy_process_with. rewrite (kseq_compute _ _ k true).
  2: { rewrite (contains_process_ok _ _ _ (ki_processes _ _ _ _ Hk)). cbn [among]. rewrite bool_decide_eq_true_2; [done|]. by eapply process_listed. }
  cbn [negb]. rewrite (kseq_process p x) by done. rewrite (kseq_set_proc p x) by done. set (k0 := with_sched _ k). rewrite kseq_read.
  assert (kinv k0 q ps []) as K0 by (by eapply kinv_process).
  apply (kpost_seq _ _ _ _ (fun st k' => st = StatusOK /\ emptying k' /\ (forall t r, threads (sched k') !! t = Some r -> t_parent r <> Some p))).
  { apply (kpost_loop outside (empty_step (destroy_thread_with D) p) emptying (fun k n => size (threads (sched k)) = n) _ _ (size (threads (sched k0)))); [intros; by apply emptying_step| |done|lia].
    exists q, ps, [], (with_p_state ProcessTerminated x). split_and!; [done|apply kgrows_terminated|apply lookup_insert_eq|apply lasts_refl|]. by intros t Ht%not_elem_of_nil. }
  intros st k1 (-> & (q1 & ps1 & gone & x1 & K1 & G1 & Hx1 & L1 & Hgone) & Hnone). rewrite bool_decide_eq_true_2 by done. cbn [negb]. destruct (lasts_fields _ _ L1) as (_ & F1 & _ & _ & _ & F2). cbn in F1, F2. rewrite <- F1.
  eapply kpost_mono; [|by apply (bury_post k1 q1 ps1 p x1)]. intros st k2 (-> & q2 & ps2 & K2 & G2 & Hn2 & x2 & I2 & C2 & La2 & R2). split; [done|].
  assert (forall t, t ∈ gone <-> t ∈ members) as Hall.
  { intros t. split; [intros Ht; by apply Hgone|]. intros Ht. destruct (decide (t ∈ gone)) as [Hg|Hg]; [done|exfalso]. destruct (mb_all _ _ _ _ Hm t) as [(r & Hr & Hp) _]; [done|].
    destruct (de_thread _ _ _ _ _ (kg_sched _ _ _ _ _ _ G1) t r Hr Hg) as (r1 & Hr1 & Gr); [intros Hre; by destruct (Hgo t Ht)|]. apply (Hnone t r1 Hr1). rewrite <- Hp. by eapply thread_grows_parent. }
  split.
  - exists q2, ps2. split; [done|]. apply (kgrows_set (gone ++ []) members ([p] ++ [p]) [p]); [intros t; by rewrite app_nil_r|set_solver|].
    eapply kgrows_trans; [exact (kinv_sound _ _ _ _ K1)| |done|done]. intros u r1 r2 Hu _ Hu2. destruct (Hgone u Hu). congruence.
  - done.
  - intros t Ht%Hall. destruct (Hgone t Ht) as [_ Hd]. destruct (threads (sched k2) !! t) eqn:E2; [|done]. destruct (de_old _ _ _ _ _ (kg_sched _ _ _ _ _ _ G2) t) as [? ?]; [by eauto|congruence].
  - exists x2. split_and!; [congruence|congruence| |done]. eapply launched_trans; [apply G1|apply G2| |exact La2]. exact (kg_launcher _ _ _ _ _ _ G1 p x x1 Hx Hx1).
Qed.
End DestroyProcess.

Lemma no_members k p x : (forall t r, threads (sched k) !! t = Some r -> t_parent r <> Some p) -> (exists l, member_rep (threads (sched k)) p x l) -> member_rep (threads (sched k)) p x [].
Proof. intros Hn [[|t l] Hl]; [done|]. destruct (mb_all _ _ _ _ Hl t) as [(r & Hr & Hp) _]; [apply list_elem_of_here|]. by destruct (Hn t r). Qed.

Lemma destroy_process_post k q ps p x members :
  kinv k q ps [] -> processes (sched k) !! p = Some x -> member_rep (threads (sched k)) p x members -> (forall t, t ∈ members -> may_go k q t) ->
  kpost outside (destroy_process (Some p) k) (fun st k' => st = StatusOK /\ destroyed k q p x members k').
Proof. intros Hk Hx Hm Hgo. exact (destroy_process_with_post (destroy_process_upto 1) k q p x members Hx Hm Hgo ps Hk). Qed.

Lemma destroy_process_buries : buries destroy_process.
Proof.
  intros k q ps p x Hk Hx _ Hn. eapply kpost_mono; [|apply (destroy_process_post k q ps p x []); [done|done|by apply no_members, (ki_members _ _ _ _ Hk)|by intros t Ht%not_elem_of_nil]].
  intros st k' [-> [(q' & ps' & K & G) Hp _ _]]. split; [done|]. by exists q', ps'.
Qed.

Lemma destroy_thread_post k q ps t r :
  kinv k q ps [] -> threads (sched k) !! t = Some r -> may_go k q t ->
  kpost outside (destroy_thread (Some t) k)
    (fun st k' => st = StatusOK /\ exists q' ps', kinv k' q' ps' [] /\ kgrows [t] [] k q k' q' /\ threads (sched k') !! t = None).
Proof. intros Hk Hr (H1 & H2 & H3). apply (destroy_thread_with_post _ k q ps t r); try done. left. apply destroy_process_buries. Qed.
