(* ===== verification/LifeMake.v ===== *)
(** Making processes and threads. *)
From stdpp Require Import base list gmap.
From Stdlib Require Import ZArith Lia.
From S2P Require Import Prelude KernelText DList KernelIface SchedState Scheduler SchedQueues SchedOps SchedInv SchedLogic ThreadRegistry HeapList LifeState Lifecycle LifeInv LifeChanges LifeDestroy LifeEnd.

Local Open Scope Z_scope.

(** ** A new record *)

(** A block that was just handed out is nobody's. *)
Definition unused (k : Kern) (a : Z) : Prop := a ∉ blocks k /\ other_objects k !! a = None.

Lemma unused_apart k q ps limbo a : kinv k q ps limbo -> unused k a ->
  a ∉ owned k /\ threads (sched k) !! a = None /\ processes (sched k) !! a = None /\ forall l, holds (g_objects k) l -> a ∉ l.
Proof.
  intros Hk [Hb Ho]. assert (a ∉ owned k) as Hn by (intros Hin; by apply Hb, (ki_owns _ _ _ _ Hk)).
  assert (threads (sched k) !! a = None) as Ht by (destruct (threads (sched k) !! a) as [r|] eqn:E; [|done]; destruct Hn; exact (proj1 (thread_owned k a r E))).
  assert (processes (sched k) !! a = None) as Hp by (destruct (processes (sched k) !! a) as [x|] eqn:E; [|done]; destruct Hn; exact (proj1 (process_owned k a x E))).
  split_and!; [done|done|done|]. intros l Hl Hin. destruct (rg_live _ (ki_registered _ _ _ _ Hk) l a Hl Hin) as [[? E]|[[? E]|[? E]]]; congruence.
Qed.

(** A record of a process without threads, for the next identifier. *)
Record fresh_process (k : Kern) (x : Process) : Prop := {
  fp_id : p_id x = next_pid k;
  fp_parent : parent_process_id x = 0;
  fp_name : terminated (p_name x);
  fp_args : launch_arguments x = None;
  fp_threads : thread_list_head x = None /\ thread_list_tail x = None /\ thread_count x = 0 /\ main_thread x = None
}.

Definition with_new (p : Z) (x : Process) (k : Kern) : Kern :=
  with_sched (with_processes (<[p := x]> (processes (sched k))) (sched k)) (with_next_pid (u64 (next_pid k + 1)) (with_blocks ({[p]} ∪ blocks k) k)).

Lemma kinv_new k q ps p x : kinv k q ps [] -> unused k p -> fresh_process k x -> next_pid k + 1 < 2 ^ 64 -> kinv (with_new p x k) q ps [p].
Proof.
  intros Hk Hun [F1 F2 F3 F4 (F5 & F6 & F7 & F8)] Hroom. destruct (unused_apart _ _ _ _ _ Hk Hun) as (Hown & Ht & Hp & Hobj). pose proof (ki_processes _ _ _ _ Hk) as [R1 R2 R3 R4 R5 R6 R7 R8].
  assert (p ∉ ps) as Hps. { intros Hin. destruct (R2 p) as [_ [? ?]]; [by left|congruence]. }
  assert (forall t r, threads (sched k) !! t = Some r -> t_parent r <> Some p) as Hnone.
  { intros t r Hr Hpar. destruct (ok_parent _ _ _ (inv_threads _ _ (ki_sched _ _ _ _ Hk) t r Hr) p Hpar) as (? & ? & _). congruence. }
  assert (owned (with_new p x k) ≡ₚ p :: owned k) as Eown.
  { unfold owned, with_new. life_cbn. rewrite (owned_by_insert launch_arguments _ p x Hp), F4. change (option_list None) with (@nil Z). perm. }
  assert (forall a y, <[p := x]> (processes (sched k)) !! a = Some y -> (a = p /\ y = x) \/ (a <> p /\ processes (sched k) !! a = Some y)) as Hb.
  { intros a y Hy. apply lookup_insert_Some in Hy as [[<- <-]|[Hne Hy]]; [by left|by right]. }
  unfold with_new. split; life_cbn; rewrite ?u64_small by lia.
  - apply inv_with_processes; [apply Hk|]. intros t r a y Hr Hpar Hy Hne. exists y. split; [|done]. rewrite lookup_insert_ne; [done|]. intros <-. by apply (Hnone t r).
  - split; try done.
    + eapply (dlist_frame (H := process_links)); [|exact R1]. intros a Ha. apply lookup_insert_ne. by intros <-.
    + intros a. rewrite list_elem_of_singleton. destruct (decide (a = p)) as [->|Hne]; [rewrite lookup_insert_eq; split; [by right|by eauto]|]. rewrite lookup_insert_ne, R2 by done.
      split; [intros [H|H%not_elem_of_nil]; [by left|done]|intros [H|H]; [by left|done]].
    + intros a ->%list_elem_of_singleton. done.
    + lia.
    + intros a y Hy. destruct (Hb a y Hy) as [[-> ->]|[_ Hy']]; [split; [lia|lia|done]|]. destruct (R6 a y Hy') as [Q1 Q2 Q3]. split; [lia|lia|done].
    + intros a1 a2 y1 y2 H1 H2 E. destruct (Hb a1 y1 H1) as [[-> ->]|[N1 H1']], (Hb a2 y2 H2) as [[-> ->]|[N2 H2']]; [done| | |by apply (R7 a1 a2 y1 y2)].
      * destruct (R6 a2 y2 H2') as [Q1 _ _]. lia.
      * destruct (R6 a1 y1 H1') as [Q1 _ _]. lia.
    + intros a y Ha Hy. destruct (Hb a y Hy) as [[-> ->]|[_ Hy']]; [done|by apply (R8 a)].
  - intros a y Hy. destruct (Hb a y Hy) as [[-> ->]|[_ Hy']]; [|by apply (ki_members _ _ _ _ Hk)]. exists []. split; [by rewrite F5, F6; split_and!; [apply NoDup_nil_2|..]| |by rewrite F7|by rewrite F8].
    intros t. split; [by intros H%not_elem_of_nil|]. intros (r & Hr & Hpar). by destruct (Hnone t r).
  - intros a t r ->%list_elem_of_singleton. apply Hnone.
  - apply Hk.
  - apply Hk.
  - destruct (ki_records _ _ _ _ Hk) as [l [C1 C2 C3 C4]]. exists l. split; [done|done| |].
    + intros e a y He Ha Hy. destruct (Hb a y Hy) as [[-> ->]|[_ Hy']]; [done|by apply (C3 e a)].
    + intros e He. pose proof (C4 e He). lia.
  - intros i r a y Hi Hr Hpar Hy. destruct (Hb a y Hy) as [[-> ->]|[_ Hy']]; [by destruct (Hnone i r)|by eapply (ki_idle _ _ _ _ Hk)].
  - destruct (ki_owns _ _ _ _ Hk) as [N B]. apply (owns_by _ (p :: owned k)); [exact Eown|by apply list.NoDup_cons|]. intros c. life_cbn. by rewrite elem_of_cons, elem_of_union, elem_of_singleton, B.
  - destruct (ki_registered _ _ _ _ Hk) as [G1 G2]. split; life_cbn.
    + intros l o Hl Ho. destruct (G1 l o Hl Ho) as [H|[[y Hy]|H]]; [by left| |by right; right]. right. left. life_cbn. destruct (decide (o = p)) as [->|Hne]; [rewrite lookup_insert_eq; by eauto|rewrite lookup_insert_ne; by eauto].
    + intros o Ho. fold (with_new p x k). rewrite Eown, elem_of_cons. intros [->|Hin]; [|by apply (G2 o)]. destruct Hun as [_ E]. rewrite E in Ho. by destruct Ho.
Qed.

(** ** Until it is in the list *)

(** Fields other parts of the kernel keep in a process are as good as theirs. *)
Lemma frames_set k q ps limbo p x x' :
  kinv k q ps limbo -> processes (sched k) !! p = Some x -> kept x' = kept x -> frames (Some p) k (with_sched (with_processes (<[p := x']> (processes (sched k))) (sched k)) k).
Proof.
  intros Hk Hx E. split; life_cbn; try done.
  - exists (<[p := x']> (processes (sched k))). split_and!; [done|by rewrite dom_insert_lookup_L|]. intros a y Hy. destruct (decide (a = p)) as [->|Hne].
    + rewrite Hx in Hy. injection Hy as <-. exists x'. rewrite lookup_insert_eq. split_and!; [done|by intros []|done].
    + exists y. rewrite lookup_insert_ne by done. done.
  - intros l Hl Hn. exists l. split_and!; [done|done|done|]. intros o Ho. destruct (rg_live _ (ki_registered _ _ _ _ Hk) l o Hl Ho) as [H|[H|H]]; [left; by auto|left; by auto|by right].
  - apply Hk.
Qed.

Lemma frames_unregistered who k q ps limbo k' p x :
  kinv k q ps limbo -> frames who k k' -> processes (sched k) !! p = Some x -> (forall l, holds (g_objects k) l -> p ∉ l) -> forall l, holds (g_objects k') l -> p ∉ l.
Proof.
  intros Hk [_ _ Fo _ _ Ft] Hx Hun l2 Hl2 Hin. destruct (ki_objects _ _ _ _ Hk) as [l [O1 O2 _ _]]. destruct (Fo l O1 O2) as (l' & H1 & _ & _ & H4). rewrite <- (holds_unique _ _ _ H1 Hl2) in Hin.
  destruct (H4 p Hin) as [[Hp _]|Ho]; [by apply (Hun l)|]. apply (Ft p Ho). exact (proj1 (process_owned k p x Hx)).
Qed.

(** The new process has its record and nothing else. *)
Record pending (p : Z) (x0 : Process) (k : Kern) (q : Queues) (ps : list Z) (k' : Kern) : Prop := {
  pd_inv : kinv k' q ps [p];
  pd_aside : aside p (with_new p x0 k) k';
  pd_blocks : blocks k' = {[p]} ∪ blocks k;
  pd_unregistered l : holds (g_objects k') l -> p ∉ l;
  pd_record : exists x, processes (sched k') !! p = Some x /\ kept x = kept x0
}.

Lemma pending_new k q ps p x : kinv k q ps [] -> unused k p -> fresh_process k x -> next_pid k + 1 < 2 ^ 64 -> pending p x k q ps (with_new p x k).
Proof.
  intros Hk Hun Hx Hn. split; [by apply kinv_new|apply aside_refl|done| |exists x; split; [apply lookup_insert_eq|done]].
  destruct (unused_apart _ _ _ _ _ Hk Hun) as (_ & _ & _ & H). exact H.
Qed.

Lemma pending_frames p x0 k q ps k1 k2 : pending p x0 k q ps k1 -> frames (Some p) k1 k2 -> pending p x0 k q ps k2.
Proof.
  intros [H1 H2 HB H3 (x & Hx & E)] F. destruct (settles_frames p (Some p) k1 q ps k2 H1 F ltac:(by intros a [= ->])) as [K A]. split; [done|by eapply aside_trans|by rewrite (fr_blocks _ _ _ F)|exact (frames_unregistered (Some p) k1 q ps [p] k2 p x H1 F Hx H3)|].
  destruct F as [(m & Es & _ & Hm) _ _ _ _ _]. destruct (Hm p x Hx) as (x' & Hx' & _ & E'). exists x'. rewrite Es. split; [done|congruence].
Qed.

(** The scheduler's state, the exit records and the blocks of the heap are what they were. *)
Definition no_trace (k k' : Kern) : Prop := sched k' = sched k /\ exit_records k' = exit_records k /\ blocks k' = blocks k.

Lemma withdraw_post {B} p x0 k q ps k1 (f : unit -> K B) Q :
  p ∉ blocks k -> processes (sched k) !! p = None -> launch_arguments x0 = None -> pending p x0 k q ps k1 -> (forall k', kinv k' q ps [] -> no_trace k k' -> kpost outside (f tt k') Q) ->
  kpost outside (kseq (release_process_slot p) f k1) Q.
Proof.
  intros Hpb Hp Ha [H1 [(m & Es & Hm & _) [_ Er] _] HB H3 (x & Hx & E)] HQ. unfold release_process_slot. apply kassoc. rewrite kseq_set.
  apply kpost_call; [change (p ∈ blocks k1); apply (ki_owns _ _ _ _ H1); exact (proj1 (process_owned k1 p x Hx))|]. intros [] k2 ->. apply HQ.
  - apply (kinv_release k1 q ps p x); [done|done| |done]. destruct (kept_fields _ _ E) as (_ & _ & _ & -> & _). done.
  - split_and!; [|exact Er|life_cbn; rewrite HB; set_solver]. life_cbn. rewrite Es. unfold with_new in *. life_cbn. cbn [sched with_sched processes with_processes] in Hm. assert (delete p m = processes (sched k)) as ->.
    { apply map_eq. intros a. destruct (decide (a = p)) as [->|Hne]; [by rewrite lookup_delete_eq|]. rewrite lookup_delete_ne, Hm, lookup_insert_ne by done. done. }
    by destruct (sched k).
Qed.

Lemma space_post p x0 k q ps user_process :
  forall k1, pending p x0 k q ps k1 ->
  kpost outside ((if user_process : bool then create_user_address_space p
      else let* space := kcall BootstrapAddressSpace in match space with Some a => set_proc p (with_process_address_space a) | None => kret tt end >; kret StatusOK) k1)
    (fun st k2 => pending p x0 k q ps k2 /\ (st = StatusOK -> exists x, processes (sched k2) !! p = Some x /\ page_table_root (process_address_space x) <> 0)).
Proof.
  intros k1 P1. destruct user_process.
  - unfold create_user_address_space, kcall. cbn [kpost]. split; [exists q, ps; apply P1|]. intros st k2 [F H]. split; [by eapply pending_frames|done].
  - apply kpost_call; [done|]. intros space k2 (-> & a & -> & Ha). destruct (pd_record _ _ _ _ _ _ P1) as (x & Hx & E). rewrite (kseq_set_proc p x) by done. apply kpost_ret. split.
    + eapply pending_frames; [exact P1|]. by eapply frames_set; [apply P1|..].
    + intros _. exists (with_process_address_space a x). split; [apply lookup_insert_eq|done].
Qed.

(** ** In the registry and in the list *)
Lemma kinv_register k q ps limbo o l h b :
  kinv k q ps limbo -> holds (g_objects k) l -> o ∉ l -> live k o -> holds h (l ++ [o]) -> refit (other_objects k) (m_items (g_objects k)) (m_items h) (blocks k) b ->
  kinv (with_g_objects h (with_blocks b k)) q ps limbo.
Proof.
  intros Hk Hl Ho Hlive Hh Hf. split; life_cbn; try apply Hk.
  - destruct (ki_objects _ _ _ _ Hk) as [l' [O1 O2 O3 O4]]. rewrite (holds_unique _ _ _ O1 Hl) in *. exists (l ++ [o]). split; [done| | |].
    + apply list.NoDup_app. split_and!; [done| |apply NoDup_singleton]. by intros a Ha ->%list_elem_of_singleton.
    + intros t Ht. apply elem_of_app. left. by apply O3.
    + intros p Hp. apply elem_of_app. left. by apply O4.
  - destruct (ki_owns _ _ _ _ Hk) as [N B]. unfold owned in N, B.
    set (rest := owned_by kernel_stack (threads (sched k)) ++ owned_by launch_arguments (processes (sched k)) ++ option_list (m_items (exit_records k))).
    assert (forall i : list Z, owned_by kernel_stack (threads (sched k)) ++ owned_by launch_arguments (processes (sched k)) ++ i ++ option_list (m_items (exit_records k)) ≡ₚ i ++ rest) as E by (intros i; unfold rest; perm).
    rewrite E in N. setoid_rewrite E in B. destruct (refit_owns _ _ _ _ _ rest Hf N B) as [N' B']. apply (owns_by _ (option_list (m_items h) ++ rest)); [exact (E _)|done|done].
  - destruct (ki_registered _ _ _ _ Hk) as [G1 G2]. split.
    + intros l' a Hl' Ha. rewrite <- (holds_unique _ _ _ Hh Hl') in Ha. apply elem_of_app in Ha as [Ha| ->%list_elem_of_singleton]; [exact (G1 l a Hl Ha)|exact Hlive].
    + intros a Ha. pose proof (G2 a Ha) as Hno. unfold owned in Hno |- *. life_cbn. rewrite !elem_of_app in *. intros [H|[H|[H|H]]]; [by apply Hno; auto..| |by apply Hno; auto].
      destruct Hf as [[E _]|(c & E & Eo & _)]; rewrite E in H; [by apply Hno; auto|]. apply list_elem_of_singleton in H as ->. cbn in Ha. rewrite Eo in Ha. by destruct Ha.
Qed.

Lemma enlist_ok k q ps p x :
  kinv k q ps [p] -> processes (sched k) !! p = Some x -> listable k p ->
  exists m hd tl, link_process p k = Ok (with_process_list m hd tl k) /\ relinked (H := process_links) (processes (sched k)) m /\
    kinv (with_process_count_value (u64 (process_count_value k + 1)) (with_process_list m hd tl k)) q (ps ++ [p]) [].
Proof.
  intros Hk Hx Hl. pose proof (ki_processes _ _ _ _ Hk) as Hps. pose proof (pids_size _ _ _ _ _ _ _ Hps) as Hsz. pose proof Hps as [R1 R2 R3 R4 R5 R6 R7 R8].
  assert (p ∉ ps) as Hp by apply R3, list_elem_of_here.
  destruct (dl_append_ok (H := process_links) _ _ _ _ p R1 Hp ltac:(by eauto)) as (m & hd & Hrun & Hd & Hrel). exists m, hd, (Some p). split_and!; [by unfold link_process; rewrite Hrun|done|].
  pose proof (dlist_length (H := process_links) _ _ _ _ R1) as Hlen.
  apply (kinv_relist k q ps [p]); try done.
  - intros a. rewrite <- !elem_of_dom. by rewrite (relinked_dom (H := process_links) _ _ Hrel).
  - intros a y' Hy'. symmetry in Hrel. destruct (relinked_lookup (H := process_links) _ _ _ _ Hrel Hy') as (y & Hy & E). exists y. split_and!; [done|symmetry; exact (f_equal core E)|]. left. symmetry. exact (f_equal parent_process_id E).
  - rewrite length_app. cbn [length]. rewrite u64_small by lia. lia.
  - intros a [Ha| ->%list_elem_of_singleton]%elem_of_app; [by left|by right].
  - by intros a Ha%not_elem_of_nil.
  - intros a. rewrite elem_of_app. split; [intros [H|H%not_elem_of_nil]; done|intros H; by left].
  - by intros a t r Ha%not_elem_of_nil.
Qed.

(** ** The whole call *)
Record process_made (k : Kern) (q : Queues) (ps : list Z) (user_process : bool) (name : list Z) (p : Z) (k' : Kern) : Prop := {
  pm_new : unused k p;
  pm_record : exists x, processes (sched k') !! p = Some x /\ p_id x = next_pid k /\ c_text (p_name x) = name /\ flags (p_header x) = (if user_process then 0 else FlagKernel) /\
    parent_process_id x = 0 /\ page_table_root (process_address_space x) <> 0 /\ (forall t r, threads (sched k') !! t = Some r -> t_parent r <> Some p);
  pm_later : exists k1 q' ps', kinv k1 q (ps ++ [p]) [] /\ threads (sched k1) = threads (sched k) /\
    (forall a x, processes (sched k) !! a = Some x -> exists x', processes (sched k1) !! a = Some x' /\ content (H := process_links) x' = content (H := process_links) x) /\
    kinv k' q' ps' [] /\ kgrows [] [] k1 q k' q'
}.

Definition process_outcome (k : Kern) (q : Queues) (ps : list Z) (user_process : bool) (name : list Z) (r : Status * option Z) (k' : Kern) : Prop :=
  match r with
  | (st, Some p) => st = StatusOK /\ process_made k q ps user_process name p k'
  | (st, None) => st <> StatusOK /\ kinv k' q ps [] /\ no_trace k k'
  end.

Lemma short_literal (l : list Z) : terminated l -> len (c_text l) < 2 ^ 64 - 1 -> short_text (Some l).
Proof. by split. Qed.

(** Linked and reported. *)
Lemma announce_post p x0 k q ps (user_process : bool) name k1 x h b :
  kinv k q ps [] -> unused k p -> fresh_process k x0 -> c_text (p_name x0) = name -> flags (p_header x0) = (if user_process then 0 else FlagKernel) -> pending p x0 k q ps k1 ->
  processes (sched k1) !! p = Some x -> kept x = kept x0 -> page_table_root (process_address_space x) <> 0 ->
  (exists l, holds (g_objects k1) l /\ holds h (l ++ [p]) /\ refit (other_objects k1) (m_items (g_objects k1)) (m_items h) (blocks k1) b) ->
  kpost outside ((kchange (link_process p) >; kset (fun k => with_process_count_value (u64 (process_count_value k + 1)) k) >;
      publish_process_event KernelEventTypeProcessCreated p >; kret (StatusOK, Some p)) (with_g_objects h (with_blocks b k1)))
    (process_outcome k q ps user_process name).
Proof.
  intros Hk Hun Hfr Hname Hfl P1 Hx Ekept Hroot (l & Hl & Hh & Hf). pose proof P1 as [K1 [(m1 & Es1 & Hm1 & _) [_ Er1] _] _ Hnr _]. set (k2 := with_g_objects h (with_blocks b k1)).
  assert (kinv k2 q ps [p]) as K2 by (apply (kinv_register k1 q ps [p] p l); try done; [by apply Hnr|right; left; by eauto]).
  destruct (kept_fields _ _ Ekept) as (Eh & Ei & En & _ & _ & Epar & _). destruct Hfr as [F1 F2 F3 F4 F5].
  assert (listable k2 p) as Hls.
  { split; [|intros l' Hl'; rewrite <- (holds_unique _ _ _ Hh Hl'); set_solver]. intros y Hy. change (processes (sched k1) !! p = Some y) in Hy. rewrite Hx in Hy. injection Hy as <-. split; [done|].
    intros lr e Hlr He. destruct (ki_records _ _ _ _ Hk) as [lr' [C1 _ _ C4]]. change (holds (exit_records k1) lr) in Hlr. rewrite Er1 in Hlr. rewrite (holds_unique _ _ _ Hlr C1) in He. pose proof (C4 e He). lia. }
  destruct (enlist_ok k2 q ps p x K2 Hx Hls) as (m & hd & tl & Hrun & Hrel & K3). rewrite (kseq_change _ _ _ _ Hrun), kseq_set. set (k3 := with_process_count_value _ _) in *.
  change (kinv k3 q (ps ++ [p]) []) in K3. destruct (relinked_lookup (H := process_links) _ _ _ _ Hrel Hx) as (x3 & Hx3 & E3). change (processes (sched k3) !! p = Some x3) in Hx3.
  assert (forall t r, threads (sched k3) !! t = Some r -> t_parent r <> Some p) as Hnone by exact (fun t r => ki_limbo _ _ _ _ K2 p t r (list_elem_of_here _ _)).
  apply (publish_process_post k3 q (ps ++ [p]) _ p x3 _ _ K3 Hx3). intros k4 q4 ps4 K4 G4. apply kpost_ret. split; [done|].
  destruct (kg_process _ _ _ _ _ _ G4 p x3 Hx3) as (x4 & Hx4 & L4); [apply not_elem_of_nil|by right; right; left|]. destruct (lasts_fields _ _ L4) as (L1 & L2 & L3 & L5 & _).
  split; [done| |].
  - exists x4. assert (p_header x3 = p_header x) as Q1 by exact (f_equal p_header E3). assert (p_id x3 = p_id x) as Q2 by exact (f_equal p_id E3). assert (p_name x3 = p_name x) as Q3 by exact (f_equal p_name E3).
    assert (process_address_space x3 = process_address_space x) as Q4 by exact (f_equal process_address_space E3). assert (parent_process_id x3 = parent_process_id x) as Q5 by exact (f_equal parent_process_id E3).
    split_and!; [done|congruence|by rewrite L3, Q3, En|by rewrite L1, Q1, Eh|destruct (kg_launcher _ _ _ _ _ _ G4 p x3 x4 Hx3 Hx4) as [E|[E _]]; [congruence|done]|congruence|].
    intros t r Hr Hp. destruct (member_before [] [] k3 q k4 q4 t r p G4) as (r0 & H0 & Hp0); [by intros u Hu%not_elem_of_nil|done|done|]. by apply (Hnone t r0).
  - exists k3, q4, ps4. split_and!; [done|unfold k3; life_cbn; change (sched k2) with (sched k1); by rewrite Es1| |done|done].
    intros a y Hy. assert (processes (sched k1) !! a = Some y) as Hy1.
    { rewrite Es1. cbn [processes with_processes]. assert (a <> p) as Hne by (intros ->; destruct (unused_apart _ _ _ _ _ Hk Hun) as (_ & _ & E & _); congruence). rewrite Hm1 by done.
      unfold with_new. life_cbn. by rewrite lookup_insert_ne. }
    exact (relinked_lookup (H := process_links) _ _ _ _ Hrel Hy1).
Qed.

Definition default_name (user_process : bool) : list Z := if user_process then text_user else text_process.

(** What is left of the call once the record is there. *)
Definition furnish (p : Z) (user_process : bool) : K (Status * option Z) :=
  let* status :=
    (if user_process then create_user_address_space p
     else let* space := kcall BootstrapAddressSpace in
          match space with Some a => set_proc p (with_process_address_space a) | None => kret tt end >;
          kret StatusOK) in
  if negb (bool_decide (status = StatusOK)) then release_process_slot p >; kret (status, None) else
  set_proc p (fun x => with_process_address_space (with_asid (Z.land (p_id x) 65535) (process_address_space x)) x) >;
  let* status := register_object (Some p) in
  if negb (bool_decide (status = StatusOK)) then
    (if user_process then kcall (DestroyUserAddressSpace p) else kret tt) >;
    release_process_slot p >;
    kret (status, None)
  else
  kchange (link_process p) >;
  kset (fun k => with_process_count_value (u64 (process_count_value k + 1)) k) >;
  publish_process_event KernelEventTypeProcessCreated p >;
  kret (StatusOK, Some p).

Lemma furnish_post k q ps p x0 (user_process : bool) name :
  kinv k q ps [] -> unused k p -> fresh_process k x0 -> c_text (p_name x0) = name -> flags (p_header x0) = (if user_process then 0 else FlagKernel) -> next_pid k + 1 < 2 ^ 64 ->
  kpost outside (furnish p user_process (with_new p x0 k)) (process_outcome k q ps user_process name).
Proof.
  intros Hk Hun Hfr Hname Hfl Hroom. pose proof (pending_new k q ps p x0 Hk Hun Hfr Hroom) as P0. destruct (unused_apart _ _ _ _ _ Hk Hun) as (_ & _ & Hp & _). pose proof (fp_args _ _ Hfr) as Ha.
  assert (forall st k1, st <> StatusOK -> pending p x0 k q ps k1 -> kpost outside ((release_process_slot p >; kret (st, None)) k1) (process_outcome k q ps user_process name)) as Hfail.
  { intros st k1 Hst P1. apply (withdraw_post p x0 k q ps k1); [apply Hun|done|done|done|]. intros k2 K2 N2. by apply kpost_ret. }
  unfold furnish. eapply kpost_seq; [by apply (space_post p x0 k q ps user_process)|]. intros st k1 [P1 Hsp]. destruct (bool_decide (st = StatusOK)) eqn:Est; cbn [negb].
  2: { apply Hfail; [by apply bool_decide_eq_false_1 in Est|done]. }
  apply bool_decide_eq_true_1 in Est. destruct (Hsp Est) as (x & Hx & Hroot). rewrite (kseq_set_proc p x) by done. set (x2 := with_process_address_space _ x). set (k2 := with_sched _ k1).
  assert (pending p x0 k q ps k2) as P2 by (eapply pending_frames; [exact P1|]; by eapply frames_set; [apply P1|..]).
  assert (processes (sched k2) !! p = Some x2) as Hx2 by apply lookup_insert_eq. pose proof P2 as [K2 _ _ Hnr (y & Hy & Ey)]. assert (y = x2) as -> by congruence.
  destruct (ki_objects _ _ _ _ K2) as [l [O1 O2 _ _]].
  apply (kpost_seq _ _ _ _ (fun st k' => (st <> StatusOK /\ k' = k2) \/ (st = StatusOK /\ exists h b, holds h (l ++ [p]) /\ refit (other_objects k2) (m_items (g_objects k2)) (m_items h) (blocks k2) b /\ k' = with_g_objects h (with_blocks b k2)))).
  { apply (register_post k2 l p); [done|by apply Hnr| |by left|].
    - intros b Hb. apply (ki_owns _ _ _ _ K2). unfold owned. rewrite Hb, !elem_of_app. right. right. left. apply list_elem_of_here.
    - intros h b Hh Hf. right. split; [done|]. by exists h, b. }
  intros st2 k3 [[Hst ->]|(-> & h & b & Hh & Hf & ->)].
  - rewrite bool_decide_eq_false_2 by done. cbn [negb]. destruct user_process; [|rewrite kseq_ret; by apply Hfail]. apply kpost_call; [by exists q, ps|]. intros [] k4 F4. apply Hfail; [done|]. by eapply pending_frames.
  - rewrite bool_decide_eq_true_2 by done. cbn [negb]. apply (announce_post p x0 k q ps user_process name k2 x2 h b); try done. by exists l.
Qed.

Lemma create_process_post k q ps name (user_process : bool) :
  kinv k q ps [] -> short_text name -> next_pid k + 1 < 2 ^ 64 ->
  kpost outside (create_process_with_mode name user_process true k) (process_outcome k q ps user_process (take 31 (chosen_name name (default_name user_process)))).
Proof.
  intros Hk Hname Hroom. unfold create_process_with_mode. cbn [negb]. apply kpost_call; [done|]. intros [p|] k1 Hrep; cbn in Hrep; [|subst k1; by apply kpost_ret].
  destruct Hrep as (Hb & Ho & ->). rewrite kseq_read, kseq_set.
  destruct (copy_name_ok name (default_name user_process) Hname) as (text & Hrun & Hterm & Htext); [by destruct user_process; (apply short_literal; [apply (bool_decide_unpack _); by vm_compute|by vm_compute])|].
  rewrite (kseq_compute _ _ _ text) by (by destruct user_process). rewrite kseq_set. life_cbn.
  apply (furnish_post k q ps p (new_process user_process (next_pid k) text)); try done.
Qed.

(** The next identifier has been taken and nothing else happened. *)
Definition with_id_taken (k : Kern) : Kern := with_sched (with_g_next_thread_id (u64 (g_next_thread_id (sched k) + 1)) (sched k)) k.

Lemma kinv_id_taken k q ps limbo : kinv k q ps limbo -> g_next_thread_id (sched k) + 1 < 2 ^ 64 -> kinv (with_id_taken k) q ps limbo.
Proof.
  intros Hk Hn. pose proof (ki_tids _ _ _ _ Hk) as [T1 T2 T3]. unfold with_id_taken. split; life_cbn; try apply Hk.
  - apply inv_next_id, Hk.
  - rewrite u64_small by lia. split; [done| |lia]. intros t r Hr. pose proof (T2 t r Hr). lia.
  - destruct (ki_registered _ _ _ _ Hk) as [G1 G2]. by split.
Qed.

(** The record [r] is at [t], with its stack. *)
Definition with_thread_new (t : Z) (r : Thread) (k : Kern) : Kern :=
  with_sched (with_threads (<[t := r]> (threads (sched k))) (with_g_next_thread_id (u64 (g_next_thread_id (sched k) + 1)) (sched k)))
    (with_blocks (block_set (Some t) ∪ block_set (kernel_stack r) ∪ blocks k) k).

(** What a new thread record is. *)
Record thread_unused (k : Kern) (t : Z) (r : Thread) : Prop := {
  tu_slot : unused k t;
  tu_stack a : kernel_stack r = Some a -> unused k a /\ a <> t;
  tu_idle : in_ready_queue r = false /\ sleep_next r = None /\ sleep_prev r = None;
  tu_parent : t_parent r = None;
  tu_ok : thread_ok (sched k) t r;
  tu_id : t_id r = g_next_thread_id (sched k)
}.

Lemma thread_unused_fresh k q ps limbo t r : kinv k q ps limbo -> thread_unused k t r -> fresh_thread k t r.
Proof.
  intros Hk [U1 U2 U3 U4 U5 U6]. split; try done.
  - destruct (unused_apart _ _ _ _ _ Hk U1) as (H & _). destruct U1. done.
  - intros a Ha. destruct (U2 a Ha) as [Hu Hne]. destruct (unused_apart _ _ _ _ _ Hk Hu) as (H & _). destruct Hu. done.
Qed.

(** Everything is handed back. *)
Lemma discard_post {B} k t r (f : unit -> K B) Q :
  unused k t -> (forall a, kernel_stack r = Some a -> unused k a /\ a <> t) -> threads (sched k) !! t = None ->
  kpost outside (f tt (with_id_taken k)) Q -> kpost outside (kseq (free_stack (kernel_stack r)) (fun _ => kseq (free_thread_slot t) f) (with_thread_new t r k)) Q.
Proof.
  intros [Ht _] Hs Hn HQ.
  assert (forall b k1, blocks k1 = b -> t ∈ b -> b ∖ {[t]} = blocks k -> (forall s, with_blocks (blocks k) (with_sched s k1) = with_sched s k) -> sched k1 = sched (with_thread_new t r k) -> kpost outside (kseq (free_thread_slot t) f k1) Q) as Hslot.
  { intros b k1 Eb Hin Ed Es Esch. unfold free_thread_slot. apply kassoc. rewrite kseq_set. apply kpost_call; [change (t ∈ blocks k1); by rewrite Eb|]. intros [] k2 ->. life_cbn.
    rewrite Eb, Ed, Es, Esch. unfold with_thread_new, release_thread_slot. life_cbn. rewrite delete_insert_id by done.
    replace (with_sched _ k) with (with_id_taken k); [done|]. unfold with_id_taken. by destruct (sched k). }
  unfold free_stack. destruct (kernel_stack r) as [a|] eqn:Ea.
  - destruct (Hs a eq_refl) as [[Ha _] Hne]. apply kpost_call; [unfold with_thread_new; rewrite Ea; cbn; set_solver|]. intros [] k1 ->.
    apply (Hslot (({[t]} ∪ {[a]} ∪ blocks k) ∖ {[a]})); unfold with_thread_new; rewrite ?Ea; [done|set_solver| |by intros s; destruct k|done].
    apply set_eq. intros c. rewrite !elem_of_difference, !elem_of_union, !elem_of_singleton. split; [tauto|]. intros Hc. split_and!; [by right|by intros ->|by intros ->].
  - rewrite kseq_ret. apply (Hslot ({[t]} ∪ ∅ ∪ blocks k)); unfold with_thread_new; rewrite ?Ea; [done|set_solver| |by intros s; destruct k|done].
    apply set_eq. intros c. rewrite !elem_of_difference, !elem_of_union, !elem_of_singleton. split; [set_solver|]. intros Hc. split; [by right|by intros ->].
Qed.

(** ** In the registries and in its process *)
Record thread_made (k : Kern) (q : Queues) (ps : list Z) (p : Z) (r : Thread) (t : Z) (k' : Kern) : Prop := {
  tm_new : unused k t;
  tm_record : exists r', threads (sched k') !! t = Some r' /\ steady (with_t_parent (Some p) r) r';
  tm_later : exists k1 q' ps', kinv k1 (with_registry (registry q ++ [t]) q) ps [] /\
    (forall u ru, threads (sched k) !! u = Some ru -> exists ru', threads (sched k1) !! u = Some ru' /\ steady ru ru') /\
    (forall a x, processes (sched k) !! a = Some x -> exists x', processes (sched k1) !! a = Some x' /\ lasts x x') /\
    kinv k' q' ps' [] /\ kgrows [] [] k1 (with_registry (registry q ++ [t]) q) k' q'
}.

Lemma joined_lasts t hd x : lasts x (joined t hd x).
Proof. unfold joined. cbn [main_thread with_thread_list_tail with_thread_list_head]. split; [|left]; by destruct (bool_decide _). Qed.

Lemma enter_post k q ps p x t r1 r k0 :
  kinv k0 (with_registry (registry q ++ [t]) q) ps [] -> p ∈ ps -> processes (sched k0) !! p = Some x -> threads (sched k0) !! t = Some r1 -> content (H := registry_links) r1 = content (H := registry_links) r ->
  t_parent r = None -> current_state r <> Waiting -> in_ready_queue r = false -> g_idle_thread (sched k0) <> Some t -> t ∉ retired q -> unused k t ->
  (forall u ru, threads (sched k) !! u = Some ru -> exists ru', threads (sched k0) !! u = Some ru' /\ u <> t /\ steady ru ru') -> processes (sched k0) = processes (sched k) ->
  kpost outside ((let* status := attach_thread (Some p) (Some t) in
    if negb (bool_decide (status = StatusOK)) then
      on_sched (unlink_thread t) >;
      kset (fun k => with_sched (with_g_thread_count (u64 (g_thread_count (sched k) - 1)) (sched k)) k) >;
      unregister_object (Some t) >;
      free_stack (kernel_stack r) >;
      free_thread_slot t >;
      kret (status, None)
    else
    let* r := kthread t in
    lifted (publish_thread_event KernelEventTypeThreadCreated t (thread_state_code Initialized) (thread_state_code (current_state r))) >;
    kret (StatusOK, Some t)) k0)
    (fun '(st, out) k' => st = StatusOK /\ out = Some t /\ thread_made k q ps p r t k').
Proof.
  intros K0 Hp Hx Hr1 Econ Hpar Hst Hrq Hidle Hre Hun Hold Hproc. assert (t_parent r1 = None) as Hpar1 by (rewrite <- Hpar; exact (f_equal t_parent Econ)).
  destruct (kinv_attach k0 _ ps p x t r1 K0 Hp Hx Hr1 Hpar1 Hidle) as (m & hd & Hrun & K1 & Hku & (r2 & Hr2 & Hp2 & _) & Hback). rewrite (kseq_done _ _ _ _ _ Hrun), bool_decide_eq_true_2 by done. cbn [negb].
  set (k1 := with_sched _ k0) in *. cbn zeta in *. change (threads (sched k1) !! t = Some r2) in Hr2. rewrite (kseq_thread t r2) by done. set (q1 := with_registry _ _) in *.
  apply (kpost_seq _ _ _ _ (fun _ k' => exists q' ps', kinv k' q' ps' [] /\ kgrows [] [] k1 q1 k' q')); [eapply publish_thread_post; [exact K1|exact Hr2|]; by eauto|].
  intros [] k2 (q2 & ps2 & K2 & G2). apply kpost_ret. split_and!; [done|done|]. split; [done| |].
  - destruct (Hback t r2 Hr2) as (r0 & H0 & E). rewrite decide_True in E by done. rewrite Hr1 in H0. injection H0 as <-.
    destruct (de_thread _ _ _ _ _ (kg_sched _ _ _ _ _ _ G2) t r2 Hr2) as (r' & Hr' & [[S1 S2]|(W & _)]); [apply not_elem_of_nil|done| |].
    + exists r'. split; [done|]. split.
      * rewrite S1. transitivity (still (with_t_parent (Some p) r1)); [exact (f_equal still E)|exact (f_equal (fun r => still (with_t_parent (Some p) r)) Econ)].
      * rewrite S2. transitivity (in_ready_queue r1); [exact (f_equal in_ready_queue E)|exact (f_equal in_ready_queue Econ)].
    + destruct Hst. rewrite <- W. symmetry. transitivity (current_state r1); [exact (f_equal current_state E)|exact (f_equal current_state Econ)].
  - exists k1, q2, ps2. split_and!; [done| | |done|done].
    + intros u ru Hu. destruct (Hold u ru Hu) as (ru0 & Hu0 & Hne & S0). destruct (keeps_lookup _ _ _ _ _ Hku Hu0) as (ru1 & Hu1 & _). exists ru1. split; [done|].
      destruct (Hback u ru1 Hu1) as (r0 & H0 & E). rewrite decide_False in E by done. rewrite Hu0 in H0. injection H0 as <-. transitivity ru0; [done|]. split; [exact (f_equal still E)|exact (f_equal in_ready_queue E)].
    + intros a y Hy. destruct (decide (a = p)) as [->|Hne].
      * exists (joined t hd x). split; [apply lookup_insert_eq|]. rewrite Hproc in Hx. assert (y = x) as -> by congruence. apply joined_lasts.
      * exists y. split; [|apply lasts_refl]. unfold k1. life_cbn. rewrite lookup_insert_ne by done. by rewrite Hproc.
Qed.

(** The call ends with the thread, or with nothing but an identifier gone. *)
Definition thread_outcome (k : Kern) (q : Queues) (ps : list Z) (p : Z) (good : Thread -> Prop) (res : Status * option Z) (k' : Kern) : Prop :=
  match res with
  | (st, Some t) => st = StatusOK /\ exists r, good r /\ thread_made k q ps p r t k'
  | (st, None) => st <> StatusOK /\ (k' = k \/ k' = with_id_taken k)
  end.

Lemma enroll_post k q ps p x t r good :
  kinv k q ps [] -> processes (sched k) !! p = Some x -> thread_unused k t r -> current_state r <> Waiting -> g_next_thread_id (sched k) + 1 < 2 ^ 64 -> good r ->
  kpost outside (enroll_thread p t (kernel_stack r) (with_thread_new t r k)) (thread_outcome k q ps p good).
Proof.
  intros Hk Hx Hu Hst Hroom Hgood. pose proof (thread_unused_fresh _ _ _ _ _ _ Hk Hu) as Hfr. destruct Hu as [U1 U2 U3 U4 U5 U6].
  destruct (unused_apart _ _ _ _ _ Hk U1) as (_ & Hnt & _ & Hnl). destruct (ki_objects _ _ _ _ Hk) as [l Hobj]. pose proof (ob_holds _ _ _ _ Hobj) as Hl.
  unfold enroll_thread. set (k0 := with_thread_new t r k).
  apply (kpost_seq _ _ _ _ (fun st k' => (st <> StatusOK /\ k' = k0) \/ (st = StatusOK /\ exists h b, holds h (l ++ [t]) /\ refit (other_objects k0) (m_items (g_objects k0)) (m_items h) (blocks k0) b /\ k' = with_g_objects h (with_blocks b k0)))).
  { apply (register_post k0 l t); [done|by apply Hnl| |by left|].
    - intros b Hb. unfold k0, with_thread_new. cbn. apply elem_of_union. right. apply (ki_owns _ _ _ _ Hk). unfold owned. change (m_items (g_objects k) = Some b) in Hb. rewrite Hb, !elem_of_app. right. right. left. apply list_elem_of_here.
    - intros h b Hh Hf. right. split; [done|]. by exists h, b. }
  intros st k1 [[Hne ->]|(-> & h & b & Hh & Hf & ->)].
  - rewrite bool_decide_eq_false_2 by done. cbn [negb]. apply discard_post; [done|done|done|]. apply kpost_ret. split; [done|by right].
  - rewrite bool_decide_eq_true_2 by done. cbn [negb].
    destruct (kinv_admit k q ps t r l h b Hk Hfr Hroom Hobj Hh (Hnl l Hl) Hf) as (m & hd & tl & Hrun & K1 & Hrel). cbn zeta in *.
    rewrite (kseq_sched (link_thread t) _ (with_g_objects h (with_blocks b k0)) _ Hrun), kseq_set. life_cbn. set (k1 := with_g_objects h (with_blocks b (with_sched _ k))) in K1.
    match goal with |- kpost outside (_ ?k2) _ => change k2 with k1 end.
    destruct (relinked_lookup (H := registry_links) _ _ t r Hrel) as (r1 & Hr1 & E1); [apply lookup_insert_eq|].
    eapply kpost_mono; [|apply (enter_post k q ps p x t r1 r k1); try done].
    + intros [st out] k' (-> & -> & Hm). split; [done|]. by exists r.
    + by eapply process_listed.
    + apply U3.
    + intros Hi. destruct (inv_idle _ _ (ki_sched _ _ _ _ Hk)) as (i & ri & Ei & Hri & _). change (g_idle_thread (sched k) = Some t) in Hi. congruence.
    + intros Hin. destruct (retired_there _ _ _ _ t (inv_retired _ _ (ki_sched _ _ _ _ Hk)) Hin). congruence.
    + intros u ru Hu. assert (u <> t) as Hne by congruence. destruct (relinked_lookup (H := registry_links) _ _ u ru Hrel) as (ru' & Hu' & E); [by rewrite lookup_insert_ne|].
      exists ru'. split_and!; [done|done|]. split; [exact (f_equal still E)|exact (f_equal in_ready_queue E)].
Qed.

(** ** Allocation and checks *)

(** Records of threads as the three calls fill them. *)
Record maker (make : Z -> list Z -> option Z -> Thread) : Prop := {
  mk_stack id text st : kernel_stack (make id text st) = st;
  mk_idle id text st : in_ready_queue (make id text st) = false /\ sleep_next (make id text st) = None /\ sleep_prev (make id text st) = None;
  mk_parent id text st : t_parent (make id text st) = None;
  mk_ok s t id text st : terminated text -> thread_ok s t (make id text st);
  mk_id id text st : t_id (make id text st) = id;
  mk_state id text st : current_state (make id text st) <> Waiting
}.

Lemma maker_unused make k t id text st : maker make -> unused k t -> (forall a, st = Some a -> unused k a /\ a <> t) -> terminated text -> id = g_next_thread_id (sched k) -> thread_unused k t (make id text st).
Proof. intros [M1 M2 M3 M4 M5 M6] Ht Hs Htext ->. split; [done|by rewrite M1|done|done|by apply M4|done]. Qed.

(** The record the call makes: an identifier, a name and a stack went into it. *)
Definition filled (make : Z -> list Z -> option Z -> Thread) (k : Kern) (name : list Z) (r : Thread) : Prop :=
  exists text st, r = make (g_next_thread_id (sched k)) text st /\ c_text text = name /\ is_Some st.

Lemma spawn_post k q ps p x make name fallback :
  kinv k q ps [] -> processes (sched k) !! p = Some x -> maker make -> short_text name -> short_text (Some fallback) -> g_next_thread_id (sched k) + 1 < 2 ^ 64 ->
  kpost outside (spawn_thread p name fallback make k) (thread_outcome k q ps p (filled make k (take 31 (chosen_name name fallback)))).
Proof.
  intros Hk Hx Hmk Hname Hfall Hroom. unfold spawn_thread. apply kpost_call; [done|]. intros [t|] k1 Hrep; cbn in Hrep; [|subst k1; apply kpost_ret; split; [done|by left]].
  destruct Hrep as (Hb & Ho & ->). unfold take_thread_id. apply kassoc. rewrite kseq_read. apply kassoc. rewrite kseq_set, kseq_ret. life_cbn.
  destruct (copy_name_ok name fallback Hname Hfall) as (text & Hrun & Hterm & Htext). rewrite (kseq_compute _ _ _ text) by done. unfold put_thread. rewrite kseq_set. life_cbn.
  set (id := g_next_thread_id (sched k)). assert (unused k t) as Hut by done. destruct (unused_apart _ _ _ _ _ Hk Hut) as (_ & Hnt & _).
  apply kpost_call; [done|]. intros [a|] k2 Hrep2; cbn in Hrep2.
  - destruct Hrep2 as (Hb2 & Ho2 & ->). rewrite kseq_set. life_cbn. rewrite insert_insert_eq.
    pose proof (enroll_post k q ps p x t (make id text (Some a)) (filled make k (take 31 (chosen_name name fallback)))) as Hen. rewrite (mk_stack _ Hmk) in Hen.
    match goal with |- kpost outside (_ ?k2) _ => replace k2 with (with_thread_new t (make id text (Some a)) k) end.
    + apply Hen; try done; [|apply Hmk|exists text, (Some a); split_and!; [done|done|by eauto]]. apply maker_unused; try done. intros ? [= <-]. split; [split; [set_solver|done]|]. intros ->. set_solver.
    + unfold with_thread_new. rewrite (mk_stack _ Hmk). cbn [block_set]. by replace ({[t]} ∪ {[a]} ∪ blocks k) with ({[a]} ∪ ({[t]} ∪ blocks k)) by set_solver.
  - subst k2. pose proof (discard_post k t (make id text None) (fun _ => kret (StatusNoMemory, @None Z)) (thread_outcome k q ps p (filled make k (take 31 (chosen_name name fallback)))) Hut) as Hd.
    rewrite (mk_stack _ Hmk) in Hd. change (kseq (free_stack None) ?f) with (kseq (kret tt) f) in Hd. rewrite kseq_ret in Hd.
    match goal with |- kpost outside (_ ?k2) _ => replace k2 with (with_thread_new t (make id text None) k) end.
    + apply Hd; [done|done|]. split; [done|by right].
    + unfold with_thread_new. rewrite (mk_stack _ Hmk). cbn [block_set]. by replace ({[t]} ∪ ∅ ∪ blocks k) with ({[t]} ∪ blocks k) by set_solver.
Qed.

Definition ill_spawned (badly_placed : bool) (base_priority quantum_ticks : Z) : bool := badly_placed || (ThreadPriorityLevelCount <=? base_priority) || (quantum_ticks =? 0).

Lemma spawn_checks_post k q ps p x badly_placed priority quantum make name fallback :
  kinv k q ps [] -> processes (sched k) !! p = Some x -> 0 <= priority < 2 ^ 32 -> 0 <= quantum < 2 ^ 32 -> short_text name -> short_text (Some fallback) -> g_next_thread_id (sched k) + 1 < 2 ^ 64 ->
  (0 <= priority < 32 -> maker make) ->
  kpost outside (spawn_checks (Some p) true badly_placed priority quantum (fun p => spawn_thread p name fallback make) k)
    (fun res k' => if ill_spawned badly_placed priority quantum then res = (StatusInvalidArgument, None) /\ k' = k
                   else thread_outcome k q ps p (filled make k (take 31 (chosen_name name fallback))) res k').
Proof.
  intros Hk Hx Hp Hq Hname Hfall Hroom Hmk. unfold spawn_checks, ill_spawned. cbn [negb]. destruct badly_placed; [by apply kpost_ret|]. cbn [orb].
  destruct ((ThreadPriorityLevelCount <=? priority) || (quantum =? 0)) eqn:E; [by apply kpost_ret|]. apply orb_false_iff in E as [E1%Z.leb_gt _]. change ThreadPriorityLevelCount with 32 in E1.
  rewrite (kseq_process p x) by done.
  rewrite (kseq_compute _ _ k (Some p)) by (apply (find_process_here _ _ _ (ki_processes _ _ _ _ Hk)); [by eapply process_listed|done]). rewrite bool_decide_eq_true_2 by done. cbn [negb].
  apply (spawn_post k q ps p x); try done. apply Hmk. lia.
Qed.

Lemma create_thread_post k q ps p x name entry_point priority quantum :
  kinv k q ps [] -> processes (sched k) !! p = Some x -> 0 <= priority < 2 ^ 32 -> 0 <= quantum < 2 ^ 32 -> short_text name -> g_next_thread_id (sched k) + 1 < 2 ^ 64 ->
  kpost outside (create_thread (Some p) name entry_point true priority quantum k)
    (fun res k' => if ill_spawned (entry_point =? 0) priority quantum then res = (StatusInvalidArgument, None) /\ k' = k
                   else thread_outcome k q ps p (filled (kernel_thread entry_point priority quantum) k (take 31 (chosen_name name text_thread))) res k').
Proof.
  intros Hk Hx Hp Hq Hname Hroom. apply (spawn_checks_post k q ps p x); try done.
  apply short_literal; [apply (bool_decide_unpack _); by vm_compute|by vm_compute].
Qed.

Lemma create_user_thread_post k q ps p x name entry_point user_stack_top priority quantum :
  kinv k q ps [] -> processes (sched k) !! p = Some x -> 0 <= priority < 2 ^ 32 -> 0 <= quantum < 2 ^ 32 -> short_text name -> g_next_thread_id (sched k) + 1 < 2 ^ 64 ->
  kpost outside (create_user_thread (Some p) name entry_point user_stack_top true priority quantum k)
    (fun res k' => if ill_spawned (user_stack_top =? 0) priority quantum then res = (StatusInvalidArgument, None) /\ k' = k
                   else thread_outcome k q ps p (filled (user_thread entry_point user_stack_top priority quantum) k (take 31 (chosen_name name text_user))) res k').
Proof.
  intros Hk Hx Hp Hq Hname Hroom. apply (spawn_checks_post k q ps p x); try done.
  apply short_literal; [apply (bool_decide_unpack _); by vm_compute|by vm_compute].
Qed.

(** The processor's own thread gets a record; its stack is not ours. *)
Definition adopted (sp : Z) (pc : Continuation) (k : Kern) (name : list Z) (r : Thread) : Prop :=
  exists text, r = new_thread (g_next_thread_id (sched k)) FlagKernel text Running ThreadPriorityNormal ThreadDefaultQuantumTicks (mkStacks 0 None 0 0 None sp) (mkContext (KernelCode pc) 0 0 zero_frame) /\
    c_text text = name.

Lemma adopt_post k q ps p x sp pc name :
  kinv k q ps [] -> processes (sched k) !! p = Some x -> short_text name -> g_next_thread_id (sched k) + 1 < 2 ^ 64 ->
  kpost outside (adopt_current_thread sp pc (Some p) name true k) (thread_outcome k q ps p (adopted sp pc k (take 31 (chosen_name name text_boot)))).
Proof.
  intros Hk Hx Hname Hroom. unfold adopt_current_thread. cbn [negb]. rewrite (kseq_process p x) by done.
  rewrite (kseq_compute _ _ k (Some p)) by (apply (find_process_here _ _ _ (ki_processes _ _ _ _ Hk)); [by eapply process_listed|done]). rewrite bool_decide_eq_true_2 by done. cbn [negb].
  apply kpost_call; [done|]. intros [t|] k1 Hrep; cbn in Hrep; [|subst k1; apply kpost_ret; split; [done|by left]].
  destruct Hrep as (Hb & Ho & ->). unfold take_thread_id. apply kassoc. rewrite kseq_read. apply kassoc. rewrite kseq_set, kseq_ret. life_cbn.
  destruct (copy_name_ok name text_boot Hname) as (text & Hrun & Hterm & Htext); [apply short_literal; [apply (bool_decide_unpack _); by vm_compute|by vm_compute]|].
  rewrite (kseq_compute _ _ _ text) by done. unfold put_thread. rewrite kseq_set. life_cbn. set (id := g_next_thread_id (sched k)). set (r := new_thread id _ _ _ _ _ _ _).
  match goal with |- kpost outside (_ ?k2) _ => replace k2 with (with_thread_new t r k) end.
  - apply (enroll_post k q ps p x t r); [done|done|split; [done|done|done|done|by split|done]|done|done|by exists text].
  - unfold with_thread_new. change (kernel_stack r) with (@None Z). cbn [block_set]. by replace ({[t]} ∪ ∅ ∪ blocks k) with ({[t]} ∪ blocks k) by set_solver.
Qed.
