(* ===== verification/LifeCalls.v ===== *)
(** The remaining calls: termination by identifier, exit statuses, the registry of
    objects, and the walk that destroys what is exiting. *)
From stdpp Require Import base list gmap.
From Stdlib Require Import ZArith Lia.
From S2P Require Import Prelude KernelText DList KernelIface SchedState Scheduler SchedQueues SchedOps SchedInv SchedLogic ThreadRegistry HeapList LifeState Lifecycle LifeInv LifeChanges LifeDestroy LifeEnd LifeMake.

Local Open Scope Z_scope.

(** ** The queues are determined by the state *)
Lemma queues_unique s q1 q2 : inv s q1 -> inv s q2 -> q1 = q2.
Proof.
  intros H1 H2. assert (ready q1 = ready q2) as E1.
  { pose proof (inv_ready _ _ H1) as [[L0 L1] D1 _ _ _ _ _]. pose proof (inv_ready _ _ H2) as [[_ L2] D2 _ _ _ _ _]. apply list_eq. intros p. destruct (decide (p < 32)%nat) as [Hp|Hp].
    - destruct (lookup_lt_is_Some_2 (g_ready_queues s) p) as [Q HQ]; [by rewrite L0|].
      destruct (lookup_lt_is_Some_2 (ready q1) p) as [l Hl]; [by rewrite L1|]. destruct (lookup_lt_is_Some_2 (ready q2) p) as [l' Hl']; [by rewrite L2|]. rewrite Hl, Hl'. f_equal.
      eapply (dlist_unique (H := ready_links)); [by eapply D1|by eapply D2].
    - rewrite !lookup_ge_None_2; [done|lia|lia]. }
  assert (sleepers q1 = sleepers q2) as E2 by (eapply (dlist_unique (H := sleep_links)); [apply (inv_sleep _ _ H1)|apply (inv_sleep _ _ H2)]).
  assert (registry q1 = registry q2) as E3 by (eapply (dlist_unique (H := registry_links)); [apply (inv_registry _ _ H1)|apply (inv_registry _ _ H2)]).
  pose proof (retired_unique _ _ _ H1 H2) as E4. destruct q1, q2. cbn in *. congruence.
Qed.

(** ** Termination by identifier *)
Lemma destroy_process_unknown k q ps process :
  kinv k q ps [] -> (forall p, process = Some p -> processes (sched k) !! p = None) -> destroy_process process k = KDone StatusNotFound k.
Proof.
  intros Hk Hn. unfold destroy_process. cbn [destroy_process_upto]. unfold destroy_process_with. rewrite (kseq_compute _ _ k (among process ps)).
  2: { by apply (contains_process_ok _ _ _ (ki_processes _ _ _ _ Hk)). }
  destruct process as [p|]; [|done]. cbn [among]. rewrite bool_decide_eq_false_2; [done|]. intros Hp.
  destruct (process_here _ _ _ (ki_processes _ _ _ _ Hk) p Hp) as [x Hx]. by rewrite (Hn p eq_refl) in Hx.
Qed.

(** The process as [terminate_process] leaves it before it is destroyed. *)
Definition condemned (code : Z) (x : Process) : Process := with_exit_code code (with_p_state ProcessExiting x).

Definition condemn (p code : Z) (x : Process) (k : Kern) : Kern := with_sched (with_processes (<[p := condemned code x]> (processes (sched k))) (sched k)) k.

Lemma condemn_kinv k q ps p x code : kinv k q ps [] -> processes (sched k) !! p = Some x -> kinv (condemn p code x k) q ps [].
Proof. intros Hk Hx. by eapply kinv_process. Qed.

Lemma terminate_process_post k q ps id code :
  kinv k q ps [] -> (forall p x members, processes (sched k) !! p = Some x -> p_id x = id -> member_rep (threads (sched k)) p x members -> forall t, t ∈ members -> may_go k q t) ->
  kpost outside (terminate_process id code k) (fun st k' =>
    (st = StatusNotFound /\ k' = k /\ forall p x, processes (sched k) !! p = Some x -> p_id x <> id) \/
    (st = StatusOK /\ exists p x members, processes (sched k) !! p = Some x /\ p_id x = id /\ member_rep (threads (sched k)) p x members /\
      destroyed (condemn p code x k) q p (condemned code x) members k')).
Proof.
  intros Hk Hgo. unfold terminate_process. destruct (find_process_ok _ _ _ (ki_processes _ _ _ _ Hk) id) as (found & Hrun & Hf). rewrite (kseq_compute _ _ k found) by done.
  destruct found as [p|]; [|apply kpost_ret; left; split_and!; [done|done|]; intros p x Hx; apply (Hf p x); [by eapply process_listed|done]].
  destruct Hf as (Hp & x & Hx & Hid). rewrite (kseq_set_proc p x) by done. destruct (ki_members _ _ _ _ Hk p x Hx) as [l Hl].
  eapply kpost_mono; [|apply (destroy_process_post (condemn p code x k) q ps p (condemned code x) l)].
  - intros st k' [-> Hd]. right. split; [done|]. by exists p, x, l.
  - by apply condemn_kinv.
  - apply lookup_insert_eq.
  - exact (member_process _ p x (condemned code x) l eq_refl eq_refl eq_refl eq_refl Hl).
  - intros t Ht. by apply (Hgo p x l).
Qed.

Lemma search_thread_ok k q ps id :
  kinv k q ps [] -> exists found, find_thread id (sched k) = Ok found /\
    match found with Some t => exists r, threads (sched k) !! t = Some r /\ t_id r = id | None => forall t r, threads (sched k) !! t = Some r -> t_id r <> id end.
Proof.
  intros Hk. pose proof (inv_registry _ _ (ki_sched _ _ _ _ Hk)) as [R1 R2 R3]. unfold find_thread.
  eexists. split; [eapply (dl_find_ok (H := registry_links) _ _ _ (g_thread_tail (sched k)) (registry q) (fun r => t_id r =? id)); [done|done]|].
  destruct (list_find _ (registry q)) as [[i t]|] eqn:Hf; cbn.
  - apply list_find_Some in Hf as (Ht & Hid & _). apply list_elem_of_lookup_2, R2 in Ht as [r Hr]. exists r. split; [done|]. rewrite Hr in Hid. injection Hid as Hid. by apply Z.eqb_eq.
  - intros t r Hr E. apply list_find_None in Hf. rewrite Forall_forall in Hf. apply (Hf t); [apply R2; by eauto|]. rewrite Hr. cbn. by rewrite E, Z.eqb_refl.
Qed.

Lemma terminate_thread_post k q ps id :
  kinv k q ps [] -> (forall t r, threads (sched k) !! t = Some r -> t_id r = id -> may_go k q t) ->
  kpost outside (terminate_thread id k) (fun st k' =>
    (st = StatusNotFound /\ k' = k /\ forall t r, threads (sched k) !! t = Some r -> t_id r <> id) \/
    (st = StatusOK /\ exists t r q' ps', threads (sched k) !! t = Some r /\ t_id r = id /\ kinv k' q' ps' [] /\ kgrows [t] [] k q k' q' /\ threads (sched k') !! t = None)).
Proof.
  intros Hk Hgo. unfold terminate_thread. destruct (search_thread_ok k q ps id Hk) as (found & Hrun & Hf). rewrite (kseq_compute _ _ k found) by (by rewrite Hrun).
  destruct found as [t|]; [|apply kpost_ret; left; by split_and!]. destruct Hf as (r & Hr & Hid).
  eapply kpost_mono; [|apply (destroy_thread_post k q ps t r); [done|done|by eapply Hgo]]. intros st k' (-> & q' & ps' & K & G & Hn). right. split; [done|]. by exists t, r, q', ps'.
Qed.

(** ** Exit statuses *)
Lemma kinv_records_less k q ps limbo h l l' :
  kinv k q ps limbo -> holds (exit_records k) l -> holds h l' -> m_items h = m_items (exit_records k) -> sublist l' l -> kinv (with_exit_records h k) q ps limbo.
Proof.
  intros Hk Hl Hl' Hit Hs. replace (with_exit_records h k) with (with_exit_records h (with_blocks (blocks k) k)) by (by destruct k). apply (kinv_records k q ps limbo h (blocks k) l'); [done| |by left].
  destruct (ki_records _ _ _ _ Hk) as [l0 [C1 C2 C3 C4]]. rewrite (holds_unique _ _ _ C1 Hl) in *. assert (forall e, e ∈ l' -> e ∈ l) as Hin by (intros e He; by eapply elem_of_sublist).
  split; [done| | |].
  - eapply sublist_NoDup; [exact C2|]. by apply fmap_sublist.
  - intros e p x He. apply C3. by apply Hin.
  - intros e He. by apply C4, Hin.
Qed.

(** The one record of the process is handed out and forgotten. *)
Lemma consume_found k q ps l e :
  kinv k q ps [] -> holds (exit_records k) l -> e ∈ l ->
  exists h, consume_exit_status (er_process_id e) (er_parent_process_id e) true k = KDone (StatusOK, Some (er_exit_code e)) (with_exit_records h k) /\
    kinv (with_exit_records h k) q ps [] /\ forall l', holds h l' -> forall e', e' ∈ l' -> er_process_id e' <> er_process_id e.
Proof.
  intros Hk Hl He. destruct (ki_records _ _ _ _ Hk) as [l0 [C1 C2 C3 C4]]. rewrite (holds_unique _ _ _ C1 Hl) in *. clear l0 C1. apply list_elem_of_split in He as (l1 & l2 & ->).
  rewrite fmap_app, fmap_cons in C2. apply list.NoDup_app in C2 as (_ & D1 & [D2 _]%list.NoDup_cons).
  assert (forall e', e' ∈ l1 ++ l2 -> er_process_id e' <> er_process_id e) as Hother.
  { intros e' [He'|He']%elem_of_app E; [apply (D1 (er_process_id e)); [apply list_elem_of_fmap; by exists e'|apply list_elem_of_here]|apply D2, list_elem_of_fmap; by exists e']. }
  destruct (remove_at_ok _ _ _ _ Hl) as (h & Hrun & Hh & Hit). exists h. split_and!.
  - unfold consume_exit_status. cbn [negb]. rewrite (kseq_compute _ _ k (Some (len l1))).
    2: { apply (seek_present _ _ l1 e l2 Hl); [|unfold is_record; by rewrite !Z.eqb_refl]. intros y Hy. unfold is_record.
         destruct (Z.eqb_spec (er_process_id y) (er_process_id e)) as [E|]; [|done]. exfalso. apply (Hother y); [apply elem_of_app; by left|done]. }
    rewrite (kseq_compute _ _ k e) by (eapply item_ok; [exact Hl|by apply list_lookup_middle]). unfold list_change. by rewrite (kseq_change _ _ k (with_exit_records h k)) by (by cbn; rewrite Hrun).
  - eapply kinv_records_less; try done. apply sublist_app; [done|]. by apply sublist_cons.
  - intros l' Hl' e' He'. rewrite (holds_unique _ _ _ Hl' Hh) in He'. by apply Hother.
Qed.

Lemma consume_missing k q ps l id parent :
  kinv k q ps [] -> holds (exit_records k) l -> (forall e, e ∈ l -> er_process_id e <> id \/ er_parent_process_id e <> parent) -> consume_exit_status id parent true k = KDone (StatusNotFound, None) k.
Proof.
  intros Hk Hl Hn. unfold consume_exit_status. cbn [negb]. rewrite (kseq_compute _ _ k None); [done|]. apply (seek_absent _ _ l Hl). intros e He. unfold is_record.
  destruct (Hn e He) as [E|E]; [|rewrite andb_comm]; by rewrite (proj2 (Z.eqb_neq _ _) E).
Qed.

(** ** With nothing left to reap

    When no ended thread is on the scheduler's list, only what the call names goes. *)
Lemma calm_thread gone pgone k q k' q' t r :
  kgrows gone pgone k q k' q' -> retired q = [] -> threads (sched k) !! t = Some r -> t ∉ gone -> is_Some (threads (sched k') !! t).
Proof.
  intros G Hre Hr Hg. destruct (de_thread _ _ _ _ _ (kg_sched _ _ _ _ _ _ G) t r Hr Hg) as (r' & Hr' & _); [rewrite Hre; by intros Hin%not_elem_of_nil|by eauto].
Qed.

Lemma calm_process gone pgone k q k' q' ps a y :
  kgrows gone pgone k q k' q' -> kinv k q ps [] -> retired q = [] -> processes (sched k) !! a = Some y -> a ∉ pgone ->
  (forall t r, t ∈ gone -> threads (sched k) !! t = Some r -> t_parent r <> Some a) -> exists y', processes (sched k') !! a = Some y' /\ lasts y y'.
Proof.
  intros G Hk Hre Hy Ha Hg. apply (kg_process _ _ _ _ _ _ G a y Hy Ha). destruct (ki_members _ _ _ _ Hk a y Hy) as [[|t l] Hl].
  - right. right. left. intros t r Hr Hp. apply (not_elem_of_nil t), (mb_all _ _ _ _ Hl). by eauto.
  - right. right. right. destruct (mb_all _ _ _ _ Hl t) as [(r & Hr & Hp) _]; [apply list_elem_of_here|]. exists t, r. split_and!; [done|done|].
    eapply calm_thread; [done|done|done|]. intros Hin. by apply (Hg t r).
Qed.

Lemma calm_later gone pgone k q k' q' : kgrows gone pgone k q k' q' -> retired q = [] -> retired q' = [].
Proof. intros G Hre. destruct (de_retired _ _ _ _ _ (kg_sched _ _ _ _ _ _ G)) as (dead & E & _). rewrite Hre in E. by destruct dead, (retired q'). Qed.

Lemma sublist_exact (P : Z -> Prop) `{forall a, Decision (P a)} ps' ps : sublist ps' ps -> NoDup ps -> (forall a, a ∈ ps' <-> a ∈ ps /\ P a) -> ps' = filter P ps.
Proof.
  intros Hs. induction Hs as [|x l1 l2 Hs IH|x l1 l2 Hs IH]; intros Hn Ha; [done|..]; apply list.NoDup_cons in Hn as [Hx Hn].
  - destruct (proj1 (Ha x) (list_elem_of_here _ _)) as [_ Hp]. rewrite filter_cons_True by done. f_equal. apply IH; [done|]. intros a. split.
    + intros Hin. destruct (proj1 (Ha a)) as [_ Hpa]; [by right|]. split; [|done]. by eapply elem_of_sublist.
    + intros [Hin Hpa]. assert (a ∈ x :: l1) as Hc by (apply Ha; split; [by right|done]). by apply elem_of_cons in Hc as [->|Hc].
  - assert (~ P x) as Hp. { intros Hp. apply Hx. eapply elem_of_sublist; [|exact Hs]. apply Ha. split; [apply list_elem_of_here|done]. }
    rewrite filter_cons_False by done. apply IH; [done|]. intros a. rewrite Ha, elem_of_cons. split; [intros [[->|?] ?]; done|intros [? ?]; split; [by right|done]].
Qed.

(** One process is destroyed and leaves the list. *)
Lemma destroyed_calm k q ps p x members k' :
  kinv k q ps [] -> retired q = [] -> processes (sched k) !! p = Some x -> member_rep (threads (sched k)) p x members -> destroyed k q p x members k' ->
  exists q', kinv k' q' (filter (fun a => a <> p) ps) [] /\ kgrows members [p] k q k' q'.
Proof.
  intros Hk Hre Hx Hm [(q' & ps' & K & G) Hp _ _]. exists q'. split; [|done]. replace (filter (fun a => a <> p) ps) with ps'; [done|].
  pose proof (ki_processes _ _ _ _ Hk) as Hps. pose proof (ki_processes _ _ _ _ K) as Hps'. apply sublist_exact.
  - apply (kg_order _ _ _ _ _ _ G); [apply Hps|apply Hps'].
  - apply (pr_list _ _ _ _ _ _ _ Hps).
  - intros a. split.
    + intros Ha. destruct (process_here _ _ _ Hps' a Ha) as [y Hy]. split; [|congruence]. destruct (de_process _ _ _ _ _ (kg_sched _ _ _ _ _ _ G) a y Hy) as (y0 & Hy0 & _). by eapply process_listed.
    + intros [Ha Hne]. destruct (process_here _ _ _ Hps a Ha) as [y Hy].
      destruct (calm_process _ _ _ _ _ _ _ a y G Hk Hre Hy) as (y' & Hy' & _); [by intros ->%list_elem_of_singleton| |by eapply process_listed].
      intros t r Ht Hr. apply (mb_all _ _ _ _ Hm) in Ht as (r' & Hr' & Hpar). congruence.
Qed.

Section Sweep.
Context (k0 : Kern) (q0 : Queues) (hit : Z -> bool) (chosen : Z -> K bool).
Hypothesis Hcalm : retired q0 = [].

(** The walk has passed [l1] and has [l2] before it. *)
Record swept (k : Kern) (q : Queues) (l1 l2 gone pgone : list Z) : Prop := {
  sw_inv : kinv k q (filter (fun a => hit a = false) l1 ++ l2) [];
  sw_grows : kgrows gone pgone k0 q0 k q;
  sw_gone t : t ∈ gone -> threads (sched k) !! t = None /\ exists r a, threads (sched k0) !! t = Some r /\ t_parent r = Some a /\ a ∈ pgone;
  sw_pgone a : a ∈ pgone -> hit a = true /\ processes (sched k) !! a = None
}.

Hypothesis Hchosen : forall k q l1 l2 gone pgone a, swept k q l1 (a :: l2) gone pgone -> chosen a k = KDone (hit a) k.
Hypothesis Hgo : forall k q l1 l2 gone pgone a t r, swept k q l1 (a :: l2) gone pgone -> hit a = true -> threads (sched k) !! t = Some r -> t_parent r = Some a ->
  g_current_thread (sched k) <> Some t /\ g_idle_thread (sched k) <> Some t.

Lemma sweep_post l1 l2 gone pgone k q fuel :
  swept k q l1 l2 gone pgone -> (length l2 < fuel)%nat ->
  kpost outside (sweep fuel chosen (first l2 None) k) (fun _ k' => exists q' gone' pgone', swept k' q' (l1 ++ l2) [] gone' pgone').
Proof.
  revert l1 gone pgone k q fuel. induction l2 as [|a l2 IH]; intros l1 gone pgone k q fuel Hs Hf; (destruct fuel as [|fuel]; [cbn in Hf; lia|]); cbn [sweep sweep_step first].
  - rewrite kseq_ret. apply kpost_ret. rewrite app_nil_r. by exists q, gone, pgone.
  - pose proof Hs as [Hk G Hgone Hpg]. pose proof (ki_processes _ _ _ _ Hk) as Hps. destruct (dlist_at (H := process_links) _ _ _ _ _ _ (pr_list _ _ _ _ _ _ _ Hps)) as (x & Hx & Hnx & _).
    cbn [link_next process_links] in Hnx. apply kassoc. rewrite (kseq_process a x) by done. apply kassoc. rewrite (kseq_done _ _ _ _ _ (Hchosen _ _ _ _ _ _ _ Hs)). apply kassoc. rewrite Hnx.
    assert (forall k1 q1 gone1 pgone1, swept k1 q1 (l1 ++ [a]) l2 gone1 pgone1 -> kpost outside ((let* _ := kret tt in let* next := kret (Some (first l2 None)) in match next with None => kret tt | Some c => sweep fuel chosen c end) k1)
        (fun _ k' => exists q' gone' pgone', swept k' q' (l1 ++ a :: l2) [] gone' pgone')) as Hgoon.
    { intros k1 q1 gone1 pgone1 S1. rewrite !kseq_ret. replace (l1 ++ a :: l2) with ((l1 ++ [a]) ++ l2) by (by rewrite <- app_assoc). eapply IH; [exact S1|cbn in Hf; lia]. }
    destruct (hit a) eqn:Ehit.
    + destruct (ki_members _ _ _ _ Hk a x Hx) as [members Hm]. pose proof (calm_later _ _ _ _ _ _ G Hcalm) as Hre. apply kassoc.
      eapply kpost_seq; [apply (destroy_process_post k q _ a x members Hk Hx Hm); intros t Ht; apply (mb_all _ _ _ _ Hm) in Ht as (r & Hr & Hp);
        destruct (Hgo _ _ _ _ _ _ a t r Hs Ehit Hr Hp); split_and!; [rewrite Hre; apply not_elem_of_nil|done|done]|].
      intros st k1 [-> Hd]. destruct (destroyed_calm _ _ _ _ _ _ _ Hk Hre Hx Hm Hd) as (q1 & K1 & G1). apply (Hgoon k1 q1 (gone ++ members) (pgone ++ [a])). split.
      * replace (filter (fun b => hit b = false) (l1 ++ [a]) ++ l2) with (filter (fun b => b <> a) (filter (fun b => hit b = false) l1 ++ a :: l2)); [exact K1|].
        assert (NoDup (filter (fun b => hit b = false) l1 ++ a :: l2)) as Hn by apply (pr_list _ _ _ _ _ _ _ Hps). apply list.NoDup_app in Hn as (_ & N1 & [N2 _]%list.NoDup_cons).
        rewrite !filter_app, filter_cons_False by (by intros ?). rewrite (filter_cons_False _ a) by (by rewrite Ehit). rewrite filter_nil, app_nil_r. f_equal.
        -- apply list_filter_all, Forall_forall. intros b Hb ->. by apply (N1 a Hb), list_elem_of_here.
        -- apply list_filter_all, Forall_forall. intros b Hb ->. done.
      * eapply kgrows_trans; [exact (kinv_sound _ _ _ _ Hk)| |done|done]. intros t r r' Ht _ Hr'. destruct (Hgone t Ht). congruence.
      * intros t [Ht|Ht]%elem_of_app.
        -- destruct (Hgone t Ht) as [Hn (r & b & H1 & H2 & H3)]. split; [|exists r, b; split_and!; [done|done|set_solver]]. destruct (threads (sched k1) !! t) eqn:E; [|done]. destruct (de_old _ _ _ _ _ (kg_sched _ _ _ _ _ _ G1) t); [by eauto|congruence].
        -- split; [by apply (ds_threads _ _ _ _ _ _ Hd)|]. apply (mb_all _ _ _ _ Hm) in Ht as (r & Hr & Hp).
           destruct (member_before _ _ _ _ _ _ t r a G) as (r0 & H0 & Hp0); [intros u Hu; by apply Hgone|done|done|]. exists r0, a. split_and!; [done|done|set_solver].
      * intros b [Hb| ->%list_elem_of_singleton]%elem_of_app; [|split; [done|apply Hd]]. destruct (Hpg b Hb) as [H1 H2]. split; [done|]. by eapply departs_gone; [apply G1|].
    + apply (Hgoon k q gone pgone). split; [|done|done|done]. rewrite filter_app, filter_cons_True, filter_nil by done. by rewrite <- app_assoc.
Qed.
End Sweep.

(** ** What is exiting is destroyed *)
Definition exiting (cur : Z) (k : Kern) (a : Z) : bool :=
  match processes (sched k) !! a with
  | Some x => negb (bool_decide (Some cur = Some a)) && bool_decide (p_state x = ProcessExiting) && negb (object_has_flag (flags (p_header x)) FlagPermanent)
  | None => false
  end.

Definition with_current (cur : Z) (k : Kern) : Kern := with_sched (with_g_current_process (Some cur) (sched k)) k.

Lemma kinv_current k q ps cur : kinv k q ps [] -> kinv (with_current cur k) q ps [].
Proof.
  intros Hk. unfold with_current. split; life_cbn; try apply Hk.
  - destruct (ki_sched _ _ _ _ Hk) as [I1 I2 I3 I4 I5 I6 I7 I8 I9]. split; try done. intros t r Hr. destruct (I5 t r Hr). by split.
  - destruct (ki_registered _ _ _ _ Hk). by split.
Qed.

(** A process the walk has not destroyed is as it was. *)
Lemma swept_lasts k0 q0 ps0 hit k q l1 l2 gone pgone a x0 :
  kinv k0 q0 ps0 [] -> retired q0 = [] -> swept k0 q0 hit k q l1 l2 gone pgone -> processes (sched k0) !! a = Some x0 -> a ∉ pgone -> exists x, processes (sched k) !! a = Some x /\ lasts x0 x.
Proof.
  intros Hk0 Hre [Hk G Hgone Hpg] Hx0 Ha. apply (calm_process _ _ _ _ _ _ ps0 a x0 G Hk0 Hre Hx0 Ha). intros t r Ht Hr E. destruct (Hgone t Ht) as [_ (r' & b & H1 & H2 & H3)].
  assert (b = a) as -> by congruence. done.
Qed.

Lemma exiting_lasts cur k k' a x x' : processes (sched k) !! a = Some x -> processes (sched k') !! a = Some x' -> lasts x x' -> exiting cur k' a = exiting cur k a.
Proof.
  intros Hx Hx' L. destruct (lasts_fields _ _ L) as (Eh & _). unfold exiting. rewrite Hx, Hx', Eh. f_equal. f_equal. apply bool_decide_ext. destruct L as [_ [->|(H1 & H2 & ->)]]; [done|]. split; done.
Qed.

Lemma swept_exiting k0 q0 ps0 cur k q l1 l2 gone pgone a :
  kinv k0 q0 ps0 [] -> retired q0 = [] -> swept k0 q0 (exiting cur k0) k q l1 (a :: l2) gone pgone -> is_Some (processes (sched k) !! a) /\ exiting cur k a = exiting cur k0 a.
Proof.
  intros Hk0 Hre Hs. pose proof Hs as [Hk G _ Hpg]. destruct (process_here _ _ _ (ki_processes _ _ _ _ Hk) a) as [x Hx]; [set_solver|]. split; [by eauto|].
  destruct (de_process _ _ _ _ _ (kg_sched _ _ _ _ _ _ G) a x Hx) as (x0 & Hx0 & _). destruct (swept_lasts _ _ _ _ _ _ _ _ _ _ a x0 Hk0 Hre Hs Hx0) as (x' & Hx' & L).
  - intros Hin. destruct (Hpg a Hin). congruence.
  - by eapply exiting_lasts.
Qed.

(** Every exiting process but the current one is gone with its threads, and the
    others stay as they were. *)
Record reaped (cur : Z) (k : Kern) (ps : list Z) (k' : Kern) : Prop := {
  rp_inv : exists q', kinv k' q' (filter (fun a => exiting cur k a = false) ps) [];
  rp_gone a : exiting cur k a = true -> processes (sched k') !! a = None /\ forall t r, threads (sched k) !! t = Some r -> t_parent r = Some a -> threads (sched k') !! t = None;
  rp_stays a x : processes (sched k) !! a = Some x -> exiting cur k a = false -> exists x', processes (sched k') !! a = Some x' /\ lasts x x'
}.

Lemma reap_exiting_post k q ps c rc cur :
  kinv k q ps [] -> retired q = [] -> g_current_thread (sched k) = Some c -> threads (sched k) !! c = Some rc -> t_parent rc = Some cur ->
  kpost outside (reap_exiting k) (fun st k' => st = StatusOK /\ reaped cur k ps k').
Proof.
  intros Hk Hre Hc Hrc Hcur. unfold reap_exiting. rewrite (kseq_exec _ _ k (Some cur) (with_current cur k)).
  2: { unfold current_process. rewrite Hc, (thread_get_ok c rc) by done. rewrite bind_ok, Hcur. done. }
  set (k0 := with_current cur k). pose proof (kinv_current k q ps cur Hk) as K0. change (kinv k0 q ps []) in K0. rewrite !kseq_read.
  pose proof (pr_list _ _ _ _ _ _ _ (ki_processes _ _ _ _ K0)) as Hd. pose proof Hd as (_ & _ & Eh & _). rewrite Eh.
  assert (swept k0 q (exiting cur k0) k0 q [] ps [] []) as S0 by (split; [done|apply kgrows_refl|by intros t Ht%not_elem_of_nil|by intros a Ha%not_elem_of_nil]).
  eapply kpost_seq; [apply (sweep_post k0 q (exiting cur k0) _ Hre) with (l1 := []) (gone := []) (pgone := []) (q := q); [| |done|]|].
  - intros k1 q1 l1 l2 gone pgone a Hs. destruct (swept_exiting _ _ _ _ _ _ _ _ _ _ _ K0 Hre Hs) as [[x Hx] <-]. rewrite (kseq_process a x) by done. unfold exiting, kret. by rewrite Hx.
  - intros k1 q1 l1 l2 gone pgone a t r Hs Hhit Hr Hp. destruct (swept_exiting _ _ _ _ _ _ _ _ _ _ _ K0 Hre Hs) as [[x Hx] E]. rewrite <- E in Hhit. unfold exiting in Hhit. rewrite Hx in Hhit.
    apply andb_true_iff in Hhit as [Hhit Hfl%negb_true_iff]. apply andb_true_iff in Hhit as [Hne%negb_true_iff _]. apply bool_decide_eq_false_1 in Hne. destruct Hs as [K1 G1 Hgone _]. split.
    + rewrite (de_current _ _ _ _ _ (kg_sched _ _ _ _ _ _ G1)). change (g_current_thread (sched k) <> Some t). intros Ht.
      destruct (member_before _ _ _ _ _ _ t r a G1) as (r0 & H0 & Hp0); [intros u Hu; by apply Hgone|done|done|]. change (threads (sched k) !! t = Some r0) in H0. congruence.
    + intros Hi. rewrite (ki_idle _ _ _ _ K1 t r a x Hi Hr Hp Hx) in Hfl. done.
  - pose proof (dlist_length (H := process_links) _ _ _ _ Hd). lia.
  - intros [] k1 (q1 & gone & pgone & Hs). apply kpost_ret. split; [done|]. pose proof Hs as [K1 G1 Hgone Hpg]. cbn [app] in K1. rewrite app_nil_r in K1.
    assert (forall a, exiting cur k0 a = true -> processes (sched k1) !! a = None) as Hdead.
    { intros a Ha. destruct (processes (sched k1) !! a) as [x|] eqn:Hx; [|done]. pose proof (process_listed _ _ _ _ _ K1 Hx) as Hin. apply list_elem_of_filter in Hin as [Hn _]. congruence. }
    split.
    + by exists q1.
    + intros a Ha. split; [by apply Hdead|]. intros t r Hr Hp. destruct (threads (sched k1) !! t) as [r1|] eqn:Hr1; [|done]. exfalso.
      destruct (departs_back _ _ _ _ _ t r1 (kg_sched _ _ _ _ _ _ G1) Hr1) as (r0 & H0 & Gr); [intros Hin; destruct (Hgone t Hin); congruence|]. change (threads (sched k) !! t = Some r0) in H0.
      assert (t_parent r1 = Some a) as Hp1 by (rewrite (thread_grows_parent _ _ _ _ Gr); congruence).
      destruct (ok_parent _ _ _ (inv_threads _ _ (ki_sched _ _ _ _ K1) t r1 Hr1) a Hp1) as (y & Hy & _). rewrite (Hdead a Ha) in Hy. done.
    + intros a x Hx Ha. apply (swept_lasts k0 q ps (exiting cur k0) k1 q1 _ _ gone pgone a x K0 Hre Hs); [done|]. intros Hin. destruct (Hpg a Hin) as [E _]. change (exiting cur k a = true) in E. congruence.
Qed.
