(* ===== verification/LifeTree.v ===== *)
(** Trees of processes: the walk up the launchers, the marks, and what terminating a
    tree leaves of it. *)
From stdpp Require Import base list gmap sorting.
From Stdlib Require Import ZArith Lia.
From S2P Require Import Prelude KernelText DList KernelIface SchedState Scheduler SchedQueues SchedOps SchedInv SchedLogic ThreadRegistry HeapList LifeState Lifecycle LifeInv LifeChanges LifeDestroy LifeEnd LifeMake LifeCalls.

Local Open Scope Z_scope.

(** ** The order of the list

    Identifiers grow and new processes are put at the end. *)
Definition id_of (k : Kern) (a : Z) : Z := match processes (sched k) !! a with Some x => p_id x | None => 0 end.
Definition by_id (k : Kern) (ps : list Z) : Prop := StronglySorted (fun a b => id_of k a < id_of k b) ps.

Lemma by_id_sublist k k' ps ps' : by_id k ps -> sublist ps' ps -> (forall a, a ∈ ps' -> id_of k' a = id_of k a) -> by_id k' ps'.
Proof.
  intros Hs Hl He. unfold by_id in *. induction Hl as [|x l1 l2 Hl IH|x l1 l2 Hl IH]; [constructor| |]; apply StronglySorted_inv in Hs as [Hs Hx].
  - constructor; [apply IH; [done|]; intros a Ha; apply He; by right|]. rewrite Forall_forall in Hx |- *. intros b Hb. rewrite !He; [|by right|apply list_elem_of_here]. apply Hx. by eapply elem_of_sublist.
  - by apply IH.
Qed.

Lemma by_id_grows gone pgone k q ps k' q' ps' : kinv k q ps [] -> kinv k' q' ps' [] -> kgrows gone pgone k q k' q' -> by_id k ps -> by_id k' ps'.
Proof.
  intros Hk Hk' G Hs. apply (by_id_sublist k k' ps ps'); [done|apply (kg_order _ _ _ _ _ _ G); [apply Hk|apply Hk']|].
  intros a Ha. destruct (process_here _ _ _ (ki_processes _ _ _ _ Hk') a Ha) as [x' Hx']. destruct (de_process _ _ _ _ _ (kg_sched _ _ _ _ _ _ G) a x' Hx') as (x & Hx & E & _). unfold id_of. by rewrite Hx, Hx'.
Qed.

(** Of two processes in the list, the later one has the greater identifier. *)
Lemma by_id_later k l1 a l2 b : by_id k (l1 ++ a :: l2) -> b ∈ l2 -> id_of k a < id_of k b.
Proof. intros (_ & _ & Hs)%StronglySorted_app Hb. apply StronglySorted_inv in Hs as [_ Hx]. rewrite Forall_forall in Hx. by apply Hx. Qed.

(** ** The walk up *)
Inductive leads (k : Kern) (root : Z) : Z -> Prop :=
| Leads_root : leads k root root
| Leads_up a y : processes (sched k) !! a = Some y -> leads k root (parent_process_id y) -> leads k root (p_id y).

(** The process of [x] is in the tree: it is the root, or one of its launchers is. *)
Definition in_tree (k : Kern) (root : Z) (x : Process) : Prop := p_id x = root \/ leads k root (parent_process_id x).

Section Walk.
Context (k : Kern) (q : Queues) (ps : list Z) (root : Z).
Hypothesis Hk : kinv k q ps [].
Hypothesis Hroot : root <> 0.

Definition older (c : Z) : gset Z := dom (filter (fun '(_, y) => p_id y <= c) (processes (sched k))).

Lemma older_in c a : a ∈ older c <-> exists y, processes (sched k) !! a = Some y /\ p_id y <= c.
Proof. unfold older. rewrite elem_of_dom. split; [intros [y [H1 H2]%map_lookup_filter_Some]; eauto|intros (y & H1 & H2); exists y; by apply map_lookup_filter_Some]. Qed.

Lemma older_less a y : processes (sched k) !! a = Some y -> (size (older (parent_process_id y)) < size (older (p_id y)))%nat.
Proof.
  intros Hy. pose proof (pr_ok _ _ _ _ _ _ _ (ki_processes _ _ _ _ Hk) a y Hy) as [_ Hlt _]. apply subset_size. split.
  - intros b (z & Hz & Hle)%older_in. apply older_in. exists z. split; [done|lia].
  - intros Hs. assert (a ∈ older (parent_process_id y)) as (z & Hz & Hle)%older_in by (apply Hs, older_in; exists y; split; [done|lia]). rewrite Hy in Hz. injection Hz as <-. lia.
Qed.

Lemma leads_inv a y c : processes (sched k) !! a = Some y -> p_id y = c -> c <> root -> leads k root c <-> leads k root (parent_process_id y).
Proof.
  intros Hy <- Hne. split; [|by apply (Leads_up _ _ a)]. inversion 1 as [|a' y' Hy' Hl E]; [done|]. assert (a' = a) as -> by (by eapply (pr_ids _ _ _ _ _ _ _ (ki_processes _ _ _ _ Hk))). congruence.
Qed.

Lemma leads_absent c : c <> root -> (forall a y, processes (sched k) !! a = Some y -> p_id y <> c) -> ~ leads k root c.
Proof. intros Hne Hn Hl. inversion Hl as [|a y Hy Hl' E]; [by subst|]. by apply (Hn a y). Qed.

Lemma tree_walk p x c fuel :
  processes (sched k) !! p = Some x -> c < p_id x -> (size (older c) < fuel)%nat ->
  exists b, iterate fuel (tree_step p root k) c = Ok b /\ (b = true <-> leads k root c).
Proof.
  intros Hx. revert c. induction fuel as [|fuel IH]; intros c Hc Hf; [lia|]. cbn [iterate]. unfold tree_step at 1.
  destruct (Z.eqb_spec c 0) as [->|Hc0].
  { exists false. split; [done|]. split; [done|]. intros Hl. exfalso. revert Hl. apply leads_absent; [done|]. intros a y Hy E. pose proof (pr_ok _ _ _ _ _ _ _ (ki_processes _ _ _ _ Hk) a y Hy) as [H _ _]. lia. }
  destruct (find_process_ok _ _ _ (ki_processes _ _ _ _ Hk) c) as (found & -> & Hfound). rewrite bind_ok.
  destruct (Z.eqb_spec c root) as [->|Hcr]; [exists true; split; [done|]; split; [constructor|done]|].
  destruct found as [a|].
  - destruct Hfound as (_ & y & Hy & Hid). destruct (Z.eqb_spec a p) as [->|Hap]; [rewrite Hx in Hy; injection Hy as <-; lia|].
    unfold get_process. rewrite Hy, !bind_ok. pose proof (pr_ok _ _ _ _ _ _ _ (ki_processes _ _ _ _ Hk) a y Hy) as [_ Hlt _]. pose proof (older_less a y Hy) as Hls. rewrite Hid in *.
    destruct (IH (parent_process_id y)) as (b & Hrun & Hb); [lia|lia|]. exists b. split; [done|]. by rewrite Hb, (leads_inv a y c).
  - exists false. split; [done|]. split; [done|]. intros Hl. exfalso. revert Hl. apply leads_absent; [done|]. intros a y Hy. apply (Hfound a y); [by eapply process_listed|done].
Qed.

Lemma process_is_in_tree_ok p x : processes (sched k) !! p = Some x -> exists b, process_is_in_tree p root k = Ok b /\ (b = true <-> in_tree k root x).
Proof.
  intros Hx. unfold process_is_in_tree. destruct (Z.eqb_spec root 0); [done|]. unfold get_process. rewrite Hx, bind_ok. unfold in_tree.
  destruct (Z.eqb_spec (p_id x) root); [exists true; split; [done|]; tauto|]. pose proof (pr_ok _ _ _ _ _ _ _ (ki_processes _ _ _ _ Hk) p x Hx) as [_ Hlt _].
  destruct (tree_walk p x (parent_process_id x) (S (S (size (processes (sched k)))))) as (b & Hrun & Hb); [done|lia| |exists b; split; [done|]; rewrite Hb; tauto].
  assert (older (parent_process_id x) ⊆ dom (processes (sched k))) as Hs by (intros a (y & Hy & _)%older_in; by apply elem_of_dom_2 in Hy). apply subseteq_size in Hs. rewrite size_dom in Hs. lia.
Qed.

(** The last launcher before the root. *)
Lemma leads_top c : leads k root c -> c = root \/ exists a y, processes (sched k) !! a = Some y /\ parent_process_id y = root /\ p_id y <= c.
Proof.
  induction 1 as [|a y Hy _ [E|(b & z & Hz & E & Hle)]]; [by left|right; by exists a, y|]. right. exists b, z. split_and!; [done|done|].
  pose proof (pr_ok _ _ _ _ _ _ _ (ki_processes _ _ _ _ Hk) a y Hy) as [_ Hlt _]. lia.
Qed.
End Walk.

(** ** Marks *)
Definition tree_flag (k : Kern) (root a : Z) : bool :=
  match processes (sched k) !! a, process_is_in_tree a root k with
  | Some x, Ok b => b && negb (object_has_flag (flags (p_header x)) FlagPermanent)
  | _, _ => false
  end.

Definition mark_list (hit : Z -> bool) (code : Z) (l : list Z) (m : gmap Z Process) : gmap Z Process :=
  foldl (fun m a => if hit a then alter (mark_for_exit code) a m else m) m l.

Lemma mark_list_lookup hit code l m a : NoDup l -> mark_list hit code l m !! a = if bool_decide (a ∈ l) && hit a then mark_for_exit code <$> m !! a else m !! a.
Proof.
  revert m. induction l as [|b l IH]; intros m Hn; cbn [mark_list foldl]; [rewrite bool_decide_eq_false_2 by apply not_elem_of_nil; done|]. apply list.NoDup_cons in Hn as [Hb Hn].
  change (foldl _ ?m l) with (mark_list hit code l m). rewrite (IH _ Hn). destruct (decide (a = b)) as [->|Hne].
  - rewrite (bool_decide_eq_false_2 (b ∈ l)), (bool_decide_eq_true_2 (b ∈ b :: l)) by (done || apply list_elem_of_here). cbn [andb]. destruct (hit b); [by rewrite lookup_alter_eq|done].
  - rewrite (bool_decide_ext (a ∈ b :: l) (a ∈ l)) by (rewrite elem_of_cons; tauto). destruct (hit b); [by rewrite lookup_alter_ne|done].
Qed.

Lemma mark_fields code x :
  slot_part (mark_for_exit code x) = slot_part x /\ p_header (mark_for_exit code x) = p_header x /\ launch_arguments (mark_for_exit code x) = launch_arguments x /\
  thread_list_head (mark_for_exit code x) = thread_list_head x /\ thread_list_tail (mark_for_exit code x) = thread_list_tail x /\
  thread_count (mark_for_exit code x) = thread_count x /\ main_thread (mark_for_exit code x) = main_thread x.
Proof. unfold mark_for_exit. by destruct (negb _). Qed.

Definition with_procs (m : gmap Z Process) (k : Kern) : Kern := with_sched (with_processes m (sched k)) k.

(** Identifiers and launchers are the same. *)
Definition same_tree (k k' : Kern) : Prop :=
  forall a x, processes (sched k) !! a = Some x -> exists x', processes (sched k') !! a = Some x' /\ p_id x' = p_id x /\ parent_process_id x' = parent_process_id x.

Lemma leads_same k k' root c : same_tree k k' -> leads k root c -> leads k' root c.
Proof. intros Hs. induction 1 as [|a y Hy _ IH]; [constructor|]. destruct (Hs a y Hy) as (y' & Hy' & <- & E). apply (Leads_up _ _ a); [done|by rewrite E]. Qed.

Lemma in_tree_same k k' root x x' : same_tree k k' -> same_tree k' k -> p_id x' = p_id x -> parent_process_id x' = parent_process_id x -> in_tree k' root x' <-> in_tree k root x.
Proof. intros H1 H2 Ei E. unfold in_tree. rewrite Ei, E. split; (intros [?|Hl]; [by left|right; by eapply leads_same]). Qed.

Lemma few_processes k q ps : kinv k q ps [] -> len ps < 2 ^ 48.
Proof.
  intros Hk. destruct (ki_objects _ _ _ _ Hk) as [l [O1 O2 _ O4]]. pose proof (holds_room _ _ O1). pose proof (ho_size _ _ O1).
  assert (length ps <= length l)%nat; [|lia]. apply submseteq_length, NoDup_submseteq; [apply (pr_list _ _ _ _ _ _ _ (ki_processes _ _ _ _ Hk))|done].
Qed.

Section Mark.
Context (k : Kern) (q : Queues) (ps : list Z) (root code : Z).
Hypothesis Hk : kinv k q ps [].
Hypothesis Hroot : root <> 0.

(** The processes in [l1] have been passed. *)
Record marking (l1 l2 : list Z) (k1 : Kern) : Prop := {
  mg_inv : kinv k1 q ps [];
  mg_list : ps = l1 ++ l2;
  mg_there : same_tree k k1;
  mg_back : same_tree k1 k;
  mg_ahead a : a ∈ l2 -> processes (sched k1) !! a = processes (sched k) !! a
}.

Lemma mark_from l1 l2 k1 n fuel :
  marking l1 l2 k1 -> 0 <= n -> n + len l2 < 2 ^ 64 -> (length l2 < fuel)%nat ->
  exists k2, iterate fuel (mark_step root code) (k1, first l2 None, n) = Ok (k2, n + len (filter (fun a => tree_flag k root a = true) l2)) /\
    k2 = with_procs (mark_list (tree_flag k root) code l2 (processes (sched k1))) k1 /\ marking ps [] k2.
Proof.
  revert l1 k1 n fuel. induction l2 as [|a l2 IH]; intros l1 k1 n fuel Hm Hn Hb Hf; (destruct fuel as [|fuel]; [cbn in Hf; lia|]); cbn [iterate first]; unfold mark_step at 1; pose proof Hm as [M1 M2 M3 M4 M5].
  - exists k1. cbn. rewrite Z.add_0_r. split_and!; [done|by destruct k1 as [[] ? ? ? ? ? ? ? ?]|]. split; try done. by rewrite app_nil_r.
  - pose proof (pr_list _ _ _ _ _ _ _ (ki_processes _ _ _ _ M1)) as Hd. rewrite M2 in Hd. destruct (dlist_at (H := process_links) _ _ _ _ _ _ Hd) as (x & Hx & Hnx & _). cbn [link_next process_links] in Hnx. clear Hd.
    pose proof Hx as Hx0. rewrite (M5 a (list_elem_of_here _ _)) in Hx0.
    destruct (process_is_in_tree_ok k1 q ps root M1 Hroot a x Hx) as (b & Hrun & Hin). destruct (process_is_in_tree_ok k q ps root Hk Hroot a x Hx0) as (b0 & Hrun0 & Hin0).
    assert (b = b0) as <-. { apply Bool.eq_iff_eq_true. rewrite Hin, Hin0. by apply in_tree_same. }
    assert (tree_flag k root a = b && negb (object_has_flag (flags (p_header x)) FlagPermanent)) as Ef by (unfold tree_flag; by rewrite Hx0, Hrun0).
    assert (NoDup ps) as Hnd by apply (pr_list _ _ _ _ _ _ _ (ki_processes _ _ _ _ M1)). rewrite M2 in Hnd. apply list.NoDup_app in Hnd as (_ & _ & [Ha _]%list.NoDup_cons).
    rewrite Hrun, bind_ok. unfold get_process. rewrite Hx, bind_ok, Hnx. rewrite filter_cons, Ef. cbn [mark_list foldl]. rewrite Ef. destruct b, (object_has_flag (flags (p_header x)) FlagPermanent); cbn [negb orb andb].
    2: { unfold set_process, get_process. rewrite Hx, !bind_ok. destruct (mark_fields code x) as (F1 & F2 & F3 & F4 & F5 & F6 & F7). set (k2 := with_procs (<[a := mark_for_exit code x]> (processes (sched k1))) k1).
         assert (marking (l1 ++ [a]) l2 k2) as Hm2.
         { pose proof F1 as F1'. unfold slot_part in F1'. injection F1' as E1 E2 _ _ _ _. split.
           - by eapply kinv_process.
           - by rewrite <- app_assoc.
           - intros c y Hy. unfold k2, with_procs. cbn. destruct (decide (c = a)) as [->|Hne]; [rewrite lookup_insert_eq; exists (mark_for_exit code x); rewrite Hx0 in Hy; by injection Hy as <-|rewrite lookup_insert_ne by done; by apply M3].
           - intros c y Hy. unfold k2, with_procs in Hy. cbn in Hy. apply lookup_insert_Some in Hy as [[<- <-]|[Hne Hy]]; [by exists x|by apply M4].
           - intros c Hc. unfold k2, with_procs. cbn. rewrite lookup_insert_ne by (by intros ->). apply M5. by right. }
         rewrite u64_small by (cbn [length] in Hb; lia). destruct (IH (l1 ++ [a]) k2 (n + 1) fuel Hm2) as (k3 & Hr & E & Hm3); [lia|cbn [length] in Hb; lia|cbn in Hf; lia|].
         rewrite decide_True by done. cbn [length]. change (with_sched _ k1) with k2. exists k3. split_and!; [rewrite Hr; f_equal; f_equal; lia| |done].
         rewrite E. replace (alter (mark_for_exit code) a (processes (sched k1))) with (<[a := mark_for_exit code x]> (processes (sched k1))); [done|]. apply map_eq. intros c.
         destruct (decide (c = a)) as [->|Hne]; [by rewrite lookup_insert_eq, lookup_alter_eq, Hx|by rewrite lookup_insert_ne, lookup_alter_ne]. }
    all: rewrite decide_False by done; apply (IH (l1 ++ [a])); [|lia|cbn [length] in Hb; lia|cbn in Hf; lia]; split; [done|by rewrite <- app_assoc|done|done|]; intros c Hc; apply M5; by right.
Qed.
End Mark.

(** ** A program ends with what it launched

    The current thread belongs to none of the processes the root has launched. *)
Section Tree.
Context (k : Kern) (q : Queues) (ps : list Z) (root code r : Z) (xr : Process) (c : Z) (rc : Thread) (cur : Z).
Hypothesis Hk : kinv k q ps [].
Hypothesis Hs : by_id k ps.
Hypothesis Hre : retired q = [].
Hypothesis Hr : processes (sched k) !! r = Some xr.
Hypothesis Hid : p_id xr = root.
Hypothesis Hperm : forall a x, processes (sched k) !! a = Some x -> in_tree k root x -> object_has_flag (flags (p_header x)) FlagPermanent = false.
Hypothesis Hc : g_current_thread (sched k) = Some c.
Hypothesis Hrc : threads (sched k) !! c = Some rc.
Hypothesis Hcur : t_parent rc = Some cur.
Hypothesis Hout : forall y, processes (sched k) !! cur = Some y -> parent_process_id y <> root.

Definition child (a : Z) : bool := match processes (sched k) !! a with Some x => parent_process_id x =? root | None => false end.
Definition marked : Kern := with_procs (mark_list (tree_flag k root) code ps (processes (sched k))) k.
Definition marks (a : Z) (x : Process) : Process := if tree_flag k root a then mark_for_exit code x else x.

Lemma root_nonzero : root <> 0.
Proof. pose proof (pr_ok _ _ _ _ _ _ _ (ki_processes _ _ _ _ Hk) r xr Hr) as [H _ _]. lia. Qed.

Lemma tree_flag_ok a x : processes (sched k) !! a = Some x -> tree_flag k root a = true <-> in_tree k root x.
Proof.
  intros Hx. unfold tree_flag. destruct (process_is_in_tree_ok k q ps root Hk root_nonzero a x Hx) as (b & Hrun & Hb). rewrite Hx, Hrun. rewrite <- Hb. split; [by intros [? _]%andb_prop|].
  intros E. rewrite (Hperm a x Hx); [by rewrite E|by apply Hb].
Qed.

Lemma marked_lookup a x : processes (sched k) !! a = Some x -> processes (sched marked) !! a = Some (marks a x).
Proof.
  intros Hx. unfold marked, with_procs, marks. cbn. rewrite mark_list_lookup by apply (pr_list _ _ _ _ _ _ _ (ki_processes _ _ _ _ Hk)).
  rewrite (bool_decide_eq_true_2 (a ∈ ps)) by (by eapply process_listed). cbn [andb]. rewrite Hx. by destruct (tree_flag k root a).
Qed.

Lemma marks_fields a x : slot_part (marks a x) = slot_part x /\ p_header (marks a x) = p_header x.
Proof. unfold marks. destruct (tree_flag k root a); [|done]. by destruct (mark_fields code x) as (? & ? & _). Qed.

Lemma marks_launch a x : p_id (marks a x) = p_id x /\ parent_process_id (marks a x) = parent_process_id x.
Proof. destruct (marks_fields a x) as [E _]. unfold slot_part in E. by injection E. Qed.

Lemma mark_post : exists n, n <> 0 /\ mark_process_tree_for_exit root code k = KDone n marked /\ kinv marked q ps [].
Proof.
  pose proof (pr_list _ _ _ _ _ _ _ (ki_processes _ _ _ _ Hk)) as Hd. pose proof (few_processes _ _ _ Hk) as Hfew. pose proof (dlist_length (H := process_links) _ _ _ _ Hd) as Hlen.
  destruct (mark_from k q ps root code Hk root_nonzero [] ps k 0 (S (size (processes (sched k))))) as (k2 & Hrun & -> & Hm); [|lia|lia|lia|].
  { split; [done|done|..]; [intros a x Hx; by exists x..|done]. }
  exists (len (filter (fun a => tree_flag k root a = true) ps)). split_and!; [|unfold mark_process_tree_for_exit, kexec; destruct Hd as (_ & _ & -> & _); by rewrite Hrun, bind_ok|apply Hm].
  assert (r ∈ filter (fun a => tree_flag k root a = true) ps) as Hin. { apply list_elem_of_filter. split; [apply (tree_flag_ok r xr Hr); by left|by eapply process_listed]. }
  destruct (filter _ ps); [by apply not_elem_of_nil in Hin|cbn; lia].
Qed.

Lemma root_no_child : child r = false.
Proof. unfold child. rewrite Hr. pose proof (pr_ok _ _ _ _ _ _ _ (ki_processes _ _ _ _ Hk) r xr Hr) as [_ H _]. apply Z.eqb_neq. lia. Qed.

(** What the walk finds of a process. *)
Lemma swept_here k1 q1 l1 l2 gone pgone a x1 :
  swept marked q child k1 q1 l1 l2 gone pgone -> processes (sched k1) !! a = Some x1 ->
  exists x, processes (sched k) !! a = Some x /\ lasts (marks a x) x1 /\ p_id x1 = p_id x /\ (parent_process_id x1 = root <-> parent_process_id x = root).
Proof.
  intros Hw Hx1. pose proof mark_post as (_ & _ & _ & K0). pose proof Hw as [K1 G _ Hpg]. destruct (de_process _ _ _ _ _ (kg_sched _ _ _ _ _ _ G) a x1 Hx1) as (x0 & Hx0 & _).
  destruct (swept_lasts _ _ _ _ _ _ _ _ _ _ a x0 K0 Hre Hw Hx0) as (y & Hy & L); [intros Hin; destruct (Hpg a Hin); congruence|]. assert (y = x1) as -> by congruence.
  assert (exists x, processes (sched k) !! a = Some x) as [x Hx]. { destruct (pr_all _ _ _ _ _ _ _ (ki_processes _ _ _ _ Hk) a) as [_ H]. apply H. left. by eapply (process_listed marked). }
  rewrite (marked_lookup a x Hx) in Hx0. injection Hx0 as <-. destruct (marks_launch a x) as [E1 E2]. destruct (lasts_fields _ _ L) as (_ & E3 & _). exists x. split_and!; [done|done|congruence|].
  destruct (kg_launcher _ _ _ _ _ _ G a _ x1 (marked_lookup a x Hx) Hx1) as [E|(E & p0 & y0 & Hy0 & Ey & Hgone)]; [by rewrite E, E2|]. rewrite E. split; [intros Hz; by destruct root_nonzero|]. intros Ep. exfalso.
  destruct (swept_lasts _ _ _ _ _ _ _ _ _ _ r (marks r xr) K0 Hre Hw (marked_lookup r xr Hr)) as (yr & Hyr & _); [intros Hin; destruct (Hpg r Hin) as [Hch _]; by rewrite root_no_child in Hch|].
  assert (p0 = r) as ->; [|congruence]. eapply (pr_ids _ _ _ _ _ _ _ (ki_processes _ _ _ _ K0)); [exact Hy0|exact (marked_lookup r xr Hr)|]. destruct (marks_launch r xr) as [-> _]. congruence.
Qed.

(** Of the tree, only the children of the root are still joined to it when the walk
    comes to them. *)
Lemma swept_tree k1 q1 l1 l2 gone pgone a x1 :
  swept marked q child k1 q1 l1 (a :: l2) gone pgone -> processes (sched k1) !! a = Some x1 -> p_id x1 <> root -> in_tree k1 root x1 <-> parent_process_id x1 = root.
Proof.
  intros Hw Hx1 Hne. pose proof mark_post as (_ & _ & _ & K0). pose proof Hw as [K1 G _ Hpg]. split; [|intros E; right; rewrite E; constructor]. intros [E|Hl]; [done|].
  destruct (leads_top k1 q1 _ root K1 _ Hl) as [E|(b & y & Hy & Ep & Hle)]; [done|exfalso]. pose proof (pr_ok _ _ _ _ _ _ _ (ki_processes _ _ _ _ K1) a x1 Hx1) as [_ Hlt _].
  assert (by_id k1 (filter (fun a => child a = false) l1 ++ a :: l2)) as Hord.
  { eapply (by_id_grows _ _ marked q ps); [done|exact K1|exact G|]. apply (by_id_sublist k marked ps ps Hs); [done|]. intros d Hd. destruct (process_here _ _ _ (ki_processes _ _ _ _ Hk) d Hd) as [z Hz].
    unfold id_of. rewrite (marked_lookup d z Hz), Hz. by destruct (marks_launch d z). }
  pose proof (process_listed _ _ _ _ _ K1 Hy) as Hin. destruct (swept_here _ _ _ _ _ _ _ _ Hw Hy) as (z & Hz & _ & _ & Eiff). apply elem_of_app in Hin as [[Hch _]%list_elem_of_filter|[->|Hin]%elem_of_cons].
  - unfold child in Hch. rewrite Hz in Hch. apply Z.eqb_neq in Hch. tauto.
  - rewrite Hx1 in Hy. injection Hy as <-. lia.
  - pose proof (by_id_later _ _ _ _ _ Hord Hin) as Hlt'. unfold id_of in Hlt'. rewrite Hx1, Hy in Hlt'. lia.
Qed.

(** The children of the root are gone with their threads; all others stay, those in
    the tree marked. *)
Record pruned (k' : Kern) : Prop := {
  pn_inv : exists q', kinv k' q' (filter (fun a => child a = false) ps) [] /\ by_id k' (filter (fun a => child a = false) ps);
  pn_children a x : processes (sched k) !! a = Some x -> parent_process_id x = root ->
    processes (sched k') !! a = None /\ forall t ru, threads (sched k) !! t = Some ru -> t_parent ru = Some a -> threads (sched k') !! t = None;
  pn_others a x : processes (sched k) !! a = Some x -> parent_process_id x <> root ->
    exists x', processes (sched k') !! a = Some x' /\ (in_tree k root x -> lasts (mark_for_exit code x) x') /\ (~ in_tree k root x -> lasts x x')
}.

Definition doomed (exempt : Z) (p : Z) : K bool :=
  let* inside := compute (process_is_in_tree p root) in
  let* x := kprocess p in
  kret (inside && negb (p_id x =? exempt) && negb (object_has_flag (flags (p_header x)) FlagPermanent)).

Lemma doomed_child k1 q1 l1 l2 gone pgone a : swept marked q child k1 q1 l1 (a :: l2) gone pgone -> doomed root a k1 = KDone (child a) k1.
Proof.
  intros Hw. pose proof Hw as [K1 G _ _]. destruct (process_here _ _ _ (ki_processes _ _ _ _ K1) a) as [x1 Hx1]; [set_solver|]. destruct (process_is_in_tree_ok k1 q1 _ root K1 root_nonzero a x1 Hx1) as (b & Hrun & Hb).
  unfold doomed. rewrite (kseq_compute _ _ k1 b) by done. rewrite (kseq_process a x1) by done. unfold kret. f_equal. destruct (swept_here _ _ _ _ _ _ _ _ Hw Hx1) as (x & Hx & L & E1 & E2). unfold child. rewrite Hx.
  destruct (Z.eqb_spec (p_id x1) root) as [Er|Hne]; cbn [negb].
  - rewrite andb_false_r. cbn. symmetry. apply Z.eqb_neq. pose proof (pr_ok _ _ _ _ _ _ _ (ki_processes _ _ _ _ Hk) a x Hx) as [_ Hlt _]. lia.
  - rewrite andb_true_r. pose proof (swept_tree _ _ _ _ _ _ _ _ Hw Hx1 Hne) as Ht. destruct (Z.eqb_spec (parent_process_id x) root) as [Ep|Hnp].
    + rewrite (proj2 Hb) by tauto. destruct (lasts_fields _ _ L) as (Eh & _). destruct (marks_fields a x) as [_ Emh]. rewrite Eh, Emh, (Hperm a x Hx); [done|]. right. rewrite Ep. constructor.
    + destruct b; [|done]. exfalso. apply Hnp, E2, Ht, Hb. done.
Qed.

Lemma child_free k1 q1 l1 l2 gone pgone a t ru :
  swept marked q child k1 q1 l1 (a :: l2) gone pgone -> child a = true -> threads (sched k1) !! t = Some ru -> t_parent ru = Some a -> g_current_thread (sched k1) <> Some t /\ g_idle_thread (sched k1) <> Some t.
Proof.
  intros Hw Hch Ht Hp. pose proof Hw as [K1 G Hgone _]. split.
  - rewrite (de_current _ _ _ _ _ (kg_sched _ _ _ _ _ _ G)). change (g_current_thread (sched k) <> Some t). rewrite Hc. intros [= ->].
    destruct (member_before _ _ _ _ _ _ t ru a G) as (r0 & H0 & Hp0); [intros u Hu; by apply Hgone|done|done|]. change (threads (sched k) !! t = Some r0) in H0. assert (a = cur) as -> by congruence. unfold child in Hch. destruct (processes (sched k) !! cur) as [y|] eqn:Hy; [|done]. apply Z.eqb_eq in Hch. by apply (Hout y).
  - intros Hi. destruct (process_here _ _ _ (ki_processes _ _ _ _ K1) a) as [x1 Hx1]; [set_solver|]. pose proof (ki_idle _ _ _ _ K1 t ru a x1 Hi Ht Hp Hx1) as Hfl.
    destruct (swept_here _ _ _ _ _ _ _ _ Hw Hx1) as (x & Hx & L & _). unfold child in Hch. rewrite Hx in Hch. apply Z.eqb_eq in Hch. destruct (lasts_fields _ _ L) as (Eh & _). destruct (marks_fields a x) as [_ Emh].
    rewrite Eh, Emh, (Hperm a x Hx) in Hfl; [done|]. right. rewrite Hch. constructor.
Qed.

Lemma swept_pruned k1 q1 gone pgone : swept marked q child k1 q1 ps [] gone pgone -> pruned k1.
Proof.
  intros Hw. pose proof mark_post as (_ & _ & _ & K0). pose proof Hw as [K1 G Hgone Hpg]. rewrite app_nil_r in K1.
  assert (forall a, child a = true -> processes (sched k1) !! a = None) as Hdead.
  { intros a Ha. destruct (processes (sched k1) !! a) as [x|] eqn:Hx; [|done]. pose proof (process_listed _ _ _ _ _ K1 Hx) as Hin. apply list_elem_of_filter in Hin as [Hn _]. congruence. }
  split.
  - exists q1. split; [done|]. eapply (by_id_grows _ _ marked q ps); [done|exact K1|exact G|]. apply (by_id_sublist k marked ps ps Hs); [done|]. intros d Hd. destruct (process_here _ _ _ (ki_processes _ _ _ _ Hk) d Hd) as [z Hz].
    unfold id_of. rewrite (marked_lookup d z Hz), Hz. by destruct (marks_launch d z).
  - intros a x Hx Ep. assert (child a = true) as Ha by (unfold child; rewrite Hx, Ep; apply Z.eqb_refl). split; [by apply Hdead|]. intros t ru Hru Hp. destruct (threads (sched k1) !! t) as [r1|] eqn:Hr1; [|done]. exfalso.
    destruct (departs_back _ _ _ _ _ t r1 (kg_sched _ _ _ _ _ _ G) Hr1) as (r0 & H0 & Gr); [intros Hin; destruct (Hgone t Hin); congruence|]. change (threads (sched k) !! t = Some r0) in H0.
    assert (t_parent r1 = Some a) as Hp1 by (rewrite (thread_grows_parent _ _ _ _ Gr); congruence). destruct (ok_parent _ _ _ (inv_threads _ _ (ki_sched _ _ _ _ K1) t r1 Hr1) a Hp1) as (y & Hy & _). by rewrite (Hdead a Ha) in Hy.
  - intros a x Hx Hnp. destruct (swept_lasts _ _ _ _ _ _ _ _ _ _ a (marks a x) K0 Hre Hw (marked_lookup a x Hx)) as (x' & Hx' & L).
    { intros Hin. destruct (Hpg a Hin) as [Hch _]. unfold child in Hch. rewrite Hx in Hch. by apply Z.eqb_eq in Hch. }
    exists x'. split; [done|]. unfold marks in L. pose proof (tree_flag_ok a x Hx) as Hf. destruct (tree_flag k root a); split; intros Hin; try done; [by destruct Hin; apply Hf|apply Hf in Hin; done].
Qed.

Lemma terminate_tree_post : kpost outside (terminate_process_tree root code root k) (fun st k' => st = StatusOK /\ pruned k').
Proof.
  pose proof mark_post as (n & Hn & Hmark & K0). pose proof (process_listed _ _ _ _ _ Hk Hr) as Hin. unfold terminate_process_tree.
  rewrite (kseq_compute _ _ k (Some r)) by (rewrite <- Hid; by apply (find_process_here _ _ _ (ki_processes _ _ _ _ Hk))). rewrite (kseq_process r xr) by done. rewrite (Hperm r xr Hr) by (by left).
  rewrite (kseq_done _ _ _ _ _ Hmark). rewrite (proj2 (Z.eqb_neq n 0) Hn), !kseq_read. pose proof (pr_list _ _ _ _ _ _ _ (ki_processes _ _ _ _ K0)) as Hd. pose proof Hd as (_ & _ & Eh & _). rewrite Eh.
  change (kpost outside ((sweep (S (size (processes (sched marked)))) (doomed root) (first ps None) >; kret StatusOK) marked) (fun st k' => st = StatusOK /\ pruned k')).
  eapply kpost_seq; [apply (sweep_post marked q child (doomed root) Hre) with (l1 := []) (gone := []) (pgone := []) (q := q)|].
  - intros k1 q1 l1 l2 gone pgone a. apply doomed_child.
  - intros k1 q1 l1 l2 gone pgone a t ru. apply child_free.
  - split; [done|apply kgrows_refl|by intros t Ht%not_elem_of_nil|by intros a Ha%not_elem_of_nil].
  - pose proof (dlist_length (H := process_links) _ _ _ _ Hd). lia.
  - intros [] k1 (q1 & gone & pgone & Hw). apply kpost_ret. split; [done|]. by eapply swept_pruned.
Qed.
End Tree.
