(* ===== verification/LifeSystem.v ===== *)
(** Any sequence of requests to the managers of objects, processes and threads. *)
From stdpp Require Import base list gmap sorting.
From Stdlib Require Import ZArith Lia.
From S2P Require Import Prelude KernelText DList KernelIface SchedState Scheduler SchedQueues SchedOps SchedInv SchedLogic ThreadRegistry HeapList LifeState Lifecycle LifeInv LifeChanges LifeDestroy LifeEnd LifeMake LifeCalls LifeTree.

Local Open Scope Z_scope.

(** ** Looking objects up *)
Lemma header_live k o : live k o -> exists h, header_at o k = Ok h.
Proof.
  unfold header_at, live. intros [[r ->]|[[x Hx]|[h Hh]]]; [by eauto|..]; destruct (threads (sched k) !! o); [by eauto| |by eauto|]; [rewrite Hx; by eauto|].
  destruct (processes (sched k) !! o); [by eauto|]. rewrite Hh. by eauto.
Qed.

Lemma find_object_from type id k (l1 l2 : list Z) fuel :
  registered k -> holds (g_objects k) (l1 ++ l2) -> (length l2 < fuel)%nat ->
  exists found, iterate fuel (find_object_step type id k) (len l1) = Ok found /\
    forall o, found = Some o -> o ∈ l2 /\ exists h, header_at o k = Ok h /\ SchedState.type h = type /\ SchedState.object_id h = id.
Proof.
  intros Hreg. revert l1 fuel. induction l2 as [|o l2 IH]; intros l1 fuel Hh Hf; (destruct fuel as [|fuel]; [cbn in Hf; lia|]); cbn [iterate]; unfold find_object_step at 1; rewrite (ho_count _ _ Hh), length_app; cbn [length].
  - destruct (Z.ltb_spec (len l1) (Z.of_nat (length l1 + 0))); [lia|]. cbn [negb]. rewrite bind_ok. exists None. by split.
  - destruct (Z.ltb_spec (len l1) (Z.of_nat (length l1 + S (length l2)))); [|lia]. cbn [negb].
    rewrite (item_ok _ _ _ o Hh) by (by apply list_lookup_middle). rewrite bind_ok.
    destruct (header_live k o) as [h Hhd]; [apply (rg_live _ Hreg (l1 ++ o :: l2)); [done|set_solver]|]. rewrite Hhd, !bind_ok.
    destruct ((SchedState.type h =? type) && (SchedState.object_id h =? id)) eqn:E.
    + exists (Some o). split; [done|]. intros ? [= <-]. apply andb_true_iff in E as [E1%Z.eqb_eq E2%Z.eqb_eq]. split; [apply list_elem_of_here|]. by exists h.
    + pose proof (holds_room _ _ Hh) as Hroom. pose proof (ho_size _ _ Hh). rewrite length_app in Hroom. cbn [length] in Hroom. rewrite u64_small by lia. replace (len l1 + 1) with (len (l1 ++ [o])) by (rewrite length_app; cbn; lia).
      destruct (IH (l1 ++ [o]) fuel) as (found & Hrun & Hfound); [by rewrite <- app_assoc|cbn in Hf; lia|]. exists found. split; [done|]. intros o' Ho'. destruct (Hfound o' Ho') as [Hin Hhd']. split; [by right|done].
Qed.

Lemma find_object_ok type id k q ps :
  kinv k q ps [] -> exists found, find_object type id k = Ok found /\
    forall o, found = Some o -> live k o /\ exists h, header_at o k = Ok h /\ SchedState.type h = type /\ SchedState.object_id h = id.
Proof.
  intros Hk. destruct (ki_objects _ _ _ _ Hk) as [l [O1 _ _ _]]. pose proof (holds_room _ _ O1) as Hr. rewrite (ho_capacity _ _ O1) in Hr.
  destruct (find_object_from type id k [] l (S (length (m_storage (g_objects k)))) (ki_registered _ _ _ _ Hk) O1 ltac:(lia)) as (found & Hrun & Hf).
  exists found. split; [done|]. intros o Ho. destruct (Hf o Ho) as [Hin Hh]. split; [by apply (rg_live _ (ki_registered _ _ _ _ Hk) l)|done].
Qed.

(** ** The header of an object *)
Lemma kinv_other k q ps limbo o h : kinv k q ps limbo -> is_Some (other_objects k !! o) -> kinv (with_other_objects (<[o := h]> (other_objects k)) k) q ps limbo.
Proof.
  intros Hk Ho. split; life_cbn; try apply Hk. destruct (ki_registered _ _ _ _ Hk) as [G1 G2].
  assert (forall a, is_Some (<[o := h]> (other_objects k) !! a) <-> is_Some (other_objects k !! a)) as E.
  { intros a. destruct (decide (a = o)) as [->|Hne]; [rewrite lookup_insert_eq; split; [done|by eauto]|by rewrite lookup_insert_ne]. }
  split; [|intros a Ha; apply G2; by apply E]. intros l a Hl Ha. destruct (G1 l a Hl Ha) as [H|[H|H]]; [by left|right; by left|right; right; by apply E].
Qed.

(** The same but for the headers of objects. *)
Record reheaded (k k' : Kern) : Prop := {
  rh_current : g_current_thread (sched k') = g_current_thread (sched k);
  rh_idle : g_idle_thread (sched k') = g_idle_thread (sched k);
  rh_thread t r' : threads (sched k') !! t = Some r' -> exists r, threads (sched k) !! t = Some r /\ t_parent r' = t_parent r;
  rh_threads t : is_Some (threads (sched k') !! t) <-> is_Some (threads (sched k) !! t);
  rh_process a : (p_id <$> processes (sched k') !! a) = (p_id <$> processes (sched k) !! a)
}.

Lemma reheaded_ids k k' a : reheaded k k' -> id_of k' a = id_of k a.
Proof. intros H. pose proof (rh_process _ _ H a) as E. unfold id_of. destruct (processes (sched k') !! a), (processes (sched k) !! a); cbn in E; by simplify_eq. Qed.

Lemma set_header_ok k q ps o h h' :
  kinv k q ps [] -> header_at o k = Ok h -> flags h' = flags h -> exists k', set_header o h' k = Ok k' /\ kinv k' q ps [] /\ reheaded k k' /\ header_at o k' = Ok h'.
Proof.
  intros Hk Hh Hf. unfold header_at, set_header in *. destruct (threads (sched k) !! o) as [r|] eqn:Hr; [|destruct (processes (sched k) !! o) as [x|] eqn:Hx; [|destruct (other_objects k !! o) as [g|] eqn:Ho; [|done]]]; injection Hh as <-.
  - rewrite (thread_set_ok o r) by done. rewrite bind_ok. eexists. split; [done|]. split_and!; [apply kinv_threads; [done|by eapply keeps_insert..]| |life_cbn; by rewrite lookup_insert_eq].
    split; life_cbn; try done.
    + intros t r' Ht. apply lookup_insert_Some in Ht as [[<- <-]|[_ Ht]]; [by exists r|by exists r'].
    + intros t. destruct (decide (t = o)) as [->|Hne]; [rewrite lookup_insert_eq, Hr; split; by eauto|by rewrite lookup_insert_ne].
  - unfold set_process, get_process. rewrite Hx, !bind_ok. eexists. split; [done|]. split_and!; [|split; life_cbn; try done; [intros t r Hr'; by exists r|]|life_cbn; by rewrite Hr, lookup_insert_eq].
    + replace k with (with_blocks (blocks k) k) at 3 by (by destruct k). eapply kinv_process_owns; try done; [apply (pr_ok _ _ _ _ _ _ _ (ki_processes _ _ _ _ Hk) o x Hx)|].
      eapply (owns_perm k); [|done|apply Hk]. unfold owned. life_cbn. by erewrite launch_update.
    + intros a. destruct (decide (a = o)) as [->|Hne]; [by rewrite lookup_insert_eq, Hx|by rewrite lookup_insert_ne].
  - eexists. split; [done|]. split_and!; [apply kinv_other; [done|by eauto]|split; try done; intros t r Ht; by exists r|]. life_cbn. by rewrite Hr, Hx, lookup_insert_eq.
Qed.

(** ** The order of the list is kept *)
Definition consistent (k : Kern) : Prop := exists q ps, kinv k q ps [] /\ by_id k ps.

Lemma by_id_same k k' ps : by_id k ps -> (forall a, a ∈ ps -> id_of k' a = id_of k a) -> by_id k' ps.
Proof. intros Hs He. by apply (by_id_sublist k k' ps ps). Qed.

Lemma consistent_grows gone pgone k q ps k' q' ps' : kinv k q ps [] -> by_id k ps -> kinv k' q' ps' [] -> kgrows gone pgone k q k' q' -> consistent k'.
Proof. intros Hk Hs Hk' G. exists q', ps'. split; [done|]. exact (by_id_grows _ _ _ _ _ _ _ _ Hk Hk' G Hs). Qed.

Lemma consistent_reheaded k q ps k' : kinv k' q ps [] -> by_id k ps -> reheaded k k' -> consistent k'.
Proof. intros Hk Hs H. exists q, ps. split; [done|]. apply (by_id_same k); [done|]. intros a _. by apply reheaded_ids. Qed.

Lemma made_by_id k q ps user name p k' : kinv k q ps [] -> by_id k ps -> process_made k q ps user name p k' -> consistent k'.
Proof.
  intros Hk Hs [_ (x' & Hx' & Eid & _) (k1 & q' & ps' & K1 & _ & Hold & K' & G)]. apply (consistent_grows [] [] k1 q (ps ++ [p]) k' q' ps'); [done| |done|done].
  assert (forall a, a ∈ ps -> id_of k1 a = id_of k a) as He.
  { intros a Ha. destruct (process_here _ _ _ (ki_processes _ _ _ _ Hk) a Ha) as [x Hx]. destruct (Hold a x Hx) as (y & Hy & E). unfold id_of. rewrite Hx, Hy. exact (f_equal p_id E). }
  assert (id_of k1 p = next_pid k) as Ep. { destruct (de_process _ _ _ _ _ (kg_sched _ _ _ _ _ _ G) p x' Hx') as (x & Hx & E & _). unfold id_of. rewrite Hx. congruence. }
  apply StronglySorted_app. split_and!; [|by apply (by_id_same k)|by repeat constructor].
  intros a b Ha ->%list_elem_of_singleton. rewrite Ep, He by done. destruct (process_here _ _ _ (ki_processes _ _ _ _ Hk) a Ha) as [x Hx]. unfold id_of. rewrite Hx. apply (pr_ok _ _ _ _ _ _ _ (ki_processes _ _ _ _ Hk) a x Hx).
Qed.

Lemma outcome_consistent k q ps p good res k' : kinv k q ps [] -> by_id k ps -> g_next_thread_id (sched k) + 1 < 2 ^ 64 -> thread_outcome k q ps p good res k' -> consistent k'.
Proof.
  intros Hk Hs Hn. destruct res as [st [t|]]; cbn.
  - intros (_ & r & _ & [_ _ (k1 & q' & ps' & K1 & _ & Hold & K & G)]). eapply (consistent_grows [] [] k1); [exact K1| |exact K|exact G]. apply (by_id_same k); [done|].
    intros a Ha. destruct (process_here _ _ _ (ki_processes _ _ _ _ Hk) a Ha) as [x Hx]. destruct (Hold a x Hx) as (y & Hy & L). destruct (lasts_fields _ _ L) as (_ & E & _). unfold id_of. by rewrite Hx, Hy.
  - intros (_ & [-> | ->]); [by exists q, ps|]. exists q, ps. split; [by apply kinv_id_taken|]. by apply (by_id_same k).
Qed.

(** ** Destruction through the header *)
Definition may_leave_all (k : Kern) (q : Queues) (p : Z) : Prop := forall t r, threads (sched k) !! t = Some r -> t_parent r = Some p -> may_go k q t.

(** The header says what the object is. *)
Definition well_typed (k : Kern) (o : Z) (h : ObjectHeader) : Prop :=
  (is_Some (threads (sched k) !! o) -> SchedState.type h = ObjectTypeThread) /\ (is_Some (processes (sched k) !! o) -> SchedState.type h = ObjectTypeProcess).

Lemma destroy_thread_any k q ps t :
  kinv k q ps [] -> by_id k ps -> (forall a, t = Some a -> is_Some (threads (sched k) !! a) -> may_go k q a) -> kpost outside (destroy_thread t k) (fun _ k' => consistent k').
Proof.
  intros Hk Hs Hgo. destruct t as [t|]; [destruct (threads (sched k) !! t) as [r|] eqn:Hr|].
  2: { unfold destroy_thread. rewrite (destroy_thread_unknown _ k q ps); [by exists q, ps|done|by intros ? [= <-]]. }
  2: { unfold destroy_thread. rewrite (destroy_thread_unknown _ k q ps); [by exists q, ps|done|done]. }
  eapply kpost_mono; [|apply (destroy_thread_post k q ps t r); [done|done|by apply Hgo; eauto]]. intros st k' (_ & q' & ps' & K & G & _). exact (consistent_grows _ _ _ _ _ _ _ _ Hk Hs K G).
Qed.

Lemma destroy_process_any k q ps p :
  kinv k q ps [] -> by_id k ps -> (forall a, p = Some a -> may_leave_all k q a) -> kpost outside (destroy_process p k) (fun _ k' => consistent k').
Proof.
  intros Hk Hs Hgo. destruct p as [p|]; [destruct (processes (sched k) !! p) as [x|] eqn:Hx|].
  2: { rewrite (destroy_process_unknown k q ps); [by exists q, ps|done|by intros ? [= <-]]. }
  2: { rewrite (destroy_process_unknown k q ps); [by exists q, ps|done|done]. }
  destruct (ki_members _ _ _ _ Hk p x Hx) as [l Hl]. eapply kpost_mono; [|apply (destroy_process_post k q ps p x l); [done|done|done|]].
  - intros st k' [_ [(q' & ps' & K & G) _ _ _]]. exact (consistent_grows _ _ _ _ _ _ _ _ Hk Hs K G).
  - intros t Ht. apply (mb_all _ _ _ _ Hl) in Ht as (r & Hr & Hpar). by eapply (Hgo p eq_refl).
Qed.

Lemma destroy_object_post k q ps o h :
  kinv k q ps [] -> by_id k ps -> header_at o k = Ok h -> well_typed k o h -> (is_Some (threads (sched k) !! o) -> may_go k q o) -> may_leave_all k q o ->
  kpost outside (destroy_object o k) (fun _ k' => consistent k').
Proof.
  intros Hk Hs Hh [Ht Hp] Hgo Hall. unfold destroy_object. rewrite (kseq_compute _ _ k h) by done.
  destruct (Z.eqb_spec (SchedState.type h) ObjectTypeProcess) as [E1|E1]; [|destruct (Z.eqb_spec (SchedState.type h) ObjectTypeThread) as [E2|E2]; [|destruct (Z.eqb_spec (SchedState.type h) ObjectTypeModule) as [E3|E3]]].
  - eapply kpost_seq; [apply (destroy_process_any k q ps); [done|done|by intros ? [= <-]]|]. by intros st k' H.
  - eapply kpost_seq; [apply (destroy_thread_any k q ps); [done|done|by intros ? [= <-]]|]. by intros st k' H.
  - cbn [kcall kpost]. split; [by exists q, ps, []|]. intros [] k' F. exists q, ps. split; [by apply (kinv_frames None k q ps [] k')|]. apply (by_id_same k); [done|]. intros a Ha.
    destruct F as [(m & Es & _ & Hm) _ _ _ _ _]. destruct (process_here _ _ _ (ki_processes _ _ _ _ Hk) a Ha) as [x Hx]. destruct (Hm a x Hx) as (x' & Hx' & E & _). unfold id_of. rewrite Es. cbn. by rewrite Hx', Hx, E.
  - assert (threads (sched k) !! o = None) as Hnt by (destruct (threads (sched k) !! o); [by destruct E2; apply Ht|done]). assert (processes (sched k) !! o = None) as Hnp by (destruct (processes (sched k) !! o); [by destruct E1; apply Hp|done]).
    apply (unregister_post k q ps [] o); [done|done| |]; [intros Hin; destruct (process_here _ _ _ (ki_processes _ _ _ _ Hk) o Hin); congruence|]. intros st g K1 _. unfold header_at in Hh. rewrite Hnt, Hnp in Hh.
    unfold kchange, kexec, set_header. life_cbn. rewrite Hnt, Hnp. destruct (other_objects k !! o) eqn:Ho; [|done]. rewrite bind_ok. cbn [kpost]. exists q, ps. split; [|by apply (by_id_same k)].
    apply (kinv_other (with_g_objects g k) q ps [] o zero_header K1). change (is_Some (other_objects k !! o)). by rewrite Ho.
Qed.

(** ** Requests *)
Inductive Request : Type :=
| CreateProcess (name : option (list Z)) (user_process out_process : bool)
| CreateThread (parent : option Z) (name : option (list Z)) (entry_point : Z) (out_thread : bool) (base_priority quantum_ticks : Z)
| CreateUserThread (parent : option Z) (name : option (list Z)) (entry_point user_stack_top : Z) (out_thread : bool) (base_priority quantum_ticks : Z)
| DestroyOneThread (thread : option Z)
| DestroyProcess (process : option Z)
| TerminateThread (thread_id : Z)
| TerminateProcess (id code : Z)
| ReapExiting
| ConsumeExitStatus (id parent_id : Z) (exit_code_out : bool)
| FindProcess (id : Z)
| FindObject (type object_id : Z)
| TerminateTree (root_id code exempt_process_id : Z)
| ReferenceObject (object : option Z)
| DereferenceObject (object : option Z).

(** The status and what was stored or returned. *)
Definition serve (r : Request) : K (Status * option Z) :=
  match r with
  | CreateProcess name user_process out => create_process_with_mode name user_process out
  | CreateThread parent name entry out priority quantum => create_thread parent name entry out priority quantum
  | CreateUserThread parent name entry top out priority quantum => create_user_thread parent name entry top out priority quantum
  | DestroyOneThread t => let* st := destroy_thread t in kret (st, None)
  | DestroyProcess p => let* st := destroy_process p in kret (st, None)
  | TerminateThread id => let* st := terminate_thread id in kret (st, None)
  | TerminateProcess id code => let* st := terminate_process id code in kret (st, None)
  | ReapExiting => let* st := reap_exiting in kret (st, None)
  | ConsumeExitStatus id parent out => consume_exit_status id parent out
  | FindProcess id => let* p := compute (find_process id) in kret (StatusOK, p)
  | FindObject type id => let* o := compute (find_object type id) in kret (StatusOK, o)
  | TerminateTree root code exempt => let* st := terminate_process_tree root code exempt in kret (st, None)
  | ReferenceObject o => let* st := reference_object o in kret (st, None)
  | DereferenceObject o => let* st := dereference_object o in kret (st, None)
  end.

Definition u32_range (n : Z) : Prop := 0 <= n < 2 ^ 32.

Definition spawn_allowed (k : Kern) (parent : option Z) (name : option (list Z)) (priority quantum : Z) : Prop :=
  (forall p, parent = Some p -> is_Some (processes (sched k) !! p)) /\ short_text name /\ u32_range priority /\ u32_range quantum /\ g_next_thread_id (sched k) + 1 < 2 ^ 64.

(** What a caller owes: pointers it passes are valid, identifiers have not run out, and
    what it has destroyed neither runs, nor idles, nor waits to be reaped. *)
Definition allowed (k : Kern) (q : Queues) (r : Request) : Prop :=
  match r with
  | CreateProcess name _ _ => short_text name /\ next_pid k + 1 < 2 ^ 64
  | CreateThread parent name _ _ priority quantum | CreateUserThread parent name _ _ _ priority quantum => spawn_allowed k parent name priority quantum
  | DestroyOneThread thread => forall t, thread = Some t -> is_Some (threads (sched k) !! t) -> may_go k q t
  | DestroyProcess process => forall p, process = Some p -> may_leave_all k q p
  | TerminateThread id => forall t r, threads (sched k) !! t = Some r -> t_id r = id -> may_go k q t
  | TerminateProcess id _ => forall p x, processes (sched k) !! p = Some x -> p_id x = id -> may_leave_all k q p
  | ReapExiting => retired q = [] /\ exists c r p, g_current_thread (sched k) = Some c /\ threads (sched k) !! c = Some r /\ t_parent r = Some p
  | ConsumeExitStatus _ _ _ | FindProcess _ | FindObject _ _ => True
  | TerminateTree root _ exempt => exempt = root /\ retired q = [] /\
      (forall a x, processes (sched k) !! a = Some x -> in_tree k root x -> object_has_flag (flags (p_header x)) FlagPermanent = false) /\
      exists c r p, g_current_thread (sched k) = Some c /\ threads (sched k) !! c = Some r /\ t_parent r = Some p /\ forall x, processes (sched k) !! p = Some x -> parent_process_id x <> root
  | ReferenceObject object => forall o, object = Some o -> live k o
  | DereferenceObject object => forall o, object = Some o -> live k o /\ forall h, header_at o k = Ok h -> well_typed k o h /\
      (ref_count h = 1 -> (is_Some (threads (sched k) !! o) -> may_go k q o) /\ may_leave_all k q o)
  end.

Lemma spawn_refused parent out badly_placed priority quantum spawn k : parent = None \/ out = false -> spawn_checks parent out badly_placed priority quantum spawn k = KDone (StatusInvalidArgument, None) k.
Proof. intros [->| ->]; [done|]. by destruct parent. Qed.

Lemma reference_post k q ps o : kinv k q ps [] -> by_id k ps -> live k o -> kpost outside (reference_object (Some o) k) (fun _ k' => consistent k').
Proof.
  intros Hk Hs Hl. destruct (header_live k o Hl) as [h Hh]. unfold reference_object. rewrite (kseq_compute _ _ k h) by done.
  destruct (set_header_ok k q ps o h (with_ref_count (u64 (ref_count h + 1)) h) Hk Hh eq_refl) as (k' & Hrun & K' & H & _). rewrite (kseq_change _ _ k k') by done. apply kpost_ret. by eapply consistent_reheaded.
Qed.

Lemma dereference_post k q ps o :
  kinv k q ps [] -> by_id k ps -> live k o ->
  (forall h, header_at o k = Ok h -> well_typed k o h /\ (ref_count h = 1 -> (is_Some (threads (sched k) !! o) -> may_go k q o) /\ may_leave_all k q o)) ->
  kpost outside (dereference_object (Some o) k) (fun _ k' => consistent k').
Proof.
  intros Hk Hs Hl Ha. assert (consistent k) as Hc by (by exists q, ps). destruct (header_live k o Hl) as [h Hh]. unfold dereference_object. rewrite (kseq_compute _ _ k h) by done. destruct (_ && _); [by apply kpost_ret|].
  unfold object_unref. destruct (ref_count h =? 0); [by apply kpost_ret|]. destruct (set_header_ok k q ps o h (with_ref_count (ref_count h - 1) h) Hk Hh eq_refl) as (k' & Hrun & K' & H & Hh'). rewrite (kseq_change _ _ k k') by done.
  destruct (Z.eqb_spec (ref_count h - 1) 0) as [E|_]; [|apply kpost_ret; by eapply consistent_reheaded]. destruct (Ha h Hh) as [[T1 T2] Hgo]. destruct Hgo as [Hg1 Hg2]; [lia|].
  assert (forall t, may_go k q t -> may_go k' q t) as Hmg by (intros t (M1 & M2 & M3); split_and!; [done|by rewrite (rh_current _ _ H)|by rewrite (rh_idle _ _ H)]).
  eapply kpost_seq; [apply (destroy_object_post k' q ps o (with_ref_count (ref_count h - 1) h) K')|intros [] k2 H2; by apply kpost_ret].
  - apply (by_id_same k); [done|]. intros a _. by apply reheaded_ids.
  - done.
  - split; [rewrite (rh_threads _ _ H); by apply T1|]. intros [x Hx]. apply T2. pose proof (rh_process _ _ H o) as E2. rewrite Hx in E2. by destruct (processes (sched k) !! o).
  - rewrite (rh_threads _ _ H). intros Hin. by apply Hmg, Hg1.
  - intros t r Hr Hp. destruct (rh_thread _ _ H t r Hr) as (r0 & Hr0 & E0). apply Hmg. apply (Hg2 t r0); [done|congruence].
Qed.

(** The calls that create. *)
Lemma create_any k q ps parent name badly_placed out priority quantum fallback make :
  kinv k q ps [] -> by_id k ps -> spawn_allowed k parent name priority quantum -> short_text (Some fallback) -> (0 <= priority < 32 -> maker make) ->
  kpost outside (spawn_checks parent out badly_placed priority quantum (fun p => spawn_thread p name fallback make) k) (fun _ k' => consistent k').
Proof.
  intros Hk Hs (Hp & Hname & Hpr & Hqu & Hroom) Hfall Hmk. assert (consistent k) as Hc by (by exists q, ps). destruct parent as [p|]; [destruct out|]; [|rewrite spawn_refused by auto; done..]. destruct (Hp p eq_refl) as [x Hx].
  eapply kpost_mono; [|by apply (spawn_checks_post k q ps p x)]. intros res k'. cbn beta. destruct (ill_spawned _ _ _); [by intros [_ ->]|by apply outcome_consistent].
Qed.

Lemma serve_post k q ps r : kinv k q ps [] -> by_id k ps -> allowed k q r -> kpost outside (serve r k) (fun _ k' => consistent k').
Proof.
  intros Hk Hs Ha. assert (consistent k) as Hc by (by exists q, ps). destruct r as [name user out|parent name entry out priority quantum|parent name entry top out priority quantum|t|p|id|id code| |id parent out|id|ty id|root code exempt|o|o]; cbn [serve allowed] in *.
  - destruct Ha as [Hname Hroom]. destruct out; [|by apply kpost_ret]. eapply kpost_mono; [|by apply (create_process_post k q ps)]. intros [st [p|]] k'; cbn.
    + intros (_ & Hm). by eapply made_by_id.
    + intros (_ & K & [E _]). exists q, ps. split; [done|]. unfold by_id, id_of. by rewrite E.
  - pose proof Ha as (_ & _ & ? & [? ?] & _). apply (create_any k q ps); [done|done|done|apply short_literal; [apply (bool_decide_unpack _); by vm_compute|by vm_compute]|done].
  - pose proof Ha as (_ & _ & ? & [? ?] & _). apply (create_any k q ps); [done|done|done|apply short_literal; [apply (bool_decide_unpack _); by vm_compute|by vm_compute]|done].
  - eapply kpost_seq; [by apply (destroy_thread_any k q ps)|]. by intros st k' H.
  - eapply kpost_seq; [by apply (destroy_process_any k q ps)|]. by intros st k' H.
  - eapply kpost_seq; [by apply (terminate_thread_post k q ps)|]. intros st k' [(_ & -> & _)|(_ & t & r & q' & ps' & _ & _ & K & G & _)]; apply kpost_ret; [done|]. exact (consistent_grows _ _ _ _ _ _ _ _ Hk Hs K G).
  - eapply kpost_seq; [apply (terminate_process_post k q ps); [done|]|].
    + intros p x members Hx Hid Hl t Ht. apply (mb_all _ _ _ _ Hl) in Ht as (r & Hr & Hpar). by eapply (Ha p x).
    + intros st k' [(_ & -> & _)|(_ & p & x & l & Hx & _ & _ & [(q' & ps' & K & G) _ _ _])]; apply kpost_ret; [done|]. eapply (consistent_grows _ _ (condemn p code x k)); [by apply condemn_kinv| |exact K|exact G].
      apply (by_id_same k); [done|]. intros a _. unfold id_of, condemn. cbn. destruct (decide (a = p)) as [->|Hne]; [by rewrite lookup_insert_eq, Hx|by rewrite lookup_insert_ne].
  - destruct Ha as (Hre & c & r & p & H1 & H2 & H3). eapply kpost_seq; [by apply (reap_exiting_post k q ps c r p)|]. intros st k' [_ [(q' & K) _ Hst]]. apply kpost_ret. eexists _, _. split; [exact K|].
    apply (by_id_sublist k k' ps); [done|apply sublist_filter|]. intros a [Hex Hin]%list_elem_of_filter. destruct (process_here _ _ _ (ki_processes _ _ _ _ Hk) a Hin) as [x Hx]. destruct (Hst a x Hx Hex) as (y & Hy & L).
    destruct (lasts_fields _ _ L) as (_ & E & _). unfold id_of. by rewrite Hx, Hy.
  - destruct out; [|by apply kpost_ret]. destruct (ki_records _ _ _ _ Hk) as [l [C1 _ _ _]]. destruct (decide (Exists (fun e => er_process_id e = id /\ er_parent_process_id e = parent) l)) as [He|He].
    + apply Exists_exists in He as (e & Hin & <- & <-). destruct (consume_found k q ps l e Hk C1 Hin) as (h & -> & K & _). cbn. exists q, ps. split; [done|]. by apply (by_id_same k).
    + rewrite (consume_missing k q ps l id parent Hk C1); [done|]. intros e Hin. destruct (decide (er_process_id e = id)); [right|by left]. intros E. apply He, Exists_exists. by exists e.
  - destruct (find_process_ok _ _ _ (ki_processes _ _ _ _ Hk) id) as (found & Hrun & _). rewrite (kseq_compute _ _ k found) by done. by apply kpost_ret.
  - destruct (find_object_ok ty id k q ps Hk) as (found & Hrun & _). rewrite (kseq_compute _ _ k found) by done. by apply kpost_ret.
  - destruct Ha as (-> & Hre & Hperm & c & r & p & H1 & H2 & H3 & H4). destruct (find_process_ok _ _ _ (ki_processes _ _ _ _ Hk) root) as (found & Hrun & Hf). destruct found as [a|].
    2: { unfold terminate_process_tree. apply kassoc. rewrite (kseq_compute _ _ k None) by done. rewrite kseq_ret. by apply kpost_ret. }
    destruct Hf as (_ & x & Hx & Hid). eapply kpost_seq; [by apply (terminate_tree_post k q ps root code a x c r p)|]. intros st k' [_ [(q' & K & K2) _ _]]. apply kpost_ret. by eexists _, _.
  - destruct o as [o|]; [|by apply kpost_ret]. eapply kpost_seq; [by apply (reference_post k q ps); [..|apply Ha]|]. by intros st k' H.
  - destruct o as [o|]; [|by apply kpost_ret]. destruct (Ha o eq_refl) as [H1 H2]. eapply kpost_seq; [by apply (dereference_post k q ps)|]. by intros st k' H.
Qed.

(** ** Sequences *)
Definition keeps_contract (h : Outside) : Prop := forall c k, k_ask outside c k -> exists x k', h c k = Ok (x, k') /\ k_reply outside c k x k'.

Inductive reaches (h : Outside) (k : Kern) : list Request -> Kern -> Prop :=
| Starts : reaches h k [] k
| Goes_on rs k1 r x k2 : reaches h k rs k1 -> (forall q, inv (sched k1) q -> allowed k1 q r) -> served h (serve r k1) = Ok (x, k2) -> reaches h k (rs ++ [r]) k2.

Lemma served_consistent h k r : keeps_contract h -> consistent k -> (forall q, inv (sched k) q -> allowed k q r) -> exists x k', served h (serve r k) = Ok (x, k') /\ consistent k'.
Proof. intros Hh (q & ps & Hk & Hs) Ha. eapply kpost_served; [exact Hh|]. eapply (serve_post k q ps); [done|done|]. apply Ha, Hk. Qed.

Lemma reaches_consistent h k rs k' : keeps_contract h -> consistent k -> reaches h k rs k' -> consistent k'.
Proof.
  intros Hh Hk Hr. induction Hr as [|rs k1 r x k2 _ IH Ha Hs]; [done|]. destruct (served_consistent h k1 r Hh IH Ha) as (x' & k3 & Hs' & H3). rewrite Hs in Hs'. by injection Hs' as _ <-.
Qed.
