(* ===== verification/LifeProps.v ===== *)
(** A kernel that has just started, for the examples: a handler of the calls that keeps
    the contract, and the state [bootstrap] leaves under it.

    What holds of the kernel's objects, processes and threads.

    The first two theorems are about whole systems: any sequence of requests, and the
    part of the scheduler's contract with the rest of the kernel that the manager of
    threads discharges.  The others say what single calls do. *)
From stdpp Require Import base list gmap sorting.
From Stdlib Require Import ZArith Lia Sorted.
From Stdlib Require Import ZArith Lia.
From S2P Require Import Prelude KernelText DList KernelIface SchedState Scheduler SchedQueues SchedOps SchedInv SchedLogic ThreadRegistry HeapList LifeState Lifecycle LifeInv LifeChanges LifeDestroy LifeEnd LifeMake LifeCalls LifeTree LifeSystem.

Local Open Scope Z_scope.

(** ** A handler *)

(** The heap hands out blocks above all others. *)
Definition fresh_block (k : Kern) : Z := 4096 + set_fold (fun x m => Z.max (x - 4096 + 16) m) 0 (blocks k ∪ dom (other_objects k)).
Definition some_space : AddressSpace := mkSpace 8192 None 0 0 0 0 0 0.

Definition plain : Outside := fun c k =>
  match c with
  | FromScheduler (Report _) => Ok (tt, k)
  | FromScheduler _ => Undef
  | HeapAlloc _ _ => let a := fresh_block k in Ok (Some a, with_blocks ({[a]} ∪ blocks k) k)
  | HeapRealloc old bytes =>
      if bytes <? 2 ^ 48 then let a := fresh_block k in Ok (Some a, with_blocks ({[a]} ∪ blocks k ∖ block_set old) k) else Ok (None, k)
  | HeapFree b => Ok (tt, with_blocks (blocks k ∖ {[b]}) k)
  | CreateUserAddressSpace p => s <- set_process p (with_process_address_space some_space) (sched k) ;; Ok (StatusOK, with_sched s k)
  | BootstrapAddressSpace => Ok (Some some_space, k)
  | _ => Ok (tt, k)
  end.

Lemma fresh_above (s : gset Z) x : x ∈ s -> x < 4096 + set_fold (fun x m => Z.max (x - 4096 + 16) m) 0 s.
Proof.
  revert x. apply (set_fold_ind_L (fun m s => forall x : Z, x ∈ s -> x < 4096 + m) (fun x m => Z.max (x - 4096 + 16) m)); [set_solver|].
  intros y s' m Hy IH x [->%elem_of_singleton|Hx]%elem_of_union; [lia|]. pose proof (IH x Hx). lia.
Qed.

Lemma fresh_unused k : unused k (fresh_block k).
Proof.
  assert (fresh_block k ∉ blocks k ∪ dom (other_objects k)) as Hn by (intros Hin; pose proof (fresh_above _ _ Hin); unfold fresh_block in *; lia).
  split; [set_solver|]. apply not_elem_of_dom. set_solver.
Qed.

Lemma frames_refl who k q ps limbo : kinv k q ps limbo -> frames who k k.
Proof.
  intros Hk. split; try done.
  - exists (processes (sched k)). split_and!; [by destruct (sched k)|done|]. intros p x Hx. by exists x.
  - intros l Hl Hn. exists l. split_and!; [done|done|done|]. intros o Ho. destruct (rg_live _ (ki_registered _ _ _ _ Hk) l o Hl Ho) as [H|[H|H]]; [left; by auto|left; by auto|by right].
  - apply (ki_registered _ _ _ _ Hk).
Qed.

Lemma kevolves_refl k : kevolves k k.
Proof. intros q ps Hk. exists q, ps. split; [done|apply kgrows_refl]. Qed.

Lemma plain_keeps_contract : keeps_contract plain.
Proof.
  intros c k Ha. pose proof (fresh_unused k) as [Hb Ho]. destruct c as [c|ty id name par code st fl sts|id|bytes al|old bytes|b|p base bytes|b|p|p| |p|p|p|p|p|o]; cbn [plain k_ask k_reply outside] in *.
  - destruct c as [e| | |]; try (by destruct Ha). destruct e; try (by destruct Ha). eexists _, _. split; [done|apply kevolves_refl].
  - eexists _, _. split; [done|apply kevolves_refl].
  - destruct Ha as (q & ps & p & x & Hk & _). eexists _, _. split; [done|by eapply frames_refl].
  - eexists _, _. by split.
  - destruct (Z.ltb_spec bytes (2 ^ 48)); [|by eexists _, _]. eexists _, _. split; [done|]. split_and!; [set_solver|done|done|done].
  - eexists _, _. by split.
  - destruct Ha as (q & ps & limbo & Hk). eexists _, _. split; [done|by eapply frames_refl].
  - destruct Ha as (q & ps & limbo & Hk). eexists _, _. split; [done|by eapply frames_refl].
  - destruct Ha as (q & ps & Hk). assert (is_Some (processes (sched k) !! p)) as [x Hx] by (apply (pr_all _ _ _ _ _ _ _ (ki_processes _ _ _ _ Hk)); right; apply list_elem_of_here).
    unfold set_process, get_process. rewrite Hx, !bind_ok. eexists _, _. split; [done|]. split; [by eapply frames_set|]. intros _. eexists. split; [apply lookup_insert_eq|done].
  - destruct Ha as (q & ps & Hk). eexists _, _. split; [done|by eapply frames_refl].
  - eexists _, _. split; [done|]. split; [done|]. by exists some_space.
  - destruct Ha as (q & ps & Hk). eexists _, _. split; [done|by eapply frames_refl].
  - destruct Ha as (q & ps & Hk). eexists _, _. split; [done|by eapply frames_refl].
  - destruct Ha as (q & ps & Hk). eexists _, _. split; [done|by eapply frames_refl].
  - destruct Ha as (q & ps & Hk). eexists _, _. split; [done|by eapply frames_refl].
  - destruct Ha as (q & ps & Hk). eexists _, _. split; [done|by eapply frames_refl].
  - destruct Ha as (q & ps & limbo & Hk). eexists _, _. split; [done|by eapply frames_refl].
Qed.

(** ** The kernel after [bootstrap] *)
Definition blank : Kern :=
  mkKern (snd (init (mkSched ∅ ∅ None None None [] 0 0 0 None None None None false None None 0 0 4096 some_space true))) None None 0 1 no_items no_items ∅ ∅.

Definition start : K Status := objects_init >; processes_init >; threads_init >; bootstrap 77 (ThreadEntry 5) 9999 (Some [107; 0]) None.

Definition padded (n : Z) (l : list Z) : list Z := l ++ replicate (Z.to_nat n - length l) 0.

Definition boot_thread : Thread :=
  with_process_next (Some 4144) (with_t_next (Some 4144) (with_t_parent (Some 4096)
    (mkThread (mkHeader 2 3 1 1) 1 (padded 32 [98; 111; 111; 116]) Running 16 16 1 1 false None (mkStacks 0 None 0 0 None 77) None 0 0
       (mkContext (KernelCode (ThreadEntry 5)) 0 0 zero_frame) None None None None None None None None))).
Definition idle_thread : Thread :=
  with_process_prev (Some 4128) (with_t_prev (Some 4128) (with_t_parent (Some 4096)
    (mkThread (mkHeader 2 3 2 1) 2 (padded 32 [105; 100; 108; 101]) Ready 31 31 1 1 false None (mkStacks 0 None 0 0 (Some 4160) 20544) None 0 0
       (mkContext (KernelCode (ThreadEntry 9999)) 0 0 zero_frame) None None None None None None None None))).
Definition kernel_process : Process :=
  mkProcess (mkHeader 1 3 1 1) 1 (padded 32 [107]) (replicate 260 0) None ProcessRunning (mkSpace 8192 None 1 0 0 0 0 0) None 0 None 0 None 0 0 0 0 0 0 None
    (Some 4128) (Some 4128) (Some 4144) 2 None 0 None None.

Definition boot_threads : gmap Z Thread := <[4128 := boot_thread]> (<[4144 := idle_thread]> ∅).
Definition boot_sched : Sched :=
  mkSched boot_threads {[ 4096 := kernel_process ]} (Some 4128) (Some 4096) (Some 4144) (replicate 32 (mkReadyQueue None None)) 0 0 0 None None None None false
    (Some 4128) (Some 4144) 2 3 4096 (mkSpace 8192 None 1 0 0 0 0 0) true.
Definition boot_objects : HeapList Z := mkHeapList (Some 4112) [Some 4096; Some 4128; Some 4144; None] 3 4.
Definition booted : Kern := mkKern boot_sched (Some 4096) (Some 4096) 1 2 no_items boot_objects ∅ {[4144; 4112; 4128; 4160; 4096]}.
Definition boot_queues : Queues := mkQueues (replicate 32 []) [] [] [4128; 4144].

Lemma start_boots : served plain (start blank) = Ok (StatusOK, booted).
Proof. vm_compute. reflexivity. Qed.

Lemma boot_forall (P : Z -> Thread -> Prop) : P 4128 boot_thread -> P 4144 idle_thread -> forall t r, boot_threads !! t = Some r -> P t r.
Proof. intros H1 H2 t r. unfold boot_threads. repeat (intros [[<- <-]|[_ H]]%lookup_insert_Some; [done|]; revert H). by rewrite lookup_empty. Qed.

Lemma boot_inv : inv boot_sched boot_queues.
Proof.
  split.
  - split; try done.
    + intros p Q l [-> _]%lookup_replicate [-> _]%lookup_replicate. split_and!; [apply NoDup_nil_2|done..].
    + intros p l t [-> _]%lookup_replicate Ht. by apply not_elem_of_nil in Ht.
    + intros t r Hr Hf. revert t r Hr Hf. by apply (boot_forall (fun t r => in_ready_queue r = true -> _)).
    + intros p l [-> _]%lookup_replicate. by rewrite Z.bits_0.
  - split; try done.
    + split_and!; [apply NoDup_nil_2|done..].
    + intros t r Ht. by apply not_elem_of_nil in Ht.
    + constructor.
    + intros t r Hr _. revert t r Hr. by apply boot_forall.
  - split; try done; [apply NoDup_nil_2|]. intros t r Ht. by apply not_elem_of_nil in Ht.
  - split.
    + split_and!; [repeat (apply list.NoDup_cons; split; [set_solver|]); apply NoDup_nil_2|split; [by eexists|split; [by eexists|done]]|done|done].
    + intros t. split.
      * intros [r Hr]. revert t r Hr. apply (boot_forall (fun t _ => t ∈ [4128; 4144])); set_solver.
      * intros Ht. apply elem_of_cons in Ht as [->|Ht]; [by eexists|]. apply list_elem_of_singleton in Ht as ->. by eexists.
    + intros t1 t2 r1 r2 H1 H2. revert t1 r1 H1. apply (boot_forall (fun t1 r1 => t_id r1 = t_id r2 -> t1 = t2)); revert t2 r2 H2; by apply (boot_forall (fun t r => _ = t_id r -> _ = t)).
  - apply (boot_forall (fun t r => thread_ok boot_sched t r)); (split; [done|done|apply (bool_decide_unpack _); by vm_compute|done|]; intros p [= <-]; by exists kernel_process).
  - exists 4128. split; [done|]. by exists boot_thread.
  - exists 4144, idle_thread. split_and!; [done|done|done|by left].
  - done.
  - by vm_compute.
Qed.

Lemma boot_process p x : processes boot_sched !! p = Some x -> p = 4096 /\ x = kernel_process.
Proof. cbn [boot_sched processes]. intros [<- <-]%lookup_singleton_Some. done. Qed.

Lemma booted_kinv : kinv booted boot_queues [4096] [].
Proof.
  split.
  - apply boot_inv.
  - split; try done.
    + split_and!; [apply NoDup_singleton|split; [by eexists|done]|done|done].
    + intros p. split.
      * intros [x [-> _]%boot_process]. left. apply list_elem_of_here.
      * intros [->%list_elem_of_singleton|H%not_elem_of_nil]; [by eexists|done].
    + intros p H. by apply not_elem_of_nil in H.
    + intros p x [-> ->]%boot_process. split; [done|done|]. apply (bool_decide_unpack _). by vm_compute.
    + intros p1 p2 x1 x2 [-> _]%boot_process [-> _]%boot_process. done.
    + intros p x _ [-> ->]%boot_process. done.
  - intros p x [-> ->]%boot_process. exists [4128; 4144]. split.
    + split_and!; [repeat (apply list.NoDup_cons; split; [set_solver|]); apply NoDup_nil_2|split; [by eexists|split; [by eexists|done]]|done|done].
    + intros t. split.
      * intros Ht. apply elem_of_cons in Ht as [->|Ht]; [by exists boot_thread|]. apply list_elem_of_singleton in Ht as ->. by exists idle_thread.
      * intros (r & Hr & _). revert t r Hr. apply (boot_forall (fun t _ => t ∈ [4128; 4144])); set_solver.
    + done.
    + apply list_elem_of_here.
  - intros p t r H. by apply not_elem_of_nil in H.
  - split; [done| |done]. by apply (boot_forall (fun t r => 0 < t_id r < 3)).
  - exists [4096; 4128; 4144]. split.
    + by split.
    + repeat (apply list.NoDup_cons; split; [set_solver|]). apply NoDup_nil_2.
    + intros t [r Hr]. revert t r Hr. apply (boot_forall (fun t _ => t ∈ [4096; 4128; 4144])); set_solver.
    + intros p ->%list_elem_of_singleton. apply list_elem_of_here.
  - exists []. split; [apply holds_none|apply NoDup_nil_2|..]; intros e; [intros p x|]; intros H; by apply not_elem_of_nil in H.
  - intros i r p x [= <-] _ _ [-> ->]%boot_process. done.
  - split; [apply (bool_decide_unpack _); by vm_compute|]. intros b.
    assert (list_to_set (owned booted) = blocks booted) as <- by (apply (bool_decide_unpack _); by vm_compute). by rewrite elem_of_list_to_set.
  - split.
    + intros l o Hl Ho. assert (l = [4096; 4128; 4144]) as -> by (eapply holds_unique; [exact Hl|by split]). unfold live.
      apply elem_of_cons in Ho as [->|Ho]; [right; left; by eexists|]. apply elem_of_cons in Ho as [->|Ho]; [left; by eexists|]. apply list_elem_of_singleton in Ho as ->. left. by eexists.
    + intros o [h Hh]. done.
Qed.

(** ** Programs that are running *)
Definition after (h : Outside) (r : Request) (k : Kern) : Kern := match served h (serve r k) with Ok (_, k') => k' | _ => k end.

Lemma after_consistent h r k : keeps_contract h -> consistent k -> (forall q, inv (sched k) q -> allowed k q r) -> consistent (after h r k).
Proof. intros Hh Hk Ha. destruct (served_consistent h k r Hh Hk Ha) as (x & k' & Hs & Hk'). unfold after. by rewrite Hs. Qed.

(** The loader makes a process and its thread and notes the launcher. *)
Definition launched_by (p n : Z) (k : Kern) : Kern :=
  match processes (sched k) !! p with Some x => with_sched (with_processes (<[p := with_parent_process_id n x]> (processes (sched k))) (sched k)) k | None => k end.

Definition launch (p n : Z) (k : Kern) : Kern :=
  launched_by p n (after plain (CreateUserThread (Some p) None 4096 8192 true 16 1) (after plain (CreateProcess None true true) k)).

Lemma launch_consistent p n k :
  consistent k -> next_pid k + 1 < 2 ^ 64 -> (let k1 := after plain (CreateProcess None true true) k in is_Some (processes (sched k1) !! p) /\ g_next_thread_id (sched k1) + 1 < 2 ^ 64) ->
  (forall x, processes (sched (after plain (CreateUserThread (Some p) None 4096 8192 true 16 1) (after plain (CreateProcess None true true) k))) !! p = Some x -> 0 <= n < p_id x) ->
  consistent (launch p n k).
Proof.
  intros Hk Hn [Hp Hid] Hx. unfold launch, launched_by. set (k1 := after plain _ k) in *. set (k2 := after plain _ k1) in *.
  assert (consistent k1) as K1 by (apply after_consistent; [apply plain_keeps_contract|done|by split]).
  assert (consistent k2) as K2.
  { apply after_consistent; [apply plain_keeps_contract|done|]. intros q _. split_and!; [by intros ? [= <-]|done|done|done|done]. }
  destruct (processes (sched k2) !! p) as [x|] eqn:E; [|done]. destruct K2 as (q & ps & K2 & S2). exists q, ps. split; [eapply kinv_launcher; [done|done|by apply Hx]|]. apply (by_id_same k2); [done|]. intros a _.
  unfold id_of. cbn. destruct (decide (a = p)) as [->|Hne]; [by rewrite lookup_insert_eq, E|by rewrite lookup_insert_ne].
Qed.

(** A program, one it launched, and one that one launched. *)
Definition crew1 : Kern := launch 4176 0 booted.
Definition crew2 : Kern := launch 4240 2 crew1.
Definition crew3 : Kern := launch 4288 3 crew2.

Lemma some_lookup {A} (m : gmap Z A) a (P : A -> bool) : match m !! a with Some x => P x | None => false end = true -> exists x, m !! a = Some x /\ P x = true.
Proof. destruct (m !! a) as [x|]; [by exists x|done]. Qed.

Lemma launch_checked p n k :
  consistent k ->
  (let k1 := after plain (CreateProcess None true true) k in
   (next_pid k + 1 <? 2 ^ 64) && (g_next_thread_id (sched k1) + 1 <? 2 ^ 64) && bool_decide (is_Some (processes (sched k1) !! p)) &&
   match processes (sched (after plain (CreateUserThread (Some p) None 4096 8192 true 16 1) k1)) !! p with Some x => (0 <=? n) && (n <? p_id x) | None => true end) = true ->
  consistent (launch p n k).
Proof.
  intros Hk H. cbn zeta in H. apply andb_true_iff in H as [H H4]. apply andb_true_iff in H as [H H3]. apply andb_true_iff in H as [H1 H2].
  apply launch_consistent; [done|by apply Z.ltb_lt|split; [by apply bool_decide_eq_true_1 in H3|by apply Z.ltb_lt]|]. intros x Hx. rewrite Hx in H4. lia.
Qed.

Lemma booted_consistent : consistent booted.
Proof. exists boot_queues, [4096]. split; [apply booted_kinv|by repeat constructor]. Qed.
Lemma crew1_consistent : consistent crew1.
Proof. apply launch_checked; [apply booted_consistent|]. by vm_compute. Qed.
Lemma crew2_consistent : consistent crew2.
Proof. apply launch_checked; [apply crew1_consistent|]. by vm_compute. Qed.
Lemma crew3_consistent : consistent crew3.
Proof. apply launch_checked; [apply crew2_consistent|]. by vm_compute. Qed.

(** With no ended thread, any thread but the current and the idle one may go. *)
Lemma may_go_checked k q t : inv (sched k) q -> g_retired_thread_head (sched k) = None -> g_current_thread (sched k) <> Some t -> g_idle_thread (sched k) <> Some t -> may_go k q t.
Proof.
  intros Hinv Hre Hc Hi. split_and!; [|done|done]. destruct (re_ends _ _ _ _ (inv_retired _ _ Hinv)) as [E _]. rewrite Hre in E. destruct (retired q); [apply not_elem_of_nil|done].
Qed.

(** ** The states of the examples *)
Lemma crew_inv k : consistent k -> g_retired_thread_head (sched k) = None -> exists q ps, kinv k q ps [] /\ retired q = [] /\ by_id k ps.
Proof.
  intros (q & ps & Hk & Hs) Hre. exists q, ps. split_and!; [done| |done]. destruct (re_ends _ _ _ _ (inv_retired _ _ (ki_sched _ _ _ _ Hk))) as [E _]. rewrite Hre in E. by destruct (retired q).
Qed.

(** The threads of a process are neither current nor idle. *)
Definition inactive (k : Kern) (p : Z) : bool :=
  forallb (fun '(t, r) => negb (bool_decide (t_parent r = Some p)) || (negb (bool_decide (g_current_thread (sched k) = Some t)) && negb (bool_decide (g_idle_thread (sched k) = Some t))))
    (map_to_list (threads (sched k))).

Lemma inactive_leaves k q p : inv (sched k) q -> g_retired_thread_head (sched k) = None -> inactive k p = true -> may_leave_all k q p.
Proof.
  intros Hinv Hre Hi t r Hr Hp. unfold inactive in Hi. rewrite forallb_forall in Hi.
  pose proof (Hi (t, r) (proj1 (list_elem_of_In _ _) (proj2 (elem_of_map_to_list _ _ _) Hr))) as Ht. cbn beta iota in Ht. rewrite (bool_decide_eq_true_2 (t_parent r = Some p)) in Ht by done.
  cbn [negb orb] in Ht. apply andb_prop in Ht as [H1%negb_true_iff H2%negb_true_iff].
  apply may_go_checked; [done|done|by apply bool_decide_eq_false_1 in H1|by apply bool_decide_eq_false_1 in H2].
Qed.

Definition inactive_by_id (k : Kern) (id : Z) : bool := forallb (fun '(p, x) => negb (p_id x =? id) || inactive k p) (map_to_list (processes (sched k))).

Lemma inactive_terminates k q id code : inv (sched k) q -> g_retired_thread_head (sched k) = None -> inactive_by_id k id = true -> allowed k q (TerminateProcess id code).
Proof.
  intros Hinv Hre Hi p x Hx Hid. apply inactive_leaves; [done|done|]. unfold inactive_by_id in Hi. rewrite forallb_forall in Hi.
  pose proof (Hi (p, x) (proj1 (list_elem_of_In _ _) (proj2 (elem_of_map_to_list _ _ _) Hx))) as Hp. cbn beta iota in Hp. by rewrite Hid, Z.eqb_refl in Hp.
Qed.

(** ** Systems *)

(** C3: Whatever sequence of requests the rest of the kernel makes of the managers of
    objects, processes and threads, starting from a consistent state, with callees that
    keep their contract and callers that keep theirs, the state stays consistent (lists
    intact, identifiers unique, every block owned once, every registered object alive),
    and the next request is served: no pointer dangles and every loop ends. *)
Theorem life_system_safe h k rs k' :
  keeps_contract h -> consistent k -> reaches h k rs k' ->
  consistent k' /\ forall r, (forall q, inv (sched k') q -> allowed k' q r) -> exists x k2, served h (serve r k') = Ok (x, k2) /\ consistent k2.
Proof. intros Hh Hk Hr. pose proof (reaches_consistent h k rs k' Hh Hk Hr) as K'. split; [done|]. intros r Ha. by apply served_consistent. Qed.

(** A process is created and terminated again after bootstrap. *)
Lemma life_system_safe_witness :
  consistent (after plain (TerminateProcess 2 0) (after plain (CreateProcess None true true) booted)) /\
  exists x k2, served plain (serve (FindProcess 2) (after plain (TerminateProcess 2 0) (after plain (CreateProcess None true true) booted))) = Ok (x, k2) /\ consistent k2.
Proof.
  destruct (life_system_safe plain booted [CreateProcess None true true; TerminateProcess 2 0] (after plain (TerminateProcess 2 0) (after plain (CreateProcess None true true) booted))
    plain_keeps_contract booted_consistent) as [H1 H2].
  - apply (Goes_on plain booted [CreateProcess None true true] (after plain (CreateProcess None true true) booted) _ (StatusOK, None)).
    + apply (Goes_on plain booted [] booted _ (StatusOK, Some 4176)); [apply Starts|intros q _; split; [done|by vm_compute]|by vm_compute].
    + intros q Hq. apply inactive_terminates; [exact Hq|by vm_compute|by vm_compute].
    + by vm_compute.
  - split; [exact H1|]. apply H2. by intros q _.
Defined.

Lemma ended_evolves k q ps t r q' ps' k' :
  kinv k q ps [] -> threads (sched k) !! t = Some r -> current_state r = Terminated -> kinv k' q' ps' [] -> kgrows [t] [] k q k' q' -> threads (sched k') !! t = None -> evolves [t] (sched k) (sched k').
Proof.
  intros Hk Hr Hst Hk' G Hn q2 Hq2. rewrite <- (queues_unique _ _ _ (ki_sched _ _ _ _ Hk) Hq2). exists q'. split; [apply Hk'|]. destruct (ended_unqueued _ _ _ _ (ki_sched _ _ _ _ Hk) Hr Hst) as [H1 H2].
  apply departs_grows; [apply G|..]; intros u; [|intros l lv|]; intros ->%list_elem_of_singleton; [done|by apply H1|done].
Qed.

(** C4: When the scheduler has a thread that ended destroyed, the manager of threads
    answers StatusOK and leaves what the scheduler's proof assumes of this call: the
    thread is gone, the current and the idle thread, the clock and the interrupt state
    are as before, the ready queues have lost nothing and no other thread is gone but
    ended ones. If it was the last thread of its process, the process went with it. *)
Theorem life_destroy_thread_contract h k t :
  keeps_contract h -> consistent k -> ask kernel (DestroyThread t) (sched k) ->
  exists k', served h (destroy_thread (Some t) k) = Ok (StatusOK, k') /\ reply kernel (DestroyThread t) (sched k) StatusOK (sched k') /\ consistent k'.
Proof.
  intros Hh (q & ps & Hk & Hs) (q0 & Hq0 & Hre & Hc & r & Hr & Hst). rewrite <- (queues_unique _ _ _ (ki_sched _ _ _ _ Hk) Hq0) in Hre.
  destruct (kpost_served outside h (destroy_thread (Some t) k) _ Hh (destroy_thread_post k q ps t r Hk Hr ltac:(split_and!; [done|done|]; intros Hi; destruct (inv_idle _ _ (ki_sched _ _ _ _ Hk)) as (i & ri & Ei & Hri & _ & [Hz|Hz]); congruence)))
    as (st & k' & Hrun & -> & q' & ps' & K' & G & Hn).
  exists k'. split_and!; [done|by apply (ended_evolves k q ps t r q' ps')|exact (consistent_grows _ _ _ _ _ _ _ _ Hk Hs K' G)].
Qed.

(** A thread that has ended, for the examples. *)
Definition finish (t : Z) (k : Kern) : Kern :=
  match forget (Some t) (sched k) with Ok s => with_sched (with_threads (alter (with_current_state Terminated) t (threads s)) s) k | _ => k end.

Lemma finish_ok k t :
  consistent k -> g_retired_thread_head (sched k) = None -> is_Some (threads (sched k) !! t) -> g_current_thread (sched k) <> Some t -> g_idle_thread (sched k) <> Some t ->
  consistent (finish t k) /\ ask kernel (DestroyThread t) (sched (finish t k)).
Proof.
  intros Hk Hre [r Hr] Hc Hi. destruct (crew_inv k Hk Hre) as (q & ps & K & E & S).
  destruct (forget_exact (sched k) q t r (ki_sched _ _ _ _ K) Hr Hc Hi) as (s1 & R & r1 & Hrun & Hr1 & _ & Hinv & Hd & Hkr & Ep & Et & En).
  unfold finish. rewrite Hrun. assert (alter (with_current_state Terminated) t (threads s1) = <[t := with_current_state Terminated r1]> (threads s1)) as -> by (apply map_eq; intros u; destruct (decide (u = t)) as [->|Hne]; [by rewrite lookup_alter_eq, lookup_insert_eq, Hr1|by rewrite lookup_alter_ne, lookup_insert_ne]).
  cbn zeta in *. set (s2 := with_threads _ s1) in *. split.
  - eexists _, ps. split; [apply (kinv_rest k q ps []); try done; apply Hd|]. apply (by_id_same k); [done|]. intros a _. unfold id_of. cbn [sched with_sched]. by rewrite Ep.
  - eexists. split; [exact Hinv|]. split_and!; [rewrite E; apply not_elem_of_nil|change (g_current_thread s2 <> Some t); by rewrite (de_current _ _ _ _ _ Hd)|].
    exists (with_current_state Terminated r1). split; [apply lookup_insert_eq|done].
Qed.

(** The only thread of a program ends. *)
Lemma life_destroy_thread_contract_witness :
  exists k', served plain (destroy_thread (Some 4192) (finish 4192 crew1)) = Ok (StatusOK, k') /\ reply kernel (DestroyThread 4192) (sched (finish 4192 crew1)) StatusOK (sched k') /\ consistent k'.
Proof.
  destruct (finish_ok crew1 4192 crew1_consistent) as [H1 H2]; [by vm_compute|apply (bool_decide_unpack _); by vm_compute|by vm_compute|by vm_compute|].
  apply (life_destroy_thread_contract plain (finish 4192 crew1) 4192); [apply plain_keeps_contract|exact H1|exact H2].
Defined.

(** ** Calls *)

(** C5: Destroying a process whose threads may all go succeeds: the process and all
    its threads are gone from the tables and the queues, the state is consistent, and
    what is still taken from the heap belongs to the records and tables that are left,
    so that the record, the stacks and the launch arguments went back; no other process
    or thread is gone that has not ended by itself, and the exit status is kept for a
    launcher that is still there. *)
Theorem life_destroy_process h k q ps p x members :
  keeps_contract h -> kinv k q ps [] -> processes (sched k) !! p = Some x -> member_rep (threads (sched k)) p x members -> (forall t, t ∈ members -> may_go k q t) ->
  exists k', served h (destroy_process (Some p) k) = Ok (StatusOK, k') /\ destroyed k q p x members k'.
Proof.
  intros Hh Hk Hx Hm Hgo. destruct (kpost_served outside h _ _ Hh (destroy_process_post k q ps p x members Hk Hx Hm Hgo)) as (st & k' & Hrun & -> & Hd). by exists k'.
Qed.

Lemma life_destroy_process_witness : exists q x members k', served plain (destroy_process (Some 4240) crew3) = Ok (StatusOK, k') /\ destroyed crew3 q 4240 x members k'.
Proof.
  destruct (crew_inv crew3 crew3_consistent ltac:(by vm_compute)) as (q & ps & K & _ & _).
  destruct (some_lookup (processes (sched crew3)) 4240 (fun _ => true) ltac:(by vm_compute)) as (x & Hx & _). destruct (ki_members _ _ _ _ K 4240 x Hx) as [members Hm].
  exists q, x, members. apply (life_destroy_process plain crew3 q ps 4240 x members); [apply plain_keeps_contract|done|done|done|].
  intros t Ht. apply (mb_all _ _ _ _ Hm) in Ht as (r & Hr & Hp). revert t r Hr Hp. apply inactive_leaves; [apply K|by vm_compute|by vm_compute].
Defined.

(** C17: Creating a process either succeeds, with a new record under the next identifier,
    with the first 31 characters of the name (or a default one), an address space, no
    threads and the process at the end of the list; or it fails and nothing is left of it:
    the scheduler's tables, the exit records and the blocks taken from the heap are as
    they were. *)
Theorem life_create_process h k q ps name user_process :
  keeps_contract h -> kinv k q ps [] -> short_text name -> next_pid k + 1 < 2 ^ 64 ->
  exists res k', served h (create_process_with_mode name user_process true k) = Ok (res, k') /\
    process_outcome k q ps user_process (take 31 (chosen_name name (default_name user_process))) res k'.
Proof. intros Hh Hk Hname Hroom. exact (kpost_served outside h _ _ Hh (create_process_post k q ps name user_process Hk Hname Hroom)). Qed.

Lemma life_create_process_witness : exists res k', served plain (create_process_with_mode None true true booted) = Ok (res, k') /\ process_outcome booted boot_queues [4096] true [117; 115; 101; 114] res k'.
Proof. apply (life_create_process plain booted boot_queues [4096] None true); [apply plain_keeps_contract|apply booted_kinv|done|by vm_compute]. Defined.

(** C18: Creating a kernel or a user thread refuses a missing entry point or user stack, a
    priority out of range or an empty quantum; otherwise it either succeeds, with a new
    record of the next identifier, the name, the priority, the quantum, its own kernel
    stack and the context that starts it, as the last member of the process and of the
    list of threads; or it fails, and all that differs is the identifier that was taken. *)
Theorem life_create_thread h k q ps p x name entry_point user_stack_top priority quantum :
  keeps_contract h -> kinv k q ps [] -> processes (sched k) !! p = Some x -> u32_range priority -> u32_range quantum -> short_text name -> g_next_thread_id (sched k) + 1 < 2 ^ 64 ->
  (exists res k', served h (create_thread (Some p) name entry_point true priority quantum k) = Ok (res, k') /\
     if ill_spawned (entry_point =? 0) priority quantum then res = (StatusInvalidArgument, None) /\ k' = k
     else thread_outcome k q ps p (filled (kernel_thread entry_point priority quantum) k (take 31 (chosen_name name text_thread))) res k') /\
  (exists res k', served h (create_user_thread (Some p) name entry_point user_stack_top true priority quantum k) = Ok (res, k') /\
     if ill_spawned (user_stack_top =? 0) priority quantum then res = (StatusInvalidArgument, None) /\ k' = k
     else thread_outcome k q ps p (filled (user_thread entry_point user_stack_top priority quantum) k (take 31 (chosen_name name text_user))) res k').
Proof.
  intros Hh Hk Hx Hp Hq Hname Hroom. split.
  - exact (kpost_served outside h _ _ Hh (create_thread_post k q ps p x name entry_point priority quantum Hk Hx Hp Hq Hname Hroom)).
  - exact (kpost_served outside h _ _ Hh (create_user_thread_post k q ps p x name entry_point user_stack_top priority quantum Hk Hx Hp Hq Hname Hroom)).
Qed.

Lemma life_create_thread_witness :
  exists res k', served plain (create_user_thread (Some 4096) None 4096 8192 true 16 1 booted) = Ok (res, k') /\
    thread_outcome booted boot_queues [4096] 4096 (filled (user_thread 4096 8192 16 1) booted [117; 115; 101; 114]) res k'.
Proof. apply (life_create_thread plain booted boot_queues [4096] 4096 kernel_process None 4096 8192 16 1); [apply plain_keeps_contract|apply booted_kinv|done|done|done|done|by vm_compute]. Defined.

(** C15: The exit code with which a process is terminated reaches its launcher: the
    process is gone, and unless the table of exit records is full (it grows until the
    heap refuses), the launcher's query returns the code exactly once; the second query
    finds nothing. *)
Theorem life_exit_status_roundtrip h k q ps p x p0 x0 code :
  keeps_contract h -> kinv k q ps [] -> retired q = [] -> processes (sched k) !! p = Some x -> processes (sched k) !! p0 = Some x0 -> parent_process_id x = p_id x0 ->
  may_leave_all k q p ->
  exists k1, served h (terminate_process (p_id x) code k) = Ok (StatusOK, k1) /\ processes (sched k1) !! p = None /\
    ((exists k2, consume_exit_status (p_id x) (p_id x0) true k1 = KDone (StatusOK, Some code) k2 /\ (exists q2 ps2, kinv k2 q2 ps2 []) /\
        consume_exit_status (p_id x) (p_id x0) true k2 = KDone (StatusNotFound, None) k2) \/
     m_count (exit_records k1) = m_capacity (exit_records k1)).
Proof.
  intros Hh Hk Hre Hx Hx0 Hpar Hgo. pose proof (ki_processes _ _ _ _ Hk) as Hps.
  assert (forall a y, processes (sched k) !! a = Some y -> p_id y = p_id x -> a = p) as Huniq by (intros a y Hy E; by eapply (pr_ids _ _ _ _ _ _ _ Hps)).
  destruct (kpost_served outside h _ _ Hh (terminate_process_post k q ps (p_id x) code Hk ltac:(intros a y l Hy E Hl t Ht; rewrite (Huniq a y Hy E) in Hl; apply (mb_all _ _ _ _ Hl) in Ht as (r & Hr & Hp); by eapply Hgo)))
    as (st & k1 & Hrun & [(_ & _ & Hnone)|(-> & a & y & l & Hy & Eid & Hl & Hd)]); [by destruct (Hnone p x Hx)|].
  assert (a = p) as -> by (by eapply Huniq). rewrite Hx in Hy. injection Hy as <-. exists k1. destruct Hd as [(q1 & ps1 & K1 & G1) Hn _ (x1 & I1 & C1 & L1 & (lr & Hlr & Hrec))]. split_and!; [done|done|].
  pose proof (pr_ok _ _ _ _ _ _ _ Hps p x Hx) as [_ Hlt _]. pose proof (pr_ok _ _ _ _ _ _ _ Hps p0 x0 Hx0) as [Hpos _ _].
  assert (p0 <> p) as Hne by (intros ->; rewrite Hx in Hx0; injection Hx0 as <-; lia).
  assert (exists y', processes (sched k1) !! p0 = Some y' /\ lasts x0 y') as (y0 & Hy0 & _).
  { eapply (calm_process _ _ _ _ _ _ ps p0 x0 G1); [by apply condemn_kinv|done| |by intros ->%list_elem_of_singleton|].
    - unfold condemn. life_cbn. by rewrite lookup_insert_ne.
    - intros t r Ht Hr E. apply (mb_all _ _ _ _ Hl) in Ht as (r' & Hr' & Hp). change (threads (sched k) !! t = Some r) in Hr. congruence. }
  assert (parent_process_id x1 = p_id x0) as Epar.
  { destruct L1 as [E|(_ & b & xb & Hb & Eb & Hgone)]; [by rewrite E|]. exfalso. change (<[p := condemned code x]> (processes (sched k)) !! b = Some xb) in Hb. apply lookup_insert_Some in Hb as [[<- <-]|[_ Hb]]; [cbn in Eb; lia|].
    assert (b = p0) as -> by (eapply (pr_ids _ _ _ _ _ _ _ Hps); [exact Hb|exact Hx0|cbn in Eb; congruence]). congruence. }
  destruct Hrec as [E|[Hin|E]]; [lia|left|right; by rewrite (ho_count _ _ Hlr)].
  destruct (consume_found k1 q1 ps1 lr (record_of x1) K1 Hlr Hin) as (h1 & Hc & K2 & Hother). cbn [record_of er_process_id er_parent_process_id er_exit_code] in Hc, Hother. rewrite I1, Epar, C1 in Hc.
  exists (with_exit_records h1 k1). split_and!; [done|by exists q1, ps1|]. destruct (ki_records _ _ _ _ K2) as [l2 [D1 _ _ _]].
  apply (consume_missing (with_exit_records h1 k1) q1 ps1 l2 (p_id x) (p_id x0) K2 D1). intros e He. left. rewrite I1 in Hother. by apply (Hother l2 D1 e).
Qed.

(** The program 3 was launched by the program 2. *)
Lemma life_exit_status_roundtrip_witness :
  exists x x0 k1, served plain (terminate_process (p_id x) 7 crew3) = Ok (StatusOK, k1) /\ processes (sched k1) !! 4240 = None /\
    ((exists k2, consume_exit_status (p_id x) (p_id x0) true k1 = KDone (StatusOK, Some 7) k2 /\ (exists q2 ps2, kinv k2 q2 ps2 []) /\
        consume_exit_status (p_id x) (p_id x0) true k2 = KDone (StatusNotFound, None) k2) \/
     m_count (exit_records k1) = m_capacity (exit_records k1)).
Proof.
  destruct (crew_inv crew3 crew3_consistent ltac:(by vm_compute)) as (q & ps & K & E & _).
  destruct (some_lookup (processes (sched crew3)) 4240 (fun x => parent_process_id x =? 2) ltac:(by vm_compute)) as (x & Hx & Ex%Z.eqb_eq).
  destruct (some_lookup (processes (sched crew3)) 4176 (fun x => p_id x =? 2) ltac:(by vm_compute)) as (x0 & Hx0 & Ex0%Z.eqb_eq).
  exists x, x0. apply (life_exit_status_roundtrip plain crew3 q ps 4240 x 4176 x0 7); [apply plain_keeps_contract|done|done|done|done|congruence|].
  apply inactive_leaves; [apply K|by vm_compute|by vm_compute].
Defined.

(** C19: Reaping visits every process although it destroys some on the way: every exiting
    process but the current and the permanent ones is gone with all its threads, the
    others are still there, in the same order. *)
Theorem life_reap_exiting h k q ps c r cur :
  keeps_contract h -> kinv k q ps [] -> retired q = [] -> g_current_thread (sched k) = Some c -> threads (sched k) !! c = Some r -> t_parent r = Some cur ->
  exists k', served h (reap_exiting k) = Ok (StatusOK, k') /\ reaped cur k ps k'.
Proof.
  intros Hh Hk Hre Hc Hr Hp. destruct (kpost_served outside h _ _ Hh (reap_exiting_post k q ps c r cur Hk Hre Hc Hr Hp)) as (st & k' & Hrun & -> & Hd). by exists k'.
Qed.

(** A process that asked to exit. *)
Definition leaving (p : Z) (k : Kern) : Kern :=
  match processes (sched k) !! p with Some x => condemn p 0 x k | None => k end.

Lemma life_reap_exiting_witness : exists ps k', served plain (reap_exiting (leaving 4240 crew3)) = Ok (StatusOK, k') /\ reaped 4096 (leaving 4240 crew3) ps k' /\ exiting 4096 (leaving 4240 crew3) 4240 = true.
Proof.
  destruct (crew_inv crew3 crew3_consistent ltac:(by vm_compute)) as (q & ps & K & E & _). exists ps.
  assert (kinv (leaving 4240 crew3) q ps []) as K'. { unfold leaving. destruct (processes (sched crew3) !! 4240) eqn:Hx; [by apply condemn_kinv|done]. }
  destruct (some_lookup (threads (sched (leaving 4240 crew3))) 4128 (fun r => bool_decide (t_parent r = Some 4096)) ltac:(by vm_compute)) as (r & Hr & Hp%bool_decide_eq_true_1).
  destruct (life_reap_exiting plain (leaving 4240 crew3) q ps 4128 r 4096) as (k' & H1 & H2); [apply plain_keeps_contract|exact K'|exact E|by vm_compute|exact Hr|exact Hp|].
  exists k'. split_and!; [exact H1|exact H2|by vm_compute].
Defined.

(** ** What does not hold *)
Lemma ends_well (r : Exec (Status * Kern)) (P : Kern -> bool) : match r with Ok (StatusOK, k) => P k | _ => false end = true -> exists k, r = Ok (StatusOK, k) /\ P k = true.
Proof. destruct r as [[[] k]| | |]; try done. by exists k. Qed.

(** C16: Terminating the tree of a process that is itself left to its own end destroys
    exactly the processes it launched, with their threads. Those that they launched, at
    any depth, are marked as exiting with the code but stay, threads and all: destroying
    their launcher has cut them off before the walk comes to them. Every process outside
    the tree stays as it was. *)
Theorem life_tree_prunes_children h k q ps root code r xr c rc cur :
  keeps_contract h -> kinv k q ps [] -> by_id k ps -> retired q = [] -> processes (sched k) !! r = Some xr -> p_id xr = root ->
  (forall a x, processes (sched k) !! a = Some x -> in_tree k root x -> object_has_flag (flags (p_header x)) FlagPermanent = false) ->
  g_current_thread (sched k) = Some c -> threads (sched k) !! c = Some rc -> t_parent rc = Some cur ->
  (forall y, processes (sched k) !! cur = Some y -> parent_process_id y <> root) ->
  exists k', served h (terminate_process_tree root code root k) = Ok (StatusOK, k') /\ pruned k ps root code k'.
Proof.
  intros Hh Hk Hs Hre Hr Hid Hperm Hc Hrc Hcur Hout. destruct (kpost_served outside h _ _ Hh (terminate_tree_post k q ps root code r xr c rc cur Hk Hs Hre Hr Hid Hperm Hc Hrc Hcur Hout)) as (st & k' & Hrun & -> & Hd). by exists k'.
Qed.

(** No process above the first identifier is permanent. *)
Lemma tree_plain k q ps root :
  kinv k q ps [] -> 1 < root -> forallb (fun '(_, x) => negb (object_has_flag (flags (p_header x)) FlagPermanent) || (p_id x <=? 1)) (map_to_list (processes (sched k))) = true ->
  forall a x, processes (sched k) !! a = Some x -> in_tree k root x -> object_has_flag (flags (p_header x)) FlagPermanent = false.
Proof.
  intros Hk Hroot Hall a x Hx Hin. rewrite forallb_forall in Hall. pose proof (Hall (a, x) (proj1 (list_elem_of_In _ _) (proj2 (elem_of_map_to_list _ _ _) Hx))) as Hp. cbn beta iota in Hp.
  apply orb_prop in Hp as [Hp%negb_true_iff|Hp%Z.leb_le]; [done|exfalso]. pose proof (pr_ok _ _ _ _ _ _ _ (ki_processes _ _ _ _ Hk) a x Hx) as [H1 H2 _].
  destruct Hin as [E|Hl]; [lia|]. assert (parent_process_id x = 0) as E by lia. rewrite E in Hl. revert Hl. apply leads_absent; [lia|lia|]. intros b y Hy Eb. pose proof (pr_ok _ _ _ _ _ _ _ (ki_processes _ _ _ _ Hk) b y Hy) as [H3 _ _]. lia.
Qed.

(** The program 2 launched 3, which launched 4: 3 is gone, 4 stays. *)
Lemma life_tree_prunes_children_witness :
  exists k', served plain (terminate_process_tree 2 7 2 crew3) = Ok (StatusOK, k') /\ processes (sched k') !! 4240 = None /\ is_Some (processes (sched k') !! 4288).
Proof.
  destruct (crew_inv crew3 crew3_consistent ltac:(by vm_compute)) as (q & ps & K & E & S).
  destruct (some_lookup (processes (sched crew3)) 4176 (fun x => p_id x =? 2) ltac:(by vm_compute)) as (xr & Hxr & Exr%Z.eqb_eq).
  destruct (some_lookup (processes (sched crew3)) 4240 (fun x => parent_process_id x =? 2) ltac:(by vm_compute)) as (x & Hx & Ex%Z.eqb_eq).
  destruct (some_lookup (processes (sched crew3)) 4288 (fun x => parent_process_id x =? 3) ltac:(by vm_compute)) as (y & Hy & Ey%Z.eqb_eq).
  destruct (some_lookup (processes (sched crew3)) 4096 (fun x => parent_process_id x =? 0) ltac:(by vm_compute)) as (z & Hz & Ez%Z.eqb_eq).
  destruct (some_lookup (threads (sched crew3)) 4128 (fun r => bool_decide (t_parent r = Some 4096)) ltac:(by vm_compute)) as (rc & Hrc & Hp%bool_decide_eq_true_1).
  destruct (life_tree_prunes_children plain crew3 q ps 2 7 4176 xr 4128 rc 4096) as (k' & Hrun & [_ H1 H2]);
    [apply plain_keeps_contract|exact K|exact S|exact E|exact Hxr|exact Exr|apply (tree_plain crew3 q ps 2 K ltac:(done)); by vm_compute|by vm_compute|exact Hrc|exact Hp|intros y' Hy'; rewrite Hz in Hy'; injection Hy' as <-; lia|].
  exists k'. split_and!; [exact Hrun|exact (proj1 (H1 4240 x Hx Ex))|]. destruct (H2 4288 y Hy ltac:(lia)) as (y' & Hy' & _). by exists y'.
Defined.

(** *** A thread that is destroyed while it waits to be reaped

    [hushed] is the contract with a broker that wakes nobody. *)
Definition hushed : Outer := {|
  k_ask := k_ask outside;
  k_reply c := match c with FromScheduler _ => fun k _ k' => k' = k | c => k_reply outside c end
|}.

Lemma hushed_post {A} (r : KRun A) Q : kpost outside r Q -> kpost hushed r Q.
Proof.
  induction r as [a k| | |c k resume IH]; cbn [kpost]; [done..|]. intros [Ha Hr]. split; [exact Ha|]. intros x k' Hx. apply IH, Hr.
  destruct c; try exact Hx. cbn in Hx. subst k'. apply kevolves_refl.
Qed.

Lemma hushed_report {B} k q ps t r ty a b (f : unit -> K B) Q :
  kinv k q ps [] -> threads (sched k) !! t = Some r -> kpost hushed (f tt k) Q -> kpost hushed (kseq (lifted (publish_thread_event ty t a b)) f k) Q.
Proof.
  intros Hk Hr HQ. pose proof (inv_threads _ _ (ki_sched _ _ _ _ Hk) t r Hr) as [_ _ Hname _ Hpar]. apply kpost_bind. unfold lifted, publish_thread_event. rewrite (seq_thread t r) by done.
  assert (forall pid : option Z, kpost hushed (lift (call (Report (PublishThreadEvent ty (KernelIface.mkThread (t_id r) (t_name r) pid (current_priority r)) a b StatusOK)) (sched k)) k)
    (fun x k' => kpost hushed (f x k') Q)) as Hcall.
  { intros pid. assert (with_sched (sched k) k = k) as Ek by (by destruct k). unfold call. cbn [lift kpost]. rewrite Ek. split; [split; [by exists q, ps|done]|]. intros [] k' ->. by rewrite Ek. }
  destruct (t_parent r) as [p|] eqn:Ep; [|apply Hcall]. destruct (Hpar p eq_refl) as (x & Hx & _).
  replace (seq (let! x := process_at p in ret (Some (p_id x))) _ (sched k)) with (call (Report (PublishThreadEvent ty (KernelIface.mkThread (t_id r) (t_name r) (Some (p_id x)) (current_priority r)) a b StatusOK)) (sched k)); [apply Hcall|].
  unfold seq, process_at, exec, get_process. by rewrite Hx.
Qed.

(** Releasing the record of a thread, which is on no list of the scheduler but maybe the
    one of the threads to be reaped. *)
Lemma dispose_listed k q ps t r :
  kinv k q ps [] -> threads (sched k) !! t = Some r ->
  kpost outside (dispose_thread t k) (fun _ k' => threads (sched k') !! t = None /\ g_retired_thread_head (sched k') = g_retired_thread_head (sched k) /\
    g_current_thread (sched k') = g_current_thread (sched k) /\ processes (sched k') = processes (sched k)).
Proof.
  intros Hk Hr. pose proof (ki_sched _ _ _ _ Hk) as Hinv. destruct (ki_owns _ _ _ _ Hk) as [_ Hown].
  destruct (unlink_exact _ _ t r Hinv Hr) as (m & hd & tl & l1 & l2 & Hrun & Hreg & Hd & Hrel). unfold dispose_thread. rewrite (kseq_sched _ _ _ _ Hrun), kseq_set. life_cbn.
  assert (g_thread_count (sched k) <> 0) as Hcnt. { rewrite (ti_count _ _ _ _ (ki_tids _ _ _ _ Hk)), Hreg, length_app. cbn [length]. lia. }
  destruct (Z.eqb_spec (g_thread_count (sched k)) 0); [done|]. cbn [negb]. set (s1 := with_g_thread_count _ _). set (k1 := with_sched s1 k). change (with_sched s1 (with_sched _ k)) with k1.
  destruct (ki_objects _ _ _ _ Hk) as [lo [O1 O2 O3 O4]].
  destruct (unregister_ok k1 lo t (fun _ => let* r := kthread t in free_stack (kernel_stack_backing (t_stacks r)) >; set_thread t without_kernel_stack >; free_thread_slot t) O1 O2)
    as (h & lo' & _ & _ & _ & _ & ->); [apply O3; by eauto|].
  destruct (relinked_lookup (H := registry_links) _ _ _ _ Hrel Hr) as (r1 & Hr1 & E1). assert (kernel_stack r1 = kernel_stack r) as Eks by exact (f_equal kernel_stack E1).
  rewrite (kseq_thread t r1) by done. change (kernel_stack_backing (t_stacks r1)) with (kernel_stack r1). rewrite Eks.
  destruct (thread_owned k t r Hr) as [Hot Hoa]. unfold free_stack. destruct (kernel_stack r) as [a|] eqn:Ea.
  - pose proof (stack_apart k t r a (ki_owns _ _ _ _ Hk) Hr Ea) as Hat. apply kpost_call; [cbn; by apply Hown, Hoa|]. intros [] k3 ->. rewrite (kseq_set_thread t r1) by done. unfold free_thread_slot. rewrite kseq_set.
    unfold kcall. cbn [kpost]. split; [cbn; apply elem_of_difference; split; [by apply Hown|set_solver]|]. intros [] k' ->. life_cbn. split_and!; [apply lookup_delete_eq|done..].
  - rewrite kseq_ret, (kseq_set_thread t r1) by done. unfold free_thread_slot. rewrite kseq_set.
    unfold kcall. cbn [kpost]. split; [cbn; by apply Hown|]. intros [] k' ->. life_cbn. split_and!; [apply lookup_delete_eq|done..].
Qed.

(** The destruction of the thread does not go on to its process. *)
Definition not_last (k : Kern) (t p : Z) : Prop :=
  exists x, processes (sched k) !! p = Some x /\
    (p_state x = ProcessTerminated \/ object_has_flag (flags (p_header x)) FlagPermanent = true \/ exists u r, u <> t /\ threads (sched k) !! u = Some r /\ t_parent r = Some p).

Lemma reap_dangling k t :
  g_retired_thread_head (sched k) = Some t -> g_current_thread (sched k) <> Some t -> threads (sched k) !! t = None -> lifted reap_retired_threads k = KUndefined.
Proof.
  intros Hh Hc Hn. assert (reap_step (sched k) = Undefined) as Hstep.
  { unfold reap_step. rewrite seq_read, seq_read, Hh, bool_decide_eq_false_2 by done. unfold seq, thread_at, exec, get, fetch. by rewrite Hn. }
  unfold lifted, reap_retired_threads. cbn [loop]. unfold seq. by rewrite Hstep.
Qed.

Lemma destroy_listed k q ps t r rest :
  kinv k q ps [] -> retired q = t :: rest -> threads (sched k) !! t = Some r -> g_current_thread (sched k) <> Some t -> (forall p, t_parent r = Some p -> not_last k t p) ->
  kpost hushed (destroy_thread (Some t) k) (fun st k' => st = StatusOK /\ threads (sched k') !! t = None /\ g_retired_thread_head (sched k') = Some t /\
    g_current_thread (sched k') <> Some t).
Proof.
  intros Hk Hre Hr Hc Hlast. pose proof (ki_sched _ _ _ _ Hk) as Hinv.
  assert (current_state r = Terminated) as Hst by (apply (re_ended _ _ _ _ (inv_retired _ _ Hinv) t r); [rewrite Hre; apply list_elem_of_here|done]).
  assert (g_idle_thread (sched k) <> Some t) as Hi by (intros Hi; destruct (inv_idle _ _ Hinv) as (i & ri & Ei & Hri & _ & [Hz|Hz]); congruence).
  unfold destroy_thread, destroy_thread_with. rewrite (kseq_compute _ _ k true).
  2: { unfold contains_thread. rewrite (contains_node_ok (H := registry_links) _ _ (g_thread_tail (sched k)) (registry q)) by apply (inv_registry _ _ Hinv).
       cbn [among]. rewrite bool_decide_eq_true_2; [done|]. apply (inv_registry _ _ Hinv). eauto. }
  cbn [negb]. rewrite (kseq_thread t r) by done.
  destruct (forget_exact (sched k) q t r Hinv Hr Hc Hi) as (s1 & R & r1 & Hrun & Hr1 & Eu & Hinv1 & Hd & Hkr & Ep & Et & En).
  rewrite (kseq_sched _ _ _ _ Hrun), (kseq_set_thread t r1) by done. life_cbn. set (s2 := with_threads _ s1) in *. set (q2 := mkQueues _ _ _ _) in *.
  change (with_sched s2 (with_sched s1 k)) with (with_sched s2 k). set (k2 := with_sched s2 k).
  assert (kinv k2 q2 ps []) as K2 by (apply (kinv_rest k q); try done; apply Hd).
  assert (t_parent r1 = t_parent r) as Hp1 by exact (f_equal t_parent Eu).
  set (r2 := with_current_state Terminated r1). assert (threads (sched k2) !! t = Some r2) as Hr2 by apply lookup_insert_eq.
  apply (hushed_report k2 q2 ps t r2 _ _ _ _ _ K2 Hr2). rewrite (kseq_thread t r2) by done. change (t_parent r2) with (t_parent r1). rewrite Hp1.
  assert (g_current_thread (sched k2) = g_current_thread (sched k)) as Ec2 by apply Hd. assert (retired q2 = t :: rest) as Hre2 by exact Hre.
  assert (forall k4 r4 (g : unit -> K Status) Q, kinv k4 q2 ps [] -> g_current_thread (sched k4) = g_current_thread (sched k) -> threads (sched k4) !! t = Some r4 ->
    (forall k', threads (sched k') !! t = None -> g_retired_thread_head (sched k') = Some t -> g_current_thread (sched k') <> Some t -> processes (sched k') = processes (sched k4) -> kpost hushed (g tt k') Q) ->
    kpost hushed (kseq (dispose_thread t) g k4) Q) as Hend.
  { intros k4 r4 g Q K4 Ec4 Hr4 Hg. eapply kpost_seq; [apply hushed_post; by eapply dispose_listed|]. intros [] k' (H1 & H2 & H3 & H4). apply Hg; [done| |congruence|done].
    rewrite H2. destruct (re_ends _ _ _ _ (inv_retired _ _ (ki_sched _ _ _ _ K4))) as [-> _]. by rewrite Hre2. }
  destruct (t_parent r) as [p|].
  2: { rewrite kseq_ret, bool_decide_eq_true_2 by done. cbn [negb]. eapply Hend; [done|done|done|]. intros k' H1 H2 H3 _. by apply kpost_ret. }
  eapply kpost_seq; [apply hushed_post, (leave_post k2 q2 ps t p K2); exists r2; by split_and!; [| |]|]. intros st k4 (-> & K4 & G4 & (r4 & Hr4 & _ & _) & Hx4). rewrite bool_decide_eq_true_2 by done. cbn [negb].
  eapply (Hend k4 r4); [done|rewrite (de_current _ _ _ _ _ (kg_sched _ _ _ _ _ _ G4)); done|done|]. intros k' H1 H2 H3 H4.
  destruct (Hlast p eq_refl) as (x & Hx & Hor). destruct (Hx4 x) as (x4 & Hx4' & L); [unfold k2; cbn [sched with_sched]; by rewrite Ep|]. rewrite (kseq_process p x4) by (by rewrite H4).
  assert ((thread_count x4 =? 0) && negb (bool_decide (p_state x4 = ProcessTerminated)) && negb (object_has_flag (flags (p_header x4)) FlagPermanent) = false) as ->; [|by apply kpost_ret].
  destruct (lasts_fields _ _ L) as (Eh & _). destruct Hor as [E|[E|(u & ru & Hne & Hu & Hp)]].
  - rewrite (bool_decide_eq_true_2 _ (lasts_terminated _ _ L E)). by rewrite andb_false_r.
  - rewrite Eh, E. by rewrite andb_false_r.
  - destruct (Z.eqb_spec (thread_count x4) 0) as [Hz|]; [exfalso|done]. destruct (keeps_lookup _ _ _ _ _ Hkr Hu) as (ru2 & Hu2 & E2).
    assert (t_parent ru2 = Some p) as Hp2 by (rewrite <- Hp; exact (f_equal t_parent E2)).
    destruct (de_thread _ _ _ _ _ (kg_sched _ _ _ _ _ _ G4) u ru2 Hu2) as (ru4 & Hu4 & Gr); [by intros ->%list_elem_of_singleton|done|].
    apply (members_none k4 q2 ps p x4 K4 Hx4' Hz u ru4 Hu4). rewrite <- Hp2. by eapply thread_grows_parent.
Qed.

(** C36: The scheduler does not take a thread off its list of ended threads when the thread
    is destroyed. Take any consistent state where an ended thread is the next to be reaped
    and destroy it, as the destruction of its process does with every thread, with a
    broker that wakes nobody: the call succeeds and the record is freed, the list still
    begins with it, and the next reaping reads freed memory. *)
Theorem life_retired_dangles h k q ps t r rest :
  keeps_contract h -> (forall e k, h (FromScheduler (Report e)) k = Ok (tt, k)) -> kinv k q ps [] -> retired q = t :: rest -> threads (sched k) !! t = Some r ->
  g_current_thread (sched k) <> Some t -> (forall p, t_parent r = Some p -> not_last k t p) ->
  exists k', served h (destroy_thread (Some t) k) = Ok (StatusOK, k') /\ threads (sched k') !! t = None /\ g_retired_thread_head (sched k') = Some t /\
    lifted reap_retired_threads k' = KUndefined.
Proof.
  intros Hh Hq Hk Hre Hr Hc Hlast.
  assert (forall c k, k_ask hushed c k -> exists x k', h c k = Ok (x, k') /\ k_reply hushed c k x k') as Hhush.
  { intros c k0 Ha. destruct (Hh c k0 Ha) as (x & k1 & Hrun & Hrep). exists x, k1. split; [done|]. destruct c as [c| | | | | | | | | | | | | | | |]; try exact Hrep.
    destruct c as [e| | |]; try by destruct Ha. rewrite Hq in Hrun. by injection Hrun as _ <-. }
  destruct (kpost_served hushed h _ _ Hhush (destroy_listed k q ps t r rest Hk Hre Hr Hc Hlast)) as (st & k' & Hrun & -> & H1 & H2 & H3).
  exists k'. split_and!; [done|done|done|by apply (reap_dangling k' t)].
Qed.

(** The thread [t], which has ended, waits to be reaped while its process [p] is destroyed. *)
Definition unreaped (t p : Z) (k : Kern) : Kern :=
  match queue_retired_thread (Some t) (sched k) with
  | Ok s => with_sched (with_processes (alter (with_p_state ProcessTerminated) p (processes s)) s) k
  | _ => k
  end.

Lemma unreaped_ok k q ps t p r :
  kinv k q ps [] -> retired q = [] -> threads (sched k) !! t = Some r -> current_state r = Terminated -> t_parent r = Some p ->
  exists q' r', kinv (unreaped t p k) q' ps [] /\ retired q' = [t] /\ threads (sched (unreaped t p k)) !! t = Some r' /\ t_parent r' = Some p /\ not_last (unreaped t p k) t p.
Proof.
  intros Hk E Hr Hst Hp. pose proof (ki_sched _ _ _ _ Hk) as Hinv. destruct (ok_parent _ _ _ (inv_threads _ _ Hinv t r Hr) p Hp) as (x & Hx & _).
  destruct (inv_retire (sched k) q Hinv t r Hr Hst) as (m & hd & tl & Hrun & Hinv1 & Hkr); [rewrite E; apply not_elem_of_nil|]. cbn zeta in *.
  set (k1 := with_sched (set_retired m hd tl (sched k)) k).
  assert (kinv k1 (with_retired (retired q ++ [t]) q) ps []) as K1 by (apply (kinv_rest k q); try done; exact (keeps_weaken unqueued resting _ _ Hkr)).
  destruct (keeps_lookup _ _ _ _ _ Hkr Hr) as (r' & Hr' & E').
  assert (unreaped t p k = with_sched (with_processes (<[p := with_p_state ProcessTerminated x]> (processes (sched k1))) (sched k1)) k) as ->.
  { unfold unreaped. rewrite Hrun. unfold k1. life_cbn. f_equal. f_equal. apply map_eq. intros a. change (processes (set_retired m hd tl (sched k))) with (processes (sched k)).
    destruct (decide (a = p)) as [->|Hne]; [by rewrite lookup_alter_eq, lookup_insert_eq, Hx|by rewrite lookup_alter_ne, lookup_insert_ne]. }
  exists (with_retired (retired q ++ [t]) q), r'. split_and!.
  - by apply (kinv_process k1 _ ps [] p x).
  - cbn. by rewrite E.
  - exact Hr'.
  - rewrite <- Hp. exact (f_equal t_parent E').
  - exists (with_p_state ProcessTerminated x). split; [apply lookup_insert_eq|by left].
Qed.

(** The only thread of the program 3 has ended. *)
Lemma life_retired_dangles_witness :
  exists k', served plain (destroy_thread (Some 4256) (unreaped 4256 4240 (finish 4256 crew3))) = Ok (StatusOK, k') /\ threads (sched k') !! 4256 = None /\
    g_retired_thread_head (sched k') = Some 4256 /\ lifted reap_retired_threads k' = KUndefined.
Proof.
  destruct (finish_ok crew3 4256 crew3_consistent) as [H1 _]; [by vm_compute|apply (bool_decide_unpack _); by vm_compute|by vm_compute|by vm_compute|].
  destruct (crew_inv (finish 4256 crew3) H1 ltac:(by vm_compute)) as (q & ps & K & E & _).
  destruct (some_lookup (threads (sched (finish 4256 crew3))) 4256 (fun r => bool_decide (current_state r = Terminated /\ t_parent r = Some 4240)) ltac:(by vm_compute)) as (r & Hr & [Hst Hp]%bool_decide_eq_true_1).
  destruct (unreaped_ok (finish 4256 crew3) q ps 4256 4240 r K E Hr Hst Hp) as (q' & r' & K' & E' & Hr' & Hp' & Hl).
  apply (life_retired_dangles plain (unreaped 4256 4240 (finish 4256 crew3)) q' ps 4256 r' []);
    [apply plain_keeps_contract|by intros e k|exact K'|exact E'|exact Hr'|by vm_compute|intros p Hq; rewrite Hp' in Hq; injection Hq as <-; exact Hl].
Defined.

(** The program 2 is running, and faults while an ended thread of the program 3, which it
    launched, waits to be reaped: the whole tree is terminated, and the list still begins
    with the thread. *)
Definition faulting : Kern := with_sched (with_g_current_thread (Some 4192) (with_g_current_process (Some 4176) (sched crew3))) crew3.

Example tree_leaves_dangling :
  let k := match queue_retired_thread (Some 4256) (sched (finish 4256 faulting)) with Ok s => with_sched s (finish 4256 faulting) | _ => faulting end in
  match served plain (terminate_process_tree 2 7 2 k) with
  | Ok (st, k') => st = StatusOK /\ threads (sched k') !! 4256 = None /\ g_retired_thread_head (sched k') = Some 4256
  | _ => False
  end.
Proof. vm_compute. done. Qed.
