(* ===== verification/PngBits.v ===== *)
(** Byte and bit input of the PNG decoder (applications/libs/png/png.c): big-
    and little-endian reads, the signature, Adler-32 and the DEFLATE bit reader.

    Static helpers take objects where the code takes addresses of objects, which
    are never NULL there.  A status the code returns early is [Fail]; a shift by
    the width of the type or more, undefined in C, is [Undef]. *)
From stdpp Require Import base list numbers.
From Stdlib Require Import ZArith Lia.
From S2P Require Import Prelude.

Local Open Scope Z_scope.

Definition PNG_SIGNATURE_SIZE : Z := 8.

Definition kPngSignature : list Z := [0x89; 80; 78; 71; 0x0D; 0x0A; 0x1A; 0x0A].

(** A read of the byte at [off]. *)
Definition png_read_be_u32 (data : list Z) (off : Z) : Exec Z :=
  b0 <- aget data off ;;
  b1 <- aget data (off + 1) ;;
  b2 <- aget data (off + 2) ;;
  b3 <- aget data (off + 3) ;;
  Ok (u32 (Z.lor (Z.lor (Z.lor (Z.shiftl b0 24) (Z.shiftl b1 16)) (Z.shiftl b2 8)) b3)).

Definition png_read_le_u16 (data : list Z) (off : Z) : Exec Z :=
  b0 <- aget data off ;;
  b1 <- aget data (off + 1) ;;
  Ok (u16 (Z.lor b0 (Z.shiftl b1 8))).

Fixpoint signature_loop (n : nat) (data : list Z) (index : Z) : Exec bool :=
  match n with
  | O => Ok true
  | S n' =>
      b <- aget data index ;;
      k <- aget kPngSignature index ;;
      if negb (b =? k) then Ok false else signature_loop n' data (index + 1)
  end.

Definition png_has_signature (data : option (list Z)) (size : Z) : Exec bool :=
  match data with
  | None => Ok false
  | Some d => if size <? PNG_SIGNATURE_SIZE then Ok false else signature_loop 8 d 0
  end.

Definition png_adler32 (data : list Z) (size : Z) : Exec Z :=
  '(s1, s2) <- for_range (Z.to_nat size) 0
    (fun index '(s1, s2) =>
       b <- aget data index ;;
       let s1 := u32 (s1 + b) mod 65521 in
       let s2 := u32 (s2 + s1) mod 65521 in
       Ok (s1, s2)) (1, 0) ;;
  Ok (Z.lor (u32 (Z.shiftl s2 16)) s1).

(** ** The bit reader *)
Record PngBitReader : Type := mkBitReader {
  br_data : list Z;
  br_size : Z;
  byte_offset : Z;
  bit_buffer : Z;
  bit_count : Z
}.

Definition png_bit_reader_init (data : list Z) (size : Z) : PngBitReader :=
  mkBitReader data size 0 0 0.

(** One turn of [while (reader->bit_count < bits)]. *)
Definition ensure_step (bits : Z) (r : PngBitReader) : Exec (PngBitReader + PngBitReader) :=
  if negb (bit_count r <? bits) then Ok (inr r) else
  if br_size r <=? byte_offset r then Fail StatusFault else
  b <- aget (br_data r) (byte_offset r) ;;
  if 32 <=? bit_count r then Undef else
  Ok (inl (mkBitReader (br_data r) (br_size r) (u64 (byte_offset r + 1))
             (Z.lor (bit_buffer r) (u32 (Z.shiftl b (bit_count r)))) (u32 (bit_count r + 8)))).

(** At most one turn per wanted bit. *)
Definition png_bit_reader_ensure_bits (r : PngBitReader) (bits : Z) : Exec PngBitReader :=
  iterate (S (Z.to_nat bits)) (ensure_step bits) r.

Definition png_bit_reader_read_bits (r : PngBitReader) (bits : Z) : Exec (PngBitReader * Z) :=
  if bits =? 0 then Ok (r, 0) else
  r <- png_bit_reader_ensure_bits r bits ;;
  if 32 <=? bits then Undef else
  let value := Z.land (bit_buffer r) (u32 (u32 (Z.shiftl 1 bits) - 1)) in
  Ok (mkBitReader (br_data r) (br_size r) (byte_offset r) (Z.shiftr (bit_buffer r) bits)
        (u32 (bit_count r - bits)), value).

Definition png_bit_reader_align_byte (r : PngBitReader) : PngBitReader :=
  mkBitReader (br_data r) (br_size r) (byte_offset r) 0 0.

(** ** What the reader means *)

(** The bits of a byte, least significant first, and of a byte string. *)
Definition byte_bits (b : Z) : list bool := map (fun i => Z.testbit b (Z.of_nat i)) (seq 0 8).
Definition bytes_bits (l : list Z) : list bool := concat (map byte_bits l).

(** The number the first bits spell, least significant first. *)
Fixpoint bits_value (bs : list bool) : Z :=
  match bs with
  | [] => 0
  | b :: r => (if b then 1 else 0) + 2 * bits_value r
  end.

(** The low [n] bits of a number. *)
Definition low_bits (v : Z) (n : nat) : list bool := map (fun i => Z.testbit v (Z.of_nat i)) (seq 0 n).

(** Bytes not yet loaded. *)
Definition unread (r : PngBitReader) : list Z :=
  slice (br_data r) (Z.to_nat (byte_offset r)) (Z.to_nat (br_size r - byte_offset r)).

(** The bits a reader has still to give. *)
Definition stream (r : PngBitReader) : list bool :=
  low_bits (bit_buffer r) (Z.to_nat (bit_count r)) ++ bytes_bits (unread r).

Definition reader_wf (r : PngBitReader) : Prop :=
  bytes (br_data r) /\ 0 <= byte_offset r <= br_size r /\ br_size r <= len (br_data r) /\
  br_size r < 2 ^ 63 /\ 0 <= bit_count r < 8 /\ 0 <= bit_buffer r < 2 ^ bit_count r.

(** ** Lemmas *)
Lemma length_low_bits v n : length (low_bits v n) = n.
Proof. unfold low_bits. by rewrite length_map, length_seq. Qed.

Lemma low_bits_S v n : low_bits v (S n) = Z.testbit v 0 :: low_bits (Z.shiftr v 1) n.
Proof.
  unfold low_bits. cbn [seq map]. f_equal. rewrite <- seq_shift, map_map.
  apply map_ext. intros i. rewrite Z.shiftr_spec by lia. f_equal. lia.
Qed.

Lemma low_bits_app v n m :
  low_bits v (n + m) = low_bits v n ++ low_bits (Z.shiftr v (Z.of_nat n)) m.
Proof.
  revert v. induction n as [|n IH]; intros v.
  - cbn. by rewrite Z.shiftr_0_r.
  - change (S n + m)%nat with (S (n + m)). rewrite !low_bits_S, IH. cbn [app]. do 2 f_equal.
    rewrite Z.shiftr_shiftr by lia. do 2 f_equal. lia.
Qed.

Lemma bits_value_low v n : bits_value (low_bits v n) = v mod 2 ^ Z.of_nat n.
Proof.
  revert v. induction n as [|n IH]; intros v.
  - cbn. by rewrite Z.mod_1_r.
  - rewrite low_bits_S. cbn [bits_value]. rewrite IH.
    rewrite Nat2Z.inj_succ, Z.pow_succ_r, Z.rem_mul_r by lia.
    rewrite Z.shiftr_div_pow2 by lia. change (2 ^ 1) with 2.
    rewrite <- Z.bit0_mod. by destruct (Z.testbit v 0).
Qed.

Lemma bits_value_range bs : 0 <= bits_value bs < 2 ^ len bs.
Proof.
  induction bs as [|b bs IH]; [cbn; lia|]. cbn [bits_value length].
  rewrite Nat2Z.inj_succ, Z.pow_succ_r by lia. destruct b; lia.
Qed.

(** A byte loaded above [c] buffered bits. *)
Lemma low_bits_load buf b c :
  0 <= c -> 0 <= buf < 2 ^ c -> is_byte b ->
  low_bits (Z.lor buf (Z.shiftl b c)) (Z.to_nat (c + 8)) = low_bits buf (Z.to_nat c) ++ byte_bits b.
Proof.
  intros Hc Hb Hby. replace (Z.to_nat (c + 8)) with (Z.to_nat c + 8)%nat by lia.
  rewrite low_bits_app, Z2Nat.id by lia. f_equal.
  - apply map_ext_in. intros i Hi%in_seq. rewrite Z.lor_spec, Z.shiftl_spec_low by lia.
    by rewrite orb_false_r.
  - apply map_ext. intros i. rewrite Z.shiftr_spec, Z.lor_spec, Z.shiftl_spec by lia.
    rewrite (testbit_high buf c) by lia. cbn [orb]. f_equal. lia.
Qed.

(** The loop's invariant: the stream does not change while bits are buffered,
    and never more than seven bits beyond the wanted ones are. *)
Definition loading (bits : Z) (s0 : list bool) (d : list Z) (n : Z) (r : PngBitReader) : Prop :=
  bytes (br_data r) /\ 0 <= byte_offset r <= br_size r /\ br_size r <= len (br_data r) /\
  br_size r < 2 ^ 63 /\ 0 <= bit_count r < bits + 8 /\ 0 <= bit_buffer r < 2 ^ bit_count r /\
  stream r = s0 /\ br_data r = d /\ br_size r = n.

Lemma loading_step bits s0 d n r :
  0 <= bits <= 24 -> loading bits s0 d n r ->
  wp (ensure_step bits r)
    (fun x => match x with
              | inl r' => loading bits s0 d n r' /\
                          (Z.to_nat (bits - bit_count r') < Z.to_nat (bits - bit_count r))%nat
              | inr r' => r' = r /\ bits <= bit_count r
              end)
    (fun c => c = StatusFault /\ (length s0 < Z.to_nat bits)%nat).
Proof.
  intros Hbits (Hd & Ho & Hs & Hn & Hc & Hb & Hst & Hdat & Hsz). unfold ensure_step.
  destruct (Z.ltb_spec (bit_count r) bits) as [Hlt|]; cbn [negb]; [|by cbn].
  destruct (Z.leb_spec (br_size r) (byte_offset r)) as [Hge|Hin].
  { cbn. split; [done|]. rewrite <- Hst. unfold stream, unread.
    replace (Z.to_nat (br_size r - byte_offset r)) with 0%nat by lia. rewrite slice_0. cbn.
    rewrite length_app, length_low_bits. cbn. lia. }
  apply wp_bind, wp_aget; [lia|]. intros b Hbl. pose proof (bytes_lookup _ _ _ Hd Hbl) as Hby.
  destruct (Z.leb_spec 32 (bit_count r)); [lia|]. cbn.
  pose proof (Z.pow_pos_nonneg 2 (bit_count r) ltac:(lia) ltac:(lia)).
  assert (0 <= Z.shiftl b (bit_count r) < 2 ^ (bit_count r + 8)) as Hsh.
  { rewrite Z.shiftl_mul_pow2, Z.pow_add_r by lia. change (2 ^ 8) with 256. unfold is_byte in Hby. nia. }
  assert (2 ^ (bit_count r + 8) <= 2 ^ 32) by (apply Z.pow_le_mono_r; lia).
  rewrite (u32_small (Z.shiftl _ _)), (u32_small (bit_count r + 8)), u64_small by lia.
  split; [|lia]. split_and!; cbn [br_data br_size byte_offset bit_buffer bit_count]; try done; try lia.
  - apply Z.lor_nonneg. lia.
  - rewrite lor_shiftl_add by lia. rewrite Z.pow_add_r by lia. change (2 ^ 8) with 256.
    unfold is_byte in Hby. nia.
  - rewrite <- Hst. unfold stream. cbn [br_data br_size byte_offset bit_buffer bit_count].
    rewrite low_bits_load by (done || lia). rewrite <- app_assoc. f_equal.
    change (byte_bits b ++ bytes_bits ?l) with (bytes_bits (b :: l)). f_equal.
    symmetry. unfold unread. cbn [br_data br_size byte_offset bit_buffer bit_count].
    unfold slice. rewrite (drop_S _ b) by done. replace (Z.to_nat (br_size r - byte_offset r))
      with (S (Z.to_nat (br_size r - (byte_offset r + 1)))) by lia. cbn [take].
    by replace (Z.to_nat (byte_offset r + 1)) with (S (Z.to_nat (byte_offset r))) by lia.
Qed.

Definition same_source (r r' : PngBitReader) : Prop := br_data r' = br_data r /\ br_size r' = br_size r.

Lemma same_source_trans r1 r2 r3 : same_source r1 r2 -> same_source r2 r3 -> same_source r1 r3.
Proof. intros [H1 H2] [H3 H4]. split; congruence. Qed.

Lemma wp_read_bits r n :
  reader_wf r -> 0 <= n <= 24 ->
  wp (png_bit_reader_read_bits r n)
    (fun '(r', v) => reader_wf r' /\ same_source r r' /\
       stream r' = drop (Z.to_nat n) (stream r) /\ (Z.to_nat n <= length (stream r))%nat /\
       v = bits_value (take (Z.to_nat n) (stream r)))
    (fun c => c = StatusFault /\ (length (stream r) < Z.to_nat n)%nat).
Proof.
  intros Hwf Hn. unfold png_bit_reader_read_bits. destruct (Z.eqb_spec n 0) as [->|Hn0].
  { cbn. split_and!; try done. lia. }
  destruct Hwf as (Hd & Ho & Hs & Hsz & Hc & Hb). apply wp_bind. unfold png_bit_reader_ensure_bits.
  eapply wp_post.
  - apply (wp_iterate _ _ _ (loading n (stream r) (br_data r) (br_size r))
      (fun r => Z.to_nat (n - bit_count r))
      (fun r' => loading n (stream r) (br_data r) (br_size r) r' /\ n <= bit_count r')); [|
      split_and!; try done; lia|lia].
    intros t Ht. eapply wp_mono; [by apply loading_step|intros [?|?]; [done|by intros [-> ?]]|done].
  - intros r1 [(Hd1 & Ho1 & Hs1 & Hsz1 & Hc1 & Hb1 & Hst & Hdd & Hss) Hge].
    destruct (Z.leb_spec 32 n); [lia|].
    assert (0 < 2 ^ n <= 2 ^ 24) as Hp by (split; [lia|apply Z.pow_le_mono_r; lia]).
    rewrite Z.shiftl_1_l, (u32_small (2 ^ n)), (u32_small (2 ^ n - 1)) by lia.
    replace (2 ^ n - 1) with (Z.ones n) by (rewrite Z.ones_equiv; lia). rewrite Z.land_ones by lia.
    rewrite u32_small by lia. cbn [wp].
    set (k := Z.to_nat n). assert (n = Z.of_nat k) as Hk by lia.
    assert (stream r = low_bits (bit_buffer r1) k ++ low_bits (Z.shiftr (bit_buffer r1) n)
              (Z.to_nat (bit_count r1 - n)) ++ bytes_bits (unread r1)) as Hsplit.
    { rewrite <- Hst. unfold stream. rewrite app_assoc. f_equal. rewrite Hk, <- low_bits_app. f_equal. lia. }
    assert (0 <= Z.shiftr (bit_buffer r1) n < 2 ^ (bit_count r1 - n)) as Hsh.
    { rewrite Z.shiftr_div_pow2 by lia. split; [apply Z.div_pos; lia|].
      apply Z.div_lt_upper_bound; [lia|]. rewrite <- Z.pow_add_r by lia.
      replace (n + (bit_count r1 - n)) with (bit_count r1) by lia. apply Hb1. }
    split_and!; cbn [br_data br_size byte_offset bit_buffer bit_count]; try done; try lia.
    + unfold reader_wf. cbn [br_data br_size byte_offset bit_buffer bit_count].
      split_and!; done || lia.
    + unfold stream at 1. cbn [br_data br_size byte_offset bit_buffer bit_count].
      rewrite Hsplit, drop_app_length' by by rewrite length_low_bits. done.
    + rewrite Hsplit, length_app, length_low_bits. lia.
    + rewrite Hsplit, take_app_length' by by rewrite length_low_bits. rewrite bits_value_low. by rewrite <- Hk.
Qed.

(** Discarding the bits left in the buffer: the stream continues at a byte. *)
Lemma align_byte_ok r :
  reader_wf r ->
  let r' := png_bit_reader_align_byte r in
  reader_wf r' /\ same_source r r' /\ stream r' = bytes_bits (unread r) /\
  (exists pad, stream r = pad ++ stream r' /\ (length pad < 8)%nat).
Proof.
  intros (Hd & Ho & Hs & Hn & Hc & Hb). cbv zeta. split_and!; cbn; try done.
  eexists. split; [reflexivity|]. rewrite length_low_bits. lia.
Qed.

Lemma reader_init_ok data size :
  bytes data -> 0 <= size <= len data -> size < 2 ^ 63 ->
  reader_wf (png_bit_reader_init data size) /\
  stream (png_bit_reader_init data size) = bytes_bits (take (Z.to_nat size) data).
Proof.
  intros Hb Hs Hn. split; [split_and!; cbn; try done; lia|]. unfold stream, unread. cbn.
  by rewrite Z.sub_0_r.
Qed.

(** ** Fixed-width reads *)
Lemma read_le_u16_ok data off :
  bytes data -> 0 <= off -> off + 2 <= len data ->
  png_read_le_u16 data off = Ok (le_value (slice data (Z.to_nat off) 2)) /\
  0 <= le_value (slice data (Z.to_nat off) 2) < 2 ^ 16.
Proof.
  intros Hb Ho Hl. unfold png_read_le_u16.
  destruct (aget_lt data off) as (b0 & -> & H0); [lia|].
  destruct (aget_lt data (off + 1)) as (b1 & -> & H1); [lia|]. rewrite !bind_ok.
  replace (Z.to_nat (off + 1)) with (S (Z.to_nat off)) in H1 by lia.
  pose proof (bytes_lookup _ _ _ Hb H0) as R0. pose proof (bytes_lookup _ _ _ Hb H1) as R1.
  unfold slice. rewrite (drop_S _ _ _ H0), (drop_S _ _ _ H1). cbn [take].
  rewrite take_0. cbn [le_value].
  unfold is_byte in *. rewrite lor_shiftl_add by lia. rewrite u16_small by lia. split; [f_equal; lia|lia].
Qed.

(** Value of a big-endian byte sequence. *)
Definition be_value (l : list Z) : Z := le_value (rev l).

Lemma read_be_u32_ok data off :
  bytes data -> 0 <= off -> off + 4 <= len data ->
  png_read_be_u32 data off = Ok (be_value (slice data (Z.to_nat off) 4)) /\
  0 <= be_value (slice data (Z.to_nat off) 4) < 2 ^ 32.
Proof.
  intros Hb Ho Hl. unfold png_read_be_u32.
  destruct (aget_lt data off) as (b0 & -> & H0); [lia|].
  destruct (aget_lt data (off + 1)) as (b1 & -> & H1); [lia|].
  destruct (aget_lt data (off + 2)) as (b2 & -> & H2); [lia|].
  destruct (aget_lt data (off + 3)) as (b3 & -> & H3); [lia|]. rewrite !bind_ok.
  replace (Z.to_nat (off + 1)) with (S (Z.to_nat off)) in H1 by lia.
  replace (Z.to_nat (off + 2)) with (S (S (Z.to_nat off))) in H2 by lia.
  replace (Z.to_nat (off + 3)) with (S (S (S (Z.to_nat off)))) in H3 by lia.
  pose proof (bytes_lookup _ _ _ Hb H0) as R0. pose proof (bytes_lookup _ _ _ Hb H1) as R1.
  pose proof (bytes_lookup _ _ _ Hb H2) as R2. pose proof (bytes_lookup _ _ _ Hb H3) as R3.
  unfold slice. rewrite (drop_S _ _ _ H0), (drop_S _ _ _ H1), (drop_S _ _ _ H2), (drop_S _ _ _ H3).
  unfold be_value. cbn [take]. rewrite take_0. cbn [rev app le_value]. unfold is_byte in *.
  assert (forall x y z w, Z.lor (Z.lor (Z.lor x y) z) w = Z.lor (Z.lor (Z.lor w z) y) x) as ->.
  { intros x y z w. apply Z.bits_inj'. intros i _. rewrite !Z.lor_spec.
    by destruct (Z.testbit x i), (Z.testbit y i), (Z.testbit z i), (Z.testbit w i). }
  rewrite (lor_shiftl_add b3), (lor_shiftl_add (b3 + _)), (lor_shiftl_add (b3 + _ + _)) by lia.
  rewrite u32_small by lia. split; [f_equal; lia|lia].
Qed.

(** ** Adler-32 *)
Definition sum_bytes (l : list Z) : Z := foldr Z.add 0 l.

(** Each byte counted once for itself and once per byte after it. *)
Fixpoint weighted_sum (l : list Z) : Z :=
  match l with [] => 0 | b :: r => len l * b + weighted_sum r end.

(** The checksum RFC 1950 defines. *)
Definition adler32 (l : list Z) : Z :=
  ((len l + weighted_sum l) mod 65521) * 65536 + (1 + sum_bytes l) mod 65521.

Lemma sum_bytes_snoc l b : sum_bytes (l ++ [b]) = sum_bytes l + b.
Proof. unfold sum_bytes. induction l as [|x l IH]; cbn; [lia|]. rewrite IH. lia. Qed.

Lemma weighted_sum_snoc l b : weighted_sum (l ++ [b]) = weighted_sum l + sum_bytes l + b.
Proof.
  induction l as [|x l IH]; [cbn; lia|]. cbn [app weighted_sum]. rewrite IH. cbn [length]. rewrite length_app.
  unfold sum_bytes in *. cbn [foldr length]. lia.
Qed.

Lemma adler32_ok data :
  bytes data -> png_adler32 data (len data) = Ok (adler32 data).
Proof.
  intros Hb. assert (exists v, png_adler32 data (len data) = Ok v /\ v = adler32 data) as (v & -> & ->); [|done].
  apply wp_total. unfold png_adler32. rewrite Nat2Z.id. apply wp_bind.
  eapply wp_post with (Q := fun p =>
    p = ((1 + sum_bytes data) mod 65521, (len data + weighted_sum data) mod 65521)).
  { apply wp_for_range with (I := fun i p =>
      let l := take (Z.to_nat i) data in
      p = ((1 + sum_bytes l) mod 65521, (len l + weighted_sum l) mod 65521)).
    - done.
    - intros i p Hi Hp. cbv zeta in Hp. subst p. apply wp_bind, wp_aget; [lia|]. intros b Hbl.
      pose proof (bytes_lookup _ _ _ Hb Hbl) as Hbr. unfold is_byte in Hbr. apply wp_ok. cbv zeta.
      replace (Z.to_nat (i + 1)) with (S (Z.to_nat i)) by lia. rewrite (take_S_r _ _ b) by done.
      set (l := take (Z.to_nat i) data). rewrite sum_bytes_snoc, weighted_sum_snoc, length_app. cbn [length].
      pose proof (Z.mod_pos_bound (1 + sum_bytes l) 65521 ltac:(lia)).
      pose proof (Z.mod_pos_bound (len l + weighted_sum l) 65521 ltac:(lia)).
      rewrite (u32_small (_ + b)) by lia. rewrite Z.add_mod_idemp_l by lia.
      pose proof (Z.mod_pos_bound (1 + sum_bytes l + b) 65521 ltac:(lia)).
      rewrite u32_small by lia. rewrite <- Z.add_mod by lia. f_equal; f_equal; lia.
    - intros p. rewrite Z.add_0_l, Nat2Z.id, take_ge by lia. done. }
  intros p ->. apply wp_ok. unfold adler32.
  pose proof (Z.mod_pos_bound (1 + sum_bytes data) 65521 ltac:(lia)).
  pose proof (Z.mod_pos_bound (len data + weighted_sum data) 65521 ltac:(lia)).
  rewrite u32_small by (rewrite Z.shiftl_mul_pow2 by lia; lia).
  rewrite Z.lor_comm, lor_shiftl_add by lia. lia.
Qed.

Lemma adler32_range l : 0 <= adler32 l < 2 ^ 32.
Proof.
  unfold adler32. pose proof (Z.mod_pos_bound (1 + sum_bytes l) 65521 ltac:(lia)).
  pose proof (Z.mod_pos_bound (len l + weighted_sum l) 65521 ltac:(lia)). lia.
Qed.

(** The bit reader.  From a well-formed reader, [png_bit_reader_read_bits]
    of up to 24 bits returns the number spelled by the next bits of the stream,
    least significant first, and leaves the rest of the stream; it fails with
    [StatusFault] exactly when fewer bits are left, and never loses a byte:
    fewer than eight bits stay buffered. *)
Theorem png_bit_reader_reads r n :
  reader_wf r -> 0 <= n <= 24 ->
  if decide (Z.to_nat n <= length (stream r))%nat
  then exists r', png_bit_reader_read_bits r n =
         Ok (r', bits_value (take (Z.to_nat n) (stream r))) /\
       reader_wf r' /\ stream r' = drop (Z.to_nat n) (stream r)
  else png_bit_reader_read_bits r n = Fail StatusFault.
Proof.
  intros Hwf Hn. pose proof (wp_read_bits r n Hwf Hn) as Hwp.
  destruct (png_bit_reader_read_bits r n) as [[r' v]|c| |]; cbn in Hwp; try done.
  - destruct Hwp as (? & _ & ? & ? & ->). destruct (decide _); [by exists r'|done].
  - destruct Hwp as [-> ?]. destruct (decide _); [lia|done].
Qed.
