(* ===== verification/PngHuffman.v ===== *)
(** The Huffman trees of the PNG decoder (applications/libs/png/png.c): node
    arrays, insertion of a code, the canonical construction from code lengths
    and decoding of one symbol.

    A tree is its allocated nodes: [nodes] has length [node_count], and entries
    of the C array past that index are never read.  Child -1 is no child, symbol
    -1 no symbol. *)
From stdpp Require Import base list numbers.
From Stdlib Require Import ZArith Lia.
From S2P Require Import Prelude PngBits.

Local Open Scope Z_scope.

Definition PNG_MAX_HUFFMAN_NODES : Z := 2048.

Record PngHuffmanNode : Type := mkNode { left : Z; right : Z; symbol : Z }.

Record PngHuffmanTree : Type := mkTree { nodes : list PngHuffmanNode }.

Definition node_count (t : PngHuffmanTree) : Z := len (nodes t).

Definition png_huffman_reset : PngHuffmanTree := mkTree [mkNode (-1) (-1) (-1)].

(** [tree->node_count++] and the initialisation of the new node, when there is
    room. *)
Definition alloc_node (t : PngHuffmanTree) : Exec (PngHuffmanTree * Z) :=
  if PNG_MAX_HUFFMAN_NODES <=? node_count t then Fail StatusNoMemory
  else Ok (mkTree (nodes t ++ [mkNode (-1) (-1) (-1)]), node_count t).

Definition child (nd : PngHuffmanNode) (bit : bool) : Z := if bit then right nd else left nd.

Definition set_child (nd : PngHuffmanNode) (bit : bool) (c : Z) : PngHuffmanNode :=
  if bit then mkNode (left nd) c (symbol nd) else mkNode c (right nd) (symbol nd).

(** The child of [node_index] on [bit], created if missing. *)
Definition ensure_child (t : PngHuffmanTree) (node_index : Z) (bit : bool)
  : Exec (PngHuffmanTree * Z) :=
  nd <- aget (nodes t) node_index ;;
  if child nd bit <? 0 then
    '(t, next_index) <- alloc_node t ;;
    ns <- aset (nodes t) node_index (set_child nd bit next_index) ;;
    Ok (mkTree ns, next_index)
  else Ok (t, child nd bit).

(** The loop over the bits of the code, from [bit_index] on. *)
Fixpoint insert_loop (n : nat) (t : PngHuffmanTree) (code length sym bit_index node_index : Z)
  : Exec PngHuffmanTree :=
  match n with
  | O => Ok t
  | S n' =>
      if 32 <=? bit_index then Undef else
      let bit := negb (Z.land (Z.shiftr code bit_index) 1 =? 0) in
      '(t, c) <- ensure_child t node_index bit ;;
      if bit_index =? length - 1 then
        nd <- aget (nodes t) c ;;
        ns <- aset (nodes t) c (mkNode (left nd) (right nd) sym) ;;
        Ok (mkTree ns)
      else insert_loop n' t code length sym (bit_index + 1) c
  end.

Definition png_huffman_insert (t : PngHuffmanTree) (code length sym : Z) : Exec PngHuffmanTree :=
  if length =? 0 then Fail StatusInvalidArgument
  else insert_loop (Z.to_nat length) t code length sym 0 0.

Definition png_reverse_bits (code length : Z) : Exec Z :=
  for_range (Z.to_nat length) 0
    (fun bit_index reversed =>
       if 32 <=? bit_index then Undef else
       Ok (Z.lor (u32 (Z.shiftl reversed 1)) (Z.land (Z.shiftr code bit_index) 1))) 0.

(** First pass: how many codes of each length. *)
Definition count_lengths (lengths : list Z) (symbol_count : Z) : Exec (list Z * bool) :=
  for_range (Z.to_nat symbol_count) 0
    (fun sym '(counts, saw_symbol) =>
       length <- aget lengths sym ;;
       if 15 <? length then Fail StatusNotSupported else
       if negb (length =? 0) then
         c <- aget counts length ;;
         counts <- aset counts length (u32 (c + 1)) ;;
         Ok (counts, true)
       else Ok (counts, saw_symbol)) (replicate 16 0, false).

(** The first code of each length. *)
Definition first_codes (counts : list Z) : Exec (list Z) :=
  '(_, next_code) <- for_range 15 1
    (fun length '(code, next_code) =>
       c <- aget counts (length - 1) ;;
       let code := u32 (Z.shiftl (u32 (code + c)) 1) in
       next_code <- aset next_code length code ;;
       Ok (code, next_code)) (0, replicate 16 0) ;;
  Ok next_code.

(** Second pass: insert every symbol with the next code of its length. *)
Definition insert_symbols (t : PngHuffmanTree) (lengths next_code : list Z) (symbol_count : Z)
  : Exec (PngHuffmanTree * list Z) :=
  for_range (Z.to_nat symbol_count) 0
    (fun sym '(t, next_code) =>
       length <- aget lengths sym ;;
       if negb (length =? 0) then
         nc <- aget next_code length ;;
         code <- png_reverse_bits nc length ;;
         t <- png_huffman_insert t code length (i32 sym) ;;
         next_code <- aset next_code length (u32 (nc + 1)) ;;
         Ok (t, next_code)
       else Ok (t, next_code)) (t, next_code).

Definition png_huffman_build (lengths : list Z) (symbol_count : Z) : Exec PngHuffmanTree :=
  if symbol_count =? 0 then Fail StatusInvalidArgument else
  let t := png_huffman_reset in
  '(counts, saw_symbol) <- count_lengths lengths symbol_count ;;
  if negb saw_symbol then Fail StatusNotSupported else
  next_code <- first_codes counts ;;
  '(t, _) <- insert_symbols t lengths next_code symbol_count ;;
  Ok t.

(** ** Decoding *)
Definition decode_step (t : PngHuffmanTree) (s : PngBitReader * Z)
  : Exec ((PngBitReader * Z) + (PngBitReader * Z)) :=
  let '(r, node_index) := s in
  if (node_index <? 0) || (node_count t <=? node_index) then Fail StatusFault else
  nd <- aget (nodes t) node_index ;;
  if 0 <=? symbol nd then Ok (inr (r, symbol nd)) else
  '(r, bit) <- png_bit_reader_read_bits r 1 ;;
  Ok (inl (r, child nd (negb (bit =? 0)))).

(** Every turn but the last consumes a bit. *)
Definition bits_left (r : PngBitReader) : nat :=
  Z.to_nat (bit_count r + 8 * (br_size r - byte_offset r)).

Definition png_huffman_decode_symbol (r : PngBitReader) (t : PngHuffmanTree)
  : Exec (PngBitReader * Z) :=
  iterate (S (bits_left r)) (decode_step t) (r, 0).

(** ** Trees as tries *)

(** The node a path of bits leads to. *)
Fixpoint walk (ns : list PngHuffmanNode) (i : Z) (p : list bool) : option Z :=
  match p with
  | [] => Some i
  | b :: p' =>
      nd ← ns !! Z.to_nat i;
      if child nd b <? 0 then None else walk ns (child nd b) p'
  end.

(** The symbol field at the end of a path. *)
Definition node_at (t : PngHuffmanTree) (p : list bool) : option Z :=
  i ← walk (nodes t) 0 p; nd ← nodes t !! Z.to_nat i; Some (symbol nd).

(** Children come after their parent and have one parent only, the root carries
    no symbol, and every node is reached by some path. *)
Definition tree_wf (t : PngHuffmanTree) : Prop :=
  0 < node_count t <= PNG_MAX_HUFFMAN_NODES /\
  (forall i nd b, nodes t !! i = Some nd ->
     child nd b = -1 \/ Z.of_nat i < child nd b < node_count t) /\
  (forall i j nd nd' b b', nodes t !! i = Some nd -> nodes t !! j = Some nd' ->
     child nd b = child nd' b' -> 0 <= child nd b -> i = j /\ b = b') /\
  (exists nd, nodes t !! 0%nat = Some nd /\ symbol nd = -1) /\
  (forall k, 0 <= k < node_count t -> exists p, walk (nodes t) 0 p = Some k).
