(* ===== verification/PngHuffmanProofs.v ===== *)
(** Huffman trees as tries: insertion adds one path, decoding follows the stream
    to the first symbol, and the canonical construction gives every symbol the
    code RFC 1951 assigns to it. *)
From stdpp Require Import base list numbers.
From Stdlib Require Import ZArith Lia.
From S2P Require Import Prelude PngBits PngHuffman.

Local Open Scope Z_scope.

(** ** Walking *)
Lemma walk_app ns i p q : walk ns i (p ++ q) = (j ← walk ns i p; walk ns j q).
Proof.
  revert i. induction p as [|b p IH]; intros i; [done|]. cbn.
  destruct (ns !! Z.to_nat i); [|done]. cbn. destruct (_ <? 0); [done|]. apply IH.
Qed.

Lemma walk_range t p k :
  tree_wf t -> walk (nodes t) 0 p = Some k -> 0 <= k < node_count t /\ (p <> [] -> 0 < k).
Proof.
  intros (Hc & Hch & _). revert k. induction p as [|b p IH] using rev_ind; intros k Hw.
  { cbn in Hw. simplify_eq. split; [lia|done]. }
  rewrite walk_app in Hw. destruct (walk (nodes t) 0 p) as [j|]; [|done]. cbn in Hw.
  destruct (IH j eq_refl) as [Hj _]. destruct (nodes t !! Z.to_nat j) as [nd|] eqn:Hn; [|done].
  cbn in Hw. destruct (Z.ltb_spec (child nd b) 0); [done|]. simplify_eq.
  destruct (Hch _ _ b Hn); lia.
Qed.

Lemma walk_lookup t p k :
  tree_wf t -> walk (nodes t) 0 p = Some k -> exists nd, nodes t !! Z.to_nat k = Some nd.
Proof.
  intros Hwf Hw. destruct (walk_range t p k Hwf Hw) as [Hr _].
  apply lookup_lt_is_Some_2. unfold node_count in Hr. lia.
Qed.

Lemma walk_snoc ns p b :
  walk ns 0 (p ++ [b]) =
  (j ← walk ns 0 p; nd ← ns !! Z.to_nat j; if child nd b <? 0 then None else Some (child nd b)).
Proof. by rewrite walk_app. Qed.

Lemma walk_inj t p q k :
  tree_wf t -> walk (nodes t) 0 p = Some k -> walk (nodes t) 0 q = Some k -> p = q.
Proof.
  intros Hwf. revert q k. induction p as [|b p IH] using rev_ind; intros q k Hp Hq.
  - cbn in Hp. simplify_eq. destruct q as [|c q]; [done|].
    destruct (walk_range _ _ _ Hwf Hq) as [_ Hpos]. by specialize (Hpos ltac:(done)).
  - destruct q as [|c q _] using rev_ind.
    { cbn in Hq. simplify_eq. destruct (walk_range _ _ _ Hwf Hp) as [_ Hpos].
      assert (p ++ [b] <> []) as Hne by by destruct p. specialize (Hpos Hne). lia. }
    rewrite walk_snoc in Hp, Hq.
    destruct (walk (nodes t) 0 p) as [i|] eqn:Hi; [|done].
    destruct (walk (nodes t) 0 q) as [j|] eqn:Hj; [|done]. cbn in Hp, Hq.
    destruct (nodes t !! Z.to_nat i) as [nd|] eqn:Hni; [|done].
    destruct (nodes t !! Z.to_nat j) as [nd'|] eqn:Hnj; [|done]. cbn in Hp, Hq.
    destruct (Z.ltb_spec (child nd b) 0); [done|]. destruct (Z.ltb_spec (child nd' c) 0); [done|].
    simplify_eq. pose proof Hwf as (_ & _ & Hu & _).
    destruct (Hu _ _ _ _ b c Hni Hnj ltac:(done) ltac:(lia)) as [He ->].
    destruct (walk_range _ _ _ Hwf Hi), (walk_range _ _ _ Hwf Hj).
    assert (i = j) as -> by lia. by rewrite (IH q j eq_refl Hj).
Qed.

Lemma node_at_walk t p k nd :
  walk (nodes t) 0 p = Some k -> nodes t !! Z.to_nat k = Some nd -> node_at t p = Some (symbol nd).
Proof. intros Hw Hn. unfold node_at. by rewrite Hw; cbn; rewrite Hn. Qed.

Lemma node_at_some t p s :
  node_at t p = Some s -> exists k nd, walk (nodes t) 0 p = Some k /\
    nodes t !! Z.to_nat k = Some nd /\ symbol nd = s.
Proof.
  unfold node_at. destruct (walk _ 0 p) as [k|]; [|done]. cbn.
  destruct (nodes t !! _) as [nd|] eqn:Hn; [|done]. cbn. intros [= <-]. by exists k, nd.
Qed.

Lemma node_at_none t p : tree_wf t -> node_at t p = None <-> walk (nodes t) 0 p = None.
Proof.
  intros Hwf. unfold node_at. destruct (walk _ 0 p) as [k|] eqn:Hw; [|done]. cbn.
  destruct (walk_lookup _ _ _ Hwf Hw) as [nd ->]. done.
Qed.

Lemma node_at_prefix t p q :
  tree_wf t -> node_at t (p ++ q) <> None -> node_at t p <> None.
Proof.
  intros Hwf Hn Hp. apply Hn. rewrite node_at_none in Hp |- * by done. by rewrite walk_app, Hp.
Qed.

(** ** Creating a child *)
Definition grow (ns : list PngHuffmanNode) (i : Z) (b : bool) (nd : PngHuffmanNode)
  : list PngHuffmanNode :=
  <[Z.to_nat i := set_child nd b (len ns)]> (ns ++ [mkNode (-1) (-1) (-1)]).

Lemma child_set_child nd b c b' :
  child (set_child nd b c) b' = if Bool.eqb b b' then c else child nd b'.
Proof. by destruct b, b'. Qed.

Lemma symbol_set_child nd b c : symbol (set_child nd b c) = symbol nd.
Proof. by destruct b. Qed.

Section Grow.
Context (t : PngHuffmanTree) (p : list bool) (i : Z) (b : bool) (nd : PngHuffmanNode).
Hypothesis Hwf : tree_wf t.
Hypothesis Hp : walk (nodes t) 0 p = Some i.
Hypothesis Hnd : nodes t !! Z.to_nat i = Some nd.
Hypothesis Hno : child nd b < 0.

Lemma grow_lookup k :
  grow (nodes t) i b nd !! k =
  if decide (k = Z.to_nat i) then Some (set_child nd b (len (nodes t)))
  else if decide (k = length (nodes t)) then Some (mkNode (-1) (-1) (-1)) else nodes t !! k.
Proof.
  pose proof (lookup_lt_Some _ _ _ Hnd). unfold grow. destruct (decide (k = Z.to_nat i)) as [->|Hk].
  - apply list_lookup_insert_eq. rewrite length_app. lia.
  - rewrite list_lookup_insert_ne by done. destruct (decide (k = length (nodes t))) as [->|Hk2].
    + by rewrite lookup_app_r, Nat.sub_diag by lia.
    + destruct (Nat.lt_ge_cases k (length (nodes t))).
      * by rewrite lookup_app_l by lia.
      * rewrite lookup_app_r by lia. by rewrite !lookup_ge_None_2 by (cbn; lia).
Qed.

Lemma grow_walk q :
  walk (grow (nodes t) i b nd) 0 q =
  if decide (q = p ++ [b]) then Some (len (nodes t)) else walk (nodes t) 0 q.
Proof.
  destruct (walk_range _ _ _ Hwf Hp) as [Hir _]. unfold node_count in Hir.
  induction q as [|c q IH] using rev_ind.
  { destruct (decide ([] = p ++ [b])) as [E|]; [by destruct p|done]. }
  rewrite walk_snoc, IH. clear IH. destruct (decide (q = p ++ [b])) as [->|Hq].
  - cbn. rewrite Nat2Z.id, grow_lookup. rewrite decide_False by lia. rewrite decide_True by done. cbn.
    assert (child (mkNode (-1) (-1) (-1)) c = -1) as -> by by destruct c. cbn.
    rewrite decide_False by (intros E; apply (f_equal length) in E; rewrite !length_app in E; cbn in E; lia).
    rewrite !walk_snoc, Hp. cbn. rewrite Hnd. cbn. destruct (Z.ltb_spec (child nd b) 0); [done|lia].
  - rewrite walk_snoc. destruct (walk (nodes t) 0 q) as [k|] eqn:Hk; cbn.
    2: { rewrite decide_False; [done|]. intros E. apply app_inj_tail in E as [-> ->]. congruence. }
    destruct (walk_range _ _ _ Hwf Hk) as [Hkr _]. unfold node_count in Hkr. rewrite grow_lookup.
    destruct (decide (Z.to_nat k = Z.to_nat i)) as [E|E].
    + assert (k = i) as -> by lia. pose proof (walk_inj _ _ _ _ Hwf Hp Hk) as <-. rewrite Hnd. cbn.
      rewrite child_set_child. destruct (Bool.eqb b c) eqn:Eb.
      * apply Bool.eqb_prop in Eb as ->. rewrite decide_True by done.
        destruct (Z.ltb_spec (len (nodes t)) 0); [lia|done].
      * rewrite decide_False; [done|]. intros [_ ->]%app_inj_tail. by rewrite Bool.eqb_reflx in Eb.
    + rewrite decide_False by lia. rewrite decide_False; [done|].
      intros [-> _]%app_inj_tail. rewrite Hk in Hp. by simplify_eq.
Qed.

Lemma grow_wf : node_count t < PNG_MAX_HUFFMAN_NODES -> tree_wf (mkTree (grow (nodes t) i b nd)).
Proof.
  intros Hroom. pose proof Hwf as (Hc & Hch & Hu & (rt & Hrt & Hrs) & Hre).
  destruct (walk_range _ _ _ Hwf Hp) as [Hir _]. unfold node_count in *. cbn [nodes].
  assert (length (grow (nodes t) i b nd) = S (length (nodes t))) as Hl
    by (unfold grow; rewrite length_insert, length_app; cbn; lia).
  assert (forall k x c, grow (nodes t) i b nd !! k = Some x -> 0 <= child x c ->
    (k = Z.to_nat i /\ c = b /\ child x c = len (nodes t)) \/
    (exists y, nodes t !! k = Some y /\ child x c = child y c)) as Hcase.
  { intros k x c. rewrite grow_lookup. destruct (decide _) as [->|_]; [|destruct (decide _)].
    - intros [= <-]. rewrite child_set_child. destruct (Bool.eqb b c) eqn:E; [|by eauto].
      apply Bool.eqb_prop in E as ->. by left.
    - intros [= <-] Hge. destruct c; cbn in Hge; lia.
    - intros Hx _. right. by exists x. }
  split_and!.
  - unfold node_count. cbn [nodes]. lia.
  - unfold node_count. cbn [nodes]. lia.
  - intros k x c Hx. cbn [nodes] in Hx. unfold node_count. cbn [nodes]. rewrite Hl.
    destruct (Z.lt_ge_cases (child x c) 0) as [Hneg|Hge].
    + left. rewrite grow_lookup in Hx. destruct (decide _) as [->|_]; [|destruct (decide _)].
      * simplify_eq. rewrite child_set_child in *. destruct (Bool.eqb b c); [lia|].
        destruct (Hch _ _ c Hnd); lia.
      * simplify_eq. by destruct c.
      * destruct (Hch _ _ c Hx); lia.
    + right. destruct (Hcase k x c Hx Hge) as [(-> & -> & ->)|(y & Hy & E)]; [lia|].
      rewrite E in *. destruct (Hch _ _ c Hy); lia.
  - intros k k' x x' c c' Hx Hx' E Hge. cbn [nodes] in Hx, Hx'.
    destruct (Hcase k x c Hx Hge) as [(-> & -> & E1)|(y & Hy & E1)];
    destruct (Hcase k' x' c' Hx' ltac:(lia)) as [(-> & -> & E2)|(y' & Hy' & E2)].
    + done.
    + destruct (Hch _ _ c' Hy'); lia.
    + destruct (Hch _ _ c Hy); lia.
    + apply (Hu _ _ _ _ c c' Hy Hy'); lia.
  - destruct (decide (i = 0)) as [E|Hi].
    + exists (set_child nd b (len (nodes t))). cbn [nodes].
      split; [by rewrite grow_lookup, decide_True by (by rewrite E)|].
      rewrite symbol_set_child. pose proof Hnd as Hn. rewrite E in Hn.
      change (Z.to_nat 0) with 0%nat in Hn. congruence.
    + exists rt. split; [|done]. cbn [nodes]. rewrite grow_lookup, decide_False by lia.
      rewrite decide_False; [done|]. lia.
  - intros k Hk. unfold node_count in Hk. cbn [nodes] in Hk |- *.
    destruct (decide (k = len (nodes t))) as [->|Hne].
    + exists (p ++ [b]). by rewrite grow_walk, decide_True.
    + destruct (Hre k) as [q Hq]; [lia|]. exists q. rewrite grow_walk, decide_False; [done|]. intros ->.
      rewrite walk_snoc, Hp in Hq. cbn in Hq. rewrite Hnd in Hq. cbn in Hq.
      destruct (Z.ltb_spec (child nd b) 0); [done|lia].
Qed.

Lemma grow_node_at q :
  node_at (mkTree (grow (nodes t) i b nd)) q =
  if decide (q = p ++ [b]) then Some (-1) else node_at t q.
Proof.
  destruct (walk_range _ _ _ Hwf Hp) as [Hir _]. unfold node_count in Hir.
  unfold node_at. cbn [nodes]. rewrite grow_walk. destruct (decide (q = p ++ [b])) as [->|Hq]; cbn.
  - rewrite Nat2Z.id, grow_lookup, decide_False by lia. by rewrite decide_True.
  - destruct (walk (nodes t) 0 q) as [k|] eqn:Hk; [|done]. cbn.
    destruct (walk_range _ _ _ Hwf Hk) as [Hkr _]. unfold node_count in Hkr. rewrite grow_lookup.
    destruct (decide (Z.to_nat k = Z.to_nat i)) as [E|E]; [|by rewrite decide_False by lia].
    rewrite E, Hnd. cbn. by rewrite symbol_set_child.
Qed.
End Grow.

(** ** Inserting a code *)

(** [ensure_child] at the node of path [p]. *)
Lemma wp_ensure_child t p i b :
  tree_wf t -> walk (nodes t) 0 p = Some i ->
  wp (ensure_child t i b)
    (fun '(t', c) => tree_wf t' /\ walk (nodes t') 0 (p ++ [b]) = Some c /\
       forall q, node_at t' q =
         if decide (q = p ++ [b]) then Some (default (-1) (node_at t q)) else node_at t q)
    (fun e => e = StatusNoMemory /\ node_count t = PNG_MAX_HUFFMAN_NODES).
Proof.
  intros Hwf Hp. destruct (walk_lookup _ _ _ Hwf Hp) as [nd Hnd].
  destruct (walk_range _ _ _ Hwf Hp) as [Hr _]. unfold ensure_child.
  rewrite (aget_ok _ _ nd) by (done || lia). cbn [bind].
  destruct (Z.ltb_spec (child nd b) 0) as [Hno|Hyes].
  - unfold alloc_node. pose proof Hwf as (Hc & _).
    destruct (Z.leb_spec PNG_MAX_HUFFMAN_NODES (node_count t)); [cbn; split; [done|lia]|]. cbn [bind].
    cbn [nodes]. unfold node_count in *. rewrite aset_ok by (rewrite length_app; lia). cbn [bind wp].
    fold (grow (nodes t) i b nd). split_and!; cbn [nodes]; try done.
    + by apply (grow_wf t p).
    + rewrite (grow_walk t p) by done. by rewrite decide_True.
    + intros q. rewrite (grow_node_at t p) by done. destruct (decide _) as [->|]; [|done].
      assert (node_at t (p ++ [b]) = None) as ->; [|done].
      apply node_at_none; [done|]. rewrite walk_snoc, Hp. cbn. rewrite Hnd. cbn.
      destruct (Z.ltb_spec (child nd b) 0); [done|lia].
  - cbn. assert (walk (nodes t) 0 (p ++ [b]) = Some (child nd b)) as Hw.
    { rewrite walk_snoc, Hp. cbn. rewrite Hnd. cbn. destruct (Z.ltb_spec (child nd b) 0); [lia|done]. }
    split_and!; try done; try lia. intros q. destruct (decide _) as [->|]; [|done].
    destruct (walk_lookup _ _ _ Hwf Hw) as [nd' Hnd']. by rewrite (node_at_walk _ _ _ _ Hw Hnd').
Qed.

(** Storing a symbol at the node of a non-empty path. *)
Definition put_symbol (ns : list PngHuffmanNode) (c : Z) (nd : PngHuffmanNode) (sym : Z) :=
  <[Z.to_nat c := mkNode (left nd) (right nd) sym]> ns.

Lemma put_symbol_ok t p c nd sym :
  tree_wf t -> walk (nodes t) 0 p = Some c -> p <> [] -> nodes t !! Z.to_nat c = Some nd ->
  let t' := mkTree (put_symbol (nodes t) c nd sym) in
  tree_wf t' /\ node_count t' = node_count t /\
  forall q, node_at t' q = if decide (q = p) then Some sym else node_at t q.
Proof.
  intros Hwf Hp Hne Hnd. cbv zeta. destruct (walk_range _ _ _ Hwf Hp) as [Hr Hpos].
  specialize (Hpos Hne). pose proof Hwf as (Hc & Hch & Hu & (rt & Hrt & Hrs) & Hre).
  pose proof (lookup_lt_Some _ _ _ Hnd) as Hlt.
  assert (forall k x, put_symbol (nodes t) c nd sym !! k = Some x ->
    exists y, nodes t !! k = Some y /\ forall b, child x b = child y b) as Hcase.
  { intros k x. unfold put_symbol. destruct (decide (k = Z.to_nat c)) as [->|Hk].
    - rewrite list_lookup_insert_eq by done. intros [= <-]. exists nd. split; [done|by intros []].
    - rewrite list_lookup_insert_ne by done. eauto. }
  assert (forall q, walk (put_symbol (nodes t) c nd sym) 0 q = walk (nodes t) 0 q) as Hwalk.
  { induction q as [|b q IH] using rev_ind; [done|]. rewrite !walk_snoc, IH.
    destruct (walk (nodes t) 0 q) as [k|] eqn:Hk; [|done]. cbn.
    destruct (walk_lookup _ _ _ Hwf Hk) as [y Hy]. rewrite Hy.
    destruct (lookup_lt_is_Some_2 (put_symbol (nodes t) c nd sym) (Z.to_nat k)) as [x Hx].
    { unfold put_symbol. rewrite length_insert. by eapply lookup_lt_Some. }
    destruct (Hcase _ _ Hx) as (y' & Hy' & Hcc). rewrite Hx. simplify_eq/=. by rewrite Hcc. }
  assert (node_count (mkTree (put_symbol (nodes t) c nd sym)) = node_count t) as Hcount
    by (unfold node_count, put_symbol; cbn; by rewrite length_insert).
  unfold tree_wf. rewrite Hcount. split_and!; [lia|lia| | | | |done|].
  - intros k x b Hx. destruct (Hcase _ _ Hx) as (y & Hy & ->). by apply Hch.
  - intros k k' x x' b b' Hx Hx'. destruct (Hcase _ _ Hx) as (y & Hy & ->), (Hcase _ _ Hx') as (y' & Hy' & ->).
    by apply Hu.
  - exists rt. cbn [nodes]. unfold put_symbol. by rewrite list_lookup_insert_ne by lia.
  - intros k Hk. destruct (Hre k Hk) as [q Hq]. exists q. cbn [nodes]. by rewrite Hwalk.
  - intros q. unfold node_at. cbn [nodes]. rewrite Hwalk.
    destruct (walk (nodes t) 0 q) as [k|] eqn:Hk; cbn.
    2: { rewrite decide_False; [done|]. intros ->. congruence. }
    destruct (walk_range _ _ _ Hwf Hk) as [Hkr _]. unfold put_symbol.
    destruct (decide (q = p)) as [->|Hq].
    + rewrite Hp in Hk. simplify_eq. by rewrite list_lookup_insert_eq.
    + rewrite list_lookup_insert_ne; [done|]. intros E. apply Hq.
      assert (c = k) as -> by lia. by apply (walk_inj t _ _ k).
Qed.

(** What inserting path [P] does to the symbols of a trie. *)
Definition inserted (F : list bool -> option Z) (P : list bool) (sym : Z) (q : list bool) : option Z :=
  if decide (q = P) then Some sym
  else if decide (q `prefix_of` P) then Some (default (-1) (F q)) else F q.

(** Running out of nodes: a full tree, whose paths are old ones or prefixes of [P]. *)
Definition full (t : PngHuffmanTree) (P : list bool) (e : Z) : Prop :=
  e = StatusNoMemory /\ exists t', tree_wf t' /\ node_count t' = PNG_MAX_HUFFMAN_NODES /\
  forall q, node_at t' q <> None -> node_at t q <> None \/ q `prefix_of` P.

Lemma bit_of_code code k :
  0 <= k -> negb (Z.land (Z.shiftr code k) 1 =? 0) = Z.testbit code k.
Proof.
  intros Hk. change 1 with (Z.ones 1). rewrite Z.land_ones by lia. change (2 ^ 1) with 2.
  rewrite <- Z.bit0_mod, Z.shiftr_spec by lia. rewrite Z.add_0_l. by destruct (Z.testbit code k).
Qed.

Lemma take_low_bits code n k :
  (k < n)%nat -> take (S k) (low_bits code n) = take k (low_bits code n) ++ [Z.testbit code (Z.of_nat k)].
Proof.
  intros Hk. apply take_S_r. unfold low_bits. change (map ?f ?l) with (f <$> l).
  by rewrite list_lookup_fmap, lookup_seq_lt by done.
Qed.

Lemma wp_insert_loop n t code length sym i :
  tree_wf t -> (n <= Z.to_nat length)%nat -> (0 < n)%nat -> length <= 32 ->
  let k := (Z.to_nat length - n)%nat in
  let P := low_bits code (Z.to_nat length) in
  walk (nodes t) 0 (take k P) = Some i ->
  wp (insert_loop n t code length sym (Z.of_nat k) i)
    (fun t' => tree_wf t' /\ forall q, node_at t' q = inserted (node_at t) P sym q)
    (full t P).
Proof.
  revert t i. induction n as [|n IH]; intros t i Hwf Hn Hpos Hl k P Hi; [lia|]. cbn [insert_loop].
  destruct (Z.leb_spec 32 (Z.of_nat k)); [lia|]. rewrite bit_of_code by lia.
  assert (take (S k) P = take k P ++ [Z.testbit code (Z.of_nat k)]) as HS
    by (apply take_low_bits; lia).
  assert (forall q, q `prefix_of` P -> q <> P -> (List.length q <= k)%nat -> node_at t q <> None) as Hpre.
  { intros q [z Hz] _ Hle. apply (node_at_prefix t q (take (k - List.length q) z)); [done|].
    replace (q ++ take (k - List.length q) z) with (take k P)
      by (rewrite Hz, take_app; f_equal; by rewrite take_ge by lia).
    destruct (walk_lookup _ _ _ Hwf Hi) as [nd Hnd]. by rewrite (node_at_walk _ _ _ _ Hi Hnd). }
  apply wp_bind. eapply wp_mono; [by apply (wp_ensure_child t (take k P))| |intros e [-> ?]; split; [done|by exists t; auto]].
  intros [t1 c] (Hwf1 & Hc & Hat). rewrite <- HS in Hc, Hat.
  assert (len P = Z.max 0 length) as HlP by (unfold P; rewrite length_low_bits; lia).
  destruct (Z.eqb_spec (Z.of_nat k) (length - 1)) as [He|He].
  - assert (take (S k) P = P) as HP by (apply take_ge; lia). rewrite HP in Hc, Hat.
    destruct (walk_lookup _ _ _ Hwf1 Hc) as [nd Hnd].
    destruct (walk_range _ _ _ Hwf1 Hc) as [Hcr _].
    rewrite (aget_ok _ _ nd) by (done || lia). cbn [bind]. rewrite aset_ok by (unfold node_count in Hcr; lia).
    cbn [bind wp]. fold (put_symbol (nodes t1) c nd sym).
    destruct (put_symbol_ok t1 P c nd sym) as (Hwf2 & Hn2 & Hat2); try done.
    { intros E. apply (f_equal List.length) in E. cbn in E. lia. }
    split; [done|]. intros q. rewrite Hat2. unfold inserted.
    destruct (decide (q = P)); [done|]. rewrite Hat, decide_False by done.
    destruct (decide (q `prefix_of` P)) as [Hq|]; [|done].
    destruct (node_at t q) eqn:E; [done|]. exfalso. apply (Hpre q Hq); [done| |done].
    pose proof (prefix_length _ _ Hq). destruct (decide (List.length q = List.length P)%nat); [|lia].
    exfalso. apply n0. by apply (prefix_length_eq q P); [|lia].
  - replace (Z.of_nat k + 1) with (Z.of_nat (Z.to_nat length - n)) by lia.
    eapply wp_mono; [apply (IH t1 c); try done; try lia| |].
    + by replace (Z.to_nat length - n)%nat with (S k) by lia.
    + intros t2 [Hwf2 Hat2]. split; [done|].
      intros q. rewrite Hat2. fold P. unfold inserted. destruct (decide (q = P)); [done|].
      rewrite Hat. destruct (decide (q = take (S k) P)) as [Eq|].
      * rewrite !decide_True by (rewrite Eq; apply prefix_take). by destruct (node_at t q).
      * done.
    + intros e (-> & t2 & Hwf2 & Hn2 & Hq2). split; [done|]. exists t2. split_and!; [done|done|].
      intros q Hq. destruct (Hq2 q Hq) as [Hq1|]; [|by right]. rewrite Hat in Hq1.
      destruct (decide (q = take (S k) P)) as [->|]; [right; apply prefix_take|by left].
Qed.

Lemma wp_insert t code length sym :
  tree_wf t -> 0 < length <= 32 ->
  wp (png_huffman_insert t code length sym)
    (fun t' => tree_wf t' /\ forall q, node_at t' q = inserted (node_at t) (low_bits code (Z.to_nat length)) sym q)
    (full t (low_bits code (Z.to_nat length))).
Proof.
  intros Hwf Hl. unfold png_huffman_insert. destruct (Z.eqb_spec length 0); [lia|].
  pose proof (wp_insert_loop (Z.to_nat length) t code length sym 0 Hwf) as Hwp.
  rewrite Nat.sub_diag in Hwp by lia. apply Hwp; [lia|lia|lia|]. by rewrite take_0.
Qed.

(** ** Decoding *)

(** The first symbol met when following the stream from a node. *)
Fixpoint follow (ns : list PngHuffmanNode) (s : list bool) (i : Z) : option (Z * list bool) :=
  nd ← ns !! Z.to_nat i;
  if 0 <=? symbol nd then Some (symbol nd, s)
  else match s with
       | [] => None
       | b :: s' => if child nd b <? 0 then None else follow ns s' (child nd b)
       end.

Lemma length_bytes_bits l : length (bytes_bits l) = (8 * length l)%nat.
Proof.
  unfold bytes_bits. rewrite (length_concat_uniform 8); [rewrite length_map; lia|].
  apply List.Forall_map, Forall_true. intros b. unfold byte_bits. by rewrite length_map, length_seq.
Qed.

Lemma bits_left_stream r : reader_wf r -> bits_left r = length (stream r).
Proof.
  intros (_ & Ho & Hs & _ & Hc & _). unfold bits_left, stream, unread.
  rewrite length_app, length_low_bits, length_bytes_bits, length_slice by lia. lia.
Qed.

Lemma wp_decode_loop t fuel r i :
  tree_wf t -> reader_wf r -> (length (stream r) < fuel)%nat -> -1 <= i < node_count t ->
  wp (iterate fuel (decode_step t) (r, i))
    (fun '(r', sym) => reader_wf r' /\ same_source r r' /\ 0 <= i /\
       follow (nodes t) (stream r) i = Some (sym, stream r'))
    (fun c => c = StatusFault /\ (0 <= i -> follow (nodes t) (stream r) i = None)).
Proof.
  intros Hwf. revert r i. induction fuel as [|fuel IH]; intros r i Hr Hf Hi; [lia|].
  cbn [iterate]. unfold decode_step at 1.
  destruct (Z.ltb_spec i 0) as [Hneg|Hpos]; cbn [orb]; [cbn; split; [done|lia]|].
  destruct (Z.leb_spec (node_count t) i); [lia|]. unfold node_count in *.
  destruct (lookup_lt_is_Some_2 (nodes t) (Z.to_nat i)) as [nd Hnd]; [lia|].
  rewrite (aget_ok _ _ nd) by (done || lia). rewrite bind_ok.
  destruct (0 <=? symbol nd) eqn:Hsym.
  { cbn. split_and!; try done. destruct (stream r); cbn; rewrite Hnd; cbn; by rewrite Hsym. }
  rewrite bind_assoc. apply wp_bind. eapply wp_mono; [by apply wp_read_bits| |].
  - intros [r1 v] (Hr1 & Hs1 & Hst & Hlen & Hv). cbn [bind]. change (Z.to_nat 1) with 1%nat in *.
    destruct (stream r) as [|b s] eqn:Hs; [cbn in Hlen; lia|]. cbn in Hv.
    change (stream r1 = s) in Hst.
    assert (negb (v =? 0) = b) as -> by (rewrite Hv; by destruct b).
    pose proof Hwf as (_ & Hch & _). eapply wp_mono; [apply (IH r1 (child nd b)); try done| |].
    + rewrite Hst. cbn [length] in Hf. lia.
    + destruct (Hch _ _ b Hnd); unfold node_count in *; lia.
    + intros [r2 sym] (Hr2 & Hs2 & Hge & Hfo). split_and!; try done.
      { by eapply same_source_trans. }
      rewrite Hst in Hfo. cbn. rewrite Hnd. cbn. rewrite Hsym.
      destruct (Z.ltb_spec (child nd b) 0); [lia|done].
    + intros c [-> Hfo]. split; [done|]. intros _. cbn. rewrite Hnd. cbn. rewrite Hsym.
      destruct (Z.ltb_spec (child nd b) 0); [done|]. rewrite <- Hst. by apply Hfo.
  - intros c [-> Hlen]. split; [done|]. intros _.
    destruct (stream r) as [|b s]; [|cbn in Hlen; lia]. cbn. rewrite Hnd. cbn. by rewrite Hsym.
Qed.

Lemma follow_suffix ns s i sym s' :
  follow ns s i = Some (sym, s') -> exists p, s = p ++ s' /\ 0 <= sym.
Proof.
  revert i. induction s as [|b s IH]; intros i; cbn; destruct (ns !! Z.to_nat i) as [nd|]; try done; cbn.
  - destruct (Z.leb_spec 0 (symbol nd)); [|done]. intros [= <- <-]. by exists [].
  - destruct (Z.leb_spec 0 (symbol nd)).
    + intros [= <- <-]. by exists [].
    + destruct (child nd b <? 0); [done|]. intros Hf. destruct (IH _ Hf) as (p & -> & ?).
      by exists (b :: p).
Qed.

(** Decoding a symbol: the stream is followed from the root; at least one bit is
    consumed. *)
Lemma wp_decode_symbol t r :
  tree_wf t -> reader_wf r ->
  wp (png_huffman_decode_symbol r t)
    (fun '(r', sym) => reader_wf r' /\ same_source r r' /\ 0 <= sym /\
       (length (stream r') < length (stream r))%nat /\
       follow (nodes t) (stream r) 0 = Some (sym, stream r'))
    (fun c => c = StatusFault /\ follow (nodes t) (stream r) 0 = None).
Proof.
  intros Hwf Hr. unfold png_huffman_decode_symbol. rewrite bits_left_stream by done.
  pose proof Hwf as (Hc & _ & _ & (rt & Hrt & Hrs) & _).
  eapply wp_mono; [apply wp_decode_loop; done || lia| |].
  - intros [r' sym] (Hr' & Hs & _ & Hf). destruct (follow_suffix _ _ _ _ _ Hf) as (p & Hp & Hsy).
    split_and!; try done. destruct p as [|b p]; [|rewrite Hp; cbn; rewrite length_app; lia].
    exfalso. cbn in Hp. rewrite Hp in Hf.
    assert (forall s, follow (nodes t) s 0 = Some (sym, s) -> False) as Hno.
    { intros s. destruct s as [|b s]; cbn; change (Z.to_nat 0) with 0%nat; rewrite Hrt; cbn; rewrite Hrs; cbn;
        [done|]. destruct (child rt b <? 0); [done|]. intros Hfs.
      destruct (follow_suffix _ _ _ _ _ Hfs) as (p & E & _). apply (f_equal length) in E.
      rewrite length_app in E. cbn in E. lia. }
    by eapply Hno.
  - intros c [-> Hf]. split; [done|]. by apply Hf.
Qed.

(** Following the path of a symbol when no shorter path carries one. *)
Lemma follow_path t p rest sym :
  tree_wf t -> node_at t p = Some sym -> 0 <= sym ->
  (forall q, q `prefix_of` p -> q <> p -> node_at t q = Some (-1)) ->
  follow (nodes t) (p ++ rest) 0 = Some (sym, rest).
Proof.
  intros Hwf Hp Hs Hpre.
  assert (forall p2 p1 i, p = p1 ++ p2 -> walk (nodes t) 0 p1 = Some i ->
    follow (nodes t) (p2 ++ rest) i = Some (sym, rest)) as Hgen.
  { induction p2 as [|b p2 IH]; intros p1 i E Hw; destruct (walk_lookup _ _ _ Hwf Hw) as [nd Hnd];
      pose proof (node_at_walk _ _ _ _ Hw Hnd) as Hat.
    - rewrite app_nil_r in E. subst p1. rewrite Hp in Hat. simplify_eq. cbn [app].
      apply Z.leb_le in Hs. destruct rest; cbn; rewrite Hnd; cbn; by rewrite Hs.
    - rewrite (Hpre p1) in Hat.
      2: { rewrite E. by apply prefix_app_r. }
      2: { intros ->. apply (f_equal length) in E. rewrite length_app in E. cbn in E. lia. }
      injection Hat as Hat. cbn. rewrite Hnd. cbn. rewrite <- Hat. cbn.
      assert (node_at t (p1 ++ [b]) <> None) as Hne.
      { apply (node_at_prefix t _ p2); [done|]. rewrite <- app_assoc. cbn. rewrite <- E. by rewrite Hp. }
      rewrite node_at_none in Hne by done. rewrite walk_snoc, Hw in Hne. cbn in Hne. rewrite Hnd in Hne.
      cbn in Hne. destruct (Z.ltb_spec (child nd b) 0); [done|].
      apply (IH (p1 ++ [b])); [by rewrite <- app_assoc|]. rewrite walk_snoc, Hw. cbn. rewrite Hnd. cbn.
      destruct (Z.ltb_spec (child nd b) 0); [lia|done]. }
  by apply (Hgen p []).
Qed.
