(* ===== verification/PngCanonical.v ===== *)
(** The canonical code: what RFC 1951 assigns to a table of code lengths, that it
    is prefix-free when the table is not over-subscribed, and that
    [png_huffman_build] builds the tree of exactly that code. *)
From stdpp Require Import base list numbers.
From Stdlib Require Import ZArith Lia.
From S2P Require Import Prelude PngBits PngHuffman PngHuffmanProofs.

Local Open Scope Z_scope.

(** ** The specification *)

(** How many symbols have length [l]; lengths of zero do not count. *)
Definition count_len (L : list Z) (l : Z) : Z :=
  if l =? 0 then 0 else len (filter (fun x => x = l) L).

(** The first code of length [l], and the code of symbol [k]. *)
Fixpoint first_code (L : list Z) (l : nat) : Z :=
  match l with
  | O => 0
  | S l' => 2 * (first_code L l' + count_len L (Z.of_nat l'))
  end.

Definition length_of (L : list Z) (k : nat) : Z := nth k L 0.

Definition canonical_code (L : list Z) (k : nat) : Z :=
  first_code L (Z.to_nat (length_of L k)) + count_len (take k L) (length_of L k).

(** The code as the stream carries it, most significant bit first. *)
Definition canonical_path (L : list Z) (k : nat) : list bool :=
  rev (low_bits (canonical_code L k) (Z.to_nat (length_of L k))).

(** The Kraft sum in units of 2^-l, over the symbols of length at most [l]. *)
Definition kraft_term (l : nat) (x : Z) : Z :=
  if (0 <? x) && (x <=? Z.of_nat l) then 2 ^ (Z.of_nat l - x) else 0.
Definition kraft (L : list Z) (l : nat) : Z := foldr Z.add 0 (map (kraft_term l) L).

(** The table is usable and not over-subscribed. *)
Definition lengths_ok (L : list Z) : Prop :=
  Forall (fun x => 0 <= x <= 15) L /\ kraft L 15 <= 2 ^ 15.

(** ** Kraft sums *)
Lemma count_len_cons x L l :
  count_len (x :: L) l = (if (x =? l) && negb (l =? 0) then 1 else 0) + count_len L l.
Proof.
  unfold count_len. destruct (Z.eqb_spec l 0) as [->|Hl]; [by rewrite andb_false_r|].
  rewrite list.filter_cons. destruct (Z.eqb_spec x l) as [->|Hx].
  - rewrite decide_True by done. cbn [length]. cbn. lia.
  - by rewrite decide_False by done.
Qed.

Lemma count_len_nonneg L l : 0 <= count_len L l.
Proof. unfold count_len. destruct (l =? 0); lia. Qed.

Lemma count_len_take_S L k x l :
  L !! k = Some x ->
  count_len (take (S k) L) l = count_len (take k L) l + (if (x =? l) && negb (l =? 0) then 1 else 0).
Proof.
  intros Hk. rewrite (take_S_r _ _ x) by done.
  assert (forall A, count_len (A ++ [x]) l = count_len A l + (if (x =? l) && negb (l =? 0) then 1 else 0)) as Hs.
  { intros A. induction A as [|y A IH]; [|cbn [app]; rewrite !count_len_cons, IH; lia].
    cbn [app]. rewrite count_len_cons. unfold count_len. cbn. destruct (l =? 0); cbn; lia. }
  apply Hs.
Qed.

Lemma count_len_take_le L k l : count_len (take k L) l <= count_len L l.
Proof.
  revert k. induction L as [|x L IH]; intros k; [by destruct k|]. destruct k as [|k].
  - unfold count_len at 1. cbn. pose proof (count_len_nonneg (x :: L) l). destruct (l =? 0); cbn; lia.
  - cbn [take]. rewrite !count_len_cons. specialize (IH k). lia.
Qed.

Lemma kraft_S L l :
  Forall (fun x => 0 <= x) L -> kraft L (S l) = 2 * kraft L l + count_len L (Z.of_nat (S l)).
Proof.
  intros HL. induction HL as [|x L Hx HL IH]; [done|]. unfold kraft in *. cbn [map foldr].
  rewrite count_len_cons, IH. unfold kraft_term at 1 3.
  destruct (Z.ltb_spec 0 x); cbn [andb].
  2: { assert (x = 0) as -> by lia. destruct (Z.eqb_spec 0 (Z.of_nat (S l))); [lia|]. cbn. lia. }
  destruct (Z.eqb_spec x (Z.of_nat (S l))) as [->|Hne]; cbn [andb].
  - destruct (Z.leb_spec (Z.of_nat (S l)) (Z.of_nat (S l))); [|lia].
    destruct (Z.leb_spec (Z.of_nat (S l)) (Z.of_nat l)); [lia|].
    rewrite Z.sub_diag. destruct (Z.eqb_spec (Z.of_nat (S l)) 0); [lia|]. cbn. lia.
  - destruct (Z.leb_spec x (Z.of_nat (S l))), (Z.leb_spec x (Z.of_nat l)); try lia.
    replace (Z.of_nat (S l) - x) with (Z.succ (Z.of_nat l - x)) by lia.
    rewrite Z.pow_succ_r by lia. lia.
Qed.

Lemma kraft_0 L : kraft L 0 = 0.
Proof.
  unfold kraft. induction L as [|x L IH]; [done|]. cbn [map foldr]. rewrite IH. unfold kraft_term.
  destruct (Z.ltb_spec 0 x), (Z.leb_spec x (Z.of_nat 0)); cbn; lia.
Qed.

(** The running total of the construction is the Kraft sum. *)
Lemma first_code_kraft L l :
  Forall (fun x => 0 <= x) L -> first_code L l + count_len L (Z.of_nat l) = kraft L l.
Proof.
  intros HL. induction l as [|l IH]; [by rewrite kraft_0|]. rewrite kraft_S by done. cbn [first_code].
  by rewrite IH.
Qed.

Lemma first_code_nonneg L l : 0 <= first_code L l.
Proof.
  induction l as [|l IH]; [done|]. cbn [first_code]. pose proof (count_len_nonneg L (Z.of_nat l)). lia.
Qed.

Lemma first_code_mono L l d :
  Forall (fun x => 0 <= x) L -> 2 ^ Z.of_nat (S d) * kraft L l <= first_code L (l + S d).
Proof.
  intros HL. induction d as [|d IH].
  - rewrite Nat.add_1_r. cbn [first_code]. rewrite first_code_kraft by done. lia.
  - rewrite Nat.add_succ_r. cbn [first_code]. pose proof (count_len_nonneg L (Z.of_nat (l + S d))).
    rewrite (Nat2Z.inj_succ (S d)), Z.pow_succ_r by lia. lia.
Qed.

Lemma kraft_bound L l : Forall (fun x => 0 <= x) L -> 0 <= kraft L l <= len L * 2 ^ Z.of_nat l.
Proof.
  intros HL. induction HL as [|x L Hx HL IH]; [cbn; lia|]. unfold kraft in *. cbn [map foldr length].
  assert (0 <= kraft_term l x <= 2 ^ Z.of_nat l); [|lia]. unfold kraft_term.
  destruct (Z.ltb_spec 0 x), (Z.leb_spec x (Z.of_nat l)); cbn [andb]; try lia.
  split; [lia|]. apply Z.pow_le_mono_r; lia.
Qed.

Lemma lengths_nonneg L : Forall (fun x => 0 <= x <= 15) L -> Forall (fun x => 0 <= x) L.
Proof. rewrite !List.Forall_forall. intros HL x Hx. specialize (HL x Hx). lia. Qed.

Lemma kraft_le_pow L l :
  lengths_ok L -> (l <= 15)%nat -> kraft L l <= 2 ^ Z.of_nat l.
Proof.
  intros [HL HK] Hl. pose proof (lengths_nonneg L HL) as HL'.
  assert (forall d, (d <= 15)%nat -> kraft L (15 - d) <= 2 ^ Z.of_nat (15 - d)) as Hd.
  { induction d as [|d IH]; intros Hd; [done|]. specialize (IH ltac:(lia)).
    replace (15 - d)%nat with (S (15 - S d)) in IH by lia. rewrite kraft_S in IH by done.
    pose proof (count_len_nonneg L (Z.of_nat (S (15 - S d)))).
    assert (2 ^ Z.of_nat (S (15 - S d)) = 2 * 2 ^ Z.of_nat (15 - S d)); [|lia].
    rewrite Nat2Z.inj_succ. apply Z.pow_succ_r. lia. }
  specialize (Hd (15 - l)%nat ltac:(lia)). by replace (15 - (15 - l))%nat with l in Hd by lia.
Qed.

(** ** Prefix-freeness *)
Lemma lookup_length_of L k x : L !! k = Some x -> length_of L k = x.
Proof. intros Hk. unfold length_of. by rewrite nth_lookup, Hk. Qed.

Lemma canonical_code_range L k :
  lengths_ok L -> (k < length L)%nat -> 0 < length_of L k ->
  0 <= canonical_code L k < kraft L (Z.to_nat (length_of L k)) /\
  canonical_code L k < 2 ^ length_of L k.
Proof.
  intros Hok Hk Hl. pose proof Hok as [HL _]. destruct (lookup_lt_is_Some_2 L k Hk) as [x Hx].
  pose proof (lookup_length_of _ _ _ Hx) as Elx. rewrite Elx in *.
  assert (0 <= x <= 15) as Hr by (rewrite Forall_lookup in HL; by apply (HL k)).
  unfold canonical_code. rewrite Elx.
  assert (count_len (take k L) x + 1 <= count_len L x) as Hlt.
  { rewrite <- (count_len_take_le L (S k) x), (count_len_take_S _ _ x) by done.
    destruct (Z.eqb_spec x x); [|done]. destruct (Z.eqb_spec x 0); [lia|]. cbn. lia. }
  pose proof (first_code_kraft L (Z.to_nat x) (lengths_nonneg L HL)) as Hfc. rewrite Z2Nat.id in Hfc by lia.
  pose proof (first_code_nonneg L (Z.to_nat x)). pose proof (count_len_nonneg (take k L) x).
  pose proof (kraft_le_pow L (Z.to_nat x) Hok ltac:(lia)) as Hkp. rewrite Z2Nat.id in Hkp by lia. lia.
Qed.

Lemma low_bits_inj a b n :
  0 <= a < 2 ^ Z.of_nat n -> 0 <= b < 2 ^ Z.of_nat n -> low_bits a n = low_bits b n -> a = b.
Proof.
  intros Ha Hb E. apply (f_equal bits_value) in E. rewrite !bits_value_low in E.
  by rewrite !Z.mod_small in E.
Qed.

(** A canonical code that is a prefix of another is the truncation of it. *)
Lemma prefix_truncates c1 c2 (l1 l2 : nat) :
  0 <= c1 < 2 ^ Z.of_nat l1 -> 0 <= c2 < 2 ^ Z.of_nat l2 ->
  rev (low_bits c1 l1) `prefix_of` rev (low_bits c2 l2) ->
  (l1 <= l2)%nat /\ c1 = c2 / 2 ^ Z.of_nat (l2 - l1).
Proof.
  intros H1 H2 Hp. pose proof (prefix_length _ _ Hp) as Hl. rewrite !length_rev, !length_low_bits in Hl.
  split; [done|]. destruct Hp as [z Hz]. apply (f_equal (@rev bool)) in Hz.
  rewrite rev_app_distr, !rev_involutive in Hz.
  replace l2 with ((l2 - l1) + l1)%nat in Hz at 1 by lia. rewrite low_bits_app in Hz.
  assert (length (rev z) = l2 - l1)%nat as Hlz.
  { pose proof (f_equal length Hz) as HL. rewrite !length_app, !length_low_bits in HL. lia. }
  apply (f_equal (drop (l2 - l1))) in Hz.
  rewrite !drop_app_length' in Hz by by rewrite ?length_low_bits.
  rewrite Z.shiftr_div_pow2 in Hz by lia. symmetry.
  apply (low_bits_inj _ _ l1); [|done|done]. split; [apply Z.div_pos; lia|].
  apply Z.div_lt_upper_bound; [lia|]. rewrite <- Z.pow_add_r by lia.
  replace (Z.of_nat (l2 - l1) + Z.of_nat l1) with (Z.of_nat l2) by lia. lia.
Qed.

Lemma canonical_prefix_free L j k :
  lengths_ok L -> (j < length L)%nat -> (k < length L)%nat ->
  0 < length_of L j -> 0 < length_of L k ->
  canonical_path L j `prefix_of` canonical_path L k -> j = k.
Proof.
  intros Hok Hj Hk Hlj Hlk Hp. pose proof Hok as [HL _].
  destruct (canonical_code_range L j) as [[Hcj Hcj'] Hcj2]; [done..|].
  destruct (canonical_code_range L k) as [[Hck Hck'] Hck2]; [done..|].
  destruct (prefix_truncates (canonical_code L j) (canonical_code L k)
    (Z.to_nat (length_of L j)) (Z.to_nat (length_of L k))) as [Hle He];
    [rewrite Z2Nat.id by lia; lia|rewrite Z2Nat.id by lia; lia|done|].
  destruct (Z.to_nat (length_of L k) - Z.to_nat (length_of L j))%nat as [|d] eqn:Hd.
  - (* equal lengths: the codes differ by rank *)
    rewrite Z.pow_0_r, Z.div_1_r in He. assert (length_of L j = length_of L k) as El by lia.
    destruct (lookup_lt_is_Some_2 L j Hj) as [x Hx], (lookup_lt_is_Some_2 L k Hk) as [y Hy].
    unfold canonical_code in He. rewrite El in He. apply Z.add_reg_l in He.
    rewrite (lookup_length_of _ _ _ Hx), (lookup_length_of _ _ _ Hy) in *.
    assert (forall a b, (a < b)%nat -> L !! a = Some y ->
      count_len (take a L) y < count_len (take b L) y) as Hmono.
    { intros a b Hab Ha. pose proof (count_len_take_le (take b L) (S a) y) as Hle2.
      rewrite take_take, Nat.min_l, (count_len_take_S _ _ y) in Hle2 by (done || lia).
      rewrite Z.eqb_refl in Hle2. destruct (Z.eqb_spec y 0); [lia|]. cbn in Hle2. lia. }
    destruct (Nat.lt_total j k) as [Hlt|[->|Hlt]]; [|done|].
    + specialize (Hmono j k Hlt ltac:(congruence)). lia.
    + specialize (Hmono k j Hlt Hy). lia.
  - (* a longer code starts above the shorter ones *)
    pose proof (first_code_mono L (Z.to_nat (length_of L j)) d (lengths_nonneg L HL)) as Hm.
    replace (Z.to_nat (length_of L j) + S d)%nat with (Z.to_nat (length_of L k)) in Hm by lia.
    assert (kraft L (Z.to_nat (length_of L j)) <= canonical_code L k / 2 ^ Z.of_nat (S d)); [|lia].
    apply Z.div_le_lower_bound; [lia|]. unfold canonical_code.
    pose proof (count_len_nonneg (take k L) (length_of L k)). lia.
Qed.
