(* ===== verification/PngNodes.v ===== *)
(** How many nodes the tree of a canonical code needs: at every depth the paths
    that lead to a node are consecutive, so a table of [n] symbols that is not
    over-subscribed needs at most [2 n + 16] nodes, and the fixed-size node array
    of the decoder is large enough for every table DEFLATE can describe. *)
From stdpp Require Import base list numbers.
From Stdlib Require Import ZArith Lia.
From S2P Require Import Prelude PngBits PngHuffman PngHuffmanProofs PngCanonical.

Local Open Scope Z_scope.

(** ** Counting nodes by paths *)

(** A tree has no more nodes than any list that covers its paths. *)
Lemma node_count_covered t (E : list (list bool)) :
  tree_wf t -> (forall q, node_at t q <> None -> q ∈ E) -> node_count t <= len E.
Proof.
  intros Hwf Hcov. pose proof Hwf as (_ & _ & _ & _ & Hre).
  assert (forall n, (n <= length (nodes t))%nat ->
    exists ps, length ps = n /\ NoDup ps /\ forall p, p ∈ ps -> exists k, (k < n)%nat /\
      walk (nodes t) 0 p = Some (Z.of_nat k)) as Hps.
  { induction n as [|n IH]; intros Hn.
    - exists []. split_and!; [done|apply base.NoDup_nil_2|]. intros p Hp. by apply not_elem_of_nil in Hp.
    - destruct IH as (ps & Hl & Hnd & Hps); [lia|].
      destruct (Hre (Z.of_nat n)) as [p Hp]; [unfold node_count; lia|]. exists (p :: ps).
      split_and!; [cbn; lia| |].
      + apply list.NoDup_cons. split; [|done]. intros Hin. destruct (Hps p Hin) as (k & Hk & Hw).
        rewrite Hp in Hw. simplify_eq. lia.
      + intros q [->|Hin]%elem_of_cons; [exists n; split; [lia|done]|].
        destruct (Hps q Hin) as (k & Hk & Hw). exists k. split; [lia|done]. }
  destruct (Hps _ (le_n _)) as (ps & Hl & Hnd & Hin). unfold node_count. rewrite <- Hl.
  apply Nat2Z.inj_le. apply NoDup_incl_length; [by apply NoDup_ListNoDup|].
  intros p Hp. apply list_elem_of_In. apply list_elem_of_In in Hp.
  destruct (Hin p Hp) as (k & _ & Hw). apply Hcov. rewrite node_at_none by done. congruence.
Qed.

(** ** The paths of a canonical code, depth by depth *)
Lemma prefix_of_code c (l : nat) q :
  q `prefix_of` rev (low_bits c l) ->
  (length q <= l)%nat /\
  q = rev (low_bits (Z.shiftr c (Z.of_nat (l - length q))) (length q)).
Proof.
  intros Hp. pose proof (prefix_length _ _ Hp) as Hle. rewrite length_rev, length_low_bits in Hle.
  split; [done|]. destruct Hp as [z Hz].
  replace l with ((l - length q) + length q)%nat in Hz at 1 by lia.
  rewrite low_bits_app, rev_app_distr in Hz. apply (f_equal (take (length q))) in Hz.
  rewrite take_app_length' in Hz by (rewrite length_rev, length_low_bits; lia).
  by rewrite take_app_length in Hz.
Qed.

Lemma kraft_scaled L (l d : nat) :
  Forall (fun x => 0 <= x) L -> 2 ^ Z.of_nat d * kraft L l <= kraft L (l + d).
Proof.
  intros HL. induction d as [|d IH]; [rewrite Nat.add_0_r; lia|].
  rewrite Nat.add_succ_r, kraft_S, Nat2Z.inj_succ, Z.pow_succ_r by (done || lia).
  pose proof (count_len_nonneg L (Z.of_nat (S (l + d)))). lia.
Qed.

(** One past the last path value at depth [d]. *)
Definition top (L : list Z) (d : nat) : Z :=
  (kraft L 15 + (2 ^ Z.of_nat (15 - d) - 1)) / 2 ^ Z.of_nat (15 - d).

Definition depth_paths (L : list Z) (d : nat) : list (list bool) :=
  map (fun v => rev (low_bits v d)) (seqZ (first_code L d) (top L d - first_code L d)).

Lemma prefix_in_depth L j q :
  lengths_ok L -> (j < length L)%nat -> 0 < length_of L j -> q <> [] ->
  q `prefix_of` canonical_path L j ->
  (1 <= length q <= 15)%nat /\ q ∈ depth_paths L (length q).
Proof.
  intros Hok Hj Hl Hne Hp. pose proof Hok as [HL _]. pose proof (lengths_nonneg L HL) as HL'.
  destruct (canonical_code_range L j Hok Hj Hl) as [[Hc Hck] _].
  assert (length_of L j <= 15) as H15.
  { destruct (lookup_lt_is_Some_2 L j Hj) as [x Hx]. rewrite (lookup_length_of _ _ _ Hx).
    rewrite Forall_lookup in HL. by apply (HL j). }
  unfold canonical_path in Hp. destruct (prefix_of_code _ _ _ Hp) as [Hle Hq].
  set (l := Z.to_nat (length_of L j)) in *. set (c := canonical_code L j) in *.
  remember (length q) as d eqn:Ed.
  assert (1 <= d)%nat as Hd1 by (destruct q; [done|cbn in Ed; lia]). split; [lia|].
  rewrite Hq. unfold depth_paths. apply list_elem_of_In, in_map_iff.
  exists (Z.shiftr c (Z.of_nat (l - d))). split; [done|]. apply list_elem_of_In, elem_of_seqZ.
  rewrite Z.shiftr_div_pow2 by lia. split.
  - apply Z.div_le_lower_bound; [lia|].
    assert (first_code L l <= c) as Hfc.
    { unfold c, canonical_code. pose proof (count_len_nonneg (take j L) (length_of L j)). fold l. lia. }
    destruct (l - d)%nat as [|e] eqn:Ee; [replace d with l by lia; lia|].
    pose proof (first_code_mono L d e HL') as Hm. replace (d + S e)%nat with l in Hm by lia.
    pose proof (first_code_kraft L d HL'). pose proof (count_len_nonneg L (Z.of_nat d)). nia.
  - rewrite Zplus_minus. unfold top.
    assert (c / 2 ^ Z.of_nat (l - d) + 1 <= (kraft L 15 + (2 ^ Z.of_nat (15 - d) - 1)) / 2 ^ Z.of_nat (15 - d)); [|lia].
    apply Z.div_le_lower_bound; [lia|].
    pose proof (kraft_scaled L l (15 - l) HL') as Hs. replace (l + (15 - l))%nat with 15%nat in Hs by lia.
    replace (2 ^ Z.of_nat (15 - d)) with (2 ^ Z.of_nat (l - d) * 2 ^ Z.of_nat (15 - l))
      by (rewrite <- Z.pow_add_r by lia; f_equal; lia).
    pose proof (Z.mul_div_le c (2 ^ Z.of_nat (l - d)) ltac:(lia)).
    assert (0 < 2 ^ Z.of_nat (15 - l)) by lia. nia.
Qed.

Definition all_paths (L : list Z) : list (list bool) :=
  [] :: concat (map (depth_paths L) (seq 1 15)).

(** ** The count *)
Lemma count_len_sum L :
  foldr Z.add 0 (map (fun l => count_len L (Z.of_nat l)) (seq 1 15)) <= len L.
Proof.
  induction L as [|x L IH]; [done|].
  assert (foldr Z.add 0 (map (fun l => count_len (x :: L) (Z.of_nat l)) (seq 1 15)) <=
    1 + foldr Z.add 0 (map (fun l => count_len L (Z.of_nat l)) (seq 1 15))) as Hstep; [|cbn [length]; lia].
  cbn [seq map foldr]. rewrite !count_len_cons.
  destruct (decide (1 <= x <= 15)) as [Hx|Hx].
  - assert (x = 1 \/ x = 2 \/ x = 3 \/ x = 4 \/ x = 5 \/ x = 6 \/ x = 7 \/ x = 8 \/ x = 9 \/ x = 10 \/
      x = 11 \/ x = 12 \/ x = 13 \/ x = 14 \/ x = 15) as Hcases by lia.
    repeat match goal with |- context [count_len L ?l] => generalize (count_len L l); intro end.
    repeat match goal with |- context [Z.of_nat ?n] =>
      let v := eval vm_compute in (Z.of_nat n) in change (Z.of_nat n) with v end.
    destruct_or! Hcases; subst x; cbn; lia.
  - repeat match goal with |- context [x =? ?l] =>
      destruct (Z.eqb_spec x l); [lia|] end. cbn [andb]. lia.
Qed.

Lemma length_all_paths L : lengths_ok L -> len (all_paths L) <= 2 * len L + 16.
Proof.
  intros [HL HK]. pose proof (lengths_nonneg L HL) as HL'. pose proof (count_len_sum L) as Hsum.
  assert (forall d, (1 <= d <= 15)%nat ->
    len (depth_paths L d) * 2 ^ Z.of_nat (15 - d) <=
      kraft L 15 + (2 ^ Z.of_nat (15 - d) - 1) - 2 * kraft L (d - 1) * 2 ^ Z.of_nat (15 - d)) as Hd.
  { intros d Hd. unfold depth_paths. rewrite length_map, length_seqZ.
    pose proof (first_code_kraft L (d - 1) HL') as Hk.
    assert (first_code L d = 2 * kraft L (d - 1)) as Hf.
    { destruct d; [lia|]. cbn [first_code]. replace (S d - 1)%nat with d in * by lia. lia. }
    rewrite Hf. unfold top.
    pose proof (Z.mul_div_le (kraft L 15 + (2 ^ Z.of_nat (15 - d) - 1)) (2 ^ Z.of_nat (15 - d)) ltac:(lia)).
    pose proof (kraft_scaled L (d - 1) (16 - d) HL') as Hs.
    replace (d - 1 + (16 - d))%nat with 15%nat in Hs by lia.
    replace (Z.of_nat (16 - d)) with (Z.succ (Z.of_nat (15 - d))) in Hs by lia.
    rewrite Z.pow_succ_r in Hs by lia.
    assert (0 < 2 ^ Z.of_nat (15 - d)) by lia.
    set (p := 2 ^ Z.of_nat (15 - d)) in *. set (t := _ / p) in *. nia. }
  unfold all_paths. cbn [seq map concat length]. rewrite !length_app.
  pose proof (kraft_0 L) as K0.
  pose proof (fun l => kraft_S L l HL') as KS.
  pose proof (KS 0%nat). pose proof (KS 1%nat). pose proof (KS 2%nat). pose proof (KS 3%nat).
  pose proof (KS 4%nat). pose proof (KS 5%nat). pose proof (KS 6%nat). pose proof (KS 7%nat).
  pose proof (KS 8%nat). pose proof (KS 9%nat). pose proof (KS 10%nat). pose proof (KS 11%nat).
  pose proof (KS 12%nat). pose proof (KS 13%nat). pose proof (KS 14%nat).
  pose proof (Hd 1%nat ltac:(lia)). pose proof (Hd 2%nat ltac:(lia)). pose proof (Hd 3%nat ltac:(lia)).
  pose proof (Hd 4%nat ltac:(lia)). pose proof (Hd 5%nat ltac:(lia)). pose proof (Hd 6%nat ltac:(lia)).
  pose proof (Hd 7%nat ltac:(lia)). pose proof (Hd 8%nat ltac:(lia)). pose proof (Hd 9%nat ltac:(lia)).
  pose proof (Hd 10%nat ltac:(lia)). pose proof (Hd 11%nat ltac:(lia)). pose proof (Hd 12%nat ltac:(lia)).
  pose proof (Hd 13%nat ltac:(lia)). pose proof (Hd 14%nat ltac:(lia)). pose proof (Hd 15%nat ltac:(lia)).
  clear KS Hd. cbn [seq map foldr] in Hsum.
  repeat match goal with
  | H : context [2 ^ Z.of_nat ?n] |- _ =>
      let v := eval vm_compute in (2 ^ Z.of_nat n) in change (2 ^ Z.of_nat n) with v in H
  | H : context [kraft L (?a - ?b)] |- _ =>
      let v := eval vm_compute in (a - b)%nat in change (kraft L (a - b)) with (kraft L v) in H
  end.
  assert (forall l, 0 <= count_len L l) as Hnn by apply count_len_nonneg.
  pose proof (Hnn (Z.of_nat 1)). pose proof (Hnn (Z.of_nat 2)). pose proof (Hnn (Z.of_nat 3)).
  pose proof (Hnn (Z.of_nat 4)). pose proof (Hnn (Z.of_nat 5)). pose proof (Hnn (Z.of_nat 6)).
  pose proof (Hnn (Z.of_nat 7)). pose proof (Hnn (Z.of_nat 8)). pose proof (Hnn (Z.of_nat 9)).
  pose proof (Hnn (Z.of_nat 10)). pose proof (Hnn (Z.of_nat 11)). pose proof (Hnn (Z.of_nat 12)).
  pose proof (Hnn (Z.of_nat 13)). pose proof (Hnn (Z.of_nat 14)). pose proof (Hnn (Z.of_nat 15)).
  change (length []) with 0%nat. lia.
Qed.

(** Every path of [t] is a prefix of the path of one of the first [i] symbols. *)
Definition paths_within (L : list Z) (i : nat) (t : PngHuffmanTree) : Prop :=
  forall q, node_at t q <> None ->
    q = [] \/ exists j, (j < i)%nat /\ 0 < length_of L j /\ q `prefix_of` canonical_path L j.

Lemma node_bound L t :
  lengths_ok L -> tree_wf t -> paths_within L (length L) t -> node_count t <= 2 * len L + 16.
Proof.
  intros Hok Hwf Hp. etransitivity; [|by apply length_all_paths]. apply node_count_covered; [done|].
  intros q Hq. unfold all_paths. apply elem_of_cons.
  destruct (decide (q = [])) as [->|Hne]; [by left|right].
  destruct (Hp q Hq) as [->|(j & Hj & Hl & Hpre)]; [done|].
  destruct (prefix_in_depth L j q) as [Hlen Hin]; [done..|].
  apply list_elem_of_In, in_concat. exists (depth_paths L (length q)). split; [|by apply list_elem_of_In].
  apply in_map, in_seq. lia.
Qed.
