(* ===== verification/PngBuild.v ===== *)
(** [png_huffman_build] builds the tree of the canonical code: the loops that
    count lengths and assign first codes compute [count_len] and [first_code], the
    reversed code is the path the stream follows, and after the second pass every
    symbol sits at the end of its canonical path. *)
From stdpp Require Import base list numbers.
From Stdlib Require Import ZArith Lia.
From S2P Require Import Prelude PngBits PngHuffman PngHuffmanProofs PngCanonical PngNodes.

Local Open Scope Z_scope.

(** ** Bit reversal *)
Lemma low_bits_snoc v n : low_bits v (S n) = low_bits v n ++ [Z.testbit v (Z.of_nat n)].
Proof. unfold low_bits. by rewrite seq_S, map_app. Qed.

Lemma shiftl_lor_bit r c k :
  0 <= k -> Z.testbit (Z.lor (Z.shiftl r 1) (Z.land (Z.shiftr c k) 1)) 0 = Z.testbit c k /\
  Z.shiftr (Z.lor (Z.shiftl r 1) (Z.land (Z.shiftr c k) 1)) 1 = r.
Proof.
  intros Hk. split.
  - rewrite Z.lor_spec, Z.shiftl_spec_low, Z.land_spec, Z.shiftr_spec by lia. cbn [orb].
    rewrite Z.add_0_l. apply andb_true_r.
  - rewrite Z.shiftr_lor, Z.shiftr_shiftl_l by lia. rewrite Z.shiftl_0_r.
    replace (Z.shiftr (Z.land _ 1) 1) with 0; [apply Z.lor_0_r|].
    rewrite Z.shiftr_land. change (Z.shiftr 1 1) with 0. by rewrite Z.land_0_r.
Qed.

Lemma reverse_bits_ok code (n : nat) :
  (n <= 31)%nat ->
  exists v, png_reverse_bits code (Z.of_nat n) = Ok v /\ low_bits v n = rev (low_bits code n).
Proof.
  intros Hn. apply wp_total. unfold png_reverse_bits.
  apply wp_for_range with (I := fun i r => 0 <= r < 2 ^ i /\
    low_bits r (Z.to_nat i) = rev (low_bits code (Z.to_nat i))).
  - done.
  - intros i r Hi [Hr Hb]. destruct (Z.leb_spec 32 i); [lia|]. apply wp_ok.
    assert (0 <= r < 2 ^ 31) as Hr31.
    { split; [lia|]. eapply Z.lt_le_trans; [apply Hr|]. apply Z.pow_le_mono_r; lia. }
    rewrite u32_small by (rewrite Z.shiftl_mul_pow2 by lia; lia).
    destruct (shiftl_lor_bit r code i ltac:(lia)) as [Ht Hs].
    set (r' := Z.lor _ _) in *. split.
    + assert (r' = 2 * r + Z.b2z (Z.testbit r' 0)) as E.
      { rewrite <- Hs at 1. rewrite Z.shiftr_div_pow2, Z.bit0_mod by lia.
        change (2 ^ 1) with 2. apply Z.div_mod. lia. }
      rewrite Z.pow_add_r by lia. destruct (Z.testbit r' 0); cbn in E; lia.
    + replace (Z.to_nat (i + 1)) with (S (Z.to_nat i)) by lia.
      rewrite low_bits_S, low_bits_snoc, rev_app_distr, Hs, Ht, Hb. cbn. by rewrite Z2Nat.id by lia.
  - intros r [_ Hr]. rewrite Z.add_0_l, !Nat2Z.id in Hr. done.
Qed.

(** ** The counting passes *)
Section Build.
Context (L : list Z).
Hypothesis HB : Forall (fun x => 0 <= x) L.
Hypothesis Hlen : len L <= 2 ^ 16.

Definition counts_ok (i : nat) (counts : list Z) : Prop :=
  length counts = 16%nat /\
  forall l, (l < 16)%nat -> counts !! l = Some (count_len (take i L) (Z.of_nat l)).

Lemma count_len_take_bound i l : count_len (take i L) l <= len L.
Proof.
  etransitivity; [apply count_len_take_le|]. unfold count_len. destruct (l =? 0); [lia|].
  pose proof (length_filter (fun x => x = l) L). lia.
Qed.

Lemma count_len_take_0 l : count_len (take 0 L) l = 0.
Proof. rewrite firstn_O. unfold count_len. by destruct (l =? 0). Qed.

Lemma count_step i x counts :
  L !! i = Some x -> 0 < x <= 15 -> counts_ok i counts ->
  counts_ok (S i) (<[Z.to_nat x := u32 (count_len (take i L) x + 1)]> counts).
Proof.
  intros Hi Hx [Hl Hc]. split; [by rewrite length_insert|]. intros l Hlt.
  rewrite (count_len_take_S _ _ x) by done. destruct (decide (l = Z.to_nat x)) as [->|Hne].
  - rewrite list_lookup_insert_eq by lia. rewrite Z2Nat.id, Z.eqb_refl by lia.
    destruct (Z.eqb_spec x 0); [lia|]. cbn. f_equal.
    pose proof (count_len_take_bound i x). pose proof (count_len_nonneg (take i L) x). rewrite u32_small; lia.
  - rewrite list_lookup_insert_ne by done. rewrite Hc by done.
    destruct (Z.eqb_spec x (Z.of_nat l)); [lia|]. cbn. f_equal. lia.
Qed.

Lemma wp_count_lengths :
  wp (count_lengths L (len L))
    (fun '(counts, saw) => counts_ok (length L) counts /\
       Forall (fun x => 0 <= x <= 15) L /\ (saw = true <-> Exists (fun x => x <> 0) L))
    (fun c => c = StatusNotSupported /\ Exists (fun x => 15 < x) L).
Proof.
  unfold count_lengths. rewrite Nat2Z.id.
  apply wp_for_range with (I := fun i '(counts, saw) => counts_ok (Z.to_nat i) counts /\
    Forall (fun x => 0 <= x <= 15) (take (Z.to_nat i) L) /\
    (saw = true <-> Exists (fun x => x <> 0) (take (Z.to_nat i) L))).
  - cbn [take]. split_and!; [|by apply List.Forall_nil|by rewrite Exists_nil].
    split; [done|]. intros l Hl. change (Z.to_nat 0) with 0%nat.
    rewrite lookup_replicate_2 by lia. by rewrite count_len_take_0.
  - intros i [counts saw] Hi (Hc & Hf & Hs). apply wp_bind, wp_aget; [lia|]. intros x Hx.
    replace (Z.to_nat (i + 1)) with (S (Z.to_nat i)) by lia.
    rewrite (take_S_r _ _ x) by done.
    assert (0 <= x) as Hx0 by (rewrite Forall_lookup in HB; by apply (HB (Z.to_nat i))).
    destruct (Z.ltb_spec 15 x).
    { apply wp_fail. split; [done|]. apply Exists_exists. exists x. split; [|done].
      apply list_elem_of_In. by eapply list_elem_of_lookup_2. }
    destruct (Z.eqb_spec x 0) as [->|Hne]; cbn [negb].
    + apply wp_ok. split_and!.
      * destruct Hc as [Hl Hc]. split; [done|]. intros l Hlt. rewrite (count_len_take_S _ _ 0) by done.
        rewrite Hc by done. f_equal. destruct (Z.eqb_spec 0 (Z.of_nat l)) as [<-|]; cbn; lia.
      * apply Forall_app. split; [done|]. by repeat (apply List.Forall_cons || apply List.Forall_nil).
      * rewrite Hs, Exists_app, Exists_cons, Exists_nil. tauto.
    + pose proof Hc as [Hl Hcv]. apply wp_bind, wp_aget; [lia|]. intros c Hcl.
      rewrite Hcv in Hcl by lia. rewrite Z2Nat.id in Hcl by lia. simplify_eq.
      apply wp_bind, wp_aset; [lia|]. apply wp_ok. split_and!.
      * apply count_step; [done|lia|done].
      * apply Forall_app. split; [done|]. apply List.Forall_cons; [lia|apply List.Forall_nil].
      * rewrite Exists_app, Exists_cons. tauto.
  - intros [counts saw] (Hc & Hf & Hs). rewrite Z.add_0_l, Nat2Z.id in *.
    rewrite take_ge in * by lia. done.
Qed.

Lemma code_bound (l : nat) : (l <= 15)%nat -> 0 <= first_code L l + count_len L (Z.of_nat l) < 2 ^ 31 + 1.
Proof.
  intros Hl. rewrite first_code_kraft by done. pose proof (kraft_bound L l HB).
  assert (2 ^ Z.of_nat l <= 2 ^ 15) by (apply Z.pow_le_mono_r; lia). nia.
Qed.

Definition codes_ok (i : nat) (next : list Z) : Prop :=
  length next = 16%nat /\ forall l, (1 <= l <= 15)%nat ->
  next !! l = Some (first_code L l + count_len (take i L) (Z.of_nat l)).

Lemma wp_first_codes counts :
  counts_ok (length L) counts -> exists next, first_codes counts = Ok next /\ codes_ok 0 next.
Proof.
  intros [Hl Hc]. rewrite take_ge in Hc by done. apply wp_total. unfold first_codes. apply wp_bind.
  apply wp_for_range with (I := fun i '(code, next) => code = first_code L (Z.to_nat (i - 1)) /\
    length next = 16%nat /\ forall l, (1 <= l < Z.to_nat i)%nat -> next !! l = Some (first_code L l)).
  - split_and!; [done|done|]. lia.
  - intros i [code next] Hi (-> & Hln & Hn). apply wp_bind, wp_aget; [lia|]. intros c Hcl.
    rewrite Hc in Hcl by lia. simplify_eq.
    pose proof (code_bound (Z.to_nat (i - 1)) ltac:(lia)) as Hb.
    pose proof (code_bound (Z.to_nat i) ltac:(lia)) as Hb'.
    pose proof (count_len_nonneg L (Z.of_nat (Z.to_nat i))).
    assert (u32 (Z.shiftl (u32 (first_code L (Z.to_nat (i - 1)) +
      count_len L (Z.of_nat (Z.to_nat (i - 1))))) 1) = first_code L (Z.to_nat i)) as E.
    { rewrite (u32_small (_ + _)) by lia. rewrite Z.shiftl_mul_pow2 by lia. change (2 ^ 1) with 2.
      replace (Z.to_nat i) with (S (Z.to_nat (i - 1))) in * by lia. cbn [first_code] in *.
      rewrite u32_small; lia. }
    rewrite E. apply wp_bind, wp_aset; [lia|]. apply wp_ok. split_and!.
    + f_equal. lia.
    + by rewrite length_insert.
    + intros l Hlt. destruct (decide (l = Z.to_nat i)) as [->|Hne].
      * rewrite list_lookup_insert_eq by lia. done.
      * rewrite list_lookup_insert_ne by lia. apply Hn. lia.
  - intros [code next] (_ & Hln & Hn). apply wp_ok. split; [done|]. intros l Hlt.
    rewrite Hn, count_len_take_0 by lia. f_equal. lia.
Qed.

(** ** The second pass *)

Lemma reset_wf : tree_wf png_huffman_reset.
Proof.
  unfold tree_wf, node_count, PNG_MAX_HUFFMAN_NODES. cbn [png_huffman_reset nodes length]. split_and!; [lia|lia| | | |].
  - intros [|i] nd b; cbn; [|done]. intros [= <-]. left. by destruct b.
  - intros [|i] j nd nd' b b'; cbn; [|done]. intros [= <-] _ _. destruct b; cbn; lia.
  - by exists (mkNode (-1) (-1) (-1)).
  - intros k Hk. exists []. cbn. f_equal. lia.
Qed.

Lemma reset_node_at q s : node_at png_huffman_reset q = Some s -> q = [] /\ s = -1.
Proof.
  destruct q as [|b q]; cbn; [by intros [= <-]|]. destruct b; done.
Qed.

(** The tree after the first [i] symbols, when the table is not over-subscribed. *)
Record holds_codes (i : nat) (t : PngHuffmanTree) : Prop := {
  hc_in : forall j, (j < i)%nat -> 0 < length_of L j -> node_at t (canonical_path L j) = Some (Z.of_nat j);
  hc_out : forall q s, node_at t q = Some s -> 0 <= s ->
    exists j, (j < i)%nat /\ 0 < length_of L j /\ q = canonical_path L j;
  hc_paths : paths_within L i t;
  hc_low : forall q s, node_at t q = Some s -> -1 <= s }.

Definition build_inv (i : nat) (t : PngHuffmanTree) (next : list Z) : Prop :=
  tree_wf t /\ codes_ok i next /\ (lengths_ok L -> holds_codes i t).

Lemma reset_holds : holds_codes 0 png_huffman_reset.
Proof.
  split.
  - lia.
  - intros q s Hq Hs. apply reset_node_at in Hq as [_ ->]. lia.
  - intros q Hq. destruct (node_at png_huffman_reset q) as [s|] eqn:E; [|done]. left. by apply (reset_node_at q s).
  - intros q s Hq. apply reset_node_at in Hq as [_ ->]. lia.
Qed.

Lemma holds_codes_insert i t t' :
  lengths_ok L -> (i < length L)%nat -> 0 < length_of L i -> holds_codes i t ->
  (forall q, node_at t' q = inserted (node_at t) (canonical_path L i) (Z.of_nat i) q) ->
  holds_codes (S i) t'.
Proof.
  intros Hok Hi Hl [Hin Hout Hpaths Hlow] Hat.
  assert (forall j, (j < i)%nat -> 0 < length_of L j -> canonical_path L j `prefix_of` canonical_path L i ->
    False) as Hfree.
  { intros j Hj Hlj Hp. assert (j = i); [|lia]. apply (canonical_prefix_free L); done || lia. }
  assert (forall q s, node_at t' q = Some s ->
    (q = canonical_path L i /\ s = Z.of_nat i) \/ (q <> canonical_path L i /\ (node_at t q = Some s \/ s = -1))) as Hcase.
  { intros q s. rewrite Hat. unfold inserted. destruct (decide _) as [->|Hne]; [intros [= <-]; by left|].
    destruct (decide _); [|by right; auto]. destruct (node_at t q); intros [= <-]; right; auto. }
  split.
  - intros j Hj Hlj. rewrite Hat. unfold inserted. destruct (decide (j = i)) as [->|Hne]; [by rewrite decide_True|].
    assert (j < i)%nat as Hji by lia.
    rewrite decide_False by (intros E; apply (Hfree j Hji Hlj); by rewrite E).
    rewrite decide_False by exact (Hfree j Hji Hlj). by apply Hin.
  - intros q s Hs Hge. destruct (Hcase q s Hs) as [[-> ->]|[_ [Hq| ->]]]; [exists i; split_and!; done || lia| |lia].
    destruct (Hout q s Hq Hge) as (j & ? & ? & ?). exists j. split_and!; done || lia.
  - intros q Hq. rewrite Hat in Hq. unfold inserted in Hq. destruct (decide _) as [->|Hne].
    { right. exists i. split_and!; done || lia. }
    destruct (decide (q `prefix_of` canonical_path L i)); [right; exists i; split_and!; done || lia|].
    destruct (Hpaths q Hq) as [|(j & ? & ? & ?)]; [by left|]. right. exists j. split_and!; done || lia.
  - intros q s Hs. destruct (Hcase q s Hs) as [[-> ->]|[_ [Hq| ->]]]; [lia| |lia]. by apply (Hlow q).
Qed.

(** A valid table never fills the node array. *)
Lemma never_full i t e :
  lengths_ok L -> len L <= 1000 -> (i < length L)%nat -> 0 < length_of L i -> holds_codes i t ->
  ~ full t (canonical_path L i) e.
Proof.
  intros Hok H1000 Hi Hl [_ _ Hpaths _] (_ & t' & Hwf & Hn & Hq).
  assert (node_count t' <= 2 * len L + 16) as Hb; [|unfold PNG_MAX_HUFFMAN_NODES in Hn; lia].
  apply node_bound; [done..|]. intros q Hne. destruct (Hq q Hne) as [Hq'|Hp].
  - destruct (Hpaths q Hq') as [|(j & ? & ? & ?)]; [by left|]. right. exists j. split_and!; done || lia.
  - right. exists i. split_and!; done || lia.
Qed.

Lemma codes_next i x next :
  L !! i = Some x -> 0 < x <= 15 -> codes_ok i next ->
  codes_ok (S i) (<[Z.to_nat x := u32 (canonical_code L i + 1)]> next).
Proof.
  intros Hi Hx [Hln Hn]. split; [by rewrite length_insert|]. intros l Hl.
  rewrite (count_len_take_S _ _ x) by done. destruct (decide (l = Z.to_nat x)) as [->|Hne].
  - rewrite list_lookup_insert_eq by lia. f_equal. unfold canonical_code.
    rewrite (lookup_length_of _ _ _ Hi), Z2Nat.id, Z.eqb_refl by lia.
    destruct (Z.eqb_spec x 0); [lia|]. cbn [andb negb].
    pose proof (code_bound (Z.to_nat x) ltac:(lia)) as Hb. rewrite Z2Nat.id in Hb by lia.
    pose proof (count_len_take_le L i x). pose proof (count_len_nonneg (take i L) x).
    pose proof (first_code_nonneg L (Z.to_nat x)). rewrite u32_small; lia.
  - rewrite list_lookup_insert_ne by done. rewrite Hn by done.
    destruct (Z.eqb_spec x (Z.of_nat l)); [lia|]. cbn. f_equal. lia.
Qed.
(** Symbols without a code leave the invariant alone. *)
Lemma holds_codes_skip i t : length_of L i = 0 -> holds_codes i t -> holds_codes (S i) t.
Proof.
  intros Hz [Hin Hout Hpaths Hlow].
  assert (forall j, (j < S i)%nat -> 0 < length_of L j -> (j < i)%nat) as Hlt.
  { intros j Hj Hl. destruct (decide (j = i)) as [->|]; lia. }
  split; [| |  |done].
  - intros j Hj Hl. apply Hin; [by apply Hlt|done].
  - intros q s Hq Hs. destruct (Hout q s Hq Hs) as (j & ? & ? & ?). exists j. split_and!; done || lia.
  - intros q Hq. destruct (Hpaths q Hq) as [|(j & ? & ? & ?)]; [by left|]. right. exists j. split_and!; done || lia.
Qed.

Lemma codes_skip i next : L !! i = Some 0 -> codes_ok i next -> codes_ok (S i) next.
Proof.
  intros Hi [Hln Hn]. split; [done|]. intros l Hl. rewrite (count_len_take_S _ _ 0), Hn by done.
  destruct (Z.eqb_spec 0 (Z.of_nat l)); [lia|]. cbn. f_equal. lia.
Qed.

Hypothesis H1000 : len L <= 1000.
Hypothesis H15 : Forall (fun x => 0 <= x <= 15) L.

Lemma insert_body i x t next :
  L !! i = Some x -> 0 < x -> build_inv i t next ->
  wp (nc <- aget next x ;;
      code <- png_reverse_bits nc x ;;
      t <- png_huffman_insert t code x (i32 (Z.of_nat i)) ;;
      next_code <- aset next x (u32 (nc + 1)) ;;
      Ok (t, next_code))
    (fun '(t, next) => build_inv (S i) t next) (fun c => c = StatusNoMemory /\ ~ lengths_ok L).
Proof.
  intros Hi Hx (Hwf & Hnc & Hhc). pose proof (lookup_lt_Some _ _ _ Hi) as Hlt.
  assert (x <= 15) as Hx15 by (rewrite Forall_lookup in H15; by apply (H15 i)).
  pose proof (lookup_length_of _ _ _ Hi) as Elx. pose proof Hnc as [Hln Hn].
  rewrite (aget_ok _ _ (canonical_code L i)).
  2: lia.
  2: { rewrite Hn by lia. unfold canonical_code. by rewrite Elx, Z2Nat.id by lia. }
  rewrite bind_ok. destruct (reverse_bits_ok (canonical_code L i) (Z.to_nat x)) as (v & Hv & Hlow); [lia|].
  rewrite Z2Nat.id in Hv by lia. rewrite Hv, bind_ok.
  assert (low_bits v (Z.to_nat x) = canonical_path L i) as Hpath by (unfold canonical_path; by rewrite Elx).
  assert (i32 (Z.of_nat i) = Z.of_nat i) as ->.
  { unfold i32. rewrite Z.mod_small; lia. }
  apply wp_bind. eapply wp_mono; [apply wp_insert; [done|lia]| |].
  - intros t' [Hwf' Hat]. rewrite Hpath in Hat. rewrite aset_ok by lia. rewrite bind_ok. apply wp_ok.
    split_and!; [done|by apply codes_next|].
    intros Hok. eapply (holds_codes_insert i t); [done|done|lia|by apply Hhc|done].
  - intros e Hf. pose proof Hf as [-> _]. rewrite Hpath in Hf. split; [done|]. intros Hok.
    eapply (never_full i t); [done|done|done|lia|by apply Hhc|done].
Qed.

Lemma wp_insert_symbols next :
  codes_ok 0 next ->
  wp (insert_symbols png_huffman_reset L next (len L))
    (fun '(t, next) => build_inv (length L) t next) (fun c => c = StatusNoMemory /\ ~ lengths_ok L).
Proof.
  intros Hn. unfold insert_symbols. rewrite Nat2Z.id.
  apply wp_for_range with (I := fun i '(t, next) => build_inv (Z.to_nat i) t next).
  - split_and!; [apply reset_wf|done|]. intros _. apply reset_holds.
  - intros i [t nx] Hi Hinv. apply wp_bind, wp_aget; [lia|]. intros x Hx.
    replace (Z.to_nat (i + 1)) with (S (Z.to_nat i)) by lia.
    assert (0 <= x) as Hx0 by (rewrite Forall_lookup in HB; by apply (HB (Z.to_nat i))).
    destruct (Z.eqb_spec x 0) as [->|Hne]; cbn [negb].
    + apply wp_ok. destruct Hinv as (Hwf & Hnc & Hhc). split_and!; [done|by apply codes_skip|].
      intros Hok. apply holds_codes_skip; [by apply lookup_length_of|by apply Hhc].
    + pose proof (insert_body (Z.to_nat i) x t nx Hx ltac:(lia) Hinv) as Hb.
      by rewrite Z2Nat.id in Hb by lia.
  - intros [t nx]. by rewrite Z.add_0_l, Nat2Z.id.
Qed.
End Build.

(** ** The whole construction *)
Definition has_codes (L : list Z) : Prop := Exists (fun x => x <> 0) L.

Lemma wp_build L :
  Forall (fun x => 0 <= x) L -> 0 < len L <= 1000 ->
  wp (png_huffman_build L (len L))
    (fun t => tree_wf t /\ Forall (fun x => 0 <= x <= 15) L /\ has_codes L /\
       (lengths_ok L -> holds_codes L (length L) t))
    (fun c => (c = StatusNotSupported /\ (Exists (fun x => 15 < x) L \/ ~ has_codes L)) \/
       (c = StatusNoMemory /\ ~ lengths_ok L)).
Proof.
  intros HB HL. unfold png_huffman_build. destruct (Z.eqb_spec (len L) 0); [lia|].
  apply wp_bind. eapply wp_mono; [by apply wp_count_lengths; [|lia]| |intros c [-> ?]; left; auto].
  intros [counts saw] (Hc & H15 & Hsaw). destruct saw; cbn [negb].
  2: { apply wp_fail. left. split; [done|]. right. intros Hex. unfold has_codes in Hex.
       rewrite <- Hsaw in Hex. done. }
  destruct (wp_first_codes L HB ltac:(lia) counts Hc) as (next & -> & Hn). rewrite bind_ok.
  apply wp_bind. eapply wp_mono; [apply (wp_insert_symbols L); [done|lia|lia|done|done]| |intros c ?; by right].
  intros [t next'] (Hwf & _ & Hhc). apply wp_ok. split_and!; [done|done|by apply Hsaw|done].
Qed.

(** A usable table always builds. *)
Lemma build_total L :
  lengths_ok L -> has_codes L -> len L <= 1000 ->
  exists t, png_huffman_build L (len L) = Ok t /\ tree_wf t /\ holds_codes L (length L) t.
Proof.
  intros Hok Hex HL. pose proof Hok as [H15 _]. apply wp_total.
  assert (0 < len L) as Hpos by (destruct Hex; cbn; lia).
  eapply wp_mono; [by apply wp_build; [apply lengths_nonneg|lia]| |].
  - intros t (Hwf & _ & _ & Hhc). auto.
  - intros c [[_ [Hbad|Hbad]]|[_ Hbad]]; [|done..].
    apply Exists_exists in Hbad as (x & Hx & Hgt). rewrite List.Forall_forall in H15.
    specialize (H15 x Hx). lia.
Qed.

(** Decoding the path of symbol [k] yields [k] and consumes exactly the path. *)
Lemma decode_canonical L t k r rest :
  lengths_ok L -> tree_wf t -> holds_codes L (length L) t -> reader_wf r ->
  (k < length L)%nat -> 0 < length_of L k ->
  stream r = canonical_path L k ++ rest ->
  exists r', png_huffman_decode_symbol r t = Ok (r', Z.of_nat k) /\
    reader_wf r' /\ same_source r r' /\ stream r' = rest.
Proof.
  intros Hok Hwf Hhc Hr Hk Hl Hs.
  assert (follow (nodes t) (stream r) 0 = Some (Z.of_nat k, rest)) as Hf.
  { rewrite Hs. apply follow_path; [done|by apply (hc_in _ _ _ Hhc)|lia|].
    intros q Hq Hne. destruct (node_at t q) as [s|] eqn:Es.
    - destruct (Z.lt_ge_cases s 0) as [Hneg|Hge]; [f_equal; pose proof (hc_low _ _ _ Hhc q s Es); lia|].
      destruct (hc_out _ _ _ Hhc q s Es Hge) as (j & Hj & Hlj & ->). exfalso. apply Hne. f_equal.
      by apply (canonical_prefix_free L).
    - destruct Hq as [z Hz]. exfalso. apply (node_at_prefix t q z Hwf); [|done].
      rewrite <- Hz. by rewrite (hc_in _ _ _ Hhc). }
  pose proof (wp_decode_symbol t r Hwf Hr) as Hwp.
  destruct (png_huffman_decode_symbol r t) as [[r' sym]|c| |]; cbn in Hwp; [|destruct Hwp; congruence|done|done].
  destruct Hwp as (Hr' & Hsrc & _ & _ & Hf'). rewrite Hf in Hf'. simplify_eq. exists r'. done.
Qed.
