(* ===== verification/PngInflate.v ===== *)
(** DEFLATE and zlib decoding in the PNG decoder (applications/libs/png/png.c):
    the fixed and dynamic Huffman trees of a block and [png_inflate_zlib].

    The output buffer is threaded through the loops.  A call that fails returns
    its status; the bytes it wrote before failing belong to a buffer the caller
    releases without reading.  The cooperative yield of the match loop changes no
    state of the decoder and is not modelled. *)
From stdpp Require Import base list numbers.
From Stdlib Require Import ZArith Lia.
From S2P Require Import Prelude PngBits PngHuffman.

Local Open Scope Z_scope.

Definition kDeflateLengthBase : list Z :=
  [3; 4; 5; 6; 7; 8; 9; 10; 11; 13; 15; 17; 19; 23; 27; 31;
   35; 43; 51; 59; 67; 83; 99; 115; 131; 163; 195; 227; 258].

Definition kDeflateLengthExtra : list Z :=
  [0; 0; 0; 0; 0; 0; 0; 0; 1; 1; 1; 1; 2; 2; 2; 2;
   3; 3; 3; 3; 4; 4; 4; 4; 5; 5; 5; 5; 0].

Definition kDeflateDistanceBase : list Z :=
  [1; 2; 3; 4; 5; 7; 9; 13; 17; 25; 33; 49; 65; 97; 129; 193;
   257; 385; 513; 769; 1025; 1537; 2049; 3073; 4097; 6145; 8193; 12289; 16385; 24577].

Definition kDeflateDistanceExtra : list Z :=
  [0; 0; 0; 0; 1; 1; 2; 2; 3; 3; 4; 4; 5; 5; 6; 6;
   7; 7; 8; 8; 9; 9; 10; 10; 11; 11; 12; 12; 13; 13].

Definition kCodeLengthOrder : list Z :=
  [16; 17; 18; 0; 8; 7; 9; 6; 10; 5; 11; 4; 12; 3; 13; 2; 14; 1; 15].

(** A failing call whose status is replaced by another. *)
Definition fail_as {A : Type} (m : Exec A) (c : Z) : Exec A :=
  match m with Fail _ => Fail c | x => x end.

(** ** Trees of a block *)

(** The two loops that fill the length tables of the fixed code. *)
Definition fill_literal_lengths : Exec (list Z) :=
  for_range 288 0
    (fun sym l => aset l sym
       (if sym <=? 143 then 8 else if sym <=? 255 then 9 else if sym <=? 279 then 7 else 8))
    (replicate 288 0).

Definition fill_distance_lengths : Exec (list Z) :=
  for_range 32 0 (fun sym l => aset l sym 5) (replicate 32 0).

Definition png_build_fixed_trees : Exec (PngHuffmanTree * PngHuffmanTree) :=
  literal_lengths <- fill_literal_lengths ;;
  distance_lengths <- fill_distance_lengths ;;
  literal_tree <- fail_as (png_huffman_build literal_lengths 288) StatusFault ;;
  distance_tree <- fail_as (png_huffman_build distance_lengths 32) StatusFault ;;
  Ok (literal_tree, distance_tree).

Definition png_store_dynamic_length (literal_lengths distance_lengths : list Z)
    (hlit hdist index value : Z) : Exec (list Z * list Z) :=
  if index <? hlit then
    l <- aset literal_lengths index value ;; Ok (l, distance_lengths)
  else
    let index := u32 (index - hlit) in
    if index <? hdist then
      d <- aset distance_lengths index value ;; Ok (literal_lengths, d)
    else Fail StatusFault.

(** The length tables under construction. *)
Record DynState : Type := mkDyn {
  dy_reader : PngBitReader;
  dy_literal : list Z;
  dy_distance : list Z;
  dy_index : Z;
  dy_repeat : Z
}.

(** [while (repeat_count != 0U)]: store the repeated value. *)
Fixpoint repeat_store (repeat_count : nat) (hlit hdist total value : Z) (s : DynState) : Exec DynState :=
  match repeat_count with
  | O => Ok s
  | S n' =>
      '(l, d) <- png_store_dynamic_length (dy_literal s) (dy_distance s) hlit hdist (dy_index s) value ;;
      let index := u32 (dy_index s + 1) in
      if total <? index then Fail StatusFault else
      repeat_store n' hlit hdist total value (mkDyn (dy_reader s) l d index (dy_repeat s))
  end.

(** A repeat of [base] plus the next [bits] bits of [value]. *)
Definition repeat_code (bits base value hlit hdist total : Z) (s : DynState) : Exec DynState :=
  '(r, extra_bits) <- png_bit_reader_read_bits (dy_reader s) bits ;;
  repeat_store (Z.to_nat (u32 (base + extra_bits))) hlit hdist total value
    (mkDyn r (dy_literal s) (dy_distance s) (dy_index s) value).

(** One turn of [while (index < total)]. *)
Definition length_step (code_length_tree : PngHuffmanTree) (hlit hdist total : Z) (s : DynState)
  : Exec (DynState + DynState) :=
  if negb (dy_index s <? total) then Ok (inr s) else
  '(r, decoded_symbol) <- png_huffman_decode_symbol (dy_reader s) code_length_tree ;;
  let s := mkDyn r (dy_literal s) (dy_distance s) (dy_index s) (dy_repeat s) in
  if (0 <=? decoded_symbol) && (decoded_symbol <=? 15) then
    '(l, d) <- png_store_dynamic_length (dy_literal s) (dy_distance s) hlit hdist (dy_index s)
                 (u8 decoded_symbol) ;;
    Ok (inl (mkDyn r l d (u32 (dy_index s + 1)) (u8 decoded_symbol)))
  else if decoded_symbol =? 16 then
    if dy_index s =? 0 then Fail StatusFault else
    s <- repeat_code 2 3 (dy_repeat s) hlit hdist total s ;; Ok (inl s)
  else if decoded_symbol =? 17 then
    s <- repeat_code 3 3 0 hlit hdist total s ;; Ok (inl s)
  else if decoded_symbol =? 18 then
    s <- repeat_code 7 11 0 hlit hdist total s ;; Ok (inl s)
  else Fail StatusNotSupported.

(** The lengths of the code-length code, in the order of the format. *)
Definition read_code_lengths (hclen : Z) (r : PngBitReader) : Exec (PngBitReader * list Z) :=
  for_range (Z.to_nat hclen) 0
    (fun index '(r, lens) =>
       '(r, extra_bits) <- png_bit_reader_read_bits r 3 ;;
       k <- aget kCodeLengthOrder index ;;
       lens <- aset lens k (u8 extra_bits) ;;
       Ok (r, lens)) (r, replicate 19 0).

(** Every turn of the length loop consumes at least one bit. *)
Definition png_build_dynamic_trees (r : PngBitReader)
  : Exec (PngBitReader * PngHuffmanTree * PngHuffmanTree) :=
  '(r, hlit) <- png_bit_reader_read_bits r 5 ;;
  '(r, hdist) <- png_bit_reader_read_bits r 5 ;;
  '(r, hclen) <- png_bit_reader_read_bits r 4 ;;
  let hlit := u32 (hlit + 257) in
  let hdist := u32 (hdist + 1) in
  let hclen := u32 (hclen + 4) in
  if (288 <? hlit) || (32 <? hdist) then Fail StatusNotSupported else
  '(r, code_length_lengths) <- read_code_lengths hclen r ;;
  code_length_tree <- png_huffman_build code_length_lengths 19 ;;
  let total := u32 (hlit + hdist) in
  s <- iterate (S (bits_left r)) (length_step code_length_tree hlit hdist total)
         (mkDyn r (replicate 288 0) (replicate 32 0) 0 0) ;;
  literal_tree <- png_huffman_build (dy_literal s) 288 ;;
  distance_tree <- png_huffman_build (dy_distance s) 32 ;;
  Ok (dy_reader s, literal_tree, distance_tree).

(** ** The symbols of a block *)
Record InflateState : Type := mkInflate {
  in_reader : PngBitReader;
  in_output : list Z;
  in_index : Z
}.

(** A base plus its extra bits, read only when there are any. *)
Definition read_extra (r : PngBitReader) (base extra : Z) : Exec (PngBitReader * Z) :=
  if negb (extra =? 0) then
    '(r, extra_value) <- png_bit_reader_read_bits r extra ;;
    Ok (r, u64 (base + extra_value))
  else Ok (r, base).

(** The copy loop reads what it has just written when the match overlaps. *)
Definition copy_match (output : list Z) (output_index distance_offset length_value : Z)
  : Exec (list Z * Z) :=
  for_range (Z.to_nat length_value) 0
    (fun copy_index '(out, oi) =>
       b <- aget out (u64 (distance_offset + copy_index)) ;;
       out <- aset out oi b ;;
       Ok (out, u64 (oi + 1))) (output, output_index).

(** One turn of the symbol loop; [inr] is the end-of-block symbol. *)
Definition symbol_step (literal_tree distance_tree : PngHuffmanTree) (output_size : Z)
    (s : InflateState) : Exec (InflateState + InflateState) :=
  '(r, sym) <- png_huffman_decode_symbol (in_reader s) literal_tree ;;
  if (0 <=? sym) && (sym <? 256) then
    if output_size <=? in_index s then Fail StatusNoSpace else
    out <- aset (in_output s) (in_index s) (u8 sym) ;;
    Ok (inl (mkInflate r out (u64 (in_index s + 1))))
  else if sym =? 256 then Ok (inr (mkInflate r (in_output s) (in_index s)))
  else if (sym <? 257) || (285 <? sym) then Fail StatusNotSupported
  else
    base <- aget kDeflateLengthBase (u32 (u32 sym - 257)) ;;
    extra <- aget kDeflateLengthExtra (u32 (u32 sym - 257)) ;;
    '(r, length_value) <- read_extra r base extra ;;
    '(r, sym) <- png_huffman_decode_symbol r distance_tree ;;
    if (sym <? 0) || (29 <? sym) then Fail StatusNotSupported else
    base <- aget kDeflateDistanceBase (u32 sym) ;;
    extra <- aget kDeflateDistanceExtra (u32 sym) ;;
    '(r, distance_value) <- read_extra r base extra ;;
    if (distance_value =? 0) || (in_index s <? distance_value) then Fail StatusFault else
    let block_limit := u64 (in_index s + length_value) in
    if output_size <? block_limit then Fail StatusNoSpace else
    let distance_offset := u64 (in_index s - distance_value) in
    '(out, oi) <- copy_match (in_output s) (in_index s) distance_offset length_value ;;
    Ok (inl (mkInflate r out oi)).

(** ** Blocks *)
Definition stored_block (s : InflateState) (output_size : Z) : Exec InflateState :=
  let r := png_bit_reader_align_byte (in_reader s) in
  if br_size r <? u64 (byte_offset r + 4) then Fail StatusFault else
  block_length <- png_read_le_u16 (br_data r) (byte_offset r) ;;
  block_length_complement <- png_read_le_u16 (br_data r) (byte_offset r + 2) ;;
  let offset := u64 (byte_offset r + 4) in
  if negb (u16 (Z.lxor block_length 0xFFFF) =? block_length_complement) then Fail StatusFault else
  if br_size r <? u64 (offset + block_length) then Fail StatusFault else
  if output_size <? u64 (in_index s + block_length) then Fail StatusNoSpace else
  out <- copy_loop (Z.to_nat block_length) (in_output s) (in_index s) (br_data r) offset ;;
  Ok (mkInflate (mkBitReader (br_data r) (br_size r) (u64 (offset + block_length))
                   (bit_buffer r) (bit_count r)) out (u64 (in_index s + block_length))).

(** Every turn of the symbol loop consumes at least one bit. *)
Definition huffman_block (literal_tree distance_tree : PngHuffmanTree) (output_size : Z)
    (s : InflateState) : Exec InflateState :=
  iterate (S (bits_left (in_reader s))) (symbol_step literal_tree distance_tree output_size) s.

(** One turn of [do ... while (final_block == 0U)]. *)
Definition block_step (output_size : Z) (s : InflateState) : Exec (InflateState + InflateState) :=
  '(r, final_block) <- png_bit_reader_read_bits (in_reader s) 1 ;;
  '(r, block_type) <- png_bit_reader_read_bits r 2 ;;
  let s := mkInflate r (in_output s) (in_index s) in
  s <- (if block_type =? 0 then stored_block s output_size
        else if block_type =? 1 then
          '(lt, dt) <- png_build_fixed_trees ;;
          huffman_block lt dt output_size s
        else if block_type =? 2 then
          '(r, lt, dt) <- png_build_dynamic_trees r ;;
          huffman_block lt dt output_size (mkInflate r (in_output s) (in_index s))
        else Fail StatusNotSupported) ;;
  if final_block =? 0 then Ok (inl s) else Ok (inr s).

(** Every block consumes at least its three header bits. *)
Definition png_inflate_zlib (compressed : list Z) (compressed_size : Z)
    (output : list Z) (output_size : Z) : Exec (list Z) :=
  if compressed_size <? 6 then Fail StatusIoError else
  cmf <- aget compressed 0 ;;
  flg <- aget compressed 1 ;;
  if negb (Z.land cmf 0x0F =? 8) || negb (Z.lor (u32 (Z.shiftl cmf 8)) flg mod 31 =? 0)
     || negb (Z.land flg 0x20 =? 0) then Fail StatusNotSupported else
  let r := png_bit_reader_init (drop 2 compressed) (u64 (compressed_size - 6)) in
  s <- iterate (S (bits_left r)) (block_step output_size) (mkInflate r output 0) ;;
  if negb (in_index s =? output_size) then Fail StatusIoError else
  checksum <- png_read_be_u32 compressed (u64 (compressed_size - 4)) ;;
  adler <- png_adler32 (in_output s) output_size ;;
  if negb (checksum =? adler) then Fail StatusIoError else
  Ok (in_output s).
