(* ===== verification/PngInflateProofs.v ===== *)
(** The DEFLATE decoder is safe on every input: it stays inside its tables, its
    input and its output buffer, and terminates; a byte string it accepts fills
    the output exactly and matches its Adler-32 trailer. *)
From stdpp Require Import base list numbers.
From Stdlib Require Import ZArith Lia.
From S2P Require Import Prelude PngBits PngHuffman PngHuffmanProofs PngCanonical PngNodes PngBuild PngInflate.

Local Open Scope Z_scope.

(** ** Progress of the reader *)

(** [r'] is [r] after reading at least [n] bits. *)
Definition advanced (n : nat) (r r' : PngBitReader) : Prop :=
  reader_wf r' /\ same_source r r' /\ (length (stream r') + n <= length (stream r))%nat.

Lemma advanced_refl r : reader_wf r -> advanced 0 r r.
Proof. intros Hr. split_and!; [done|done|lia]. Qed.

Lemma advanced_trans n m r1 r2 r3 : advanced n r1 r2 -> advanced m r2 r3 -> advanced (n + m) r1 r3.
Proof.
  intros (_ & S1 & L1) (W2 & S2 & L2). split_and!; [done|by eapply same_source_trans|lia].
Qed.

Lemma advanced_le n m r r' : (m <= n)%nat -> advanced n r r' -> advanced m r r'.
Proof. intros Hle (W & S & L). split_and!; [done|done|lia]. Qed.

Lemma advanced_wf n r r' : advanced n r r' -> reader_wf r'.
Proof. by intros [H _]. Qed.

Lemma wp_read r n :
  reader_wf r -> 0 <= n <= 24 ->
  wp (png_bit_reader_read_bits r n)
    (fun '(r', v) => advanced (Z.to_nat n) r r' /\ 0 <= v < 2 ^ n) is_error.
Proof.
  intros Hr Hn. eapply wp_mono; [by apply wp_read_bits| |].
  - intros [r' v] (Hwf & Hs & Hst & Hle & ->).
    pose proof (bits_value_range (take (Z.to_nat n) (stream r))) as Hv.
    rewrite length_take_le, Z2Nat.id in Hv by lia.
    split; [|done]. split_and!; [done|done|]. rewrite Hst, length_drop. lia.
  - by intros c [-> _].
Qed.

Lemma wp_decode r t :
  tree_wf t -> reader_wf r ->
  wp (png_huffman_decode_symbol r t) (fun '(r', sym) => advanced 1 r r' /\ 0 <= sym) is_error.
Proof.
  intros Ht Hr. eapply wp_mono; [by apply wp_decode_symbol| |].
  - intros [r' sym] (Hwf & Hs & Hsym & Hlt & _). split; [|done]. split_and!; [done|done|lia].
  - by intros c [-> _].
Qed.

Lemma wp_build_safe L n :
  Forall (fun x => 0 <= x) L -> n = len L -> 0 < n <= 1000 ->
  wp (png_huffman_build L n) tree_wf is_error.
Proof.
  intros HL -> Hn. eapply wp_mono; [by apply wp_build| |].
  - by intros t [Ht _].
  - by intros c [[-> _]|[-> _]].
Qed.

(** ** Dynamic trees *)
Section Dynamic.
Context (hlit hdist : Z).
Hypothesis Hlit : 257 <= hlit <= 288.
Hypothesis Hdist : 1 <= hdist <= 32.

Definition lengths_table (n : nat) (l : list Z) : Prop := length l = n /\ Forall (fun x => 0 <= x) l.

Lemma zero_table n : lengths_table n (replicate n 0).
Proof. split; [apply length_replicate|by apply Forall_replicate]. Qed.

Definition dyn_inv (r0 : PngBitReader) (s : DynState) : Prop :=
  reader_wf (dy_reader s) /\ same_source r0 (dy_reader s) /\
  lengths_table 288 (dy_literal s) /\ lengths_table 32 (dy_distance s) /\
  0 <= dy_index s <= hlit + hdist /\ 0 <= dy_repeat s.

Lemma lengths_table_insert n l i x :
  lengths_table n l -> 0 <= x -> lengths_table n (<[i := x]> l).
Proof. intros [Hl Hf] Hx. split; [by rewrite length_insert|]. by apply Forall_insert. Qed.

Lemma wp_store l d index value :
  lengths_table 288 l -> lengths_table 32 d -> 0 <= index < 2 ^ 32 -> 0 <= value ->
  wp (png_store_dynamic_length l d hlit hdist index value)
    (fun '(l', d') => lengths_table 288 l' /\ lengths_table 32 d' /\ index < hlit + hdist) is_error.
Proof.
  intros Hl Hd Hi Hv. unfold png_store_dynamic_length. pose proof Hl as [Hll _]. pose proof Hd as [Hdl _].
  destruct (Z.ltb_spec index hlit).
  - rewrite aset_ok by lia. cbn. split_and!; [by apply lengths_table_insert|done|lia].
  - rewrite u32_small by lia. destruct (Z.ltb_spec (index - hlit) hdist); [|done].
    rewrite aset_ok by lia. cbn. split_and!; [done|by apply lengths_table_insert|lia].
Qed.

Lemma wp_repeat_store n value s r0 :
  dyn_inv r0 s -> 0 <= value ->
  wp (repeat_store n hlit hdist (hlit + hdist) value s)
    (fun s' => dyn_inv r0 s' /\ dy_reader s' = dy_reader s) is_error.
Proof.
  revert s. induction n as [|n IH]; intros s Hs Hv; cbn [repeat_store]; [by apply wp_ok|].
  destruct Hs as (Hr & Hsrc & Hl & Hd & Hi & Hrep). apply wp_bind.
  eapply wp_post; [apply wp_store; [done|done|lia|done]|].
  intros [l d] (Hl' & Hd' & Hlt). cbv zeta. rewrite u32_small by lia.
  destruct (Z.ltb_spec (hlit + hdist) (dy_index s + 1)); [done|].
  eapply wp_post; [apply IH; [|done]|].
  - split_and!; cbn; done || lia.
  - intros s' [Hs' Hr']. by rewrite Hr'.
Qed.

Lemma wp_repeat_code bits base value s r0 :
  dyn_inv r0 s -> 0 <= value -> 0 <= bits <= 7 -> 0 <= base <= 11 ->
  wp (repeat_code bits base value hlit hdist (hlit + hdist) s)
    (fun s' => dyn_inv r0 s' /\ (length (stream (dy_reader s')) <= length (stream (dy_reader s)))%nat) is_error.
Proof.
  intros Hs Hv Hb Hba. pose proof Hs as (Hr & Hsrc & Hl & Hd & Hi & Hrep). unfold repeat_code. apply wp_bind.
  eapply wp_post; [apply wp_read; [done|lia]|].
  intros [r v] [(Hwf & Hsr & Hle) Hvr]. eapply wp_post; [apply (wp_repeat_store _ _ _ r0); [|done]|].
  - split_and!; cbn; try done; try lia. by eapply same_source_trans.
  - intros s' [Hs' ->]. cbn. split; [done|lia].
Qed.

Lemma wp_length_step t s r0 :
  tree_wf t -> dyn_inv r0 s ->
  wp (length_step t hlit hdist (hlit + hdist) s)
    (fun x => match x with
              | inl s' => dyn_inv r0 s' /\ (length (stream (dy_reader s')) < length (stream (dy_reader s)))%nat
              | inr s' => dyn_inv r0 s' /\ dy_reader s' = dy_reader s
              end) is_error.
Proof.
  intros Ht Hs. pose proof Hs as (Hr & Hsrc & Hl & Hd & Hi & Hrep). unfold length_step.
  destruct (Z.ltb_spec (dy_index s) (hlit + hdist)) as [Hlt|]; cbn [negb]; [|by apply wp_ok].
  apply wp_bind. eapply wp_post; [by apply wp_decode|]. intros [r sym] [(Hwf & Hsr & Hle) Hsym].
  cbv zeta. cbn [dy_reader dy_literal dy_distance dy_index dy_repeat].
  assert (dyn_inv r0 (mkDyn r (dy_literal s) (dy_distance s) (dy_index s) (dy_repeat s))) as Hs1.
  { split_and!; cbn; try done; try lia. by eapply same_source_trans. }
  assert (forall bits base value, 0 <= value -> 0 <= bits <= 7 -> 0 <= base <= 11 ->
    wp (s' <- repeat_code bits base value hlit hdist (hlit + hdist)
                (mkDyn r (dy_literal s) (dy_distance s) (dy_index s) (dy_repeat s)) ;; Ok (inl s'))
      (fun x : DynState + DynState => match x with
              | inl s' => dyn_inv r0 s' /\ (length (stream (dy_reader s')) < length (stream (dy_reader s)))%nat
              | inr s' => dyn_inv r0 s' /\ dy_reader s' = dy_reader s
              end) is_error) as Hrc.
  { intros bits base value Hv Hb Hba. apply wp_bind. eapply wp_post; [by apply (wp_repeat_code _ _ _ _ r0)|].
    intros s' [Hs' Hle']. cbn [dy_reader] in Hle'. apply wp_ok. split; [done|lia]. }
  destruct (Z.leb_spec 0 sym); [|lia]. cbn [andb]. destruct (Z.leb_spec sym 15).
  - apply wp_bind. pose proof (u8_range sym). eapply wp_post; [apply wp_store; [done|done|lia|lia]|].
    intros [l d] (Hl' & Hd' & _). apply wp_ok. rewrite u32_small by lia. split; [|cbn; lia].
    split_and!; cbn; try done; try lia. by eapply same_source_trans.
  - destruct (sym =? 16).
    { destruct (dy_index s =? 0); [done|]. apply Hrc; lia. }
    destruct (sym =? 17); [apply Hrc; lia|]. destruct (sym =? 18); [apply Hrc; lia|done].
Qed.
End Dynamic.

Lemma wp_read_code_lengths hclen r :
  reader_wf r -> 4 <= hclen <= 19 ->
  wp (read_code_lengths hclen r)
    (fun '(r', lens) => advanced 0 r r' /\ lengths_table 19 lens) is_error.
Proof.
  intros Hr Hh. unfold read_code_lengths.
  apply wp_for_range with (I := fun _ '(r', lens) => advanced 0 r r' /\ lengths_table 19 lens).
  - split; [by apply advanced_refl|]. apply zero_table.
  - intros i [r1 lens] Hi [Ha Hl]. apply wp_bind.
    eapply wp_post; [apply wp_read; [by eapply advanced_wf|lia]|]. intros [r2 v] [Ha2 Hv].
    assert (Forall (fun k => 0 <= k < 19) kCodeLengthOrder) as Hord
      by (repeat (apply List.Forall_cons; [lia|]); apply List.Forall_nil).
    apply wp_bind, wp_aget; [cbn; lia|]. intros k Hk. rewrite Forall_lookup in Hord. specialize (Hord _ _ Hk).
    pose proof Hl as [Hll _]. rewrite aset_ok by lia. rewrite bind_ok. apply wp_ok. split.
    + eapply (advanced_le 3); [lia|]. by apply (advanced_trans 0 3 r r1 r2).
    + apply lengths_table_insert; [done|]. pose proof (u8_range v). lia.
  - done.
Qed.

Lemma wp_dynamic r :
  reader_wf r ->
  wp (png_build_dynamic_trees r)
    (fun '(r', lt, dt) => advanced 0 r r' /\ tree_wf lt /\ tree_wf dt) is_error.
Proof.
  intros Hr. unfold png_build_dynamic_trees.
  apply wp_bind. eapply wp_post; [apply wp_read; [done|lia]|]. intros [r1 hlit] [A1 V1].
  apply wp_bind. eapply wp_post; [apply wp_read; [by eapply advanced_wf|lia]|]. intros [r2 hdist] [A2 V2].
  apply wp_bind. eapply wp_post; [apply wp_read; [by eapply advanced_wf|lia]|]. intros [r3 hclen] [A3 V3].
  cbv zeta. rewrite (u32_small (hlit + 257)), (u32_small (hdist + 1)), (u32_small (hclen + 4)) by lia.
  rewrite (u32_small (hlit + 257 + (hdist + 1))) by lia.
  destruct (Z.ltb_spec 288 (hlit + 257)); [done|]. destruct (Z.ltb_spec 32 (hdist + 1)); [done|]. cbn [orb].
  apply wp_bind. eapply wp_post; [apply wp_read_code_lengths; [by eapply advanced_wf|lia]|].
  intros [r4 lens] [A4 [Hl4 Hp4]].
  apply wp_bind. eapply wp_post; [apply wp_build_safe; [done|by rewrite Hl4|lia]|]. intros clt Hclt.
  pose proof (advanced_wf _ _ _ A4) as W4.
  apply wp_bind. eapply wp_post with (Q := fun s => dyn_inv (hlit + 257) (hdist + 1) r4 s /\
    (length (stream (dy_reader s)) <= length (stream r4))%nat).
  { apply (wp_iterate _ _ _ (fun s => dyn_inv (hlit + 257) (hdist + 1) r4 s /\
      (length (stream (dy_reader s)) <= length (stream r4))%nat) (fun s => length (stream (dy_reader s)))).
    - intros s [Hs Hle]. eapply wp_post; [apply (wp_length_step (hlit + 257) (hdist + 1) ltac:(lia) ltac:(lia) clt s r4); done|].
      intros [s'|s'] [Hs' Hle']; [|by rewrite Hle']. split; [split; [done|lia]|done].
    - split; [|done]. unfold dyn_inv. cbn [dy_reader dy_literal dy_distance dy_index dy_repeat].
      split_and!; try lia; done || apply zero_table.
    - cbn. rewrite bits_left_stream by done. lia. }
  intros s [(Hrs & Hss & [Hll Hlf] & [Hdl Hdf] & _) Hle].
  apply wp_bind. eapply wp_post; [apply wp_build_safe; [done|by rewrite Hll|lia]|]. intros lt Hlt.
  apply wp_bind. eapply wp_post; [apply wp_build_safe; [done|by rewrite Hdl|lia]|]. intros dt Hdt.
  apply wp_ok. split_and!; [|done|done].
  apply (advanced_le (5 + (5 + (4 + (0 + 0))))); [lia|].
  eapply advanced_trans; [done|]. eapply advanced_trans; [done|]. eapply advanced_trans; [done|].
  eapply advanced_trans; [done|]. split_and!; [done|done|lia].
Qed.

(** ** Fixed trees *)
Definition fixed_literal_lengths : list Z :=
  replicate 144 8 ++ replicate 112 9 ++ replicate 24 7 ++ replicate 8 8.
Definition fixed_distance_lengths : list Z := replicate 32 5.

Definition lengths_okb (L : list Z) : bool :=
  forallb (fun x => (0 <=? x) && (x <=? 15)) L && (kraft L 15 <=? 2 ^ 15).

Lemma lengths_okb_ok L : lengths_okb L = true -> lengths_ok L.
Proof.
  unfold lengths_okb. intros [Hf Hk]%andb_true_iff. rewrite forallb_forall in Hf. split; [|lia].
  apply List.Forall_forall. intros x Hx. specialize (Hf x Hx). lia.
Qed.

Lemma fixed_lengths_ok : lengths_ok fixed_literal_lengths /\ lengths_ok fixed_distance_lengths.
Proof. split; apply lengths_okb_ok; vm_compute; reflexivity. Qed.

Lemma fill_literal_ok : fill_literal_lengths = Ok fixed_literal_lengths.
Proof. vm_compute. reflexivity. Qed.

Lemma fill_distance_ok : fill_distance_lengths = Ok fixed_distance_lengths.
Proof. vm_compute. reflexivity. Qed.

Lemma fixed_trees_ok :
  exists lt dt, png_build_fixed_trees = Ok (lt, dt) /\ tree_wf lt /\ tree_wf dt /\
    holds_codes fixed_literal_lengths 288 lt /\ holds_codes fixed_distance_lengths 32 dt.
Proof.
  destruct fixed_lengths_ok as [HL HD].
  destruct (build_total fixed_literal_lengths) as (lt & El & Wl & Cl); [done|by left|done|].
  destruct (build_total fixed_distance_lengths) as (dt & Ed & Wd & Cd); [done|by left|done|].
  exists lt, dt. split_and!; [|exact Wl|exact Wd|exact Cl|exact Cd]. unfold png_build_fixed_trees.
  rewrite fill_literal_ok, fill_distance_ok, !bind_ok. change 288 with (len fixed_literal_lengths). change 32 with (len fixed_distance_lengths).
  by rewrite El, Ed.
Qed.

(** ** Copying a match *)

(** [n] bytes copied from [dist] back, one at a time: the source may overlap
    what is being written. *)
Fixpoint copy_back (n dist : nat) (acc : list Z) : list Z :=
  match n with
  | O => acc
  | S n' => let a := copy_back n' dist acc in a ++ [nth (length a - dist) a 0]
  end.

Lemma length_copy_back n dist acc : length (copy_back n dist acc) = (length acc + n)%nat.
Proof. induction n as [|n IH]; cbn; [lia|]. rewrite length_app, IH. cbn. lia. Qed.

Lemma write_next (out : list Z) (k : nat) b :
  (k < length out)%nat -> take (S k) (<[k := b]> out) = take k out ++ [b].
Proof.
  intros Hk. rewrite (take_S_r _ _ b) by (by rewrite list_lookup_insert_eq).
  by rewrite take_insert_ge by lia.
Qed.

Lemma copy_match_ok out oi dist n :
  bytes out -> 0 < dist <= oi -> 0 <= n -> oi + n <= len out -> len out < 2 ^ 63 ->
  exists out', copy_match out oi (oi - dist) n = Ok (out', oi + n) /\ bytes out' /\
    length out' = length out /\
    take (Z.to_nat (oi + n)) out' = copy_back (Z.to_nat n) (Z.to_nat dist) (take (Z.to_nat oi) out).
Proof.
  intros Hb Hd Hn Hle Hmax.
  assert (exists p, copy_match out oi (oi - dist) n = Ok p /\ bytes p.1 /\ length p.1 = length out /\
    p.2 = oi + n /\
    take (Z.to_nat (oi + n)) p.1 = copy_back (Z.to_nat n) (Z.to_nat dist) (take (Z.to_nat oi) out)) as Hp.
  { apply wp_total. unfold copy_match.
    apply wp_for_range with (I := fun i p => bytes p.1 /\ length p.1 = length out /\ p.2 = oi + i /\
      take (Z.to_nat (oi + i)) p.1 = copy_back (Z.to_nat i) (Z.to_nat dist) (take (Z.to_nat oi) out)).
    - cbn. rewrite !Z.add_0_r. done.
    - intros i [o k] Hi (Hbo & Hlo & Hk & Ht). cbn [fst snd] in *. subst k.
      rewrite (u64_small (oi - dist + i)) by lia. apply wp_bind, wp_aget; [lia|]. intros b Hbl.
      rewrite aset_ok by lia. rewrite bind_ok. apply wp_ok. cbn [fst snd].
      rewrite u64_small by lia. split_and!.
      + apply Forall_insert; [done|]. by eapply bytes_lookup.
      + by rewrite length_insert.
      + lia.
      + replace (Z.to_nat (oi + (i + 1))) with (S (Z.to_nat (oi + i))) by lia.
        replace (Z.to_nat (i + 1)) with (S (Z.to_nat i)) by lia. cbn [copy_back]. rewrite <- Ht.
        rewrite write_next by lia. do 2 f_equal.
        rewrite nth_lookup, length_take_le, lookup_take_lt by lia.
        replace (Z.to_nat (oi + i) - Z.to_nat dist)%nat with (Z.to_nat (oi - dist + i)) by lia. by rewrite Hbl.
    - intros [o k] Hinv. rewrite Z.add_0_l, Z2Nat.id in Hinv by lia. done. }
  destruct Hp as ([out' k] & E & Hb' & Hl' & Hk & Ht). cbn [fst snd] in *. subst k. by exists out'.
Qed.

(** ** The symbol loop *)
Definition inf_inv (size : Z) (r0 : PngBitReader) (s : InflateState) : Prop :=
  reader_wf (in_reader s) /\ same_source r0 (in_reader s) /\
  bytes (in_output s) /\ len (in_output s) = size /\ 0 <= in_index s <= size.

Lemma length_tables :
  length kDeflateLengthBase = 29%nat /\ length kDeflateLengthExtra = 29%nat /\
  length kDeflateDistanceBase = 30%nat /\ length kDeflateDistanceExtra = 30%nat /\
  Forall (fun b => 3 <= b <= 258) kDeflateLengthBase /\ Forall (fun b => 0 <= b <= 5) kDeflateLengthExtra /\
  Forall (fun b => 1 <= b <= 24577) kDeflateDistanceBase /\ Forall (fun b => 0 <= b <= 13) kDeflateDistanceExtra.
Proof.
  split_and!; try done; repeat (apply List.Forall_cons; [lia|]); apply List.Forall_nil.
Qed.

Lemma wp_read_extra r base extra :
  reader_wf r -> 1 <= base <= 24577 -> 0 <= extra <= 13 ->
  wp (read_extra r base extra) (fun '(r', v) => advanced 0 r r' /\ 1 <= v < 2 ^ 16) is_error.
Proof.
  intros Hr Hb He. unfold read_extra. destruct (Z.eqb_spec extra 0); cbn [negb].
  - apply wp_ok. split; [by apply advanced_refl|lia].
  - apply wp_bind. eapply wp_post; [apply wp_read; [done|lia]|]. intros [r' v] [Ha Hv]. apply wp_ok.
    assert (2 ^ extra <= 2 ^ 13) by (apply Z.pow_le_mono_r; lia). rewrite u64_small by lia.
    split; [|lia]. by eapply (advanced_le (Z.to_nat extra)); [lia|].
Qed.

Lemma wp_symbol_step lt dt size s r0 :
  tree_wf lt -> tree_wf dt -> size < 2 ^ 62 -> inf_inv size r0 s ->
  wp (symbol_step lt dt size s)
    (fun x => match x with inl s' | inr s' => inf_inv size r0 s' /\
       (length (stream (in_reader s')) < length (stream (in_reader s)))%nat end) is_error.
Proof.
  intros Hlt Hdt Hmax (Hr & Hsrc & Hb & Hl & Hi). unfold symbol_step.
  destruct length_tables as (L1 & L2 & L3 & L4 & F1 & F2 & F3 & F4).
  rewrite Forall_lookup in F1, F2, F3, F4.
  apply wp_bind. eapply wp_post; [by apply wp_decode|]. intros [r1 sym] [A1 Hsym].
  assert (forall r' out oi, advanced 1 (in_reader s) r' -> bytes out -> len out = size -> 0 <= oi <= size ->
    inf_inv size r0 (mkInflate r' out oi) /\ (length (stream r') < length (stream (in_reader s)))%nat) as Hdone.
  { intros r' out oi (Hwf & Hs & Hle) ? ? ?. split; [|lia]. split_and!; cbn; try done; try lia.
    by eapply same_source_trans. }
  destruct (Z.leb_spec 0 sym); [|lia]. cbn [andb]. destruct (Z.ltb_spec sym 256).
  { destruct (Z.leb_spec size (in_index s)); [done|]. rewrite aset_ok by lia. rewrite bind_ok.
    rewrite u64_small by lia. apply wp_ok. apply Hdone; [done| |by rewrite length_insert|lia].
    apply Forall_insert; [done|]. apply u8_range. }
  destruct (Z.eqb_spec sym 256); [apply wp_ok; by apply Hdone|].
  destruct (Z.ltb_spec sym 257); [done|]. destruct (Z.ltb_spec 285 sym); [done|]. cbn [orb].
  rewrite (u32_small sym) by lia. rewrite (u32_small (sym - 257)) by lia.
  apply wp_bind, wp_aget; [lia|]. intros base Hbase. specialize (F1 _ _ Hbase).
  apply wp_bind, wp_aget; [lia|]. intros extra Hextra. specialize (F2 _ _ Hextra).
  apply wp_bind. eapply wp_post; [apply wp_read_extra; [by eapply advanced_wf|lia|lia]|].
  intros [r2 length_value] [A2 Hlv].
  apply wp_bind. eapply wp_post; [apply wp_decode; [done|by eapply advanced_wf]|]. intros [r3 dsym] [A3 Hds].
  destruct (Z.ltb_spec dsym 0); [lia|]. cbn [orb]. destruct (Z.ltb_spec 29 dsym); [done|].
  rewrite (u32_small dsym) by lia.
  apply wp_bind, wp_aget; [lia|]. intros dbase Hdbase. specialize (F3 _ _ Hdbase).
  apply wp_bind, wp_aget; [lia|]. intros dextra Hdextra. specialize (F4 _ _ Hdextra).
  apply wp_bind. eapply wp_post; [apply wp_read_extra; [by eapply advanced_wf|lia|lia]|].
  intros [r4 dv] [A4 Hdv].
  destruct (Z.eqb_spec dv 0); [lia|]. cbn [orb]. destruct (Z.ltb_spec (in_index s) dv); [done|].
  cbv zeta. rewrite (u64_small (in_index s + length_value)) by lia.
  destruct (Z.ltb_spec size (in_index s + length_value)); [done|]. rewrite u64_small by lia.
  destruct (copy_match_ok (in_output s) (in_index s) dv length_value) as (out' & -> & Hb' & Hl' & _);
    [done|lia|lia|lia|lia|].
  rewrite bind_ok. apply wp_ok. apply Hdone; [|done|lia|lia].
  apply (advanced_le (1 + (0 + (1 + 0)))); [lia|].
  eapply advanced_trans; [done|]. eapply advanced_trans; [done|]. by eapply advanced_trans.
Qed.

Lemma wp_huffman_block lt dt size s r0 :
  tree_wf lt -> tree_wf dt -> size < 2 ^ 62 -> inf_inv size r0 s ->
  wp (huffman_block lt dt size s)
    (fun s' => inf_inv size r0 s' /\
       (length (stream (in_reader s')) <= length (stream (in_reader s)))%nat) is_error.
Proof.
  intros Hlt Hdt Hmax Hs. unfold huffman_block. rewrite bits_left_stream by apply Hs.
  apply (wp_iterate _ _ _ (fun s' => inf_inv size r0 s' /\
      (length (stream (in_reader s')) <= length (stream (in_reader s)))%nat)
    (fun s' => length (stream (in_reader s')))); [|done|lia].
  intros s' [Hs' Hle]. eapply wp_post; [by apply (wp_symbol_step lt dt size s' r0)|].
  intros [s2|s2] [Hs2 Hlt2]; [split; [split; [done|lia]|done]|split; [done|lia]].
Qed.

(** ** Blocks *)

(** The reader after skipping to byte [off] of its source. *)
Lemma at_byte_wf r off :
  reader_wf r -> 0 <= off <= br_size r ->
  reader_wf (mkBitReader (br_data r) (br_size r) off 0 0) /\
  stream (mkBitReader (br_data r) (br_size r) off 0 0) =
    bytes_bits (slice (br_data r) (Z.to_nat off) (Z.to_nat (br_size r - off))).
Proof. intros (Hd & Ho & Hs & Hsz & _) Hoff. split; [split_and!; cbn; try done; lia|done]. Qed.

Lemma wp_stored s size r0 :
  size < 2 ^ 62 -> inf_inv size r0 s ->
  wp (stored_block s size)
    (fun s' => inf_inv size r0 s' /\
       (length (stream (in_reader s')) <= length (stream (in_reader s)))%nat) is_error.
Proof.
  intros Hmax (Hr & Hsrc & Hb & Hl & Hi). unfold stored_block.
  pose proof Hr as (Hd & Ho & Hs & Hsz & Hc & Hbb). set (r := in_reader s) in *.
  cbn [png_bit_reader_align_byte br_data br_size byte_offset bit_buffer bit_count].
  rewrite (u64_small (byte_offset r + 4)) by lia.
  destruct (Z.ltb_spec (br_size r) (byte_offset r + 4)); [done|].
  destruct (read_le_u16_ok (br_data r) (byte_offset r)) as [-> V1]; [done|lia|lia|].
  destruct (read_le_u16_ok (br_data r) (byte_offset r + 2)) as [-> V2]; [done|lia|lia|].
  rewrite !bind_ok. set (n := le_value (slice (br_data r) (Z.to_nat (byte_offset r)) 2)) in *.
  destruct (negb _); [done|]. rewrite (u64_small (byte_offset r + 4 + n)) by lia.
  destruct (Z.ltb_spec (br_size r) (byte_offset r + 4 + n)); [done|].
  rewrite (u64_small (in_index s + n)) by lia. destruct (Z.ltb_spec size (in_index s + n)); [done|].
  rewrite copy_loop_ok by lia. rewrite bind_ok. apply wp_ok.
  destruct (at_byte_wf r (byte_offset r + 4 + n) Hr ltac:(lia)) as [Hwf Hst].
  assert (length (slice (br_data r) (Z.to_nat (byte_offset r + 4)) (Z.to_nat n)) = Z.to_nat n) as Hsl
    by (apply length_slice; lia).
  split.
  - split_and!; cbn [in_reader in_output in_index]; try done; try lia.
    + by apply bytes_splice, bytes_slice.
    + rewrite length_splice; [done|]. rewrite Hsl. lia.
  - cbn [in_reader]. rewrite Hst. fold r. unfold stream. rewrite length_app, !length_bytes_bits.
    unfold unread. rewrite !length_slice by lia. lia.
Qed.

Lemma wp_block_step size s r0 :
  size < 2 ^ 62 -> inf_inv size r0 s ->
  wp (block_step size s)
    (fun x => match x with inl s' | inr s' => inf_inv size r0 s' /\
       (length (stream (in_reader s')) < length (stream (in_reader s)))%nat end) is_error.
Proof.
  intros Hmax Hs. pose proof Hs as (Hr & Hsrc & Hb & Hl & Hi). unfold block_step.
  apply wp_bind. eapply wp_post; [apply wp_read; [done|lia]|]. intros [r1 final] [A1 _].
  apply wp_bind. eapply wp_post; [apply wp_read; [by eapply advanced_wf|lia]|]. intros [r2 kind] [A2 _].
  cbv zeta. pose proof (advanced_trans _ _ _ _ _ A1 A2) as A. pose proof (advanced_wf _ _ _ A) as W.
  change (Z.to_nat 1 + Z.to_nat 2)%nat with 3%nat in A.
  assert (forall r', advanced 0 r2 r' -> inf_inv size r0 (mkInflate r' (in_output s) (in_index s))) as Hinv.
  { intros r' (Hw & Hss & _). split_and!; cbn; try done; try lia.
    eapply same_source_trans; [done|]. destruct A as (_ & S & _). by eapply same_source_trans. }
  assert (forall m, wp m (fun s' => inf_inv size r0 s' /\
      (length (stream (in_reader s')) <= length (stream r2))%nat) is_error ->
    wp (s' <- m ;; if final =? 0 then Ok (inl s') else Ok (inr s'))
      (fun x => match x with inl s' | inr s' => inf_inv size r0 s' /\
         (length (stream (in_reader s')) < length (stream (in_reader s)))%nat end) is_error) as Hfin.
  { intros m Hm. apply wp_bind. eapply wp_post; [exact Hm|]. intros s' [Hs' Hle].
    destruct A as (_ & _ & HA). destruct (final =? 0); apply wp_ok; (split; [done|lia]). }
  pose proof (Hinv r2 (advanced_refl r2 W)) as Hs2. apply Hfin.
  destruct (kind =? 0); [exact (wp_stored _ size r0 Hmax Hs2)|].
  destruct (kind =? 1).
  { destruct fixed_trees_ok as (lt & dt & -> & Wl & Wd & _). rewrite bind_ok.
    exact (wp_huffman_block lt dt size _ r0 Wl Wd Hmax Hs2). }
  destruct (kind =? 2); [|done].
  apply wp_bind. eapply wp_post; [by apply wp_dynamic|]. intros [[r3 lt] dt] (A3 & Wl & Wd).
  eapply wp_post; [apply (wp_huffman_block lt dt size _ r0); [done|done|done|by apply Hinv]|].
  intros s' [Hs' Hle]. cbn [in_reader] in Hle. destruct A3 as (_ & _ & H3). split; [done|lia].
Qed.

Lemma wp_inflate compressed size output :
  bytes compressed -> bytes output -> 0 <= size <= len compressed -> size < 2 ^ 62 -> len output < 2 ^ 62 ->
  wp (png_inflate_zlib compressed size output (len output))
    (fun out => bytes out /\ length out = length output /\
       be_value (slice compressed (Z.to_nat (size - 4)) 4) = adler32 out) is_error.
Proof.
  intros Hc Ho Hsz Hcl Hol. unfold png_inflate_zlib.
  destruct (Z.ltb_spec size 6); [done|].
  apply wp_bind, wp_aget; [lia|]. intros cmf _. apply wp_bind, wp_aget; [lia|]. intros flg _.
  destruct (_ || _); [done|]. cbv zeta. rewrite (u64_small (size - 6)) by lia.
  destruct (reader_init_ok (drop 2 compressed) (size - 6)) as [Wr _];
    [by apply Forall_drop|rewrite length_drop; lia|lia|].
  set (r := png_bit_reader_init _ _) in *.
  apply wp_bind. eapply wp_post with (Q := fun s => inf_inv (len output) r s).
  { apply (wp_iterate _ _ _ (inf_inv (len output) r) (fun s => length (stream (in_reader s)))).
    - intros s Hs. eapply wp_post; [by apply (wp_block_step _ s r)|]. by intros [s'|s'] [Hs' ?].
    - split_and!; cbn [in_reader in_output in_index]; try done; lia.
    - cbn [in_reader]. rewrite bits_left_stream by done. lia. }
  intros s (Hr & Hsrc & Hb & Hl & Hi).
  destruct (Z.eqb_spec (in_index s) (len output)) as [E|]; cbn [negb]; [|done].
  rewrite u64_small by lia.
  destruct (read_be_u32_ok compressed (size - 4)) as [-> _]; [done|lia|lia|]. rewrite bind_ok.
  rewrite <- Hl, adler32_ok by done. rewrite bind_ok.
  destruct (Z.eqb_spec (be_value (slice compressed (Z.to_nat (size - 4)) 4)) (adler32 (in_output s))) as [Ea|];
    cbn [negb]; [|done].
  apply wp_ok. split_and!; [done|lia|done].
Qed.
