(* ===== verification/PngDeflate.v ===== *)
(** What DEFLATE (RFC 1951) and zlib (RFC 1950) mean, as an encoder: literal and
    match tokens, stored, fixed and dynamic blocks, and the bytes of a zlib
    stream.  The decoder is proved to invert it. *)
From stdpp Require Import base list numbers.
From Stdlib Require Import ZArith Lia.
From S2P Require Import Prelude PngBits PngHuffman PngHuffmanProofs PngCanonical PngNodes PngBuild PngInflate PngInflateProofs.

Local Open Scope Z_scope.

(** ** The tables of RFC 1951, section 3.2.5 and 3.2.7

    They are written out here, not taken from the decoder. *)
Definition rfc_length_codes : list (Z * Z) :=
  [(3, 0); (4, 0); (5, 0); (6, 0); (7, 0); (8, 0); (9, 0); (10, 0);
   (11, 1); (13, 1); (15, 1); (17, 1); (19, 2); (23, 2); (27, 2); (31, 2);
   (35, 3); (43, 3); (51, 3); (59, 3); (67, 4); (83, 4); (99, 4); (115, 4);
   (131, 5); (163, 5); (195, 5); (227, 5); (258, 0)].
Definition rfc_distance_codes : list (Z * Z) :=
  [(1, 0); (2, 0); (3, 0); (4, 0); (5, 1); (7, 1); (9, 2); (13, 2); (17, 3); (25, 3);
   (33, 4); (49, 4); (65, 5); (97, 5); (129, 6); (193, 6); (257, 7); (385, 7); (513, 8); (769, 8);
   (1025, 9); (1537, 9); (2049, 10); (3073, 10); (4097, 11); (6145, 11); (8193, 12); (12289, 12);
   (16385, 13); (24577, 13)].
Definition rfc_length_base : list Z := map fst rfc_length_codes.
Definition rfc_length_extra : list Z := map snd rfc_length_codes.
Definition rfc_distance_base : list Z := map fst rfc_distance_codes.
Definition rfc_distance_extra : list Z := map snd rfc_distance_codes.
Definition rfc_code_length_order : list Z := [16; 17; 18; 0; 8; 7; 9; 6; 10; 5; 11; 4; 12; 3; 13; 2; 14; 1; 15].

(** ** Tokens *)
Inductive token : Type :=
| Literal (b : Z)
| Match (n d : Z).

Definition expand_token (acc : list Z) (t : token) : list Z :=
  match t with
  | Literal b => acc ++ [b]
  | Match n d => copy_back (Z.to_nat n) (Z.to_nat d) acc
  end.

(** The last entry of an increasing table that is not above [v]. *)
Fixpoint code_index (bases : list Z) (v : Z) : nat :=
  match bases with
  | _ :: (b :: _) as r => if b <=? v then S (code_index r v) else O
  | _ => O
  end.

Definition base_of (bases : list Z) (v : Z) : Z := nth (code_index bases v) bases 0.
Definition extra_of (bases extras : list Z) (v : Z) : Z := nth (code_index bases v) extras 0.

Definition extra_bits_of (bases extras : list Z) (v : Z) : list bool :=
  low_bits (v - base_of bases v) (Z.to_nat (extra_of bases extras v)).

Definition length_symbol (n : Z) : nat := (257 + code_index rfc_length_base n)%nat.
Definition distance_symbol (d : Z) : nat := code_index rfc_distance_base d.

(** The bits of a token under the two length tables of its block. *)
Definition encode_token (LL DL : list Z) (t : token) : list bool :=
  match t with
  | Literal b => canonical_path LL (Z.to_nat b)
  | Match n d =>
      canonical_path LL (length_symbol n) ++ extra_bits_of rfc_length_base rfc_length_extra n ++
      canonical_path DL (distance_symbol d) ++ extra_bits_of rfc_distance_base rfc_distance_extra d
  end.

Definition coded (L : list Z) (k : nat) : bool := 0 <? length_of L k.

(** A token the tables can express, after output [acc]. *)
Definition token_ok (LL DL : list Z) (acc : list Z) (t : token) : bool :=
  match t with
  | Literal b => (0 <=? b) && (b <? 256) && coded LL (Z.to_nat b)
  | Match n d =>
      (3 <=? n) && (n <=? 258) && (1 <=? d) && (d <=? 32768) && (d <=? len acc) &&
      coded LL (length_symbol n) && coded DL (distance_symbol d)
  end.

Fixpoint tokens_ok (LL DL : list Z) (acc : list Z) (ts : list token) : bool :=
  match ts with
  | [] => true
  | t :: r => token_ok LL DL acc t && tokens_ok LL DL (expand_token acc t) r
  end.

Definition expand_tokens (acc : list Z) (ts : list token) : list Z := foldl expand_token acc ts.

(** The tokens of a block and its end mark. *)
Definition encode_tokens (LL DL : list Z) (ts : list token) : list bool :=
  concat (map (encode_token LL DL) ts) ++ canonical_path LL 256.

(** ** Dynamic headers *)
Inductive len_op : Type :=
| Len (n : Z)
| Repeat (n : Z)
| Zeros (n : Z).

Definition expand_op (acc : list Z) (o : len_op) : list Z :=
  match o with
  | Len n => acc ++ [n]
  | Repeat n => acc ++ replicate (Z.to_nat n) (List.last acc 0)
  | Zeros n => acc ++ replicate (Z.to_nat n) 0
  end.

Definition encode_op (CL : list Z) (o : len_op) : list bool :=
  match o with
  | Len n => canonical_path CL (Z.to_nat n)
  | Repeat n => canonical_path CL 16 ++ low_bits (n - 3) 2
  | Zeros n =>
      if n <=? 10 then canonical_path CL 17 ++ low_bits (n - 3) 3
      else canonical_path CL 18 ++ low_bits (n - 11) 7
  end.

Definition op_ok (CL : list Z) (acc : list Z) (o : len_op) : bool :=
  match o with
  | Len n => (0 <=? n) && (n <=? 15) && coded CL (Z.to_nat n)
  | Repeat n => (3 <=? n) && (n <=? 6) && coded CL 16 && (0 <? len acc)
  | Zeros n => (3 <=? n) && (n <=? 138) && coded CL (if n <=? 10 then 17 else 18)
  end.

Fixpoint ops_ok (CL : list Z) (acc : list Z) (os : list len_op) : bool :=
  match os with
  | [] => true
  | o :: r => op_ok CL acc o && ops_ok CL (expand_op acc o) r
  end.

(** How many literal, distance and code lengths follow, the lengths of the
    code-length code and the operations that give the rest. *)
Record dyn_header : Type := mkHeader {
  dh_hlit : Z;
  dh_hdist : Z;
  dh_hclen : Z;
  dh_cl : list Z;
  dh_ops : list len_op
}.

Definition expand_ops (acc : list Z) (os : list len_op) : list Z := foldl expand_op acc os.

(** The tables the header describes, unused symbols with length 0. *)
Definition literal_table (hlit : Z) (all : list Z) : list Z :=
  splice (replicate 288 0) 0 (take (Z.to_nat hlit) all).
Definition distance_table (hlit : Z) (all : list Z) : list Z :=
  splice (replicate 32 0) 0 (drop (Z.to_nat hlit) all).

Definition header_literals (h : dyn_header) : list Z := literal_table (dh_hlit h) (expand_ops [] (dh_ops h)).
Definition header_distances (h : dyn_header) : list Z := distance_table (dh_hlit h) (expand_ops [] (dh_ops h)).

Definition has_codesb (L : list Z) : bool := existsb (fun x => negb (x =? 0)) L.

(** A header RFC 1951 allows.  Only the first [dh_hclen] code lengths, in the
    order of the format, are transmitted: the others are 0.  A block of literals
    only may have no distance code at all. *)
Definition header_ok (h : dyn_header) : bool :=
  (257 <=? dh_hlit h) && (dh_hlit h <=? 288) && (1 <=? dh_hdist h) && (dh_hdist h <=? 32) &&
  (len (dh_cl h) =? 19) && forallb (fun x => (0 <=? x) && (x <=? 7)) (dh_cl h) &&
  lengths_okb (dh_cl h) && has_codesb (dh_cl h) &&
  ops_ok (dh_cl h) [] (dh_ops h) && (len (expand_ops [] (dh_ops h)) =? dh_hlit h + dh_hdist h) &&
  lengths_okb (header_literals h) && has_codesb (header_literals h) &&
  lengths_okb (header_distances h) &&
  (4 <=? dh_hclen h) && (dh_hclen h <=? 19) &&
  forallb (fun k => nth (Z.to_nat k) (dh_cl h) 0 =? 0) (drop (Z.to_nat (dh_hclen h)) rfc_code_length_order).

Definition encode_header (h : dyn_header) : list bool :=
  low_bits (dh_hlit h - 257) 5 ++ low_bits (dh_hdist h - 1) 5 ++ low_bits (dh_hclen h - 4) 4 ++
  concat (map (fun k => low_bits (nth (Z.to_nat k) (dh_cl h) 0) 3) (take (Z.to_nat (dh_hclen h)) rfc_code_length_order)) ++
  concat (map (encode_op (dh_cl h)) (dh_ops h)).

(** ** Blocks *)
Inductive block : Type :=
| Stored (data : list Z)
| Fixed (ts : list token)
| Dynamic (h : dyn_header) (ts : list token).

Definition expand_block (acc : list Z) (b : block) : list Z :=
  match b with
  | Stored data => acc ++ data
  | Fixed ts | Dynamic _ ts => expand_tokens acc ts
  end.

Definition block_ok (acc : list Z) (b : block) : bool :=
  match b with
  | Stored data => forallb byteb data && (len data <? 2 ^ 16)
  | Fixed ts => tokens_ok fixed_literal_lengths fixed_distance_lengths acc ts
  | Dynamic h ts =>
      header_ok h && coded (header_literals h) 256 &&
      tokens_ok (header_literals h) (header_distances h) acc ts
  end.

Fixpoint blocks_ok (acc : list Z) (bs : list block) : bool :=
  match bs with
  | [] => true
  | b :: r => block_ok acc b && blocks_ok (expand_block acc b) r
  end.

(** Does the block have a distance code?  Stored and fixed blocks need none of
    their own. *)
Definition has_distances (b : block) : bool :=
  match b with Dynamic h _ => has_codesb (header_distances h) | _ => true end.

Definition expand_blocks (acc : list Z) (bs : list block) : list Z := foldl expand_block acc bs.

Definition le16 (v : Z) : list Z := [v mod 256; v / 256].

(** Bits up to the next byte boundary after [pos] bits. *)
Definition padding (pos : nat) : list bool := replicate ((8 - pos mod 8) mod 8) false.

Definition block_kind (b : block) : Z :=
  match b with Stored _ => 0 | Fixed _ => 1 | Dynamic _ _ => 2 end.

(** The bits after the three header bits, the first of which is at [pos]. *)
Definition encode_body (pos : nat) (b : block) : list bool :=
  match b with
  | Stored data =>
      padding (pos + 3) ++ bytes_bits (le16 (len data) ++ le16 (65535 - len data) ++ data)
  | Fixed ts => encode_tokens fixed_literal_lengths fixed_distance_lengths ts
  | Dynamic h ts => encode_header h ++ encode_tokens (header_literals h) (header_distances h) ts
  end.

Definition encode_block (pos : nat) (final : bool) (b : block) : list bool :=
  [final] ++ low_bits (block_kind b) 2 ++ encode_body pos b.

(** Blocks from bit position [pos] on; the last one is marked and padded. *)
Fixpoint encode_blocks (pos : nat) (bs : list block) : list bool :=
  match bs with
  | [] => []
  | [b] => let e := encode_block pos true b in e ++ padding (pos + length e)
  | b :: r => let e := encode_block pos false b in e ++ encode_blocks (pos + length e) r
  end.

(** ** Streams *)
Fixpoint pack (n : nat) (bs : list bool) : list Z :=
  match n with
  | O => []
  | S n' => bits_value (take 8 bs) :: pack n' (drop 8 bs)
  end.

Definition be32 (v : Z) : list Z :=
  [v / 256 / 256 / 256; (v / 256 / 256) mod 256; (v / 256) mod 256; v mod 256].

Definition deflate (bs : list block) : list Z :=
  let bits := encode_blocks 0 bs in pack (length bits / 8) bits.

(** The two bytes RFC 1950 puts first: method 8 with a window of at most 32K,
    a check value, no preset dictionary, any compression level. *)
Definition zlib_header_ok (cmf flg : Z) : bool :=
  byteb cmf && byteb flg && (cmf mod 16 =? 8) && (cmf / 16 <=? 7) &&
  ((cmf * 256 + flg) mod 31 =? 0) && negb (Z.testbit flg 5).

Definition zlib_encode (cmf flg : Z) (bs : list block) : list Z :=
  [cmf; flg] ++ deflate bs ++ be32 (adler32 (expand_blocks [] bs)).
