(* ===== verification/PngDeflateProofs.v ===== *)
(** The decoder inverts the DEFLATE encoder: every block, fixed, dynamic or
    stored, is decoded to the bytes it expands to, wherever it starts in a byte. *)
From stdpp Require Import base list numbers.
From Stdlib Require Import ZArith Lia.
From S2P Require Import Prelude PngBits PngHuffman PngHuffmanProofs PngCanonical PngNodes PngBuild.
From S2P Require Import PngInflate PngInflateProofs PngDeflate.

Local Open Scope Z_scope.

(** [r'] is [r] with [rest] left to read. *)
Definition leaves (r r' : PngBitReader) (rest : list bool) : Prop :=
  reader_wf r' /\ same_source r r' /\ stream r' = rest.

Lemma leaves_trans r1 r2 r3 rest rest' : leaves r1 r2 rest -> leaves r2 r3 rest' -> leaves r1 r3 rest'.
Proof. intros (_ & S1 & _) (W & S2 & E). split_and!; [done|by eapply same_source_trans|done]. Qed.

Lemma read_bits_ok r v (n : Z) rest :
  reader_wf r -> 0 <= n <= 24 -> 0 <= v < 2 ^ n -> stream r = low_bits v (Z.to_nat n) ++ rest ->
  exists r', png_bit_reader_read_bits r n = Ok (r', v) /\ leaves r r' rest.
Proof.
  intros Hr Hn Hv Hs. pose proof (wp_read_bits r n Hr Hn) as Hwp.
  assert (Z.to_nat n <= length (stream r))%nat as Hle by (rewrite Hs, length_app, length_low_bits; lia).
  destruct (png_bit_reader_read_bits r n) as [[r' v']|c| |]; cbn in Hwp; [|destruct Hwp; lia|done|done].
  destruct Hwp as (Hwf & Hsrc & Hst & _ & ->). exists r'. split.
  - do 2 f_equal. rewrite Hs, take_app_length' by by rewrite length_low_bits.
    rewrite bits_value_low, Z2Nat.id by lia. by apply Z.mod_small.
  - split_and!; [done|done|]. rewrite Hst, Hs. by rewrite drop_app_length' by by rewrite length_low_bits.
Qed.

(** ** Length and distance tables *)

(** The decoder's tables are those of the format. *)
Lemma decoder_tables :
  kDeflateLengthBase = rfc_length_base /\ kDeflateLengthExtra = rfc_length_extra /\
  kDeflateDistanceBase = rfc_distance_base /\ kDeflateDistanceExtra = rfc_distance_extra /\
  kCodeLengthOrder = rfc_code_length_order.
Proof. split_and!; reflexivity. Qed.

Ltac format_tables :=
  let E1 := fresh in let E2 := fresh in let E3 := fresh in let E4 := fresh in let E5 := fresh in
  destruct decoder_tables as (E1 & E2 & E3 & E4 & E5);
  rewrite ?E1, ?E2, ?E3, ?E4, ?E5 in *; clear E1 E2 E3 E4 E5.

Definition code_good (bases extras : list Z) (v : Z) : Prop :=
  (code_index bases v < length bases)%nat /\ length extras = length bases /\
  0 <= v - base_of bases v < 2 ^ extra_of bases extras v.

(** Consecutive entries leave no gap, up to [last]. *)
Fixpoint gapless (bases extras : list Z) (last : Z) : bool :=
  match bases, extras with
  | [b], [e] => last <? b + 2 ^ e
  | b :: (b' :: _) as r, e :: es => (b' <=? b + 2 ^ e) && (b <=? b') && gapless r es last
  | _, _ => false
  end.

Lemma gapless_length bases extras last :
  gapless bases extras last = true -> length extras = length bases.
Proof.
  revert extras. induction bases as [|b bases IH]; intros extras Hg; [done|].
  destruct extras as [|e extras]; [by destruct bases|]. destruct bases as [|b' bases].
  - by destruct extras.
  - cbn [gapless] in Hg. zbool. cbn [length]. f_equal. by apply IH.
Qed.

Lemma gapless_code_good bases extras last v :
  gapless bases extras last = true -> nth 0 bases 0 <= v <= last -> code_good bases extras v.
Proof.
  revert extras. induction bases as [|b bases IH]; intros extras Hg Hv; [done|].
  pose proof (gapless_length _ _ _ Hg) as Hl.
  destruct extras as [|e extras]; [by destruct bases|]. destruct bases as [|b' bases].
  - destruct extras; [|done]. cbn [gapless nth] in *. zbool. split_and!; cbn; lia.
  - cbn [gapless] in Hg. zbool. cbn [nth] in Hv. unfold code_good, base_of, extra_of in *.
    change (code_index (b :: b' :: bases) v) with (if b' <=? v then S (code_index (b' :: bases) v) else O).
    destruct (Z.leb_spec b' v) as [Hle|Hgt].
    + destruct (IH extras) as (Hk & _ & Hbd); [done|cbn [nth]; lia|].
      remember (code_index (b' :: bases) v) as k eqn:Ek.
      change (nth (S k) (b :: b' :: bases) 0) with (nth k (b' :: bases) 0).
      change (nth (S k) (e :: extras) 0) with (nth k extras 0).
      change (length (b :: b' :: bases)) with (S (length (b' :: bases))) in *. split_and!; done || lia.
    + cbn [nth length] in *. split_and!; lia.
Qed.

Lemma length_code_good n : 3 <= n <= 258 -> code_good rfc_length_base rfc_length_extra n.
Proof. intros Hn. by apply (gapless_code_good _ _ 258). Qed.

Lemma distance_code_good d : 1 <= d <= 32768 -> code_good rfc_distance_base rfc_distance_extra d.
Proof. intros Hd. by apply (gapless_code_good _ _ 32768). Qed.

Lemma aget_nth (l : list Z) (i : nat) : (i < length l)%nat -> aget l (Z.of_nat i) = Ok (nth i l 0).
Proof.
  intros Hi. destruct (lookup_lt_is_Some_2 l i Hi) as [x Hx]. apply aget_ok; [lia|].
  by rewrite Nat2Z.id, nth_lookup, Hx.
Qed.

Lemma read_extra_ok bases extras v r rest :
  reader_wf r -> code_good bases extras v -> 0 <= v < 2 ^ 32 -> 0 <= extra_of bases extras v <= 13 ->
  stream r = extra_bits_of bases extras v ++ rest ->
  exists r', read_extra r (base_of bases v) (extra_of bases extras v) = Ok (r', v) /\ leaves r r' rest.
Proof.
  intros Hr (_ & _ & Hg) Hv He Hs. unfold read_extra, extra_bits_of in *.
  destruct (Z.eqb_spec (extra_of bases extras v) 0) as [E|]; cbn [negb].
  - rewrite E in *. change (2 ^ 0) with 1 in Hg. exists r. split; [do 2 f_equal; lia|].
    split_and!; [done|done|]. by rewrite Hs.
  - destruct (read_bits_ok r (v - base_of bases v) (extra_of bases extras v) rest) as (r' & -> & Hl); [done|lia|done|done|].
    rewrite bind_ok. exists r'. rewrite u64_small by lia. split; [do 2 f_equal; lia|done].
Qed.

(** ** Tokens *)

(** The trees of a block whose tables are [LL] and [DL]. *)
Record trees_for (LL DL : list Z) (lt dt : PngHuffmanTree) : Prop := {
  tf_ll : lengths_ok LL;
  tf_dl : lengths_ok DL;
  tf_lln : length LL = 288%nat;
  tf_dln : length DL = 32%nat;
  tf_lwf : tree_wf lt;
  tf_dwf : tree_wf dt;
  tf_lt : holds_codes LL 288 lt;
  tf_dt : holds_codes DL 32 dt }.

(** The decoder has written [acc] and has [rest] left to read. *)
Record wrote (size : Z) (s : InflateState) (acc : list Z) (rest : list bool) : Prop := {
  wr_reader : reader_wf (in_reader s);
  wr_stream : stream (in_reader s) = rest;
  wr_bytes : bytes (in_output s);
  wr_len : len (in_output s) = size;
  wr_index : in_index s = len acc;
  wr_le : len acc <= size;
  wr_acc : take (length acc) (in_output s) = acc }.

Section Tokens.
Context (LL DL : list Z) (lt dt : PngHuffmanTree).
Hypothesis TF : trees_for LL DL lt dt.

Lemma decode_literal k r rest :
  reader_wf r -> (k < 288)%nat -> coded LL k = true -> stream r = canonical_path LL k ++ rest ->
  exists r', png_huffman_decode_symbol r lt = Ok (r', Z.of_nat k) /\ leaves r r' rest.
Proof.
  intros Hr Hk Hc Hs. unfold coded in Hc. zbool. destruct TF as [HL _ HLn _ Hwf _ Hh _].
  destruct (decode_canonical LL lt k r rest) as (r' & E & W & S & R); try done; [by rewrite HLn|lia|].
  exists r'. done.
Qed.

Lemma decode_distance k r rest :
  reader_wf r -> (k < 32)%nat -> coded DL k = true -> stream r = canonical_path DL k ++ rest ->
  exists r', png_huffman_decode_symbol r dt = Ok (r', Z.of_nat k) /\ leaves r r' rest.
Proof.
  intros Hr Hk Hc Hs. unfold coded in Hc. zbool. destruct TF as [_ HD _ HDn _ Hwf _ Hh].
  destruct (decode_canonical DL dt k r rest) as (r' & E & W & S & R); try done; [by rewrite HDn|lia|].
  exists r'. done.
Qed.

Lemma literal_step size s acc b rest :
  size < 2 ^ 62 -> token_ok LL DL acc (Literal b) = true -> len acc + 1 <= size ->
  wrote size s acc (encode_token LL DL (Literal b) ++ rest) ->
  exists s', symbol_step lt dt size s = Ok (inl s') /\ wrote size s' (acc ++ [b]) rest.
Proof.
  intros Hmax Hok Hle [Hr Hs Hb Hl Hi Hacc Ht]. cbn [token_ok encode_token] in *. zbool. unfold symbol_step.
  destruct (decode_literal (Z.to_nat b) (in_reader s) rest) as (r' & -> & Hr' & _ & Hs'); [done|lia|done|done|].
  rewrite bind_ok, Z2Nat.id by lia.
  destruct (Z.leb_spec 0 b); [|lia]. destruct (Z.ltb_spec b 256); [|lia]. cbn [andb].
  destruct (Z.leb_spec size (in_index s)); [lia|]. rewrite aset_ok by lia. rewrite bind_ok.
  rewrite (u8_small b), u64_small by lia. eexists. split; [reflexivity|].
  split; cbn [in_reader in_output in_index]; try done.
  - apply Forall_insert; [done|]. unfold is_byte. lia.
  - by rewrite length_insert.
  - rewrite length_app. cbn. lia.
  - rewrite length_app. cbn. lia.
  - rewrite length_app. cbn [length]. rewrite Nat.add_1_r, Hi, Nat2Z.id, write_next by lia. by rewrite Ht.
Qed.

Lemma table_extra_small bases extras v :
  (code_index bases v < length extras)%nat -> Forall (fun b => 0 <= b <= 13) extras ->
  0 <= extra_of bases extras v <= 13.
Proof.
  intros Hk Hf. unfold extra_of. destruct (lookup_lt_is_Some_2 _ _ Hk) as [x Hx].
  rewrite nth_lookup, Hx. rewrite Forall_lookup in Hf. by apply (Hf (code_index bases v)).
Qed.

Lemma match_step size s acc n d rest :
  size < 2 ^ 62 -> token_ok LL DL acc (Match n d) = true -> len acc + n <= size ->
  wrote size s acc (encode_token LL DL (Match n d) ++ rest) ->
  exists s', symbol_step lt dt size s = Ok (inl s') /\
    wrote size s' (copy_back (Z.to_nat n) (Z.to_nat d) acc) rest.
Proof.
  intros Hmax Hok Hle [Hr Hs Hb Hl Hi Hacc Ht]. cbn [token_ok encode_token] in *. zbool. unfold symbol_step.
  destruct length_tables as (L1 & L2 & L3 & L4 & F1 & F2 & F3 & F4). format_tables.
  pose proof (length_code_good n ltac:(lia)) as Gn. pose proof (distance_code_good d ltac:(lia)) as Gd.
  pose proof Gn as (Kn & _). pose proof Gd as (Kd & _). rewrite <- !app_assoc in Hs.
  destruct (decode_literal (length_symbol n) (in_reader s)
    (extra_bits_of rfc_length_base rfc_length_extra n ++ canonical_path DL (distance_symbol d) ++
     extra_bits_of rfc_distance_base rfc_distance_extra d ++ rest)) as (r1 & -> & R1);
    [done|unfold length_symbol; lia|done|done|].
  rewrite bind_ok. unfold length_symbol. rewrite Nat2Z.inj_add. change (Z.of_nat 257) with 257.
  remember (code_index rfc_length_base n) as k eqn:Ek.
  assert (nth k rfc_length_base 0 = base_of rfc_length_base n) as Eb by (unfold base_of; by rewrite <- Ek).
  assert (nth k rfc_length_extra 0 = extra_of rfc_length_base rfc_length_extra n) as Ee
    by (unfold extra_of; by rewrite <- Ek).
  destruct (Z.leb_spec 0 (257 + Z.of_nat k)); [|lia]. destruct (Z.ltb_spec (257 + Z.of_nat k) 256); [lia|].
  destruct (Z.eqb_spec (257 + Z.of_nat k) 256); [lia|]. destruct (Z.ltb_spec (257 + Z.of_nat k) 257); [lia|].
  destruct (Z.ltb_spec 285 (257 + Z.of_nat k)); [lia|]. cbn [andb orb].
  rewrite (u32_small (257 + _)) by lia. rewrite u32_small by lia.
  replace (257 + Z.of_nat k - 257) with (Z.of_nat k) by lia. rewrite !aget_nth by lia. rewrite !bind_ok.
  rewrite Eb, Ee.
  destruct R1 as (W1 & S1 & E1).
  assert (0 <= extra_of rfc_length_base rfc_length_extra n <= 13) as X1.
  { apply table_extra_small; [rewrite <- Ek; lia|]. eapply List.Forall_impl; [|exact F2]. cbn. lia. }
  destruct (read_extra_ok rfc_length_base rfc_length_extra n r1 _ W1 Gn ltac:(lia) X1 E1) as (r2 & -> & W2 & S2 & E2).
  rewrite bind_ok.
  destruct (decode_distance (distance_symbol d) r2 _ W2 ltac:(unfold distance_symbol; lia) ltac:(done) E2)
    as (r3 & -> & W3 & S3 & E3).
  rewrite bind_ok. unfold distance_symbol in *. remember (code_index rfc_distance_base d) as kd eqn:Ekd.
  assert (nth kd rfc_distance_base 0 = base_of rfc_distance_base d) as Edb by (unfold base_of; by rewrite <- Ekd).
  assert (nth kd rfc_distance_extra 0 = extra_of rfc_distance_base rfc_distance_extra d) as Ede
    by (unfold extra_of; by rewrite <- Ekd).
  destruct (Z.ltb_spec (Z.of_nat kd) 0); [lia|]. destruct (Z.ltb_spec 29 (Z.of_nat kd)); [lia|]. cbn [orb].
  rewrite u32_small by lia. rewrite !aget_nth by lia. rewrite !bind_ok.
  rewrite Edb, Ede.
  destruct (read_extra_ok rfc_distance_base rfc_distance_extra d r3 rest W3 Gd ltac:(lia)) as (r4 & -> & W4 & S4 & E4).
  { apply table_extra_small; [rewrite <- Ekd; lia|done]. }
  { done. }
  rewrite bind_ok. destruct (Z.eqb_spec d 0); [lia|]. destruct (Z.ltb_spec (in_index s) d); [lia|]. cbn [orb].
  cbv zeta. rewrite (u64_small (in_index s + n)) by lia. destruct (Z.ltb_spec size (in_index s + n)); [lia|].
  rewrite u64_small by lia.
  destruct (copy_match_ok (in_output s) (in_index s) d n) as (out' & -> & Hb' & Hl' & Ht'); [done|lia|lia|lia|lia|].
  rewrite bind_ok. eexists. split; [reflexivity|].
  rewrite Hi, Nat2Z.id, Ht in Ht'.
  split; cbn [in_reader in_output in_index]; try done; rewrite ?length_copy_back; try lia.
  rewrite <- Ht'. f_equal. lia.
Qed.

Lemma length_expand_token acc t :
  token_ok LL DL acc t = true ->
  len (expand_token acc t) = len acc + match t with Literal _ => 1 | Match n _ => n end.
Proof.
  destruct t; cbn [token_ok expand_token]; intros H; zbool; [rewrite length_app; cbn; lia|].
  rewrite length_copy_back. lia.
Qed.

Lemma token_step size s acc t rest :
  size < 2 ^ 62 -> token_ok LL DL acc t = true -> len (expand_token acc t) <= size ->
  wrote size s acc (encode_token LL DL t ++ rest) ->
  exists s', symbol_step lt dt size s = Ok (inl s') /\ wrote size s' (expand_token acc t) rest.
Proof.
  intros Hmax Hok Hle Hw. rewrite length_expand_token in Hle by done. destruct t.
  - by apply literal_step.
  - by apply match_step.
Qed.

Lemma end_step size s acc rest :
  coded LL 256 = true -> wrote size s acc (canonical_path LL 256 ++ rest) ->
  exists s', symbol_step lt dt size s = Ok (inr s') /\ wrote size s' acc rest.
Proof.
  intros Hc [Hr Hs Hb Hl Hi Hacc Ht]. unfold symbol_step.
  destruct (decode_literal 256 (in_reader s) rest) as (r' & -> & W & _ & E); [done|lia|done|done|].
  rewrite bind_ok. change (Z.of_nat 256) with 256. cbn [Z.leb Z.ltb Z.eqb Z.compare Pos.compare Pos.compare_cont andb Pos.eqb].
  eexists. split; [reflexivity|]. by split.
Qed.

Lemma expand_tokens_mono acc ts :
  tokens_ok LL DL acc ts = true -> len acc <= len (expand_tokens acc ts).
Proof.
  revert acc. induction ts as [|t ts IH]; intros acc; cbn [tokens_ok]; [intros _; cbn; lia|].
  intros [Ht Hts]%andb_true_iff. specialize (IH _ Hts). unfold expand_tokens in *. cbn [foldl].
  rewrite length_expand_token in IH by done. destruct t; [lia|]. cbn in Ht. zbool. lia.
Qed.

Lemma tokens_decode size ts fuel s acc rest :
  size < 2 ^ 62 -> coded LL 256 = true -> tokens_ok LL DL acc ts = true ->
  len (expand_tokens acc ts) <= size ->
  wrote size s acc (encode_tokens LL DL ts ++ rest) -> (length ts < fuel)%nat ->
  exists s', iterate fuel (symbol_step lt dt size) s = Ok s' /\ wrote size s' (expand_tokens acc ts) rest.
Proof.
  intros Hmax Hc. revert fuel s acc. induction ts as [|t ts IH]; intros fuel s acc Hok Hle Hw Hf.
  - destruct fuel as [|fuel]; [lia|]. cbn [iterate]. unfold encode_tokens in Hw. cbn [map concat app] in Hw.
    destruct (end_step size s acc rest) as (s' & -> & Hw'); [done|done|]. rewrite bind_ok. by exists s'.
  - destruct fuel as [|fuel]; [cbn in Hf; lia|]. cbn [iterate]. cbn [tokens_ok] in Hok.
    apply andb_true_iff in Hok as [Ht Hts].
    unfold encode_tokens in Hw. cbn [map concat] in Hw. rewrite <- !app_assoc in Hw.
    unfold expand_tokens in *. cbn [foldl] in *.
    destruct (token_step size s acc t (concat (map (encode_token LL DL) ts) ++ canonical_path LL 256 ++ rest))
      as (s' & -> & Hw'); [done|done| |done|].
    { etransitivity; [by apply expand_tokens_mono|done]. }
    rewrite bind_ok. apply IH; [done|done| |cbn in Hf; lia].
    unfold encode_tokens. by rewrite <- app_assoc.
Qed.
End Tokens.

(** ** Dynamic headers *)
Section Header.
Context (hlit hdist : Z).
Hypothesis Hlit : 257 <= hlit <= 288.
Hypothesis Hdist : 1 <= hdist <= 32.

Lemma length_splice_zeros (n : nat) (l : list Z) :
  (length l <= n)%nat -> length (splice (replicate n 0) 0 l) = n.
Proof. intros Hl. rewrite length_splice, length_replicate; [done|]. by rewrite length_replicate. Qed.

Lemma splice_zeros_snoc (n : nat) (l : list Z) v :
  (length l < n)%nat ->
  <[length l := v]> (splice (replicate n 0) 0 l) = splice (replicate n 0) 0 (l ++ [v]).
Proof. intros Hl. symmetry. rewrite <- (splice_snoc _ 0 l v); [done|]. rewrite length_replicate. lia. Qed.

Lemma store_ok acc v :
  len acc < hlit + hdist ->
  png_store_dynamic_length (literal_table hlit acc) (distance_table hlit acc) hlit hdist (len acc) v =
  Ok (literal_table hlit (acc ++ [v]), distance_table hlit (acc ++ [v])).
Proof.
  intros Hlt. unfold png_store_dynamic_length, literal_table, distance_table.
  destruct (Z.ltb_spec (len acc) hlit).
  - rewrite !(take_ge _ (Z.to_nat hlit)) by (rewrite ?length_app; cbn; lia).
    rewrite !(drop_ge _ (Z.to_nat hlit)) by (rewrite ?length_app; cbn; lia).
    rewrite aset_ok, bind_ok by (rewrite length_splice_zeros; lia).
    by rewrite Nat2Z.id, splice_zeros_snoc by lia.
  - rewrite u32_small by lia. destruct (Z.ltb_spec (len acc - hlit) hdist); [|lia].
    rewrite take_app_le, (drop_app_le acc) by lia.
    assert (length (drop (Z.to_nat hlit) acc) = Z.to_nat (len acc - hlit)) as Hld by (rewrite length_drop; lia).
    rewrite aset_ok, bind_ok by (rewrite length_splice_zeros; lia).
    by rewrite <- Hld, splice_zeros_snoc by lia.
Qed.

(** The length loop has produced [acc] and has [rest] left to read. *)
Record lengths_read (s : DynState) (acc : list Z) (rest : list bool) : Prop := {
  lr_reader : reader_wf (dy_reader s);
  lr_stream : stream (dy_reader s) = rest;
  lr_literal : dy_literal s = literal_table hlit acc;
  lr_distance : dy_distance s = distance_table hlit acc;
  lr_index : dy_index s = len acc;
  lr_repeat : acc <> [] -> dy_repeat s = List.last acc 0 }.

Lemma last_replicate acc (n : nat) v : (0 < n)%nat -> List.last (acc ++ replicate n v) 0 = v.
Proof.
  intros Hn. destruct n as [|n]; [lia|]. by rewrite replicate_S_end, app_assoc, last_last.
Qed.

Lemma repeat_store_ok n s acc v rest :
  reader_wf (dy_reader s) -> stream (dy_reader s) = rest -> dy_literal s = literal_table hlit acc ->
  dy_distance s = distance_table hlit acc -> dy_index s = len acc -> len acc + Z.of_nat n <= hlit + hdist ->
  exists s', repeat_store n hlit hdist (hlit + hdist) v s = Ok s' /\
    reader_wf (dy_reader s') /\ stream (dy_reader s') = rest /\ dy_repeat s' = dy_repeat s /\
    dy_literal s' = literal_table hlit (acc ++ replicate n v) /\
    dy_distance s' = distance_table hlit (acc ++ replicate n v) /\ dy_index s' = len acc + Z.of_nat n.
Proof.
  revert s acc. induction n as [|n IH]; intros s acc Hr Hs Hl Hd Hi Hle; cbn [repeat_store].
  { exists s. rewrite app_nil_r. split_and!; try done. lia. }
  rewrite Hl, Hd, Hi, store_ok, bind_ok by lia. cbv zeta. rewrite u32_small by lia.
  destruct (Z.ltb_spec (hlit + hdist) (len acc + 1)); [lia|].
  destruct (IH (mkDyn (dy_reader s) (literal_table hlit (acc ++ [v])) (distance_table hlit (acc ++ [v]))
    (len acc + 1) (dy_repeat s)) (acc ++ [v])) as (s' & -> & Hr' & Hs' & Hp' & Hl' & Hd' & Hi');
    cbn; try done; rewrite ?length_app; cbn; try lia.
  exists s'. cbn [replicate]. rewrite <- app_assoc in Hl', Hd'. cbn [app] in Hl', Hd'.
  rewrite length_app in Hi'. cbn in Hi'. split_and!; try done. lia.
Qed.

Lemma repeat_code_ok bits base n v s acc rest :
  0 <= bits <= 7 -> 0 <= base <= 11 -> 0 <= n - base < 2 ^ bits ->
  lengths_read s acc (low_bits (n - base) (Z.to_nat bits) ++ rest) -> len acc + n <= hlit + hdist -> 0 < n ->
  exists s', repeat_code bits base v hlit hdist (hlit + hdist) s = Ok s' /\
    lengths_read s' (acc ++ replicate (Z.to_nat n) v) rest.
Proof.
  intros Hb Hba Hn [Hr Hs Hl Hd Hi Hrep] Hle Hpos. unfold repeat_code.
  destruct (read_bits_ok (dy_reader s) (n - base) bits rest) as (r' & -> & W & _ & E); [done|lia|done|done|].
  rewrite bind_ok. replace (base + (n - base)) with n by lia.
  assert (2 ^ bits <= 2 ^ 7) by (apply Z.pow_le_mono_r; lia). rewrite u32_small by lia.
  destruct (repeat_store_ok (Z.to_nat n) (mkDyn r' (dy_literal s) (dy_distance s) (dy_index s) v) acc v rest)
    as (s1 & -> & R & S & P & L & D & I); try done; [lia|].
  exists s1. split; [done|]. cbn [dy_repeat] in P. split; try done.
  - rewrite I, length_app, length_replicate. lia.
  - intros _. by rewrite P, last_replicate by lia.
Qed.

Section Ops.
Context (CL : list Z) (clt : PngHuffmanTree).
Hypothesis HCL : lengths_ok CL.
Hypothesis HCLn : length CL = 19%nat.
Hypothesis Hwf : tree_wf clt.
Hypothesis Hcodes : holds_codes CL 19 clt.

Lemma decode_op k s acc rest :
  (k < 19)%nat -> coded CL k = true -> lengths_read s acc (canonical_path CL k ++ rest) ->
  exists r', png_huffman_decode_symbol (dy_reader s) clt = Ok (r', Z.of_nat k) /\
    lengths_read (mkDyn r' (dy_literal s) (dy_distance s) (dy_index s) (dy_repeat s)) acc rest.
Proof.
  intros Hk Hc [Hr Hs Hl Hd Hi Hrep]. unfold coded in Hc. zbool.
  destruct (decode_canonical CL clt k (dy_reader s) rest) as (r' & -> & W & _ & E); try done; [by rewrite HCLn|lia|].
  exists r'. split; [done|]. by split.
Qed.

Lemma op_step o s acc rest :
  op_ok CL acc o = true -> len (expand_op acc o) <= hlit + hdist ->
  lengths_read s acc (encode_op CL o ++ rest) ->
  exists s', length_step clt hlit hdist (hlit + hdist) s = Ok (inl s') /\
    lengths_read s' (expand_op acc o) rest.
Proof.
  intros Hok Hle Hr. unfold length_step. pose proof (lr_index _ _ _ Hr) as Hi.
  assert (dy_index s < hlit + hdist) as Hlt.
  { rewrite Hi. destruct o; cbn [op_ok expand_op] in *; zbool; rewrite length_app, ?length_replicate in Hle;
      cbn [length] in Hle; lia. }
  destruct (Z.ltb_spec (dy_index s) (hlit + hdist)); [|lia]. cbn [negb].
  destruct o as [n|n|n]; cbn [op_ok expand_op encode_op] in *; zbool.
  - destruct (decode_op (Z.to_nat n) s acc rest) as (r' & -> & [Hr1 Hs1 Hl1 Hd1 Hi1 _]); [lia|done|done|].
    cbn [dy_reader dy_literal dy_distance dy_index dy_repeat] in *.
    rewrite bind_ok, Z2Nat.id by lia. destruct (Z.leb_spec 0 n); [|lia]. destruct (Z.leb_spec n 15); [|lia].
    cbn [andb]. cbv zeta. rewrite (u8_small n) by lia. rewrite Hl1, Hd1, Hi1, store_ok, bind_ok by lia.
    rewrite u32_small by lia. eexists. split; [reflexivity|].
    split; cbn; try done; [rewrite length_app; cbn; lia|]. intros _. by rewrite last_last.
  - rewrite <- app_assoc in Hr. rewrite length_app, length_replicate in Hle.
    destruct (decode_op 16 s acc (low_bits (n - 3) 2 ++ rest)) as (r' & -> & Hr1); [lia|done|done|].
    pose proof (lr_repeat _ _ _ Hr) as Hrep. rewrite Hrep by (by intros ->).
    rewrite Hrep in Hr1 by (by intros ->).
    rewrite bind_ok. cbn [Z.of_nat Z.leb Z.ltb Z.eqb Z.compare andb]. cbv zeta.
    cbn [dy_reader dy_literal dy_distance dy_index dy_repeat].
    change (Z.of_nat 16) with 16. cbn [Z.leb Z.eqb Z.compare Pos.compare Pos.compare_cont Pos.eqb andb].
    destruct (Z.eqb_spec (dy_index s) 0); [lia|].
    edestruct (repeat_code_ok 2 3 n (List.last acc 0)) as (s' & -> & Hs'); [lia|lia|lia|exact Hr1|lia|lia|].
    rewrite bind_ok. by exists s'.
  - rewrite length_app, length_replicate in Hle. destruct (Z.leb_spec n 10).
    + rewrite <- app_assoc in Hr.
      destruct (decode_op 17 s acc (low_bits (n - 3) 3 ++ rest)) as (r' & -> & Hr1); [lia|done|done|].
      rewrite bind_ok. cbv zeta. change (Z.of_nat 17) with 17.
      cbn [Z.leb Z.eqb Z.compare Pos.compare Pos.compare_cont Pos.eqb andb].
      edestruct (repeat_code_ok 3 3 n 0) as (s' & -> & Hs'); [lia|lia|lia|exact Hr1|lia|lia|].
      rewrite bind_ok. by exists s'.
    + rewrite <- app_assoc in Hr.
      destruct (decode_op 18 s acc (low_bits (n - 11) 7 ++ rest)) as (r' & -> & Hr1); [lia|done|done|].
      rewrite bind_ok. cbv zeta. change (Z.of_nat 18) with 18.
      cbn [Z.leb Z.eqb Z.compare Pos.compare Pos.compare_cont Pos.eqb andb].
      edestruct (repeat_code_ok 7 11 n 0) as (s' & -> & Hs'); [lia|lia|lia|exact Hr1|lia|lia|].
      rewrite bind_ok. by exists s'.
Qed.

Lemma expand_ops_mono acc os : len acc <= len (expand_ops acc os).
Proof.
  revert acc. induction os as [|o os IH]; intros acc; [cbn; lia|]. unfold expand_ops in *. cbn [foldl].
  etransitivity; [|apply IH]. destruct o; cbn; rewrite length_app; lia.
Qed.

Lemma ops_decode os fuel s acc rest :
  ops_ok CL acc os = true -> len (expand_ops acc os) = hlit + hdist ->
  lengths_read s acc (concat (map (encode_op CL) os) ++ rest) -> (length os < fuel)%nat ->
  exists s', iterate fuel (length_step clt hlit hdist (hlit + hdist)) s = Ok s' /\
    lengths_read s' (expand_ops acc os) rest.
Proof.
  revert fuel s acc. induction os as [|o os IH]; intros fuel s acc Hok Hle Hr Hf;
    (destruct fuel as [|fuel]; [cbn in Hf; lia|]); cbn [iterate].
  - cbn [map concat app expand_ops foldl] in *. unfold length_step at 1. rewrite (lr_index _ _ _ Hr).
    destruct (Z.ltb_spec (len acc) (hlit + hdist)); [lia|]. cbn [negb]. rewrite bind_ok. by exists s.
  - cbn [ops_ok] in Hok. apply andb_true_iff in Hok as [Ho Hos]. cbn [map concat] in Hr.
    rewrite <- app_assoc in Hr. unfold expand_ops in *. cbn [foldl] in *.
    destruct (op_step o s acc (concat (map (encode_op CL) os) ++ rest)) as (s' & -> & Hr'); [done| |done|].
    { pose proof (expand_ops_mono (expand_op acc o) os) as Hm. unfold expand_ops in Hm. lia. }
    rewrite bind_ok. apply IH; [done|done|done|cbn in Hf; lia].
Qed.
End Ops.
End Header.

(** The code-length lengths land where the format's order sends them. *)
Definition place (CL : list Z) (l : list Z) (k : Z) : list Z := <[Z.to_nat k := nth (Z.to_nat k) CL 0]> l.

Lemma place_all CL : length CL = 19%nat -> foldl (place CL) (replicate 19 0) rfc_code_length_order = CL.
Proof.
  intros Hl. do 19 (destruct CL as [|? CL]; [done|]). destruct CL; [|done]. reflexivity.
Qed.

(** A suffix of zero lengths need not be transmitted. *)
Lemma place_prefix CL n :
  length CL = 19%nat -> (4 <= n <= 19)%nat ->
  Forall (fun k => nth (Z.to_nat k) CL 0 = 0) (drop n rfc_code_length_order) ->
  foldl (place CL) (replicate 19 0) (take n rfc_code_length_order) = CL.
Proof.
  intros Hl Hn Hz. do 19 (destruct CL as [|? CL]; [done|]). destruct CL; [|done].
  do 4 (destruct n as [|n]; [lia|]).
  do 16 (destruct n as [|n];
    [cbn [drop rfc_code_length_order] in Hz; rewrite ?List.Forall_cons_iff in Hz; destruct_and?;
     repeat match goal with H : nth _ _ 0 = 0 |- _ => vm_compute in H end; subst; reflexivity|]). lia.
Qed.

Lemma length_place CL l ks : length (foldl (place CL) l ks) = length l.
Proof. revert l. induction ks as [|k ks IH]; intros l; [done|]. cbn. rewrite IH. apply length_insert. Qed.

Lemma order_range k : In k rfc_code_length_order -> 0 <= k < 19.
Proof. cbn. intros H. repeat destruct H as [<-|H]; lia. Qed.

Lemma read_code_lengths_ok CL hclen r rest :
  length CL = 19%nat -> Forall (fun x => 0 <= x <= 7) CL -> reader_wf r -> 4 <= hclen <= 19 ->
  Forall (fun k => nth (Z.to_nat k) CL 0 = 0) (drop (Z.to_nat hclen) rfc_code_length_order) ->
  stream r = concat (map (fun k => low_bits (nth (Z.to_nat k) CL 0) 3)
    (take (Z.to_nat hclen) rfc_code_length_order)) ++ rest ->
  exists r', read_code_lengths hclen r = Ok (r', CL) /\ leaves r r' rest.
Proof.
  intros Hl Hf Hr Hc Hz Hs. set (enc := fun k => low_bits (nth (Z.to_nat k) CL 0) 3) in *.
  set (sent := take (Z.to_nat hclen) rfc_code_length_order) in *.
  assert (length sent = Z.to_nat hclen) as Hsent by (unfold sent; rewrite length_take; cbn; lia).
  assert (exists p, read_code_lengths hclen r = Ok p /\ p.2 = CL /\ leaves r p.1 rest) as ([r' l] & -> & <- & Hl').
  2: { by exists r'. }
  apply wp_total. unfold read_code_lengths. format_tables. apply wp_for_range with (I := fun i '(r1, lens) =>
    lens = foldl (place CL) (replicate 19 0) (take (Z.to_nat i) sent) /\
    leaves r r1 (concat (map enc (drop (Z.to_nat i) sent)) ++ rest)).
  - split; [done|]. split_and!; done.
  - intros i [r1 lens] Hi [-> (W1 & S1 & E1)].
    destruct (aget_lt rfc_code_length_order i) as (k & Hk & Hlo); [cbn; lia|].
    assert (sent !! Z.to_nat i = Some k) as Hlk by (unfold sent; rewrite lookup_take_lt by lia; exact Hlo).
    assert (0 <= k < 19) as Hkr by (apply order_range, list_elem_of_In; by eapply list_elem_of_lookup_2).
    rewrite (drop_S _ _ _ Hlk) in E1. cbn [map concat] in E1. rewrite <- app_assoc in E1.
    assert (0 <= nth (Z.to_nat k) CL 0 <= 7) as Hv.
    { destruct (lookup_lt_is_Some_2 CL (Z.to_nat k)) as [x Hx]; [lia|].
      rewrite nth_lookup, Hx. rewrite Forall_lookup in Hf. by apply (Hf (Z.to_nat k)). }
    destruct (read_bits_ok r1 (nth (Z.to_nat k) CL 0) 3 _ W1 ltac:(lia) ltac:(lia) E1) as (r2 & -> & W2 & S2 & E2).
    rewrite bind_ok, Hk, bind_ok, aset_ok, bind_ok by (rewrite length_place, length_replicate; lia).
    apply wp_ok. replace (Z.to_nat (i + 1)) with (S (Z.to_nat i)) by lia. split.
    + rewrite (take_S_r _ _ _ Hlk), foldl_app. cbn [foldl]. unfold place at 2. by rewrite u8_small by lia.
    + split_and!; [done|by eapply same_source_trans|done].
  - intros [r1 lens] [-> H1]. rewrite take_ge by lia. rewrite drop_ge in H1 by lia.
    split; [apply place_prefix; [done|lia|done]|done].
Qed.

Lemma has_codesb_ok L : has_codesb L = true -> has_codes L.
Proof.
  unfold has_codesb, has_codes. rewrite existsb_exists, Exists_exists. intros (x & Hx & Hn).
  exists x. split; [done|]. zbool. done.
Qed.

Lemma length_encode_op CL acc o : op_ok CL acc o = true -> (0 < length (encode_op CL o))%nat.
Proof.
  assert (forall k, coded CL k = true -> (0 < length (canonical_path CL k))%nat) as Hk.
  { intros k Hk. unfold coded in Hk. zbool. unfold canonical_path. rewrite length_rev, length_low_bits. lia. }
  destruct o as [n|n|n]; cbn [op_ok encode_op]; intros H; zbool; rewrite ?length_app; [by apply Hk|
    specialize (Hk 16%nat ltac:(done)); lia|].
  destruct (n <=? 10); rewrite length_app; [specialize (Hk 17%nat ltac:(done))|specialize (Hk 18%nat ltac:(done))]; lia.
Qed.

Lemma length_encode_ops CL acc os :
  ops_ok CL acc os = true -> (length os <= length (concat (map (encode_op CL) os)))%nat.
Proof.
  revert acc. induction os as [|o os IH]; intros acc Hok; [done|]. cbn [ops_ok map concat length] in *.
  apply andb_true_iff in Hok as [Ho Hos]. specialize (IH _ Hos). rewrite length_app.
  pose proof (length_encode_op _ _ _ Ho). lia.
Qed.

Lemma has_codes_okb L : has_codes L -> has_codesb L = true.
Proof.
  unfold has_codesb, has_codes. rewrite existsb_exists, Exists_exists. intros (x & Hx & Hn).
  exists x. split; [done|]. by destruct (Z.eqb_spec x 0).
Qed.

(** Without a code there is no tree. *)
Lemma build_empty L :
  lengths_ok L -> has_codesb L = false -> 0 < len L <= 1000 -> png_huffman_build L (len L) = Fail StatusNotSupported.
Proof.
  intros Hok He HL. pose proof (wp_build L (lengths_nonneg L (proj1 Hok)) HL) as Hwp.
  destruct (png_huffman_build L (len L)) as [t|c| |]; cbn in Hwp; [| |done..].
  - destruct Hwp as (_ & _ & Hc & _). by rewrite (has_codes_okb _ Hc) in He.
  - by destruct Hwp as [[-> _]|[_ Hbad]].
Qed.

(** The trees of a dynamic block are built from its header, unless its
    distance table is empty, which the decoder refuses. *)
Lemma dynamic_ok h r rest :
  header_ok h = true -> reader_wf r -> stream r = encode_header h ++ rest ->
  if has_codesb (header_distances h) then
    exists r' lt dt, png_build_dynamic_trees r = Ok (r', lt, dt) /\
      reader_wf r' /\ stream r' = rest /\ trees_for (header_literals h) (header_distances h) lt dt
  else png_build_dynamic_trees r = Fail StatusNotSupported.
Proof.
  unfold header_ok. intros Hok Hr Hs. zbool. unfold encode_header in Hs. rewrite <- !app_assoc in Hs.
  unfold png_build_dynamic_trees.
  destruct (read_bits_ok r (dh_hlit h - 257) 5 _ Hr ltac:(lia) ltac:(lia) Hs) as (r1 & -> & W1 & _ & E1).
  rewrite bind_ok.
  destruct (read_bits_ok r1 (dh_hdist h - 1) 5 _ W1 ltac:(lia) ltac:(lia) E1) as (r2 & -> & W2 & _ & E2).
  rewrite bind_ok.
  destruct (read_bits_ok r2 (dh_hclen h - 4) 4 _ W2 ltac:(lia) ltac:(lia) E2) as (r3 & -> & W3 & _ & E3).
  rewrite bind_ok. cbv zeta. rewrite !Z.sub_add. rewrite (u32_small (dh_hlit h)), (u32_small (dh_hdist h)) by lia.
  rewrite (u32_small (dh_hlit h + dh_hdist h)) by lia. rewrite (u32_small (dh_hclen h)) by lia.
  destruct (Z.ltb_spec 288 (dh_hlit h)); [lia|]. destruct (Z.ltb_spec 32 (dh_hdist h)); [lia|]. cbn [orb].
  assert (length (dh_cl h) = 19%nat) as Hcl by lia.
  assert (Forall (fun x => 0 <= x <= 7) (dh_cl h)) as Hf7.
  { apply List.Forall_forall. intros x Hx.
    match goal with H : forallb _ (dh_cl h) = true |- _ => rewrite forallb_forall in H; specialize (H x Hx) end. lia. }
  assert (Forall (fun k => nth (Z.to_nat k) (dh_cl h) 0 = 0) (drop (Z.to_nat (dh_hclen h)) rfc_code_length_order)) as Hz.
  { apply List.Forall_forall. intros k Hk.
    match goal with H : forallb _ (drop _ _) = true |- _ => rewrite forallb_forall in H; specialize (H k Hk) end. lia. }
  destruct (read_code_lengths_ok (dh_cl h) (dh_hclen h) r3 _ Hcl Hf7 W3 ltac:(lia) Hz E3) as (r4 & -> & W4 & _ & E4).
  rewrite bind_ok.
  destruct (build_total (dh_cl h)) as (clt & Ecl & Wcl & Ccl); [by apply lengths_okb_ok|by apply has_codesb_ok|lia|].
  change 19 with (Z.of_nat 19). rewrite <- Hcl, Ecl, bind_ok, Hcl in *.
  destruct (ops_decode (dh_hlit h) (dh_hdist h) ltac:(lia) ltac:(lia) (dh_cl h) clt
    ltac:(by apply lengths_okb_ok) Hcl Wcl Ccl (dh_ops h) (S (bits_left r4))
    (mkDyn r4 (replicate 288 0) (replicate 32 0) 0 0) [] rest) as (s & -> & [Hr' Hs' Hl' Hd' _ _]);
    [done|lia| | |].
  { split; try done; cbn [dy_literal dy_distance].
    - unfold literal_table. by rewrite take_nil, splice_nil.
    - unfold distance_table. by rewrite drop_nil, splice_nil. }
  { rewrite bits_left_stream, E4, length_app by done.
    assert (length (dh_ops h) <= length (concat (map (encode_op (dh_cl h)) (dh_ops h))))%nat
      by by eapply length_encode_ops. lia. }
  rewrite bind_ok, Hl', Hd'. fold (header_literals h) (header_distances h).
  assert (length (header_literals h) = 288%nat) as L288.
  { unfold header_literals, literal_table. apply length_splice_zeros. rewrite length_take. lia. }
  assert (length (header_distances h) = 32%nat) as L32.
  { unfold header_distances, distance_table. apply length_splice_zeros. rewrite length_drop. lia. }
  destruct (build_total (header_literals h)) as (lt & Elt & Wlt & Clt);
    [by apply lengths_okb_ok|by apply has_codesb_ok|lia|].
  change 288 with (Z.of_nat 288). change 32 with (Z.of_nat 32). rewrite L288 in Elt, Clt. rewrite Elt, bind_ok.
  destruct (has_codesb (header_distances h)) eqn:Hdc.
  2: { rewrite <- L32, (build_empty (header_distances h)); [done|by apply lengths_okb_ok|done|lia]. }
  destruct (build_total (header_distances h)) as (dt & Edt & Wdt & Cdt);
    [by apply lengths_okb_ok|by apply has_codesb_ok|lia|].
  rewrite L32 in Edt, Cdt. rewrite Edt, bind_ok. exists (dy_reader s), lt, dt. split_and!; try done.
  by split; try done; apply lengths_okb_ok.
Qed.

(** ** Stored blocks *)
Lemma bytes_bits_app a b : bytes_bits (a ++ b) = bytes_bits a ++ bytes_bits b.
Proof. unfold bytes_bits. by rewrite map_app, concat_app. Qed.

Lemma bytes_bits_prefix u h x :
  bytes u -> bytes h -> bytes_bits u = bytes_bits h ++ x ->
  u = h ++ drop (length h) u /\ x = bytes_bits (drop (length h) u).
Proof.
  intros Hu Hh. revert u Hu. induction Hh as [|b h Hb Hh IH]; intros u Hu E; [by rewrite drop_0|].
  destruct u as [|c u]; [apply (f_equal length) in E; by rewrite length_app, !length_bytes_bits in E|].
  apply Forall_cons_iff in Hu as [Hc Hu]. unfold bytes_bits in E. cbn [map concat] in E.
  rewrite <- app_assoc in E. apply app_inj_1 in E as [E1 E2]; [|done].
  assert (c = b) as ->.
  { apply (low_bits_inj _ _ 8); [exact Hc|exact Hb|exact E1]. }
  destruct (IH u Hu E2) as [Hu' ->]. cbn [length drop app]. split; [by f_equal|done].
Qed.

Lemma mod8_split (a b c : nat) : (a + 8 * b = c)%nat -> (a < 8)%nat -> a = (c mod 8)%nat.
Proof. intros <- Ha. rewrite Nat.mul_comm, Nat.Div0.mod_add, Nat.mod_small; done. Qed.

Lemma padding_aligns pos : (length (padding pos) < 8)%nat /\ ((pos + length (padding pos)) mod 8 = 0)%nat.
Proof.
  unfold padding. rewrite length_replicate. pose proof (Nat.mod_upper_bound pos 8 ltac:(lia)).
  split; [apply Nat.mod_upper_bound; lia|]. rewrite Nat.Div0.add_mod_idemp_r.
  pose proof (Nat.div_mod_eq pos 8) as Hp. set (q := (pos / 8)%nat) in *. set (m := (pos mod 8)%nat) in *.
  replace (pos + (8 - m))%nat with ((q + 1) * 8)%nat by lia. apply Nat.Div0.mod_mul.
Qed.

Lemma le16_value v : 0 <= v < 2 ^ 16 -> le_value (le16 v) = v /\ bytes (le16 v).
Proof.
  intros Hv. unfold le16. cbn [le_value]. pose proof (Z.div_mod v 256 ltac:(lia)).
  pose proof (Z.mod_pos_bound v 256 ltac:(lia)).
  assert (0 <= v / 256 < 256) by (split; [apply Z.div_pos; lia|apply Z.div_lt_upper_bound; lia]).
  split; [lia|]. apply List.Forall_cons; [done|]. apply List.Forall_cons; [done|apply List.Forall_nil].
Qed.

(** A byte-aligned tail of the stream is a tail of the source. *)
Lemma aligned_unread r pad h rest :
  reader_wf r -> bytes h -> (length pad < 8)%nat -> (length rest mod 8 = 0)%nat ->
  stream r = pad ++ bytes_bits h ++ rest ->
  unread r = h ++ drop (length h) (unread r) /\ rest = bytes_bits (drop (length h) (unread r)).
Proof.
  intros (Hd & Ho & Hs & Hsz & Hc & Hb) Hh Hp Hr E. unfold stream in E.
  assert (length (low_bits (bit_buffer r) (Z.to_nat (bit_count r))) = length pad) as Hl.
  { pose proof (f_equal length E) as El. rewrite !length_app, !length_bytes_bits in El.
    rewrite length_low_bits in *. pose proof (Nat.div_mod_eq (length rest) 8) as Hdm.
    rewrite (mod8_split (Z.to_nat (bit_count r)) (length (unread r)) _ El) by lia.
    symmetry. apply (mod8_split _ (length h + length rest / 8)); lia. }
  apply app_inj_1 in E as [_ E]; [|done]. apply bytes_bits_prefix; [|done|done].
  by apply bytes_slice.
Qed.

Lemma slice_of_prefix (l : list Z) off n h :
  slice l off n = h -> slice l off (length h) = h.
Proof.
  intros <-. unfold slice. rewrite length_take.
  destruct (Nat.le_ge_cases n (length (drop off l))).
  - by rewrite Nat.min_l.
  - rewrite Nat.min_r by done. rewrite !take_ge by lia. done.
Qed.

Lemma slice_header (l : list Z) off n h t :
  slice l off n = h ++ t -> slice l off (length h) = h /\ slice l (off + length h) (length t) = t.
Proof.
  intros E. pose proof (slice_of_prefix _ _ _ _ E) as E'. rewrite length_app, <- slice_app in E'.
  apply app_inj_1 in E'; [done|]. apply (f_equal length) in E. unfold slice in *.
  rewrite length_take, length_drop in *. rewrite length_app in E. lia.
Qed.

(** The complement check of a stored block. *)
Lemma complement16 v : 0 <= v < 2 ^ 16 -> u16 (Z.lxor v 65535) = 65535 - v.
Proof.
  intros Hv. assert (Z.lxor v 65535 = Z.ldiff 65535 v) as ->.
  { apply Z.bits_inj'. intros i Hi. rewrite Z.ldiff_spec, Z.lxor_spec. change 65535 with (Z.ones 16).
    destruct (Z.lt_ge_cases i 16); [rewrite Z.ones_spec_low by lia; by destruct (Z.testbit v i)|].
    rewrite Z.ones_spec_high by lia. by rewrite (testbit_high v 16) by lia. }
  rewrite <- Z.sub_nocarry_ldiff; [apply u16_small; lia|].
  apply Z.bits_inj'. intros i Hi. rewrite Z.ldiff_spec, Z.bits_0. change 65535 with (Z.ones 16).
  destruct (Z.lt_ge_cases i 16); [rewrite Z.ones_spec_low by lia; apply andb_false_r|].
  by rewrite (testbit_high v 16) by lia.
Qed.

Lemma stored_ok size s acc data pad rest :
  size < 2 ^ 62 -> bytes data -> len data < 2 ^ 16 -> len acc + len data <= size ->
  (length pad < 8)%nat -> (length rest mod 8 = 0)%nat ->
  wrote size s acc (pad ++ bytes_bits (le16 (len data) ++ le16 (65535 - len data) ++ data) ++ rest) ->
  exists s', stored_block s size = Ok s' /\ wrote size s' (acc ++ data) rest.
Proof.
  intros Hmax Hdata Hlen Hle Hpad Hrest [Hr Hs Hb Hl Hi Hacc Ht].
  destruct (le16_value (len data)) as [V1 B1]; [lia|].
  destruct (le16_value (65535 - len data)) as [V2 B2]; [lia|].
  destruct (aligned_unread (in_reader s) pad (le16 (len data) ++ le16 (65535 - len data) ++ data) rest)
    as [Hu Hrest']; [done|by repeat (apply Forall_app; split)|done|done|done|].
  set (r := in_reader s) in *. pose proof Hr as (Hd & Ho & Hsr & Hsz & Hc & Hbb).
  set (tail := drop _ (unread r)) in *. unfold unread in Hu. rewrite <- !app_assoc in Hu.
  pose proof (f_equal length Hu) as Hlu. rewrite length_slice, !length_app in Hlu by lia. cbn [le16 length] in Hlu.
  destruct (slice_header _ _ _ _ _ Hu) as [Sn Hu1]. destruct (slice_header _ _ _ _ _ Hu1) as [Sc Hu2].
  destruct (slice_header _ _ _ _ _ Hu2) as [Sd Hu3]. cbn [le16 length] in Sn, Sc, Sd, Hu3.
  unfold stored_block. fold r. cbn [png_bit_reader_align_byte br_data br_size byte_offset bit_buffer bit_count].
  rewrite (u64_small (byte_offset r + 4)) by lia. destruct (Z.ltb_spec (br_size r) (byte_offset r + 4)); [lia|].
  destruct (read_le_u16_ok (br_data r) (byte_offset r)) as [-> _]; [done|lia|lia|].
  destruct (read_le_u16_ok (br_data r) (byte_offset r + 2)) as [-> _]; [done|lia|lia|]. rewrite !bind_ok.
  replace (Z.to_nat (byte_offset r + 2)) with (Z.to_nat (byte_offset r) + 2)%nat by lia.
  rewrite Sn, Sc. fold (le16 (len data)) (le16 (65535 - len data)). rewrite V1, V2.
  assert (u16 (Z.lxor (len data) 65535) = 65535 - len data) as -> by (apply complement16; lia).
  rewrite Z.eqb_refl. cbn [negb].
  rewrite (u64_small (byte_offset r + 4 + len data)) by lia.
  destruct (Z.ltb_spec (br_size r) (byte_offset r + 4 + len data)); [lia|].
  rewrite (u64_small (in_index s + len data)) by lia. destruct (Z.ltb_spec size (in_index s + len data)); [lia|].
  rewrite copy_loop_ok, bind_ok by lia.
  replace (slice (br_data r) (Z.to_nat (byte_offset r + 4)) (Z.to_nat (len data))) with data.
  2: { rewrite <- Sd at 1. f_equal; lia. }
  destruct (at_byte_wf r (byte_offset r + 4 + len data) Hr ltac:(lia)) as [Hwf Hst].
  eexists. split; [reflexivity|].
  split; cbn [in_reader in_output in_index]; try done; rewrite ?length_app; try lia.
  - rewrite Hst, Hrest'. f_equal. rewrite <- Hu3. f_equal; lia.
  - by apply bytes_splice.
  - rewrite length_splice; [done|]. lia.
  - unfold splice. rewrite Hi, Nat2Z.id, Ht, app_assoc. apply take_app_length'. by rewrite length_app.
Qed.
