(* ===== verification/PngDeflateSpec.v ===== *)
(** The theorems about Huffman codes and DEFLATE: construction and decoding of
    canonical codes, safety of the decoder on every input, and the round trip
    through the encoder. *)
From stdpp Require Import base list numbers.
From Stdlib Require Import ZArith Lia.
From S2P Require Import Prelude PngBits PngHuffman PngHuffmanProofs PngCanonical PngNodes PngBuild.
From S2P Require Import PngInflate PngInflateProofs PngDeflate PngDeflateProofs.

Local Open Scope Z_scope.

(** ** Blocks *)
Lemma fixed_trees_for :
  exists lt dt, png_build_fixed_trees = Ok (lt, dt) /\
    trees_for fixed_literal_lengths fixed_distance_lengths lt dt.
Proof.
  destruct fixed_trees_ok as (lt & dt & E & Wl & Wd & Cl & Cd). exists lt, dt. split; [exact E|].
  destruct fixed_lengths_ok as [HL HD]. by split.
Qed.

Lemma length_encode_tokens LL DL acc ts :
  tokens_ok LL DL acc ts = true -> coded LL 256 = true -> (length ts < length (encode_tokens LL DL ts))%nat.
Proof.
  intros Hok Hc. assert (forall L k, coded L k = true -> (0 < length (canonical_path L k))%nat) as Hk.
  { intros L k Hk. unfold coded in Hk. zbool. unfold canonical_path. rewrite length_rev, length_low_bits. lia. }
  unfold encode_tokens. rewrite length_app. pose proof (Hk _ _ Hc).
  assert (length ts <= length (concat (map (encode_token LL DL) ts)))%nat; [|lia].
  revert acc Hok. induction ts as [|t ts IH]; intros acc Hok; [done|]. cbn [tokens_ok map concat length] in *.
  apply andb_true_iff in Hok as [Ht Hts]. specialize (IH _ Hts). rewrite length_app.
  destruct t; cbn [token_ok encode_token] in *; zbool; rewrite ?length_app.
  - specialize (Hk LL (Z.to_nat b) ltac:(done)). lia.
  - specialize (Hk LL (length_symbol n) ltac:(done)). lia.
Qed.

Lemma huffman_block_ok LL DL lt dt size ts s acc rest :
  trees_for LL DL lt dt -> size < 2 ^ 62 -> coded LL 256 = true -> tokens_ok LL DL acc ts = true ->
  len (expand_tokens acc ts) <= size -> wrote size s acc (encode_tokens LL DL ts ++ rest) ->
  exists s', huffman_block lt dt size s = Ok s' /\ wrote size s' (expand_tokens acc ts) rest.
Proof.
  intros TF Hmax Hc Hok Hle Hw. unfold huffman_block.
  apply (tokens_decode LL DL lt dt TF size ts); try done.
  rewrite bits_left_stream by apply Hw. rewrite (wr_stream _ _ _ _ Hw), length_app.
  pose proof (length_encode_tokens LL DL acc ts Hok Hc). lia.
Qed.

Definition block_result (final : bool) (s : InflateState) : InflateState + InflateState :=
  if final then inr s else inl s.

Lemma aligned_rest (p n r : nat) : (p mod 8 = 0)%nat -> ((p + 8 * n + r) mod 8 = 0)%nat -> (r mod 8 = 0)%nat.
Proof.
  intros Hp H. pose proof (Nat.div_mod_eq p 8) as Hd.
  replace (p + 8 * n + r)%nat with (r + (p / 8 + n) * 8)%nat in H by lia. by rewrite Nat.Div0.mod_add in H.
Qed.

Lemma block_step_ok size s acc pos final b rest :
  size < 2 ^ 62 -> block_ok acc b = true -> len (expand_block acc b) <= size ->
  ((pos + length (encode_block pos final b) + length rest) mod 8 = 0)%nat ->
  wrote size s acc (encode_block pos final b ++ rest) ->
  if has_distances b then
    exists s', block_step size s = Ok (block_result final s') /\ wrote size s' (expand_block acc b) rest
  else block_step size s = Fail StatusNotSupported.
Proof.
  intros Hmax Hok Hle Hpos Hw. unfold block_step.
  pose proof Hw as [Hr Hs Hb Hl Hi Hacc Ht]. unfold encode_block in Hs. rewrite <- !app_assoc in Hs.
  assert (0 <= block_kind b < 4) as Hk by (destruct b; cbn; lia).
  destruct (read_bits_ok (in_reader s) (Z.b2z final) 1 (low_bits (block_kind b) 2 ++ encode_body pos b ++ rest))
    as (r1 & -> & W1 & _ & E1); [done|lia|destruct final; cbn; lia|by destruct final|].
  rewrite bind_ok.
  destruct (read_bits_ok r1 (block_kind b) 2 _ W1 ltac:(lia) Hk E1) as (r2 & -> & W2 & _ & E2).
  rewrite bind_ok. cbv zeta.
  assert (wrote size (mkInflate r2 (in_output s) (in_index s)) acc (encode_body pos b ++ rest)) as Hw2 by by split.
  assert (forall m, (exists s', m = Ok s' /\ wrote size s' (expand_block acc b) rest) ->
    exists s', (s0 <- m ;; if Z.b2z final =? 0 then Ok (inl s0) else Ok (inr s0)) = Ok (block_result final s') /\
      wrote size s' (expand_block acc b) rest) as Hfin.
  { intros m (s' & -> & Hs'). rewrite bind_ok. exists s'. by destruct final. }
  unfold encode_block in Hpos. rewrite !length_app, length_low_bits in Hpos.
  destruct b as [data|ts|h ts]; cbn [block_kind Z.eqb Pos.eqb encode_body expand_block block_ok has_distances] in *.
  - apply Hfin. apply andb_true_iff in Hok as [Hdata Hlen]. zbool.
    destruct (padding_aligns (pos + 3)) as [Hp1 Hp2]. rewrite <- app_assoc in Hw2.
    rewrite length_app, length_bytes_bits in Hpos. cbn [length] in Hpos.
    eapply stored_ok; [done| |done| |exact Hp1| |exact Hw2].
    + rewrite forallb_forall in Hdata. apply List.Forall_forall. intros x Hx. by apply byteb_spec, Hdata.
    + rewrite length_app in Hle. lia.
    + apply (aligned_rest _ (length (le16 (len data) ++ le16 (65535 - len data) ++ data)) _ Hp2).
      etransitivity; [|exact Hpos]. f_equal. lia.
  - apply Hfin. destruct fixed_trees_for as (lt & dt & -> & TF). rewrite bind_ok.
    by apply (huffman_block_ok _ _ lt dt size ts _ acc rest TF).
  - rewrite <- app_assoc in E2. zbool.
    pose proof (dynamic_ok h r2 _ ltac:(done) W2 E2) as Hdyn.
    destruct (has_codesb (header_distances h)); [|by rewrite Hdyn].
    apply Hfin. destruct Hdyn as (r3 & lt & dt & -> & W3 & E3 & TF). rewrite bind_ok.
    by apply (huffman_block_ok _ _ lt dt size ts _ acc rest TF).
Qed.

(** ** Streams *)
Lemma expand_block_mono acc b : block_ok acc b = true -> len acc <= len (expand_block acc b).
Proof.
  destruct b; cbn [block_ok expand_block]; intros H; zbool; [rewrite length_app; lia| |];
    by eapply expand_tokens_mono.
Qed.

Lemma expand_blocks_mono acc bs : blocks_ok acc bs = true -> len acc <= len (expand_blocks acc bs).
Proof.
  revert acc. induction bs as [|b bs IH]; intros acc H; [cbn; lia|]. cbn [blocks_ok] in H. zbool.
  unfold expand_blocks in *. cbn [foldl]. etransitivity; [by apply expand_block_mono|by apply IH].
Qed.

Lemma encode_blocks_cons pos b c bs :
  encode_blocks pos (b :: c :: bs) =
  encode_block pos false b ++ encode_blocks (pos + length (encode_block pos false b)) (c :: bs).
Proof. reflexivity. Qed.

Lemma encode_blocks_aligned pos bs :
  bs <> [] -> ((pos + length (encode_blocks pos bs)) mod 8 = 0)%nat.
Proof.
  revert pos. induction bs as [|b bs IH]; intros pos Hne; [done|]. destruct bs as [|c bs].
  - cbn [encode_blocks]. rewrite length_app, Nat.add_assoc. apply padding_aligns.
  - rewrite encode_blocks_cons, length_app, Nat.add_assoc. by apply IH.
Qed.

Lemma length_encode_block pos final b : (3 <= length (encode_block pos final b))%nat.
Proof. unfold encode_block. rewrite !length_app, length_low_bits. cbn [length]. lia. Qed.

Lemma blocks_decode size bs fuel s acc pos :
  size < 2 ^ 62 -> bs <> [] -> blocks_ok acc bs = true -> len (expand_blocks acc bs) <= size ->
  wrote size s acc (encode_blocks pos bs) -> (length (encode_blocks pos bs) < fuel)%nat ->
  if forallb has_distances bs then
    exists s' rest, iterate fuel (block_step size) s = Ok s' /\ wrote size s' (expand_blocks acc bs) rest
  else iterate fuel (block_step size) s = Fail StatusNotSupported.
Proof.
  intros Hmax. revert fuel s acc pos. induction bs as [|b bs IH]; intros fuel s acc pos Hne Hok Hle Hw Hf; [done|].
  destruct fuel as [|fuel]; [lia|]. cbn [iterate]. cbn [blocks_ok] in Hok. apply andb_true_iff in Hok as [Hb Hbs].
  pose proof (expand_blocks_mono _ _ Hbs) as Hm. unfold expand_blocks in *. cbn [foldl] in *.
  destruct bs as [|c bs].
  - cbn [encode_blocks foldl forallb] in *. rewrite andb_true_r.
    pose proof (block_step_ok size s acc pos true b (padding (pos + length (encode_block pos true b)))
      Hmax Hb ltac:(lia) ltac:(apply padding_aligns) Hw) as Hstep.
    destruct (has_distances b); [|by rewrite Hstep]. destruct Hstep as (s' & -> & Hw').
    rewrite bind_ok. cbn [block_result]. eauto.
  - rewrite encode_blocks_cons in Hw, Hf.
    pose proof (block_step_ok size s acc pos false b
      (encode_blocks (pos + length (encode_block pos false b)) (c :: bs))
      Hmax Hb ltac:(lia) ltac:(by apply encode_blocks_aligned) Hw) as Hstep.
    change (forallb has_distances (b :: c :: bs)) with (has_distances b && forallb has_distances (c :: bs)).
    destruct (has_distances b); cbn [andb]; [|by rewrite Hstep]. destruct Hstep as (s' & -> & Hw').
    rewrite bind_ok. cbn [block_result]. eapply IH; [done|done|done|exact Hw'|].
    rewrite length_app in Hf. pose proof (length_encode_block pos false b). lia.
Qed.

Lemma low_bits_value bs : low_bits (bits_value bs) (length bs) = bs.
Proof.
  induction bs as [|b bs IH]; [done|]. cbn [length bits_value]. rewrite low_bits_S. f_equal.
  - rewrite Z.add_comm. destruct b; [apply Z.testbit_odd_0|]. rewrite Z.add_0_r. apply Z.testbit_even_0.
  - assert (Z.shiftr ((if b then 1 else 0) + 2 * bits_value bs) 1 = bits_value bs) as ->; [|done].
    rewrite Z.shiftr_div_pow2 by lia. change (2 ^ 1) with 2. destruct b; Z.div_mod_to_equations; lia.
Qed.

Lemma pack_bits n bs : length bs = (8 * n)%nat -> bytes_bits (pack n bs) = bs /\ bytes (pack n bs).
Proof.
  revert bs. induction n as [|n IH]; intros bs Hl.
  { destruct bs; [|done]. split; [done|apply List.Forall_nil]. }
  cbn [pack]. destruct (IH (drop 8 bs)) as [Hb Hy]; [rewrite length_drop; lia|].
  assert (length (take 8 bs) = 8%nat) as H8 by (rewrite length_take; lia). split.
  - change (bytes_bits (?x :: ?l)) with (byte_bits x ++ bytes_bits l). rewrite Hb.
    pose proof (low_bits_value (take 8 bs)) as Hv. rewrite H8 in Hv.
    change (byte_bits ?x) with (low_bits x 8). rewrite Hv. apply take_drop.
  - apply List.Forall_cons; [|done]. pose proof (bits_value_range (take 8 bs)) as Hr. by rewrite H8 in Hr.
Qed.

Lemma be32_value v : 0 <= v < 2 ^ 32 -> be_value (be32 v) = v /\ bytes (be32 v).
Proof.
  intros Hv. unfold be32, be_value. cbn [rev app le_value].
  assert (forall x, 0 <= x mod 256 < 256) as Hm by (intros x; apply Z.mod_pos_bound; lia).
  pose proof (Z.div_mod v 256 ltac:(lia)). pose proof (Z.div_mod (v / 256) 256 ltac:(lia)).
  pose proof (Z.div_mod (v / 256 / 256) 256 ltac:(lia)).
  pose proof (Hm v). pose proof (Hm (v / 256)). pose proof (Hm (v / 256 / 256)).
  split; [lia|]. repeat (apply List.Forall_cons; [unfold is_byte; lia|]). apply List.Forall_nil.
Qed.

Lemma zlib_header_accepted cmf flg :
  zlib_header_ok cmf flg = true ->
  negb (Z.land cmf 0x0F =? 8) || negb (Z.lor (u32 (Z.shiftl cmf 8)) flg mod 31 =? 0) ||
    negb (Z.land flg 0x20 =? 0) = false /\ is_byte cmf /\ is_byte flg.
Proof.
  unfold zlib_header_ok. intros H. rewrite !andb_true_iff, !byteb_spec in H.
  destruct H as (((((Hc & Hf) & Hm) & _) & H31) & Hd). split; [|done]. unfold is_byte in *.
  assert (Z.lor (u32 (Z.shiftl cmf 8)) flg = cmf * 256 + flg) as ->.
  { pose proof (Z.shiftl_mul_pow2 cmf 8 ltac:(lia)) as Hs. change (2 ^ 8) with 256 in Hs.
    rewrite u32_small, Z.lor_comm, lor_shiftl_add by lia. lia. }
  change 0x0F with (Z.ones 4). rewrite Z.land_ones by lia. change (2 ^ 4) with 16. rewrite Hm, H31.
  change 0x20 with (2 ^ 5). apply negb_true_iff in Hd.
  rewrite (proj2 (Z.eqb_eq (Z.land flg (2 ^ 5)) 0)); [done|]. apply Z.bits_inj'. intros i Hi.
  rewrite Z.land_spec, Z.bits_0. destruct (decide (i = 5)) as [->|Hne]; [by rewrite Hd|].
  rewrite Z.pow2_bits_false by lia. apply andb_false_r.
Qed.

(** The stream may be followed by other bytes of its buffer. *)
Lemma inflate_encode cmf flg bs slack output :
  zlib_header_ok cmf flg = true -> bs <> [] -> blocks_ok [] bs = true -> bytes output -> bytes slack ->
  len output = len (expand_blocks [] bs) -> len output < 2 ^ 62 -> len (zlib_encode cmf flg bs) < 2 ^ 62 ->
  png_inflate_zlib (zlib_encode cmf flg bs ++ slack) (len (zlib_encode cmf flg bs)) output (len output) =
  if forallb has_distances bs then Ok (expand_blocks [] bs) else Fail StatusNotSupported.
Proof.
  intros Hhead Hne Hok Hout Hslack Hlen Hmax Hmax2.
  pose proof (encode_blocks_aligned 0 bs Hne) as H8. rewrite Nat.add_0_l in H8.
  assert (length (encode_blocks 0 bs) = 8 * (length (encode_blocks 0 bs) / 8))%nat as Hdiv
    by (pose proof (Nat.div_mod_eq (length (encode_blocks 0 bs)) 8); lia).
  destruct (pack_bits _ _ Hdiv) as [Hbits Hbytes]. fold (deflate bs) in Hbits, Hbytes.
  pose proof (adler32_range (expand_blocks [] bs)) as Hrange.
  destruct (be32_value _ Hrange) as [Hadler Hadlerb].
  assert (len (zlib_encode cmf flg bs) = 6 + len (deflate bs)) as Hzl
    by (unfold zlib_encode; rewrite !length_app; cbn [length be32]; lia).
  unfold png_inflate_zlib. destruct (Z.ltb_spec (len (zlib_encode cmf flg bs)) 6); [lia|].
  unfold zlib_encode at 1. rewrite (aget_ok _ 0 cmf) by done. rewrite bind_ok.
  unfold zlib_encode at 1. rewrite (aget_ok _ 1 flg) by done. rewrite bind_ok.
  destruct (zlib_header_accepted cmf flg Hhead) as (-> & Hcmf & Hflg). cbv zeta.
  rewrite (u64_small (len (zlib_encode cmf flg bs) - 6)), Hzl by lia.
  replace (6 + len (deflate bs) - 6) with (len (deflate bs)) by lia.
  change (drop 2 (zlib_encode cmf flg bs ++ slack)) with ((deflate bs ++ be32 (adler32 (expand_blocks [] bs))) ++ slack).
  rewrite <- app_assoc. set (tail := be32 _ ++ slack).
  destruct (reader_init_ok (deflate bs ++ tail) (len (deflate bs))) as [Wr Hst];
    [by repeat (apply Forall_app; split)|rewrite length_app; lia|lia|].
  rewrite Nat2Z.id, take_app_length in Hst. set (r := png_bit_reader_init _ _) in *.
  assert (if forallb has_distances bs then
      exists s' rest, iterate (S (bits_left r)) (block_step (len output)) (mkInflate r output 0) = Ok s' /\
        wrote (len output) s' (expand_blocks [] bs) rest
    else iterate (S (bits_left r)) (block_step (len output)) (mkInflate r output 0) = Fail StatusNotSupported) as Hdec.
  { apply (blocks_decode (len output) bs (S (bits_left r)) (mkInflate r output 0) [] 0); try done; [lia| |].
    - split; cbn [in_reader in_output in_index]; try done; [by rewrite Hst, Hbits|cbn [length]; lia].
    - rewrite bits_left_stream, Hst, Hbits by done. lia. }
  destruct (forallb has_distances bs); [|by rewrite Hdec]. destruct Hdec as (s & rest & -> & Hw).
  rewrite bind_ok. destruct Hw as [_ _ Hb Hl Hi _ Ht]. rewrite Hi, Hlen, Z.eqb_refl. cbn [negb].
  assert (in_output s = expand_blocks [] bs) as Eo by (rewrite <- Ht; symmetry; apply take_ge; lia).
  assert (bytes (zlib_encode cmf flg bs ++ slack)) as Hz.
  { unfold zlib_encode. repeat (apply Forall_app; split); try done.
    repeat (apply List.Forall_cons; [done|]). apply List.Forall_nil. }
  rewrite (u64_small (_ - 4)) by lia.
  destruct (read_be_u32_ok (zlib_encode cmf flg bs ++ slack) (6 + len (deflate bs) - 4)) as [-> _];
    [done|lia|rewrite length_app; lia|].
  assert (slice (zlib_encode cmf flg bs ++ slack) (Z.to_nat (6 + len (deflate bs) - 4)) 4 = be32 (adler32 (expand_blocks [] bs))) as ->.
  { unfold zlib_encode, slice. rewrite app_assoc, <- app_assoc. rewrite drop_app_length' by (rewrite length_app; cbn; lia). done. }
  rewrite Eo in Hb |- *. rewrite bind_ok, Hadler, adler32_ok, bind_ok, Z.eqb_refl by done. done.
Qed.

(** Decoding [n] symbols in a row. *)
Fixpoint decode_symbols (n : nat) (r : PngBitReader) (t : PngHuffmanTree) : Exec (PngBitReader * list Z) :=
  match n with
  | O => Ok (r, [])
  | S n' =>
      '(r, sym) <- png_huffman_decode_symbol r t ;;
      '(r, syms) <- decode_symbols n' r t ;;
      Ok (r, sym :: syms)
  end.

Lemma decode_symbols_ok L t ks r rest :
  lengths_ok L -> tree_wf t -> holds_codes L (length L) t ->
  Forall (fun k => (k < length L)%nat /\ 0 < length_of L k) ks -> reader_wf r ->
  stream r = concat (map (canonical_path L) ks) ++ rest ->
  exists r', decode_symbols (length ks) r t = Ok (r', map Z.of_nat ks) /\ reader_wf r' /\ stream r' = rest.
Proof.
  intros Hok Hwf Hc Hks. revert r. induction Hks as [|k ks [Hk Hlk] _ IH]; intros r Hr Hs; [by exists r|].
  cbn [map concat length decode_symbols] in *. rewrite <- app_assoc in Hs.
  destruct (decode_canonical L t k r _ Hok Hwf Hc Hr Hk Hlk Hs) as (r1 & -> & W1 & _ & E1). rewrite bind_ok.
  destruct (IH r1 W1 E1) as (r2 & -> & W2 & E2). rewrite bind_ok. by exists r2.
Qed.

(** ** Theorems *)

(** C30: canonical Huffman codes.  For every code-length table of at most 1000
    symbols that has a code and is not over-subscribed, [png_huffman_build] succeeds (its node array is always large
    enough), and decoding a stream of canonical codes with the tree it builds
    yields exactly the coded symbols and leaves the rest of the stream. *)
Theorem png_huffman_roundtrip L ks r rest :
  lengths_ok L -> len L <= 1000 -> has_codes L ->
  Forall (fun k => (k < length L)%nat /\ 0 < length_of L k) ks ->
  reader_wf r -> stream r = concat (map (canonical_path L) ks) ++ rest ->
  exists t r', png_huffman_build L (len L) = Ok t /\
    decode_symbols (length ks) r t = Ok (r', map Z.of_nat ks) /\ stream r' = rest.
Proof.
  intros Hok HL Hex Hks Hr Hs. destruct (build_total L Hok Hex HL) as (t & Et & Wt & Ct).
  destruct (decode_symbols_ok L t ks r rest) as (r' & E & _ & Er); [done..|]. exists t, r'. done.
Qed.

(** Construction of a Huffman tree from any code-length table.  The result
    is a well-formed tree or one of three refusals: a length above 15, a table
    without codes, or no room, which only an over-subscribed table can cause. *)
Theorem png_huffman_build_outcome L :
  bytes L -> 0 < len L <= 1000 ->
  match png_huffman_build L (len L) with
  | Ok t => tree_wf t /\ Forall (fun x => 0 <= x <= 15) L /\ has_codes L
  | Fail c => (c = StatusNotSupported /\ (Exists (fun x => 15 < x) L \/ ~ has_codes L)) \/
              (c = StatusNoMemory /\ ~ lengths_ok L)
  | _ => False
  end.
Proof.
  intros HB HL. assert (Forall (fun x => 0 <= x) L) as Hn.
  { eapply List.Forall_impl; [|exact HB]. unfold is_byte. cbn. lia. }
  pose proof (wp_build L Hn HL) as Hwp. destruct (png_huffman_build L (len L)); cbn in Hwp; [|done..].
  by destruct Hwp as (? & ? & ? & _).
Qed.

(** C6: inflating untrusted data.  Whatever the bytes of the zlib stream,
    [png_inflate_zlib] terminates and never reads outside the stream or its
    tables nor writes outside the output buffer; when it reports success the
    whole buffer holds bytes whose Adler-32 is the one the stream ends with. *)
Theorem png_inflate_zlib_safe compressed size output :
  bytes compressed -> bytes output -> 0 <= size <= len compressed -> size < 2 ^ 62 -> len output < 2 ^ 62 ->
  match png_inflate_zlib compressed size output (len output) with
  | Ok out => bytes out /\ length out = length output /\
      be_value (slice compressed (Z.to_nat (size - 4)) 4) = adler32 out
  | Fail c => c <> 0
  | _ => False
  end.
Proof.
  intros Hc Ho Hs Hcl Hol. pose proof (wp_inflate compressed size output Hc Ho Hs Hcl Hol) as Hwp.
  by destruct (png_inflate_zlib _ _ _ _).
Qed.

(** C1: inflate inverts deflate.  For every sequence of stored, fixed and
    dynamic blocks that RFC 1951 allows, under every zlib header without a preset
    dictionary, [png_inflate_zlib] applied to the encoding of the blocks returns
    the bytes they expand to, whatever follows the stream in its buffer, if every
    dynamic block has a distance code; it refuses the stream with
    [StatusNotSupported] if one of them, a block of literals only, has none. *)
Theorem png_inflate_zlib_roundtrip cmf flg bs slack output :
  zlib_header_ok cmf flg = true -> bs <> [] -> blocks_ok [] bs = true -> bytes output -> bytes slack ->
  len output = len (expand_blocks [] bs) -> len output < 2 ^ 62 -> len (zlib_encode cmf flg bs) < 2 ^ 62 ->
  png_inflate_zlib (zlib_encode cmf flg bs ++ slack) (len (zlib_encode cmf flg bs)) output (len output) =
  if forallb has_distances bs then Ok (expand_blocks [] bs) else Fail StatusNotSupported.
Proof. apply inflate_encode. Qed.

(** C33: the checksum.  [png_adler32] computes the Adler-32 of RFC 1950: the
    two sums modulo 65521 that its definition gives in closed form. *)
Theorem png_adler32_correct data :
  bytes data -> png_adler32 data (len data) = Ok (adler32 data).
Proof. apply adler32_ok. Qed.
