(* ===== verification/PngFilter.v ===== *)
(** Scanlines of the PNG decoder (applications/libs/png/png.c): undoing the row
    filters and drawing one row into an ARGB canvas. *)
From stdpp Require Import base list numbers.
From Stdlib Require Import ZArith Lia.
From S2P Require Import Prelude PngBits.

Local Open Scope Z_scope.

Definition PNG_COLOR_TYPE_GRAYSCALE : Z := 0.
Definition PNG_COLOR_TYPE_RGB : Z := 2.
Definition PNG_COLOR_TYPE_GRAY_ALPHA : Z := 4.
Definition PNG_COLOR_TYPE_RGBA : Z := 6.

Definition PNG_FILTER_NONE : Z := 0.
Definition PNG_FILTER_SUB : Z := 1.
Definition PNG_FILTER_UP : Z := 2.
Definition PNG_FILTER_AVERAGE : Z := 3.
Definition PNG_FILTER_PAETH : Z := 4.

Definition png_channels_for_color_type (color_type : Z) : Z :=
  if color_type =? PNG_COLOR_TYPE_GRAYSCALE then 1
  else if color_type =? PNG_COLOR_TYPE_RGB then 3
  else if color_type =? PNG_COLOR_TYPE_GRAY_ALPHA then 2
  else if color_type =? PNG_COLOR_TYPE_RGBA then 4
  else 0.

(** ** Filters *)
Definition png_paeth_predictor (left up up_left : Z) : Z :=
  let p := left + up - up_left in
  let pa := if p <? left then left - p else p - left in
  let pb := if p <? up then up - p else p - up in
  let pc := if p <? up_left then up_left - p else p - up_left in
  if (pa <=? pb) && (pa <=? pc) then left
  else if pb <=? pc then up
  else up_left.

(** [previous_row[index]], or zero on the first row. *)
Definition above (previous_row : option (list Z)) (index : Z) : Exec Z :=
  match previous_row with
  | Some p => aget p index
  | None => Ok 0
  end.

Definition left_of (row : list Z) (bytes_per_pixel index : Z) : Exec Z :=
  if bytes_per_pixel <=? index then aget row (index - bytes_per_pixel) else Ok 0.

(** [row[index] = (U8)(row[index] + p)]. *)
Definition add_to (row : list Z) (index p : Z) : Exec (list Z) :=
  x <- aget row index ;; aset row index (u8 (x + p)).

Definition png_unfilter_row (row : list Z) (previous_row : option (list Z))
    (row_bytes bytes_per_pixel filter_type : Z) : Exec (list Z) :=
  if bytes_per_pixel =? 0 then Fail StatusInvalidArgument
  else if filter_type =? PNG_FILTER_NONE then Ok row
  else if filter_type =? PNG_FILTER_SUB then
    for_range (Z.to_nat (row_bytes - bytes_per_pixel)) bytes_per_pixel
      (fun index row =>
         l <- aget row (index - bytes_per_pixel) ;; add_to row index l) row
  else if filter_type =? PNG_FILTER_UP then
    match previous_row with
    | None => Ok row
    | Some p =>
        for_range (Z.to_nat row_bytes) 0
          (fun index row => u <- aget p index ;; add_to row index u) row
    end
  else if filter_type =? PNG_FILTER_AVERAGE then
    for_range (Z.to_nat row_bytes) 0
      (fun index row =>
         left <- left_of row bytes_per_pixel index ;;
         up <- above previous_row index ;;
         add_to row index (u8 (Z.shiftr (left + up) 1))) row
  else if filter_type =? PNG_FILTER_PAETH then
    for_range (Z.to_nat row_bytes) 0
      (fun index row =>
         left <- left_of row bytes_per_pixel index ;;
         up <- above previous_row index ;;
         up_left <- (if bytes_per_pixel <=? index then above previous_row (index - bytes_per_pixel)
                     else Ok 0) ;;
         add_to row index (png_paeth_predictor left up up_left)) row
  else Fail StatusNotSupported.

(** ** Drawing a row *)
Definition argb (alpha red green blue : Z) : Z :=
  Z.lor (Z.lor (Z.lor (u32 (Z.shiftl alpha 24)) (u32 (Z.shiftl red 16))) (u32 (Z.shiftl green 8))) blue.

(** The pixel the four loops compute at [source_x]. *)
Definition row_pixel (color_type : Z) (row : list Z) (source_x : Z) : Exec Z :=
  if color_type =? PNG_COLOR_TYPE_RGBA then
    let pixel_index := u32 (source_x * 4) in
    red <- aget row pixel_index ;;
    green <- aget row (u32 (pixel_index + 1)) ;;
    blue <- aget row (u32 (pixel_index + 2)) ;;
    alpha <- aget row (u32 (pixel_index + 3)) ;;
    Ok (argb alpha red green blue)
  else if color_type =? PNG_COLOR_TYPE_RGB then
    let pixel_index := u32 (source_x * 3) in
    red <- aget row pixel_index ;;
    green <- aget row (u32 (pixel_index + 1)) ;;
    blue <- aget row (u32 (pixel_index + 2)) ;;
    Ok (argb 255 red green blue)
  else if color_type =? PNG_COLOR_TYPE_GRAYSCALE then
    red <- aget row source_x ;;
    Ok (argb 255 red red red)
  else
    let pixel_index := u32 (source_x * 2) in
    red <- aget row pixel_index ;;
    alpha <- aget row (u32 (pixel_index + 1)) ;;
    Ok (argb alpha red red red).

(** The loop over the pixels of the row, which stops at the right edge. *)
Fixpoint blit_loop (n : nat) (color_type : Z) (row canvas : list Z)
    (canvas_width dest_x dest_y source_x : Z) : Exec (list Z) :=
  match n with
  | O => Ok canvas
  | S n' =>
      if canvas_width <=? u64 (dest_x + source_x) then Ok canvas else
      p <- row_pixel color_type row source_x ;;
      canvas <- aset canvas (u64 (u64 (u64 (dest_y * canvas_width) + dest_x) + source_x)) p ;;
      blit_loop n' color_type row canvas canvas_width dest_x dest_y (source_x + 1)
  end.

Definition png_blit_row (row : list Z) (source_width : Z) (canvas : list Z)
    (canvas_width canvas_height dest_x dest_y color_type : Z) : Exec (list Z) :=
  if (canvas_width =? 0) || (canvas_height =? 0) then Fail StatusInvalidArgument else
  if canvas_height <=? dest_y then Ok canvas else
  if canvas_width <=? dest_x then Ok canvas else
  if (color_type =? PNG_COLOR_TYPE_RGBA) || (color_type =? PNG_COLOR_TYPE_RGB) ||
     (color_type =? PNG_COLOR_TYPE_GRAYSCALE) || (color_type =? PNG_COLOR_TYPE_GRAY_ALPHA) then
    blit_loop (Z.to_nat source_width) color_type row canvas canvas_width dest_x dest_y 0
  else Fail StatusNotSupported.
