(* ===== verification/PngFilterSpec.v ===== *)
(** Row filters and drawing: [png_unfilter_row] inverts the filters of the PNG
    specification, [png_paeth_predictor] is the Paeth predictor, and
    [png_blit_row] replaces exactly the visible pixels of one canvas row. *)
From stdpp Require Import base list numbers.
From Stdlib Require Import ZArith Lia.
From S2P Require Import Prelude PngBits PngFilter.

Local Open Scope Z_scope.

(** ** The filters of the PNG specification *)

(** The neighbour of [a], [b], [c] closest to [a + b - c]; ties go to the first. *)
Definition paeth (a b c : Z) : Z :=
  let p := a + b - c in
  if (Z.abs (p - a) <=? Z.abs (p - b)) && (Z.abs (p - a) <=? Z.abs (p - c)) then a
  else if Z.abs (p - b) <=? Z.abs (p - c) then b
  else c.

Definition up_byte (prev : option (list Z)) (i : nat) : Z :=
  match prev with Some p => nth i p 0 | None => 0 end.

Definition left_byte (bpp : nat) (row : list Z) (i : nat) : Z :=
  if (bpp <=? i)%nat then nth (i - bpp) row 0 else 0.

Definition up_left_byte (bpp : nat) (prev : option (list Z)) (i : nat) : Z :=
  if (bpp <=? i)%nat then up_byte prev (i - bpp) else 0.

(** What filter type [ft] predicts for byte [i] of [row]. *)
Definition predict (ft : Z) (bpp : nat) (row : list Z) (prev : option (list Z)) (i : nat) : Z :=
  if ft =? PNG_FILTER_SUB then left_byte bpp row i
  else if ft =? PNG_FILTER_UP then up_byte prev i
  else if ft =? PNG_FILTER_AVERAGE then (left_byte bpp row i + up_byte prev i) / 2
  else if ft =? PNG_FILTER_PAETH then
    paeth (left_byte bpp row i) (up_byte prev i) (up_left_byte bpp prev i)
  else 0.

Definition filter_row (ft : Z) (bpp : nat) (row : list Z) (prev : option (list Z)) : list Z :=
  imap (fun i x => u8 (x - predict ft bpp row prev i)) row.

(** ** Undoing a filter *)
Lemma paeth_predictor_paeth a b c : png_paeth_predictor a b c = paeth a b c.
Proof.
  assert (forall p x, (if p <? x then x - p else p - x) = Z.abs (p - x)) as Habs.
  { intros p x. destruct (Z.ltb_spec p x); lia. }
  unfold png_paeth_predictor, paeth. cbv zeta. by rewrite !Habs.
Qed.

Lemma paeth_choice a b c : paeth a b c = a \/ paeth a b c = b \/ paeth a b c = c.
Proof. unfold paeth. destruct (_ && _); [auto|]. destruct (_ <=? _); auto. Qed.

Lemma nth_byte l i : bytes l -> 0 <= nth i l 0 < 256.
Proof.
  intros Hb. rewrite nth_lookup. destruct (l !! i) as [x|] eqn:E; [|cbn; lia].
  by apply (bytes_lookup l i).
Qed.

Section Unfilter.
Context (bpp : nat) (orig : list Z) (prev : option (list Z)) (ft : Z).
Hypothesis Hbpp : (1 <= bpp)%nat.
Hypothesis Horig : bytes orig.
Hypothesis Hprev : match prev with Some p => bytes p /\ length p = length orig | None => True end.

Lemma up_byte_range i : 0 <= up_byte prev i < 256.
Proof. unfold up_byte. destruct prev; [|lia]. apply nth_byte, Hprev. Qed.

Lemma left_byte_range i : 0 <= left_byte bpp orig i < 256.
Proof. unfold left_byte. destruct (_ <=? _)%nat; [by apply nth_byte|lia]. Qed.

Lemma up_left_byte_range i : 0 <= up_left_byte bpp prev i < 256.
Proof. unfold up_left_byte. destruct (_ <=? _)%nat; [apply up_byte_range|lia]. Qed.

(** The row after [i] bytes have been restored. *)
Definition restored (i : nat) : list Z := take i orig ++ drop i (filter_row ft bpp orig prev).

Lemma length_filter_row : length (filter_row ft bpp orig prev) = length orig.
Proof. apply length_imap. Qed.

Lemma length_restored i : (i <= length orig)%nat -> length (restored i) = length orig.
Proof. intros Hi. unfold restored. rewrite length_app, length_take, length_drop, length_filter_row. lia. Qed.

Lemma restored_lt i j : (j < i)%nat -> (i <= length orig)%nat -> restored i !! j = Some (nth j orig 0).
Proof.
  intros Hj Hi. unfold restored. rewrite lookup_app_l by (rewrite length_take; lia).
  rewrite lookup_take_lt by done. destruct (lookup_lt_is_Some_2 orig j) as [x Hx]; [lia|].
  by rewrite Hx, nth_lookup, Hx.
Qed.

Lemma restored_at i :
  (i < length orig)%nat -> restored i !! i = Some (u8 (nth i orig 0 - predict ft bpp orig prev i)).
Proof.
  intros Hi. unfold restored. rewrite lookup_app_r, length_take by (rewrite length_take; lia).
  rewrite Nat.min_l, Nat.sub_diag, lookup_drop, Nat.add_0_r by lia. unfold filter_row.
  rewrite list_lookup_imap. destruct (lookup_lt_is_Some_2 orig i Hi) as [x Hx]. by rewrite nth_lookup, Hx.
Qed.

Lemma restored_S i :
  (i < length orig)%nat -> <[i := nth i orig 0]> (restored i) = restored (S i).
Proof.
  intros Hi. apply list_eq. intros j. destruct (decide (i = j)) as [<-|Hne].
  - rewrite list_lookup_insert_eq by (rewrite length_restored; lia). symmetry. apply restored_lt; lia.
  - rewrite list_lookup_insert_ne by done. destruct (decide (j < i)%nat).
    + rewrite !restored_lt by lia. done.
    + unfold restored. rewrite !lookup_app_r by (rewrite length_take; lia).
      rewrite !length_take, !lookup_drop. f_equal. lia.
Qed.

(** Adding the prediction to the filtered byte restores it. *)
Lemma add_restored i p :
  (i < length orig)%nat -> p = predict ft bpp orig prev i -> 0 <= p ->
  add_to (restored i) (Z.of_nat i) p = Ok (restored (S i)).
Proof.
  intros Hi -> Hp. unfold add_to.
  rewrite (aget_ok _ _ (u8 (nth i orig 0 - predict ft bpp orig prev i))) by (rewrite ?Nat2Z.id; try apply restored_at; lia || done).
  rewrite bind_ok, aset_ok by (rewrite length_restored; lia). rewrite Nat2Z.id.
  assert (u8 (u8 (nth i orig 0 - predict ft bpp orig prev i) + predict ft bpp orig prev i) = nth i orig 0) as ->.
  { unfold u8. rewrite Z.add_mod_idemp_l, Z.sub_add by lia. apply Z.mod_small. by apply nth_byte. }
  by rewrite restored_S.
Qed.

Lemma aget_above i : (i < length orig)%nat -> above prev (Z.of_nat i) = Ok (up_byte prev i).
Proof.
  intros Hi. unfold above, up_byte. destruct prev as [p|]; [|done]. destruct Hprev as [_ Hl].
  destruct (lookup_lt_is_Some_2 p i) as [x Hx]; [lia|].
  apply aget_ok; [lia|]. by rewrite Nat2Z.id, nth_lookup, Hx.
Qed.

Lemma aget_left i :
  (i < length orig)%nat -> left_of (restored i) (Z.of_nat bpp) (Z.of_nat i) = Ok (left_byte bpp orig i).
Proof.
  intros Hi. unfold left_of, left_byte.
  destruct (Z.leb_spec (Z.of_nat bpp) (Z.of_nat i)); destruct (Nat.leb_spec bpp i); try lia; [|done].
  apply aget_ok; [lia|]. replace (Z.to_nat (Z.of_nat i - Z.of_nat bpp)) with (i - bpp)%nat by lia.
  apply restored_lt; lia.
Qed.

(** A loop whose body adds the prediction restores the row from [i] on. *)
Lemma restore_loop (i : nat) body :
  (i <= length orig)%nat ->
  (forall k, (i <= k < length orig)%nat -> body (Z.of_nat k) (restored k) = Ok (restored (S k))) ->
  for_range (length orig - i) (Z.of_nat i) body (restored i) = Ok orig.
Proof.
  intros Hi Hbody. remember (length orig - i)%nat as n eqn:Hn. revert i Hi Hbody Hn.
  induction n as [|n IH]; intros i Hi Hbody Hn; cbn [for_range].
  - f_equal. unfold restored. rewrite take_ge, drop_ge by (rewrite ?length_filter_row; lia). apply app_nil_r.
  - rewrite Hbody, bind_ok by lia. replace (Z.of_nat i + 1) with (Z.of_nat (S i)) by lia.
    apply IH; [lia| |lia]. intros k Hk. apply Hbody. lia.
Qed.

Lemma restored_0 : restored 0 = filter_row ft bpp orig prev.
Proof. unfold restored. by rewrite take_0, drop_0. Qed.

(** Rows no prediction changes are their own filtering. *)
Lemma restored_unpredicted i :
  (i <= length orig)%nat -> (forall k, (k < i)%nat -> predict ft bpp orig prev k = 0) ->
  restored i = restored 0.
Proof.
  intros Hi Hz. induction i as [|i IH]; [done|]. rewrite <- IH by (intros; try apply Hz; lia).
  rewrite <- restored_S by lia. apply list_insert_id. rewrite restored_at by lia. rewrite Hz, Z.sub_0_r by lia.
  f_equal. apply u8_small. by apply nth_byte.
Qed.

(** A whole row restored is the original. *)
Lemma restored_all : restored (length orig) = orig.
Proof. unfold restored. rewrite take_ge, drop_ge by (rewrite ?length_filter_row; lia). apply app_nil_r. Qed.

Lemma restore_rows body :
  (forall k, (k < length orig)%nat -> body (Z.of_nat k) (restored k) = Ok (restored (S k))) ->
  for_range (Z.to_nat (len orig)) 0 body (restored 0) = Ok orig.
Proof.
  intros Hb. rewrite Nat2Z.id. pose proof (restore_loop 0 body ltac:(lia)) as H.
  rewrite Nat.sub_0_r in H. apply H. intros k Hk. apply Hb. lia.
Qed.

Lemma unpredicted : (forall j, predict ft bpp orig prev j = 0) -> restored 0 = orig.
Proof. intros Hz. rewrite <- (restored_unpredicted (length orig)) by auto. apply restored_all. Qed.

Lemma unfilter_sub :
  ft = PNG_FILTER_SUB ->
  for_range (Z.to_nat (len orig - Z.of_nat bpp)) (Z.of_nat bpp)
    (fun index row => l <- aget row (index - Z.of_nat bpp) ;; add_to row index l) (restored 0) = Ok orig.
Proof.
  intros E1. assert (forall k, (k < bpp)%nat -> predict ft bpp orig prev k = 0) as Hz.
  { intros k Hk. unfold predict. rewrite E1. cbn [Z.eqb Pos.eqb PNG_FILTER_SUB]. unfold left_byte.
    destruct (Nat.leb_spec bpp k); [lia|done]. }
  destruct (Nat.le_gt_cases bpp (length orig)) as [Hle|Hgt].
  - rewrite <- (restored_unpredicted bpp) by done.
    replace (Z.to_nat (len orig - Z.of_nat bpp)) with (length orig - bpp)%nat by lia.
    apply restore_loop; [done|]. intros k Hk.
    rewrite (aget_ok _ _ (left_byte bpp orig k)); [rewrite bind_ok|lia|].
    + apply add_restored; [lia| |apply left_byte_range]. unfold predict. rewrite E1. done.
    + replace (Z.to_nat (Z.of_nat k - Z.of_nat bpp)) with (k - bpp)%nat by lia.
      rewrite restored_lt by lia. unfold left_byte. destruct (Nat.leb_spec bpp k); [done|lia].
  - replace (Z.to_nat (len orig - Z.of_nat bpp)) with 0%nat by lia. cbn [for_range]. f_equal.
    rewrite <- (restored_unpredicted (length orig)) by (intros; try apply Hz; lia). apply restored_all.
Qed.

Lemma unfilter_up :
  ft = PNG_FILTER_UP ->
  match prev with
  | None => Ok (restored 0)
  | Some p => for_range (Z.to_nat (len orig)) 0 (fun index row => u <- aget p index ;; add_to row index u) (restored 0)
  end = Ok orig.
Proof.
  intros E2. assert (forall q, q = prev -> match q with None => Ok (restored 0) | Some p =>
    for_range (Z.to_nat (len orig)) 0 (fun index row => u <- aget p index ;; add_to row index u) (restored 0) end = Ok orig)
    as Hq; [|by apply Hq].
  intros [p|] Hq.
  - apply restore_rows. intros k Hk. pose proof (aget_above k Hk) as Ha. rewrite <- Hq in Ha. cbn [above] in Ha.
    rewrite Ha, bind_ok. rewrite Hq. apply add_restored; [done| |apply up_byte_range].
    unfold predict. by rewrite E2.
  - f_equal. apply unpredicted. intros j. unfold predict. rewrite E2, <- Hq. done.
Qed.

Lemma unfilter_filter :
  0 <= ft <= 4 ->
  png_unfilter_row (filter_row ft bpp orig prev) prev (len orig) (Z.of_nat bpp) ft = Ok orig.
Proof.
  intros Hft. unfold png_unfilter_row. destruct (Z.eqb_spec (Z.of_nat bpp) 0); [lia|]. rewrite <- restored_0.
  destruct (Z.eqb_spec ft PNG_FILTER_NONE) as [E0|N0].
  { f_equal. apply unpredicted. intros j. by rewrite E0. }
  destruct (Z.eqb_spec ft PNG_FILTER_SUB) as [E1|N1]; [by apply unfilter_sub|].
  destruct (Z.eqb_spec ft PNG_FILTER_UP) as [E2|N2]; [by apply unfilter_up|].
  destruct (Z.eqb_spec ft PNG_FILTER_AVERAGE) as [E3|N3].
  { apply restore_rows. intros k Hk. rewrite aget_left, bind_ok, aget_above, bind_ok by done.
    pose proof (left_byte_range k). pose proof (up_byte_range k).
    rewrite Z.shiftr_div_pow2 by lia. change (2 ^ 1) with 2.
    assert (0 <= (left_byte bpp orig k + up_byte prev k) / 2 < 256)
      by (split; [apply Z.div_pos; lia|apply Z.div_lt_upper_bound; lia]).
    rewrite u8_small by done. apply add_restored; [done| |lia]. unfold predict. by rewrite E3. }
  destruct (Z.eqb_spec ft PNG_FILTER_PAETH) as [E4|N4].
  2: { unfold PNG_FILTER_NONE, PNG_FILTER_SUB, PNG_FILTER_UP, PNG_FILTER_AVERAGE, PNG_FILTER_PAETH in *. lia. }
  apply restore_rows. intros k Hk. rewrite aget_left, bind_ok, aget_above, bind_ok by done.
  assert ((if Z.of_nat bpp <=? Z.of_nat k then above prev (Z.of_nat k - Z.of_nat bpp) else Ok 0) =
    Ok (up_left_byte bpp prev k)) as ->.
  { unfold up_left_byte. destruct (Z.leb_spec (Z.of_nat bpp) (Z.of_nat k)), (Nat.leb_spec bpp k); try lia; [|done].
    replace (Z.of_nat k - Z.of_nat bpp) with (Z.of_nat (k - bpp)) by lia. apply aget_above. lia. }
  rewrite bind_ok, paeth_predictor_paeth. pose proof (left_byte_range k). pose proof (up_byte_range k).
  pose proof (up_left_byte_range k). apply add_restored; [done| |].
  - unfold predict. by rewrite E4.
  - destruct (paeth_choice (left_byte bpp orig k) (up_byte prev k) (up_left_byte bpp prev k)) as [->|[->| ->]]; lia.
Qed.
End Unfilter.

(** ** Every row *)
Definition row_ok (n : nat) (row : list Z) : Prop := bytes row /\ length row = n.

Lemma wp_add_to n row i p :
  row_ok n row -> 0 <= i < Z.of_nat n -> wp (add_to row i p) (row_ok n) is_error.
Proof.
  intros [Hb Hl] Hi. unfold add_to. apply wp_bind, wp_aget; [lia|]. intros x Hx. apply wp_aset; [lia|].
  split; [|by rewrite length_insert]. apply Forall_insert; [done|]. apply u8_range.
Qed.

Lemma wp_above n prev i :
  match prev with Some p => row_ok n p | None => True end -> 0 <= i < Z.of_nat n ->
  wp (above prev i) (fun _ => True) is_error.
Proof. intros Hp Hi. destruct prev as [p|]; [|done]. destruct Hp. apply wp_aget; [lia|done]. Qed.

Lemma wp_left_of n row bpp i :
  row_ok n row -> 0 < bpp -> 0 <= i < Z.of_nat n -> wp (left_of row bpp i) (fun _ => True) is_error.
Proof.
  intros [Hb Hl] Hbpp Hi. unfold left_of. destruct (Z.leb_spec bpp i); [|done]. apply wp_aget; [lia|done].
Qed.

(** A loop over the row that preserves its shape. *)
Lemma wp_row_loop n row (m : nat) start body :
  row_ok n row -> 0 <= start -> start + Z.of_nat m <= Z.max start (Z.of_nat n) ->
  (forall i r, start <= i < Z.of_nat n -> row_ok n r -> wp (body i r) (row_ok n) is_error) ->
  wp (for_range m start body row) (row_ok n) is_error.
Proof.
  intros Hr Hs Hm Hbody. apply wp_for_range with (I := fun _ r => row_ok n r); [done| |done].
  intros i r Hi Hok. apply Hbody; [lia|done].
Qed.

Lemma wp_unfilter n row prev bpp ft :
  row_ok n row -> match prev with Some p => row_ok n p | None => True end -> 0 < bpp ->
  wp (png_unfilter_row row prev (Z.of_nat n) bpp ft) (row_ok n) is_error.
Proof.
  intros Hr Hp Hbpp. unfold png_unfilter_row. destruct (Z.eqb_spec bpp 0); [lia|].
  destruct (ft =? PNG_FILTER_NONE); [done|].
  destruct (ft =? PNG_FILTER_SUB).
  { apply wp_row_loop; [done|lia|lia|]. intros i r Hi Hok. apply wp_bind, wp_aget; [destruct Hok; lia|].
    intros x _. apply wp_add_to; [done|lia]. }
  destruct (ft =? PNG_FILTER_UP).
  { destruct prev as [p|]; [|done]. apply wp_row_loop; [done|lia|lia|]. intros i r Hi Hok.
    apply wp_bind, wp_aget; [destruct Hp; lia|]. intros x _. by apply wp_add_to. }
  destruct (ft =? PNG_FILTER_AVERAGE).
  { apply wp_row_loop; [done|lia|lia|]. intros i r Hi Hok.
    apply wp_bind. eapply wp_post; [by apply (wp_left_of n)|]. intros l _.
    apply wp_bind. eapply wp_post; [by apply (wp_above n)|]. intros u _. by apply wp_add_to. }
  destruct (ft =? PNG_FILTER_PAETH); [|done].
  apply wp_row_loop; [done|lia|lia|]. intros i r Hi Hok.
  apply wp_bind. eapply wp_post; [by apply (wp_left_of n)|]. intros l _.
  apply wp_bind. eapply wp_post; [by apply (wp_above n)|]. intros u _.
  apply wp_bind. eapply wp_post with (Q := fun _ => True); [|intros; by apply wp_add_to].
  destruct (Z.leb_spec bpp i); [|done]. apply (wp_above n); [done|lia].
Qed.

(** ** Drawing *)

(** A pixel of a decoded row, in arithmetic. *)
Definition channel (row : list Z) (i : Z) : Z := nth (Z.to_nat i) row 0.
Definition pack_argb (a r g b : Z) : Z := a * 2 ^ 24 + r * 2 ^ 16 + g * 2 ^ 8 + b.

Definition pixel_value (ct : Z) (row : list Z) (x : Z) : Z :=
  if ct =? PNG_COLOR_TYPE_RGBA then
    pack_argb (channel row (4 * x + 3)) (channel row (4 * x)) (channel row (4 * x + 1)) (channel row (4 * x + 2))
  else if ct =? PNG_COLOR_TYPE_RGB then
    pack_argb 255 (channel row (3 * x)) (channel row (3 * x + 1)) (channel row (3 * x + 2))
  else if ct =? PNG_COLOR_TYPE_GRAYSCALE then
    pack_argb 255 (channel row x) (channel row x) (channel row x)
  else
    pack_argb (channel row (2 * x + 1)) (channel row (2 * x)) (channel row (2 * x)) (channel row (2 * x)).

Lemma argb_pack a r g b :
  is_byte a -> is_byte r -> is_byte g -> is_byte b -> argb a r g b = pack_argb a r g b.
Proof.
  unfold is_byte. intros Ha Hr Hg Hb. unfold argb, pack_argb.
  rewrite !u32_small by (rewrite Z.shiftl_mul_pow2 by lia; lia).
  assert (forall x y z w, Z.lor (Z.lor (Z.lor x y) z) w = Z.lor (Z.lor (Z.lor w z) y) x) as ->.
  { intros x y z w. apply Z.bits_inj'. intros i _. rewrite !Z.lor_spec.
    by destruct (Z.testbit x i), (Z.testbit y i), (Z.testbit z i), (Z.testbit w i). }
  rewrite (lor_shiftl_add b), (lor_shiftl_add (b + _)), (lor_shiftl_add (b + _ + _)) by lia. lia.
Qed.

Lemma aget_channel row i : 0 <= i < len row -> aget row i = Ok (channel row i).
Proof. intros Hi. destruct (aget_lt row i Hi) as (x & -> & Hx). unfold channel. by rewrite nth_lookup, Hx. Qed.

Lemma channel_byte row i : bytes row -> is_byte (channel row i).
Proof. intros Hb. by apply nth_byte. Qed.

Lemma row_pixel_ok ct row x w :
  bytes row -> 0 < png_channels_for_color_type ct -> len row = w * png_channels_for_color_type ct ->
  w < 2 ^ 30 -> 0 <= x < w -> row_pixel ct row x = Ok (pixel_value ct row x).
Proof.
  intros Hb Hch Hl Hw Hx. unfold row_pixel, pixel_value, png_channels_for_color_type in *.
  pose proof (channel_byte row) as Hc.
  unfold PNG_COLOR_TYPE_GRAYSCALE, PNG_COLOR_TYPE_RGB, PNG_COLOR_TYPE_GRAY_ALPHA, PNG_COLOR_TYPE_RGBA in *.
  destruct (Z.eqb_spec ct 6) as [->|].
  { cbn [Z.eqb Pos.eqb] in *. cbv zeta. rewrite (u32_small (x * 4)) by lia. rewrite !u32_small by lia.
    rewrite !aget_channel by lia. rewrite !bind_ok, argb_pack by by apply Hc.
    by rewrite (Z.mul_comm x 4). }
  destruct (Z.eqb_spec ct 2) as [->|].
  { cbn [Z.eqb Pos.eqb] in *. cbv zeta. rewrite (u32_small (x * 3)) by lia. rewrite !u32_small by lia.
    rewrite !aget_channel by lia. rewrite !bind_ok, argb_pack; [by rewrite (Z.mul_comm x 3)|unfold is_byte; lia|by apply Hc..]. }
  destruct (Z.eqb_spec ct 0) as [->|].
  { cbn [Z.eqb] in *. rewrite aget_channel by lia. rewrite bind_ok, argb_pack; [done| |by apply Hc..].
    unfold is_byte. lia. }
  destruct (Z.eqb_spec ct 4) as [->|]; [|lia]. cbv zeta.
  rewrite (u32_small (x * 2)) by lia. rewrite !u32_small by lia.
  rewrite !aget_channel by lia. rewrite !bind_ok, argb_pack by by apply Hc. by rewrite (Z.mul_comm x 2).
Qed.

(** The pixels of a row that fit in [n] columns. *)
Definition row_pixels (ct : Z) (row : list Z) (n : nat) : list Z := map (pixel_value ct row) (seqZ 0 (Z.of_nat n)).

Lemma row_pixels_S ct row n : row_pixels ct row (S n) = row_pixels ct row n ++ [pixel_value ct row (Z.of_nat n)].
Proof.
  unfold row_pixels. rewrite Nat2Z.inj_succ, <- Z.add_1_r, seqZ_app by lia.
  rewrite map_app, Z.add_0_l. done.
Qed.

Lemma length_row_pixels ct row n : length (row_pixels ct row n) = n.
Proof. unfold row_pixels. rewrite length_map, length_seqZ. lia. Qed.

Section Blit.
Context (ct w cw ch dx dy : Z) (row canvas : list Z).
Hypothesis Hrow : bytes row.
Hypothesis Hct : 0 < png_channels_for_color_type ct.
Hypothesis Hlen : len row = w * png_channels_for_color_type ct.
Hypothesis Hw : 0 < w < 2 ^ 30.
Hypothesis Hcw : 0 < cw < 2 ^ 32.
Hypothesis Hch : 0 < ch < 2 ^ 32.
Hypothesis Hdx : 0 <= dx < cw.
Hypothesis Hdy : 0 <= dy < ch.
Hypothesis Hcanvas : cw * ch <= len canvas.
Hypothesis Hmax : len canvas < 2 ^ 62.

(** Columns of the row that fall inside the canvas. *)
Definition visible : nat := Z.to_nat (Z.min w (cw - dx)).
Definition drawn (k : nat) : list Z := splice canvas (Z.to_nat (dy * cw + dx)) (row_pixels ct row k).

Lemma base_range k : (k <= visible)%nat -> 0 <= dy * cw + dx /\ dy * cw + dx + Z.of_nat k <= len canvas.
Proof. unfold visible. intros Hk. nia. Qed.

Lemma length_drawn k : (k <= visible)%nat -> length (drawn k) = length canvas.
Proof.
  intros Hk. pose proof (base_range k Hk). unfold drawn. apply length_splice. rewrite length_row_pixels. lia.
Qed.

Lemma blit_loop_ok n k :
  (Z.of_nat k + Z.of_nat n = w) -> (k <= visible)%nat ->
  blit_loop n ct row (drawn k) cw dx dy (Z.of_nat k) = Ok (drawn visible).
Proof.
  revert k. induction n as [|n IH]; intros k Hk Hv; cbn [blit_loop].
  - f_equal. f_equal. unfold visible in *. lia.
  - pose proof (base_range k Hv) as Hbr. rewrite (u64_small (dx + _)) by (unfold visible in Hv; lia).
    destruct (Z.leb_spec cw (dx + Z.of_nat k)).
    { do 2 f_equal. unfold visible in *. lia. }
    rewrite (row_pixel_ok ct row (Z.of_nat k) w) by (done || lia). rewrite bind_ok.
    assert (S k <= visible)%nat as Hv' by (unfold visible; lia).
    pose proof (base_range (S k) Hv') as Hbr'.
    rewrite (u64_small (dy * cw)), (u64_small (dy * cw + dx)), u64_small by nia.
    rewrite aset_ok by (rewrite length_drawn by done; lia). rewrite bind_ok.
    replace (Z.of_nat k + 1) with (Z.of_nat (S k)) by lia. rewrite <- (IH (S k)); [|lia|done]. f_equal.
    unfold drawn. rewrite row_pixels_S, <- splice_snoc by (rewrite length_row_pixels; lia).
    rewrite length_row_pixels. f_equal. lia.
Qed.

Lemma blit_row_ok :
  png_blit_row row w canvas cw ch dx dy ct = Ok (drawn visible).
Proof.
  unfold png_blit_row. destruct (Z.eqb_spec cw 0); [lia|]. destruct (Z.eqb_spec ch 0); [lia|]. cbn [orb].
  destruct (Z.leb_spec ch dy); [lia|]. destruct (Z.leb_spec cw dx); [lia|].
  assert (((ct =? PNG_COLOR_TYPE_RGBA) || (ct =? PNG_COLOR_TYPE_RGB) || (ct =? PNG_COLOR_TYPE_GRAYSCALE) ||
    (ct =? PNG_COLOR_TYPE_GRAY_ALPHA)) = true) as ->.
  { unfold png_channels_for_color_type in Hct. destruct (ct =? PNG_COLOR_TYPE_GRAYSCALE), (ct =? PNG_COLOR_TYPE_RGB),
      (ct =? PNG_COLOR_TYPE_GRAY_ALPHA), (ct =? PNG_COLOR_TYPE_RGBA); done. }
  rewrite <- (blit_loop_ok (Z.to_nat w) 0) by lia. f_equal. unfold drawn. change (row_pixels ct row 0) with (@nil Z). by rewrite splice_nil.
Qed.
End Blit.

(** ** Theorems *)

(** C32: row filters.  For each of the five filter types, [png_unfilter_row]
    applied to a row filtered as the PNG specification prescribes, against the
    decoded previous row or none, returns the original row. *)
Theorem png_unfilter_row_inverts bpp row prev ft :
  (1 <= bpp)%nat -> bytes row ->
  match prev with Some p => bytes p /\ length p = length row | None => True end -> 0 <= ft <= 4 ->
  png_unfilter_row (filter_row ft bpp row prev) prev (len row) (Z.of_nat bpp) ft = Ok row.
Proof. apply unfilter_filter. Qed.

(** The Paeth predictor.  [png_paeth_predictor] returns the neighbour that
    is closest to left + up - up_left, preferring left, then up. *)
Theorem png_paeth_predictor_closest left up up_left :
  let p := left + up - up_left in
  let r := png_paeth_predictor left up up_left in
  (r = left \/ r = up \/ r = up_left) /\
  Z.abs (p - r) <= Z.abs (p - left) /\ Z.abs (p - r) <= Z.abs (p - up) /\
  Z.abs (p - r) <= Z.abs (p - up_left) /\
  (Z.abs (p - left) = Z.abs (p - r) -> r = left) /\
  (Z.abs (p - left) <> Z.abs (p - r) -> Z.abs (p - up) = Z.abs (p - r) -> r = up).
Proof.
  cbv zeta. rewrite paeth_predictor_paeth. unfold paeth. cbv zeta.
  destruct (Z.leb_spec (Z.abs (left + up - up_left - left)) (Z.abs (left + up - up_left - up)));
  destruct (Z.leb_spec (Z.abs (left + up - up_left - left)) (Z.abs (left + up - up_left - up_left)));
  destruct (Z.leb_spec (Z.abs (left + up - up_left - up)) (Z.abs (left + up - up_left - up_left))); cbn [andb]; lia.
Qed.

(** Drawing a row.  For a canvas of at least width times height pixels and
    a row inside it, [png_blit_row] succeeds and replaces exactly the pixels from
    the destination column to the right edge or the end of the row by the ARGB
    values of the source pixels, and no other. *)
Theorem png_blit_row_draws ct w cw ch dx dy row canvas :
  bytes row -> 0 < png_channels_for_color_type ct -> len row = w * png_channels_for_color_type ct ->
  0 < w < 2 ^ 30 -> 0 < cw < 2 ^ 32 -> 0 < ch < 2 ^ 32 -> 0 <= dx < cw -> 0 <= dy < ch ->
  cw * ch <= len canvas -> len canvas < 2 ^ 62 ->
  png_blit_row row w canvas cw ch dx dy ct =
  Ok (splice canvas (Z.to_nat (dy * cw + dx)) (row_pixels ct row (Z.to_nat (Z.min w (cw - dx))))).
Proof. intros. by apply blit_row_ok. Qed.
