(* ===== verification/PngFile.v ===== *)
(** The PNG library's file layer (applications/libs/png/png.c): chunks, growable
    buffers, reading a file and rendering an image.

    Computations run over the state the code shares: the blocks obtained from the
    kernel allocator and not yet released, and the caller's canvas.  Both survive
    an error, so an error carries the state; an access outside a buffer, and the
    release of a block that is not held, are [Crash].

    What the library calls is an interface, [PngPlatform]: [alloc k n] is what
    the [k]-th allocation, of [n] bytes, returns (its contents are arbitrary),
    and [readFile path off n] the result and the bytes of a read. *)
From stdpp Require Import base list numbers gmap.
From Stdlib Require Import ZArith Lia.
From S2P Require Import Prelude PngBits PngInflate PngFilter.

Local Open Scope Z_scope.

(** ** State, errors *)
Record PngState : Type := mkPng {
  ps_next : nat;
  ps_live : gset nat;
  ps_canvas : list Z
}.

Inductive Out (A : Type) : Type :=
| Done (a : A) (s : PngState)
| Stop (c : Z) (s : PngState)
| Crash.
Arguments Done {A} _ _.
Arguments Stop {A} _ _.
Arguments Crash {A}.

Definition Run (A : Type) : Type := PngState -> Out A.

Definition ret {A} (a : A) : Run A := fun s => Done a s.
Definition stop {A} (c : Z) : Run A := fun s => Stop c s.
Definition andThen {A B} (m : Run A) (k : A -> Run B) : Run B := fun s =>
  match m s with
  | Done a s' => k a s'
  | Stop c s' => Stop c s'
  | Crash => Crash
  end.

Declare Scope run_scope.
Delimit Scope run_scope with run.
Notation "x <~ m ;; k" := (andThen m (fun x => k))
  (at level 20, m at level 99, k at level 200) : run_scope.
Notation "' pat <~ m ;; k" := (andThen m (fun x => match x with pat => k end))
  (at level 20, pat pattern, m at level 99, k at level 200) : run_scope.
Local Open Scope run_scope.

(** A pure step of the decoder. *)
Definition lift {A} (m : Exec A) : Run A := fun s =>
  match m with
  | Ok a => Done a s
  | Fail c => Stop c s
  | _ => Crash
  end.

Fixpoint run_iterate {S R} (fuel : nat) (step : S -> Run (S + R)) (s : S) : Run R :=
  match fuel with
  | O => fun _ => Crash
  | Datatypes.S n => x <~ step s ;; match x with inl s' => run_iterate n step s' | inr r => ret r end
  end.

Fixpoint run_for {S} (n : nat) (i : Z) (body : Z -> S -> Run S) (s : S) : Run S :=
  match n with
  | O => ret s
  | Datatypes.S n' => s' <~ body i s ;; run_for n' (i + 1) body s'
  end.

(** ** Blocks of memory *)
Record Buf : Type := mkBuf { b_id : nat; b_data : list Z }.

(** The bytes behind a pointer: none behind NULL. *)
Definition buf_data (b : option Buf) : list Z := match b with Some b => b_data b | None => [] end.
Definition with_data (b : option Buf) (d : list Z) : option Buf :=
  match b with Some b => Some (mkBuf (b_id b) d) | None => None end.

Definition png_release (b : option Buf) : Run unit := fun s =>
  match b with
  | None => Done tt s
  | Some b =>
      if decide (b_id b ∈ ps_live s) then
        Done tt (mkPng (ps_next s) (ps_live s ∖ {[b_id b]}) (ps_canvas s))
      else Crash
  end.

Fixpoint release_all (bs : list (option Buf)) : Run unit :=
  match bs with
  | [] => ret tt
  | b :: r => _ <~ png_release b ;; release_all r
  end.

(** [if (status != StatusOK) { png_release(...); return status; }] *)
Definition releasing {A} (bs : list (option Buf)) (m : Run A) : Run A := fun s =>
  match m s with
  | Stop c s' => (_ <~ release_all bs ;; stop c) s'
  | x => x
  end.

(** ** Headers *)
Record PngHeader : Type := mkPngHeader {
  width : Z;
  height : Z;
  bit_depth : Z;
  color_type : Z;
  compression_method : Z;
  filter_method : Z;
  interlace_method : Z
}.

Definition PNG_CHUNK_IHDR : Z := 0x49484452.
Definition PNG_CHUNK_IDAT : Z := 0x49444154.
Definition PNG_CHUNK_IEND : Z := 0x49454E44.
Definition PNG_CHUNK_PLTE : Z := 0x504C5445.

(** The chunk payload is at [off] of [data]. *)
Definition png_parse_ihdr (data : list Z) (off length : Z) : Exec PngHeader :=
  if negb (length =? 13) then Fail StatusInvalidArgument else
  (w <- png_read_be_u32 data off ;;
  h <- png_read_be_u32 data (off + 4) ;;
  depth <- aget data (off + 8) ;;
  color <- aget data (off + 9) ;;
  compression <- aget data (off + 10) ;;
  filter <- aget data (off + 11) ;;
  interlace <- aget data (off + 12) ;;
  if (w =? 0) || (h =? 0) || negb (compression =? 0) || negb (filter =? 0) || negb (interlace =? 0)
     || negb (depth =? 8) then Fail StatusNotSupported else
  let channels := png_channels_for_color_type color in
  if channels =? 0 then Fail StatusNotSupported else
  if (0x3FFFFFFF <? w) || (0x3FFFFFFF <? h) then Fail StatusNoSpace else
  Ok (mkPngHeader w h depth color compression filter interlace))%exec.

Definition png_get_info_from_bytes (bytes : option (list Z)) (size : Z) : Exec (Z * Z) :=
  match bytes with
  | None => Fail StatusInvalidArgument
  | Some b =>
      if size <? 33 then Fail StatusIoError else
      (sig <- png_has_signature bytes size ;;
      if negb sig then Fail StatusNotSupported else
      chunk_length <- png_read_be_u32 b PNG_SIGNATURE_SIZE ;;
      chunk_type <- png_read_be_u32 b (PNG_SIGNATURE_SIZE + 4) ;;
      if negb (chunk_length =? 13) || negb (chunk_type =? PNG_CHUNK_IHDR) then Fail StatusNotSupported else
      header <- png_parse_ihdr b (PNG_SIGNATURE_SIZE + 8) 13 ;;
      Ok (width header, height header))%exec
  end.

(** The caller's canvas; its pixels are part of the state. *)
Record RosPngMemory : Type := mkPngMemory {
  pm_x : Z;
  pm_y : Z;
  pm_width : Z;
  pm_height : Z;
  pm_buffer : bool
}.

Class PngPlatform : Type := {
  alloc : nat -> Z -> option (list Z);
  readFile : list Z -> Z -> Z -> Z * list Z
}.

(** What the heap and the file service promise: a block has the requested size,
    which no 62-bit address space exceeds, and a read returns no more than asked. *)
Class PngPlatformLaws (P : PngPlatform) : Prop := {
  alloc_block : forall k n d, alloc k n = Some d -> len d = n /\ bytes d /\ n < 2 ^ 62;
  read_result : forall path off n r d, 0 <= off -> 0 < n ->
    readFile path off n = (r, d) -> 0 <= r -> r <= n /\ len d = r /\ bytes d
}.

Section Library.
Context `{P : PngPlatform}.

Definition png_allocate (bytes : Z) : Run (option Buf) := fun s =>
  if bytes =? 0 then Done None s else
  match alloc (ps_next s) bytes with
  | None => Done None (mkPng (S (ps_next s)) (ps_live s) (ps_canvas s))
  | Some d =>
      Done (Some (mkBuf (ps_next s) d))
        (mkPng (S (ps_next s)) ({[ps_next s]} ∪ ps_live s) (ps_canvas s))
  end.

(** ** Growable buffers *)

(** One turn of [while (new_capacity < required_bytes)]. *)
Definition grow_step (required_bytes new_capacity : Z) : Exec (Z + Z) :=
  if negb (new_capacity <? required_bytes) then Ok (inr new_capacity) else
  if (2 ^ 64 - 1) / 2 <? new_capacity then Fail StatusNoMemory else
  Ok (inl (u64 (new_capacity * 2))).

(** Doubling from 1 passes every 64-bit size in 64 turns. *)
Definition grow_capacity (capacity required_bytes : Z) : Exec Z :=
  iterate 66 (grow_step required_bytes) (if capacity =? 0 then 4096 else capacity).

Definition png_reallocate_bytes (buffer : option Buf) (capacity used_bytes required_bytes : Z)
  : Run (option Buf * Z) :=
  if required_bytes <=? capacity then ret (buffer, capacity) else
  new_capacity <~ lift (grow_capacity capacity required_bytes) ;;
  replacement <~ png_allocate new_capacity ;;
  match replacement with
  | None => stop StatusNoMemory
  | Some r =>
      d <~ lift (copy_loop (Z.to_nat used_bytes) (b_data r) 0 (buf_data buffer) 0) ;;
      _ <~ png_release buffer ;;
      ret (Some (mkBuf (b_id r) d), new_capacity)
  end.

(** The bytes to append are at [off] of [data]. *)
Definition png_append_bytes (buffer : option Buf) (capacity size : Z) (data : list Z) (off length : Z)
  : Run (option Buf * Z * Z) :=
  let required_bytes := u64 (size + length) in
  '(buffer, capacity) <~ png_reallocate_bytes buffer capacity size required_bytes ;;
  d <~ lift (copy_loop (Z.to_nat length) (buf_data buffer) size data off) ;;
  ret (with_data buffer d, capacity, required_bytes).

(** ** Chunks *)
Record ParseState : Type := mkParse {
  pa_offset : Z;
  pa_header : PngHeader;
  pa_idat : option Buf;
  pa_capacity : Z;
  pa_size : Z;
  pa_saw_ihdr : bool
}.

(** What the chunk does to the header and the gathered IDAT bytes. *)
Definition handle_chunk (file_bytes : list Z) (p : ParseState) (chunk_length chunk_type : Z) : Run ParseState :=
  if chunk_type =? PNG_CHUNK_IHDR then
    header <~ releasing [pa_idat p] (lift (png_parse_ihdr file_bytes (pa_offset p) chunk_length)) ;;
    ret (mkParse (pa_offset p) header (pa_idat p) (pa_capacity p) (pa_size p) true)
  else if chunk_type =? PNG_CHUNK_IDAT then
    '(idat, capacity, size) <~ releasing [pa_idat p]
       (png_append_bytes (pa_idat p) (pa_capacity p) (pa_size p) file_bytes (pa_offset p) chunk_length) ;;
    ret (mkParse (pa_offset p) (pa_header p) idat capacity size (pa_saw_ihdr p))
  else if chunk_type =? PNG_CHUNK_PLTE then ret p
  else if Z.land chunk_type 0x20000000 =? 0 then
    releasing [pa_idat p] (stop StatusNotSupported)
  else ret p.

(** One turn of the chunk loop; [inr (p, saw_iend)] leaves it. *)
Definition chunk_step (file_bytes : list Z) (file_size : Z) (p : ParseState)
  : Run (ParseState + ParseState * bool) :=
  if negb (u64 (pa_offset p + 8) <=? file_size) then ret (inr (p, false)) else
  chunk_length <~ lift (png_read_be_u32 file_bytes (pa_offset p)) ;;
  chunk_type <~ lift (png_read_be_u32 file_bytes (u64 (pa_offset p + 4))) ;;
  let offset := u64 (u64 (pa_offset p + 4) + 4) in
  let p := mkParse offset (pa_header p) (pa_idat p) (pa_capacity p) (pa_size p) (pa_saw_ihdr p) in
  if file_size <? u64 (u64 (offset + chunk_length) + 4) then
    releasing [pa_idat p] (stop StatusIoError)
  else if chunk_type =? PNG_CHUNK_IEND then ret (inr (p, true))
  else
    p <~ handle_chunk file_bytes p chunk_length chunk_type ;;
    ret (inl (mkParse (u64 (pa_offset p + u64 (chunk_length + 4))) (pa_header p) (pa_idat p)
                (pa_capacity p) (pa_size p) (pa_saw_ihdr p))).

(** Every turn moves the offset by at least 12 bytes. *)
Definition png_parse_png_file (file_bytes : list Z) (file_size : Z) : Run (PngHeader * option Buf * Z) :=
  sig <~ lift (png_has_signature (Some file_bytes) file_size) ;;
  if negb sig then stop StatusNotSupported else
  '(p, saw_iend) <~ run_iterate (S (Z.to_nat file_size)) (chunk_step file_bytes file_size)
     (mkParse PNG_SIGNATURE_SIZE (mkPngHeader 0 0 0 0 0 0 0) None 0 0 false) ;;
  if negb (pa_saw_ihdr p) || negb saw_iend || (pa_size p =? 0) then
    releasing [pa_idat p] (stop StatusIoError)
  else ret (pa_header p, pa_idat p, pa_size p).

(** ** Rendering *)
Definition blit (row : list Z) (source_width canvas_width canvas_height dest_x dest_y color : Z) : Run unit :=
  fun s =>
    match png_blit_row row source_width (ps_canvas s) canvas_width canvas_height dest_x dest_y color with
    | Ok c => Done tt (mkPng (ps_next s) (ps_live s) c)
    | Fail c => Stop c s
    | _ => Crash
    end.

Record RowState : Type := mkRows {
  rs_current : option Buf;
  rs_previous : option Buf;
  rs_offset : Z
}.

(** One turn of the row loop. *)
Definition row_step (header : PngHeader) (memory : RosPngMemory) (row_bytes bytes_per_pixel : Z)
    (raw : option Buf) (row_index : Z) (st : RowState) : Run RowState :=
  let cleanup := [rs_previous st; rs_current st; raw] in
  filter_type <~ lift (aget (buf_data raw) (rs_offset st)) ;;
  let scanline_offset := u64 (rs_offset st + 1) in
  cur <~ lift (copy_loop (Z.to_nat (row_bytes - 1)) (buf_data (rs_current st)) 0 (buf_data raw) scanline_offset) ;;
  cur <~ releasing cleanup (lift (png_unfilter_row cur
           (if row_index =? 0 then None else Some (buf_data (rs_previous st)))
           (row_bytes - 1) bytes_per_pixel filter_type)) ;;
  _ <~ releasing cleanup (blit cur (width header) (pm_width memory) (pm_height memory) (pm_x memory)
         (u32 (pm_y memory + u32 row_index)) (color_type header)) ;;
  prev <~ lift (copy_loop (Z.to_nat (row_bytes - 1)) (buf_data (rs_previous st)) 0 cur 0) ;;
  ret (mkRows (with_data (rs_previous st) prev) (with_data (rs_current st) cur)
         (u64 (scanline_offset + (row_bytes - 1)))).

Definition png_render_memory_to_memory (bytes : option (list Z)) (size : Z) (memory : option RosPngMemory)
  : Run unit :=
  match bytes, memory with
  | Some b, Some mem =>
      if negb (pm_buffer mem) || (pm_width mem =? 0) || (pm_height mem =? 0) then stop StatusInvalidArgument else
      '(header, idat, idat_size) <~ png_parse_png_file b size ;;
      let channels := png_channels_for_color_type (color_type header) in
      if channels =? 0 then releasing [idat] (stop StatusNotSupported) else
      let row_bytes := u64 (u64 (width header * channels) + 1) in
      let raw_size := u64 (row_bytes * height header) in
      raw <~ png_allocate raw_size ;;
      match raw with
      | None => releasing [idat] (stop StatusNoMemory)
      | Some raw =>
          out <~ releasing [idat; Some raw]
                   (lift (png_inflate_zlib (buf_data idat) idat_size (b_data raw) raw_size)) ;;
          _ <~ png_release idat ;;
          let raw := Some (mkBuf (b_id raw) out) in
          current_row <~ png_allocate (row_bytes - 1) ;;
          match current_row with
          | None => releasing [raw] (stop StatusNoMemory)
          | Some _ =>
              previous_row <~ png_allocate (row_bytes - 1) ;;
              match previous_row with
              | None => releasing [current_row; raw] (stop StatusNoMemory)
              | Some _ =>
                  if (pm_width mem <=? pm_x mem) || (pm_height mem <=? pm_y mem) then
                    release_all [previous_row; current_row; raw]
                  else
                    st <~ run_for (Z.to_nat (height header)) 0
                            (row_step header mem row_bytes channels raw)
                            (mkRows current_row previous_row 0) ;;
                    release_all [rs_previous st; rs_current st; raw]
              end
          end
      end
  | _, _ => stop StatusInvalidArgument
  end.

(** ** Reading files *)

(** One turn of the read loop, over the buffer, its capacity and the size read. *)
Definition read_step (path : list Z) (p : option Buf * Z * Z) : Run (option Buf * Z * Z + option Buf * Z) :=
  let '(buffer, capacity, size) := p in
  let available := u64 (capacity - size) in
  if available =? 0 then
    '(buffer, capacity) <~ releasing [buffer] (png_reallocate_bytes buffer capacity size (u64 (capacity * 2))) ;;
    ret (inl (buffer, capacity, size))
  else
    let '(read_result, data) := readFile path size available in
    if read_result <? 0 then releasing [buffer] (stop read_result)
    else if read_result =? 0 then ret (inr (buffer, size))
    else
      d <~ lift (copy_loop (Z.to_nat read_result) (buf_data buffer) size data 0) ;;
      let size := u64 (size + read_result) in
      if read_result <? available then ret (inr (with_data buffer d, size))
      else ret (inl (with_data buffer d, capacity, size)).

(** Two turns per doubling of a capacity that stays below 2^62. *)
Definition png_read_entire_file (path : list Z) : Run (option Buf * Z) :=
  buffer <~ png_allocate 4096 ;;
  match buffer with
  | None => stop StatusNoMemory
  | Some _ =>
      '(buffer, size) <~ run_iterate 128 (read_step path) (buffer, 4096, 0) ;;
      if size =? 0 then releasing [buffer] (stop StatusIoError) else
      ret (buffer, size)
  end.

(** ** Entry points *)
Definition PngGetInfo (path : option (list Z)) : Exec (Z * Z) :=
  match path with
  | None => Fail StatusInvalidArgument
  | Some p =>
      let '(read_result, header_bytes) := readFile p 0 33 in
      if read_result <? 33 then Fail (if read_result <? 0 then read_result else StatusIoError)
      else png_get_info_from_bytes (Some header_bytes) 33
  end.

(** The size is a [U32] at the two entry points on memory. *)
Definition PngGetInfoFromMemory (bytes : option (list Z)) (size : Z) : Exec (Z * Z) :=
  png_get_info_from_bytes bytes (u32 size).

Definition PngRenderFileToMemory (path : option (list Z)) (memory : option RosPngMemory) : Run unit :=
  match path with
  | None => stop StatusInvalidArgument
  | Some p =>
      '(file_bytes, file_size) <~ png_read_entire_file p ;;
      _ <~ releasing [file_bytes]
             (png_render_memory_to_memory (Some (buf_data file_bytes)) file_size memory) ;;
      png_release file_bytes
  end.

Definition PngRenderMemoryToMemory (bytes : option (list Z)) (size : Z) (memory : option RosPngMemory) : Run unit :=
  png_render_memory_to_memory bytes (u32 size) memory.
End Library.
