(* ===== verification/PngFileProofs.v ===== *)
(** Reasoning about the PNG file layer: rules for [Run], ownership of blocks, and
    the refinement of the chunk parser to a reference on byte lists. *)
From stdpp Require Import base list numbers gmap.
From Stdlib Require Import ZArith Lia.
From S2P Require Import Prelude PngBits PngInflate PngFilter PngFile.

Local Open Scope Z_scope.
Local Open Scope run_scope.

(** ** Rules *)
Definition rwp {A} (m : Run A) (s : PngState) (Q : A -> PngState -> Prop) (E : Z -> PngState -> Prop) : Prop :=
  match m s with
  | Done a s' => Q a s'
  | Stop c s' => E c s'
  | Crash => False
  end.

Lemma rwp_ret {A} (a : A) s (Q : A -> PngState -> Prop) E : Q a s -> rwp (ret a) s Q E.
Proof. done. Qed.

Lemma rwp_stop {A} c s (Q : A -> PngState -> Prop) (E : Z -> PngState -> Prop) : E c s -> rwp (stop c) s Q E.
Proof. done. Qed.

Lemma rwp_bind {A B} (m : Run A) (k : A -> Run B) s Q E :
  rwp m s (fun a s' => rwp (k a) s' Q E) E -> rwp (andThen m k) s Q E.
Proof. unfold rwp, andThen. by destruct (m s). Qed.

Lemma rwp_mono {A} (m : Run A) s (Q Q' : A -> PngState -> Prop) (E E' : Z -> PngState -> Prop) :
  rwp m s Q E -> (forall a s', Q a s' -> Q' a s') -> (forall c s', E c s' -> E' c s') -> rwp m s Q' E'.
Proof. unfold rwp. destruct (m s); auto. Qed.

Lemma rwp_post {A} (m : Run A) s (Q Q' : A -> PngState -> Prop) (E : Z -> PngState -> Prop) :
  rwp m s Q E -> (forall a s', Q a s' -> Q' a s') -> rwp m s Q' E.
Proof. unfold rwp. destruct (m s); auto. Qed.

Lemma rwp_lift {A} (m : Exec A) s Q E :
  wp m (fun a => Q a s) (fun c => E c s) -> rwp (lift m) s Q E.
Proof. unfold rwp, lift. by destruct m. Qed.

Lemma rwp_iterate {S R} (fuel : nat) (step : S -> Run (S + R)) (x : S) s
    (I : S -> PngState -> Prop) (m : S -> nat) Q E :
  (forall t s, I t s ->
     rwp (step t) s (fun r s' => match r with
                                 | inl t' => I t' s' /\ (m t' < m t)%nat
                                 | inr y => Q y s'
                                 end) E) ->
  I x s -> (m x < fuel)%nat -> rwp (run_iterate fuel step x) s Q E.
Proof.
  intros Hstep. revert x s. induction fuel as [|fuel IH]; intros x s Hx Hm; [lia|]. cbn [run_iterate].
  apply rwp_bind. eapply rwp_post; [by apply Hstep|]. intros [t|y] s'; [|done].
  intros [Ht Hlt]. apply IH; [done|lia].
Qed.

Lemma rwp_for {S} (n : nat) (start : Z) (body : Z -> S -> Run S) (x : S) s
    (I : Z -> S -> PngState -> Prop) E :
  I start x s ->
  (forall i t s, start <= i < start + Z.of_nat n -> I i t s -> rwp (body i t) s (I (i + 1)) E) ->
  rwp (run_for n start body x) s (I (start + Z.of_nat n)) E.
Proof.
  revert start x s. induction n as [|n IH]; intros start x s Hx Hb; cbn [run_for].
  - apply rwp_ret. by replace (start + Z.of_nat 0) with start by lia.
  - apply rwp_bind. eapply rwp_post; [apply Hb; [lia|done]|]. intros t s' Ht.
    replace (start + Z.of_nat (Datatypes.S n)) with (start + 1 + Z.of_nat n) by lia.
    apply IH; [done|]. intros i u s2 Hi Hu. apply Hb; [lia|done].
Qed.

(** ** Ownership

    [held L0 c ids s]: beyond the blocks [L0] of the caller the state holds
    exactly the blocks [ids], and the canvas is [c]. *)
Record held (L0 : gset nat) (c : list Z) (ids : list nat) (s : PngState) : Prop := {
  hd_live : ps_live s = L0 ∪ list_to_set ids;
  hd_nodup : NoDup ids;
  hd_apart : forall i, i ∈ ids -> i ∉ L0;
  hd_next : forall i, i ∈ ps_live s -> (i < ps_next s)%nat;
  hd_canvas : ps_canvas s = c }.

Definition ids_of (bs : list (option Buf)) : list nat := omap (fun b => b_id <$> b) bs.

(** An error that released everything but [ids]. *)
Definition failed (L0 : gset nat) (c : list Z) (ids : list nat) (code : Z) (s : PngState) : Prop :=
  code <> 0 /\ held L0 c ids s.

Lemma held_perm L0 c ids ids' s : ids ≡ₚ ids' -> held L0 c ids s -> held L0 c ids' s.
Proof.
  intros Hp [Hl Hn Ha Hx Hc]. split; try done.
  - rewrite Hl. f_equal. by rewrite Hp.
  - by rewrite <- Hp.
  - intros i Hi. apply Ha. by rewrite Hp.
Qed.

(** Everything released: the caller's blocks are what is left. *)
Lemma held_nil L0 c s : held L0 c [] s -> ps_live s = L0.
Proof. intros [Hl _ _ _ _]. rewrite Hl. set_solver. Qed.

Lemma held_start s : (forall i, i ∈ ps_live s -> (i < ps_next s)%nat) -> held (ps_live s) (ps_canvas s) [] s.
Proof. intros Hx. split; try done; [set_solver|constructor|set_solver]. Qed.

Section Owned.
Context (L0 : gset nat).

Lemma rwp_release b c ids s E :
  held L0 c (ids_of [b] ++ ids) s -> rwp (png_release b) s (fun _ s' => held L0 c ids s') E.
Proof.
  intros [Hl Hn Ha Hx Hc]. destruct b as [b|]; [|done]. cbn in Hl, Hn, Ha. unfold rwp, png_release.
  rewrite decide_True by (rewrite Hl; set_solver). apply list.NoDup_cons in Hn as [Hni Hn].
  split; cbn [ps_live ps_next ps_canvas]; try done.
  - rewrite Hl. assert (b_id b ∉ L0) by (apply Ha; set_solver). set_solver.
  - intros i Hi. apply Ha. set_solver.
  - intros i Hi. apply Hx. set_solver.
Qed.

Lemma ids_of_cons b bs : ids_of (b :: bs) = ids_of [b] ++ ids_of bs.
Proof. unfold ids_of. destruct b; done. Qed.

Lemma rwp_release_all bs c ids s E :
  held L0 c (ids_of bs ++ ids) s -> rwp (release_all bs) s (fun _ s' => held L0 c ids s') E.
Proof.
  revert s. induction bs as [|b bs IH]; intros s Hh; cbn [release_all]; [done|].
  rewrite ids_of_cons, <- app_assoc in Hh. apply rwp_bind.
  eapply rwp_post; [by apply rwp_release|]. intros u s1 Hh1. by apply IH.
Qed.

(** The failure branch of a call. *)
Lemma rwp_releasing {A} bs (m : Run A) s c ids Q (E : Z -> PngState -> Prop) :
  rwp m s Q (fun code s' => held L0 c (ids_of bs ++ ids) s' /\ forall s2, held L0 c ids s2 -> E code s2) ->
  rwp (releasing bs m) s Q E.
Proof.
  unfold rwp, releasing. destruct (m s) as [a s'|code s'|]; [done| |done]. intros [Hh HE].
  pose proof (rwp_release_all bs c ids s' (fun _ _ => False) Hh) as Hr. unfold rwp in Hr.
  unfold andThen. destruct (release_all bs s') as [u s2|? ?|]; [|done..]. by apply HE.
Qed.

Lemma rwp_stop_releasing {A} bs code s c ids (Q : A -> PngState -> Prop) (E : Z -> PngState -> Prop) :
  held L0 c (ids_of bs ++ ids) s -> (forall s2, held L0 c ids s2 -> E code s2) ->
  rwp (releasing bs (stop code)) s Q E.
Proof. intros Hh HE. by apply (rwp_releasing _ _ _ c ids), rwp_stop. Qed.

Context `{PL : PngPlatformLaws}.

(** Some allocation of the platform fails. *)
Definition out_of_memory : Prop := exists k n, 0 < n /\ alloc k n = None.

Lemma rwp_allocate n c ids s E :
  held L0 c ids s -> 0 < n ->
  rwp (png_allocate n) s (fun b s' => held L0 c (ids_of [b] ++ ids) s' /\
    match b with Some b => len (b_data b) = n /\ bytes (b_data b) /\ n < 2 ^ 62 | None => out_of_memory end) E.
Proof.
  intros [Hl Hn Ha Hx Hc] Hpos. unfold rwp, png_allocate. destruct (Z.eqb_spec n 0); [lia|].
  assert (ps_next s ∉ ps_live s) as Hfresh by (intros Hi; apply Hx in Hi; lia).
  destruct (alloc (ps_next s) n) as [d|] eqn:Ed.
  - split; [|by apply (alloc_block _ _ _ Ed)]. split; cbn [ps_live ps_next ps_canvas ids_of omap list_omap app fmap option_fmap option_map b_id]; try done.
    + rewrite Hl. set_solver.
    + apply list.NoDup_cons. split; [|done]. intros Hi. apply Hfresh. rewrite Hl. set_solver.
    + intros i Hi. cbn in Hi. set_solver.
    + intros i Hi. apply elem_of_union in Hi as [Hi%elem_of_singleton|Hi]; [lia|]. apply Hx in Hi. lia.
  - split; [|by exists (ps_next s), n]. split; cbn; try done. intros i Hi. apply Hx in Hi. lia.
Qed.
End Owned.

(** ** Growable buffers *)
Lemma wp_grow_capacity capacity required :
  0 <= capacity < 2 ^ 62 -> required < 2 ^ 63 ->
  wp (grow_capacity capacity required) (fun c => required <= c /\ 0 < c) (fun _ => False).
Proof.
  intros Hc Hr. unfold grow_capacity.
  apply (wp_iterate _ _ _ (fun c => 0 < c < 2 ^ 64) (fun c => Z.to_nat (64 - Z.log2 c))).
  - intros c Hcr. unfold grow_step. destruct (Z.ltb_spec c required); cbn [negb]; [|apply wp_ok; lia].
    change ((2 ^ 64 - 1) / 2) with (2 ^ 63 - 1). destruct (Z.ltb_spec (2 ^ 63 - 1) c); [lia|].
    rewrite u64_small by lia. apply wp_ok. split; [lia|].
    rewrite Z.mul_comm, Z.log2_double by lia.
    assert (Z.log2 c < 64) by (apply Z.log2_lt_pow2; lia). lia.
  - destruct (Z.eqb_spec capacity 0); lia.
  - set (c := if capacity =? 0 then 4096 else capacity).
    assert (0 <= Z.log2 c) by apply Z.log2_nonneg. lia.
Qed.

(** A buffer of [cap] bytes whose first [size] bytes are [acc]. *)
Definition holds (b : option Buf) (cap size : Z) (acc : list Z) : Prop :=
  len (buf_data b) = cap /\ bytes (buf_data b) /\ 0 <= size <= cap /\ cap < 2 ^ 62 /\
  take (Z.to_nat size) (buf_data b) = acc /\ len acc = size.

Lemma take_splice_0 (l src : list Z) : take (length src) (splice l 0 src) = src.
Proof. unfold splice. rewrite take_0. cbn [app]. by rewrite take_app_length. Qed.

Section Buffers.
Context (L0 : gset nat).
Context `{PL : PngPlatformLaws}.

(** Only memory can run out; then the old buffer is still held. *)
Definition no_memory (c : list Z) (ids : list nat) (e : Z) (s : PngState) : Prop :=
  e = StatusNoMemory /\ out_of_memory /\ held L0 c ids s.

Lemma rwp_reallocate b cap size acc required c ids s :
  holds b cap size acc -> held L0 c (ids_of [b] ++ ids) s -> 0 <= required < 2 ^ 63 ->
  rwp (png_reallocate_bytes b cap size required) s
    (fun '(b', cap') s' => holds b' cap' size acc /\ required <= cap' /\ held L0 c (ids_of [b'] ++ ids) s')
    (no_memory c (ids_of [b] ++ ids)).
Proof.
  intros (Hl & Hb & Hs & Hm & Ht & Ha) Hh Hr. unfold png_reallocate_bytes.
  destruct (Z.leb_spec required cap); [by apply rwp_ret|].
  apply rwp_bind, rwp_lift. eapply wp_mono; [apply wp_grow_capacity; lia| |done].
  intros nc [Hnc Hpos]. apply rwp_bind. eapply rwp_post; [by apply rwp_allocate|].
  intros [r|] s1 [Hh1 Hr1]; [|by apply rwp_stop]. destruct Hr1 as (Hlr & Hbr & Hmr).
  apply rwp_bind, rwp_lift. rewrite copy_loop_ok by lia. cbn [wp].
  apply rwp_bind. eapply rwp_post.
  { apply (rwp_release L0 b c (b_id r :: ids)). eapply held_perm; [|exact Hh1]. cbn. destruct b; solve_Permutation. }
  intros u s2 Hh2. apply rwp_ret.
  assert (slice (buf_data b) (Z.to_nat 0) (Z.to_nat size) = acc) as -> by exact Ht.
  split_and!; [|lia|done]. unfold holds. cbn [buf_data b_data]. change (Z.to_nat 0) with 0%nat.
  split_and!; try done; try lia.
  - rewrite length_splice; lia.
  - apply bytes_splice; [done|]. rewrite <- Ht. by apply Forall_take.
  - replace (Z.to_nat size) with (length acc) by lia. apply take_splice_0.
Qed.

Lemma rwp_append b cap size acc data off n c ids s :
  holds b cap size acc -> held L0 c (ids_of [b] ++ ids) s -> bytes data ->
  0 <= off -> 0 <= n -> off + n <= len data -> len data < 2 ^ 62 ->
  rwp (png_append_bytes b cap size data off n) s
    (fun '(b', cap', size') s' =>
       holds b' cap' size' (acc ++ slice data (Z.to_nat off) (Z.to_nat n)) /\ held L0 c (ids_of [b'] ++ ids) s')
    (no_memory c (ids_of [b] ++ ids)).
Proof.
  intros Hb Hh Hd Ho Hn Hle Hmax. unfold png_append_bytes. cbv zeta.
  pose proof Hb as (_ & _ & Hs & Hcap & _ & _). rewrite u64_small by lia.
  apply rwp_bind. eapply rwp_post; [apply rwp_reallocate; [done|done|lia]|].
  intros [b' cap'] s1 ((Hl' & Hb' & Hs' & Hm' & Ht' & Ha') & Hreq & Hh1).
  apply rwp_bind, rwp_lift. rewrite copy_loop_ok by lia. cbn [wp]. apply rwp_ret.
  set (piece := slice data (Z.to_nat off) (Z.to_nat n)).
  assert (length piece = Z.to_nat n) as Hlp by (apply length_slice; lia).
  assert (buf_data (with_data b' (splice (buf_data b') (Z.to_nat size) piece)) =
    splice (buf_data b') (Z.to_nat size) piece) as Ew.
  { destruct b' as [b'|]; [done|]. cbn [with_data buf_data] in *. cbn in Hl'.
    assert (cap' = 0 /\ size = 0 /\ n = 0) as (-> & -> & ->) by lia.
    assert (piece = []) as -> by by apply length_zero_iff_nil. done. }
  assert (ids_of [with_data b' (splice (buf_data b') (Z.to_nat size) piece)] = ids_of [b']) as -> by by destruct b'.
  split; [|done]. unfold holds. rewrite Ew. split_and!; try lia.
  - rewrite length_splice; lia.
  - apply bytes_splice; [done|]. by apply Forall_take, Forall_drop.
  - unfold splice. rewrite Ht', app_assoc. apply take_app_length'. rewrite length_app. lia.
  - rewrite length_app. lia.
Qed.
End Buffers.

(** ** The PNG format, independently of the decoder *)
Definition png_signature : list Z := [137; 80; 78; 71; 13; 10; 26; 10].

(** A chunk type is four letters. *)
Definition chunk_IHDR : Z := be_value [73; 72; 68; 82].
Definition chunk_IDAT : Z := be_value [73; 68; 65; 84].
Definition chunk_IEND : Z := be_value [73; 69; 78; 68].
Definition chunk_PLTE : Z := be_value [80; 76; 84; 69].

(** Ancillary chunks have bit 5 of the first letter set: it is in lower case. *)
Definition ancillary (ty : Z) : bool := Z.testbit ty 29.

Definition samples_per_pixel (color : Z) : Z :=
  match color with 0 => 1 | 2 => 3 | 4 => 2 | 6 => 4 | _ => 0 end.

(** An IHDR payload: the layout of the format, and the images the library
    supports: 8 bits a sample, no palette, not interlaced, below 2^30 a side. *)
Definition ref_ihdr (p : list Z) : Exec PngHeader :=
  if negb (len p =? 13) then Fail StatusInvalidArgument else
  let h := mkPngHeader (be_value (take 4 p)) (be_value (slice p 4 4))
             (nth 8 p 0) (nth 9 p 0) (nth 10 p 0) (nth 11 p 0) (nth 12 p 0) in
  if (1 <=? width h) && (1 <=? height h) && (bit_depth h =? 8) && (1 <=? samples_per_pixel (color_type h)) &&
     (compression_method h =? 0) && (filter_method h =? 0) && (interlace_method h =? 0) then
    if (width h <? 2 ^ 30) && (height h <? 2 ^ 30) then Ok h else Fail StatusNoSpace
  else Fail StatusNotSupported.

Lemma samples_channels ct : png_channels_for_color_type ct = samples_per_pixel ct.
Proof.
  unfold png_channels_for_color_type, PNG_COLOR_TYPE_GRAYSCALE, PNG_COLOR_TYPE_RGB, PNG_COLOR_TYPE_GRAY_ALPHA,
    PNG_COLOR_TYPE_RGBA, samples_per_pixel.
  repeat match goal with |- context [if ?b =? ?c then _ else _] => destruct (Z.eqb_spec b c) as [->|]; [reflexivity|] end.
  destruct ct as [|p|p]; try done. do 3 (destruct p as [p|p|]; try done; try lia).
Qed.

(** ** Headers *)
Definition header_valid (h : PngHeader) : Prop :=
  0 < width h < 2 ^ 30 /\ 0 < height h < 2 ^ 30 /\ 0 < samples_per_pixel (color_type h) <= 4.

Lemma channels_range ct : 0 <= png_channels_for_color_type ct <= 4.
Proof.
  unfold png_channels_for_color_type.
  repeat match goal with |- context [if ?b then _ else _] => destruct b end; lia.
Qed.

Lemma wp_parse_ihdr data off n :
  bytes data -> 0 <= off -> off + n <= len data ->
  wp (png_parse_ihdr data off n) header_valid is_error.
Proof.
  intros Hb Ho Hn. unfold png_parse_ihdr. destruct (Z.eqb_spec n 13) as [->|]; cbn [negb]; [|done].
  destruct (read_be_u32_ok data off) as [-> Hw]; [done|lia|lia|]. rewrite bind_ok.
  destruct (read_be_u32_ok data (off + 4)) as [-> Hh]; [done|lia|lia|]. rewrite bind_ok.
  set (w := be_value (slice data (Z.to_nat off) 4)) in *. set (h := be_value (slice data (Z.to_nat (off + 4)) 4)) in *.
  apply wp_bind, wp_aget; [lia|]. intros depth _. apply wp_bind, wp_aget; [lia|]. intros color _.
  apply wp_bind, wp_aget; [lia|]. intros comp _. apply wp_bind, wp_aget; [lia|]. intros filt _.
  apply wp_bind, wp_aget; [lia|]. intros inter _.
  destruct (_ || _) eqn:Hbad; [done|]. cbv zeta. zbool. pose proof (channels_range color).
  destruct (Z.eqb_spec (png_channels_for_color_type color) 0); [done|].
  destruct (Z.ltb_spec 0x3FFFFFFF w); [done|]. cbn [orb]. destruct (Z.ltb_spec 0x3FFFFFFF h); [done|].
  apply wp_ok. unfold header_valid. cbn [width height color_type]. rewrite <- samples_channels. lia.
Qed.

Lemma aget_slice (data : list Z) off n k :
  0 <= off -> 0 <= k < n -> off + n <= len data ->
  aget (slice data (Z.to_nat off) (Z.to_nat n)) k = aget data (off + k).
Proof.
  intros Ho Hk Hl. destruct (aget_lt data (off + k)) as (x & -> & Hx); [lia|].
  apply aget_ok; [lia|]. rewrite lookup_slice by lia. rewrite <- Hx. f_equal. lia.
Qed.

Lemma parse_ihdr_slice data off n :
  0 <= off -> off + n <= len data ->
  png_parse_ihdr data off n = png_parse_ihdr (slice data (Z.to_nat off) (Z.to_nat n)) 0 n.
Proof.
  intros Ho Hl. unfold png_parse_ihdr. destruct (Z.eqb_spec n 13) as [->|]; [|done]. cbn [negb].
  unfold png_read_be_u32. rewrite !aget_slice by lia. rewrite <- !Z.add_assoc. by rewrite !Z.add_0_r.
Qed.

Lemma chunk_names :
  PNG_CHUNK_IHDR = chunk_IHDR /\ PNG_CHUNK_IDAT = chunk_IDAT /\ PNG_CHUNK_IEND = chunk_IEND /\
  PNG_CHUNK_PLTE = chunk_PLTE /\ kPngSignature = png_signature.
Proof. split_and!; reflexivity. Qed.

Ltac format_names :=
  let E1 := fresh in let E2 := fresh in let E3 := fresh in let E4 := fresh in let E5 := fresh in
  destruct chunk_names as (E1 & E2 & E3 & E4 & E5);
  rewrite ?E1, ?E2, ?E3, ?E4, ?E5 in *; clear E1 E2 E3 E4 E5.

Lemma ancillary_ok ty : 0 <= ty -> (Z.land ty 0x20000000 =? 0) = negb (ancillary ty).
Proof.
  intros Ht. unfold ancillary. change 0x20000000 with (2 ^ 29).
  destruct (Z.testbit ty 29) eqn:Hb; cbn [negb].
  - apply Z.eqb_neq. intros E. apply (f_equal (fun x => Z.testbit x 29)) in E.
    by rewrite Z.land_spec, Hb, Z.pow2_bits_true, Z.bits_0 in E by lia.
  - apply Z.eqb_eq, Z.bits_inj'. intros i Hi. rewrite Z.land_spec, Z.bits_0.
    destruct (decide (i = 29)) as [->|Hne]; [by rewrite Hb|].
    rewrite Z.pow2_bits_false by lia. apply andb_false_r.
Qed.

(** The decoder's IHDR parser is the reference. *)
Lemma parse_ihdr_ref p : bytes p -> png_parse_ihdr p 0 (len p) = ref_ihdr p.
Proof.
  intros Hb. unfold png_parse_ihdr, ref_ihdr. destruct (Z.eqb_spec (len p) 13) as [Hl|]; [|done]. cbn [negb].
  destruct (read_be_u32_ok p 0) as [-> Hw]; [done|lia|lia|]. rewrite bind_ok.
  destruct (read_be_u32_ok p (0 + 4)) as [-> Hh]; [done|lia|lia|]. rewrite bind_ok.
  change (slice p (Z.to_nat 0) 4) with (take 4 p) in *. change (slice p (Z.to_nat (0 + 4)) 4) with (slice p 4 4) in *.
  set (w := be_value (take 4 p)) in *. set (h := be_value (slice p 4 4)) in *.
  assert (forall k : nat, (k < 13)%nat -> aget p (0 + Z.of_nat k) = Ok (nth k p 0)) as Ha.
  { intros k Hk. destruct (lookup_lt_is_Some_2 p k) as [x Hx]; [lia|].
    apply aget_ok; [lia|]. by rewrite Z.add_0_l, Nat2Z.id, nth_lookup, Hx. }
  rewrite (Ha 8%nat ltac:(lia) : aget p (0 + 8) = _), (Ha 9%nat ltac:(lia) : aget p (0 + 9) = _),
    (Ha 10%nat ltac:(lia) : aget p (0 + 10) = _), (Ha 11%nat ltac:(lia) : aget p (0 + 11) = _),
    (Ha 12%nat ltac:(lia) : aget p (0 + 12) = _), !bind_ok. cbv zeta.
  cbn [width height bit_depth color_type compression_method filter_method interlace_method].
  rewrite samples_channels. set (ct := nth 9 p 0).
  assert (0 <= samples_per_pixel ct) as Hct by (rewrite <- samples_channels; apply channels_range).
  destruct (Z.leb_spec 1 w), (Z.eqb_spec w 0); try lia; cbn [orb andb]; [|done].
  destruct (Z.leb_spec 1 h), (Z.eqb_spec h 0); try lia; cbn [orb andb]; [|done].
  destruct (Z.eqb_spec (nth 8 p 0) 8), (Z.eqb_spec (nth 10 p 0) 0), (Z.eqb_spec (nth 11 p 0) 0),
    (Z.eqb_spec (nth 12 p 0) 0), (Z.leb_spec 1 (samples_per_pixel ct)), (Z.eqb_spec (samples_per_pixel ct) 0);
    try lia; cbn [orb andb negb]; try done.
  change (2 ^ 30) with 1073741824 in *.
  destruct (Z.ltb_spec 0x3FFFFFFF w), (Z.ltb_spec w 1073741824); try lia; cbn [orb andb]; [done|].
  destruct (Z.ltb_spec 0x3FFFFFFF h), (Z.ltb_spec h 1073741824); try lia; done.
Qed.

(** ** The chunk parser *)
Lemma signature_loop_total n data i :
  0 <= i -> i + Z.of_nat n <= 8 -> 8 <= len data -> exists b, signature_loop n data i = Ok b.
Proof.
  revert i. induction n as [|n IH]; intros i Hi Hn Hl; cbn [signature_loop]; [by exists true|].
  destruct (aget_lt data i) as (x & -> & _); [lia|]. rewrite bind_ok.
  destruct (aget_lt kPngSignature i) as (k & -> & _); [cbn; lia|]. rewrite bind_ok.
  destruct (negb _); [by exists false|]. apply IH; lia.
Qed.

Lemma signature_loop_app n data slack i :
  0 <= i -> i + Z.of_nat n <= len data -> signature_loop n (data ++ slack) i = signature_loop n data i.
Proof.
  revert i. induction n as [|n IH]; intros i Hi Hn; cbn [signature_loop]; [done|].
  destruct (aget_lt data i) as (x & Ex & Hx); [lia|]. rewrite Ex.
  rewrite (aget_ok (data ++ slack) i x) by (try lia; rewrite lookup_app_l by lia; done).
  rewrite IH by lia. done.
Qed.

Lemma signature_app data slack :
  png_has_signature (Some (data ++ slack)) (len data) = png_has_signature (Some data) (len data).
Proof.
  unfold png_has_signature. change PNG_SIGNATURE_SIZE with 8. destruct (Z.ltb_spec (len data) 8); [done|].
  apply signature_loop_app; lia.
Qed.

Lemma slice_cons (l : list Z) i n x : l !! i = Some x -> slice l i (S n) = x :: slice l (S i) n.
Proof. intros Hx. unfold slice. by rewrite (drop_S _ _ _ Hx). Qed.

Lemma signature_loop_slice n data i :
  0 <= i -> i + Z.of_nat n <= 8 -> i + Z.of_nat n <= len data ->
  signature_loop n data i = Ok (bool_decide (slice data (Z.to_nat i) n = slice png_signature (Z.to_nat i) n)).
Proof.
  revert i. induction n as [|n IH]; intros i Hi Hn Hl; cbn [signature_loop]; [by rewrite bool_decide_eq_true_2|].
  destruct (aget_lt data i) as (x & -> & Hx); [lia|]. rewrite bind_ok. format_names.
  destruct (aget_lt png_signature i) as (k & -> & Hk); [cbn [length png_signature]; lia|]. rewrite bind_ok.
  rewrite (slice_cons _ _ _ _ Hx), (slice_cons _ _ _ _ Hk). destruct (Z.eqb_spec x k) as [->|Hne]; cbn [negb].
  - rewrite IH by lia. replace (Z.to_nat (i + 1)) with (S (Z.to_nat i)) by lia.
    f_equal. apply bool_decide_ext. split; [by intros ->|by intros [= ?]].
  - rewrite bool_decide_eq_false_2; [done|]. by intros [= ? _].
Qed.

Lemma signature_ref data :
  png_has_signature (Some data) (len data) = Ok (bool_decide (take 8 data = png_signature)).
Proof.
  unfold png_has_signature. change PNG_SIGNATURE_SIZE with 8. destruct (Z.ltb_spec (len data) 8).
  { rewrite bool_decide_eq_false_2; [done|]. intros E. apply (f_equal length) in E. rewrite length_take in E. change (length png_signature) with 8%nat in E. lia. }
  rewrite (signature_loop_slice 8 data 0) by lia. unfold slice. change (Z.to_nat 0) with 0%nat. by rewrite !drop_0.
Qed.

Lemma signature_total data :
  exists b, png_has_signature (Some data) (len data) = Ok b /\ (b = true -> 8 <= len data).
Proof.
  rewrite signature_ref. eexists. split; [done|]. intros E%bool_decide_eq_true. apply (f_equal length) in E.
  rewrite length_take in E. change (length png_signature) with 8%nat in E. lia.
Qed.

(** How the loop ends: with the end mark seen or not. *)
Definition finish (hdr : option PngHeader) (idat : list Z) (iend : bool) : Exec (PngHeader * list Z) :=
  match hdr with
  | Some h => if iend && negb (len idat =? 0) then Ok (h, idat) else Fail StatusIoError
  | None => Fail StatusIoError
  end.

(** The chunks of a PNG file, on byte lists: the reference for the parser. *)
Fixpoint ref_chunks (fuel : nat) (rest : list Z) (hdr : option PngHeader) (idat : list Z)
  : Exec (PngHeader * list Z) :=
  match fuel with
  | O => NoFuel
  | S n =>
      if len rest <? 8 then finish hdr idat false else
      let l := be_value (take 4 rest) in
      let ty := be_value (slice rest 4 4) in
      if len rest <? 12 + l then Fail StatusIoError else
      let payload := slice rest 8 (Z.to_nat l) in
      let next := drop (12 + Z.to_nat l) rest in
      if ty =? chunk_IEND then finish hdr idat true
      else if ty =? chunk_IHDR then
        h <- ref_ihdr payload ;; ref_chunks n next (Some h) idat
      else if ty =? chunk_IDAT then ref_chunks n next hdr (idat ++ payload)
      else if (ty =? chunk_PLTE) || ancillary ty then ref_chunks n next hdr idat
      else Fail StatusNotSupported
  end.

Definition ref_parse (file : list Z) : Exec (PngHeader * list Z) :=
  if bool_decide (take 8 file = png_signature) then ref_chunks (S (length file)) (drop 8 file) None []
  else Fail StatusNotSupported.

Section Parser.
(** The file is in a buffer, with whatever follows it there. *)
Context (L0 : gset nat) (file slack : list Z).
Context `{PL : PngPlatformLaws}.
Definition data : list Z := file ++ slack.
Hypothesis Hfile : bytes data.
Hypothesis Hmax : len data < 2 ^ 62.

Lemma len_data : len file <= len data.
Proof. unfold data. rewrite length_app. lia. Qed.

Lemma slice_data o n : (o + n <= length file)%nat -> slice data o n = slice file o n.
Proof.
  intros Hn. unfold slice, data. rewrite drop_app_le by lia. apply take_app_le. rewrite length_drop. lia.
Qed.

Record parse_inv (c : list Z) (ids : list nat) (p : ParseState) (hdr : option PngHeader) (idat : list Z)
    (s : PngState) : Prop := {
  pi_buf : holds (pa_idat p) (pa_capacity p) (pa_size p) idat;
  pi_held : held L0 c (ids_of [pa_idat p] ++ ids) s;
  pi_offset : 0 <= pa_offset p <= len file;
  pi_saw : pa_saw_ihdr p = match hdr with Some _ => true | None => false end;
  pi_hdr : match hdr with Some h => pa_header p = h /\ header_valid h | None => True end }.

(** A refusal of the reference, or no memory. *)
Definition refused (r : Exec (PngHeader * list Z)) (c : list Z) (ids : list nat) (e : Z) (s : PngState) : Prop :=
  (r = Fail e \/ e = StatusNoMemory /\ out_of_memory) /\ e <> 0 /\ held L0 c ids s.

Lemma refused_stop {A} r code c ids b s (Q : A -> PngState -> Prop) :
  r = Fail code -> code <> 0 -> held L0 c (ids_of [b] ++ ids) s ->
  rwp (releasing [b] (stop code)) s Q (refused r c ids).
Proof. intros -> Hc Hh. apply (rwp_stop_releasing L0 _ _ _ c ids); [done|]. intros s2 Hs2. split_and!; auto. Qed.

(** One chunk that does not end the file. *)
Lemma rwp_handle_chunk c ids p hdr idat n ty fuel s :
  parse_inv c ids p hdr idat s -> 0 <= n < 2 ^ 32 -> 0 <= ty -> pa_offset p + n + 4 <= len file ->
  ty <> PNG_CHUNK_IEND ->
  let payload := slice file (Z.to_nat (pa_offset p)) (Z.to_nat n) in
  let next := drop (Z.to_nat (pa_offset p + n + 4)) file in
  let r := if ty =? chunk_IHDR then h <- ref_ihdr payload ;; ref_chunks fuel next (Some h) idat
           else if ty =? chunk_IDAT then ref_chunks fuel next hdr (idat ++ payload)
           else if (ty =? chunk_PLTE) || ancillary ty then ref_chunks fuel next hdr idat
           else Fail StatusNotSupported in
  rwp (handle_chunk data p n ty) s
    (fun p' s' => exists hdr' idat', parse_inv c ids p' hdr' idat' s' /\ pa_offset p' = pa_offset p /\
       r = ref_chunks fuel next hdr' idat')
    (refused r c ids).
Proof.
  pose proof len_data as Hld. intros [Hb Hh Ho Hsaw Hhdr] Hn Ht0 Hle Hty payload next. cbv zeta. unfold handle_chunk. rewrite ancillary_ok by done. format_names.
  destruct (ty =? chunk_IHDR).
  { apply rwp_bind. apply (rwp_releasing L0 _ _ _ c ids). apply rwp_lift.
    rewrite (parse_ihdr_slice data), slice_data by lia. fold payload.
    assert (wp (png_parse_ihdr payload 0 n) header_valid is_error) as Hwp.
    { apply wp_parse_ihdr; [unfold payload; rewrite <- slice_data by lia; by apply bytes_slice|lia|]. unfold payload. rewrite length_slice; lia. }
    replace (png_parse_ihdr payload 0 n) with (ref_ihdr payload) in *.
    2: { rewrite <- parse_ihdr_ref; [f_equal; unfold payload; rewrite length_slice; lia|].
         unfold payload; rewrite <- slice_data by lia; by apply bytes_slice. }
    destruct (ref_ihdr payload) as [h|e| |]; cbn [wp] in *; [| |done|done].
    - apply rwp_ret. exists (Some h), idat. rewrite bind_ok. by split_and!.
    - split; [done|]. intros s2 Hs2. split_and!; [by left|done|done]. }
  destruct (ty =? chunk_IDAT).
  { apply rwp_bind. apply (rwp_releasing L0 _ _ _ c ids).
    eapply rwp_mono; [apply (rwp_append L0 _ _ _ idat _ _ _ c ids); try done; lia| |].
    - intros [[b' cap'] size'] s' [Hb' Hh']. rewrite slice_data in Hb' by lia. apply rwp_ret. exists hdr, (idat ++ payload).
      by split_and!.
    - intros e s' (-> & Hom & Hs'). split; [done|]. intros s2 Hs2. split_and!; [by right|done|done]. }
  destruct (ty =? chunk_PLTE); cbn [orb].
  { apply rwp_ret. exists hdr, idat. split_and!; try done. }
  destruct (ancillary ty); cbn [negb]; [|by apply refused_stop].
  apply rwp_ret. exists hdr, idat. split_and!; try done.
Qed.

Lemma rwp_chunks c ids fuel p hdr idat s :
  parse_inv c ids p hdr idat s -> (Z.to_nat (len file - pa_offset p) < fuel)%nat ->
  let r := ref_chunks fuel (drop (Z.to_nat (pa_offset p)) file) hdr idat in
  rwp (run_iterate fuel (chunk_step data (len file)) p) s
    (fun '(p', iend) s' => exists hdr' idat', parse_inv c ids p' hdr' idat' s' /\ r = finish hdr' idat' iend)
    (refused r c ids).
Proof.
  pose proof len_data as Hld. revert p hdr idat s. induction fuel as [|fuel IH]; intros p hdr idat s Hp Hf; [lia|]. cbn [run_iterate ref_chunks].
  pose proof Hp as [Hb Hh Ho Hsaw Hhdr]. set (rest := drop (Z.to_nat (pa_offset p)) file).
  assert (len rest = len file - pa_offset p) as Hlr by (unfold rest; rewrite length_drop; lia).
  unfold chunk_step at 1. rewrite (u64_small (pa_offset p + 8)) by lia.
  destruct (Z.leb_spec (pa_offset p + 8) (len file)); cbn [negb].
  2: { destruct (Z.ltb_spec (len rest) 8); [|lia]. apply rwp_bind, rwp_ret, rwp_ret. by exists hdr, idat. }
  destruct (Z.ltb_spec (len rest) 8); [lia|]. cbv zeta.
  destruct (read_be_u32_ok data (pa_offset p)) as [-> R1]; [done|lia|lia|].
  rewrite (u64_small (pa_offset p + 4)) by lia.
  destruct (read_be_u32_ok data (pa_offset p + 4)) as [-> R2]; [done|lia|lia|].
  rewrite slice_data in R1, R2 |- * by lia. rewrite slice_data by lia.
  change (be_value (take 4 rest)) with (be_value (slice file (Z.to_nat (pa_offset p)) 4)).
  replace (slice rest 4 4) with (slice file (Z.to_nat (pa_offset p + 4)) 4).
  2: { unfold slice, rest. rewrite drop_drop. do 2 f_equal. lia. }
  set (n := be_value (slice file (Z.to_nat (pa_offset p)) 4)) in *.
  set (ty := be_value (slice file (Z.to_nat (pa_offset p + 4)) 4)) in *.
  apply rwp_bind, rwp_bind, rwp_lift. cbn [wp]. apply rwp_bind, rwp_lift. cbn [wp].
  replace (pa_offset p + 4 + 4) with (pa_offset p + 8) by lia.
  rewrite (u64_small (pa_offset p + 8)), (u64_small (pa_offset p + 8 + n)), (u64_small (pa_offset p + 8 + n + 4)) by lia.
  destruct (Z.ltb_spec (len file) (pa_offset p + 8 + n + 4)).
  { destruct (Z.ltb_spec (len rest) (12 + n)); [|lia]. cbn [pa_idat]. by apply refused_stop. }
  destruct (Z.ltb_spec (len rest) (12 + n)); [lia|].
  set (p1 := mkParse (pa_offset p + 8) (pa_header p) (pa_idat p) (pa_capacity p) (pa_size p) (pa_saw_ihdr p)).
  assert (parse_inv c ids p1 hdr idat s) as Hp1 by (split; cbn; try done; lia).
  change chunk_IEND with PNG_CHUNK_IEND. destruct (Z.eqb_spec ty PNG_CHUNK_IEND) as [Hiend|Hiend].
  { apply rwp_ret, rwp_ret. by exists hdr, idat. }
  apply rwp_bind.
  replace (slice rest 8 (Z.to_nat n)) with (slice file (Z.to_nat (pa_offset p1)) (Z.to_nat n)).
  2: { unfold slice, rest. cbn [p1 pa_offset]. rewrite drop_drop. do 2 f_equal. lia. }
  replace (drop (12 + Z.to_nat n) rest) with (drop (Z.to_nat (pa_offset p1 + n + 4)) file).
  2: { unfold rest. cbn [p1 pa_offset]. rewrite drop_drop. f_equal. lia. }
  eapply rwp_post; [apply (rwp_handle_chunk c ids p1 hdr idat n ty fuel s); [done|lia|lia|cbn; lia|done]|].
  intros p2 s2 (hdr' & idat' & Hp2 & Hoff & Hr). apply rwp_ret.
  rewrite Hoff. cbn [p1 pa_offset]. rewrite (u64_small (n + 4)), (u64_small (_ + (n + 4))) by lia.
  set (p3 := mkParse _ _ _ _ _ _). pose proof Hp2 as [Hb2 Hh2 Ho2 Hsaw2 Hhdr2].
  assert (parse_inv c ids p3 hdr' idat' s2) as Hp3 by (split; cbn; try done; lia).
  specialize (IH p3 hdr' idat' s2 Hp3 ltac:(cbn; lia)). cbv zeta in IH.
  replace (drop (Z.to_nat (pa_offset p3)) file) with (drop (Z.to_nat (pa_offset p1 + n + 4)) file) in IH
    by (cbn [p1 p3 pa_offset]; f_equal; lia).
  rewrite <- Hr in IH. exact IH.
Qed.

Lemma rwp_parse c ids s :
  held L0 c ids s ->
  rwp (png_parse_png_file data (len file)) s
    (fun '(h, b, n) s' => exists cap idat, ref_parse file = Ok (h, idat) /\ holds b cap n idat /\ 0 < n /\
       header_valid h /\ held L0 c (ids_of [b] ++ ids) s')
    (refused (ref_parse file) c ids).
Proof.
  intros Hh. unfold png_parse_png_file, ref_parse.
  unfold data. rewrite signature_app.
  destruct (signature_total file) as (sig & Es & Hsig). rewrite Es. rewrite signature_ref in Es. injection Es as <-.
  apply rwp_bind, rwp_lift. cbn [wp]. destruct (bool_decide _); cbn [negb].
  2: { apply rwp_stop. split_and!; [by left|done|done]. }
  rewrite Nat2Z.id. apply rwp_bind.
  eapply rwp_mono; [apply (rwp_chunks c ids _ _ None [] s)| |].
  - split; cbn [pa_idat pa_capacity pa_size pa_offset pa_saw_ihdr pa_header]; try done.
    + unfold holds. cbn [buf_data length]. split_and!; try done; try lia; apply List.Forall_nil.
    + specialize (Hsig eq_refl). unfold PNG_SIGNATURE_SIZE. lia.
  - cbn [pa_offset]. unfold PNG_SIGNATURE_SIZE. lia.
  - intros [p iend] s' (hdr & idat & [Hb Hh' Ho Hsaw Hhdr] & Hr). cbn [pa_offset] in Hr.
    change (Z.to_nat PNG_SIGNATURE_SIZE) with 8%nat in Hr. rewrite Hr. pose proof Hb as (_ & _ & Hs & _ & _ & Ha).
    rewrite Hsaw. destruct hdr as [h|]; cbn [negb orb finish].
    2: { by apply refused_stop. }
    rewrite <- Ha. destruct iend; cbn [negb orb andb]; [|by apply refused_stop].
    destruct (Z.eqb_spec (len idat) 0); cbn [negb]; [by apply refused_stop|].
    apply rwp_ret. destruct Hhdr as [-> Hv]. exists (pa_capacity p), idat. rewrite Ha. split_and!; try done. lia.
  - done.
Qed.
End Parser.
