(* ===== verification/PngRenderSpec.v ===== *)
(** Whole PNG files: an encoder of images into chunks, filtered scanlines and a
    zlib stream, and the proof that the renderer of applications/libs/png/png.c
    draws the encoded image and gives back every block it allocated.

    The renderer of applications/libs/png/png.c on arbitrary files (no access
    outside a buffer, every block released exactly once) and on encoded images
    (the canvas shows the image). *)
From stdpp Require Import base list numbers gmap.
From Stdlib Require Import ZArith Lia.
From S2P Require Import Prelude PngBits PngInflate PngInflateProofs PngDeflate PngDeflateSpec PngFilter PngFilterSpec PngFile PngFileProofs.

Local Open Scope Z_scope.
Local Open Scope run_scope.

(** ** Encoding a file *)
Record Chunk : Type := mkChunk { ck_type : Z; ck_data : list Z; ck_crc : list Z }.

(** The decoder does not look at the CRC. *)
Definition encode_chunk (k : Chunk) : list Z :=
  be32 (len (ck_data k)) ++ be32 (ck_type k) ++ ck_data k ++ ck_crc k.

Definition chunk_okb (k : Chunk) : bool :=
  forallb byteb (ck_data k) && (len (ck_data k) <? 2 ^ 31) && forallb byteb (ck_crc k) && (len (ck_crc k) =? 4) &&
  (0 <=? ck_type k) && (ck_type k <? 2 ^ 32).

(** A chunk between the header and the end mark: image data, a palette, or a
    type whose first letter is in lower case. *)
Definition inner_okb (k : Chunk) : bool :=
  chunk_okb k && negb (ck_type k =? chunk_IHDR) && negb (ck_type k =? chunk_IEND) &&
  ((ck_type k =? chunk_IDAT) || (ck_type k =? chunk_PLTE) || ancillary (ck_type k)).

Definition idat_of (ks : list Chunk) : list Z :=
  concat (map ck_data (filter (fun k => ck_type k = chunk_IDAT) ks)).

Definition ihdr_bytes (h : PngHeader) : list Z :=
  be32 (width h) ++ be32 (height h) ++ [8; color_type h; 0; 0; 0].

(** Headers the decoder accepts. *)
Definition header_okb (h : PngHeader) : bool :=
  (0 <? width h) && (width h <? 2 ^ 30) && (0 <? height h) && (height h <? 2 ^ 30) &&
  (bit_depth h =? 8) && (compression_method h =? 0) && (filter_method h =? 0) && (interlace_method h =? 0) &&
  (1 <=? samples_per_pixel (color_type h)).

Definition png_file (h : PngHeader) (ihdr_crc : list Z) (ks : list Chunk) (iend : Chunk) (trailer : list Z) : list Z :=
  png_signature ++ encode_chunk (mkChunk chunk_IHDR (ihdr_bytes h) ihdr_crc) ++
  concat (map encode_chunk ks) ++ encode_chunk iend ++ trailer.

(** A scanline is a filter type and a row of pixels. *)
Definition previous_of (lines : list (Z * list Z)) (i : nat) : option (list Z) :=
  match i with O => None | S j => snd <$> lines !! j end.

Definition scanlines (bpp : nat) (lines : list (Z * list Z)) : list (list Z) :=
  imap (fun i '(ft, row) => ft :: filter_row ft bpp row (previous_of lines i)) lines.

(** ** The image on the canvas

    Pixel [k] of the canvas after the rows [lines] have been drawn at the
    position of [mem]. *)
Definition draw_pixel (h : PngHeader) (mem : RosPngMemory) (lines : list (Z * list Z)) (k : nat) (old : Z) : Z :=
  let px := Z.of_nat k mod pm_width mem in
  let py := Z.of_nat k / pm_width mem in
  if (pm_x mem <=? px) && (px <? pm_x mem + width h) && (pm_y mem <=? py) && (py <? pm_height mem) then
    match lines !! Z.to_nat (py - pm_y mem) with
    | Some (_, row) => pixel_value (color_type h) row (px - pm_x mem)
    | None => old
    end
  else old.

Definition draw_image (h : PngHeader) (mem : RosPngMemory) (lines : list (Z * list Z)) (canvas : list Z) : list Z :=
  imap (draw_pixel h mem lines) canvas.

(** A canvas of at least [pm_width * pm_height] pixels. *)
Definition canvas_ok (mem : RosPngMemory) (canvas : list Z) : Prop :=
  0 <= pm_x mem < 2 ^ 32 /\ 0 <= pm_y mem < 2 ^ 32 /\ 0 <= pm_width mem < 2 ^ 32 /\ 0 <= pm_height mem < 2 ^ 32 /\
  (pm_buffer mem = true -> pm_width mem * pm_height mem <= len canvas) /\ len canvas < 2 ^ 62.

(** ** Parsing an encoded file *)
Lemma be_value_be32 v : 0 <= v < 2 ^ 32 -> be_value (be32 v) = v.
Proof. intros Hv. by apply be32_value. Qed.

Lemma chunk_okb_ok k :
  chunk_okb k = true ->
  bytes (ck_data k) /\ len (ck_data k) < 2 ^ 31 /\ bytes (ck_crc k) /\ length (ck_crc k) = 4%nat /\ 0 <= ck_type k < 2 ^ 32.
Proof.
  unfold chunk_okb. intros H. zbool. split_and!; try lia.
  all: apply List.Forall_forall; intros x Hx; apply byteb_spec; by eapply forallb_forall in Hx.
Qed.

(** The three fields of an encoded chunk, and what follows it. *)
Lemma encoded_chunk k rest :
  chunk_okb k = true ->
  let file := encode_chunk k ++ rest in
  len file = 12 + len (ck_data k) + len rest /\
  be_value (take 4 file) = len (ck_data k) /\ be_value (slice file 4 4) = ck_type k /\
  slice file 8 (length (ck_data k)) = ck_data k /\ drop (12 + length (ck_data k)) file = rest.
Proof.
  intros Hk. apply chunk_okb_ok in Hk as (_ & Hd & _ & Hc & Ht). cbv zeta. unfold encode_chunk. rewrite <- !app_assoc.
  split_and!.
  - rewrite !length_app. cbn [length be32]. lia.
  - rewrite take_app_length' by done. apply be_value_be32. lia.
  - unfold slice. rewrite drop_app_length', take_app_length' by done. by apply be_value_be32.
  - unfold slice. rewrite !(app_assoc (be32 _)), drop_app_length' by done. by apply take_app_length'.
  - rewrite !(app_assoc (be32 _)), !app_assoc. apply drop_app_length'. rewrite !length_app. cbn [length be32]. lia.
Qed.

Lemma idat_of_cons k ks :
  idat_of (k :: ks) = (if ck_type k =? chunk_IDAT then ck_data k else []) ++ idat_of ks.
Proof.
  unfold idat_of. destruct (Z.eqb_spec (ck_type k) chunk_IDAT).
  - by rewrite filter_cons_True.
  - by rewrite filter_cons_False.
Qed.

Lemma ref_chunks_inner fuel ks h idat rest :
  forallb inner_okb ks = true -> (length ks <= fuel)%nat ->
  ref_chunks fuel (concat (map encode_chunk ks) ++ rest) (Some h) idat =
  ref_chunks (fuel - length ks) rest (Some h) (idat ++ idat_of ks).
Proof.
  revert fuel idat. induction ks as [|k ks IH]; intros fuel idat Hok Hf.
  { cbn [map concat app length]. rewrite Nat.sub_0_r. unfold idat_of. cbn. by rewrite app_nil_r. }
  cbn [forallb] in Hok. apply andb_true_iff in Hok as [Hk Hks]. destruct fuel as [|fuel]; cbn [length] in Hf; [lia|].
  unfold inner_okb in Hk. cbn [map concat length]. rewrite <- app_assoc, idat_of_cons.
  rewrite !andb_true_iff in Hk. destruct Hk as [[[Hk Hn1] Hn2] Hty].
  destruct (encoded_chunk k (concat (map encode_chunk ks) ++ rest) Hk) as (Hl & Hn & Ht & Hp & Hr).
  cbn [ref_chunks]. rewrite Hn, Ht, Nat2Z.id, Hp, Hr, Hl.
  destruct (Z.ltb_spec (12 + len (ck_data k) + len (concat (map encode_chunk ks) ++ rest)) 8); [lia|].
  destruct (Z.ltb_spec (12 + len (ck_data k) + len (concat (map encode_chunk ks) ++ rest)) (12 + len (ck_data k))); [lia|].
  apply negb_true_iff in Hn1, Hn2. rewrite Hn1, Hn2. replace (S fuel - S (length ks))%nat with (fuel - length ks)%nat by lia.
  destruct (ck_type k =? chunk_IDAT).
  { rewrite IH by (done || lia). by rewrite app_assoc. }
  cbn [orb] in Hty. rewrite Hty. by apply IH; [|lia].
Qed.

Lemma parse_ihdr_encoded h :
  header_okb h = true -> ref_ihdr (ihdr_bytes h) = Ok h /\ bytes (ihdr_bytes h) /\ header_valid h.
Proof.
  unfold header_okb. intros Hh. zbool. pose proof (channels_range (color_type h)) as Hr. rewrite samples_channels in Hr.
  assert (bytes (ihdr_bytes h)) as Hb.
  { unfold ihdr_bytes. repeat (apply Forall_app; split); try (apply be32_value; lia).
    assert (0 <= color_type h < 256).
    { unfold samples_per_pixel in *. destruct (color_type h) as [|p|p]; [lia| |lia].
      do 3 (destruct p as [p|p|]; try lia). }
    repeat (apply List.Forall_cons; [unfold is_byte; lia|]). apply List.Forall_nil. }
  split_and!; [|done|unfold header_valid; lia].
  unfold ref_ihdr. change (len (ihdr_bytes h) =? 13) with true. cbn [negb].
  change (take 4 (ihdr_bytes h)) with (be32 (width h)). change (slice (ihdr_bytes h) 4 4) with (be32 (height h)).
  change (nth 8 (ihdr_bytes h) 0) with 8. change (nth 9 (ihdr_bytes h) 0) with (color_type h).
  change (nth 10 (ihdr_bytes h) 0) with 0. change (nth 11 (ihdr_bytes h) 0) with 0.
  change (nth 12 (ihdr_bytes h) 0) with 0. rewrite !be_value_be32 by lia. cbv zeta.
  cbn [width height bit_depth color_type compression_method filter_method interlace_method Z.eqb Pos.eqb].
  rewrite !(proj2 (Z.leb_le 1 _)), !(proj2 (Z.ltb_lt _ _)) by lia. cbn [andb].
  f_equal. destruct h; cbn in *. congruence.
Qed.

(** What makes an encoded file: the header, the inner chunks and the end mark. *)
Record file_ok (h : PngHeader) (ihdr_crc : list Z) (ks : list Chunk) (iend : Chunk) (trailer : list Z) : Prop := {
  fo_header : header_okb h = true;
  fo_crc : bytes ihdr_crc /\ length ihdr_crc = 4%nat;
  fo_inner : forallb inner_okb ks = true;
  fo_iend : chunk_okb iend = true /\ ck_type iend = chunk_IEND;
  fo_trailer : bytes trailer }.

Lemma encode_chunk_bytes k : chunk_okb k = true -> bytes (encode_chunk k).
Proof.
  intros Hk. apply chunk_okb_ok in Hk as (Hd & Hl & Hc & Hc4 & Ht). unfold encode_chunk.
  repeat (apply Forall_app; split); try done; apply be32_value; lia.
Qed.

Lemma signature_bytes : bytes png_signature.
Proof. repeat (apply List.Forall_cons; [unfold is_byte; lia|]). apply List.Forall_nil. Qed.

Lemma ihdr_chunk_okb h crc :
  header_okb h = true -> bytes crc -> length crc = 4%nat ->
  chunk_okb (mkChunk chunk_IHDR (ihdr_bytes h) crc) = true.
Proof.
  intros Hh Hc Hc4. destruct (parse_ihdr_encoded h Hh) as (_ & Hb & _).
  unfold chunk_okb. cbn [ck_data ck_crc ck_type].
  rewrite !(proj2 (forallb_forall byteb _)) by (intros x Hx; apply byteb_spec; eapply List.Forall_forall in Hx; done).
  rewrite Hc4. done.
Qed.

Section Encoded.
Context (h : PngHeader) (ihdr_crc : list Z) (ks : list Chunk) (iend : Chunk) (trailer : list Z).
Hypothesis Hok : file_ok h ihdr_crc ks iend trailer.

Let ihdr : Chunk := mkChunk chunk_IHDR (ihdr_bytes h) ihdr_crc.
Let file : list Z := png_file h ihdr_crc ks iend trailer.

Lemma png_file_bytes : bytes file.
Proof.
  destruct Hok as [Hh Hc Hin [Hi _] Ht]. unfold file, png_file.
  apply Forall_app; split; [|apply Forall_app; split; [|apply Forall_app; split; [|apply Forall_app; split; [|done]]]].
  - apply signature_bytes.
  - by apply encode_chunk_bytes, ihdr_chunk_okb; [|apply Hc..].
  - clear -Hin. induction ks as [|k r IH]; [apply List.Forall_nil|]. cbn [forallb] in Hin.
    apply andb_true_iff in Hin as [Hk Hr]. cbn [map concat]. apply Forall_app. split; [|by apply IH].
    apply encode_chunk_bytes. unfold inner_okb in Hk. rewrite !andb_true_iff in Hk. tauto.
  - by apply encode_chunk_bytes.
Qed.

Lemma length_inner : (length ks <= length (concat (map encode_chunk ks)))%nat.
Proof.
  clear. induction ks as [|k r IH]; [done|]. cbn [map concat length]. rewrite length_app.
  unfold encode_chunk at 1. rewrite length_app. cbn [length be32]. lia.
Qed.

Lemma ref_parse_encoded : idat_of ks <> [] -> ref_parse file = Ok (h, idat_of ks).
Proof.
  intros Hne. pose proof Hok as [Hh [Hc Hc4] Hin [Hi Hit] Ht]. destruct (parse_ihdr_encoded h Hh) as (Hp & Hb & Hv).
  unfold ref_parse. change (drop 8 file) with (encode_chunk ihdr ++ concat (map encode_chunk ks) ++ encode_chunk iend ++ trailer).
  rewrite bool_decide_eq_true_2 by done.
  assert (exists fuel, S (length file) = S (length ks + S fuel)) as [fuel ->].
  { exists (length file - length ks - 1)%nat. pose proof length_inner. unfold file, png_file.
    rewrite !length_app. cbn [length png_signature]. lia. }
  destruct (encoded_chunk ihdr (concat (map encode_chunk ks) ++ encode_chunk iend ++ trailer)
      (ihdr_chunk_okb h ihdr_crc Hh Hc Hc4))
    as (El & En & Et & Ep & Er).
  set (tail := concat (map encode_chunk ks) ++ encode_chunk iend ++ trailer) in *.
  cbn [ref_chunks]. rewrite En, Et, El, Nat2Z.id, Ep, Er. change (len (ck_data ihdr)) with 13.
  destruct (Z.ltb_spec (12 + 13 + len tail) 8); [lia|]. destruct (Z.ltb_spec (12 + 13 + len tail) (12 + 13)); [lia|].
  cbn [ck_type ck_data ihdr]. change (chunk_IHDR =? chunk_IEND) with false. rewrite Z.eqb_refl, Hp, bind_ok.
  unfold tail. rewrite ref_chunks_inner by (done || lia). replace (length ks + S fuel - length ks)%nat with (S fuel) by lia.
  destruct (encoded_chunk iend trailer Hi) as (Fl & Fn & Ft & _ & _).
  cbn [ref_chunks]. rewrite Fn, Ft, Fl, Hit.
  destruct (Z.ltb_spec (12 + len (ck_data iend) + len trailer) 8); [lia|].
  destruct (Z.ltb_spec (12 + len (ck_data iend) + len trailer) (12 + len (ck_data iend))); [lia|].
  rewrite Z.eqb_refl. cbn [finish app]. destruct (idat_of ks) as [|b l]; [done|]. done.
Qed.
End Encoded.

Definition channels (h : PngHeader) : Z := samples_per_pixel (color_type h).
Definition row_len (h : PngHeader) : nat := Z.to_nat (width h * channels h).

Lemma row_len_val h : header_valid h -> Z.of_nat (row_len h) = width h * channels h.
Proof. intros (Hw & _ & Hc). unfold row_len, channels in *. nia. Qed.

Lemma row_len_range h : header_valid h -> 0 < Z.of_nat (row_len h) < 2 ^ 32.
Proof. intros Hh. rewrite row_len_val by done. destruct Hh as (Hw & _ & Hc). unfold channels. nia. Qed.

(** ** One row *)
Section Rows.
Context (L0 : gset nat).
Context `{PL : PngPlatformLaws}.
Context (h : PngHeader) (mem : RosPngMemory) (c0 raw : list Z) (ir : nat).
Hypothesis Hh : header_valid h.
Hypothesis Hmem : canvas_ok mem c0.
Hypothesis Hbuf : pm_buffer mem = true.
Hypothesis Hsize : 0 < pm_width mem /\ 0 < pm_height mem.

Hypothesis Hraw : bytes raw /\ len raw = (Z.of_nat (row_len h) + 1) * height h.

(** The canvas after row [i] is drawn: the vertical position is a U32. *)
Definition draw_row (i : Z) (row canvas : list Z) : list Z :=
  let dy := u32 (pm_y mem + i) in
  if (pm_height mem <=? dy) || (pm_width mem <=? pm_x mem) then canvas
  else splice canvas (Z.to_nat (dy * pm_width mem + pm_x mem))
         (row_pixels (color_type h) row (Z.to_nat (Z.min (width h) (pm_width mem - pm_x mem)))).

Lemma blit_draw_row i row canvas :
  bytes row -> length row = (row_len h) -> length canvas = length c0 ->
  png_blit_row row (width h) canvas (pm_width mem) (pm_height mem) (pm_x mem) (u32 (pm_y mem + i)) (color_type h) =
  Ok (draw_row i row canvas).
Proof.
  intros Hr Hl Hc. pose proof (row_len_val h Hh) as Hrl. unfold channels in Hrl.
  destruct Hh as (Hw & _ & Hch). destruct Hmem as (Hx & Hy & Hcw & Hcht & Hfit & Hmax). specialize (Hfit Hbuf). pose proof (u32_range (pm_y mem + i)).
  unfold draw_row. cbv zeta. destruct (Z.leb_spec (pm_height mem) (u32 (pm_y mem + i))); cbn [orb].
  { unfold png_blit_row. destruct (Z.eqb_spec (pm_width mem) 0); [lia|]. destruct (Z.eqb_spec (pm_height mem) 0); [lia|].
    cbn [orb]. destruct (Z.leb_spec (pm_height mem) (u32 (pm_y mem + i))); [done|lia]. }
  destruct (Z.leb_spec (pm_width mem) (pm_x mem)).
  { unfold png_blit_row. destruct (Z.eqb_spec (pm_width mem) 0); [lia|]. destruct (Z.eqb_spec (pm_height mem) 0); [lia|].
    cbn [orb]. destruct (Z.leb_spec (pm_height mem) (u32 (pm_y mem + i))); [done|].
    destruct (Z.leb_spec (pm_width mem) (pm_x mem)); [done|lia]. }
  rewrite <- samples_channels in *. apply blit_row_ok; try done; lia.
Qed.

Lemma length_draw_row i row canvas :
  length canvas = length c0 -> length (draw_row i row canvas) = length c0.
Proof.
  intros Hc. destruct Hmem as (Hx & Hy & Hcw & Hcht & Hfit & Hmax). specialize (Hfit Hbuf).
  pose proof (u32_range (pm_y mem + i)). unfold draw_row. cbv zeta.
  destruct (Z.leb_spec (pm_height mem) (u32 (pm_y mem + i))); [done|]. cbn [orb].
  destruct (Z.leb_spec (pm_width mem) (pm_x mem)); [done|].
  rewrite length_splice; [done|]. rewrite length_row_pixels. nia.
Qed.

(** The loop's buffers before row [i], the canvas being [c]. *)
Record rows_at (i : Z) (prev : option (list Z)) (c : list Z) (st : RowState) (s : PngState) : Prop := {
  ra_bufs : exists ic ip dc dp,
    rs_current st = Some (mkBuf ic dc) /\ rs_previous st = Some (mkBuf ip dp) /\
    row_ok (row_len h) dc /\ row_ok (row_len h) dp /\ (if i =? 0 then prev = None else prev = Some dp) /\
    held L0 c [ip; ic; ir] s;
  ra_offset : rs_offset st = i * (Z.of_nat (row_len h) + 1);
  ra_canvas : length c = length c0 }.

(** The bytes of scanline [i] and what they unfilter to. *)
Definition line_at (i : Z) : list Z := slice raw (Z.to_nat (i * (Z.of_nat (row_len h) + 1))) (S (row_len h)).
Definition unfiltered (i : Z) (prev : option (list Z)) : Exec (list Z) :=
  png_unfilter_row (drop 1 (line_at i)) prev (Z.of_nat (row_len h)) (channels h) (nth 0 (line_at i) 0).

Lemma line_range i : 0 <= i < height h -> 0 <= i * (Z.of_nat (row_len h) + 1) /\ (i + 1) * (Z.of_nat (row_len h) + 1) <= len raw.
Proof. intros Hi. destruct Hraw as [_ Hl]. pose proof (row_len_range h Hh). nia. Qed.

Lemma raw_max : len raw < 2 ^ 63.
Proof. pose proof (row_len_range h Hh). destruct Hraw as [_ ->]. destruct Hh as (_ & Hhh & _). nia. Qed.

Lemma line_facts i :
  0 <= i < height h ->
  aget raw (i * (Z.of_nat (row_len h) + 1)) = Ok (nth 0 (line_at i) 0) /\
  slice raw (Z.to_nat (i * (Z.of_nat (row_len h) + 1) + 1)) (row_len h) = drop 1 (line_at i) /\
  row_ok (row_len h) (drop 1 (line_at i)).
Proof.
  intros Hi. pose proof (line_range i Hi) as [Hl0 Hl1]. destruct Hraw as [Hb _].
  assert (length (line_at i) = S (row_len h)) as Hl by (apply length_slice; lia).
  split_and!.
  - destruct (aget_lt raw (i * (Z.of_nat (row_len h) + 1))) as (x & -> & Hx); [pose proof (row_len_range h Hh); lia|].
    f_equal. rewrite nth_lookup. unfold line_at. rewrite lookup_slice, Nat.add_0_r, Hx by lia. done.
  - unfold line_at, slice. rewrite skipn_firstn_comm, drop_drop. f_equal; [lia|]. f_equal. lia.
  - split; [by apply Forall_drop, bytes_slice|]. rewrite length_drop. lia.
Qed.

(** Whatever the row holds: it is restored and drawn, or it is refused and
    every block is released. *)
Lemma rwp_row i prev c st s :
  0 <= i < height h -> rows_at i prev c st s ->
  rwp (row_step h mem (Z.of_nat (row_len h) + 1) (channels h) (Some (mkBuf ir raw)) i st) s
    (fun st' s' => exists row, unfiltered i prev = Ok row /\ rows_at (i + 1) (Some row) (draw_row i row c) st' s')
    (fun e s' => unfiltered i prev = Fail e /\ e <> 0 /\ held L0 c [] s').
Proof.
  intros Hi [(ic & ip & dc & dp & Ec & Ep & Hdc & Hdp & Hprev & Hheld) Hoff Hc].
  destruct (line_facts i Hi) as (Ef & El & Hrow). pose proof (line_range i Hi) as [Hl0 Hl1]. pose proof raw_max.
  pose proof (row_len_range h Hh) as Hrl. destruct Hh as (Hw & Hhh & Hch). unfold row_step. rewrite Hoff, Ec, Ep.
  cbn [buf_data b_data]. apply rwp_bind, rwp_lift. rewrite Ef. cbn [wp].
  rewrite u64_small by nia. replace (Z.of_nat (row_len h) + 1 - 1) with (Z.of_nat (row_len h)) by lia. rewrite Nat2Z.id.
  apply rwp_bind, rwp_lift. destruct Hdc as [Hbc Hlc]. destruct Hdp as [Hbp Hlp]. rewrite copy_loop_ok by nia. cbn [wp].
  rewrite El. assert (splice dc (Z.to_nat 0) (drop 1 (line_at i)) = drop 1 (line_at i)) as ->.
  { unfold splice. change (Z.to_nat 0) with 0%nat. rewrite take_0, (drop_ge dc), app_nil_r; [done|]. destruct Hrow. lia. }
  set (prevb := if i =? 0 then None else Some dp).
  assert (prevb = prev) as -> by (unfold prevb; by destruct (i =? 0)).
  set (cleanup := [Some (mkBuf ip dp); Some (mkBuf ic dc); Some (mkBuf ir raw)]).
  apply rwp_bind. apply (rwp_releasing L0 _ _ _ c []). apply rwp_lift.
  assert (wp (unfiltered i prev) (row_ok (row_len h)) is_error) as Hwp.
  { apply wp_unfilter; [done| |unfold channels; lia]. destruct prev as [p|]; [|done].
    destruct (i =? 0); [done|]. by injection Hprev as ->. }
  unfold unfiltered in *. destruct (png_unfilter_row _ _ _ _ _) as [row|e| |]; cbn [wp] in *; [| |done|done].
  2: { split; [done|]. intros s2 Hs2. split_and!; done. }
  destruct Hwp as [Hbr Hlr]. apply rwp_bind. apply (rwp_releasing L0 _ _ _ c []).
  unfold rwp at 1. unfold blit. rewrite (u32_small i) by lia. destruct Hheld as [Hv Hn Ha Hx Hcv]. rewrite Hcv.
  rewrite blit_draw_row by done. apply rwp_bind, rwp_lift. rewrite copy_loop_ok by lia. cbn [wp]. apply rwp_ret.
  assert (splice dp (Z.to_nat 0) (slice row (Z.to_nat 0) (row_len h)) = row) as ->.
  { unfold splice, slice. change (Z.to_nat 0) with 0%nat. rewrite take_0, drop_0, take_ge, (drop_ge dp), app_nil_r by lia. done. }
  exists row. split; [done|]. cbn [with_data]. split; cbn [rs_current rs_previous rs_offset].
  - exists ip, ic, row, row. split_and!; try done; [by destruct (Z.eqb_spec (i + 1) 0); [lia|]|].
    eapply held_perm; [|split; cbn [ps_live ps_next ps_canvas]; [exact Hv|exact Hn|exact Ha|exact Hx|reflexivity]].
    solve_Permutation.
  - rewrite u64_small by nia. lia.
  - by apply length_draw_row.
Qed.
End Rows.

(** ** The renderer

    [F] are the errors the input allows, [R h raw] holds of the inflated data
    and [I] of the canvas before each row: instances below make the data
    arbitrary, or an encoded image. *)
Section Render.
Context (L0 : gset nat).
Context `{PL : PngPlatformLaws}.
Context (file slack : list Z) (mem : RosPngMemory) (c0 : list Z).
Hypothesis Hfile : bytes (file ++ slack).
Hypothesis Hmax : len (file ++ slack) < 2 ^ 62.
Hypothesis Hmem : canvas_ok mem c0.

Context (F : Z -> Prop) (R : PngHeader -> list Z -> Prop).
Context (I : PngHeader -> list Z -> Z -> option (list Z) -> list Z -> Prop).
Hypothesis Hbad : pm_buffer mem = false \/ pm_width mem = 0 \/ pm_height mem = 0 -> F StatusInvalidArgument.
Hypothesis Hparse : forall e, ref_parse file = Fail e -> e <> 0 -> F e.
Hypothesis Hdata : forall h idat rest init,
  ref_parse file = Ok (h, idat) -> header_valid h -> bytes (idat ++ rest) -> len idat < 2 ^ 62 -> bytes init ->
  len init < 2 ^ 62 -> len init = (Z.of_nat (row_len h) + 1) * height h ->
  wp (png_inflate_zlib (idat ++ rest) (len idat) init (len init))
    (fun raw => bytes raw /\ length raw = length init /\ R h raw) (fun e => F e /\ e <> 0).
Hypothesis Hstart : forall h raw, R h raw -> I h raw 0 None c0.
Hypothesis Hrows : forall h raw i prev c,
  pm_x mem < pm_width mem -> pm_y mem < pm_height mem -> R h raw -> 0 <= i < height h -> I h raw i prev c ->
  match unfiltered h raw i prev with
  | Ok row => I h raw (i + 1) (Some row) (draw_row h mem i row c)
  | Fail e => F e
  | _ => True
  end.

(** A failure: one the input allows, or an allocation that failed before
    anything was drawn. *)
Definition render_failed (e : Z) (s : PngState) : Prop :=
  (F e /\ e <> 0 /\ exists c, length c = length c0 /\ held L0 c [] s) \/
  (e = StatusNoMemory /\ out_of_memory /\ held L0 c0 [] s).

Lemma failed_no_memory {A} bs s (Q : A -> PngState -> Prop) :
  out_of_memory -> held L0 c0 (ids_of bs) s -> rwp (releasing bs (stop StatusNoMemory)) s Q render_failed.
Proof.
  intros Hom Hh. apply (rwp_stop_releasing L0 _ _ _ c0 []); [by rewrite app_nil_r|].
  intros s2 Hs2. by right.
Qed.

(** From the inflated data on. *)
Lemma rwp_render_rows h raw ir s :
  header_valid h -> R h raw -> bytes raw -> len raw = (Z.of_nat (row_len h) + 1) * height h ->
  pm_buffer mem = true -> 0 < pm_width mem -> 0 < pm_height mem -> held L0 c0 [ir] s ->
  rwp (current_row <~ png_allocate (Z.of_nat (row_len h)) ;;
       match current_row with
       | None => releasing [Some (mkBuf ir raw)] (stop StatusNoMemory)
       | Some _ =>
           previous_row <~ png_allocate (Z.of_nat (row_len h)) ;;
           match previous_row with
           | None => releasing [current_row; Some (mkBuf ir raw)] (stop StatusNoMemory)
           | Some _ =>
               if (pm_width mem <=? pm_x mem) || (pm_height mem <=? pm_y mem) then
                 release_all [previous_row; current_row; Some (mkBuf ir raw)]
               else
                 st <~ run_for (Z.to_nat (height h)) 0
                         (row_step h mem (Z.of_nat (row_len h) + 1) (channels h) (Some (mkBuf ir raw)))
                         (mkRows current_row previous_row 0) ;;
                 release_all [rs_previous st; rs_current st; Some (mkBuf ir raw)]
           end
       end) s
    (fun _ s' => exists c, length c = length c0 /\ held L0 c [] s' /\
       (if (pm_width mem <=? pm_x mem) || (pm_height mem <=? pm_y mem) then c = c0
        else exists prev, I h raw (height h) prev c))
    render_failed.
Proof.
  intros Hh HR Hb Hl Hbuf Hcw Hch Hheld. pose proof (row_len_range h Hh) as Hrl. pose proof Hh as (_ & Hhh & _).
  apply rwp_bind. eapply rwp_post; [apply (rwp_allocate L0 _ _ _ _ _ Hheld); lia|].
  intros [cur|] s1 [Hh1 Hc1]; [|by apply failed_no_memory]. destruct Hc1 as (Hlc & Hbc & _).
  apply rwp_bind. eapply rwp_post; [apply (rwp_allocate L0 _ _ _ _ _ Hh1); lia|].
  intros [prv|] s2 [Hh2 Hc2]; [|by apply failed_no_memory]. destruct Hc2 as (Hlp & Hbp & _).
  destruct (_ || _) eqn:Hclip.
  { eapply rwp_post; [apply (rwp_release_all L0 _ c0 []); by rewrite app_nil_r|]. intros u s3 Hs3. by exists c0. }
  apply orb_false_iff in Hclip. rewrite !Z.leb_gt in Hclip. destruct Hclip as [Hcx Hcy].
  apply rwp_bind. eapply rwp_post.
  { apply (rwp_for _ _ _ _ _ (fun i st s => exists prev c, rows_at L0 h c0 ir i prev c st s /\ I h raw i prev c)).
    - exists None, c0. split; [|by apply Hstart]. split; cbn [rs_current rs_previous rs_offset]; [|lia|done].
      destruct cur as [ic dc], prv as [ip dp]. exists ic, ip, dc, dp. cbn [b_id b_data] in *.
      split_and!; try done; split; done || lia.
    - intros i st s3 Hi (prev & c & Hat & HI). eapply rwp_mono.
      + apply (rwp_row L0 h mem c0 raw ir); try done; lia.
      + intros st' s4 (row & Hrow & Hat'). exists (Some row), (draw_row h mem i row c). split; [done|].
        pose proof (Hrows h raw i prev c Hcx Hcy HR ltac:(lia) HI) as Hn. by rewrite Hrow in Hn.
      + intros e s4 (He & Hne & Hh4). left. pose proof (Hrows h raw i prev c Hcx Hcy HR ltac:(lia) HI) as Hn.
        rewrite He in Hn. split_and!; try done. exists c. by destruct Hat. }
  intros st s3 (prev & c & [(ic & ip & dc & dp & -> & -> & _ & _ & _ & Hh3) _ Hc] & HI).
  eapply rwp_post; [apply (rwp_release_all L0 _ c []); rewrite app_nil_r; exact Hh3|]. intros u s4 Hs4.
  exists c. split_and!; try done. exists prev. rewrite Z2Nat.id, Z.add_0_l in HI by lia. done.
Qed.

Lemma rwp_render s :
  held L0 c0 [] s ->
  rwp (png_render_memory_to_memory (Some (file ++ slack)) (len file) (Some mem)) s
    (fun _ s' => exists h raw c, R h raw /\ length c = length c0 /\ held L0 c [] s' /\
       (if (pm_width mem <=? pm_x mem) || (pm_height mem <=? pm_y mem) then c = c0
        else exists prev, I h raw (height h) prev c))
    render_failed.
Proof.
  intros Hheld. unfold png_render_memory_to_memory. destruct (_ || _) eqn:Harg.
  { apply rwp_stop. left. split; [|split; [done|by exists c0]]. apply Hbad.
    rewrite !orb_true_iff, negb_true_iff, !Z.eqb_eq in Harg. tauto. }
  destruct Hmem as (_ & _ & Hcw & Hch & _). rewrite !orb_false_iff, negb_false_iff, !Z.eqb_neq in Harg.
  destruct Harg as [[Hbuf H1] H2]. apply rwp_bind. eapply rwp_mono; [apply (rwp_parse L0 file slack Hfile Hmax c0 [] s Hheld)| |].
  2: { intros e s' [[Hf|[-> Hom]] [Hne Hs']]; [left|by right]. split; [by apply Hparse|]. split; [done|]. by exists c0. }
  intros [[h b] n] s1 (cap & idat & Href & Hholds & Hpos & Hv & Hh1). rewrite app_nil_r in Hh1.
  pose proof (row_len_range h Hv) as Hrl. pose proof (row_len_val h Hv) as Hrv. pose proof Hv as (Hw & Hhh & Hc).
  rewrite samples_channels. fold (channels h) in Hc |- *. destruct (Z.eqb_spec (channels h) 0); [lia|]. cbv zeta.
  rewrite (u64_small (width h * channels h)), <- Hrv by lia. rewrite (u64_small (Z.of_nat (row_len h) + 1)) by lia.
  rewrite u64_small by nia. replace (Z.of_nat (row_len h) + 1 - 1) with (Z.of_nat (row_len h)) by lia.
  apply rwp_bind. eapply rwp_post; [apply (rwp_allocate L0 _ _ _ _ _ Hh1); nia|].
  intros [raw|] s2 [Hh2 Hr2]; [|by apply failed_no_memory]. destruct Hr2 as (Hlr & Hbr & Hmr).
  destruct Hholds as (Hlb & Hbb & Hn & Hcap & Htake & Hlen).
  pose proof (take_drop (Z.to_nat n) (buf_data b)) as Hsplit. rewrite Htake in Hsplit.
  apply rwp_bind. apply (rwp_releasing L0 _ _ _ c0 []). apply rwp_lift. rewrite <- Hlr, <- Hlen, <- Hsplit.
  rewrite <- Hsplit in Hbb. eapply wp_mono; [apply (Hdata h); try done; lia| |].
  2: { intros e [HF Hne]. split.
       - eapply held_perm; [|exact Hh2]. rewrite app_nil_r. cbn. destruct b; solve_Permutation.
       - intros s3 Hs3. left. split_and!; try done. by exists c0. }
  intros out (Hbo & Hlo & HR). apply rwp_bind. eapply rwp_post.
  { apply (rwp_release L0 b c0 [b_id raw]). eapply held_perm; [|exact Hh2]. cbn. destruct b; solve_Permutation. }
  intros u s3 Hh3. eapply rwp_post; [apply rwp_render_rows; try done; lia|].
  intros u2 s4 (c & Hlc & Hh4 & Hres). exists h, out, c. by split_and!.
Qed.
End Render.

(** ** Drawing row by row is drawing the image *)
Lemma draw_pixel_same h mem lines lines' k old :
  0 < pm_width mem ->
  (forall py, py = Z.of_nat k / pm_width mem -> pm_y mem <= py < pm_height mem ->
     pm_x mem <= Z.of_nat k mod pm_width mem < pm_x mem + width h ->
     lines !! Z.to_nat (py - pm_y mem) = lines' !! Z.to_nat (py - pm_y mem)) ->
  draw_pixel h mem lines k old = draw_pixel h mem lines' k old.
Proof.
  intros Hcw Hsame. unfold draw_pixel. cbv zeta. destruct (_ && _) eqn:Hin; [|done]. zbool.
  rewrite (Hsame _ eq_refl) by lia. done.
Qed.

Section Drawing.
Context (h : PngHeader) (mem : RosPngMemory) (lines : list (Z * list Z)) (c0 : list Z).
Hypothesis Hmem : canvas_ok mem c0.
Hypothesis Hbuf : pm_buffer mem = true.
Hypothesis Hsize : 0 < pm_width mem /\ 0 < pm_height mem.
Hypothesis Hw : 0 < width h.

Lemma length_draw_image ls : length (draw_image h mem ls c0) = length c0.
Proof. apply length_imap. Qed.

Lemma draw_image_nil : draw_image h mem [] c0 = c0.
Proof.
  apply list_eq. intros k. unfold draw_image. rewrite list_lookup_imap.
  destruct (c0 !! k) as [p|]; [|done]. cbn. f_equal. unfold draw_pixel. cbv zeta. destruct (_ && _); done.
Qed.

Lemma lookup_take_other {A} (l : list A) (i j : nat) : j <> i -> take (S i) l !! j = take i l !! j.
Proof.
  intros Hne. destruct (decide (j < i)%nat); [by rewrite !lookup_take_lt by lia|].
  rewrite !lookup_take_ge by lia. done.
Qed.

Lemma draw_row_image (i : nat) ft row :
  lines !! i = Some (ft, row) -> pm_y mem + Z.of_nat i < 2 ^ 32 ->
  draw_row h mem (Z.of_nat i) row (draw_image h mem (take i lines) c0) = draw_image h mem (take (S i) lines) c0.
Proof.
  intros Hi Hy32. destruct Hmem as (Hx & Hy & Hcw & Hch & Hfit & _). specialize (Hfit Hbuf). destruct Hsize as [Hcw0 Hch0].
  set (img := draw_image h mem (take i lines) c0). assert (length img = length c0) as Hlen by apply length_draw_image.
  assert (forall k, img !! k = draw_pixel h mem (take i lines) k <$> c0 !! k) as Hold by (intros k; apply list_lookup_imap).
  unfold draw_row. cbv zeta. rewrite u32_small by lia.
  set (dy := pm_y mem + Z.of_nat i). destruct (_ || _) eqn:Hclip.
  { apply list_eq. intros k. rewrite Hold. unfold draw_image. rewrite list_lookup_imap.
    destruct (c0 !! k) as [p|]; [|done]. cbn. f_equal. apply draw_pixel_same; [done|]. intros py -> Hpy Hpx.
    symmetry. apply lookup_take_other. pose proof (Z.mod_pos_bound (Z.of_nat k) (pm_width mem) Hcw0).
    apply orb_true_iff in Hclip. rewrite !Z.leb_le in Hclip. lia. }
  apply orb_false_iff in Hclip. rewrite !Z.leb_gt in Hclip. destruct Hclip as [Hdy Hxw].
  set (m := Z.min (width h) (pm_width mem - pm_x mem)). set (off := dy * pm_width mem + pm_x mem).
  assert (0 <= off /\ off + m <= len c0) as [Hoff Hend] by nia.
  apply list_eq. intros k. unfold draw_image at 1. rewrite list_lookup_imap.
  pose proof (Z.div_mod (Z.of_nat k) (pm_width mem) ltac:(lia)) as Hdm.
  pose proof (Z.mod_pos_bound (Z.of_nat k) (pm_width mem) Hcw0) as Hmod.
  set (px := Z.of_nat k mod pm_width mem) in *. set (py := Z.of_nat k / pm_width mem) in *.
  pose proof (length_row_pixels (color_type h) row (Z.to_nat m)) as Hlp.
  destruct (decide (off <= Z.of_nat k < off + m)) as [Hin|Hout].
  - assert (py = dy) as Epy by (unfold off, m in Hin; nia).
    assert (px = Z.of_nat k - dy * pm_width mem) as Epx by (rewrite Epy in Hdm; lia).
    rewrite lookup_splice_in by (rewrite ?Hlp, ?Hlen; lia).
    destruct (lookup_lt_is_Some_2 c0 k) as [p Hp]; [lia|]. rewrite Hp. cbn.
    unfold row_pixels. rewrite list_lookup_fmap, lookup_seqZ_lt by lia. cbn. f_equal.
    unfold draw_pixel. cbv zeta. fold px py. rewrite Epy.
    destruct (Z.leb_spec (pm_x mem) px); [|lia]. destruct (Z.ltb_spec px (pm_x mem + width h)); [|lia].
    destruct (Z.leb_spec (pm_y mem) dy); [|lia]. destruct (Z.ltb_spec dy (pm_height mem)); [|lia]. cbn [andb].
    replace (Z.to_nat (dy - pm_y mem)) with i by lia. rewrite lookup_take_lt, Hi by lia. f_equal. lia.
  - assert (splice img (Z.to_nat off) (row_pixels (color_type h) row (Z.to_nat m)) !! k = img !! k) as ->.
    { destruct (decide (Z.of_nat k < off)); [apply lookup_splice_lt; lia|apply lookup_splice_ge; lia]. }
    rewrite Hold. destruct (c0 !! k) as [p|]; [|done]. cbn. f_equal. apply draw_pixel_same; [done|].
    intros py' -> Hpy Hpx. fold py px in Hpy, Hpx |- *. symmetry. apply lookup_take_other. intros E. apply Hout.
    assert (py = dy) as Epy by lia. rewrite Epy in Hdm. lia.
Qed.
End Drawing.

(** ** Arbitrary files *)
Section Arbitrary.
Context (L0 : gset nat).
Context `{PL : PngPlatformLaws}.

(** Nothing is left allocated and the canvas keeps its size. *)
Definition released (c0 : list Z) (s : PngState) : Prop := exists c, length c = length c0 /\ held L0 c [] s.

Lemma rwp_render_safe file slack mem c0 s :
  bytes (file ++ slack) -> len (file ++ slack) < 2 ^ 62 -> canvas_ok mem c0 -> held L0 c0 [] s ->
  rwp (png_render_memory_to_memory (Some (file ++ slack)) (len file) (Some mem)) s
    (fun _ s' => released c0 s') (fun e s' => e <> 0 /\ released c0 s').
Proof.
  intros Hb Hm Hc Hh. eapply rwp_mono.
  - apply (rwp_render L0 file slack mem c0 Hb Hm Hc (fun _ => True) (fun _ _ => True) (fun _ _ _ _ _ => True)); try done.
    + intros h idat rest init _ _ Hbi Hli Hbn Hln _. eapply wp_mono; [apply wp_inflate; try done| |].
      * rewrite length_app. lia.
      * intros out (H1 & H2 & _). done.
      * done.
    + intros. by destruct (unfiltered _ _ _ _).
  - intros u s' (h & raw & c & _ & Hl & Hs & _). by exists c.
  - intros e s' [(_ & Hne & c & Hl & Hs)|(-> & _ & Hs)]; (split; [done|]); [by exists c|by exists c0].
Qed.
End Arbitrary.

(** ** Encoded images *)
Record image_ok (h : PngHeader) (lines : list (Z * list Z)) : Prop := {
  io_height : len lines = height h;
  io_lines : Forall (fun '(ft, row) => 0 <= ft <= 4 /\ bytes row /\ length row = row_len h) lines }.

Section Image.
Context (h : PngHeader) (lines : list (Z * list Z)).
Hypothesis Hv : header_valid h.
Hypothesis Himg : image_ok h lines.

Definition bpp : nat := Z.to_nat (channels h).
Definition raw_image : list Z := concat (scanlines bpp lines).

Lemma line_ok i ft row : lines !! i = Some (ft, row) -> 0 <= ft <= 4 /\ bytes row /\ length row = row_len h.
Proof. intros Hi. destruct Himg as [_ Hf]. eapply Forall_lookup_1 in Hi; [|exact Hf]. done. Qed.

Lemma scanlines_lookup i ft row :
  lines !! i = Some (ft, row) -> scanlines bpp lines !! i = Some (ft :: filter_row ft bpp row (previous_of lines i)).
Proof. intros Hi. unfold scanlines. by rewrite list_lookup_imap, Hi. Qed.

Lemma scanlines_uniform : Forall (fun l => length l = S (row_len h)) (scanlines bpp lines).
Proof.
  apply Forall_lookup. intros i l Hl. unfold scanlines in Hl. rewrite list_lookup_imap in Hl.
  destruct (lines !! i) as [[ft row]|] eqn:Hi; [|done]. injection Hl as <-. cbn [length].
  rewrite length_filter_row. f_equal. by apply (line_ok i ft row).
Qed.

Lemma length_raw_image : len raw_image = (Z.of_nat (row_len h) + 1) * height h.
Proof.
  unfold raw_image. rewrite (length_concat_uniform (S (row_len h))) by apply scanlines_uniform.
  unfold scanlines. rewrite length_imap. destruct Himg as [Hl _]. nia.
Qed.

Lemma raw_image_bytes : bytes raw_image.
Proof.
  unfold raw_image, bytes. apply Forall_concat, Forall_lookup. intros i l Hl. unfold scanlines in Hl.
  rewrite list_lookup_imap in Hl. destruct (lines !! i) as [[ft row]|] eqn:Hi; [|done]. injection Hl as <-.
  destruct (line_ok i ft row Hi) as (Hft & _). apply List.Forall_cons; [unfold is_byte; lia|].
  apply Forall_lookup. intros j x Hx. unfold filter_row in Hx. rewrite list_lookup_imap in Hx.
  destruct (row !! j); [|done]. injection Hx as <-. apply u8_range.
Qed.

Lemma unfiltered_line (i : nat) ft row :
  lines !! i = Some (ft, row) -> unfiltered h raw_image (Z.of_nat i) (previous_of lines i) = Ok row.
Proof.
  intros Hi. destruct (line_ok i ft row Hi) as (Hft & Hb & Hl). destruct Hv as (_ & _ & Hc).
  assert (line_at h raw_image (Z.of_nat i) = ft :: filter_row ft bpp row (previous_of lines i)) as El.
  { unfold line_at. replace (Z.to_nat (Z.of_nat i * (Z.of_nat (row_len h) + 1))) with (i * S (row_len h) + 0)%nat by nia.
    unfold raw_image.
    rewrite (slice_concat_uniform (S (row_len h)) _ i (ft :: filter_row ft bpp row (previous_of lines i)));
      [|apply scanlines_uniform|by apply scanlines_lookup|lia].
    unfold slice. rewrite drop_0. apply take_ge. cbn [length]. rewrite length_filter_row. lia. }
  unfold unfiltered. rewrite El. cbn [nth drop]. rewrite drop_0, <- Hl.
  replace (channels h) with (Z.of_nat bpp) by (unfold bpp; unfold channels in *; lia).
  apply unfilter_filter; try done.
  - unfold bpp. unfold channels in *. lia.
  - destruct i as [|j]; [done|]. cbn [previous_of]. destruct (lines !! j) as [[ft' row']|] eqn:Hj; [|done]. cbn.
    destruct (line_ok j ft' row' Hj) as (_ & Hb' & Hl'). split; [done|lia].
Qed.
End Image.

(** The parts of an encoded PNG of the image [lines]: its zlib stream [bs] is
    spread over the IDAT chunks of [ks].  Every dynamic block has a distance code:
    the decoder refuses one that has none. *)
Record encodes (h : PngHeader) (lines : list (Z * list Z)) (bs : list block) (ks : list Chunk)
    (ihdr_crc : list Z) (iend : Chunk) (trailer : list Z) : Prop := {
  en_file : file_ok h ihdr_crc ks iend trailer;
  en_image : image_ok h lines;
  en_blocks : bs <> [] /\ blocks_ok [] bs = true /\ forallb has_distances bs = true;
  en_raw : expand_blocks [] bs = raw_image h lines;
  en_idat : exists cmf flg, zlib_header_ok cmf flg = true /\ idat_of ks = zlib_encode cmf flg bs }.

(** A canvas on which vertical positions do not wrap around. *)
Definition drawable (mem : RosPngMemory) (c0 : list Z) : Prop :=
  canvas_ok mem c0 /\ pm_buffer mem = true /\ 0 < pm_width mem /\ 0 < pm_height mem <= 2 ^ 31.

Lemma draw_image_clipped h mem lines c0 :
  0 < pm_width mem -> pm_width mem <= pm_x mem \/ pm_height mem <= pm_y mem -> draw_image h mem lines c0 = c0.
Proof.
  intros Hw Hclip. rewrite <- (draw_image_nil h mem c0) at 2. apply list_eq. intros k. unfold draw_image.
  rewrite !list_lookup_imap. destruct (c0 !! k) as [p|]; [|done]. cbn. f_equal.
  apply draw_pixel_same; [done|]. intros py -> Hpy Hpx.
  pose proof (Z.mod_pos_bound (Z.of_nat k) (pm_width mem) Hw). lia.
Qed.

Section Encoded.
Context (L0 : gset nat).
Context `{PL : PngPlatformLaws}.
Context (h : PngHeader) (lines : list (Z * list Z)) (bs : list block) (ks : list Chunk).
Context (ihdr_crc : list Z) (iend : Chunk) (trailer slack : list Z).
Hypothesis Henc : encodes h lines bs ks ihdr_crc iend trailer.

Let file : list Z := png_file h ihdr_crc ks iend trailer.

Lemma encoded_parses : ref_parse file = Ok (h, idat_of ks) /\ header_valid h.
Proof.
  destruct Henc as [Hf _ _ _ (cmf & flg & _ & Hi)]. split.
  - apply ref_parse_encoded; [done|]. rewrite Hi. discriminate.
  - by apply parse_ihdr_encoded, (fo_header _ _ _ _ _ Hf).
Qed.

Lemma encoded_inflates rest init :
  bytes rest -> bytes init -> len init < 2 ^ 62 -> len (idat_of ks) < 2 ^ 62 ->
  len init = (Z.of_nat (row_len h) + 1) * height h ->
  png_inflate_zlib (idat_of ks ++ rest) (len (idat_of ks)) init (len init) = Ok (raw_image h lines).
Proof.
  intros Hr Hi Hl Hli Hn. destruct Henc as [_ Himg (Hne & Hok & Hdist) Hraw (cmf & flg & Hhead & Hidat)]. rewrite Hidat in Hli |- *. rewrite <- Hraw.
  rewrite inflate_encode, Hdist; try done. rewrite Hraw, length_raw_image by done. done.
Qed.

(** The drawn rows are the first rows of the image. *)
Definition image_rows (mem : RosPngMemory) (c0 : list Z) (h' : PngHeader) (raw : list Z) (i : Z)
    (prev : option (list Z)) (c : list Z) : Prop :=
  0 <= i /\ prev = previous_of lines (Z.to_nat i) /\ c = draw_image h mem (take (Z.to_nat i) lines) c0.

Lemma image_rows_step mem c0 i prev c :
  drawable mem c0 -> pm_y mem < pm_height mem -> 0 <= i < height h -> image_rows mem c0 h (raw_image h lines) i prev c ->
  exists row, unfiltered h (raw_image h lines) i prev = Ok row /\
    image_rows mem c0 h (raw_image h lines) (i + 1) (Some row) (draw_row h mem i row c).
Proof.
  intros (Hc & Hbuf & Hw & Hh) Hclip Hi (Hi0 & -> & ->). destruct encoded_parses as [_ Hv].
  destruct Henc as [_ Himg _ _ _]. pose proof Himg as [Hlen _].
  destruct (lookup_lt_is_Some_2 lines (Z.to_nat i)) as [[ft row] Hrow]; [lia|].
  exists row. replace i with (Z.of_nat (Z.to_nat i)) at 1 by lia. split; [by apply (unfiltered_line h lines Hv Himg _ ft)|].
  pose proof Hv as (Hw' & Hhh & _). destruct Hc as (Hx & Hy & Hcw & Hch & Hfit & Hmax).
  unfold image_rows. replace (Z.to_nat (i + 1)) with (S (Z.to_nat i)) by lia.
  split_and!; [lia|cbn [previous_of]; by rewrite Hrow|].
  replace i with (Z.of_nat (Z.to_nat i)) at 1 by lia. apply (draw_row_image h mem lines c0) with (ft := ft); try done; lia.
Qed.

Lemma rwp_render_image mem c0 s :
  bytes slack -> len (file ++ slack) < 2 ^ 62 -> drawable mem c0 -> held L0 c0 [] s ->
  rwp (png_render_memory_to_memory (Some (file ++ slack)) (len file) (Some mem)) s
    (fun _ s' => held L0 (draw_image h mem lines c0) [] s')
    (fun e s' => e = StatusNoMemory /\ out_of_memory /\ held L0 c0 [] s').
Proof.
  intros Hs Hm Hd Hheld. pose proof Hd as (Hc & Hbuf & Hw & Hht). destruct encoded_parses as [Hp Hv].
  assert (bytes (file ++ slack)) as Hb by (apply Forall_app; split; [by apply png_file_bytes, Henc|done]).
  eapply rwp_mono.
  - apply (rwp_render L0 file slack mem c0 Hb Hm Hc (fun _ => False)
      (fun h' raw => h' = h /\ raw = raw_image h lines)
      (image_rows mem c0)); try done.
    + intros [Hx|Hx]; [by rewrite Hbuf in Hx|lia].
    + intros e He. by rewrite Hp in He.
    + intros h' idat rest init Heq Hv' Hbi Hli Hbn Hln Hlen. rewrite Hp in Heq. injection Heq as <- <-.
      apply Forall_app in Hbi as [_ Hbr]. rewrite encoded_inflates by done. apply wp_ok. split_and!; try done.
      * by apply raw_image_bytes, Henc.
      * pose proof (length_raw_image h lines (en_image _ _ _ _ _ _ _ Henc)). lia.
    + intros h' raw _. split_and!; [done|done|]. change (Z.to_nat 0) with 0%nat. by rewrite take_0, draw_image_nil.
    + intros h' raw i prev c _ Hy [-> ->] Hi HI.
      destruct (image_rows_step mem c0 i prev c Hd Hy Hi HI) as (row & -> & Hrow). done.
  - intros u s' (h' & raw & c & [-> ->] & Hl & Hs' & Hres). destruct (_ || _) eqn:Hclip.
    + subst c. rewrite draw_image_clipped; [done|done|]. apply orb_true_iff in Hclip. rewrite !Z.leb_le in Hclip. done.
    + destruct Hres as (prev & _ & _ & ->). rewrite take_ge in Hs'; [done|].
      destruct Henc as [_ [Hlen _] _ _ _]. lia.
  - intros e s' [(? & _)|?]; done.
Qed.
End Encoded.
