(* ===== verification/PngEntrySpec.v ===== *)
(** The entry points of the PNG library: reading a file into a growable buffer,
    and the properties of PngGetInfo* and PngRender* for their callers. *)
From stdpp Require Import base list numbers gmap.
From Stdlib Require Import ZArith Lia.
From S2P Require Import Prelude PngBits PngInflate PngInflateProofs PngDeflate PngDeflateSpec PngFilter PngFilterSpec.
From S2P Require Import PngFile PngFileProofs PngRenderSpec.

Local Open Scope Z_scope.
Local Open Scope run_scope.

(** A block the callee may not release is one of its caller's. *)
Lemma held_absorb L0 c i ids s : held L0 c (ids ++ [i]) s -> held ({[i]} ∪ L0) c ids s.
Proof.
  intros [Hl Hn Ha Hx Hc]. apply NoDup_app in Hn as (Hn & Hni & _). split; try done.
  - rewrite Hl, list_to_set_app_L. set_solver.
  - intros j Hj Hin. apply elem_of_union in Hin as [Hin%elem_of_singleton|Hin].
    + subst j. apply (Hni i); set_solver.
    + apply (Ha j); set_solver.
Qed.

Lemma held_give_back L0 c i s : i ∉ L0 -> held ({[i]} ∪ L0) c [] s -> held L0 c [i] s.
Proof.
  intros Hi [Hl Hn Ha Hx Hc]. split; try done.
  - rewrite Hl. set_solver.
  - apply NoDup_singleton.
  - intros j Hj. apply list_elem_of_singleton in Hj. by subst.
Qed.

(** ** Reading a file

    [J] holds of the bytes read so far, [D] of all of them. *)
Section Reading.
Context (L0 : gset nat).
Context `{PL : PngPlatformLaws}.
Context (path : list Z) (J D : list Z -> Prop) (F : Z -> Prop).
Hypothesis Hstart : J [].
Hypothesis Hread : forall acc n r d, J acc -> 0 < n -> readFile path (len acc) n = (r, d) ->
  (r < 0 -> F r) /\ (r = 0 -> D acc) /\ (0 < r -> J (acc ++ d) /\ (r < n -> D (acc ++ d))).
Hypothesis Hempty : D [] -> F StatusIoError.

Definition read_failed (c : list Z) (e : Z) (s : PngState) : Prop :=
  e <> 0 /\ (F e \/ e = StatusNoMemory /\ out_of_memory) /\ held L0 c [] s.

Record reading (c : list Z) (p : option Buf * Z * Z) (s : PngState) : Prop := {
  rg_buf : exists acc, holds (fst (fst p)) (snd (fst p)) (snd p) acc /\ J acc;
  rg_cap : 4096 <= snd (fst p);
  rg_held : held L0 c (ids_of [fst (fst p)]) s }.

(** A full buffer is doubled, then filled: two turns per doubling. *)
Definition read_turns (p : option Buf * Z * Z) : nat :=
  (2 * Z.to_nat (62 - Z.log2 (snd (fst p))) + (if (snd p <? snd (fst p))%Z then 1 else 0))%nat.

Lemma rwp_read_step c p s :
  reading c p s ->
  rwp (read_step path p) s
    (fun r s' => match r with
       | inl p' => reading c p' s' /\ (read_turns p' < read_turns p)%nat
       | inr (b, n) => exists cap acc, holds b cap n acc /\ D acc /\ held L0 c (ids_of [b]) s'
       end) (read_failed c).
Proof.
  destruct p as [[b cap] size]. intros [(acc & Hb & HJ) Hcap Hh]. cbn [fst snd] in *.
  pose proof Hb as (Hlb & Hbb & Hs & Hmax & Ht & Hacc).
  assert (12 <= Z.log2 cap < 62) as Hlog.
  { split; [by apply (Z.log2_le_mono 4096)|]. apply Z.log2_lt_pow2; lia. }
  unfold read_step. cbv zeta. rewrite u64_small by lia. destruct (Z.eqb_spec (cap - size) 0) as [Hfull|Hroom].
  { rewrite u64_small by lia. apply rwp_bind. apply (rwp_releasing L0 _ _ _ c []).
    eapply rwp_mono; [apply (rwp_reallocate L0 _ _ _ acc _ c []); [done|by rewrite app_nil_r|lia]| |].
    - intros [b' cap'] s' (Hb' & Hreq & Hh'). rewrite app_nil_r in Hh'. apply rwp_ret. split.
      + split; cbn [fst snd]; [by exists acc|lia|done].
      + unfold read_turns. cbn [fst snd]. pose proof Hb' as (_ & _ & _ & Hmax' & _).
        assert (Z.log2 cap + 1 <= Z.log2 cap').
        { rewrite Z.add_1_r, <- Z.log2_double by lia. apply Z.log2_le_mono. lia. }
        assert (Z.log2 cap' < 62) by (apply Z.log2_lt_pow2; lia).
        destruct (Z.ltb_spec size cap), (Z.ltb_spec size cap'); lia.
    - intros e s' (-> & Hom & Hh'). split; [done|]. intros s2 Hs2. split_and!; [done|by right|done]. }
  destruct (readFile path size (cap - size)) as [r d] eqn:Er. rewrite <- Hacc in Er.
  destruct (Hread acc (cap - len acc) r d HJ ltac:(lia) Er) as (Hneg & Hzero & Hpos).
  destruct (Z.ltb_spec r 0).
  { apply (rwp_stop_releasing L0 _ _ _ c []); [by rewrite app_nil_r|]. intros s2 Hs2. split_and!; [lia|auto|done]. }
  destruct (read_result path (len acc) (cap - len acc) r d ltac:(lia) ltac:(lia) Er ltac:(lia)) as (Hrn & Hld & Hbd).
  destruct (Z.eqb_spec r 0) as [->|].
  { apply rwp_ret. exists cap, acc. auto. }
  destruct (Hpos ltac:(lia)) as [HJ' HD']. apply rwp_bind, rwp_lift. rewrite copy_loop_ok by lia. cbn [wp].
  assert (slice d (Z.to_nat 0) (Z.to_nat r) = d) as -> by (unfold slice; change (Z.to_nat 0) with 0%nat; rewrite drop_0; apply take_ge; lia).
  rewrite u64_small by lia. destruct b as [b|]; [|cbn in Hlb; lia]. cbn [with_data buf_data b_data ids_of] in *.
  assert (holds (Some (mkBuf (b_id b) (splice (b_data b) (Z.to_nat size) d))) cap (size + r) (acc ++ d)) as Hnew.
  { unfold holds. cbn [buf_data b_data]. split_and!; try lia.
    - rewrite length_splice; lia.
    - by apply bytes_splice.
    - unfold splice. rewrite Ht, app_assoc. apply take_app_length'. rewrite length_app. lia.
    - rewrite length_app. lia. }
  destruct (Z.ltb_spec r (cap - size)).
  - apply rwp_ret. exists cap, (acc ++ d). split_and!; [done|apply HD'; lia|done].
  - apply rwp_ret. split; [split; cbn [fst snd]; [by exists (acc ++ d)|done|done]|].
    unfold read_turns. cbn [fst snd]. destruct (Z.ltb_spec (size + r) cap), (Z.ltb_spec size cap); lia.
Qed.

Lemma rwp_read c s :
  held L0 c [] s ->
  rwp (png_read_entire_file path) s
    (fun '(b, n) s' => exists cap acc, holds b cap n acc /\ acc <> [] /\ D acc /\ held L0 c (ids_of [b]) s')
    (read_failed c).
Proof.
  intros Hh. unfold png_read_entire_file. apply rwp_bind. eapply rwp_post; [by apply (rwp_allocate L0 4096 c [] s)|].
  intros [b|] s1 [Hh1 Hb]; [|apply rwp_stop; split_and!; [done|by right|done]]. destruct Hb as (Hl & Hbb & _).
  apply rwp_bind. eapply rwp_post.
  { apply (rwp_iterate _ _ _ _ (reading c) read_turns); [apply rwp_read_step| |].
    - split; cbn [fst snd]; [|lia|by rewrite app_nil_r in Hh1]. exists []. split; [|done]. unfold holds.
      cbn [buf_data]. split_and!; try done; lia.
    - unfold read_turns. cbn [fst snd]. change (Z.log2 4096) with 12. cbn. lia. }
  intros [b' n] s2 (cap & acc & Hb' & HD & Hh2). pose proof Hb' as (_ & _ & _ & _ & _ & Hn).
  destruct (Z.eqb_spec n 0) as [->|].
  - apply (rwp_stop_releasing L0 _ _ _ c []); [by rewrite app_nil_r|]. intros s3 Hs3.
    destruct acc; [|cbn in Hn; lia]. split_and!; [done|auto|done].
  - apply rwp_ret. exists cap, acc. split_and!; try done. intros ->. cbn in Hn. lia.
Qed.
End Reading.

(** ** The entry points *)

(** Every block ever handed out has a smaller number than the next one. *)
Definition heap_wf (s : PngState) : Prop := forall i, i ∈ ps_live s -> (i < ps_next s)%nat.

(** A file whose reads all return the bytes of [content]. *)
Definition stable_file `{P : PngPlatform} (path content : list Z) : Prop :=
  forall off n, 0 <= off -> 0 < n ->
    readFile path off n =
    (Z.max 0 (Z.min n (len content - off)), slice content (Z.to_nat off) (Z.to_nat (Z.min n (len content - off)))).

Section Entries.
Context `{PL : PngPlatformLaws}.

(** A call on a file's buffer, after which the buffer is released. *)
Lemma rwp_on_file L0 b cap n acc c s (m : Run unit) (Q : list Z -> PngState -> Prop) (E : Z -> PngState -> Prop) :
  holds b cap n acc -> acc <> [] -> held L0 c (ids_of [b]) s ->
  (forall L s, held L c [] s ->
     rwp m s (fun _ s' => exists c', held L c' [] s' /\ forall s2, held L0 c' [] s2 -> Q c' s2)
             (fun e s' => exists c', held L c' [] s' /\ forall s2, held L0 c' [] s2 -> E e s2)) ->
  rwp (_ <~ releasing [b] m ;; png_release b) s (fun _ s' => exists c', Q c' s') E.
Proof.
  intros (Hl & _ & Hn & _ & _ & Ha) Hne Hh Hm. destruct b as [b|]; [|destruct acc; [done|cbn in *; lia]].
  change (ids_of [Some b]) with ([] ++ [b_id b]) in Hh. pose proof (held_absorb _ _ _ _ _ Hh) as Hin.
  assert (b_id b ∉ L0) as Hout by (apply (hd_apart _ _ _ _ Hh); set_solver).
  apply rwp_bind. specialize (Hm _ _ Hin). unfold rwp in Hm |- *. unfold releasing.
  destruct (m s) as [u s'|e s'|]; [| |done].
  - destruct Hm as (c' & Hs' & HQ). apply held_give_back in Hs'; [|done].
    pose proof (rwp_release L0 (Some b) c' [] s' (fun _ _ => False) Hs') as Hr. unfold rwp in Hr.
    destruct (png_release (Some b) s') as [u2 s2|? ?|]; [|done..]. exists c'. auto.
  - destruct Hm as (c' & Hs' & HE). apply held_give_back in Hs'; [|done].
    pose proof (rwp_release_all L0 [Some b] c' [] s' (fun _ _ => False) Hs') as Hr. unfold rwp in Hr. unfold andThen.
    destruct (release_all [Some b] s') as [u2 s2|? ?|]; [|done..]. cbn [stop]. by apply HE.
Qed.

Lemma holds_slack b cap n acc : holds b cap n acc ->
  exists rest, buf_data b = acc ++ rest /\ bytes (acc ++ rest) /\ len (acc ++ rest) < 2 ^ 62 /\ n = len acc.
Proof.
  intros (Hl & Hb & Hn & Hc & Ht & Ha). exists (drop (Z.to_nat n) (buf_data b)).
  rewrite <- Ht, take_drop. split_and!; try done; try lia. by rewrite Ht.
Qed.

Lemma rwp_render_file_safe path mem s :
  heap_wf s -> match mem with Some m => canvas_ok m (ps_canvas s) | None => True end ->
  rwp (PngRenderFileToMemory (Some path) mem) s
    (fun _ s' => released (ps_live s) (ps_canvas s) s')
    (fun e s' => e <> 0 /\ released (ps_live s) (ps_canvas s) s').
Proof.
  intros Hwf Hmem. apply held_start in Hwf. cbn [PngRenderFileToMemory]. apply rwp_bind. eapply rwp_mono.
  - apply (rwp_read (ps_live s) path (fun _ => True) (fun _ => True) (fun _ => True)); try done.
  - intros [b n] s1 (cap & acc & Hb & Hne & _ & Hh). destruct (holds_slack _ _ _ _ Hb) as (rest & -> & Hbr & Hlr & ->).
    eapply rwp_post; [apply (rwp_on_file _ _ _ _ _ _ _ _ (fun c' s' => released (ps_live s) (ps_canvas s) s') _ Hb Hne Hh)|].
    2: { intros u s' [_ H]. exact H. }
    intros L s2 Hs2. destruct mem as [m|].
    + eapply rwp_mono; [by apply (rwp_render_safe L)| |].
      * intros u s3 (c & Hl & Hc). exists c. split; [done|]. intros s4 Hs4. by exists c.
      * intros e s3 (He & c & Hl & Hc). exists c. split; [done|]. intros s4 Hs4. split; [done|]. by exists c.
    + apply rwp_stop. exists (ps_canvas s). split; [done|]. intros s4 Hs4. split; [done|]. by exists (ps_canvas s).
  - intros e s1 (He & _ & Hh). split; [done|]. by exists (ps_canvas s).
Qed.

Lemma stable_reads path content acc n r d :
  stable_file path content -> acc = take (length acc) content -> 0 < n ->
  readFile path (len acc) n = (r, d) ->
  (r < 0 -> False) /\ (r = 0 -> acc = content) /\
  (0 < r -> acc ++ d = take (length (acc ++ d)) content /\ (r < n -> acc ++ d = content)).
Proof.
  intros Hst Hacc Hn Hr. rewrite Hst in Hr by lia. injection Hr as <- <-.
  assert (length acc <= length content)%nat as Hle by (rewrite Hacc, length_take; lia).
  split_and!; [lia| |].
  - intros H0. rewrite Hacc. apply take_ge. lia.
  - intros Hpos. set (m := Z.min n (len content - len acc)) in *.
    assert (acc ++ slice content (Z.to_nat (len acc)) (Z.to_nat m) = take (length acc + Z.to_nat m) content) as ->.
    { rewrite Hacc at 1. unfold slice. rewrite Nat2Z.id. apply take_take_drop. }
    split; [by rewrite length_take, Nat.min_l by lia|]. intros Hlt. apply take_ge. lia.
Qed.

Section Image.
Context (h : PngHeader) (lines : list (Z * list Z)) (bs : list block) (ks : list Chunk).
Context (ihdr_crc : list Z) (iend : Chunk) (trailer : list Z).
Hypothesis Henc : encodes h lines bs ks ihdr_crc iend trailer.
Let file : list Z := png_file h ihdr_crc ks iend trailer.

Lemma rwp_render_file_image path mem s :
  heap_wf s -> drawable mem (ps_canvas s) -> stable_file path file ->
  rwp (PngRenderFileToMemory (Some path) (Some mem)) s
    (fun _ s' => held (ps_live s) (draw_image h mem lines (ps_canvas s)) [] s')
    (fun e s' => e = StatusNoMemory /\ out_of_memory /\ held (ps_live s) (ps_canvas s) [] s').
Proof.
  intros Hwf Hmem Hst. apply held_start in Hwf. cbn [PngRenderFileToMemory]. apply rwp_bind. eapply rwp_mono.
  - apply (rwp_read (ps_live s) path (fun acc => acc = take (length acc) file) (fun acc => acc = file) (fun _ => False)).
    + by rewrite take_0.
    + intros acc n r d HJ Hn Hr. apply (stable_reads path file acc n r d); done.
    + discriminate.
    + exact Hwf.
  - intros [b n] s1 (cap & acc & Hb & Hne & -> & Hh). destruct (holds_slack _ _ _ _ Hb) as (rest & -> & Hbr & Hlr & ->).
    eapply rwp_post; [apply (rwp_on_file _ _ _ _ _ _ _ _
      (fun c' s' => held (ps_live s) (draw_image h mem lines (ps_canvas s)) [] s') _ Hb Hne Hh)|].
    2: { intros u s' [_ H]. exact H. }
    intros L s2 Hs2. apply Forall_app in Hbr as [_ Hbr].
    eapply rwp_mono; [by apply (rwp_render_image L h lines bs ks ihdr_crc iend trailer rest Henc mem (ps_canvas s))| |].
    + intros u s3 Hs3. eexists. split; [exact Hs3|done].
    + intros e s3 (-> & Hom & Hs3). eexists. split; [exact Hs3|done].
  - intros e s1 (He & [[]|[-> Hom]] & Hh). done.
Qed.
End Image.
End Entries.

(** The first 33 bytes tell the size of the image. *)
Lemma info_of_ihdr h ihdr_crc rest :
  header_okb h = true -> bytes ihdr_crc -> length ihdr_crc = 4%nat -> bytes rest ->
  let b := png_signature ++ encode_chunk (mkChunk chunk_IHDR (ihdr_bytes h) ihdr_crc) ++ rest in
  png_get_info_from_bytes (Some b) (len b) = Ok (width h, height h).
Proof.
  intros Hh Hc Hc4 Hr. cbv zeta. destruct (parse_ihdr_encoded h Hh) as (Hp & Hb & _).
  set (k := mkChunk chunk_IHDR (ihdr_bytes h) ihdr_crc).
  pose proof (ihdr_chunk_okb h ihdr_crc Hh Hc Hc4) as Hk. fold k in Hk.
  destruct (encoded_chunk k rest Hk) as (Hl & Hn & Ht & Hd & _).
  pose proof (encode_chunk_bytes k Hk) as Hkb. set (tail := encode_chunk k ++ rest) in *.
  assert (bytes (png_signature ++ tail)) as Hball.
  { apply Forall_app. split; [apply signature_bytes|by apply Forall_app]. }
  assert (len (png_signature ++ tail) = 8 + len tail) as Hlen by (rewrite length_app; cbn [length png_signature]; lia).
  change (len (ck_data k)) with 13 in *. change (length (ck_data k)) with 13%nat in *.
  unfold png_get_info_from_bytes. rewrite Hlen. destruct (Z.ltb_spec (8 + len tail) 33); [lia|].
  assert (png_has_signature (Some (png_signature ++ tail)) (8 + len tail) = Ok true) as ->.
  { rewrite <- Hlen, signature_ref. by rewrite bool_decide_eq_true_2. }
  rewrite bind_ok. cbn [negb]. unfold PNG_SIGNATURE_SIZE.
  destruct (read_be_u32_ok (png_signature ++ tail) 8) as [-> _]; [done|lia|lia|]. rewrite bind_ok.
  destruct (read_be_u32_ok (png_signature ++ tail) (8 + 4)) as [-> _]; [done|lia|lia|]. rewrite bind_ok.
  change (slice (png_signature ++ tail) (Z.to_nat 8) 4) with (take 4 tail). rewrite Hn.
  change (slice (png_signature ++ tail) (Z.to_nat (8 + 4)) 4) with (slice tail 4 4). rewrite Ht.
  rewrite !Z.eqb_refl. cbn [negb orb]. change (8 + 8) with 16. rewrite parse_ihdr_slice by lia. format_names.
  change (slice (png_signature ++ tail) (Z.to_nat 16) (Z.to_nat 13)) with (slice tail 8 13). rewrite Hd.
  cbn [ck_data k]. change 13 with (len (ihdr_bytes h)). by rewrite parse_ihdr_ref, Hp, bind_ok.
Qed.

(** ** Claims *)


(** C8: rendering an untrusted file.  Whatever the file holds and however the
    reads go, [PngRenderFileToMemory] terminates, never leaves a buffer or the
    canvas, reports every failure with a non-zero status, and releases every
    block it allocated exactly once. *)
Theorem png_render_file_safe `{PL : PngPlatformLaws} path mem s :
  heap_wf s -> match mem with Some m => canvas_ok m (ps_canvas s) | None => True end ->
  match PngRenderFileToMemory path mem s with
  | Done _ s' => ps_live s' = ps_live s /\ length (ps_canvas s') = length (ps_canvas s)
  | Stop e s' => e <> 0 /\ ps_live s' = ps_live s /\ length (ps_canvas s') = length (ps_canvas s)
  | Crash => False
  end.
Proof.
  intros Hwf Hmem. destruct path as [path|]; [|done].
  pose proof (rwp_render_file_safe path mem s Hwf Hmem) as H. unfold rwp in H.
  destruct (PngRenderFileToMemory _ _ _) as [u s'|e s'|]; [| |done].
  - destruct H as (c & Hc & Hh). rewrite (hd_canvas _ _ _ _ Hh). by rewrite (held_nil _ _ _ Hh).
  - destruct H as (He & c & Hc & Hh). rewrite (hd_canvas _ _ _ _ Hh). by rewrite (held_nil _ _ _ Hh).
Qed.


(** rendering a file.  The same for [PngRenderFileToMemory], which first reads
    the file, whatever its size, into a buffer that it doubles as needed. *)
Theorem png_render_file_draws_image `{PL : PngPlatformLaws} h lines bs ks ihdr_crc iend trailer path mem s :
  encodes h lines bs ks ihdr_crc iend trailer -> stable_file path (png_file h ihdr_crc ks iend trailer) ->
  heap_wf s -> drawable mem (ps_canvas s) ->
  match PngRenderFileToMemory (Some path) (Some mem) s with
  | Done _ s' => ps_canvas s' = draw_image h mem lines (ps_canvas s) /\ ps_live s' = ps_live s
  | Stop e s' => e = StatusNoMemory /\ out_of_memory /\ ps_canvas s' = ps_canvas s /\ ps_live s' = ps_live s
  | Crash => False
  end.
Proof.
  intros Henc Hst Hwf Hd.
  pose proof (rwp_render_file_image h lines bs ks ihdr_crc iend trailer Henc path mem s Hwf Hd Hst) as H. unfold rwp in H.
  destruct (PngRenderFileToMemory _ _ _); [| |done].
  - split; [apply H|by apply (held_nil _ _ _ H)].
  - destruct H as (-> & Hom & Hh). split_and!; [done|done|apply Hh|by apply (held_nil _ _ _ Hh)].
Qed.

(** The size of an image.  [PngGetInfoFromMemory] and [PngGetInfo] report the
    width and height of the header of every PNG file the renderer accepts. *)
Theorem png_get_info_size `{PL : PngPlatformLaws} h ihdr_crc ks iend trailer path :
  let file := png_file h ihdr_crc ks iend trailer in
  file_ok h ihdr_crc ks iend trailer -> len file < 2 ^ 32 -> stable_file path file ->
  PngGetInfoFromMemory (Some file) (len file) = Ok (width h, height h) /\
  PngGetInfo (Some path) = Ok (width h, height h).
Proof.
  intros file Hok H32 Hst. pose proof (png_file_bytes _ _ _ _ _ Hok) as Hb. destruct Hok as [Hh [Hc Hc4] _ _ _].
  set (k := mkChunk chunk_IHDR (ihdr_bytes h) ihdr_crc).
  assert (length (png_signature ++ encode_chunk k) = 33%nat) as H33.
  { unfold encode_chunk. rewrite !length_app. change (ck_crc k) with ihdr_crc. rewrite Hc4. done. }
  assert (exists rest, file = png_signature ++ encode_chunk k ++ rest /\ bytes rest) as (rest & Hf & Hr).
  { exists (concat (map encode_chunk ks) ++ encode_chunk iend ++ trailer). split; [done|].
    apply Forall_app in Hb as [_ Hb]. by apply Forall_app in Hb as [_ Hb]. }
  split; [unfold PngGetInfoFromMemory; rewrite u32_small, Hf by lia; by apply info_of_ihdr|]. cbn [PngGetInfo]. rewrite Hst by lia.
  rewrite Hf, app_assoc, length_app, H33. rewrite Z.min_l, Z.max_r by lia.
  unfold slice. change (Z.to_nat 0) with 0%nat. change (Z.to_nat 33) with 33%nat.
  rewrite drop_0, take_app_length' by done. change (33 <? 33) with false. cbv iota.
  pose proof (info_of_ihdr h ihdr_crc [] Hh Hc Hc4 (List.Forall_nil _)) as Hi. cbv zeta in Hi. fold k in Hi.
  rewrite app_nil_r, H33 in Hi. exact Hi.
Qed.
