(* ===== verification/PngExample.v ===== *)
(** The theorems about the PNG decoder applied to concrete data: a zlib stream of
    a fixed, a stored and a dynamic block, small rows and small canvases. *)
From stdpp Require Import base list numbers gmap.
From Stdlib Require Import ZArith Lia.
From S2P Require Import Prelude PngBits PngHuffman PngHuffmanProofs PngCanonical PngNodes PngBuild.
From S2P Require Import PngInflate PngInflateProofs PngDeflate PngDeflateProofs PngDeflateSpec PngFilter PngFilterSpec.
From S2P Require Import PngFile PngFileProofs PngRenderSpec PngEntrySpec.

Local Open Scope Z_scope.

(** Deciding that a list is made of bytes, and the other list hypotheses. *)
Lemma bytes_check l : forallb byteb l = true -> bytes l.
Proof. rewrite forallb_forall. intros H. apply List.Forall_forall. intros x Hx. by apply byteb_spec, H. Qed.

(** ** Bits and codes *)
Definition ex_data : list Z := [0xB5; 0x3C; 0x01; 0xFF].

Definition ex_reader : PngBitReader := png_bit_reader_init ex_data 4.

Lemma ex_reader_wf : reader_wf ex_reader.
Proof. by apply reader_init_ok; [apply bytes_check|..]. Qed.

Lemma png_bit_reader_witness :
  if decide (Z.to_nat 11 <= length (stream ex_reader))%nat
  then exists r', png_bit_reader_read_bits ex_reader 11 =
         Ok (r', bits_value (take (Z.to_nat 11) (stream ex_reader))) /\
       reader_wf r' /\ stream r' = drop (Z.to_nat 11) (stream ex_reader)
  else png_bit_reader_read_bits ex_reader 11 = Fail StatusFault.
Proof. apply (png_bit_reader_reads ex_reader 11); [exact ex_reader_wf|lia]. Defined.

(** Lengths 2, 1, 3, 3 give the codes 10, 0, 110, 111. *)
Definition ex_lengths : list Z := [2; 1; 3; 3].

Lemma png_huffman_witness :
  exists t r', png_huffman_build ex_lengths (len ex_lengths) = Ok t /\
    decode_symbols (length [0; 2; 1; 3]%nat) (png_bit_reader_init [0xCD; 0x01] 2) t =
      Ok (r', map Z.of_nat [0; 2; 1; 3]%nat) /\
    stream r' = low_bits 0 7.
Proof.
  apply (png_huffman_roundtrip ex_lengths [0; 2; 1; 3]%nat).
  - by apply lengths_okb_ok.
  - done.
  - by left.
  - repeat (apply List.Forall_cons; [split; [cbn; lia|done]|]). apply List.Forall_nil.
  - by apply reader_init_ok; [apply bytes_check|..].
  - vm_compute. reflexivity.
Defined.

(** Three codes of length 1: an over-subscribed table still builds safely. *)
Lemma png_huffman_build_witness :
  match png_huffman_build [1; 1; 1] (len [1; 1; 1]) with
  | Ok t => tree_wf t /\ Forall (fun x => 0 <= x <= 15) [1; 1; 1] /\ has_codes [1; 1; 1]
  | Fail c => (c = StatusNotSupported /\ (Exists (fun x => 15 < x) [1; 1; 1] \/ ~ has_codes [1; 1; 1])) \/
              (c = StatusNoMemory /\ ~ lengths_ok [1; 1; 1])
  | _ => False
  end.
Proof. apply (png_huffman_build_outcome [1; 1; 1]); [by apply bytes_check|cbn; lia]. Defined.

(** ** Streams *)
Definition ex_header : dyn_header :=
  mkHeader 257 2 18 [2; 2; 2; 0; 0; 0; 0; 0; 0; 0; 0; 0; 0; 0; 0; 0; 0; 0; 2]
    [Zeros 65; Len 1; Zeros 138; Zeros 52; Len 2; Len 1; Len 1].

Definition ex_blocks : list block :=
  [Fixed [Literal 65; Literal 66; Match 5 2]; Stored [1; 2; 3]; Dynamic ex_header [Literal 65; Literal 65]].

(** A block of literals only, with no distance code: [65; 65]. *)
Definition ex_literal_header : dyn_header :=
  mkHeader 257 1 18 [2; 1; 0; 0; 0; 0; 0; 0; 0; 0; 0; 0; 0; 0; 0; 0; 0; 0; 2]
    [Zeros 65; Len 1; Zeros 138; Zeros 52; Len 1; Len 0].

Definition ex_zeros (n : nat) : list Z := replicate n 0.

Lemma ex_zeros_bytes n : bytes (ex_zeros n).
Proof. by apply Forall_replicate. Qed.

Lemma png_inflate_roundtrip_witness :
  png_inflate_zlib (zlib_encode 0x78 0x9C ex_blocks ++ ex_zeros 5) (len (zlib_encode 0x78 0x9C ex_blocks)) (ex_zeros 12) (len (ex_zeros 12)) =
    Ok (expand_blocks [] ex_blocks) /\
  expand_blocks [] ex_blocks = [65; 66; 65; 66; 65; 66; 65; 1; 2; 3; 65; 65].
Proof.
  split; [|vm_compute; reflexivity].
  apply (png_inflate_zlib_roundtrip 0x78 0x9C ex_blocks (ex_zeros 5) (ex_zeros 12)).
  - reflexivity.
  - done.
  - vm_compute. reflexivity.
  - apply ex_zeros_bytes.
  - apply ex_zeros_bytes.
  - vm_compute. reflexivity.
  - vm_compute. reflexivity.
  - vm_compute. reflexivity.
Defined.

(** RFC 1951 allows the block; the decoder refuses it. *)
Example png_literal_block_refused :
  let stream := zlib_encode 0x78 0x01 [Dynamic ex_literal_header [Literal 65; Literal 65]] in
  blocks_ok [] [Dynamic ex_literal_header [Literal 65; Literal 65]] = true /\
  stream = [120; 1; 5; 192; 1; 9; 0; 0; 0; 0; 144; 109; 254; 159; 18; 1; 0; 197; 0; 131] /\
  png_inflate_zlib stream (len stream) (ex_zeros 2) 2 = Fail StatusNotSupported.
Proof. cbv zeta. split; [|split]; vm_compute; reflexivity. Qed.

(** Reserved block type 3 after a valid zlib header. *)
Lemma png_inflate_safe_witness :
  match png_inflate_zlib [0x78; 0x01; 0x07; 0; 0; 0; 1] 7 (ex_zeros 4) (len (ex_zeros 4)) with
  | Ok out => bytes out /\ length out = length (ex_zeros 4) /\
      be_value (slice [0x78; 0x01; 0x07; 0; 0; 0; 1] (Z.to_nat (7 - 4)) 4) = adler32 out
  | Fail c => c <> 0
  | _ => False
  end.
Proof.
  apply (png_inflate_zlib_safe [0x78; 0x01; 0x07; 0; 0; 0; 1] 7 (ex_zeros 4));
    [by apply bytes_check|apply ex_zeros_bytes|cbn; lia|cbn; lia|cbn; lia].
Defined.

Lemma png_adler32_witness : png_adler32 [87; 105; 107; 105] (len [87; 105; 107; 105]) = Ok 0x3da0195.
Proof. rewrite (png_adler32_correct [87; 105; 107; 105]); [reflexivity|by apply bytes_check]. Defined.

(** ** Rows *)
Lemma png_unfilter_witness :
  png_unfilter_row (filter_row 4 3 [10; 20; 30; 40; 50; 250] (Some [1; 2; 3; 200; 5; 6])) (Some [1; 2; 3; 200; 5; 6])
    (len [10; 20; 30; 40; 50; 250]) (Z.of_nat 3) 4 = Ok [10; 20; 30; 40; 50; 250].
Proof.
  apply (png_unfilter_row_inverts 3 [10; 20; 30; 40; 50; 250] (Some [1; 2; 3; 200; 5; 6]) 4);
    [lia|by apply bytes_check|split; [by apply bytes_check|done]|lia].
Defined.

(** A row of three RGB pixels whose last one falls off a 4x2 canvas. *)
Lemma png_blit_witness :
  png_blit_row [1; 2; 3; 4; 5; 6; 7; 8; 9] 3 (ex_zeros 8) 4 2 2 1 2 =
  Ok (splice (ex_zeros 8) (Z.to_nat (1 * 4 + 2))
        (row_pixels 2 [1; 2; 3; 4; 5; 6; 7; 8; 9] (Z.to_nat (Z.min 3 (4 - 2))))).
Proof. apply (png_blit_row_draws 2 3 4 2 2 1); [by apply bytes_check|done..]. Defined.

(** ** Files: an RGB image of two rows of two pixels, drawn over the right edge
    of a canvas of three by two *)
Definition pic_header : PngHeader := mkPngHeader 2 2 8 2 0 0 0.
Definition pic_lines : list (Z * list Z) := [(1, [10; 20; 30; 40; 50; 60]); (4, [11; 21; 31; 41; 51; 61])].
Definition pic_image_blocks : list block := [Stored (take 6 (raw_image pic_header pic_lines));
  Fixed (map Literal (drop 6 (raw_image pic_header pic_lines)))].
Definition pic_crc : list Z := [1; 2; 3; 4].
Definition pic_stream : list Z := zlib_encode 0x78 0x01 pic_image_blocks.

(** The stream in two IDAT chunks with a tEXt chunk between them. *)
Definition pic_chunks : list Chunk :=
  [mkChunk PNG_CHUNK_IDAT (take 5 pic_stream) pic_crc; mkChunk 0x74455874 [65; 66] pic_crc;
   mkChunk PNG_CHUNK_IDAT (drop 5 pic_stream) pic_crc].
Definition pic_iend : Chunk := mkChunk PNG_CHUNK_IEND [] pic_crc.
Definition pic_png : list Z := Eval vm_compute in png_file pic_header pic_crc pic_chunks pic_iend [0; 0].

Lemma pic_png_file : png_file pic_header pic_crc pic_chunks pic_iend [0; 0] = pic_png.
Proof. vm_compute. reflexivity. Qed.

Lemma pic_encodes : encodes pic_header pic_lines pic_image_blocks pic_chunks pic_crc pic_iend [0; 0].
Proof.
  split.
  - split; [done|by split; [apply bytes_check|]|vm_compute; reflexivity|done|by apply bytes_check].
  - split; [done|]. repeat (apply List.Forall_cons; [split_and!; [lia|lia|by apply bytes_check|done]|]). apply List.Forall_nil.
  - split; [done|split; vm_compute; reflexivity].
  - vm_compute. reflexivity.
  - exists 0x78, 0x01. split; vm_compute; reflexivity.
Qed.

(** A heap of blocks of zeros below one megabyte, and one file. *)
Definition pic_alloc (n : Z) : option (list Z) :=
  if (0 <? n) && (n <? 2 ^ 20) then Some (replicate (Z.to_nat n) 0) else None.

#[local] Instance pic_platform : PngPlatform := {
  alloc _ n := pic_alloc n;
  readFile _ off n :=
    (Z.max 0 (Z.min n (len pic_png - off)), slice pic_png (Z.to_nat off) (Z.to_nat (Z.min n (len pic_png - off))))
}.

#[local] Instance pic_platform_laws : PngPlatformLaws pic_platform.
Proof.
  split.
  - intros k n d. cbn [alloc pic_platform]. unfold pic_alloc. destruct (_ && _) eqn:Hn; [|done]. zbool. intros [= <-].
    rewrite length_replicate. split_and!; [lia|by apply Forall_replicate|lia].
  - intros path off n r d Ho Hn [= <- <-] Hr. split_and!; [lia| |by apply bytes_slice, bytes_check].
    unfold slice. rewrite length_take, length_drop. change (length pic_png) with 112%nat. lia.
Qed.

Lemma pic_stable path : stable_file path (png_file pic_header pic_crc pic_chunks pic_iend [0; 0]).
Proof. intros off n Ho Hn. by rewrite pic_png_file. Qed.

Definition pic_memory : RosPngMemory := mkPngMemory 2 0 3 2 true.
Definition pic_state : PngState := mkPng 0 ∅ [0; 0; 0; 0; 0; 0].

Lemma pic_heap_wf : heap_wf pic_state.
Proof. intros i Hi. set_solver. Qed.

Lemma pic_drawable : drawable pic_memory (ps_canvas pic_state).
Proof. unfold drawable, canvas_ok. cbn. lia. Qed.


Lemma png_render_safe_witness :
  match PngRenderFileToMemory (Some []) (Some pic_memory) pic_state with
  | Done _ s' => ps_live s' = ps_live pic_state /\ length (ps_canvas s') = length (ps_canvas pic_state)
  | Stop e s' => e <> 0 /\ ps_live s' = ps_live pic_state /\ length (ps_canvas s') = length (ps_canvas pic_state)
  | Crash => False
  end.
Proof.
  apply (png_render_file_safe (Some []) (Some pic_memory) pic_state); [exact pic_heap_wf|apply pic_drawable].
Defined.

(** The left column of the image is on the canvas, the right one is clipped. *)
Lemma pic_drawn :
  draw_image pic_header pic_memory pic_lines (ps_canvas pic_state) = [0; 0; 0xFF0A141E; 0; 0; 0xFF0B151F].
Proof. vm_compute. reflexivity. Qed.


Lemma png_render_file_image_witness :
  match PngRenderFileToMemory (Some [47]) (Some pic_memory) pic_state with
  | Done _ s' => ps_canvas s' = draw_image pic_header pic_memory pic_lines (ps_canvas pic_state) /\
      ps_live s' = ps_live pic_state
  | Stop e s' => e = StatusNoMemory /\ out_of_memory /\ ps_canvas s' = ps_canvas pic_state /\
      ps_live s' = ps_live pic_state
  | Crash => False
  end.
Proof.
  apply (png_render_file_draws_image pic_header pic_lines pic_image_blocks pic_chunks pic_crc pic_iend [0; 0] [47]
    pic_memory pic_state); [exact pic_encodes|apply pic_stable|exact pic_heap_wf|exact pic_drawable].
Defined.

Lemma png_get_info_witness :
  PngGetInfoFromMemory (Some (png_file pic_header pic_crc pic_chunks pic_iend [0; 0]))
    (len (png_file pic_header pic_crc pic_chunks pic_iend [0; 0])) = Ok (width pic_header, height pic_header) /\
  PngGetInfo (Some [47]) = Ok (width pic_header, height pic_header).
Proof.
  apply (png_get_info_size pic_header pic_crc pic_chunks pic_iend [0; 0] [47]);
    [apply (en_file _ _ _ _ _ _ _ pic_encodes)|rewrite pic_png_file; reflexivity|apply pic_stable].
Defined.

(** Running the model draws the picture. *)
Example pic_renders :
  match PngRenderFileToMemory (Some [47]) (Some pic_memory) pic_state with
  | Done _ s' => ps_canvas s' = [0; 0; 0xFF0A141E; 0; 0; 0xFF0B151F]
  | _ => False
  end.
Proof. vm_compute. reflexivity. Qed.
